(* ===== verification/_CoqProject ===== *)
-Q . S2P
Prelude.v
NlHeaders.v
FlatRecord.v
AttrDecoder.v
InetDiag.v
TcpInfo.v
Deserializers.v
Enrich.v
Envelope.v
Poller.v
Deserialize.v
DeserializeSpec.v
Netlinker.v
IoRing.v
IoUring.v
RtAttr.v
NlRequest.v
NlWalk.v
NlEnvelope.v
RtParsers.v
RtParsersSpec.v
RouteSpec.v
LinkStats.v
Localnet.v
LocalnetSpec.v
Bond.v
Links.v
LinksSpec.v
Rules.v
RulesSpec.v
Events.v
Tracker.v
TrackerSpec.v
Locality.v
LocalitySpec.v
LocalityDump.v
Rtnlmon.v
MonitorTracker.v
NsDiscover.v
Namespaces.v
NsLife.v
RtWrite.v
RtWriteSpec.v
LinkWriteSpec.v
NetText.v
Lldp.v
LldpMarshal.v
LldpRead.v
LldpSpec.v
GoStrings.v
KeyIndex.v
LinkModel.v
Deadlines.v
LinkReducer.v
LinkReducerSpec.v
ParquetRow.v
S3Upload.v
S3UploadSpec.v
S3Dest.v
Hmac.v
ListenerAuth.v
ListenerAuthSpec.v
Reconciler.v
LinkInventory.v
ReconcilerSpec.v
Scheduler.v
SchedulerSpec.v
IpAsn.v
IpAsnSpec.v
