(* ===== verification/Prelude.v ===== *)
(** * xtcp2: a verification development of the collector

    xtcp2 polls the kernel for the state of every TCP socket of every network
    namespace of a host, over netlink. This development models the collector:
    the netlink codec (src/pkg/xtcpnl), the daemon's pipeline from a received
    packet to a sent envelope and to a stored Parquet object (src/pkg/xtcp,
    src/pkg/io_uring), the state it enriches records from (src/pkg/localnet,
    src/pkg/rtnlmon, src/pkg/nsdiscover, src/pkg/lldp), the link monitor it can
    embed (src/pkg/linkmonitor), the ASN feed (src/pkg/ipasn) and the
    authentication of its listeners (src/pkg/listenerauth).

    ** How the program fits together, and where each part is

    A poll cycle (poller.go: [Poller]) reconciles the set of monitored
    namespaces, acquires an envelope and sends an inet_diag dump request
    ([NlRequest]: BuildNLRequest, the serializers, the sequence number) on every
    namespace's socket. A receiver per socket (netlinker.go: [Netlinker]) counts
    the packets of a dump and hands them to decoders; the decoder that finishes
    a dump's last packet signals done. A decoder runs deserialize.go
    ([Deserialize], spec in [DeserializeSpec]) on a packet: the framing of
    [NlHeaders], a record of [FlatRecord] per inet_diag message, its attributes
    through the registry of [Deserializers] whose entries are the decoders of
    [InetDiag] and [TcpInfo] under the contract of [AttrDecoder] (a type class),
    then enrich.go ([Enrich]) and the append ([Envelope]), whose flushes race
    the poller's ([Poller]). With io_uring the receiver is
    netlinker_iouring.go ([IoUring]) over the ring of pkg/io_uring ([IoRing]).
    A flushed envelope may go to the S3 destination: Send, Close and the worker
    are [S3Dest], the worker's object and uploads [S3Upload] ([S3UploadSpec]),
    its rows [ParquetRow].

    The rtnetlink side of src/pkg/xtcpnl is the attribute builder and walker
    ([RtAttr]), the request builders and gates ([NlRequest]), the reply walk and
    dump loop ([NlWalk]), the strict envelope walk, extended acks and the
    single-reply talk ([NlEnvelope]), and the parsers of addresses, neighbours
    and routes ([RtParsers]; specs in [RtParsersSpec], [RouteSpec]), links with
    their counters and bonds ([LinkStats], [Bond], [Links], [LinksSpec]), rules
    and next-hop objects ([Rules], [RulesSpec]) and notifications ([Events]).
    The write builders are [RtWrite], what they say [RtWriteSpec] and
    [LinkWriteSpec].

    On these rest the classification of a destination (localnet.go: [Localnet],
    [LocalnetSpec]), the tracker that folds notifications (tracker.go:
    [Tracker], [TrackerSpec]), the index of namespaces' snapshots with its
    listeners and debounce (enrich_locality.go, enrich_locality_listen.go:
    [Locality], [LocalitySpec]), the dumps a snapshot is built from
    ([LocalityDump]), and the monitor that feeds a tracker (rtnlmon_linux.go:
    [Rtnlmon]; with the tracker as its handler, [MonitorTracker]).

    The set of namespaces is discovered by [NsDiscover] (scanner.go, resolve.go,
    ns_discover.go), reconciled by [Namespaces] (ns_reconcile.go, ns_add.go,
    ns_delete.go) and each one's goroutine lives as [NsLife] says
    (ns_net_namespace.go, ns_createNetlinkersAndStore.go).

    Beside the pipeline stand the client of lldpd ([Lldp]; the format it reads
    in [LldpMarshal], the readings in [LldpRead], the rest in [LldpSpec]); the
    link monitor's data and identities ([LinkModel]), its deadline queue
    ([Deadlines]) and the inventory with its counts (reducer.go:
    [LinkReducer], [LinkReducerSpec]), both over the position map of
    [KeyIndex]; what its operations do to the inventory and cost
    ([LinkInventory]) and the reconciler that drives them with events, dumps and
    queries, among the goroutines it talks to (reconcile*.go,
    scheduler_inventory.go: [Reconciler], [ReconcilerSpec]), and the scheduler
    that gives the collectors' jobs to four workers (scheduler.go,
    scheduler_queue.go, scheduler_workers.go, scheduler_deadlines.go, and
    traffic_schedule.go's dispatch: [Scheduler], [SchedulerSpec]); and the listeners' credentials and access
    policy (listenerauth.go, policy.go: [ListenerAuth], [ListenerAuthSpec]) with
    the signatures of [Hmac]. The table from addresses to their owners, its
    reloads, and the copy of it the daemon publishes and starts from are in
    [IpAsn] (ipasn.go, enrich_asn.go; specs in [IpAsnSpec]), over a file system
    with hard links. [GoStrings] and [NetText] have what these use of Go's
    strings, and of netip's addresses as text.

    ** Conventions

    A Go slice of bytes is a list of [Z]; a sized integer is a [Z] with its
    wrap-around written out ([uint32], [int64], ...); an expression that may
    panic is an [option], whose [None] is the panic, and an error result is a
    value beside it, so that "no panic" and "no error" are different theorems. A
    struct with many fields of one type keeps them as a function from the
    field's name. Concurrency is a step function or relation over atomic steps -
    one critical section, one channel or atomic operation, one access to a
    sync.Map - so that a theorem about reachable states is about every
    interleaving.

    Loops that are not structural carry fuel, chosen at the call from the length
    of the input (each round consumes at least the bytes of one header), and the
    specifications are equations or total statements: they say the loop returns,
    not what it returns if it does. [LocalitySpec.refresh_terminates],
    [NsLife.cancelled_instance_exits] and [S3Dest.s3_worker_exits] bound the
    steps of the loops that are step relations.

    ** What the theorems show

    - The packet decoder, with the default Modulus of 1: it implements a
      functional reading of the packet
      ([DeserializeSpec.Deserialize_refines_spec]) and decodes what was encoded
      ([Deserialize_roundtrip]). It reports every record under any other Modulus
      too ([Deserialize_modulus_reports_all], against the flag's documentation), and
      does not depend on what the pool's records held
      ([Deserialize_pool_independent]). Every attribute decoder and tcp_info
      under every kernel's length: [InetDiag], [TcpInfo].
    - The pipeline: every record appended is in one place at every moment
      ([Poller.poller_conserves_records]), and in orderly cycles - each socket
      done once, after its records, before the poll timeout - all of them are
      sent ([poller_loses_nothing]; how the others lose rows are lemmas); the
      envelope stays within its caps; and a dump is signalled done at most once,
      after its last packet, and as long as the Poller receives, once
      ([Netlinker.done_signal_safe], [done_signal_live]).
    - The codec: built attributes walk back ([RtAttr.encoder_walker_roundtrip]);
      a dump delivers exactly the kernel's messages and ends ([NlWalk]); every
      field of a parsed message as a function of its bytes, and the exact
      conditions of each error (the Spec files).
    - Classification: a lookup is the longest match in a function of the dumps
      ([LocalnetSpec.Lookup_refines_spec]); folding a notification onto the
      tracker of the kernel's tables gives the tracker of the changed tables
      ([MonitorTracker.tracker_tracks_changes]); the tracker's unreported changes
      are invisible, a deleted link is used by nothing
      ([TrackerSpec.unreported_is_invisible], [deleted_link_is_unused]); a live
      listener's slot is current under every interleaving
      ([LocalitySpec.live_slot_current]).
    - The monitor: from a snapshot on, unless a link goes down or the kernel
      drops a route in a way the tracker's comments do not name, the tracker plus
      what is queued is the tracker of the kernel's tables, whatever was lost on
      the way and however the dumps interleave with changes
      ([MonitorTracker.tracker_follows_kernel]); a link going down during a dump
      leaves a stale route ([stale_route_after_link_down]); with the kernel at
      rest, every loss, and every batch that ends after the refresh interval,
      ends in the tracker of the kernel's tables ([monitor_recovers]).
    - Namespaces: the scan, the union, and one reconciliation in any map order
      ([NsDiscover], [Namespaces.reconcile_spec]); no interleaving of a delete
      with a goroutine's set-up leaves a stale entry, a leaked socket or a
      goroutine that does not end ([NsLife.no_stale_entries],
      [socket_has_one_owner], [cancelled_instance_exits]); the interleavings
      that do go wrong are theorems too ([failed_setns_polls_own_namespace],
      [readd_orphans_goroutine], [fd_entry_leaks], [MapCount_underflows]).
    - io_uring: packets reach the decoders in the order the kernel received
      them, the receiver does not run dry of buffers unless a Submit fails (then
      it is stuck: [IoUring.failed_submit_stalls]), and the teardown with a
      callback returns every buffer ([IoUring.iouring_receives_in_order],
      [iouring_progress], [IoRing.ring_returns_every_buffer]).
    - Writes: a built address, route or link request reads back as the write it
      was built from ([RtWriteSpec], [LinkWriteSpec]).
    - S3: every row of an envelope the worker received is in exactly one object,
      with its date, or in the count of failed writes
      ([S3Dest.s3_conserves_rows], which says which counters count what); after
      Close the worker ships what is queued and exits
      ([s3_close_ships_everything], [s3_worker_exits]); an upload ends in one of
      three ways with its counters ([S3UploadSpec.uploadWithRetry_spec]); no
      column is dropped or crossed ([ParquetRow.rowFromProto_complete]).
    - LLDP: nothing lldpd sends makes the client panic
      ([LldpSpec.lldp_never_panics]), and a serialized neighbour table is read
      back ([LldpRead.ParseHardware_reads]).
    - Link monitor: the queue is a map from keys to deadlines that pops the
      earliest ([Deadlines.deadlines_refine_map]); the published counts are
      those of the inventory ([LinkReducerSpec.reducer_counts]) and a late
      answer to a removed or replaced device changes nothing
      ([stale_answer_ignored]). Under every interleaving of the kernel, the event
      reader, the executor and the owner, a reconciled inventory is the kernel's
      table wherever nothing is on its way ([ReconcilerSpec.reconciled]); the
      owner never panics and stops only when a sequence or the clock runs out
      ([owner_safe]); a commit is refused before anything changes or goes through
      whole, but for one failure that comes late ([commit_outcomes],
      [commit_fails_late]); and a reconciliation under way is never stuck
      ([reconciliation_moves]).
    - Collector jobs: a request is not lost, a collector has one worker at most
      even past its deadline ([SchedulerSpec.request_kept_pending],
      [one_attempt_each]); the owner and the workers neither panic nor wait on a
      full channel ([scheduler_safe]), with traffic batches taking workers among
      the jobs; while none does, the turn of a job an event or a poll asked for
      comes within a bound that depends only on the number of devices
      ([turn_comes]).
    - The ASN feed: an address has the owner of the last row of the longest
      prefix that contains it ([IpAsnSpec.lookup_answers]); a refresh that skips
      or rebuilds serves the file that is there, if no replaced file's size and
      time come back ([refresh_serves_current]); whatever call fails and wherever
      the process stops, publishing a copy under a .zst name is all or nothing ([publish_atomic]) and the next start loads the old table
      or the new ([restart_after_crash]); the float64 window of the sanity check
      is exact ([validateWithin_exact]).
    - Listeners: which headers are accepted ([ListenerAuthSpec.accepted_headers]),
      what each credential reaches ([policy_grants]), and that a client with the
      server's credentials is let in ([client_is_let_in]).

    ** Parameters

    The longest-prefix-match table (github.com/gaissmai/bart) is the class
    [Localnet.PrefixTable], and for the ASN feed [IpAsn.AttrTable], with its
    documented laws, instantiated by a finite map for the witnesses. Parquet and
    zstd are the class [IpAsn.Codec], whose one law is that what was written is
    read back; the witnesses use a small format of their own. Enrichment feeds are the interfaces of the source.
    The kernel's side of a multicast socket is the part of [Rtnlmon]'s relation
    that Run's comment documents, and its tables change by the identities and
    with the silent losses the Tracker's comments document. What a system call returns is an argument.
    golang.org/x/sys/unix constants are written as their values.

    ** Not modelled

    Histograms, logging, and counters no theorem is about; the protobuf runtime
    and the marshallers; the destinations other than S3, whose work is in client
    libraries; gRPC services and flag parsing; setting up sockets and threads
    beyond the steps named above; of the link monitor, the collectors (ioctls
    and sysfs files), the samples of results, its publication and files, none of
    which decides which devices are there, and of the traffic schedule when a
    batch is due and what becomes of its reply; of the ASN feed, the names of the previous and temporary copies, the
    times of a load and what is published of them. Cgroup ids are file handles
    of the running kernel; the other rtnetlink families are read by goip alone,
    and goip renders what the parsers above return. *)

From stdpp Require Export base option gmap strings numbers list.
#[export] Set Default Proof Using "Type".
Open Scope Z_scope.

(** ** Go values

    A Go slice of bytes is a list of [Z] (each in [0, 256), see [wf_bytes]),
    an [int] or [uintN] is a [Z], and an expression that may end in a runtime
    panic (an out-of-range index or slice bound) is an [option]: [None] is the
    panic.  An [error] result is a value, kept apart from a panic. *)

Declare Scope go_scope.
Delimit Scope go_scope with go.
Open Scope go_scope.

Abbreviation bytes := (list Z).
Abbreviation go := option.

Definition is_byte (b : Z) : Prop := 0 <= b < 256.
Abbreviation wf_bytes := (Forall is_byte).

#[export] Instance is_byte_dec b : Decision (is_byte b).
Proof. unfold is_byte; apply _. Defined.

Definition glen {A} (l : list A) : Z := Z.of_nat (length l).

(** [data[i]] *)
Definition index {A} (l : list A) (i : Z) : go A :=
  if decide (0 <= i) then l !! Z.to_nat i else None.

(** [data[lo:hi]] *)
Definition slice {A} (l : list A) (lo hi : Z) : go (list A) :=
  if decide (0 <= lo <= hi /\ hi <= glen l)
  then Some (take (Z.to_nat (hi - lo)) (drop (Z.to_nat lo) l))
  else None.

(** Writing the bytes [src] over [l] from offset [lo], as [PutUintN] and
    [copy] into [l[lo:lo+len(src)]] do. *)
Definition put_at {A} (l : list A) (lo : Z) (src : list A) : go (list A) :=
  if decide (0 <= lo /\ lo + glen src <= glen l)
  then Some (take (Z.to_nat lo) l ++ src ++ drop (Z.to_nat lo + length src) l)
  else None.

(** [copy(l[lo:], src)] *)
Definition copy_at {A} (l : list A) (lo : Z) (src : list A) : go (list A) :=
  if decide (0 <= lo <= glen l) then put_at l lo (take (Z.to_nat (glen l - lo)) src) else None.

(** [make([]byte, n)] *)
Definition make (n : Z) : bytes := replicate (Z.to_nat n) 0.

(** ** Byte order: [encoding/binary] *)

Fixpoint le_combine (b : bytes) : Z :=
  match b with
  | [] => 0
  | h :: t => h + 256 * le_combine t
  end.

Definition be_combine (b : bytes) : Z := le_combine (reverse b).

Fixpoint le_split (n : nat) (z : Z) : bytes :=
  match n with
  | O => []
  | S n => z mod 256 :: le_split n (z / 256)
  end.

Definition be_split (n : nat) (z : Z) : bytes := reverse (le_split n z).

(** [binary.LittleEndian.Uint16(b)] and its siblings panic on a short [b] and
    ignore bytes past the ones they read. *)
Definition le_uint (n : nat) (b : bytes) : go Z :=
  if decide (n <= length b)%nat then Some (le_combine (take n b)) else None.
Definition be_uint (n : nat) (b : bytes) : go Z :=
  if decide (n <= length b)%nat then Some (be_combine (take n b)) else None.

(** [binary.LittleEndian.UintN(data[lo:hi])] *)
Definition LE16 (data : bytes) (lo hi : Z) : go Z := slice data lo hi ≫= le_uint 2.
Definition LE32 (data : bytes) (lo hi : Z) : go Z := slice data lo hi ≫= le_uint 4.
Definition LE64 (data : bytes) (lo hi : Z) : go Z := slice data lo hi ≫= le_uint 8.
Definition BE16 (data : bytes) (lo hi : Z) : go Z := slice data lo hi ≫= be_uint 2.
Definition BE32 (data : bytes) (lo hi : Z) : go Z := slice data lo hi ≫= be_uint 4.

(** Conversions to a w-bit unsigned and to int32. *)
Definition uint8 (z : Z) : Z := z mod 2 ^ 8.
Definition uint16 (z : Z) : Z := z mod 2 ^ 16.
Definition uint32 (z : Z) : Z := z mod 2 ^ 32.
Definition uint64 (z : Z) : Z := z mod 2 ^ 64.
Definition int32 (z : Z) : Z :=
  let u := uint32 z in if decide (u < 2 ^ 31) then u else u - 2 ^ 32.

Definition int64 (z : Z) : Z :=
  let u := uint64 z in if decide (u < 2 ^ 63) then u else u - 2 ^ 64.

(** The bytes of [data] from [off], [n] of them, read little-endian: what a
    successful [LEn] returns. *)
Definition le_at (n : nat) (data : bytes) (off : Z) : Z :=
  le_combine (take n (drop (Z.to_nat off) data)).
Definition be_at (n : nat) (data : bytes) (off : Z) : Z :=
  be_combine (take n (drop (Z.to_nat off) data)).
Definition byte_at (data : bytes) (off : Z) : Z := nth (Z.to_nat off) data 0.

(** ** Lemmas on lengths, slices and reads *)

Lemma glen_nonneg {A} (l : list A) : 0 <= glen l.
Proof. unfold glen; lia. Qed.
Lemma glen_nil {A} : glen ([] : list A) = 0.
Proof. done. Qed.
Lemma glen_cons {A} (x : A) l : glen (x :: l) = 1 + glen l.
Proof. unfold glen; simpl; lia. Qed.
Lemma glen_app {A} (l k : list A) : glen (l ++ k) = glen l + glen k.
Proof. unfold glen; rewrite length_app; lia. Qed.
Lemma glen_drop {A} n (l : list A) : glen (drop n l) = Z.max 0 (glen l - Z.of_nat n).
Proof. unfold glen; rewrite length_drop; lia. Qed.
Lemma glen_take {A} n (l : list A) : glen (take n l) = Z.min (Z.of_nat n) (glen l).
Proof. unfold glen; rewrite length_take; lia. Qed.
Lemma glen_replicate {A} n (x : A) : glen (replicate n x) = Z.of_nat n.
Proof. unfold glen; rewrite length_replicate; done. Qed.
Lemma length_le_split n z : length (le_split n z) = n.
Proof. revert z; induction n; intros; simpl; auto. Qed.
Lemma glen_le_split n z : glen (le_split n z) = Z.of_nat n.
Proof. unfold glen; rewrite length_le_split; done. Qed.

Create Rewrite HintDb glen.
#[export] Hint Rewrite @glen_nil @glen_cons @glen_app @glen_drop @glen_take
  @glen_replicate glen_le_split : glen.

(** Arithmetic about lengths. *)
Ltac glen_pos :=
  repeat match goal with
  | |- context [glen ?l] =>
      lazymatch goal with H : 0 <= glen l |- _ => fail | _ => pose proof (glen_nonneg l) end
  | _ : context [glen ?l] |- _ =>
      lazymatch goal with H : 0 <= glen l |- _ => fail | _ => pose proof (glen_nonneg l) end
  end.
Ltac len_lia := autorewrite with glen in *; glen_pos; lia.

Lemma slice_ok {A} (l : list A) lo hi :
  0 <= lo <= hi -> hi <= glen l ->
  slice l lo hi = Some (take (Z.to_nat (hi - lo)) (drop (Z.to_nat lo) l)).
Proof. intros; unfold slice; rewrite decide_True; auto. Qed.

Lemma slice_Some {A} (l : list A) lo hi s :
  slice l lo hi = Some s ->
  0 <= lo <= hi /\ hi <= glen l /\
  s = take (Z.to_nat (hi - lo)) (drop (Z.to_nat lo) l) /\ glen s = hi - lo.
Proof.
  unfold slice; case_decide; intros; simplify_eq.
  split_and!; try tauto. len_lia.
Qed.

(** [data[lo:]]. *)
Lemma slice_tail {A} (data : list A) n : 0 <= n <= glen data -> slice data n (glen data) = Some (drop (Z.to_nat n) data).
Proof.
  intros H. rewrite (slice_ok data n (glen data)) by lia. f_equal. apply take_ge. rewrite length_drop. unfold glen. lia.
Qed.
Lemma slice_all {A} (data : list A) : slice data 0 (glen data) = Some data.
Proof. rewrite slice_tail by (unfold glen; lia). done. Qed.

Lemma index_ok (l : bytes) i :
  0 <= i < glen l -> index l i = Some (byte_at l i).
Proof.
  intros. unfold index, byte_at. rewrite decide_True by lia.
  destruct (lookup_lt_is_Some_2 l (Z.to_nat i)) as [x Hx]; [unfold glen in *; lia|].
  rewrite Hx; symmetry; f_equal. by apply nth_lookup_Some.
Qed.

Lemma take_take_drop {A} (l : list A) n lo hi :
  hi - lo = Z.of_nat n ->
  take n (take (Z.to_nat (hi - lo)) (drop (Z.to_nat lo) l)) = take n (drop (Z.to_nat lo) l).
Proof. intros. rewrite take_take. f_equal. lia. Qed.

Lemma le_slice_ok n (data : bytes) lo hi :
  0 <= lo -> hi = lo + Z.of_nat n -> hi <= glen data ->
  slice data lo hi ≫= le_uint n = Some (le_at n data lo).
Proof.
  intros. rewrite slice_ok by lia. simpl. unfold le_uint.
  rewrite decide_True.
  - rewrite take_take_drop by lia. done.
  - rewrite length_take, length_drop. unfold glen in *. lia.
Qed.
Lemma be_slice_ok n (data : bytes) lo hi :
  0 <= lo -> hi = lo + Z.of_nat n -> hi <= glen data ->
  slice data lo hi ≫= be_uint n = Some (be_at n data lo).
Proof.
  intros. rewrite slice_ok by lia. simpl. unfold be_uint.
  rewrite decide_True.
  - rewrite take_take_drop by lia. done.
  - rewrite length_take, length_drop. unfold glen in *. lia.
Qed.

Lemma LE16_ok data lo hi :
  0 <= lo -> hi = lo + 2 -> hi <= glen data -> LE16 data lo hi = Some (le_at 2 data lo).
Proof. intros; by apply le_slice_ok. Qed.
Lemma LE32_ok data lo hi :
  0 <= lo -> hi = lo + 4 -> hi <= glen data -> LE32 data lo hi = Some (le_at 4 data lo).
Proof. intros; by apply le_slice_ok. Qed.
Lemma LE64_ok data lo hi :
  0 <= lo -> hi = lo + 8 -> hi <= glen data -> LE64 data lo hi = Some (le_at 8 data lo).
Proof. intros; by apply le_slice_ok. Qed.
Lemma BE16_ok data lo hi :
  0 <= lo -> hi = lo + 2 -> hi <= glen data -> BE16 data lo hi = Some (be_at 2 data lo).
Proof. intros; by apply be_slice_ok. Qed.
Lemma BE32_ok data lo hi :
  0 <= lo -> hi = lo + 4 -> hi <= glen data -> BE32 data lo hi = Some (be_at 4 data lo).
Proof. intros; by apply be_slice_ok. Qed.

(** [go_reads] resolves every bounded read of the goal; the bounds follow from
    the length guard in the context. *)
Ltac go_reads :=
  repeat first
    [ rewrite LE32_ok by (lia || len_lia) | rewrite LE64_ok by (lia || len_lia)
    | rewrite LE16_ok by (lia || len_lia) | rewrite BE16_ok by (lia || len_lia)
    | rewrite BE32_ok by (lia || len_lia) | rewrite index_ok by (lia || len_lia)
    | rewrite slice_ok by (lia || len_lia) ]; simpl.

(** ** Little-endian codec *)

Lemma le_combine_split n z : le_combine (le_split n z) = z mod 256 ^ Z.of_nat n.
Proof.
  revert z; induction n as [|n IH]; intros z; cbn [le_split le_combine].
  - by rewrite Z.mod_1_r.
  - rewrite IH, Nat2Z.inj_succ, Z.pow_succ_r by lia.
    rewrite Z.rem_mul_r by lia. done.
Qed.

Lemma le_combine_bound b : wf_bytes b -> 0 <= le_combine b < 256 ^ glen b.
Proof.
  unfold glen. induction 1 as [|x b Hx Hb IH]; cbn [le_combine length]; [done|].
  unfold is_byte in Hx. rewrite Nat2Z.inj_succ, Z.pow_succ_r by lia. nia.
Qed.

Lemma le_split_combine b : wf_bytes b -> le_split (length b) (le_combine b) = b.
Proof.
  induction 1 as [|x b Hx Hb IH]; cbn [length le_split le_combine]; [done|].
  unfold is_byte in Hx.
  rewrite (Z.mul_comm 256), Z.mod_add, Z.div_add, Z.mod_small, Z.div_small by lia.
  by rewrite Z.add_0_l, IH.
Qed.

Lemma wf_le_split n z : wf_bytes (le_split n z).
Proof.
  revert z; induction n; intros; cbn [le_split]; constructor; auto.
  unfold is_byte. apply Z.mod_pos_bound; lia.
Qed.

Lemma le_split_mod n z : le_split n (z mod 256 ^ Z.of_nat n) = le_split n z.
Proof.
  rewrite <- le_combine_split, <- (length_le_split n z) at 1.
  apply le_split_combine, wf_le_split.
Qed.

Lemma wf_take n b : wf_bytes b -> wf_bytes (take n b).
Proof. apply Forall_take. Qed.
Lemma wf_drop n b : wf_bytes b -> wf_bytes (drop n b).
Proof. apply Forall_drop. Qed.
Lemma wf_slice b lo hi s : wf_bytes b -> slice b lo hi = Some s -> wf_bytes s.
Proof. intros ? (?&?&->&?)%slice_Some. by apply wf_take, wf_drop. Qed.

Lemma le_at_bound n data off :
  wf_bytes data -> 0 <= le_at n data off < 256 ^ Z.of_nat n.
Proof.
  intros H. unfold le_at.
  pose proof (le_combine_bound (take n (drop (Z.to_nat off) data))) as Hb.
  destruct Hb as [Hlo Hhi]; [by apply wf_take, wf_drop|]. split; [done|].
  eapply Z.lt_le_trans; [exact Hhi|]. apply Z.pow_le_mono_r; [lia|]. len_lia.
Qed.
Lemma be_at_bound n data off :
  wf_bytes data -> 0 <= be_at n data off < 256 ^ Z.of_nat n.
Proof.
  intros H. unfold be_at, be_combine.
  pose proof (le_combine_bound (reverse (take n (drop (Z.to_nat off) data)))) as Hb.
  destruct Hb as [Hlo Hhi]; [by apply Forall_reverse, wf_take, wf_drop|]. split; [done|].
  eapply Z.lt_le_trans; [exact Hhi|]. apply Z.pow_le_mono_r; [lia|].
  unfold glen; rewrite length_reverse, length_take. lia.
Qed.
Lemma byte_at_bound data off : wf_bytes data -> 0 <= byte_at data off < 256.
Proof.
  intros H. unfold byte_at.
  destruct (nth_lookup_or_length data (Z.to_nat off) 0) as [Hx|Hx].
  - eapply (Forall_lookup_1 is_byte) in H; eauto.
  - rewrite nth_overflow by lia. lia.
Qed.

(** Reading at an offset of a suffix is reading further in the whole. *)
Lemma le_at_drop n data k off :
  0 <= k -> 0 <= off -> le_at n (drop (Z.to_nat k) data) off = le_at n data (k + off).
Proof. intros. unfold le_at. rewrite drop_drop. do 3 f_equal. lia. Qed.

Lemma le_at_take n data k off :
  0 <= off -> off + Z.of_nat n <= k ->
  le_at n (take (Z.to_nat k) data) off = le_at n data off.
Proof.
  intros. unfold le_at.
  rewrite skipn_firstn_comm, take_take. f_equal. f_equal. lia.
Qed.
Lemma be_at_take n data k off :
  0 <= off -> off + Z.of_nat n <= k ->
  be_at n (take (Z.to_nat k) data) off = be_at n data off.
Proof.
  intros. unfold be_at.
  rewrite skipn_firstn_comm, take_take. do 2 f_equal. lia.
Qed.
Lemma be_at_drop n data k off :
  0 <= k -> 0 <= off -> be_at n (drop (Z.to_nat k) data) off = be_at n data (k + off).
Proof. intros. unfold be_at. rewrite drop_drop. do 3 f_equal. lia. Qed.

(** Reading inside a sub-slice is reading the whole at the shifted offset. *)
Lemma le_at_slice n data lo hi off :
  0 <= lo -> 0 <= off -> off + Z.of_nat n <= hi - lo ->
  le_at n (take (Z.to_nat (hi - lo)) (drop (Z.to_nat lo) data)) off = le_at n data (lo + off).
Proof. intros. rewrite le_at_take by lia. by apply le_at_drop. Qed.
Lemma be_at_slice n data lo hi off :
  0 <= lo -> 0 <= off -> off + Z.of_nat n <= hi - lo ->
  be_at n (take (Z.to_nat (hi - lo)) (drop (Z.to_nat lo) data)) off = be_at n data (lo + off).
Proof. intros. rewrite be_at_take by lia. by apply be_at_drop. Qed.

(** Writing in the middle of a buffer. *)
Lemma put_at_mid {A} (p m s src : list A) lo :
  lo = glen p -> glen src = glen m -> put_at (p ++ m ++ s) lo src = Some (p ++ src ++ s).
Proof.
  intros -> Hl. unfold put_at. rewrite decide_True by len_lia. unfold glen in *. rewrite Nat2Z.id.
  rewrite take_app_length. assert (length src = length m) as -> by lia.
  rewrite (app_assoc p m s), <- length_app, drop_app_length. done.
Qed.
Lemma put_at_head {A} (m s src : list A) : glen src = glen m -> put_at (m ++ s) 0 src = Some (src ++ s).
Proof. intros. by apply (put_at_mid []). Qed.
Lemma copy_at_mid {A} (p m s src : list A) lo :
  lo = glen p -> glen src = glen m -> copy_at (p ++ m ++ s) lo src = Some (p ++ src ++ s).
Proof.
  intros -> Hl. unfold copy_at. rewrite decide_True by len_lia. rewrite take_ge.
  - by apply put_at_mid.
  - rewrite glen_app, glen_app. unfold glen in *. lia.
Qed.
Lemma make_split a b : 0 <= a -> 0 <= b -> make (a + b) = make a ++ make b.
Proof. intros. unfold make. rewrite Z2Nat.inj_add by done. apply replicate_add. Qed.
Lemma glen_make n : 0 <= n -> glen (make n) = n.
Proof. intros. unfold make, glen. rewrite length_replicate. lia. Qed.

(** Reading what [le_split] wrote. *)
Lemma le_at_app n pre rest off :
  0 <= off -> le_at n (pre ++ rest) (glen pre + off) = le_at n rest off.
Proof.
  intros. unfold le_at, glen. do 2 f_equal.
  rewrite Z2Nat.inj_add, Nat2Z.id by lia. rewrite <- drop_drop. by rewrite drop_app_length.
Qed.
Lemma le_at_skip n k z rest off :
  Z.of_nat k <= off -> le_at n (le_split k z ++ rest) off = le_at n rest (off - Z.of_nat k).
Proof.
  intros. replace off with (glen (le_split k z) + (off - Z.of_nat k)) at 1 by len_lia.
  apply le_at_app. lia.
Qed.
Lemma le_at_split n z rest off :
  0 <= z < 256 ^ Z.of_nat n -> off = 0 -> le_at n (le_split n z ++ rest) off = z.
Proof.
  intros Hz ->. unfold le_at. change (Z.to_nat 0) with 0%nat.
  rewrite drop_0, take_app_length' by (by rewrite length_le_split).
  rewrite le_combine_split. by apply Z.mod_small.
Qed.

Lemma slice_mid (a b c l : bytes) lo hi :
  lo = glen a -> hi = lo + glen b -> l = a ++ b ++ c ->
  take (Z.to_nat (hi - lo)) (drop (Z.to_nat lo) l) = b.
Proof.
  intros -> -> ->. unfold glen. rewrite Nat2Z.id, drop_app_length.
  by rewrite Z.add_simpl_l, Nat2Z.id, take_app_length.
Qed.

(** ** Errors

    The sentinel [error] values of pkg/xtcpnl and pkg/xtcp that the modelled
    functions return.  [Errno e] is a wrapped [syscall.Errno]. *)
Inductive err :=
  | ErrRTAttrSmall | ErrNlMsgHdrSmall
  | ErrInetDiagMsgSmall | ErrInetDiagSockIDSmall | ErrInetDiagReqV2Small
  | ErrMemInfoSmall | ErrTCPInfoSmall | ErrVegasInfoSmall | ErrCongInfoSmall
  | ErrTypeOfServiceSmall | ErrTrafficClassSmall | ErrSkMemInfoSmall
  | ErrShutdownSmall | ErrDCTCPInfoSmall | ErrBBRInfoSmall | ErrClassIDSmall
  | ErrCGroupIDSmall | ErrSockOptSmall | ErrPragueInfoSmall
  | ErrParseDeserializeNlMsgHdr
  | ErrNotAGetRequest | ErrAttrNoSpace | ErrAttrTooLong | ErrBadFamilyHdr
  | ErrNotAnAdmittedWrite | ErrNestNotOpen
  | ErrShortRecv | ErrBadMsgLen | ErrNetlinkError | ErrDumpInterrupted
  | ErrNlMsgErrShort | ErrBadIfName | ErrShortRequest | errTalkStopCst
  | ErrIfAddrmsgSmall | ErrIfaCacheinfoSmall | ErrNdMsgSmall | ErrNdaCacheInfoSmall
  | ErrRtMsgSmall | ErrRtaCacheinfoSmall | ErrRtNextHopSmall | ErrRtNextHopBadLen
  | ErrRtViaSmall | ErrRtaMfcStatsSmall
  | ErrIfInfomsgSmall | ErrFibRuleHdrSmall | ErrNhmsgSmall | ErrNhGroupBad | ErrNotAnEvent
  | ErrAddrWriteType | ErrAddrWriteFlagsAttr | ErrLinkWriteType | ErrLinkWriteDataWithoutKind
  | ErrRouteWriteType | ErrBondSettingWire
  | Errno (e : Z).

#[export] Instance err_eq_dec : EqDecision err.
Proof. solve_decision. Defined.

(** ** Structs with many integer fields

    A Go struct whose fields are all unsigned integers, written one field at a
    time through a pointer, is a function from its field names to [Z].
    [assigns] runs a sequence of assignment statements [s.f = e]; an [e] that
    panics makes the whole sequence panic. *)
Section Fields.
Context {F : Type} `{!EqDecision F}.

Definition upd (f : F) (v : Z) (s : F -> Z) : F -> Z :=
  fun g => if decide (f = g) then v else s g.

Fixpoint assigns (l : list (F * go Z)) (s : F -> Z) : go (F -> Z) :=
  match l with
  | [] => Some s
  | (f, e) :: l => v ← e; assigns l (upd f v s)
  end.

Lemma upd_eq f v s : upd f v s f = v.
Proof. unfold upd. by rewrite decide_True. Qed.
Lemma upd_ne f g v s : f <> g -> upd f v s g = s g.
Proof. intros. unfold upd. by rewrite decide_False. Qed.

(** No assignment panics: the sequence does not. *)
Lemma assigns_total l s :
  Forall (fun p => is_Some p.2) l -> is_Some (assigns l s).
Proof.
  intros H; revert s; induction H as [|[f e] l [v Hv] Hl IH]; intros s; simpl; [by eauto|].
  simpl in Hv; rewrite Hv; simpl. apply IH.
Qed.

(** Fields that are not assigned keep their value. *)
Lemma assigns_frame l s s' f :
  assigns l s = Some s' -> f ∉ l.*1 -> s' f = s f.
Proof.
  revert s; induction l as [|[g e] l IH]; intros s H Hf; simpl in *; simplify_eq; [done|].
  apply bind_Some in H as (v & -> & H). apply not_elem_of_cons in Hf as [Hne Hf].
  rewrite (IH _ H Hf). by apply upd_ne.
Qed.

(** Each field assigned once ends up with the value assigned. *)
Lemma assigns_value l s s' f e :
  assigns l s = Some s' -> NoDup l.*1 -> (f, e) ∈ l -> e = Some (s' f).
Proof.
  revert s; induction l as [|[g e'] l IH]; intros s H Hnd Hin; simpl in *; [by inversion Hin|].
  apply bind_Some in H as (v & Hv & H). inversion Hnd; subst.
  apply elem_of_cons in Hin as [Heq|Hin]; simplify_eq.
  - rewrite (assigns_frame _ _ _ _ H) by done. by rewrite upd_eq.
  - eauto.
Qed.

(** A field's final value does not depend on the initial struct once it is
    assigned. *)
Lemma assigns_overwrites l s1 s2 s1' s2' f :
  assigns l s1 = Some s1' -> assigns l s2 = Some s2' ->
  (f ∈ l.*1 \/ s1 f = s2 f) -> s1' f = s2' f.
Proof.
  revert s1 s2; induction l as [|[g e] l IH]; intros s1 s2 H1 H2 Hf; simpl in *.
  { simplify_eq. destruct Hf as [Hf|]; [by inversion Hf|done]. }
  apply bind_Some in H1 as (v & Hv & H1). rewrite Hv in H2; simpl in H2.
  eapply IH; [exact H1|exact H2|].
  destruct (decide (g = f)) as [->|Hne]; [right; by rewrite !upd_eq|].
  destruct Hf as [Hf|Hf]; [apply elem_of_cons in Hf as [->|?]; [done|by left]|].
  right. by rewrite !upd_ne.
Qed.

Lemma assigns_app l k s : assigns (l ++ k) s = assigns l s ≫= assigns k.
Proof.
  revert s; induction l as [|[f e] l IH]; intros s; simpl; [done|].
  destruct e; simpl; [apply IH|done].
Qed.

(** When every right-hand side is the value a table [r] gives its field, the
    assigned fields end up as in the table and the others keep their value. *)
Lemma assigns_table l s (r : F -> Z) :
  Forall (fun p => p.2 = Some (r p.1)) l ->
  exists s', assigns l s = Some s' /\
    forall f, s' f = if decide (f ∈ l.*1) then r f else s f.
Proof.
  intros Hl. destruct (assigns_total l s) as [s' Hs].
  { eapply Forall_impl; [exact Hl|]. intros ? ->. by eauto. }
  exists s'. split; [done|]. intros f. case_decide as Hf; [|by eapply assigns_frame].
  revert s Hs; induction Hl as [|[g e] l He Hl IH]; intros s Hs; simpl in *; [by inversion Hf|].
  rewrite He in Hs; simpl in Hs. destruct (decide (f ∈ l.*1)) as [Hin|Hin]; [by eapply IH|].
  rewrite (assigns_frame _ _ _ _ Hs Hin). apply elem_of_cons in Hf as [->|]; [|done].
  by rewrite upd_eq.
Qed.
End Fields.

(** ** Ranges of the reads *)

Lemma le_uint_range n b v : wf_bytes b -> le_uint n b = Some v -> 0 <= v < 256 ^ Z.of_nat n.
Proof.
  unfold le_uint. intros Hb H. case_decide; simplify_eq.
  pose proof (le_combine_bound (take n b) (wf_take _ _ Hb)) as [? ?].
  unfold glen in *. rewrite length_take, Nat.min_l in * by lia. done.
Qed.
Lemma be_uint_range n b v : wf_bytes b -> be_uint n b = Some v -> 0 <= v < 256 ^ Z.of_nat n.
Proof.
  unfold be_uint, be_combine. intros Hb H. case_decide; simplify_eq.
  pose proof (le_combine_bound _ (proj2 (Forall_reverse _ _) (wf_take n _ Hb))) as [? ?].
  unfold glen in *. rewrite length_reverse, length_take, Nat.min_l in * by lia. done.
Qed.
Lemma LE16_range data lo hi v : wf_bytes data -> LE16 data lo hi = Some v -> 0 <= v < 2 ^ 16.
Proof. intros ? (s&Hs&Hv)%bind_Some. apply (le_uint_range 2 s); eauto using wf_slice. Qed.
Lemma LE32_range data lo hi v : wf_bytes data -> LE32 data lo hi = Some v -> 0 <= v < 2 ^ 32.
Proof. intros ? (s&Hs&Hv)%bind_Some. apply (le_uint_range 4 s); eauto using wf_slice. Qed.
Lemma LE64_range data lo hi v : wf_bytes data -> LE64 data lo hi = Some v -> 0 <= v < 2 ^ 64.
Proof. intros ? (s&Hs&Hv)%bind_Some. apply (le_uint_range 8 s); eauto using wf_slice. Qed.
Lemma BE16_range data lo hi v : wf_bytes data -> BE16 data lo hi = Some v -> 0 <= v < 2 ^ 16.
Proof. intros ? (s&Hs&Hv)%bind_Some. apply (be_uint_range 2 s); eauto using wf_slice. Qed.
Lemma index_range data i v : wf_bytes data -> index data i = Some v -> 0 <= v < 2 ^ 8.
Proof.
  unfold index. intros Hb H. case_decide; [|done].
  by apply (Forall_lookup_1 _ _ _ _ Hb H).
Qed.

(** Reads inside the slice succeed. *)
Lemma LE16_total data lo hi :
  0 <= lo -> hi = lo + 2 -> hi <= glen data -> is_Some (LE16 data lo hi).
Proof. intros. rewrite LE16_ok by done. by eexists. Qed.
Lemma LE32_total data lo hi :
  0 <= lo -> hi = lo + 4 -> hi <= glen data -> is_Some (LE32 data lo hi).
Proof. intros. rewrite LE32_ok by done. by eexists. Qed.
Lemma LE64_total data lo hi :
  0 <= lo -> hi = lo + 8 -> hi <= glen data -> is_Some (LE64 data lo hi).
Proof. intros. rewrite LE64_ok by done. by eexists. Qed.
Lemma BE16_total data lo hi :
  0 <= lo -> hi = lo + 2 -> hi <= glen data -> is_Some (BE16 data lo hi).
Proof. intros. rewrite BE16_ok by done. by eexists. Qed.
Lemma index_total (data : bytes) i : 0 <= i < glen data -> is_Some (index data i).
Proof. intros. rewrite index_ok by done. by eexists. Qed.

Create HintDb gobytes.
#[export] Hint Resolve LE16_total LE32_total LE64_total BE16_total index_total : gobytes.
#[export] Hint Resolve LE16_range LE32_range LE64_range BE16_range index_range : gobytes.
#[export] Hint Extern 3 (_ <= _) => lia : gobytes.
#[export] Hint Extern 3 (_ < _) => lia : gobytes.
#[export] Hint Extern 3 (_ <= _ < _) => lia : gobytes.
#[export] Hint Extern 3 (_ = _ + _) => lia : gobytes.
