(* ===== verification/NlHeaders.v ===== *)
(** Netlink framing: pkg/xtcpnl's alignment helpers, [RTAttr] and [NlMsgHdr]
    with their decoders, and the alignment and packet scan that pkg/xtcp's
    receiver uses ([nlmsgAlign], [packetHasDone] in netlinker.go). *)

From S2P Require Import Prelude.

(** ** Alignment (calculatePad.go, netlinker.go) *)

Definition byteAlignmentCst : Z := 4.

Definition FourByteAlignPadding (size : Z) : Z := Z.land (4 - Z.land size 3) 3.

(** [%] is Go's truncated remainder. *)
Definition CalculatePadding (size : Z) : Z :=
  if decide (size = 0) then 0 else
  let rem := Z.rem size byteAlignmentCst in
  if decide (rem = 0) then 0 else byteAlignmentCst - rem.

Definition nlmsgAlignToCst : Z := 4.

Definition nlmsgAlign (l : Z) : Z :=
  Z.ldiff (l + nlmsgAlignToCst - 1) (nlmsgAlignToCst - 1).

(** ** struct rtattr (xtcpnl_RTAttr.go) *)

Record RTAttr := mkRTAttr { rta_Len : Z; rta_Type : Z }.

Definition RTAttrSizeCst : Z := 4.
Definition RTAttrReadCst : Z := RTAttrSizeCst.

Definition DeserializeRTAttr (data : bytes) (rta : RTAttr)
    : go (RTAttr * Z * option err) :=
  if decide (glen data < RTAttrSizeCst) then Some (rta, 0, Some ErrRTAttrSmall) else
  Len ← LE16 data 0 2;
  Type_ ← LE16 data 2 4;
  Some ({| rta_Len := Len; rta_Type := Type_ |}, RTAttrReadCst, None).

(** ** struct nlmsghdr (xtcpnl_nl_msg_hdr.go) *)

Record NlMsgHdr := mkNlMsgHdr {
  nlh_Len : Z; nlh_Type : Z; nlh_Flags : Z; nlh_Seq : Z; nlh_Pid : Z }.

Definition NlMsgHdrSizeCst : Z := 16.
Definition NlMsgHdrReadCst : Z := NlMsgHdrSizeCst.
Definition NlMsgHdrTypeInetDiagCst : Z := 20.
Definition NlMsgHdrTypeDoneCst : Z := 3.

Definition DeserializeNlMsgHdr (data : bytes) (nlmsghr : NlMsgHdr)
    : go (NlMsgHdr * Z * option err) :=
  if decide (glen data < NlMsgHdrSizeCst) then Some (nlmsghr, 0, Some ErrNlMsgHdrSmall) else
  Len ← LE32 data 0 4;
  Type_ ← LE16 data 4 6;
  Flags ← LE16 data 6 8;
  Seq ← LE32 data 8 12;
  Pid ← LE32 data 12 16;
  Some ({| nlh_Len := Len; nlh_Type := Type_; nlh_Flags := Flags;
           nlh_Seq := Seq; nlh_Pid := Pid |}, NlMsgHdrReadCst, None).

(** The header a 16-byte prefix encodes. *)
Definition nlh_at (data : bytes) (off : Z) : NlMsgHdr :=
  {| nlh_Len := le_at 4 data off; nlh_Type := le_at 2 data (off + 4);
     nlh_Flags := le_at 2 data (off + 6); nlh_Seq := le_at 4 data (off + 8);
     nlh_Pid := le_at 4 data (off + 12) |}.

(** ** packetHasDone (netlinker.go)

    The walk over the message headers of one received packet.  It advances by
    at least 16 bytes per iteration, so [length b] iterations are enough
    ([packetHasDone_total] below). *)
Fixpoint packetHasDone_loop (fuel : nat) (b : bytes) (off : Z) : go bool :=
  match fuel with
  | O => None
  | S fuel =>
      if decide (off + NlMsgHdrSizeCst <= glen b) then
        ty ← LE16 b (off + 4) (off + 6);
        if decide (ty = NlMsgHdrTypeDoneCst) then Some true else
        l ← LE32 b off (off + 4);
        if decide (l < NlMsgHdrSizeCst) then Some false else
        packetHasDone_loop fuel b (off + nlmsgAlign l)
      else Some false
  end.

Definition packetHasDone (b : bytes) : go bool := packetHasDone_loop (S (length b)) b 0.

(** ** Lemmas *)

Lemma land3_mod4 n : Z.land n 3 = n mod 4.
Proof. change 3 with (Z.ones 2). by rewrite Z.land_ones by lia. Qed.

Lemma FourByteAlignPadding_mod size : FourByteAlignPadding size = (- size) mod 4.
Proof.
  unfold FourByteAlignPadding. rewrite !land3_mod4.
  pose proof (Z.mod_pos_bound size 4). pose proof (Z.div_mod size 4).
  symmetry. rewrite <- (Z.mod_add (- size) (size / 4 + 1)) by lia. f_equal. lia.
Qed.

Lemma FourByteAlignPadding_bound size : 0 <= FourByteAlignPadding size < 4.
Proof. rewrite FourByteAlignPadding_mod. apply Z.mod_pos_bound. lia. Qed.

Lemma FourByteAlignPadding_aligned size : (size + FourByteAlignPadding size) mod 4 = 0.
Proof.
  rewrite FourByteAlignPadding_mod, Z.add_mod_idemp_r by lia.
  by rewrite Z.add_opp_diag_r.
Qed.

(** The padding is the least non-negative one that aligns. *)
Lemma FourByteAlignPadding_least size p :
  0 <= p -> (size + p) mod 4 = 0 -> FourByteAlignPadding size <= p.
Proof.
  intros Hp Ha. rewrite FourByteAlignPadding_mod.
  pose proof (Z.mod_le p 4). replace ((- size) mod 4) with (p mod 4); [lia|].
  replace p with ((size + p) - size) at 1 by lia.
  rewrite <- Zminus_mod_idemp_l, Ha. f_equal.
Qed.

Lemma nlmsgAlign_padding l : nlmsgAlign l = l + FourByteAlignPadding l.
Proof.
  unfold nlmsgAlign, nlmsgAlignToCst. change (4 - 1) with (Z.ones 2).
  rewrite Z.ldiff_ones_r, Z.shiftl_mul_pow2, Z.shiftr_div_pow2 by lia.
  change (2 ^ 2) with 4.
  rewrite FourByteAlignPadding_mod.
  pose proof (Z.div_mod (l + 4 - 1) 4). pose proof (Z.mod_pos_bound (l + 4 - 1) 4).
  pose proof (Z.div_mod (- l) 4). pose proof (Z.mod_pos_bound (- l) 4). lia.
Qed.

(** The decoders: on 16 (4) bytes or more they
    succeed with the header at offset 0, otherwise they fail without touching
    the destination. *)
Lemma DeserializeNlMsgHdr_ok data h :
  NlMsgHdrSizeCst <= glen data ->
  DeserializeNlMsgHdr data h = Some (nlh_at data 0, NlMsgHdrReadCst, None).
Proof.
  unfold NlMsgHdrSizeCst. intros. unfold DeserializeNlMsgHdr, NlMsgHdrSizeCst.
  rewrite decide_False by lia. by go_reads.
Qed.

Lemma DeserializeRTAttr_ok data r :
  RTAttrSizeCst <= glen data ->
  DeserializeRTAttr data r =
    Some ({| rta_Len := le_at 2 data 0; rta_Type := le_at 2 data 2 |}, RTAttrReadCst, None).
Proof.
  unfold RTAttrSizeCst. intros. unfold DeserializeRTAttr, RTAttrSizeCst.
  rewrite decide_False by lia. by go_reads.
Qed.


(** The padding function with the branches and the branch-free one agree. *)
Lemma FourByteAlignPadding_equiv size :
  0 <= size -> FourByteAlignPadding size = CalculatePadding size.
Proof.
  intros H. rewrite FourByteAlignPadding_mod. unfold CalculatePadding, byteAlignmentCst.
  rewrite Z.rem_mod_nonneg by lia.
  pose proof (Z.div_mod size 4). pose proof (Z.mod_pos_bound size 4).
  case_decide; [by subst|]. case_decide as Hr.
  - rewrite Z.mod_opp_l_z; lia.
  - rewrite Z.mod_opp_l_nz; lia.
Qed.

(** ** The NLMSG_DONE scan *)

(** The offsets of the headers an aligned walk over [b] visits. *)
Inductive visits (b : bytes) : Z -> Prop :=
  | visits_start : visits b 0
  | visits_next off :
      visits b off -> off + NlMsgHdrSizeCst <= glen b ->
      nlh_Type (nlh_at b off) <> NlMsgHdrTypeDoneCst ->
      NlMsgHdrSizeCst <= nlh_Len (nlh_at b off) ->
      visits b (off + nlmsgAlign (nlh_Len (nlh_at b off))).

Definition done_at (b : bytes) (off : Z) : Prop :=
  off + NlMsgHdrSizeCst <= glen b /\ nlh_Type (nlh_at b off) = NlMsgHdrTypeDoneCst.

Lemma nlmsgAlign_ge l : l <= nlmsgAlign l.
Proof. rewrite nlmsgAlign_padding. pose proof (FourByteAlignPadding_bound l). lia. Qed.

Lemma visits_nonneg b off : visits b off -> 0 <= off.
Proof.
  induction 1; [lia|]. pose proof (nlmsgAlign_ge (nlh_Len (nlh_at b off))).
  unfold NlMsgHdrSizeCst in *. lia.
Qed.

(** One iteration as an equation. *)
Lemma packetHasDone_step fuel b off :
  0 <= off ->
  packetHasDone_loop (S fuel) b off =
    if decide (off + NlMsgHdrSizeCst <= glen b) then
      if decide (nlh_Type (nlh_at b off) = NlMsgHdrTypeDoneCst) then Some true else
      if decide (nlh_Len (nlh_at b off) < NlMsgHdrSizeCst) then Some false else
      packetHasDone_loop fuel b (off + nlmsgAlign (nlh_Len (nlh_at b off)))
    else Some false.
Proof.
  intros Ho. cbn [packetHasDone_loop]. case_decide as H; [|done]. unfold NlMsgHdrSizeCst in H.
  rewrite LE16_ok by lia. cbn [mbind option_bind]. rewrite LE32_ok by lia. done.
Qed.

Lemma packetHasDone_total fuel b off :
  0 <= off -> (Z.to_nat (glen b - off) < fuel)%nat -> is_Some (packetHasDone_loop fuel b off).
Proof.
  revert off. induction fuel as [|fuel IH]; intros off Ho Hf; [lia|].
  rewrite packetHasDone_step by done. unfold NlMsgHdrSizeCst.
  case_decide; [|by eexists]. do 2 (case_decide; [by eexists|]).
  pose proof (nlmsgAlign_ge (nlh_Len (nlh_at b off))). apply IH; lia.
Qed.

(** The walk is deterministic: past a visited offset it can only go on from
    there. *)
Inductive from (b : bytes) : Z -> Z -> Prop :=
  | from_refl off : from b off off
  | from_next off off' :
      off + NlMsgHdrSizeCst <= glen b -> nlh_Type (nlh_at b off) <> NlMsgHdrTypeDoneCst ->
      NlMsgHdrSizeCst <= nlh_Len (nlh_at b off) ->
      from b (off + nlmsgAlign (nlh_Len (nlh_at b off))) off' -> from b off off'.

Lemma from_snoc b off off' :
  from b off off' -> off' + NlMsgHdrSizeCst <= glen b ->
  nlh_Type (nlh_at b off') <> NlMsgHdrTypeDoneCst ->
  NlMsgHdrSizeCst <= nlh_Len (nlh_at b off') ->
  from b off (off' + nlmsgAlign (nlh_Len (nlh_at b off'))).
Proof. induction 1; intros; apply from_next; auto using from_refl. Qed.
Lemma visits_from b off : visits b off -> from b 0 off.
Proof. induction 1; auto using from_refl, from_snoc. Qed.
Lemma from_visits b off off' : from b off off' -> visits b off -> visits b off'.
Proof. induction 1; auto using visits_next. Qed.

Lemma packetHasDone_from fuel b off v :
  0 <= off -> packetHasDone_loop fuel b off = Some v ->
  v = true <-> exists off', from b off off' /\ done_at b off'.
Proof.
  revert off. induction fuel as [|fuel IH]; intros off Ho H; [done|].
  rewrite packetHasDone_step in H by done. unfold done_at in *.
  case_decide as Hl; simplify_eq.
  2: { split; [done|]. intros (o & Hf & Hd & _). inversion Hf; subst; lia. }
  case_decide as Ht; simplify_eq; [split; eauto using from_refl|].
  case_decide as Hs; simplify_eq.
  { split; [done|]. intros (o & Hf & Hd & Ht'). inversion Hf; subst; [done|lia]. }
  pose proof (nlmsgAlign_ge (nlh_Len (nlh_at b off))). unfold NlMsgHdrSizeCst in *.
  rewrite (IH (off + nlmsgAlign (nlh_Len (nlh_at b off)))) by (done || lia). split.
  - intros (o & Hf & Hd). exists o. split; [|done]. apply from_next; unfold NlMsgHdrSizeCst; auto; lia.
  - intros (o & Hf & Hd & Ht'). exists o. split; [|done]. inversion Hf; by subst.
Qed.

(** ** Encoded attributes *)

(** An attribute as the kernel writes it: header, payload, padding to 4 bytes. *)
Definition pad (payload : bytes) : bytes :=
  payload ++ replicate (Z.to_nat (FourByteAlignPadding (glen payload))) 0.
Definition enc_attr (a : Z * bytes) : bytes :=
  le_split 2 (4 + glen a.2) ++ le_split 2 a.1 ++ pad a.2.

Definition wf_attr (a : Z * bytes) : Prop := 0 <= a.1 < 2 ^ 16 /\ 4 + glen a.2 < 2 ^ 16.
Definition enc_attrs (l : list (Z * bytes)) : bytes := concat (enc_attr <$> l).

Lemma pad_length payload : glen (pad payload) = glen payload + FourByteAlignPadding (glen payload).
Proof.
  unfold pad. pose proof (FourByteAlignPadding_bound (glen payload)). len_lia.
Qed.
Lemma enc_attr_length a : glen (enc_attr a) = 4 + glen (pad a.2).
Proof. unfold enc_attr. len_lia. Qed.
Lemma padding_shift n : FourByteAlignPadding (4 + n) = FourByteAlignPadding n.
Proof.
  rewrite !FourByteAlignPadding_mod. replace (- (4 + n)) with (- n + (-1) * 4) by lia.
  by rewrite Z.mod_add.
Qed.

Lemma enc_attrs_length l : (length l <= length (enc_attrs l))%nat.
Proof.
  induction l as [|a l IH]; [done|]. unfold enc_attrs in *. cbn [fmap list_fmap concat length].
  rewrite length_app. pose proof (enc_attr_length a) as Ha. unfold glen in Ha. lia.
Qed.

(** ** Claims *)

(** The scan for the end of a dump never panics and always terminates, and
    it says true exactly when the walk over the packet's aligned message headers
    reaches a complete NLMSG_DONE header. *)
Theorem packetHasDone_spec b :
  exists v, packetHasDone b = Some v /\
    (v = true <-> exists off, visits b off /\ done_at b off).
Proof.
  unfold packetHasDone. destruct (packetHasDone_total (S (length b)) b 0) as [v Hv];
    [lia|unfold glen; lia|].
  exists v. split; [done|]. rewrite (packetHasDone_from _ _ 0 _ ltac:(lia) Hv).
  split; intros (o & Ho & Hd); exists o; eauto using visits_from, from_visits, visits_start.
Qed.

(** Both padding functions round a length up to the next multiple of four
    with the fewest bytes, and nlmsgAlign is the rounded length. *)
Theorem padding_spec size :
  0 <= size ->
  FourByteAlignPadding size = CalculatePadding size /\
  0 <= FourByteAlignPadding size < 4 /\ nlmsgAlign size = size + FourByteAlignPadding size /\
  nlmsgAlign size mod 4 = 0 /\
  (forall p, 0 <= p -> (size + p) mod 4 = 0 -> FourByteAlignPadding size <= p).
Proof.
  intros H. rewrite nlmsgAlign_padding.
  split_and!; [by apply FourByteAlignPadding_equiv|apply FourByteAlignPadding_bound..|done| |].
  - apply FourByteAlignPadding_aligned.
  - apply FourByteAlignPadding_least.
Qed.

Lemma padding_spec_witness : FourByteAlignPadding 5 = CalculatePadding 5 /\ nlmsgAlign 5 mod 4 = 0.
Proof. destruct (padding_spec 5 ltac:(lia)) as (H1 & _ & _ & H2 & _). split; [exact H1|exact H2]. Defined.
