(* ===== verification/FlatRecord.v ===== *)
(** The output record: gen/go/xtcp_flat_record's [XtcpFlatRecord].

    The protobuf struct has one Go field per column.  Its integer columns are a
    function from [NumField], its string columns a function from [StrField];
    the two socket addresses are Go byte slices, and because the decoder makes
    them point into the packet buffer they are modelled as references
    ([gslice]: which buffer, where, how long), not as copies of the bytes. *)

From S2P Require Import Prelude.

(** ** Columns *)

(** The uint32, uint64, int64 and enum columns, in declaration order. *)
Inductive NumField :=
  | SchemaVersion | TimestampNs | NetnsInode | Nsid | RecordCounter | SocketFd
  | NetlinkerId | Uplink1NicPciVendor | Uplink1NicPciDevice | Uplink1NicSpeedMbps
  | Uplink2NicPciVendor | Uplink2NicPciDevice | Uplink2NicSpeedMbps
  | EnrichSocketDestLocality | EnrichSocketDestEgressIfindex | EnrichSocketDestAsn
  | EnrichSocketDestNextHopAsn | InetDiagMsgFamily | InetDiagMsgState | InetDiagMsgTimer
  | InetDiagMsgRetrans | InetDiagMsgSocketSourcePort | InetDiagMsgSocketDestinationPort
  | InetDiagMsgSocketInterface | InetDiagMsgSocketCookie | InetDiagMsgExpires
  | InetDiagMsgRqueue | InetDiagMsgWqueue | InetDiagMsgUid | InetDiagMsgInode | MemInfoRmem
  | MemInfoWmem | MemInfoFmem | MemInfoTmem | TcpInfoState | TcpInfoCaState
  | TcpInfoRetransmits | TcpInfoProbes | TcpInfoBackoff | TcpInfoOptions | TcpInfoSndWscale
  | TcpInfoRcvWscale | TcpInfoDeliveryRateAppLimited | TcpInfoFastopenClientFail
  | TcpInfoRto | TcpInfoAto | TcpInfoSndMss | TcpInfoRcvMss | TcpInfoUnacked
  | TcpInfoSacked | TcpInfoLost | TcpInfoRetrans | TcpInfoFackets | TcpInfoLastDataSent
  | TcpInfoLastAckSent | TcpInfoLastDataRecv | TcpInfoLastAckRecv | TcpInfoPmtu
  | TcpInfoRcvSsthresh | TcpInfoRtt | TcpInfoRttvar | TcpInfoSndSsthresh | TcpInfoSndCwnd
  | TcpInfoAdvmss | TcpInfoReordering | TcpInfoRcvRtt | TcpInfoRcvSpace
  | TcpInfoTotalRetrans | TcpInfoPacingRate | TcpInfoMaxPacingRate | TcpInfoBytesAcked
  | TcpInfoBytesReceived | TcpInfoSegsOut | TcpInfoSegsIn | TcpInfoNotsentBytes
  | TcpInfoMinRtt | TcpInfoDataSegsIn | TcpInfoDataSegsOut | TcpInfoDeliveryRate
  | TcpInfoBusyTime | TcpInfoRwndLimited | TcpInfoSndbufLimited | TcpInfoDelivered
  | TcpInfoDeliveredCe | TcpInfoBytesSent | TcpInfoBytesRetrans | TcpInfoDsackDups
  | TcpInfoReordSeen | TcpInfoRcvOoopack | TcpInfoSndWnd | TcpInfoRcvWnd | TcpInfoRehash
  | TcpInfoTotalRto | TcpInfoTotalRtoRecoveries | TcpInfoTotalRtoTime | TcpInfoReceivedCe
  | TcpInfoDeliveredE1Bytes | TcpInfoDeliveredE0Bytes | TcpInfoDeliveredCeBytes
  | TcpInfoReceivedE1Bytes | TcpInfoReceivedE0Bytes | TcpInfoReceivedCeBytes
  | TcpInfoEcnMode | TcpInfoAccecnOptSeen | TcpInfoAccecnFailMode | TcpInfoOptions2
  | InetDiagCongEnum | InetDiagTos | InetDiagTclass | SkMemInfoRmemAlloc | SkMemInfoRcvbuf
  | SkMemInfoWmemAlloc | SkMemInfoSndbuf | SkMemInfoFwdAlloc | SkMemInfoWmemQueued
  | SkMemInfoOptmem | SkMemInfoBacklog | SkMemInfoDrops | InetDiagShutdown
  | VegasInfoEnabled | VegasInfoRttcnt | VegasInfoRtt | VegasInfoMinrtt | DctcpInfoEnabled
  | DctcpInfoCeState | DctcpInfoAlpha | DctcpInfoAbEcn | DctcpInfoAbTot | BbrInfoBwLo
  | BbrInfoBwHi | BbrInfoMinRtt | BbrInfoPacingGain | BbrInfoCwndGain | InetDiagClassId
  | InetDiagSockopt | InetDiagCgroupId.

(** The string columns, in declaration order. *)
Inductive StrField :=
  | DaemonVersion | Hostname | Location | Netns | ContainerId | ContainerRuntime
  | ContainerName | ContainerImage | Label | Tag | Uplink1Ifname | Uplink1NicDriver
  | Uplink1NicModel | Uplink1NicBusInfo | Uplink1NicFwVersion | Uplink1LldpChassisName
  | Uplink1LldpChassisId | Uplink1LldpMgmtIp | Uplink1LldpPortId | Uplink1LldpPortDescr
  | Uplink2Ifname | Uplink2NicDriver | Uplink2NicModel | Uplink2NicBusInfo
  | Uplink2NicFwVersion | Uplink2LldpChassisName | Uplink2LldpChassisId | Uplink2LldpMgmtIp
  | Uplink2LldpPortId | Uplink2LldpPortDescr | EnrichSocketInterfaceName
  | EnrichSocketDestEgressIfname | EnrichSocketDestNetworkOwner | InetDiagCong.

(** Enumerations of the columns, for decidable equality. *)
Definition all_NumField : list NumField := [
  SchemaVersion; TimestampNs; NetnsInode; Nsid; RecordCounter; SocketFd; NetlinkerId;
  Uplink1NicPciVendor; Uplink1NicPciDevice; Uplink1NicSpeedMbps; Uplink2NicPciVendor;
  Uplink2NicPciDevice; Uplink2NicSpeedMbps; EnrichSocketDestLocality;
  EnrichSocketDestEgressIfindex; EnrichSocketDestAsn; EnrichSocketDestNextHopAsn;
  InetDiagMsgFamily; InetDiagMsgState; InetDiagMsgTimer; InetDiagMsgRetrans;
  InetDiagMsgSocketSourcePort; InetDiagMsgSocketDestinationPort;
  InetDiagMsgSocketInterface; InetDiagMsgSocketCookie; InetDiagMsgExpires;
  InetDiagMsgRqueue; InetDiagMsgWqueue; InetDiagMsgUid; InetDiagMsgInode; MemInfoRmem;
  MemInfoWmem; MemInfoFmem; MemInfoTmem; TcpInfoState; TcpInfoCaState; TcpInfoRetransmits;
  TcpInfoProbes; TcpInfoBackoff; TcpInfoOptions; TcpInfoSndWscale; TcpInfoRcvWscale;
  TcpInfoDeliveryRateAppLimited; TcpInfoFastopenClientFail; TcpInfoRto; TcpInfoAto;
  TcpInfoSndMss; TcpInfoRcvMss; TcpInfoUnacked; TcpInfoSacked; TcpInfoLost; TcpInfoRetrans;
  TcpInfoFackets; TcpInfoLastDataSent; TcpInfoLastAckSent; TcpInfoLastDataRecv;
  TcpInfoLastAckRecv; TcpInfoPmtu; TcpInfoRcvSsthresh; TcpInfoRtt; TcpInfoRttvar;
  TcpInfoSndSsthresh; TcpInfoSndCwnd; TcpInfoAdvmss; TcpInfoReordering; TcpInfoRcvRtt;
  TcpInfoRcvSpace; TcpInfoTotalRetrans; TcpInfoPacingRate; TcpInfoMaxPacingRate;
  TcpInfoBytesAcked; TcpInfoBytesReceived; TcpInfoSegsOut; TcpInfoSegsIn;
  TcpInfoNotsentBytes; TcpInfoMinRtt; TcpInfoDataSegsIn; TcpInfoDataSegsOut;
  TcpInfoDeliveryRate; TcpInfoBusyTime; TcpInfoRwndLimited; TcpInfoSndbufLimited;
  TcpInfoDelivered; TcpInfoDeliveredCe; TcpInfoBytesSent; TcpInfoBytesRetrans;
  TcpInfoDsackDups; TcpInfoReordSeen; TcpInfoRcvOoopack; TcpInfoSndWnd; TcpInfoRcvWnd;
  TcpInfoRehash; TcpInfoTotalRto; TcpInfoTotalRtoRecoveries; TcpInfoTotalRtoTime;
  TcpInfoReceivedCe; TcpInfoDeliveredE1Bytes; TcpInfoDeliveredE0Bytes;
  TcpInfoDeliveredCeBytes; TcpInfoReceivedE1Bytes; TcpInfoReceivedE0Bytes;
  TcpInfoReceivedCeBytes; TcpInfoEcnMode; TcpInfoAccecnOptSeen; TcpInfoAccecnFailMode;
  TcpInfoOptions2; InetDiagCongEnum; InetDiagTos; InetDiagTclass; SkMemInfoRmemAlloc;
  SkMemInfoRcvbuf; SkMemInfoWmemAlloc; SkMemInfoSndbuf; SkMemInfoFwdAlloc;
  SkMemInfoWmemQueued; SkMemInfoOptmem; SkMemInfoBacklog; SkMemInfoDrops; InetDiagShutdown;
  VegasInfoEnabled; VegasInfoRttcnt; VegasInfoRtt; VegasInfoMinrtt; DctcpInfoEnabled;
  DctcpInfoCeState; DctcpInfoAlpha; DctcpInfoAbEcn; DctcpInfoAbTot; BbrInfoBwLo;
  BbrInfoBwHi; BbrInfoMinRtt; BbrInfoPacingGain; BbrInfoCwndGain; InetDiagClassId;
  InetDiagSockopt; InetDiagCgroupId ].

Definition all_StrField : list StrField := [
  DaemonVersion; Hostname; Location; Netns; ContainerId; ContainerRuntime; ContainerName;
  ContainerImage; Label; Tag; Uplink1Ifname; Uplink1NicDriver; Uplink1NicModel;
  Uplink1NicBusInfo; Uplink1NicFwVersion; Uplink1LldpChassisName; Uplink1LldpChassisId;
  Uplink1LldpMgmtIp; Uplink1LldpPortId; Uplink1LldpPortDescr; Uplink2Ifname;
  Uplink2NicDriver; Uplink2NicModel; Uplink2NicBusInfo; Uplink2NicFwVersion;
  Uplink2LldpChassisName; Uplink2LldpChassisId; Uplink2LldpMgmtIp; Uplink2LldpPortId;
  Uplink2LldpPortDescr; EnrichSocketInterfaceName; EnrichSocketDestEgressIfname;
  EnrichSocketDestNetworkOwner; InetDiagCong ].

#[local] Open Scope nat_scope.
Definition NumField_idx (f : NumField) : nat :=
  match f with
  | SchemaVersion => 0 | TimestampNs => 1 | NetnsInode => 2 | Nsid => 3
  | RecordCounter => 4 | SocketFd => 5 | NetlinkerId => 6 | Uplink1NicPciVendor => 7
  | Uplink1NicPciDevice => 8 | Uplink1NicSpeedMbps => 9 | Uplink2NicPciVendor => 10
  | Uplink2NicPciDevice => 11 | Uplink2NicSpeedMbps => 12 | EnrichSocketDestLocality => 13
  | EnrichSocketDestEgressIfindex => 14 | EnrichSocketDestAsn => 15
  | EnrichSocketDestNextHopAsn => 16 | InetDiagMsgFamily => 17 | InetDiagMsgState => 18
  | InetDiagMsgTimer => 19 | InetDiagMsgRetrans => 20 | InetDiagMsgSocketSourcePort => 21
  | InetDiagMsgSocketDestinationPort => 22 | InetDiagMsgSocketInterface => 23
  | InetDiagMsgSocketCookie => 24 | InetDiagMsgExpires => 25 | InetDiagMsgRqueue => 26
  | InetDiagMsgWqueue => 27 | InetDiagMsgUid => 28 | InetDiagMsgInode => 29
  | MemInfoRmem => 30 | MemInfoWmem => 31 | MemInfoFmem => 32 | MemInfoTmem => 33
  | TcpInfoState => 34 | TcpInfoCaState => 35 | TcpInfoRetransmits => 36
  | TcpInfoProbes => 37 | TcpInfoBackoff => 38 | TcpInfoOptions => 39
  | TcpInfoSndWscale => 40 | TcpInfoRcvWscale => 41 | TcpInfoDeliveryRateAppLimited => 42
  | TcpInfoFastopenClientFail => 43 | TcpInfoRto => 44 | TcpInfoAto => 45
  | TcpInfoSndMss => 46 | TcpInfoRcvMss => 47 | TcpInfoUnacked => 48 | TcpInfoSacked => 49
  | TcpInfoLost => 50 | TcpInfoRetrans => 51 | TcpInfoFackets => 52
  | TcpInfoLastDataSent => 53 | TcpInfoLastAckSent => 54 | TcpInfoLastDataRecv => 55
  | TcpInfoLastAckRecv => 56 | TcpInfoPmtu => 57 | TcpInfoRcvSsthresh => 58
  | TcpInfoRtt => 59 | TcpInfoRttvar => 60 | TcpInfoSndSsthresh => 61
  | TcpInfoSndCwnd => 62 | TcpInfoAdvmss => 63 | TcpInfoReordering => 64
  | TcpInfoRcvRtt => 65 | TcpInfoRcvSpace => 66 | TcpInfoTotalRetrans => 67
  | TcpInfoPacingRate => 68 | TcpInfoMaxPacingRate => 69 | TcpInfoBytesAcked => 70
  | TcpInfoBytesReceived => 71 | TcpInfoSegsOut => 72 | TcpInfoSegsIn => 73
  | TcpInfoNotsentBytes => 74 | TcpInfoMinRtt => 75 | TcpInfoDataSegsIn => 76
  | TcpInfoDataSegsOut => 77 | TcpInfoDeliveryRate => 78 | TcpInfoBusyTime => 79
  | TcpInfoRwndLimited => 80 | TcpInfoSndbufLimited => 81 | TcpInfoDelivered => 82
  | TcpInfoDeliveredCe => 83 | TcpInfoBytesSent => 84 | TcpInfoBytesRetrans => 85
  | TcpInfoDsackDups => 86 | TcpInfoReordSeen => 87 | TcpInfoRcvOoopack => 88
  | TcpInfoSndWnd => 89 | TcpInfoRcvWnd => 90 | TcpInfoRehash => 91 | TcpInfoTotalRto => 92
  | TcpInfoTotalRtoRecoveries => 93 | TcpInfoTotalRtoTime => 94 | TcpInfoReceivedCe => 95
  | TcpInfoDeliveredE1Bytes => 96 | TcpInfoDeliveredE0Bytes => 97
  | TcpInfoDeliveredCeBytes => 98 | TcpInfoReceivedE1Bytes => 99
  | TcpInfoReceivedE0Bytes => 100 | TcpInfoReceivedCeBytes => 101 | TcpInfoEcnMode => 102
  | TcpInfoAccecnOptSeen => 103 | TcpInfoAccecnFailMode => 104 | TcpInfoOptions2 => 105
  | InetDiagCongEnum => 106 | InetDiagTos => 107 | InetDiagTclass => 108
  | SkMemInfoRmemAlloc => 109 | SkMemInfoRcvbuf => 110 | SkMemInfoWmemAlloc => 111
  | SkMemInfoSndbuf => 112 | SkMemInfoFwdAlloc => 113 | SkMemInfoWmemQueued => 114
  | SkMemInfoOptmem => 115 | SkMemInfoBacklog => 116 | SkMemInfoDrops => 117
  | InetDiagShutdown => 118 | VegasInfoEnabled => 119 | VegasInfoRttcnt => 120
  | VegasInfoRtt => 121 | VegasInfoMinrtt => 122 | DctcpInfoEnabled => 123
  | DctcpInfoCeState => 124 | DctcpInfoAlpha => 125 | DctcpInfoAbEcn => 126
  | DctcpInfoAbTot => 127 | BbrInfoBwLo => 128 | BbrInfoBwHi => 129 | BbrInfoMinRtt => 130
  | BbrInfoPacingGain => 131 | BbrInfoCwndGain => 132 | InetDiagClassId => 133
  | InetDiagSockopt => 134 | InetDiagCgroupId => 135
  end.

Definition StrField_idx (f : StrField) : nat :=
  match f with
  | DaemonVersion => 0 | Hostname => 1 | Location => 2 | Netns => 3 | ContainerId => 4
  | ContainerRuntime => 5 | ContainerName => 6 | ContainerImage => 7 | Label => 8
  | Tag => 9 | Uplink1Ifname => 10 | Uplink1NicDriver => 11 | Uplink1NicModel => 12
  | Uplink1NicBusInfo => 13 | Uplink1NicFwVersion => 14 | Uplink1LldpChassisName => 15
  | Uplink1LldpChassisId => 16 | Uplink1LldpMgmtIp => 17 | Uplink1LldpPortId => 18
  | Uplink1LldpPortDescr => 19 | Uplink2Ifname => 20 | Uplink2NicDriver => 21
  | Uplink2NicModel => 22 | Uplink2NicBusInfo => 23 | Uplink2NicFwVersion => 24
  | Uplink2LldpChassisName => 25 | Uplink2LldpChassisId => 26 | Uplink2LldpMgmtIp => 27
  | Uplink2LldpPortId => 28 | Uplink2LldpPortDescr => 29 | EnrichSocketInterfaceName => 30
  | EnrichSocketDestEgressIfname => 31 | EnrichSocketDestNetworkOwner => 32
  | InetDiagCong => 33
  end.
#[local] Close Scope nat_scope.

Lemma all_NumField_idx f : all_NumField !! NumField_idx f = Some f.
Proof. by destruct f. Qed.
Lemma all_StrField_idx f : all_StrField !! StrField_idx f = Some f.
Proof. by destruct f. Qed.

#[export] Instance NumField_idx_inj : Inj (=) (=) NumField_idx.
Proof. intros f g H. apply (inj Some). by rewrite <- !all_NumField_idx, H. Qed.
#[export] Instance StrField_idx_inj : Inj (=) (=) StrField_idx.
Proof. intros f g H. apply (inj Some). by rewrite <- !all_StrField_idx, H. Qed.

#[export] Instance NumField_eq_dec : EqDecision NumField.
Proof.
  refine (fun f g => match decide (NumField_idx f = NumField_idx g) with
                     | left H => left _ | right H => right _ end).
  - by apply NumField_idx_inj.
  - by intros ->.
Defined.
#[export] Instance StrField_eq_dec : EqDecision StrField.
Proof.
  refine (fun f g => match decide (StrField_idx f = StrField_idx g) with
                     | left H => left _ | right H => right _ end).
  - by apply StrField_idx_inj.
  - by intros ->.
Defined.

(** The Go type of an integer column. *)
Inductive gotype := TU32 | TU64 | TI64 | TEnum.

Definition NumField_type (f : NumField) : gotype :=
  match f with
  | NetnsInode | RecordCounter | SocketFd | NetlinkerId | EnrichSocketDestAsn
  | EnrichSocketDestNextHopAsn | InetDiagMsgSocketCookie | TcpInfoPacingRate
  | TcpInfoMaxPacingRate | TcpInfoBytesAcked | TcpInfoBytesReceived | TcpInfoDeliveryRate
  | TcpInfoBusyTime | TcpInfoRwndLimited | TcpInfoSndbufLimited | TcpInfoBytesSent
  | TcpInfoBytesRetrans | InetDiagCgroupId => TU64
  | TimestampNs => TI64
  | EnrichSocketDestLocality | InetDiagCongEnum => TEnum
  | _ => TU32
  end.

(** The values a column of that type holds.  The enums are int32 in Go; their
    declared values are small non-negative numbers. *)
Definition in_type (t : gotype) (v : Z) : Prop :=
  match t with
  | TU32 => 0 <= v < 2 ^ 32
  | TU64 => 0 <= v < 2 ^ 64
  | TI64 => - 2 ^ 63 <= v < 2 ^ 63
  | TEnum => - 2 ^ 31 <= v < 2 ^ 31
  end.

(** XtcpFlatRecord_CongestionAlgorithm *)
Definition CONGESTION_ALGORITHM_UNSPECIFIED : Z := 0.
Definition CONGESTION_ALGORITHM_CUBIC : Z := 1.
Definition CONGESTION_ALGORITHM_DCTCP : Z := 2.
Definition CONGESTION_ALGORITHM_VEGAS : Z := 3.
Definition CONGESTION_ALGORITHM_PRAGUE : Z := 4.
Definition CONGESTION_ALGORITHM_BBR1 : Z := 5.
Definition CONGESTION_ALGORITHM_BBR2 : Z := 6.
Definition CONGESTION_ALGORITHM_BBR3 : Z := 7.

(** ** Byte slices and the buffers they point into *)

(** A [[]byte] value: [sl_len] bytes of buffer [sl_buf] from [sl_off].  The nil
    slice has length 0. *)
Record gslice := mkSlice { sl_buf : nat; sl_off : Z; sl_len : Z }.
Definition nil_slice : gslice := {| sl_buf := 0%nat; sl_off := 0; sl_len := 0 |}.

#[export] Instance gslice_eq_dec : EqDecision gslice.
Proof. solve_decision. Defined.

(** The bytes a slice denotes when its buffer holds [b]. *)
Definition slice_bytes (b : bytes) (s : gslice) : bytes :=
  take (Z.to_nat (sl_len s)) (drop (Z.to_nat (sl_off s)) b).

(** [s[lo:hi]] of a slice. *)
Definition reslice (s : gslice) (lo hi : Z) : gslice :=
  {| sl_buf := sl_buf s; sl_off := sl_off s + lo; sl_len := hi - lo |}.

(** A sub-slice denotes the bytes of the slice between its bounds. *)
Lemma slice_bytes_reslice b s lo hi :
  0 <= sl_off s -> 0 <= lo <= hi -> hi <= glen (slice_bytes b s) ->
  slice_bytes b (reslice s lo hi) =
    take (Z.to_nat (hi - lo)) (drop (Z.to_nat lo) (slice_bytes b s)).
Proof.
  unfold slice_bytes, reslice; simpl. intros ? ? Hl. rewrite glen_take in Hl.
  rewrite skipn_firstn_comm, drop_drop, take_take, Z2Nat.inj_add by lia.
  f_equal. lia.
Qed.

(** ** The record *)

Record XtcpFlatRecord := mkRecord {
  num : NumField -> Z;
  str : StrField -> string;
  InetDiagMsgSocketSource : gslice;
  InetDiagMsgSocketDestination : gslice }.

(** [new(XtcpFlatRecord)], and what [Reset] leaves. *)
Definition zeroRecord : XtcpFlatRecord :=
  {| num := fun _ => 0; str := fun _ => EmptyString;
     InetDiagMsgSocketSource := nil_slice; InetDiagMsgSocketDestination := nil_slice |}.

Definition with_num (g : (NumField -> Z) -> NumField -> Z) (x : XtcpFlatRecord) : XtcpFlatRecord :=
  {| num := g (num x); str := str x;
     InetDiagMsgSocketSource := InetDiagMsgSocketSource x;
     InetDiagMsgSocketDestination := InetDiagMsgSocketDestination x |}.

Definition set_num (f : NumField) (v : Z) : XtcpFlatRecord -> XtcpFlatRecord :=
  with_num (upd f v).

Definition set_str (f : StrField) (v : string) (x : XtcpFlatRecord) : XtcpFlatRecord :=
  {| num := num x; str := fun g => if decide (f = g) then v else str x g;
     InetDiagMsgSocketSource := InetDiagMsgSocketSource x;
     InetDiagMsgSocketDestination := InetDiagMsgSocketDestination x |}.

Definition set_addrs (s d : gslice) (x : XtcpFlatRecord) : XtcpFlatRecord :=
  {| num := num x; str := str x;
     InetDiagMsgSocketSource := s; InetDiagMsgSocketDestination := d |}.

(** Assignments [x.f = e] to integer columns of a record. *)
Definition rec_assigns (l : list (NumField * go Z)) (x : XtcpFlatRecord) : go XtcpFlatRecord :=
  n ← assigns l (num x); Some (with_num (fun _ => n) x).

(** A block of assignments whose right-hand sides are known values. *)
Definition set_nums (l : list (NumField * Z)) : XtcpFlatRecord -> XtcpFlatRecord :=
  with_num (fun n => foldl (fun n p => upd p.1 p.2 n) n l).

(** ** Equality of records, column by column *)

Definition rec_eq (x y : XtcpFlatRecord) : Prop :=
  (forall f, num x f = num y f) /\ (forall f, str x f = str y f) /\
  InetDiagMsgSocketSource x = InetDiagMsgSocketSource y /\
  InetDiagMsgSocketDestination x = InetDiagMsgSocketDestination y.

#[export] Instance XtcpFlatRecord_equiv : Equiv XtcpFlatRecord := rec_eq.

#[export] Instance rec_eq_equivalence : Equivalence (≡@{XtcpFlatRecord}).
Proof.
  split.
  - intros x. repeat split; done.
  - intros x y (?&?&?&?). repeat split; auto.
  - intros x y z (H1&H2&?&?) (H3&H4&?&?). repeat split; congruence.
Qed.

#[export] Instance set_str_proper f v : Proper ((≡) ==> (≡)) (set_str f v).
Proof.
  intros x y (?&?&?&?). repeat split; simpl; auto.
  intros g. by case_decide.
Qed.
#[export] Instance set_num_proper f v : Proper ((≡) ==> (≡)) (set_num f v).
Proof.
  intros x y (Hn&?&?&?). repeat split; simpl; auto.
  intros g. unfold upd. case_decide; auto.
Qed.

(** [rec_assigns] touches integer columns only. *)
Lemma rec_assigns_Some l x x' :
  rec_assigns l x = Some x' ->
  assigns l (num x) = Some (num x') /\ str x' = str x /\
  InetDiagMsgSocketSource x' = InetDiagMsgSocketSource x /\
  InetDiagMsgSocketDestination x' = InetDiagMsgSocketDestination x.
Proof.
  unfold rec_assigns. intros (n & Hn & H)%bind_Some. by simplify_eq/=.
Qed.

Lemma rec_assigns_total l x :
  Forall (fun p => is_Some p.2) l -> is_Some (rec_assigns l x).
Proof.
  intros H. destruct (assigns_total l (num x) H) as [n Hn].
  unfold rec_assigns. rewrite Hn. by eauto.
Qed.

(** Running the same assignments on equal records gives equal records. *)
Lemma rec_assigns_proper l x y x' :
  x ≡ y -> rec_assigns l x = Some x' ->
  exists y', rec_assigns l y = Some y' /\ x' ≡ y'.
Proof.
  intros (Hn&Hs&Ha&Hb) (H&Hs'&Ha'&Hb')%rec_assigns_Some.
  assert (is_Some (assigns l (num y))) as [n Hy].
  { clear -H. revert H. generalize (num x), (num y). induction l as [|[f [v|]] l IH];
      intros s1 s2 H; simpl in *; [by eauto|by eapply IH|done]. }
  exists (with_num (fun _ => n) y). unfold rec_assigns. rewrite Hy. split; [done|].
  split; [|rewrite Hs', Ha', Hb'; auto].
  intros f. simpl. eapply assigns_overwrites; eauto.
Qed.

(** What [set_nums] leaves in a column. *)
Lemma set_nums_frame l x f : f ∉ l.*1 -> num (set_nums l x) f = num x f.
Proof.
  unfold set_nums; simpl. generalize (num x).
  induction l as [|[g v] l IH]; intros n Hf; simpl in *; [done|].
  apply not_elem_of_cons in Hf as [Hne Hf]. rewrite IH by done. by apply upd_ne.
Qed.
Lemma set_nums_value l x f v :
  NoDup l.*1 -> (f, v) ∈ l -> num (set_nums l x) f = v.
Proof.
  unfold set_nums; simpl. generalize (num x).
  induction l as [|[g w] l IH]; intros n Hnd Hin; simpl in *; [by inversion Hin|].
  inversion Hnd as [|? ? Hni Hnd']; subst.
  apply elem_of_cons in Hin as [Heq|Hin]; simplify_eq; [|by apply IH].
  pose proof (set_nums_frame l (with_num (fun _ => upd g w n) zeroRecord) g Hni) as Hfr.
  unfold set_nums in Hfr; simpl in Hfr. by rewrite Hfr, upd_eq.
Qed.
