(* ===== verification/AttrDecoder.v ===== *)
(** The contract of an attribute decoder: what pkg/xtcp's dispatch
    (deserializers.go, deserialize.go) relies on from each
    [Deserialize<Attr>XTCP] of pkg/xtcpnl.  InetDiag.v and TcpInfo.v provide an
    instance per decoder, Deserialize.v is proved against the class. *)

From S2P Require Import Prelude FlatRecord.

(** Go's [deserializerFunc]: the record is updated in place. *)
Abbreviation deserializerFunc := (bytes -> XtcpFlatRecord -> go (XtcpFlatRecord * option err)).

(** Every integer column holds a value of its Go type. *)
Definition typed_rec (x : XtcpFlatRecord) : Prop :=
  forall f, in_type (NumField_type f) (num x f).

(** [AttrDecoder dec min cols]: [dec] never panics; it fails exactly on
    payloads shorter than [min], leaving the record as it was; it writes only
    the integer columns [cols], with values of their types; and what it does is
    determined by the columns of the record, not its identity. *)
Class AttrDecoder (dec : deserializerFunc) (min : Z) (cols : list NumField) : Prop := {
  ad_total data x : exists x' e, dec data x = Some (x', e);
  ad_short data x : glen data < min -> exists e, dec data x = Some (x, Some e);
  ad_error data x x' e : dec data x = Some (x', Some e) -> glen data < min /\ x' = x;
  ad_frame data x x' e f : dec data x = Some (x', e) -> f ∉ cols -> num x' f = num x f;
  ad_rest data x x' e : dec data x = Some (x', e) ->
    str x' = str x /\ InetDiagMsgSocketSource x' = InetDiagMsgSocketSource x /\
    InetDiagMsgSocketDestination x' = InetDiagMsgSocketDestination x;
  ad_typed data x x' e : wf_bytes data -> dec data x = Some (x', e) ->
    typed_rec x -> typed_rec x';
  ad_proper data x y x' e : x ≡ y -> dec data x = Some (x', e) ->
    exists y', dec data y = Some (y', e) /\ x' ≡ y' }.

(** Assignments of typed values keep a record typed. *)
Lemma assigns_typed l s s' :
  assigns l s = Some s' ->
  Forall (fun p => forall v, p.2 = Some v -> in_type (NumField_type p.1) v) l ->
  (forall f, in_type (NumField_type f) (s f)) ->
  forall f, in_type (NumField_type f) (s' f).
Proof.
  intros H Hl; revert s H; induction Hl as [|[g e] l Hv Hl IH]; intros s H Hs; simpl in *.
  { by simplify_eq. }
  apply bind_Some in H as (v & -> & H). eapply IH; [exact H|].
  intros f. unfold upd. case_decide; subst; auto.
Qed.

(** Most decoders are a length check and a block of assignments. *)
Lemma simple_decoder (dec : deserializerFunc) min e (l : bytes -> list (NumField * go Z)) cols :
  (forall data x, dec data x =
     if decide (glen data < min) then Some (x, Some e)
     else x ← rec_assigns (l data) x; Some (x, None)) ->
  (forall data, (l data).*1 ⊆ cols) ->
  (forall data, min <= glen data -> Forall (fun p => is_Some p.2) (l data)) ->
  (forall data, wf_bytes data -> min <= glen data ->
     Forall (fun p => forall v, p.2 = Some v -> in_type (NumField_type p.1) v) (l data)) ->
  AttrDecoder dec min cols.
Proof.
  intros Hdec Hcols Htot Hty. split.
  - intros data x. rewrite Hdec. case_decide; [by eauto|].
    destruct (rec_assigns_total _ x (Htot data ltac:(lia))) as [x' ->]. simpl. by eauto.
  - intros data x H. rewrite Hdec, decide_True by done. by eauto.
  - intros data x x' e' H. rewrite Hdec in H. case_decide; [by simplify_eq|].
    by apply bind_Some in H as (? & _ & [=]).
  - intros data x x' e' f H Hf. rewrite Hdec in H. case_decide; [by simplify_eq|].
    apply bind_Some in H as (x1 & (Ha&_)%rec_assigns_Some & ?); simplify_eq.
    eapply assigns_frame; [exact Ha|]. intros Hin. by apply Hf, (Hcols data).
  - intros data x x' e' H. rewrite Hdec in H. case_decide; [by simplify_eq|].
    by apply bind_Some in H as (x1 & (_&?)%rec_assigns_Some & ?); simplify_eq.
  - intros data x x' e' Hw H Hx. rewrite Hdec in H. case_decide; [by simplify_eq|].
    apply bind_Some in H as (x1 & (Ha&_)%rec_assigns_Some & ?); simplify_eq.
    intros f. eapply assigns_typed; [exact Ha|apply Hty; [done|lia]|exact Hx].
  - intros data x y x' e' Hxy H. rewrite Hdec in *. case_decide; [simplify_eq; by eauto|].
    apply bind_Some in H as (x1 & Ha & ?); simplify_eq.
    destruct (rec_assigns_proper _ _ _ _ Hxy Ha) as (y1 & -> & ?). simpl. by eauto.
Qed.

Lemma in_type_u8 f v : NumField_type f = TU32 -> 0 <= v < 2 ^ 8 -> in_type (NumField_type f) v.
Proof. intros -> ?. simpl. lia. Qed.
Lemma in_type_u16 f v : NumField_type f = TU32 -> 0 <= v < 2 ^ 16 -> in_type (NumField_type f) v.
Proof. intros -> ?. simpl. lia. Qed.

(** Closes the side conditions of [simple_decoder]. *)
Ltac decoder_fields :=
  intros; cbv beta; repeat (apply Forall_cons_2; [cbn [fst snd]|]); try apply Forall_nil_2;
  try (eauto with gobytes; fail);
  intros; cbn [NumField_type in_type] in *;
  first [ by eauto with gobytes
        | by match goal with H : index _ _ = Some ?v |- _ =>
            pose proof (index_range _ _ _ ltac:(eassumption) H); lia end
        | by match goal with H : LE16 _ _ _ = Some ?v |- _ =>
            pose proof (LE16_range _ _ _ _ ltac:(eassumption) H); lia end ].
Ltac solve_decoder := eapply simple_decoder; [reflexivity|by intros ? ?|decoder_fields|decoder_fields].
