(* ===== verification/InetDiag.v ===== *)
(** The inet_diag wire structs of pkg/xtcpnl: the message body and socket id,
    the request, and every INET_DIAG_* attribute except tcp_info (TcpInfo.v).
    Each attribute has two decoders in the source, one into its own Go struct
    and one straight into the output record ([...XTCP]). *)

From S2P Require Import Prelude FlatRecord AttrDecoder.

(** ** Conversions shared by the decoders *)

(** Go's conversion of a slice to a 16-byte array: the first 16 bytes, a panic on
    a shorter slice. *)
Definition to_array16 (s : bytes) : go bytes :=
  if decide (16 <= glen s) then Some (take 16 s) else None.

(** ** struct inet_diag_sockid (xtcpnl_inet_diag_msg.go) *)

Record InetDiagSockID := mkSockID {
  SPort : Z; DPort : Z; SrcIP : bytes; DstIP : bytes; Interface : Z; Cookie : Z }.

Definition InetDiagSockIDSizeCst : Z := 48.
Definition InetDiagSockIDReadCst : Z := InetDiagSockIDSizeCst.

Definition DeserializeInetDiagSockID (data : bytes) (sockid : InetDiagSockID)
    : go (InetDiagSockID * Z * option err) :=
  if decide (glen data < InetDiagSockIDSizeCst)
  then Some (sockid, 0, Some ErrInetDiagSockIDSmall) else
  sport ← BE16 data 0 2;
  dport ← BE16 data 2 4;
  src ← slice data 4 40 ≫= to_array16;
  dst ← slice data 20 36 ≫= to_array16;
  ifc ← LE32 data 36 40;
  cookie ← LE64 data 40 48;
  Some ({| SPort := sport; DPort := dport; SrcIP := src; DstIP := dst;
           Interface := ifc; Cookie := cookie |}, InetDiagSockIDReadCst, None).

(** ** struct inet_diag_msg *)

Record InetDiagMsg := mkInetDiagMsg {
  idm_Family : Z; idm_State : Z; idm_Timer : Z; idm_Retrans : Z;
  idm_SocketID : InetDiagSockID;
  idm_Expires : Z; idm_Rqueue : Z; idm_Wqueue : Z; idm_UID : Z; idm_Inode : Z }.

Definition InetDiagMsgSizeCst : Z := 72.
Definition InetDiagMsgReadCst : Z := InetDiagMsgSizeCst.

Definition DeserializeInetDiagMsg (data : bytes) (idm : InetDiagMsg) (s : InetDiagSockID)
    : go (InetDiagMsg * InetDiagSockID * Z * option err) :=
  if decide (glen data < InetDiagMsgSizeCst)
  then Some (idm, s, 0, Some ErrInetDiagMsgSmall) else
  family ← index data 0;
  state ← index data 1;
  timer ← index data 2;
  retrans ← index data 3;
  sid ← slice data 4 (4 + InetDiagSockIDSizeCst);
  '(s, _, errD) ← DeserializeInetDiagSockID sid s;
  match errD with
  | Some e =>
      Some ({| idm_Family := family; idm_State := state; idm_Timer := timer;
               idm_Retrans := retrans; idm_SocketID := idm_SocketID idm;
               idm_Expires := idm_Expires idm; idm_Rqueue := idm_Rqueue idm;
               idm_Wqueue := idm_Wqueue idm; idm_UID := idm_UID idm;
               idm_Inode := idm_Inode idm |}, s, 0, Some e)
  | None =>
      expires ← LE32 data 52 56;
      rqueue ← LE32 data 56 60;
      wqueue ← LE32 data 60 64;
      uid ← LE32 data 64 68;
      inode ← LE32 data 68 72;
      Some ({| idm_Family := family; idm_State := state; idm_Timer := timer;
               idm_Retrans := retrans; idm_SocketID := s; idm_Expires := expires;
               idm_Rqueue := rqueue; idm_Wqueue := wqueue; idm_UID := uid;
               idm_Inode := inode |}, s, InetDiagMsgReadCst, None)
  end.

(** The record variant.  [d] says where [data] lies in its packet buffer: the
    two address columns become sub-slices of it. *)
Definition DeserializeInetDiagSockIDXTCP (d : gslice) (data : bytes) (x : XtcpFlatRecord)
    : go (XtcpFlatRecord * option err) :=
  if decide (glen data < InetDiagSockIDSizeCst)
  then Some (x, Some ErrInetDiagSockIDSmall) else
  x ← rec_assigns [ (InetDiagMsgSocketSourcePort, BE16 data 0 2);
                    (InetDiagMsgSocketDestinationPort, BE16 data 2 4) ] x;
  _ ← slice data 4 20;
  _ ← slice data 20 36;
  let x := set_addrs (reslice d 4 20) (reslice d 20 36) x in
  x ← rec_assigns [ (InetDiagMsgSocketInterface, LE32 data 36 40);
                    (InetDiagMsgSocketCookie, LE64 data 40 48) ] x;
  Some (x, None).

Definition DeserializeInetDiagMsgXTCP (d : gslice) (data : bytes) (x : XtcpFlatRecord)
    : go (XtcpFlatRecord * option err) :=
  if decide (glen data < InetDiagMsgSizeCst)
  then Some (x, Some ErrInetDiagMsgSmall) else
  x ← rec_assigns [ (InetDiagMsgFamily, index data 0);
                    (InetDiagMsgState, index data 1);
                    (InetDiagMsgTimer, index data 2);
                    (InetDiagMsgRetrans, index data 3) ] x;
  sid ← slice data 4 (4 + InetDiagSockIDSizeCst);
  '(x, errD) ← DeserializeInetDiagSockIDXTCP (reslice d 4 (4 + InetDiagSockIDSizeCst)) sid x;
  match errD with
  | Some e => Some (x, Some e)
  | None =>
      x ← rec_assigns [ (InetDiagMsgExpires, LE32 data 52 56);
                        (InetDiagMsgRqueue, LE32 data 56 60);
                        (InetDiagMsgWqueue, LE32 data 60 64);
                        (InetDiagMsgUid, LE32 data 64 68);
                        (InetDiagMsgInode, LE32 data 68 72) ] x;
      Some (x, None)
  end.

(** ** struct inet_diag_req_v2 (xtcpnl_inet_diag_reqv2.go) *)

Record InetDiagReqV2 := mkInetDiagReqV2 {
  SDiagFamily : Z; SDiagProtocol : Z; IDiagExt : Z; Pad : Z; IDiagStates : Z;
  req_SocketID : InetDiagSockID }.

Definition InetDiagReqV2SizeCst : Z := 56.
Definition InetDiagReqV2ReadCst : Z := 55.

Definition DeserializeInetDiagReqV2 (data : bytes) (r : InetDiagReqV2) (s : InetDiagSockID)
    : go (InetDiagReqV2 * InetDiagSockID * Z * option err) :=
  if decide (glen data < InetDiagReqV2SizeCst)
  then Some (r, s, 0, Some ErrInetDiagReqV2Small) else
  family ← index data 0;
  proto ← index data 1;
  ext ← index data 2;
  states ← BE32 data 4 8;
  sid ← slice data 8 (8 + InetDiagSockIDSizeCst);
  '(s, _, errD) ← DeserializeInetDiagSockID sid s;
  match errD with
  | Some e =>
      Some ({| SDiagFamily := family; SDiagProtocol := proto; IDiagExt := ext; Pad := Pad r;
               IDiagStates := states; req_SocketID := req_SocketID r |}, s, 0, Some e)
  | None =>
      Some ({| SDiagFamily := family; SDiagProtocol := proto; IDiagExt := ext; Pad := Pad r;
               IDiagStates := states; req_SocketID := s |}, s, InetDiagReqV2ReadCst, None)
  end.

(** ** INET_DIAG_MEMINFO (xtcpnl_inet_diag_meminfo.go) *)

Record MemInfo := mkMemInfo { Rmem : Z; Wmem : Z; Fmem : Z; Tmem : Z }.
Definition MemInfoSizeCst : Z := 16.
Definition MemInfoReadCst : Z := MemInfoSizeCst.
Definition MemInfoEmumValueCst : Z := 1.

Definition DeserializeMemInfo (data : bytes) (mi : MemInfo) : go (MemInfo * Z * option err) :=
  if decide (glen data < MemInfoSizeCst) then Some (mi, 0, Some ErrMemInfoSmall) else
  rmem ← LE32 data 0 4;
  wmem ← LE32 data 4 8;
  fmem ← LE32 data 8 12;
  tmem ← LE32 data 12 16;
  Some ({| Rmem := rmem; Wmem := wmem; Fmem := fmem; Tmem := tmem |}, MemInfoReadCst, None).

Definition DeserializeMemInfoXTCP (data : bytes) (x : XtcpFlatRecord)
    : go (XtcpFlatRecord * option err) :=
  if decide (glen data < MemInfoSizeCst) then Some (x, Some ErrMemInfoSmall) else
  x ← rec_assigns [ (MemInfoRmem, LE32 data 0 4); (MemInfoWmem, LE32 data 4 8);
                    (MemInfoFmem, LE32 data 8 12); (MemInfoTmem, LE32 data 12 16) ] x;
  Some (x, None).

(** ** INET_DIAG_VEGASINFO (xtcpnl_inet_diag_vegasinfo.go) *)

Record VegasInfo := mkVegasInfo { vi_Enabled : Z; vi_RttCnt : Z; vi_Rtt : Z; vi_MinRtt : Z }.
Definition VegasInfoSizeCst : Z := 16.
Definition VegasInfoReadCst : Z := VegasInfoSizeCst.
Definition VegasInfoEnumValueCst : Z := 3.

Definition DeserializeVegasInfo (data : bytes) (vi : VegasInfo) : go (VegasInfo * Z * option err) :=
  if decide (glen data < VegasInfoSizeCst) then Some (vi, 0, Some ErrVegasInfoSmall) else
  enabled ← LE32 data 0 4;
  rttcnt ← LE32 data 4 8;
  rtt ← LE32 data 8 12;
  minrtt ← LE32 data 12 16;
  Some ({| vi_Enabled := enabled; vi_RttCnt := rttcnt; vi_Rtt := rtt; vi_MinRtt := minrtt |},
        VegasInfoReadCst, None).

Definition DeserializeVegasInfoXTCP (data : bytes) (x : XtcpFlatRecord)
    : go (XtcpFlatRecord * option err) :=
  if decide (glen data < VegasInfoSizeCst) then Some (x, Some ErrVegasInfoSmall) else
  x ← rec_assigns [ (VegasInfoEnabled, LE32 data 0 4); (VegasInfoRttcnt, LE32 data 4 8);
                    (VegasInfoRtt, LE32 data 8 12); (VegasInfoMinrtt, LE32 data 12 16) ] x;
  Some (x, None).

Definition ZeroizeVegasInfoXTCP (x : XtcpFlatRecord) : XtcpFlatRecord :=
  set_num VegasInfoMinrtt 0 (set_num VegasInfoRtt 0
    (set_num VegasInfoRttcnt 0 (set_num VegasInfoEnabled 0 x))).

(** ** INET_DIAG_CONG (xtcpnl_inet_diag_conginfo.go) *)

Definition CongInfoSizeCst : Z := 4.
Definition CongInfoEmumValueCst : Z := 4.

(** [ci.Cong = data]: the struct's slice is the attribute payload itself. *)
Definition DeserializeCongInfo (data : bytes) (ci : bytes) : go (bytes * Z * option err) :=
  if decide (glen data < CongInfoSizeCst) then Some (ci, 0, Some ErrCongInfoSmall) else
  Some (data, glen data, None).

(** The bytes of a Go string literal. *)
Definition ascii_bytes (s : string) : bytes :=
  (fun c => Z.of_N (Ascii.N_of_ascii c)) <$> String.list_ascii_of_string s.

Definition DeserializeCongInfoXTCP (data : bytes) (x : XtcpFlatRecord)
    : go (XtcpFlatRecord * option err) :=
  if decide (glen data < CongInfoSizeCst) then Some (x, Some ErrCongInfoSmall) else
  p ← slice data 0 3;
  if decide (p = ascii_bytes "cub") then
    Some (set_num InetDiagCongEnum CONGESTION_ALGORITHM_CUBIC x, None)
  else if decide (p = ascii_bytes "bbr") then
    c ← (if decide (glen data >= 4) then index data 3 else Some 0);
    if decide (glen data >= 4 /\ c = 51) then (* '3' *)
      Some (set_num InetDiagCongEnum CONGESTION_ALGORITHM_BBR3 x, None)
    else if decide (glen data >= 4 /\ c = 50) then (* '2' *)
      Some (set_num InetDiagCongEnum CONGESTION_ALGORITHM_BBR2 x, None)
    else Some (set_num InetDiagCongEnum CONGESTION_ALGORITHM_BBR1 x, None)
  else if decide (p = ascii_bytes "dct") then
    Some (set_num InetDiagCongEnum CONGESTION_ALGORITHM_DCTCP x, None)
  else if decide (p = ascii_bytes "veg") then
    Some (set_num InetDiagCongEnum CONGESTION_ALGORITHM_VEGAS x, None)
  else Some (x, None).

(** ** INET_DIAG_TOS, INET_DIAG_TCLASS, INET_DIAG_SHUTDOWN: one byte *)

Definition TypeOfServiceSizeCst : Z := 1.
Definition TypeOfServiceEmumValueCst : Z := 5.

Definition DeserializeTypeOfService (data : bytes) (tos : Z) : go (Z * Z * option err) :=
  if decide (glen data < TypeOfServiceSizeCst) then Some (tos, 0, Some ErrTypeOfServiceSmall) else
  b ← index data 0;
  Some (b, TypeOfServiceSizeCst, None).

Definition DeserializeTypeOfServiceXTCP (data : bytes) (x : XtcpFlatRecord)
    : go (XtcpFlatRecord * option err) :=
  if decide (glen data < TypeOfServiceSizeCst) then Some (x, Some ErrTypeOfServiceSmall) else
  x ← rec_assigns [ (InetDiagTos, index data 0) ] x;
  Some (x, None).

Definition TrafficClassSizeCst : Z := 1.
Definition TrafficClassMinSizeCst : Z := TrafficClassSizeCst.
Definition TrafficClassEmumValueCst : Z := 6.

Definition DeserializeTrafficClass (data : bytes) (tc : Z) : go (Z * Z * option err) :=
  if decide (glen data < TrafficClassMinSizeCst) then Some (tc, 0, Some ErrTrafficClassSmall) else
  b ← index data 0;
  Some (b, TrafficClassSizeCst, None).

Definition DeserializeTrafficClassXTCP (data : bytes) (x : XtcpFlatRecord)
    : go (XtcpFlatRecord * option err) :=
  if decide (glen data < TrafficClassMinSizeCst) then Some (x, Some ErrTrafficClassSmall) else
  x ← rec_assigns [ (InetDiagTclass, index data 0) ] x;
  Some (x, None).

Definition ShutdownSizeCst : Z := 1.
Definition ShutdownMinSizeCst : Z := ShutdownSizeCst.
Definition ShutdownEmumValueCst : Z := 8.

Definition DeserializeShutdown (data : bytes) (s : Z) : go (Z * Z * option err) :=
  if decide (glen data < ShutdownMinSizeCst) then Some (s, 0, Some ErrShutdownSmall) else
  b ← index data 0;
  Some (b, ShutdownSizeCst, None).

Definition DeserializeShutdownXTCP (data : bytes) (x : XtcpFlatRecord)
    : go (XtcpFlatRecord * option err) :=
  if decide (glen data < ShutdownMinSizeCst) then Some (x, Some ErrShutdownSmall) else
  x ← rec_assigns [ (InetDiagShutdown, index data 0) ] x;
  Some (x, None).

(** ** INET_DIAG_SKMEMINFO (xtcpnl_inet_diag_skmeminfo.go) *)

Record SkMemInfo := mkSkMemInfo {
  sm_RmemAlloc : Z; sm_RcvBuf : Z; sm_WmemAlloc : Z; sm_SndBuf : Z; sm_FwdAlloc : Z;
  sm_WmemQueued : Z; sm_Optmem : Z; sm_Backlog : Z; sm_Drops : Z }.
Definition SkMemInfoSizeCst : Z := 36.
Definition SkMemInfoMinSizeCst : Z := SkMemInfoSizeCst.
Definition SkMemInfoEnumValueCst : Z := 7.

Definition DeserializeSkMemInfo (data : bytes) (sm : SkMemInfo) : go (SkMemInfo * Z * option err) :=
  if decide (glen data < SkMemInfoMinSizeCst) then Some (sm, 0, Some ErrSkMemInfoSmall) else
  a ← LE32 data 0 4;
  b ← LE32 data 4 8;
  c ← LE32 data 8 12;
  d ← LE32 data 12 16;
  e ← LE32 data 16 20;
  f ← LE32 data 20 24;
  g ← LE32 data 24 28;
  h ← LE32 data 28 32;
  i ← LE32 data 32 36;
  Some ({| sm_RmemAlloc := a; sm_RcvBuf := b; sm_WmemAlloc := c; sm_SndBuf := d;
           sm_FwdAlloc := e; sm_WmemQueued := f; sm_Optmem := g; sm_Backlog := h;
           sm_Drops := i |}, SkMemInfoSizeCst, None).

Definition DeserializeSkMemInfoXTCP (data : bytes) (x : XtcpFlatRecord)
    : go (XtcpFlatRecord * option err) :=
  if decide (glen data < SkMemInfoMinSizeCst) then Some (x, Some ErrSkMemInfoSmall) else
  x ← rec_assigns [ (SkMemInfoRmemAlloc, LE32 data 0 4); (SkMemInfoRcvbuf, LE32 data 4 8);
                    (SkMemInfoWmemAlloc, LE32 data 8 12); (SkMemInfoSndbuf, LE32 data 12 16);
                    (SkMemInfoFwdAlloc, LE32 data 16 20); (SkMemInfoWmemQueued, LE32 data 20 24);
                    (SkMemInfoOptmem, LE32 data 24 28); (SkMemInfoBacklog, LE32 data 28 32);
                    (SkMemInfoDrops, LE32 data 32 36) ] x;
  Some (x, None).

(** ** INET_DIAG_DCTCPINFO (xtcpnl_inet_diag_dctcpinfo.go) *)

Record DCTCPInfo := mkDCTCPInfo {
  dc_Enabled : Z; dc_CEState : Z; dc_Alpha : Z; dc_ABECN : Z; dc_ABTOT : Z }.
Definition DCTCPInfoSizeCst : Z := 16.
Definition DCTCPInfoReadCst : Z := DCTCPInfoSizeCst.
Definition DCTCPInfoEnumValueCst : Z := 9.

Definition DeserializeDCTCPInfo (data : bytes) (d : DCTCPInfo) : go (DCTCPInfo * Z * option err) :=
  if decide (glen data < DCTCPInfoSizeCst) then Some (d, 0, Some ErrDCTCPInfoSmall) else
  enabled ← LE16 data 0 2;
  ce ← LE16 data 2 4;
  alpha ← LE32 data 4 8;
  ecn ← LE32 data 8 12;
  tot ← LE32 data 12 16;
  Some ({| dc_Enabled := enabled; dc_CEState := ce; dc_Alpha := alpha; dc_ABECN := ecn;
           dc_ABTOT := tot |}, DCTCPInfoReadCst, None).

Definition DeserializeDCTCPInfoXTCP (data : bytes) (x : XtcpFlatRecord)
    : go (XtcpFlatRecord * option err) :=
  if decide (glen data < DCTCPInfoSizeCst) then Some (x, Some ErrDCTCPInfoSmall) else
  x ← rec_assigns [ (DctcpInfoEnabled, LE16 data 0 2); (DctcpInfoCeState, LE16 data 2 4);
                    (DctcpInfoAlpha, LE32 data 4 8); (DctcpInfoAbEcn, LE32 data 8 12);
                    (DctcpInfoAbTot, LE32 data 12 16) ] x;
  Some (x, None).

Definition ZeroizeDCTCPInfoXTCP (x : XtcpFlatRecord) : XtcpFlatRecord :=
  set_num DctcpInfoAbTot 0 (set_num DctcpInfoAbEcn 0 (set_num DctcpInfoAlpha 0
    (set_num DctcpInfoCeState 0 (set_num DctcpInfoEnabled 0 x)))).

(** ** INET_DIAG_BBRINFO (xtcpnl_inet_diag_bbrinfo.go) *)

Record BBRInfo := mkBBRInfo {
  BwLo : Z; BwHi : Z; bbr_MinRtt : Z; PacingGain : Z; CwndGain : Z }.
Definition BBRInfoSizeCst : Z := 20.
Definition BBRInfoReadCst : Z := BBRInfoSizeCst.
Definition BBRInfoEnumValueCst : Z := 16.

Definition DeserializeBBRInfo (data : bytes) (b : BBRInfo) : go (BBRInfo * Z * option err) :=
  if decide (glen data < BBRInfoSizeCst) then Some (b, 0, Some ErrBBRInfoSmall) else
  lo ← LE32 data 0 4;
  hi ← LE32 data 4 8;
  rtt ← LE32 data 8 12;
  pg ← LE32 data 12 16;
  cg ← LE32 data 16 20;
  Some ({| BwLo := lo; BwHi := hi; bbr_MinRtt := rtt; PacingGain := pg; CwndGain := cg |},
        BBRInfoReadCst, None).

Definition DeserializeBBRInfoXTCP (data : bytes) (x : XtcpFlatRecord)
    : go (XtcpFlatRecord * option err) :=
  if decide (glen data < BBRInfoSizeCst) then Some (x, Some ErrBBRInfoSmall) else
  x ← rec_assigns [ (BbrInfoBwLo, LE32 data 0 4); (BbrInfoBwHi, LE32 data 4 8);
                    (BbrInfoMinRtt, LE32 data 8 12); (BbrInfoPacingGain, LE32 data 12 16);
                    (BbrInfoCwndGain, LE32 data 16 20) ] x;
  Some (x, None).

Definition ZeroizeBBRInfoXTCP (x : XtcpFlatRecord) : XtcpFlatRecord :=
  set_num BbrInfoCwndGain 0 (set_num BbrInfoPacingGain 0 (set_num BbrInfoMinRtt 0
    (set_num BbrInfoBwHi 0 (set_num BbrInfoBwLo 0 x)))).

(** ** INET_DIAG_CLASS_ID, INET_DIAG_CGROUP_ID, INET_DIAG_SOCKOPT *)

Definition ClassIDSizeCst : Z := 4.
Definition ClassIDEnumValueCst : Z := 17.

Definition DeserializeClassID (data : bytes) (c : Z) : go (Z * Z * option err) :=
  if decide (glen data < ClassIDSizeCst) then Some (c, 0, Some ErrClassIDSmall) else
  v ← LE32 data 0 4;
  Some (v, glen data, None).

Definition DeserializeClassIDXTCP (data : bytes) (x : XtcpFlatRecord)
    : go (XtcpFlatRecord * option err) :=
  if decide (glen data < ClassIDSizeCst) then Some (x, Some ErrClassIDSmall) else
  x ← rec_assigns [ (InetDiagClassId, LE32 data 0 4) ] x;
  Some (x, None).

Definition CGroupIDSizeCst : Z := 8.
Definition CGroupIDEnumValueCst : Z := 21.

Definition DeserializeCGroupID (data : bytes) (c : Z) : go (Z * Z * option err) :=
  if decide (glen data < CGroupIDSizeCst) then Some (c, 0, Some ErrCGroupIDSmall) else
  v ← LE64 data 0 8;
  Some (v, CGroupIDSizeCst, None).

Definition DeserializeCGroupIDXTCP (data : bytes) (x : XtcpFlatRecord)
    : go (XtcpFlatRecord * option err) :=
  if decide (glen data < CGroupIDSizeCst) then Some (x, Some ErrCGroupIDSmall) else
  x ← rec_assigns [ (InetDiagCgroupId, LE64 data 0 8) ] x;
  Some (x, None).

Definition SockOptSizeCst : Z := 2.
Definition SockOptReadCst : Z := SockOptSizeCst.
Definition SockOptEnumValueCst : Z := 22.

Definition DeserializeSockOpt (data : bytes) (c : Z) : go (Z * Z * option err) :=
  if decide (glen data < SockOptSizeCst) then Some (c, 0, Some ErrSockOptSmall) else
  v ← LE16 data 0 2;
  Some (v, SockOptReadCst, None).

Definition DeserializeSockOptXTCP (data : bytes) (x : XtcpFlatRecord)
    : go (XtcpFlatRecord * option err) :=
  if decide (glen data < SockOptSizeCst) then Some (x, Some ErrSockOptSmall) else
  x ← rec_assigns [ (InetDiagSockopt, LE16 data 0 2) ] x;
  Some (x, None).

(** ** INET_DIAG_PRAGUEINFO (xtcpnl_inet_diag_pragueinfo.go) *)

Record PragueInfo := mkPragueInfo {
  pr_Alpha : Z; FracCwnd : Z; RateBytes : Z; MaxBurst : Z; pr_Round : Z; RttTarget : Z }.
Definition PragueInfoSizeCst : Z := 36.
Definition PragueInfoReadCst : Z := PragueInfoSizeCst.

Definition DeserializePragueInfo (data : bytes) (p : PragueInfo) : go (PragueInfo * Z * option err) :=
  if decide (glen data < PragueInfoSizeCst) then Some (p, 0, Some ErrPragueInfoSmall) else
  alpha ← LE64 data 0 8;
  frac ← LE64 data 8 16;
  rate ← LE64 data 16 24;
  burst ← LE32 data 24 28;
  round ← LE32 data 28 32;
  target ← LE32 data 32 36;
  Some ({| pr_Alpha := alpha; FracCwnd := frac; RateBytes := rate; MaxBurst := burst;
           pr_Round := round; RttTarget := target |}, PragueInfoReadCst, None).

(** ** The decoders meet the contract *)

#[export] Instance DeserializeMemInfoXTCP_decoder :
  AttrDecoder DeserializeMemInfoXTCP MemInfoSizeCst
    [MemInfoRmem; MemInfoWmem; MemInfoFmem; MemInfoTmem].
Proof. unfold MemInfoSizeCst. solve_decoder. Qed.

#[export] Instance DeserializeSkMemInfoXTCP_decoder :
  AttrDecoder DeserializeSkMemInfoXTCP SkMemInfoSizeCst
    [SkMemInfoRmemAlloc; SkMemInfoRcvbuf; SkMemInfoWmemAlloc; SkMemInfoSndbuf;
     SkMemInfoFwdAlloc; SkMemInfoWmemQueued; SkMemInfoOptmem; SkMemInfoBacklog; SkMemInfoDrops].
Proof. unfold SkMemInfoSizeCst. solve_decoder. Qed.
#[export] Instance DeserializeDCTCPInfoXTCP_decoder :
  AttrDecoder DeserializeDCTCPInfoXTCP DCTCPInfoSizeCst
    [DctcpInfoEnabled; DctcpInfoCeState; DctcpInfoAlpha; DctcpInfoAbEcn; DctcpInfoAbTot].
Proof. unfold DCTCPInfoSizeCst. solve_decoder. Qed.
#[export] Instance DeserializeTypeOfServiceXTCP_decoder :
  AttrDecoder DeserializeTypeOfServiceXTCP TypeOfServiceSizeCst [InetDiagTos].
Proof. unfold TypeOfServiceSizeCst. solve_decoder. Qed.
#[export] Instance DeserializeVegasInfoXTCP_decoder :
  AttrDecoder DeserializeVegasInfoXTCP VegasInfoSizeCst
    [VegasInfoEnabled; VegasInfoRttcnt; VegasInfoRtt; VegasInfoMinrtt].
Proof. unfold VegasInfoSizeCst. solve_decoder. Qed.
#[export] Instance DeserializeTrafficClassXTCP_decoder :
  AttrDecoder DeserializeTrafficClassXTCP TrafficClassMinSizeCst [InetDiagTclass].
Proof. unfold TrafficClassMinSizeCst, TrafficClassSizeCst. solve_decoder. Qed.
#[export] Instance DeserializeShutdownXTCP_decoder :
  AttrDecoder DeserializeShutdownXTCP ShutdownMinSizeCst [InetDiagShutdown].
Proof. unfold ShutdownMinSizeCst, ShutdownSizeCst. solve_decoder. Qed.
#[export] Instance DeserializeBBRInfoXTCP_decoder :
  AttrDecoder DeserializeBBRInfoXTCP BBRInfoSizeCst
    [BbrInfoBwLo; BbrInfoBwHi; BbrInfoMinRtt; BbrInfoPacingGain; BbrInfoCwndGain].
Proof. unfold BBRInfoSizeCst. solve_decoder. Qed.
#[export] Instance DeserializeClassIDXTCP_decoder :
  AttrDecoder DeserializeClassIDXTCP ClassIDSizeCst [InetDiagClassId].
Proof. unfold ClassIDSizeCst. solve_decoder. Qed.
#[export] Instance DeserializeCGroupIDXTCP_decoder :
  AttrDecoder DeserializeCGroupIDXTCP CGroupIDSizeCst [InetDiagCgroupId].
Proof. unfold CGroupIDSizeCst. solve_decoder. Qed.
#[export] Instance DeserializeSockOptXTCP_decoder :
  AttrDecoder DeserializeSockOptXTCP SockOptSizeCst [InetDiagSockopt].
Proof. unfold SockOptSizeCst. solve_decoder. Qed.

(** The congestion-control name sets the enum column or nothing; the value it
    sets, if any, depends on the payload only. *)
Definition cong_enum (data : bytes) : option Z :=
  let p := take 3 data in
  if decide (p = ascii_bytes "cub") then Some CONGESTION_ALGORITHM_CUBIC
  else if decide (p = ascii_bytes "bbr") then
    Some (if decide (byte_at data 3 = 51) then CONGESTION_ALGORITHM_BBR3
          else if decide (byte_at data 3 = 50) then CONGESTION_ALGORITHM_BBR2
          else CONGESTION_ALGORITHM_BBR1)
  else if decide (p = ascii_bytes "dct") then Some CONGESTION_ALGORITHM_DCTCP
  else if decide (p = ascii_bytes "veg") then Some CONGESTION_ALGORITHM_VEGAS
  else None.

Lemma DeserializeCongInfoXTCP_eq data x :
  DeserializeCongInfoXTCP data x =
    if decide (glen data < CongInfoSizeCst) then Some (x, Some ErrCongInfoSmall)
    else Some (from_option (fun v => set_num InetDiagCongEnum v x) x (cong_enum data), None).
Proof.
  unfold DeserializeCongInfoXTCP, cong_enum, CongInfoSizeCst.
  case_decide; [done|]. rewrite slice_ok by len_lia.
  change (take (Z.to_nat (3 - 0)) (drop (Z.to_nat 0) data)) with (take 3 data).
  cbn [mbind option_bind]. repeat (case_decide; [done|]).
  case_decide; [|by repeat case_decide].
  rewrite decide_True, index_ok by len_lia. cbn [mbind option_bind].
  repeat (case_decide; try tauto); try done; exfalso; lia.
Qed.

Lemma cong_enum_typed data v : cong_enum data = Some v -> in_type TEnum v.
Proof.
  unfold cong_enum. intros.
  repeat (case_decide; simplify_eq); vm_compute; split; congruence.
Qed.

#[export] Instance DeserializeCongInfoXTCP_decoder :
  AttrDecoder DeserializeCongInfoXTCP CongInfoSizeCst [InetDiagCongEnum].
Proof.
  split; intros *; rewrite ?DeserializeCongInfoXTCP_eq; repeat case_decide; intros;
    simplify_eq; try (by eauto); try lia; destruct (cong_enum data) eqn:E; simpl; auto.
  - rewrite upd_ne; [done|]. set_solver.
  - intros f. simpl. unfold upd. case_decide; subst; [by eapply cong_enum_typed|auto].
  - eexists; split; [done|]. by apply set_num_proper.
  - by eexists.
Qed.

(** ** Lemmas on the message body *)

(** The integer columns the message body fills. *)
Definition inet_diag_msg_cols : list NumField :=
  [InetDiagMsgFamily; InetDiagMsgState; InetDiagMsgTimer; InetDiagMsgRetrans;
   InetDiagMsgSocketSourcePort; InetDiagMsgSocketDestinationPort;
   InetDiagMsgSocketInterface; InetDiagMsgSocketCookie;
   InetDiagMsgExpires; InetDiagMsgRqueue; InetDiagMsgWqueue; InetDiagMsgUid; InetDiagMsgInode].

(** What the message body says, column by column. *)
Definition inet_diag_msg_values (data : bytes) : list (NumField * Z) :=
  [ (InetDiagMsgFamily, byte_at data 0); (InetDiagMsgState, byte_at data 1);
    (InetDiagMsgTimer, byte_at data 2); (InetDiagMsgRetrans, byte_at data 3);
    (InetDiagMsgSocketSourcePort, be_at 2 data 4);
    (InetDiagMsgSocketDestinationPort, be_at 2 data 6);
    (InetDiagMsgSocketInterface, le_at 4 data 40);
    (InetDiagMsgSocketCookie, le_at 8 data 44);
    (InetDiagMsgExpires, le_at 4 data 52); (InetDiagMsgRqueue, le_at 4 data 56);
    (InetDiagMsgWqueue, le_at 4 data 60); (InetDiagMsgUid, le_at 4 data 64);
    (InetDiagMsgInode, le_at 4 data 68) ].

Lemma DeserializeInetDiagMsgXTCP_short d data x :
  glen data < InetDiagMsgSizeCst ->
  DeserializeInetDiagMsgXTCP d data x = Some (x, Some ErrInetDiagMsgSmall).
Proof. intros. unfold DeserializeInetDiagMsgXTCP. by rewrite decide_True. Qed.

Lemma DeserializeInetDiagMsgXTCP_ok d data x :
  InetDiagMsgSizeCst <= glen data ->
  DeserializeInetDiagMsgXTCP d data x =
    Some (set_addrs (reslice d 8 24) (reslice d 24 40)
            (set_nums (inet_diag_msg_values data) x), None).
Proof.
  unfold InetDiagMsgSizeCst. intros H.
  unfold DeserializeInetDiagMsgXTCP, DeserializeInetDiagSockIDXTCP, InetDiagMsgSizeCst,
    InetDiagSockIDSizeCst.
  rewrite decide_False by lia. unfold rec_assigns. cbn [assigns]. go_reads.
  rewrite decide_False by len_lia. go_reads.
  rewrite !(be_at_slice _ _ 4 52), !(le_at_slice _ _ 4 52) by lia.
  unfold set_addrs, set_nums, with_num, reslice; cbn.
  by rewrite <- !Z.add_assoc.
Qed.

Lemma DeserializeInetDiagSockID_ok data s :
  InetDiagSockIDSizeCst <= glen data ->
  DeserializeInetDiagSockID data s =
    Some ({| SPort := be_at 2 data 0; DPort := be_at 2 data 2;
             SrcIP := take 16 (drop 4 data); DstIP := take 16 (drop 20 data);
             Interface := le_at 4 data 36; Cookie := le_at 8 data 40 |},
          InetDiagSockIDReadCst, None).
Proof.
  unfold InetDiagSockIDSizeCst. intros. unfold DeserializeInetDiagSockID, InetDiagSockIDSizeCst.
  rewrite decide_False by lia. unfold to_array16. go_reads.
  rewrite !decide_True by len_lia. cbn [mbind option_bind]. go_reads.
  by rewrite !take_take.
Qed.

(** The columns a decoded message struct stands for. *)
Definition InetDiagMsg_columns (m : InetDiagMsg) : list (NumField * Z) :=
  let s := idm_SocketID m in
  [ (InetDiagMsgFamily, idm_Family m); (InetDiagMsgState, idm_State m);
    (InetDiagMsgTimer, idm_Timer m); (InetDiagMsgRetrans, idm_Retrans m);
    (InetDiagMsgSocketSourcePort, SPort s); (InetDiagMsgSocketDestinationPort, DPort s);
    (InetDiagMsgSocketInterface, Interface s); (InetDiagMsgSocketCookie, Cookie s);
    (InetDiagMsgExpires, idm_Expires m); (InetDiagMsgRqueue, idm_Rqueue m);
    (InetDiagMsgWqueue, idm_Wqueue m); (InetDiagMsgUid, idm_UID m);
    (InetDiagMsgInode, idm_Inode m) ].

Lemma DeserializeInetDiagMsg_ok data m s :
  InetDiagMsgSizeCst <= glen data ->
  exists m' s', DeserializeInetDiagMsg data m s = Some (m', s', InetDiagMsgReadCst, None) /\
    idm_SocketID m' = s' /\ InetDiagMsg_columns m' = inet_diag_msg_values data /\
    SrcIP s' = take 16 (drop 8 data) /\ DstIP s' = take 16 (drop 24 data).
Proof.
  unfold InetDiagMsgSizeCst. intros.
  unfold DeserializeInetDiagMsg, InetDiagMsgSizeCst. rewrite decide_False by lia.
  do 4 (rewrite index_ok by lia; cbn [mbind option_bind]).
  rewrite slice_ok by (unfold InetDiagSockIDSizeCst; lia). cbn [mbind option_bind].
  rewrite DeserializeInetDiagSockID_ok by (unfold InetDiagSockIDSizeCst; len_lia).
  unfold InetDiagSockIDSizeCst. go_reads. do 2 eexists. split; [done|]. split; [done|].
  unfold InetDiagMsg_columns, inet_diag_msg_values; cbn.
  change (Pos.to_nat 48) with (Z.to_nat (52 - 4)). change (Pos.to_nat 4) with (Z.to_nat 4).
  rewrite !(be_at_slice _ _ 4 52), !(le_at_slice _ _ 4 52) by lia. split; [done|].
  rewrite !skipn_firstn_comm, !drop_drop, !take_take. done.
Qed.

(** Two decoders of one attribute agree: same error verdict on every payload,
    and on success the record holds the struct's fields and is otherwise as it
    was. *)
Definition agrees {T} (dec : bytes -> T -> go (T * Z * option err)) (decX : deserializerFunc)
    (columns : T -> list (NumField * Z)) : Prop :=
  forall data t x, exists t' n e,
    dec data t = Some (t', n, e) /\
    decX data x = Some (match e with None => set_nums (columns t') x | Some _ => x end, e) /\
    (is_Some e -> t' = t /\ n = 0).

Definition MemInfo_columns (m : MemInfo) : list (NumField * Z) :=
  [ (MemInfoRmem, Rmem m); (MemInfoWmem, Wmem m); (MemInfoFmem, Fmem m); (MemInfoTmem, Tmem m) ].
Definition VegasInfo_columns (v : VegasInfo) : list (NumField * Z) :=
  [ (VegasInfoEnabled, vi_Enabled v); (VegasInfoRttcnt, vi_RttCnt v);
    (VegasInfoRtt, vi_Rtt v); (VegasInfoMinrtt, vi_MinRtt v) ].
Definition CongInfo_columns (name : bytes) : list (NumField * Z) :=
  match cong_enum name with Some v => [ (InetDiagCongEnum, v) ] | None => [] end.
Definition SkMemInfo_columns (s : SkMemInfo) : list (NumField * Z) :=
  [ (SkMemInfoRmemAlloc, sm_RmemAlloc s); (SkMemInfoRcvbuf, sm_RcvBuf s);
    (SkMemInfoWmemAlloc, sm_WmemAlloc s); (SkMemInfoSndbuf, sm_SndBuf s);
    (SkMemInfoFwdAlloc, sm_FwdAlloc s); (SkMemInfoWmemQueued, sm_WmemQueued s);
    (SkMemInfoOptmem, sm_Optmem s); (SkMemInfoBacklog, sm_Backlog s);
    (SkMemInfoDrops, sm_Drops s) ].
Definition DCTCPInfo_columns (d : DCTCPInfo) : list (NumField * Z) :=
  [ (DctcpInfoEnabled, dc_Enabled d); (DctcpInfoCeState, dc_CEState d);
    (DctcpInfoAlpha, dc_Alpha d); (DctcpInfoAbEcn, dc_ABECN d); (DctcpInfoAbTot, dc_ABTOT d) ].
Definition BBRInfo_columns (b : BBRInfo) : list (NumField * Z) :=
  [ (BbrInfoBwLo, BwLo b); (BbrInfoBwHi, BwHi b); (BbrInfoMinRtt, bbr_MinRtt b);
    (BbrInfoPacingGain, PacingGain b); (BbrInfoCwndGain, CwndGain b) ].
Definition one_column (f : NumField) (v : Z) : list (NumField * Z) := [ (f, v) ].

(** Both decoders are the same length guard followed by the same reads. *)
Ltac solve_agrees :=
  intros data t x;
  match goal with |- context [ ?dec data t = Some _ ] => unfold dec end;
  match goal with |- context [ ?decX data x = Some _ ] => unfold decX end;
  cbv delta [TrafficClassMinSizeCst ShutdownMinSizeCst SkMemInfoMinSizeCst
    MemInfoSizeCst VegasInfoSizeCst TypeOfServiceSizeCst TrafficClassSizeCst ShutdownSizeCst
    SkMemInfoSizeCst DCTCPInfoSizeCst BBRInfoSizeCst ClassIDSizeCst CGroupIDSizeCst
    SockOptSizeCst];
  case_decide; [by do 3 eexists|];
  unfold rec_assigns; cbn [assigns]; go_reads;
  do 3 eexists; split_and!; [done|done|by intros [? [=]]].

(** For every attribute that has both a struct decoder and a record
    decoder, the two give the same verdict on every payload, and on success the
    record columns are exactly the struct's fields while every other column
    keeps its value; on failure neither destination is touched. *)
Theorem attribute_decoders_agree :
  agrees DeserializeMemInfo DeserializeMemInfoXTCP MemInfo_columns /\
  agrees DeserializeVegasInfo DeserializeVegasInfoXTCP VegasInfo_columns /\
  agrees DeserializeCongInfo DeserializeCongInfoXTCP CongInfo_columns /\
  agrees DeserializeTypeOfService DeserializeTypeOfServiceXTCP (one_column InetDiagTos) /\
  agrees DeserializeTrafficClass DeserializeTrafficClassXTCP (one_column InetDiagTclass) /\
  agrees DeserializeShutdown DeserializeShutdownXTCP (one_column InetDiagShutdown) /\
  agrees DeserializeSkMemInfo DeserializeSkMemInfoXTCP SkMemInfo_columns /\
  agrees DeserializeDCTCPInfo DeserializeDCTCPInfoXTCP DCTCPInfo_columns /\
  agrees DeserializeBBRInfo DeserializeBBRInfoXTCP BBRInfo_columns /\
  agrees DeserializeClassID DeserializeClassIDXTCP (one_column InetDiagClassId) /\
  agrees DeserializeCGroupID DeserializeCGroupIDXTCP (one_column InetDiagCgroupId) /\
  agrees DeserializeSockOpt DeserializeSockOptXTCP (one_column InetDiagSockopt).
Proof.
  split_and!; [solve_agrees|solve_agrees| |solve_agrees..].
  intros data t x. rewrite DeserializeCongInfoXTCP_eq. unfold DeserializeCongInfo.
  case_decide; [by do 3 eexists|]. do 3 eexists. split_and!; [done| |by intros [? [=]]].
  unfold CongInfo_columns. destruct (cong_enum data) as [v|]; [done|]. by destruct x.
Qed.

(** On a message body of 72 bytes or more the record decoder never fails:
    the integer columns are the fields of the message the struct decoder
    returns, the two address slices denote its source and destination bytes in
    the packet buffer [b], and nothing else of the record changes; on a shorter
    body both report ErrInetDiagMsgSmall and change nothing. *)
Theorem inet_diag_msg_decoders_agree b d x m0 s0 :
  0 <= sl_off d -> sl_off d + sl_len d <= glen b ->
  let data := slice_bytes b d in
  if decide (glen data < InetDiagMsgSizeCst) then
    DeserializeInetDiagMsg data m0 s0 = Some (m0, s0, 0, Some ErrInetDiagMsgSmall) /\
    DeserializeInetDiagMsgXTCP d data x = Some (x, Some ErrInetDiagMsgSmall)
  else exists m s x',
    DeserializeInetDiagMsg data m0 s0 = Some (m, s, InetDiagMsgSizeCst, None) /\
    DeserializeInetDiagMsgXTCP d data x = Some (x', None) /\
    (forall f v, (f, v) ∈ InetDiagMsg_columns m -> num x' f = v) /\
    (forall f, f ∉ inet_diag_msg_cols -> num x' f = num x f) /\ str x' = str x /\
    slice_bytes b (InetDiagMsgSocketSource x') = SrcIP s /\
    slice_bytes b (InetDiagMsgSocketDestination x') = DstIP s.
Proof.
  intros H1 H2 data. case_decide as Hl.
  { split; [unfold DeserializeInetDiagMsg; by rewrite decide_True|].
    by apply DeserializeInetDiagMsgXTCP_short. }
  destruct (DeserializeInetDiagMsg_ok data m0 s0) as (m & s & Hd & Hs & Hc & Hsrc & Hdst); [lia|].
  exists m, s. eexists. split; [exact Hd|].
  split; [apply DeserializeInetDiagMsgXTCP_ok; lia|].
  rewrite Hc, Hsrc, Hdst. split_and!; try done.
  - intros. apply set_nums_value; [|done]. by apply (bool_decide_unpack _); vm_compute.
  - intros. by apply set_nums_frame.
  - by apply slice_bytes_reslice; [lia..|unfold InetDiagMsgSizeCst in *; fold data; lia].
  - by apply slice_bytes_reslice; [lia..|unfold InetDiagMsgSizeCst in *; fold data; lia].
Qed.

Lemma inet_diag_msg_decoders_agree_witness :
  let s0 := mkSockID 0 0 nil nil 0 0 in
  exists m s x',
    DeserializeInetDiagMsg (replicate 72 7) (mkInetDiagMsg 0 0 0 0 s0 0 0 0 0 0) s0 =
      Some (m, s, 72, None) /\
    DeserializeInetDiagMsgXTCP (mkSlice 1 4 72) (replicate 72 7) zeroRecord = Some (x', None) /\
    slice_bytes (replicate 80 7) (InetDiagMsgSocketSource x') = SrcIP s.
Proof.
  intros s0.
  destruct (inet_diag_msg_decoders_agree (replicate 80 7) (mkSlice 1 4 72) zeroRecord
    (mkInetDiagMsg 0 0 0 0 s0 0 0 0 0 0) s0) as (m & s & x' & H1 & H2 & _ & _ & _ & H3 & _).
  - vm_compute. discriminate.
  - vm_compute. discriminate.
  - exists m, s, x'. split; [exact H1|]. split; [exact H2|exact H3].
Defined.
