(* ===== verification/TcpInfo.v ===== *)
(** INET_DIAG_INFO: [struct tcp_info] (pkg/xtcpnl/xtcpnl_inet_diag_tcpinfo.go).
    The struct grew with the kernel; both decoders read a base of 192 bytes and
    then one tail per kernel release that the payload is long enough for. *)

From S2P Require Import Prelude FlatRecord AttrDecoder InetDiag.

(** ** struct TCPInfo

    [TCPInfo] is [TCPInfo7_0_3], every field an unsigned integer; a value is a
    function of the field. *)

Inductive TCPInfoField :=
  | ti_State | ti_CaState | ti_Retransmits | ti_Probes | ti_Backoff | ti_Options | ti_SndWscale
  | ti_RcvWscale | ti_DeliveryRateAppLimited | ti_FastopenClientFail | ti_Rto | ti_Ato
  | ti_SndMss | ti_RcvMss | ti_Unacked | ti_Sacked | ti_Lost | ti_Retrans | ti_Fackets
  | ti_LastDataSent | ti_LastAckSent | ti_LastDataRecv | ti_LastAckRecv | ti_Pmtu
  | ti_RcvSsthresh | ti_Rtt | ti_Rttvar | ti_SndSsthresh | ti_SndCwnd | ti_AdvMss
  | ti_Reordering | ti_RcvRtt | ti_RcvSpace | ti_TotalRetrans | ti_PacingRate
  | ti_MaxPacingRate | ti_BytesAcked | ti_BytesReceived | ti_SegsOut | ti_SegsIn
  | ti_NotSentBytes | ti_MinRtt | ti_DataSegsIn | ti_DataSegsOut | ti_DeliveryRate
  | ti_BusyTime | ti_RwndLimited | ti_SndbufLimited | ti_Delivered | ti_DeliveredCe
  | ti_BytesSent | ti_BytesRetrans | ti_DsackDups | ti_ReordSeen | ti_RcvOoopack | ti_SndWnd
  | ti_RcvWnd | ti_Rehash | ti_TotalRTO | ti_TotalRTORecoveries | ti_TotalRTOTime
  | ti_ReceivedCe | ti_DeliveredE1Bytes | ti_DeliveredE0Bytes | ti_DeliveredCeBytes
  | ti_ReceivedE1Bytes | ti_ReceivedE0Bytes | ti_ReceivedCeBytes | ti_EcnMode
  | ti_AccecnOptSeen | ti_AccecnFailMode | ti_Options2.

Definition all_TCPInfoField : list TCPInfoField :=
  [
    ti_State; ti_CaState; ti_Retransmits; ti_Probes; ti_Backoff; ti_Options; ti_SndWscale;
    ti_RcvWscale; ti_DeliveryRateAppLimited; ti_FastopenClientFail; ti_Rto; ti_Ato; ti_SndMss;
    ti_RcvMss; ti_Unacked; ti_Sacked; ti_Lost; ti_Retrans; ti_Fackets; ti_LastDataSent;
    ti_LastAckSent; ti_LastDataRecv; ti_LastAckRecv; ti_Pmtu; ti_RcvSsthresh; ti_Rtt; ti_Rttvar;
    ti_SndSsthresh; ti_SndCwnd; ti_AdvMss; ti_Reordering; ti_RcvRtt; ti_RcvSpace;
    ti_TotalRetrans; ti_PacingRate; ti_MaxPacingRate; ti_BytesAcked; ti_BytesReceived;
    ti_SegsOut; ti_SegsIn; ti_NotSentBytes; ti_MinRtt; ti_DataSegsIn; ti_DataSegsOut;
    ti_DeliveryRate; ti_BusyTime; ti_RwndLimited; ti_SndbufLimited; ti_Delivered;
    ti_DeliveredCe; ti_BytesSent; ti_BytesRetrans; ti_DsackDups; ti_ReordSeen; ti_RcvOoopack;
    ti_SndWnd; ti_RcvWnd; ti_Rehash; ti_TotalRTO; ti_TotalRTORecoveries; ti_TotalRTOTime;
    ti_ReceivedCe; ti_DeliveredE1Bytes; ti_DeliveredE0Bytes; ti_DeliveredCeBytes;
    ti_ReceivedE1Bytes; ti_ReceivedE0Bytes; ti_ReceivedCeBytes; ti_EcnMode; ti_AccecnOptSeen;
    ti_AccecnFailMode; ti_Options2 ].

#[local] Open Scope nat_scope.
Definition TCPInfoField_idx (f : TCPInfoField) : nat :=
  match f with
  | ti_State => 0 | ti_CaState => 1 | ti_Retransmits => 2 | ti_Probes => 3 | ti_Backoff => 4
  | ti_Options => 5 | ti_SndWscale => 6 | ti_RcvWscale => 7 | ti_DeliveryRateAppLimited => 8
  | ti_FastopenClientFail => 9 | ti_Rto => 10 | ti_Ato => 11 | ti_SndMss => 12
  | ti_RcvMss => 13 | ti_Unacked => 14 | ti_Sacked => 15 | ti_Lost => 16 | ti_Retrans => 17
  | ti_Fackets => 18 | ti_LastDataSent => 19 | ti_LastAckSent => 20 | ti_LastDataRecv => 21
  | ti_LastAckRecv => 22 | ti_Pmtu => 23 | ti_RcvSsthresh => 24 | ti_Rtt => 25
  | ti_Rttvar => 26 | ti_SndSsthresh => 27 | ti_SndCwnd => 28 | ti_AdvMss => 29
  | ti_Reordering => 30 | ti_RcvRtt => 31 | ti_RcvSpace => 32 | ti_TotalRetrans => 33
  | ti_PacingRate => 34 | ti_MaxPacingRate => 35 | ti_BytesAcked => 36 | ti_BytesReceived => 37
  | ti_SegsOut => 38 | ti_SegsIn => 39 | ti_NotSentBytes => 40 | ti_MinRtt => 41
  | ti_DataSegsIn => 42 | ti_DataSegsOut => 43 | ti_DeliveryRate => 44 | ti_BusyTime => 45
  | ti_RwndLimited => 46 | ti_SndbufLimited => 47 | ti_Delivered => 48 | ti_DeliveredCe => 49
  | ti_BytesSent => 50 | ti_BytesRetrans => 51 | ti_DsackDups => 52 | ti_ReordSeen => 53
  | ti_RcvOoopack => 54 | ti_SndWnd => 55 | ti_RcvWnd => 56 | ti_Rehash => 57
  | ti_TotalRTO => 58 | ti_TotalRTORecoveries => 59 | ti_TotalRTOTime => 60
  | ti_ReceivedCe => 61 | ti_DeliveredE1Bytes => 62 | ti_DeliveredE0Bytes => 63
  | ti_DeliveredCeBytes => 64 | ti_ReceivedE1Bytes => 65 | ti_ReceivedE0Bytes => 66
  | ti_ReceivedCeBytes => 67 | ti_EcnMode => 68 | ti_AccecnOptSeen => 69
  | ti_AccecnFailMode => 70 | ti_Options2 => 71
  end.
#[local] Close Scope nat_scope.

Lemma all_TCPInfoField_idx f : all_TCPInfoField !! TCPInfoField_idx f = Some f.
Proof. by destruct f. Qed.
#[export] Instance TCPInfoField_idx_inj : Inj (=) (=) TCPInfoField_idx.
Proof. intros f g H. apply (inj Some). by rewrite <- !all_TCPInfoField_idx, H. Qed.
#[export] Instance TCPInfoField_eq_dec : EqDecision TCPInfoField.
Proof.
  refine (fun f g => match decide (TCPInfoField_idx f = TCPInfoField_idx g) with
                     | left H => left _ | right H => right _ end).
  - by apply TCPInfoField_idx_inj.
  - by intros ->.
Defined.

Abbreviation TCPInfo := (TCPInfoField -> Z).

Definition TCPInfo7_0_3_SizeCst : Z := 280.
Definition TCPInfo6_10_3_SizeCst : Z := 248.
Definition TCPInfo6_6_44_SizeCst : Z := 240.
Definition TCPInfo5_4_281_SizeCst : Z := 232.
Definition TCPInfo4_19_219_SizeCst : Z := 224.
Definition TCPInfo4_15_SizeCst : Z := 192.
Definition TCPInfoMinSizeCst : Z := TCPInfo4_15_SizeCst.
Definition TCPInfoEmumValueCst : Z := 2.

(** ** Into the struct *)

Definition deserializeTCPInfoBase_fields (data : bytes) : list (TCPInfoField * go Z) :=
    [ (ti_State, index data 0); (ti_CaState, index data 1); (ti_Retransmits, index data 2);
      (ti_Probes, index data 3); (ti_Backoff, index data 4); (ti_Options, index data 5);
      (ti_SndWscale, (fun b => Z.land b 15) <$> index data 6);
      (ti_RcvWscale, (fun b => Z.land (Z.shiftr b 4) 15) <$> index data 6);
      (ti_DeliveryRateAppLimited, (fun b => Z.land b 1) <$> index data 7);
      (ti_FastopenClientFail, (fun b => Z.land (Z.shiftr b 1) 3) <$> index data 7);
      (ti_Rto, LE32 data 8 12); (ti_Ato, LE32 data 12 16); (ti_SndMss, LE32 data 16 20);
      (ti_RcvMss, LE32 data 20 24); (ti_Unacked, LE32 data 24 28);
      (ti_Sacked, LE32 data 28 32); (ti_Lost, LE32 data 32 36);
      (ti_Retrans, LE32 data 36 40); (ti_LastDataSent, LE32 data 44 48);
      (ti_LastAckSent, LE32 data 48 52); (ti_LastDataRecv, LE32 data 52 56);
      (ti_LastAckRecv, LE32 data 56 60); (ti_Pmtu, LE32 data 60 64);
      (ti_RcvSsthresh, LE32 data 64 68); (ti_Rtt, LE32 data 68 72);
      (ti_Rttvar, LE32 data 72 76); (ti_SndSsthresh, LE32 data 76 80);
      (ti_SndCwnd, LE32 data 80 84); (ti_AdvMss, LE32 data 84 88);
      (ti_Reordering, LE32 data 88 92); (ti_RcvRtt, LE32 data 92 96);
      (ti_RcvSpace, LE32 data 96 100); (ti_TotalRetrans, LE32 data 100 104);
      (ti_PacingRate, LE64 data 104 112); (ti_MaxPacingRate, LE64 data 112 120);
      (ti_BytesAcked, LE64 data 120 128); (ti_BytesReceived, LE64 data 128 136);
      (ti_SegsOut, LE32 data 136 140); (ti_SegsIn, LE32 data 140 144);
      (ti_NotSentBytes, LE32 data 144 148); (ti_MinRtt, LE32 data 148 152);
      (ti_DataSegsIn, LE32 data 152 156); (ti_DataSegsOut, LE32 data 156 160);
      (ti_DeliveryRate, LE64 data 160 168); (ti_BusyTime, LE64 data 168 176);
      (ti_RwndLimited, LE64 data 176 184); (ti_SndbufLimited, LE64 data 184 192) ].
Definition deserializeTCPInfoBase (data : bytes) (t : TCPInfo) : go TCPInfo :=
  if decide (glen data < TCPInfoMinSizeCst) then Some t else
  assigns (deserializeTCPInfoBase_fields data) t.

Definition deserializeTCPInfoTail4_19_fields (data : bytes) : list (TCPInfoField * go Z) :=
    [ (ti_Delivered, LE32 data 192 196); (ti_DeliveredCe, LE32 data 196 200);
      (ti_BytesSent, LE64 data 200 208); (ti_BytesRetrans, LE64 data 208 216);
      (ti_DsackDups, LE32 data 216 220); (ti_ReordSeen, LE32 data 220 224) ].
Definition deserializeTCPInfoTail4_19 (data : bytes) (t : TCPInfo) : go TCPInfo :=
  if decide (glen data < TCPInfo4_19_219_SizeCst) then Some t else
  assigns (deserializeTCPInfoTail4_19_fields data) t.

Definition deserializeTCPInfoTail5_4_fields (data : bytes) : list (TCPInfoField * go Z) :=
    [ (ti_RcvOoopack, LE32 data 224 228); (ti_SndWnd, LE32 data 228 232) ].
Definition deserializeTCPInfoTail5_4 (data : bytes) (t : TCPInfo) : go TCPInfo :=
  if decide (glen data < TCPInfo5_4_281_SizeCst) then Some t else
  assigns (deserializeTCPInfoTail5_4_fields data) t.

Definition deserializeTCPInfoTail6_6_fields (data : bytes) : list (TCPInfoField * go Z) :=
    [ (ti_RcvWnd, LE32 data 232 236); (ti_Rehash, LE32 data 236 240) ].
Definition deserializeTCPInfoTail6_6 (data : bytes) (t : TCPInfo) : go TCPInfo :=
  if decide (glen data < TCPInfo6_6_44_SizeCst) then Some t else
  assigns (deserializeTCPInfoTail6_6_fields data) t.

Definition deserializeTCPInfoTail6_10_fields (data : bytes) : list (TCPInfoField * go Z) :=
    [ (ti_TotalRTO, LE16 data 240 242); (ti_TotalRTORecoveries, LE16 data 242 244);
      (ti_TotalRTOTime, LE32 data 244 248) ].
Definition deserializeTCPInfoTail6_10 (data : bytes) (t : TCPInfo) : go TCPInfo :=
  if decide (glen data < TCPInfo6_10_3_SizeCst) then Some t else
  assigns (deserializeTCPInfoTail6_10_fields data) t.

Definition deserializeTCPInfoTail7_0_fields (data : bytes) : list (TCPInfoField * go Z) :=
  let flags2 := LE32 data 276 280 in
    [ (ti_ReceivedCe, LE32 data 248 252); (ti_DeliveredE1Bytes, LE32 data 252 256);
      (ti_DeliveredE0Bytes, LE32 data 256 260); (ti_DeliveredCeBytes, LE32 data 260 264);
      (ti_ReceivedE1Bytes, LE32 data 264 268); (ti_ReceivedE0Bytes, LE32 data 268 272);
      (ti_ReceivedCeBytes, LE32 data 272 276);
      (ti_EcnMode, (fun flags2 => uint8 (Z.land flags2 3)) <$> flags2);
      (ti_AccecnOptSeen, (fun flags2 => uint8 (Z.land (Z.shiftr flags2 2) 3)) <$> flags2);
      (ti_AccecnFailMode, (fun flags2 => uint8 (Z.land (Z.shiftr flags2 4) 15)) <$> flags2);
      (ti_Options2, (fun flags2 => Z.land (Z.shiftr flags2 8) 16777215) <$> flags2) ].
Definition deserializeTCPInfoTail7_0 (data : bytes) (t : TCPInfo) : go TCPInfo :=
  if decide (glen data < TCPInfo7_0_3_SizeCst) then Some t else
  assigns (deserializeTCPInfoTail7_0_fields data) t.

Definition DeserializeTCPInfo (data : bytes) (t : TCPInfo) : go (TCPInfo * Z * option err) :=
  if decide (glen data < TCPInfoMinSizeCst) then Some (t, 0, Some ErrTCPInfoSmall) else
  t ← deserializeTCPInfoBase data t;
  if decide (glen data = TCPInfo4_15_SizeCst) then Some (t, glen data, None) else
  t ← deserializeTCPInfoTail4_19 data t;
  if decide (glen data = TCPInfo4_19_219_SizeCst) then Some (t, TCPInfo4_19_219_SizeCst, None) else
  t ← deserializeTCPInfoTail5_4 data t;
  if decide (glen data = TCPInfo5_4_281_SizeCst) then Some (t, TCPInfo5_4_281_SizeCst, None) else
  t ← deserializeTCPInfoTail6_6 data t;
  if decide (glen data = TCPInfo6_6_44_SizeCst) then Some (t, TCPInfo6_6_44_SizeCst, None) else
  t ← deserializeTCPInfoTail6_10 data t;
  if decide (glen data < TCPInfo7_0_3_SizeCst) then Some (t, TCPInfo6_10_3_SizeCst, None) else
  t ← deserializeTCPInfoTail7_0 data t;
  Some (t, TCPInfo7_0_3_SizeCst, None).

(** ** Into the output record *)

Definition deserializeTCPInfoXTCPBase_fields (data : bytes) : list (NumField * go Z) :=
    [ (TcpInfoState, index data 0); (TcpInfoCaState, index data 1);
      (TcpInfoRetransmits, index data 2); (TcpInfoProbes, index data 3);
      (TcpInfoBackoff, index data 4); (TcpInfoOptions, index data 5);
      (TcpInfoSndWscale, (fun b => Z.land b 15) <$> index data 6);
      (TcpInfoRcvWscale, (fun b => Z.land (Z.shiftr b 4) 15) <$> index data 6);
      (TcpInfoDeliveryRateAppLimited, (fun b => Z.land b 1) <$> index data 7);
      (TcpInfoFastopenClientFail, (fun b => Z.land (Z.shiftr b 1) 3) <$> index data 7);
      (TcpInfoRto, LE32 data 8 12); (TcpInfoAto, LE32 data 12 16);
      (TcpInfoSndMss, LE32 data 16 20); (TcpInfoRcvMss, LE32 data 20 24);
      (TcpInfoUnacked, LE32 data 24 28); (TcpInfoSacked, LE32 data 28 32);
      (TcpInfoLost, LE32 data 32 36); (TcpInfoRetrans, LE32 data 36 40);
      (TcpInfoLastDataSent, LE32 data 44 48); (TcpInfoLastAckSent, LE32 data 48 52);
      (TcpInfoLastDataRecv, LE32 data 52 56); (TcpInfoLastAckRecv, LE32 data 56 60);
      (TcpInfoPmtu, LE32 data 60 64); (TcpInfoRcvSsthresh, LE32 data 64 68);
      (TcpInfoRtt, LE32 data 68 72); (TcpInfoRttvar, LE32 data 72 76);
      (TcpInfoSndSsthresh, LE32 data 76 80); (TcpInfoSndCwnd, LE32 data 80 84);
      (TcpInfoAdvmss, LE32 data 84 88); (TcpInfoReordering, LE32 data 88 92);
      (TcpInfoRcvRtt, LE32 data 92 96); (TcpInfoRcvSpace, LE32 data 96 100);
      (TcpInfoTotalRetrans, LE32 data 100 104); (TcpInfoPacingRate, LE64 data 104 112);
      (TcpInfoMaxPacingRate, LE64 data 112 120); (TcpInfoBytesAcked, LE64 data 120 128);
      (TcpInfoBytesReceived, LE64 data 128 136); (TcpInfoSegsOut, LE32 data 136 140);
      (TcpInfoSegsIn, LE32 data 140 144); (TcpInfoNotsentBytes, LE32 data 144 148);
      (TcpInfoMinRtt, LE32 data 148 152); (TcpInfoDataSegsIn, LE32 data 152 156);
      (TcpInfoDataSegsOut, LE32 data 156 160); (TcpInfoDeliveryRate, LE64 data 160 168);
      (TcpInfoBusyTime, LE64 data 168 176); (TcpInfoRwndLimited, LE64 data 176 184);
      (TcpInfoSndbufLimited, LE64 data 184 192) ].
Definition deserializeTCPInfoXTCPBase (data : bytes) (x : XtcpFlatRecord) : go XtcpFlatRecord :=
  if decide (glen data < TCPInfoMinSizeCst) then Some x else
  rec_assigns (deserializeTCPInfoXTCPBase_fields data) x.

Definition deserializeTCPInfoXTCPTail4_19_fields (data : bytes) : list (NumField * go Z) :=
    [ (TcpInfoDelivered, LE32 data 192 196); (TcpInfoDeliveredCe, LE32 data 196 200);
      (TcpInfoBytesSent, LE64 data 200 208); (TcpInfoBytesRetrans, LE64 data 208 216);
      (TcpInfoDsackDups, LE32 data 216 220); (TcpInfoReordSeen, LE32 data 220 224) ].
Definition deserializeTCPInfoXTCPTail4_19 (data : bytes) (x : XtcpFlatRecord) : go XtcpFlatRecord :=
  if decide (glen data < TCPInfo4_19_219_SizeCst) then Some x else
  rec_assigns (deserializeTCPInfoXTCPTail4_19_fields data) x.

Definition deserializeTCPInfoXTCPTail5_4_fields (data : bytes) : list (NumField * go Z) :=
    [ (TcpInfoRcvOoopack, LE32 data 224 228); (TcpInfoSndWnd, LE32 data 228 232) ].
Definition deserializeTCPInfoXTCPTail5_4 (data : bytes) (x : XtcpFlatRecord) : go XtcpFlatRecord :=
  if decide (glen data < TCPInfo5_4_281_SizeCst) then Some x else
  rec_assigns (deserializeTCPInfoXTCPTail5_4_fields data) x.

Definition deserializeTCPInfoXTCPTail6_6_fields (data : bytes) : list (NumField * go Z) :=
    [ (TcpInfoRcvWnd, LE32 data 232 236); (TcpInfoRehash, LE32 data 236 240) ].
Definition deserializeTCPInfoXTCPTail6_6 (data : bytes) (x : XtcpFlatRecord) : go XtcpFlatRecord :=
  if decide (glen data < TCPInfo6_6_44_SizeCst) then Some x else
  rec_assigns (deserializeTCPInfoXTCPTail6_6_fields data) x.

Definition deserializeTCPInfoXTCPTail6_10_fields (data : bytes) : list (NumField * go Z) :=
    [ (TcpInfoTotalRto, LE16 data 240 242); (TcpInfoTotalRtoRecoveries, LE16 data 242 244);
      (TcpInfoTotalRtoTime, LE32 data 244 248) ].
Definition deserializeTCPInfoXTCPTail6_10 (data : bytes) (x : XtcpFlatRecord) : go XtcpFlatRecord :=
  if decide (glen data < TCPInfo6_10_3_SizeCst) then Some x else
  rec_assigns (deserializeTCPInfoXTCPTail6_10_fields data) x.

Definition deserializeTCPInfoXTCPTail7_0_fields (data : bytes) : list (NumField * go Z) :=
  let flags2 := LE32 data 276 280 in
    [ (TcpInfoReceivedCe, LE32 data 248 252); (TcpInfoDeliveredE1Bytes, LE32 data 252 256);
      (TcpInfoDeliveredE0Bytes, LE32 data 256 260);
      (TcpInfoDeliveredCeBytes, LE32 data 260 264);
      (TcpInfoReceivedE1Bytes, LE32 data 264 268);
      (TcpInfoReceivedE0Bytes, LE32 data 268 272);
      (TcpInfoReceivedCeBytes, LE32 data 272 276);
      (TcpInfoEcnMode, (fun flags2 => Z.land flags2 3) <$> flags2);
      (TcpInfoAccecnOptSeen, (fun flags2 => Z.land (Z.shiftr flags2 2) 3) <$> flags2);
      (TcpInfoAccecnFailMode, (fun flags2 => Z.land (Z.shiftr flags2 4) 15) <$> flags2);
      (TcpInfoOptions2, (fun flags2 => Z.land (Z.shiftr flags2 8) 16777215) <$> flags2) ].
Definition deserializeTCPInfoXTCPTail7_0 (data : bytes) (x : XtcpFlatRecord) : go XtcpFlatRecord :=
  if decide (glen data < TCPInfo7_0_3_SizeCst) then Some x else
  rec_assigns (deserializeTCPInfoXTCPTail7_0_fields data) x.

Definition DeserializeTCPInfoXTCP (data : bytes) (x : XtcpFlatRecord)
    : go (XtcpFlatRecord * option err) :=
  if decide (glen data < TCPInfoMinSizeCst) then Some (x, Some ErrTCPInfoSmall) else
  x ← deserializeTCPInfoXTCPBase data x;
  if decide (glen data = TCPInfo4_15_SizeCst) then Some (x, None) else
  x ← deserializeTCPInfoXTCPTail4_19 data x;
  if decide (glen data = TCPInfo4_19_219_SizeCst) then Some (x, None) else
  x ← deserializeTCPInfoXTCPTail5_4 data x;
  if decide (glen data = TCPInfo5_4_281_SizeCst) then Some (x, None) else
  x ← deserializeTCPInfoXTCPTail6_6 data x;
  if decide (glen data = TCPInfo6_6_44_SizeCst) then Some (x, None) else
  x ← deserializeTCPInfoXTCPTail6_10 data x;
  if decide (glen data < TCPInfo7_0_3_SizeCst) then Some (x, None) else
  x ← deserializeTCPInfoXTCPTail7_0 data x;
  Some (x, None).

(** ** The layout the struct comments state *)

(** The record column of a struct field. *)
Definition tcpinfo_column (f : TCPInfoField) : NumField :=
  match f with
  | ti_Fackets => TcpInfoFackets | ti_State => TcpInfoState | ti_CaState => TcpInfoCaState
  | ti_Retransmits => TcpInfoRetransmits | ti_Probes => TcpInfoProbes
  | ti_Backoff => TcpInfoBackoff | ti_Options => TcpInfoOptions
  | ti_SndWscale => TcpInfoSndWscale | ti_RcvWscale => TcpInfoRcvWscale
  | ti_DeliveryRateAppLimited => TcpInfoDeliveryRateAppLimited
  | ti_FastopenClientFail => TcpInfoFastopenClientFail | ti_Rto => TcpInfoRto
  | ti_Ato => TcpInfoAto | ti_SndMss => TcpInfoSndMss | ti_RcvMss => TcpInfoRcvMss
  | ti_Unacked => TcpInfoUnacked | ti_Sacked => TcpInfoSacked | ti_Lost => TcpInfoLost
  | ti_Retrans => TcpInfoRetrans | ti_LastDataSent => TcpInfoLastDataSent
  | ti_LastAckSent => TcpInfoLastAckSent | ti_LastDataRecv => TcpInfoLastDataRecv
  | ti_LastAckRecv => TcpInfoLastAckRecv | ti_Pmtu => TcpInfoPmtu
  | ti_RcvSsthresh => TcpInfoRcvSsthresh | ti_Rtt => TcpInfoRtt | ti_Rttvar => TcpInfoRttvar
  | ti_SndSsthresh => TcpInfoSndSsthresh | ti_SndCwnd => TcpInfoSndCwnd
  | ti_AdvMss => TcpInfoAdvmss | ti_Reordering => TcpInfoReordering
  | ti_RcvRtt => TcpInfoRcvRtt | ti_RcvSpace => TcpInfoRcvSpace
  | ti_TotalRetrans => TcpInfoTotalRetrans | ti_PacingRate => TcpInfoPacingRate
  | ti_MaxPacingRate => TcpInfoMaxPacingRate | ti_BytesAcked => TcpInfoBytesAcked
  | ti_BytesReceived => TcpInfoBytesReceived | ti_SegsOut => TcpInfoSegsOut
  | ti_SegsIn => TcpInfoSegsIn | ti_NotSentBytes => TcpInfoNotsentBytes
  | ti_MinRtt => TcpInfoMinRtt | ti_DataSegsIn => TcpInfoDataSegsIn
  | ti_DataSegsOut => TcpInfoDataSegsOut | ti_DeliveryRate => TcpInfoDeliveryRate
  | ti_BusyTime => TcpInfoBusyTime | ti_RwndLimited => TcpInfoRwndLimited
  | ti_SndbufLimited => TcpInfoSndbufLimited | ti_Delivered => TcpInfoDelivered
  | ti_DeliveredCe => TcpInfoDeliveredCe | ti_BytesSent => TcpInfoBytesSent
  | ti_BytesRetrans => TcpInfoBytesRetrans | ti_DsackDups => TcpInfoDsackDups
  | ti_ReordSeen => TcpInfoReordSeen | ti_RcvOoopack => TcpInfoRcvOoopack
  | ti_SndWnd => TcpInfoSndWnd | ti_RcvWnd => TcpInfoRcvWnd | ti_Rehash => TcpInfoRehash
  | ti_TotalRTO => TcpInfoTotalRto | ti_TotalRTORecoveries => TcpInfoTotalRtoRecoveries
  | ti_TotalRTOTime => TcpInfoTotalRtoTime | ti_ReceivedCe => TcpInfoReceivedCe
  | ti_DeliveredE1Bytes => TcpInfoDeliveredE1Bytes
  | ti_DeliveredE0Bytes => TcpInfoDeliveredE0Bytes
  | ti_DeliveredCeBytes => TcpInfoDeliveredCeBytes
  | ti_ReceivedE1Bytes => TcpInfoReceivedE1Bytes | ti_ReceivedE0Bytes => TcpInfoReceivedE0Bytes
  | ti_ReceivedCeBytes => TcpInfoReceivedCeBytes | ti_EcnMode => TcpInfoEcnMode
  | ti_AccecnOptSeen => TcpInfoAccecnOptSeen | ti_AccecnFailMode => TcpInfoAccecnFailMode
  | ti_Options2 => TcpInfoOptions2
  end.

(** Where the comments of [TCPInfo7_0_3] place a field: its width in bytes and
    offset, or its bits of a byte or word. *)
Inductive layout := Bytes (n : nat) (off : Z) | Bits (n : nat) (off sh width : Z).

Definition tcpinfo_layout (f : TCPInfoField) : layout :=
  match f with
  | ti_State => Bytes 1 0 | ti_CaState => Bytes 1 1 | ti_Retransmits => Bytes 1 2
  | ti_Probes => Bytes 1 3 | ti_Backoff => Bytes 1 4 | ti_Options => Bytes 1 5
  | ti_SndWscale => Bits 1 6 0 4 | ti_RcvWscale => Bits 1 6 4 4
  | ti_DeliveryRateAppLimited => Bits 1 7 0 1 | ti_FastopenClientFail => Bits 1 7 1 2
  | ti_Rto => Bytes 4 8 | ti_Ato => Bytes 4 12 | ti_SndMss => Bytes 4 16
  | ti_RcvMss => Bytes 4 20 | ti_Unacked => Bytes 4 24 | ti_Sacked => Bytes 4 28
  | ti_Lost => Bytes 4 32 | ti_Retrans => Bytes 4 36 | ti_Fackets => Bytes 4 40
  | ti_LastDataSent => Bytes 4 44 | ti_LastAckSent => Bytes 4 48
  | ti_LastDataRecv => Bytes 4 52 | ti_LastAckRecv => Bytes 4 56 | ti_Pmtu => Bytes 4 60
  | ti_RcvSsthresh => Bytes 4 64 | ti_Rtt => Bytes 4 68 | ti_Rttvar => Bytes 4 72
  | ti_SndSsthresh => Bytes 4 76 | ti_SndCwnd => Bytes 4 80 | ti_AdvMss => Bytes 4 84
  | ti_Reordering => Bytes 4 88 | ti_RcvRtt => Bytes 4 92 | ti_RcvSpace => Bytes 4 96
  | ti_TotalRetrans => Bytes 4 100 | ti_PacingRate => Bytes 8 104
  | ti_MaxPacingRate => Bytes 8 112 | ti_BytesAcked => Bytes 8 120
  | ti_BytesReceived => Bytes 8 128 | ti_SegsOut => Bytes 4 136 | ti_SegsIn => Bytes 4 140
  | ti_NotSentBytes => Bytes 4 144 | ti_MinRtt => Bytes 4 148 | ti_DataSegsIn => Bytes 4 152
  | ti_DataSegsOut => Bytes 4 156 | ti_DeliveryRate => Bytes 8 160 | ti_BusyTime => Bytes 8 168
  | ti_RwndLimited => Bytes 8 176 | ti_SndbufLimited => Bytes 8 184
  | ti_Delivered => Bytes 4 192 | ti_DeliveredCe => Bytes 4 196 | ti_BytesSent => Bytes 8 200
  | ti_BytesRetrans => Bytes 8 208 | ti_DsackDups => Bytes 4 216 | ti_ReordSeen => Bytes 4 220
  | ti_RcvOoopack => Bytes 4 224 | ti_SndWnd => Bytes 4 228 | ti_RcvWnd => Bytes 4 232
  | ti_Rehash => Bytes 4 236 | ti_TotalRTO => Bytes 2 240
  | ti_TotalRTORecoveries => Bytes 2 242 | ti_TotalRTOTime => Bytes 4 244
  | ti_ReceivedCe => Bytes 4 248 | ti_DeliveredE1Bytes => Bytes 4 252
  | ti_DeliveredE0Bytes => Bytes 4 256 | ti_DeliveredCeBytes => Bytes 4 260
  | ti_ReceivedE1Bytes => Bytes 4 264 | ti_ReceivedE0Bytes => Bytes 4 268
  | ti_ReceivedCeBytes => Bytes 4 272 | ti_EcnMode => Bits 4 276 0 2
  | ti_AccecnOptSeen => Bits 4 276 2 2 | ti_AccecnFailMode => Bits 4 276 4 4
  | ti_Options2 => Bits 4 276 8 24
  end.

Definition layout_end (l : layout) : Z :=
  match l with Bytes n off | Bits n off _ _ => off + Z.of_nat n end.

Definition layout_value (data : bytes) (l : layout) : Z :=
  match l with
  | Bytes n off => le_at n data off
  | Bits n off sh width => le_at n data off / 2 ^ sh mod 2 ^ width
  end.

(** The sizes of the kernel releases the decoders know. *)
Definition tcpinfo_sizes : list Z :=
  [ TCPInfo4_15_SizeCst; TCPInfo4_19_219_SizeCst; TCPInfo5_4_281_SizeCst;
    TCPInfo6_6_44_SizeCst; TCPInfo6_10_3_SizeCst; TCPInfo7_0_3_SizeCst ].

(** The first release that has the field: the least size that covers it. *)
Definition tcpinfo_release (f : TCPInfoField) : option Z :=
  head (filter (fun s => layout_end (tcpinfo_layout f) <= s) tcpinfo_sizes).

(** What a field holds after decoding [data] into a struct where it held [v]. *)
Definition tcpinfo_spec (data : bytes) (f : TCPInfoField) (v : Z) : Z :=
  match tcpinfo_release f with
  | Some s => if decide (s <= glen data) then layout_value data (tcpinfo_layout f) else v
  | None => v
  end.

(** The bytes reported as consumed. *)
Definition tcpinfo_consumed (len : Z) : Z :=
  if decide (len = TCPInfo4_15_SizeCst \/ len = TCPInfo4_19_219_SizeCst \/
             len = TCPInfo5_4_281_SizeCst \/ len = TCPInfo6_6_44_SizeCst) then len
  else if decide (len < TCPInfo7_0_3_SizeCst) then TCPInfo6_10_3_SizeCst
  else TCPInfo7_0_3_SizeCst.

(** ** Lemmas *)

Definition when (c : Prop) `{Decision c} {A} (l : list A) : list A := if decide c then l else [].

(** The assignments a payload of [glen data >= 192] bytes makes. *)
Definition tcpinfo_assigns (data : bytes) : list (TCPInfoField * go Z) :=
  deserializeTCPInfoBase_fields data ++
  when (224 <= glen data) (deserializeTCPInfoTail4_19_fields data) ++
  when (232 <= glen data) (deserializeTCPInfoTail5_4_fields data) ++
  when (240 <= glen data) (deserializeTCPInfoTail6_6_fields data) ++
  when (248 <= glen data) (deserializeTCPInfoTail6_10_fields data) ++
  when (280 <= glen data) (deserializeTCPInfoTail7_0_fields data).
Definition tcpinfo_assignsX (data : bytes) : list (NumField * go Z) :=
  deserializeTCPInfoXTCPBase_fields data ++
  when (224 <= glen data) (deserializeTCPInfoXTCPTail4_19_fields data) ++
  when (232 <= glen data) (deserializeTCPInfoXTCPTail5_4_fields data) ++
  when (240 <= glen data) (deserializeTCPInfoXTCPTail6_6_fields data) ++
  when (248 <= glen data) (deserializeTCPInfoXTCPTail6_10_fields data) ++
  when (280 <= glen data) (deserializeTCPInfoXTCPTail7_0_fields data).

Ltac tcpinfo_sizes_unfold :=
  unfold TCPInfoMinSizeCst, TCPInfo4_15_SizeCst, TCPInfo4_19_219_SizeCst, TCPInfo5_4_281_SizeCst,
    TCPInfo6_6_44_SizeCst, TCPInfo6_10_3_SizeCst, TCPInfo7_0_3_SizeCst in *.

Lemma rec_assigns_app l k x : rec_assigns (l ++ k) x = rec_assigns l x ≫= rec_assigns k.
Proof.
  unfold rec_assigns. rewrite assigns_app. destruct (assigns l (num x)); simpl; [|done].
  done.
Qed.

(** Resolves one length guard after the other, then steps through the reads. *)
Ltac tcpinfo_run :=
  intros; tcpinfo_sizes_unfold;
  repeat match goal with
  | |- context [@decide ?P ?d] => destruct (@decide P d); try (exfalso; lia)
  end;
  rewrite ?app_nil_r; cbn [mbind option_bind];
  repeat (rewrite ?assigns_app, ?rec_assigns_app; cbn [mbind option_bind];
    match goal with
    | |- context [assigns ?l ?t] => is_var t; destruct (assigns l t)
    | |- context [rec_assigns ?l ?t] => is_var t; destruct (rec_assigns l t)
    end; cbn [mbind option_bind]);
  try done; try (by f_equal; f_equal; f_equal; lia).

Lemma DeserializeTCPInfo_run data t :
  TCPInfoMinSizeCst <= glen data ->
  DeserializeTCPInfo data t =
    (t' ← assigns (tcpinfo_assigns data) t; Some (t', tcpinfo_consumed (glen data), None)).
Proof.
  unfold DeserializeTCPInfo, tcpinfo_assigns, tcpinfo_consumed, deserializeTCPInfoBase,
    deserializeTCPInfoTail4_19, deserializeTCPInfoTail5_4, deserializeTCPInfoTail6_6,
    deserializeTCPInfoTail6_10, deserializeTCPInfoTail7_0, when.
  tcpinfo_run.
Qed.

Lemma DeserializeTCPInfoXTCP_run data x :
  DeserializeTCPInfoXTCP data x =
    if decide (glen data < TCPInfoMinSizeCst) then Some (x, Some ErrTCPInfoSmall)
    else x ← rec_assigns (tcpinfo_assignsX data) x; Some (x, None).
Proof.
  unfold DeserializeTCPInfoXTCP, tcpinfo_assignsX, deserializeTCPInfoXTCPBase,
    deserializeTCPInfoXTCPTail4_19, deserializeTCPInfoXTCPTail5_4, deserializeTCPInfoXTCPTail6_6,
    deserializeTCPInfoXTCPTail6_10, deserializeTCPInfoXTCPTail7_0, when.
  tcpinfo_run.
Qed.

Lemma byte_at_le data i : 0 <= i < glen data -> byte_at data i = le_at 1 data i.
Proof.
  intros H. unfold byte_at, le_at.
  destruct (lookup_lt_is_Some_2 data (Z.to_nat i)) as [b Hb]; [unfold glen in *; lia|].
  rewrite (drop_S _ _ _ Hb), (nth_lookup_Some _ _ _ _ Hb). simpl. lia.
Qed.

Lemma bits_div_mod v sh w m :
  0 <= sh -> 0 <= w -> m = Z.ones w -> Z.land (Z.shiftr v sh) m = v / 2 ^ sh mod 2 ^ w.
Proof. intros ? ? ->. by rewrite Z.land_ones, Z.shiftr_div_pow2. Qed.
Lemma low_bits_mod v w m :
  0 <= w -> m = Z.ones w -> Z.land v m = v / 2 ^ 0 mod 2 ^ w.
Proof. intros ? ->. by rewrite Z.land_ones, Z.pow_0_r, Z.div_1_r. Qed.
Lemma uint8_small v w : 0 <= w <= 8 -> uint8 (v mod 2 ^ w) = v mod 2 ^ w.
Proof.
  intros. unfold uint8. apply Z.mod_small.
  pose proof (Z.mod_pos_bound v (2 ^ w)). pose proof (Z.pow_pos_nonneg 2 w).
  pose proof (Z.pow_le_mono_r 2 w 8). lia.
Qed.

Definition layout_of (data : bytes) (f : TCPInfoField) : Z := layout_value data (tcpinfo_layout f).

(** Each right-hand side is the field's value at its documented place. *)
Ltac layout_values :=
  cbv zeta; repeat (apply Forall_cons_2; [cbn [fst snd]|]); try apply Forall_nil_2;
  unfold layout_of; cbn [tcpinfo_layout layout_value];
  go_reads; rewrite ?byte_at_le by lia; cbn [fmap option_fmap option_map];
  try reflexivity; f_equal;
  first [ apply bits_div_mod; [lia|lia|reflexivity] | apply low_bits_mod; [lia|reflexivity]
        | rewrite (bits_div_mod _ _ 2) by done; apply uint8_small; lia
        | rewrite (bits_div_mod _ _ 4) by done; apply uint8_small; lia
        | rewrite (low_bits_mod _ 2) by done; apply uint8_small; lia ].

Lemma tcpinfo_assigns_values data :
  TCPInfoMinSizeCst <= glen data ->
  Forall (fun p => p.2 = Some (layout_of data p.1)) (tcpinfo_assigns data).
Proof.
  tcpinfo_sizes_unfold. intros H. unfold tcpinfo_assigns, when.
  repeat (apply Forall_app; split); repeat case_decide; try apply Forall_nil_2; layout_values.
Qed.

(** The field a column comes from. *)
Definition tcpinfo_field (c : NumField) : option TCPInfoField :=
  head (filter (fun f => tcpinfo_column f = c) all_TCPInfoField).
Definition layout_ofX (data : bytes) (c : NumField) : Z :=
  from_option (layout_of data) 0 (tcpinfo_field c).

Lemma tcpinfo_field_column f : tcpinfo_field (tcpinfo_column f) = Some f.
Proof. by destruct f. Qed.
#[export] Instance tcpinfo_column_inj : Inj (=) (=) tcpinfo_column.
Proof. intros f g H. apply (inj Some). by rewrite <- !tcpinfo_field_column, H. Qed.
Lemma layout_ofX_column data f : layout_ofX data (tcpinfo_column f) = layout_of data f.
Proof. unfold layout_ofX. by rewrite tcpinfo_field_column. Qed.

Lemma tcpinfo_assignsX_values data :
  TCPInfoMinSizeCst <= glen data ->
  Forall (fun p => p.2 = Some (layout_ofX data p.1)) (tcpinfo_assignsX data).
Proof.
  tcpinfo_sizes_unfold. intros H. unfold tcpinfo_assignsX, when.
  repeat (apply Forall_app; split); repeat case_decide; try apply Forall_nil_2;
    cbv zeta; repeat (apply Forall_cons_2; [cbn [fst snd]|]); try apply Forall_nil_2;
    unfold layout_ofX;
    match goal with |- context [tcpinfo_field ?c] =>
      let t := eval vm_compute in (tcpinfo_field c) in change (tcpinfo_field c) with t end;
    cbn [from_option]; layout_values.
Qed.

Lemma all_TCPInfoField_elem f : f ∈ all_TCPInfoField.
Proof. eapply list_elem_of_lookup_2, all_TCPInfoField_idx. Qed.

(** The assignment of Fackets is commented out. *)
Definition released_in (s : Z) : list TCPInfoField :=
  filter (fun f => f <> ti_Fackets /\ tcpinfo_release f = Some s) all_TCPInfoField.
Lemma elem_of_released_in f s : f ∈ released_in s <-> f <> ti_Fackets /\ tcpinfo_release f = Some s.
Proof.
  unfold released_in. rewrite list_elem_of_filter.
  split; [by intros [? _]|]. auto using all_TCPInfoField_elem.
Qed.

Lemma tcpinfo_release_cases f s :
  tcpinfo_release f = Some s -> s ∈ tcpinfo_sizes.
Proof.
  unfold tcpinfo_release. intros [l Hl]%head_Some. assert (s ∈ s :: l) as Hs by constructor.
  rewrite <- Hl in Hs. by apply list_elem_of_filter in Hs as [_ ?].
Qed.

Lemma elem_of_when {A} (c : Prop) `{!Decision c} (x : A) l : x ∈ when c l <-> c /\ x ∈ l.
Proof. unfold when. case_decide; [tauto|]. rewrite elem_of_nil. tauto. Qed.
Lemma fmap_when {A B} (g : A -> B) (c : Prop) `{!Decision c} l : g <$> when c l = when c (g <$> l).
Proof. unfold when. by case_decide. Qed.

(** The fields assigned are those of the releases the payload covers. *)
Lemma tcpinfo_assigns_elem data f :
  f ∈ (tcpinfo_assigns data).*1 <->
  f <> ti_Fackets /\ exists s, tcpinfo_release f = Some s /\ (s = 192 \/ s <= glen data).
Proof.
  unfold tcpinfo_assigns. rewrite !fmap_app, !fmap_when, !elem_of_app, !elem_of_when.
  change (deserializeTCPInfoBase_fields data).*1 with (released_in 192).
  change (deserializeTCPInfoTail4_19_fields data).*1 with (released_in 224).
  change (deserializeTCPInfoTail5_4_fields data).*1 with (released_in 232).
  change (deserializeTCPInfoTail6_6_fields data).*1 with (released_in 240).
  change (deserializeTCPInfoTail6_10_fields data).*1 with (released_in 248).
  change (deserializeTCPInfoTail7_0_fields data).*1 with (released_in 280).
  rewrite !elem_of_released_in. split.
  - intros [[Hf E]|[[? [Hf E]]|[[? [Hf E]]|[[? [Hf E]]|[[? [Hf E]]|[? [Hf E]]]]]]];
      (split; [exact Hf|]); eexists; (split; [exact E|lia]).
  - intros (Hf & s & Hs & Hl). pose proof (tcpinfo_release_cases _ _ Hs) as Hc.
    unfold tcpinfo_sizes in Hc. tcpinfo_sizes_unfold.
    repeat (apply elem_of_cons in Hc as [->|Hc];
            [destruct Hl as [?|?]; simplify_eq; tauto|]). by inversion Hc.
Qed.
Lemma tcpinfo_assigns_fields data f :
  TCPInfoMinSizeCst <= glen data ->
  f ∈ (tcpinfo_assigns data).*1 <-> f <> ti_Fackets /\ exists s, tcpinfo_release f = Some s /\ s <= glen data.
Proof.
  intros H. rewrite tcpinfo_assigns_elem. tcpinfo_sizes_unfold.
  split; intros (Hf & s & ? & ?); (split; [exact Hf|]); exists s; split; auto; lia.
Qed.

Lemma tcpinfo_assignsX_columns data :
  (tcpinfo_assignsX data).*1 = tcpinfo_column <$> (tcpinfo_assigns data).*1.
Proof.
  unfold tcpinfo_assigns, tcpinfo_assignsX. by rewrite !fmap_app, !fmap_when.
Qed.

(** The contract of the record decoder. *)
Definition tcpinfo_cols : list NumField :=
  tcpinfo_column <$> filter (fun f => f <> ti_Fackets) all_TCPInfoField.

Lemma tcpinfo_typed data c v :
  wf_bytes data -> c ∈ tcpinfo_cols -> layout_ofX data c = v -> in_type (NumField_type c) v.
Proof.
  intros Hw (f & -> & Hf)%list_elem_of_fmap <-. rewrite layout_ofX_column. unfold layout_of.
  pose proof (fun n off => le_at_bound n data off Hw) as Hb.
  destruct f; cbn [tcpinfo_layout layout_value tcpinfo_column NumField_type in_type];
    try (match goal with |- context [le_at ?n data ?o] => pose proof (Hb n o); simpl in *; lia end);
    try (match goal with |- context [?a mod ?b] =>
      pose proof (Z.mod_pos_bound a b ltac:(reflexivity)); lia end); simpl; lia.
Qed.

#[export] Instance DeserializeTCPInfoXTCP_decoder :
  AttrDecoder DeserializeTCPInfoXTCP TCPInfoMinSizeCst tcpinfo_cols.
Proof.
  assert (Hsub : forall data, (tcpinfo_assignsX data).*1 ⊆ tcpinfo_cols).
  { intros data c. rewrite tcpinfo_assignsX_columns.
    intros (f & -> & (Hf & _)%tcpinfo_assigns_elem)%list_elem_of_fmap.
    apply list_elem_of_fmap_2, list_elem_of_filter.
    split; [exact Hf|apply all_TCPInfoField_elem]. }
  eapply simple_decoder.
  - apply DeserializeTCPInfoXTCP_run.
  - exact Hsub.
  - intros data H. eapply Forall_impl; [apply tcpinfo_assignsX_values, H|].
    intros p ->. by eexists.
  - intros data Hw H. apply Forall_forall. intros p Hp v Hv.
    pose proof (proj1 (Forall_forall _ _) (tcpinfo_assignsX_values data H) p Hp) as Hr.
    simpl in Hr. rewrite Hv in Hr. simplify_eq.
    eapply tcpinfo_typed; [done| |done]. apply (Hsub data), list_elem_of_fmap_2, Hp.
Qed.

(** C6: on a payload of at least 192 bytes DeserializeTCPInfo succeeds, and
    every field but one holds the bits the comments of TCPInfo7_0_3 assign it if
    the payload reaches the kernel release that added the field, and its previous
    value otherwise; the one is the legacy Fackets, whose assignment the code has
    commented out: it is never written. A shorter payload is rejected with the
    struct unchanged. *)
Theorem DeserializeTCPInfo_spec data t :
  if decide (glen data < TCPInfoMinSizeCst)
  then DeserializeTCPInfo data t = Some (t, 0, Some ErrTCPInfoSmall)
  else exists t', DeserializeTCPInfo data t = Some (t', tcpinfo_consumed (glen data), None) /\
       t' ti_Fackets = t ti_Fackets /\ forall f, f <> ti_Fackets -> t' f = tcpinfo_spec data f (t f).
Proof.
  case_decide as H; [unfold DeserializeTCPInfo; by rewrite decide_True|].
  rewrite DeserializeTCPInfo_run by lia.
  destruct (assigns_table _ t _ (tcpinfo_assigns_values data ltac:(lia))) as (t' & -> & Ht').
  exists t'. split; [done|]. split.
  { rewrite Ht', decide_False; [done|]. rewrite tcpinfo_assigns_fields by lia. tauto. }
  intros f Hne. rewrite Ht'. unfold tcpinfo_spec.
  case_decide as Hf; rewrite tcpinfo_assigns_fields in Hf by lia.
  - destruct Hf as (_ & s & -> & Hs). by rewrite decide_True.
  - destruct (tcpinfo_release f) as [s|]; [|done]. rewrite decide_False; [done|]. naive_solver.
Qed.

(** The struct decoder and the record decoder of tcp_info agree on every
    payload: same verdict, and if the record's columns mirrored the struct
    before they mirror it afterwards; all other columns are unchanged. *)
Theorem tcpinfo_decoders_agree data t x :
  (forall f, num x (tcpinfo_column f) = t f) ->
  exists t' n x' e,
    DeserializeTCPInfo data t = Some (t', n, e) /\ DeserializeTCPInfoXTCP data x = Some (x', e) /\
    (forall f, num x' (tcpinfo_column f) = t' f) /\
    (forall c, c ∉ tcpinfo_cols -> num x' c = num x c) /\
    str x' = str x /\ InetDiagMsgSocketSource x' = InetDiagMsgSocketSource x /\
    InetDiagMsgSocketDestination x' = InetDiagMsgSocketDestination x.
Proof.
  intros Hx. destruct (decide (glen data < TCPInfoMinSizeCst)) as [H|H].
  { exists t, 0, x, (Some ErrTCPInfoSmall). unfold DeserializeTCPInfo, DeserializeTCPInfoXTCP.
    by rewrite !decide_True. }
  rewrite DeserializeTCPInfo_run by lia.
  destruct (assigns_table _ t _ (tcpinfo_assigns_values data ltac:(lia))) as (t' & -> & Ht').
  destruct (ad_total (dec := DeserializeTCPInfoXTCP) data x) as (x' & e & HX).
  exists t', (tcpinfo_consumed (glen data)), x', None.
  assert (e = None) as ->.
  { destruct e; [|done]. apply ad_error in HX as [? _]. lia. }
  split; [done|]. split; [done|]. split; [|split; [|by eapply ad_rest]].
  2: { intros c Hc. by eapply ad_frame. }
  intros f. rewrite DeserializeTCPInfoXTCP_run, decide_False in HX by done.
  apply bind_Some in HX as (x1 & (Ha&_)%rec_assigns_Some & ?); simplify_eq.
  destruct (assigns_table _ (num x) _ (tcpinfo_assignsX_values data ltac:(lia))) as (n & Hn & Hn').
  rewrite Ha in Hn. simplify_eq. rewrite Hn', Ht', tcpinfo_assignsX_columns, layout_ofX_column, Hx.
  destruct (decide (f ∈ _)) as [Hf|Hf]; [rewrite decide_True|rewrite decide_False]; try done.
  - by apply list_elem_of_fmap_2.
  - intros (g & Hg & Hin)%list_elem_of_fmap. by apply (inj tcpinfo_column) in Hg as ->.
Qed.

Lemma tcpinfo_decoders_agree_witness :
  (forall f, num zeroRecord (tcpinfo_column f) = (fun _ : TCPInfoField => 0) f) /\
  exists t' n x' e,
    DeserializeTCPInfo (replicate 232 5) (fun _ => 0) = Some (t', n, e) /\
    DeserializeTCPInfoXTCP (replicate 232 5) zeroRecord = Some (x', e).
Proof.
  split; [reflexivity|].
  destruct (tcpinfo_decoders_agree (replicate 232 5) (fun _ => 0) zeroRecord ltac:(reflexivity))
    as (t' & n & x' & e & H1 & H2 & _).
  exists t', n, x', e. split; [exact H1|exact H2].
Defined.

Lemma DeserializeTCPInfo_total data t :
  TCPInfoMinSizeCst <= glen data ->
  exists t', DeserializeTCPInfo data t = Some (t', tcpinfo_consumed (glen data), None).
Proof.
  intros H. rewrite DeserializeTCPInfo_run by done.
  destruct (assigns_table _ t _ (tcpinfo_assigns_values data H)) as (t' & -> & _). by eexists.
Qed.

(** The count DeserializeTCPInfo reports is the payload length at each
    known release size, and it exceeds the payload exactly when the length lies
    strictly between two releases below 248 bytes. *)
Theorem DeserializeTCPInfo_consumed data t t' n :
  DeserializeTCPInfo data t = Some (t', n, None) ->
  (n <= glen data <-> glen data ∈ tcpinfo_sizes \/ TCPInfo6_10_3_SizeCst <= glen data) /\
  (glen data ∈ tcpinfo_sizes -> n = glen data).
Proof.
  intros H. assert (TCPInfoMinSizeCst <= glen data) as Hl.
  { destruct (decide (glen data < TCPInfoMinSizeCst)) as [Hs|]; [|lia].
    unfold DeserializeTCPInfo in H. by rewrite decide_True in H. }
  destruct (DeserializeTCPInfo_total data t Hl) as [t1 H1]. rewrite H in H1. simplify_eq.
  unfold tcpinfo_sizes, tcpinfo_consumed. rewrite !elem_of_cons, elem_of_nil.
  split; tcpinfo_sizes_unfold; repeat case_decide; lia.
Qed.

Lemma DeserializeTCPInfo_consumed_witness :
  exists t', DeserializeTCPInfo (replicate 200 0) (fun _ => 0) = Some (t', 248, None) /\
    ~ 248 <= glen (replicate 200 0).
Proof.
  destruct (DeserializeTCPInfo_total (replicate 200 0) (fun _ => 0)) as [t' Ht].
  - vm_compute. discriminate.
  - exists t'. split; [exact Ht|]. intros Hn.
    apply (proj1 (DeserializeTCPInfo_consumed _ _ _ _ Ht)) in Hn as [Hn|Hn].
    + revert Hn. apply (bool_decide_unpack (~ _)). vm_compute. exact I.
    + apply Hn. vm_compute. reflexivity.
Defined.
