(* ===== verification/Deserializers.v ===== *)
(** The attribute dispatch of pkg/xtcp: the table of decoders, which of them a
    configuration registers, the extension mask the poll request asks the
    kernel for (deserializers.go), and the per-congestion-algorithm zeroizers
    (zeroizers.go, deserialize.go). *)

From S2P Require Import Prelude FlatRecord AttrDecoder InetDiag TcpInfo.

(** ** The dispatch table *)

Definition dsKeyMemInfo : string := "meminfo".
Definition dsKeyInfo : string := "info".
Definition dsKeyVegas : string := "vegas".
Definition dsKeyCong : string := "cong".
Definition dsKeyTos : string := "tos".
Definition dsKeyTc : string := "tc".
Definition dsKeySkmem : string := "skmem".
Definition dsKeyShut : string := "shut".
Definition dsKeyDctcp : string := "dctcp".
Definition dsKeyBbr : string := "bbr".
Definition dsKeyClassID : string := "classid".
Definition dsKeyCgroup : string := "cgroup".
Definition dsKeySockopt : string := "sockopt".

Record deserializerEntry := mkEntry { key : string; enum : Z; fn : deserializerFunc }.

Definition dispatchTable : list deserializerEntry :=
  [ mkEntry dsKeyMemInfo MemInfoEmumValueCst DeserializeMemInfoXTCP;
    mkEntry dsKeyInfo TCPInfoEmumValueCst DeserializeTCPInfoXTCP;
    mkEntry dsKeyVegas VegasInfoEnumValueCst DeserializeVegasInfoXTCP;
    mkEntry dsKeyCong CongInfoEmumValueCst DeserializeCongInfoXTCP;
    mkEntry dsKeyTos TypeOfServiceEmumValueCst DeserializeTypeOfServiceXTCP;
    mkEntry dsKeyTc TrafficClassEmumValueCst DeserializeTrafficClassXTCP;
    mkEntry dsKeySkmem SkMemInfoEnumValueCst DeserializeSkMemInfoXTCP;
    mkEntry dsKeyShut ShutdownEmumValueCst DeserializeShutdownXTCP;
    mkEntry dsKeyDctcp DCTCPInfoEnumValueCst DeserializeDCTCPInfoXTCP;
    mkEntry dsKeyBbr BBRInfoEnumValueCst DeserializeBBRInfoXTCP;
    mkEntry dsKeyClassID ClassIDEnumValueCst DeserializeClassIDXTCP;
    mkEntry dsKeyCgroup CGroupIDEnumValueCst DeserializeCGroupIDXTCP;
    mkEntry dsKeySockopt SockOptEnumValueCst DeserializeSockOptXTCP ].

Definition GetAllDeserializers : list string := key <$> dispatchTable.

Definition deserializersOffByDefault : gmap string bool := {[ dsKeyMemInfo := true ]}.

(** Go's [m[k]] on a [map[string]bool]: false when absent. *)
Definition is_enabled (m : gmap string bool) (k : string) : bool := default false (m !! k).

Definition GetDefaultDeserializers : list string :=
  key <$> filter (fun e => is_enabled deserializersOffByDefault (key e) = false) dispatchTable.

(** ** The request's extension mask *)

Definition bit8 (n : Z) : Z := uint8 (Z.shiftl 1 (uint8 n)).

Definition ext_step (enabled : gmap string bool) (ext : Z) (e : deserializerEntry) : Z :=
  if decide (1 <= enum e /\ enum e <= 8 /\ is_enabled enabled (key e) = true)
  then Z.lor ext (bit8 (enum e - 1)) else ext.

Definition IDiagExtFromEnabled (enabled : gmap string bool) : Z :=
  let ext := foldl (ext_step enabled) 0 dispatchTable in
  if is_enabled enabled dsKeyVegas || is_enabled enabled dsKeyDctcp || is_enabled enabled dsKeyBbr
  then Z.lor ext (bit8 (VegasInfoEnumValueCst - 1)) else ext.

(** ** Registration *)

(** [RTATypeDeserializer] and [RTATypeDeserializerStr]. *)
Record Registry := mkRegistry {
  RTATypeDeserializer : gmap Z deserializerFunc;
  RTATypeDeserializerStr : gmap Z string }.

Definition register (enabled : gmap string bool) (r : Registry) (e : deserializerEntry) : Registry :=
  match enabled !! key e with
  | Some true =>
      {| RTATypeDeserializer := <[enum e := fn e]> (RTATypeDeserializer r);
         RTATypeDeserializerStr := <[enum e := key e]> (RTATypeDeserializerStr r) |}
  | _ => r
  end.

(** [None]: [config.EnabledDeserializers] is nil. *)
Definition InitDeserializers (EnabledDeserializers : option (gmap string bool)) : Registry :=
  let r := {| RTATypeDeserializer := ∅; RTATypeDeserializerStr := ∅ |} in
  match EnabledDeserializers with
  | None => r
  | Some enabled => foldl (register enabled) r dispatchTable
  end.

(** ** Zeroizers *)

Definition InitZeroizers : gmap Z (XtcpFlatRecord -> XtcpFlatRecord) :=
  <[CONGESTION_ALGORITHM_VEGAS := ZeroizeVegasInfoXTCP]>
  (<[CONGESTION_ALGORITHM_DCTCP := ZeroizeDCTCPInfoXTCP]>
  (<[CONGESTION_ALGORITHM_BBR1 := ZeroizeBBRInfoXTCP]> ∅)).

Definition ZeroXTCPCongRecord (zs : gmap Z (XtcpFlatRecord -> XtcpFlatRecord))
    (x : XtcpFlatRecord) : XtcpFlatRecord :=
  match zs !! num x InetDiagCongEnum with
  | Some zeroer => zeroer x
  | None => x
  end.

(** ** Lemmas *)

Lemma dispatchTable_nodup : NoDup (enum <$> dispatchTable) /\ NoDup (key <$> dispatchTable).
Proof. split; apply (bool_decide_unpack _); by vm_compute. Qed.

Definition reg_find (enabled : gmap string bool) (ty : Z) (l : list deserializerEntry)
    : option deserializerEntry :=
  snd <$> list_find (fun e => enum e = ty /\ enabled !! key e = Some true) l.

Lemma reg_find_Some enabled ty l e :
  NoDup (enum <$> l) ->
  reg_find enabled ty l = Some e <-> e ∈ l /\ enum e = ty /\ enabled !! key e = Some true.
Proof.
  intros Hnd. unfold reg_find. split.
  - intros ([i e'] & (Hi & [? ?] & _)%list_find_Some & ->)%fmap_Some. simpl.
    split_and!; try done. by eapply list_elem_of_lookup_2.
  - intros (Hin & <- & Hen). destruct (list_find _ _) as [[i e']|] eqn:E; simpl.
    + f_equal. apply list_find_Some in E as (Hi & [Heq _] & _).
      apply list_elem_of_lookup in Hin as [j Hj]. assert (i = j) as ->; [|by simplify_eq].
      eapply (NoDup_lookup (enum <$> l)); [done| |].
      * rewrite list_lookup_fmap, Hi. simpl. by rewrite Heq.
      * by rewrite list_lookup_fmap, Hj.
    + apply list_find_None in E. rewrite Forall_forall in E. exfalso. by eapply E.
Qed.

Lemma foldl_register enabled l r ty :
  NoDup (enum <$> l) ->
  let r' := foldl (register enabled) r l in
  RTATypeDeserializer r' !! ty =
    from_option (Some ∘ fn) (RTATypeDeserializer r !! ty) (reg_find enabled ty l) /\
  RTATypeDeserializerStr r' !! ty =
    from_option (Some ∘ key) (RTATypeDeserializerStr r !! ty) (reg_find enabled ty l).
Proof.
  revert r; induction l as [|e l IH]; intros r Hnd; simpl; [done|].
  apply NoDup_cons in Hnd as [Hni Hnd]. destruct (IH (register enabled r e) Hnd) as [-> ->].
  unfold reg_find at 2 4. simpl. unfold register. destruct (decide _) as [[<- He]|Hn].
  - assert (reg_find enabled (enum e) l = None) as ->.
    { destruct (reg_find _ _ _) as [e'|] eqn:E; [|done].
      apply reg_find_Some in E as (Hin & Heq & _); [|done].
      exfalso. apply Hni. rewrite <- Heq. by apply list_elem_of_fmap_2. }
    rewrite He. cbn. by rewrite !lookup_insert_eq.
  - fold (reg_find enabled ty l). unfold reg_find. destruct (list_find _ l) as [[? ?]|]; simpl; [done|].
    destruct (enabled !! key e) as [[]|] eqn:He; try done. simpl.
    assert (enum e <> ty) by (clear IH; naive_solver). by rewrite !lookup_insert_ne.
Qed.

Lemma InitDeserializers_find enabled ty :
  let r := InitDeserializers (Some enabled) in
  RTATypeDeserializer r !! ty = fn <$> reg_find enabled ty dispatchTable /\
  RTATypeDeserializerStr r !! ty = key <$> reg_find enabled ty dispatchTable.
Proof.
  destruct (foldl_register enabled dispatchTable (mkRegistry ∅ ∅) ty) as [H1 H2];
    [apply dispatchTable_nodup|].
  unfold InitDeserializers. rewrite H1, H2. simpl. rewrite !lookup_empty.
  by destruct (reg_find _ _ _).
Qed.

(** The contract every registered decoder meets, and the columns attributes can
    fill. *)
Definition attribute_cols : list NumField :=
  [MemInfoRmem; MemInfoWmem; MemInfoFmem; MemInfoTmem;
   VegasInfoEnabled; VegasInfoRttcnt; VegasInfoRtt; VegasInfoMinrtt; InetDiagCongEnum;
   InetDiagTos; InetDiagTclass; SkMemInfoRmemAlloc; SkMemInfoRcvbuf; SkMemInfoWmemAlloc;
   SkMemInfoSndbuf; SkMemInfoFwdAlloc; SkMemInfoWmemQueued; SkMemInfoOptmem; SkMemInfoBacklog;
   SkMemInfoDrops; InetDiagShutdown; DctcpInfoEnabled; DctcpInfoCeState; DctcpInfoAlpha;
   DctcpInfoAbEcn; DctcpInfoAbTot; BbrInfoBwLo; BbrInfoBwHi; BbrInfoMinRtt; BbrInfoPacingGain;
   BbrInfoCwndGain; InetDiagClassId; InetDiagCgroupId; InetDiagSockopt] ++ tcpinfo_cols.

Definition contract (f : deserializerFunc) : Prop :=
  exists min cols, AttrDecoder f min cols /\ cols ⊆ attribute_cols.

Lemma contract_intro f min cols :
  AttrDecoder f min cols -> bool_decide (Forall (.∈ attribute_cols) cols) = true -> contract f.
Proof.
  intros H Hc%bool_decide_eq_true. exists min, cols. split; [done|].
  intros c Hin. by rewrite Forall_forall in Hc; apply Hc.
Qed.

Lemma dispatchTable_contract : Forall (fun e => contract (fn e)) dispatchTable.
Proof.
  repeat (apply Forall_cons_2; [eapply contract_intro; [apply _|by vm_compute]|]).
  apply Forall_nil_2.
Qed.

Lemma registered_contract en ty f :
  RTATypeDeserializer (InitDeserializers en) !! ty = Some f -> contract f.
Proof.
  destruct en as [enabled|]; [|intros H; cbn in H; by rewrite lookup_empty in H].
  rewrite (proj1 (InitDeserializers_find enabled ty)).
  intros (e & He & ->)%fmap_Some. apply reg_find_Some in He as [Hin _]; [|apply dispatchTable_nodup].
  pose proof dispatchTable_contract as Hc. rewrite Forall_forall in Hc. auto.
Qed.

(** The extension a configuration key is requested through: the
    congestion-control family shares the VEGASINFO bit. *)
Definition request_ext (e : deserializerEntry) : Z :=
  if decide (key e = dsKeyVegas \/ key e = dsKeyDctcp \/ key e = dsKeyBbr)
  then VegasInfoEnumValueCst else enum e.

Definition requested (enabled : gmap string bool) (i : Z) : bool :=
  existsb (fun e => (request_ext e =? i + 1) && is_enabled enabled (key e)) dispatchTable.

Lemma bit8_testbit n i : 0 <= n < 8 -> 0 <= i -> Z.testbit (bit8 n) i = (n =? i).
Proof.
  intros. unfold bit8, uint8. rewrite (Z.mod_small n) by lia.
  rewrite Z.shiftl_1_l, Z.mod_small, Z.pow2_bits_eqb by
    (try lia; pose proof (Z.pow_lt_mono_r 2 n 8); pose proof (Z.pow_pos_nonneg 2 n); lia). done.
Qed.
Lemma bit8_bound n : 0 <= bit8 n < 2 ^ 8.
Proof. apply Z.mod_pos_bound. lia. Qed.

Lemma lor_bound n a b : 0 <= n -> 0 <= a < 2 ^ n -> 0 <= b < 2 ^ n -> 0 <= Z.lor a b < 2 ^ n.
Proof.
  intros Hn Ha Hb. replace (Z.lor a b) with (Z.lor a b mod 2 ^ n).
  - apply Z.mod_pos_bound, Z.pow_pos_nonneg; lia.
  - rewrite <- Z.land_ones, Z.land_lor_distr_l, !Z.land_ones by done.
    by rewrite !Z.mod_small.
Qed.

Lemma foldl_ext_testbit enabled l ext i :
  0 <= i -> Z.testbit (foldl (ext_step enabled) ext l) i =
    Z.testbit ext i ||
    existsb (fun e => (enum e - 1 =? i) && ((1 <=? enum e) && (enum e <=? 8)) &&
                      is_enabled enabled (key e)) l.
Proof.
  intros Hi. revert ext; induction l as [|e l IH]; intros ext; simpl; [by rewrite orb_false_r|].
  rewrite IH. unfold ext_step. case_decide as H.
  - rewrite Z.lor_spec, bit8_testbit by lia. destruct H as (H1 & H2 & ->).
    apply Z.leb_le in H1 as ->. apply Z.leb_le in H2 as ->.
    by rewrite !andb_true_r, orb_assoc.
  - f_equal. replace (_ && _ && _) with false; [done|].
    destruct (Z.leb_spec 1 (enum e)), (Z.leb_spec (enum e) 8), (is_enabled enabled (key e));
      rewrite ?andb_false_r; try done. exfalso. by apply H.
Qed.

Lemma foldl_ext_bound enabled l ext :
  0 <= ext < 2 ^ 8 -> 0 <= foldl (ext_step enabled) ext l < 2 ^ 8.
Proof.
  revert ext; induction l as [|e l IH]; intros ext H; simpl; [done|].
  apply IH. unfold ext_step. case_decide; [apply lor_bound; [lia|done|apply bit8_bound]|done].
Qed.

(** A decoder is registered for an attribute number exactly when the
    dispatch table has an entry for it whose key the configuration maps to true;
    a key that is absent or mapped to false registers nothing, and the name
    table has the same domain. *)
Theorem InitDeserializers_registers enabled ty :
  let r := InitDeserializers (Some enabled) in
  (forall e, e ∈ dispatchTable -> enum e = ty -> enabled !! key e = Some true ->
     RTATypeDeserializer r !! ty = Some (fn e) /\ RTATypeDeserializerStr r !! ty = Some (key e)) /\
  (forall k, RTATypeDeserializerStr r !! ty = Some k ->
     exists e, e ∈ dispatchTable /\ enum e = ty /\ key e = k /\ enabled !! k = Some true /\
       RTATypeDeserializer r !! ty = Some (fn e)) /\
  (RTATypeDeserializerStr r !! ty = None -> RTATypeDeserializer r !! ty = None).
Proof.
  intros r. destruct (InitDeserializers_find enabled ty) as [H1 H2]. subst r.
  rewrite H1, H2. split_and!.
  - intros e He1 He2 He3. by rewrite (proj2 (reg_find_Some _ _ _ e (proj1 dispatchTable_nodup))).
  - intros k (e & He & ->)%fmap_Some. rewrite He. exists e.
    apply reg_find_Some in He as (?&?&?); [|apply dispatchTable_nodup]. done.
  - by destruct (reg_find _ _ _).
Qed.

(** The extension mask is a byte, and its bit i is set exactly when some
    enabled attribute is requested through extension i+1, where the three
    congestion-control attributes share the VEGASINFO extension: the daemon
    asks for exactly what it will decode. *)
Theorem IDiagExtFromEnabled_spec enabled :
  0 <= IDiagExtFromEnabled enabled < 2 ^ 8 /\
  forall i, 0 <= i < 8 -> Z.testbit (IDiagExtFromEnabled enabled) i = requested enabled i.
Proof.
  unfold IDiagExtFromEnabled. split.
  - case_match; [apply lor_bound; [lia| |apply bit8_bound]|]; by apply foldl_ext_bound.
  - intros i Hi.
    assert (forall b : bool, Z.testbit (if b then
        Z.lor (foldl (ext_step enabled) 0 dispatchTable) (bit8 (VegasInfoEnumValueCst - 1))
        else foldl (ext_step enabled) 0 dispatchTable) i =
      Z.testbit (foldl (ext_step enabled) 0 dispatchTable) i || b && (2 =? i)) as ->.
    { intros []; [rewrite Z.lor_spec, bit8_testbit by (unfold VegasInfoEnumValueCst; lia); done|].
      by rewrite orb_false_r. }
    rewrite foldl_ext_testbit, Z.testbit_0_l by lia. unfold requested.
    assert (i = 0 \/ i = 1 \/ i = 2 \/ i = 3 \/ i = 4 \/ i = 5 \/ i = 6 \/ i = 7) as Hc by lia.
    generalize (is_enabled enabled). intros en.
    repeat destruct Hc as [->|Hc]; try subst i; vm_compute;
      repeat match goal with |- context [en ?k] => destruct (en k) end; reflexivity.
Qed.

(** Zeroing a record by its congestion algorithm clears exactly the columns
    of that algorithm's info attribute, when it has a zeroizer, and leaves
    every other column, string and address alone. *)
Theorem ZeroXTCPCongRecord_spec x f :
  let y := ZeroXTCPCongRecord InitZeroizers x in
  let family :=
    if decide (num x InetDiagCongEnum = CONGESTION_ALGORITHM_BBR1)
    then [BbrInfoBwLo; BbrInfoBwHi; BbrInfoMinRtt; BbrInfoPacingGain; BbrInfoCwndGain]
    else if decide (num x InetDiagCongEnum = CONGESTION_ALGORITHM_DCTCP)
    then [DctcpInfoEnabled; DctcpInfoCeState; DctcpInfoAlpha; DctcpInfoAbEcn; DctcpInfoAbTot]
    else if decide (num x InetDiagCongEnum = CONGESTION_ALGORITHM_VEGAS)
    then [VegasInfoEnabled; VegasInfoRttcnt; VegasInfoRtt; VegasInfoMinrtt] else [] in
  num y f = (if decide (f ∈ family) then 0 else num x f) /\ str y = str x /\
  InetDiagMsgSocketSource y = InetDiagMsgSocketSource x /\
  InetDiagMsgSocketDestination y = InetDiagMsgSocketDestination x.
Proof.
  unfold ZeroXTCPCongRecord, InitZeroizers.
  destruct (decide (num x InetDiagCongEnum = CONGESTION_ALGORITHM_BBR1)) as [Hc|H1];
  [|destruct (decide (num x InetDiagCongEnum = CONGESTION_ALGORITHM_DCTCP)) as [Hc|H2];
  [|destruct (decide (num x InetDiagCongEnum = CONGESTION_ALGORITHM_VEGAS)) as [Hc|H3]]].
  1-3: rewrite Hc; split; [|done]; clear; by destruct f.
  rewrite !lookup_insert_ne, lookup_empty by congruence. done.
Qed.
