(* ===== verification/Enrich.v ===== *)
(** Metadata enrichment of a decoded record (pkg/xtcp/enrich.go): the static
    uplink columns, container labels by netns inode, the namespace id, and the
    destination's locality and ASN.  The enrichers themselves are interfaces
    here, as in the source ([asnLookuper], [localityEnricher]). *)

From S2P Require Import Prelude FlatRecord.

(** ** Uplink columns *)

Record uplinkColumns := mkUplink {
  ifname : string; nicDriver : string; nicModel : string; nicBusInfo : string;
  nicFwVersion : string; nicPCIVendor : Z; nicPCIDevice : Z; nicSpeedMbps : Z;
  lldpChassisName : string; lldpChassisID : string; lldpMgmtIP : string;
  lldpPortID : string; lldpPortDescr : string }.

Definition zeroUplink : uplinkColumns :=
  mkUplink "" "" "" "" "" 0 0 0 "" "" "" "" "".

Definition maxUplinks : nat := 2.

Record uplinkStamp := mkStamp { slots : list uplinkColumns; enabled : bool }.
Definition zeroStamp : uplinkStamp :=
  {| slots := replicate maxUplinks zeroUplink; enabled := false |}.

(** A block of assignments to string columns. *)
Definition set_strs (l : list (StrField * string)) (x : XtcpFlatRecord) : XtcpFlatRecord :=
  foldl (fun x p => set_str p.1 p.2 x) x l.

Definition uplink1_strs (u : uplinkColumns) : list (StrField * string) :=
  [ (Uplink1Ifname, ifname u); (Uplink1NicDriver, nicDriver u); (Uplink1NicModel, nicModel u);
    (Uplink1NicBusInfo, nicBusInfo u); (Uplink1NicFwVersion, nicFwVersion u);
    (Uplink1LldpChassisName, lldpChassisName u); (Uplink1LldpChassisId, lldpChassisID u);
    (Uplink1LldpMgmtIp, lldpMgmtIP u); (Uplink1LldpPortId, lldpPortID u); (Uplink1LldpPortDescr, lldpPortDescr u) ].
Definition uplink1_nums (u : uplinkColumns) : list (NumField * Z) :=
  [ (Uplink1NicPciVendor, nicPCIVendor u); (Uplink1NicPciDevice, nicPCIDevice u); (Uplink1NicSpeedMbps, nicSpeedMbps u) ].
Definition uplink2_strs (u : uplinkColumns) : list (StrField * string) :=
  [ (Uplink2Ifname, ifname u); (Uplink2NicDriver, nicDriver u); (Uplink2NicModel, nicModel u);
    (Uplink2NicBusInfo, nicBusInfo u); (Uplink2NicFwVersion, nicFwVersion u);
    (Uplink2LldpChassisName, lldpChassisName u); (Uplink2LldpChassisId, lldpChassisID u);
    (Uplink2LldpMgmtIp, lldpMgmtIP u); (Uplink2LldpPortId, lldpPortID u); (Uplink2LldpPortDescr, lldpPortDescr u) ].
Definition uplink2_nums (u : uplinkColumns) : list (NumField * Z) :=
  [ (Uplink2NicPciVendor, nicPCIVendor u); (Uplink2NicPciDevice, nicPCIDevice u); (Uplink2NicSpeedMbps, nicSpeedMbps u) ].

Definition uplinkStamp_apply (s : uplinkStamp) (r : XtcpFlatRecord) : XtcpFlatRecord :=
  if negb (enabled s) then r else
  let u1 := nth 0 (slots s) zeroUplink in
  let r := set_nums (uplink1_nums u1) (set_strs (uplink1_strs u1) r) in
  let u2 := nth 1 (slots s) zeroUplink in
  set_nums (uplink2_nums u2) (set_strs (uplink2_strs u2) r).

(** [nicinfo.NIC] and [lldp.Neighbor], the columns used here. *)
Record NIC := mkNIC {
  nic_Ifname : string; nic_Driver : string; nic_Model : string; nic_BusInfo : string;
  nic_FwVersion : string; nic_PCIVendor : Z; nic_PCIDevice : Z; nic_SpeedMbps : Z }.
Record Neighbor := mkNeighbor {
  nb_ChassisName : string; nb_ChassisID : string; nb_MgmtIP : string;
  nb_PortID : string; nb_PortDescr : string }.

Definition uplink_column (nicByName : gmap string NIC) (neigh : gmap string Neighbor)
    (name : string) : uplinkColumns :=
  let n := nicByName !! name in
  let nb := neigh !! name in
  {| ifname := name;
     nicDriver := from_option nic_Driver "" n; nicModel := from_option nic_Model "" n;
     nicBusInfo := from_option nic_BusInfo "" n; nicFwVersion := from_option nic_FwVersion "" n;
     nicPCIVendor := from_option nic_PCIVendor 0 n; nicPCIDevice := from_option nic_PCIDevice 0 n;
     nicSpeedMbps := from_option nic_SpeedMbps 0 n;
     lldpChassisName := from_option nb_ChassisName "" nb;
     lldpChassisID := from_option nb_ChassisID "" nb;
     lldpMgmtIP := from_option nb_MgmtIP "" nb; lldpPortID := from_option nb_PortID "" nb;
     lldpPortDescr := from_option nb_PortDescr "" nb |}.

(** Later NICs of the same name replace earlier ones. *)
Definition nic_index (nics : list NIC) : gmap string NIC :=
  foldl (fun m n => <[nic_Ifname n := n]> m) ∅ nics.

Definition buildUplinkStamp (ifnames : list string) (nics : list NIC)
    (neigh : gmap string Neighbor) : uplinkStamp :=
  let nicByName := nic_index nics in
  foldl (fun s p => {| slots := <[p.1 := uplink_column nicByName neigh p.2]> (slots s);
                       enabled := true |})
    zeroStamp (imap pair (take maxUplinks ifnames)).

(** ** Addresses: [netip.Addr] as [destAddr] builds it *)

Inductive Addr := Addr4 (b : bytes) | Addr16 (b : bytes).

(** [Unmap]: an IPv4-mapped IPv6 address becomes the IPv4 address. *)
Definition Unmap (a : Addr) : Addr :=
  match a with
  | Addr16 b => if decide (take 12 b = replicate 10 0 ++ [255; 255]) then Addr4 (drop 12 b) else a
  | _ => a
  end.

Definition AF_INET : Z := 2.
Definition AF_INET6 : Z := 10.

Definition destAddr (family : Z) (b : bytes) : go (option Addr) :=
  if decide (family = AF_INET) then
    (if decide (glen b >= 4) then s ← slice b 0 4; Some (Some (Addr4 s)) else Some None)
  else if decide (family = AF_INET6) then
    (if decide (glen b >= 16) then s ← slice b 0 16; Some (Some (Unmap (Addr16 s))) else Some None)
  else Some None.

(** ** The enrichers a daemon has installed *)

Record Container := mkContainer { c_ID : string; c_Name : string; c_Image : string }.

Record localityResult := mkLocality {
  res_Locality : Z; res_EgressIfindex : Z; res_EgressIfname : string; res_BoundIfname : string;
  res_Remote : bool }.

(** [localityEnricher]: [Active], and [Resolve] of namespace, address and bound
    interface. *)
Record localityEnricher := mkLocalityEnricher {
  Active : bool;
  Resolve : Z -> Addr -> Z -> option localityResult }.

(** [None] is a nil interface or pointer. *)
Record Enrichers := mkEnrichers {
  stamp : uplinkStamp;
  dockerIndex : option (Z -> option Container);
  nsidByInode : option (gmap Z Z);
  locality : option localityEnricher;
  asn : option (Addr -> option (Z * string));
  cgroupResolver : option (Z -> string * string) }.

(** ** applyEnrichment *)

Definition enrich_container (E : Enrichers) (r : XtcpFlatRecord) : XtcpFlatRecord :=
  match dockerIndex E with
  | None => r
  | Some lookup_ =>
      match lookup_ (num r NetnsInode) with
      | None => r
      | Some c =>
          let r := set_strs [ (ContainerId, c_ID c); (ContainerRuntime, "docker"%string);
                              (ContainerName, c_Name c); (ContainerImage, c_Image c) ] r in
          if negb (String.eqb (c_Name c) "") && String.prefix "netns:[" (str r Netns)
          then set_str Netns (c_Name c) r else r
      end
  end.

Definition enrich_nsid (E : Enrichers) (r : XtcpFlatRecord) : XtcpFlatRecord :=
  match nsidByInode E with
  | None => r
  | Some m => match m !! num r NetnsInode with
              | Some id => set_num Nsid (uint32 id) r
              | None => r
              end
  end.

Definition localityOn (E : Enrichers) : bool :=
  match locality E with Some l => Active l | None => false end.

Definition enrich_dest (E : Enrichers) (addr : Addr) (r : XtcpFlatRecord) : XtcpFlatRecord :=
  let '(r, remote) :=
    match locality E with
    | Some l =>
        if Active l then
          match Resolve l (num r NetnsInode) addr (num r InetDiagMsgSocketInterface) with
          | Some res =>
              (set_strs [ (EnrichSocketDestEgressIfname, res_EgressIfname res);
                          (EnrichSocketInterfaceName, res_BoundIfname res) ]
                 (set_nums [ (EnrichSocketDestLocality, res_Locality res);
                             (EnrichSocketDestEgressIfindex, res_EgressIfindex res) ] r),
               res_Remote res)
          | None => (r, true)
          end
        else (r, true)
    | None => (r, true)
    end in
  match asn E with
  | Some lookupAsn =>
      if remote then
        match lookupAsn addr with
        | Some (a, owner) =>
            set_str EnrichSocketDestNetworkOwner owner (set_num EnrichSocketDestAsn (uint64 a) r)
        | None => r
        end
      else r
  | None => r
  end.

(** [mem] gives the contents of the buffers the record's slices point into. *)
Definition applyEnrichment (mem : nat -> bytes) (E : Enrichers) (r : XtcpFlatRecord)
    : go XtcpFlatRecord :=
  let r := uplinkStamp_apply (stamp E) r in
  let r := enrich_container E r in
  let r := enrich_nsid E r in
  match asn E, localityOn E with
  | None, false => Some r
  | _, _ =>
      d ← destAddr (num r InetDiagMsgFamily)
            (slice_bytes (mem (sl_buf (InetDiagMsgSocketDestination r)))
               (InetDiagMsgSocketDestination r));
      Some (from_option (fun addr => enrich_dest E addr r) r d)
  end.

(** ** Lemmas *)

Lemma str_set_strs l x f :
  str (set_strs l x) f = foldl (fun v p => if decide (p.1 = f) then p.2 else v) (str x f) l.
Proof.
  unfold set_strs. revert x; induction l as [|[g v] l IH]; intros x; simpl; [done|].
  rewrite IH. done.
Qed.
Lemma num_set_strs l x : num (set_strs l x) = num x.
Proof. unfold set_strs. revert x; induction l as [|[g v] l IH]; intros x; simpl; [done|]. by rewrite IH. Qed.
Lemma addrs_set_strs l x :
  InetDiagMsgSocketSource (set_strs l x) = InetDiagMsgSocketSource x /\
  InetDiagMsgSocketDestination (set_strs l x) = InetDiagMsgSocketDestination x.
Proof.
  unfold set_strs. revert x; induction l as [|[g v] l IH]; intros x; simpl; [done|].
  by destruct (IH (set_str g v x)) as [-> ->].
Qed.
Lemma set_strs_frame l x f : f ∉ l.*1 -> str (set_strs l x) f = str x f.
Proof.
  rewrite str_set_strs. generalize (str x f).
  induction l as [|[g v] l IH]; intros s Hf; simpl in *; [done|].
  apply not_elem_of_cons in Hf as [Hne Hf]. rewrite decide_False by congruence. auto.
Qed.

#[export] Instance set_strs_proper l : Proper ((≡) ==> (≡)) (set_strs l).
Proof.
  intros x y H. unfold set_strs. revert x y H.
  induction l as [|[g v] l IH]; intros x y H; simpl; [done|]. apply IH. by apply set_str_proper.
Qed.
#[export] Instance set_nums_proper l : Proper ((≡) ==> (≡)) (set_nums l).
Proof.
  intros x y (Hn & Hr). split; [|exact Hr]. clear Hr. unfold set_nums; simpl.
  revert Hn. generalize (num x), (num y).
  induction l as [|[g v] l IH]; intros n m Hnm f; simpl; [done|].
  apply IH. intros h. unfold upd. case_decide; auto.
Qed.

(** [r'] differs from [r] at most in the columns [ns] and [ss]. *)
Definition same_outside (ns : list NumField) (ss : list StrField) (r r' : XtcpFlatRecord) : Prop :=
  (forall f, f ∉ ns -> num r' f = num r f) /\ (forall f, f ∉ ss -> str r' f = str r f) /\
  InetDiagMsgSocketSource r' = InetDiagMsgSocketSource r /\
  InetDiagMsgSocketDestination r' = InetDiagMsgSocketDestination r.

#[export] Instance same_outside_preorder ns ss : PreOrder (same_outside ns ss).
Proof.
  split; [by intros r|]. intros r1 r2 r3 (H1&H2&H3&H4) (K1&K2&K3&K4).
  split_and!; try congruence; intros f Hf; [rewrite K1, H1|rewrite K2, H2]; done.
Qed.

Lemma same_outside_nums ns ss l r : l.*1 ⊆ ns -> same_outside ns ss r (set_nums l r).
Proof. intros Hs. split_and!; try done. intros f Hf. apply set_nums_frame. auto. Qed.
Lemma same_outside_strs ns ss l r : l.*1 ⊆ ss -> same_outside ns ss r (set_strs l r).
Proof.
  intros Hs. split_and!; [by rewrite num_set_strs| |apply addrs_set_strs..].
  intros f Hf. apply set_strs_frame. auto.
Qed.
Lemma same_outside_num ns ss f v r : f ∈ ns -> same_outside ns ss r (set_num f v r).
Proof. intros Hs. split_and!; try done. intros g Hg. simpl. apply upd_ne. congruence. Qed.
Lemma same_outside_str ns ss f v r : f ∈ ss -> same_outside ns ss r (set_str f v r).
Proof. intros Hs. split_and!; try done. intros g Hg. simpl. rewrite decide_False; congruence. Qed.

(** Columns filled from the host, and from the destination address. *)
Definition static_nums : list NumField :=
  [Uplink1NicPciVendor; Uplink1NicPciDevice; Uplink1NicSpeedMbps;
   Uplink2NicPciVendor; Uplink2NicPciDevice; Uplink2NicSpeedMbps; Nsid].
Definition static_strs : list StrField :=
  (uplink1_strs zeroUplink).*1 ++ (uplink2_strs zeroUplink).*1 ++
  [ContainerId; ContainerRuntime; ContainerName; ContainerImage; Netns].
Definition enrich_nums : list NumField :=
  static_nums ++ [EnrichSocketDestLocality; EnrichSocketDestEgressIfindex; EnrichSocketDestAsn].
Definition enrich_strs : list StrField :=
  static_strs ++
  [EnrichSocketDestEgressIfname; EnrichSocketInterfaceName; EnrichSocketDestNetworkOwner].

(** Membership of literal columns in literal lists, by evaluation. *)
Lemma sub_dec {A} `{EqDecision A} (l k : list A) :
  bool_decide (Forall (.∈ k) l) = true -> l ⊆ k.
Proof. intros H%bool_decide_eq_true x Hx. by rewrite Forall_forall in H; apply H. Qed.
Ltac in_list := first [apply sub_dec; by vm_compute | apply (bool_decide_unpack _); by vm_compute].
Ltac frame_step :=
  first [ reflexivity
        | etrans; [|apply same_outside_nums; in_list]
        | etrans; [|apply same_outside_strs; in_list]
        | etrans; [|apply same_outside_num; in_list]
        | etrans; [|apply same_outside_str; in_list] ].

Lemma uplinkStamp_apply_frame s r :
  same_outside static_nums static_strs r (uplinkStamp_apply s r).
Proof. unfold uplinkStamp_apply. case_match; repeat frame_step. Qed.
Lemma enrich_container_frame E r :
  same_outside static_nums static_strs r (enrich_container E r).
Proof. unfold enrich_container. repeat case_match; repeat frame_step. Qed.
Lemma enrich_nsid_frame E r : same_outside static_nums static_strs r (enrich_nsid E r).
Proof. unfold enrich_nsid. repeat case_match; repeat frame_step. Qed.
Lemma enrich_dest_frame E a r : same_outside enrich_nums enrich_strs r (enrich_dest E a r).
Proof. unfold enrich_dest. repeat case_match; simplify_eq; repeat frame_step. Qed.

(** The columns filled from the host. *)
Definition enrich_static (E : Enrichers) (r : XtcpFlatRecord) : XtcpFlatRecord :=
  enrich_nsid E (enrich_container E (uplinkStamp_apply (stamp E) r)).
Lemma enrich_static_frame E r : same_outside static_nums static_strs r (enrich_static E r).
Proof.
  etrans; [apply uplinkStamp_apply_frame|]. etrans; [apply enrich_container_frame|].
  apply enrich_nsid_frame.
Qed.
Lemma same_outside_mono ns ss ns' ss' r r' :
  ns ⊆ ns' -> ss ⊆ ss' -> same_outside ns ss r r' -> same_outside ns' ss' r r'.
Proof. intros H1 H2 (K1&K2&K3&K4). split_and!; auto. Qed.

Lemma destAddr_total family b : is_Some (destAddr family b).
Proof.
  unfold destAddr. repeat case_decide; try by eexists.
  all: rewrite slice_ok by lia; by eexists.
Qed.

(** What the destination address reads as. *)
Definition dest_of (mem : nat -> bytes) (r : XtcpFlatRecord) : option Addr :=
  default None (destAddr (num r InetDiagMsgFamily)
    (slice_bytes (mem (sl_buf (InetDiagMsgSocketDestination r))) (InetDiagMsgSocketDestination r))).

Lemma static_nums_out f : f ∈ [InetDiagMsgFamily; NetnsInode; InetDiagMsgSocketInterface;
  EnrichSocketDestAsn] -> f ∉ static_nums.
Proof.
  intros H. repeat (apply elem_of_cons in H as [->|H]; [apply (bool_decide_unpack _); by vm_compute|]).
  by inversion H.
Qed.

Lemma dest_of_static mem E r : dest_of mem (enrich_static E r) = dest_of mem r.
Proof.
  destruct (enrich_static_frame E r) as (Hn & _ & _ & Hd). unfold dest_of.
  rewrite Hd, Hn; [done|]. apply static_nums_out. set_solver.
Qed.

(** Enrichment never panics; it is the static part followed, for a valid
    destination, by the destination part. *)
Lemma applyEnrichment_eq mem E r :
  applyEnrichment mem E r =
    Some (let r1 := enrich_static E r in
          match dest_of mem r1 with Some a => enrich_dest E a r1 | None => r1 end).
Proof.
  unfold applyEnrichment. fold (enrich_static E r). unfold dest_of.
  set (r1 := enrich_static E r).
  destruct (destAddr_total (num r1 InetDiagMsgFamily)
    (slice_bytes (mem (sl_buf (InetDiagMsgSocketDestination r1))) (InetDiagMsgSocketDestination r1)))
    as [d ->]. simpl.
  destruct (asn E) eqn:Ha, (localityOn E) eqn:Hl; destruct d; try done.
  unfold enrich_dest. rewrite Ha. unfold localityOn in Hl.
  by destruct (locality E) as [l|]; [rewrite Hl|].
Qed.

Lemma applyEnrichment_frame mem E r :
  exists r', applyEnrichment mem E r = Some r' /\ same_outside enrich_nums enrich_strs r r'.
Proof.
  rewrite applyEnrichment_eq. eexists; split; [done|]. cbv zeta.
  assert (same_outside enrich_nums enrich_strs r (enrich_static E r)).
  { eapply same_outside_mono; [| |apply enrich_static_frame]; in_list. }
  destruct (dest_of _ _); [|done]. etrans; [done|apply enrich_dest_frame].
Qed.

(** Enrichment depends on the columns of the record only. *)
#[export] Instance uplinkStamp_apply_proper s : Proper ((≡) ==> (≡)) (uplinkStamp_apply s).
Proof. intros x y H. unfold uplinkStamp_apply. case_match; [done|]. by rewrite H. Qed.
#[export] Instance enrich_container_proper E : Proper ((≡) ==> (≡)) (enrich_container E).
Proof.
  intros x y H. unfold enrich_container. destruct (dockerIndex E) as [lk|]; [|done].
  rewrite (proj1 H NetnsInode). destruct (lk _) as [c|]; [|done].
  set (l := [_; _; _; _]). assert (set_strs l x ≡ set_strs l y) as Hs by (by rewrite H).
  rewrite (proj1 (proj2 Hs) Netns). case_match; [|done]. by rewrite Hs.
Qed.
#[export] Instance enrich_nsid_proper E : Proper ((≡) ==> (≡)) (enrich_nsid E).
Proof.
  intros x y H. unfold enrich_nsid. destruct (nsidByInode E) as [m|]; [|done].
  rewrite (proj1 H NetnsInode). case_match; [|done]. by rewrite H.
Qed.
#[export] Instance enrich_dest_proper E a : Proper ((≡) ==> (≡)) (enrich_dest E a).
Proof.
  intros x y H. unfold enrich_dest.
  rewrite !(proj1 H NetnsInode), !(proj1 H InetDiagMsgSocketInterface).
  repeat case_match; simplify_eq; by repeat apply set_str_proper || apply set_num_proper ||
    apply set_strs_proper || apply set_nums_proper.
Qed.

Lemma applyEnrichment_proper mem E x y x' :
  x ≡ y -> applyEnrichment mem E x = Some x' ->
  exists y', applyEnrichment mem E y = Some y' /\ x' ≡ y'.
Proof.
  intros H. rewrite !applyEnrichment_eq. intros [= <-]. eexists; split; [done|]. cbv zeta.
  assert (enrich_static E x ≡ enrich_static E y) as Hs by (unfold enrich_static; by rewrite H).
  pose proof Hs as (Hn & _ & _ & Hd). unfold dest_of. rewrite Hd, (Hn InetDiagMsgFamily).
  destruct (default None _); [|done]. by rewrite Hs.
Qed.

(** Whether the destination counts as remote: no locality verdict, or one that
    says so. *)
Definition is_remote (E : Enrichers) (a : Addr) (r : XtcpFlatRecord) : bool :=
  match locality E with
  | Some l => if Active l then
                from_option res_Remote true
                  (Resolve l (num r NetnsInode) a (num r InetDiagMsgSocketInterface))
              else true
  | None => true
  end.

Definition asn_of (E : Enrichers) (a : Addr) : option (Z * string) :=
  asn E ≫= fun lookupAsn => lookupAsn a.

Lemma enrich_dest_asn E a r :
  let r' := enrich_dest E a r in
  match (if is_remote E a r then asn_of E a else None) with
  | Some (n, owner) => num r' EnrichSocketDestAsn = uint64 n /\
                       str r' EnrichSocketDestNetworkOwner = owner
  | None => num r' EnrichSocketDestAsn = num r EnrichSocketDestAsn /\
            str r' EnrichSocketDestNetworkOwner = str r EnrichSocketDestNetworkOwner
  end.
Proof.
  unfold enrich_dest, is_remote, asn_of.
  destruct (locality E) as [l|]; [destruct (Active l); [destruct (Resolve _ _ _ _) as [res|]|]|];
    simpl; try destruct (res_Remote res); destruct (asn E) as [lk|]; simpl;
    try destruct (lk a) as [[n o]|]; done.
Qed.

(** Enrichment of a decoded record never panics, changes only the
    enrichment columns, and stamps the destination's ASN and owner exactly when
    the address is valid for its family, the ASN feed knows it, and no locality
    verdict calls it local; otherwise those columns keep their value. *)
Theorem applyEnrichment_spec mem E r :
  exists r', applyEnrichment mem E r = Some r' /\ same_outside enrich_nums enrich_strs r r' /\
    match (a ← dest_of mem r; if is_remote E a r then asn_of E a else None) with
    | Some (n, owner) => num r' EnrichSocketDestAsn = uint64 n /\
                         str r' EnrichSocketDestNetworkOwner = owner
    | None => num r' EnrichSocketDestAsn = num r EnrichSocketDestAsn /\
              str r' EnrichSocketDestNetworkOwner = str r EnrichSocketDestNetworkOwner
    end.
Proof.
  destruct (applyEnrichment_frame mem E r) as (r' & Hr & Hf). exists r'. split; [done|].
  split; [done|]. rewrite applyEnrichment_eq in Hr. simplify_eq. clear Hf. cbv zeta.
  rewrite dest_of_static. destruct (enrich_static_frame E r) as (Hn & Hs & _).
  assert (str (enrich_static E r) EnrichSocketDestNetworkOwner =
          str r EnrichSocketDestNetworkOwner) as Ho by (apply Hs; in_list).
  destruct (dest_of mem r) as [a|]; simpl.
  - pose proof (enrich_dest_asn E a (enrich_static E r)) as Ha. cbv zeta in Ha.
    unfold is_remote in *. rewrite !Hn in Ha by (apply static_nums_out; set_solver).
    by rewrite Ho in Ha.
  - split; [|done]. apply Hn, static_nums_out. set_solver.
Qed.

(** The uplink stamp assigns slot i the i-th interface's NIC and LLDP data
    for the first two interfaces, leaves the other slots empty, and is enabled
    exactly when there is an interface. *)
Theorem buildUplinkStamp_spec ifnames nics neigh :
  let s := buildUplinkStamp ifnames nics neigh in
  length (slots s) = maxUplinks /\ enabled s = negb (bool_decide (ifnames = [])) /\
  forall i, (i < maxUplinks)%nat ->
    slots s !! i = Some (from_option (uplink_column (nic_index nics) neigh) zeroUplink (ifnames !! i)).
Proof.
  unfold buildUplinkStamp. destruct ifnames as [|a [|b l]]; simpl; split_and!; try done;
    (intros [|[|i]] Hi; [done..|unfold maxUplinks in Hi; lia]).
Qed.
