(* ===== verification/Envelope.v ===== *)
(** The envelope accumulator of pkg/xtcp: rows are appended under envelopeMu
    (tail of processInetDiagRecord, deserialize.go), a full or finished envelope
    is swapped out and handed to the destination (flushEnvelope, poller.go), and
    records and envelopes return to their sync.Pools (zeroizers.go,
    init_sync_pools.go).  Each definition is one critical section, or the work
    done between two of them, so that callers compose them in any order. *)

From S2P Require Import Prelude FlatRecord.

(** ** sync.Pool

    [Get] returns any item that was [Put] and not taken since, or a new one; the
    choice is the runtime's.  [picks] is the sequence of its choices: the
    position of the item to take, a new one when there is none there. *)
Definition pool_get {A} (new : A) (pool : list A) (picks : list nat) : A * list A * list nat :=
  match picks with
  | [] => (new, pool, [])
  | i :: picks =>
      match pool !! i with
      | Some a => (a, delete i pool, picks)
      | None => (new, pool, picks)
      end
  end.

Definition pool_put {A} (a : A) (pool : list A) : list A := a :: pool.

(** ** State *)

(** A row as the marshaller reads it: the record and the bytes its two address
    slices denote at that time. *)
Record row := mkRow { row_record : XtcpFlatRecord; row_source : bytes; row_destination : bytes }.

Definition view (mem : nat -> bytes) (r : XtcpFlatRecord) : row :=
  {| row_record := r;
     row_source := slice_bytes (mem (sl_buf (InetDiagMsgSocketSource r))) (InetDiagMsgSocketSource r);
     row_destination := slice_bytes (mem (sl_buf (InetDiagMsgSocketDestination r)))
                          (InetDiagMsgSocketDestination r) |}.

(** [xtcpRecordPool], [xtcpEnvelopePool], [currentEnvelope] ([None] is nil; the
    value is its [Row]), the byte total, what [dest.Send] and
    [flatRecordServiceSend] were given, and the records recycled because no
    envelope was open. *)
Record Env := mkEnv {
  currentEnvelope : option (list XtcpFlatRecord);
  currentEnvelopeBytes : Z;
  recordPool : list XtcpFlatRecord;
  envelopePool : list (list XtcpFlatRecord);
  picks : list nat;
  sent : list (list row);
  streamed : list XtcpFlatRecord;
  drops : list XtcpFlatRecord }.

(** ** Operations *)

Definition get_record (s : Env) : XtcpFlatRecord * Env :=
  let '(r, p, ps) := pool_get zeroRecord (recordPool s) (picks s) in
  (r, {| currentEnvelope := currentEnvelope s; currentEnvelopeBytes := currentEnvelopeBytes s;
         recordPool := p; envelopePool := envelopePool s; picks := ps; sent := sent s;
         streamed := streamed s; drops := drops s |}).

Definition put_record (r : XtcpFlatRecord) (s : Env) : Env :=
  {| currentEnvelope := currentEnvelope s; currentEnvelopeBytes := currentEnvelopeBytes s;
     recordPool := pool_put r (recordPool s); envelopePool := envelopePool s; picks := picks s;
     sent := sent s; streamed := streamed s; drops := drops s |}.

(** [flatRecordServiceSend]: the record is offered to the gRPC stream clients. *)
Definition stream_record (r : XtcpFlatRecord) (s : Env) : Env :=
  {| currentEnvelope := currentEnvelope s; currentEnvelopeBytes := currentEnvelopeBytes s;
     recordPool := recordPool s; envelopePool := envelopePool s; picks := picks s;
     sent := sent s; streamed := streamed s ++ [r]; drops := drops s |}.

(** [xtcpEnvelopePool.Get] installed as the current envelope. *)
Definition acquire (s : Env) : Env :=
  let '(e, p, ps) := pool_get [] (envelopePool s) (picks s) in
  {| currentEnvelope := Some e; currentEnvelopeBytes := 0;
     recordPool := recordPool s; envelopePool := p; picks := ps; sent := sent s;
     streamed := streamed s; drops := drops s |}.

Definition envelopeRowFieldNumber : Z := 10.
Definition EnvelopeFlushThresholdBytesCst : Z := 768 * 1024.
Definition EnvelopeFlushThresholdRowsCst : Z := 10000.

(** Why an envelope is flushed. *)
Inductive flushReason := rows_cap | size_cap | poll_end | poll_timeout | shutdown.

#[export] Instance flushReason_eq_dec : EqDecision flushReason.
Proof. solve_decision. Defined.

Definition reAcquire (reason : flushReason) : bool :=
  match reason with size_cap | rows_cap => true | _ => false end.

(** The critical section of flushEnvelope: the envelope taken out. *)
Definition flush_swap (reason : flushReason) (s : Env) : option (list XtcpFlatRecord) * Env :=
  (currentEnvelope s,
   if reAcquire reason then acquire s
   else {| currentEnvelope := None; currentEnvelopeBytes := 0; recordPool := recordPool s;
           envelopePool := envelopePool s; picks := picks s; sent := sent s;
           streamed := streamed s; drops := drops s |}).

(** [EnvelopeZero]: [e.Row = e.Row[:0]]. *)
Definition EnvelopeZero (e : list XtcpFlatRecord) : list XtcpFlatRecord := take 0 e.

(** The rest of flushEnvelope: marshal, send, and return everything to the
    pools.  The destination's error is only counted. *)
Definition flush_send (mem : nat -> bytes) (e : option (list XtcpFlatRecord)) (s : Env) : Env :=
  match e with
  | None => s
  | Some [] =>
      {| currentEnvelope := currentEnvelope s; currentEnvelopeBytes := currentEnvelopeBytes s;
         recordPool := recordPool s; envelopePool := pool_put [] (envelopePool s);
         picks := picks s; sent := sent s; streamed := streamed s; drops := drops s |}
  | Some rows =>
      {| currentEnvelope := currentEnvelope s; currentEnvelopeBytes := currentEnvelopeBytes s;
         recordPool := foldl (fun p _ => pool_put zeroRecord p) (recordPool s) rows;
         envelopePool := pool_put (EnvelopeZero rows) (envelopePool s);
         picks := picks s; sent := sent s ++ [view mem <$> rows];
         streamed := streamed s; drops := drops s |}
  end.

Definition flushEnvelope (mem : nat -> bytes) (reason : flushReason) (s : Env) : Env :=
  let '(e, s) := flush_swap reason s in flush_send mem e s.

Section Append.
(** The size of a record on the wire (SizeVT, generated) and the protobuf
    runtime's SizeTag and SizeBytes. *)
Context (SizeVT : XtcpFlatRecord -> Z) (SizeTag SizeBytes : Z -> Z).

Definition envelopeRowBytes (r : XtcpFlatRecord) : Z :=
  SizeTag envelopeRowFieldNumber + SizeBytes (SizeVT r).

(** [config.EnvelopeFlushThresholdRows] and [...Bytes]; 0 means the default. *)
Definition rowThreshold (cfg : Z) : Z :=
  if decide (cfg = 0) then EnvelopeFlushThresholdRowsCst else cfg.
Definition byteThreshold (cfg : Z) : Z :=
  if decide (cfg = 0) then EnvelopeFlushThresholdBytesCst else cfg.

(** The critical section that appends a record; the result says whether the
    caller must flush. *)
Definition append_record (rowsCfg bytesCfg : Z) (r : XtcpFlatRecord) (s : Env)
    : option flushReason * Env :=
  match currentEnvelope s with
  | None =>
      (None, {| currentEnvelope := None; currentEnvelopeBytes := currentEnvelopeBytes s;
                recordPool := pool_put zeroRecord (recordPool s); envelopePool := envelopePool s;
                picks := picks s; sent := sent s; streamed := streamed s;
                drops := drops s ++ [r] |})
  | Some rows =>
      let rows := rows ++ [r] in
      let total := currentEnvelopeBytes s + envelopeRowBytes r in
      (if decide (glen rows >= rowThreshold rowsCfg) then Some rows_cap
       else if decide (total > byteThreshold bytesCfg) then Some size_cap else None,
       {| currentEnvelope := Some rows; currentEnvelopeBytes := total;
          recordPool := recordPool s; envelopePool := envelopePool s; picks := picks s;
          sent := sent s; streamed := streamed s; drops := drops s |})
  end.

(** ** Invariant *)

(** The running total is the size of the open envelope, pooled envelopes are
    empty. *)
Definition env_inv (s : Env) : Prop :=
  currentEnvelopeBytes s =
    foldr (fun r n => envelopeRowBytes r + n) 0 (default [] (currentEnvelope s)) /\
  Forall (fun e => e = []) (envelopePool s).
End Append.

(** ** Lemmas *)

Lemma pool_get_cases {A} (new : A) pool picks a pool' picks' :
  pool_get new pool picks = (a, pool', picks') ->
  (a = new /\ pool' = pool) \/ pool ≡ₚ a :: pool'.
Proof.
  unfold pool_get. intros H. repeat case_match; simplify_eq; auto.
  right. by apply delete_Permutation.
Qed.

(** A property of all pooled items and of a new one holds of the item taken. *)
Lemma pool_get_Forall {A} (P : A -> Prop) new pool picks a pool' picks' :
  pool_get new pool picks = (a, pool', picks') ->
  Forall P pool -> P new -> P a /\ Forall P pool'.
Proof.
  intros [[-> ->]|Hp]%pool_get_cases Hpool Hnew; [done|].
  rewrite Hp in Hpool. by apply Forall_cons in Hpool.
Qed.

(** The records handed to the destination, and all records an envelope state
    accounts for: open, sent, or recycled for want of an open envelope. *)
Definition sent_records (s : Env) : list XtcpFlatRecord := row_record <$> concat (sent s).
Definition held (s : Env) : list XtcpFlatRecord :=
  default [] (currentEnvelope s) ++ sent_records s ++ drops s.

Section Lemmas.
Context (SizeVT : XtcpFlatRecord -> Z) (SizeTag SizeBytes : Z -> Z).
Abbreviation env_inv := (env_inv SizeVT SizeTag SizeBytes).
Abbreviation row_bytes := (envelopeRowBytes SizeVT SizeTag SizeBytes).
Abbreviation append_record := (append_record SizeVT SizeTag SizeBytes).

Lemma acquire_spec s :
  Forall (fun e => e = []) (envelopePool s) ->
  currentEnvelope (acquire s) = Some [] /\ currentEnvelopeBytes (acquire s) = 0 /\
  Forall (fun e => e = []) (envelopePool (acquire s)) /\
  recordPool (acquire s) = recordPool s /\ sent (acquire s) = sent s /\
  drops (acquire s) = drops s /\ streamed (acquire s) = streamed s.
Proof.
  intros H. unfold acquire. destruct (pool_get _ _ _) as [[e p] ps] eqn:E.
  eapply (pool_get_Forall (fun e => e = [])) in E as [-> ?]; done.
Qed.

Lemma flush_swap_spec reason s e s' :
  Forall (fun e => e = []) (envelopePool s) -> flush_swap reason s = (e, s') ->
  e = currentEnvelope s /\
  currentEnvelope s' = (if reAcquire reason then Some [] else None) /\
  currentEnvelopeBytes s' = 0 /\ Forall (fun e => e = []) (envelopePool s') /\
  recordPool s' = recordPool s /\ sent s' = sent s /\ drops s' = drops s /\
  streamed s' = streamed s.
Proof.
  intros H [= <- <-]. destruct (reAcquire reason); [|done].
  destruct (acquire_spec s H) as (?&?&?&?&?&?&?). done.
Qed.

Lemma foldl_put {A} (z : A) (p : list A) {B} (l : list B) :
  foldl (fun p _ => pool_put z p) p l = replicate (length l) z ++ p.
Proof.
  revert p; induction l as [|x l IH]; intros p; simpl; [done|].
  rewrite IH. unfold pool_put.
  change (z :: p) with ([z] ++ p). by rewrite app_assoc, <- replicate_cons_app.
Qed.

Lemma flush_send_spec mem e s :
  let s' := flush_send mem e s in
  let rows := default [] e in
  currentEnvelope s' = currentEnvelope s /\ currentEnvelopeBytes s' = currentEnvelopeBytes s /\
  recordPool s' = replicate (length rows) zeroRecord ++ recordPool s /\
  sent s' = sent s ++ (if decide (rows = []) then [] else [view mem <$> rows]) /\
  (Forall (fun e => e = []) (envelopePool s) -> Forall (fun e => e = []) (envelopePool s')) /\
  drops s' = drops s /\ streamed s' = streamed s.
Proof.
  destruct e as [[|r rows]|]; simpl; rewrite ?app_nil_r; split_and!; try done.
  - intros. by apply Forall_cons_2.
  - rewrite foldl_put. unfold pool_put.
    change (zeroRecord :: recordPool s) with ([zeroRecord] ++ recordPool s).
    by rewrite app_assoc, <- replicate_cons_app.
  - intros. by apply Forall_cons_2.
Qed.

Lemma flushEnvelope_inv mem reason s : env_inv s -> env_inv (flushEnvelope mem reason s).
Proof.
  intros [Hb Hp]. unfold flushEnvelope. destruct (flush_swap reason s) as [e s1] eqn:E.
  apply flush_swap_spec in E as (-> & Hc & Hz & Hp1 & _); [|done].
  destruct (flush_send_spec mem (currentEnvelope s) s1) as (H1 & H2 & _ & _ & H3 & _).
  split; [|by apply H3]. rewrite H2, H1, Hz, Hc. by destruct (reAcquire reason).
Qed.

Lemma append_record_inv rc bc r s o s' :
  env_inv s -> append_record rc bc r s = (o, s') -> env_inv s'.
Proof.
  intros [Hb Hp] H. unfold append_record in H.
  destruct (currentEnvelope s) as [rows|] eqn:Hc; injection H as <- <-; (split; [|done]); simpl in *.
  - rewrite Hb. clear. induction rows; simpl; lia.
  - done.
Qed.

Lemma view_records mem (rows : list XtcpFlatRecord) : row_record <$> (view mem <$> rows) = rows.
Proof. rewrite <- list_fmap_compose. apply list_fmap_id. Qed.

(** A flush moves the open rows to the destination. *)
Lemma flushEnvelope_held mem reason s :
  Forall (fun e => e = []) (envelopePool s) ->
  held (flushEnvelope mem reason s) ≡ₚ held s /\
  streamed (flushEnvelope mem reason s) = streamed s /\
  exists k, recordPool (flushEnvelope mem reason s) = replicate k zeroRecord ++ recordPool s.
Proof.
  intros Hp. unfold flushEnvelope. destruct (flush_swap reason s) as [e s1] eqn:E.
  apply flush_swap_spec in E as (-> & Hc & _ & _ & Hr & Hs & Hd & Hst); [|done].
  destruct (flush_send_spec mem (currentEnvelope s) s1) as (H1 & _ & H3 & H4 & _ & H6 & H7).
  rewrite H7, H3, Hr, Hst. split_and!; [|done|by eexists].
  unfold held, sent_records. rewrite H1, H4, H6, Hs, Hd, Hc, concat_app, fmap_app.
  replace (default [] (if reAcquire reason then Some [] else None)) with (@nil XtcpFlatRecord)
    by (by destruct (reAcquire reason)).
  case_decide as Hn; simpl; rewrite ?Hn, ?app_nil_r; simpl; [solve_Permutation|].
  rewrite view_records. solve_Permutation.
Qed.

(** Appending accounts for the record, in the envelope or as dropped. *)
Lemma append_record_held rc bc r s o s' :
  append_record rc bc r s = (o, s') ->
  held s' ≡ₚ held s ++ [r] /\ streamed s' = streamed s /\ envelopePool s' = envelopePool s /\
  exists k, recordPool s' = replicate k zeroRecord ++ recordPool s.
Proof.
  unfold append_record, held, sent_records.
  destruct (currentEnvelope s) as [rows|]; intros [= <- <-]; simpl.
  - split_and!; [solve_Permutation|done..|by exists 0%nat].
  - split_and!; [solve_Permutation|done..|by exists 1%nat].
Qed.

Lemma acquire_inv s : env_inv s -> env_inv (acquire s).
Proof.
  intros [_ Hp]. destruct (acquire_spec s Hp) as (Hc & Hb & ? & _).
  split; [by rewrite Hb, Hc|done].
Qed.
End Lemmas.
