(* ===== verification/Poller.v ===== *)
(** The poll cycle of pkg/xtcp/poller.go: one Poller goroutine counts the
    sockets still dumping, opens and closes envelopes, and races the decoder
    goroutines that append rows and flush full envelopes.  The state is the one
    envelopeMu and the Poller's locals protect; an event is one critical section
    or one case of the Poller's select, so a list of events is an interleaving. *)

From S2P Require Import Prelude FlatRecord Envelope.

(** ** Poll timing (poller.go, pkg/misc/timing.go, pkg/misc/misc.go) *)
Module Timing.

Definition ScalePct (d pct : Z) : Z :=
  if decide (d <= 0 \/ pct = 0) then 0 else Z.quot (int64 (d * pct)) 100.

(** [rnd] is the 64-bit random draw. *)
Definition JitterDuration (rnd limit : Z) : Z :=
  if decide (limit <= 0) then 0 else int64 (rnd mod uint64 limit).

Definition computeStartupDelay (freq pct : Z) (jitter : Z -> Z) : Z := jitter (ScalePct freq pct).

Definition computePollInterval (freq pct : Z) (jitter : Z -> Z) : Z :=
  let limit := ScalePct freq pct in
  if decide (limit <= 0) then freq else freq - Z.quot limit 2 + jitter limit.

Definition MaxLoopsOrForEver (pollingLoops maxLoops : Z) : bool :=
  if decide (maxLoops <> 0) then (if decide (pollingLoops > maxLoops) then false else true) else true.

Lemma int64_small z : 0 <= z < 2 ^ 63 -> int64 z = z.
Proof. intros. unfold int64, uint64. rewrite Z.mod_small by lia. by rewrite decide_True by lia. Qed.

Lemma ScalePct_bound d pct :
  0 < d -> 0 <= pct <= 100 -> d * pct < 2 ^ 63 ->
  ScalePct d pct = d * pct / 100 /\ 0 <= ScalePct d pct <= d.
Proof.
  intros Hd Hp Hb. unfold ScalePct. case_decide as Hc.
  - replace pct with 0 by lia. rewrite Z.mul_0_r. split; [done|lia].
  - rewrite int64_small, Z.quot_div_nonneg by nia. split; [done|].
    split; [apply Z.div_pos; nia|]. apply Z.div_le_upper_bound; nia.
Qed.

Lemma JitterDuration_bound rnd limit :
  0 < limit < 2 ^ 63 -> 0 <= JitterDuration rnd limit < limit.
Proof.
  intros H. unfold JitterDuration. rewrite decide_False by lia.
  unfold uint64. rewrite (Z.mod_small limit) by lia.
  pose proof (Z.mod_pos_bound rnd limit). rewrite int64_small by lia. lia.
Qed.
End Timing.

(** ** State *)

Record PState := mkP {
  env : Env;
  count : Z;  (* sockets the Poller waits for *)
  queued : Z;  (* poll requests in pollRequestCh *)
  pending : list flushReason;  (* decoders that decided to flush and have not yet *)
  inflight : list (list XtcpFlatRecord);  (* envelopes swapped out, not yet sent *)
  polled : list Z;  (* sockets a dump request went to, oldest first *)
  (* ghost *)
  appended : list XtcpFlatRecord;  (* records decoders handed over *)
  lost : list XtcpFlatRecord  (* rows of an envelope replaced while open *) }.

Definition pollRequestChSize : Z := 2.

Inductive event :=
  | EvTick  (* handlePollerTick *)
  | EvPollRequest (socketFDs : list Z)
  | EvDone (fd : Z)
  | EvTimeout
  | EvShutdown
  | EvAppend (r : XtcpFlatRecord)
  | EvCap (i : nat)
  | EvSend (i : nat).

(** ** Operations *)

Definition with_env (e : Env) (s : PState) : PState :=
  {| env := e; count := count s; queued := queued s; pending := pending s; inflight := inflight s;
     polled := polled s; appended := appended s; lost := lost s |}.
Definition with_count (c : Z) (s : PState) : PState :=
  {| env := env s; count := c; queued := queued s; pending := pending s; inflight := inflight s;
     polled := polled s; appended := appended s; lost := lost s |}.
Definition with_queued (q : Z) (s : PState) : PState :=
  {| env := env s; count := count s; queued := q; pending := pending s; inflight := inflight s;
     polled := polled s; appended := appended s; lost := lost s |}.
Definition with_pending (p : list flushReason) (s : PState) : PState :=
  {| env := env s; count := count s; queued := queued s; pending := p; inflight := inflight s;
     polled := polled s; appended := appended s; lost := lost s |}.
Definition with_inflight (i : list (list XtcpFlatRecord)) (s : PState) : PState :=
  {| env := env s; count := count s; queued := queued s; pending := pending s; inflight := i;
     polled := polled s; appended := appended s; lost := lost s |}.

(** The critical section of a flush; the envelope it takes is in flight until
    its send completes. *)
Definition flush_begin (reason : flushReason) (s : PState) : PState :=
  let '(e, env') := flush_swap reason (env s) in
  with_inflight (inflight s ++ match e with Some rows => [rows] | None => [] end) (with_env env' s).

(** [pollAllNetlinkSockets]: open a fresh envelope, send a dump request to every
    socket that is open, and expect that many done signals. *)
Definition pollAllNetlinkSockets (socketFDs : list Z) (s : PState) : PState * Z :=
  let ready := filter (fun fd => ~ fd < 0) socketFDs in
  ({| env := acquire (env s); count := count s; queued := queued s; pending := pending s;
      inflight := inflight s; polled := polled s ++ ready; appended := appended s;
      lost := lost s ++ default [] (currentEnvelope (env s)) |}, glen ready).

(** [handlePollRequest] and the select case around it. *)
Definition handlePollRequest (socketFDs : list Z) (s : PState) : PState :=
  if decide (count s > 0) then s else
  let '(s, n) := pollAllNetlinkSockets socketFDs s in with_count n s.

Definition handlePollerTick (s : PState) : PState :=
  if decide (queued s < pollRequestChSize) then with_queued (queued s + 1) s else s.

Definition handleNetlinkerDone (fd : Z) (c : Z) : Z := c - 1.

Definition handlePollTimeout : Z := 0.

Section Step.
Context (SizeVT : XtcpFlatRecord -> Z) (SizeTag SizeBytes : Z -> Z) (mem : nat -> bytes).
Context (rowsCfg bytesCfg : Z).

(** One event, [None] when it cannot happen: a poll request needs one queued, a
    cap flush a decoder that asked for it, a send an envelope in flight. *)
Definition step (s : PState) (ev : event) : option PState :=
  match ev with
  | EvTick => Some (handlePollerTick s)
  | EvPollRequest fds =>
      if decide (0 < queued s) then Some (handlePollRequest fds (with_queued (queued s - 1) s))
      else None
  | EvDone fd =>
      let s := with_count (handleNetlinkerDone fd (count s)) s in
      Some (if decide (count s = 0) then flush_begin poll_end s else s)
  | EvTimeout => Some (flush_begin poll_timeout (with_count handlePollTimeout s))
  | EvShutdown => Some (flush_begin shutdown s)
  | EvAppend r =>
      let '(o, env') := append_record SizeVT SizeTag SizeBytes rowsCfg bytesCfg r (env s) in
      Some {| env := env'; count := count s; queued := queued s;
              pending := pending s ++ match o with Some why => [why] | None => [] end;
              inflight := inflight s; polled := polled s; appended := appended s ++ [r];
              lost := lost s |}
  | EvCap i =>
      match pending s !! i with
      | None => None
      | Some why => Some (flush_begin why (with_pending (delete i (pending s)) s))
      end
  | EvSend i =>
      match inflight s !! i with
      | None => None
      | Some rows =>
          Some (with_inflight (delete i (inflight s)) (with_env (flush_send mem (Some rows) (env s)) s))
      end
  end.

(** The daemon starts with one poll, before the loop. *)
Definition start (picks : list nat) (socketFDs : list Z) : PState :=
  let e := {| currentEnvelope := None; currentEnvelopeBytes := 0; recordPool := [];
              envelopePool := []; picks := picks; sent := []; streamed := []; drops := [] |} in
  handlePollRequest socketFDs
    {| env := e; count := 0; queued := 0; pending := []; inflight := []; polled := [];
       appended := []; lost := [] |}.

Definition run (s : PState) (evs : list event) : option PState :=
  foldl (fun s ev => s ≫= fun s => step s ev) (Some s) evs.

Inductive reachable : PState -> Prop :=
  | reach_start picks fds : reachable (start picks fds)
  | reach_step s ev s' : reachable s -> step s ev = Some s' -> reachable s'.

(** ** Orderly cycles

    What the Netlinkers promise the Poller: the sockets of a cycle that have yet
    to signal done are [w]; each signals once, after its records are appended
    and its decoders have made the flushes they decided on; and the poll timeout
    does not come before the last of them. *)

Definition ready_sockets (fds : list Z) : list Z := filter (fun fd => ~ fd < 0) fds.
Fixpoint take_out (fd : Z) (w : list Z) : list Z :=
  match w with [] => [] | x :: w => if decide (x = fd) then w else x :: take_out fd w end.
Definition in_turn (w : list Z) (s : PState) (ev : event) : option (list Z) :=
  match ev with
  | EvPollRequest fds => Some (if decide (count s > 0) then w else ready_sockets fds)
  | EvDone fd => guard (fd ∈ w);; guard (glen w = 1 -> pending s = []);; Some (take_out fd w)
  | EvTimeout | EvShutdown => guard (w = []);; Some w
  | EvAppend _ => guard (w <> []);; Some w
  | EvTick | EvCap _ | EvSend _ => Some w
  end.
Inductive orderly : list Z -> PState -> Prop :=
  | orderly_start picks fds : orderly (ready_sockets fds) (start picks fds)
  | orderly_step w s ev w' s' : orderly w s -> step s ev = Some s' -> in_turn w s ev = Some w' -> orderly w' s'.

(** ** Lemmas *)

Lemma reachable_run s evs s' : reachable s -> run s evs = Some s' -> reachable s'.
Proof.
  unfold run. revert s; induction evs as [|ev evs IH]; intros s Hs H; simpl in H; [by simplify_eq|].
  destruct (step s ev) as [s1|] eqn:E; simpl in H.
  - eapply IH; [|exact H]. by eapply reach_step.
  - exfalso. clear -H. induction evs; simpl in H; [done|auto].
Qed.

(** Where the records handed over are: in the open envelope, in flight, sent,
    recycled because no envelope was open, or in an envelope that was replaced. *)
Definition accounted (s : PState) : list XtcpFlatRecord :=
  default [] (currentEnvelope (env s)) ++ concat (inflight s) ++ sent_records (env s) ++
  drops (env s) ++ lost s.

Definition row_total (rows : list XtcpFlatRecord) : Z :=
  foldr (fun r n => envelopeRowBytes SizeVT SizeTag SizeBytes r + n) 0 rows.

(** The open envelope is within its caps. *)
Definition within_caps (e : option (list XtcpFlatRecord)) : Prop :=
  forall rows, e = Some rows ->
    glen rows < rowThreshold rowsCfg /\ row_total rows <= byteThreshold bytesCfg.

Record pinv (s : PState) : Prop := {
  pi_env : env_inv SizeVT SizeTag SizeBytes (env s);
  pi_acc : appended s ≡ₚ accounted s;
  pi_pending : Forall (fun why => reAcquire why = true) (pending s);
  pi_caps : pending s = [] -> within_caps (currentEnvelope (env s)) }.
End Step.

#[local] Arguments flush_send : simpl never.

Section Proofs.
Context (SizeVT : XtcpFlatRecord -> Z) (SizeTag SizeBytes : Z -> Z) (mem : nat -> bytes).
Context (rowsCfg bytesCfg : Z) (Hrows : 0 <= rowsCfg) (Hbytes : 0 <= bytesCfg).
Abbreviation env_inv := (env_inv SizeVT SizeTag SizeBytes).
Abbreviation pinv := (pinv SizeVT SizeTag SizeBytes rowsCfg bytesCfg).
Abbreviation step := (step SizeVT SizeTag SizeBytes mem rowsCfg bytesCfg).
Abbreviation reachable := (reachable SizeVT SizeTag SizeBytes mem rowsCfg bytesCfg).
Abbreviation orderly := (orderly SizeVT SizeTag SizeBytes mem rowsCfg bytesCfg).
Abbreviation within_caps := (within_caps SizeVT SizeTag SizeBytes rowsCfg bytesCfg).

Lemma within_caps_empty : within_caps (Some []).
Proof using Hrows Hbytes.
  intros rows [= <-]. unfold rowThreshold, byteThreshold, EnvelopeFlushThresholdRowsCst,
    EnvelopeFlushThresholdBytesCst. simpl. rewrite glen_nil. repeat case_decide; lia.
Qed.

Lemma flush_begin_spec reason s :
  env_inv (env s) ->
  let s' := flush_begin reason s in
  env_inv (env s') /\ currentEnvelope (env s') = (if reAcquire reason then Some [] else None) /\
  accounted s' ≡ₚ accounted s /\ count s' = count s /\ pending s' = pending s /\
  appended s' = appended s /\ lost s' = lost s /\ drops (env s') = drops (env s).
Proof.
  intros [Hb Hp]. unfold flush_begin. destruct (flush_swap reason (env s)) as [e env'] eqn:E.
  apply flush_swap_spec in E as (-> & Hc & Hz & Hp' & _ & Hs & Hd & _); [|done].
  split_and!; try done; simpl.
  - split; [|done]. rewrite Hz, Hc. by destruct (reAcquire reason).
  - unfold accounted, sent_records; simpl. rewrite Hc, Hs, Hd, concat_app.
    replace (default [] (if reAcquire reason then Some [] else None)) with (@nil XtcpFlatRecord)
      by (by destruct (reAcquire reason)).
    destruct (currentEnvelope (env s)) as [rows|]; simpl; rewrite ?app_nil_r; [|done].
    solve_Permutation.
Qed.

Lemma flush_begin_pinv reason s :
  env_inv (env s) -> appended s ≡ₚ accounted s ->
  Forall (fun why => reAcquire why = true) (pending s) -> pinv (flush_begin reason s).
Proof using Hrows Hbytes.
  intros He Ha Hp. destruct (flush_begin_spec reason s He) as (He' & Hcur & Hacc & _ & Hpe & Hap & _).
  split; [done|by rewrite Hap, Hacc|by rewrite Hpe|].
  intros _. rewrite Hcur. destruct (reAcquire reason); [apply within_caps_empty|by intros ? [=]].
Qed.

Lemma start_pinv picks fds : pinv (start picks fds).
Proof using Hrows Hbytes.
  unfold start, handlePollRequest. simpl.
  set (e0 := mkEnv None 0 [] [] picks [] [] []).
  destruct (acquire_spec e0) as (Hc & Hb & Hp & _ & Hs & Hd & _); [constructor|].
  split; simpl.
  - split; [by rewrite Hb, Hc|done].
  - unfold accounted, sent_records; simpl. by rewrite Hc, Hs, Hd.
  - constructor.
  - rewrite Hc. intros _. apply within_caps_empty.
Qed.

Lemma poll_pinv fds s : pinv s -> pinv (let '(s, n) := pollAllNetlinkSockets fds s in with_count n s).
Proof using Hrows Hbytes.
  intros [He Ha Hp Hc]. simpl.
  destruct (acquire_spec (env s)) as (Hcu & Hb & Hpo & _ & Hs & Hd & _); [apply He|].
  split; simpl.
  - by apply acquire_inv.
  - etrans; [exact Ha|]. unfold accounted, sent_records; simpl. rewrite Hcu, Hs, Hd. simpl.
    solve_Permutation.
  - done.
  - intros _. rewrite Hcu. apply within_caps_empty.
Qed.

Lemma append_pinv r s s' : pinv s -> step s (EvAppend r) = Some s' -> pinv s'.
Proof using Hrows Hbytes.
  intros [He Ha Hp Hc] H. simpl in H.
  destruct (append_record _ _ _ _ _ _ _) as [o env'] eqn:E. simplify_eq.
  pose proof (append_record_inv _ _ _ _ _ _ _ _ _ He E) as He'.
  unfold append_record in E. split; simpl; [done| | |].
  - etrans; [apply Permutation_app_tail, Ha|]. unfold accounted, sent_records; simpl.
    destruct (currentEnvelope (env s)) as [rows|]; injection E as <- <-; simpl; solve_Permutation.
  - apply Forall_app. split; [done|].
    destruct (currentEnvelope (env s)) as [rows|]; injection E as <- <-; repeat case_decide; by repeat constructor.
  - intros [Hpe Ho]%app_eq_nil.
    destruct (currentEnvelope (env s)) as [rows|] eqn:Hcur; injection E as <- <-; simpl; [|by intros ? [=]].
    intros rows' [= <-]. repeat case_decide; try done.
    split; [lia|]. destruct He' as [Hb _]. simpl in Hb. unfold row_total. lia.
Qed.

Lemma cap_pinv i s s' : pinv s -> step s (EvCap i) = Some s' -> pinv s'.
Proof using Hrows Hbytes.
  intros [He Ha Hp Hc] H. simpl in H. destruct (pending s !! i) as [why|] eqn:Hi; [|done].
  injection H as <-. apply flush_begin_pinv; try done; simpl. by apply Forall_delete.
Qed.

Lemma concat_delete {A} (l : list (list A)) i x :
  l !! i = Some x -> concat l ≡ₚ x ++ concat (delete i l).
Proof.
  intros Hi. apply (delete_Permutation l i x) in Hi as Hp.
  induction l as [|y l IH] in i, Hi, Hp |- *; [done|].
  destruct i as [|i]; simpl in *; [by simplify_eq|].
  rewrite (IH i Hi (delete_Permutation _ _ _ Hi)). solve_Permutation.
Qed.

Lemma send_pinv i s s' : pinv s -> step s (EvSend i) = Some s' -> pinv s'.
Proof using Hrows Hbytes.
  intros [He Ha Hp Hc] H. simpl in H. destruct (inflight s !! i) as [rows|] eqn:Hi; [|done].
  injection H as <-.
  destruct (flush_send_spec mem (Some rows) (env s)) as (H1 & H2 & _ & H3 & H4 & H5 & _).
  revert H1 H2 H3 H4 H5. generalize (flush_send mem (Some rows) (env s)). simpl.
  intros e1 H1 H2 H3 H4 H5. split; simpl; try (by rewrite H1).
  - destruct He as [Hb Hpo]. split; [by rewrite H1, H2|auto].
  - etrans; [exact Ha|]. unfold accounted, sent_records; simpl. rewrite H1, H3, H5, concat_app, fmap_app.
    rewrite (concat_delete _ _ _ Hi). simpl. case_decide as Hr.
    + rewrite Hr. simpl. solve_Permutation.
    + simpl. rewrite app_nil_r, view_records. solve_Permutation.
  - done.
Qed.

Lemma step_pinv s ev s' : pinv s -> step s ev = Some s' -> pinv s'.
Proof using Hrows Hbytes.
  intros Hs H. destruct ev as [|fds|fd| | |r|i|i];
    [..|by eapply append_pinv|by eapply cap_pinv|by eapply send_pinv]; simpl in H;
    pose proof Hs as [He Ha Hp Hc].
  - simplify_eq. unfold handlePollerTick. case_decide; [|done]. by split.
  - case_decide; simplify_eq. unfold handlePollRequest. case_decide as Hcnt; [by split|].
    apply poll_pinv. by split.
  - case_decide as Hz; simplify_eq; [by apply flush_begin_pinv|by split].
  - simplify_eq. by apply flush_begin_pinv.
  - simplify_eq. by apply flush_begin_pinv.
Qed.

Lemma reachable_pinv s : reachable s -> pinv s.
Proof using Hrows Hbytes. induction 1; [apply start_pinv|by eapply step_pinv]. Qed.

Lemma orderly_reachable w s : orderly w s -> reachable s.
Proof. induction 1; [constructor|by eapply reach_step]. Qed.

Lemma take_out_length fd w : fd ∈ w -> glen w = glen (take_out fd w) + 1.
Proof.
  induction w as [|x w IH]; intros H; [by inversion H|]. cbn [take_out]. rewrite glen_cons.
  case_decide as Hx; [lia|]. apply elem_of_cons in H as [->|H]; [done|]. rewrite glen_cons. specialize (IH H). lia.
Qed.

(** While sockets are waited for an envelope is open, and otherwise it has no
    rows that could be lost. *)
Record oinv (w : list Z) (s : PState) : Prop := {
  oi_count : count s = glen w;
  oi_lost : lost s = [] /\ drops (env s) = [];
  oi_open : w <> [] -> is_Some (currentEnvelope (env s));
  oi_idle : w = [] -> pending s = [] /\ default [] (currentEnvelope (env s)) = [] }.

Lemma poll_oinv fds s : oinv [] s -> pinv s ->
  oinv (ready_sockets fds) (let '(s, n) := pollAllNetlinkSockets fds s in with_count n s).
Proof.
  intros [Hc [Hl Hd] _ Hi] [[_ Hp] _ _ _]. destruct (Hi eq_refl) as [Hpe Ho].
  destruct (acquire_spec (env s) Hp) as (Hcu & _ & _ & _ & _ & Hdr & _). split; simpl.
  - done.
  - by rewrite Hl, Ho, Hdr, Hd.
  - rewrite Hcu. by eexists.
  - intros _. by rewrite Hcu.
Qed.
Lemma flush_oinv reason w s : env_inv (env s) -> count s = glen w -> lost s = [] -> drops (env s) = [] ->
  (if reAcquire reason then w <> [] else w = [] /\ pending s = []) -> oinv w (flush_begin reason s).
Proof.
  intros He Hc Hl Hd Hr. destruct (flush_begin_spec reason s He) as (_ & Hcu & _ & Hcnt & Hpe & _ & Hlo & Hdr).
  split; rewrite ?Hcnt, ?Hlo, ?Hdr, ?Hpe, ?Hcu; destruct (reAcquire reason); try done; try by destruct Hr.
Qed.
Lemma orderly_oinv w s : orderly w s -> oinv w s.
Proof using Hrows Hbytes.
  induction 1 as [picks fds|w s ev w' s' Ho IH Hs Ht].
  { unfold start, handlePollRequest. cbn [count]. rewrite decide_False by lia.
    apply poll_oinv; [by split|]. split; try done. }
  pose proof (orderly_reachable _ _ Ho) as Hr. pose proof (reachable_pinv s Hr) as Hpi. pose proof Hpi as [He _ _ _].
  pose proof IH as [Hc [Hl Hd] Hop Hi]. destruct ev as [|fds|fd| | |rec|i|i]; cbn [in_turn] in Ht; simpl in Hs.
  - simplify_eq. unfold handlePollerTick. case_decide; by split.
  - destruct (decide (0 < queued s)); [|done]. injection Hs as <-. unfold handlePollRequest. cbn [count with_queued].
    case_decide as Hcnt; simplify_eq; [by split|].
    assert (w = []) as -> by (destruct w; [done|]; rewrite glen_cons in Hc; pose proof (glen_nonneg w); lia).
    apply poll_oinv; [by split|]. destruct Hpi. by split.
  - apply bind_Some in Ht as (Hfd & _ & Ht). case_guard as Hp; [|done]. injection Ht as <-. pose proof (take_out_length fd w Hfd) as Hlen.
    unfold handleNetlinkerDone in Hs. case_decide as Hz; injection Hs as <-; cbn [count with_count] in Hz.
    + assert (take_out fd w = []) as Hw by (apply nil_length_inv; unfold glen in *; lia). rewrite Hw in *.
      apply flush_oinv; try done. split; [done|]. apply Hp. cbn in Hlen. lia.
    + assert (take_out fd w <> []) as Hw by (intros Hw; rewrite Hw in Hlen; cbn in Hlen; unfold glen in *; cbn in *; lia).
      split; cbn; try done; [lia|]. intros _. apply Hop. intros ->. inversion Hfd.
  - case_guard as Hw; [|done]. injection Ht as <-. injection Hs as <-. subst w. destruct (Hi eq_refl). apply flush_oinv; try done; by split.
  - case_guard as Hw; [|done]. injection Ht as <-. injection Hs as <-. subst w. destruct (Hi eq_refl). apply flush_oinv; try done; by split.
  - case_guard as Hw; [|done]. injection Ht as <-. destruct (Hop Hw) as [rows Hrw].
    destruct (append_record _ _ _ _ _ _ _) as [o env'] eqn:E. injection Hs as <-. unfold append_record in E.
    rewrite Hrw in E. injection E as <- <-. by split.
  - injection Ht as <-. destruct (pending s !! i) as [why|] eqn:Hpi'; [|done]. injection Hs as <-.
    apply flush_oinv; try done. destruct Hpi as [_ _ Hp _]. rewrite Forall_forall in Hp.
    rewrite (Hp why) by (by eapply list_elem_of_lookup_2). intros Hw. destruct (Hi Hw) as [Hpe _]. by rewrite Hpe in Hpi'.
  - injection Ht as <-. destruct (inflight s !! i) as [rows|]; [|done]. injection Hs as <-.
    destruct (flush_send_spec mem (Some rows) (env s)) as (H1 & _ & _ & _ & _ & H5 & _).
    revert H1 H5. generalize (flush_send mem (Some rows) (env s)). intros e1 H1 H5.
    split; cbn [count lost env pending with_inflight with_env]; rewrite ?H1, ?H5; done.
Qed.
End Proofs.

(** C4: under every interleaving of the Poller with the decoders, each record a
    decoder handed over is in exactly one place: the open envelope, an envelope
    in flight, sent, recycled because no envelope was open, or in an envelope
    the next poll replaced; none is duplicated or vanishes. *)
Theorem poller_conserves_records SizeVT SizeTag SizeBytes mem rowsCfg bytesCfg s :
  0 <= rowsCfg -> 0 <= bytesCfg ->
  reachable SizeVT SizeTag SizeBytes mem rowsCfg bytesCfg s ->
  appended s ≡ₚ default [] (currentEnvelope (env s)) ++ concat (inflight s) ++
    (row_record <$> concat (sent (env s))) ++ drops (env s) ++ lost s.
Proof. intros H1 H2 H3. by apply (reachable_pinv _ _ _ _ _ _ H1 H2) in H3 as []. Qed.

(** C36: the byte total the size cap is tested against is always the exact size
    of the open envelope's rows, and the open envelope is within both caps
    unless a decoder has already decided to flush it. *)
Theorem envelope_within_caps SizeVT SizeTag SizeBytes mem rowsCfg bytesCfg s rows :
  0 <= rowsCfg -> 0 <= bytesCfg ->
  reachable SizeVT SizeTag SizeBytes mem rowsCfg bytesCfg s ->
  currentEnvelope (env s) = Some rows ->
  currentEnvelopeBytes (env s) =
    foldr (fun r n => envelopeRowBytes SizeVT SizeTag SizeBytes r + n) 0 rows /\
  (pending s = [] -> glen rows < rowThreshold rowsCfg /\
     currentEnvelopeBytes (env s) <= byteThreshold bytesCfg).
Proof.
  intros H1 H2 H3 Hc. apply (reachable_pinv _ _ _ _ _ _ H1 H2) in H3 as [[Hb _] _ _ Hcap].
  rewrite Hc in Hb. split; [done|]. intros Hp. rewrite Hb. by apply (Hcap Hp).
Qed.


(** A concrete size function and the interleavings the findings describe. *)
Definition flat_size (_ : XtcpFlatRecord) : Z := 100.
Definition tag_size (_ : Z) : Z := 1.
Definition bytes_size (n : Z) : Z := n + 2.
Definition no_mem (_ : nat) : bytes := [].
Definition rec_no (n : Z) : XtcpFlatRecord := set_num RecordCounter n zeroRecord.

(** A decoder fills the envelope (cap 2 rows), the poll times out before it
    flushes, it flushes and goes on decoding; its socket's done signal arrives
    and the next poll starts. *)
Definition late_cap_trace : list event :=
  [ EvAppend (rec_no 1); EvAppend (rec_no 2); EvTimeout; EvCap 0; EvAppend (rec_no 3);
    EvSend 0; EvDone 3; EvTick; EvPollRequest [3] ].

(** The poll times out, the next poll starts, and the first dump's done signal
    arrives: the new cycle ends although its dump has just begun. *)
Definition late_done_trace : list event :=
  [ EvTimeout; EvTick; EvPollRequest [3]; EvDone 3; EvAppend (rec_no 1) ].

Definition run_example (evs : list event) : option PState :=
  run flat_size tag_size bytes_size no_mem 2 0 (start [] [3]) evs.

(** A cap flush that runs after the cycle's terminal flush opens a new
    envelope, and the rows appended to it are neither sent nor counted as
    dropped: the next poll replaces the envelope. *)
Theorem cap_flush_after_timeout_loses_rows :
  exists s, run_example late_cap_trace = Some s /\
    lost s = [rec_no 3] /\ drops (env s) = [] /\ inflight s = [] /\
    concat (sent (env s)) = view no_mem <$> [rec_no 1; rec_no 2].
Proof. eexists. split; [vm_compute; reflexivity|]. vm_compute. split_and!; reflexivity. Qed.

(** A done signal of a dump that timed out ends the following cycle before
    that cycle's dump has signalled: its records are dropped. *)
Theorem late_done_ends_next_cycle :
  exists s, run_example late_done_trace = Some s /\
    polled s = [3; 3] /\ currentEnvelope (env s) = None /\ drops (env s) = [rec_no 1].
Proof. eexists. split; [vm_compute; reflexivity|]. done. Qed.

(** A cycle that ends regularly, for the witnesses. *)
Definition good_trace : list event :=
  [ EvAppend (rec_no 1); EvDone 3; EvSend 0; EvTick; EvPollRequest [3]; EvAppend (rec_no 2) ].
Definition good_state : PState := default (start [] []) (run_example good_trace).
Lemma good_state_run : run_example good_trace = Some good_state.
Proof. vm_compute. reflexivity. Qed.
Lemma run_example_reachable evs s :
  run_example evs = Some s -> reachable flat_size tag_size bytes_size no_mem 2 0 s.
Proof. intros H. by eapply reachable_run; [apply reach_start|]. Qed.
Lemma good_state_reachable : reachable flat_size tag_size bytes_size no_mem 2 0 good_state.
Proof. exact (run_example_reachable _ _ good_state_run). Qed.

Lemma poller_conserves_records_witness :
  [rec_no 1; rec_no 2] ≡ₚ
    default [] (currentEnvelope (env good_state)) ++ concat (inflight good_state) ++
      (row_record <$> concat (sent (env good_state))) ++ drops (env good_state) ++ lost good_state.
Proof.
  apply (poller_conserves_records flat_size tag_size bytes_size no_mem 2 0 good_state);
    [lia|lia|exact good_state_reachable].
Defined.

Lemma envelope_within_caps_witness :
  currentEnvelopeBytes (env good_state) = 103 /\ currentEnvelopeBytes (env good_state) <= byteThreshold 0.
Proof.
  destruct (envelope_within_caps flat_size tag_size bytes_size no_mem 2 0 good_state [rec_no 2]
    ltac:(lia) ltac:(lia) good_state_reachable ltac:(reflexivity)) as [Hb Hcap].
  split; [exact Hb|]. apply Hcap. reflexivity.
Defined.

(** Two sockets; the envelope is full after two rows. *)
Definition two_trace : list event :=
  [ EvAppend (rec_no 1); EvDone 4; EvAppend (rec_no 2); EvCap 0; EvAppend (rec_no 3); EvSend 0; EvDone 3; EvSend 0 ].
Fixpoint orderly_run (w : list Z) (s : PState) (evs : list event) : option (list Z * PState) :=
  match evs with
  | [] => Some (w, s)
  | ev :: evs =>
      w' ← in_turn w s ev;
      s' ← step flat_size tag_size bytes_size no_mem 2 0 s ev; orderly_run w' s' evs
  end.
Lemma orderly_run_orderly evs w s w' s' : orderly flat_size tag_size bytes_size no_mem 2 0 w s ->
  orderly_run w s evs = Some (w', s') -> orderly flat_size tag_size bytes_size no_mem 2 0 w' s'.
Proof.
  revert w s. induction evs as [|ev evs IH]; intros w s Ho H; cbn [orderly_run] in H; [by simplify_eq|].
  apply bind_Some in H as (w1 & Hw & H). apply bind_Some in H as (s1 & Hs & H). eapply IH; [|exact H]. by eapply orderly_step.
Qed.
Definition two_state : PState := from_option snd (start [] []) (orderly_run [3; 4] (start [] [3; 4]) two_trace).
Lemma two_state_orderly : orderly flat_size tag_size bytes_size no_mem 2 0 [] two_state.
Proof.
  assert (fst <$> orderly_run [3; 4] (start [] [3; 4]) two_trace = Some []) as G by (vm_compute; reflexivity).
  unfold two_state. destruct (orderly_run _ _ _) as [[w s]|] eqn:E; [|discriminate G]. injection G as ->. cbn [from_option snd].
  eapply orderly_run_orderly; [|exact E]. apply (orderly_start _ _ _ _ _ _ [] [3; 4]).
Qed.

(** With a jitter percentage up to 100 and a frequency whose product with
    it fits 63 bits, the next poll interval stays positive and within half the
    jitter window of the configured frequency, and the start-up delay is below
    the window. *)
Theorem poll_interval_bounds freq pct rnd :
  0 < freq -> 0 <= pct <= 100 -> freq * pct < 2 ^ 63 -> freq < 2 ^ 63 ->
  let window := freq * pct / 100 in
  let interval := Timing.computePollInterval freq pct (Timing.JitterDuration rnd) in
  let delay := Timing.computeStartupDelay freq pct (Timing.JitterDuration rnd) in
  0 < interval /\ freq - window / 2 <= interval <= freq + (window + 1) / 2 /\
  0 <= delay <= Z.max 0 (window - 1).
Proof.
  intros Hf Hp Hb Hb2. destruct (Timing.ScalePct_bound freq pct Hf Hp Hb) as [Hs Hr].
  unfold Timing.computePollInterval, Timing.computeStartupDelay. rewrite Hs in *. cbv zeta.
  set (w := freq * pct / 100) in *. case_decide as Hw.
  - assert (w = 0) as -> by lia. change (Timing.JitterDuration rnd 0) with 0.
    change (0 / 2) with 0. change ((0 + 1) / 2) with 0. lia.
  - pose proof (Timing.JitterDuration_bound rnd w ltac:(lia)).
    rewrite Z.quot_div_nonneg by lia.
    pose proof (Z.div_mod w 2 ltac:(lia)). pose proof (Z.mod_pos_bound w 2 ltac:(lia)).
    pose proof (Z.div_mod (w + 1) 2 ltac:(lia)). pose proof (Z.mod_pos_bound (w + 1) 2 ltac:(lia)).
    lia.
Qed.

Lemma poll_interval_bounds_witness :
  0 < Timing.computePollInterval 10000000000 20 (Timing.JitterDuration 12345).
Proof.
  apply (poll_interval_bounds 10000000000 20 12345); lia.
Defined.
