(* ===== verification/Deserialize.v ===== *)
(** The packet decoder of pkg/xtcp (deserialize.go): one received netlink packet
    is walked message by message; each inet_diag message becomes a record that
    is decoded, enriched, streamed and appended to the envelope. *)

From S2P Require Import Prelude NlHeaders FlatRecord AttrDecoder InetDiag TcpInfo Deserializers.
From S2P Require Import Enrich Envelope.

(** ** Configuration and arguments *)

(** The part of the daemon the decoder reads. *)
Record XTCP := mkXTCP {
  hostname : string;
  cfgDaemonVersion : string;
  cfgLabel : string;
  cfgTag : string;
  cfgLocation : string;
  Modulus : Z;
  EnvelopeFlushThresholdRows : Z;
  EnvelopeFlushThresholdBytes : Z;
  registry : Registry;
  enrichers : Enrichers }.

(** [NLPacket] is the slice of the packet buffer that was received;
    [timestampNs] is the poll time found for [fd] (or the current time). *)
Record DeserializeArgs := mkArgs {
  ns : string;
  fd : Z;
  inode : Z;
  NLPacket : gslice;
  timestampNs : Z;
  netlinkerId : Z }.

Definition XtcpFlatRecordSchemaVersion : Z := 2.

(** The columns stamped on every record before it is decoded. *)
Definition stamp_nums (d : DeserializeArgs) (n : Z) : list (NumField * Z) :=
  [ (SchemaVersion, XtcpFlatRecordSchemaVersion); (TimestampNs, timestampNs d);
    (NetnsInode, inode d); (RecordCounter, n); (SocketFd, uint64 (fd d));
    (NetlinkerId, uint64 (netlinkerId d)) ].
Definition stamp_strs (x : XTCP) (d : DeserializeArgs) : list (StrField * string) :=
  [ (Hostname, hostname x); (DaemonVersion, cfgDaemonVersion x); (Label, cfgLabel x);
    (Tag, cfgTag x); (Location, cfgLocation x); (Netns, ns d) ].
Definition stamp_record (x : XTCP) (d : DeserializeArgs) (n : Z) (r : XtcpFlatRecord)
    : XtcpFlatRecord :=
  set_nums (stamp_nums d n) (set_strs (stamp_strs x d) r).

(** ** Attributes *)

Definition DeserializeAttribute (reg : Registry) (ty : Z) (buf : bytes) (r : XtcpFlatRecord)
    : go (XtcpFlatRecord * option err) :=
  match RTATypeDeserializer reg !! ty with
  | Some Deserializer => Deserializer buf r
  | None => Some (r, None)
  end.

(** The loop over [data[offset:end]].  An attribute's error is counted and the
    walk goes on.  Each iteration consumes at least 4 bytes. *)
Fixpoint DeserializeAttributes_loop (fuel : nat) (reg : Registry) (data : bytes)
    (offset end_ : Z) (r : XtcpFlatRecord) : go XtcpFlatRecord :=
  match fuel with
  | O => None
  | S fuel =>
      if decide (offset < end_) then
        let bufEnd := glen data in
        if decide (offset + RTAttrSizeCst > end_ \/ offset + RTAttrSizeCst > bufEnd) then Some r else
        hdr ← slice data offset (offset + RTAttrSizeCst);
        '(rta, _, errD) ← DeserializeRTAttr hdr (mkRTAttr 0 0);
        match errD with
        | Some _ => Some r
        | None =>
            let offset := offset + RTAttrSizeCst in
            let bodyLen := rta_Len rta - RTAttrSizeCst + FourByteAlignPadding (rta_Len rta) in
            if decide (bodyLen < 0) then Some r else
            let e := offset + bodyLen in
            let e := if decide (e > end_ \/ e > bufEnd)
                     then (if decide (end_ < bufEnd) then end_ else bufEnd) else e in
            buf ← slice data offset e;
            '(r, _) ← DeserializeAttribute reg (rta_Type rta) buf r;
            DeserializeAttributes_loop fuel reg data (offset + bodyLen) end_ r
        end
      else Some r
  end.

Definition DeserializeAttributes (reg : Registry) (data : bytes) (offset end_ : Z)
    (r : XtcpFlatRecord) : go XtcpFlatRecord :=
  DeserializeAttributes_loop (S (length data)) reg data offset end_ r.

(** ** One inet_diag message *)

Section Decoder.
Context (SizeVT : XtcpFlatRecord -> Z) (SizeTag SizeBytes : Z -> Z).
Context (x : XTCP) (mem : nat -> bytes).

(** The bytes of the packet. *)
Definition packet (d : DeserializeArgs) : bytes :=
  slice_bytes (mem (sl_buf (NLPacket d))) (NLPacket d).

(** The decoding half of processInetDiagRecord: the record filled, and the
    offset of the next message; [None] in the pair is the truncated message,
    which consumes the rest of the packet and no record. *)
Definition decode_message (d : DeserializeArgs) (r : XtcpFlatRecord) (nlhLen offset : Z)
    : go (option XtcpFlatRecord * Z) :=
  let data := packet d in
  let bufEnd := glen data in
  if decide (offset + InetDiagMsgSizeCst > bufEnd) then Some (None, bufEnd) else
  body ← slice data offset (offset + InetDiagMsgSizeCst);
  '(r, _) ← DeserializeInetDiagMsgXTCP
              (reslice (NLPacket d) offset (offset + InetDiagMsgSizeCst)) body r;
  let offset := offset + InetDiagMsgSizeCst in
  let attrLen := nlhLen - NlMsgHdrSizeCst - InetDiagMsgSizeCst in
  let attrLen := if decide (attrLen < 0) then 0 else attrLen in
  let attrLen := if decide (offset + attrLen > bufEnd) then bufEnd - offset else attrLen in
  r ← DeserializeAttributes (registry x) data offset (offset + attrLen) r;
  r ← applyEnrichment mem (enrichers x) r;
  let r := match cgroupResolver (enrichers x) with
           | Some resolve =>
               if String.eqb (str r ContainerId) "" && negb (num r InetDiagCgroupId =? 0)
               then let '(cid, rt) := resolve (num r InetDiagCgroupId) in
                    set_strs [ (ContainerId, cid); (ContainerRuntime, rt) ] r
               else r
           | None => r
           end in
  Some (Some r, offset + attrLen).

(** The rest: stream the record, append it to the envelope, and flush the
    envelope when a cap was reached. *)
Definition deliver (r : XtcpFlatRecord) (s : Env) : Env :=
  let s := stream_record r s in
  let '(o, s) := append_record SizeVT SizeTag SizeBytes (EnvelopeFlushThresholdRows x)
                   (EnvelopeFlushThresholdBytes x) r s in
  match o with
  | Some why => flushEnvelope mem why s
  | None => s
  end.

Definition processInetDiagRecord (d : DeserializeArgs) (r : XtcpFlatRecord) (nlhLen offset : Z)
    (s : Env) : go (Z * Env) :=
  '(o, offset) ← decode_message d r nlhLen offset;
  Some (offset, match o with Some r => deliver r s | None => s end).

(** [skipUnknownNlmsg]: the new offset, [None] when the declared length is bad. *)
Definition skipUnknownNlmsg (nlhLen offset end_ : Z) : option Z :=
  let bodyLen := nlhLen - NlMsgHdrSizeCst in
  if decide (bodyLen < 0 \/ offset + bodyLen > end_) then None else Some (offset + bodyLen).

(** ** The packet *)

Fixpoint Deserialize_loop (fuel : nat) (d : DeserializeArgs) (offset n : Z) (s : Env)
    : go (Z * option err * Env) :=
  match fuel with
  | O => None
  | S fuel =>
      let data := packet d in
      let end_ := glen data in
      if decide (offset < end_) then
        if decide (end_ - offset < NlMsgHdrSizeCst) then Some (n, Some ErrParseDeserializeNlMsgHdr, s)
        else
        skip ← (if decide (Modulus x = 1) then Some false
                else if decide (Modulus x = 0) then None (* integer divide by zero *)
                else Some (bool_decide (n mod Modulus x <> 1)));
        if skip : bool then Deserialize_loop fuel d offset (n + 1) s else
        let '(r, s) := get_record s in
        let r := stamp_record x d n r in
        hdr ← slice data offset (offset + NlMsgHdrSizeCst);
        '(nlh, _, errD) ← DeserializeNlMsgHdr hdr (mkNlMsgHdr 0 0 0 0 0);
        match errD with
        | Some _ => Some (n, Some ErrParseDeserializeNlMsgHdr, put_record r s)
        | None =>
            let offset := offset + NlMsgHdrSizeCst in
            if decide (nlh_Type nlh = NlMsgHdrTypeDoneCst) then Some (n, None, put_record r s) else
            if decide (nlh_Type nlh <> NlMsgHdrTypeInetDiagCst) then
              let s := put_record r s in
              match skipUnknownNlmsg (nlh_Len nlh) offset end_ with
              | None => Some (n, None, s)
              | Some advance => Deserialize_loop fuel d advance (n + 1) s
              end
            else
              '(offset, s) ← processInetDiagRecord d r (nlh_Len nlh) offset s;
              Deserialize_loop fuel d offset (n + 1) s
        end
      else Some (n, None, s)
  end.

(** Every iteration either consumes 16 bytes or more, or is one of fewer than
    [Modulus] that are skipped in a row. *)
Definition Deserialize_fuel (d : DeserializeArgs) : nat :=
  (S (length (packet d)) * S (Z.to_nat (Modulus x)))%nat.

Definition Deserialize (d : DeserializeArgs) (s : Env) : go (Z * option err * Env) :=
  Deserialize_loop (Deserialize_fuel d) d 0 0 s.
End Decoder.
