(* ===== verification/DeserializeSpec.v ===== *)
(** What one received packet means, and that Deserialize.v implements it: the
    messages of the packet in order ([walk]), the record each inet_diag message
    stands for ([message_record]), and the refinement from the pooled, stateful
    decoder to these. *)

From S2P Require Import Prelude NlHeaders FlatRecord AttrDecoder InetDiag TcpInfo Deserializers.
From S2P Require Import Enrich Envelope Deserialize.

(** ** The messages of a packet *)

Inductive stop := StopEnd | StopTruncated | StopDone | StopBadLen.

#[export] Instance stop_eq_dec : EqDecision stop.
Proof. solve_decision. Defined.

(** Where the message after an inet_diag message starts; [off] is the end of
    its netlink header. *)
Definition next_offset (len off end_ : Z) : Z :=
  if decide (off + InetDiagMsgSizeCst > end_) then end_ else
  Z.min end_ (off + InetDiagMsgSizeCst + Z.max 0 (len - NlMsgHdrSizeCst - InetDiagMsgSizeCst)).

(** The messages the decoder visits, each with the offset after its header, and
    why it stops.  [None]: out of fuel. *)
Fixpoint walk (fuel : nat) (data : bytes) (off : Z) : option (list (Z * NlMsgHdr) * stop) :=
  match fuel with
  | O => None
  | S fuel =>
      let end_ := glen data in
      if decide (off < end_) then
        if decide (end_ - off < NlMsgHdrSizeCst) then Some ([], StopTruncated) else
        let h := nlh_at data off in
        let off := off + NlMsgHdrSizeCst in
        if decide (nlh_Type h = NlMsgHdrTypeDoneCst) then Some ([], StopDone) else
        match (if decide (nlh_Type h = NlMsgHdrTypeInetDiagCst)
               then Some (next_offset (nlh_Len h) off end_)
               else skipUnknownNlmsg (nlh_Len h) off end_) with
        | None => Some ([], StopBadLen)
        | Some next =>
            '(l, why) ← walk fuel data next; Some ((off, h) :: l, why)
        end
      else Some ([], StopEnd)
  end.

Definition messages (data : bytes) : list (Z * NlMsgHdr) * stop :=
  default ([], StopEnd) (walk (S (length data)) data 0).

(** ** Shared lemmas *)

Lemma next_offset_bound len off end_ :
  off <= end_ -> off <= next_offset len off end_ <= end_.
Proof. unfold next_offset, InetDiagMsgSizeCst. intros. case_decide; lia. Qed.

Lemma skipUnknownNlmsg_bound len off end_ next :
  skipUnknownNlmsg len off end_ = Some next -> off <= next <= end_.
Proof. unfold skipUnknownNlmsg. intros. case_decide; simplify_eq. lia. Qed.

(** The walk ends: every message is at least 16 bytes. *)
Lemma messages_total fuel data off :
  0 <= off -> (Z.to_nat (glen data - off) < fuel)%nat -> is_Some (walk fuel data off).
Proof.
  revert off. induction fuel as [|fuel IH]; intros off Ho Hf; [lia|]. simpl.
  case_decide; [|by eexists]. case_decide; [by eexists|]. case_decide; [by eexists|].
  unfold NlMsgHdrSizeCst in *.
  destruct (if decide _ then _ else _) as [next|] eqn:E; [|by eexists].
  assert (off + 16 <= next <= glen data).
  { case_decide; simplify_eq; [apply next_offset_bound; lia|by eapply skipUnknownNlmsg_bound]. }
  destruct (IH next) as [[l why] ->]; [lia|lia|]. by eexists.
Qed.

Lemma messages_eq data : walk (S (length data)) data 0 = Some (messages data).
Proof.
  unfold messages. destruct (messages_total (S (length data)) data 0) as [m Hm]; [lia|unfold glen; lia|].
  by rewrite Hm.
Qed.

(** The offsets visited lie inside the packet. *)
Lemma walk_offsets fuel data off l why :
  0 <= off -> walk fuel data off = Some (l, why) ->
  Forall (fun p => 0 <= p.1 <= glen data) l.
Proof.
  revert off l. induction fuel as [|fuel IH]; intros off l Ho H; [done|]. simpl in H.
  unfold NlMsgHdrSizeCst in *.
  repeat (case_decide; simplify_eq; try apply Forall_nil_2).
  - destruct (walk fuel _ _) as [[l' w']|] eqn:E; simplify_eq/=.
    apply Forall_cons_2; [simpl; lia|]. eapply IH; [|exact E].
    pose proof (next_offset_bound (le_at 4 data off) (off + 16) (glen data) ltac:(lia)). lia.
  - destruct (skipUnknownNlmsg _ _ _) as [next|] eqn:Es; simplify_eq/=; [|apply Forall_nil_2].
    destruct (walk fuel _ _) as [[l' w']|] eqn:E; simplify_eq/=.
    apply Forall_cons_2; [simpl; lia|]. eapply IH; [|exact E].
    apply skipUnknownNlmsg_bound in Es. lia.
Qed.

(** ** Attributes never panic, and only fill attribute columns *)

Definition registry_ok (reg : Registry) : Prop :=
  forall ty f, RTATypeDeserializer reg !! ty = Some f -> contract f.

Lemma DeserializeAttribute_total reg ty buf r :
  registry_ok reg ->
  exists r' e, DeserializeAttribute reg ty buf r = Some (r', e) /\
    same_outside attribute_cols [] r r'.
Proof.
  intros Hreg. unfold DeserializeAttribute. destruct (_ !! ty) as [f|] eqn:E.
  - destruct (Hreg _ _ E) as (min & cols & Hd & Hsub).
    destruct (ad_total buf r) as (r' & e & Hr). exists r', e. split; [done|].
    destruct (ad_rest _ _ _ _ Hr) as (Hs & H1 & H2). split_and!; [|by rewrite Hs|done..].
    intros c Hc. eapply ad_frame; [exact Hr|]. auto.
  - exists r, None. by split.
Qed.

Lemma DeserializeAttribute_proper reg ty buf r1 r2 r1' e :
  registry_ok reg -> r1 ≡ r2 -> DeserializeAttribute reg ty buf r1 = Some (r1', e) ->
  exists r2', DeserializeAttribute reg ty buf r2 = Some (r2', e) /\ r1' ≡ r2'.
Proof.
  intros Hreg Heq. unfold DeserializeAttribute. destruct (_ !! ty) as [f|] eqn:E.
  - destruct (Hreg _ _ E) as (min & cols & Hd & Hsub). intros Hr.
    destruct (ad_proper _ _ _ _ _ Heq Hr) as (r2' & ? & ?). eauto.
  - intros [= <- <-]. eauto.
Qed.

(** One iteration of the attribute loop, as an equation. *)
Lemma attributes_step fuel reg data off end_ r :
  0 <= off -> off + 4 <= end_ -> off + 4 <= glen data ->
  let len := le_at 2 data off in
  let bodyLen := len - 4 + FourByteAlignPadding len in
  DeserializeAttributes_loop (S fuel) reg data off end_ r =
    if decide (bodyLen < 0) then Some r else
    let e := Z.min (off + 4 + bodyLen) (Z.min end_ (glen data)) in
    '(r, _) ← DeserializeAttribute reg (le_at 2 data (off + 2))
                (take (Z.to_nat (e - (off + 4))) (drop (Z.to_nat (off + 4)) data)) r;
    DeserializeAttributes_loop fuel reg data (off + 4 + bodyLen) end_ r.
Proof.
  intros H1 H2 H3. cbn [DeserializeAttributes_loop]. unfold RTAttrSizeCst.
  rewrite decide_True, decide_False by lia. rewrite slice_ok by lia. cbn [mbind option_bind].
  rewrite DeserializeRTAttr_ok by (unfold RTAttrSizeCst; len_lia). cbn [mbind option_bind rta_Len rta_Type].
  rewrite !le_at_slice, Z.add_0_r by lia.
  case_decide; [done|]. cbv zeta.
  replace (if decide _ then _ else _) with
    (Z.min (off + 4 + (le_at 2 data off - 4 + FourByteAlignPadding (le_at 2 data off)))
       (Z.min end_ (glen data))) by (repeat case_decide; lia).
  rewrite slice_ok by lia. done.
Qed.

Lemma attributes_stop fuel reg data off end_ r :
  off >= end_ \/ off + 4 > end_ \/ off + 4 > glen data ->
  DeserializeAttributes_loop (S fuel) reg data off end_ r = Some r.
Proof.
  intros H. cbn [DeserializeAttributes_loop]. unfold RTAttrSizeCst.
  case_decide; [|done]. by rewrite decide_True by lia.
Qed.

Lemma attributes_total fuel reg data off end_ r :
  registry_ok reg -> 0 <= off -> (Z.to_nat (end_ - off) < fuel)%nat ->
  exists r', DeserializeAttributes_loop fuel reg data off end_ r = Some r' /\
    same_outside attribute_cols [] r r'.
Proof.
  intros Hreg. revert off r. induction fuel as [|fuel IH]; intros off r Ho Hf; [lia|].
  destruct (decide (off + 4 <= end_ /\ off + 4 <= glen data)) as [[H1 H2]|H].
  - rewrite attributes_step by lia. case_decide; [by eexists|]. cbv zeta.
    edestruct (DeserializeAttribute_total reg) as (r1 & e & -> & Hr1); [done|].
    cbn [mbind option_bind].
    destruct (IH (off + 4 + (le_at 2 data off - 4 + FourByteAlignPadding (le_at 2 data off))) r1)
      as (r2 & -> & Hr2); [lia|lia|].
    eexists; split; [done|]. by etrans.
  - rewrite attributes_stop by lia. by eexists.
Qed.

Lemma attributes_proper fuel reg data off end_ r1 r2 r1' :
  registry_ok reg -> 0 <= off -> r1 ≡ r2 ->
  DeserializeAttributes_loop fuel reg data off end_ r1 = Some r1' ->
  exists r2', DeserializeAttributes_loop fuel reg data off end_ r2 = Some r2' /\ r1' ≡ r2'.
Proof.
  intros Hreg. revert off r1 r2. induction fuel as [|fuel IH]; intros off r1 r2 Ho Heq H; [done|].
  destruct (decide (off + 4 <= end_ /\ off + 4 <= glen data)) as [[H1 H2]|Hs].
  - rewrite attributes_step in H by lia. rewrite attributes_step by lia.
    case_decide; [simplify_eq; by eexists|]. cbv zeta in *.
    apply bind_Some in H as ([r e] & Ha & H).
    destruct (DeserializeAttribute_proper _ _ _ _ _ _ _ Hreg Heq Ha) as (r' & -> & Heq').
    cbn [mbind option_bind]. eapply IH; [lia|exact Heq'|exact H].
  - rewrite attributes_stop in * by lia. simplify_eq. by eexists.
Qed.

(** ** One message *)

Section Message.
Context (x : XTCP) (mem : nat -> bytes) (d : DeserializeArgs) (Hreg : registry_ok (registry x)).
Abbreviation data := (packet mem d).
Abbreviation decode_message := (decode_message x mem d).

(** Columns of a record that decoding and enriching may set. *)
Definition decoded_nums : list NumField := inet_diag_msg_cols ++ attribute_cols ++ enrich_nums.

(** The record an inet_diag message fills, before enrichment. *)
Definition message_body (r : XtcpFlatRecord) (off : Z) : XtcpFlatRecord :=
  set_addrs (reslice (NLPacket d) (off + 8) (off + 24)) (reslice (NLPacket d) (off + 24) (off + 40))
    (set_nums (inet_diag_msg_values (take 72 (drop (Z.to_nat off) data))) r).

(** The container fallback, the last step of decoding. *)
Definition cgroup_fallback (E : Enrichers) (r : XtcpFlatRecord) : XtcpFlatRecord :=
  match cgroupResolver E with
  | Some resolve =>
      if String.eqb (str r ContainerId) "" && negb (num r InetDiagCgroupId =? 0)
      then let '(cid, rt) := resolve (num r InetDiagCgroupId) in
           set_strs [ (ContainerId, cid); (ContainerRuntime, rt) ] r
      else r
  | None => r
  end.

(** The attributes of a message end where the next message starts. *)
Lemma decode_message_eq r len off :
  0 <= off -> off + InetDiagMsgSizeCst <= glen data ->
  decode_message r len off =
    (r ← DeserializeAttributes (registry x) data (off + InetDiagMsgSizeCst)
           (next_offset len off (glen data)) (message_body r off);
     r ← applyEnrichment mem (enrichers x) r;
     Some (Some (cgroup_fallback (enrichers x) r), next_offset len off (glen data))).
Proof.
  intros Ho Hl. unfold Deserialize.decode_message. rewrite decide_False by lia.
  rewrite slice_ok by (unfold InetDiagMsgSizeCst in *; lia). cbn [mbind option_bind].
  rewrite DeserializeInetDiagMsgXTCP_ok by (unfold InetDiagMsgSizeCst in *; len_lia).
  cbn [mbind option_bind]. cbv zeta.
  replace (off + InetDiagMsgSizeCst + (if decide (_ + (if decide _ then _ else _) > _) then _ else _))
    with (next_offset len off (glen data)).
  2: { unfold next_offset. repeat case_decide; lia. }
  unfold message_body, InetDiagMsgSizeCst. replace (off + 72 - off) with 72 by lia.
  unfold reslice; simpl. rewrite <- !Z.add_assoc.
  replace (off + 24 - (off + 8)) with (24 - 8) by lia.
  by replace (off + 40 - (off + 24)) with (40 - 24) by lia.
Qed.

Lemma cgroup_fallback_frame E r : same_outside enrich_nums enrich_strs r (cgroup_fallback E r).
Proof.
  unfold cgroup_fallback. repeat case_match; try reflexivity. apply same_outside_strs. in_list.
Qed.
#[local] Instance cgroup_fallback_proper E : Proper ((≡) ==> (≡)) (cgroup_fallback E).
Proof.
  intros r1 r2 H. unfold cgroup_fallback.
  rewrite (proj1 (proj2 H) ContainerId), (proj1 H InetDiagCgroupId).
  repeat case_match; try done. by rewrite H.
Qed.

(** Decoding a message never panics, always ends at [next_offset], and yields a
    record unless the message body is cut off; the record has the message's
    addresses and differs from the one passed in only in decoded columns. *)
Lemma decode_message_spec r len off :
  0 <= off <= glen data ->
  exists o, decode_message r len off = Some (o, next_offset len off (glen data)) /\
    if decide (off + InetDiagMsgSizeCst > glen data) then o = None else
    exists r', o = Some r' /\ same_outside decoded_nums enrich_strs (message_body r off) r'.
Proof using Hreg.
  intros Ho. case_decide as Hl.
  { exists None. split; [|done]. unfold Deserialize.decode_message, next_offset.
    by rewrite !decide_True. }
  rewrite decode_message_eq by lia.
  destruct (attributes_total (S (length data)) (registry x) data (off + InetDiagMsgSizeCst)
    (next_offset len off (glen data)) (message_body r off)) as (r1 & Hr1 & Hs1); [done| | |].
  { unfold InetDiagMsgSizeCst; lia. }
  { pose proof (next_offset_bound len off (glen data)). unfold InetDiagMsgSizeCst, glen in *. lia. }
  unfold DeserializeAttributes. rewrite Hr1. cbn [mbind option_bind].
  destruct (applyEnrichment_frame mem (enrichers x) r1) as (r2 & -> & Hs2). cbn [mbind option_bind].
  eexists. split; [done|]. eexists. split; [done|].
  etrans; [eapply same_outside_mono; [| |exact Hs1]; in_list|].
  etrans; (eapply same_outside_mono; [| |first [exact Hs2|apply cgroup_fallback_frame]]; in_list).
Qed.

Lemma decode_message_proper r1 r2 len off o off' :
  0 <= off -> r1 ≡ r2 -> decode_message r1 len off = Some (o, off') ->
  exists o', decode_message r2 len off = Some (o', off') /\ option_Forall2 (≡) o o'.
Proof using Hreg.
  intros Ho Heq H. destruct (decide (off + InetDiagMsgSizeCst <= glen data)) as [Hl|Hl].
  - rewrite decode_message_eq in H by lia. rewrite decode_message_eq by lia.
    apply bind_Some in H as (r & Ha & (r' & He & [= <- <-])%bind_Some).
    assert (message_body r1 off ≡ message_body r2 off) as Hb.
    { unfold message_body. destruct (set_nums_proper (inet_diag_msg_values
        (take 72 (drop (Z.to_nat off) data))) _ _ Heq) as (?&?&?&?). by split. }
    eapply attributes_proper in Ha as (s & Hs & Heq'); [|done|unfold InetDiagMsgSizeCst; lia|exact Hb].
    unfold DeserializeAttributes. rewrite Hs. cbn [mbind option_bind].
    destruct (applyEnrichment_proper _ _ _ _ _ Heq' He) as (s' & -> & Heq''). cbn [mbind option_bind].
    eexists. split; [done|]. constructor. by rewrite Heq''.
  - unfold Deserialize.decode_message in *. rewrite decide_True in * by lia. simplify_eq.
    eexists. split; [done|]. constructor.
Qed.
End Message.

(** ** The packet *)

(** A pooled record is zero but for columns that the next use overwrites. *)
Definition clean (r : XtcpFlatRecord) : Prop :=
  same_outside [SchemaVersion; TimestampNs; NetnsInode; RecordCounter; SocketFd; NetlinkerId]
    [Hostname; DaemonVersion; Label; Tag; Location; Netns] zeroRecord r.

Section Packet.
Context (SizeVT : XtcpFlatRecord -> Z) (SizeTag SizeBytes : Z -> Z).
Context (x : XTCP) (mem : nat -> bytes) (d : DeserializeArgs).
Context (Hreg : registry_ok (registry x)) (Hmod : 1 <= Modulus x).
Abbreviation data := (packet mem d).
Abbreviation M := (Modulus x).
Abbreviation loop := (Deserialize_loop SizeVT SizeTag SizeBytes x mem).

(** The counter stamped on the [i]-th message visited. *)
Definition counter (m i : Z) : Z := if decide (m = 1) then i else i * m + 1.

(** The record of a message: decoded into a zero record. *)
Definition message_record (n : Z) (m : Z * NlMsgHdr) : option XtcpFlatRecord :=
  '(o, _) ← decode_message x mem d (stamp_record x d n zeroRecord) (nlh_Len m.2) m.1; o.

(** The records of the messages from index [i] on. *)
Fixpoint packet_records (i : Z) (msgs : list (Z * NlMsgHdr)) : list XtcpFlatRecord :=
  match msgs with
  | [] => []
  | m :: msgs =>
      (if decide (nlh_Type m.2 = NlMsgHdrTypeInetDiagCst)
       then option_list (message_record (counter M i) m) else []) ++
      packet_records (i + 1) msgs
  end.

Definition stop_err (why : stop) : option err :=
  match why with StopTruncated => Some ErrParseDeserializeNlMsgHdr | _ => None end.

(** *** Pooled records *)

Lemma clean_zero : clean zeroRecord.
Proof. done. Qed.

Lemma clean_stamp n r : clean r -> clean (stamp_record x d n r).
Proof.
  unfold clean. intros Hr. etrans; [exact Hr|]. unfold stamp_record.
  etrans; [apply (same_outside_strs _ _ (stamp_strs x d)); by intros f Hf|]. apply same_outside_nums. by intros f Hf.
Qed.

Lemma stamp_clean n r : clean r -> stamp_record x d n r ≡ stamp_record x d n zeroRecord.
Proof.
  intros (Hn & Hs & H1 & H2). unfold stamp_record.
  assert (forall f, f ∈ (stamp_nums d n).*1 \/ f ∉ (stamp_nums d n).*1) as Hdec
    by (intros f; destruct (decide (f ∈ (stamp_nums d n).*1)); auto).
  split_and!.
  - intros f. destruct (Hdec f) as [Hf|Hf].
    + apply list_elem_of_fmap in Hf as ([g v] & -> & Hf).
      assert (NoDup (stamp_nums d n).*1) as Hnd by (apply (bool_decide_unpack _); by vm_compute).
      pose proof (fun y => set_nums_value _ y _ _ Hnd Hf) as Hv. cbn [fst]. by rewrite !Hv.
    + rewrite !set_nums_frame by done. rewrite !num_set_strs. by apply Hn.
  - intros f. change (str (set_nums ?l ?y)) with (str y). rewrite !str_set_strs.
    destruct (decide (f ∈ (stamp_strs x d).*1)) as [Hf|Hf]; [|by rewrite Hs].
    repeat (apply elem_of_cons in Hf as [->|Hf]; [reflexivity|]). by inversion Hf.
  - exact H1.
  - exact H2.
Qed.

(** *** Effect on the envelope *)

Abbreviation env_inv := (env_inv SizeVT SizeTag SizeBytes).

Record st_ok (s : Env) : Prop := {
  so_env : env_inv s;
  so_pool : Forall clean (recordPool s) }.

(** From [s] to [s'] the records [rs] were streamed, in order, and accounted
    for. *)
Record delivers (s s' : Env) (rs : list XtcpFlatRecord) : Prop := {
  dl_ok : st_ok s';
  dl_stream : streamed s' = streamed s ++ rs;
  dl_held : held s' ≡ₚ held s ++ rs }.

Lemma delivers_nil s : st_ok s -> delivers s s [].
Proof. intros. split; [done|by rewrite app_nil_r..]. Qed.
Lemma delivers_app s1 s2 s3 l k : delivers s1 s2 l -> delivers s2 s3 k -> delivers s1 s3 (l ++ k).
Proof.
  intros [? H1 H2] [? H3 H4]. split; [done| |].
  - by rewrite H3, H1, (assoc_L (++)).
  - by rewrite H4, H2, (assoc_L (++)).
Qed.

Lemma put_record_ok s r : st_ok s -> clean r -> delivers s (put_record r s) [].
Proof.
  intros [He Hp] Hr. split; [|by rewrite app_nil_r..].
  split; [done|]. by apply Forall_cons_2.
Qed.

Lemma get_record_ok s r s' :
  st_ok s -> get_record s = (r, s') -> clean r /\ delivers s s' [].
Proof.
  intros [He Hp] H. unfold get_record in H.
  destruct (pool_get _ _ _) as [[r1 p] ps] eqn:E. injection H as <- <-.
  eapply (pool_get_Forall clean) in E as [? ?]; [|done|apply clean_zero].
  split; [done|]. split; [by split|by rewrite app_nil_r..].
Qed.

Lemma deliver_ok r s : st_ok s -> delivers s (deliver SizeVT SizeTag SizeBytes x mem r s) [r].
Proof.
  intros [He Hp]. unfold deliver. destruct (append_record _ _ _ _ _ _ _) as [o s1] eqn:E.
  assert (env_inv (stream_record r s)) as He0 by done.
  pose proof (append_record_inv _ _ _ _ _ _ _ _ _ He0 E) as He1.
  apply append_record_held in E as (Hh & Hs & Hpl & k & Hk).
  assert (delivers s s1 [r]) as H1.
  { split; [split; [done|]|by rewrite Hs|done]. rewrite Hk. apply Forall_app.
    split; [apply Forall_replicate, clean_zero|done]. }
  destruct o as [why|]; [|done]. change [r] with ([r] ++ []). eapply delivers_app; [exact H1|].
  destruct (flushEnvelope_held mem why s1) as (Hh2 & Hs2 & k2 & Hk2); [apply He1|].
  split; [split|by rewrite app_nil_r..]; [by apply flushEnvelope_inv|].
  rewrite Hk2. apply Forall_app. split; [apply Forall_replicate, clean_zero|apply H1].
Qed.

(** *** The loop *)

(** The next counter value the modulus lets through. *)
Definition skipped (m n : Z) : Z := if decide (m = 1) then 0 else (1 - n) mod m.

Lemma skipped_bound n : 0 <= skipped M n < M.
Proof using Hmod.
  unfold skipped. case_decide; [lia|]. apply Z.mod_pos_bound. lia.
Qed.
Lemma counter_next i : counter M i + 1 + skipped M (counter M i + 1) = counter M (i + 1).
Proof using Hmod.
  unfold counter, skipped. repeat case_decide; [lia|].
  replace (1 - (i * M + 1 + 1)) with ((M - 1) + (- i - 1) * M) by lia.
  rewrite Z.mod_add, Z.mod_small by lia. lia.
Qed.
Lemma counter_0 : 0 + skipped M 0 = counter M 0.
Proof using Hmod.
  unfold counter, skipped. repeat case_decide; [lia|]. rewrite Z.mod_small by lia. lia.
Qed.

Lemma skipped_counter i : skipped M (counter M i) = 0.
Proof using Hmod.
  unfold counter, skipped. repeat case_decide; [lia|].
  replace (1 - (i * M + 1)) with (0 + (- i) * M) by lia. rewrite Z.mod_add by lia. by apply Z.mod_0_l; lia.
Qed.

(** Iterations the modulus skips leave the offset where it is. *)
Lemma loop_skip k fuel off n s :
  0 <= off -> off < glen data -> NlMsgHdrSizeCst <= glen data - off ->
  skipped M n = Z.of_nat k -> loop (k + fuel) d off n s = loop fuel d off (n + skipped M n) s.
Proof using Hmod.
  intros Ho Hlt Hh. revert n. induction k as [|k IH]; intros n Hk.
  { rewrite Hk. cbn [Nat.add]. by rewrite Z.add_0_r. }
  assert (M <> 1 /\ n mod M <> 1 /\ skipped M (n + 1) = skipped M n - 1) as (Hm & Hn & Hs).
  { unfold skipped in *. case_decide; [lia|].
    pose proof (Z.div_mod (1 - n) M ltac:(lia)). pose proof (Z.mod_pos_bound (1 - n) M ltac:(lia)).
    split_and!; [done| |].
    - intros Hn1. pose proof (Z.div_mod n M ltac:(lia)).
      assert ((1 - n) mod M = 0); [|lia].
      replace (1 - n) with (0 + (- (n / M)) * M) by nia. rewrite Z.mod_add by lia. by apply Z.mod_0_l; lia.
    - replace (1 - (n + 1)) with (((1 - n) mod M - 1) + ((1 - n) / M) * M) by lia.
      rewrite Z.mod_add, Z.mod_small by lia. lia. }
  cbn [Nat.add Deserialize_loop]. cbv zeta.
  rewrite decide_True, decide_False, decide_False, decide_False by lia.
  cbn [mbind option_bind]. rewrite bool_decide_eq_true_2 by done.
  rewrite IH by lia. f_equal. lia.
Qed.

(** One message, as an equation: what the loop does where the modulus lets it
    through. *)
Lemma loop_message fuel off n s :
  0 <= off -> off < glen data -> NlMsgHdrSizeCst <= glen data - off -> skipped M n = 0 ->
  loop (S fuel) d off n s =
    (let '(r, s) := get_record s in
     let r := stamp_record x d n r in
     let h := nlh_at data off in
     if decide (nlh_Type h = NlMsgHdrTypeDoneCst) then Some (n, None, put_record r s) else
     if decide (nlh_Type h <> NlMsgHdrTypeInetDiagCst) then
       match skipUnknownNlmsg (nlh_Len h) (off + NlMsgHdrSizeCst) (glen data) with
       | None => Some (n, None, put_record r s)
       | Some advance => loop fuel d advance (n + 1) (put_record r s)
       end
     else
       '(off, s) ← processInetDiagRecord SizeVT SizeTag SizeBytes x mem d r (nlh_Len h)
                     (off + NlMsgHdrSizeCst) s;
       loop fuel d off (n + 1) s).
Proof using Hmod.
  intros Ho Hlt Hh Hs. cbn [Deserialize_loop]. cbv zeta.
  rewrite decide_True, decide_False by lia.
  replace (if decide (M = 1) then Some false else _) with (Some false).
  2: { unfold skipped in Hs. case_decide; [done|]. rewrite decide_False by lia.
       rewrite bool_decide_eq_false_2; [done|]. intros Hn. apply Hn.
       pose proof (Z.div_mod (1 - n) M ltac:(lia)).
       replace n with (1 + (- ((1 - n) / M)) * M) by lia. rewrite Z.mod_add, Z.mod_small by lia. done. }
  cbn [mbind option_bind]. destruct (get_record s) as [r s1].
  rewrite slice_ok by (unfold NlMsgHdrSizeCst in *; lia). cbn [mbind option_bind].
  rewrite DeserializeNlMsgHdr_ok by (unfold NlMsgHdrSizeCst in *; len_lia). cbn [mbind option_bind].
  replace (nlh_at (take _ _) 0) with (nlh_at data off); [done|].
  unfold nlh_at, NlMsgHdrSizeCst. rewrite !le_at_slice by lia. by rewrite Z.add_0_r.
Qed.
Lemma loop_stop fuel off n s :
  0 <= off -> ~ (off < glen data /\ NlMsgHdrSizeCst <= glen data - off) ->
  loop (S fuel) d off n s =
    Some (n, if decide (off < glen data) then Some ErrParseDeserializeNlMsgHdr else None, s).
Proof.
  intros Ho H. cbn [Deserialize_loop]. cbv zeta. case_decide; [|done].
  by rewrite decide_True by lia.
Qed.

Lemma process_ok n r len off s :
  0 <= off <= glen data -> st_ok s -> clean r ->
  exists s' rs,
    processInetDiagRecord SizeVT SizeTag SizeBytes x mem d (stamp_record x d n r) len off s =
      Some (next_offset len off (glen data), s') /\ delivers s s' rs /\
    forall h, nlh_Len h = len -> Forall2 (≡) rs (option_list (message_record n (off, h))).
Proof using Hreg.
  intros Ho Hs Hr. unfold processInetDiagRecord.
  destruct (decode_message_spec x mem d Hreg (stamp_record x d n r) len off Ho) as (o & Hd & _).
  rewrite Hd. cbn [mbind option_bind].
  destruct (decode_message_proper x mem d Hreg _ _ _ _ _ _ (proj1 Ho) (stamp_clean n r Hr) Hd)
    as (o' & Hd' & Hoo).
  eexists _, (option_list o). split; [done|]. split.
  - destruct o; [by apply deliver_ok|by apply delivers_nil].
  - intros h <-. unfold message_record. simpl. rewrite Hd'. simpl.
    destruct Hoo; simpl; [by apply Forall2_cons; split; [|apply Forall2_nil]|by apply Forall2_nil].
Qed.

(** The loop from [off] decodes [msgs], stops for [why] and delivers exactly
    their records. *)
Definition refines (fuel : nat) (off n i : Z) (s : Env) (msgs : list (Z * NlMsgHdr)) (why : stop)
    : Prop :=
  exists n' s' rs,
    loop fuel d off n s = Some (n', stop_err why, s') /\ delivers s s' rs /\
    Forall2 (≡) rs (packet_records i msgs) /\ (M = 1 -> n' = n + glen msgs).

Lemma counter_n n i : M = 1 -> n + skipped M n = counter M i -> counter M i = n.
Proof using Hmod. unfold skipped, counter. intros Hm. rewrite !decide_True by done. lia. Qed.

Lemma refines_end fuel off n i s s' why :
  loop fuel d off n s = Some (counter M i, stop_err why, s') -> delivers s s' [] ->
  n + skipped M n = counter M i -> refines fuel off n i s [] why.
Proof using Hmod.
  intros H Hd Hn. exists (counter M i), s', []. split_and!; [done|done|apply Forall2_nil_2|].
  intros Hm. rewrite glen_nil, (counter_n n i); lia.
Qed.

Lemma refines_cons fuel fuel' off next n i s s1 rs m msgs why :
  loop fuel d off n s = loop fuel' d next (counter M i + 1) s1 -> delivers s s1 rs ->
  Forall2 (≡) rs (packet_records i [m]) -> n + skipped M n = counter M i ->
  refines fuel' next (counter M i + 1) (i + 1) s1 msgs why ->
  refines fuel off n i s (m :: msgs) why.
Proof using Hmod.
  intros Hl Hd Hrs Hn (n' & s' & rs' & Hl' & Hd' & Hrs' & Hn').
  exists n', s', (rs ++ rs'). rewrite Hl. split_and!; [done|by eapply delivers_app| |].
  - cbn [packet_records] in *. rewrite app_nil_r in Hrs. by apply Forall2_app.
  - intros Hm. rewrite (Hn' Hm), glen_cons, (counter_n n i) by done. lia.
Qed.

Lemma loop_refines w fuel off n i s msgs why :
  0 <= off -> st_ok s -> n + skipped M n = counter M i ->
  walk w data off = Some (msgs, why) -> (w * S (Z.to_nat M) <= fuel)%nat ->
  refines fuel off n i s msgs why.
Proof using Hreg Hmod.
  revert fuel off n i s msgs. induction w as [|w IH]; intros fuel off n i s msgs Ho Hs Hn Hw Hf; [done|].
  cbn [walk] in Hw. cbv zeta in Hw.
  destruct (decide (off < glen data /\ NlMsgHdrSizeCst <= glen data - off)) as [[Hlt Hh]|Hstop].
  2: { destruct fuel as [|fuel]; [lia|].
       assert (msgs = [] /\ stop_err why =
         if decide (off < glen data) then Some ErrParseDeserializeNlMsgHdr else None) as [-> Hw'].
       { repeat case_decide; try (exfalso; lia); by simplify_eq. }
       exists n, s, []. rewrite loop_stop, Hw' by done.
       split_and!; [done|by apply delivers_nil|apply Forall2_nil_2|]. rewrite glen_nil. lia. }
  rewrite decide_True, decide_False in Hw by lia. pose proof (skipped_bound n) as Hk.
  set (fuel' := (fuel - Z.to_nat (skipped M n) - 1)%nat).
  pose proof (loop_skip (Z.to_nat (skipped M n)) (S fuel') off n s Ho Hlt Hh ltac:(lia)) as Hl.
  replace (Z.to_nat (skipped M n) + S fuel')%nat with fuel in Hl by lia.
  rewrite Hn, (loop_message _ _ _ _ Ho Hlt Hh (skipped_counter i)) in Hl.
  destruct (get_record s) as [r s1] eqn:Hg. destruct (get_record_ok _ _ _ Hs Hg) as [Hr Hs1].
  cbv zeta in Hl. pose proof (delivers_app _ _ _ _ _ Hs1
    (put_record_ok s1 _ (dl_ok _ _ _ Hs1) (clean_stamp (counter M i) r Hr))) as Hput.
  set (h := nlh_at data off) in *.
  case_decide as Hdone; [injection Hw as <- <-; by eapply refines_end|].
  destruct (decide (nlh_Type h = NlMsgHdrTypeInetDiagCst)) as [Hty|Hty];
    [rewrite decide_False in Hl by tauto|rewrite decide_True in Hl by done].
  - destruct (process_ok (counter M i) r (nlh_Len h) (off + NlMsgHdrSizeCst) s1)
      as (s2 & rs & Hp & Hs2 & Hrs); [unfold NlMsgHdrSizeCst in *; lia|apply Hs1|done|].
    rewrite Hp in Hl. apply bind_Some in Hw as ([l why'] & Hw & [= <- <-]).
    eapply refines_cons; [exact Hl|exact (delivers_app _ _ _ _ _ Hs1 Hs2)| |done|].
    + cbn [packet_records snd]. rewrite decide_True, app_nil_r by done. by apply Hrs.
    + apply IH; [|apply Hs2|apply counter_next|done|unfold fuel'; nia].
      pose proof (next_offset_bound (nlh_Len h) (off + NlMsgHdrSizeCst) (glen data)).
      unfold NlMsgHdrSizeCst in *. lia.
  - destruct (skipUnknownNlmsg _ _ _) as [next|] eqn:Hsk;
      [|injection Hw as <- <-; by eapply refines_end].
    apply bind_Some in Hw as ([l why'] & Hw & [= <- <-]).
    eapply refines_cons; [exact Hl|exact Hput| |done|].
    + cbn [packet_records snd]. rewrite decide_False by done. apply Forall2_nil_2.
    + apply IH; [|apply Hput|apply counter_next|done|unfold fuel'; nia].
      apply skipUnknownNlmsg_bound in Hsk. unfold NlMsgHdrSizeCst in *. lia.
Qed.

(** The whole packet. *)
Lemma Deserialize_refines s :
  st_ok s ->
  refines (Deserialize_fuel x mem d) 0 0 0 s (messages data).1 (messages data).2.
Proof using Hreg Hmod.
  intros Hs. eapply (loop_refines (S (length data))); [lia|done|apply counter_0| |].
  - rewrite messages_eq. by destruct (messages data).
  - unfold Deserialize_fuel. lia.
Qed.
End Packet.

(** ** Well-formed packets *)

(** The attributes applied in order; each decoder sees the padded payload. *)
Fixpoint apply_attrs (reg : Registry) (attrs : list (Z * bytes)) (r : XtcpFlatRecord)
    : go XtcpFlatRecord :=
  match attrs with
  | [] => Some r
  | a :: attrs => '(r, _) ← DeserializeAttribute reg a.1 (pad a.2) r; apply_attrs reg attrs r
  end.

(** An inet_diag message: netlink header, 72-byte body, attributes. *)
Record message := mkMessage {
  m_flags : Z; m_seq : Z; m_pid : Z; m_body : bytes; m_attrs : list (Z * bytes) }.
Definition msg_len (m : message) : Z := 88 + glen (enc_attrs (m_attrs m)).
Definition enc_message (m : message) : bytes :=
  le_split 4 (msg_len m) ++ le_split 2 NlMsgHdrTypeInetDiagCst ++ le_split 2 (m_flags m) ++
  le_split 4 (m_seq m) ++ le_split 4 (m_pid m) ++ m_body m ++ enc_attrs (m_attrs m).
Definition wf_message (m : message) : Prop :=
  glen (m_body m) = 72 /\ Forall wf_attr (m_attrs m) /\ msg_len m < 2 ^ 32 /\
  0 <= m_flags m < 2 ^ 16 /\ 0 <= m_seq m < 2 ^ 32 /\ 0 <= m_pid m < 2 ^ 32.
Definition msg_hdr (m : message) : NlMsgHdr :=
  mkNlMsgHdr (msg_len m) NlMsgHdrTypeInetDiagCst (m_flags m) (m_seq m) (m_pid m).
Definition enc_messages (ms : list message) : bytes := concat (enc_message <$> ms).

(** Where the messages of an encoded packet lie. *)
Fixpoint positions (off : Z) (ms : list message) : list (Z * NlMsgHdr) :=
  match ms with
  | [] => []
  | m :: ms => (off + NlMsgHdrSizeCst, msg_hdr m) :: positions (off + msg_len m) ms
  end.

(** Walking encoded attributes applies each of them, in order. *)
Lemma attributes_roundtrip reg attrs pre post fuel r :
  Forall wf_attr attrs -> (length attrs < fuel)%nat ->
  DeserializeAttributes_loop fuel reg (pre ++ enc_attrs attrs ++ post) (glen pre)
    (glen pre + glen (enc_attrs attrs)) r = apply_attrs reg attrs r.
Proof.
  intros Hw. revert pre fuel r. induction Hw as [|[ty p] attrs [Ht Hp] Hw IH]; intros pre fuel r Hf.
  { destruct fuel; [simpl in Hf; lia|]. apply attributes_stop.
    change (enc_attrs []) with (@nil Z). rewrite glen_nil. lia. }
  destruct fuel as [|fuel]; [simpl in Hf; lia|].
  change (enc_attrs ((ty, p) :: attrs)) with (enc_attr (ty, p) ++ enc_attrs attrs).
  pose proof (pad_length p) as Hpl. pose proof (enc_attr_length (ty, p)) as Hel.
  cbn [fst snd] in *.
  pose proof (FourByteAlignPadding_bound (glen p)).
  rewrite attributes_step by len_lia. cbv zeta.
  assert (le_at 2 (pre ++ (enc_attr (ty, p) ++ enc_attrs attrs) ++ post) (glen pre) = 4 + glen p) as ->.
  { rewrite <- (Z.add_0_r (glen pre)), le_at_app by lia. unfold enc_attr. rewrite <- !app_assoc.
    apply le_at_split; [glen_pos; simpl; lia|done]. }
  assert (le_at 2 (pre ++ (enc_attr (ty, p) ++ enc_attrs attrs) ++ post) (glen pre + 2) = ty) as ->.
  { rewrite le_at_app by lia. unfold enc_attr. rewrite <- !app_assoc.
    rewrite le_at_skip by lia. apply le_at_split; [simpl; lia|done]. }
  rewrite padding_shift, decide_False by (glen_pos; lia).
  replace (Z.min _ _) with (glen pre + 4 + glen (pad p)) by len_lia.
  replace (glen pre + 4 + (4 + glen p - 4 + FourByteAlignPadding (glen p)))
    with (glen (pre ++ enc_attr (ty, p))) by len_lia.
  replace (take _ _) with (pad p).
  2: { rewrite (slice_mid (pre ++ le_split 2 (4 + glen p) ++ le_split 2 ty) (pad p)
         (enc_attrs attrs ++ post)); [done|len_lia|len_lia|].
       unfold enc_attr. simpl. by rewrite <- !app_assoc. }
  cbn [apply_attrs fst snd]. apply option_bind_ext_fun. intros [r' e].
  replace (glen pre + glen (enc_attr (ty, p) ++ enc_attrs attrs))
    with (glen (pre ++ enc_attr (ty, p)) + glen (enc_attrs attrs)) by len_lia.
  rewrite <- (IH (pre ++ enc_attr (ty, p)) fuel r') by (simpl in Hf; lia).
  by rewrite <- !app_assoc.
Qed.

Lemma enc_message_length m : glen (m_body m) = 72 -> glen (enc_message m) = msg_len m.
Proof. intros H. unfold enc_message, msg_len. len_lia. Qed.
Lemma msg_len_ge m : 88 <= msg_len m.
Proof. unfold msg_len. len_lia. Qed.

Lemma nlh_at_message pre m post :
  wf_message m -> nlh_at (pre ++ enc_message m ++ post) (glen pre) = msg_hdr m.
Proof.
  intros (Hb & Ha & Hl & Hf & Hs & Hp). unfold nlh_at, msg_hdr.
  rewrite <- (Z.add_0_r (glen pre)) at 1. rewrite !le_at_app by lia.
  unfold enc_message. rewrite <- !app_assoc. pose proof (msg_len_ge m).
  f_equal; rewrite ?le_at_skip by lia; (apply le_at_split; [simpl; unfold NlMsgHdrTypeInetDiagCst; lia|done]).
Qed.

Lemma walk_roundtrip ms pre fuel :
  Forall wf_message ms -> (length ms < fuel)%nat ->
  walk fuel (pre ++ enc_messages ms) (glen pre) = Some (positions (glen pre) ms, StopEnd).
Proof.
  intros Hw. revert pre fuel. induction Hw as [|m ms Hm Hw IH]; intros pre fuel Hf.
  { destruct fuel; [simpl in Hf; lia|]. cbn [walk]. cbv zeta.
    rewrite decide_False; [done|]. change (enc_messages []) with (@nil Z). len_lia. }
  destruct fuel as [|fuel]; [simpl in Hf; lia|].
  change (enc_messages (m :: ms)) with (enc_message m ++ enc_messages ms).
  pose proof Hm as (Hb & _). pose proof (enc_message_length m Hb) as Hl. pose proof (msg_len_ge m).
  cbn [walk]. cbv zeta. rewrite nlh_at_message by done. unfold NlMsgHdrSizeCst.
  rewrite decide_True, decide_False by len_lia. cbn [nlh_Type nlh_Len msg_hdr].
  rewrite decide_False, decide_True by done.
  replace (next_offset _ _ _) with (glen (pre ++ enc_message m)).
  2: { unfold next_offset, InetDiagMsgSizeCst, NlMsgHdrSizeCst. rewrite decide_False; len_lia. }
  rewrite (assoc_L (++) pre), IH by (simpl in Hf; lia). cbn [mbind option_bind positions].
  by rewrite glen_app, Hl.
Qed.

(** What a well-formed message means as a record. *)
Section Meaning.
Context (x : XTCP) (mem : nat -> bytes) (d : DeserializeArgs).

Definition message_meaning (n off : Z) (m : message) : option XtcpFlatRecord :=
  r ← apply_attrs (registry x) (m_attrs m)
        (set_addrs (reslice (NLPacket d) (off + 8) (off + 24)) (reslice (NLPacket d) (off + 24) (off + 40))
           (set_nums (inet_diag_msg_values (m_body m)) (stamp_record x d n zeroRecord)));
  r ← applyEnrichment mem (enrichers x) r;
  Some (cgroup_fallback (enrichers x) r).

Fixpoint meanings (i off : Z) (ms : list message) : list (option XtcpFlatRecord) :=
  match ms with
  | [] => []
  | m :: ms => message_meaning (counter (Modulus x) i) (off + NlMsgHdrSizeCst) m ::
               meanings (i + 1) (off + msg_len m) ms
  end.

Lemma message_record_meaning pre m post n :
  wf_message m -> packet mem d = pre ++ enc_message m ++ post ->
  message_record x mem d n (glen pre + NlMsgHdrSizeCst, msg_hdr m) =
    message_meaning n (glen pre + NlMsgHdrSizeCst) m.
Proof.
  intros Hm Hp. pose proof Hm as (Hb & Ha & _). pose proof (enc_message_length m Hb) as Hl.
  pose proof (msg_len_ge m). unfold message_record, message_meaning. cbn [fst snd msg_hdr nlh_Len].
  assert (glen (packet mem d) = glen pre + msg_len m + glen post) as Hg by (rewrite Hp; len_lia).
  unfold NlMsgHdrSizeCst.
  rewrite decode_message_eq by (unfold InetDiagMsgSizeCst; len_lia).
  unfold message_body. rewrite Hp.
  set (hd := pre ++ le_split 4 (msg_len m) ++ le_split 2 NlMsgHdrTypeInetDiagCst ++
        le_split 2 (m_flags m) ++ le_split 4 (m_seq m) ++ le_split 4 (m_pid m)).
  assert (pre ++ enc_message m ++ post = hd ++ m_body m ++ enc_attrs (m_attrs m) ++ post) as Hd.
  { unfold hd, enc_message. by rewrite <- !app_assoc. }
  replace (take 72 _) with (m_body m).
  2: { rewrite Hd. change 72%nat with (Z.to_nat 72). replace 72 with ((glen pre + 16 + 72) - (glen pre + 16)) by lia.
       symmetry. eapply (slice_mid hd (m_body m)); [unfold hd; len_lia|lia|done]. }
  rewrite Hd, (assoc_L (++) hd). unfold DeserializeAttributes.
  replace (glen pre + 16 + InetDiagMsgSizeCst) with (glen (hd ++ m_body m))
    by (unfold hd, InetDiagMsgSizeCst; len_lia).
  replace (next_offset _ _ _) with (glen (hd ++ m_body m) + glen (enc_attrs (m_attrs m))).
  2: { unfold next_offset, InetDiagMsgSizeCst, NlMsgHdrSizeCst, msg_len, hd in *.
       rewrite decide_False; len_lia. }
  rewrite attributes_roundtrip; [|done|].
  2: { pose proof (enc_attrs_length (m_attrs m)). rewrite !length_app. lia. }
  destruct (apply_attrs _ _ _) as [r|]; cbn [mbind option_bind]; [|done].
  by destruct (applyEnrichment _ _ _).
Qed.

(** The records of an encoded packet are the meanings of its messages. *)
Lemma packet_records_meaning pre ms i :
  Forall wf_message ms -> packet mem d = pre ++ enc_messages ms ->
  packet_records x mem d i (positions (glen pre) ms) = omap Datatypes.id (meanings i (glen pre) ms).
Proof.
  intros Hw. revert pre i. induction Hw as [|m ms Hm Hw IH]; intros pre i Hp; [done|].
  cbn [positions packet_records meanings]. rewrite decide_True by done.
  change (enc_messages (m :: ms)) with (enc_message m ++ enc_messages ms) in Hp.
  rewrite (message_record_meaning pre m (enc_messages ms)) by done.
  replace (glen pre + msg_len m) with (glen (pre ++ enc_message m)).
  2: { rewrite glen_app, enc_message_length; [done|apply Hm]. }
  rewrite IH by (by rewrite Hp, (assoc_L (++))). simpl.
  by destruct (message_meaning _ _ _).
Qed.
End Meaning.

(** ** The decoder as a whole *)

Lemma InitDeserializers_ok x en : registry x = InitDeserializers en -> registry_ok (registry x).
Proof. intros -> ty f. apply registered_contract. Qed.

(** C1: with the default modulus 1, on any bytes whatsoever the decoder
    terminates without a panic; it reports an error exactly when the packet ends
    inside a netlink header; it streams, in order, one record per complete
    inet_diag message it reaches, equal to decoding that message into a zero
    record stamped with the message's number; every record it streams is in the
    envelope, sent, or counted as dropped; and it returns the number of
    messages. (Another modulus is documented to sample and does not:
    [Deserialize_modulus_reports_all].) *)
Theorem Deserialize_refines_spec SizeVT SizeTag SizeBytes x mem d en s :
  registry x = InitDeserializers en -> Modulus x = 1 ->
  env_inv SizeVT SizeTag SizeBytes s -> Forall clean (recordPool s) ->
  let '(msgs, why) := messages (packet mem d) in
  exists s' rs,
    Deserialize SizeVT SizeTag SizeBytes x mem d s =
      Some (glen msgs, if decide (why = StopTruncated) then Some ErrParseDeserializeNlMsgHdr else None, s') /\
    streamed s' = streamed s ++ rs /\ Forall2 (≡) rs (packet_records x mem d 0 msgs) /\
    held s' ≡ₚ held s ++ rs.
Proof.
  intros Hreg Hmod He Hp. apply InitDeserializers_ok in Hreg.
  pose proof (Deserialize_refines SizeVT SizeTag SizeBytes x mem d Hreg ltac:(lia) s) as Hr.
  destruct (messages (packet mem d)) as [msgs why].
  destruct Hr as (n & s' & rs & Hl & [Hok Hst Hh] & Hrs & Hn); [by split|].
  exists s', rs. split_and!; try done. unfold Deserialize. rewrite Hl, Hn by done. by destruct why.
Qed.

(** Pooled records are reused safely: if every pooled record is zero outside
    the columns stamped at the start of decoding, this is so again afterwards,
    and the envelope's byte count stays exact. *)
Theorem Deserialize_keeps_pool_clean SizeVT SizeTag SizeBytes x mem d en s n e s' :
  registry x = InitDeserializers en -> 1 <= Modulus x ->
  env_inv SizeVT SizeTag SizeBytes s -> Forall clean (recordPool s) ->
  Deserialize SizeVT SizeTag SizeBytes x mem d s = Some (n, e, s') ->
  env_inv SizeVT SizeTag SizeBytes s' /\ Forall clean (recordPool s').
Proof.
  intros Hreg Hmod He Hp H. apply InitDeserializers_ok in Hreg.
  destruct (Deserialize_refines SizeVT SizeTag SizeBytes x mem d Hreg Hmod s)
    as (n' & s1 & rs & Hl & [[? ?] _ _] & _); [by split|].
  unfold Deserialize in H. rewrite Hl in H. by simplify_eq.
Qed.

(** The records streamed do not depend on which pooled records were reused:
    two daemons in the same configuration with different pools, envelopes and
    histories stream the same records for the same packet. *)
Theorem Deserialize_pool_independent SizeVT SizeTag SizeBytes x mem d en s1 s2 :
  registry x = InitDeserializers en -> 1 <= Modulus x ->
  env_inv SizeVT SizeTag SizeBytes s1 -> Forall clean (recordPool s1) ->
  env_inv SizeVT SizeTag SizeBytes s2 -> Forall clean (recordPool s2) ->
  exists n1 n2 e s1' s2' rs1 rs2,
    Deserialize SizeVT SizeTag SizeBytes x mem d s1 = Some (n1, e, s1') /\
    Deserialize SizeVT SizeTag SizeBytes x mem d s2 = Some (n2, e, s2') /\
    streamed s1' = streamed s1 ++ rs1 /\ streamed s2' = streamed s2 ++ rs2 /\
    Forall2 (≡) rs1 rs2.
Proof.
  intros Hreg Hmod He1 Hp1 He2 Hp2. apply InitDeserializers_ok in Hreg.
  destruct (Deserialize_refines SizeVT SizeTag SizeBytes x mem d Hreg Hmod s1)
    as (n1 & s1' & rs1 & Hl1 & [_ Hs1 _] & Hr1 & _); [by split|].
  destruct (Deserialize_refines SizeVT SizeTag SizeBytes x mem d Hreg Hmod s2)
    as (n2 & s2' & rs2 & Hl2 & [_ Hs2 _] & Hr2 & _); [by split|].
  eexists n1, n2, _, s1', s2', rs1, rs2. split_and!; [exact Hl1|exact Hl2|done..|].
  etrans; [exact Hr1|]. symmetry. exact Hr2.
Qed.

(** The complete inet_diag messages among those visited. *)
Definition complete (data : bytes) (msgs : list (Z * NlMsgHdr)) : list (Z * NlMsgHdr) :=
  filter (fun m => nlh_Type m.2 = NlMsgHdrTypeInetDiagCst /\ m.1 + InetDiagMsgSizeCst <= glen data) msgs.

Lemma packet_records_length x mem d i msgs :
  registry_ok (registry x) -> Forall (fun p => 0 <= p.1 <= glen (packet mem d)) msgs ->
  length (packet_records x mem d i msgs) = length (complete (packet mem d) msgs).
Proof.
  intros Hreg Hm. revert i. induction Hm as [|[off h] msgs Ho Hm IH]; intros i; [done|].
  cbn [packet_records fst snd]. rewrite length_app, IH. unfold complete. rewrite filter_cons.
  cbn [fst snd] in *. case_decide as Hty; [|rewrite (decide_False (P := _ /\ _)) by tauto; done].
  unfold message_record. cbn [fst snd].
  destruct (decode_message_spec x mem d Hreg (stamp_record x d (counter (Modulus x) i) zeroRecord)
    (nlh_Len h) off Ho) as (o & -> & Hcase). cbn [mbind option_bind].
  case_decide as Hl; [subst o|destruct Hcase as (r' & -> & _)].
  - rewrite (decide_False (P := _ /\ _)) by lia. done.
  - rewrite (decide_True (P := _ /\ _)) by lia. done.
Qed.

(** The modulus does not sample: whatever its value, the decoder delivers a
    record for every complete inet_diag message of the packet (only the counters
    stamped on them differ), although it is documented to report every N-th. *)
Theorem Deserialize_modulus_reports_all SizeVT SizeTag SizeBytes x mem d en s :
  registry x = InitDeserializers en -> 1 <= Modulus x ->
  env_inv SizeVT SizeTag SizeBytes s -> Forall clean (recordPool s) ->
  exists n e s' rs,
    Deserialize SizeVT SizeTag SizeBytes x mem d s = Some (n, e, s') /\
    streamed s' = streamed s ++ rs /\
    length rs = length (complete (packet mem d) (messages (packet mem d)).1).
Proof.
  intros Hreg Hmod He Hp. apply InitDeserializers_ok in Hreg.
  destruct (Deserialize_refines SizeVT SizeTag SizeBytes x mem d Hreg Hmod s)
    as (n & s' & rs & Hl & [_ Hs _] & Hr & _); [by split|].
  eexists n, _, s', rs. split_and!; [exact Hl|done|].
  apply Forall2_length in Hr. rewrite Hr. apply packet_records_length; [done|].
  pose proof (messages_eq (packet mem d)) as Hw. destruct (messages _) as [msgs why].
  by eapply walk_offsets in Hw.
Qed.

Lemma apply_attrs_total reg attrs r : registry_ok reg -> is_Some (apply_attrs reg attrs r).
Proof.
  intros Hreg. revert r. induction attrs as [|a attrs IH]; intros r; cbn [apply_attrs]; [by eexists|].
  destruct (DeserializeAttribute_total reg a.1 (pad a.2) r Hreg) as (r' & e & -> & _).
  cbn [mbind option_bind]. apply IH.
Qed.
Lemma message_meaning_total x mem d n off m :
  registry_ok (registry x) -> is_Some (message_meaning x mem d n off m).
Proof.
  intros Hreg. unfold message_meaning. edestruct apply_attrs_total as [r ->]; [done|].
  cbn [mbind option_bind]. destruct (applyEnrichment_frame mem (enrichers x) r) as (r' & -> & _).
  by eexists.
Qed.
Lemma meanings_records x mem d i off ms rs :
  registry_ok (registry x) -> Forall2 (≡) rs (omap Datatypes.id (meanings x mem d i off ms)) ->
  Forall2 (fun r o => exists r', o = Some r' /\ r ≡ r') rs (meanings x mem d i off ms).
Proof.
  intros Hreg. revert i off rs. induction ms as [|m ms IH]; intros i off rs H; simpl in *.
  { inversion H. constructor. }
  destruct (message_meaning_total x mem d (counter (Modulus x) i) (off + NlMsgHdrSizeCst) m Hreg) as [r' Hr].
  rewrite Hr in *. simpl in H. inversion H; subst. constructor; [by eexists|auto].
Qed.

(** C5: with the default modulus 1, a packet made of well-formed inet_diag
    messages, with any attributes in any order and number, decodes without error into exactly one record per
    message, in order, and each record holds what its message says: the body's
    fields, the addresses as the bytes of the body, and the attributes applied
    in order, stamped and enriched. *)
Theorem Deserialize_roundtrip SizeVT SizeTag SizeBytes x mem d en s ms :
  registry x = InitDeserializers en -> Modulus x = 1 ->
  env_inv SizeVT SizeTag SizeBytes s -> Forall clean (recordPool s) ->
  packet mem d = enc_messages ms -> Forall wf_message ms ->
  exists n s' rs,
    Deserialize SizeVT SizeTag SizeBytes x mem d s = Some (n, None, s') /\
    streamed s' = streamed s ++ rs /\
    Forall2 (fun r o => exists r', o = Some r' /\ r ≡ r') rs (meanings x mem d 0 0 ms).
Proof.
  intros Hreg Hmod He Hp Hpk Hw. apply InitDeserializers_ok in Hreg.
  destruct (Deserialize_refines SizeVT SizeTag SizeBytes x mem d Hreg ltac:(lia) s)
    as (n & s' & rs & Hl & [_ Hs _] & Hr & _); [by split|].
  assert (messages (packet mem d) = (positions 0 ms, StopEnd)) as Hm.
  { pose proof (messages_eq (packet mem d)) as Hme. rewrite Hpk in *.
    pose proof (walk_roundtrip ms [] (S (length (enc_messages ms))) Hw) as Hwk.
    simpl in Hwk. change (glen []) with 0 in Hwk. simpl in Hme. rewrite Hwk in Hme; [by simplify_eq|].
    clear. induction ms as [|m ms IH]; [simpl; lia|].
    change (enc_messages (m :: ms)) with (enc_message m ++ enc_messages ms).
    unfold enc_message at 1. rewrite !length_app, length_le_split. simpl length. lia. }
  rewrite Hm in *. exists n, s', rs. split_and!; [exact Hl|done|].
  apply meanings_records; [done|]. pose proof (packet_records_meaning x mem d [] ms 0 Hw Hpk) as Hpr.
  change (glen []) with 0 in Hpr. cbn [fst] in Hr. by rewrite Hpr in Hr.
Qed.

(** ** A concrete daemon and packet *)

Definition demo_enrichers : Enrichers :=
  {| stamp := zeroStamp; dockerIndex := None; nsidByInode := None; locality := None; asn := None;
     cgroupResolver := None |}.
Definition demo_enabled : option (gmap string bool) := Some {[ dsKeyTos := true ]}.
Definition demo_x (m : Z) : XTCP :=
  {| hostname := "host"; cfgDaemonVersion := "v1"; cfgLabel := ""; cfgTag := ""; cfgLocation := "";
     Modulus := m; EnvelopeFlushThresholdRows := 0; EnvelopeFlushThresholdBytes := 0;
     registry := InitDeserializers demo_enabled; enrichers := demo_enrichers |}.
Definition demo_messages : list message :=
  [ mkMessage 2 7 0 (replicate 72 1) [(5, [32])]; mkMessage 2 7 0 (replicate 72 2) [(5, [16])] ].
Definition demo_mem (_ : nat) : bytes := enc_messages demo_messages.
Definition demo_d : DeserializeArgs :=
  {| ns := "default"; fd := 3; inode := 99; NLPacket := mkSlice 0 0 192; timestampNs := 1;
     netlinkerId := 0 |}.
Definition demo_env (pool : list XtcpFlatRecord) (picks : list nat) : Env :=
  {| currentEnvelope := Some []; currentEnvelopeBytes := 0; recordPool := pool; envelopePool := [];
     picks := picks; sent := []; streamed := []; drops := [] |}.
Definition demo_size (_ : XtcpFlatRecord) : Z := 100.
Definition demo_varint (_ : Z) : Z := 1.

Lemma demo_env_inv pool picks : env_inv demo_size demo_varint demo_varint (demo_env pool picks).
Proof. split; [done|constructor]. Qed.
Lemma demo_packet : packet demo_mem demo_d = enc_messages demo_messages.
Proof. vm_compute. reflexivity. Qed.
Lemma demo_wf : Forall wf_message demo_messages.
Proof.
  repeat (apply Forall_cons_2; [split_and!; try done; repeat (apply Forall_cons_2; [by split|]);
    apply Forall_nil_2|]). apply Forall_nil_2.
Qed.

Lemma Deserialize_refines_spec_witness :
  exists n s', Deserialize demo_size demo_varint demo_varint (demo_x 1) demo_mem demo_d
    (demo_env [] []) = Some (n, None, s') /\ n = 2 /\ length (streamed s') = 2%nat.
Proof.
  pose proof (Deserialize_refines_spec demo_size demo_varint demo_varint (demo_x 1) demo_mem demo_d
    demo_enabled (demo_env [] []) ltac:(reflexivity) ltac:(reflexivity) (demo_env_inv [] [])
    (Forall_nil_2 _)) as H.
  assert (messages (packet demo_mem demo_d) = (positions 0 demo_messages, StopEnd)) as Hm
    by (vm_compute; reflexivity).
  rewrite Hm in H. destruct H as (s' & rs & Hd & Hs & Hr & _).
  exists 2, s'. split; [exact Hd|]. split; [reflexivity|].
  rewrite Hs. apply Forall2_length in Hr. simpl. rewrite Hr. vm_compute. reflexivity.
Defined.

Lemma Deserialize_keeps_pool_clean_witness :
  exists n e s', Deserialize demo_size demo_varint demo_varint (demo_x 1) demo_mem demo_d
    (demo_env [zeroRecord] [0%nat]) = Some (n, e, s') /\ Forall clean (recordPool s').
Proof.
  assert (Forall clean [zeroRecord]) as Hc by (apply Forall_cons_2; [done|apply Forall_nil_2]).
  destruct (Deserialize_refines demo_size demo_varint demo_varint (demo_x 1) demo_mem demo_d
    (InitDeserializers_ok (demo_x 1) demo_enabled ltac:(reflexivity)) ltac:(simpl; lia)
    (demo_env [zeroRecord] [0%nat])) as (n & s' & rs & Hl & _).
  { split; [apply demo_env_inv|exact Hc]. }
  eexists n, _, s'. split; [exact Hl|].
  apply (Deserialize_keeps_pool_clean demo_size demo_varint demo_varint (demo_x 1) demo_mem demo_d
    demo_enabled (demo_env [zeroRecord] [0%nat]) n _ s' ltac:(reflexivity) ltac:(simpl; lia)
    (demo_env_inv _ _) Hc Hl).
Defined.

Lemma Deserialize_pool_independent_witness :
  exists n1 n2 e s1' s2' rs1 rs2,
    Deserialize demo_size demo_varint demo_varint (demo_x 1) demo_mem demo_d (demo_env [] []) =
      Some (n1, e, s1') /\
    Deserialize demo_size demo_varint demo_varint (demo_x 1) demo_mem demo_d
      (demo_env [set_str Hostname "other" zeroRecord] [0%nat]) = Some (n2, e, s2') /\
    streamed s1' = rs1 /\ streamed s2' = rs2 /\ Forall2 (≡) rs1 rs2.
Proof.
  assert (Forall clean [set_str Hostname "other" zeroRecord]) as Hc.
  { apply Forall_cons_2; [|apply Forall_nil_2]. apply same_outside_str. in_list. }
  apply (Deserialize_pool_independent demo_size demo_varint demo_varint (demo_x 1) demo_mem demo_d
    demo_enabled (demo_env [] []) (demo_env [set_str Hostname "other" zeroRecord] [0%nat])
    ltac:(reflexivity) ltac:(simpl; lia) (demo_env_inv _ _) (Forall_nil_2 _) (demo_env_inv _ _) Hc).
Defined.

Lemma Deserialize_modulus_reports_all_witness :
  exists n e s' rs, Deserialize demo_size demo_varint demo_varint (demo_x 5) demo_mem demo_d
    (demo_env [] []) = Some (n, e, s') /\ streamed s' = rs /\ length rs = 2%nat.
Proof.
  destruct (Deserialize_modulus_reports_all demo_size demo_varint demo_varint (demo_x 5) demo_mem
    demo_d demo_enabled (demo_env [] []) ltac:(reflexivity) ltac:(simpl; lia) (demo_env_inv _ _)
    (Forall_nil_2 _)) as (n & e & s' & rs & H1 & H2 & H3).
  exists n, e, s', rs. split; [exact H1|]. split; [exact H2|]. rewrite H3. vm_compute. reflexivity.
Defined.

Lemma Deserialize_roundtrip_witness :
  exists n s' rs, Deserialize demo_size demo_varint demo_varint (demo_x 1) demo_mem demo_d
    (demo_env [] []) = Some (n, None, s') /\ streamed s' = rs /\
    Forall2 (fun r o => exists r', o = Some r' /\ r ≡ r') rs
      (meanings (demo_x 1) demo_mem demo_d 0 0 demo_messages).
Proof.
  apply (Deserialize_roundtrip demo_size demo_varint demo_varint (demo_x 1) demo_mem demo_d
    demo_enabled (demo_env [] []) demo_messages ltac:(reflexivity) ltac:(reflexivity)
    (demo_env_inv _ _) (Forall_nil_2 _) demo_packet demo_wf).
Defined.
