(* ===== verification/Netlinker.v ===== *)
(** The receiver and decoders of one netlink socket (pkg/xtcp/netlinker.go): the
    receiver numbers the packets of a dump and hands them to decoder goroutines;
    the decoder that finishes a dump's last packet signals done.  A step is one
    atomic operation (a Store, Add, Load or CompareAndSwap on dumpState) or one
    channel operation, so a run is any interleaving of receiver, decoders, the
    Poller that receives the done signals and the other sockets' decoders that
    send theirs on the same channel.
    The counters are uint64 in the code and [Z] here: a dump has far fewer than
    2^64 packets. *)

From S2P Require Import Prelude NlHeaders.

(** ** State *)

(** [dumpState]; [assigned] is ghost: the packets numbered into this dump. *)
Record dumpState := mkDump { total : Z; decoded : Z; signaled : bool; assigned : Z }.

Definition newDump : dumpState := {| total := 0; decoded := 0; signaled := false; assigned := 0 |}.

(** What a busy decoder is doing with a packet of dump [i]: deserializing it,
    between [decoded.Add] (which returned [v]) and [total.Load], between the
    successful comparison and [signaled.CompareAndSwap], and in the send on
    netlinkerDoneCh. *)
Inductive phase :=
  | Holding (i : nat)
  | Added (i : nat) (v : Z)
  | Matched (i : nat)
  | Signalling (i : nat).

#[export] Instance phase_eq_dec : EqDecision phase.
Proof. solve_decision. Defined.

(** [dumps] is the heap of dumpStates, a dump is its position there.  [cur] and
    [packets] are the receiver's dumpTracker; [handoff] is the packet it is about
    to send on packetCh.  [doneCh] is netlinkerDoneCh, with this socket's signals
    by dump and the others' by descriptor: the values in its buffer, then those
    of the senders blocked on it, in Go's order, which is first come, first
    served. *)
Record NState := mkN {
  dumps : list dumpState;
  cur : nat;
  packets : Z;
  handoff : option nat;
  packetCh : list nat;
  busy : list phase;
  signals : list nat;  (* signalNetlinkerDone calls, by dump *)
  doneCh : list (nat + Z);
  received : list nat  (* the signals the Poller received *) }.

(** ** Operations *)

Definition newDumpTracker : NState :=
  {| dumps := [newDump]; cur := 0; packets := 0; handoff := None; packetCh := []; busy := [];
     signals := []; doneCh := []; received := [] |}.

Definition set_total (t : Z) (d : dumpState) : dumpState :=
  {| total := t; decoded := decoded d; signaled := signaled d; assigned := assigned d |}.
Definition set_decoded (v : Z) (d : dumpState) : dumpState :=
  {| total := total d; decoded := v; signaled := signaled d; assigned := assigned d |}.
Definition set_signaled (d : dumpState) : dumpState :=
  {| total := total d; decoded := decoded d; signaled := true; assigned := assigned d |}.
Definition count_assigned (d : dumpState) : dumpState :=
  {| total := total d; decoded := decoded d; signaled := signaled d; assigned := assigned d + 1 |}.

(** [dumpTracker.assign]: number packet [b]; if it ends the dump, store the
    total and start a new one. *)
Definition assign (b : bytes) (s : NState) : go NState :=
  let n := packets s + 1 in
  hasDone ← packetHasDone b;
  Some (if hasDone : bool then
    {| dumps := alter (fun d => set_total n (count_assigned d)) (cur s) (dumps s) ++ [newDump];
       cur := length (dumps s); packets := 0; handoff := Some (cur s);
       packetCh := packetCh s; busy := busy s; signals := signals s;
       doneCh := doneCh s; received := received s |}
  else
    {| dumps := alter count_assigned (cur s) (dumps s); cur := cur s; packets := n;
       handoff := Some (cur s); packetCh := packetCh s; busy := busy s; signals := signals s;
       doneCh := doneCh s; received := received s |}).

Definition with_dumps (l : list dumpState) (s : NState) : NState :=
  {| dumps := l; cur := cur s; packets := packets s; handoff := handoff s;
     packetCh := packetCh s; busy := busy s; signals := signals s; doneCh := doneCh s; received := received s |}.
Definition with_busy (l : list phase) (s : NState) : NState :=
  {| dumps := dumps s; cur := cur s; packets := packets s; handoff := handoff s;
     packetCh := packetCh s; busy := l; signals := signals s; doneCh := doneCh s; received := received s |}.
Definition with_doneCh (l : list (nat + Z)) (r : list nat) (s : NState) : NState :=
  {| dumps := dumps s; cur := cur s; packets := packets s; handoff := handoff s;
     packetCh := packetCh s; busy := busy s; signals := signals s; doneCh := l; received := r |}.

Inductive event :=
  | Recv (b : bytes)  (* Recvfrom and assign *)
  | SendCh  (* packetCh <- p *)
  | Take  (* a decoder receives from packetCh *)
  | Decode (k : nat)  (* decoder k is done deserializing: decoded.Add(1) *)
  | LoadTotal (k : nat)
  | Cas (k : nat)
  | Sent (k : nat)  (* decoder k's send on netlinkerDoneCh is through *)
  | OtherDone (fd : Z)  (* another socket's decoder sends its signal *)
  | PollerRecv  (* the Poller receives a signal *).

(** [startDecoders]: the number of decoders, which is also packetCh's capacity. *)
Definition startDecoders (netlinkers : nat) : nat := Nat.max netlinkers 1.

(** The daemon's parameters: decoders per socket, and netlinkerDoneCh's capacity. *)
Record config := mkConf { netlinkers : nat; NetlinkersDoneChanSize : nat }.

(** [packetDecoded] is the sequence [Decode; LoadTotal; Cas] of one decoder, and
    [Sent] if its compare-and-swap succeeds, as signalNetlinkerDone blocks until
    its value is in the channel's buffer or received. *)
Definition step (conf : config) (s : NState) (ev : event) : go NState :=
  match ev with
  | Recv b => match handoff s with None => assign b s | Some _ => None end
  | SendCh =>
      match handoff s with
      | Some i =>
          guard (length (packetCh s) < startDecoders (netlinkers conf))%nat;;
          Some {| dumps := dumps s; cur := cur s; packets := packets s; handoff := None;
                  packetCh := packetCh s ++ [i]; busy := busy s; signals := signals s;
                  doneCh := doneCh s; received := received s |}
      | None => None
      end
  | Take =>
      match packetCh s with
      | i :: rest =>
          guard (length (busy s) < startDecoders (netlinkers conf))%nat;;
          Some {| dumps := dumps s; cur := cur s; packets := packets s; handoff := handoff s;
                  packetCh := rest; busy := busy s ++ [Holding i]; signals := signals s;
                  doneCh := doneCh s; received := received s |}
      | [] => None
      end
  | Decode k =>
      match busy s !! k with
      | Some (Holding i) =>
          d ← dumps s !! i;
          let v := decoded d + 1 in
          Some (with_busy (<[k := Added i v]> (busy s))
                  (with_dumps (<[i := set_decoded v d]> (dumps s)) s))
      | _ => None
      end
  | LoadTotal k =>
      match busy s !! k with
      | Some (Added i v) =>
          d ← dumps s !! i;
          Some (if decide (v = total d) then with_busy (<[k := Matched i]> (busy s)) s
                else with_busy (delete k (busy s)) s)
      | _ => None
      end
  | Cas k =>
      match busy s !! k with
      | Some (Matched i) =>
          d ← dumps s !! i;
          Some (if signaled d then with_busy (delete k (busy s)) s
                else {| dumps := <[i := set_signaled d]> (dumps s); cur := cur s;
                        packets := packets s; handoff := handoff s; packetCh := packetCh s;
                        busy := <[k := Signalling i]> (busy s); signals := signals s ++ [i];
                        doneCh := doneCh s ++ [inl i]; received := received s |})
      | _ => None
      end
  | Sent k =>
      match busy s !! k with
      | Some (Signalling i) =>
          guard (inl i ∉ drop (NetlinkersDoneChanSize conf) (doneCh s));;
          Some (with_busy (delete k (busy s)) s)
      | _ => None
      end
  | OtherDone fd => Some (with_doneCh (doneCh s ++ [inr fd]) (received s) s)
  | PollerRecv =>
      match doneCh s with
      | inl i :: rest => Some (with_doneCh rest (received s ++ [i]) s)
      | inr _ :: rest => Some (with_doneCh rest (received s) s)
      | [] => None
      end
  end.

Inductive reachable (conf : config) : NState -> Prop :=
  | reach_start : reachable conf newDumpTracker
  | reach_step s ev s' :
      reachable conf s -> step conf s ev = Some s' -> reachable conf s'.

Fixpoint run (conf : config) (s : NState) (evs : list event) : go NState :=
  match evs with
  | [] => Some s
  | ev :: evs => s ← step conf s ev; run conf s evs
  end.

(** ** Invariant *)

Definition phase_dump (p : phase) : nat :=
  match p with Holding i => i | Added i _ => i | Matched i => i | Signalling i => i end.
Definition holder (p : phase) : option nat := match p with Holding i => Some i | _ => None end.

(** The packets assigned and not yet counted as decoded, by dump. *)
Definition outstanding (s : NState) : list nat :=
  option_list (handoff s) ++ packetCh s ++ omap holder (busy s).
Definition cnt (i : nat) (l : list nat) : Z := Z.of_nat (length (filter (eq i) l)).

(** The dump of a signal of this socket. *)
Definition own (v : nat + Z) : option nat := match v with inl i => Some i | inr _ => None end.

(** Dump [i], in state [d]. *)
Record dump_inv (s : NState) (i : nat) (d : dumpState) : Prop := {
  di_count : cnt i (outstanding s) + decoded d = assigned d;
  di_cur : i = cur s -> total d = 0 /\ assigned d = packets s /\ signaled d = false;
  di_old : i <> cur s -> total d = assigned d /\ 0 < total d;
  di_pos : 0 <= decoded d;
  di_signaled : signaled d = true -> decoded d = assigned d;
  di_added v : Added i v ∈ busy s -> 0 < v <= decoded d;
  di_matched : Matched i ∈ busy s -> i <> cur s /\ decoded d = assigned d;
  di_last : i <> cur s -> decoded d = assigned d ->
    signaled d = true \/ Matched i ∈ busy s \/ Added i (decoded d) ∈ busy s;
  di_signals : i ∈ signals s <-> signaled d = true }.

Record inv (s : NState) : Prop := {
  in_cur : S (cur s) = length (dumps s);
  in_dump i d : dumps s !! i = Some d -> dump_inv s i d;
  in_out i : i ∈ outstanding s -> (i < length (dumps s))%nat;
  in_busy p : p ∈ busy s -> (phase_dump p < length (dumps s))%nat;
  in_sig i : i ∈ signals s -> (i < length (dumps s))%nat;
  in_nodup : NoDup (signals s);
  in_sent : signals s ≡ₚ received s ++ omap own (doneCh s) }.

(** ** Lemmas *)

Lemma cnt_app i l k : cnt i (l ++ k) = cnt i l + cnt i k.
Proof. unfold cnt. rewrite filter_app, length_app. lia. Qed.
Lemma cnt_cons i j l : cnt i (j :: l) = (if decide (i = j) then 1 else 0) + cnt i l.
Proof. unfold cnt. rewrite filter_cons. case_decide; simpl; lia. Qed.
Lemma cnt_nil i : cnt i [] = 0.
Proof. done. Qed.
Lemma cnt_perm i l k : l ≡ₚ k -> cnt i l = cnt i k.
Proof. unfold cnt. by intros ->. Qed.
Lemma cnt_nonneg i l : 0 <= cnt i l.
Proof. unfold cnt. lia. Qed.
Lemma cnt_zero i l : cnt i l = 0 <-> i ∉ l.
Proof.
  unfold cnt. split.
  - intros H Hin. assert (i ∈ filter (eq i) l) as Hf by (by apply list_elem_of_filter).
    destruct (filter (eq i) l); [by inversion Hf|simpl in H; lia].
  - intros Hni. destruct (filter (eq i) l) as [|j l'] eqn:E; [done|].
    assert (j ∈ filter (eq i) l) as [-> Hj]%list_elem_of_filter by (rewrite E; by left). done.
Qed.

(** Replacing or removing the decoder at a position. *)
Lemma busy_at {A} (l : list A) k x :
  l !! k = Some x ->
  exists rest, l ≡ₚ x :: rest /\ delete k l = rest /\ forall y, <[k := y]> l ≡ₚ y :: rest.
Proof.
  intros Hk. exists (delete k l). split_and!; [by apply delete_Permutation|done|]. intros y.
  assert (k < length l)%nat by (by eapply lookup_lt_Some).
  rewrite insert_take_drop, delete_take_drop by done. solve_Permutation.
Qed.

Lemma holders_perm l k : l ≡ₚ k -> omap holder l ≡ₚ omap holder k.
Proof.
  induction 1 as [|p l k _ IH|p q l|l1 l2 l3 _ IH1 _ IH2]; simpl; [done| | |by etrans].
  - destruct (holder p); by rewrite ?IH.
  - destruct (holder p), (holder q); try done. solve_Permutation.
Qed.

(** A dump's invariant looks at the rest of the state only through these. *)
Lemma dump_inv_ext s s' i d :
  dump_inv s i d -> cnt i (outstanding s') = cnt i (outstanding s) ->
  (i = cur s' <-> i = cur s) -> (i = cur s -> packets s' = packets s) ->
  (forall v, Added i v ∈ busy s' <-> Added i v ∈ busy s) ->
  (Matched i ∈ busy s' <-> Matched i ∈ busy s) -> (i ∈ signals s' <-> i ∈ signals s) ->
  dump_inv s' i d.
Proof.
  intros [H1 H2 H3 H4 H5 H6 H7 H8 H9] Hc Hcur Hp Ha Hm Hs. split.
  - by rewrite Hc.
  - intros Hi%Hcur. rewrite (Hp Hi). auto.
  - intros Hi. apply H3. by rewrite <- Hcur.
  - done.
  - done.
  - intros v Hv%Ha. auto.
  - intros Hv%Hm. rewrite Hcur. auto.
  - rewrite Hcur, Hm, Ha. auto.
  - by rewrite Hs.
Qed.

Lemma start_inv : inv newDumpTracker.
Proof.
  split; try done; simpl; [|by intros i Hi; inversion Hi..|constructor].
  intros [|i] d Hd; simplify_eq/=. split; simpl; try done; try lia.
  - intros v Hv; inversion Hv.
  - intros Hv; inversion Hv.
  - split; [intros Hv; inversion Hv|done].
Qed.

Section Steps.
Context (conf : config).
Abbreviation step := (step conf).

Lemma send_inv s s' : inv s -> step s SendCh = Some s' -> inv s'.
Proof.
  intros [Hc Hd Ho Hb Hs Hn Hse] H. cbn [Netlinker.step] in H.
  destruct (handoff s) as [i|] eqn:Hh; [|done]. case_guard; [|done].
  assert (outstanding s' ≡ₚ outstanding s) as Hp.
  { injection H as <-. unfold outstanding; simpl. rewrite Hh. simpl. solve_Permutation. }
  injection H as <-. split; try done.
  - intros j d Hj. eapply dump_inv_ext; [by apply Hd|by apply cnt_perm|done..].
  - intros j. rewrite Hp. apply Ho.
Qed.

Lemma take_inv s s' : inv s -> step s Take = Some s' -> inv s'.
Proof.
  intros [Hc Hd Ho Hb Hs Hn Hse] H. cbn [Netlinker.step] in H.
  destruct (packetCh s) as [|i rest] eqn:Hh; [done|]. case_guard; [|done].
  assert (outstanding s' ≡ₚ outstanding s) as Hp.
  { injection H as <-. unfold outstanding; simpl. rewrite Hh, omap_app. simpl. solve_Permutation. }
  assert (i < length (dumps s))%nat as Hi.
  { apply Ho. unfold outstanding. rewrite Hh. set_solver. }
  injection H as <-. split; try done.
  - intros j d Hj. eapply dump_inv_ext; [by apply Hd|by apply cnt_perm|done|done|..]; simpl; try done.
    + intros v. rewrite elem_of_app, list_elem_of_singleton. clear. naive_solver.
    + rewrite elem_of_app, list_elem_of_singleton. clear. naive_solver.
  - intros j. rewrite Hp. apply Ho.
  - intros p. simpl. rewrite elem_of_app, list_elem_of_singleton. intros [Hq| ->]; [by apply Hb|done].
Qed.

Lemma load_inv k s s' : inv s -> step s (LoadTotal k) = Some s' -> inv s'.
Proof.
  intros [Hc Hd Ho Hbu Hs Hn Hse] H. cbn [Netlinker.step] in H.
  destruct (busy s !! k) as [[|i v| |]|] eqn:Hk; try done.
  destruct (dumps s !! i) as [d|] eqn:Hi; [|done]. cbn [mbind option_bind] in H.
  destruct (busy_at _ _ _ Hk) as (rest & Hb & Hdel & Hb'). pose proof (Hd _ _ Hi) as Hdi.
  assert (0 < v <= decoded d) as Hv by (apply (di_added _ _ _ Hdi); rewrite Hb; by left).
  assert (busy s' ≡ₚ (if decide (v = total d) then [Matched i] else []) ++ rest) as Hbs.
  { case_decide; simplify_eq/=; by rewrite ?Hb'. }
  assert (outstanding s' ≡ₚ outstanding s /\ dumps s' = dumps s /\ cur s' = cur s /\
          packets s' = packets s /\ signals s' = signals s /\ doneCh s' = doneCh s /\ received s' = received s)
    as (Hp & Hds & Hcs & Hps & Hss & Hdc & Hrc).
  { apply holders_perm in Hb, Hbs. unfold outstanding. rewrite Hb, Hbs.
    case_decide; simplify_eq; done. }
  clear H. split; rewrite ?Hds, ?Hcs, ?Hss, ?Hdc, ?Hrc; try done; [|intros j; rewrite Hp; apply Ho|].
  - intros j dj Hj. destruct (decide (j = i)) as [->|Hne].
    + simplify_eq. destruct Hdi as [D1 D2 D3 D4 D5 D6 D7 D8 D9].
      assert (v = total d -> i <> cur s /\ decoded d = assigned d) as Hvt.
      { intros ->. destruct (decide (i = cur s)) as [Hcu|Hcu]; [destruct (D2 Hcu); lia|].
        split; [done|]. destruct (D3 Hcu) as [-> _]. pose proof (cnt_nonneg i (outstanding s)). lia. }
      split; rewrite ?Hcs, ?Hps, ?Hss; try done.
      * by rewrite (cnt_perm _ _ _ Hp).
      * intros w. rewrite Hbs, elem_of_app. intros [Hw|Hw]; [case_decide; set_solver|].
        apply D6. rewrite Hb. by right.
      * rewrite Hbs, elem_of_app. intros [Hw|Hw]; [case_decide; [auto|set_solver]|].
        apply D7. rewrite Hb. by right.
      * intros Hcu Heq. destruct (decide (v = total d)) as [Hvt'|Hvt'].
        { right; left. rewrite Hbs. by left. }
        simpl in Hbs. rewrite !Hbs.
        destruct (D8 Hcu Heq) as [?|[Hm|Hm]]; [by left|..]; rewrite Hb in Hm;
          apply elem_of_cons in Hm as [Hm|Hm]; simplify_eq; auto.
        exfalso. apply Hvt'. destruct (D3 Hcu). lia.
    + eapply dump_inv_ext; [by apply Hd|by apply cnt_perm|by rewrite Hcs|done|..].
      * intros w. rewrite Hbs, Hb, elem_of_app, elem_of_cons. case_decide; set_solver.
      * rewrite Hbs, Hb, elem_of_app, elem_of_cons. case_decide; set_solver.
      * by rewrite Hss.
  - intros p. rewrite Hbs, elem_of_app. intros [Hp'|Hp'].
    + case_decide; [|set_solver]. apply list_elem_of_singleton in Hp' as ->. by eapply lookup_lt_Some.
    + apply Hbu. rewrite Hb. by right.
Qed.

Lemma decode_inv k s s' : inv s -> step s (Decode k) = Some s' -> inv s'.
Proof.
  intros [Hc Hd Ho Hbu Hs Hn Hse] H. cbn [Netlinker.step] in H.
  destruct (busy s !! k) as [[i| | |]|] eqn:Hk; try done.
  destruct (dumps s !! i) as [d|] eqn:Hi; [|done]. cbn [mbind option_bind] in H.
  destruct (busy_at _ _ _ Hk) as (rest & Hb & Hdel & Hb'). pose proof (Hd _ _ Hi) as Hdi.
  injection H as <-. set (v := decoded d + 1) in *. specialize (Hb' (Added i v)).
  set (s' := with_busy _ _).
  assert (outstanding s ≡ₚ i :: outstanding s') as Hp.
  { apply holders_perm in Hb, Hb'. unfold outstanding; simpl. rewrite Hb, Hb'. simpl.
    solve_Permutation. }
  split; try done; simpl; rewrite ?length_insert; try done.
  - intros j dj Hj. destruct (decide (j = i)) as [->|Hne].
    + rewrite list_lookup_insert_eq in Hj by (by eapply lookup_lt_Some). injection Hj as <-.
      destruct Hdi as [D1 D2 D3 D4 D5 D6 D7 D8 D9].
      rewrite (cnt_perm _ _ _ Hp), cnt_cons, decide_True in D1 by done.
      pose proof (cnt_nonneg i (outstanding s')).
      split; simpl; try done; try lia.
      * intros Hsg. specialize (D5 Hsg). lia.
      * intros w. rewrite Hb', elem_of_cons. intros [Hw|Hw]; [simplify_eq; lia|].
        assert (0 < w <= decoded d) by (apply D6; rewrite Hb; by right). lia.
      * rewrite Hb', elem_of_cons. intros [Hw|Hw]; [done|].
        destruct D7 as [? Heq]; [rewrite Hb; by right|]. lia.
      * intros _ _. right; right. rewrite Hb'. by left.
    + rewrite list_lookup_insert_ne in Hj by done. eapply dump_inv_ext; [by apply Hd|..]; simpl; try done.
      * rewrite (cnt_perm _ _ _ Hp), cnt_cons, decide_False by done. lia.
      * intros w. rewrite Hb', Hb, !elem_of_cons. clear -Hne. naive_solver.
      * rewrite Hb', Hb, !elem_of_cons. clear. naive_solver.
  - intros j Hj. apply Ho. rewrite Hp. by right.
  - intros p. rewrite Hb', elem_of_cons. intros [->|Hq]; [by eapply lookup_lt_Some|].
    apply Hbu. rewrite Hb. by right.
Qed.

Lemma cas_inv k s s' : inv s -> step s (Cas k) = Some s' -> inv s'.
Proof.
  intros [Hc Hd Ho Hbu Hs Hn Hse] H. cbn [Netlinker.step] in H.
  destruct (busy s !! k) as [[| |i|]|] eqn:Hk; try done.
  destruct (dumps s !! i) as [d|] eqn:Hi; [|done]. cbn [mbind option_bind] in H.
  destruct (busy_at _ _ _ Hk) as (rest & Hb & Hdel & Hb'). pose proof (Hd _ _ Hi) as Hdi.
  assert (i < length (dumps s))%nat as Hlt by (by eapply lookup_lt_Some).
  destruct (di_matched _ _ _ Hdi) as [Hicur Heq]; [rewrite Hb; by left|].
  assert (exists d', dumps s' = <[i := d']> (dumps s) /\
    busy s' ≡ₚ (if signaled d then [] else [Signalling i]) ++ rest /\ cur s' = cur s /\
    packets s' = packets s /\ outstanding s' ≡ₚ outstanding s /\ d' = set_signaled d /\
    signals s' = (if signaled d then signals s else signals s ++ [i]) /\
    doneCh s' = (if signaled d then doneCh s else doneCh s ++ [inl i]) /\ received s' = received s)
    as (d' & Hds & Hbs & Hcs & Hps & Hp & Hd' & Hss & Hdc & Hrc).
  { exists (set_signaled d). specialize (Hb' (Signalling i)). apply holders_perm in Hb as Ho1, Hb' as Ho2.
    unfold outstanding. rewrite Ho1.
    destruct (signaled d) eqn:Esg; injection H as <-; simpl; rewrite ?Hdel, ?Ho2; split_and!; try done.
    rewrite list_insert_id; [done|]. rewrite Hi. f_equal. destruct d; by simplify_eq/=. }
  clear H. pose proof (di_signals _ _ _ Hdi) as Hsi.
  assert (forall p, p ∈ busy s' <-> p ∈ rest \/ (signaled d = false /\ p = Signalling i)) as Hbe.
  { intros p. rewrite Hbs. destruct (signaled d); cbn [app]; [|rewrite elem_of_cons]; naive_solver. }
  split; rewrite ?Hds, ?Hcs, ?length_insert; try done.
  - intros j dj Hj. destruct (decide (j = i)) as [->|Hne].
    + rewrite list_lookup_insert_eq in Hj by done. injection Hj as <-. subst d'.
      destruct Hdi as [D1 D2 D3 D4 D5 D6 D7 D8 D9].
      split; simpl; rewrite ?Hcs, ?Hps; try done.
      * by rewrite (cnt_perm _ _ _ Hp).
      * intros w [Hw|[_ ?]]%Hbe; [|done]. apply D6. rewrite Hb. by right.
      * intros _ _. by left.
      * rewrite Hss. split; [done|]. intros _. destruct (signaled d) eqn:Es; [by apply Hsi|set_solver].
    + rewrite list_lookup_insert_ne in Hj by done.
      eapply dump_inv_ext; [by apply Hd|by apply cnt_perm|by rewrite Hcs|done|..].
      * intros w. rewrite Hbe, Hb, elem_of_cons. clear. naive_solver.
      * rewrite Hbe, Hb, elem_of_cons. clear -Hne. naive_solver.
      * rewrite Hss. destruct (signaled d); [done|]. rewrite elem_of_app, list_elem_of_singleton.
        clear -Hne. naive_solver.
  - intros j. rewrite Hp. apply Ho.
  - intros p [Hp'|[_ ->]]%Hbe; [apply Hbu; rewrite Hb; by right|done].
  - intros j. rewrite Hss. destruct (signaled d); [apply Hs|].
    rewrite elem_of_app, list_elem_of_singleton. intros [?| ->]; auto.
  - rewrite Hss. destruct (signaled d) eqn:Es; [done|]. apply NoDup_app. split_and!; [done| |apply NoDup_singleton].
    intros j Hj Hx%list_elem_of_singleton. subst j. apply Hsi in Hj. done.
  - rewrite Hss, Hdc, Hrc. destruct (signaled d); [done|]. rewrite omap_app, Hse. cbn. by rewrite (assoc_L (++)).
Qed.

(** The dump a new packet belongs to, counted; [t] is its total from now on. *)
Lemma assigned_inv s s' d d' :
  dump_inv s (cur s) d -> cnt (cur s) (outstanding s') = 1 + cnt (cur s) (outstanding s) ->
  busy s' = busy s -> signals s' = signals s ->
  decoded d' = decoded d -> signaled d' = signaled d -> assigned d' = packets s + 1 ->
  (cur s' = cur s /\ total d' = 0 /\ packets s' = packets s + 1 \/
   cur s' <> cur s /\ total d' = packets s + 1) ->
  dump_inv s' (cur s) d'.
Proof.
  intros [D1 D2 D3 D4 D5 D6 D7 D8 D9] Hc Hb Hss Hdd Hds Hda Hcase.
  destruct (D2 eq_refl) as (Ht & Ha & Hsg). pose proof (cnt_nonneg (cur s) (outstanding s)).
  split; rewrite ?Hb, ?Hss, ?Hdd, ?Hds, ?Hc; try done.
  - lia.
  - intros Hi. destruct Hcase as [(? & ? & ?)|[? ?]]; [|congruence]. split_and!; [done|lia|done].
  - intros Hi. destruct Hcase as [(? & ? & ?)|[? ?]]; [congruence|]. lia.
  - intros Hx. congruence.
  - intros Hm. destruct (D7 Hm). congruence.
  - intros. lia.
Qed.

Lemma newDump_inv s s' : inv s ->
  cur s' = length (dumps s) -> packets s' = 0 -> (forall i, i ∈ outstanding s' -> (i <= cur s)%nat) ->
  busy s' = busy s -> signals s' = signals s ->
  dump_inv s' (length (dumps s)) newDump.
Proof.
  intros [Hc Hd Ho Hbu Hs Hn Hse] Hcs Hps Hout Hb Hss.
  split; simpl; rewrite ?Hb, ?Hss, ?Hps; try done.
  - cut (cnt (length (dumps s)) (outstanding s') = 0); [lia|]. apply cnt_zero. intros Hi%Hout. lia.
  - intros v Hv%Hbu. simpl in Hv. lia.
  - intros Hv%Hbu. simpl in Hv. lia.
  - split; [|done]. intros Hv%Hs. lia.
Qed.

Lemma recv_inv b s s' : inv s -> step s (Recv b) = Some s' -> inv s'.
Proof.
  intros Hinv H. pose proof Hinv as [Hc Hd Ho Hb Hs Hn Hse]. cbn [Netlinker.step] in H.
  destruct (handoff s) eqn:Hh; [done|]. unfold assign in H.
  destruct (packetHasDone b) as [hd|]; [|done]. cbn [mbind option_bind] in H.
  assert (outstanding s' = cur s :: outstanding s /\ busy s' = busy s /\ signals s' = signals s /\
    doneCh s' = doneCh s /\ received s' = received s) as (Hp & Hbs & Hss & Hch & Hrc).
  { unfold outstanding. rewrite Hh. destruct hd; injection H as <-; done. }
  destruct (lookup_lt_is_Some_2 (dumps s) (cur s)) as [d Hcur]; [lia|].
  assert (forall i di, i <> cur s -> (i < length (dumps s))%nat -> dumps s !! i = Some di ->
    (i = cur s' -> False) -> dump_inv s' i di) as Hother.
  { intros i di Hne Hlt Hi Hi'. eapply dump_inv_ext; [by apply Hd|..]; rewrite ?Hbs, ?Hss; try done.
    rewrite Hp, cnt_cons, decide_False by done. lia. }
  assert (cnt (cur s) (outstanding s') = 1 + cnt (cur s) (outstanding s)) as Hcnt.
  { rewrite Hp, cnt_cons, decide_True by done. done. }
  assert (length (dumps s) <= length (dumps s'))%nat as Hlen.
  { destruct hd; injection H as <-; simpl; rewrite ?length_app, length_alter; lia. }
  split; rewrite ?Hbs, ?Hss, ?Hch, ?Hrc; [| | | | |done|done].
  - destruct hd; injection H as <-; simpl; rewrite ?length_app, length_alter; simpl; lia.
  - pose proof (Hd _ _ Hcur) as Hdc. destruct (di_cur _ _ _ Hdc eq_refl) as (Ht & Ha & _).
    intros i di Hi. destruct (decide (i = cur s)) as [->|Hne].
    + assert (dumps s' !! cur s = Some ((if hd then set_total (packets s + 1) else id) (count_assigned d))) as Hl.
      { destruct hd; injection H as <-; simpl; rewrite ?lookup_app_l by (rewrite length_alter; lia);
          by rewrite list_lookup_alter_eq, Hcur. }
      rewrite Hl in Hi. injection Hi as <-.
      eapply assigned_inv; [exact Hdc|exact Hcnt|done|done|..]; destruct hd; try done;
        [simpl; lia..|right|left]; injection H as <-; simpl; split_and!; (done || lia).
    + assert (i < length (dumps s) -> dumps s' !! i = dumps s !! i)%nat as Hl.
      { intros Hlt. destruct hd; injection H as <-; simpl; rewrite ?lookup_app_l by (rewrite length_alter; lia);
          by rewrite list_lookup_alter_ne. }
      destruct (decide (i < length (dumps s))%nat) as [Hlt|Hlt].
      * rewrite Hl in Hi by done. apply Hother; [done..|]. destruct hd; injection H as <-; simpl; lia.
      * destruct hd; injection H as <-; simpl in Hi; pose proof (lookup_lt_Some _ _ _ Hi) as Hlt';
          rewrite ?length_app, length_alter in Hlt'; [simpl in Hlt'|lia].
        assert (i = length (dumps s)) as -> by lia.
        rewrite lookup_app_r, length_alter, Nat.sub_diag in Hi by (rewrite length_alter; lia).
        injection Hi as <-. eapply newDump_inv; try done. intros i. rewrite Hp.
        intros [->|Hi%Ho]%elem_of_cons; lia.
  - intros i. rewrite Hp. intros [->|Hi%Ho]%elem_of_cons; lia.
  - intros p Hp'%Hb. lia.
  - intros i Hi%Hs. lia.
Qed.

Lemma sent_inv k s s' : inv s -> step s (Sent k) = Some s' -> inv s'.
Proof.
  intros [Hc Hd Ho Hbu Hs Hn Hse] H. cbn [Netlinker.step] in H.
  destruct (busy s !! k) as [[| | |i]|] eqn:Hk; try done. case_guard; [|done].
  destruct (busy_at _ _ _ Hk) as (rest & Hb & Hdel & _). injection H as <-. rewrite Hdel.
  assert (outstanding (with_busy rest s) ≡ₚ outstanding s) as Hp.
  { apply holders_perm in Hb. unfold outstanding; simpl. by rewrite Hb. }
  split; try done.
  - intros j d Hj. eapply dump_inv_ext; [by apply Hd|by apply cnt_perm|done|done|..]; simpl; try done.
    + intros v. rewrite Hb, elem_of_cons. clear. naive_solver.
    + rewrite Hb, elem_of_cons. clear. naive_solver.
  - intros j. rewrite Hp. apply Ho.
  - intros p Hp'. apply Hbu. rewrite Hb. by right.
Qed.
Lemma doneCh_inv l r s : inv s -> r ++ omap own l ≡ₚ received s ++ omap own (doneCh s) -> inv (with_doneCh l r s).
Proof.
  intros [Hc Hd Ho Hb Hs Hn Hse] H. split; try done; [|by rewrite Hse, <- H].
  intros i d Hi. by eapply dump_inv_ext; [by apply Hd|..].
Qed.

Lemma step_inv s ev s' : inv s -> step s ev = Some s' -> inv s'.
Proof.
  intros Hs H. destruct ev; [by eapply recv_inv|by eapply send_inv|by eapply take_inv|by eapply decode_inv|by eapply load_inv|by eapply cas_inv|by eapply sent_inv|..];
    cbn [Netlinker.step] in H.
  - injection H as <-. apply doneCh_inv; [done|]. rewrite omap_app. cbn. by rewrite app_nil_r.
  - destruct (doneCh s) as [|[i|fd] rest] eqn:E; [done|..]; injection H as <-; apply doneCh_inv; try done; rewrite E; cbn; solve_Permutation.
Qed.

Lemma reachable_inv s : reachable conf s -> inv s.
Proof. induction 1; [apply start_inv|by eapply step_inv]. Qed.

(** ** Progress *)

(** Steps still to come before the packets received so far are dealt with. *)
Definition phase_steps (p : phase) : nat :=
  match p with Holding _ => 4 | Added _ _ => 3 | Matched _ => 2 | Signalling _ => 1 end.
Definition pending (s : NState) : nat :=
  6 * length (option_list (handoff s)) + 5 * length (packetCh s) + sum_list_with phase_steps (busy s).
(** Values the Poller has to receive before the last of this socket's is. *)
Fixpoint ahead (l : list (nat + Z)) : nat :=
  match l with
  | [] => 0
  | v :: l => match ahead l, v with O, inr _ => 0 | n, _ => S n end
  end.
(** A step of the receiver or a decoder, other than receiving a packet. *)
Definition mine (ev : event) : bool := match ev with Recv _ | OtherDone _ | PollerRecv => false | _ => true end.

Lemma sum_list_with_perm {A} (f : A -> nat) l k : l ≡ₚ k -> sum_list_with f l = sum_list_with f k.
Proof. induction 1; simpl; lia. Qed.
Lemma ahead_other l fd : ahead (l ++ [inr fd]) = ahead l.
Proof. induction l as [|v l IH]; [done|]. cbn [app ahead]. by rewrite IH. Qed.
Lemma ahead_in l i : inl i ∈ l -> (0 < ahead l)%nat.
Proof.
  induction l as [|v l IH]; intros H; [by inversion H|]. cbn [ahead]. apply elem_of_cons in H as [<-|H].
  - destruct (ahead l); lia.
  - specialize (IH H). destruct (ahead l); lia.
Qed.
Lemma ahead_tail v l : ahead l = pred (ahead (v :: l)).
Proof. cbn [ahead]. destruct (ahead l), v; done. Qed.

Lemma step_decreases s ev s' : mine ev = true -> step s ev = Some s' -> (pending s' < pending s)%nat.
Proof.
  intros Hm H. destruct ev as [b| | |k|k|k|k| |]; try done; cbn [Netlinker.step] in H; unfold pending.
  - destruct (handoff s); [|done]. case_guard; [|done]. injection H as <-; simpl.
    rewrite length_app; simpl; lia.
  - destruct (packetCh s); [done|]. case_guard; [|done]. injection H as <-; simpl.
    rewrite sum_list_with_app; simpl; lia.
  - destruct (busy s !! k) as [[i| | |]|] eqn:Hk; try done. destruct (dumps s !! i); [|done].
    destruct (busy_at _ _ _ Hk) as (rest & Hb & _ & Hb'). injection H as <-; simpl.
    rewrite (sum_list_with_perm _ _ _ Hb), (sum_list_with_perm _ _ _ (Hb' _)); simpl; lia.
  - destruct (busy s !! k) as [[|i v| |]|] eqn:Hk; try done. destruct (dumps s !! i) as [d|]; [|done].
    destruct (busy_at _ _ _ Hk) as (rest & Hb & Hdel & Hb'). cbn [mbind option_bind] in H.
    case_decide; injection H as <-; simpl; rewrite (sum_list_with_perm _ _ _ Hb);
      rewrite ?Hdel, ?(sum_list_with_perm _ _ _ (Hb' _)); simpl; lia.
  - destruct (busy s !! k) as [[| |i|]|] eqn:Hk; try done. destruct (dumps s !! i) as [d|]; [|done].
    destruct (busy_at _ _ _ Hk) as (rest & Hb & Hdel & Hb'). cbn [mbind option_bind] in H.
    destruct (signaled d); injection H as <-; simpl; rewrite (sum_list_with_perm _ _ _ Hb);
      rewrite ?Hdel, ?(sum_list_with_perm _ _ _ (Hb' _)); simpl; lia.
  - destruct (busy s !! k) as [[| | |i]|] eqn:Hk; try done. case_guard; [|done].
    destruct (busy_at _ _ _ Hk) as (rest & Hb & Hdel & _). injection H as <-; simpl.
    rewrite (sum_list_with_perm _ _ _ Hb), Hdel; simpl; lia.
Qed.

(** The receiver or a decoder can take a step while work is pending, unless its
    signal waits for the Poller. *)
Lemma step_enabled s : inv s -> pending s <> 0%nat ->
  (exists ev s', mine ev = true /\ step s ev = Some s') \/ (0 < ahead (doneCh s))%nat.
Proof.
  intros [Hc Hd Ho Hbu Hs Hn Hse] Hp. destruct (busy s) as [|p l] eqn:Hb.
  - left. destruct (packetCh s) as [|i rest] eqn:Hch.
    + destruct (handoff s) as [i|] eqn:Hh; [|unfold pending in Hp; rewrite Hb, Hch, Hh in Hp; done].
      eexists SendCh, _. split; [done|]. cbn [Netlinker.step]. rewrite Hh, Hch.
      rewrite option_guard_True; [done|]. unfold startDecoders. simpl. lia.
    + eexists Take, _. split; [done|]. cbn [Netlinker.step]. rewrite Hch, Hb.
      rewrite option_guard_True; [done|]. unfold startDecoders. simpl. lia.
  - destruct (lookup_lt_is_Some_2 (dumps s) (phase_dump p)) as [d Hi]; [apply Hbu; by left|].
    destruct p as [i|i v|i|i]; [left; exists (Decode 0)|left; exists (LoadTotal 0)|left; exists (Cas 0)|];
      [eexists; (split; [done|]); cbn [Netlinker.step]; rewrite Hb; cbn [lookup list_lookup phase_dump] in *;
      rewrite Hi; done..|].
    destruct (decide (inl i ∉ drop (NetlinkersDoneChanSize conf) (doneCh s))) as [Hr|Hr].
    + left. exists (Sent 0). eexists. split; [done|]. cbn [Netlinker.step]. rewrite Hb. cbn [lookup list_lookup].
      by rewrite option_guard_True.
    + right. apply dec_stable in Hr. apply (ahead_in _ i). rewrite <- (take_drop (NetlinkersDoneChanSize conf) (doneCh s)). apply elem_of_app. by right.
Qed.

(** With nothing pending every dump that has ended has been signalled. *)
Lemma quiet_signalled s i : inv s -> pending s = 0%nat -> (i < cur s)%nat -> i ∈ signals s.
Proof.
  intros [Hc Hd Ho Hbu Hs Hn Hse] Hp Hi. destruct (lookup_lt_is_Some_2 (dumps s) i) as [d Hdi]; [lia|].
  unfold pending in Hp. destruct (handoff s) eqn:Hh, (packetCh s) eqn:Hch; simpl in Hp; try lia.
  assert (busy s = []) as Hb by (destruct (busy s) as [|[] ?]; simpl in Hp; [done|lia..]).
  destruct (Hd _ _ Hdi) as [D1 _ D3 _ _ _ _ D8 D9].
  assert (decoded d = assigned d) as Heq.
  { unfold outstanding in D1. rewrite Hh, Hch, Hb in D1. unfold cnt in D1. simpl in D1. lia. }
  apply D9. rewrite Hb in D8. destruct D8 as [?|[Hx|Hx]]; [lia|done|done|inversion Hx|inversion Hx].
Qed.
Lemma none_ahead s : inv s -> ahead (doneCh s) = 0%nat -> signals s ≡ₚ received s.
Proof.
  intros Hi Ha. rewrite (in_sent _ Hi). cut (omap own (doneCh s) = []); [intros ->; by rewrite app_nil_r|].
  destruct (omap own (doneCh s)) as [|i l] eqn:E; [done|]. exfalso.
  assert (i ∈ omap own (doneCh s)) as ([j|fd] & Hin & Hj)%list_elem_of_omap by (rewrite E; by left); [|done].
  apply ahead_in in Hin. lia.
Qed.

Lemma run_reachable s evs s' : reachable conf s -> run conf s evs = Some s' -> reachable conf s'.
Proof.
  revert s; induction evs as [|ev evs IH]; intros s Hs H; cbn [run] in H; [by simplify_eq|].
  apply bind_Some in H as (s1 & H1 & H). eapply IH; [|exact H]. by eapply reach_step.
Qed.
End Steps.

(** ** The done signal *)

(** C7: at every point of every interleaving, each dump has been signalled done
    at most once, and a signalled dump has ended (its NLMSG_DONE packet was
    received) and all of its packets have been deserialized. *)
Theorem done_signal_safe conf s :
  reachable conf s ->
  NoDup (signals s) /\
  forall i, i ∈ signals s -> (i < cur s)%nat /\ i ∉ outstanding s /\
    exists d, dumps s !! i = Some d /\ total d = assigned d /\ decoded d = total d.
Proof.
  intros [Hc Hd Ho Hb Hs Hn Hse]%reachable_inv. split; [done|]. intros i Hi.
  destruct (lookup_lt_is_Some_2 (dumps s) i) as [d Hdi]; [by apply Hs|].
  destruct (Hd _ _ Hdi) as [D1 D2 D3 _ D5 _ _ _ D9]. apply D9 in Hi. specialize (D5 Hi).
  assert (i <> cur s) as Hne by (intros Hx; destruct (D2 Hx) as (_ & _ & ?); congruence).
  destruct (D3 Hne). apply lookup_lt_Some in Hdi as ?.
  split_and!; [lia|apply cnt_zero; lia|eauto with lia].
Qed.

(** C8: the done signal of a dump is never lost, as long as the Poller goes on
    receiving. While a received packet is not dealt with, the receiver or a
    decoder can take a step, or is blocked on a signal that waits its turn in the
    full netlinkerDoneCh; each of their steps brings the end nearer, each of the
    Poller's receives brings the turn nearer, and other sockets' signals do
    not put either off. Once nothing is left to do and no signal waits, every
    dump that has ended has been received as done by the Poller, exactly once. *)
Theorem done_signal_live conf s :
  reachable conf s ->
  (pending s <> 0%nat -> (exists ev s', mine ev = true /\ step conf s ev = Some s') \/
     ((0 < ahead (doneCh s))%nat /\ exists s', step conf s PollerRecv = Some s')) /\
  (forall ev s', step conf s ev = Some s' ->
     match ev with
     | Recv _ => True
     | OtherDone _ => pending s' = pending s /\ ahead (doneCh s') = ahead (doneCh s)
     | PollerRecv => pending s' = pending s /\ ahead (doneCh s') = pred (ahead (doneCh s))
     | _ => (pending s' < pending s)%nat
     end) /\
  (pending s = 0%nat -> ahead (doneCh s) = 0%nat -> NoDup (received s) /\ forall i, (i < cur s)%nat -> i ∈ received s).
Proof.
  intros Hs%reachable_inv. split_and!.
  - intros Hp. destruct (step_enabled conf s Hs Hp) as [H|H]; [by left|right]. split; [done|].
    cbn [step]. destruct (doneCh s) as [|[i|fd] l]; [cbn in H; lia|by eexists..].
  - intros ev s' H. destruct ev; try done; try by refine (step_decreases conf s _ s' _ H); cbn [step] in H.
    + injection H as <-. split; [done|apply ahead_other].
    + unfold step in H. destruct (doneCh s) as [|v l]; [done|]. destruct v; injection H as <-; (split; [done|]); apply ahead_tail.
  - intros Hp Ha. pose proof (none_ahead s Hs Ha) as Hr. split; [rewrite <- Hr; apply (in_nodup _ Hs)|].
    intros i Hi. rewrite <- Hr. by apply quiet_signalled.
Qed.

(** Two dumps of two packets on one socket: packet [data_packet] holds no
    NLMSG_DONE, [done_packet] is one. *)
Definition data_packet : bytes := le_split 4 20 ++ le_split 2 20 ++ replicate 14 0.
Definition done_packet : bytes := le_split 4 20 ++ le_split 2 3 ++ replicate 14 0.

(** Two decoders and a channel of one place, which another socket's signal has
    taken; the done packet overtakes the data packet of its dump. *)
Definition demo_conf : config := mkConf 2 1.
Definition demo_events : list event :=
  [OtherDone 9; Recv data_packet; SendCh; Recv done_packet; SendCh; Take; Take; Decode 1; LoadTotal 1; Decode 0;
   Recv data_packet; LoadTotal 0; Cas 0].
Definition demo_state : NState := default newDumpTracker (run demo_conf newDumpTracker demo_events).

Lemma demo_reachable : reachable demo_conf demo_state.
Proof.
  unfold demo_state. destruct (run demo_conf newDumpTracker demo_events) as [s|] eqn:E; simpl;
    [eapply run_reachable; [|exact E]|]; constructor.
Qed.

Lemma done_signal_safe_witness :
  signals demo_state = [0%nat] /\ outstanding demo_state = [1%nat] /\ NoDup (signals demo_state).
Proof.
  split; [vm_compute; reflexivity|]. split; [vm_compute; reflexivity|].
  apply (done_signal_safe demo_conf demo_state demo_reachable).
Defined.

(** The decoder is blocked: only the Poller's receive lets it go on. *)
Lemma done_signal_live_witness :
  busy demo_state = [Signalling 0] /\ step demo_conf demo_state (Sent 0) = None /\ ahead (doneCh demo_state) = 2%nat /\
  exists s', step demo_conf demo_state PollerRecv = Some s' /\ pending s' = pending demo_state /\ ahead (doneCh s') = 1%nat.
Proof.
  split; [vm_compute; reflexivity|]. split; [vm_compute; reflexivity|]. split; [vm_compute; reflexivity|].
  destruct (done_signal_live demo_conf demo_state demo_reachable) as (_ & Hm & _).
  assert (exists s', step demo_conf demo_state PollerRecv = Some s') as [s' Hs'] by (eexists; vm_compute; reflexivity).
  exists s'. split; [exact Hs'|]. exact (Hm _ _ Hs').
Defined.
