(* ===== verification/IoRing.v ===== *)
(** The io_uring wrapper (pkg/io_uring/codec.go and ring.go): the user data that
    tags a submission, the in-flight map that keeps a buffer from submission to
    completion, the provided receive buffers, and the teardown.

    The kernel and giouring stand outside: whether GetSQE has a slot, and the
    completions a peek or a wait brings, are arguments.  A pool buffer is known
    by its identity, a number.  The structs an entry only pins in memory (Msghdr,
    Iovec) are left out. *)

From stdpp Require Import gmap.
From S2P Require Import Prelude.

(** ** User data *)

Definition OpRead : Z := 0.
Definition OpSendUDP : Z := 1.
Definition OpSendUnix : Z := 2.
Definition OpSendUnixGram : Z := 3.
Definition OpRecvMultishot : Z := 4.
Definition OpCancel : Z := 5.

Record EncodedRequest := mkReq { Operation : Z; RequestID : Z }.
Definition serialize (req : EncodedRequest) : Z := Z.lor (Z.shiftl (Operation req) 56) (RequestID req).
Definition deserialize (data : Z) : EncodedRequest := mkReq (uint8 (Z.shiftr data 56)) (uint32 data).

(** ** The ring *)

Record inFlight := mkInFlight { if_op : Z; if_buf : option Z; if_wvHdr : bytes }.
(** Config; the queue sizes and the buffers' count and size. *)
Record Config := mkConfig { RecvBatchSize : Z; CQEBatchSize : Z; RecvBufSize : Z }.
(** [r_open] is [r.r != nil], [r_recvBufCount] is 0 without a buffer ring. *)
Record Ring := mkRing {
  r_open : bool; r_cfg : Config; r_nextReqID : Z; r_inFlight : gmap Z inFlight; r_inFlightCap : Z;
  r_recvBufCount : Z; r_recvBufSize : Z }.

Definition maxRecvBufs : Z := 2 ^ 15.
(** The loop doubles [c] until it reaches [n] or the limit. *)
Fixpoint recvBufCount_loop (fuel : nat) (n c : Z) : Z :=
  match fuel with
  | O => c
  | S fuel => if decide (c < n /\ c < maxRecvBufs) then recvBufCount_loop fuel n (Z.shiftl c 1) else c
  end.
Definition recvBufCountFor (n : Z) : Z := recvBufCount_loop 16 n 1.
#[global] Arguments recvBufCountFor : simpl never.

Inductive ring_err :=
  | ErrConfig | ErrProbe | ErrQueueInit | ErrRecvBufs | ErrEmptyBuffer | ErrNilBuffer | ErrEmptyHeader
  | ErrUnsupportedOp | ErrInFlightCap | ErrSQFull | ErrNoBufferRing.

(** What the system calls of [New] answer. *)
Record setup := mkSetup { su_probe : bool; su_queue : bool; su_bufs : bool }.
Definition New (cfg : Config) (s : setup) : Ring + ring_err :=
  if decide (RecvBatchSize cfg < 1) then inr ErrConfig else
  if decide (CQEBatchSize cfg < 1) then inr ErrConfig else
  if negb (su_probe s) then inr ErrProbe else
  let sqEntries := uint32 (RecvBatchSize cfg * 2) in
  let sqEntries := if decide (sqEntries < 256) then 256 else sqEntries in
  if negb (su_queue s) then inr ErrQueueInit else
  let r := mkRing true cfg 0 ∅ (sqEntries * 2) 0 0 in
  if decide (0 < RecvBufSize cfg) then
    if su_bufs s
    then inl (mkRing true cfg 0 ∅ (sqEntries * 2) (recvBufCountFor (RecvBatchSize cfg)) (RecvBufSize cfg))
    else inr ErrRecvBufs
  else inl r.

(** A submission: its operation with what it names, and its user data. *)
Inductive sqe_op :=
  | SqeRecvMsg (fd : Z) (buf : Z)
  | SqeRecvMultishot (fd : Z)
  | SqeSend (fd : Z) (buf : Z)
  | SqeWritev (fd : Z) (header : bytes) (payload : Z) (iovCount : Z)
  | SqeCancel (target : Z).
Record Sqe := mkSqe { sq_op : sqe_op; sq_data : Z }.

Definition set_inFlight (m : gmap Z inFlight) (r : Ring) : Ring :=
  mkRing (r_open r) (r_cfg r) (r_nextReqID r) m (r_inFlightCap r) (r_recvBufCount r) (r_recvBufSize r).
(** The counter is a uint32 and wraps. *)
Definition NextRequestID (r : Ring) : Ring * Z :=
  let id := uint32 (r_nextReqID r + 1) in
  (mkRing (r_open r) (r_cfg r) id (r_inFlight r) (r_inFlightCap r) (r_recvBufCount r) (r_recvBufSize r), id).
Definition in_flight_len (r : Ring) : Z := Z.of_nat (size (r_inFlight r)).

(** Stamps a submission and keeps its entry. *)
Definition submit_entry (op : sqe_op) (e : inFlight) (r : Ring) : Ring * Sqe * Z :=
  let '(r, id) := NextRequestID r in
  (set_inFlight (<[id := e]> (r_inFlight r)) r, mkSqe op (serialize (mkReq (if_op e) id)), id).
(** The two checks every enqueue makes before it takes a slot. *)
Definition enqueue (slot : bool) (op : sqe_op) (e : inFlight) (r : Ring) : Ring * (Sqe * Z + ring_err) :=
  if decide (r_inFlightCap r <= in_flight_len r) then (r, inr ErrInFlightCap) else
  if negb slot then (r, inr ErrSQFull) else
  let '(r, sqe, id) := submit_entry op e r in (r, inl (sqe, id)).

(** A buffer argument is its identity and its length; nil is [None]. *)
Definition EnqueueRecvMsg (fd : Z) (buf : option (Z * Z)) (slot : bool) (r : Ring) : Ring * (Sqe * Z + ring_err) :=
  match buf with
  | None => (r, inr ErrEmptyBuffer)
  | Some (b, n) =>
      if decide (n = 0) then (r, inr ErrEmptyBuffer) else enqueue slot (SqeRecvMsg fd b) (mkInFlight OpRead (Some b) []) r
  end.
Definition EnqueueRecvMultishot (fd : Z) (slot : bool) (r : Ring) : Ring * (Sqe * Z + ring_err) :=
  if decide (r_recvBufCount r = 0) then (r, inr ErrNoBufferRing) else
  enqueue slot (SqeRecvMultishot fd) (mkInFlight OpRecvMultishot None []) r.
Definition EnqueueSend (fd : Z) (buf : option Z) (op : Z) (slot : bool) (r : Ring) : Ring * (Sqe * Z + ring_err) :=
  match buf with
  | None => (r, inr ErrNilBuffer)
  | Some b =>
      if decide (op <> OpSendUDP /\ op <> OpSendUnixGram) then (r, inr ErrUnsupportedOp) else
      enqueue slot (SqeSend fd b) (mkInFlight op (Some b) []) r
  end.
Definition EnqueueWritevUnix (fd : Z) (header : bytes) (payload : option (Z * Z)) (slot : bool) (r : Ring)
    : Ring * (Sqe * Z + ring_err) :=
  match payload with
  | None => (r, inr ErrNilBuffer)
  | Some (b, n) =>
      if decide (glen header = 0) then (r, inr ErrEmptyHeader) else
      enqueue slot (SqeWritev fd header b (if decide (0 < n) then 2 else 1)) (mkInFlight OpSendUnix (Some b) header) r
  end.

(** *** Completions *)

Record CQE := mkCQE { cq_data : Z; cq_Res : Z; cq_Flags : Z }.
Definition CQEFBuffer : Z := 1.
Definition CQEFMore : Z := 2.
Definition CQEBufferShift : Z := 16.

(** [res_Data] is the length of the received packet in buffer [res_BufID], which
    it aliases: what it holds is read when it is copied. *)
Record Result := mkResult {
  res_Op : Z; res_Res : Z; res_Buf : option Z; res_HdrBytes : bytes; res_More : bool;
  res_Data : option Z; res_BufID : Z }.

(** [r.recvBuf(bid)[:n]]: a bid or a length past the buffers panics. *)
Definition recvBuf (r : Ring) (bid n : Z) : go Z :=
  if decide (0 <= bid < r_recvBufCount r /\ 0 <= n <= r_recvBufSize r) then Some n else None.
Definition drain_one (c : CQE) (r : Ring) : go (Ring * Result) :=
  let req := deserialize (cq_data c) in
  let more := bool_decide (Z.land (cq_Flags c) CQEFMore <> 0) in
  let entry := r_inFlight r !! RequestID req in
  let r' := if bool_decide (is_Some entry) && negb more then set_inFlight (delete (RequestID req) (r_inFlight r)) r else r in
  let entry := default (mkInFlight 0 None []) entry in
  let res data bid := mkResult (Operation req) (cq_Res c) (if_buf entry) (if_wvHdr entry) more data bid in
  if decide (Z.land (cq_Flags c) CQEFBuffer <> 0 /\ r_recvBufCount r <> 0) then
    let bid := uint16 (Z.shiftr (cq_Flags c) CQEBufferShift) in
    n ← recvBuf r bid (Z.max (cq_Res c) 0); Some (r', res (Some n) bid)
  else Some (r', res None 0).
(** The completions a peek brought, at most CQEBatchSize of them. *)
Fixpoint drainOnce (cqes : list CQE) (r : Ring) : go (Ring * list Result) :=
  match cqes with
  | [] => Some (r, [])
  | c :: cqes => '(r, x) ← drain_one c r; '(r, xs) ← drainOnce cqes r; Some (r, x :: xs)
  end.
Definition DrainBatch := drainOnce.

(** *** Teardown *)

Definition ETIME : Z := 62.
(** What a pass of Close's drain loop meets: completions that had arrived, the
    completions of a wait, a wait that timed out or failed, or the deadline. *)
Inductive drain_event := Peeked (l : list CQE) | Waited (l : list CQE) | TimedOut | WaitFailed | DeadlinePassed.
Inductive drainOutcome := drainContinue | drainAbort.
Definition waitForNextDrainCQE (e : drain_event) (r : Ring) : go (Ring * list Result * drainOutcome) :=
  match e with
  | Waited l => '(r, xs) ← drainOnce l r; Some (r, xs, drainContinue)
  | TimedOut => Some (r, [], drainContinue)
  | _ => Some (r, [], drainAbort)
  end.

(** The loop over the events up to the deadline; [xs] are the results already
    handed to onDrain. *)
Fixpoint close_loop (es : list drain_event) (r : Ring) (xs : list Result) : go (Ring * list Result) :=
  match es with
  | [] | DeadlinePassed :: _ => Some (r, xs)
  | e :: es =>
      if decide (in_flight_len r <= 0) then Some (r, xs) else
      match e with
      | Peeked (c :: l) => '(r, ys) ← drainOnce (c :: l) r; close_loop es r (xs ++ ys)
      | _ =>
          '(r, ys, o) ← waitForNextDrainCQE e r;
          match o with drainAbort => Some (r, xs) | drainContinue => close_loop es r (xs ++ ys) end
      end
  end.
(** The submissions of cancelMultishot: one for each armed multishot recv, in
    the map's order, until GetSQE has no slot. *)
Fixpoint cancel_loop (l : list (Z * inFlight)) (slots : list bool) (sqes : list Sqe) : list Sqe * bool :=
  match l with
  | [] => (sqes, true)
  | (id, e) :: l =>
      if decide (if_op e <> OpRecvMultishot) then cancel_loop l slots sqes else
      match slots with
      | true :: slots => cancel_loop l slots
          (sqes ++ [mkSqe (SqeCancel (serialize (mkReq OpRecvMultishot id))) (serialize (mkReq OpCancel 0))])
      | _ => (sqes, false)
      end
  end.
(** [submit] is the answer of the Submit, which is made when something is queued. *)
Definition cancelMultishot (order : list (Z * inFlight)) (slots : list bool) (submit : bool) : list Sqe * bool :=
  let '(sqes, ok) := cancel_loop order slots [] in
  (sqes, ok && match sqes with [] => true | _ => submit end).
Definition abandoned (e : inFlight) : Result :=
  mkResult (if_op e) (- ETIME) (if_buf e) (if_wvHdr e) false None 0.
Definition dispatchAbandonedInFlight (onDrain : bool) (order : list (Z * inFlight)) (r : Ring) : Ring * list Result :=
  (set_inFlight ∅ r, if onDrain then (fun p => abandoned p.2) <$> order else []).
Definition dispatchDrainResults (onDrain : bool) (xs : list Result) : list Result := if onDrain then xs else [].
(** Close: the ring it leaves and what onDrain was given, if it is not nil. Both traversals of the
    map go in an order of their own. *)
Record close_env := mkCloseEnv {
  ce_cancel : list (Z * inFlight); ce_slots : list bool; ce_submit : bool; ce_events : list drain_event;
  ce_order : gmap Z inFlight -> list (Z * inFlight) }.
Definition Close (onDrain : bool) (env : close_env) (r : Ring) : go (Ring * list Result) :=
  if negb (r_open r) then Some (r, []) else
  let '(_, ok) := cancelMultishot (ce_cancel env) (ce_slots env) (ce_submit env) in
  '(r, xs) ← (if ok : bool then close_loop (ce_events env) r [] else Some (r, []));
  let r := mkRing false (r_cfg r) (r_nextReqID r) (r_inFlight r) (r_inFlightCap r) (r_recvBufCount r) (r_recvBufSize r) in
  let '(r, ys) := dispatchAbandonedInFlight onDrain (ce_order env (r_inFlight r)) r in
  Some (mkRing false (r_cfg r) (r_nextReqID r) (r_inFlight r) (r_inFlightCap r) 0 (r_recvBufSize r), dispatchDrainResults onDrain xs ++ ys).

(** ** User data: lemmas and round trip *)

Definition wf_req (q : EncodedRequest) : Prop := 0 <= Operation q < 2 ^ 8 /\ 0 <= RequestID q < 2 ^ 32.
#[export] Instance wf_req_dec q : Decision (wf_req q). Proof. unfold wf_req. apply _. Defined.

Lemma serialize_sum q : wf_req q -> serialize q = Operation q * 2 ^ 56 + RequestID q.
Proof.
  intros [Ho Hi]. unfold serialize. rewrite Z.shiftl_mul_pow2 by lia.
  rewrite <- (Z.add_lor_land). replace (Z.land _ _) with 0; [lia|]. symmetry. apply Z.bits_inj'. intros n Hn.
  rewrite Z.land_spec, Z.bits_0. destruct (decide (n < 56)).
  - by rewrite Z.mul_pow2_bits_low by lia.
  - rewrite <- (Z.mod_small (RequestID q) (2 ^ 32)) by lia. rewrite (Z.mod_pow2_bits_high (RequestID q)) by lia. apply andb_false_r.
Qed.
Lemma deserialize_serialize q : wf_req q -> deserialize (serialize q) = q.
Proof.
  intros Hq. rewrite serialize_sum by done. destruct q as [o i], Hq as [Ho Hi]. cbn [Operation RequestID] in *.
  unfold deserialize, uint8, uint32. rewrite Z.shiftr_div_pow2 by lia. f_equal.
  - rewrite Z.div_add_l, (Z.div_small i) by lia. rewrite Z.add_0_r. apply Z.mod_small. lia.
  - replace (o * 2 ^ 56 + i) with (i + (o * 2 ^ 24) * 2 ^ 32) by lia. rewrite Z.mod_add, Z.mod_small by lia. done.
Qed.

(** The user data of a submission is a 64-bit word with its middle 24 bits
    zero, and the operation and request id are read back from it, so no two
    requests share a word. *)
Theorem userdata_roundtrip q : wf_req q ->
  deserialize (serialize q) = q /\ 0 <= serialize q < 2 ^ 64 /\ Z.shiftr (serialize q) 32 mod 2 ^ 24 = 0 /\
  forall p, wf_req p -> serialize p = serialize q -> p = q.
Proof.
  intros Hq. split; [by apply deserialize_serialize|]. pose proof Hq as [Ho Hi]. split; [rewrite serialize_sum by done; lia|]. split.
  - rewrite serialize_sum, Z.shiftr_div_pow2 by (done || lia).
    replace (Operation q * 2 ^ 56 + RequestID q) with ((Operation q * 2 ^ 24) * 2 ^ 32 + RequestID q) by lia.
    rewrite Z.div_add_l, (Z.div_small (RequestID q)), Z.add_0_r by lia. apply Z.mod_mul. lia.
  - intros p Hp He. rewrite <- (deserialize_serialize p), <- (deserialize_serialize q) by done. by rewrite He.
Qed.

(** ** Buffers: who holds them *)

(** The pool buffers the ring holds, and those a list of results hands back. *)
Definition held (m : gmap Z inFlight) : list Z := omap (fun p => if_buf p.2) (map_to_list m).
Definition handed (xs : list Result) : list Z := omap res_Buf xs.

Lemma held_empty : held ∅ = [].
Proof. unfold held. by rewrite map_to_list_empty. Qed.
Lemma held_list m l : l ≡ₚ map_to_list m -> omap (fun p => if_buf p.2) l ≡ₚ held m.
Proof. intros Hl. unfold held. by rewrite Hl. Qed.
Lemma held_insert m id e : m !! id = None -> held (<[id := e]> m) ≡ₚ option_list (if_buf e) ++ held m.
Proof.
  intros Hm. unfold held. rewrite map_to_list_insert by done. cbn. by destruct (if_buf e).
Qed.
Lemma held_delete m id e : m !! id = Some e -> held m ≡ₚ option_list (if_buf e) ++ held (delete id m).
Proof.
  intros Hm. rewrite <- (insert_delete_id m id e Hm) at 1. apply held_insert, lookup_delete_eq.
Qed.

(** The kernel's side: only the completions of a multishot recv carry MORE, and
    its entry keeps no buffer; a buffer id and length are within the ring's. *)
Definition cqe_id (c : CQE) : Z := RequestID (deserialize (cq_data c)).
Definition cqe_more (c : CQE) : bool := bool_decide (Z.land (cq_Flags c) CQEFMore <> 0).
Definition cqe_bid (c : CQE) : Z := uint16 (Z.shiftr (cq_Flags c) CQEBufferShift).
Definition cqe_ok (r : Ring) (c : CQE) : Prop :=
  (forall e, r_inFlight r !! cqe_id c = Some e -> cqe_more c = true -> if_buf e = None) /\
  (Z.land (cq_Flags c) CQEFBuffer <> 0 -> r_recvBufCount r <> 0 -> cqe_bid c < r_recvBufCount r /\ Z.max (cq_Res c) 0 <= r_recvBufSize r).
(** [r'] is [r] with fewer requests in flight. *)
Record drained (r r' : Ring) : Prop := mkDrained {
  dr_open : r_open r' = r_open r; dr_cfg : r_cfg r' = r_cfg r; dr_next : r_nextReqID r' = r_nextReqID r;
  dr_cap : r_inFlightCap r' = r_inFlightCap r; dr_count : r_recvBufCount r' = r_recvBufCount r;
  dr_size : r_recvBufSize r' = r_recvBufSize r; dr_sub : r_inFlight r' ⊆ r_inFlight r }.
Lemma drained_refl r : drained r r. Proof. by split. Qed.
Lemma drained_trans a b c : drained a b -> drained b c -> drained a c.
Proof. intros [] []. split; try congruence. by etrans. Qed.
Lemma cqe_ok_drained r r' c : drained r r' -> cqe_ok r c -> cqe_ok r' c.
Proof.
  intros [? ? ? ? Hc Hs Hsub] [H1 H2]. split; rewrite ?Hc, ?Hs; [|done]. intros e He. apply H1. by eapply lookup_weaken.
Qed.

Lemma drain_one_ledger c r : cqe_ok r c ->
  exists r' x, drain_one c r = Some (r', x) /\ drained r r' /\ option_list (res_Buf x) ++ held (r_inFlight r') ≡ₚ held (r_inFlight r).
Proof.
  intros [Hm Hb]. unfold drain_one. cbv zeta. fold (cqe_id c) (cqe_more c) (cqe_bid c).
  set (entry := r_inFlight r !! cqe_id c) in *.
  set (r' := if bool_decide (is_Some entry) && negb (cqe_more c) then _ else r).
  assert (drained r r' /\ option_list (if_buf (default (mkInFlight 0 None []) entry)) ++ held (r_inFlight r') ≡ₚ held (r_inFlight r)) as [Hd Hh].
  { unfold r'. destruct entry as [e|] eqn:He; cbn [default id]; [|by split; [apply drained_refl|]].
    rewrite bool_decide_true by by eexists. destruct (cqe_more c); cbn [andb negb].
    - split; [apply drained_refl|]. by rewrite (Hm _ eq_refl eq_refl).
    - split; [split; try done; apply delete_subseteq|]. symmetry. by apply held_delete. }
  case_decide as Hf.
  - destruct (Hb (proj1 Hf) (proj2 Hf)) as [H1 H2]. unfold recvBuf. rewrite decide_True.
    + cbn [mbind option_bind]. eexists _, _. split; [reflexivity|]. by split.
    + split; [|lia]. split; [unfold cqe_bid, uint16; apply Z.mod_pos_bound; lia|done].
  - eexists _, _. split; [reflexivity|]. by split.
Qed.
Lemma drainOnce_ledger l r : Forall (cqe_ok r) l ->
  exists r' xs, drainOnce l r = Some (r', xs) /\ drained r r' /\ length xs = length l /\ handed xs ++ held (r_inFlight r') ≡ₚ held (r_inFlight r).
Proof.
  revert r. induction l as [|c l IH]; intros r Hl; cbn [drainOnce].
  { exists r, []. split_and!; [done|apply drained_refl|done|done]. }
  apply Forall_cons in Hl as [Hc Hl]. destruct (drain_one_ledger c r Hc) as (r1 & x & -> & Hd1 & Hh1). cbn [mbind option_bind].
  destruct (IH r1) as (r2 & xs & -> & Hd2 & Hn & Hh2); [eapply Forall_impl; [exact Hl|]; intros; by eapply cqe_ok_drained|].
  cbn [mbind option_bind]. eexists _, _. split; [reflexivity|]. split_and!; [by eapply drained_trans|cbn; lia|].
  unfold handed in *. cbn [omap list_omap]. rewrite <- Hh1, <- Hh2. destruct (res_Buf x); cbn [option_list]; [cbn; done|done].
Qed.

(** *** Enqueues *)

(** Ids in flight have been handed out, and the counter has not wrapped. *)
Record ring_inv (n : Z) (r : Ring) : Prop := mkRingInv {
  ri_next : r_nextReqID r = n; ri_n : 0 <= n;
  ri_ids : forall id e, r_inFlight r !! id = Some e -> 1 <= id <= n;
  ri_cap : 0 <= r_inFlightCap r;
  ri_size : in_flight_len r <= r_inFlightCap r }.

Lemma enqueue_spec n slot op e r : ring_inv n r -> n + 1 < 2 ^ 32 ->
  match enqueue slot op e r with
  | (r', inr _) => r' = r
  | (r', inl (s, id)) => ring_inv (n + 1) r' /\ r_open r' = r_open r /\ id = n + 1 /\ s = mkSqe op (serialize (mkReq (if_op e) id)) /\
      r_inFlight r !! id = None /\ r_inFlight r' = <[id := e]> (r_inFlight r) /\
      held (r_inFlight r') ≡ₚ option_list (if_buf e) ++ held (r_inFlight r)
  end.
Proof.
  intros [Hn H0 Hids Hcap Hs] Hlt. unfold enqueue. case_decide as Hc; [done|]. destruct slot; [|done]. cbn [negb].
  unfold submit_entry, NextRequestID, uint32. rewrite Hn, Z.mod_small by lia. cbn.
  assert (r_inFlight r !! (n + 1) = None) as Hf.
  { destruct (r_inFlight r !! (n + 1)) eqn:E; [|done]. apply Hids in E. lia. }
  split_and!; try done; [|by apply held_insert]. split; cbn; [done|lia| |done|].
  - intros id x Hx. destruct (decide (n + 1 = id)) as [<-|]; [lia|]. rewrite lookup_insert_ne in Hx by done. apply Hids in Hx. lia.
  - unfold in_flight_len in *. cbn. rewrite map_size_insert_None by done. lia.
Qed.

(** ** Runs *)

Inductive ring_call :=
  | CallRecvMsg (fd : Z) (buf : option (Z * Z)) (slot : bool)
  | CallRecvMultishot (fd : Z) (slot : bool)
  | CallSend (fd : Z) (buf : option Z) (op : Z) (slot : bool)
  | CallWritev (fd : Z) (header : bytes) (payload : option (Z * Z)) (slot : bool)
  | CallDrain (l : list CQE).
(** The buffer a call is given. *)
Definition given (c : ring_call) : list Z :=
  match c with
  | CallRecvMsg _ (Some (b, _)) _ | CallSend _ (Some b) _ _ | CallWritev _ _ (Some (b, _)) _ => [b]
  | _ => []
  end.
Definition took {A} (c : ring_call) (x : Ring * (A + ring_err)) : go (Ring * list Z * list Z) :=
  Some (x.1, match x.2 with inl _ => given c | inr _ => [] end, []).
(** The ring after a call, the buffers it took and those it handed back. *)
Definition call (c : ring_call) (r : Ring) : go (Ring * list Z * list Z) :=
  match c with
  | CallRecvMsg fd buf slot => took c (EnqueueRecvMsg fd buf slot r)
  | CallRecvMultishot fd slot => took c (EnqueueRecvMultishot fd slot r)
  | CallSend fd buf op slot => took c (EnqueueSend fd buf op slot r)
  | CallWritev fd h p slot => took c (EnqueueWritevUnix fd h p slot r)
  | CallDrain l => '(r, xs) ← drainOnce l r; Some (r, [], handed xs)
  end.
Definition call_ok (c : ring_call) (r : Ring) : Prop := match c with CallDrain l => Forall (cqe_ok r) l | _ => True end.
Fixpoint run (cs : list ring_call) (r : Ring) : go (Ring * list Z * list Z) :=
  match cs with
  | [] => Some (r, [], [])
  | c :: cs => '(r, t, h) ← call c r; '(r, t', h') ← run cs r; Some (r, t ++ t', h ++ h')
  end.
(** The kernel keeps its side at every call. *)
Fixpoint run_ok (cs : list ring_call) (r : Ring) : Prop :=
  match cs with
  | [] => True
  | c :: cs => call_ok c r /\ forall r' t h, call c r = Some (r', t, h) -> run_ok cs r'
  end.


Lemma enqueue_call n c slot op e r : given c = option_list (if_buf e) -> ring_inv n r -> n + 1 < 2 ^ 32 ->
  exists r' t m, took c (enqueue slot op e r) = Some (r', t, []) /\ n <= m <= n + 1 /\ ring_inv m r' /\
    r_open r' = r_open r /\ t ++ held (r_inFlight r) ≡ₚ held (r_inFlight r').
Proof.
  intros Hg Hi Hn. pose proof (enqueue_spec n slot op e r Hi Hn) as H. unfold took. destruct (enqueue slot op e r) as [r' [[s id]|x]].
  - destruct H as (H1 & H2 & _ & _ & _ & _ & H3). exists r', (given c), (n + 1). rewrite Hg. split_and!; try done; lia.
  - subst r'. exists r, [], n. split_and!; try done; lia.
Qed.
Lemma call_spec n c r : ring_inv n r -> n + 1 < 2 ^ 32 -> call_ok c r ->
  exists r' t h m, call c r = Some (r', t, h) /\ n <= m <= n + 1 /\ ring_inv m r' /\
    r_open r' = r_open r /\ t ++ held (r_inFlight r) ≡ₚ h ++ held (r_inFlight r').
Proof.
  intros Hi Hn Hok.
  assert (forall x, exists r' t h m, took c (r, inr x : Sqe * Z + ring_err) = Some (r', t, h) /\ n <= m <= n + 1 /\ ring_inv m r' /\
    r_open r' = r_open r /\ t ++ held (r_inFlight r) ≡ₚ h ++ held (r_inFlight r')) as Hno.
  { intros x. exists r, [], [], n. split_and!; try done; lia. }
  assert (forall slot op e, given c = option_list (if_buf e) -> exists r' t h m, took c (enqueue slot op e r) = Some (r', t, h) /\
    n <= m <= n + 1 /\ ring_inv m r' /\ r_open r' = r_open r /\ t ++ held (r_inFlight r) ≡ₚ h ++ held (r_inFlight r')) as Hyes.
  { intros slot op e Hg. destruct (enqueue_call n c slot op e r Hg Hi Hn) as (r' & t & m & ? & ? & ? & ? & ?). by exists r', t, [], m. }
  destruct c as [fd [[b k]|] slot|fd slot|fd [b|] op slot|fd hd [[b k]|] slot|l]; cbn [call];
    unfold EnqueueRecvMsg, EnqueueRecvMultishot, EnqueueSend, EnqueueWritevUnix; try case_decide; try apply Hno; try by apply Hyes.
  destruct (drainOnce_ledger l r Hok) as (r' & xs & -> & Hd & _ & Hh). cbn [mbind option_bind].
  exists r', [], (handed xs), n. split_and!; [done|lia|lia| |by apply (dr_open _ _ Hd)|by rewrite Hh].
  destruct Hi as [H1 H2 H3 H5 H4], Hd as [? ? D3 D4 ? ? Dsub]. split; [by rewrite D3|done| |by rewrite D4|].
  - intros id e He. eapply H3, lookup_weaken; done.
  - rewrite D4. unfold in_flight_len in *. pose proof (map_subseteq_size _ _ Dsub). lia.
Qed.
Lemma run_spec n cs r : ring_inv n r -> n + Z.of_nat (length cs) < 2 ^ 32 -> run_ok cs r ->
  exists r' t h m, run cs r = Some (r', t, h) /\ ring_inv m r' /\ r_open r' = r_open r /\
    t ++ held (r_inFlight r) ≡ₚ h ++ held (r_inFlight r').
Proof.
  revert n r. induction cs as [|c cs IH]; intros n r Hi Hn Hok; cbn [run length] in *.
  { by exists r, [], [], n. }
  destruct Hok as [Hc Hok]. destruct (call_spec n c r Hi ltac:(lia) Hc) as (r1 & t1 & h1 & m & H1 & Hm & Hi1 & Ho1 & Hp1).
  destruct (IH m r1 Hi1 ltac:(lia) (Hok _ _ _ H1)) as (r2 & t2 & h2 & m2 & H2 & Hi2 & Ho2 & Hp2).
  rewrite H1. cbn [mbind option_bind]. rewrite H2. cbn [mbind option_bind]. exists r2, (t1 ++ t2), (h1 ++ h2), m2.
  split_and!; [done|done|congruence|]. rewrite <- !app_assoc. rewrite (Permutation_app_comm t2), app_assoc, Hp1, <- app_assoc.
  rewrite (Permutation_app_comm _ t2), Hp2. solve_Permutation.
Qed.

Definition event_cqes (e : drain_event) : list CQE := match e with Peeked l | Waited l => l | _ => [] end.
(** The completions of the teardown are the kernel's, and a traversal of the map
    visits every entry once. *)
Definition env_ok (env : close_env) (r : Ring) : Prop :=
  Forall (fun e => Forall (cqe_ok r) (event_cqes e)) (ce_events env) /\ forall m, ce_order env m ≡ₚ map_to_list m.

Lemma close_loop_spec es r xs : Forall (fun e => Forall (cqe_ok r) (event_cqes e)) es ->
  exists r' ys, close_loop es r xs = Some (r', xs ++ ys) /\ drained r r' /\ handed ys ++ held (r_inFlight r') ≡ₚ held (r_inFlight r).
Proof.
  revert r xs. induction es as [|e es IH]; intros r xs He.
  { exists r, []. cbn. rewrite app_nil_r. split_and!; [done|apply drained_refl|done]. }
  assert (exists r' ys, Some (r, xs) = Some (r', xs ++ ys) /\ drained r r' /\ handed ys ++ held (r_inFlight r') ≡ₚ held (r_inFlight r)) as Hstop.
  { exists r, []. rewrite app_nil_r. split_and!; [done|apply drained_refl|done]. }
  apply Forall_cons in He as [H1 H2].
  assert (forall l, Forall (cqe_ok r) l -> exists r' ys, ('(r, zs) ← drainOnce l r; close_loop es r (xs ++ zs)) = Some (r', xs ++ ys) /\
    drained r r' /\ handed ys ++ held (r_inFlight r') ≡ₚ held (r_inFlight r)) as Hdrain.
  { intros l Hl. destruct (drainOnce_ledger l r Hl) as (r1 & zs & -> & Hd & _ & Hh). cbn [mbind option_bind].
    destruct (IH r1 (xs ++ zs)) as (r2 & ys & -> & Hd2 & Hh2).
    { eapply Forall_impl; [exact H2|]. intros x Hx. eapply Forall_impl; [exact Hx|]. intros; by eapply cqe_ok_drained. }
    exists r2, (zs ++ ys). rewrite <- app_assoc. split_and!; [done|by eapply drained_trans|].
    unfold handed in *. rewrite omap_app, <- app_assoc, Hh2. exact Hh. }
  destruct e as [[|c l]|l| | |]; cbn [close_loop waitForNextDrainCQE]; [| | | | |exact Hstop]; (case_decide; [exact Hstop|]).
  - exact Hstop.
  - by apply Hdrain.
  - cbn [event_cqes] in H1. destruct (Hdrain l H1) as (r' & ys & Hx & ?). exists r', ys. split; [|done].
    rewrite <- Hx. by destruct (drainOnce l r) as [[? ?]|].
  - cbn [mbind option_bind]. rewrite app_nil_r. apply IH. exact H2.
  - exact Hstop.
Qed.

Lemma Close_spec env r : r_open r = true -> env_ok env r ->
  exists r' xs, Close true env r = Some (r', xs) /\ handed xs ≡ₚ held (r_inFlight r) /\ r_inFlight r' = ∅ /\ r_open r' = false.
Proof.
  intros Ho [He Hm]. unfold Close. rewrite Ho. cbn [negb]. destruct (cancelMultishot _ _ _) as [sqes ok].
  assert (exists r1 xs, (if ok then close_loop (ce_events env) r [] else Some (r, [])) = Some (r1, xs) /\
    handed xs ++ held (r_inFlight r1) ≡ₚ held (r_inFlight r)) as (r1 & xs & -> & Hh).
  { destruct ok; [|by exists r, []]. destruct (close_loop_spec _ r [] He) as (r1 & ys & -> & _ & Hh). by exists r1, ys. }
  cbn [mbind option_bind dispatchAbandonedInFlight r_inFlight]. eexists _, _. split; [reflexivity|]. cbn. split_and!; try done.
  unfold handed in *. rewrite omap_app, <- Hh. f_equiv.
  rewrite <- (held_list _ _ (Hm (r_inFlight r1))). generalize (ce_order env (r_inFlight r1)) as l. intros l.
  induction l as [|p l IH]; [done|]. cbn. destruct (if_buf p.2); cbn; by rewrite IH.
Qed.

(** Without a callback Close leaves the same ring, and what was in flight is
    dropped. *)
Lemma Close_without_callback env r : Close false env r = (fun p => (p.1, [])) <$> Close true env r.
Proof.
  unfold Close. destruct (negb (r_open r)); [done|]. destruct (cancelMultishot _ _ _) as [sqes ok].
  destruct ok; [|done]. by destruct (close_loop _ _ _) as [[r1 xs]|].
Qed.

(** C37: from a new ring, over any calls (fewer than 2^32 of them, as request ids
    are 32 bits) and any completions the kernel may post: no call panics, the
    requests in flight stay within the cap, and every pool buffer taken is handed
    back exactly once, by a drain or by Close with a callback, which leaves nothing in flight and
    does nothing a second time. *)
Theorem ring_returns_every_buffer cfg su r0 cs env :
  New cfg su = inl r0 -> Z.of_nat (length cs) < 2 ^ 32 -> run_ok cs r0 ->
  (forall r1 taken back, run cs r0 = Some (r1, taken, back) -> env_ok env r1) ->
  exists r1 taken back, run cs r0 = Some (r1, taken, back) /\ in_flight_len r1 <= r_inFlightCap r1 /\
  exists r2 xs, Close true env r1 = Some (r2, xs) /\ taken ≡ₚ back ++ handed xs /\
    r_inFlight r2 = ∅ /\ Close true env r2 = Some (r2, []).
Proof.
  intros Hnew Hlen Hok Henv.
  assert (ring_inv 0 r0 /\ r_open r0 = true /\ r_inFlight r0 = ∅ /\ 0 <= r_inFlightCap r0) as (Hi & Ho & Hf & Hcap).
  { unfold New in Hnew. repeat case_decide; try done. all: destruct (su_probe su), (su_queue su); try done. all: cbn [negb] in Hnew.
    all: try (destruct (su_bufs su); [|done]). all: injection Hnew as <-; cbn; split_and!; try done; try lia.
    all: split; cbn; try done; try lia. all: unfold in_flight_len; cbn; rewrite map_size_empty; lia. }
  destruct (run_spec 0 cs r0 Hi Hlen Hok) as (r1 & t & h & m & Hr & Hi1 & Ho1 & Hp). exists r1, t, h. split; [done|]. split.
  - pose proof (ri_size _ _ Hi1). pose proof (ri_cap _ _ Hi1). lia.
  - destruct (Close_spec env r1 ltac:(by rewrite Ho1) (Henv _ _ _ Hr)) as (r2 & xs & Hc & Hh & He & Ho2). exists r2, xs. split_and!; try done.
    + rewrite Hf, held_empty, app_nil_r in Hp. by rewrite Hp, Hh.
    + unfold Close. by rewrite Ho2.
Qed.

(** A multishot recv, two sends and one completion; at Close one more packet
    and the cancelled recv complete, and the second send never does. *)
Definition demo_cfg : Config := mkConfig 64 128 4096.
Definition demo_ring : Ring := mkRing true demo_cfg 0 ∅ 512 64 4096.
Definition demo_calls : list ring_call :=
  [CallRecvMultishot 3 true; CallSend 4 (Some 7) OpSendUDP true; CallSend 4 (Some 8) OpSendUDP true;
   CallSend 4 (Some 9) OpSendUDP false; CallDrain [mkCQE (serialize (mkReq OpSendUDP 2)) 100 0]].
Definition demo_multishot : Z := serialize (mkReq OpRecvMultishot 1).
Definition demo_env : close_env :=
  mkCloseEnv [] [] true [Waited [mkCQE demo_multishot 20 (CQEFMore + CQEFBuffer + Z.shiftl 5 16)]; TimedOut;
    Peeked [mkCQE demo_multishot (-125) 0; mkCQE (serialize (mkReq OpCancel 0)) 0 0]] map_to_list.
Lemma demo_run_ok : run_ok demo_calls demo_ring.
Proof.
  assert (forall r, cqe_ok r (mkCQE (serialize (mkReq OpSendUDP 2)) 100 0)) as Hc.
  { intros r. split; [intros e _ Hm; by vm_compute in Hm|intros Hm; by vm_compute in Hm]. }
  unfold demo_calls. repeat (split; [done|intros ? ? ? _]). split; [|done]. by constructor.
Qed.
Lemma ring_returns_every_buffer_witness :
  New demo_cfg (mkSetup true true true) = inl demo_ring /\ run_ok demo_calls demo_ring /\
  exists r1 r2 xs, run demo_calls demo_ring = Some (r1, [7; 8], [7]) /\ Close true demo_env r1 = Some (r2, xs) /\ [7; 8] ≡ₚ 7 :: handed xs.
Proof.
  split; [reflexivity|]. split; [exact demo_run_ok|].
  destruct (ring_returns_every_buffer demo_cfg (mkSetup true true true) demo_ring demo_calls demo_env eq_refl eq_refl demo_run_ok)
    as (r1 & t & h & Hr & _ & r2 & xs & Hc & Hp & _).
  - intros r1 t h Hr. vm_compute in Hr. injection Hr as <- _ _. split; [|done].
    repeat constructor; cbn [cqe_ok]; try (intros e He Hm; vm_compute in He; first [injection He as <-; done | discriminate]);
      try (vm_compute; discriminate).
  - exists r1, r2, xs. assert (t = [7; 8] /\ h = [7]) as [-> ->] by (vm_compute in Hr; injection Hr as _ <- <-; done).
    split; [exact Hr|]. split; [exact Hc|exact Hp].
Defined.
