(* ===== verification/IoUring.v ===== *)
(** The io_uring receiver of one netlink socket (pkg/xtcp/netlinker_iouring.go)
    against the kernel: one multishot recv into provided buffers, the copy of
    each packet and the return of its buffer, the re-arm when the recv ends, and
    the dump accounting of [Netlinker] behind it.

    A step is one action of the ring goroutine, of the kernel, or of a decoder,
    so a run is any interleaving of the three.  The kernel's side is io_uring's
    documented behaviour: a request dequeues one packet per completion into a
    buffer it owns, posts completions in order, sets MORE while it stays armed,
    and may end at any time. *)

From stdpp Require Import gmap.
From S2P Require Import Prelude NlHeaders Netlinker IoRing.

(** ** Configuration *)

Definition iouringRecvBatchDefaultCst : Z := 64.
Definition iouringCqeBatchDefaultCst : Z := 128.
Definition iouringTimeoutDefaultCst : Z := 1000000000.
Definition iouringResolveBatchSizes (recvCfg cqeCfg : Z) : Z * Z :=
  (if decide (recvCfg < 1) then iouringRecvBatchDefaultCst else recvCfg,
   if decide (cqeCfg < 1) then iouringCqeBatchDefaultCst else cqeCfg).
(** A Duration is an int64 of nanoseconds: the product wraps. *)
Definition iouringResolveTimeout (nlTimeoutMs : Z) : Z :=
  if decide (nlTimeoutMs = 0) then iouringTimeoutDefaultCst else int64 (int64 nlTimeoutMs * 1000000).

Definition EAGAIN : Z := 11.
Definition ENOBUFS : Z := 105.
Definition isTimeoutErrno (e : Z) : bool := bool_decide (e = EAGAIN) || bool_decide (e = ETIME).

(** ** The receive path *)

(** [handleRecvCQE]: the packet it hands over, read from the ring's buffers, or
    none for an error or a completion without a buffer.  The copy goes into a
    pool buffer of the size of the ring's. *)
Definition handleRecvCQE (r : Ring) (mem : list bytes) (x : Result) : go (option bytes) :=
  if decide (res_Res x < 0) then Some None else
  match res_Data x with
  | None => Some None
  | Some n => b ← mem !! Z.to_nat (res_BufID x); Some (Some (take (Z.to_nat (r_recvBufSize r)) (take (Z.to_nat n) b)))
  end.

(** Where the ring goroutine is: at the loop's head, waiting for completions,
    between two results of a batch, or about to send the packet of [x] on
    packetCh and recycle its buffer.  [ended] is [recvEnded]. *)
Inductive pc :=
  | Top
  | Waiting
  | Batch (xs : list Result) (ended : bool)
  | Sending (x : Result) (xs : list Result) (ended : bool).

Record World := mkWorld {
  u_ring : Ring; u_armed : bool; u_pc : pc;
  u_sq : list Z;  (* submissions the kernel has not taken, by user data *)
  u_reqs : list Z;  (* requests armed in the kernel *)
  u_free : list Z;  (* provided buffers the kernel owns, in ring order *)
  u_mem : list bytes;  (* the buffers *)
  u_sock : list bytes;  (* packets queued in the socket *)
  u_cq : list CQE;
  u_net : NState;
  u_sent : list bytes; u_out : list bytes;  (* ghosts: what arrived, what was handed over *)
  u_unsub : list Z  (* entries queued in the ring that no Submit has passed on *) }.

Definition set_ring r w := mkWorld r (u_armed w) (u_pc w) (u_sq w) (u_reqs w) (u_free w) (u_mem w) (u_sock w) (u_cq w) (u_net w) (u_sent w) (u_out w) (u_unsub w).
Definition set_pc p w := mkWorld (u_ring w) (u_armed w) p (u_sq w) (u_reqs w) (u_free w) (u_mem w) (u_sock w) (u_cq w) (u_net w) (u_sent w) (u_out w) (u_unsub w).
Definition set_armed b w := mkWorld (u_ring w) b (u_pc w) (u_sq w) (u_reqs w) (u_free w) (u_mem w) (u_sock w) (u_cq w) (u_net w) (u_sent w) (u_out w) (u_unsub w).
Definition set_net n w := mkWorld (u_ring w) (u_armed w) (u_pc w) (u_sq w) (u_reqs w) (u_free w) (u_mem w) (u_sock w) (u_cq w) n (u_sent w) (u_out w) (u_unsub w).
Definition set_sq l w := mkWorld (u_ring w) (u_armed w) (u_pc w) l (u_reqs w) (u_free w) (u_mem w) (u_sock w) (u_cq w) (u_net w) (u_sent w) (u_out w) (u_unsub w).
Definition set_unsub l w := mkWorld (u_ring w) (u_armed w) (u_pc w) (u_sq w) (u_reqs w) (u_free w) (u_mem w) (u_sock w) (u_cq w) (u_net w) (u_sent w) (u_out w) l.
(** [Submit]: a failure leaves the entries queued. *)
Definition Submit (ok : bool) (w : World) : World := if ok then set_unsub [] (set_sq (u_sq w ++ u_unsub w) w) else w.
(** [BufRingAdd] and [BufRingAdvance]. *)
Definition recycle bid w := mkWorld (u_ring w) (u_armed w) (u_pc w) (u_sq w) (u_reqs w) (u_free w ++ [bid]) (u_mem w) (u_sock w) (u_cq w) (u_net w) (u_sent w) (u_out w) (u_unsub w).

(** The rest of [iouringProcessResults] for a result, once its packet is sent:
    recycle the buffer it came in and note the end of the recv. *)
Definition after_recv (x : Result) (xs : list Result) (ended : bool) (w : World) : World :=
  set_pc (Batch xs (ended || negb (res_More x)))
    (match res_Data x with Some _ => recycle (res_BufID x) w | None => w end).

(** The event of a decoder's own step. *)
Definition decoder_event (ev : event) : bool := match ev with Recv _ | SendCh => false | _ => true end.

Inductive uevent :=
  | Arrive (p : bytes)  (* a packet is queued in the socket *)
  | KTake  (* the kernel takes a submission *)
  | KRecv (more : bool)  (* a packet is received into a buffer *)
  | KEnd (errno : Z)  (* the request ends with an error *)
  | Arm (slot submitted : bool)  (* iouringArmRecv and Submit, at the head of the loop *)
  | Go  (* the loop's head, armed *)
  | Timeout  (* the wait fails: ETIME or another error *)
  | Drain (n : nat)  (* DrainBatch, at once or after a wait *)
  | Next  (* the next result: copy and number its packet *)
  | Send  (* packetCh <- p, then the recycle *)
  | NextOther  (* the next result, one without a packet *)
  | EndBatch
  | Decoder (ev : event).

Section Step.
Context (fd : Z) (conf : config).

Definition arm_flags (more : bool) (bid : Z) : Z := CQEFBuffer + (if more then CQEFMore else 0) + Z.shiftl bid CQEBufferShift.
Definition ustep (w : World) (ev : uevent) : go World :=
  match ev with
  | Arrive p =>
      guard (p <> []);;
      Some (mkWorld (u_ring w) (u_armed w) (u_pc w) (u_sq w) (u_reqs w) (u_free w) (u_mem w) (u_sock w ++ [p]) (u_cq w) (u_net w)
              (u_sent w ++ [p]) (u_out w) (u_unsub w))
  | KTake =>
      match u_sq w with
      | d :: sq => Some (mkWorld (u_ring w) (u_armed w) (u_pc w) sq (u_reqs w ++ [d]) (u_free w) (u_mem w) (u_sock w) (u_cq w) (u_net w) (u_sent w) (u_out w)
                             (u_unsub w))
      | [] => None
      end
  | KRecv more =>
      match u_reqs w, u_sock w, u_free w with
      | d :: reqs, p :: sock, bid :: free =>
          let p := take (Z.to_nat (r_recvBufSize (u_ring w))) p in
          Some (mkWorld (u_ring w) (u_armed w) (u_pc w) (u_sq w) (if more then d :: reqs else reqs) free
                  (<[Z.to_nat bid := p]> (u_mem w)) sock (u_cq w ++ [mkCQE d (glen p) (arm_flags more bid)]) (u_net w) (u_sent w) (u_out w)
                  (u_unsub w))
      | _, _, _ => None
      end
  | KEnd errno =>
      match u_reqs w with
      | d :: reqs =>
          guard (0 < errno);; guard (errno = ENOBUFS -> u_free w = []);;
          Some (mkWorld (u_ring w) (u_armed w) (u_pc w) (u_sq w) reqs (u_free w) (u_mem w) (u_sock w) (u_cq w ++ [mkCQE d (- errno) 0])
                  (u_net w) (u_sent w) (u_out w) (u_unsub w))
      | [] => None
      end
  | Arm slot submitted =>
      match u_pc w with
      | Top =>
          if u_armed w then None else
          let '(r, res) := EnqueueRecvMultishot fd slot (u_ring w) in
          let w := match res with
                   | inl (sqe, _) => set_armed true (set_unsub (u_unsub w ++ [sq_data sqe]) (set_ring r w))
                   | inr _ => set_ring r w
                   end in
          Some (set_pc Waiting (Submit submitted w))
      | _ => None
      end
  | Go => match u_pc w with Top => if u_armed w then Some (set_pc Waiting w) else None | _ => None end
  | Timeout => match u_pc w with Waiting => Some (set_pc Top w) | _ => None end
  | Drain n =>
      match u_pc w with
      | Waiting =>
          guard (0 < Z.of_nat n <= CQEBatchSize (r_cfg (u_ring w)) /\ Z.of_nat n <= glen (u_cq w));;
          '(r, xs) ← DrainBatch (take n (u_cq w)) (u_ring w);
          Some (mkWorld r (u_armed w) (Batch xs false) (u_sq w) (u_reqs w) (u_free w) (u_mem w) (u_sock w) (drop n (u_cq w)) (u_net w) (u_sent w) (u_out w)
                  (u_unsub w))
      | _ => None
      end
  | Next =>
      match u_pc w with
      | Batch (x :: xs) ended =>
          if decide (res_Op x = OpRecvMultishot) then
            mp ← handleRecvCQE (u_ring w) (u_mem w) x;
            match mp with
            | Some p =>
                n ← step conf (u_net w) (Recv p);
                Some (mkWorld (u_ring w) (u_armed w) (Sending x xs ended) (u_sq w) (u_reqs w) (u_free w) (u_mem w) (u_sock w) (u_cq w) n
                        (u_sent w) (u_out w ++ [p]) (u_unsub w))
            | None => None
            end
          else None
      | _ => None
      end
  | Send =>
      match u_pc w with
      | Sending x xs ended => n ← step conf (u_net w) SendCh; Some (after_recv x xs ended (set_net n w))
      | _ => None
      end
  | NextOther =>
      match u_pc w with
      | Batch (x :: xs) ended =>
          if decide (res_Op x = OpRecvMultishot) then
            mp ← handleRecvCQE (u_ring w) (u_mem w) x;
            match mp with Some _ => None | None => Some (after_recv x xs ended w) end
          else Some (set_pc (Batch xs ended) w)
      | _ => None
      end
  | EndBatch =>
      match u_pc w with
      | Batch [] ended => Some (set_pc Top (if ended then set_armed false w else w))
      | _ => None
      end
  | Decoder ev => guard (decoder_event ev = true);; n ← step conf (u_net w) ev; Some (set_net n w)
  end.

(** The receiver's start: the ring is made, the recv armed and submitted. The
    goroutine ends if the first or the second fails, and goes on as armed if only
    the third does. *)
Definition init (recvCfg cqeCfg bufSize : Z) (su : setup) (submitted : bool) : option World :=
  let '(recv, cqe) := iouringResolveBatchSizes recvCfg cqeCfg in
  match New (mkConfig recv cqe bufSize) su with
  | inr _ => None
  | inl r =>
      let '(r, res) := EnqueueRecvMultishot fd true r in
      match res with
      | inr _ => None
      | inl (sqe, _) =>
          Some (Submit submitted
                  (mkWorld r true Top [] [] (seqZ 0 (r_recvBufCount r)) (replicate (Z.to_nat (r_recvBufCount r)) (make (r_recvBufSize r)))
                    [] [] newDumpTracker [] [] [sq_data sqe]))
      end
  end.
Inductive ureachable (w0 : World) : World -> Prop :=
  | ureach_start : ureachable w0 w0
  | ureach_step w ev w' : ureachable w0 w -> ustep w ev = Some w' -> ureachable w0 w'.
Fixpoint urun (w : World) (evs : list uevent) : go World :=
  match evs with [] => Some w | ev :: evs => w ← ustep w ev; urun w evs end.

(** ** Invariant *)

(** The buffer of a completion, and of a result, with its length. *)
Definition cqe_data_of (c : CQE) : option (Z * Z) :=
  if decide (Z.land (cq_Flags c) CQEFBuffer <> 0) then Some (cqe_bid c, Z.max (cq_Res c) 0) else None.
Definition res_data_of (x : Result) : option (Z * Z) := n ← res_Data x; Some (res_BufID x, n).
(** The results still to process; the current one keeps its buffer. *)
Definition batch (p : pc) : list Result := match p with Batch xs _ => xs | Sending x xs _ => x :: xs | _ => [] end.
Definition unread (p : pc) : list Result := match p with Batch xs _ | Sending _ xs _ => xs | _ => [] end.
Definition ended (p : pc) : bool := match p with Batch _ e | Sending _ _ e => e | _ => false end.

Definition buffers (w : World) : list Z :=
  u_free w ++ (omap cqe_data_of (u_cq w)).*1 ++ (omap res_data_of (batch (u_pc w))).*1.
Definition content (mem : list bytes) (bn : Z * Z) : bytes := take (Z.to_nat bn.2) (nth (Z.to_nat bn.1) mem []).
Definition in_ring (w : World) : list bytes :=
  content (u_mem w) <$> omap res_data_of (unread (u_pc w)) ++ omap cqe_data_of (u_cq w).
Definition truncated (w : World) (l : list bytes) : list bytes := take (Z.to_nat (r_recvBufSize (u_ring w))) <$> l.

(** The user data of the requests that have yet to complete for good: queued,
    submitted, armed, or with their last completion not drained. *)
Definition last_cqes (l : list CQE) : list Z := cq_data <$> filter (fun c => cqe_more c = false) l.
Definition live (w : World) : list Z := u_unsub w ++ u_sq w ++ u_reqs w ++ last_cqes (u_cq w).
Definition last_results (l : list Result) : list Result := filter (fun x => res_More x = false) l.
Definition b2n (b : bool) : nat := if b then 1%nat else 0%nat.
Definition recv_entry : inFlight := mkInFlight OpRecvMultishot None [].

Context (size count cqes : Z).
Record uinv (w : World) : Prop := mkUinv {
  ui_cfg : r_recvBufCount (u_ring w) = count /\ r_recvBufSize (u_ring w) = size /\ 2 <= r_inFlightCap (u_ring w) /\
    CQEBatchSize (r_cfg (u_ring w)) = cqes;
  ui_mem : glen (u_mem w) = count;
  ui_buffers : buffers w ≡ₚ seqZ 0 count;
  ui_cq : Forall (fun c => Operation (deserialize (cq_data c)) = OpRecvMultishot /\ (cqe_data_of c <> None <-> 0 < cq_Res c) /\
    cq_Res c <= size) (u_cq w);
  ui_res : Forall (fun x => res_Op x = OpRecvMultishot /\ (res_Data x <> None <-> 0 < res_Res x) /\
    (forall n, res_Data x = Some n -> n = res_Res x /\ n <= size)) (batch (u_pc w));
  ui_one : (length (live w) + length (last_results (batch (u_pc w))) + b2n (ended (u_pc w)) + b2n (negb (u_armed w)) = 1)%nat;
  ui_flight : match live w with
    | [] => r_inFlight (u_ring w) = ∅
    | d :: _ => exists id, 0 <= id < 2 ^ 32 /\ d = serialize (mkReq OpRecvMultishot id) /\ r_inFlight (u_ring w) = {[id := recv_entry]}
    end;
  ui_data : truncated w (u_sent w) = u_out w ++ in_ring w ++ truncated w (u_sock w);
  ui_net : exists evs, Netlinker.run conf newDumpTracker evs = Some (u_net w) /\
    omap (fun ev => match ev with Recv b => Some b | _ => None end) evs = u_out w;
  ui_handoff : handoff (u_net w) <> None <-> match u_pc w with Sending _ _ _ => True | _ => False end }.

(** ** Lemmas *)

Lemma arm_flags_spec more bid : 0 <= bid < 2 ^ 15 ->
  Z.land (arm_flags more bid) CQEFBuffer <> 0 /\
  bool_decide (Z.land (arm_flags more bid) CQEFMore <> 0) = more /\
  uint16 (Z.shiftr (arm_flags more bid) CQEBufferShift) = bid.
Proof using.
  intros Hb. unfold arm_flags, CQEFBuffer, CQEFMore, CQEBufferShift, uint16.
  rewrite (Z.shiftl_mul_pow2 bid) by lia. split_and!.
  - change 1 with (Z.ones 1) at 2. rewrite Z.land_ones by lia. destruct more; Z.div_mod_to_equations; lia.
  - assert (Z.land (1 + (if more then 2 else 0) + bid * 2 ^ 16) 2 = if more then 2 else 0) as ->; [|by destruct more].
    apply Z.bits_inj'. intros n Hn. rewrite Z.land_spec. destruct (decide (n = 1)) as [->|].
    + rewrite Z.testbit_odd, Z.shiftr_div_pow2 by lia. change (Z.testbit 2 1) with true. rewrite andb_true_r.
      assert ((1 + (if more then 2 else 0) + bid * 2 ^ 16) / 2 ^ 1 = (if more then 1 else 0) + 2 * (bid * 2 ^ 14)) as ->
        by (destruct more; Z.div_mod_to_equations; lia).
      rewrite Z.odd_add_mul_2. by destruct more.
    + assert (Z.testbit 2 n = false) as H2 by (apply (Z.pow2_bits_false 1 n); lia).
      rewrite H2, andb_false_r. destruct more; [by rewrite H2|by rewrite Z.bits_0].
  - rewrite Z.shiftr_div_pow2 by lia. replace ((1 + (if more then 2 else 0) + bid * 2 ^ 16) / 2 ^ 16) with bid
      by (destruct more; Z.div_mod_to_equations; lia). apply Z.mod_small. lia.
Qed.

Lemma nrun_snoc s evs s1 ev s2 : Netlinker.run conf s evs = Some s1 -> step conf s1 ev = Some s2 ->
  Netlinker.run conf s (evs ++ [ev]) = Some s2.
Proof using.
  revert s. induction evs as [|e evs IH]; intros s H1 H2; cbn [Netlinker.run app] in *.
  - injection H1 as ->. by rewrite H2.
  - destruct (step conf s e) as [s'|]; [|done]. cbn [mbind option_bind] in *. by apply IH.
Qed.
Lemma recv_handoff p s s' : step conf s (Recv p) = Some s' -> handoff s = None /\ handoff s' <> None.
Proof using.
  cbn [step]. destruct (handoff s); [done|]. unfold assign. intros H. apply bind_Some in H as (d & _ & H). by destruct d; simplify_eq.
Qed.
Lemma sendch_handoff s s' : step conf s SendCh = Some s' -> handoff s <> None /\ handoff s' = None.
Proof using. cbn [step]. destruct (handoff s); [|done]. intros H. case_guard; [|done]. by simplify_eq/=. Qed.
Lemma decoder_handoff ev s s' : decoder_event ev = true -> step conf s ev = Some s' -> handoff s' = handoff s.
Proof using.
  intros He H. destruct ev; try done; cbn [step] in H; repeat (case_match; try done); try (case_guard; [|done]); simplify_eq/=; try done.
  all: repeat match goal with H : _ ≫= _ = Some _ |- _ => apply bind_Some in H as (? & _ & H) end; repeat case_match; by simplify_eq.
Qed.

(** *** What a drain returns *)

Definition same_cqe (c : CQE) (x : Result) : Prop :=
  res_Op x = Operation (deserialize (cq_data c)) /\ res_Res x = cq_Res c /\ res_More x = cqe_more c /\ res_data_of x = cqe_data_of c.
Definition forget (m : gmap Z inFlight) (d : Z) : gmap Z inFlight := delete (RequestID (deserialize d)) m.

Lemma last_cqe c : last_cqes [c] = if cqe_more c then [] else [cq_data c].
Proof using. unfold last_cqes. rewrite filter_cons. by destruct (cqe_more c). Qed.
Lemma drain_one_exact c r : r_recvBufCount r <> 0 -> (forall bn, cqe_data_of c = Some bn -> bn.1 < r_recvBufCount r /\ bn.2 <= r_recvBufSize r) ->
  exists x, drain_one c r = Some (set_inFlight (foldl forget (r_inFlight r) (last_cqes [c])) r, x) /\ same_cqe c x.
Proof using.
  intros Hn Hb. unfold drain_one. cbv zeta. fold (cqe_id c) (cqe_more c) (cqe_bid c).
  assert ((if bool_decide (is_Some (r_inFlight r !! cqe_id c)) && negb (cqe_more c) then set_inFlight (delete (cqe_id c) (r_inFlight r)) r else r) =
    set_inFlight (foldl forget (r_inFlight r) (last_cqes [c])) r) as ->.
  { rewrite last_cqe. destruct (cqe_more c); rewrite ?andb_false_r; cbn [foldl]; [by destruct r|].
    unfold forget. fold (cqe_id c). destruct (r_inFlight r !! cqe_id c) as [e|] eqn:He.
    - by rewrite bool_decide_true by by eexists.
    - rewrite delete_id by done. by destruct r. }
  unfold same_cqe, cqe_data_of, res_data_of in *. destruct (decide (Z.land (cq_Flags c) CQEFBuffer <> 0)) as [Hf|Hf].
  - rewrite decide_True by done. specialize (Hb _ eq_refl). cbn [fst snd] in Hb. unfold recvBuf. rewrite decide_True.
    + cbn [mbind option_bind]. eexists. split; [reflexivity|]. done.
    + split; [|lia]. split; [unfold cqe_bid, uint16; apply Z.mod_pos_bound; lia|]. lia.
  - rewrite decide_False by tauto. eexists. split; [reflexivity|]. done.
Qed.
Lemma drain_exact l r : r_recvBufCount r <> 0 ->
  Forall (fun c => forall bn, cqe_data_of c = Some bn -> bn.1 < r_recvBufCount r /\ bn.2 <= r_recvBufSize r) l ->
  exists xs, drainOnce l r = Some (set_inFlight (foldl forget (r_inFlight r) (last_cqes l)) r, xs) /\ Forall2 same_cqe l xs.
Proof using.
  revert r. induction l as [|c l IH]; intros r Hn Hl; cbn [drainOnce].
  { exists []. cbn. by destruct r. }
  apply Forall_cons in Hl as [Hc Hl]. destruct (drain_one_exact c r Hn Hc) as (x & -> & Hx). cbn [mbind option_bind].
  destruct (IH (set_inFlight (foldl forget (r_inFlight r) (last_cqes [c])) r) Hn Hl) as (xs & -> & Hxs). cbn [mbind option_bind].
  exists (x :: xs). split; [|by constructor]. unfold last_cqes. cbn [r_inFlight set_inFlight].
  change (c :: l) with ([c] ++ l). rewrite filter_app, fmap_app, foldl_app. done.
Qed.

Lemma same_data l xs : Forall2 same_cqe l xs -> omap res_data_of xs = omap cqe_data_of l.
Proof using. induction 1 as [|c x l xs (_ & _ & _ & Hd) _ IH]; [done|]. cbn. rewrite Hd. by destruct (cqe_data_of c); rewrite IH. Qed.
Lemma same_last l xs : Forall2 same_cqe l xs -> length (last_results xs) = length (last_cqes l).
Proof using.
  unfold last_results, last_cqes. induction 1 as [|c x l xs (_ & _ & Hm & _) _ IH]; [done|]. rewrite !filter_cons, Hm.
  rewrite length_fmap in *. case_decide; cbn; lia.
Qed.
Lemma same_ok l xs : Forall2 same_cqe l xs ->
  Forall (fun c => Operation (deserialize (cq_data c)) = OpRecvMultishot /\ (cqe_data_of c <> None <-> 0 < cq_Res c) /\ cq_Res c <= size) l ->
  Forall (fun x => res_Op x = OpRecvMultishot /\ (res_Data x <> None <-> 0 < res_Res x) /\
    (forall n, res_Data x = Some n -> n = res_Res x /\ n <= size)) xs.
Proof using.
  induction 1 as [|c x l xs (Ho & Hr & _ & Hd) _ IH]; [done|]. intros [(H1 & H2 & H3) Hl]%Forall_cons. constructor; [|by apply IH].
  rewrite Ho, Hr. unfold res_data_of in Hd. split; [done|]. split.
  - rewrite <- H2, <- Hd. by destruct (res_Data x).
  - intros n Hn. rewrite Hn in Hd. cbn in Hd. unfold cqe_data_of in *. case_decide; [|done].
    assert (0 < cq_Res c) by (by apply H2). injection Hd as _ ->. lia.
Qed.

Lemma content_insert mem b p bn : 0 <= b -> 0 <= bn.1 -> bn.1 <> b -> content (<[Z.to_nat b := p]> mem) bn = content mem bn.
Proof using.
  intros Hb Hn Hne. unfold content. f_equal. rewrite !nth_lookup, list_lookup_insert_ne by lia. done.
Qed.
Lemma content_new mem b p : 0 <= b < glen mem -> content (<[Z.to_nat b := p]> mem) (b, glen p) = p.
Proof using.
  intros Hb. unfold content. cbn [fst snd]. rewrite nth_lookup, list_lookup_insert_eq by (unfold glen in Hb; lia).
  cbn. apply take_ge. unfold glen. lia.
Qed.

(** ** Every step keeps the invariant *)

Context (Hsize : 0 < size) (Hcount : 0 < count <= 2 ^ 15).

Lemma last_cqes_app l k : last_cqes (l ++ k) = last_cqes l ++ last_cqes k.
Proof using. unfold last_cqes. by rewrite filter_app, fmap_app. Qed.
Lemma in_range w b : uinv w -> b ∈ buffers w -> 0 <= b < count.
Proof using. intros H. rewrite (ui_buffers _ H). intros Hb%elem_of_seqZ. lia. Qed.

Lemma arrive_inv p w w' : uinv w -> ustep w (Arrive p) = Some w' -> uinv w'.
Proof using.
  intros [] H. cbn [ustep] in H. case_guard; [|done]. injection H as <-. split; try done.
  cbn. unfold truncated in *. cbn. rewrite !fmap_app, ui_data0, <- !app_assoc. done.
Qed.
Lemma utake_inv w w' : uinv w -> ustep w KTake = Some w' -> uinv w'.
Proof using.
  intros [] H. cbn [ustep] in H. destruct (u_sq w) as [|d sq] eqn:Hs; [done|]. injection H as <-.
  assert (length sq = 0 /\ length (u_reqs w) = 0 /\ length (last_cqes (u_cq w)) = 0 /\ length (u_unsub w) = 0)%nat as (H1 & H2 & H3 & H4).
  { unfold live in ui_one0. rewrite Hs, !length_app in ui_one0. cbn [length] in ui_one0. lia. }
  apply nil_length_inv in H1, H2, H3, H4.
  set (w' := mkWorld _ _ _ _ _ _ _ _ _ _ _ _ _). assert (live w' = live w) as Hl.
  { unfold live, w'. cbn [u_unsub u_sq u_reqs u_cq]. by rewrite Hs, H1, H2, H3, H4. }
  split; rewrite ?Hl; done.
Qed.
Lemma live_one w d reqs : uinv w -> u_reqs w = d :: reqs -> (u_sq w = [] /\ u_unsub w = []) /\ reqs = [] /\ last_cqes (u_cq w) = [].
Proof using.
  intros [] Hr. unfold live in *. rewrite Hr in *. rewrite !length_app in ui_one0. cbn [length] in ui_one0.
  split_and!; apply nil_length_inv; lia.
Qed.
Lemma live_op w d ds : uinv w -> live w = d :: ds -> Operation (deserialize d) = OpRecvMultishot /\
  exists id, d = serialize (mkReq OpRecvMultishot id) /\ RequestID (deserialize d) = id /\ r_inFlight (u_ring w) = {[id := recv_entry]}.
Proof using.
  intros [] Hl. rewrite Hl in ui_flight0. destruct ui_flight0 as (id & Hid & -> & Hf).
  rewrite deserialize_serialize by done. split; [done|]. by exists id.
Qed.

(** A completion posted by the one live request. *)
Lemma post_inv w w' d c : uinv w -> u_reqs w = [d] -> cq_data c = d ->
  u_sq w' = [] /\ u_unsub w' = [] -> u_reqs w' = (if cqe_more c then [d] else []) -> u_cq w' = u_cq w ++ [c] ->
  u_ring w' = u_ring w -> u_armed w' = u_armed w -> u_pc w' = u_pc w -> u_net w' = u_net w -> u_sent w' = u_sent w -> u_out w' = u_out w ->
  (cqe_data_of c <> None <-> 0 < cq_Res c) -> cq_Res c <= size -> glen (u_mem w') = count ->
  buffers w' ≡ₚ buffers w -> in_ring w' ++ truncated w' (u_sock w') = in_ring w ++ truncated w (u_sock w) -> uinv w'.
Proof using.
  intros Hi Hr Hd Hs' Hr' Hc' Hring Harm Hpc Hnet Hsent Hout Hdata Hres Hmem Hbuf Hrest.
  destruct (live_one w d [] Hi Hr) as (Hs & _ & Hl).
  destruct Hs as [Hs Hs2], Hs' as [Hs' Hs2']. assert (live w = [d]) as Hlw by (unfold live; by rewrite Hs, Hs2, Hr, Hl).
  destruct (live_op w d [] Hi Hlw) as [Hop _]. destruct Hi.
  assert (live w' = [d]) as Hlw'.
  { unfold live. rewrite Hs', Hs2', Hr', Hc', last_cqes_app, Hl, last_cqe, Hd. by destruct (cqe_more c). }
  split; rewrite ?Hring, ?Harm, ?Hpc, ?Hnet, ?Hsent, ?Hout, ?Hc'; try done.
  - by rewrite Hbuf.
  - apply Forall_app. split; [done|]. apply Forall_singleton. by rewrite Hd.
  - rewrite Hlw in ui_one0. by rewrite Hlw'.
  - rewrite Hlw in ui_flight0. by rewrite Hlw'.
  - rewrite Hrest. unfold truncated in *. by rewrite Hring.
Qed.

Lemma urecv_inv more w w' : uinv w -> ustep w (KRecv more) = Some w' -> Forall (fun p => p <> []) (u_sock w) -> uinv w'.
Proof using Hsize Hcount.
  intros Hi H Hne. cbn [ustep] in H. destruct (u_reqs w) as [|d reqs] eqn:Hr; [done|].
  destruct (u_sock w) as [|p sock] eqn:Hs; [done|]. destruct (u_free w) as [|bid free] eqn:Hf; [done|].
  destruct (live_one w d reqs Hi Hr) as (Hsq & -> & _). injection H as <-. apply Forall_cons in Hne as [Hp _].
  pose proof (ui_cfg _ Hi) as (Hcnt & Hsz & _). rewrite Hsz. set (q := take (Z.to_nat size) p).
  assert (0 < glen q <= size) as Hq.
  { unfold q, glen. rewrite length_take. destruct p; [done|]. cbn [length]. lia. }
  assert (bid ∈ buffers w) as Hb by (unfold buffers; rewrite Hf; by left).
  pose proof (in_range w bid Hi Hb) as Hbr.
  destruct (arm_flags_spec more bid ltac:(lia)) as (F1 & F2 & F3). set (c := mkCQE d (glen q) (arm_flags more bid)).
  assert (cqe_data_of c = Some (bid, glen q)) as Hc.
  { unfold cqe_data_of, cqe_bid. cbn [cq_Flags cq_Res c]. rewrite decide_True, F3 by done. by rewrite Z.max_l by lia. }
  eapply (post_inv w _ d c); try done; cbn [u_sq u_reqs u_cq u_ring u_armed u_pc u_net u_sent u_out u_mem].
  - unfold cqe_more. cbn [cq_Flags c]. rewrite F2. by destruct more.
  - rewrite Hc. cbn. split; [lia|done].
  - cbn. lia.
  - unfold glen. rewrite length_insert. apply (ui_mem _ Hi).
  - unfold buffers. cbn [u_free u_cq u_pc]. rewrite Hf, omap_app. cbn [omap list_omap]. rewrite Hc, fmap_app. cbn. solve_Permutation.
  - assert (NoDup (buffers w)) as Hnd by (rewrite (ui_buffers _ Hi); apply NoDup_seqZ).
    unfold in_ring, truncated. cbn [u_mem u_cq u_pc u_ring u_sock]. rewrite omap_app. cbn [omap list_omap]. rewrite Hc.
    rewrite Hs, Hsz, app_assoc, fmap_app. cbn [fmap list_fmap]. rewrite content_new by (rewrite (ui_mem _ Hi); lia).
    rewrite <- app_assoc. f_equal. apply list_fmap_ext. intros i bn Hbn. apply list_elem_of_lookup_2 in Hbn.
    assert (bn.1 ∈ free ++ (omap cqe_data_of (u_cq w)).*1 ++ (omap res_data_of (batch (u_pc w))).*1) as Hin.
    { rewrite !elem_of_app. apply elem_of_app in Hbn as [Hbn|Hbn]; [right; right|right; left];
        apply list_elem_of_fmap; exists bn; (split; [done|]); [|done].
      destruct (u_pc w); cbn in *; try done. destruct (res_data_of x); [by right|done]. }
    unfold buffers in Hnd. rewrite Hf in Hnd. cbn [app] in Hnd. apply NoDup_cons in Hnd as [Hnin _].
    apply content_insert; [lia| |].
    + assert (bn.1 ∈ buffers w) as Hin' by (unfold buffers; rewrite Hf; by right). pose proof (in_range w _ Hi Hin'). lia.
    + intros Heq. by rewrite Heq in Hin.
Qed.
Lemma end_inv e w w' : uinv w -> ustep w (KEnd e) = Some w' -> uinv w'.
Proof using Hsize Hcount.
  intros Hi H. cbn [ustep] in H. destruct (u_reqs w) as [|d reqs] eqn:Hr; [done|].
  case_guard as H1; case_guard as H2; try done. destruct (live_one w d reqs Hi Hr) as (Hsq & -> & _). injection H as <-.
  eapply (post_inv w _ d (mkCQE d (- e) 0)); try done; cbn [u_sq u_reqs u_cq u_ring u_armed u_pc u_net u_sent u_out u_mem cq_Res].
  - split; [|lia]. by intros Hn.
  - lia.
  - apply (ui_mem _ Hi).
  - unfold buffers. cbn [u_free u_cq u_pc]. rewrite omap_app. cbn. by rewrite app_nil_r.
  - unfold in_ring, truncated. cbn [u_mem u_cq u_pc u_ring u_sock]. rewrite omap_app. cbn. by rewrite app_nil_r.
Qed.

(** A submission moves what is queued, and the requests alive are the same. *)
Lemma Submit_inv ok w : uinv w -> length (live w) = 1%nat \/ live w = [] -> uinv (Submit ok w).
Proof using.
  intros Hi Hl. destruct ok; [|exact Hi]. pose proof Hi as []. set (w' := Submit true w).
  assert (live w' = live w) as Hlw.
  { unfold live, w' in *. cbn [Submit set_unsub set_sq u_unsub u_sq u_reqs u_cq]. destruct (u_unsub w) as [|d l]; [by rewrite app_nil_r|].
    destruct Hl as [Hl|Hl]; [|done]. rewrite !length_app in Hl. cbn [length] in Hl.
    assert (l = [] /\ u_sq w = [] /\ u_reqs w = [] /\ last_cqes (u_cq w) = []) as (-> & -> & -> & ->) by (split_and!; apply nil_length_inv; lia).
    done. }
  split; rewrite ?Hlw; done.
Qed.
Lemma arm_inv slot ok w w' : uinv w -> ustep w (Arm slot ok) = Some w' -> uinv w'.
Proof using Hcount.
  intros [] H. cbn [ustep] in H. destruct (u_pc w) eqn:Hpc; try done. destruct (u_armed w) eqn:Ha; [done|].
  cbn [batch ended negb b2n last_results] in *. assert (live w = []) as Hl.
  { apply nil_length_inv. cbn in ui_one0. lia. }
  rewrite Hl in ui_flight0. destruct ui_cfg0 as (Hc & Hs & Hcap & Hcq). unfold EnqueueRecvMultishot, enqueue in H.
  rewrite decide_False in H by lia. rewrite decide_False in H by (unfold in_flight_len; rewrite ui_flight0, map_size_empty; lia).
  assert (buffers (set_pc Waiting w) = buffers w) as Hb by (unfold buffers; cbn; by rewrite Hpc).
  assert (in_ring (set_pc Waiting w) = in_ring w) as Hr by (unfold in_ring; cbn; by rewrite Hpc).
  destruct slot; cbn [negb] in H.
  - cbn in H. injection H as <-. set (id := uint32 (r_nextReqID (u_ring w) + 1)).
    match goal with |- uinv (set_pc Waiting (Submit ok ?x)) => replace (set_pc Waiting (Submit ok x)) with (Submit ok (set_pc Waiting x)) by (by destruct ok); set (w' := set_pc Waiting x) end.
    assert (live w' = [serialize (mkReq OpRecvMultishot id)]) as Hl'.
    { unfold live in Hl |- *. apply app_nil in Hl as [Hn Hl]. apply app_nil in Hl as [Hq Hl]. apply app_nil in Hl as [Hk Hl].
      unfold w'. cbn [set_pc set_armed set_unsub set_ring u_unsub u_sq u_reqs u_cq]. by rewrite Hn, Hq, Hk, Hl. }
    apply Submit_inv; [|left; by rewrite Hl']. split; rewrite ?Hl'; try done.
    + change (buffers w') with (buffers (set_pc Waiting w)). by rewrite Hb.
    + exists id. split; [unfold id, uint32; apply Z.mod_pos_bound; lia|]. split; [done|]. cbn. by rewrite ui_flight0.
    + cbn [u_pc set_pc w']. change (in_ring w') with (in_ring (set_pc Waiting w)). by rewrite Hr.
  - cbn in H. injection H as <-.
    match goal with |- uinv (set_pc Waiting (Submit ok ?x)) => replace (set_pc Waiting (Submit ok x)) with (Submit ok (set_pc Waiting x)) by (by destruct ok); set (w' := set_pc Waiting x) end.
    assert (live w' = []) as Hl' by exact Hl. apply Submit_inv; [|by right]. split; rewrite ?Hl'; try done.
    + change (buffers w') with (buffers (set_pc Waiting w)). by rewrite Hb.
    + cbn. by rewrite Ha.
    + change (in_ring w') with (in_ring (set_pc Waiting w)). by rewrite Hr.
Qed.
Lemma set_pc_inv q w : uinv w -> batch q = batch (u_pc w) -> unread q = unread (u_pc w) -> ended q = ended (u_pc w) ->
  (match q with Sending _ _ _ => True | _ => False end <-> match u_pc w with Sending _ _ _ => True | _ => False end) -> uinv (set_pc q w).
Proof using.
  intros [] Hb Hu He Hs. split; cbn [set_pc u_ring u_mem u_cq u_pc u_sock u_sent u_out u_net u_armed]; rewrite ?Hb, ?He, ?Hs; try done.
  - unfold buffers. cbn. by rewrite Hb.
  - unfold in_ring. cbn. by rewrite Hu.
Qed.
Lemma go_inv w w' : uinv w -> ustep w Go = Some w' -> uinv w'.
Proof using. intros Hi H. cbn [ustep] in H. destruct (u_pc w) eqn:Hpc; try done. destruct (u_armed w); [|done]. injection H as <-. apply set_pc_inv; by rewrite ?Hpc. Qed.
Lemma timeout_inv w w' : uinv w -> ustep w Timeout = Some w' -> uinv w'.
Proof using. intros Hi H. cbn [ustep] in H. destruct (u_pc w) eqn:Hpc; try done. injection H as <-. apply set_pc_inv; by rewrite ?Hpc. Qed.
Lemma end_batch_inv w w' : uinv w -> ustep w EndBatch = Some w' -> uinv w'.
Proof using.
  intros [] H. cbn [ustep] in H. destruct (u_pc w) as [| |xs e|] eqn:Hpc; try done. destruct xs; [|done]. injection H as <-.
  set (w' := set_pc _ _). assert (live w' = live w) as Hl by (by unfold w'; destruct e).
  assert (buffers w' = buffers w) as Hb by (unfold buffers, w'; rewrite Hpc; by destruct e).
  assert (in_ring w' = in_ring w) as Hr by (unfold in_ring, w'; rewrite Hpc; by destruct e).
  split; rewrite ?Hl, ?Hb, ?Hr; try (by destruct e).
  unfold w'. destruct e, (u_armed w) eqn:Ha; cbn in ui_one0 |- *; rewrite ?Ha; cbn; lia.
Qed.
Lemma decoder_inv ev w w' : uinv w -> ustep w (Decoder ev) = Some w' -> uinv w'.
Proof using.
  intros [] H. cbn [ustep] in H. apply bind_Some in H as (Hd & _ & H). apply bind_Some in H as (n & Hn & H). injection H as <-. split; try done.
  - destruct ui_net0 as (evs & He & Ho). exists (evs ++ [ev]). split; [by eapply nrun_snoc|].
    rewrite omap_app, Ho. destruct ev; try done; by rewrite app_nil_r.
  - cbn. by rewrite (decoder_handoff _ _ _ Hd Hn).
Qed.

Lemma drain_enabled w l k : uinv w -> u_cq w = l ++ k -> u_pc w = Waiting ->
  exists xs, drainOnce l (u_ring w) = Some (set_inFlight (foldl forget (r_inFlight (u_ring w)) (last_cqes l)) (u_ring w), xs) /\ Forall2 same_cqe l xs.
Proof using Hsize Hcount.
  intros Hi Hl Hpc. destruct (ui_cfg _ Hi) as (Hc & Hs & _). apply drain_exact; [lia|]. apply Forall_forall. intros c Hin bn Hbn.
  pose proof (ui_cq _ Hi) as Hcq. rewrite Forall_forall in Hcq. assert (c ∈ u_cq w) as Hcw by (rewrite Hl; apply elem_of_app; by left).
  destruct (Hcq c Hcw) as (_ & H1 & H2). split.
  - assert (bn.1 ∈ buffers w) as Hb; [|apply in_range in Hb; [lia|done]].
    unfold buffers. rewrite !elem_of_app. right. left. apply list_elem_of_fmap. exists bn. split; [done|]. apply list_elem_of_omap. by exists c.
  - unfold cqe_data_of in Hbn. case_decide; [|done]. injection Hbn as <-. cbn [snd]. lia.
Qed.
Lemma drain_inv n w w' : uinv w -> ustep w (Drain n) = Some w' -> uinv w'.
Proof using Hsize Hcount.
  intros Hi H. cbn [ustep] in H. destruct (u_pc w) eqn:Hpc; try done. apply bind_Some in H as ([Hn1 Hn2] & _ & H).
  destruct (drain_enabled w (take n (u_cq w)) (drop n (u_cq w)) Hi (eq_sym (take_drop n (u_cq w))) Hpc) as (xs & Hd & Hx).
  unfold DrainBatch in H. rewrite Hd in H. cbn [mbind option_bind] in H. injection H as <-.
  set (l := take n (u_cq w)) in *. set (k := drop n (u_cq w)). assert (u_cq w = l ++ k) as Hlk by (symmetry; apply take_drop).
  set (w' := mkWorld _ _ _ _ _ _ _ _ _ _ _ _ _).
  assert (live w = u_unsub w ++ u_sq w ++ u_reqs w ++ last_cqes l ++ last_cqes k) as Hl by (unfold live; by rewrite Hlk, last_cqes_app).
  assert (live w' = u_unsub w ++ u_sq w ++ u_reqs w ++ last_cqes k) as Hl' by done.
  pose proof (same_last _ _ Hx) as Hlast. pose proof (same_data _ _ Hx) as Hdata. pose proof Hi as [].
  rewrite Hpc in ui_one0, ui_handoff0. cbn [batch ended b2n] in ui_one0. change (length (last_results [])) with 0%nat in ui_one0.
  rewrite Hl, !length_app in ui_one0. split; try done.
  - unfold buffers in *. cbn [u_free u_cq u_pc w' batch]. rewrite Hpc, Hlk, omap_app, fmap_app in ui_buffers0. cbn [batch omap list_omap fmap list_fmap] in ui_buffers0.
    rewrite Hdata. rewrite <- ui_buffers0, app_nil_r. f_equiv. apply Permutation_app_comm.
  - cbn [u_cq w']. rewrite Hlk in ui_cq0. by apply Forall_app in ui_cq0 as [_ ?].
  - cbn [u_pc w' batch]. eapply same_ok; [exact Hx|]. rewrite Hlk in ui_cq0. by apply Forall_app in ui_cq0 as [? _].
  - rewrite Hl', !length_app. cbn [u_pc u_armed w' batch ended b2n]. rewrite Hlast. lia.
  - rewrite Hl'. cbn [u_ring w' r_inFlight set_inFlight]. destruct (last_cqes l) as [|d r] eqn:Hll.
    + rewrite Hl in ui_flight0. exact ui_flight0.
    + cbn [length] in ui_one0. assert (length (u_sq w) = 0 /\ length (u_reqs w) = 0 /\ length r = 0 /\ length (last_cqes k) = 0 /\ length (u_unsub w) = 0)%nat as (H1 & H2 & H3 & H4 & H5) by lia.
      apply nil_length_inv in H1, H2, H3, H4, H5. rewrite H1, H2, H4, H5. subst r. cbn [foldl app]. unfold forget.
      destruct (live_op w d [] Hi) as (_ & id & _ & Hid & ->); [by rewrite Hl, H1, H2, H4, H5|]. rewrite Hid. apply delete_singleton_eq.
  - unfold truncated in *. cbn [w' u_ring r_recvBufSize set_inFlight u_sent u_out u_sock]. rewrite ui_data0. f_equal. f_equal.
    unfold in_ring. cbn [w' u_mem u_pc u_cq unread]. rewrite Hpc, Hlk, omap_app, Hdata. done.
Qed.

(** The result a batch is at. *)
Lemma head_result w x xs : uinv w -> batch (u_pc w) = x :: xs -> res_Op x = OpRecvMultishot /\
  handleRecvCQE (u_ring w) (u_mem w) x = Some (bn ← res_data_of x; Some (content (u_mem w) bn)).
Proof using Hsize Hcount.
  intros Hi Hb. pose proof Hi as []. rewrite Hb in ui_res0. apply Forall_cons in ui_res0 as [(Ho & Hr & Hn) _]. split; [done|].
  unfold handleRecvCQE, res_data_of in *. destruct (res_Data x) as [n|] eqn:Hd; [|by case_decide].
  destruct (Hn n eq_refl) as [-> Hsz]. assert (0 < res_Res x) as Hpos by (by apply Hr). rewrite decide_False by lia. cbn [mbind option_bind].
  assert (res_BufID x ∈ buffers w) as Hin.
  { unfold buffers. rewrite !elem_of_app. right. right. apply list_elem_of_fmap. exists (res_BufID x, res_Res x). split; [done|].
    apply list_elem_of_omap. exists x. rewrite Hb. split; [by left|]. unfold res_data_of. by rewrite Hd. }
  pose proof (in_range w _ Hi Hin). unfold content. cbn [fst snd]. rewrite nth_lookup.
  destruct (lookup_lt_is_Some_2 (u_mem w) (Z.to_nat (res_BufID x))) as [b Hbb]; [unfold glen in ui_mem0; lia|].
  rewrite Hbb. cbn. do 2 f_equal. rewrite take_take. f_equal. destruct ui_cfg0 as (_ & -> & _). lia.
Qed.
Lemma next_inv w w' : uinv w -> ustep w Next = Some w' -> uinv w'.
Proof using Hsize Hcount.
  intros Hi H. cbn [ustep] in H. destruct (u_pc w) as [| |[|x xs] e|] eqn:Hpc; try done.
  destruct (head_result w x xs Hi ltac:(by rewrite Hpc)) as [Ho Hh]. rewrite decide_True, Hh in H by done. cbn [mbind option_bind] in H.
  destruct (res_data_of x) as [bn|] eqn:Hd; [|done]. cbn [mbind option_bind] in H.
  apply bind_Some in H as (n & Hn & H). injection H as <-. pose proof Hi as []. rewrite Hpc in *.
  destruct (recv_handoff _ _ _ Hn) as [_ Hho]. split; try done.
  - by rewrite <- ui_buffers0; unfold buffers; cbn [u_pc]; rewrite Hpc.
  - unfold in_ring, truncated in *. cbn [u_mem u_pc u_cq unread u_ring u_sent u_out u_sock]. rewrite ui_data0, Hpc, <- !app_assoc. cbn [unread omap list_omap].
    by rewrite Hd.
  - destruct ui_net0 as (evs & He & Hev). exists (evs ++ [Recv (content (u_mem w) bn)]). split; [by eapply nrun_snoc|].
    rewrite omap_app, Hev. done.
Qed.

Lemma after_inv w x xs e n : uinv w -> batch (u_pc w) = x :: xs -> ended (u_pc w) = e ->
  omap res_data_of (unread (u_pc w)) = omap res_data_of xs -> handoff n = None ->
  (exists evs, Netlinker.run conf newDumpTracker evs = Some n /\
    omap (fun ev => match ev with Recv b => Some b | _ => None end) evs = u_out w) -> uinv (after_recv x xs e (set_net n w)).
Proof using.
  intros [] Hb He Hu Hn Hnet. set (w' := after_recv x xs e (set_net n w)).
  assert (u_ring w' = u_ring w /\ u_mem w' = u_mem w /\ u_cq w' = u_cq w /\ u_sock w' = u_sock w /\ u_sent w' = u_sent w /\ u_out w' = u_out w /\
    u_armed w' = u_armed w /\ u_net w' = n /\ live w' = live w /\ u_pc w' = Batch xs (e || negb (res_More x)) /\
    u_free w' = u_free w ++ (match res_Data x with Some _ => [res_BufID x] | None => [] end)) as
    (E1 & E2 & E3 & E4 & E5 & E6 & E7 & E8 & E9 & E10 & E11).
  { unfold w', after_recv. destruct (res_Data x); cbn; rewrite ?app_nil_r; done. }
  rewrite Hb, He in *. split; rewrite ?E1, ?E2, ?E3, ?E4, ?E5, ?E6, ?E7, ?E8, ?E9, ?E10; try done.
  - rewrite <- ui_buffers0. unfold buffers. rewrite E3, E10, E11, Hb. cbn [batch omap list_omap]. unfold res_data_of at 2.
    destruct (res_Data x); cbn; [|by rewrite app_nil_r]. rewrite <- !app_assoc. f_equiv. cbn. solve_Permutation.
  - by apply Forall_cons in ui_res0 as [_ ?].
  - cbn [batch ended]. unfold last_results in *. rewrite filter_cons in ui_one0.
    destruct (decide (res_More x = false)) as [Hm|Hm]; [rewrite Hm|apply not_false_is_true in Hm; rewrite Hm];
      destruct e; cbn [negb orb b2n length] in *; lia.
  - unfold truncated, in_ring in *. rewrite E1, E2, E3, E10. cbn [unread]. by rewrite <- Hu.
Qed.
Lemma usend_inv w w' : uinv w -> ustep w Send = Some w' -> uinv w'.
Proof using.
  intros Hi H. cbn [ustep] in H. destruct (u_pc w) as [| | |x xs e] eqn:Hpc; try done. apply bind_Some in H as (n & Hn & H). injection H as <-.
  destruct (sendch_handoff _ _ Hn) as [_ Hho]. apply after_inv; rewrite ?Hpc; try done.
  destruct (ui_net _ Hi) as (evs & He & Ho). exists (evs ++ [SendCh]). split; [by eapply nrun_snoc|]. by rewrite omap_app, Ho, app_nil_r.
Qed.
Lemma next_other_inv w w' : uinv w -> ustep w NextOther = Some w' -> uinv w'.
Proof using Hsize Hcount.
  intros Hi H. cbn [ustep] in H. destruct (u_pc w) as [| |[|x xs] e|] eqn:Hpc; try done.
  destruct (head_result w x xs Hi ltac:(by rewrite Hpc)) as [Ho Hh]. rewrite decide_True, Hh in H by done. cbn [mbind option_bind] in H.
  destruct (res_data_of x) as [bn|] eqn:Hd; [done|]. cbn [mbind option_bind] in H. injection H as <-.
  assert (set_net (u_net w) w = w) as Hw by by destruct w. rewrite <- Hw at 1. apply after_inv; rewrite ?Hpc; try done.
  - cbn [unread omap list_omap]. by rewrite Hd.
  - pose proof (ui_handoff _ Hi) as Hho. rewrite Hpc in Hho. destruct (handoff (u_net w)); [|done]. exfalso. by apply (proj1 Hho).
  - apply (ui_net _ Hi).
Qed.

(** Packets are not empty. *)
Definition sock_ok (w : World) : Prop := Forall (fun p => p <> []) (u_sock w).
Lemma sock_ok_step w ev w' : sock_ok w -> ustep w ev = Some w' -> sock_ok w'.
Proof using.
  unfold sock_ok. intros Hs H. destruct ev; cbn [ustep] in H.
  - case_guard; [|done]. injection H as <-. cbn. apply Forall_app. split; [done|]. by apply Forall_singleton.
  - destruct (u_sq w); [done|]. by injection H as <-.
  - destruct (u_reqs w), (u_sock w), (u_free w); try done. injection H as <-. by apply Forall_cons in Hs as [_ ?].
  - destruct (u_reqs w); [done|]. apply bind_Some in H as (? & _ & H). apply bind_Some in H as (? & _ & H). by injection H as <-.
  - destruct (u_pc w), (u_armed w); try done. destruct (EnqueueRecvMultishot _ _ _) as [r [[? ?]|?]]; destruct submitted; by injection H as <-.
  - destruct (u_pc w), (u_armed w); try done. by injection H as <-.
  - destruct (u_pc w); try done. by injection H as <-.
  - destruct (u_pc w); try done. apply bind_Some in H as (? & _ & H). apply bind_Some in H as ([? ?] & _ & H). by injection H as <-.
  - destruct (u_pc w) as [| |[|x xs] e|]; try done. case_decide; [|done]. apply bind_Some in H as ([?|] & _ & H); [|done].
    apply bind_Some in H as (? & _ & H). by injection H as <-.
  - destruct (u_pc w); try done. apply bind_Some in H as (? & _ & H). injection H as <-. unfold after_recv. by destruct (res_Data x).
  - destruct (u_pc w) as [| |[|x xs] e|]; try done. case_decide; [|by injection H as <-]. apply bind_Some in H as ([?|] & _ & H); [done|].
    injection H as <-. unfold after_recv. by destruct (res_Data x).
  - destruct (u_pc w) as [| |[|x xs] e|]; try done. injection H as <-. by destruct e.
  - apply bind_Some in H as (? & _ & H). apply bind_Some in H as (? & _ & H). by injection H as <-.
Qed.
Lemma ustep_inv w ev w' : uinv w -> sock_ok w -> ustep w ev = Some w' -> uinv w'.
Proof using Hsize Hcount.
  intros Hi Hs H. destruct ev;
    [by eapply arrive_inv|by eapply utake_inv|by eapply urecv_inv|by eapply end_inv|by eapply arm_inv|by eapply go_inv|by eapply timeout_inv|
     by eapply drain_inv|by eapply next_inv|by eapply usend_inv|by eapply next_other_inv|by eapply end_batch_inv|by eapply decoder_inv].
Qed.
Lemma ureachable_inv w0 w : uinv w0 -> sock_ok w0 -> ureachable w0 w -> uinv w /\ sock_ok w.
Proof using Hsize Hcount.
  intros H0 Hs0. induction 1 as [|w ev w' _ [IH1 IH2] Hst]; [done|]. split; [by eapply ustep_inv|by eapply sock_ok_step].
Qed.
End Step.

(** ** The start *)

Lemma recvBufCount_loop_spec fuel n k : (k <= 15)%nat -> (15 - k < fuel)%nat ->
  let c := recvBufCount_loop fuel n (2 ^ Z.of_nat k) in
  exists j : nat, (k <= j <= 15)%nat /\ c = 2 ^ Z.of_nat j /\ (n <= c \/ c = maxRecvBufs) /\ (j = k \/ c < 2 * n).
Proof.
  revert k. induction fuel as [|fuel IH]; intros k Hk Hf; [lia|]. cbn [recvBufCount_loop]. unfold maxRecvBufs in *.
  case_decide as Hc.
  - rewrite Z.shiftl_mul_pow2 by lia. replace (2 ^ Z.of_nat k * 2 ^ 1) with (2 ^ Z.of_nat (S k)) by (rewrite Nat2Z.inj_succ, Z.pow_succ_r by lia; lia).
    assert (k < 15)%nat. { destruct Hc as [_ Hc]. apply Z.pow_lt_mono_r_iff in Hc; lia. }
    destruct (IH (S k)) as (j & Hj & Hcj & Hn & Hl); [lia..|]. exists j. split_and!; [lia..|done|done|]. right.
    destruct Hl as [->|Hl]; [|done]. rewrite Hcj, Nat2Z.inj_succ, Z.pow_succ_r by lia. lia.
  - exists k. split_and!; [lia..|done| |by left]. destruct (decide (n <= 2 ^ Z.of_nat k)); [by left|right].
    assert (2 ^ Z.of_nat k <= 2 ^ 15) by (apply Z.pow_le_mono_r; lia). lia.
Qed.
(** The number of receive buffers is a power of two no larger than the
    kernel's limit, at least the batch size unless the limit is reached, and less
    than twice it: the loop stops within its 16 doublings. *)
Theorem recvBufCountFor_spec n :
  exists j : nat, (j <= 15)%nat /\ recvBufCountFor n = 2 ^ Z.of_nat j /\
    (n <= recvBufCountFor n \/ recvBufCountFor n = maxRecvBufs) /\ (recvBufCountFor n = 1 \/ recvBufCountFor n < 2 * n).
Proof.
  destruct (recvBufCount_loop_spec 16 n 0 ltac:(lia) ltac:(lia)) as (j & Hj & Hc & Hn & Hl). exists j.
  unfold recvBufCountFor. change 1 with (2 ^ Z.of_nat 0) at 1 2 3 4 5. split_and!; [lia|exact Hc|exact Hn|].
  destruct Hl as [->|Hl]; [left; exact Hc|right; exact Hl].
Qed.

Lemma resolved_sizes recvCfg cqeCfg : 1 <= (iouringResolveBatchSizes recvCfg cqeCfg).1 /\ 1 <= (iouringResolveBatchSizes recvCfg cqeCfg).2.
Proof. unfold iouringResolveBatchSizes, iouringRecvBatchDefaultCst, iouringCqeBatchDefaultCst. cbn. split; case_decide; lia. Qed.

Section Reachable.
Context (fd : Z) (conf : config) (recvCfg cqeCfg bufSize : Z) (su : setup) (submitted : bool) (w0 : World).
Context (Hinit : init fd recvCfg cqeCfg bufSize su submitted = Some w0).
Definition buf_count : Z := recvBufCountFor (iouringResolveBatchSizes recvCfg cqeCfg).1.

Lemma buf_count_bounds : 0 < buf_count <= 2 ^ 15.
Proof.
  unfold buf_count. destruct (recvBufCountFor_spec (iouringResolveBatchSizes recvCfg cqeCfg).1) as (j & Hj & -> & _).
  split; [apply Z.pow_pos_nonneg; lia|apply Z.pow_le_mono_r; lia].
Qed.
Lemma init_inv : 0 < bufSize /\ sock_ok w0 /\
  uinv conf bufSize buf_count (iouringResolveBatchSizes recvCfg cqeCfg).2 w0.
Proof using Hinit.
  pose proof buf_count_bounds as Hbc. unfold init in Hinit. destruct (resolved_sizes recvCfg cqeCfg) as [Hr Hc].
  unfold buf_count in *. destruct (iouringResolveBatchSizes recvCfg cqeCfg) as [recv cqe]. cbn [fst snd] in *.
  unfold New in Hinit. cbn [RecvBatchSize CQEBatchSize RecvBufSize] in Hinit.
  set (bc := recvBufCountFor recv) in *. clearbody bc. rewrite !decide_False in Hinit by lia.
  destruct (su_probe su); [|done]. destruct (su_queue su); [|done]. cbn [negb] in Hinit.
  destruct (decide (0 < bufSize)) as [Hb|Hb]; [|done]. destruct (su_bufs su); [|done]. split; [done|].
  match type of Hinit with context [mkRing true _ 0 ∅ ?c _ _] => set (cap := c) in Hinit end. assert (512 <= cap) as Hcap by (unfold cap; case_decide; lia).
  unfold EnqueueRecvMultishot, enqueue in Hinit. cbn [r_recvBufCount r_inFlightCap in_flight_len r_inFlight] in Hinit.
  rewrite decide_False in Hinit by lia. rewrite decide_False in Hinit by (unfold in_flight_len; cbn; rewrite map_size_empty; lia).
  cbn in Hinit. injection Hinit as <-. split; [by destruct submitted; constructor|].
  set (w := mkWorld _ _ _ _ _ _ _ _ _ _ _ _ _). apply Submit_inv; [|by left]. split; try done.
  - cbn. split_and!; done || lia.
  - unfold w, glen. cbn. rewrite length_replicate. lia.
  - unfold buffers, w. cbn. by rewrite app_nil_r.
  - exists 1. cbn. split_and!; done.
  - by exists [].
Qed.
Lemma reachable_uinv w : ureachable fd conf w0 w ->
  uinv conf bufSize buf_count (iouringResolveBatchSizes recvCfg cqeCfg).2 w.
Proof using Hinit.
  destruct init_inv as (Hb & Hs & Hi). intros Hw. by destruct (ureachable_inv _ _ _ _ _ Hb buf_count_bounds w0 w Hi Hs Hw).
Qed.

(** C31: over any interleaving of the ring goroutine, the kernel and the decoders:
    the packets handed to the decoders, then those in the ring's buffers, then
    those in the socket are what the socket queued, in its order and cut to the
    buffer size, with none lost or repeated across the recv's ends and re-arms;
    every buffer has exactly one holder; and the dump accounting is in a state
    that the syscall receiver reaches by receiving the same packets. *)
Theorem iouring_receives_in_order w : ureachable fd conf w0 w ->
  take (Z.to_nat bufSize) <$> u_sent w = u_out w ++ in_ring w ++ (take (Z.to_nat bufSize) <$> u_sock w) /\
  buffers w ≡ₚ seqZ 0 buf_count /\
  (exists evs, Netlinker.run conf newDumpTracker evs = Some (u_net w) /\
     omap (fun ev => match ev with Recv b => Some b | _ => None end) evs = u_out w) /\
  Netlinker.reachable conf (u_net w).
Proof using Hinit.
  intros Hw. pose proof (reachable_uinv w Hw) as []. destruct ui_cfg0 as (_ & Hs & _). unfold truncated in ui_data0. rewrite Hs in ui_data0.
  split; [done|]. split; [done|]. split; [done|]. destruct ui_net0 as (evs & He & _). eapply run_reachable; [constructor|exact He].
Qed.

(** C30: as long as no Submit has failed, the receiver never waits for a
    completion that cannot come. Armed and with a packet queued, the kernel has
    the request and a buffer for it; with completions posted, a drain brings
    them; every result can be processed, the send as soon as packetCh has room;
    a recv that ended is armed again at the head of the loop if the submission
    queue has a slot, and if it has none the wait's end leads back there. (After a failed Submit it is stuck: [failed_submit_stalls].) *)
Theorem iouring_progress w : ureachable fd conf w0 w -> u_unsub w = [] ->
  match u_pc w with
  | Top => exists w', ustep fd conf w (if u_armed w then Go else Arm true true) = Some w' /\ u_armed w' = true /\ u_unsub w' = []
  | Waiting =>
      (u_cq w <> [] -> exists w', ustep fd conf w (Drain 1) = Some w') /\
      (u_cq w = [] -> u_armed w = true -> u_sock w <> [] ->
       exists ev w', (ev = KTake \/ ev = KRecv true) /\ ustep fd conf w ev = Some w') /\
      (u_armed w = false -> exists w', ustep fd conf w Timeout = Some w' /\ u_pc w' = Top /\ u_armed w' = false)
  | Batch [] _ => exists w', ustep fd conf w EndBatch = Some w'
  | Batch (_ :: _) _ => exists ev w', (ev = Next \/ ev = NextOther) /\ ustep fd conf w ev = Some w'
  | Sending _ _ _ => (length (packetCh (u_net w)) < startDecoders (netlinkers conf))%nat -> exists w', ustep fd conf w Send = Some w'
  end.
Proof using Hinit.
  intros Hw Hns. destruct init_inv as (Hb & _). pose proof (reachable_uinv w Hw) as Hi. pose proof buf_count_bounds as Hbc. pose proof Hi as [].
  destruct (u_pc w) as [| |[|x xs] e|x xs e] eqn:Hpc.
  - destruct (u_armed w) eqn:Ha; cbn [ustep]; rewrite Hpc, Ha; [by eexists|].
    destruct ui_cfg0 as (Hc & _ & Hcap & _). assert (live w = []) as Hl by (apply nil_length_inv; cbn in ui_one0; lia).
    rewrite Hl in ui_flight0. unfold EnqueueRecvMultishot, enqueue. rewrite decide_False by lia.
    rewrite decide_False by (unfold in_flight_len; rewrite ui_flight0, map_size_empty; lia). cbn. by eexists.
  - split; [|split; [|intros Ha; eexists; cbn [ustep]; rewrite Hpc; split; [reflexivity|by split]]].
    + intros Hc. destruct (u_cq w) as [|c k] eqn:Hcq; [done|].
      destruct (drain_enabled conf _ _ _ Hb Hbc w [c] k Hi Hcq Hpc) as (xs & Hd & _). cbn [ustep]. rewrite Hpc, Hcq.
      rewrite option_guard_True by (destruct ui_cfg0 as (_ & _ & _ & ->); destruct (resolved_sizes recvCfg cqeCfg); rewrite glen_cons; pose proof (glen_nonneg k); lia).
      cbn [mbind option_bind take]. rewrite take_0. unfold DrainBatch. rewrite Hd. by eexists.
    + intros Hc Ha Hs. cbn [batch ended b2n] in ui_one0. rewrite Ha in ui_one0. change (length (last_results [])) with 0%nat in ui_one0. cbn in ui_one0.
      unfold live in ui_one0. rewrite Hc, Hns in ui_one0. rewrite !length_app in ui_one0. cbn in ui_one0.
      destruct (u_sq w) as [|d sq] eqn:Hsq; [|exists KTake; cbn [ustep]; rewrite Hsq; eexists; split; [by left|done]].
      destruct (u_reqs w) as [|d reqs] eqn:Hr; [cbn in ui_one0; lia|]. exists (KRecv true). cbn [ustep]. rewrite Hr.
      destruct (u_sock w) as [|p sock]; [done|]. destruct (u_free w) as [|b free] eqn:Hf; [|eexists; split; [by right|done]].
      unfold buffers in ui_buffers0. rewrite Hf, Hc, Hpc in ui_buffers0. cbn in ui_buffers0. apply Permutation_nil_l in ui_buffers0.
      assert (length (seqZ 0 buf_count) = 0%nat) as Hlen by (by rewrite <- ui_buffers0). rewrite length_seqZ in Hlen. lia.
  - cbn [ustep]. rewrite Hpc. by eexists.
  - destruct (head_result conf _ _ _ Hb Hbc w x xs Hi ltac:(by rewrite Hpc)) as [Ho Hh].
    destruct (res_data_of x) as [bn|] eqn:Hd; cbn [mbind option_bind] in Hh.
    + exists Next. cbn [ustep]. rewrite Hpc, decide_True, Hh by done. cbn [mbind option_bind step].
      assert (handoff (u_net w) = None) as -> by (destruct (handoff (u_net w)); [exfalso; by apply (proj1 ui_handoff0)|done]).
      unfold assign, packetHasDone. destruct (packetHasDone_total (S (length (content (u_mem w) bn))) (content (u_mem w) bn) 0) as [hd ->]; [lia|unfold glen; lia|].
      cbn [mbind option_bind]. destruct hd; (eexists; split; [by left|done]).
    + exists NextOther. cbn [ustep]. rewrite Hpc, decide_True, Hh by done. cbn. eexists. split; [by right|done].
  - intros Hroom. cbn [ustep step]. rewrite Hpc. destruct (handoff (u_net w)) as [i|] eqn:Hh; [|exfalso; by apply (proj2 ui_handoff0)].
    rewrite option_guard_True by done. cbn. by eexists.
Qed.

(** A Submit that failed is only counted, and the receiver goes on as armed: from
    then on the kernel never has the request, no packet leaves the socket, and no
    further Submit is made. *)
Lemma failed_submit_stalls w w' : ureachable fd conf w0 w -> u_unsub w <> [] -> ureachable fd conf w w' ->
  u_unsub w' = u_unsub w /\ u_armed w' = true /\ u_reqs w' = [] /\ u_sock w `prefix_of` u_sock w'.
Proof using Hinit.
  intros Hw Hns Hw'. assert (Hst : forall x, ureachable fd conf w0 x -> u_unsub x <> [] ->
    u_armed x = true /\ u_sq x = [] /\ u_reqs x = [] /\ ended (u_pc x) = false).
  { intros x Hx Hn. pose proof (reachable_uinv x Hx) as [].
    unfold live in ui_one0. destruct (u_unsub x) as [|d l]; [done|]. rewrite !length_app in ui_one0. cbn [length] in ui_one0.
    destruct (u_armed x), (ended (u_pc x)); cbn in ui_one0; try lia. split_and!; try done; apply nil_length_inv; lia. }
  cut (ureachable fd conf w0 w' /\ u_unsub w' = u_unsub w /\ u_sock w `prefix_of` u_sock w').
  { intros (Hx & Hu & Hp). destruct (Hst w' Hx ltac:(by rewrite Hu)) as (? & _ & ? & _). done. }
  induction Hw' as [|x ev y Hx (IH & Hu & Hp) Hs]; [done|]. split; [by eapply ureach_step|]. rewrite <- Hu.
  destruct (Hst x IH ltac:(by rewrite Hu)) as (Ha & Hq & Hr & He). cut (u_unsub y = u_unsub x /\ u_sock x `prefix_of` u_sock y).
  { intros [-> Hp']. split; [done|by etrans]. }
  destruct ev; cbn [ustep] in Hs; rewrite ?Ha, ?Hq, ?Hr in Hs; try done.
  - case_guard; [|done]. injection Hs as <-. split; [done|]. by apply prefix_app_r.
  - by destruct (u_pc x).
  - destruct (u_pc x); try done. by injection Hs as <-.
  - destruct (u_pc x); try done. by injection Hs as <-.
  - destruct (u_pc x); try done. apply bind_Some in Hs as (? & _ & Hs). apply bind_Some in Hs as ([? ?] & _ & Hs). by injection Hs as <-.
  - destruct (u_pc x) as [| |[|? ?] ?|]; try done. case_decide; [|done]. apply bind_Some in Hs as ([?|] & _ & Hs); [|done].
    apply bind_Some in Hs as (? & _ & Hs). by injection Hs as <-.
  - destruct (u_pc x); try done. apply bind_Some in Hs as (? & _ & Hs). injection Hs as <-. unfold after_recv. by destruct (res_Data x0).
  - destruct (u_pc x) as [| |[|? ?] ?|]; try done. case_decide; [|by injection Hs as <-]. apply bind_Some in Hs as ([?|] & _ & Hs); [done|].
    injection Hs as <-. unfold after_recv. by destruct (res_Data r).
  - destruct (u_pc x) as [| |[|? ?] e|]; try done. injection Hs as <-. by destruct e.
  - apply bind_Some in Hs as (? & _ & Hs). apply bind_Some in Hs as (? & _ & Hs). by injection Hs as <-.
Qed.
End Reachable.

Lemma urun_reachable fd conf w0 w evs w' :
  ureachable fd conf w0 w -> urun fd conf w evs = Some w' -> ureachable fd conf w0 w'.
Proof.
  revert w. induction evs as [|ev evs IH]; intros w Hw H; cbn [urun] in H; [by injection H as <-|].
  apply bind_Some in H as (w1 & H1 & H). by eapply IH; [eapply ureach_step|].
Qed.

(** Two buffers of four bytes: three packets, the recv ending after the second
    for want of a buffer, and armed again. *)
Definition demo_setup : setup := mkSetup true true true.
Definition demo_start : option World := init 3 2 4 4 demo_setup true.
Definition demo_conf : config := mkConf 1 10.
Definition demo_events : list uevent :=
  [KTake; Arrive [1; 2; 3]; Arrive [4; 5; 6; 7; 8]; Arrive [9]; KRecv true; Go; KRecv true; KEnd ENOBUFS; Drain 3; Next; Send; Next;
   Send; NextOther; EndBatch; Arm true true; KTake; KRecv true].
Lemma demo_reaches : exists w0 w, demo_start = Some w0 /\ urun 3 demo_conf w0 (take 10 demo_events) = Some w /\ ureachable 3 demo_conf w0 w.
Proof.
  destruct demo_start as [w0|] eqn:H0; [|by vm_compute in H0]. exists w0.
  destruct (urun 3 demo_conf w0 (take 10 demo_events)) as [w|] eqn:Hr.
  - exists w. split_and!; [done|done|]. eapply urun_reachable; [constructor|exact Hr].
  - vm_compute in H0. injection H0 as <-. by vm_compute in Hr.
Qed.
Lemma iouring_receives_in_order_witness : exists w0 w, init 3 2 4 4 demo_setup true = Some w0 /\ ureachable 3 demo_conf w0 w /\
  urun 3 demo_conf w0 (take 10 demo_events) = Some w /\
  take 4 <$> u_sent w = u_out w ++ in_ring w ++ (take 4 <$> u_sock w) /\ Netlinker.reachable demo_conf (u_net w).
Proof.
  destruct demo_reaches as (w0 & w & H0 & Hr & Hw). exists w0, w. split; [exact H0|]. split; [exact Hw|]. split; [exact Hr|].
  destruct (iouring_receives_in_order 3 demo_conf 2 4 4 demo_setup true w0 H0 w Hw) as (Hd & _ & _ & Hn). by split.
Defined.
Lemma iouring_progress_witness : exists w0 w, init 3 2 4 4 demo_setup true = Some w0 /\ ureachable 3 demo_conf w0 w /\
  (exists x xs e, u_pc w = Sending x xs e) /\ ((length (packetCh (u_net w)) < startDecoders (netlinkers demo_conf))%nat -> is_Some (ustep 3 demo_conf w Send)).
Proof.
  destruct demo_reaches as (w0 & w & H0 & Hr & Hw). exists w0, w. split; [exact H0|]. split; [exact Hw|].
  pose proof (iouring_progress 3 demo_conf 2 4 4 demo_setup true w0 H0 w Hw) as H.
  assert (u_unsub w = [] /\ exists x xs e, u_pc w = Sending x xs e) as (Hns & x & xs & e & Hp).
  { vm_compute in H0. injection H0 as <-. vm_compute in Hr. injection Hr as <-. split; [reflexivity|by eexists _, _, _]. }
  specialize (H Hns).
  split; [by exists x, xs, e|]. rewrite Hp in H. intros Hroom. destruct (H Hroom) as [w' Hw']. by exists w'.
Defined.
