(* ===== verification/RtAttr.v ===== *)
(** Route attributes, both directions: the encoder [AttrBuilder] over a fixed
    caller-provided buffer (pkg/xtcpnl/xtcpnl_rtattr_encode.go), the walker
    [WalkRTAttrs] (xtcpnl_rtnetlink.go) and the duplicate-attribute rule
    [attrSeen] (xtcpnl_rtattr_firstwins.go). *)

From S2P Require Import Prelude NlHeaders.

(** ** AttrBuilder *)

Definition RtaMaxPayloadCst : Z := 65535 - RTAttrSizeCst.

Record AttrBuilder := mkAttrBuilder { ab_buf : bytes; ab_n : Z }.

Definition NewAttrBuilder (buf : bytes) : AttrBuilder := {| ab_buf := buf; ab_n := 0 |}.
Definition Len (a : AttrBuilder) : Z := ab_n a.
Definition Bytes (a : AttrBuilder) : go bytes := slice (ab_buf a) 0 (ab_n a).
Definition Reset (a : AttrBuilder) : AttrBuilder := {| ab_buf := ab_buf a; ab_n := 0 |}.

(** [reserve] returns the payload region as the bounds of a sub-slice of the
    builder's buffer. *)
Definition reserve (atype payloadLen : Z) (a : AttrBuilder)
    : go (AttrBuilder * (Z * Z) * option err) :=
  if decide (payloadLen < 0 \/ RtaMaxPayloadCst < payloadLen)
  then Some (a, (0, 0), Some ErrAttrTooLong) else
  let alen := RTAttrSizeCst + payloadLen in
  let adv := alen + FourByteAlignPadding alen in
  if decide (glen (ab_buf a) - ab_n a < adv) then Some (a, (0, 0), Some ErrAttrNoSpace) else
  b ← put_at (ab_buf a) (ab_n a) (le_split 2 (uint16 alen));
  b ← put_at b (ab_n a + 2) (le_split 2 atype);
  b ← put_at b (ab_n a + RTAttrSizeCst) (replicate (Z.to_nat (adv - RTAttrSizeCst)) 0);
  Some ({| ab_buf := b; ab_n := ab_n a + adv |},
        (ab_n a + RTAttrSizeCst, ab_n a + alen), None).

(** [copy(p, src)] into a reserved region [p]. *)
Definition copy_into (p : Z * Z) (src : bytes) (a : AttrBuilder) : go AttrBuilder :=
  b ← put_at (ab_buf a) p.1 (take (Z.to_nat (p.2 - p.1)) src);
  Some {| ab_buf := b; ab_n := ab_n a |}.

Definition PutBytes (atype : Z) (v : bytes) (a : AttrBuilder) : go (AttrBuilder * option err) :=
  '(a, p, e) ← reserve atype (glen v) a;
  match e with
  | Some e => Some (a, Some e)
  | None => a ← copy_into p v a; Some (a, None)
  end.

Definition PutU8 (atype v : Z) (a : AttrBuilder) : go (AttrBuilder * option err) :=
  PutBytes atype [v] a.

Definition PutU16 (atype v : Z) (a : AttrBuilder) : go (AttrBuilder * option err) :=
  '(a, p, e) ← reserve atype 2 a;
  match e with
  | Some e => Some (a, Some e)
  | None => b ← put_at (ab_buf a) p.1 (le_split 2 v); Some ({| ab_buf := b; ab_n := ab_n a |}, None)
  end.

Definition PutU32 (atype v : Z) (a : AttrBuilder) : go (AttrBuilder * option err) :=
  '(a, p, e) ← reserve atype 4 a;
  match e with
  | Some e => Some (a, Some e)
  | None => b ← put_at (ab_buf a) p.1 (le_split 4 v); Some ({| ab_buf := b; ab_n := ab_n a |}, None)
  end.

Definition PutS32 (atype v : Z) (a : AttrBuilder) : go (AttrBuilder * option err) :=
  PutU32 atype (uint32 v) a.

(** The string is its bytes. *)
Definition PutString (atype : Z) (s : bytes) (a : AttrBuilder) : go (AttrBuilder * option err) :=
  '(a, p, e) ← reserve atype (glen s + 1) a;
  match e with
  | Some e => Some (a, Some e)
  | None => a ← copy_into p s a; Some (a, None)
  end.

(** A [NestMark] is its offset. *)
Definition BeginNest (atype : Z) (a : AttrBuilder) : go (AttrBuilder * Z * option err) :=
  let m := ab_n a in
  '(a, _, e) ← reserve atype 0 a;
  match e with
  | Some e => Some (a, 0, Some e)
  | None => Some (a, m, None)
  end.

Definition EndNest (m : Z) (a : AttrBuilder) : go (AttrBuilder * option err) :=
  if decide (m < 0 \/ ab_n a < m + RTAttrSizeCst) then Some (a, Some ErrNestNotOpen) else
  let l := ab_n a - m in
  if decide (65535 < l) then Some ({| ab_buf := ab_buf a; ab_n := m |}, Some ErrAttrTooLong) else
  b ← put_at (ab_buf a) m (le_split 2 (uint16 l));
  Some ({| ab_buf := b; ab_n := ab_n a |}, None).

(** ** WalkRTAttrs *)

(** NLA_F_NESTED and NLA_F_NET_BYTEORDER cleared, as a uint16. *)
Definition NlaTypeMaskCst : Z := uint16 (Z.lnot (Z.lor 32768 16384)).

Section Walk.
Context {S : Type} (fn : Z -> bytes -> S -> go S).

(** [fn] is the callback; the variables it captures are the state [S].  Each
    iteration consumes at least 4 bytes ([WalkRTAttrs_total]). *)
Fixpoint WalkRTAttrs_loop (fuel : nat) (data : bytes) (s : S) : go (S * option err) :=
  match fuel with
  | O => None
  | Datatypes.S fuel =>
      if decide (RTAttrSizeCst <= glen data) then
        '(rta, _, e) ← DeserializeRTAttr data {| rta_Len := 0; rta_Type := 0 |};
        match e with
        | Some e => Some (s, Some e)
        | None =>
            let alen := rta_Len rta in
            if decide (alen < RTAttrSizeCst \/ glen data < alen)
            then Some (s, Some ErrRTAttrSmall) else
            val ← slice data RTAttrSizeCst alen;
            s ← fn (Z.land (rta_Type rta) NlaTypeMaskCst) val s;
            let adv := alen + FourByteAlignPadding alen in
            if decide (adv <= 0 \/ glen data < adv) then Some (s, None) else
            rest ← slice data adv (glen data);
            WalkRTAttrs_loop fuel rest s
        end
      else Some (s, None)
  end.

Definition WalkRTAttrs (data : bytes) (s : S) : go (S * option err) :=
  WalkRTAttrs_loop (Datatypes.S (length data)) data s.

(** The callback run over a list of attributes. *)
Fixpoint visit_attrs (l : list (Z * bytes)) (s : S) : go S :=
  match l with
  | [] => Some s
  | (t, v) :: l => s ← fn t v s; visit_attrs l s
  end.
End Walk.

(** [CopyBytes]: an empty slice copies to nil; nil is [None]. *)
Definition CopyBytes (b : bytes) : option bytes :=
  if decide (glen b = 0) then None else Some b.

(** ** attrSeen *)

Definition first (atype seen : Z) : Z * bool :=
  if decide (64 <= atype) then (seen, true) else
  let bit := Z.shiftl 1 atype in
  if decide (Z.land seen bit <> 0) then (seen, false) else (Z.lor seen bit, true).

(** The shape every rtnetlink parser's callback has:
    [if !seen.first(atype) { return }; body]. *)
Definition guarded {A} (body : Z -> bytes -> A -> go A) (t : Z) (v : bytes) (s : Z * A)
    : go (Z * A) :=
  let '(seen, fresh) := first t s.1 in
  if fresh : bool then x ← body t v s.2; Some (seen, x) else Some (seen, s.2).

(** ** Lemmas: the encoder *)

(** The builder has written [done]; [rest] is the buffer's unwritten part. *)
Definition holds (a : AttrBuilder) (done rest : bytes) : Prop :=
  ab_buf a = done ++ rest /\ ab_n a = glen done.

Lemma holds_Bytes a d r : holds a d r -> Bytes a = Some d.
Proof.
  intros [Hb Hn]. unfold Bytes. rewrite Hb, Hn, slice_ok by len_lia.
  f_equal. by apply (slice_mid [] d r).
Qed.

(** The bytes an attribute with a [k]-byte payload takes. *)
Definition attr_space (k : Z) : Z := 4 + k + FourByteAlignPadding k.

Lemma attr_space_enc t v : glen (enc_attr (t, v)) = attr_space (glen v).
Proof. rewrite enc_attr_length, pad_length. unfold attr_space. cbn [snd]. lia. Qed.

Lemma reserve_fails atype k a d r :
  holds a d r -> ~ (0 <= k <= RtaMaxPayloadCst /\ attr_space k <= glen r) ->
  exists e, reserve atype k a = Some (a, (0, 0), Some e).
Proof.
  intros [Hb Hn] H. unfold reserve. case_decide as Hk; [by eexists|].
  rewrite decide_True; [by eexists|]. rewrite Hb, Hn, glen_app.
  unfold RTAttrSizeCst. rewrite padding_shift. unfold attr_space in H. lia.
Qed.

Lemma reserve_ok atype k a d r :
  holds a d r -> 0 <= k <= RtaMaxPayloadCst -> attr_space k <= glen r ->
  exists a', reserve atype k a = Some (a', (glen d + 4, glen d + 4 + k), None) /\
    ab_n a' = glen d + attr_space k /\
    ab_buf a' = (d ++ le_split 2 (4 + k) ++ le_split 2 atype) ++
      (replicate (Z.to_nat (attr_space k - 4)) 0) ++ drop (Z.to_nat (attr_space k)) r.
Proof.
  unfold RtaMaxPayloadCst, RTAttrSizeCst. intros [Hb Hn] Hk Hr.
  pose proof (FourByteAlignPadding_bound k). unfold reserve, RtaMaxPayloadCst, RTAttrSizeCst.
  rewrite decide_False by lia. cbv zeta. rewrite padding_shift, Hb, Hn, glen_app. unfold attr_space in *.
  rewrite decide_False by lia. unfold uint16. rewrite Z.mod_small by lia.
  set (n := 4 + k + _) in *.
  assert (r = take 2 r ++ take 2 (drop 2 r) ++ take (Z.to_nat (n - 4)) (drop 4 r) ++ drop (Z.to_nat n) r) as Hsplit.
  { rewrite <- (take_drop 2 r) at 1. f_equal. rewrite <- (take_drop 2 (drop 2 r)) at 1. f_equal.
    rewrite drop_drop. simpl (2 + 2)%nat. rewrite <- (take_drop (Z.to_nat (n - 4)) (drop 4 r)) at 1.
    f_equal. rewrite drop_drop. f_equal. lia. }
  rewrite (f_equal (app d) Hsplit), put_at_mid by (rewrite ?glen_le_split, ?glen_take; lia).
  cbn [mbind option_bind].
  rewrite (app_assoc d), put_at_mid by (rewrite ?glen_app, ?glen_le_split, ?glen_take, ?glen_drop; lia).
  cbn [mbind option_bind].
  rewrite (app_assoc (d ++ _)), put_at_mid
    by (rewrite ?glen_app, ?glen_le_split, ?glen_take, ?glen_drop, ?glen_replicate; lia).
  cbn [mbind option_bind]. eexists. split_and!; [by rewrite Z.add_assoc|done|].
  cbn [ab_buf]. by rewrite <- !app_assoc.
Qed.

(** A payload written over the zeros of a reservation leaves the encoded
    attribute. *)
Lemma fill_reserved (d r v w : bytes) atype :
  glen w <= glen v -> v = w ++ replicate (Z.to_nat (glen v - glen w)) 0 ->
  put_at ((d ++ le_split 2 (4 + glen v) ++ le_split 2 atype) ++
      replicate (Z.to_nat (attr_space (glen v) - 4)) 0 ++ r) (glen d + 4) w =
    Some ((d ++ enc_attr (atype, v)) ++ r).
Proof.
  intros Hle Hv. pose proof (FourByteAlignPadding_bound (glen v)). glen_pos.
  unfold attr_space.
  replace (Z.to_nat (4 + glen v + FourByteAlignPadding (glen v) - 4))
    with (length w + (Z.to_nat (glen v - glen w) + Z.to_nat (FourByteAlignPadding (glen v))))%nat
    by (unfold glen in *; lia).
  rewrite !replicate_add, <- (app_assoc (replicate (length w) 0)), put_at_mid by (len_lia || by rewrite glen_replicate).
  f_equal. unfold enc_attr, pad. cbn [fst snd].
  rewrite <- !app_assoc. do 3 f_equal. rewrite (app_assoc w), <- Hv. done.
Qed.

(** The outcome every Put shares: the encoded attribute [(atype, v)] appended to
    the bytes written, or an error and an unchanged builder; it is an error
    exactly when the payload is too long or does not fit. *)
Definition put_outcome (atype : Z) (v : bytes) (a : AttrBuilder) (d r : bytes)
    (res : go (AttrBuilder * option err)) : Prop :=
  exists a' e, res = Some (a', e) /\
    (e = None <-> glen v <= RtaMaxPayloadCst /\ attr_space (glen v) <= glen r) /\
    match e with
    | None => holds a' (d ++ enc_attr (atype, v)) (drop (length (enc_attr (atype, v))) r)
    | Some _ => a' = a
    end.

(** Every Put is a reservation and a write of bytes [w] that, with the zeros
    that follow them, are the payload. *)
Lemma put_via_reserve atype (v w : bytes) a d r (k : AttrBuilder -> Z * Z -> go AttrBuilder) :
  holds a d r -> glen w <= glen v -> v = w ++ replicate (Z.to_nat (glen v - glen w)) 0 ->
  (forall a' lo hi, hi = lo + glen v ->
    k a' (lo, hi) = b ← put_at (ab_buf a') lo w; Some {| ab_buf := b; ab_n := ab_n a' |}) ->
  put_outcome atype v a d r
    ('(a, p, e) ← reserve atype (glen v) a;
     match e with Some e => Some (a, Some e) | None => a ← k a p; Some (a, None) end).
Proof.
  intros Ha Hle Hv Hk. unfold put_outcome.
  destruct (decide (glen v <= RtaMaxPayloadCst /\ attr_space (glen v) <= glen r)) as [[H1 H2]|Hno].
  - destruct (reserve_ok atype (glen v) a d r Ha) as (a' & -> & Hn & Hb); [glen_pos; lia|done|].
    cbn [mbind option_bind]. rewrite Hk, Hb, fill_reserved by (done || lia). cbn [mbind option_bind].
    eexists _, None. split_and!; [done|done|..]. split; cbn [ab_buf ab_n].
    + do 2 f_equal. pose proof (attr_space_enc atype v). unfold glen in *. lia.
    + rewrite Hn, glen_app, attr_space_enc. done.
  - destruct (reserve_fails atype (glen v) a d r Ha) as [e ->]; [glen_pos; lia|].
    eexists a, (Some e). split_and!; [done|naive_solver|done].
Qed.

Definition write_region (w : bytes) (a : AttrBuilder) (p : Z * Z) : go AttrBuilder :=
  b ← put_at (ab_buf a) p.1 w; Some {| ab_buf := b; ab_n := ab_n a |}.
Lemma put_direct_eq atype k w a :
  ('(a, p, e) ← reserve atype k a;
   match e with
   | Some e => Some (a, Some e)
   | None => b ← put_at (ab_buf a) p.1 w; Some ({| ab_buf := b; ab_n := ab_n a |}, None)
   end) =
  ('(a, p, e) ← reserve atype k a;
   match e with Some e => Some (a, Some e) | None => a ← write_region w a p; Some (a, None) end).
Proof.
  unfold write_region. destruct (reserve atype k a) as [[[a' p] [e|]]|]; cbn [mbind option_bind]; [done| |done].
  by destruct (put_at _ _ _).
Qed.

Lemma copy_into_all a lo hi (w : bytes) : glen w <= hi - lo ->
  copy_into (lo, hi) w a = b ← put_at (ab_buf a) lo w; Some {| ab_buf := b; ab_n := ab_n a |}.
Proof. intros. unfold copy_into. cbn [fst snd]. rewrite take_ge; [done|unfold glen in *; lia]. Qed.

Lemma PutBytes_outcome atype v a d r : holds a d r -> put_outcome atype v a d r (PutBytes atype v a).
Proof.
  intros Ha. apply (put_via_reserve atype v v a d r (fun a p => copy_into p v a)); [done|lia| |].
  - by rewrite Z.sub_diag, app_nil_r.
  - intros. apply copy_into_all. lia.
Qed.

Lemma PutString_outcome atype s a d r :
  holds a d r -> put_outcome atype (s ++ [0]) a d r (PutString atype s a).
Proof.
  intros Ha. unfold PutString. replace (glen s + 1) with (glen (s ++ [0])) by len_lia.
  apply (put_via_reserve atype (s ++ [0]) s a d r (fun a p => copy_into p s a)); [done|len_lia| |].
  - f_equal. replace (glen (s ++ [0]) - glen s) with 1 by len_lia. done.
  - intros. apply copy_into_all. len_lia.
Qed.

Lemma PutU16_outcome atype v a d r :
  holds a d r -> put_outcome atype (le_split 2 v) a d r (PutU16 atype v a).
Proof.
  intros Ha. unfold PutU16. rewrite put_direct_eq.
  apply (put_via_reserve atype (le_split 2 v) (le_split 2 v) a d r (write_region (le_split 2 v))); done.
Qed.

Lemma PutU32_outcome atype v a d r :
  holds a d r -> put_outcome atype (le_split 4 v) a d r (PutU32 atype v a).
Proof.
  intros Ha. unfold PutU32. rewrite put_direct_eq.
  apply (put_via_reserve atype (le_split 4 v) (le_split 4 v) a d r (write_region (le_split 4 v))); done.
Qed.

(** ** Nests

    A well-bracketed sequence of encoder calls is a forest: a leaf is one
    [PutBytes], a nest is [BeginNest], its contents, [EndNest]. *)
Inductive tree := Leaf (ty : Z) (v : bytes) | Nest (ty : Z) (l : list tree).

Section TreeInd.
Context (P : tree -> Prop) (HL : forall ty v, P (Leaf ty v))
  (HN : forall ty l, Forall P l -> P (Nest ty l)).
Fixpoint tree_ind_list (t : tree) : P t :=
  match t with
  | Leaf ty v => HL ty v
  | Nest ty l => HN ty l ((fix go l := match l return Forall P l with
      | [] => Forall_nil_2 P
      | t :: l => Forall_cons_2 P t l (tree_ind_list t) (go l) end) l)
  end.
End TreeInd.

(** Calls in sequence, stopping at the first error. *)
Definition each {A} (f : A -> AttrBuilder -> go (AttrBuilder * option err)) :=
  fix go (l : list A) (a : AttrBuilder) : go (AttrBuilder * option err) :=
  match l with
  | [] => Some (a, None)
  | x :: l =>
      '(a, e) ← f x a;
      match e with Some e => Some (a, Some e) | None => go l a end
  end.

Fixpoint build (t : tree) (a : AttrBuilder) : go (AttrBuilder * option err) :=
  match t with
  | Leaf ty v => PutBytes ty v a
  | Nest ty l =>
      '(a, m, e) ← BeginNest ty a;
      match e with
      | Some e => Some (a, Some e)
      | None =>
          '(a, e) ← each build l a;
          match e with Some e => Some (a, Some e) | None => EndNest m a end
      end
  end.
Definition build_all (l : list tree) : AttrBuilder -> go (AttrBuilder * option err) := each build l.

(** What a tree stands for: a nest is an attribute whose payload is the
    encoding of its contents. *)
Fixpoint payload (t : tree) : Z * bytes :=
  match t with
  | Leaf ty v => (ty, v)
  | Nest ty l => (ty, concat ((fun t => enc_attr (payload t)) <$> l))
  end.
Definition encode_all (l : list tree) : bytes := enc_attrs (payload <$> l).

(** Every payload fits rta_len. *)
Fixpoint wf_tree (t : tree) : Prop :=
  glen (payload t).2 <= RtaMaxPayloadCst /\
  match t with Leaf _ _ => True | Nest _ l => foldr (fun t P => wf_tree t /\ P) True l end.

Lemma wf_tree_nest ty l :
  wf_tree (Nest ty l) <-> glen (encode_all l) <= RtaMaxPayloadCst /\ Forall wf_tree l.
Proof.
  unfold encode_all, enc_attrs. rewrite <- list_fmap_compose. cbn [wf_tree payload snd].
  apply and_iff_compat_l. induction l as [|t l IH]; simpl; [split; constructor|].
  rewrite Forall_cons, IH. done.
Qed.

Lemma payload_nest ty l : payload (Nest ty l) = (ty, encode_all l).
Proof. unfold encode_all, enc_attrs. rewrite <- list_fmap_compose. done. Qed.

Lemma enc_attr_aligned a : glen (enc_attr a) mod 4 = 0.
Proof.
  destruct a as [t v]. rewrite attr_space_enc. unfold attr_space.
  rewrite <- padding_shift. apply FourByteAlignPadding_aligned.
Qed.
Lemma encode_all_cons t l : encode_all (t :: l) = enc_attr (payload t) ++ encode_all l.
Proof. done. Qed.
Lemma encode_all_one t : encode_all [t] = enc_attr (payload t).
Proof. apply app_nil_r. Qed.
Lemma encode_all_aligned l : glen (encode_all l) mod 4 = 0.
Proof.
  induction l as [|t l IH]; [done|]. rewrite encode_all_cons, glen_app.
  rewrite Z.add_mod, IH, enc_attr_aligned by lia. done.
Qed.
Lemma enc_nest ty l :
  enc_attr (payload (Nest ty l)) = le_split 2 (4 + glen (encode_all l)) ++ le_split 2 ty ++ encode_all l.
Proof.
  rewrite payload_nest. unfold enc_attr, pad. cbn [fst snd].
  rewrite FourByteAlignPadding_mod, Z.mod_opp_l_z, app_nil_r by (lia || apply encode_all_aligned). done.
Qed.

Lemma BeginNest_outcome ty a d r :
  holds a d r ->
  exists a' m e, BeginNest ty a = Some (a', m, e) /\ (e = None <-> 4 <= glen r) /\
    (e = None -> m = glen d /\ holds a' (d ++ le_split 2 4 ++ le_split 2 ty) (drop 4 r)).
Proof.
  intros Ha. unfold BeginNest. destruct (decide (4 <= glen r)) as [Hr|Hr].
  - destruct (reserve_ok ty 0 a d r Ha) as (a' & -> & Hn & Hb); [done|done|].
    eexists a', _, None. split_and!; [done|done|]. intros _. destruct Ha as [_ ->].
    split; [done|]. split; [exact Hb|]. rewrite Hn, !glen_app, !glen_le_split. done.
  - destruct (reserve_fails ty 0 a d r Ha) as [e ->]; [change (attr_space 0) with 4; lia|].
    eexists a, _, (Some e). split_and!; [done|split; [done|lia]|done].
Qed.

Lemma EndNest_outcome ty a d inner r :
  holds a (d ++ (le_split 2 4 ++ le_split 2 ty) ++ inner) r ->
  exists a' e, EndNest (glen d) a = Some (a', e) /\ (e = None <-> glen inner <= RtaMaxPayloadCst) /\
    ab_buf a' = d ++ drop (length d) (ab_buf a') /\
    (e = None -> holds a' (d ++ le_split 2 (4 + glen inner) ++ le_split 2 ty ++ inner) r) /\
    (e <> None -> Bytes a' = Some d).
Proof.
  intros [Hb Hn]. unfold EndNest, RtaMaxPayloadCst, RTAttrSizeCst.
  rewrite Hn, !glen_app, !glen_le_split. rewrite decide_False by (glen_pos; lia). cbv zeta.
  case_decide as Hl.
  - eexists _, (Some _). split_and!; [done|split; [done|lia]| |done|].
    + cbn [ab_buf]. rewrite Hb, <- !app_assoc, drop_app_length. done.
    + intros _. unfold Bytes. cbn [ab_buf ab_n]. rewrite Hb, slice_ok by len_lia. f_equal.
      rewrite <- !app_assoc. by eapply (slice_mid [] d).
  - unfold uint16. rewrite Z.mod_small by (glen_pos; lia).
    rewrite Hb, <- !app_assoc, put_at_mid by (rewrite ?glen_le_split; lia).
    cbn [mbind option_bind].
    replace (glen d + (Z.of_nat 2 + Z.of_nat 2 + glen inner) - glen d) with (4 + glen inner) by lia.
    eexists _, None. split_and!; [done|split; [intros; lia|done]| | |done].
    + cbn [ab_buf]. by rewrite drop_app_length.
    + intros _. split; cbn [ab_buf ab_n]; [by rewrite <- !app_assoc|].
      rewrite !glen_app, !glen_le_split. lia.
Qed.

(** A sequence of calls succeeds exactly when its trees fit, and then has
    appended their encodings. *)
Definition build_outcome (l : list tree) (d r : bytes) (res : go (AttrBuilder * option err)) : Prop :=
  exists a' e, res = Some (a', e) /\
    (e = None <-> Forall wf_tree l /\ glen (encode_all l) <= glen r) /\
    (e = None -> holds a' (d ++ encode_all l) (drop (length (encode_all l)) r)).

Lemma each_outcome l a d r :
  Forall (fun t => forall a d r, holds a d r -> build_outcome [t] d r (build t a)) l ->
  holds a d r -> build_outcome l d r (build_all l a).
Proof.
  unfold build_all. intros Hl. revert a d r. induction Hl as [|t l Ht Hl IH]; intros a d r Ha.
  - eexists a, None. split_and!; [done|split; [|done]|].
    + intros _. split; [constructor|]. apply glen_nonneg.
    + intros _. by rewrite app_nil_r.
  - cbn [each]. destruct (Ht a d r Ha) as (a1 & e1 & -> & He1 & Hh1). cbn [mbind option_bind].
    rewrite encode_all_one in He1, Hh1. rewrite Forall_singleton in He1. unfold build_outcome.
    destruct e1 as [e1|].
    + eexists a1, (Some e1). rewrite Forall_cons, encode_all_cons, glen_app.
      split_and!; [done| |done]. split; [done|]. intros [[Hw _] Hg]. apply He1. split; [done|]. glen_pos; lia.
    + destruct (proj1 He1 eq_refl) as [Hw Hg].
      destruct (IH _ _ _ (Hh1 eq_refl)) as (a2 & e2 & -> & He2 & Hh2).
      eexists a2, e2. rewrite Forall_cons, encode_all_cons, glen_app. split_and!; [done| |].
      * rewrite He2, glen_drop. unfold glen in *. split; intros; split_and?; try tauto; lia.
      * intros He. specialize (Hh2 He). rewrite <- app_assoc, drop_drop, <- length_app in Hh2. done.
Qed.

Lemma build_outcome_one t a d r : holds a d r -> build_outcome [t] d r (build t a).
Proof.
  revert a d r. induction t as [ty v|ty l IH] using tree_ind_list; intros a d r Ha; unfold build_outcome.
  - destruct (PutBytes_outcome ty v a d r Ha) as (a' & e & H1 & H2 & H3). exists a', e.
    rewrite encode_all_one, Forall_singleton. cbn [build wf_tree payload snd]. rewrite attr_space_enc. split_and!; [done|tauto|].
    intros ->. done.
  - cbn [build]. enough (exists a' e, (('(a, m, e) ← BeginNest ty a;
      match e with
      | Some e => Some (a, Some e)
      | None =>
          '(a, e) ← each build l a;
          match e with Some e => Some (a, Some e) | None => EndNest m a end
      end) = Some (a', e)) /\
      (e = None <-> (glen (encode_all l) <= RtaMaxPayloadCst /\ Forall wf_tree l) /\ 4 + glen (encode_all l) <= glen r) /\
      (e = None -> holds a' (d ++ le_split 2 (4 + glen (encode_all l)) ++ le_split 2 ty ++ encode_all l)
        (drop (4 + length (encode_all l)) r))) as (a' & e & H1 & H2 & H3).
    { exists a', e. rewrite encode_all_one, Forall_singleton, wf_tree_nest, enc_nest, !glen_app, !glen_le_split.
      rewrite !length_app, !length_le_split. split_and!; [done|rewrite H2; split; intros; split_and?; tauto || lia|done]. }
    destruct (BeginNest_outcome ty a d r Ha) as (a1 & m & e1 & -> & He1 & Hh1). cbn [mbind option_bind].
    destruct e1 as [e1|].
    { eexists a1, (Some e1). split_and!; [done| |done]. split; [done|].
      intros [_ Hg]. apply He1. glen_pos; lia. }
    destruct (Hh1 eq_refl) as [-> Ha1]. pose proof (proj1 He1 eq_refl) as H4.
    destruct (each_outcome l a1 _ _ IH Ha1) as (a2 & e2 & E2 & He2 & Hh2).
    unfold build_all in E2. rewrite E2. cbn [mbind option_bind]. rewrite glen_drop in He2.
    destruct e2 as [e2|].
    { eexists a2, (Some e2). split_and!; [done| |done]. split; [done|].
      intros [[_ Hw] Hg]. apply He2. split; [done|]. unfold glen in *; lia. }
    specialize (Hh2 eq_refl). rewrite <- app_assoc in Hh2.
    destruct (EndNest_outcome ty a2 d (encode_all l) _ Hh2) as (a3 & e3 & -> & He3 & _ & Hh3 & _).
    destruct (proj1 He2 eq_refl) as [Hw Hg].
    eexists a3, e3. split_and!; [done| |].
    + rewrite He3. unfold glen in *. split; intros; split_and?; try tauto; lia.
    + intros He. specialize (Hh3 He). rewrite drop_drop in Hh3. exact Hh3.
Qed.

Lemma build_all_outcome l a d r : holds a d r -> build_outcome l d r (build_all l a).
Proof. apply each_outcome. apply Forall_true. intros t ???. apply build_outcome_one. Qed.

(** ** Lemmas: the walker *)

(** The attributes of a stream as a list, and how the walk ends. *)
Fixpoint parse_attrs_fuel (fuel : nat) (data : bytes) : list (Z * bytes) * option err :=
  match fuel with
  | O => ([], None)
  | S fuel =>
      if decide (glen data < 4) then ([], None) else
      let alen := le_at 2 data 0 in
      if decide (alen < 4 \/ glen data < alen) then ([], Some ErrRTAttrSmall) else
      let a := (Z.land (le_at 2 data 2) NlaTypeMaskCst, take (Z.to_nat (alen - 4)) (drop 4 data)) in
      let adv := alen + FourByteAlignPadding alen in
      if decide (glen data < adv) then ([a], None) else
      let '(l, e) := parse_attrs_fuel fuel (drop (Z.to_nat adv) data) in (a :: l, e)
  end.
Definition parse_attrs (data : bytes) : list (Z * bytes) * option err :=
  parse_attrs_fuel (S (length data)) data.

(** The walk runs the callback over exactly that list. *)
Lemma WalkRTAttrs_loop_eq {A} (fn : Z -> bytes -> A -> go A) fuel data s :
  (length data < fuel)%nat ->
  WalkRTAttrs_loop fn fuel data s =
    s ← visit_attrs fn (parse_attrs_fuel fuel data).1 s; Some (s, (parse_attrs_fuel fuel data).2).
Proof.
  revert data s. induction fuel as [|fuel IH]; intros data s Hf; [lia|].
  cbn [WalkRTAttrs_loop parse_attrs_fuel]. unfold RTAttrSizeCst.
  destruct (decide (4 <= glen data)) as [H4|H4]; [|by rewrite decide_True by lia].
  rewrite (decide_False (P := glen data < 4)) by lia. rewrite DeserializeRTAttr_ok by done.
  cbn [mbind option_bind rta_Len rta_Type]. cbv zeta. case_decide as Hl; [done|].
  rewrite (slice_ok data 4) by lia. cbn [mbind option_bind].
  change (drop (Z.to_nat 4) data) with (drop 4 data).
  set (v := take _ _). set (t := Z.land _ _).
  pose proof (FourByteAlignPadding_bound (le_at 2 data 0)).
  destruct (decide (glen data < le_at 2 data 0 + FourByteAlignPadding (le_at 2 data 0))) as [Ha|Ha].
  - cbn [fst snd visit_attrs]. destruct (fn t v s); [|done]. cbn [mbind option_bind].
    by rewrite decide_True by lia.
  - specialize (IH (drop (Z.to_nat (le_at 2 data 0 + FourByteAlignPadding (le_at 2 data 0))) data)).
    destruct (parse_attrs_fuel fuel _) as [l e] eqn:E. cbn [fst snd visit_attrs].
    destruct (fn t v s) as [s'|]; [|done]. cbn [mbind option_bind]. rewrite decide_False by lia.
    rewrite slice_ok by lia. cbn [mbind option_bind]. rewrite take_ge by (rewrite length_drop; unfold glen; lia).
    apply IH. rewrite length_drop. unfold glen in *. lia.
Qed.

Lemma WalkRTAttrs_eq {A} (fn : Z -> bytes -> A -> go A) data s :
  WalkRTAttrs fn data s = s ← visit_attrs fn (parse_attrs data).1 s; Some (s, (parse_attrs data).2).
Proof. apply WalkRTAttrs_loop_eq. lia. Qed.

Lemma NlaTypeMask_mod t : Z.land t NlaTypeMaskCst = t mod 2 ^ 14.
Proof. change NlaTypeMaskCst with (Z.ones 14). by rewrite Z.land_ones. Qed.

(** The walk's types are non-negative and its payloads are parts of the data. *)
Lemma parse_attrs_types data : Forall (fun a => 0 <= a.1 < 2 ^ 14) (parse_attrs data).1.
Proof.
  unfold parse_attrs. generalize (S (length data)). intros fuel. revert data.
  induction fuel as [|fuel IH]; intros data; [constructor|]. cbn [parse_attrs_fuel].
  case_decide; [constructor|]. cbv zeta. case_decide; [constructor|].
  assert (0 <= Z.land (le_at 2 data 2) NlaTypeMaskCst < 2 ^ 14).
  { rewrite NlaTypeMask_mod. apply Z.mod_pos_bound. lia. }
  case_decide; [by apply Forall_singleton|]. specialize (IH (drop (Z.to_nat (le_at 2 data 0 + FourByteAlignPadding (le_at 2 data 0))) data)).
  destruct (parse_attrs_fuel fuel _) as [l e]. by apply Forall_cons_2.
Qed.

Lemma parse_attrs_error data :
  (parse_attrs data).2 = None \/ (parse_attrs data).2 = Some ErrRTAttrSmall.
Proof.
  unfold parse_attrs. generalize (S (length data)). intros fuel. revert data.
  induction fuel as [|fuel IH]; intros data; [by left|]. cbn [parse_attrs_fuel].
  case_decide; [by left|]. cbv zeta. case_decide; [by right|]. case_decide; [by left|].
  specialize (IH (drop (Z.to_nat (le_at 2 data 0 + FourByteAlignPadding (le_at 2 data 0))) data)).
  by destruct (parse_attrs_fuel fuel _) as [l e].
Qed.

(** What the walker makes of an encoded attribute. *)
Definition masked (a : Z * bytes) : Z * bytes := (Z.land a.1 NlaTypeMaskCst, a.2).

Lemma parse_attrs_fuel_enc l fuel :
  Forall wf_attr l -> (length l < fuel)%nat -> parse_attrs_fuel fuel (enc_attrs l) = (masked <$> l, None).
Proof.
  intros Hl. revert fuel. induction Hl as [|[t v] l [Ht Hv] Hl IH]; intros fuel Hf; cbn [fst snd] in *.
  { destruct fuel; [simpl in Hf; lia|]. done. }
  destruct fuel as [|fuel]; [simpl in Hf; lia|]. cbn [parse_attrs_fuel fmap list_fmap].
  change (enc_attrs ((t, v) :: l)) with (enc_attr (t, v) ++ enc_attrs l).
  pose proof (attr_space_enc t v) as Hsp. unfold attr_space in Hsp.
  pose proof (FourByteAlignPadding_bound (glen v)). glen_pos.
  rewrite decide_False by len_lia.
  assert (enc_attr (t, v) ++ enc_attrs l =
          le_split 2 (4 + glen v) ++ le_split 2 t ++ v ++
          (replicate (Z.to_nat (FourByteAlignPadding (glen v))) 0 ++ enc_attrs l)) as Hx.
  { unfold enc_attr, pad. cbn [fst snd]. by rewrite <- !app_assoc. }
  assert (le_at 2 (enc_attr (t, v) ++ enc_attrs l) 0 = 4 + glen v) as ->.
  { rewrite Hx. apply le_at_split; [lia|done]. }
  assert (le_at 2 (enc_attr (t, v) ++ enc_attrs l) 2 = t) as ->.
  { rewrite Hx, le_at_skip by lia. apply le_at_split; [simpl; lia|done]. }
  cbv zeta. rewrite decide_False by len_lia. rewrite padding_shift. rewrite decide_False by len_lia.
  replace (Z.to_nat (4 + glen v + FourByteAlignPadding (glen v))) with (length (enc_attr (t, v)))
    by (unfold glen in *; lia).
  rewrite drop_app_length, IH by (simpl in Hf; lia). do 2 f_equal. unfold masked; cbn [fst snd]. f_equal.
  rewrite Hx. replace (4 + glen v - 4) with (4 + glen v - 4) by lia.
  apply (slice_mid (le_split 2 (4 + glen v) ++ le_split 2 t) v
    (replicate (Z.to_nat (FourByteAlignPadding (glen v))) 0 ++ enc_attrs l) _ 4 (4 + glen v)); [done|done|].
  by rewrite <- !app_assoc.
Qed.

Lemma parse_attrs_enc l : Forall wf_attr l -> parse_attrs (enc_attrs l) = (masked <$> l, None).
Proof. intros. apply parse_attrs_fuel_enc; [done|]. pose proof (enc_attrs_length l). lia. Qed.

(** ** Lemmas: the first of duplicate attributes *)

(** The first occurrence of each type below 64, every occurrence of the others. *)
Fixpoint firsts (seen : list Z) (l : list (Z * bytes)) : list (Z * bytes) :=
  match l with
  | [] => []
  | a :: l =>
      if decide (64 <= a.1) then a :: firsts seen l else
      if decide (a.1 ∈ seen) then firsts seen l else a :: firsts (a.1 :: seen) l
  end.

Definition seen_bits (s : Z) (seen : list Z) : Prop :=
  forall u, 0 <= u < 64 -> Z.testbit s u = true <-> u ∈ seen.

Lemma land_bit_testbit s t : 0 <= t -> (Z.land s (Z.shiftl 1 t) <> 0 <-> Z.testbit s t = true).
Proof.
  intros Ht. split; intros H.
  - destruct (Z.testbit s t) eqn:E; [done|]. exfalso. apply H. apply Z.bits_inj'. intros u Hu.
    rewrite Z.land_spec, Z.shiftl_spec, Z.bits_0 by done. destruct (decide (u = t)) as [->|Hne]; [by rewrite E|].
    rewrite andb_comm. destruct (decide (u < t)); [by rewrite Z.testbit_neg_r by lia|].
    rewrite Z.bits_above_log2; [done|lia|]. simpl. lia.
  - intros H0. assert (Z.testbit (Z.land s (Z.shiftl 1 t)) t = true) as H1.
    { rewrite Z.land_spec, Z.shiftl_spec, H by done. by rewrite Z.sub_diag. }
    by rewrite H0, Z.bits_0 in H1.
Qed.

Lemma first_fresh t s seen :
  0 <= t < 64 -> seen_bits s seen ->
  if decide (t ∈ seen) then first t s = (s, false)
  else exists s', first t s = (s', true) /\ seen_bits s' (t :: seen).
Proof.
  intros Ht Hs. unfold first. rewrite (decide_False (P := 64 <= t)) by lia. cbv zeta.
  destruct (decide (Z.land s (Z.shiftl 1 t) <> 0)) as [Hb|Hb].
  - apply land_bit_testbit in Hb; [|lia]. apply Hs in Hb; [|lia]. by rewrite decide_True.
  - rewrite decide_False. 2: { intros Hin%Hs; [|done]. apply Hb. by apply land_bit_testbit; [lia|]. }
    eexists. split; [done|]. intros u Hu. rewrite elem_of_cons, <- (Hs u Hu), Z.lor_spec, Z.shiftl_spec by lia.
    destruct (decide (u = t)) as [->|Hne]; [rewrite Z.sub_diag, orb_comm; simpl; tauto|].
    destruct (decide (u < t)); [rewrite (Z.testbit_neg_r _ (u - t)) by lia|rewrite (Z.bits_above_log2 1) by (simpl; lia)];
      rewrite orb_false_r; naive_solver.
Qed.

Lemma guarded_eq {A} (body : Z -> bytes -> A -> go A) t v s x :
  guarded body t v (s, x) =
    if (first t s).2 then x ← body t v x; Some ((first t s).1, x) else Some ((first t s).1, x).
Proof. unfold guarded. cbn [fst snd]. by destruct (first t s). Qed.

(** The guard makes a walk a walk over the first occurrences. *)
Lemma visit_guarded {A} (body : Z -> bytes -> A -> go A) l s seen x :
  Forall (fun a => 0 <= a.1) l -> seen_bits s seen ->
  snd <$> visit_attrs (guarded body) l (s, x) = visit_attrs body (firsts seen l) x.
Proof.
  intros Hl. revert s seen x. induction Hl as [|[t v] l Ht Hl IH]; intros s seen x Hs; [done|].
  cbn [visit_attrs firsts fst snd] in *. rewrite guarded_eq.
  destruct (decide (64 <= t)) as [H64|H64].
  - unfold first. rewrite decide_True by done. cbn [visit_attrs].
    destruct (body t v x) as [x'|]; [|done]. by apply IH.
  - pose proof (first_fresh t s seen) as Hf. destruct (decide (t ∈ seen)) as [Hin|Hin].
    + rewrite Hf by (done || lia). by apply IH.
    + destruct Hf as (s' & -> & Hs'); [lia|done|]. cbn [visit_attrs].
      destruct (body t v x) as [x'|]; [|done]. by apply IH.
Qed.

Lemma seen_bits_0 : seen_bits 0 [].
Proof. intros u _. rewrite Z.bits_0. split; [done|]. intros H; inversion H. Qed.

Lemma visit_total {A} (fn : Z -> bytes -> A -> go A) l s :
  (forall t v s, is_Some (fn t v s)) -> is_Some (visit_attrs fn l s).
Proof.
  intros Hfn. revert s. induction l as [|[t v] l IH]; intros s; cbn [visit_attrs]; [by eexists|].
  destruct (Hfn t v s) as [s1 ->]. apply IH.
Qed.

(** A walk whose callback cannot panic on the types a walk hands out while an
    invariant holds. *)
Lemma visit_inv {A} (fn : Z -> bytes -> A -> go A) (I : A -> Prop) l s :
  (forall t v s, 0 <= t < 2 ^ 14 -> I s -> exists s', fn t v s = Some s' /\ I s') ->
  Forall (fun a => 0 <= a.1 < 2 ^ 14) l -> I s ->
  exists s', visit_attrs fn l s = Some s' /\ I s'.
Proof.
  intros Hfn Hl. revert s. induction Hl as [|[t v] l Ht Hl IH]; intros s Hs; cbn [visit_attrs]; [by eexists|].
  destruct (Hfn t v s Ht Hs) as (s1 & -> & H1). by apply IH.
Qed.

(** A guarded walk is a walk over the first occurrences. *)
Lemma guarded_walk {A} (body : Z -> bytes -> A -> go A) data x :
  (fun r => (r.1.2, r.2)) <$> WalkRTAttrs (guarded body) data (0, x) =
  x' ← visit_attrs body (firsts [] (parse_attrs data).1) x; Some (x', (parse_attrs data).2).
Proof.
  rewrite WalkRTAttrs_eq, <- (visit_guarded body _ 0 [] x).
  - by destruct (visit_attrs _ _ _) as [[? ?]|].
  - eapply Forall_impl; [apply parse_attrs_types|]. intros a [? _]. done.
  - apply seen_bits_0.
Qed.
Lemma guarded_walk_total {A} (body : Z -> bytes -> A -> go A) data x :
  (forall t v s, is_Some (body t v s)) ->
  exists seen x', visit_attrs body (firsts [] (parse_attrs data).1) x = Some x' /\
    WalkRTAttrs (guarded body) data (0, x) = Some ((seen, x'), (parse_attrs data).2).
Proof.
  intros Hb. destruct (visit_total body (firsts [] (parse_attrs data).1) x Hb) as [x' Hx].
  pose proof (guarded_walk body data x) as Hw. rewrite Hx in Hw.
  destruct (WalkRTAttrs (guarded body) data (0, x)) as [[[seen x''] e]|]; [|done].
  cbn in Hw. simplify_eq. by exists seen, x'.
Qed.

(** The payload of the first attribute of a type. *)
Definition first_attr (t : Z) (l : list (Z * bytes)) : option bytes :=
  snd <$> head (filter (fun a => a.1 = t) l).

Lemma first_attr_cons t a l :
  first_attr t (a :: l) = if decide (a.1 = t) then Some a.2 else first_attr t l.
Proof. unfold first_attr. rewrite filter_cons. by case_decide. Qed.

Lemma firsts_seen t seen l : 0 <= t < 64 -> t ∈ seen -> first_attr t (firsts seen l) = None.
Proof.
  intros Ht. revert seen. induction l as [|[u v] l IH]; intros seen Hs; [done|]. cbn [firsts fst].
  case_decide; [|case_decide; [by apply IH|]]; rewrite first_attr_cons; cbn [fst snd];
    rewrite decide_False by (intros ->; (lia || done)); apply IH; set_solver.
Qed.

(** A field set only by attribute [t] ends up as the first one set it. *)
Section Field.
Context {X A : Type} (body : Z -> bytes -> X -> go X) (g : X -> A) (t : Z) (h : bytes -> A -> A).
Context (Hother : forall u v x x', u <> t -> body u v x = Some x' -> g x' = g x).
Context (Hset : forall v x x', body t v x = Some x' -> g x' = h v (g x)).

Lemma visit_others l x x' : first_attr t l = None -> visit_attrs body l x = Some x' -> g x' = g x.
Proof using Hother.
  revert x. induction l as [|[u v] l IH]; intros x Hl H; cbn [visit_attrs] in H; [by simplify_eq|].
  rewrite first_attr_cons in Hl. cbn [fst snd] in Hl. case_decide as Hu; [done|].
  apply bind_Some in H as (x1 & H1 & H). by rewrite (IH x1), (Hother _ _ _ _ Hu H1).
Qed.

Lemma visit_firsts_field l seen x x' :
  0 <= t < 64 -> t ∉ seen -> visit_attrs body (firsts seen l) x = Some x' ->
  g x' = match first_attr t l with Some v => h v (g x) | None => g x end.
Proof using Hother Hset.
  intros Ht. revert seen x. induction l as [|[u v] l IH]; intros seen x Hs H; cbn [firsts fst] in H.
  { cbn [visit_attrs] in H. by simplify_eq. }
  rewrite first_attr_cons. cbn [fst snd]. destruct (decide (u = t)) as [->|Hu].
  - rewrite !decide_False in H by (done || lia). cbn [visit_attrs] in H. apply bind_Some in H as (x1 & H1 & H).
    rewrite (visit_others _ _ _ (firsts_seen t (t :: seen) l Ht ltac:(by left)) H). by apply Hset.
  - case_decide; [|case_decide; [by eapply IH|]]; cbn [visit_attrs] in H; apply bind_Some in H as (x1 & Hx1 & H);
      rewrite <- (Hother _ _ _ _ Hu Hx1); (eapply IH; [|exact H]); set_solver.
Qed.
End Field.

Lemma le_split_uint32 v : le_split 4 (uint32 v) = le_split 4 v.
Proof. apply le_split_mod. Qed.

(** ** Claims *)

(** Every Put of the attribute encoder, into a buffer with any contents,
    either appends exactly one encoded attribute (rta_len counting its header,
    zero padding to four bytes) and changes nothing behind it, or returns an
    error and leaves builder and buffer as they were; it is an error exactly
    when the payload overflows rta_len or the padded attribute does not fit. *)
Theorem AttrBuilder_put_spec a d r atype :
  holds a d r ->
  (forall v, put_outcome atype v a d r (PutBytes atype v a)) /\
  (forall v, put_outcome atype [v] a d r (PutU8 atype v a)) /\
  (forall v, put_outcome atype (le_split 2 v) a d r (PutU16 atype v a)) /\
  (forall v, put_outcome atype (le_split 4 v) a d r (PutU32 atype v a)) /\
  (forall v, put_outcome atype (le_split 4 v) a d r (PutS32 atype v a)) /\
  (forall s, put_outcome atype (s ++ [0]) a d r (PutString atype s a)).
Proof.
  intros Ha. split_and!; intros v.
  - by apply PutBytes_outcome.
  - by apply PutBytes_outcome.
  - by apply PutU16_outcome.
  - by apply PutU32_outcome.
  - rewrite <- (le_split_uint32 v). by apply PutU32_outcome.
  - by apply PutString_outcome.
Qed.

Definition demo_builder : AttrBuilder := {| ab_buf := replicate 16 255; ab_n := 8 |}.

Lemma AttrBuilder_put_spec_witness :
  put_outcome 29 (le_split 4 9) demo_builder (replicate 8 255) (replicate 8 255)
    (PutU32 29 9 demo_builder) /\
  PutU32 29 9 demo_builder =
    Some ({| ab_buf := replicate 8 255 ++ [8; 0; 29; 0; 9; 0; 0; 0]; ab_n := 16 |}, None).
Proof.
  split; [|vm_compute; reflexivity].
  apply (AttrBuilder_put_spec demo_builder (replicate 8 255) (replicate 8 255) 29).
  split; reflexivity.
Defined.

(** Closing a nest sets its rta_len to the nest's whole length; when the
    contents overflow rta_len it instead removes the whole nest, leaving the
    bytes written before BeginNest. *)
Theorem EndNest_spec ty a d inner r :
  holds a (d ++ (le_split 2 4 ++ le_split 2 ty) ++ inner) r ->
  exists a' e, EndNest (glen d) a = Some (a', e) /\
    (e = None <-> glen inner <= RtaMaxPayloadCst) /\
    (e = None -> holds a' (d ++ le_split 2 (4 + glen inner) ++ le_split 2 ty ++ inner) r) /\
    (e <> None -> Bytes a' = Some d).
Proof.
  intros Ha. destruct (EndNest_outcome ty a d inner r Ha) as (a' & e & H1 & H2 & _ & H3 & H4).
  by exists a', e.
Qed.

Lemma EndNest_spec_witness :
  exists a' e, EndNest 0 {| ab_buf := [4; 0; 18; 0; 1; 2; 3; 4; 9]; ab_n := 8 |} = Some (a', e) /\
    (e = None <-> 4 <= RtaMaxPayloadCst) /\ Bytes a' = Some [8; 0; 18; 0; 1; 2; 3; 4].
Proof.
  destruct (EndNest_spec 18 {| ab_buf := [4; 0; 18; 0; 1; 2; 3; 4; 9]; ab_n := 8 |} [] [1; 2; 3; 4] [9])
    as (a' & e & H1 & H2 & H3 & _); [split; reflexivity|].
  exists a', e. split; [exact H1|]. split; [exact H2|].
  apply (holds_Bytes _ _ [9]). apply H3, H2. vm_compute. discriminate.
Defined.

(** The types are uint16. *)
Definition tree_type_ok (t : tree) : Prop :=
  0 <= (payload t).1 < 2 ^ 16.

(** The attributes a walk delivers, in order. *)
Definition collect (t : Z) (v : bytes) (l : list (Z * bytes)) : go (list (Z * bytes)) :=
  Some (l ++ [(t, v)]).

Lemma visit_collect l k : visit_attrs collect l k = Some (k ++ l).
Proof.
  revert k. induction l as [|[t v] l IH]; intros k; cbn [visit_attrs]; [by rewrite app_nil_r|].
  change (collect t v k) with (Some (k ++ [(t, v)])). cbn [mbind option_bind]. rewrite IH. by rewrite <- app_assoc.
Qed.

Lemma wf_tree_attr t : wf_tree t -> tree_type_ok t -> wf_attr (payload t).
Proof.
  unfold RtaMaxPayloadCst, RTAttrSizeCst, wf_attr. intros Hw Ht.
  split; [by destruct t|]. destruct t; destruct Hw as [Hw _]; unfold RtaMaxPayloadCst, RTAttrSizeCst in Hw; lia.
Qed.

(** C15: any well-bracketed sequence of Put, BeginNest and EndNest calls on a
    fresh builder succeeds exactly when every nest fits rta_len and the whole
    fits the buffer; and then walking the builder's bytes delivers exactly the
    top-level attributes in order, a nest with its contents' encoding as its
    payload, which a nested walk decodes again. *)
Theorem encoder_walker_roundtrip buf l :
  Forall tree_type_ok l ->
  exists a e, build_all l (NewAttrBuilder buf) = Some (a, e) /\
    (e = None <-> Forall wf_tree l /\ glen (encode_all l) <= glen buf) /\
    (e = None -> Bytes a = Some (encode_all l) /\
      WalkRTAttrs collect (encode_all l) [] = Some ((fun t => masked (payload t)) <$> l, None)).
Proof.
  intros Ht. destruct (build_all_outcome l (NewAttrBuilder buf) [] buf) as (a & e & H1 & H2 & H3); [done|].
  exists a, e. split_and!; [done|done|]. intros He. split; [by eapply holds_Bytes, H3|].
  destruct (proj1 H2 He) as [Hw _]. unfold encode_all. rewrite WalkRTAttrs_eq, parse_attrs_enc.
  - cbn [fst snd]. rewrite visit_collect, <- list_fmap_compose. done.
  - apply Forall_fmap. eapply Forall_impl; [apply Forall_and; split; [exact Hw|exact Ht]|].
    intros t [Hwt Htt]. by apply wf_tree_attr.
Qed.

(** IFLA_LINKINFO with its kind and a nested data attribute, into a dirty
    buffer. *)
Definition demo_forest : list tree :=
  [Leaf 3 [101; 48; 0]; Nest 18 [Leaf 1 [118; 108; 97; 110]; Nest 2 [Leaf 1 [5; 0]]]].

Lemma encoder_walker_roundtrip_witness :
  Forall tree_type_ok demo_forest /\
  exists a e, build_all demo_forest (NewAttrBuilder (replicate 40 255)) = Some (a, e) /\
    (e = None <-> Forall wf_tree demo_forest /\ glen (encode_all demo_forest) <= 40).
Proof.
  assert (Forall tree_type_ok demo_forest) as H.
  { repeat (apply Forall_cons_2 || apply Forall_nil_2); split; vm_compute; (discriminate || reflexivity). }
  split; [exact H|].
  destruct (encoder_walker_roundtrip (replicate 40 255) demo_forest H) as (a & e & H1 & H2 & _).
  exists a, e. split; [exact H1|exact H2].
Defined.

(** On any bytes and with any callback that does not panic, the attribute
    walk terminates without panicking; it has called the callback on exactly
    the attributes of the stream in order, with the flag bits of every type
    cleared, and it fails only with ErrRTAttrSmall. *)
Theorem WalkRTAttrs_spec {A} (fn : Z -> bytes -> A -> go A) data s :
  (forall t v s, is_Some (fn t v s)) ->
  exists s', visit_attrs fn (parse_attrs data).1 s = Some s' /\
    WalkRTAttrs fn data s = Some (s', (parse_attrs data).2) /\
    Forall (fun a => 0 <= a.1 < 2 ^ 14) (parse_attrs data).1 /\
    ((parse_attrs data).2 = None \/ (parse_attrs data).2 = Some ErrRTAttrSmall).
Proof.
  intros Hfn. rewrite WalkRTAttrs_eq.
  destruct (visit_total fn (parse_attrs data).1 s Hfn) as [s' Hs]. exists s'. rewrite Hs.
  split_and!; [done|done|apply parse_attrs_types|]. apply parse_attrs_error.
Qed.

Lemma WalkRTAttrs_spec_witness :
  WalkRTAttrs collect [5; 0; 1; 128; 7; 0; 0; 0; 3; 0; 2; 0] [] = Some ([(1, [7])], Some ErrRTAttrSmall) /\
  (parse_attrs [5; 0; 1; 128; 7; 0; 0; 0; 3; 0; 2; 0]).2 = Some ErrRTAttrSmall.
Proof.
  destruct (WalkRTAttrs_spec collect [5; 0; 1; 128; 7; 0; 0; 0; 3; 0; 2; 0] []) as (s' & H1 & H2 & _).
  { intros t v s. eexists. reflexivity. }
  split; [|vm_compute; reflexivity]. vm_compute in H1. injection H1 as <-. exact H2.
Defined.

(** A parser callback guarded by attrSeen sees, whatever the message, the
    first occurrence of each attribute type below 64 and no other, and every
    occurrence of the types above. *)
Theorem attrSeen_first_wins {A} (body : Z -> bytes -> A -> go A) data x :
  (fun r => (r.1.2, r.2)) <$> WalkRTAttrs (guarded body) data (0, x) =
  x' ← visit_attrs body (firsts [] (parse_attrs data).1) x; Some (x', (parse_attrs data).2).
Proof. apply guarded_walk. Qed.
