(* ===== verification/NlRequest.v ===== *)
(** Netlink requests: the read and write gates and the request layout
    (pkg/xtcpnl/xtcpnl_rtattr_encode.go), the rtnetlink request builders
    (xtcpnl_rtnetlink.go, xtcpnl_rtnetlink_requests.go, xtcpnl_nsid_requests.go,
    xtcpnl_nhbucket_requests.go) and the inet_diag dump request the poller sends
    (xtcpnl_serialize_netlink_request.go, xtcpnl.go, pkg/xtcp/init.go and
    poller.go).  The numbers are golang.org/x/sys/unix's. *)

From S2P Require Import Prelude NlHeaders InetDiag Deserializers RtAttr.

(** ** Message types and flags *)

Definition NLMSG_NOOP : Z := 1.
Definition NLMSG_ERROR : Z := 2.
Definition NLMSG_DONE : Z := 3.
Definition NLMSG_OVERRUN : Z := 4.
Definition RTM_BASE : Z := 16.
Definition RTM_NEWLINK : Z := 16.
Definition RTM_DELLINK : Z := 17.
Definition RTM_GETLINK : Z := 18.
Definition RTM_SETLINK : Z := 19.
Definition RTM_NEWADDR : Z := 20.
Definition RTM_DELADDR : Z := 21.
Definition RTM_GETADDR : Z := 22.
Definition RTM_NEWROUTE : Z := 24.
Definition RTM_DELROUTE : Z := 25.
Definition RTM_GETROUTE : Z := 26.
Definition RTM_NEWNEIGH : Z := 28.
Definition RTM_DELNEIGH : Z := 29.
Definition RTM_GETNEIGH : Z := 30.
Definition RTM_NEWRULE : Z := 32.
Definition RTM_DELRULE : Z := 33.
Definition RTM_GETRULE : Z := 34.
Definition RTM_NEWNEIGHTBL : Z := 64.
Definition RTM_GETNEIGHTBL : Z := 66.
Definition RTM_SETNEIGHTBL : Z := 67.
Definition RTM_NEWADDRLABEL : Z := 72.
Definition RTM_DELADDRLABEL : Z := 73.
Definition RTM_GETADDRLABEL : Z := 74.
Definition RTM_NEWNETCONF : Z := 80.
Definition RTM_DELNETCONF : Z := 81.
Definition RTM_GETNETCONF : Z := 82.
Definition RTM_NEWNSID : Z := 88.
Definition RTM_DELNSID : Z := 89.
Definition RTM_GETNSID : Z := 90.
Definition RTM_NEWSTATS : Z := 92.
Definition RTM_GETSTATS : Z := 94.
Definition RTM_SETSTATS : Z := 95.
Definition RTM_NEWNEXTHOP : Z := 104.
Definition RTM_DELNEXTHOP : Z := 105.
Definition RTM_GETNEXTHOP : Z := 106.
Definition RTM_NEWLINKPROP : Z := 108.
Definition RTM_DELLINKPROP : Z := 109.
Definition RTM_NEWNEXTHOPBUCKET : Z := 116.
Definition RTM_DELNEXTHOPBUCKET : Z := 117.
Definition RTM_GETNEXTHOPBUCKET : Z := 118.

Definition NLM_F_REQUEST : Z := 1.
Definition NLM_F_ACK : Z := 4.
Definition NLM_F_DUMP : Z := 768.
Definition NLM_F_REPLACE : Z := 256.
Definition NLM_F_EXCL : Z := 512.

Definition IfInfomsgSizeCst : Z := 16.
Definition IfAddrmsgSizeCst : Z := 8.
Definition RtMsgSizeCst : Z := 12.
Definition NdMsgSizeCst : Z := 12.
Definition FibRuleHdrSizeCst : Z := 12.
Definition NhMsgSizeCst : Z := 8.
Definition IfAddrlblmsgSizeCst : Z := 12.
Definition NdtMsgSizeCst : Z := 4.
Definition NetconfMsgSizeCst : Z := 4.
Definition IfStatsMsgSizeCst : Z := 12.
Definition RtGenMsgSizeCst : Z := 4.

(** ** The gates and the layout *)

(** The subtraction is on uint16; [&&] guards it from wrapping. *)
Definition IsGetRequestType (msgType : Z) : bool :=
  if decide (RTM_BASE <= msgType) then bool_decide (uint16 (msgType - RTM_BASE) mod 4 = 2) else false.

Definition IsBuildableRequestType (msgType : Z) : bool :=
  if decide (msgType = NLMSG_NOOP) then true else IsGetRequestType msgType.

Definition IsAdmittedWriteType (msgType : Z) : bool :=
  bool_decide (msgType ∈
    [RTM_NEWROUTE; RTM_DELROUTE; RTM_NEWLINK; RTM_DELLINK; RTM_NEWADDR; RTM_DELADDR;
     RTM_NEWNEIGH; RTM_DELNEIGH; RTM_NEWRULE; RTM_DELRULE; RTM_NEWNEXTHOP; RTM_DELNEXTHOP;
     RTM_NEWADDRLABEL; RTM_DELADDRLABEL; RTM_SETNEIGHTBL; RTM_SETSTATS;
     RTM_NEWLINKPROP; RTM_DELLINKPROP; RTM_SETLINK; RTM_NEWNSID]).

Definition FamilyHdrLen (msgType : Z) : Z :=
  if decide (msgType ∈ [RTM_GETLINK; RTM_NEWLINK; RTM_DELLINK; RTM_SETLINK]) then IfInfomsgSizeCst else
  if decide (msgType ∈ [RTM_NEWLINKPROP; RTM_DELLINKPROP]) then IfInfomsgSizeCst else
  if decide (msgType ∈ [RTM_GETADDR; RTM_NEWADDR; RTM_DELADDR]) then IfAddrmsgSizeCst else
  if decide (msgType ∈ [RTM_GETROUTE; RTM_NEWROUTE; RTM_DELROUTE]) then RtMsgSizeCst else
  if decide (msgType ∈ [RTM_GETNEIGH; RTM_NEWNEIGH; RTM_DELNEIGH]) then NdMsgSizeCst else
  if decide (msgType ∈ [RTM_GETRULE; RTM_NEWRULE; RTM_DELRULE]) then FibRuleHdrSizeCst else
  if decide (msgType ∈ [RTM_GETNEXTHOP; RTM_NEWNEXTHOP; RTM_DELNEXTHOP]) then NhMsgSizeCst else
  if decide (msgType ∈ [RTM_GETNEXTHOPBUCKET; RTM_NEWNEXTHOPBUCKET; RTM_DELNEXTHOPBUCKET])
  then NhMsgSizeCst else
  if decide (msgType ∈ [RTM_GETADDRLABEL; RTM_NEWADDRLABEL; RTM_DELADDRLABEL])
  then IfAddrlblmsgSizeCst else
  if decide (msgType ∈ [RTM_GETNEIGHTBL; RTM_NEWNEIGHTBL; RTM_SETNEIGHTBL]) then NdtMsgSizeCst else
  if decide (msgType ∈ [RTM_GETNETCONF; RTM_NEWNETCONF; RTM_DELNETCONF]) then NetconfMsgSizeCst else
  if decide (msgType ∈ [RTM_GETSTATS; RTM_NEWSTATS; RTM_SETSTATS]) then IfStatsMsgSizeCst else
  if decide (msgType ∈ [RTM_GETNSID; RTM_NEWNSID; RTM_DELNSID]) then RtGenMsgSizeCst else
  if decide (msgType ∈ [NLMSG_DONE; NLMSG_NOOP; NLMSG_ERROR]) then 0 else -1.

Definition layoutRequest (msgType flags seq : Z) (familyHdr attrs : bytes) : go bytes :=
  let total := NlMsgHdrSizeCst + glen familyHdr + glen attrs in
  let b := make total in
  b ← put_at b 0 (le_split 4 (uint32 total));
  b ← put_at b 4 (le_split 2 msgType);
  b ← put_at b 6 (le_split 2 flags);
  b ← put_at b 8 (le_split 4 seq);
  b ← copy_at b NlMsgHdrSizeCst familyHdr;
  copy_at b (NlMsgHdrSizeCst + glen familyHdr) attrs.

(** The result of a builder: the request or an error. *)
Abbreviation built := (bytes + err)%type.

Definition BuildRequest (msgType flags seq : Z) (familyHdr attrs : bytes) : go built :=
  if negb (IsBuildableRequestType msgType) then Some (inr ErrNotAGetRequest) else
  let want := FamilyHdrLen msgType in
  if decide (0 <= want /\ glen familyHdr <> want) then Some (inr ErrBadFamilyHdr) else
  b ← layoutRequest msgType (Z.lor flags NLM_F_REQUEST) seq familyHdr attrs;
  Some (inl b).

Definition BuildWriteRequest (msgType flags seq : Z) (familyHdr attrs : bytes) : go built :=
  if negb (IsAdmittedWriteType msgType) then Some (inr ErrNotAnAdmittedWrite) else
  if decide (glen familyHdr <> FamilyHdrLen msgType) then Some (inr ErrBadFamilyHdr) else
  b ← layoutRequest msgType (Z.lor flags NLM_F_REQUEST) seq familyHdr attrs;
  Some (inl b).

(** A nil result is [None] inside [Some]. *)
Definition BuildDumpRequest (msgType seq : Z) (familyHdr : bytes) : go (option bytes) :=
  if negb (IsBuildableRequestType msgType) then Some None else
  b ← layoutRequest msgType (Z.lor NLM_F_REQUEST NLM_F_DUMP) seq familyHdr [];
  Some (Some b).

(** ** The rtnetlink builders *)

(** [if err := ab.Put...; err != nil { return nil, err }] *)
Definition on_ok (r : go (AttrBuilder * option err)) (k : AttrBuilder -> go built) : go built :=
  '(ab, e) ← r;
  match e with Some e => Some (inr e) | None => k ab end.

(** [return BuildRequest(msgType, flags, seq, hdr, ab.Bytes())] *)
Definition finish (msgType flags seq : Z) (hdr : bytes) (ab : AttrBuilder) : go built :=
  b ← Bytes ab; BuildRequest msgType flags seq hdr b.

Definition IFLA_IFNAME : Z := 3.
Definition IFLA_MASTER : Z := 10.
Definition IFLA_LINKINFO : Z := 18.
Definition IFLA_EXT_MASK : Z := 29.
Definition IFLA_INFO_KIND : Z := 1.
Definition RTA_OIF : Z := 4.
Definition RTA_TABLE : Z := 15.
Definition NDA_DST : Z := 1.
Definition NDA_IFINDEX : Z := 8.
Definition NhaID : Z := 1.
Definition NhaOIF : Z := 5.
Definition NhaGroups : Z := 9.
Definition NhaMaster : Z := 10.
Definition NhaFdb : Z := 11.
Definition NhaOpFlags : Z := 14.
Definition NetconfaIfindex : Z := 1.
Definition NETNSA_NSID : Z := 1.
Definition NETNSA_FD : Z := 3.
Definition NETNSA_TARGET_NSID : Z := 4.
Definition AF_UNSPEC : Z := 0.
Definition AF_PACKET : Z := 17.
Definition RT_TABLE_UNSPEC : Z := 0.
Definition IfNameSizeCst : Z := 16.
Definition reqAttrBufCst : Z := 32.
Definition nsidReqBufCst : Z := 16.
Definition NdMsgFlagsOffCst : Z := 10.

(** A zeroed family header of [n] bytes with its family byte set. *)
Definition family_hdr (n family : Z) : go bytes := put_at (make n) 0 [family].

Definition BuildDumpLinkRequestFamily (family seq : Z) : go (option bytes) :=
  hdr ← family_hdr IfInfomsgSizeCst family; BuildDumpRequest RTM_GETLINK seq hdr.
Definition BuildDumpLinkRequest (seq : Z) : go (option bytes) :=
  BuildDumpLinkRequestFamily AF_UNSPEC seq.
Definition BuildDumpAddrRequest (family seq : Z) : go (option bytes) :=
  hdr ← family_hdr IfAddrmsgSizeCst family; BuildDumpRequest RTM_GETADDR seq hdr.
Definition BuildDumpRouteRequest (family seq : Z) : go (option bytes) :=
  hdr ← family_hdr RtMsgSizeCst family; BuildDumpRequest RTM_GETROUTE seq hdr.

(** A nil attribute slice has no bytes. *)
Definition extMaskAttrs (extMask : Z) : go built :=
  if decide (extMask = 0) then Some (inl []) else
  on_ok (PutU32 IFLA_EXT_MASK extMask (NewAttrBuilder (make reqAttrBufCst)))
    (fun ab => b ← Bytes ab; Some (inl b)).

Definition BuildDumpLinkRequestExt (family extMask seq : Z) : go built :=
  hdr ← family_hdr IfInfomsgSizeCst family;
  attrs ← extMaskAttrs extMask;
  match attrs with
  | inr e => Some (inr e)
  | inl attrs => BuildRequest RTM_GETLINK NLM_F_DUMP seq hdr attrs
  end.

Definition linkInfoKindAttrs (kind : bytes) : go built :=
  on_ok (PutBytes IFLA_INFO_KIND kind (NewAttrBuilder (make reqAttrBufCst))) (fun inner =>
  b ← Bytes inner;
  on_ok (PutBytes IFLA_LINKINFO b (NewAttrBuilder (make reqAttrBufCst))) (fun outer =>
  b ← Bytes outer; Some (inl b))).

Definition BuildDumpLinkRequestKind (family : Z) (kind : bytes) (seq : Z) : go built :=
  hdr ← family_hdr IfInfomsgSizeCst family;
  attrs ← linkInfoKindAttrs kind;
  match attrs with
  | inr e => Some (inr e)
  | inl attrs => BuildRequest RTM_GETLINK NLM_F_DUMP seq hdr attrs
  end.

(** [if cond { if err := put; err != nil { return nil, err } }] *)
Definition put_if (cond : Prop) `{Decision cond}
    (put : AttrBuilder -> go (AttrBuilder * option err)) (ab : AttrBuilder)
    : go (AttrBuilder * option err) :=
  if decide cond then put ab else Some (ab, None).

Definition BuildDumpLinkRequestFilter (family extMask master : Z) (kind : bytes) (hasKind : bool)
    (seq : Z) : go built :=
  if decide (family <> AF_UNSPEC /\ family <> AF_PACKET) then
    b ← BuildDumpLinkRequestFamily family seq; Some (inl (default [] b))
  else
  hdr ← family_hdr IfInfomsgSizeCst family;
  let u32AttrLen := RTAttrSizeCst + 4 in
  let size := 2 * u32AttrLen + (if hasKind then 2 * RTAttrSizeCst + nlmsgAlign (glen kind) else 0) in
  on_ok (PutU32 IFLA_EXT_MASK extMask (NewAttrBuilder (make size))) (fun ab =>
  on_ok (put_if (master <> 0) (PutU32 IFLA_MASTER master) ab) (fun ab =>
  if hasKind then
    on_ok (PutBytes IFLA_INFO_KIND kind
             (NewAttrBuilder (make (RTAttrSizeCst + nlmsgAlign (glen kind))))) (fun inner =>
    b ← Bytes inner;
    on_ok (PutBytes IFLA_LINKINFO b ab) (fun ab => finish RTM_GETLINK NLM_F_DUMP seq hdr ab))
  else finish RTM_GETLINK NLM_F_DUMP seq hdr ab)).

Definition BuildGetLinkByIndexRequest (family ifindex extMask seq : Z) : go built :=
  hdr ← family_hdr IfInfomsgSizeCst family;
  hdr ← put_at hdr 4 (le_split 4 (uint32 ifindex));
  attrs ← extMaskAttrs extMask;
  match attrs with
  | inr e => Some (inr e)
  | inl attrs => BuildRequest RTM_GETLINK 0 seq hdr attrs
  end.

(** The bytes a name may not hold: ["/: \t\n\v\f\r"], and NUL. *)
Definition ifname_bad_chars : bytes := [47; 58; 32; 9; 10; 11; 12; 13].
Definition validIfName (name : bytes) : option err :=
  if decide (name = [] \/ IfNameSizeCst <= glen name) then Some ErrBadIfName else
  if decide (name = [46] \/ name = [46; 46]) then Some ErrBadIfName else
  if decide (Exists (fun c => c ∈ ifname_bad_chars) name) then Some ErrBadIfName else
  if decide (0 ∈ name) then Some ErrBadIfName else None.

Definition BuildGetLinkByNameRequest (family : Z) (name : bytes) (extMask seq : Z) : go built :=
  match validIfName name with
  | Some e => Some (inr e)
  | None =>
      hdr ← family_hdr IfInfomsgSizeCst family;
      on_ok (put_if (extMask <> 0) (PutU32 IFLA_EXT_MASK extMask)
               (NewAttrBuilder (make reqAttrBufCst))) (fun ab =>
      on_ok (PutString IFLA_IFNAME name ab) (fun ab => finish RTM_GETLINK 0 seq hdr ab))
  end.

Definition BuildIplinkGetRequest (family : Z) (name : bytes) (extMask seq : Z) : go built :=
  match validIfName name with
  | Some e => Some (inr e)
  | None =>
      hdr ← family_hdr IfInfomsgSizeCst family;
      on_ok (PutString IFLA_IFNAME name (NewAttrBuilder (make reqAttrBufCst))) (fun ab =>
      on_ok (PutU32 IFLA_EXT_MASK extMask ab) (fun ab => finish RTM_GETLINK 0 seq hdr ab))
  end.

Definition BuildDumpAddrRequestIndex (family ifindex seq : Z) : go (option bytes) :=
  hdr ← family_hdr IfAddrmsgSizeCst family;
  hdr ← put_at hdr 4 (le_split 4 ifindex);
  BuildDumpRequest RTM_GETADDR seq hdr.

Definition BuildDumpRouteRequestFilterProto (family protocol table oif seq : Z) : go built :=
  hdr ← family_hdr RtMsgSizeCst family;
  hdr ← put_at hdr 5 [protocol];
  if decide (table <> RT_TABLE_UNSPEC \/ oif <> 0) then
    on_ok (put_if (table <> RT_TABLE_UNSPEC) (PutU32 RTA_TABLE table)
             (NewAttrBuilder (make reqAttrBufCst))) (fun ab =>
    on_ok (put_if (oif <> 0) (PutU32 RTA_OIF oif) ab) (fun ab =>
    finish RTM_GETROUTE NLM_F_DUMP seq hdr ab))
  else BuildRequest RTM_GETROUTE NLM_F_DUMP seq hdr [].
Definition BuildDumpRouteRequestFilter (family table oif seq : Z) : go built :=
  BuildDumpRouteRequestFilterProto family 0 table oif seq.

Record RouteGet := mkRouteGet {
  rg_Family : Z; rg_DstLen : Z; rg_SrcLen : Z; rg_Tos : Z; rg_RtmFlags : Z;
  rg_Attrs : list (Z * bytes) }.
Definition routeGetBufCst : Z := 1024.

Definition BuildGetRouteRequest (g : RouteGet) (seq : Z) : go built :=
  let hdr := [rg_Family g; rg_DstLen g; rg_SrcLen g; rg_Tos g; 0; 0; 0; 0] ++ le_split 4 (rg_RtmFlags g) in
  on_ok (each (fun a => PutBytes a.1 a.2) (rg_Attrs g) (NewAttrBuilder (make routeGetBufCst))) (fun ab =>
  finish RTM_GETROUTE 0 seq hdr ab).

Definition BuildDumpNexthopRequest (family seq : Z) : go (option bytes) :=
  hdr ← family_hdr NhMsgSizeCst family; BuildDumpRequest RTM_GETNEXTHOP seq hdr.

Definition BuildGetNexthopByIDRequest (family id seq : Z) : go built :=
  hdr ← family_hdr NhMsgSizeCst family;
  on_ok (PutU32 NhaID id (NewAttrBuilder (make reqAttrBufCst))) (fun ab =>
  on_ok (PutU32 NhaOpFlags 0 ab) (fun ab => finish RTM_GETNEXTHOP 0 seq hdr ab)).

Record NexthopDumpFilter := mkNexthopDumpFilter {
  nf_OIF : Z; nf_Master : Z; nf_Groups : bool; nf_Fdb : bool }.

Definition BuildGetNexthopDumpRequest (family : Z) (f : NexthopDumpFilter) (seq : Z) : go built :=
  hdr ← family_hdr NhMsgSizeCst family;
  on_ok (put_if (nf_OIF f <> 0) (PutU32 NhaOIF (nf_OIF f)) (NewAttrBuilder (make reqAttrBufCst))) (fun ab =>
  on_ok (put_if (nf_Groups f = true) (PutBytes NhaGroups []) ab) (fun ab =>
  on_ok (put_if (nf_Master f <> 0) (PutU32 NhaMaster (nf_Master f)) ab) (fun ab =>
  on_ok (put_if (nf_Fdb f = true) (PutBytes NhaFdb []) ab) (fun ab =>
  finish RTM_GETNEXTHOP NLM_F_DUMP seq hdr ab)))).

Definition BuildDumpNeighRequest (family seq : Z) : go (option bytes) :=
  hdr ← family_hdr NdMsgSizeCst family; BuildDumpRequest RTM_GETNEIGH seq hdr.

Definition BuildDumpNeighRequestFilter (family ndmFlags ifindex seq : Z) : go built :=
  hdr ← family_hdr NdMsgSizeCst family;
  hdr ← put_at hdr NdMsgFlagsOffCst [ndmFlags];
  if decide (ifindex <> 0) then
    on_ok (PutU32 NDA_IFINDEX ifindex (NewAttrBuilder (make reqAttrBufCst))) (fun ab =>
    finish RTM_GETNEIGH NLM_F_DUMP seq hdr ab)
  else BuildRequest RTM_GETNEIGH NLM_F_DUMP seq hdr [].

Record NeighGet := mkNeighGet { ng_Family : Z; ng_Flags : Z; ng_Ifindex : Z; ng_Dst : bytes }.

Definition BuildGetNeighRequest (g : NeighGet) (seq : Z) : go built :=
  hdr ← family_hdr NdMsgSizeCst (ng_Family g);
  hdr ← put_at hdr 4 (le_split 4 (uint32 (ng_Ifindex g)));
  hdr ← put_at hdr NdMsgFlagsOffCst [ng_Flags g];
  on_ok (PutBytes NDA_DST (ng_Dst g) (NewAttrBuilder (make reqAttrBufCst))) (fun ab =>
  finish RTM_GETNEIGH 0 seq hdr ab).

Definition BuildDumpRuleRequest (family seq : Z) : go built :=
  hdr ← family_hdr FibRuleHdrSizeCst family; BuildRequest RTM_GETRULE NLM_F_DUMP seq hdr [].
Definition BuildDumpAddrLabelRequest (family seq : Z) : go (option bytes) :=
  hdr ← family_hdr IfAddrlblmsgSizeCst family; BuildDumpRequest RTM_GETADDRLABEL seq hdr.
Definition BuildDumpNeighTblRequest (family seq : Z) : go (option bytes) :=
  hdr ← family_hdr NdtMsgSizeCst family; BuildDumpRequest RTM_GETNEIGHTBL seq hdr.
Definition BuildDumpNetconfRequest (family seq : Z) : go (option bytes) :=
  hdr ← family_hdr NetconfMsgSizeCst family; BuildDumpRequest RTM_GETNETCONF seq hdr.

Definition BuildGetNetconfByIndexRequest (family ifindex seq : Z) : go built :=
  hdr ← family_hdr NetconfMsgSizeCst family;
  on_ok (PutU32 NetconfaIfindex (uint32 ifindex) (NewAttrBuilder (make reqAttrBufCst))) (fun ab =>
  finish RTM_GETNETCONF NLM_F_ACK seq hdr ab).

Definition ifStatsHdr (family ifindex filterMask : Z) : go bytes :=
  hdr ← family_hdr IfStatsMsgSizeCst family;
  hdr ← put_at hdr 4 (le_split 4 ifindex);
  put_at hdr 8 (le_split 4 filterMask).
Definition BuildDumpStatsRequest (family ifindex filterMask seq : Z) : go (option bytes) :=
  hdr ← ifStatsHdr family ifindex filterMask; BuildDumpRequest RTM_GETSTATS seq hdr.
Definition BuildGetStatsByIndexRequest (ifindex filterMask seq : Z) : go built :=
  hdr ← ifStatsHdr AF_UNSPEC ifindex filterMask; BuildRequest RTM_GETSTATS 0 seq hdr [].

(** *** Namespace ids and nexthop buckets *)

Definition BuildGetNsidByFDRequest (fd seq : Z) : go built :=
  on_ok (PutU32 NETNSA_FD fd (NewAttrBuilder (make nsidReqBufCst))) (fun ab =>
  finish RTM_GETNSID 0 seq (make RtGenMsgSizeCst) ab).

Definition BuildGetNsidRequest (nsid target : Z) (hasTarget : bool) (seq : Z) : go built :=
  on_ok (PutU32 NETNSA_NSID (uint32 nsid) (NewAttrBuilder (make nsidReqBufCst))) (fun ab =>
  on_ok (put_if (hasTarget = true) (PutU32 NETNSA_TARGET_NSID (uint32 target)) ab) (fun ab =>
  finish RTM_GETNSID 0 seq (make RtGenMsgSizeCst) ab)).

Definition BuildDumpNsidRequest (target : Z) (hasTarget : bool) (seq : Z) : go built :=
  on_ok (put_if (hasTarget = true) (PutU32 NETNSA_TARGET_NSID (uint32 target))
           (NewAttrBuilder (make nsidReqBufCst))) (fun ab =>
  finish RTM_GETNSID NLM_F_DUMP seq (make RtGenMsgSizeCst) ab).

Definition BuildSetNsidRequest (fd nsid seq : Z) : go built :=
  on_ok (PutU32 NETNSA_FD fd (NewAttrBuilder (make nsidReqBufCst))) (fun ab =>
  on_ok (PutU32 NETNSA_NSID (uint32 nsid) ab) (fun ab =>
  b ← Bytes ab; BuildWriteRequest RTM_NEWNSID NLM_F_ACK seq (make RtGenMsgSizeCst) b)).

(** ** The inet_diag dump request *)

Definition InetDiagRequestSizeCst : Z := 72.
Definition SocketDiagByFamilyCst : Z := 20.
Definition IPPROTO_TCP : Z := 6.

(** The header's Pid, the request's Pad and its socket id are left as they are
    in [b]. *)
Definition SerializeNetlinkDiagRequest (nlh : NlMsgHdr) (req : InetDiagReqV2) (b : bytes) : go bytes :=
  b ← put_at b 0 (le_split 4 (nlh_Len nlh));
  b ← put_at b 4 (le_split 2 (nlh_Type nlh));
  b ← put_at b 6 (le_split 2 (nlh_Flags nlh));
  b ← put_at b 8 (le_split 4 (nlh_Seq nlh));
  b ← put_at b 16 [SDiagFamily req];
  b ← put_at b 17 [SDiagProtocol req];
  b ← put_at b 18 [IDiagExt req];
  put_at b 20 (be_split 4 (IDiagStates req)).

Definition sockDiagFlags : Z :=
  uint16 (Z.lor (Z.lor (Z.lor NLM_F_DUMP NLM_F_REQUEST) NLM_F_REPLACE) NLM_F_EXCL).

(** The zero value of the struct. *)
Definition zeroSockID : InetDiagSockID :=
  {| SPort := 0; DPort := 0; SrcIP := make 16; DstIP := make 16; Interface := 0; Cookie := 0 |}.

(** [CreateNetLinkRequest]: [NlmsgSeq] and the enabled deserializers are the
    configuration's. *)
Definition CreateNetLinkRequest_hdr (NlmsgSeq : Z) : NlMsgHdr :=
  {| nlh_Len := InetDiagRequestSizeCst; nlh_Type := SocketDiagByFamilyCst;
     nlh_Flags := sockDiagFlags; nlh_Seq := NlmsgSeq; nlh_Pid := 0 |}.
Definition CreateNetLinkRequest_req (enabled : gmap string bool) : InetDiagReqV2 :=
  {| SDiagFamily := 2; SDiagProtocol := 6; IDiagExt := IDiagExtFromEnabled enabled; Pad := 0;
     IDiagStates := 4282318848; req_SocketID := zeroSockID |}.
Definition CreateNetLinkRequest (NlmsgSeq : Z) (enabled : gmap string bool) : go bytes :=
  SerializeNetlinkDiagRequest (CreateNetLinkRequest_hdr NlmsgSeq) (CreateNetLinkRequest_req enabled)
    (make InetDiagRequestSizeCst).

(** [updateNetlinkRequestSequenceNumber], in uint32. *)
Definition updateNetlinkRequestSequenceNumber (NlmsgSeq pollingLoops : Z) (nlRequest : bytes) : go bytes :=
  put_at nlRequest 8 (le_split 4 (uint32 (NlmsgSeq + uint32 pollingLoops))).

Record BuildNLRequest := mkBuildNLRequest {
  br_AddressFamily : Z; br_MakeSize : Z; br_NlMsgLen : Z; br_NlMsgSeq : Z; br_NlMsgPid : Z;
  br_IDiagExt : Z; br_States : Z }.

(** [make] panics on a negative size. *)
Definition BuildNetlinkSockDiagRequest (r : BuildNLRequest) : go bytes :=
  if decide (br_MakeSize r < 0) then None else
  let b := make (br_MakeSize r) in
  b ← put_at b 0 (le_split 4 (br_NlMsgLen r));
  b ← put_at b 4 (le_split 2 20);
  b ← put_at b 6 (le_split 2 sockDiagFlags);
  b ← put_at b 8 (le_split 4 (br_NlMsgSeq r));
  b ← put_at b 16 [br_AddressFamily r];
  b ← put_at b 17 [IPPROTO_TCP];
  b ← put_at b 18 [br_IDiagExt r];
  b ← put_at b 19 [0];
  let States := if decide (br_States r = 0) then Z.shiftl 1 1 else br_States r in
  put_at b 20 (le_split 4 States).

(** ** Lemmas *)

(** The bytes of a request: nlmsghdr, family header, attributes. *)
Definition message_bytes (msgType flags seq : Z) (hdr attrs : bytes) : bytes :=
  le_split 4 (NlMsgHdrSizeCst + glen hdr + glen attrs) ++ le_split 2 msgType ++ le_split 2 flags ++
  le_split 4 seq ++ le_split 4 0 ++ hdr ++ attrs.

Lemma layoutRequest_eq msgType flags seq hdr attrs :
  layoutRequest msgType flags seq hdr attrs = Some (message_bytes msgType flags seq hdr attrs).
Proof.
  unfold layoutRequest, message_bytes, NlMsgHdrSizeCst. cbv zeta. set (n := 16 + glen hdr + glen attrs).
  unfold uint32. change (2 ^ 32) with (256 ^ Z.of_nat 4). rewrite le_split_mod.
  replace (make n) with (make 4 ++ make 2 ++ make 2 ++ make 4 ++ make 4 ++ make (glen hdr) ++ make (glen attrs) ++ []).
  2: { unfold n. glen_pos. rewrite app_nil_r, <- !make_split by lia. f_equal. lia. }
  glen_pos.
  rewrite put_at_head by (rewrite glen_le_split; done). cbn [mbind option_bind].
  rewrite put_at_mid by (rewrite ?glen_le_split, ?glen_make; lia). cbn [mbind option_bind].
  rewrite app_assoc, put_at_mid by (rewrite ?glen_app, ?glen_le_split, ?glen_make; lia). cbn [mbind option_bind].
  rewrite app_assoc, put_at_mid by (rewrite ?glen_app, ?glen_le_split, ?glen_make; lia). cbn [mbind option_bind].
  rewrite 2!app_assoc, copy_at_mid by (rewrite ?glen_app, ?glen_le_split, ?glen_make; lia). cbn [mbind option_bind].
  rewrite app_assoc, copy_at_mid by (rewrite ?glen_app, ?glen_le_split, ?glen_make; lia).
  rewrite app_nil_r, <- !app_assoc. done.
Qed.

Lemma BuildRequest_eq msgType flags seq hdr attrs :
  BuildRequest msgType flags seq hdr attrs = Some (
    if negb (IsBuildableRequestType msgType) then inr ErrNotAGetRequest else
    if decide (0 <= FamilyHdrLen msgType /\ glen hdr <> FamilyHdrLen msgType) then inr ErrBadFamilyHdr else
    inl (message_bytes msgType (Z.lor flags NLM_F_REQUEST) seq hdr attrs)).
Proof.
  unfold BuildRequest. case_match; [done|]. cbv zeta. case_decide; [done|]. by rewrite layoutRequest_eq.
Qed.
Lemma BuildWriteRequest_eq msgType flags seq hdr attrs :
  BuildWriteRequest msgType flags seq hdr attrs = Some (
    if negb (IsAdmittedWriteType msgType) then inr ErrNotAnAdmittedWrite else
    if decide (glen hdr <> FamilyHdrLen msgType) then inr ErrBadFamilyHdr else
    inl (message_bytes msgType (Z.lor flags NLM_F_REQUEST) seq hdr attrs)).
Proof.
  unfold BuildWriteRequest. case_match; [done|]. case_decide; [done|]. by rewrite layoutRequest_eq.
Qed.
Lemma BuildDumpRequest_eq msgType seq hdr :
  BuildDumpRequest msgType seq hdr = Some (
    if negb (IsBuildableRequestType msgType) then None
    else Some (message_bytes msgType (Z.lor NLM_F_REQUEST NLM_F_DUMP) seq hdr [])).
Proof. unfold BuildDumpRequest. case_match; [done|]. by rewrite layoutRequest_eq. Qed.

(** A builder's next Put, when there is room. *)
Lemma on_ok_outcome ty v a d r res k Q :
  put_outcome ty v a d r res -> glen v <= RtaMaxPayloadCst -> attr_space (glen v) <= glen r ->
  (forall a', holds a' (d ++ enc_attr (ty, v)) (drop (length (enc_attr (ty, v))) r) -> k a' = Q) ->
  on_ok res k = Q.
Proof.
  intros (a' & e & -> & He & Hh) H1 H2 Hk. unfold on_ok. cbn [mbind option_bind].
  destruct e as [e|]; [|by apply Hk].
  destruct He as [_ He]. specialize (He (conj H1 H2)). done.
Qed.

(** The builder holds the attributes [l] and has room for [room] bytes more. *)
Definition holds_attrs (a : AttrBuilder) (l : list (Z * bytes)) (room : Z) : Prop :=
  exists r, holds a (enc_attrs l) r /\ room <= glen r.

Lemma enc_attrs_app l k : enc_attrs (l ++ k) = enc_attrs l ++ enc_attrs k.
Proof. unfold enc_attrs. by rewrite fmap_app, concat_app. Qed.
Lemma enc_attrs_one a : enc_attrs [a] = enc_attr a.
Proof. apply app_nil_r. Qed.

Lemma holds_new n : 0 <= n -> holds_attrs (NewAttrBuilder (make n)) [] n.
Proof. intros Hn. exists (make n). split; [done|]. rewrite glen_make; lia. Qed.

Lemma holds_attrs_Bytes a l room : holds_attrs a l room -> Bytes a = Some (enc_attrs l).
Proof. intros (r & Ha & _). by eapply holds_Bytes. Qed.
Lemma finish_eq ty flags seq hdr a l room :
  holds_attrs a l room -> finish ty flags seq hdr a = BuildRequest ty flags seq hdr (enc_attrs l).
Proof. intros Ha. unfold finish. by rewrite (holds_attrs_Bytes _ _ _ Ha). Qed.

Lemma on_put ty v a l room k Q (put : AttrBuilder -> go (AttrBuilder * option err)) :
  (forall a d r, holds a d r -> put_outcome ty v a d r (put a)) ->
  holds_attrs a l room -> glen v <= RtaMaxPayloadCst -> attr_space (glen v) <= room ->
  (forall a', holds_attrs a' (l ++ [(ty, v)]) (room - attr_space (glen v)) -> k a' = Q) ->
  on_ok (put a) k = Q.
Proof.
  intros Hput (r & Ha & Hr) Hv Hs Hk.
  eapply on_ok_outcome; [by apply Hput|done|lia|]. intros a' Ha'. apply Hk.
  eexists. split; [by rewrite enc_attrs_app, enc_attrs_one|].
  pose proof (attr_space_enc ty v). rewrite glen_drop. unfold glen in *. lia.
Qed.

Lemma on_u32 ty v a l room k Q :
  holds_attrs a l room -> 8 <= room ->
  (forall a', holds_attrs a' (l ++ [(ty, le_split 4 v)]) (room - 8) -> k a' = Q) ->
  on_ok (PutU32 ty v a) k = Q.
Proof.
  intros Ha Hr Hk. eapply (on_put ty (le_split 4 v)); [intros; by apply PutU32_outcome|exact Ha|..];
    rewrite glen_le_split; [done|exact Hr|exact Hk].
Qed.
Lemma on_bytes ty v a l room k Q :
  holds_attrs a l room -> glen v <= RtaMaxPayloadCst -> attr_space (glen v) <= room ->
  (forall a', holds_attrs a' (l ++ [(ty, v)]) (room - attr_space (glen v)) -> k a' = Q) ->
  on_ok (PutBytes ty v a) k = Q.
Proof. intros. eapply (on_put ty v); [intros; by apply PutBytes_outcome|done..]. Qed.
Lemma on_string ty s a l room k Q :
  holds_attrs a l room -> glen s < RtaMaxPayloadCst -> attr_space (glen s + 1) <= room ->
  (forall a', holds_attrs a' (l ++ [(ty, s ++ [0])]) (room - attr_space (glen s + 1)) -> k a' = Q) ->
  on_ok (PutString ty s a) k = Q.
Proof.
  intros Ha Hs Hr Hk. assert (glen (s ++ [0]) = glen s + 1) as Hl by len_lia.
  eapply (on_put ty (s ++ [0])); [intros; by apply PutString_outcome|exact Ha|..]; rewrite Hl;
    [lia|exact Hr|exact Hk].
Qed.

(** A conditional Put appends a conditional attribute. *)
Definition attr_if (cond : Prop) `{Decision cond} (ty : Z) (v : bytes) : list (Z * bytes) :=
  if decide cond then [(ty, v)] else [].

Lemma on_u32_if cond `{Decision cond} ty v a l room k Q :
  holds_attrs a l room -> 8 <= room ->
  (forall a', holds_attrs a' (l ++ attr_if cond ty (le_split 4 v)) (room - 8) -> k a' = Q) ->
  on_ok (put_if cond (PutU32 ty v) a) k = Q.
Proof.
  intros Ha Hr Hk. unfold put_if, attr_if in *. destruct (decide cond); [by eapply on_u32|].
  apply Hk. rewrite app_nil_r. destruct Ha as (r & ? & ?). exists r. split; [done|lia].
Qed.
Lemma on_flag_if cond `{Decision cond} ty a l room k Q :
  holds_attrs a l room -> 4 <= room ->
  (forall a', holds_attrs a' (l ++ attr_if cond ty []) (room - 4) -> k a' = Q) ->
  on_ok (put_if cond (PutBytes ty []) a) k = Q.
Proof.
  intros Ha Hr Hk. unfold put_if, attr_if in *. destruct (decide cond); [by eapply on_bytes|].
  apply Hk. rewrite app_nil_r. destruct Ha as (r & ? & ?). exists r. split; [done|lia].
Qed.

(** [puts] runs a builder's Puts, checking the room in its buffer. *)
Ltac room :=
  unfold reqAttrBufCst, nsidReqBufCst, routeGetBufCst, RtaMaxPayloadCst, RTAttrSizeCst in *; lia.
Ltac builder := first [eassumption | apply holds_new; room].
Ltac puts :=
  repeat first
    [ eapply on_u32; [builder|room|intros ? ?]
    | eapply on_u32_if; [builder|room|intros ? ?]
    | eapply on_flag_if; [builder|room|intros ? ?]
    | eapply on_string; [builder|room|room|intros ? ?] ].

Lemma family_hdr_eq n f : 0 < n -> family_hdr n f = Some (f :: make (n - 1)).
Proof.
  intros Hn. unfold family_hdr. replace n with (1 + (n - 1)) at 1 by lia.
  rewrite make_split by lia. by apply (put_at_head (make 1) (make (n - 1)) [f]).
Qed.

Lemma admitted_write_cases t : IsAdmittedWriteType t = true ->
  Exists (fun u => t = u) [RTM_NEWROUTE; RTM_DELROUTE; RTM_NEWLINK; RTM_DELLINK; RTM_NEWADDR; RTM_DELADDR;
     RTM_NEWNEIGH; RTM_DELNEIGH; RTM_NEWRULE; RTM_DELRULE; RTM_NEWNEXTHOP; RTM_DELNEXTHOP;
     RTM_NEWADDRLABEL; RTM_DELADDRLABEL; RTM_SETNEIGHTBL; RTM_SETSTATS;
     RTM_NEWLINKPROP; RTM_DELLINKPROP; RTM_SETLINK; RTM_NEWNSID].
Proof. intros H%bool_decide_eq_true. apply Exists_exists. eauto. Qed.

(** What holds of each admitted write type holds of all. *)
Lemma admitted_write_all (P : Z -> bool) t :
  forallb P [RTM_NEWROUTE; RTM_DELROUTE; RTM_NEWLINK; RTM_DELLINK; RTM_NEWADDR; RTM_DELADDR;
     RTM_NEWNEIGH; RTM_DELNEIGH; RTM_NEWRULE; RTM_DELRULE; RTM_NEWNEXTHOP; RTM_DELNEXTHOP;
     RTM_NEWADDRLABEL; RTM_DELADDRLABEL; RTM_SETNEIGHTBL; RTM_SETSTATS;
     RTM_NEWLINKPROP; RTM_DELLINKPROP; RTM_SETLINK; RTM_NEWNSID] = true ->
  IsAdmittedWriteType t = true -> P t = true.
Proof.
  intros HP Ht%admitted_write_cases. rewrite forallb_forall in HP. apply HP.
  apply Exists_exists in Ht as (u & Hu & ->). by apply list_elem_of_In.
Qed.

Lemma IsGetRequestType_true t :
  0 <= t < 2 ^ 16 -> IsGetRequestType t = true <-> exists k, 0 <= k /\ t = RTM_BASE + 4 * k + 2.
Proof.
  intros Ht. unfold IsGetRequestType, RTM_BASE. case_decide as H16.
  - unfold uint16. rewrite (Z.mod_small (t - 16)) by lia. rewrite bool_decide_eq_true. split.
    + intros Hm. exists ((t - 16) / 4). pose proof (Z.div_mod (t - 16) 4). pose proof (Z.div_pos (t - 16) 4). lia.
    + intros (k & Hk & ->). replace (16 + 4 * k + 2 - 16) with (2 + k * 4) by lia. by rewrite Z.mod_add.
  - split; [done|]. intros (k & Hk & ->). lia.
Qed.

Definition layout_ok (b : bytes) (msgType flags seq : Z) (hdr attrs : bytes) : Prop :=
  DeserializeNlMsgHdr b (mkNlMsgHdr 0 0 0 0 0) =
    Some (mkNlMsgHdr (glen b) msgType flags seq 0, NlMsgHdrReadCst, None) /\
  drop (Z.to_nat NlMsgHdrSizeCst) b = hdr ++ attrs.

Lemma message_layout msgType flags seq hdr attrs :
  0 <= msgType < 2 ^ 16 -> 0 <= flags < 2 ^ 16 -> 0 <= seq < 2 ^ 32 ->
  NlMsgHdrSizeCst + glen hdr + glen attrs < 2 ^ 32 ->
  layout_ok (message_bytes msgType flags seq hdr attrs) msgType flags seq hdr attrs.
Proof.
  unfold NlMsgHdrSizeCst. intros Ht Hf Hs Hl. set (b := message_bytes _ _ _ _ _). glen_pos.
  assert (glen b = 16 + glen hdr + glen attrs) as Hb.
  { unfold b, message_bytes. rewrite !glen_app, !glen_le_split. lia. }
  split; [|done].
  rewrite DeserializeNlMsgHdr_ok by (unfold NlMsgHdrSizeCst; lia). do 3 f_equal. rewrite Hb.
  unfold nlh_at, b, message_bytes, NlMsgHdrSizeCst. f_equal; rewrite ?le_at_skip by lia;
    (apply le_at_split; [simpl; lia|done]).
Qed.

(** ** Claims *)

(** The read gate admits exactly NLMSG_NOOP and the types congruent to GET
    (RTM_BASE + 4k + 2); no type passes both the read and the write gate, and
    for every write type the family header is known. *)
Theorem request_gates_spec t :
  0 <= t < 2 ^ 16 ->
  (IsBuildableRequestType t = true <-> t = NLMSG_NOOP \/ exists k, 0 <= k /\ t = RTM_BASE + 4 * k + 2) /\
  ~ (IsBuildableRequestType t = true /\ IsAdmittedWriteType t = true) /\
  (IsAdmittedWriteType t = true -> 0 < FamilyHdrLen t).
Proof.
  intros Ht. split_and!.
  - unfold IsBuildableRequestType. case_decide as Hn; [tauto|]. rewrite IsGetRequestType_true by done. tauto.
  - intros [Hb Hw]. apply (admitted_write_all (fun t => negb (IsBuildableRequestType t))) in Hw;
      [|vm_compute; reflexivity]. by rewrite Hb in Hw.
  - intros Hw. apply (admitted_write_all (fun t => 0 <? FamilyHdrLen t)) in Hw;
      [|vm_compute; reflexivity]. by apply Z.ltb_lt.
Qed.

Lemma request_gates_spec_witness :
  0 <= RTM_GETADDR < 2 ^ 16 /\
  ~ (IsBuildableRequestType RTM_GETADDR = true /\ IsAdmittedWriteType RTM_GETADDR = true).
Proof.
  split; [split; vm_compute; (discriminate || reflexivity)|].
  apply (request_gates_spec RTM_GETADDR). split; vm_compute; (discriminate || reflexivity).
Defined.

(** On every branch: a request outside its gate, or with a family header of
    the wrong length for its type, is the matching error; otherwise the result
    is one message whose decoded header has the right length, type, sequence
    number, NLM_F_REQUEST added to the flags and pid 0, and whose body is the
    family header and the attributes, nothing else. *)
Theorem BuildRequest_spec msgType flags seq hdr attrs :
  0 <= msgType < 2 ^ 16 -> 0 <= flags < 2 ^ 16 -> 0 <= seq < 2 ^ 32 ->
  NlMsgHdrSizeCst + glen hdr + glen attrs < 2 ^ 32 ->
  (exists r, BuildRequest msgType flags seq hdr attrs = Some r /\
     match r with
     | inr e => e = (if IsBuildableRequestType msgType then ErrBadFamilyHdr else ErrNotAGetRequest) /\
         (IsBuildableRequestType msgType = true -> 0 <= FamilyHdrLen msgType /\ FamilyHdrLen msgType <> glen hdr)
     | inl b => IsBuildableRequestType msgType = true /\
         (0 <= FamilyHdrLen msgType -> glen hdr = FamilyHdrLen msgType) /\
         layout_ok b msgType (Z.lor flags NLM_F_REQUEST) seq hdr attrs
     end) /\
  (exists r, BuildWriteRequest msgType flags seq hdr attrs = Some r /\
     match r with
     | inr e => e = (if IsAdmittedWriteType msgType then ErrBadFamilyHdr else ErrNotAnAdmittedWrite) /\
         (IsAdmittedWriteType msgType = true -> FamilyHdrLen msgType <> glen hdr)
     | inl b => IsAdmittedWriteType msgType = true /\ glen hdr = FamilyHdrLen msgType /\
         layout_ok b msgType (Z.lor flags NLM_F_REQUEST) seq hdr attrs
     end).
Proof.
  intros Ht Hf Hs Hl.
  assert (layout_ok (message_bytes msgType (Z.lor flags NLM_F_REQUEST) seq hdr attrs)
    msgType (Z.lor flags NLM_F_REQUEST) seq hdr attrs) as Hok.
  { apply message_layout; try done. apply lor_bound; [lia|done|]. unfold NLM_F_REQUEST; lia. }
  rewrite BuildRequest_eq, BuildWriteRequest_eq. split; eexists; (split; [done|]).
  - destruct (IsBuildableRequestType msgType); cbn [negb]; [|done]. case_decide; [split; [done|lia]|].
    split_and!; [done|lia|done].
  - destruct (IsAdmittedWriteType msgType); cbn [negb]; [|done]. case_decide; [split; [done|lia]|].
    split_and!; [done|lia|done].
Qed.

Lemma BuildRequest_spec_witness :
  exists b, BuildRequest RTM_GETADDR NLM_F_DUMP 7 [2; 0; 0; 0; 0; 0; 0; 0] [] = Some (inl b) /\
    layout_ok b RTM_GETADDR 769 7 [2; 0; 0; 0; 0; 0; 0; 0] [].
Proof.
  destruct (BuildRequest_spec RTM_GETADDR NLM_F_DUMP 7 [2; 0; 0; 0; 0; 0; 0; 0] [] ltac:(done) ltac:(done)
    ltac:(done) ltac:(done)) as [([b|e] & H1 & H2) _].
  - exists b. split; [exact H1|]. apply H2.
  - exfalso. vm_compute in H1. discriminate.
Defined.

(** What a dump or get request is on the wire. *)
Definition dump_message (msgType seq : Z) (hdr : bytes) (attrs : list (Z * bytes)) : bytes :=
  message_bytes msgType (Z.lor NLM_F_DUMP NLM_F_REQUEST) seq hdr (enc_attrs attrs).
Definition get_message (msgType seq : Z) (hdr : bytes) (attrs : list (Z * bytes)) : bytes :=
  message_bytes msgType NLM_F_REQUEST seq hdr (enc_attrs attrs).

(** The family headers, by field. *)
Definition ifinfomsg (family index : Z) : bytes := [family; 0; 0; 0] ++ le_split 4 index ++ make 8.
Definition ifaddrmsg (family index : Z) : bytes := [family; 0; 0; 0] ++ le_split 4 index.
Definition rtmsg (family protocol : Z) : bytes := [family; 0; 0; 0; 0; protocol] ++ make 6.
Definition ndmsg (family ifindex flags : Z) : bytes :=
  [family; 0; 0; 0] ++ le_split 4 ifindex ++ [0; 0; flags; 0].
Definition if_stats_msg (family ifindex mask : Z) : bytes :=
  [family; 0; 0; 0] ++ le_split 4 ifindex ++ le_split 4 mask.

Lemma extMaskAttrs_eq mask :
  extMaskAttrs mask = Some (inl (enc_attrs (attr_if (mask <> 0) IFLA_EXT_MASK (le_split 4 mask)))).
Proof.
  unfold extMaskAttrs, attr_if. destruct (decide (mask = 0)) as [->|Hm]; [done|].
  rewrite decide_True by done. puts. by erewrite holds_attrs_Bytes by eassumption.
Qed.

Lemma link_hdr family : family_hdr IfInfomsgSizeCst family = Some (ifinfomsg family 0).
Proof. done. Qed.
Lemma link_hdr_index family index :
  put_at (ifinfomsg family 0) 4 (le_split 4 (uint32 index)) = Some (ifinfomsg family index).
Proof.
  unfold uint32. change (2 ^ 32) with (256 ^ Z.of_nat 4). rewrite le_split_mod. done.
Qed.

(** A link request is well formed for its type. *)
Lemma link_build flags seq family index attrs :
  BuildRequest RTM_GETLINK flags seq (ifinfomsg family index) attrs =
    Some (inl (message_bytes RTM_GETLINK (Z.lor flags NLM_F_REQUEST) seq (ifinfomsg family index) attrs)).
Proof. rewrite BuildRequest_eq. done. Qed.

Lemma link_ext_wire family mask seq :
  BuildDumpLinkRequestExt family mask seq =
    Some (inl (dump_message RTM_GETLINK seq (ifinfomsg family 0)
      (attr_if (mask <> 0) IFLA_EXT_MASK (le_split 4 mask)))).
Proof.
  unfold BuildDumpLinkRequestExt. rewrite link_hdr, extMaskAttrs_eq. cbn [mbind option_bind].
  apply link_build.
Qed.

Lemma link_index_wire family index mask seq :
  BuildGetLinkByIndexRequest family index mask seq =
    Some (inl (get_message RTM_GETLINK seq (ifinfomsg family index)
      (attr_if (mask <> 0) IFLA_EXT_MASK (le_split 4 mask)))).
Proof.
  unfold BuildGetLinkByIndexRequest. rewrite link_hdr. cbn [mbind option_bind].
  rewrite link_hdr_index, extMaskAttrs_eq. cbn [mbind option_bind]. apply link_build.
Qed.

Lemma link_filter_wire family mask master kind hasKind seq :
  glen kind <= 65520 -> family = AF_UNSPEC \/ family = AF_PACKET ->
  BuildDumpLinkRequestFilter family mask master kind hasKind seq =
    Some (inl (dump_message RTM_GETLINK seq (ifinfomsg family 0)
      ([(IFLA_EXT_MASK, le_split 4 mask)] ++ attr_if (master <> 0) IFLA_MASTER (le_split 4 master) ++
       attr_if (hasKind = true) IFLA_LINKINFO (enc_attrs [(IFLA_INFO_KIND, kind)])))).
Proof.
  intros Hk Hf. unfold BuildDumpLinkRequestFilter. rewrite decide_False by tauto.
  rewrite link_hdr. cbn [mbind option_bind]. cbv zeta. unfold RTAttrSizeCst.
  rewrite nlmsgAlign_padding. pose proof (FourByteAlignPadding_bound (glen kind)). glen_pos.
  assert (glen (enc_attrs [(IFLA_INFO_KIND, kind)]) = attr_space (glen kind)) as Hin
    by (rewrite enc_attrs_one; apply attr_space_enc).
  assert (attr_space (attr_space (glen kind)) = 4 + attr_space (glen kind)) as Hal.
  { unfold attr_space at 1. pose proof (enc_attr_aligned (IFLA_INFO_KIND, kind)) as Ha.
    rewrite attr_space_enc in Ha. rewrite FourByteAlignPadding_mod, Z.mod_opp_l_z by (lia || done). lia. }
  eapply on_u32; [apply holds_new; destruct hasKind; lia|destruct hasKind; lia|intros a1 H1].
  eapply on_u32_if; [exact H1|destruct hasKind; lia|intros a2 H2].
  destruct hasKind.
  - eapply on_bytes; [apply holds_new; lia|unfold RtaMaxPayloadCst, RTAttrSizeCst; lia|unfold attr_space; lia|].
    intros a3 H3. rewrite (holds_attrs_Bytes _ _ _ H3). cbn [mbind option_bind app].
    eapply on_bytes; [exact H2|rewrite Hin; unfold attr_space, RtaMaxPayloadCst, RTAttrSizeCst; lia
      |rewrite Hin, Hal; unfold attr_space; lia|].
    intros a4 H4. erewrite finish_eq by exact H4. rewrite link_build. unfold dump_message.
    rewrite <- app_assoc. done.
  - erewrite finish_eq by exact H2. rewrite link_build. unfold dump_message.
    change (attr_if (false = true) IFLA_LINKINFO _) with (@nil (Z * bytes)). by rewrite app_nil_r.
Qed.

Lemma validIfName_error name e : validIfName name = Some e -> e = ErrBadIfName.
Proof. unfold validIfName. repeat case_decide; congruence. Qed.
Lemma validIfName_length name : validIfName name = None -> 0 < glen name < IfNameSizeCst.
Proof.
  unfold validIfName. destruct (decide (name = [] \/ _)) as [|H]; [done|]. intros _.
  destruct name; [tauto|]. rewrite glen_cons. pose proof (glen_nonneg name). split; [lia|].
  rewrite glen_cons in H. lia.
Qed.

(** A valid name's attribute takes at most 20 bytes. *)
Lemma name_space name : validIfName name = None ->
  glen name < RtaMaxPayloadCst /\ 0 < attr_space (glen name + 1) <= 20.
Proof.
  intros Hn%validIfName_length. unfold IfNameSizeCst in Hn. unfold RtaMaxPayloadCst, RTAttrSizeCst.
  split; [lia|]. unfold attr_space. pose proof (FourByteAlignPadding_bound (glen name + 1)).
  pose proof (FourByteAlignPadding_least (glen name + 1) (16 - (glen name + 1))) as Hp.
  replace (glen name + 1 + (16 - (glen name + 1))) with 16 in Hp by lia. specialize (Hp ltac:(lia) eq_refl). lia.
Qed.

Lemma link_name_wire family name mask seq :
  validIfName name = None ->
  BuildGetLinkByNameRequest family name mask seq =
    Some (inl (get_message RTM_GETLINK seq (ifinfomsg family 0)
      (attr_if (mask <> 0) IFLA_EXT_MASK (le_split 4 mask) ++ [(IFLA_IFNAME, name ++ [0])]))).
Proof.
  intros Hn. unfold BuildGetLinkByNameRequest. rewrite Hn, link_hdr. cbn [mbind option_bind].
  destruct (name_space name Hn) as [H1 H2]. puts.
  erewrite finish_eq by eassumption. apply link_build.
Qed.
Lemma iplink_wire family name mask seq :
  validIfName name = None ->
  BuildIplinkGetRequest family name mask seq =
    Some (inl (get_message RTM_GETLINK seq (ifinfomsg family 0)
      [(IFLA_IFNAME, name ++ [0]); (IFLA_EXT_MASK, le_split 4 mask)])).
Proof.
  intros Hn. unfold BuildIplinkGetRequest. rewrite Hn, link_hdr. cbn [mbind option_bind].
  destruct (name_space name Hn) as [H1 H2]. puts.
  erewrite finish_eq by eassumption. apply link_build.
Qed.

Lemma route_filter_wire family protocol table oif seq :
  BuildDumpRouteRequestFilterProto family protocol table oif seq =
    Some (inl (dump_message RTM_GETROUTE seq (rtmsg family protocol)
      (attr_if (table <> RT_TABLE_UNSPEC) RTA_TABLE (le_split 4 table) ++
       attr_if (oif <> 0) RTA_OIF (le_split 4 oif)))).
Proof.
  unfold BuildDumpRouteRequestFilterProto.
  change (family_hdr RtMsgSizeCst family) with (Some (family :: make 11)). cbn [mbind option_bind].
  change (put_at (family :: make 11) 5 [protocol]) with (Some (rtmsg family protocol)). cbn [mbind option_bind].
  destruct (decide (table <> RT_TABLE_UNSPEC \/ oif <> 0)) as [H|H].
  - puts. erewrite finish_eq by eassumption. by rewrite BuildRequest_eq.
  - unfold attr_if. rewrite !decide_False by tauto. by rewrite BuildRequest_eq.
Qed.

Lemma neigh_filter_wire family flags ifindex seq :
  BuildDumpNeighRequestFilter family flags ifindex seq =
    Some (inl (dump_message RTM_GETNEIGH seq (ndmsg family 0 flags)
      (attr_if (ifindex <> 0) NDA_IFINDEX (le_split 4 ifindex)))).
Proof.
  unfold BuildDumpNeighRequestFilter.
  change (family_hdr NdMsgSizeCst family) with (Some (family :: make 11)). cbn [mbind option_bind].
  change (put_at (family :: make 11) NdMsgFlagsOffCst [flags]) with (Some (ndmsg family 0 flags)).
  cbn [mbind option_bind]. unfold attr_if. case_decide.
  - puts. erewrite finish_eq by eassumption. by rewrite BuildRequest_eq.
  - by rewrite BuildRequest_eq.
Qed.

(** Sequences of PutBytes are forests of leaves. *)
Lemma each_PutBytes l a :
  each (fun p => PutBytes p.1 p.2) l a = build_all ((fun p => Leaf p.1 p.2) <$> l) a.
Proof.
  revert a. induction l as [|[t v] l IH]; intros a; [done|]. unfold build_all in *.
  cbn [each fmap list_fmap fst snd build].
  destruct (PutBytes t v a) as [[a' [e|]]|]; cbn [mbind option_bind]; [done|apply IH|done].
Qed.
Lemma leaves_payload (l : list (Z * bytes)) : payload <$> ((fun p => Leaf p.1 p.2) <$> l) = l.
Proof. rewrite <- list_fmap_compose. induction l as [|[t v] l IH]; [done|]. cbn. by f_equal. Qed.

Definition route_get_hdr (g : RouteGet) : bytes :=
  [rg_Family g; rg_DstLen g; rg_SrcLen g; rg_Tos g; 0; 0; 0; 0] ++ le_split 4 (rg_RtmFlags g).

(** The attribute-free dump requests are never nil and carry the family in
    the first byte of an otherwise zero family header of their type's length. *)
Theorem dump_requests_wire family seq :
  BuildDumpLinkRequest seq = Some (Some (dump_message RTM_GETLINK seq (make 16) [])) /\
  BuildDumpLinkRequestFamily family seq = Some (Some (dump_message RTM_GETLINK seq (family :: make 15) [])) /\
  BuildDumpAddrRequest family seq = Some (Some (dump_message RTM_GETADDR seq (family :: make 7) [])) /\
  BuildDumpRouteRequest family seq = Some (Some (dump_message RTM_GETROUTE seq (family :: make 11) [])) /\
  BuildDumpNeighRequest family seq = Some (Some (dump_message RTM_GETNEIGH seq (family :: make 11) [])) /\
  BuildDumpNexthopRequest family seq = Some (Some (dump_message RTM_GETNEXTHOP seq (family :: make 7) [])) /\
  BuildDumpAddrLabelRequest family seq =
    Some (Some (dump_message RTM_GETADDRLABEL seq (family :: make 11) [])) /\
  BuildDumpNeighTblRequest family seq =
    Some (Some (dump_message RTM_GETNEIGHTBL seq (family :: make 3) [])) /\
  BuildDumpNetconfRequest family seq = Some (Some (dump_message RTM_GETNETCONF seq (family :: make 3) [])) /\
  BuildDumpRuleRequest family seq = Some (inl (dump_message RTM_GETRULE seq (family :: make 11) [])) /\
  (forall i, BuildDumpAddrRequestIndex family i seq =
    Some (Some (dump_message RTM_GETADDR seq (ifaddrmsg family i) []))) /\
  (forall i mask, BuildDumpStatsRequest family i mask seq =
    Some (Some (dump_message RTM_GETSTATS seq (if_stats_msg family i mask) []))) /\
  (forall i mask, BuildGetStatsByIndexRequest i mask seq =
    Some (inl (get_message RTM_GETSTATS seq (if_stats_msg 0 i mask) []))).
Proof. split_and!; reflexivity. Qed.

(** The link requests: each is a GETLINK with exactly the attributes its
    arguments ask for, in the order iproute2 writes them (the two by-name
    requests in opposite orders); a name validIfName rejects is ErrBadIfName, and
    every name it accepts fits the request buffer. *)
Theorem link_requests_wire family index mask master seq kind (hasKind : bool) name :
  glen kind <= 65520 ->
  BuildDumpLinkRequestExt family mask seq =
    Some (inl (dump_message RTM_GETLINK seq (ifinfomsg family 0)
      (attr_if (mask <> 0) IFLA_EXT_MASK (le_split 4 mask)))) /\
  BuildGetLinkByIndexRequest family index mask seq =
    Some (inl (get_message RTM_GETLINK seq (ifinfomsg family index)
      (attr_if (mask <> 0) IFLA_EXT_MASK (le_split 4 mask)))) /\
  (family = AF_UNSPEC \/ family = AF_PACKET ->
    BuildDumpLinkRequestFilter family mask master kind hasKind seq =
    Some (inl (dump_message RTM_GETLINK seq (ifinfomsg family 0)
      ([(IFLA_EXT_MASK, le_split 4 mask)] ++ attr_if (master <> 0) IFLA_MASTER (le_split 4 master) ++
       attr_if (hasKind = true) IFLA_LINKINFO (enc_attrs [(IFLA_INFO_KIND, kind)]))))) /\
  match validIfName name with
  | Some e => e = ErrBadIfName /\
      BuildGetLinkByNameRequest family name mask seq = Some (inr e) /\
      BuildIplinkGetRequest family name mask seq = Some (inr e)
  | None =>
      BuildGetLinkByNameRequest family name mask seq =
        Some (inl (get_message RTM_GETLINK seq (ifinfomsg family 0)
          (attr_if (mask <> 0) IFLA_EXT_MASK (le_split 4 mask) ++ [(IFLA_IFNAME, name ++ [0])]))) /\
      BuildIplinkGetRequest family name mask seq =
        Some (inl (get_message RTM_GETLINK seq (ifinfomsg family 0)
          [(IFLA_IFNAME, name ++ [0]); (IFLA_EXT_MASK, le_split 4 mask)]))
  end.
Proof.
  intros Hkind. split_and!.
  - apply link_ext_wire.
  - apply link_index_wire.
  - intros Hf. by apply link_filter_wire.
  - destruct (validIfName name) as [e|] eqn:E.
    + unfold BuildGetLinkByNameRequest, BuildIplinkGetRequest. rewrite E. split; [|done].
      by apply validIfName_error in E.
    + split; [by apply link_name_wire|by apply iplink_wire].
Qed.

Lemma link_requests_wire_witness :
  BuildGetLinkByNameRequest 0 [108; 111] 9 5 =
    Some (inl (get_message RTM_GETLINK 5 (ifinfomsg 0 0)
      [(IFLA_EXT_MASK, [9; 0; 0; 0]); (IFLA_IFNAME, [108; 111; 0])])) /\
  validIfName [108; 47] = Some ErrBadIfName.
Proof.
  split; [|reflexivity].
  destruct (link_requests_wire 0 1 9 0 5 [] false [108; 111] ltac:(discriminate)) as (_ & _ & _ & H & _).
  exact H.
Defined.

(** The filtered dumps and the single gets of the other families: the type,
    flags and header of the request and exactly the attributes its arguments ask
    for, in order. *)
Theorem filter_requests_wire family protocol table oif flags ifindex seq f nsid target (hasTarget : bool) :
  BuildDumpRouteRequestFilterProto family protocol table oif seq =
    Some (inl (dump_message RTM_GETROUTE seq (rtmsg family protocol)
      (attr_if (table <> RT_TABLE_UNSPEC) RTA_TABLE (le_split 4 table) ++
       attr_if (oif <> 0) RTA_OIF (le_split 4 oif)))) /\
  BuildDumpNeighRequestFilter family flags ifindex seq =
    Some (inl (dump_message RTM_GETNEIGH seq (ndmsg family 0 flags)
      (attr_if (ifindex <> 0) NDA_IFINDEX (le_split 4 ifindex)))) /\
  BuildGetNexthopByIDRequest family nsid seq =
    Some (inl (get_message RTM_GETNEXTHOP seq (family :: make 7)
      [(NhaID, le_split 4 nsid); (NhaOpFlags, le_split 4 0)])) /\
  BuildGetNexthopDumpRequest family f seq =
    Some (inl (dump_message RTM_GETNEXTHOP seq (family :: make 7)
      (attr_if (nf_OIF f <> 0) NhaOIF (le_split 4 (nf_OIF f)) ++ attr_if (nf_Groups f = true) NhaGroups [] ++
       attr_if (nf_Master f <> 0) NhaMaster (le_split 4 (nf_Master f)) ++
       attr_if (nf_Fdb f = true) NhaFdb []))) /\
  BuildGetNsidRequest nsid target hasTarget seq =
    Some (inl (get_message RTM_GETNSID seq (make 4)
      ((NETNSA_NSID, le_split 4 nsid) :: attr_if (hasTarget = true) NETNSA_TARGET_NSID (le_split 4 target)))) /\
  BuildDumpNsidRequest target hasTarget seq =
    Some (inl (dump_message RTM_GETNSID seq (make 4)
      (attr_if (hasTarget = true) NETNSA_TARGET_NSID (le_split 4 target)))) /\
  BuildSetNsidRequest oif nsid seq =
    Some (inl (message_bytes RTM_NEWNSID (Z.lor NLM_F_ACK NLM_F_REQUEST) seq (make 4)
      (enc_attrs [(NETNSA_FD, le_split 4 oif); (NETNSA_NSID, le_split 4 nsid)]))).
Proof.
  split_and!.
  - apply route_filter_wire.
  - apply neigh_filter_wire.
  - unfold BuildGetNexthopByIDRequest. rewrite family_hdr_eq by done. cbn [mbind option_bind]. puts.
    erewrite finish_eq by eassumption. by rewrite BuildRequest_eq.
  - unfold BuildGetNexthopDumpRequest. rewrite family_hdr_eq by done. cbn [mbind option_bind]. puts.
    erewrite finish_eq by eassumption. rewrite BuildRequest_eq. by rewrite <- !app_assoc.
  - unfold BuildGetNsidRequest. rewrite <- (le_split_uint32 nsid), <- (le_split_uint32 target). puts.
    erewrite finish_eq by eassumption. by rewrite BuildRequest_eq.
  - unfold BuildDumpNsidRequest. rewrite <- (le_split_uint32 target). puts.
    erewrite finish_eq by eassumption. by rewrite BuildRequest_eq.
  - unfold BuildSetNsidRequest. rewrite <- (le_split_uint32 nsid). puts.
    erewrite holds_attrs_Bytes by eassumption. cbn [mbind option_bind]. by rewrite BuildWriteRequest_eq.
Qed.

(** `ip route get`: the request carries the caller's attributes in order,
    each payload as given; it is refused exactly when a payload overflows
    rta_len or the padded attributes exceed the 1024-byte buffer. *)
Theorem BuildGetRouteRequest_spec g seq :
  exists r, BuildGetRouteRequest g seq = Some r /\
    match r with
    | inl b => b = get_message RTM_GETROUTE seq (route_get_hdr g) (rg_Attrs g)
    | inr e => ~ (Forall (fun a => glen a.2 <= RtaMaxPayloadCst) (rg_Attrs g) /\
                  glen (enc_attrs (rg_Attrs g)) <= routeGetBufCst)
    end.
Proof.
  unfold BuildGetRouteRequest. cbv zeta. rewrite each_PutBytes.
  destruct (build_all_outcome ((fun p => Leaf p.1 p.2) <$> rg_Attrs g)
    (NewAttrBuilder (make routeGetBufCst)) [] (make routeGetBufCst)) as (a & e & -> & He & Hh); [done|].
  unfold on_ok. cbn [mbind option_bind]. unfold encode_all in *. rewrite leaves_payload in *.
  destruct e as [e|].
  - eexists. split; [done|]. cbv beta iota. intros [Hp Hs]. enough (Some e = None) by done.
    apply He. split; [|done]. apply Forall_fmap. eapply Forall_impl; [exact Hp|]. intros [t v] Hv. by split.
  - unfold finish. rewrite (holds_Bytes _ _ _ (Hh eq_refl)). cbn [mbind option_bind app].
    rewrite BuildRequest_eq. eexists. by split.
Qed.

(** *** The inet_diag dump *)

(** The request the poller sends in a cycle: the states word is big-endian in
    the code, so the kernel reads 0x3fff. *)
Definition sock_diag_bytes (seq ext : Z) : bytes :=
  le_split 4 72 ++ le_split 2 20 ++ le_split 2 769 ++ le_split 4 seq ++ le_split 4 0 ++
  [2; 6; ext; 0] ++ le_split 4 16383 ++ make 48.

Lemma create_eq seq enabled :
  CreateNetLinkRequest seq enabled = Some (sock_diag_bytes seq (IDiagExtFromEnabled enabled)).
Proof. reflexivity. Qed.

Lemma sock_diag_update seq ext seq' :
  put_at (sock_diag_bytes seq ext) 8 (le_split 4 seq') = Some (sock_diag_bytes seq' ext).
Proof. reflexivity. Qed.

Lemma sock_diag_hdr seq ext :
  0 <= seq < 2 ^ 32 ->
  DeserializeNlMsgHdr (sock_diag_bytes seq ext) (mkNlMsgHdr 0 0 0 0 0) =
    Some (CreateNetLinkRequest_hdr seq, NlMsgHdrReadCst, None).
Proof.
  intros Hs. rewrite DeserializeNlMsgHdr_ok by (vm_compute; discriminate). do 3 f_equal.
  unfold nlh_at, CreateNetLinkRequest_hdr, sock_diag_bytes. f_equal; rewrite ?le_at_skip by lia;
    (apply le_at_split; [simpl; lia|done]) || reflexivity.
Qed.

(** The inet_diag dump request: creating it writes 72 bytes whose header
    decodes to the intended one and whose body decodes to the intended request
    (all addresses zero, the extension mask the enabled deserializers ask for);
    the kernel's native-order reading of the states word is 0x3fff, every TCP
    state; and setting the sequence number for a poll changes only the sequence
    number, to NlmsgSeq + pollingLoops modulo 2^32. *)
Theorem CreateNetLinkRequest_spec seq enabled loops :
  0 <= seq < 2 ^ 32 -> 0 <= loops ->
  exists b b', CreateNetLinkRequest seq enabled = Some b /\ glen b = InetDiagRequestSizeCst /\
    DeserializeNlMsgHdr b (mkNlMsgHdr 0 0 0 0 0) =
      Some (CreateNetLinkRequest_hdr seq, NlMsgHdrReadCst, None) /\
    DeserializeInetDiagReqV2 (drop 16 b) (CreateNetLinkRequest_req ∅) zeroSockID =
      Some (CreateNetLinkRequest_req enabled, zeroSockID, InetDiagReqV2ReadCst, None) /\
    le_at 4 b 20 = 16383 /\
    updateNetlinkRequestSequenceNumber seq loops b = Some b' /\
    DeserializeNlMsgHdr b' (mkNlMsgHdr 0 0 0 0 0) =
      Some (CreateNetLinkRequest_hdr ((seq + loops) mod 2 ^ 32), NlMsgHdrReadCst, None) /\
    drop 16 b' = drop 16 b /\ glen b' = glen b.
Proof.
  intros Hs Hl. rewrite create_eq. set (ext := IDiagExtFromEnabled enabled).
  exists (sock_diag_bytes seq ext), (sock_diag_bytes ((seq + loops) mod 2 ^ 32) ext).
  split_and!; try reflexivity.
  - by apply sock_diag_hdr.
  - unfold updateNetlinkRequestSequenceNumber, uint32.
    rewrite Z.add_mod_idemp_r by done. apply sock_diag_update.
  - apply sock_diag_hdr. by apply Z.mod_pos_bound.
Qed.

Lemma CreateNetLinkRequest_spec_witness :
  exists b b', CreateNetLinkRequest 4294967295 ∅ = Some b /\
    updateNetlinkRequestSequenceNumber 4294967295 3 b = Some b' /\
    DeserializeNlMsgHdr b' (mkNlMsgHdr 0 0 0 0 0) =
      Some (CreateNetLinkRequest_hdr 2, NlMsgHdrReadCst, None).
Proof.
  destruct (CreateNetLinkRequest_spec 4294967295 ∅ 3 ltac:(lia) ltac:(lia))
    as (b & b' & H1 & _ & _ & _ & _ & H2 & H3 & _).
  exists b, b'. split; [exact H1|]. split; [exact H2|exact H3].
Defined.
