(* ===== verification/NlWalk.v ===== *)
(** Reading rtnetlink replies (pkg/xtcpnl/xtcpnl_rtnetlink.go, xtcpnl_envelope.go,
    xtcpnl_nlmsgerr.go): the walk over one datagram's messages, the loop that
    drives a dump to its end over successive datagrams, the single-reply talk,
    the strict envelope walk and the extended-ack decoder. *)

From S2P Require Import Prelude NlHeaders RtAttr NlRequest.

Definition NLM_F_DUMP_INTR : Z := 16.
Definition NLM_F_CAPPED : Z := 256.
Definition NLM_F_ACK_TLVS : Z := 512.

(** ** One datagram *)

(** [fmt.Errorf("...: %w", syscall.Errno(-errno))]: the negation is int32, the
    conversion to uintptr extends the sign. *)
Definition netlinkErr (body : bytes) : go (option err) :=
  if decide (glen body < 4) then Some (Some ErrNetlinkError) else
  v ← LE32 body 0 4;
  let errno := int32 v in
  if decide (errno = 0) then Some None else Some (Some (Errno (uint64 (int32 (- errno))))).

Definition DoneErr (body : bytes) : go (option err) :=
  if decide (glen body < 4) then Some None else
  v ← LE32 body 0 4;
  if decide (0 <= int32 v) then Some None else netlinkErr body.

Section Walk.
Context {S : Type}.

(** A callback on the state of the variables it captures; a nil one is [None]. *)
Abbreviation callback := (NlMsgHdr -> bytes -> S -> go (S * option err)).

(** Each message takes at least 16 bytes, so the length of the data is enough
    fuel ([walk_loop_total]). *)
Fixpoint walkNlMsgsHdr_loop (fuel : nat) (data : bytes) (seq : Z) (onMsg : option callback)
    (doneErr interrupted : bool) (s : S) : go (S * bool * option err) :=
  match fuel with
  | O => None
  | Datatypes.S fuel =>
      if decide (NlMsgHdrSizeCst <= glen data) then
        '(h, _, derr) ← DeserializeNlMsgHdr data {| nlh_Len := 0; nlh_Type := 0; nlh_Flags := 0; nlh_Seq := 0; nlh_Pid := 0 |};
        match derr with
        | Some e => Some (s, false, Some e)
        | None =>
            let msgLen := nlh_Len h in
            if decide (msgLen < NlMsgHdrSizeCst \/ glen data < msgLen)
            then Some (s, false, Some ErrBadMsgLen) else
            body ← slice data NlMsgHdrSizeCst msgLen;
            let adv := msgLen + FourByteAlignPadding msgLen in
            let adv := if decide (glen data < adv) then glen data else adv in
            rest ← slice data adv (glen data);
            if decide (nlh_Seq h <> seq) then
              walkNlMsgsHdr_loop fuel rest seq onMsg doneErr interrupted s
            else
            let interrupted :=
              if decide (Z.land (nlh_Flags h) NLM_F_DUMP_INTR <> 0) then true else interrupted in
            if decide (nlh_Type h = NLMSG_DONE) then
              if interrupted : bool then Some (s, true, Some ErrDumpInterrupted) else
              if doneErr : bool then e ← DoneErr body; Some (s, true, e) else Some (s, true, None)
            else if decide (nlh_Type h = NLMSG_ERROR) then
              if interrupted then Some (s, true, Some ErrDumpInterrupted) else
              e ← netlinkErr body; Some (s, true, e)
            else if decide (nlh_Type h = NLMSG_NOOP) then
              walkNlMsgsHdr_loop fuel rest seq onMsg doneErr interrupted s
            else
              match onMsg with
              | Some f =>
                  if interrupted then walkNlMsgsHdr_loop fuel rest seq onMsg doneErr interrupted s else
                  '(s, cerr) ← f h body s;
                  match cerr with
                  | Some e => Some (s, false, Some e)
                  | None => walkNlMsgsHdr_loop fuel rest seq onMsg doneErr interrupted s
                  end
              | None => walkNlMsgsHdr_loop fuel rest seq onMsg doneErr interrupted s
              end
        end
      else Some (s, false, if interrupted then Some ErrDumpInterrupted else None)
  end.

Definition walkNlMsgsHdr (data : bytes) (seq : Z) (onMsg : option callback) (doneErr : bool) (s : S)
    : go (S * bool * option err) :=
  if decide (glen data < NlMsgHdrSizeCst) then Some (s, false, Some ErrShortRecv) else
  walkNlMsgsHdr_loop (Datatypes.S (length data)) data seq onMsg doneErr false s.

Definition WalkNlMsgsHdr (data : bytes) (seq : Z) (onMsg : option callback) (s : S) :=
  walkNlMsgsHdr data seq onMsg false s.

Definition typeOnly (onMsg : option (Z -> bytes -> S -> go (S * option err))) : option callback :=
  f ← onMsg; Some (fun h body s => f (nlh_Type h) body s).

Definition WalkNlMsgs (data : bytes) (seq : Z) (onMsg : option (Z -> bytes -> S -> go (S * option err)))
    (s : S) :=
  WalkNlMsgsHdr data seq (typeOnly onMsg) s.

(** ** A dump *)

(** What [Recvfrom] returns: an errno, or a datagram and its sender, [None] for
    an address that is not a netlink one, otherwise the port id. *)
Inductive recv := RecvErr (e : Z) | Datagram (from : option Z) (data : bytes).

Definition fromKernel (from : option Z) : bool :=
  match from with None => true | Some pid => bool_decide (pid = 0) end.

(** A call that has not returned when the received datagrams run out is waiting
    for the next one. *)
Inductive outcome (R : Type) :=
  | Returned (r : R) (rest : list recv)
  | Waiting (s : S) (interrupted : bool).
#[local] Arguments Returned {R}. #[local] Arguments Waiting {R}.

Fixpoint dump_loop (seq : Z) (onMsg : option callback) (doneErr : bool) (recvs : list recv)
    (interrupted : bool) (s : S) : go (outcome (S * option err)) :=
  match recvs with
  | [] => Some (Waiting s interrupted)
  | RecvErr e :: rest => Some (Returned (s, Some (Errno e)) rest)
  | Datagram from data :: rest =>
      if negb (fromKernel from) then dump_loop seq onMsg doneErr rest interrupted s else
      let deliver := if interrupted then None else onMsg in
      '(s, done, werr) ← walkNlMsgsHdr data seq deliver doneErr s;
      if decide (werr = Some ErrDumpInterrupted) then
        if done : bool then Some (Returned (s, Some ErrDumpInterrupted) rest)
        else dump_loop seq onMsg doneErr rest true s
      else
      match werr with
      | Some e => Some (Returned (s, Some e) rest)
      | None =>
          if done : bool then
            Some (Returned (s, if interrupted then Some ErrDumpInterrupted else None) rest)
          else dump_loop seq onMsg doneErr rest interrupted s
      end
  end.

(** [sendto] is what Sendto returns. *)
Definition dumpRtnetlinkMsgs (request : bytes) (sendto : option Z) (onMsg : option callback)
    (doneErr : bool) (recvs : list recv) (s : S) : go (outcome (S * option err)) :=
  if decide (glen request < NlMsgHdrSizeCst) then Some (Returned (s, Some ErrShortRequest) recvs) else
  seq ← LE32 request 8 12;
  match sendto with
  | Some e => Some (Returned (s, Some (Errno e)) recvs)
  | None => dump_loop seq onMsg doneErr recvs false s
  end.

Definition DumpRtnetlinkMsgs (request : bytes) sendto (onMsg : option callback) recvs s :=
  dumpRtnetlinkMsgs request sendto onMsg false recvs s.
Definition DumpRtnetlinkMsgsDoneErr (request : bytes) sendto (onMsg : option callback) recvs s :=
  dumpRtnetlinkMsgs request sendto onMsg true recvs s.
Definition DumpRtnetlink (request : bytes) sendto
    (onMsg : option (Z -> bytes -> S -> go (S * option err))) recvs s :=
  DumpRtnetlinkMsgs request sendto (typeOnly onMsg) recvs s.
End Walk.
Arguments Returned {S R}. Arguments Waiting {S R}.

(** ** A single reply *)

(** The callback's captured variables: the first reply's type and body copy. *)
Definition talk_callback (mt : Z) (mbody : bytes) (s : Z * option bytes)
    : go (Z * option bytes * option err) :=
  Some ((mt, CopyBytes mbody), Some errTalkStopCst).

Fixpoint talk_loop (seq : Z) (recvs : list recv)
    : go (outcome (S := Z * option bytes) (Z * option bytes * option err)) :=
  match recvs with
  | [] => Some (Waiting (0, None) false)
  | RecvErr e :: rest => Some (Returned (0, None, Some (Errno e)) rest)
  | Datagram from data :: rest =>
      if negb (fromKernel from) then talk_loop seq rest else
      '(got, done, werr) ← WalkNlMsgs data seq (Some talk_callback) (0, None);
      if decide (werr = Some errTalkStopCst) then Some (Returned (got.1, got.2, None) rest) else
      match werr with
      | Some e => Some (Returned (0, None, Some e) rest)
      | None => if done : bool then Some (Returned (0, None, None) rest) else talk_loop seq rest
      end
  end.

Definition TalkRtnetlink (request : bytes) (sendto : option Z) (recvs : list recv) :=
  if decide (glen request < NlMsgHdrSizeCst)
  then Some (Returned (0, None, Some ErrShortRequest) recvs) else
  seq ← LE32 request 8 12;
  match sendto with
  | Some e => Some (Returned (0, None, Some (Errno e)) recvs)
  | None => talk_loop seq recvs
  end.

(** ** Encoded messages *)

(** A netlink message as the kernel lays it out, padded to four bytes. *)
Record nlmsg := mkNlmsg { nm_Type : Z; nm_Flags : Z; nm_Seq : Z; nm_Pid : Z; nm_Body : bytes }.

Definition nm_hdr (m : nlmsg) : NlMsgHdr :=
  mkNlMsgHdr (NlMsgHdrSizeCst + glen (nm_Body m)) (nm_Type m) (nm_Flags m) (nm_Seq m) (nm_Pid m).
Definition enc_nlmsg (m : nlmsg) : bytes :=
  le_split 4 (NlMsgHdrSizeCst + glen (nm_Body m)) ++ le_split 2 (nm_Type m) ++ le_split 2 (nm_Flags m) ++
  le_split 4 (nm_Seq m) ++ le_split 4 (nm_Pid m) ++ pad (nm_Body m).
Definition enc_nlmsgs (ms : list nlmsg) : bytes := concat (enc_nlmsg <$> ms).

Record wf_nlmsg (m : nlmsg) : Prop := {
  wn_len : NlMsgHdrSizeCst + glen (nm_Body m) < 2 ^ 32;
  wn_type : 0 <= nm_Type m < 2 ^ 16;
  wn_flags : 0 <= nm_Flags m < 2 ^ 16;
  wn_seq : 0 <= nm_Seq m < 2 ^ 32;
  wn_pid : 0 <= nm_Pid m < 2 ^ 32 }.

Lemma padding_16 n : FourByteAlignPadding (16 + n) = FourByteAlignPadding n.
Proof. rewrite !FourByteAlignPadding_mod. replace (- (16 + n)) with (- n + (-4) * 4) by lia. by rewrite Z.mod_add. Qed.

Lemma enc_nlmsg_length m :
  glen (enc_nlmsg m) = 16 + glen (nm_Body m) + FourByteAlignPadding (glen (nm_Body m)).
Proof. unfold enc_nlmsg. rewrite !glen_app, !glen_le_split, pad_length. lia. Qed.
Lemma enc_nlmsg_ge m : 16 <= glen (enc_nlmsg m).
Proof. rewrite enc_nlmsg_length. pose proof (FourByteAlignPadding_bound (glen (nm_Body m))). glen_pos; lia. Qed.

Lemma nlh_at_enc m rest : wf_nlmsg m -> nlh_at (enc_nlmsg m ++ rest) 0 = nm_hdr m.
Proof.
  intros [H1 H2 H3 H4 H5]. unfold nlh_at, enc_nlmsg, nm_hdr, NlMsgHdrSizeCst in *. glen_pos.
  rewrite <- !app_assoc. f_equal; rewrite ?le_at_skip by lia; (apply le_at_split; [simpl; lia|done]).
Qed.

Lemma enc_nlmsg_split m rest :
  enc_nlmsg m ++ rest =
    take 16 (enc_nlmsg m) ++ nm_Body m ++
    replicate (Z.to_nat (FourByteAlignPadding (glen (nm_Body m)))) 0 ++ rest.
Proof. unfold enc_nlmsg, pad. simpl. rewrite <- !app_assoc. done. Qed.

(** ** The walk over encoded messages *)

Section WalkSpec.
Context {S : Type} (seq : Z) (onMsg : option (NlMsgHdr -> bytes -> S -> go (S * option err))) (doneErr : bool).

Definition is_interrupt (m : nlmsg) : bool := bool_decide (Z.land (nm_Flags m) NLM_F_DUMP_INTR <> 0).

(** The walk over the messages themselves. *)
Fixpoint walk_msgs (ms : list nlmsg) (interrupted : bool) (s : S) : go (S * bool * option err) :=
  match ms with
  | [] => Some (s, false, if interrupted then Some ErrDumpInterrupted else None)
  | m :: ms =>
      if decide (nm_Seq m <> seq) then walk_msgs ms interrupted s else
      let interrupted := interrupted || is_interrupt m in
      if decide (nm_Type m = NLMSG_DONE) then
        if interrupted then Some (s, true, Some ErrDumpInterrupted)
        else if doneErr then e ← DoneErr (nm_Body m); Some (s, true, e) else Some (s, true, None)
      else if decide (nm_Type m = NLMSG_ERROR) then
        if interrupted then Some (s, true, Some ErrDumpInterrupted)
        else e ← netlinkErr (nm_Body m); Some (s, true, e)
      else if decide (nm_Type m = NLMSG_NOOP) then walk_msgs ms interrupted s
      else
        match onMsg with
        | Some f =>
            if interrupted then walk_msgs ms interrupted s else
            '(s, cerr) ← f (nm_hdr m) (nm_Body m) s;
            match cerr with
            | Some e => Some (s, false, Some e)
            | None => walk_msgs ms interrupted s
            end
        | None => walk_msgs ms interrupted s
        end
  end.

Lemma walk_loop_enc ms fuel intr s :
  Forall wf_nlmsg ms -> (length ms < fuel)%nat ->
  walkNlMsgsHdr_loop fuel (enc_nlmsgs ms) seq onMsg doneErr intr s = walk_msgs ms intr s.
Proof.
  intros Hms. revert fuel intr s. induction Hms as [|m ms Hm Hms IH]; intros fuel intr s Hf.
  { destruct fuel; [simpl in Hf; lia|]. done. }
  destruct fuel as [|fuel]; [simpl in Hf; lia|]. cbn [walkNlMsgsHdr_loop walk_msgs].
  change (enc_nlmsgs (m :: ms)) with (enc_nlmsg m ++ enc_nlmsgs ms).
  pose proof (enc_nlmsg_length m) as Hlen. pose proof (FourByteAlignPadding_bound (glen (nm_Body m))).
  pose proof (glen_nonneg (nm_Body m)). pose proof (glen_nonneg (enc_nlmsgs ms)).
  rewrite decide_True by (unfold NlMsgHdrSizeCst; rewrite glen_app; lia).
  rewrite DeserializeNlMsgHdr_ok by (unfold NlMsgHdrSizeCst; rewrite glen_app; lia).
  rewrite nlh_at_enc by done. cbn [mbind option_bind]. cbv zeta.
  change (nlh_Len (nm_hdr m)) with (16 + glen (nm_Body m)). change (nlh_Type (nm_hdr m)) with (nm_Type m).
  change (nlh_Flags (nm_hdr m)) with (nm_Flags m). change (nlh_Seq (nm_hdr m)) with (nm_Seq m).
  change NlMsgHdrSizeCst with 16.
  rewrite decide_False by (rewrite glen_app; lia).
  rewrite (slice_ok _ 16 (16 + glen (nm_Body m))) by (rewrite ?glen_app; lia). cbn [mbind option_bind].
  rewrite (slice_mid (take 16 (enc_nlmsg m)) (nm_Body m)
    (replicate (Z.to_nat (FourByteAlignPadding (glen (nm_Body m)))) 0 ++ enc_nlmsgs ms));
    [|unfold glen in *; rewrite length_take; lia|lia|apply enc_nlmsg_split].
  rewrite padding_16, (decide_False (P := glen (enc_nlmsg m ++ enc_nlmsgs ms) < _)) by (rewrite glen_app; lia).
  rewrite slice_ok by (rewrite ?glen_app; lia). cbn [mbind option_bind].
  rewrite take_ge by (unfold glen in *; rewrite length_drop, length_app; lia).
  replace (Z.to_nat _) with (length (enc_nlmsg m)) by (unfold glen in *; lia).
  rewrite drop_app_length.
  assert (forall i s, walkNlMsgsHdr_loop fuel (enc_nlmsgs ms) seq onMsg doneErr i s = walk_msgs ms i s) as IH'
    by (intros; apply IH; simpl in Hf; lia).
  case_decide; [apply IH'|].
  replace (if decide (Z.land (nm_Flags m) NLM_F_DUMP_INTR <> 0) then true else intr)
    with (intr || is_interrupt m).
  2: { unfold is_interrupt. destruct (decide (Z.land (nm_Flags m) NLM_F_DUMP_INTR <> 0)) as [Hd|Hd].
       - rewrite bool_decide_true by exact Hd. apply orb_true_r.
       - rewrite bool_decide_false by exact Hd. apply orb_false_r. }
  case_decide; [done|]. case_decide; [done|]. case_decide; [apply IH'|].
  destruct onMsg as [f|]; [|apply IH']. case_match; [apply IH'|].
  destruct (f (nm_hdr m) (nm_Body m) s) as [[s' [e|]]|]; cbn [mbind option_bind]; [done|apply IH'|done].
Qed.

Lemma walk_enc ms s :
  Forall wf_nlmsg ms -> ms <> [] ->
  walkNlMsgsHdr (enc_nlmsgs ms) seq onMsg doneErr s = walk_msgs ms false s.
Proof.
  intros Hms Hne. unfold walkNlMsgsHdr, NlMsgHdrSizeCst.
  assert (16 <= glen (enc_nlmsgs ms) /\ (length ms <= length (enc_nlmsgs ms))%nat) as [H1 H2].
  { clear Hms. induction ms as [|m ms IH]; [done|].
    change (enc_nlmsgs (m :: ms)) with (enc_nlmsg m ++ enc_nlmsgs ms). pose proof (enc_nlmsg_ge m).
    rewrite glen_app, length_app. glen_pos. split; [lia|]. simpl.
    destruct ms as [|m' ms]; [unfold glen in *; simpl; lia|]. destruct IH as [_ IH]; [done|].
    unfold glen in *; lia. }
  rewrite decide_False by lia. apply walk_loop_enc; [done|lia].
Qed.
End WalkSpec.

Lemma netlinkErr_total body : is_Some (netlinkErr body).
Proof.
  unfold netlinkErr. case_decide; [by eexists|]. rewrite LE32_ok by lia. cbn [mbind option_bind].
  cbv zeta. case_decide; by eexists.
Qed.
Lemma DoneErr_total body : is_Some (DoneErr body).
Proof.
  unfold DoneErr. case_decide; [by eexists|]. rewrite LE32_ok by lia. cbn [mbind option_bind].
  case_decide; [by eexists|apply netlinkErr_total].
Qed.

Lemma walk_loop_total {S} fuel data seq (onMsg : option (NlMsgHdr -> bytes -> S -> go (S * option err))) doneErr intr s :
  (forall f h b s, onMsg = Some f -> is_Some (f h b s)) -> (length data < fuel)%nat ->
  is_Some (walkNlMsgsHdr_loop fuel data seq onMsg doneErr intr s).
Proof.
  intros Hf. revert data intr s. induction fuel as [|fuel IH]; intros data intr s Hl; [lia|].
  cbn [walkNlMsgsHdr_loop]. unfold NlMsgHdrSizeCst. destruct (decide (16 <= glen data)) as [H16|]; [|by eexists].
  rewrite DeserializeNlMsgHdr_ok by done. cbn [mbind option_bind]. cbv zeta.
  set (n := nlh_Len (nlh_at data 0)). case_decide as Hn; [by eexists|].
  rewrite (slice_ok data 16 n) by lia. cbn [mbind option_bind].
  pose proof (FourByteAlignPadding_bound n).
  set (adv := if decide _ then _ else n + _). assert (16 <= adv <= glen data) as Hadv by (unfold adv; case_decide; lia).
  rewrite slice_ok by lia. cbn [mbind option_bind]. clearbody adv.
  set (rest := take _ _). assert (length rest < fuel)%nat as Hr.
  { unfold rest. rewrite length_take, length_drop. unfold glen in *. lia. }
  case_decide; [by apply IH|].
  set (i := if decide (Z.land _ _ <> 0) then true else intr). clearbody i.
  case_decide; [destruct i; [by eexists|]; destruct doneErr; [|by eexists]|].
  { destruct (DoneErr_total (take (Z.to_nat (n - 16)) (drop (Z.to_nat 16) data))) as [e ->]. by eexists. }
  case_decide; [destruct i; [by eexists|]|].
  { destruct (netlinkErr_total (take (Z.to_nat (n - 16)) (drop (Z.to_nat 16) data))) as [e ->]. by eexists. }
  case_decide; [by apply IH|]. destruct onMsg as [f|]; [|by apply IH]. destruct i; [by apply IH|].
  destruct (Hf f (nlh_at data 0) (take (Z.to_nat (n - 16)) (drop (Z.to_nat 16) data)) s eq_refl) as [[s' [e|]] ->];
    cbn [mbind option_bind]; [by eexists|by apply IH].
Qed.

(** ** What a dump delivers *)

Section Dump.
Context (seq : Z).

(** The callback that records every message it is given. *)
Definition record (h : NlMsgHdr) (body : bytes) (s : list (NlMsgHdr * bytes))
    : go (list (NlMsgHdr * bytes) * option err) := Some (s ++ [(h, body)], None).

(** The messages of this dump: those of its sequence number.  [ends] says a
    message ends the dump, [is_data] that it is delivered. *)
Definition ours (m : nlmsg) : bool := bool_decide (nm_Seq m = seq).
Definition ends (m : nlmsg) : bool :=
  bool_decide (nm_Type m = NLMSG_DONE) || bool_decide (nm_Type m = NLMSG_ERROR).
Definition is_data (m : nlmsg) : bool := negb (ends m) && negb (bool_decide (nm_Type m = NLMSG_NOOP)).

(** The messages up to the first one flagged NLM_F_DUMP_INTR. *)
Fixpoint before_interrupt (ms : list nlmsg) : list nlmsg :=
  match ms with
  | [] => []
  | m :: ms => if is_interrupt m then [] else m :: before_interrupt ms
  end.
Definition interrupted_by (ms : list nlmsg) : bool :=
  existsb (fun m => ours m && is_interrupt m) ms.
(** What the dump's messages [ms] deliver. *)
Definition delivered (ms : list nlmsg) : list (NlMsgHdr * bytes) :=
  (fun m => (nm_hdr m, nm_Body m)) <$> filter is_data (before_interrupt (filter ours ms)).

Definition no_end (ms : list nlmsg) : Prop := Forall (fun m => ours m = true -> ends m = false) ms.

(** Walking messages without an end, delivering or draining. *)
Lemma walk_no_end_drain onMsg doneErr ms intr s rest :
  (onMsg = None \/ intr = true) -> no_end ms ->
  walk_msgs seq onMsg doneErr (ms ++ rest) intr s =
    walk_msgs (S := list (NlMsgHdr * bytes)) seq onMsg doneErr rest (intr || interrupted_by ms) s.
Proof.
  intros Hd. revert intr Hd. induction ms as [|m ms IH]; intros intr Hd Hms.
  { by rewrite orb_false_r. }
  apply Forall_cons in Hms as [Hm Hms]. cbn [app walk_msgs interrupted_by existsb].
  fold (interrupted_by ms). unfold ours in *.
  destruct (decide (nm_Seq m = seq)) as [Hs|Hs].
  2: { rewrite decide_True, bool_decide_false by done. cbn [andb orb]. by apply IH. }
  rewrite decide_False, bool_decide_true by first [done | intros Hx; done]. rewrite bool_decide_true in Hm by done.
  specialize (Hm eq_refl). unfold ends in Hm. apply orb_false_iff in Hm as [H1%bool_decide_eq_false H2%bool_decide_eq_false].
  cbv zeta. rewrite !decide_False by done. cbn [andb]. rewrite orb_assoc.
  assert (onMsg = None \/ intr || is_interrupt m = true) as Hd' by (destruct Hd as [|Hd]; [by left|right; by rewrite Hd]).
  case_decide; [by apply IH|]. destruct Hd' as [Ho|Hi].
  - rewrite Ho in *. apply IH; [by left|done].
  - rewrite Hi. destruct onMsg; apply IH; auto.
Qed.

Lemma delivered_cons m ms :
  delivered (m :: ms) =
    if ours m then
      if is_interrupt m then [] else
      (if is_data m then [(nm_hdr m, nm_Body m)] else []) ++ delivered ms
    else delivered ms.
Proof.
  unfold delivered. rewrite filter_cons. destruct (ours m); [|by rewrite decide_False by (intros [])]. rewrite decide_True by done.
  cbn [before_interrupt]. destruct (is_interrupt m); [done|]. rewrite filter_cons.
  destruct (is_data m); [by rewrite decide_True by done|by rewrite decide_False by (intros [])].
Qed.

Lemma walk_no_end ms doneErr s rest :
  no_end ms ->
  walk_msgs seq (Some record) doneErr (ms ++ rest) false s =
    walk_msgs seq (Some record) doneErr rest (interrupted_by ms) (s ++ delivered ms).
Proof.
  revert s. induction ms as [|m ms IH]; intros s Hms.
  { by rewrite app_nil_r. }
  apply Forall_cons in Hms as [Hm Hms]. rewrite delivered_cons. cbn [app walk_msgs interrupted_by existsb].
  fold (interrupted_by ms). destruct (ours m) eqn:Ho; unfold ours in Ho.
  2: { apply bool_decide_eq_false in Ho. rewrite decide_True by done. by apply IH. }
  apply bool_decide_eq_true in Ho. rewrite decide_False by (intros Hx; done).
  specialize (Hm eq_refl). unfold is_data. rewrite Hm.
  unfold ends in Hm. apply orb_false_iff in Hm as [H1%bool_decide_eq_false H2%bool_decide_eq_false].
  cbv zeta. rewrite !(decide_False (P := nm_Type m = NLMSG_DONE)), !(decide_False (P := nm_Type m = NLMSG_ERROR)) by done.
  cbn [negb andb orb]. destruct (is_interrupt m) eqn:Ei.
  - rewrite app_nil_r. cbn [orb]. case_decide; rewrite walk_no_end_drain; auto.
  - cbn [orb]. case_decide as Hn.
    + rewrite bool_decide_true by done. cbn [negb app]. by apply IH.
    + rewrite bool_decide_false by done. cbn [negb record mbind option_bind]. rewrite IH by done.
      by rewrite <- app_assoc.
Qed.

Lemma interrupted_app a b : interrupted_by (a ++ b) = interrupted_by a || interrupted_by b.
Proof. apply existsb_app. Qed.
Lemma delivered_app a b :
  delivered (a ++ b) = delivered a ++ (if interrupted_by a then [] else delivered b).
Proof.
  induction a as [|m a IH]; [done|]. cbn [app]. rewrite !delivered_cons, IH.
  cbn [interrupted_by existsb]. fold (interrupted_by a).
  destruct (ours m); cbn [andb orb]; [|done]. destruct (is_interrupt m); cbn [orb]; [done|].
  by rewrite <- app_assoc.
Qed.
Lemma delivered_all ms :
  interrupted_by ms = false ->
  delivered ms = (fun m => (nm_hdr m, nm_Body m)) <$> filter is_data (filter ours ms).
Proof.
  intros Hi. unfold delivered. f_equal. f_equal.
  induction ms as [|m ms IH]; [done|]. cbn [interrupted_by existsb] in Hi. fold (interrupted_by ms) in Hi.
  apply orb_false_iff in Hi as [Hm Hi]. rewrite filter_cons.
  destruct (ours m); [rewrite decide_True by done|rewrite decide_False by (intros []); auto].
  cbn [before_interrupt andb] in *. rewrite Hm. f_equal. auto.
Qed.

(** Datagrams of whole messages. *)
Definition dgram (p : option Z * list nlmsg) : recv := Datagram p.1 (enc_nlmsgs p.2).
Definition kernel_msgs (ps : list (option Z * list nlmsg)) : list nlmsg :=
  concat (snd <$> filter (fun p => fromKernel p.1) ps).
Definition open_dgram (p : option Z * list nlmsg) : Prop :=
  fromKernel p.1 = true -> p.2 <> [] /\ Forall wf_nlmsg p.2 /\ no_end p.2.

Lemma dump_open doneErr ps rest intr s :
  Forall open_dgram ps ->
  dump_loop seq (Some record) doneErr ((dgram <$> ps) ++ rest) intr s =
    dump_loop seq (Some record) doneErr rest (intr || interrupted_by (kernel_msgs ps))
      (s ++ (if intr then [] else delivered (kernel_msgs ps))).
Proof.
  intros Hps. revert intr s. induction Hps as [|[from ms] ps Hp Hps IH]; intros intr s.
  { rewrite orb_false_r. by destruct intr; rewrite app_nil_r. }
  rewrite fmap_cons. cbn [app dgram dump_loop fst snd]. unfold kernel_msgs. rewrite filter_cons. cbn [fst].
  destruct (fromKernel from) eqn:Ek; cbn [negb].
  2: { rewrite decide_False by (intros []). apply IH. }
  rewrite decide_True by done. rewrite fmap_cons. cbn [concat snd]. fold (kernel_msgs ps).
  destruct (Hp Ek) as (Hne & Hwf & Hend). cbn [snd] in *. cbv zeta. rewrite walk_enc by done.
  rewrite interrupted_app, delivered_app, <- (app_nil_r ms) at 1.
  destruct intr.
  - rewrite walk_no_end_drain by auto. cbn [orb walk_msgs mbind option_bind].
    destruct (interrupted_by ms); cbn [orb].
    + rewrite decide_True by done. by rewrite IH.
    + case_decide; by rewrite IH.
  - rewrite walk_no_end by done. cbn [orb walk_msgs mbind option_bind].
    destruct (interrupted_by ms) eqn:Ei; cbn [orb].
    + rewrite decide_True by done. rewrite IH. cbn [orb]. by rewrite !app_nil_r.
    + case_decide; [done|]. rewrite IH. by rewrite <- app_assoc.
Qed.

Lemma dump_closes ps from ms done_ tail rest :
  Forall open_dgram ps -> fromKernel from = true -> Forall wf_nlmsg (ms ++ done_ :: tail) -> no_end ms ->
  nm_Seq done_ = seq -> nm_Type done_ = NLMSG_DONE ->
  dump_loop seq (Some record) false
    ((dgram <$> ps) ++ dgram (from, ms ++ done_ :: tail) :: rest) false [] =
  Some (Returned (delivered (kernel_msgs ps ++ ms),
    if interrupted_by (kernel_msgs ps ++ ms ++ [done_]) then Some ErrDumpInterrupted else None) rest).
Proof.
  intros Hps Hk Hwf Hend Hseq Hty. rewrite dump_open by done. cbn [orb app dgram dump_loop fst snd].
  rewrite Hk. cbn [negb]. cbv zeta. rewrite walk_enc by (done || by destruct ms).
  rewrite !interrupted_app, delivered_app. cbn [interrupted_by existsb]. fold (interrupted_by ms).
  assert (ours done_ = true) as -> by (by apply bool_decide_true).
  assert (forall onMsg i s, walk_msgs (S := list (NlMsgHdr * bytes)) seq onMsg false (done_ :: tail) i s =
    Some (s, true, if i || is_interrupt done_ then Some ErrDumpInterrupted else None)) as Hdone.
  { intros. cbn [walk_msgs]. rewrite decide_False by (intros Hx; done). cbv zeta.
    rewrite decide_True by done. by case_match. }
  rewrite orb_false_r. cbn [andb]. destruct (interrupted_by (kernel_msgs ps)) eqn:Ei.
  - rewrite walk_no_end_drain, Hdone by auto. cbn [orb mbind option_bind]. rewrite !app_nil_r.
    by destruct (interrupted_by ms || is_interrupt done_).
  - rewrite walk_no_end, Hdone by done. cbn [orb mbind option_bind].
    by destruct (interrupted_by ms || is_interrupt done_).
Qed.
End Dump.

(** ** Claims *)

(** On any datagram and with any callback that does not panic, the walk over
    its messages terminates without panicking. *)
Theorem walkNlMsgsHdr_total {S} data seq (onMsg : option (NlMsgHdr -> bytes -> S -> go (S * option err))) doneErr s :
  (forall f h b s, onMsg = Some f -> is_Some (f h b s)) ->
  is_Some (walkNlMsgsHdr data seq onMsg doneErr s).
Proof.
  intros Hf. unfold walkNlMsgsHdr. case_decide; [by eexists|]. apply walk_loop_total; [done|lia].
Qed.

Lemma walkNlMsgsHdr_total_witness :
  is_Some (walkNlMsgsHdr (replicate 24 255) 7 (Some record) true []) /\
  walkNlMsgsHdr (replicate 24 255) 7 (Some record) true [] = Some ([], false, Some ErrBadMsgLen).
Proof.
  split; [|vm_compute; reflexivity].
  apply (walkNlMsgsHdr_total (replicate 24 255) 7 (Some record) true []).
  intros f h b s E. injection E as <-. eexists. reflexivity.
Defined.

(** A dump driven over any split of the reply stream into datagrams: however
    replies to other requests and datagrams from other senders are interleaved,
    the callback gets exactly this dump's data messages, each once, in the
    kernel's order; the call returns at the dump's NLMSG_DONE with everything
    after that datagram unread; and if any of the dump's messages is flagged
    interrupted the call still drains to NLMSG_DONE, delivers nothing from the
    flagged message on and returns ErrDumpInterrupted. *)
Theorem dump_delivers request seq ps from ms done_ tail rest :
  NlMsgHdrSizeCst <= glen request -> le_at 4 request 8 = seq ->
  Forall (open_dgram seq) ps -> fromKernel from = true ->
  Forall wf_nlmsg (ms ++ done_ :: tail) -> no_end seq ms ->
  nm_Seq done_ = seq -> nm_Type done_ = NLMSG_DONE ->
  let all := kernel_msgs ps ++ ms in
  DumpRtnetlinkMsgs request None (Some record)
    ((dgram <$> ps) ++ dgram (from, ms ++ done_ :: tail) :: rest) [] =
  Some (Returned (delivered seq all,
    if interrupted_by seq (kernel_msgs ps ++ ms ++ [done_]) then Some ErrDumpInterrupted else None) rest) /\
  (interrupted_by seq all = false ->
    delivered seq all = (fun m => (nm_hdr m, nm_Body m)) <$> filter is_data (filter (ours seq) all)).
Proof.
  intros Hr Hq Hps Hk Hwf Hend Hs Ht all. unfold NlMsgHdrSizeCst in Hr. split; [|apply delivered_all].
  unfold DumpRtnetlinkMsgs, dumpRtnetlinkMsgs, NlMsgHdrSizeCst. rewrite decide_False by lia.
  rewrite LE32_ok by lia. cbn [mbind option_bind]. rewrite Hq. by apply dump_closes.
Qed.

Definition demo_msg (ty flags seq : Z) (body : bytes) : nlmsg := mkNlmsg ty flags seq 0 body.
Definition demo_request : bytes := message_bytes RTM_GETADDR 769 5 (make 8) [].
(** A stale DONE, a peer's datagram, two replies in two datagrams. *)
Definition demo_dgrams : list (option Z * list nlmsg) :=
  [(Some 0, [demo_msg NLMSG_DONE 0 4 (make 4); demo_msg 20 2 5 [1; 2; 3]]);
   (Some 77, [demo_msg NLMSG_DONE 2 5 (make 4)])].

Lemma dump_delivers_witness :
  DumpRtnetlinkMsgs demo_request None (Some record)
    ((dgram <$> demo_dgrams) ++
     dgram (Some 0, [demo_msg 20 2 5 [7]; demo_msg NLMSG_DONE 2 5 (make 4)]) :: [RecvErr 11]) [] =
  Some (Returned ([(mkNlMsgHdr 19 20 2 5 0, [1; 2; 3]); (mkNlMsgHdr 17 20 2 5 0, [7])], None) [RecvErr 11]).
Proof.
  pose proof (dump_delivers demo_request 5 demo_dgrams (Some 0) [demo_msg 20 2 5 [7]]
    (demo_msg NLMSG_DONE 2 5 (make 4)) [] [RecvErr 11]) as H.
  apply H.
  - vm_compute. discriminate.
  - vm_compute. reflexivity.
  - repeat (apply Forall_cons_2 || apply Forall_nil_2); intros Hk; try (vm_compute in Hk; discriminate).
    split; [discriminate|]. split.
    + repeat (apply Forall_cons_2 || apply Forall_nil_2); split; vm_compute; (reflexivity || split; (discriminate || reflexivity)).
    + repeat (apply Forall_cons_2 || apply Forall_nil_2); vm_compute; intros; (reflexivity || discriminate).
  - reflexivity.
  - repeat (apply Forall_cons_2 || apply Forall_nil_2); split; vm_compute; (reflexivity || split; (discriminate || reflexivity)).
  - repeat (apply Forall_cons_2 || apply Forall_nil_2); vm_compute; intros; (reflexivity || discriminate).
  - reflexivity.
  - reflexivity.
Defined.
