(* ===== verification/NlEnvelope.v ===== *)
(** Netlink control messages (pkg/xtcpnl): the strict walk over a datagram's
    envelopes (xtcpnl_envelope.go), the extended-ack decoder (xtcpnl_nlmsgerr.go)
    and what the single-reply talk of xtcpnl_rtnetlink.go returns. *)

From S2P Require Import Prelude NlHeaders RtAttr NlRequest NlWalk.

(** ** NetlinkEnvelope *)

Inductive NetlinkControl :=
  | NetlinkData | NetlinkACK | NetlinkError | NetlinkDone | NetlinkNoop | NetlinkOverrun.

Record NetlinkEnvelope := mkEnvelope {
  ev_Header : NlMsgHdr; ev_Body : bytes; ev_Control : NetlinkControl; ev_Code : Z }.

Definition classify (e : NetlinkEnvelope) : go (NetlinkEnvelope * option err) :=
  let h := ev_Header e in
  let b := ev_Body e in
  let ty := nlh_Type h in
  if decide (ty = NLMSG_ERROR) then
    if decide (glen b < 4) then Some (e, Some ErrNetlinkError) else
    v ← le_uint 4 b;
    let code := int32 v in
    Some (mkEnvelope h b (if decide (code = 0) then NetlinkACK else NetlinkError) code, None)
  else if decide (ty = NLMSG_DONE) then
    let e := mkEnvelope h b NetlinkDone (ev_Code e) in
    if decide (glen b <> 0) then
      if decide (glen b < 4) then Some (e, Some ErrNetlinkError) else
      v ← le_uint 4 b;
      Some (mkEnvelope h b NetlinkDone (int32 v), None)
    else Some (e, None)
  else if decide (ty = NLMSG_NOOP) then Some (mkEnvelope h b NetlinkNoop (ev_Code e), None)
  else if decide (ty = NLMSG_OVERRUN) then Some (mkEnvelope h b NetlinkOverrun (ev_Code e), None)
  else Some (mkEnvelope h b NetlinkData (ev_Code e), None).

Section Envelopes.
Context {S : Type} (visit : option (NetlinkEnvelope -> S -> go (S * option err))).

(** Each envelope takes at least 16 bytes. *)
Fixpoint WalkNetlinkEnvelopes_loop (fuel : nat) (data : bytes) (s : S) : go (S * option err) :=
  match fuel with
  | O => None
  | Datatypes.S fuel =>
      if decide (glen data <> 0) then
        '(h, _, derr) ← DeserializeNlMsgHdr data {| nlh_Len := 0; nlh_Type := 0; nlh_Flags := 0; nlh_Seq := 0; nlh_Pid := 0 |};
        match derr with
        | Some e => Some (s, Some e)
        | None =>
            let n := nlh_Len h in
            if decide (n < NlMsgHdrSizeCst \/ glen data < n) then Some (s, Some ErrBadMsgLen) else
            body ← slice data NlMsgHdrSizeCst n;
            '(e, cerr) ← classify (mkEnvelope h body NetlinkData 0);
            match cerr with
            | Some e => Some (s, Some e)
            | None =>
                let advance := n + FourByteAlignPadding n in
                if decide (n <> glen data /\ glen data < advance) then Some (s, Some ErrBadMsgLen) else
                let advance := if decide (n = glen data) then n else advance in
                '(s, verr) ← match visit with Some f => f e s | None => Some (s, None) end;
                match verr with
                | Some e => Some (s, Some e)
                | None => rest ← slice data advance (glen data); WalkNetlinkEnvelopes_loop fuel rest s
                end
            end
        end
      else Some (s, None)
  end.

Definition WalkNetlinkEnvelopes (data : bytes) (s : S) : go (S * option err) :=
  if decide (glen data < NlMsgHdrSizeCst) then Some (s, Some ErrShortRecv) else
  WalkNetlinkEnvelopes_loop (Datatypes.S (length data)) data s.
End Envelopes.

(** ** ParseNlMsgErr *)

Record NlMsgErr := mkNlMsgErr {
  ne_Errno : Z; ne_RequestType : Z; ne_RequestFlags : Z; ne_RequestSeq : Z; ne_Capped : bool;
  ne_Msg : bytes; ne_HasMsg : bool; ne_Offset : Z; ne_HasOffset : bool }.

Definition zeroNlMsgErr : NlMsgErr := mkNlMsgErr 0 0 0 0 false [] false 0 false.

Definition nlMsgErrFixedCst : Z := 4 + NlMsgHdrSizeCst.
Definition NLMSGERR_ATTR_MSG : Z := 1.
Definition NLMSGERR_ATTR_OFFS : Z := 2.

(** The package's own [nlmsgAlign]. *)
Definition nlmsgAlign_nl (n : Z) : Z := Z.ldiff (n + 3) 3.

(** [strings.TrimRight(s, "\x00")] *)
Fixpoint trim_zeros (r : bytes) : bytes :=
  match r with
  | b :: r' => if decide (b = 0) then trim_zeros r' else r
  | [] => []
  end.
Definition TrimRight0 (s : bytes) : bytes := reverse (trim_zeros (reverse s)).

Definition nlmsgerr_attr (atype : Z) (val : bytes) (e : NlMsgErr) : go NlMsgErr :=
  if decide (atype = NLMSGERR_ATTR_MSG) then
    Some {| ne_Errno := ne_Errno e; ne_RequestType := ne_RequestType e;
            ne_RequestFlags := ne_RequestFlags e; ne_RequestSeq := ne_RequestSeq e;
            ne_Capped := ne_Capped e; ne_Msg := TrimRight0 val; ne_HasMsg := true;
            ne_Offset := ne_Offset e; ne_HasOffset := ne_HasOffset e |}
  else if decide (atype = NLMSGERR_ATTR_OFFS) then
    if decide (4 <= glen val) then
      v ← le_uint 4 val;
      Some {| ne_Errno := ne_Errno e; ne_RequestType := ne_RequestType e;
              ne_RequestFlags := ne_RequestFlags e; ne_RequestSeq := ne_RequestSeq e;
              ne_Capped := ne_Capped e; ne_Msg := ne_Msg e; ne_HasMsg := ne_HasMsg e;
              ne_Offset := v; ne_HasOffset := true |}
    else Some e
  else Some e.

Definition ParseNlMsgErr (flags : Z) (body : bytes) : go (NlMsgErr * option err) :=
  if decide (glen body < nlMsgErrFixedCst) then Some (zeroNlMsgErr, Some ErrNlMsgErrShort) else
  errno ← LE32 body 0 4;
  ty ← LE16 body 8 10;
  fl ← LE16 body 10 12;
  seq ← LE32 body 12 16;
  let capped := bool_decide (Z.land flags NLM_F_CAPPED <> 0) in
  let e := mkNlMsgErr (int32 errno) ty fl seq capped [] false 0 false in
  rest ← slice body nlMsgErrFixedCst (glen body);
  let finish (rest : bytes) : go (NlMsgErr * option err) :=
    if decide (Z.land flags NLM_F_ACK_TLVS = 0) then Some (e, None) else
    '(e, werr) ← WalkRTAttrs nlmsgerr_attr rest e;
    match werr with
    | Some er => Some (zeroNlMsgErr, Some er)
    | None => Some (e, None)
    end in
  if capped then finish rest else
  reqLen ← LE32 body 4 8;
  if decide (reqLen < NlMsgHdrSizeCst) then Some (zeroNlMsgErr, Some ErrNlMsgErrShort) else
  let echoed := nlmsgAlign_nl (reqLen - NlMsgHdrSizeCst) in
  if decide (glen rest < echoed) then Some (zeroNlMsgErr, Some ErrNlMsgErrShort) else
  rest ← slice rest echoed (glen rest);
  finish rest.

(** ** Lemmas *)

Lemma nlmsgAlign_nl_eq n : nlmsgAlign_nl n = nlmsgAlign n.
Proof. unfold nlmsgAlign_nl, nlmsgAlign, nlmsgAlignToCst. f_equal; lia. Qed.

Lemma le_uint_ok n b : Z.of_nat n <= glen b -> le_uint n b = Some (le_at n b 0).
Proof. intros H. unfold le_uint. rewrite decide_True by (unfold glen in *; lia). done. Qed.

Lemma TrimRight0_nul s k : last s <> Some 0 -> TrimRight0 (s ++ replicate k 0) = s.
Proof.
  intros Hs. unfold TrimRight0. rewrite reverse_app, reverse_replicate.
  induction k as [|k IH]; [|exact IH]. cbn [replicate app].
  destruct s as [|x s _] using rev_ind; [done|]. rewrite last_snoc in Hs. rewrite reverse_snoc.
  cbn [trim_zeros]. rewrite decide_False by congruence. rewrite <- reverse_snoc. apply reverse_involutive.
Qed.

Lemma nlmsgerr_attr_total t v e : is_Some (nlmsgerr_attr t v e).
Proof.
  unfold nlmsgerr_attr. case_decide; [by eexists|]. case_decide; [|by eexists].
  case_decide; [|by eexists]. rewrite le_uint_ok by (simpl; lia). by eexists.
Qed.

(** What a message is classified as. *)
Definition envelope_of (m : nlmsg) : NetlinkEnvelope :=
  let code := if decide (glen (nm_Body m) < 4) then 0 else int32 (le_at 4 (nm_Body m) 0) in
  let ty := nm_Type m in
  let '(control, code) :=
    if decide (ty = NLMSG_ERROR) then (if decide (code = 0) then NetlinkACK else NetlinkError, code)
    else if decide (ty = NLMSG_DONE) then (NetlinkDone, code)
    else if decide (ty = NLMSG_NOOP) then (NetlinkNoop, 0)
    else if decide (ty = NLMSG_OVERRUN) then (NetlinkOverrun, 0) else (NetlinkData, 0) in
  mkEnvelope (nm_hdr m) (nm_Body m) control code.

(** A control message long enough for its status. *)
Definition classifiable (m : nlmsg) : Prop :=
  (nm_Type m = NLMSG_ERROR -> 4 <= glen (nm_Body m)) /\
  (nm_Type m = NLMSG_DONE -> nm_Body m = [] \/ 4 <= glen (nm_Body m)).

Lemma classify_ok m :
  classifiable m -> classify (mkEnvelope (nm_hdr m) (nm_Body m) NetlinkData 0) = Some (envelope_of m, None).
Proof.
  intros [He Hd]. unfold classify, envelope_of. cbn [ev_Header ev_Body ev_Code nm_hdr nlh_Type]. cbv zeta.
  destruct (decide (nm_Type m = NLMSG_ERROR)) as [Ht|_].
  { specialize (He Ht). rewrite !(decide_False (P := glen (nm_Body m) < 4)) by lia.
    rewrite le_uint_ok by (simpl; lia). done. }
  destruct (decide (nm_Type m = NLMSG_DONE)) as [Ht|_].
  { destruct (Hd Ht) as [->|H4]; [done|]. rewrite decide_True by lia.
    rewrite !(decide_False (P := glen (nm_Body m) < 4)) by lia. rewrite le_uint_ok by (simpl; lia). done. }
  by repeat case_decide.
Qed.

(** A visitor over the envelopes of a list of messages. *)
Fixpoint visit_envs {S} (f : NetlinkEnvelope -> S -> go (S * option err)) (ms : list nlmsg) (s : S)
    : go (S * option err) :=
  match ms with
  | [] => Some (s, None)
  | m :: ms =>
      '(s, e) ← f (envelope_of m) s;
      match e with Some e => Some (s, Some e) | None => visit_envs f ms s end
  end.
(** What a walk that was not stopped ends with: the error of a stray tail. *)
Definition with_tail {S} (tail : bytes) (r : S * option err) : S * option err :=
  (r.1, union r.2 (if decide (tail = []) then None else Some ErrNlMsgHdrSmall)).

Lemma envelopes_loop {S} f ms tail fuel (s : S) :
  Forall wf_nlmsg ms -> Forall classifiable ms -> (length ms < fuel)%nat -> glen tail < 16 ->
  WalkNetlinkEnvelopes_loop (Some f) fuel (enc_nlmsgs ms ++ tail) s = with_tail tail <$> visit_envs f ms s.
Proof.
  intros Hms Hc Ht Hg. revert fuel s Ht. induction Hms as [|m ms Hm Hms IH]; intros fuel s Hf.
  { destruct fuel; [simpl in Hf; lia|]. cbn [WalkNetlinkEnvelopes_loop enc_nlmsgs fmap list_fmap concat app visit_envs].
    destruct tail as [|b tail]; [done|]. rewrite glen_cons in *. pose proof (glen_nonneg tail).
    rewrite decide_True by lia. unfold DeserializeNlMsgHdr, NlMsgHdrSizeCst.
    rewrite decide_True by (rewrite glen_cons; lia). done. }
  apply Forall_cons in Hc as [Hcm Hc]. specialize (IH Hc).
  destruct fuel as [|fuel]; [simpl in Hf; lia|]. cbn [WalkNetlinkEnvelopes_loop].
  change (enc_nlmsgs (m :: ms)) with (enc_nlmsg m ++ enc_nlmsgs ms). rewrite <- app_assoc.
  set (rest := enc_nlmsgs ms ++ tail) in *.
  pose proof (enc_nlmsg_length m) as Hlen. pose proof (FourByteAlignPadding_bound (glen (nm_Body m))).
  pose proof (glen_nonneg (nm_Body m)). pose proof (glen_nonneg rest).
  rewrite decide_True by (rewrite glen_app; lia).
  rewrite DeserializeNlMsgHdr_ok by (unfold NlMsgHdrSizeCst; rewrite glen_app; lia).
  rewrite nlh_at_enc by done. cbn [mbind option_bind]. cbv zeta.
  change (nlh_Len (nm_hdr m)) with (16 + glen (nm_Body m)). change NlMsgHdrSizeCst with 16.
  rewrite decide_False by (rewrite glen_app; lia).
  rewrite (slice_ok _ 16 (16 + glen (nm_Body m))) by (rewrite ?glen_app; lia). cbn [mbind option_bind].
  rewrite (slice_mid (take 16 (enc_nlmsg m)) (nm_Body m)
    (replicate (Z.to_nat (FourByteAlignPadding (glen (nm_Body m)))) 0 ++ rest));
    [|unfold glen in *; rewrite length_take; lia|lia|apply enc_nlmsg_split].
  rewrite classify_ok by done. cbn [mbind option_bind]. rewrite padding_16.
  rewrite decide_False by (rewrite glen_app; lia). cbn [visit_envs].
  destruct (f (envelope_of m) s) as [[s' [e|]]|]; [unfold with_tail; cbn; by case_decide| |done]. cbn [mbind option_bind].
  assert ((if decide (16 + glen (nm_Body m) = glen (enc_nlmsg m ++ rest)) then 16 + glen (nm_Body m)
           else 16 + glen (nm_Body m) + FourByteAlignPadding (glen (nm_Body m))) = glen (enc_nlmsg m)) as ->.
  { pose proof (glen_app (enc_nlmsg m) rest).
    destruct (decide (16 + glen (nm_Body m) = glen (enc_nlmsg m ++ rest))); lia. }
  rewrite slice_ok by (rewrite ?glen_app; lia). cbn [mbind option_bind].
  rewrite take_ge by (unfold glen in *; rewrite length_drop, length_app; lia).
  unfold glen at 1. rewrite Nat2Z.id, drop_app_length. unfold rest. rewrite IH by (simpl in Hf; lia). done.
Qed.

Lemma enc_nlmsgs_length ms : (length ms <= length (enc_nlmsgs ms))%nat.
Proof.
  induction ms as [|m ms IH]; [done|]. change (enc_nlmsgs (m :: ms)) with (enc_nlmsg m ++ enc_nlmsgs ms).
  rewrite length_app. pose proof (enc_nlmsg_ge m). unfold glen in *. simpl. lia.
Qed.

Lemma WalkNetlinkEnvelopes_walk {S} f ms tail (s : S) :
  ms <> [] -> Forall wf_nlmsg ms -> Forall classifiable ms -> glen tail < 16 ->
  WalkNetlinkEnvelopes (Some f) (enc_nlmsgs ms ++ tail) s = with_tail tail <$> visit_envs f ms s.
Proof.
  intros Hne Hms Hc Ht. unfold WalkNetlinkEnvelopes, NlMsgHdrSizeCst.
  destruct ms as [|m ms]; [done|]. rewrite decide_False.
  - apply envelopes_loop; [done|done| |done]. pose proof (enc_nlmsgs_length (m :: ms)). rewrite length_app. lia.
  - change (enc_nlmsgs (m :: ms)) with (enc_nlmsg m ++ enc_nlmsgs ms). pose proof (enc_nlmsg_ge m).
    rewrite !glen_app. glen_pos. lia.
Qed.

(** A visitor that records what it is given. *)
Definition record_env (e : NetlinkEnvelope) (s : list NetlinkEnvelope)
    : go (list NetlinkEnvelope * option err) := Some (s ++ [e], None).
Lemma record_envs ms s : visit_envs record_env ms s = Some (s ++ (envelope_of <$> ms), None).
Proof.
  revert s. induction ms as [|m ms IH]; intros s; cbn; [by rewrite app_nil_r|]. by rewrite IH, <- app_assoc.
Qed.

(** Messages of other requests are passed over. *)
Lemma walk_foreign {S} seq onMsg doneErr ms rest intr (s : S) :
  Forall (fun m => nm_Seq m <> seq) ms ->
  walk_msgs seq onMsg doneErr (ms ++ rest) intr s = walk_msgs seq onMsg doneErr rest intr s.
Proof.
  induction 1 as [|m ms Hm Hms IH]; [done|]. cbn [app walk_msgs]. by rewrite decide_True.
Qed.

Lemma talk_skip seq ps rest :
  Forall (fun p => fromKernel p.1 = true -> p.2 <> [] /\ Forall wf_nlmsg p.2 /\
    Forall (fun m => nm_Seq m <> seq) p.2) ps ->
  talk_loop seq ((dgram <$> ps) ++ rest) = talk_loop seq rest.
Proof.
  induction 1 as [|[from ms] ps Hp Hps IH]; [done|]. rewrite fmap_cons. cbn [app dgram talk_loop fst snd] in *.
  destruct (fromKernel from); cbn [negb]; [|exact IH]. destruct (Hp eq_refl) as (Hne & Hwf & Hms).
  unfold WalkNlMsgs, WalkNlMsgsHdr. rewrite walk_enc by done. rewrite <- (app_nil_r ms), walk_foreign by done.
  cbn [walk_msgs mbind option_bind]. by rewrite decide_False.
Qed.

Lemma netlinkErr_not_stop body : netlinkErr body <> Some (Some errTalkStopCst).
Proof.
  unfold netlinkErr. case_decide; [done|]. rewrite LE32_ok by lia. cbn [mbind option_bind]. cbv zeta.
  by case_decide.
Qed.

(** ** Claims *)

(** The strict envelope walk over the kernel's encoding of any messages
    whose control messages carry their status visits every one of them in order,
    with its whole header and body, its kind and its signed status, and succeeds
    exactly when nothing is left over: a stray tail shorter than a header is
    ErrNlMsgHdrSmall. *)
Theorem WalkNetlinkEnvelopes_spec ms tail :
  ms <> [] -> Forall wf_nlmsg ms -> Forall classifiable ms -> glen tail < NlMsgHdrSizeCst ->
  WalkNetlinkEnvelopes (Some record_env) (enc_nlmsgs ms ++ tail) [] =
    Some (envelope_of <$> ms, if decide (tail = []) then None else Some ErrNlMsgHdrSmall).
Proof.
  unfold NlMsgHdrSizeCst. intros. rewrite WalkNetlinkEnvelopes_walk, record_envs by done.
  unfold with_tail. cbn. by case_decide.
Qed.

Lemma WalkNetlinkEnvelopes_spec_witness :
  WalkNetlinkEnvelopes (Some record_env)
    (enc_nlmsgs [demo_msg 16 2 1 [5]; demo_msg NLMSG_ERROR 0 1 [254; 255; 255; 255]; demo_msg NLMSG_DONE 2 1 []] ++ [0]) [] =
  Some ([mkEnvelope (mkNlMsgHdr 17 16 2 1 0) [5] NetlinkData 0;
         mkEnvelope (mkNlMsgHdr 20 2 0 1 0) [254; 255; 255; 255] NetlinkError (-2);
         mkEnvelope (mkNlMsgHdr 16 3 2 1 0) [] NetlinkDone 0], Some ErrNlMsgHdrSmall).
Proof.
  apply (WalkNetlinkEnvelopes_spec [demo_msg 16 2 1 [5]; demo_msg NLMSG_ERROR 0 1 [254; 255; 255; 255];
    demo_msg NLMSG_DONE 2 1 []] [0]).
  - discriminate.
  - repeat (apply Forall_cons_2 || apply Forall_nil_2); split; vm_compute; (reflexivity || split; (discriminate || reflexivity)).
  - repeat (apply Forall_cons_2 || apply Forall_nil_2); split; vm_compute; intros; (discriminate || (by left)).
  - vm_compute. reflexivity.
Defined.

(** What a reply means to the caller. *)
Definition talk_reply (m : nlmsg) : Z * option bytes * option err :=
  if decide (nm_Type m = NLMSG_DONE) then (0, None, None)
  else if decide (nm_Type m = NLMSG_ERROR) then (0, None, default None (netlinkErr (nm_Body m)))
  else (nm_Type m, CopyBytes (nm_Body m), None).

(** A single-reply request returns the first reply that is for it and is
    not flagged interrupted, whatever foreign datagrams and messages come before
    it: a data message's type and a copy of its body, nothing for an ACK or a
    DONE, and the errno of an NLMSG_ERROR; the rest stays unread. *)
Theorem TalkRtnetlink_spec request seq ps from ms m tail rest :
  NlMsgHdrSizeCst <= glen request -> le_at 4 request 8 = seq ->
  Forall (fun p => fromKernel p.1 = true -> p.2 <> [] /\ Forall wf_nlmsg p.2 /\
    Forall (fun m => nm_Seq m <> seq) p.2) ps ->
  fromKernel from = true -> Forall wf_nlmsg (ms ++ m :: tail) -> Forall (fun m => nm_Seq m <> seq) ms ->
  nm_Seq m = seq -> is_interrupt m = false -> nm_Type m <> NLMSG_NOOP ->
  TalkRtnetlink request None ((dgram <$> ps) ++ dgram (from, ms ++ m :: tail) :: rest) =
  Some (Returned (talk_reply m) rest).
Proof.
  intros Hr Hq Hps Hk Hwf Hms Hs Hi Hn. unfold NlMsgHdrSizeCst in Hr. unfold talk_reply, TalkRtnetlink, NlMsgHdrSizeCst.
  rewrite decide_False by lia. rewrite LE32_ok by lia. cbn [mbind option_bind]. rewrite Hq.
  rewrite talk_skip by done. cbn [dgram talk_loop fst snd]. rewrite Hk. cbn [negb].
  unfold WalkNlMsgs, WalkNlMsgsHdr. rewrite walk_enc by (done || by destruct ms).
  rewrite walk_foreign by done. cbn [walk_msgs]. rewrite decide_False by (intros Hx; done).
  rewrite Hi. cbv zeta. cbn [orb].
  case_decide as Hd; [done|]. case_decide as He.
  - destruct (netlinkErr_total (nm_Body m)) as [e Hee]. rewrite Hee. cbn [mbind option_bind default].
    rewrite decide_False by (intros ->; by apply netlinkErr_not_stop in Hee). by destruct e.
  - by rewrite decide_False by done.
Qed.

Lemma TalkRtnetlink_spec_witness :
  TalkRtnetlink demo_request None
    ((dgram <$> [(Some 9, []); (None, [demo_msg 18 0 4 []])]) ++
     dgram (Some 0, [demo_msg 3 0 6 []; demo_msg NLMSG_ERROR 0 5 [237; 255; 255; 255]]) :: []) =
  Some (Returned (0, None, Some (Errno 19)) []).
Proof.
  apply (TalkRtnetlink_spec demo_request 5 [(Some 9, []); (None, [demo_msg 18 0 4 []])] (Some 0)
    [demo_msg 3 0 6 []] (demo_msg NLMSG_ERROR 0 5 [237; 255; 255; 255]) [] []).
  - vm_compute. discriminate.
  - vm_compute. reflexivity.
  - repeat (apply Forall_cons_2 || apply Forall_nil_2); intros Hk; try (vm_compute in Hk; discriminate).
    split; [discriminate|]. split; repeat (apply Forall_cons_2 || apply Forall_nil_2); [|discriminate].
    split; vm_compute; (reflexivity || split; (discriminate || reflexivity)).
  - reflexivity.
  - repeat (apply Forall_cons_2 || apply Forall_nil_2); split; vm_compute; (reflexivity || split; (discriminate || reflexivity)).
  - repeat (apply Forall_cons_2 || apply Forall_nil_2); discriminate.
  - reflexivity.
  - reflexivity.
  - discriminate.
Defined.

(** *** The extended ack *)

(** The body of an NLMSG_ERROR as netlink_ack writes it for request [req]: the
    errno, the request's header, its payload unless capped, the attributes. *)
Definition ack_attrs (msg : option bytes) (offs : option Z) : list (Z * bytes) :=
  match msg with Some s => [(NLMSGERR_ATTR_MSG, s ++ [0])] | None => [] end ++
  match offs with Some o => [(NLMSGERR_ATTR_OFFS, le_split 4 o)] | None => [] end.
Definition ack_body (errno : Z) (req : nlmsg) (capped : bool) (attrs : list (Z * bytes)) : bytes :=
  le_split 4 (uint32 errno) ++
  (le_split 4 (16 + glen (nm_Body req)) ++ le_split 2 (nm_Type req) ++ le_split 2 (nm_Flags req) ++
   le_split 4 (nm_Seq req) ++ le_split 4 (nm_Pid req)) ++
  (if capped then [] else pad (nm_Body req)) ++ enc_attrs attrs.

Lemma int32_uint32 z : - 2 ^ 31 <= z < 2 ^ 31 -> int32 (uint32 z) = z.
Proof.
  intros Hz. unfold int32, uint32. rewrite Z.mod_mod by done. cbv zeta.
  destruct (decide (0 <= z)).
  - rewrite Z.mod_small by lia. rewrite decide_True by lia. done.
  - replace (z mod 2 ^ 32) with (z + 2 ^ 32).
    + rewrite decide_False by lia. lia.
    + rewrite <- (Z.mod_add z 1) by done. rewrite Z.mod_small; lia.
Qed.

Lemma ack_walk msg offs e :
  match msg with Some s => 5 + glen s < 2 ^ 16 /\ last s <> Some 0 | None => True end ->
  match offs with Some o => 0 <= o < 2 ^ 32 | None => True end ->
  ne_Msg e = [] -> ne_HasMsg e = false -> ne_Offset e = 0 -> ne_HasOffset e = false ->
  WalkRTAttrs nlmsgerr_attr (enc_attrs (ack_attrs msg offs)) e =
    Some ({| ne_Errno := ne_Errno e; ne_RequestType := ne_RequestType e;
             ne_RequestFlags := ne_RequestFlags e; ne_RequestSeq := ne_RequestSeq e;
             ne_Capped := ne_Capped e; ne_Msg := default [] msg; ne_HasMsg := bool_decide (is_Some msg);
             ne_Offset := default 0 offs; ne_HasOffset := bool_decide (is_Some offs) |}, None).
Proof.
  intros Hm Ho E1 E2 E3 E4. rewrite WalkRTAttrs_eq, parse_attrs_enc.
  - assert (forall s e, last s <> Some 0 -> nlmsgerr_attr NLMSGERR_ATTR_MSG (s ++ [0]) e =
      Some {| ne_Errno := ne_Errno e; ne_RequestType := ne_RequestType e;
              ne_RequestFlags := ne_RequestFlags e; ne_RequestSeq := ne_RequestSeq e;
              ne_Capped := ne_Capped e; ne_Msg := s; ne_HasMsg := true;
              ne_Offset := ne_Offset e; ne_HasOffset := ne_HasOffset e |}) as Hmsg.
    { intros s e' Hs. unfold nlmsgerr_attr. rewrite decide_True by done.
      change [0] with (replicate 1 0). by rewrite TrimRight0_nul. }
    assert (forall o e, 0 <= o < 2 ^ 32 -> nlmsgerr_attr NLMSGERR_ATTR_OFFS (le_split 4 o) e =
      Some {| ne_Errno := ne_Errno e; ne_RequestType := ne_RequestType e;
              ne_RequestFlags := ne_RequestFlags e; ne_RequestSeq := ne_RequestSeq e;
              ne_Capped := ne_Capped e; ne_Msg := ne_Msg e; ne_HasMsg := ne_HasMsg e;
              ne_Offset := o; ne_HasOffset := true |}) as Hoff.
    { intros o e' Hr. unfold nlmsgerr_attr. rewrite decide_False, decide_True, decide_True by done.
      rewrite le_uint_ok by done. cbn [mbind option_bind]. do 2 f_equal.
      rewrite <- (app_nil_r (le_split 4 o)). by apply le_at_split. }
    cbn [fst snd]. unfold ack_attrs. rewrite fmap_app.
    destruct msg as [s|], offs as [o|]; cbn [fmap list_fmap app];
      unfold masked; cbn [fst snd visit_attrs];
      change (Z.land NLMSGERR_ATTR_MSG NlaTypeMaskCst) with NLMSGERR_ATTR_MSG;
      change (Z.land NLMSGERR_ATTR_OFFS NlaTypeMaskCst) with NLMSGERR_ATTR_OFFS;
      rewrite ?Hmsg by apply Hm; cbn [mbind option_bind]; rewrite ?Hoff by done;
      destruct e; cbn in *; subst; reflexivity.
  - unfold ack_attrs. apply Forall_app. split.
    + destruct msg; [|constructor]. apply Forall_singleton. split; [done|]. cbn [snd].
      rewrite glen_app, glen_cons, glen_nil. lia.
    + destruct offs; [|constructor]. by apply Forall_singleton.
Qed.

Lemma cut_prefix (x y l : bytes) :
  x ++ y = l -> take (Z.to_nat (glen l - glen x)) (drop (Z.to_nat (glen x)) l) = y.
Proof. intros <-. rewrite glen_app. unfold glen. rewrite Nat2Z.id, drop_app_length, take_ge by lia. done. Qed.
Lemma glen_ack_fixed errno req : glen (le_split 4 (uint32 errno) ++ le_split 4 (16 + glen (nm_Body req)) ++
  le_split 2 (nm_Type req) ++ le_split 2 (nm_Flags req) ++ le_split 4 (nm_Seq req) ++ le_split 4 (nm_Pid req)) = 20.
Proof. by rewrite !glen_app, !glen_le_split. Qed.

(** The extended ack decodes what the kernel encodes: for any request, errno,
    message and offset, whether the request's payload is echoed or capped, the
    decoder returns the errno, the request's type, flags and sequence number,
    and, when the flags announce attributes, the message without its NUL and the
    offset; without that flag it ignores them. *)
Theorem ParseNlMsgErr_ack flags errno req msg offs :
  - 2 ^ 31 <= errno < 2 ^ 31 -> wf_nlmsg req ->
  match msg with Some s => 5 + glen s < 2 ^ 16 /\ last s <> Some 0 | None => True end ->
  match offs with Some o => 0 <= o < 2 ^ 32 | None => True end ->
  let capped := bool_decide (Z.land flags NLM_F_CAPPED <> 0) in
  let tlvs := bool_decide (Z.land flags NLM_F_ACK_TLVS <> 0) in
  let msg' := if tlvs then msg else None in
  let offs' := if tlvs then offs else None in
  ParseNlMsgErr flags (ack_body errno req capped (ack_attrs msg offs)) =
    Some ({| ne_Errno := errno; ne_RequestType := nm_Type req; ne_RequestFlags := nm_Flags req;
             ne_RequestSeq := nm_Seq req; ne_Capped := capped; ne_Msg := default [] msg';
             ne_HasMsg := bool_decide (is_Some msg'); ne_Offset := default 0 offs';
             ne_HasOffset := bool_decide (is_Some offs') |}, None).
Proof.
  intros Herr [W1 W2 W3 W4 W5] Hm Ho capped tlvs msg' offs'. unfold NlMsgHdrSizeCst in W1.
  set (attrs := enc_attrs (ack_attrs msg offs)).
  set (echo := if capped then [] else pad (nm_Body req)).
  set (fixed := le_split 4 (uint32 errno) ++ le_split 4 (16 + glen (nm_Body req)) ++ le_split 2 (nm_Type req) ++
    le_split 2 (nm_Flags req) ++ le_split 4 (nm_Seq req) ++ le_split 4 (nm_Pid req)).
  assert (ack_body errno req capped (ack_attrs msg offs) = fixed ++ echo ++ attrs) as ->
    by (unfold ack_body, fixed; rewrite <- !app_assoc; done).
  assert (glen fixed = 20) as Hfix by apply glen_ack_fixed.
  set (body := fixed ++ echo ++ attrs).
  assert (glen body = 20 + glen echo + glen attrs) as Hbody by (unfold body; rewrite !glen_app; lia).
  pose proof (glen_nonneg echo). pose proof (glen_nonneg attrs). pose proof (glen_nonneg (nm_Body req)).
  assert (le_at 4 body 0 = uint32 errno /\ le_at 4 body 4 = 16 + glen (nm_Body req) /\
    le_at 2 body 8 = nm_Type req /\ le_at 2 body 10 = nm_Flags req /\ le_at 4 body 12 = nm_Seq req)
    as (R0 & R4 & R8 & R10 & R12).
  { unfold body, fixed. rewrite <- !app_assoc.
    split_and!; rewrite ?le_at_skip by lia; (apply le_at_split; [simpl; try lia|done]).
    unfold uint32. apply Z.mod_pos_bound. lia. }
  pose proof cut_prefix as Hcut.
  unfold ParseNlMsgErr, nlMsgErrFixedCst, NlMsgHdrSizeCst. change (4 + 16) with 20.
  rewrite decide_False by lia.
  rewrite (LE32_ok body 0 4), (LE16_ok body 8 10), (LE16_ok body 10 12), (LE32_ok body 12 16) by lia.
  cbn [mbind option_bind]. rewrite (slice_ok body 20) by lia. cbn [mbind option_bind]. cbv zeta.
  replace (take (Z.to_nat (glen body - 20)) (drop (Z.to_nat 20) body)) with (echo ++ attrs)
    by (rewrite <- Hfix; symmetry; by apply Hcut).
  rewrite R0, R8, R10, R12, int32_uint32 by done.
  set (e0 := mkNlMsgErr _ _ _ _ _ _ _ _ _).
  assert ((if decide (Z.land flags NLM_F_ACK_TLVS = 0) then Some (e0, None) else
    '(e, werr) ← WalkRTAttrs nlmsgerr_attr attrs e0;
    match werr with Some er => Some (zeroNlMsgErr, Some er) | None => Some (e, None) end) =
    Some ({| ne_Errno := errno; ne_RequestType := nm_Type req; ne_RequestFlags := nm_Flags req;
             ne_RequestSeq := nm_Seq req; ne_Capped := capped; ne_Msg := default [] msg';
             ne_HasMsg := bool_decide (is_Some msg'); ne_Offset := default 0 offs';
             ne_HasOffset := bool_decide (is_Some offs') |}, None)) as Hfin.
  { unfold msg', offs', tlvs. destruct (decide (Z.land flags NLM_F_ACK_TLVS = 0)) as [Ht|Ht].
    - rewrite bool_decide_false by (by intros []). done.
    - rewrite bool_decide_true by done. unfold attrs. rewrite ack_walk by done. done. }
  fold capped. destruct capped; [exact Hfin|].
  rewrite (LE32_ok body 4 8) by lia. cbn [mbind option_bind]. rewrite R4, decide_False by lia.
  assert (nlmsgAlign_nl (16 + glen (nm_Body req) - 16) = glen echo) as ->.
  { rewrite nlmsgAlign_nl_eq, nlmsgAlign_padding. unfold echo. rewrite pad_length.
    replace (16 + glen (nm_Body req) - 16) with (glen (nm_Body req)) by lia. done. }
  rewrite glen_app, decide_False by lia. rewrite slice_ok by (rewrite ?glen_app; lia). cbn [mbind option_bind].
  rewrite <- glen_app, (Hcut echo attrs (echo ++ attrs) eq_refl). exact Hfin.
Qed.

Lemma ParseNlMsgErr_ack_witness :
  ParseNlMsgErr 512 (ack_body (-22) (demo_msg 16 1541 9 [1; 2; 3]) false
    (ack_attrs (Some [98; 97; 100]) (Some 24))) =
  Some (mkNlMsgErr (-22) 16 1541 9 false [98; 97; 100] true 24 true, None).
Proof.
  apply (ParseNlMsgErr_ack 512 (-22) (demo_msg 16 1541 9 [1; 2; 3]) (Some [98; 97; 100]) (Some 24)).
  - split; [discriminate|reflexivity].
  - split; vm_compute; (reflexivity || split; (discriminate || reflexivity)).
  - split; [vm_compute; reflexivity|discriminate].
  - split; [discriminate|reflexivity].
Defined.
