(* ===== verification/RtParsers.v ===== *)
(** The rtnetlink reply parsers xtcp2's locality enrichment is built on
    (pkg/xtcpnl): addresses (xtcpnl_ifaddrmsg.go), neighbours (xtcpnl_ndmsg.go)
    and routes (xtcpnl_rtmsg.go, xtcpnl_rtnexthop.go, xtcpnl_rta_cacheinfo.go,
    xtcpnl_rta_mfc_stats.go).

    A parsed struct with many fields of one type keeps them as a function from
    the field's name, as [XtcpFlatRecord] does. *)

From stdpp Require Import functions.
From S2P Require Import Prelude NlHeaders RtAttr NlRequest NlEnvelope.

(** [binary.LittleEndian.Uint32(val[0:4])] under the guard [len(val) >= 4]:
    [k] on the value, or [Some d] when the payload is short. *)
Definition with_u32 {A} (val : bytes) (d : A) (k : Z -> A) : go A :=
  if decide (4 <= glen val) then v ← LE32 val 0 4; Some (k v) else Some d.

(** ** Addresses *)

Module Addr.

Record IfAddrmsg := mkIfAddrmsg {
  m_Family : Z; m_Prefixlen : Z; m_Flags : Z; m_Scope : Z; m_Index : Z }.
Definition IfAddrmsgReadCst : Z := IfAddrmsgSizeCst.

Definition DeserializeIfAddrmsg (data : bytes) (m : IfAddrmsg) : go (IfAddrmsg * Z * option err) :=
  if decide (glen data < IfAddrmsgSizeCst) then Some (m, 0, Some ErrIfAddrmsgSmall) else
  f ← index data 0;
  p ← index data 1;
  fl ← index data 2;
  sc ← index data 3;
  i ← LE32 data 4 8;
  Some (mkIfAddrmsg f p fl sc i, IfAddrmsgReadCst, None).

Record IfaCacheinfo := mkIfaCacheinfo { ci_Preferred : Z; ci_Valid : Z; ci_Cstamp : Z; ci_Tstamp : Z }.
Definition zeroCacheinfo : IfaCacheinfo := mkIfaCacheinfo 0 0 0 0.
Definition IfaCacheinfoSizeCst : Z := 16.
Definition IfaLifetimeInfinityCst : Z := 4294967295.

Definition DeserializeIfaCacheinfo (data : bytes) (m : IfaCacheinfo)
    : go (IfaCacheinfo * Z * option err) :=
  if decide (glen data < IfaCacheinfoSizeCst) then Some (m, 0, Some ErrIfaCacheinfoSmall) else
  p ← LE32 data 0 4;
  v ← LE32 data 4 8;
  c ← LE32 data 8 12;
  t ← LE32 data 12 16;
  Some (mkIfaCacheinfo p v c t, IfaCacheinfoSizeCst, None).

Inductive num := Family | Prefixlen | Scope | Index | Flags | Proto | RtPriority | McUsers.
Inductive has := HasProto | HasCacheInfo | HasRtPriority | HasMcUsers.
Inductive buf := Address | Local_ | Broadcast | Anycast | Multicast.
#[export] Instance num_eq : EqDecision num. Proof. solve_decision. Defined.
#[export] Instance has_eq : EqDecision has. Proof. solve_decision. Defined.
#[export] Instance buf_eq : EqDecision buf. Proof. solve_decision. Defined.

(** A nil slice is [None]. *)
Record AddrInfo := mkAddrInfo {
  ai_num : num -> Z; ai_has : has -> bool; ai_buf : buf -> option bytes; ai_Label : bytes;
  ai_CacheInfo : IfaCacheinfo }.

Definition zeroAddrInfo : AddrInfo :=
  mkAddrInfo (fun _ => 0) (fun _ => false) (fun _ => None) [] zeroCacheinfo.

Definition set_num (f : num) (v : Z) (ai : AddrInfo) : AddrInfo :=
  mkAddrInfo (<[f := v]> (ai_num ai)) (ai_has ai) (ai_buf ai) (ai_Label ai) (ai_CacheInfo ai).
Definition set_has (f : has) (ai : AddrInfo) : AddrInfo :=
  mkAddrInfo (ai_num ai) (<[f := true]> (ai_has ai)) (ai_buf ai) (ai_Label ai) (ai_CacheInfo ai).
Definition set_buf (f : buf) (v : option bytes) (ai : AddrInfo) : AddrInfo :=
  mkAddrInfo (ai_num ai) (ai_has ai) (<[f := v]> (ai_buf ai)) (ai_Label ai) (ai_CacheInfo ai).
Definition set_Label (v : bytes) (ai : AddrInfo) : AddrInfo :=
  mkAddrInfo (ai_num ai) (ai_has ai) (ai_buf ai) v (ai_CacheInfo ai).
Definition set_CacheInfo (v : IfaCacheinfo) (ai : AddrInfo) : AddrInfo :=
  mkAddrInfo (ai_num ai) (ai_has ai) (ai_buf ai) (ai_Label ai) v.

Definition IFA_ADDRESS : Z := 1.
Definition IFA_LOCAL : Z := 2.
Definition IFA_LABEL : Z := 3.
Definition IFA_BROADCAST : Z := 4.
Definition IFA_ANYCAST : Z := 5.
Definition IFA_CACHEINFO : Z := 6.
Definition IFA_MULTICAST : Z := 7.
Definition IFA_FLAGS : Z := 8.
Definition IFA_RT_PRIORITY : Z := 9.
Definition IfaProto : Z := 11.
Definition IfaMcUsers : Z := 12.

(** The switch of ParseNewAddr's callback. *)
Definition addr_attr (atype : Z) (val : bytes) (ai : AddrInfo) : go AddrInfo :=
  if decide (atype = IFA_ADDRESS) then Some (set_buf Address (CopyBytes val) ai) else
  if decide (atype = IFA_LOCAL) then Some (set_buf Local_ (CopyBytes val) ai) else
  if decide (atype = IFA_LABEL) then Some (set_Label (TrimRight0 val) ai) else
  if decide (atype = IFA_BROADCAST) then Some (set_buf Broadcast (CopyBytes val) ai) else
  if decide (atype = IFA_FLAGS) then with_u32 val ai (fun v => set_num Flags v ai) else
  if decide (atype = IfaProto) then
    if decide (1 <= glen val) then v ← index val 0; Some (set_has HasProto (set_num Proto v ai))
    else Some ai
  else
  if decide (atype = IFA_CACHEINFO) then
    '(ci, _, cerr) ← DeserializeIfaCacheinfo val zeroCacheinfo;
    match cerr with
    | None => Some (set_has HasCacheInfo (set_CacheInfo ci ai))
    | Some _ => Some ai
    end
  else
  if decide (atype = IFA_RT_PRIORITY) then
    with_u32 val ai (fun v => set_has HasRtPriority (set_num RtPriority v ai)) else
  if decide (atype = IFA_ANYCAST) then Some (set_buf Anycast (CopyBytes val) ai) else
  if decide (atype = IFA_MULTICAST) then Some (set_buf Multicast (CopyBytes val) ai) else
  if decide (atype = IfaMcUsers) then
    with_u32 val ai (fun v => set_has HasMcUsers (set_num McUsers v ai)) else
  Some ai.

Definition header_info (m : IfAddrmsg) : AddrInfo :=
  set_num Family (m_Family m) (set_num Prefixlen (m_Prefixlen m) (set_num Scope (m_Scope m)
    (set_num Index (m_Index m) (set_num Flags (m_Flags m) zeroAddrInfo)))).

(** IFA_LOCAL and IFA_ADDRESS stand in for each other when one is missing. *)
Definition alias (ai : AddrInfo) : AddrInfo :=
  let ai := match ai_buf ai Local_ with None => set_buf Local_ (ai_buf ai Address) ai | _ => ai end in
  match ai_buf ai Address with None => set_buf Address (ai_buf ai Local_) ai | _ => ai end.

Definition ParseNewAddr (body : bytes) : go (AddrInfo * option err) :=
  '(m, _, derr) ← DeserializeIfAddrmsg body (mkIfAddrmsg 0 0 0 0 0);
  match derr with
  | Some e => Some (zeroAddrInfo, Some e)
  | None =>
      attrs ← slice body IfAddrmsgSizeCst (glen body);
      '((_, ai), werr) ← WalkRTAttrs (guarded addr_attr) attrs (0, header_info m);
      match werr with
      | Some e => Some (zeroAddrInfo, Some e)
      | None => Some (alias ai, None)
      end
  end.

Definition IsPermanent (ai : AddrInfo) : bool :=
  if negb (ai_has ai HasCacheInfo) then true else
  bool_decide (ci_Valid (ai_CacheInfo ai) = IfaLifetimeInfinityCst) &&
  bool_decide (ci_Preferred (ai_CacheInfo ai) = IfaLifetimeInfinityCst).

Definition IsDeprecated (ai : AddrInfo) : bool :=
  ai_has ai HasCacheInfo && bool_decide (ci_Preferred (ai_CacheInfo ai) = 0) &&
  negb (bool_decide (ci_Valid (ai_CacheInfo ai) = 0)).

End Addr.

(** ** Neighbours *)

Module Neigh.

Record NdMsg := mkNdMsg {
  nd_Family : Z; nd_Pad1 : Z; nd_Pad2 : Z; nd_Ifindex : Z; nd_State : Z; nd_Flags : Z; nd_Type : Z }.
Definition NdaCacheInfoSizeCst : Z := 16.

Definition DeserializeNdMsg (data : bytes) (m : NdMsg) : go (NdMsg * Z * option err) :=
  if decide (glen data < NdMsgSizeCst) then Some (m, 0, Some ErrNdMsgSmall) else
  f ← index data 0;
  p1 ← index data 1;
  p2 ← LE16 data 2 4;
  i ← LE32 data 4 8;
  st ← LE16 data 8 10;
  fl ← index data NdMsgFlagsOffCst;
  ty ← index data 11;
  Some (mkNdMsg f p1 p2 (int32 i) st fl ty, NdMsgSizeCst, None).

Record NdaCacheInfo := mkNdaCacheInfo { nc_Confirmed : Z; nc_Used : Z; nc_Updated : Z; nc_Refcnt : Z }.

Definition DeserializeNdaCacheInfo (data : bytes) (c : NdaCacheInfo)
    : go (NdaCacheInfo * Z * option err) :=
  if decide (glen data < NdaCacheInfoSizeCst) then Some (c, 0, Some ErrNdaCacheInfoSmall) else
  a ← LE32 data 0 4;
  b ← LE32 data 4 8;
  u ← LE32 data 8 12;
  r ← LE32 data 12 16;
  Some (mkNdaCacheInfo a b u r, NdaCacheInfoSizeCst, None).

Record NeighInfo := mkNeighInfo {
  ni_Family : Z; ni_Ifindex : Z; ni_State : Z; ni_Flags : Z; ni_Type : Z;
  ni_Dst : option bytes; ni_LLAddr : option bytes; ni_FlagsExt : Z;
  ni_HasCacheInfo : bool; ni_CacheInfo : NdaCacheInfo; ni_Probes : Z; ni_HasProbes : bool }.
Definition zeroNeighInfo : NeighInfo :=
  mkNeighInfo 0 0 0 0 0 None None 0 false (mkNdaCacheInfo 0 0 0 0) 0 false.

(** The five attributes a neighbour keeps, updated one at a time. *)
Definition set_attrs (dst ll : option bytes) (ext : Z) (hc : bool) (ci : NdaCacheInfo) (pr : Z) (hp : bool)
    (ni : NeighInfo) : NeighInfo :=
  mkNeighInfo (ni_Family ni) (ni_Ifindex ni) (ni_State ni) (ni_Flags ni) (ni_Type ni) dst ll ext hc ci pr hp.

Definition NDA_LLADDR : Z := 2.
Definition NDA_CACHEINFO : Z := 3.
Definition NDA_PROBES : Z := 4.
Definition NdaFlagsExt : Z := 15.

Definition neigh_attr (atype : Z) (val : bytes) (ni : NeighInfo) : go NeighInfo :=
  let set dst ll ext hc ci pr hp := set_attrs dst ll ext hc ci pr hp ni in
  let '(dst, ll, ext) := (ni_Dst ni, ni_LLAddr ni, ni_FlagsExt ni) in
  let '(hc, ci, pr, hp) := (ni_HasCacheInfo ni, ni_CacheInfo ni, ni_Probes ni, ni_HasProbes ni) in
  if decide (atype = NDA_DST) then Some (set (CopyBytes val) ll ext hc ci pr hp) else
  if decide (atype = NDA_LLADDR) then Some (set dst (CopyBytes val) ext hc ci pr hp) else
  if decide (atype = NDA_CACHEINFO) then
    '(ci, _, cerr) ← DeserializeNdaCacheInfo val ci;
    match cerr with
    | None => Some (set dst ll ext true ci pr hp)
    | Some _ => Some (set dst ll ext hc ci pr hp)
    end
  else
  if decide (atype = NDA_PROBES) then with_u32 val ni (fun v => set dst ll ext hc ci v true) else
  if decide (atype = NdaFlagsExt) then with_u32 val ni (fun v => set dst ll v hc ci pr hp) else
  Some ni.

Definition ParseNeigh (body : bytes) : go (NeighInfo * option err) :=
  '(m, _, derr) ← DeserializeNdMsg body (mkNdMsg 0 0 0 0 0 0 0);
  match derr with
  | Some e => Some (zeroNeighInfo, Some e)
  | None =>
      attrs ← slice body NdMsgSizeCst (glen body);
      let ni := mkNeighInfo (nd_Family m) (nd_Ifindex m) (nd_State m) (nd_Flags m) (nd_Type m)
                  None None 0 false (mkNdaCacheInfo 0 0 0 0) 0 false in
      '((_, ni), werr) ← WalkRTAttrs (guarded neigh_attr) attrs (0, ni);
      match werr with
      | Some e => Some (zeroNeighInfo, Some e)
      | None => Some (ni, None)
      end
  end.

(** NUD_REACHABLE, NUD_PERMANENT, NUD_NOARP *)
Definition IsReachable (ni : NeighInfo) : bool :=
  bool_decide (Z.land (ni_State ni) (Z.lor (Z.lor 2 128) 64) <> 0).

End Neigh.

(** ** Routes *)

Module Route.

Record RtMsg := mkRtMsg {
  r_Family : Z; r_DstLen : Z; r_SrcLen : Z; r_Tos : Z; r_Table : Z; r_Protocol : Z; r_Scope : Z;
  r_Type : Z; r_Flags : Z }.

Definition DeserializeRtMsg (data : bytes) (m : RtMsg) : go (RtMsg * Z * option err) :=
  if decide (glen data < RtMsgSizeCst) then Some (m, 0, Some ErrRtMsgSmall) else
  f ← index data 0;
  dl ← index data 1;
  sl ← index data 2;
  tos ← index data 3;
  tb ← index data 4;
  pr ← index data 5;
  sc ← index data 6;
  ty ← index data 7;
  fl ← LE32 data 8 12;
  Some (mkRtMsg f dl sl tos tb pr sc ty fl, RtMsgSizeCst, None).

(** *** Next hops *)

Record RtNextHop := mkRtNextHop { h_Len : Z; h_Flags : Z; h_Hops : Z; h_Ifindex : Z }.
Definition RtNextHopSizeCst : Z := 8.

Definition DeserializeRtNextHop (data : bytes) (h : RtNextHop) : go (RtNextHop * Z * option err) :=
  if decide (glen data < RtNextHopSizeCst) then Some (h, 0, Some ErrRtNextHopSmall) else
  l ← LE16 data 0 2;
  fl ← index data 2;
  ho ← index data 3;
  i ← LE32 data 4 8;
  Some (mkRtNextHop l fl ho (int32 i), RtNextHopSizeCst, None).

Record RtVia := mkRtVia { via_Family : Z; via_Addr : option bytes }.
Definition RtViaSizeCst : Z := 2.

Definition DeserializeRtVia (data : bytes) (v : RtVia) : go (RtVia * Z * option err) :=
  if decide (glen data < RtViaSizeCst) then Some (v, 0, Some ErrRtViaSmall) else
  f ← LE16 data 0 2;
  a ← slice data RtViaSizeCst (glen data);
  Some (mkRtVia f (CopyBytes a), glen data, None).

Record RouteNextHop := mkRouteNextHop {
  nh_Flags : Z; nh_Hops : Z; nh_Ifindex : Z; nh_Gateway : option bytes; nh_Via : option RtVia }.

Definition Weight (nh : RouteNextHop) : Z := uint16 (uint16 (nh_Hops nh) + 1).

Definition RTA_GATEWAY : Z := 5.
Definition RTA_VIA : Z := 18.

(** The nested callback: the hop and the last RTA_VIA error. *)
Definition nexthop_attr (atype : Z) (val : bytes) (s : RouteNextHop * option err)
    : go (RouteNextHop * option err) :=
  let '(nh, viaErr) := s in
  if decide (atype = RTA_GATEWAY) then
    Some (mkRouteNextHop (nh_Flags nh) (nh_Hops nh) (nh_Ifindex nh) (CopyBytes val) (nh_Via nh), viaErr)
  else if decide (atype = RTA_VIA) then
    '(v, _, e) ← DeserializeRtVia val (mkRtVia 0 None);
    match e with
    | Some e => Some (nh, Some e)
    | None => Some (mkRouteNextHop (nh_Flags nh) (nh_Hops nh) (nh_Ifindex nh) (nh_Gateway nh) (Some v), viaErr)
    end
  else Some s.

(** [fn] appends to the list the caller captured; an entry takes at least 8
    bytes. *)
Fixpoint WalkRouteNextHops_loop (fuel : nat) (data : bytes) (acc : list RouteNextHop)
    : go (list RouteNextHop * option err) :=
  match fuel with
  | O => None
  | S fuel =>
      if decide (RtNextHopSizeCst <= glen data) then
        '(h, _, derr) ← DeserializeRtNextHop data (mkRtNextHop 0 0 0 0);
        match derr with
        | Some e => Some (acc, Some e)
        | None =>
            let nhLen := h_Len h in
            if decide (nhLen < RtNextHopSizeCst \/ glen data < nhLen)
            then Some (acc, Some ErrRtNextHopBadLen) else
            nested ← slice data RtNextHopSizeCst nhLen;
            '((nh, viaErr), werr) ← WalkRTAttrs nexthop_attr nested
               (mkRouteNextHop (h_Flags h) (h_Hops h) (h_Ifindex h) None None, None);
            match werr, viaErr with
            | Some e, _ => Some (acc, Some e)
            | None, Some e => Some (acc, Some e)
            | None, None =>
                let acc := acc ++ [nh] in
                let adv := nhLen + FourByteAlignPadding nhLen in
                if decide (glen data < adv) then Some (acc, None) else
                rest ← slice data adv (glen data);
                WalkRouteNextHops_loop fuel rest acc
            end
        end
      else Some (acc, None)
  end.
Definition WalkRouteNextHops (data : bytes) (acc : list RouteNextHop) : go (list RouteNextHop * option err) :=
  WalkRouteNextHops_loop (S (length data)) data acc.

(** *** Metrics *)

Definition RouteMetricMaxCst : Z := 17.
Definition RTAX_CC_ALGO : Z := 16.

Record RouteMetrics := mkRouteMetrics {
  rm_Present : Z; rm_Values : list Z; rm_CcAlgo : bytes; rm_Unknown : Z }.

Definition Has (m : option RouteMetrics) (rtax : Z) : bool :=
  match m with
  | None => false
  | Some m =>
      if decide (RouteMetricMaxCst < rtax) then false
      else bool_decide (Z.land (rm_Present m) (uint32 (Z.shiftl 1 rtax)) <> 0)
  end.
Definition Get (m : option RouteMetrics) (rtax : Z) : go (Z * bool) :=
  if negb (Has m rtax) then Some (0, false) else
  m ← m; v ← index (rm_Values m) rtax; Some (v, true).

Definition metric_attr (atype : Z) (aval : bytes) (m : RouteMetrics) : go RouteMetrics :=
  if decide (RouteMetricMaxCst < atype) then
    Some (mkRouteMetrics (rm_Present m) (rm_Values m) (rm_CcAlgo m) (rm_Unknown m + 1)) else
  let present := Z.lor (rm_Present m) (uint32 (Z.shiftl 1 atype)) in
  if decide (atype = RTAX_CC_ALGO) then
    Some (mkRouteMetrics present (rm_Values m) (TrimRight0 aval) (rm_Unknown m)) else
  if decide (glen aval < 4) then Some m else
  v ← LE32 aval 0 4;
  vs ← put_at (rm_Values m) atype [v];
  Some (mkRouteMetrics present vs (rm_CcAlgo m) (rm_Unknown m)).

Definition ParseRouteMetrics (val : bytes) : go (option RouteMetrics * option err) :=
  '(m, werr) ← WalkRTAttrs metric_attr val (mkRouteMetrics 0 (replicate 18 0) [] 0);
  match werr with
  | Some e => Some (None, Some e)
  | None => Some (Some m, None)
  end.

(** *** RTA_CACHEINFO and RTA_MFC_STATS *)

Record RtaCacheinfo := mkRtaCacheinfo {
  rc_Clntref : Z; rc_Lastuse : Z; rc_Expires : Z; rc_Error : Z; rc_Used : Z; rc_ID : Z; rc_Ts : Z;
  rc_Tsage : Z }.
Definition RtaCacheinfoSizeCst : Z := 32.

Definition DeserializeRtaCacheinfo (data : bytes) (m : RtaCacheinfo) : go (RtaCacheinfo * Z * option err) :=
  if decide (glen data < RtaCacheinfoSizeCst) then Some (m, 0, Some ErrRtaCacheinfoSmall) else
  a ← LE32 data 0 4;
  b ← LE32 data 4 8;
  c ← LE32 data 8 12;
  d ← LE32 data 12 16;
  e ← LE32 data 16 20;
  f ← LE32 data 20 24;
  g ← LE32 data 24 28;
  h ← LE32 data 28 32;
  Some (mkRtaCacheinfo a b (int32 c) d e f g h, RtaCacheinfoSizeCst, None).

Record RtaMfcStats := mkRtaMfcStats { mfc_Packets : Z; mfc_Bytes : Z; mfc_WrongIf : Z }.
Definition RtaMfcStatsSizeCst : Z := 24.

Definition DeserializeRtaMfcStats (data : bytes) (m : RtaMfcStats) : go (RtaMfcStats * Z * option err) :=
  if decide (glen data < RtaMfcStatsSizeCst) then Some (m, 0, Some ErrRtaMfcStatsSmall) else
  p ← LE64 data 0 8;
  b ← LE64 data 8 16;
  w ← LE64 data 16 24;
  Some (mkRtaMfcStats p b w, RtaMfcStatsSizeCst, None).

(** *** The route *)

Inductive num := Family | DstLen | SrcLen | Tos | Table | Scope | Type_ | Protocol | Flags
  | Oif | Iif | Priority | Pref | NhID | Mark | UID | Expires.
Inductive has := HasPriority | HasPref | HasMultipath | HasVia | HasUID | HasExpires.
Inductive buf := Dst | Src | Gateway | PrefSrc.
#[export] Instance num_eq : EqDecision num. Proof. solve_decision. Defined.
#[export] Instance has_eq : EqDecision has. Proof. solve_decision. Defined.
#[export] Instance buf_eq : EqDecision buf. Proof. solve_decision. Defined.

Record nested := mkNested {
  n_Multipath : list RouteNextHop; n_Via : option RtVia; n_Metrics : option RouteMetrics;
  n_CacheInfo : option RtaCacheinfo; n_MfcStats : option RtaMfcStats }.
Record RouteInfo := mkRouteInfo {
  ri_num : num -> Z; ri_has : has -> bool; ri_buf : buf -> option bytes; ri_nested : nested }.

Definition zeroRouteInfo : RouteInfo :=
  mkRouteInfo (fun _ => 0) (fun _ => false) (fun _ => None) (mkNested [] None None None None).

Definition set_num (f : num) (v : Z) (ri : RouteInfo) : RouteInfo :=
  mkRouteInfo (<[f := v]> (ri_num ri)) (ri_has ri) (ri_buf ri) (ri_nested ri).
Definition set_has (f : has) (ri : RouteInfo) : RouteInfo :=
  mkRouteInfo (ri_num ri) (<[f := true]> (ri_has ri)) (ri_buf ri) (ri_nested ri).
Definition set_buf (f : buf) (v : option bytes) (ri : RouteInfo) : RouteInfo :=
  mkRouteInfo (ri_num ri) (ri_has ri) (<[f := v]> (ri_buf ri)) (ri_nested ri).
Definition set_nested (n : nested) (ri : RouteInfo) : RouteInfo :=
  mkRouteInfo (ri_num ri) (ri_has ri) (ri_buf ri) n.

Definition RTA_DST : Z := 1.
Definition RTA_SRC : Z := 2.
Definition RTA_IIF : Z := 3.
Definition RTA_PRIORITY : Z := 6.
Definition RTA_PREFSRC : Z := 7.
Definition RTA_METRICS : Z := 8.
Definition RTA_MULTIPATH : Z := 9.
Definition RTA_CACHEINFO : Z := 12.
Definition RTA_MARK : Z := 16.
Definition RTA_MFC_STATS : Z := 17.
Definition RTA_PREF : Z := 20.
Definition RTA_EXPIRES : Z := 23.
Definition RTA_UID : Z := 25.
Definition RtaNhID : Z := 30.

Definition parseRouteNestedAttr (atype : Z) (val : bytes) (ri : RouteInfo) : go (RouteInfo * option err) :=
  let n := ri_nested ri in
  if decide (atype = RTA_MULTIPATH) then
    '(mp, e) ← WalkRouteNextHops val (n_Multipath n);
    Some (set_nested (mkNested mp (n_Via n) (n_Metrics n) (n_CacheInfo n) (n_MfcStats n))
            (set_has HasMultipath ri), e)
  else if decide (atype = RTA_VIA) then
    let ri := set_has HasVia ri in
    '(v, _, e) ← DeserializeRtVia val (mkRtVia 0 None);
    match e with
    | Some e => Some (ri, Some e)
    | None => Some (set_nested (mkNested (n_Multipath n) (Some v) (n_Metrics n) (n_CacheInfo n) (n_MfcStats n)) ri, None)
    end
  else if decide (atype = RTA_METRICS) then
    '(mx, e) ← ParseRouteMetrics val;
    match e with
    | Some e => Some (ri, Some e)
    | None => Some (set_nested (mkNested (n_Multipath n) (n_Via n) mx (n_CacheInfo n) (n_MfcStats n)) ri, None)
    end
  else if decide (atype = RTA_CACHEINFO) then
    '(ci, _, e) ← DeserializeRtaCacheinfo val (mkRtaCacheinfo 0 0 0 0 0 0 0 0);
    match e with
    | Some e => Some (ri, Some e)
    | None => Some (set_nested (mkNested (n_Multipath n) (n_Via n) (n_Metrics n) (Some ci) (n_MfcStats n)) ri, None)
    end
  else Some (ri, None).

Definition setRouteMcastAttr (atype : Z) (val : bytes) (ri : RouteInfo) : go (RouteInfo * option err) :=
  let n := ri_nested ri in
  if decide (atype = RTA_MFC_STATS) then
    '(s, _, e) ← DeserializeRtaMfcStats val (mkRtaMfcStats 0 0 0);
    match e with
    | Some e => Some (ri, Some e)
    | None => Some (set_nested (mkNested (n_Multipath n) (n_Via n) (n_Metrics n) (n_CacheInfo n) (Some s)) ri, None)
    end
  else if decide (atype = RTA_EXPIRES) then
    if decide (8 <= glen val) then
      v ← LE64 val 0 8; Some (set_has HasExpires (set_num Expires v ri), None)
    else Some (ri, None)
  else Some (ri, None).

Definition setRouteAttr (atype : Z) (val : bytes) (ri : RouteInfo) : go (RouteInfo * option err) :=
  if decide (atype = RTA_DST) then Some (set_buf Dst (CopyBytes val) ri, None) else
  if decide (atype = RTA_SRC) then Some (set_buf Src (CopyBytes val) ri, None) else
  if decide (atype = RTA_GATEWAY) then Some (set_buf Gateway (CopyBytes val) ri, None) else
  if decide (atype = RTA_PREFSRC) then Some (set_buf PrefSrc (CopyBytes val) ri, None) else
  if decide (atype = RTA_OIF) then with_u32 val (ri, None) (fun v => (set_num Oif v ri, None)) else
  if decide (atype = RTA_IIF) then with_u32 val (ri, None) (fun v => (set_num Iif v ri, None)) else
  if decide (atype = RTA_PRIORITY) then
    with_u32 val (ri, None) (fun v => (set_has HasPriority (set_num Priority v ri), None)) else
  if decide (atype = RTA_PREF) then
    if decide (1 <= glen val) then v ← index val 0; Some (set_has HasPref (set_num Pref v ri), None)
    else Some (ri, None)
  else
  if decide (atype = RTA_TABLE) then with_u32 val (ri, None) (fun v => (set_num Table v ri, None)) else
  if decide (atype ∈ [RTA_MULTIPATH; RTA_VIA; RTA_METRICS; RTA_CACHEINFO])
  then parseRouteNestedAttr atype val ri else
  if decide (atype ∈ [RTA_MFC_STATS; RTA_EXPIRES]) then setRouteMcastAttr atype val ri else
  if decide (atype = RtaNhID) then with_u32 val (ri, None) (fun v => (set_num NhID v ri, None)) else
  if decide (atype = RTA_MARK) then with_u32 val (ri, None) (fun v => (set_num Mark v ri, None)) else
  if decide (atype = RTA_UID) then
    with_u32 val (ri, None) (fun v => (set_has HasUID (set_num UID v ri), None)) else
  Some (ri, None).

(** The callback's captured variables: the route and the first nested error. *)
Definition route_attr (atype : Z) (val : bytes) (s : RouteInfo * option err) : go (RouteInfo * option err) :=
  let '(ri, nestErr) := s in
  '(ri, aerr) ← setRouteAttr atype val ri;
  Some (ri, match nestErr with Some _ => nestErr | None => aerr end).

Definition route_header (m : RtMsg) : RouteInfo :=
  set_num Family (r_Family m) (set_num DstLen (r_DstLen m) (set_num SrcLen (r_SrcLen m)
    (set_num Tos (r_Tos m) (set_num Table (r_Table m) (set_num Scope (r_Scope m)
      (set_num Type_ (r_Type m) (set_num Protocol (r_Protocol m)
        (set_num Flags (r_Flags m) zeroRouteInfo)))))))).

Definition ParseNewRoute (body : bytes) : go (RouteInfo * option err) :=
  '(m, _, derr) ← DeserializeRtMsg body (mkRtMsg 0 0 0 0 0 0 0 0 0);
  match derr with
  | Some e => Some (zeroRouteInfo, Some e)
  | None =>
      attrs ← slice body RtMsgSizeCst (glen body);
      '((_, (ri, nestErr)), werr) ← WalkRTAttrs (guarded route_attr) attrs (0, (route_header m, None));
      match werr, nestErr with
      | Some e, _ => Some (zeroRouteInfo, Some e)
      | None, Some e => Some (zeroRouteInfo, Some e)
      | None, None => Some (ri, None)
      end
  end.

End Route.
