(* ===== verification/RtParsersSpec.v ===== *)
(** What the rtnetlink parsers return: every field of an address, a neighbour
    and a route as a function of the message's bytes and of the first attribute
    of the field's type. *)

From stdpp Require Import functions.
From S2P Require Import Prelude NlHeaders RtAttr NlRequest NlEnvelope RtParsers.

(** ** Attribute values *)

(** A u32, a u8 and a u64 attribute, when long enough. *)
Definition u32_of (v : bytes) : option Z := if decide (4 <= glen v) then Some (le_at 4 v 0) else None.
Definition u8_of (v : bytes) : option Z := if decide (1 <= glen v) then Some (byte_at v 0) else None.

Lemma with_u32_eq {A} val (d : A) k :
  with_u32 val d k = Some (match u32_of val with Some v => k v | None => d end).
Proof.
  unfold with_u32, u32_of. case_decide; [|done]. by rewrite LE32_ok by lia.
Qed.
Lemma u8_eq {A} val (d : A) k :
  (if decide (1 <= glen val) then v ← index val 0; Some (k v) else Some d) =
  Some (match u8_of val with Some v => k v | None => d end).
Proof. unfold u8_of. case_decide; [|done]. by rewrite index_ok by lia. Qed.

Module AddrSpec.
Import RtParsers.Addr.

Definition cacheinfo_of (v : bytes) : option IfaCacheinfo :=
  if decide (16 <= glen v)
  then Some (mkIfaCacheinfo (le_at 4 v 0) (le_at 4 v 4) (le_at 4 v 8) (le_at 4 v 12)) else None.

(** The callback without its panics. *)
Definition addr_upd (t : Z) (v : bytes) (ai : AddrInfo) : AddrInfo :=
  if decide (t = IFA_ADDRESS) then set_buf Address (CopyBytes v) ai else
  if decide (t = IFA_LOCAL) then set_buf Local_ (CopyBytes v) ai else
  if decide (t = IFA_LABEL) then set_Label (TrimRight0 v) ai else
  if decide (t = IFA_BROADCAST) then set_buf Broadcast (CopyBytes v) ai else
  if decide (t = IFA_FLAGS) then match u32_of v with Some n => set_num Flags n ai | None => ai end else
  if decide (t = IfaProto) then
    match u8_of v with Some n => set_has HasProto (set_num Proto n ai) | None => ai end else
  if decide (t = IFA_CACHEINFO) then
    match cacheinfo_of v with Some c => set_has HasCacheInfo (set_CacheInfo c ai) | None => ai end else
  if decide (t = IFA_RT_PRIORITY) then
    match u32_of v with Some n => set_has HasRtPriority (set_num RtPriority n ai) | None => ai end else
  if decide (t = IFA_ANYCAST) then set_buf Anycast (CopyBytes v) ai else
  if decide (t = IFA_MULTICAST) then set_buf Multicast (CopyBytes v) ai else
  if decide (t = IfaMcUsers) then
    match u32_of v with Some n => set_has HasMcUsers (set_num McUsers n ai) | None => ai end else
  ai.

Lemma addr_attr_eq t v ai : addr_attr t v ai = Some (addr_upd t v ai).
Proof.
  unfold addr_attr, addr_upd. rewrite !with_u32_eq, u8_eq.
  do 6 (case_decide; [done|]). case_decide.
  - unfold DeserializeIfaCacheinfo, cacheinfo_of, IfaCacheinfoSizeCst.
    destruct (decide (glen v < 16)); [by rewrite decide_False by lia|].
    rewrite !LE32_ok by lia. cbn [mbind option_bind]. by rewrite decide_True by lia.
  - by repeat (case_decide; [done|]).
Qed.
Lemma addr_attr_total t v ai : is_Some (addr_attr t v ai).
Proof. rewrite addr_attr_eq. by eexists. Qed.

(** [field g t h]: the value of field [g], which only attribute [t] sets. *)
Ltac unfold_upd := unfold addr_upd, set_num, set_has, set_buf, set_Label, set_CacheInfo.
Ltac solve_upd :=
  intros; match goal with H : addr_attr _ _ _ = Some _ |- _ => rewrite addr_attr_eq in H; injection H as <- end;
  unfold_upd; repeat case_decide; try congruence; repeat case_match; try done;
  cbn [ai_num ai_has ai_buf ai_Label ai_CacheInfo]; rewrite ?fn_lookup_insert; try done;
  by rewrite ?fn_lookup_insert_ne by done.

Section Fields.
Context (l : list (Z * bytes)) (x x' : AddrInfo).
Context (Hv : visit_attrs addr_attr (firsts [] l) x = Some x').

Abbreviation att := (fun t => first_attr t l).

Lemma buf_field f t : (f, t) ∈ [(Address, IFA_ADDRESS); (Local_, IFA_LOCAL); (Broadcast, IFA_BROADCAST);
    (Anycast, IFA_ANYCAST); (Multicast, IFA_MULTICAST)] ->
  ai_buf x' f = match att t with Some v => CopyBytes v | None => ai_buf x f end.
Proof using Hv.
  intros Hin. apply (visit_firsts_field addr_attr (fun a => ai_buf a f) t (fun v _ => CopyBytes v)) with (seen := []);
    try exact Hv; try (intros Hx; by inversion Hx);
    repeat (apply elem_of_cons in Hin as [Hin|Hin]; [injection Hin as -> ->; try done; solve_upd|]);
    inversion Hin.
Qed.

Lemma num_field f t : (f, t) ∈ [(Flags, IFA_FLAGS); (RtPriority, IFA_RT_PRIORITY); (McUsers, IfaMcUsers)] ->
  ai_num x' f = default (ai_num x f) (att t ≫= u32_of).
Proof using Hv.
  intros Hin. rewrite (visit_firsts_field addr_attr (fun a => ai_num a f) t (fun v d => default d (u32_of v))) with (5 := Hv);
    try (intros Hx; by inversion Hx); [by destruct (att t)|..];
    repeat (apply elem_of_cons in Hin as [Hin|Hin]; [injection Hin as -> ->; try done; solve_upd|]);
    inversion Hin.
Qed.

Lemma proto_field : ai_num x' Proto = default (ai_num x Proto) (att IfaProto ≫= u8_of).
Proof using Hv.
  rewrite (visit_firsts_field addr_attr (fun a => ai_num a Proto) IfaProto (fun v d => default d (u8_of v))) with (5 := Hv);
    try (intros Hx; by inversion Hx); [by destruct (att IfaProto)|try done; solve_upd..].
Qed.

(** The header's own fields are set by no attribute. *)
Lemma header_field f : f ∈ [Family; Prefixlen; Scope; Index] -> ai_num x' f = ai_num x f.
Proof using Hv.
  intros Hin. rewrite (visit_firsts_field addr_attr (fun a => ai_num a f) 63 (fun _ d => d)) with (5 := Hv);
    try (intros Hx; by inversion Hx); [by destruct (att 63)|..];
    repeat (apply elem_of_cons in Hin as [->|Hin]; [try done; solve_upd|]); inversion Hin.
Qed.

Lemma label_field : ai_Label x' = match att IFA_LABEL with Some v => TrimRight0 v | None => ai_Label x end.
Proof using Hv.
  apply (visit_firsts_field addr_attr ai_Label IFA_LABEL (fun v _ => TrimRight0 v)) with (seen := []);
    try exact Hv; try (intros Hx; by inversion Hx); try done; solve_upd.
Qed.

Lemma cacheinfo_field : ai_CacheInfo x' = default (ai_CacheInfo x) (att IFA_CACHEINFO ≫= cacheinfo_of).
Proof using Hv.
  rewrite (visit_firsts_field addr_attr ai_CacheInfo IFA_CACHEINFO (fun v d => default d (cacheinfo_of v))) with (5 := Hv);
    try (intros Hx; by inversion Hx); [by destruct (att IFA_CACHEINFO)|try done; solve_upd..].
Qed.

(** Whether an attribute was there and long enough. *)
Definition present {A} (o : option A) (d : bool) : bool := match o with Some _ => true | None => d end.

Lemma has_field f t : (f, t) ∈ [(HasRtPriority, IFA_RT_PRIORITY); (HasMcUsers, IfaMcUsers)] ->
  ai_has x' f = present (att t ≫= u32_of) (ai_has x f).
Proof using Hv.
  intros Hin. rewrite (visit_firsts_field addr_attr (fun a => ai_has a f) t (fun v => present (u32_of v))) with (5 := Hv);
    try (intros Hx; by inversion Hx); [by destruct (att t)|..];
    repeat (apply elem_of_cons in Hin as [Hin|Hin]; [injection Hin as -> ->; try done; solve_upd|]);
    inversion Hin.
Qed.
Lemma has_proto : ai_has x' HasProto = present (att IfaProto ≫= u8_of) (ai_has x HasProto).
Proof using Hv.
  rewrite (visit_firsts_field addr_attr (fun a => ai_has a HasProto) IfaProto (fun v => present (u8_of v))) with (5 := Hv);
    try (intros Hx; by inversion Hx); [by destruct (att IfaProto)|try done; solve_upd..].
Qed.
Lemma has_cacheinfo : ai_has x' HasCacheInfo = present (att IFA_CACHEINFO ≫= cacheinfo_of) (ai_has x HasCacheInfo).
Proof using Hv.
  rewrite (visit_firsts_field addr_attr (fun a => ai_has a HasCacheInfo) IFA_CACHEINFO (fun v => present (cacheinfo_of v))) with (5 := Hv);
    try (intros Hx; by inversion Hx); [by destruct (att IFA_CACHEINFO)|try done; solve_upd..].
Qed.
End Fields.

(** What an address message says, field by field: [att] is the walk's result
    on the bytes after the 8-byte header. *)
Definition addr_fields (body : bytes) (att : Z -> option bytes) (ai : AddrInfo) : Prop :=
  ai_num ai Family = byte_at body 0 /\ ai_num ai Prefixlen = byte_at body 1 /\
  ai_num ai Scope = byte_at body 3 /\ ai_num ai Index = le_at 4 body 4 /\
  ai_num ai Flags = default (byte_at body 2) (att IFA_FLAGS ≫= u32_of) /\
  ai_buf ai Address = union (att IFA_ADDRESS ≫= CopyBytes) (att IFA_LOCAL ≫= CopyBytes) /\
  ai_buf ai Local_ = union (att IFA_LOCAL ≫= CopyBytes) (att IFA_ADDRESS ≫= CopyBytes) /\
  ai_buf ai Broadcast = att IFA_BROADCAST ≫= CopyBytes /\
  ai_buf ai Anycast = att IFA_ANYCAST ≫= CopyBytes /\
  ai_buf ai Multicast = att IFA_MULTICAST ≫= CopyBytes /\
  ai_Label ai = from_option TrimRight0 [] (att IFA_LABEL) /\
  ai_num ai Proto = default 0 (att IfaProto ≫= u8_of) /\
  ai_has ai HasProto = present (att IfaProto ≫= u8_of) false /\
  ai_num ai RtPriority = default 0 (att IFA_RT_PRIORITY ≫= u32_of) /\
  ai_has ai HasRtPriority = present (att IFA_RT_PRIORITY ≫= u32_of) false /\
  ai_num ai McUsers = default 0 (att IfaMcUsers ≫= u32_of) /\
  ai_has ai HasMcUsers = present (att IfaMcUsers ≫= u32_of) false /\
  ai_CacheInfo ai = default zeroCacheinfo (att IFA_CACHEINFO ≫= cacheinfo_of) /\
  ai_has ai HasCacheInfo = present (att IFA_CACHEINFO ≫= cacheinfo_of) false.

Lemma DeserializeIfAddrmsg_ok body m : 8 <= glen body ->
  DeserializeIfAddrmsg body m =
  Some (mkIfAddrmsg (byte_at body 0) (byte_at body 1) (byte_at body 2) (byte_at body 3) (le_at 4 body 4), 8, None).
Proof.
  intros H. unfold DeserializeIfAddrmsg, IfAddrmsgReadCst, IfAddrmsgSizeCst. rewrite decide_False by lia.
  rewrite !index_ok by lia. cbn [mbind option_bind]. by rewrite LE32_ok by lia.
Qed.

(** The aliasing leaves everything but the two addresses alone. *)
Lemma alias_num ai : ai_num (alias ai) = ai_num ai.
Proof. unfold alias. destruct (ai_buf ai Local_); by case_match. Qed.
Lemma alias_has ai : ai_has (alias ai) = ai_has ai.
Proof. unfold alias. destruct (ai_buf ai Local_); by case_match. Qed.
Lemma alias_label ai : ai_Label (alias ai) = ai_Label ai.
Proof. unfold alias. destruct (ai_buf ai Local_); by case_match. Qed.
Lemma alias_cache ai : ai_CacheInfo (alias ai) = ai_CacheInfo ai.
Proof. unfold alias. destruct (ai_buf ai Local_); by case_match. Qed.
Lemma alias_buf ai f : ai_buf (alias ai) f =
  match f with
  | Address => union (ai_buf ai Address) (ai_buf ai Local_)
  | Local_ => union (ai_buf ai Local_) (ai_buf ai Address)
  | _ => ai_buf ai f
  end.
Proof.
  unfold alias. destruct (ai_buf ai Local_) as [l|] eqn:El; destruct (ai_buf ai Address) as [a|] eqn:Ea;
    cbn [set_buf ai_buf]; rewrite ?fn_lookup_insert, ?fn_lookup_insert_ne, ?El, ?Ea by done;
    destruct f; cbn [set_buf ai_buf]; rewrite ?fn_lookup_insert, ?fn_lookup_insert_ne, ?El, ?Ea by done; done.
Qed.

Lemma match_bind {A B} (o : option A) (f : A -> option B) :
  match o with Some v => f v | None => None end = o ≫= f.
Proof. by destruct o. Qed.

Lemma addr_fields_ok body x' :
  let att := fun t => first_attr t (parse_attrs (drop 8 body)).1 in
  visit_attrs addr_attr (firsts [] (parse_attrs (drop 8 body)).1)
    (header_info (mkIfAddrmsg (byte_at body 0) (byte_at body 1) (byte_at body 2) (byte_at body 3) (le_at 4 body 4)))
    = Some x' ->
  addr_fields body att (alias x').
Proof.
  cbv zeta. intros Hv. unfold addr_fields. rewrite alias_num, alias_has, alias_label, alias_cache, !alias_buf.
  rewrite !(header_field _ _ _ Hv) by set_solver.
  rewrite (num_field _ _ _ Hv Flags IFA_FLAGS), (num_field _ _ _ Hv RtPriority IFA_RT_PRIORITY),
    (num_field _ _ _ Hv McUsers IfaMcUsers), (proto_field _ _ _ Hv), (label_field _ _ _ Hv),
    (cacheinfo_field _ _ _ Hv), (has_proto _ _ _ Hv), (has_cacheinfo _ _ _ Hv),
    (has_field _ _ _ Hv HasRtPriority IFA_RT_PRIORITY), (has_field _ _ _ Hv HasMcUsers IfaMcUsers),
    (buf_field _ _ _ Hv Address IFA_ADDRESS), (buf_field _ _ _ Hv Local_ IFA_LOCAL),
    (buf_field _ _ _ Hv Broadcast IFA_BROADCAST), (buf_field _ _ _ Hv Anycast IFA_ANYCAST),
    (buf_field _ _ _ Hv Multicast IFA_MULTICAST) by set_solver.
  cbn [header_info set_num zeroAddrInfo ai_num ai_buf ai_has ai_Label ai_CacheInfo
       m_Family m_Prefixlen m_Flags m_Scope m_Index].
  rewrite ?fn_lookup_insert, ?fn_lookup_insert_ne, ?fn_lookup_insert, !match_bind by done.
  split_and!; try done; by destruct (first_attr IFA_LABEL _).
Qed.

Lemma ParseNewAddr_eq body : 8 <= glen body ->
  exists x', visit_attrs addr_attr (firsts [] (parse_attrs (drop 8 body)).1)
      (header_info (mkIfAddrmsg (byte_at body 0) (byte_at body 1) (byte_at body 2) (byte_at body 3) (le_at 4 body 4)))
      = Some x' /\
    ParseNewAddr body = Some (match (parse_attrs (drop 8 body)).2 with
      | Some e => (zeroAddrInfo, Some e) | None => (alias x', None) end).
Proof.
  intros H. unfold ParseNewAddr. rewrite DeserializeIfAddrmsg_ok by done. cbn [mbind option_bind].
  unfold IfAddrmsgSizeCst. rewrite slice_tail by lia. cbn [mbind option_bind]. change (Z.to_nat 8) with 8%nat.
  destruct (guarded_walk_total addr_attr (drop 8 body) (header_info (mkIfAddrmsg (byte_at body 0) (byte_at body 1)
    (byte_at body 2) (byte_at body 3) (le_at 4 body 4))) addr_attr_total) as (seen & x' & Hv & ->).
  exists x'. split; [done|]. cbn [mbind option_bind]. by destruct (parse_attrs (drop 8 body)).2.
Qed.

(** Parsing an address message always returns. A body shorter than the
    header or with a mis-framed attribute gives the zero value and the error;
    otherwise every field is the header's or the first well-formed attribute's
    of its type, IFA_FLAGS replaces the 8-bit header flags, and IFA_ADDRESS and
    IFA_LOCAL stand in for each other when one is missing. *)
Theorem ParseNewAddr_spec body :
  exists ai e, ParseNewAddr body = Some (ai, e) /\
    match e with
    | Some e => ai = zeroAddrInfo /\
        (if decide (glen body < 8) then e = ErrIfAddrmsgSmall else (parse_attrs (drop 8 body)).2 = Some e)
    | None => 8 <= glen body /\ (parse_attrs (drop 8 body)).2 = None /\
        addr_fields body (fun t => first_attr t (parse_attrs (drop 8 body)).1) ai
    end.
Proof.
  destruct (decide (glen body < 8)) as [H|H].
  - exists zeroAddrInfo, (Some ErrIfAddrmsgSmall). split; [|done].
    unfold ParseNewAddr, DeserializeIfAddrmsg, IfAddrmsgSizeCst. by rewrite decide_True by done.
  - destruct (ParseNewAddr_eq body) as (x' & Hv & ->); [lia|].
    destruct (parse_attrs (drop 8 body)).2 as [e|] eqn:He.
    + by exists zeroAddrInfo, (Some e).
    + exists (alias x'), None. split; [done|]. split_and!; [lia|done|]. by apply addr_fields_ok.
Qed.

End AddrSpec.

(** ** Neighbours *)

Module NeighSpec.
Import RtParsers.Neigh.

Definition ndcache_of (v : bytes) : option NdaCacheInfo :=
  if decide (16 <= glen v)
  then Some (mkNdaCacheInfo (le_at 4 v 0) (le_at 4 v 4) (le_at 4 v 8) (le_at 4 v 12)) else None.

(** The callback without its panics. *)
Definition neigh_upd (t : Z) (v : bytes) (ni : NeighInfo) : NeighInfo :=
  let set dst ll ext hc ci pr hp := set_attrs dst ll ext hc ci pr hp ni in
  let '(dst, ll, ext) := (ni_Dst ni, ni_LLAddr ni, ni_FlagsExt ni) in
  let '(hc, ci, pr, hp) := (ni_HasCacheInfo ni, ni_CacheInfo ni, ni_Probes ni, ni_HasProbes ni) in
  if decide (t = NDA_DST) then set (CopyBytes v) ll ext hc ci pr hp else
  if decide (t = NDA_LLADDR) then set dst (CopyBytes v) ext hc ci pr hp else
  if decide (t = NDA_CACHEINFO) then
    match ndcache_of v with Some c => set dst ll ext true c pr hp | None => set dst ll ext hc ci pr hp end else
  if decide (t = NDA_PROBES) then match u32_of v with Some n => set dst ll ext hc ci n true | None => ni end else
  if decide (t = NdaFlagsExt) then match u32_of v with Some n => set dst ll n hc ci pr hp | None => ni end else
  ni.

Lemma neigh_attr_eq t v ni : neigh_attr t v ni = Some (neigh_upd t v ni).
Proof.
  unfold neigh_attr, neigh_upd. rewrite !with_u32_eq.
  do 2 (case_decide; [done|]). case_decide.
  - unfold DeserializeNdaCacheInfo, ndcache_of, NdaCacheInfoSizeCst.
    destruct (decide (glen v < 16)); [by rewrite decide_False by lia|].
    rewrite !LE32_ok by lia. cbn [mbind option_bind]. by rewrite decide_True by lia.
  - by repeat (case_decide; [done|]).
Qed.

Ltac solve_neigh Hv :=
  first [exact Hv | by (intros Hx; inversion Hx) | done
    | intros; match goal with H : neigh_attr _ _ _ = Some _ |- _ => rewrite neigh_attr_eq in H; injection H as <- end;
      unfold neigh_upd, set_attrs; cbv zeta; repeat case_decide; try congruence; repeat case_match; done].
(** [field]: the value of the field [g], which only attribute [t] sets. *)
Ltac neigh_field Hv g t h := pose proof (visit_firsts_field neigh_attr g t h ltac:(solve_neigh Hv) ltac:(solve_neigh Hv)
  _ [] _ _ ltac:(done) ltac:(solve_neigh Hv) Hv).

(** What a neighbour message says. *)
Definition neigh_fields (body : bytes) (att : Z -> option bytes) (ni : NeighInfo) : Prop :=
  ni_Family ni = byte_at body 0 /\ ni_Ifindex ni = int32 (le_at 4 body 4) /\
  ni_State ni = le_at 2 body 8 /\ ni_Flags ni = byte_at body 10 /\ ni_Type ni = byte_at body 11 /\
  ni_Dst ni = att NDA_DST ≫= CopyBytes /\ ni_LLAddr ni = att NDA_LLADDR ≫= CopyBytes /\
  ni_FlagsExt ni = default 0 (att NdaFlagsExt ≫= u32_of) /\
  ni_Probes ni = default 0 (att NDA_PROBES ≫= u32_of) /\
  ni_HasProbes ni = bool_decide (is_Some (att NDA_PROBES ≫= u32_of)) /\
  ni_CacheInfo ni = default (mkNdaCacheInfo 0 0 0 0) (att NDA_CACHEINFO ≫= ndcache_of) /\
  ni_HasCacheInfo ni = bool_decide (is_Some (att NDA_CACHEINFO ≫= ndcache_of)).

Definition neigh_header (body : bytes) : NeighInfo :=
  mkNeighInfo (byte_at body 0) (int32 (le_at 4 body 4)) (le_at 2 body 8) (byte_at body 10) (byte_at body 11)
    None None 0 false (mkNdaCacheInfo 0 0 0 0) 0 false.

Lemma neigh_fields_ok body x' :
  let l := (parse_attrs (drop 12 body)).1 in
  visit_attrs neigh_attr (firsts [] l) (neigh_header body) = Some x' -> neigh_fields body (fun t => first_attr t l) x'.
Proof.
  cbv zeta. intros Hv. unfold neigh_fields.
  neigh_field Hv ni_Family 63 (fun (_ : bytes) (d : Z) => d). neigh_field Hv ni_Ifindex 63 (fun (_ : bytes) (d : Z) => d).
  neigh_field Hv ni_State 63 (fun (_ : bytes) (d : Z) => d). neigh_field Hv ni_Flags 63 (fun (_ : bytes) (d : Z) => d).
  neigh_field Hv ni_Type 63 (fun (_ : bytes) (d : Z) => d).
  neigh_field Hv ni_Dst NDA_DST (fun v (_ : option bytes) => CopyBytes v).
  neigh_field Hv ni_LLAddr NDA_LLADDR (fun v (_ : option bytes) => CopyBytes v).
  neigh_field Hv ni_FlagsExt NdaFlagsExt (fun v d => default d (u32_of v)).
  neigh_field Hv ni_Probes NDA_PROBES (fun v d => default d (u32_of v)).
  neigh_field Hv ni_HasProbes NDA_PROBES (fun v d => match u32_of v with Some _ => true | None => d end).
  neigh_field Hv ni_CacheInfo NDA_CACHEINFO (fun v d => default d (ndcache_of v)).
  neigh_field Hv ni_HasCacheInfo NDA_CACHEINFO (fun v d => match ndcache_of v with Some _ => true | None => d end).
  repeat match goal with H : _ = match first_attr _ _ with _ => _ end |- _ => rewrite H; clear H end.
  split_and!; destruct (first_attr _ _) as [v|]; cbn; try done; first [by destruct (u32_of v) | by destruct (ndcache_of v)].
Qed.

Lemma DeserializeNdMsg_ok body m : 12 <= glen body ->
  DeserializeNdMsg body m = Some (mkNdMsg (byte_at body 0) (byte_at body 1) (le_at 2 body 2)
    (int32 (le_at 4 body 4)) (le_at 2 body 8) (byte_at body 10) (byte_at body 11), 12, None).
Proof.
  intros H. unfold DeserializeNdMsg, NdMsgSizeCst, NdMsgFlagsOffCst. rewrite decide_False by lia.
  rewrite !index_ok by lia. cbn [mbind option_bind]. rewrite LE16_ok by lia. cbn [mbind option_bind].
  rewrite LE32_ok by lia. cbn [mbind option_bind]. by rewrite LE16_ok by lia.
Qed.

(** Parsing a neighbour message always returns: the zero value and an
    error for a body shorter than the header or mis-framed attributes;
    otherwise the ifindex sign-extended from the header, and every other field
    the header's or the first well-formed attribute's of its type. *)
Theorem ParseNeigh_spec body :
  exists ni e, ParseNeigh body = Some (ni, e) /\
    match e with
    | Some e => ni = zeroNeighInfo /\
        (if decide (glen body < 12) then e = ErrNdMsgSmall else (parse_attrs (drop 12 body)).2 = Some e)
    | None => 12 <= glen body /\ (parse_attrs (drop 12 body)).2 = None /\
        neigh_fields body (fun t => first_attr t (parse_attrs (drop 12 body)).1) ni
    end.
Proof.
  destruct (decide (glen body < 12)) as [H|H].
  - exists zeroNeighInfo, (Some ErrNdMsgSmall). split; [|done].
    unfold ParseNeigh, DeserializeNdMsg, NdMsgSizeCst. by rewrite decide_True by done.
  - unfold ParseNeigh. rewrite DeserializeNdMsg_ok by lia. cbn [mbind option_bind].
    unfold NdMsgSizeCst. rewrite slice_tail by lia. cbn [mbind option_bind]. change (Z.to_nat 12) with 12%nat.
    destruct (guarded_walk_total neigh_attr (drop 12 body) (neigh_header body)) as (seen & x' & Hv & Hw).
    { intros. rewrite neigh_attr_eq. by eexists. }
    unfold neigh_header in Hw. cbn [nd_Family nd_Ifindex nd_State nd_Flags nd_Type]. cbv zeta. rewrite Hw.
    cbn [mbind option_bind]. destruct (parse_attrs (drop 12 body)).2 as [e|] eqn:He.
    + by exists zeroNeighInfo, (Some e).
    + exists x', None. split; [done|]. split_and!; [lia|done|]. by apply neigh_fields_ok.
Qed.

End NeighSpec.
