(* ===== verification/RouteSpec.v ===== *)
(** What the route parser returns: every field of a route as a function of the
    message's bytes, the errors of its nested payloads, and the multipath list. *)

From stdpp Require Import functions.
From S2P Require Import Prelude NlHeaders RtAttr NlRequest NlEnvelope RtParsers RtParsersSpec.
Import RtParsers.Route.

(** ** Nested payloads *)

Definition u64_of (v : bytes) : option Z := if decide (8 <= glen v) then Some (le_at 8 v 0) else None.

Definition via_of (v : bytes) : option RtVia :=
  if decide (2 <= glen v) then Some (mkRtVia (le_at 2 v 0) (CopyBytes (drop 2 v))) else None.

Lemma DeserializeRtVia_eq v r :
  DeserializeRtVia v r =
    Some (match via_of v with Some x => (x, glen v, None) | None => (r, 0, Some ErrRtViaSmall) end).
Proof.
  unfold DeserializeRtVia, via_of, RtViaSizeCst. destruct (decide (glen v < 2)).
  - by rewrite decide_False by lia.
  - rewrite (decide_True (P := 2 <= glen v)) by lia. rewrite LE16_ok by lia. cbn [mbind option_bind].
    by rewrite slice_tail by lia.
Qed.

Definition rcache_of (v : bytes) : option RtaCacheinfo :=
  if decide (32 <= glen v)
  then Some (mkRtaCacheinfo (le_at 4 v 0) (le_at 4 v 4) (int32 (le_at 4 v 8)) (le_at 4 v 12) (le_at 4 v 16)
               (le_at 4 v 20) (le_at 4 v 24) (le_at 4 v 28)) else None.
Lemma DeserializeRtaCacheinfo_eq v r :
  DeserializeRtaCacheinfo v r =
    Some (match rcache_of v with Some x => (x, 32, None) | None => (r, 0, Some ErrRtaCacheinfoSmall) end).
Proof.
  unfold DeserializeRtaCacheinfo, rcache_of, RtaCacheinfoSizeCst. destruct (decide (glen v < 32)).
  - by rewrite decide_False by lia.
  - rewrite (decide_True (P := 32 <= glen v)) by lia. by rewrite !LE32_ok by lia.
Qed.

Definition mfc_of (v : bytes) : option RtaMfcStats :=
  if decide (24 <= glen v) then Some (mkRtaMfcStats (le_at 8 v 0) (le_at 8 v 8) (le_at 8 v 16)) else None.
Lemma DeserializeRtaMfcStats_eq v r :
  DeserializeRtaMfcStats v r =
    Some (match mfc_of v with Some x => (x, 24, None) | None => (r, 0, Some ErrRtaMfcStatsSmall) end).
Proof.
  unfold DeserializeRtaMfcStats, mfc_of, RtaMfcStatsSizeCst. destruct (decide (glen v < 24)).
  - by rewrite decide_False by lia.
  - rewrite (decide_True (P := 24 <= glen v)) by lia. by rewrite !LE64_ok by lia.
Qed.

(** *** Metrics *)

Definition metrics_wf (m : RouteMetrics) : Prop := length (rm_Values m) = 18%nat.

Lemma put_at_values (vs : list Z) t v : length vs = 18%nat -> 0 <= t <= 17 ->
  exists vs', put_at vs t [v] = Some vs' /\ length vs' = 18%nat.
Proof.
  intros Hl Ht. unfold put_at. rewrite decide_True by (unfold glen; cbn; lia). eexists; split; [done|].
  rewrite !length_app, length_take, length_drop. cbn. unfold glen. cbn. lia.
Qed.

Lemma metric_attr_total t v m : 0 <= t < 2 ^ 14 -> metrics_wf m ->
  exists m', metric_attr t v m = Some m' /\ metrics_wf m'.
Proof.
  intros Ht Hm. unfold metric_attr, RouteMetricMaxCst. repeat (case_decide; [by eexists|]).
  rewrite LE32_ok by lia. cbn [mbind option_bind].
  destruct (put_at_values (rm_Values m) t (le_at 4 v 0)) as (vs & -> & Hvs); [done|lia|]. by eexists.
Qed.

Lemma ParseRouteMetrics_total v :
  exists m e, ParseRouteMetrics v = Some (m, e) /\ (e = None -> exists x, m = Some x /\ metrics_wf x).
Proof.
  unfold ParseRouteMetrics. rewrite WalkRTAttrs_eq.
  destruct (visit_inv metric_attr metrics_wf (parse_attrs v).1 (mkRouteMetrics 0 (replicate 18 0) [] 0)
    metric_attr_total (parse_attrs_types v) eq_refl) as (m & -> & Hm).
  cbn [mbind option_bind]. destruct (parse_attrs v).2; do 2 eexists; (split; [done|]); [done|by eexists].
Qed.

(** *** Next hops *)

Lemma nexthop_attr_total t v s : is_Some (nexthop_attr t v s).
Proof.
  destruct s as [nh e]. unfold nexthop_attr. case_decide; [by eexists|]. case_decide; [|by eexists].
  rewrite DeserializeRtVia_eq. cbn [mbind option_bind]. by destruct (via_of v); eexists.
Qed.

(** The hop an entry's header and nested attributes describe. *)
Definition nexthop_of (d : bytes) : RouteNextHop * option err :=
  default (mkRouteNextHop 0 0 0 None None, None)
    (visit_attrs nexthop_attr (parse_attrs (take (Z.to_nat (le_at 2 d 0 - 8)) (drop 8 d))).1
       (mkRouteNextHop (byte_at d 2) (byte_at d 3) (int32 (le_at 4 d 4)) None None, None)).
Definition nexthop_err (d : bytes) : option err :=
  union (parse_attrs (take (Z.to_nat (le_at 2 d 0 - 8)) (drop 8 d))).2 (nexthop_of d).2.

(** The reference: the hops before the first error, and that error. *)
Fixpoint parse_nexthops (fuel : nat) (d : bytes) : list RouteNextHop * option err :=
  match fuel with
  | O => ([], None)
  | S fuel =>
      let len := le_at 2 d 0 in
      if decide (glen d < 8) then ([], None) else
      if decide (len < 8 \/ glen d < len) then ([], Some ErrRtNextHopBadLen) else
      match nexthop_err d with
      | Some e => ([], Some e)
      | None =>
          let '(l, e) := parse_nexthops fuel (drop (Z.to_nat (len + FourByteAlignPadding len)) d) in
          ((nexthop_of d).1 :: l, e)
      end
  end.
Definition nexthops_of (d : bytes) : list RouteNextHop * option err := parse_nexthops (S (length d)) d.

Lemma DeserializeRtNextHop_ok d h : 8 <= glen d ->
  DeserializeRtNextHop d h = Some (mkRtNextHop (le_at 2 d 0) (byte_at d 2) (byte_at d 3) (int32 (le_at 4 d 4)), 8, None).
Proof.
  intros H. unfold DeserializeRtNextHop, RtNextHopSizeCst. rewrite decide_False by lia. rewrite LE16_ok by lia.
  cbn [mbind option_bind]. rewrite !index_ok by lia. cbn [mbind option_bind]. by rewrite LE32_ok by lia.
Qed.

Lemma nested_walk d : 8 <= le_at 2 d 0 <= glen d ->
  exists nested, slice d 8 (le_at 2 d 0) = Some nested /\
    WalkRTAttrs nexthop_attr nested (mkRouteNextHop (byte_at d 2) (byte_at d 3) (int32 (le_at 4 d 4)) None None, None)
    = Some (nexthop_of d, (parse_attrs nested).2) /\
    nested = take (Z.to_nat (le_at 2 d 0 - 8)) (drop 8 d).
Proof.
  intros H. eexists. rewrite (slice_ok d 8 (le_at 2 d 0)) by lia. split_and!; [done| |done].
  rewrite WalkRTAttrs_eq. unfold nexthop_of. change (Z.to_nat 8) with 8%nat.
  destruct (visit_total nexthop_attr (parse_attrs (take (Z.to_nat (le_at 2 d 0 - 8)) (drop 8 d))).1
    (mkRouteNextHop (byte_at d 2) (byte_at d 3) (int32 (le_at 4 d 4)) None None, None) nexthop_attr_total) as [r ->].
  done.
Qed.

Lemma parse_nexthops_nil fuel : parse_nexthops fuel [] = ([], None).
Proof. by destruct fuel. Qed.

Lemma WalkRouteNextHops_loop_eq fuel d acc : (length d < fuel)%nat ->
  WalkRouteNextHops_loop fuel d acc = Some (acc ++ (parse_nexthops fuel d).1, (parse_nexthops fuel d).2).
Proof.
  revert d acc. induction fuel as [|fuel IH]; intros d acc Hf; [lia|].
  cbn [WalkRouteNextHops_loop parse_nexthops]. cbv zeta. unfold RtNextHopSizeCst.
  destruct (decide (8 <= glen d)) as [H8|H8]; [|rewrite decide_True by lia; cbn [fst snd]; by rewrite app_nil_r].
  rewrite (decide_False (P := glen d < 8)) by lia. rewrite DeserializeRtNextHop_ok by done.
  cbn [mbind option_bind h_Len h_Flags h_Hops h_Ifindex]. case_decide as Hl; [cbn [fst snd]; by rewrite app_nil_r|].
  destruct (nested_walk d) as (nested & -> & Hw & Hn); [lia|]. cbn [mbind option_bind]. rewrite Hw. cbn [mbind option_bind].
  unfold nexthop_err. rewrite <- Hn. destruct (nexthop_of d) as [nh ve] eqn:En. cbn [snd fst].
  destruct (parse_attrs nested).2 as [e|], ve as [e'|]; cbn; [by rewrite app_nil_r..|].
  set (adv := le_at 2 d 0 + FourByteAlignPadding (le_at 2 d 0)).
  assert (8 <= adv) by (pose proof (FourByteAlignPadding_bound (le_at 2 d 0)); lia).
  case_decide as Ha.
  - rewrite drop_ge by (unfold glen in Ha; lia). rewrite parse_nexthops_nil. cbn [fst snd]. done.
  - rewrite slice_tail by lia. cbn [mbind option_bind]. rewrite IH by (rewrite length_drop; unfold glen in *; lia).
    destruct (parse_nexthops fuel _) as [l e]. cbn [fst snd]. by rewrite <- app_assoc.
Qed.
Lemma WalkRouteNextHops_eq d acc :
  WalkRouteNextHops d acc = Some (acc ++ (nexthops_of d).1, (nexthops_of d).2).
Proof. apply WalkRouteNextHops_loop_eq. lia. Qed.

(** *** The callback without its panics *)

Definition metrics_of (v : bytes) : option RouteMetrics * option err :=
  default (None, None) (ParseRouteMetrics v).
Definition upd_nested (f : nested -> nested) (ri : RouteInfo) : RouteInfo := set_nested (f (ri_nested ri)) ri.

Definition route_upd (t : Z) (v : bytes) (ri : RouteInfo) : RouteInfo :=
  if decide (t = RTA_DST) then set_buf Dst (CopyBytes v) ri else
  if decide (t = RTA_SRC) then set_buf Src (CopyBytes v) ri else
  if decide (t = RTA_GATEWAY) then set_buf Gateway (CopyBytes v) ri else
  if decide (t = RTA_PREFSRC) then set_buf PrefSrc (CopyBytes v) ri else
  if decide (t = RTA_OIF) then match u32_of v with Some n => set_num Oif n ri | None => ri end else
  if decide (t = RTA_IIF) then match u32_of v with Some n => set_num Iif n ri | None => ri end else
  if decide (t = RTA_PRIORITY) then
    match u32_of v with Some n => set_has HasPriority (set_num Priority n ri) | None => ri end else
  if decide (t = RTA_PREF) then
    match u8_of v with Some n => set_has HasPref (set_num Pref n ri) | None => ri end else
  if decide (t = RTA_TABLE) then match u32_of v with Some n => set_num Table n ri | None => ri end else
  if decide (t = RTA_MULTIPATH) then
    upd_nested (fun n => mkNested (n_Multipath n ++ (nexthops_of v).1) (n_Via n) (n_Metrics n) (n_CacheInfo n)
      (n_MfcStats n)) (set_has HasMultipath ri) else
  if decide (t = RTA_VIA) then
    match via_of v with
    | Some x => upd_nested (fun n => mkNested (n_Multipath n) (Some x) (n_Metrics n) (n_CacheInfo n) (n_MfcStats n))
                  (set_has HasVia ri)
    | None => set_has HasVia ri
    end else
  if decide (t = RTA_METRICS) then
    match metrics_of v with
    | (m, None) => upd_nested (fun n => mkNested (n_Multipath n) (n_Via n) m (n_CacheInfo n) (n_MfcStats n)) ri
    | _ => ri
    end else
  if decide (t = RTA_CACHEINFO) then
    match rcache_of v with
    | Some c => upd_nested (fun n => mkNested (n_Multipath n) (n_Via n) (n_Metrics n) (Some c) (n_MfcStats n)) ri
    | None => ri
    end else
  if decide (t = RTA_MFC_STATS) then
    match mfc_of v with
    | Some s => upd_nested (fun n => mkNested (n_Multipath n) (n_Via n) (n_Metrics n) (n_CacheInfo n) (Some s)) ri
    | None => ri
    end else
  if decide (t = RTA_EXPIRES) then
    match u64_of v with Some n => set_has HasExpires (set_num Expires n ri) | None => ri end else
  if decide (t = RtaNhID) then match u32_of v with Some n => set_num NhID n ri | None => ri end else
  if decide (t = RTA_MARK) then match u32_of v with Some n => set_num Mark n ri | None => ri end else
  if decide (t = RTA_UID) then
    match u32_of v with Some n => set_has HasUID (set_num UID n ri) | None => ri end else
  ri.

(** The error an attribute reports: only the nested payloads have one. *)
Definition route_err (t : Z) (v : bytes) : option err :=
  if decide (t = RTA_MULTIPATH) then (nexthops_of v).2 else
  if decide (t = RTA_VIA) then if via_of v then None else Some ErrRtViaSmall else
  if decide (t = RTA_METRICS) then (metrics_of v).2 else
  if decide (t = RTA_CACHEINFO) then if rcache_of v then None else Some ErrRtaCacheinfoSmall else
  if decide (t = RTA_MFC_STATS) then if mfc_of v then None else Some ErrRtaMfcStatsSmall else
  None.

Lemma nested_eq t v ri : t ∈ [RTA_MULTIPATH; RTA_VIA; RTA_METRICS; RTA_CACHEINFO] ->
  parseRouteNestedAttr t v ri = Some (route_upd t v ri, route_err t v).
Proof.
  intros Hin. unfold parseRouteNestedAttr.
  repeat (apply elem_of_cons in Hin as [->|Hin]); [..|inversion Hin];
    unfold route_upd, route_err, metrics_of; cbn [decide]; repeat (rewrite decide_False by done);
    repeat (rewrite decide_True by done).
  - by rewrite WalkRouteNextHops_eq.
  - rewrite DeserializeRtVia_eq. by destruct (via_of v).
  - destruct (ParseRouteMetrics_total v) as (m & e & -> & _). by destruct e.
  - rewrite DeserializeRtaCacheinfo_eq. by destruct (rcache_of v).
Qed.
Lemma mcast_eq t v ri : t ∈ [RTA_MFC_STATS; RTA_EXPIRES] ->
  setRouteMcastAttr t v ri = Some (route_upd t v ri, route_err t v).
Proof.
  intros Hin. unfold setRouteMcastAttr.
  repeat (apply elem_of_cons in Hin as [->|Hin]); [..|inversion Hin];
    unfold route_upd, route_err; repeat (rewrite decide_False by done); repeat (rewrite decide_True by done).
  - rewrite DeserializeRtaMfcStats_eq. by destruct (mfc_of v).
  - unfold u64_of. destruct (decide (8 <= glen v)); [|done]. by rewrite LE64_ok by lia.
Qed.

Lemma setRouteAttr_eq t v ri : setRouteAttr t v ri = Some (route_upd t v ri, route_err t v).
Proof.
  unfold setRouteAttr.
  destruct (decide (t ∈ [RTA_MULTIPATH; RTA_VIA; RTA_METRICS; RTA_CACHEINFO])) as [Hn|Hn].
  { rewrite nested_eq by done.
    repeat (apply elem_of_cons in Hn as [->|Hn]); [..|inversion Hn]; done. }
  destruct (decide (t ∈ [RTA_MFC_STATS; RTA_EXPIRES])) as [Hm|Hm].
  { rewrite mcast_eq by done. repeat (apply elem_of_cons in Hm as [->|Hm]); [..|inversion Hm]; done. }
  rewrite !with_u32_eq, u8_eq. unfold route_upd, route_err.
  rewrite !(decide_False (P := t = RTA_MULTIPATH)), !(decide_False (P := t = RTA_VIA)),
    !(decide_False (P := t = RTA_METRICS)), !(decide_False (P := t = RTA_CACHEINFO)),
    !(decide_False (P := t = RTA_MFC_STATS)), !(decide_False (P := t = RTA_EXPIRES)) by set_solver.
  repeat (case_decide; [first [done | by destruct (u32_of v) | by destruct (u8_of v)]|]). done.
Qed.

Lemma route_attr_eq t v s : route_attr t v s = Some (route_upd t v s.1, union s.2 (route_err t v)).
Proof.
  destruct s as [ri e]. unfold route_attr. rewrite setRouteAttr_eq. cbn. by destruct e, (route_err t v).
Qed.

Definition route_step (t : Z) (v : bytes) (ri : RouteInfo) : go RouteInfo := Some (route_upd t v ri).

(** The first nested error is the one reported. *)
Definition first_err (l : list (Z * bytes)) : option err := head (omap (fun a => route_err a.1 a.2) l).

Lemma visit_route_eq l ri e :
  exists ri', visit_attrs route_attr l (ri, e) = Some (ri', union e (first_err l)) /\
    visit_attrs route_step l ri = Some ri'.
Proof.
  revert ri e. induction l as [|[t v] l IH]; intros ri e; cbn [visit_attrs].
  - exists ri. cbn. by destruct e.
  - rewrite route_attr_eq. unfold route_step at 2. cbn [fst snd mbind option_bind]. destruct (IH (route_upd t v ri) (union e (route_err t v))) as (r & -> & ->).
    exists r. split; [|done]. do 2 f_equal. unfold first_err.
    destruct e, (route_err t v) eqn:Er; cbn; rewrite Er; try done; by destruct (head _).
Qed.

(** *** The fields of a route *)

Definition route_header_of (b : bytes) : RouteInfo :=
  route_header (mkRtMsg (byte_at b 0) (byte_at b 1) (byte_at b 2) (byte_at b 3) (byte_at b 4) (byte_at b 5)
    (byte_at b 6) (byte_at b 7) (le_at 4 b 8)).

(** The attribute that sets a numeric field, with its reader, if any. *)
Definition num_source (f : num) : option (Z * (bytes -> option Z)) :=
  match f with
  | Table => Some (RTA_TABLE, u32_of) | Oif => Some (RTA_OIF, u32_of) | Iif => Some (RTA_IIF, u32_of)
  | Priority => Some (RTA_PRIORITY, u32_of) | Pref => Some (RTA_PREF, u8_of) | NhID => Some (RtaNhID, u32_of)
  | Mark => Some (RTA_MARK, u32_of) | UID => Some (RTA_UID, u32_of) | Expires => Some (RTA_EXPIRES, u64_of)
  | _ => None
  end.
Definition buf_source (f : buf) : Z :=
  match f with Dst => RTA_DST | Src => RTA_SRC | Gateway => RTA_GATEWAY | PrefSrc => RTA_PREFSRC end.
(** A flag is set when its attribute is there and, for a scalar, long enough. *)
Definition has_source (f : has) : Z * (bytes -> bool) :=
  let long r v := bool_decide (is_Some (r v : option Z)) in
  match f with
  | HasPriority => (RTA_PRIORITY, long u32_of) | HasPref => (RTA_PREF, long u8_of)
  | HasUID => (RTA_UID, long u32_of) | HasExpires => (RTA_EXPIRES, long u64_of)
  | HasMultipath => (RTA_MULTIPATH, fun _ => true) | HasVia => (RTA_VIA, fun _ => true)
  end.

Definition route_fields (body : bytes) (att : Z -> option bytes) (ri : RouteInfo) : Prop :=
  (forall f, ri_num ri f = match num_source f with
     | Some (t, r) => default (ri_num (route_header_of body) f) (att t ≫= r)
     | None => ri_num (route_header_of body) f end) /\
  (forall f, ri_has ri f = from_option (has_source f).2 false (att (has_source f).1)) /\
  (forall f, ri_buf ri f = att (buf_source f) ≫= CopyBytes) /\
  n_Multipath (ri_nested ri) = from_option (fun v => (nexthops_of v).1) [] (att RTA_MULTIPATH) /\
  n_Via (ri_nested ri) = att RTA_VIA ≫= via_of /\
  n_Metrics (ri_nested ri) = att RTA_METRICS ≫= (fun v => (metrics_of v).1) /\
  n_CacheInfo (ri_nested ri) = att RTA_CACHEINFO ≫= rcache_of /\
  n_MfcStats (ri_nested ri) = att RTA_MFC_STATS ≫= mfc_of.

Ltac solve_route Hv :=
  first [exact Hv | by (intros Hx; inversion Hx) | done
    | intros; match goal with H : route_step _ _ _ = Some _ |- _ => injection H as <- end;
      unfold route_upd, upd_nested, set_num, set_has, set_buf, set_nested; repeat case_decide; try congruence;
      repeat case_match; try done;
      cbn [ri_num ri_has ri_buf ri_nested n_Multipath n_Via n_Metrics n_CacheInfo n_MfcStats];
      rewrite ?fn_lookup_insert, ?fn_lookup_insert_ne by done; try done].
Ltac route_field Hv g t h := pose proof (visit_firsts_field route_step g t h
  ltac:(solve_route Hv) ltac:(solve_route Hv) _ [] _ _ ltac:(done) ltac:(solve_route Hv) Hv).

Lemma route_has_false b f : ri_has (route_header_of b) f = false.
Proof. done. Qed.
Lemma route_buf_nil b f : ri_buf (route_header_of b) f = None.
Proof. done. Qed.

(** Rewrites with the first attribute's effect on a field. *)
Ltac use_field := match goal with H : _ = match first_attr ?t ?l with _ => _ end |- _ =>
  cbv beta in H; rewrite H; by destruct (first_attr t l) end.

Section Fields.
Context (l : list (Z * bytes)) (b : bytes) (ri : RouteInfo).
Context (Hv : visit_attrs route_step (firsts [] l) (route_header_of b) = Some ri).

Lemma route_num f : ri_num ri f = match num_source f with
     | Some (t, r) => default (ri_num (route_header_of b) f) (first_attr t l ≫= r)
     | None => ri_num (route_header_of b) f end.
Proof using Hv.
  destruct f; cbn [num_source];
    match goal with
    | |- ri_num _ ?f = default _ (first_attr ?t _ ≫= ?r) =>
        route_field Hv (fun x => ri_num x f) t (fun v d => default d (r v))
    | |- ri_num _ ?f = _ => route_field Hv (fun x => ri_num x f) 63 (fun (_ : bytes) (d : Z) => d)
    end;
    use_field.
Qed.

Lemma route_buf f : ri_buf ri f = first_attr (buf_source f) l ≫= CopyBytes.
Proof using Hv.
  destruct f; cbn [buf_source];
    match goal with |- ri_buf _ ?f = first_attr ?t _ ≫= _ =>
        route_field Hv (fun x => ri_buf x f) t (fun v (_ : option bytes) => CopyBytes v) end;
    use_field.
Qed.

Lemma route_has f : ri_has ri f = from_option (has_source f).2 false (first_attr (has_source f).1 l).
Proof using Hv.
  destruct f; cbn [has_source fst snd];
    match goal with |- ri_has _ ?f = from_option ?s _ (first_attr ?t _) =>
        route_field Hv (fun x => ri_has x f) t (fun v (d : bool) => if s v then true else d) end;
    match goal with H : _ = match first_attr _ _ with _ => _ end |- _ => cbv beta in H; rewrite H end;
    rewrite route_has_false; destruct (first_attr _ _) as [v|]; cbn; try done; by case_bool_decide.
Qed.

Lemma metrics_err v e : (metrics_of v).2 = Some e -> (metrics_of v).1 = None.
Proof.
  unfold metrics_of, ParseRouteMetrics. destruct (WalkRTAttrs _ _ _) as [[m [e'|]]|]; by cbn.
Qed.

Lemma route_multipath : n_Multipath (ri_nested ri) =
  from_option (fun v => (nexthops_of v).1) [] (first_attr RTA_MULTIPATH l).
Proof using Hv.
  route_field Hv (fun x => n_Multipath (ri_nested x)) RTA_MULTIPATH
    (fun v (d : list RouteNextHop) => d ++ (nexthops_of v).1). use_field.
Qed.
Lemma route_via : n_Via (ri_nested ri) = first_attr RTA_VIA l ≫= via_of.
Proof using Hv.
  route_field Hv (fun x => n_Via (ri_nested x)) RTA_VIA
    (fun v d => match via_of v with Some x => Some x | None => d end).
  match goal with H : _ = match first_attr ?t ?l with _ => _ end |- _ =>
    cbv beta in H; rewrite H; destruct (first_attr t l) as [v|] end; [|done]. cbn. by destruct (via_of v).
Qed.
Lemma route_metrics : n_Metrics (ri_nested ri) = first_attr RTA_METRICS l ≫= (fun v => (metrics_of v).1).
Proof using Hv.
  route_field Hv (fun x => n_Metrics (ri_nested x)) RTA_METRICS
    (fun v d => match metrics_of v with (m, None) => m | _ => d end).
  match goal with H : _ = match first_attr ?t ?l with _ => _ end |- _ =>
    cbv beta in H; rewrite H; destruct (first_attr t l) as [v|] end; [|done].
  cbn [mbind option_bind]. pose proof (metrics_err v) as He. destruct (metrics_of v) as [m [e|]]; [|done].
  cbn [fst snd] in *. by rewrite (He e).
Qed.
Lemma route_rcache : n_CacheInfo (ri_nested ri) = first_attr RTA_CACHEINFO l ≫= rcache_of.
Proof using Hv.
  route_field Hv (fun x => n_CacheInfo (ri_nested x)) RTA_CACHEINFO
    (fun v d => match rcache_of v with Some x => Some x | None => d end).
  match goal with H : _ = match first_attr ?t ?l with _ => _ end |- _ =>
    cbv beta in H; rewrite H; destruct (first_attr t l) as [v|] end; [|done]. cbn. by destruct (rcache_of v).
Qed.
Lemma route_mfc : n_MfcStats (ri_nested ri) = first_attr RTA_MFC_STATS l ≫= mfc_of.
Proof using Hv.
  route_field Hv (fun x => n_MfcStats (ri_nested x)) RTA_MFC_STATS
    (fun v d => match mfc_of v with Some x => Some x | None => d end).
  match goal with H : _ = match first_attr ?t ?l with _ => _ end |- _ =>
    cbv beta in H; rewrite H; destruct (first_attr t l) as [v|] end; [|done]. cbn. by destruct (mfc_of v).
Qed.
End Fields.

Lemma DeserializeRtMsg_ok b m : 12 <= glen b ->
  DeserializeRtMsg b m = Some (mkRtMsg (byte_at b 0) (byte_at b 1) (byte_at b 2) (byte_at b 3) (byte_at b 4)
    (byte_at b 5) (byte_at b 6) (byte_at b 7) (le_at 4 b 8), 12, None).
Proof.
  intros H. unfold DeserializeRtMsg, RtMsgSizeCst. rewrite decide_False by lia.
  rewrite !index_ok by lia. cbn [mbind option_bind]. by rewrite LE32_ok by lia.
Qed.

Lemma ParseNewRoute_eq body : 12 <= glen body ->
  exists ri, visit_attrs route_step (firsts [] (parse_attrs (drop 12 body)).1) (route_header_of body) = Some ri /\
    ParseNewRoute body = Some
      (match union (parse_attrs (drop 12 body)).2 (first_err (firsts [] (parse_attrs (drop 12 body)).1)) with
       | Some e => (zeroRouteInfo, Some e) | None => (ri, None) end).
Proof.
  intros H. unfold ParseNewRoute. rewrite DeserializeRtMsg_ok by done. cbn [mbind option_bind].
  unfold RtMsgSizeCst. rewrite slice_tail by lia. cbn [mbind option_bind]. change (Z.to_nat 12) with 12%nat.
  change (route_header _) with (route_header_of body).
  destruct (guarded_walk_total route_attr (drop 12 body) (route_header_of body, None)) as (seen & x' & Hv & ->).
  { intros. rewrite route_attr_eq. by eexists. }
  destruct (visit_route_eq (firsts [] (parse_attrs (drop 12 body)).1) (route_header_of body) None) as (ri & Hr & Hs).
  rewrite Hr in Hv. injection Hv as <-. exists ri. split; [done|]. cbn [mbind option_bind].
  by destruct (parse_attrs (drop 12 body)).2, (first_err _).
Qed.

(** Parsing a route message always returns. A body shorter than the
    header, a mis-framed attribute or else the first malformed nested payload
    (multipath, via, metrics, cacheinfo, multicast statistics) gives the zero
    value and that error; otherwise every field is the header's or the first
    attribute's of its type, RTA_TABLE replacing the header's 8-bit table. *)
Theorem ParseNewRoute_spec body :
  exists ri e, ParseNewRoute body = Some (ri, e) /\
    let w := parse_attrs (drop 12 body) in
    match e with
    | Some e => ri = zeroRouteInfo /\
        (if decide (glen body < 12) then e = ErrRtMsgSmall
         else union w.2 (first_err (firsts [] w.1)) = Some e)
    | None => 12 <= glen body /\ w.2 = None /\ first_err (firsts [] w.1) = None /\
        route_fields body (fun t => first_attr t w.1) ri
    end.
Proof.
  destruct (decide (glen body < 12)) as [H|H].
  - exists zeroRouteInfo, (Some ErrRtMsgSmall). split; [|done].
    unfold ParseNewRoute, DeserializeRtMsg, RtMsgSizeCst. by rewrite decide_True by done.
  - destruct (ParseNewRoute_eq body) as (ri & Hv & ->); [lia|]. cbv zeta.
    destruct (union _ _) as [e|] eqn:He.
    + by exists zeroRouteInfo, (Some e).
    + exists ri, None. split; [done|].
      destruct (parse_attrs (drop 12 body)).2 eqn:E2, (first_err _) eqn:E3; try done.
      split_and!; [lia|done|done|]. unfold route_fields.
      split_and!; [apply (route_num _ _ _ Hv)|apply (route_has _ _ _ Hv)|apply (route_buf _ _ _ Hv)|
        apply (route_multipath _ _ _ Hv)|apply (route_via _ _ _ Hv)|apply (route_metrics _ _ _ Hv)|
        apply (route_rcache _ _ _ Hv)|apply (route_mfc _ _ _ Hv)].
Qed.
