(* ===== verification/LinkStats.v ===== *)
(** Interface counters (pkg/xtcpnl/xtcpnl_link_stats.go and the part of
    xtcpnl_ipstats_mib.go it uses): rtnl_link_stats, rtnl_link_stats64 and the
    IPv6 MIB as three sources of one 64-bit set. *)

From stdpp Require Import functions.
From S2P Require Import Prelude NlHeaders RtAttr NlRequest NlEnvelope.

(** A nest walked for what can be read of it: an error ends the walk and is
    dropped. *)
Definition walkNestTolerant {S} (val : bytes) (fn : Z -> bytes -> S -> go S) (s : S) : go S :=
  '(s, _) ← WalkRTAttrs fn val s; Some s.

(** The counters, in the order of both structs; the 32-bit one ends at
    [RxNohandler]. *)
Inductive stat :=
  | RxPackets | TxPackets | RxBytes | TxBytes | RxErrors | TxErrors | RxDropped | TxDropped
  | Multicast | Collisions
  | RxLengthErrors | RxOverErrors | RxCrcErrors | RxFrameErrors | RxFifoErrors | RxMissedErrors
  | TxAbortedErrors | TxCarrierErrors | TxFifoErrors | TxHeartbeatErrors | TxWindowErrors
  | RxCompressed | TxCompressed | RxNohandler | RxOtherhostDropped.
#[export] Instance stat_eq : EqDecision stat.
Proof. solve_decision. Defined.

Definition RtnlLinkStats : Type := stat -> Z.
Definition RtnlLinkStats64 : Type := stat -> Z.
Definition zero_stats : stat -> Z := fun _ => 0.

Definition fields32 : list stat :=
  [RxPackets; TxPackets; RxBytes; TxBytes; RxErrors; TxErrors; RxDropped; TxDropped; Multicast; Collisions;
   RxLengthErrors; RxOverErrors; RxCrcErrors; RxFrameErrors; RxFifoErrors; RxMissedErrors;
   TxAbortedErrors; TxCarrierErrors; TxFifoErrors; TxHeartbeatErrors; TxWindowErrors;
   RxCompressed; TxCompressed; RxNohandler].
Definition fields64 : list stat := fields32 ++ [RxOtherhostDropped].

Definition RtnlLinkStatsSizeCst : Z := 96.
Definition RtnlLinkStats64SizeCst : Z := 200.
Definition Inet6StatsCounterSizeCst : Z := 8.

(** The loop over the field pointers, [w] bytes a counter, from field [i]. *)
Fixpoint read_stats (w : nat) (size : Z) (data : bytes) (fs : list stat) (i : Z) (s : stat -> Z)
    : go ((stat -> Z) * Z) :=
  match fs with
  | [] => Some (s, size)
  | f :: fs =>
      let off := i * Z.of_nat w in
      if decide (glen data < off + Z.of_nat w) then Some (s, off) else
      v ← slice data off (off + Z.of_nat w) ≫= le_uint w;
      read_stats w size data fs (i + 1) (<[f := v]> s)
  end.

(** The count read; there is never an error. *)
Definition DeserializeRtnlLinkStats (data : bytes) : go (RtnlLinkStats * Z) :=
  read_stats 4 RtnlLinkStatsSizeCst data fields32 0 zero_stats.
Definition DeserializeRtnlLinkStats64 (data : bytes) : go (RtnlLinkStats64 * Z) :=
  read_stats 8 RtnlLinkStats64SizeCst data fields64 0 zero_stats.

(** Every field but [RxOtherhostDropped], which the 32-bit struct lacks. *)
Definition WidenRtnlLinkStats (s : RtnlLinkStats) : RtnlLinkStats64 :=
  fun f => if decide (f = RxOtherhostDropped) then 0 else s f.

(** The MIB indices the summary reads, by their place in the enum. *)
Definition IPStatsMibInPkts : Z := 1.
Definition IPStatsMibInOctets : Z := 2.
Definition IPStatsMibOutPkts : Z := 9.
Definition IPStatsMibOutOctets : Z := 10.
Definition IPStatsMibInDiscards : Z := 18.
Definition IPStatsMibOutDiscards : Z := 19.
Definition IPStatsMibInMcastPkts : Z := 28.
Definition IPStatsMibCsumErrors : Z := 36.

Definition mib_at (mib : bytes) (idx : Z) : go Z :=
  let off := idx * Inet6StatsCounterSizeCst in
  if decide (off < 0 \/ glen mib < off + Inet6StatsCounterSizeCst) then Some 0
  else LE64 mib off (off + Inet6StatsCounterSizeCst).

Definition Inet6StatsSnmpCounters (mib : bytes) : go RtnlLinkStats64 :=
  rxp ← mib_at mib IPStatsMibInPkts;
  rxb ← mib_at mib IPStatsMibInOctets;
  txp ← mib_at mib IPStatsMibOutPkts;
  txb ← mib_at mib IPStatsMibOutOctets;
  rxe ← mib_at mib IPStatsMibInDiscards;
  txe ← mib_at mib IPStatsMibOutDiscards;
  mc ← mib_at mib IPStatsMibInMcastPkts;
  fe ← mib_at mib IPStatsMibCsumErrors;
  Some (<[RxPackets := rxp]> (<[RxBytes := rxb]> (<[TxPackets := txp]> (<[TxBytes := txb]>
    (<[RxErrors := rxe]> (<[TxErrors := txe]> (<[Multicast := mc]> (<[RxFrameErrors := fe]> zero_stats)))))))).

Definition IFLA_INET6_STATS : Z := 3.

(** A nil slice is [None]. *)
Definition inet6StatsFromProtinfo (protinfo : bytes) : go (option bytes) :=
  walkNestTolerant protinfo
    (fun atype inner (mib : option bytes) =>
       Some (if bool_decide (atype = IFLA_INET6_STATS) && bool_decide (mib = None) then Some inner else mib))
    None.

(** [None] is ErrLinkStatsNone. *)
Definition DecodeLinkStats (stats64 stats protinfo : option bytes) : go (option RtnlLinkStats64) :=
  match stats64, stats, protinfo with
  | Some b, _, _ => '(s, _) ← DeserializeRtnlLinkStats64 b; Some (Some s)
  | None, Some b, _ => '(s, _) ← DeserializeRtnlLinkStats b; Some (Some (WidenRtnlLinkStats s))
  | None, None, Some p =>
      mib ← inet6StatsFromProtinfo p;
      match mib with
      | None => Some None
      | Some mib => s ← Inet6StatsSnmpCounters mib; Some (Some s)
      end
  | None, None, None => Some None
  end.

(** ** Lemmas *)

Lemma walkNestTolerant_eq {S} val (fn : Z -> bytes -> S -> go S) s :
  walkNestTolerant val fn s = visit_attrs fn (parse_attrs val).1 s.
Proof.
  unfold walkNestTolerant. rewrite WalkRTAttrs_eq. by destruct (visit_attrs _ _ _).
Qed.

(** A counter's place in the struct. *)
Fixpoint stat_pos (f : stat) (fs : list stat) (i : Z) : Z :=
  match fs with [] => i | g :: fs => if decide (f = g) then i else stat_pos f fs (i + 1) end.

(** The counter at a place, or zero where the payload ends before it. *)
Definition counter_at (w : nat) (data : bytes) (i : Z) : Z :=
  if decide (glen data < (i + 1) * Z.of_nat w) then 0 else le_at w data (i * Z.of_nat w).

Lemma read_stats_eq w size data fs i s : 0 <= i -> NoDup fs ->
  exists s' n, read_stats w size data fs i s = Some (s', n) /\
    forall f, s' f = if decide (f ∈ fs) then
        (if decide (glen data < (stat_pos f fs i + 1) * Z.of_nat w) then s f
         else le_at w data (stat_pos f fs i * Z.of_nat w))
      else s f.
Proof.
  revert i s. induction fs as [|g fs IH]; intros i s Hi Hnd; cbn [read_stats stat_pos].
  { exists s, size. split; [done|]. intros f. rewrite decide_False by (intros H; inversion H). done. }
  apply NoDup_cons in Hnd as [Hg Hnd].
  assert (forall f, i <= stat_pos f fs i) as Hpos.
  { intros f. clear. assert (forall j, i <= j -> i <= stat_pos f fs j) as H; [|apply H; lia].
    induction fs as [|x fs IH]; intros j Hj; cbn [stat_pos]; [done|]. case_decide; [done|]. apply IH. lia. }
  assert (forall f j, j <= stat_pos f fs j) as Hpos'.
  { clear. intros f. induction fs as [|x fs IH]; intros j; cbn [stat_pos]; [lia|]. case_decide; [lia|].
    specialize (IH (j + 1)). lia. }
  case_decide as Hs.
  - exists s, (i * Z.of_nat w). split; [done|]. intros f. destruct (decide (f ∈ g :: fs)); [|done].
    destruct (decide (f = g)); [by rewrite decide_True by nia|].
    rewrite decide_True; [done|]. specialize (Hpos' f (i + 1)). nia.
  - rewrite le_slice_ok by nia. cbn [mbind option_bind].
    destruct (IH (i + 1) (<[g := le_at w data (i * Z.of_nat w)]> s)) as (s' & n & -> & Hs'); [lia|done|].
    exists s', n. split; [done|]. intros f. rewrite Hs'. destruct (decide (f = g)) as [->|Hf].
    + rewrite (decide_False (P := g ∈ fs)) by done. rewrite fn_lookup_insert.
      rewrite decide_True by (by left). by rewrite decide_False by nia.
    + rewrite fn_lookup_insert_ne by done. destruct (decide (f ∈ fs)).
      * by rewrite (decide_True (P := f ∈ g :: fs)) by (by right).
      * rewrite (decide_False (P := f ∈ g :: fs)); [done|]. intros H. apply elem_of_cons in H as [|]; done.
Qed.

Lemma fields64_nodup : NoDup fields64.
Proof. apply (bool_decide_unpack (NoDup fields64)). vm_compute. exact I. Qed.
Lemma fields32_nodup : NoDup fields32.
Proof. apply (bool_decide_unpack (NoDup fields32)). vm_compute. exact I. Qed.

Lemma DeserializeRtnlLinkStats64_eq data :
  exists s n, DeserializeRtnlLinkStats64 data = Some (s, n) /\
    forall f, s f = counter_at 8 data (stat_pos f fields64 0).
Proof.
  destruct (read_stats_eq 8 RtnlLinkStats64SizeCst data fields64 0 zero_stats) as (s & n & Hr & Hs);
    [lia|apply fields64_nodup|]. exists s, n. split; [done|]. intros f. rewrite Hs.
  rewrite decide_True; [done|]. destruct f; apply (bool_decide_unpack (_ ∈ fields64)); vm_compute; exact I.
Qed.
Lemma DeserializeRtnlLinkStats_eq data :
  exists s n, DeserializeRtnlLinkStats data = Some (s, n) /\
    forall f, WidenRtnlLinkStats s f =
      if decide (f = RxOtherhostDropped) then 0 else counter_at 4 data (stat_pos f fields64 0).
Proof.
  destruct (read_stats_eq 4 RtnlLinkStatsSizeCst data fields32 0 zero_stats) as (s & n & Hr & Hs);
    [lia|apply fields32_nodup|]. exists s, n. split; [done|]. intros f. unfold WidenRtnlLinkStats.
  destruct (decide (f = RxOtherhostDropped)) as [|Hf]; [done|]. rewrite Hs.
  rewrite decide_True; [destruct f; done|].
  destruct f; try done; apply (bool_decide_unpack (_ ∈ fields32)); vm_compute; exact I.
Qed.

Lemma mib_at_total mib i : is_Some (mib_at mib i).
Proof.
  unfold mib_at, Inet6StatsCounterSizeCst. case_decide; [by eexists|]. rewrite LE64_ok by lia. by eexists.
Qed.
Lemma Inet6StatsSnmpCounters_total mib : is_Some (Inet6StatsSnmpCounters mib).
Proof.
  unfold Inet6StatsSnmpCounters.
  repeat match goal with |- context [mib_at mib ?i] =>
    let x := fresh in destruct (mib_at_total mib i) as [x ->]; cbn [mbind option_bind] end. by eexists.
Qed.

Lemma DecodeLinkStats_total a b c : is_Some (DecodeLinkStats a b c).
Proof.
  unfold DecodeLinkStats. destruct a as [d|]; [|destruct b as [d|]; [|destruct c as [d|]]].
  - destruct (DeserializeRtnlLinkStats64_eq d) as (s & n & -> & _). by eexists.
  - destruct (DeserializeRtnlLinkStats_eq d) as (s & n & -> & _). by eexists.
  - unfold inet6StatsFromProtinfo. rewrite walkNestTolerant_eq.
    destruct (visit_total (fun atype inner (mib : option bytes) =>
       Some (if bool_decide (atype = IFLA_INET6_STATS) && bool_decide (mib = None) then Some inner else mib))
       (parse_attrs d).1 None) as [m ->]; [intros; by eexists|]. cbn [mbind option_bind].
    destruct m as [m|]; [|by eexists]. destruct (Inet6StatsSnmpCounters_total m) as [s ->]. by eexists.
  - by eexists.
Qed.
