(* ===== verification/Localnet.v ===== *)
(** Local networks (pkg/localnet/localnet.go): one namespace's addresses,
    routes and link names as an immutable snapshot, and the classification of a
    destination as self, a local subnet or remote.

    The longest-prefix-match table (github.com/gaissmai/bart) is a third-party
    package: it is the class [PrefixTable], whose laws are its documented
    contract. *)

From stdpp Require Import countable.
From S2P Require Import Prelude NlHeaders FlatRecord Enrich RtParsers.

(** ** netip: addresses and prefixes *)

#[export] Instance Addr_eq : EqDecision Addr.
Proof. solve_decision. Defined.
#[export] Instance Addr_countable : Countable Addr.
Proof.
  refine (inj_countable'
    (fun a => match a with Addr4 b => inl b | Addr16 b => inr b end)
    (fun s => match s with inl b => Addr4 b | inr b => Addr16 b end) _).
  by intros [].
Defined.

Definition addr_bytes (a : Addr) : bytes := match a with Addr4 b | Addr16 b => b end.
Definition with_bytes (a : Addr) (b : bytes) : Addr :=
  match a with Addr4 _ => Addr4 b | Addr16 _ => Addr16 b end.
Definition BitLen (a : Addr) : Z := match a with Addr4 _ => 32 | Addr16 _ => 128 end.
Definition Is4 (a : Addr) : bool := match a with Addr4 _ => true | Addr16 _ => false end.

Definition ipv6_loopback : bytes := replicate 15 0 ++ [1].
Definition IsLoopback (a : Addr) : bool :=
  match a with
  | Addr4 b => bool_decide (byte_at b 0 = 127)
  | Addr16 b => bool_decide (b = ipv6_loopback)
  end.
Definition IPv4Unspecified : Addr := Addr4 (replicate 4 0).
Definition IPv6Unspecified : Addr := Addr16 (replicate 16 0).
Definition IsUnspecified (a : Addr) : bool :=
  bool_decide (a = IPv4Unspecified \/ a = IPv6Unspecified).

(** An address has as many bytes as its family says. *)
Definition wf_addr (a : Addr) : Prop :=
  match a with Addr4 b => glen b = 4 | Addr16 b => glen b = 16 end.
#[export] Instance wf_addr_dec a : Decision (wf_addr a).
Proof. destruct a; apply _. Defined.

Definition AddrFromSlice (b : bytes) : option Addr :=
  if decide (glen b = 4) then Some (Addr4 b) else
  if decide (glen b = 16) then Some (Addr16 b) else None.

(** [netip.Prefix]; the zero, invalid prefix is [None] where it occurs. *)
Record Prefix := PrefixFrom { pfx_Addr : Addr; Bits : Z }.
#[export] Instance Prefix_eq : EqDecision Prefix.
Proof. solve_decision. Defined.
#[export] Instance Prefix_countable : Countable Prefix.
Proof.
  refine (inj_countable' (fun p => (pfx_Addr p, Bits p)) (fun p => PrefixFrom p.1 p.2) _).
  by intros [].
Defined.

(** The top [n] bits of the bytes, the others zero. *)
Fixpoint mask_bytes (n : Z) (l : bytes) : bytes :=
  match l with
  | [] => []
  | b :: l =>
      (if decide (8 <= n) then b else if decide (n <= 0) then 0 else Z.land b (256 - 2 ^ (8 - n)))
      :: mask_bytes (n - 8) l
  end.
Definition mask_addr (n : Z) (a : Addr) : Addr := with_bytes a (mask_bytes n (addr_bytes a)).
Definition Masked (p : Prefix) : Prefix := PrefixFrom (mask_addr (Bits p) (pfx_Addr p)) (Bits p).

(** A prefix with no bit set below its length. *)
Definition canonical (p : Prefix) : Prop :=
  wf_addr (pfx_Addr p) /\ 0 <= Bits p <= BitLen (pfx_Addr p) /\ Masked p = p.
Definition contains (p : Prefix) (a : Addr) : Prop :=
  0 <= Bits p <= BitLen a /\ p = PrefixFrom (mask_addr (Bits p) a) (Bits p).

(** ** The table *)

Inductive Locality := LocalityUnspecified | LocalitySelf | LocalitySubnet | LocalityRemote.
#[export] Instance Locality_eq : EqDecision Locality.
Proof. solve_decision. Defined.
(** The constants' values. *)
Definition locality_value (l : Locality) : Z :=
  match l with LocalityUnspecified => 0 | LocalitySelf => 1 | LocalitySubnet => 2 | LocalityRemote => 3 end.

Record routeEntry := mkEntry { e_loc : Locality; e_oif : Z }.

(** The longest match for [a] in a set of prefixes given by exact lookup. *)
Fixpoint longest {E} (g : Prefix -> option E) (a : Addr) (n : nat) : option E :=
  match g (PrefixFrom (mask_addr (Z.of_nat n) a) (Z.of_nat n)) with
  | Some e => Some e
  | None => match n with O => None | S n => longest g a n end
  end.
Definition longest_match {E} (g : Prefix -> option E) (a : Addr) : option E :=
  longest g a (Z.to_nat (BitLen a)).

(** bart.Table: Insert, Get of an exact prefix, Lookup of an address. *)
Class PrefixTable (T : Type) := {
  tbl_empty : T;
  tbl_Insert : T -> Prefix -> routeEntry -> T;
  tbl_Get : T -> Prefix -> option routeEntry;
  tbl_Lookup : T -> Addr -> option routeEntry }.
Class PrefixTableLaws (T : Type) `{PrefixTable T} : Prop := {
  Get_empty p : tbl_Get tbl_empty p = None;
  Get_Insert t p q e : canonical p -> canonical q ->
    tbl_Get (tbl_Insert t p e) q = if decide (p = q) then Some e else tbl_Get t q;
  Lookup_longest t a : wf_addr a -> tbl_Lookup t a = longest_match (tbl_Get t) a }.

(** ** The snapshot *)

Record Snapshot (T : Type) := mkSnapshot {
  tbl : option T; ifnames : gmap Z string; nonLoopbackSelf : bool }.
Arguments mkSnapshot {T}. Arguments tbl {T}. Arguments ifnames {T}. Arguments nonLoopbackSelf {T}.

Definition hostPrefix (a : Addr) : Prefix := PrefixFrom a (BitLen a).

Definition addrFromBytes (b : bytes) : option Addr :=
  if decide (glen b <> 4 /\ glen b <> 16) then None else
  a ← AddrFromSlice b; Some (Unmap a).

Definition prefixFromBytes (b : bytes) (bits : Z) : option Prefix :=
  a ← addrFromBytes b;
  if decide (BitLen a < bits) then None else Some (Masked (PrefixFrom a bits)).

Definition defaultPrefix (family : Z) : option Prefix :=
  if decide (family = AF_INET) then Some (PrefixFrom IPv4Unspecified 0) else
  if decide (family = AF_INET6) then Some (PrefixFrom IPv6Unspecified 0) else None.

(** A nil slice has length 0. *)
Definition raw (b : option bytes) : bytes := default [] b.

Definition routePrefix (ri : Route.RouteInfo) : option Prefix :=
  if decide (0 < glen (raw (Route.ri_buf ri Route.Dst)))
  then prefixFromBytes (raw (Route.ri_buf ri Route.Dst)) (Route.ri_num ri Route.DstLen)
  else if decide (Route.ri_num ri Route.DstLen = 0) then defaultPrefix (Route.ri_num ri Route.Family)
  else None.

Definition gatewayReached (ri : Route.RouteInfo) : bool :=
  bool_decide (0 < glen (raw (Route.ri_buf ri Route.Gateway))) || Route.ri_has ri Route.HasVia ||
  Route.ri_has ri Route.HasMultipath || bool_decide (Route.ri_num ri Route.NhID <> 0).

Definition RT_TABLE_MAIN : Z := 254.
Definition RT_TABLE_LOCAL : Z := 255.
Definition RTN_UNICAST : Z := 1.
Definition RTN_LOCAL : Z := 2.

Definition inClassifiedTable (table : Z) : bool :=
  bool_decide (table = RT_TABLE_MAIN) || bool_decide (table = RT_TABLE_LOCAL).

Definition isLoopbackPrefix (pfx : Prefix) : bool :=
  let a := pfx_Addr pfx in
  if negb (IsLoopback a) then false else
  if Is4 a then bool_decide (8 <= Bits pfx) else bool_decide (Bits pfx = 128).

Section Snapshot.
Context {T : Type} `{PrefixTable T}.

Definition insertRoute (t : T) (pfx : Prefix) (e : routeEntry) : T :=
  match tbl_Get t pfx with
  | Some cur => if decide (e_loc cur = LocalitySelf) then t else tbl_Insert t pfx e
  | None => tbl_Insert t pfx e
  end.

(** The body of the loop over the addresses. *)
Definition build_addr (s : T * bool) (ai : Addr.AddrInfo) : T * bool :=
  let '(t, nls) := s in
  let b := raw (Addr.ai_buf ai Addr.Local_) in
  let b := if decide (glen b = 0) then raw (Addr.ai_buf ai Addr.Address) else b in
  match addrFromBytes b with
  | Some a =>
      (tbl_Insert t (hostPrefix a) (mkEntry LocalitySelf (Addr.ai_num ai Addr.Index)),
       if negb (IsLoopback a) then true else nls)
  | None => s
  end.

(** The body of the loop over the routes. *)
Definition build_route (s : T * bool) (ri : Route.RouteInfo) : T * bool :=
  let '(t, nls) := s in
  if negb (inClassifiedTable (Route.ri_num ri Route.Table)) then s else
  let oif := Route.ri_num ri Route.Oif in
  if decide (Route.ri_num ri Route.Type_ = RTN_LOCAL) then
    match prefixFromBytes (raw (Route.ri_buf ri Route.Dst)) (Route.ri_num ri Route.DstLen) with
    | Some pfx => (tbl_Insert t pfx (mkEntry LocalitySelf oif), if negb (isLoopbackPrefix pfx) then true else nls)
    | None => s
    end
  else if decide (Route.ri_num ri Route.Type_ = RTN_UNICAST) then
    match routePrefix ri with
    | None => s
    | Some pfx =>
        if gatewayReached ri then
          let oif := if Route.ri_has ri Route.HasMultipath || bool_decide (Route.ri_num ri Route.NhID <> 0)
                     then 0 else oif in
          (insertRoute t pfx (mkEntry LocalityRemote oif), nls)
        else if decide (Bits pfx = 0) then (insertRoute t pfx (mkEntry LocalityRemote oif), nls)
        else (insertRoute t pfx (mkEntry LocalitySubnet oif), nls)
    end
  else s.

Definition BuildSnapshot (addrs : list Addr.AddrInfo) (routes : list Route.RouteInfo)
    (links : gmap Z string) : Snapshot T :=
  let '(t, nls) := foldl build_route (foldl build_addr (tbl_empty, false) addrs) routes in
  mkSnapshot (Some t) links nls.

(** A nil snapshot and an invalid address are [None]. *)
Definition HasNonLoopbackSelf (s : option (Snapshot T)) : bool :=
  match s with Some s => nonLoopbackSelf s | None => false end.

Definition Lookup (s : option (Snapshot T)) (addr : option Addr) : Locality * Z * bool :=
  match Unmap <$> addr with
  | None => (LocalityUnspecified, 0, false)
  | Some a =>
      if IsUnspecified a then (LocalityUnspecified, 0, true) else
      let loopback := IsLoopback a in
      let e := s ← s; t ← tbl s; tbl_Lookup t a in
      match e with
      | Some e =>
          if loopback then
            if decide (e_loc e <> LocalitySelf) then (LocalitySelf, 0, true)
            else (LocalitySelf, e_oif e, true)
          else (e_loc e, e_oif e, true)
      | None => if loopback then (LocalitySelf, 0, true) else (LocalityRemote, 0, true)
      end
  end.

Definition Classify (s : option (Snapshot T)) (addr : option Addr) : Locality := (Lookup s addr).1.1.

Definition IfName (s : option (Snapshot T)) (i : Z) : string :=
  match s with
  | Some s => if decide (i = 0) then "" else default "" (ifnames s !! i)
  | None => ""
  end.

Record Resolution := mkResolution {
  r_Locality : Locality; r_EgressIfindex : Z; r_EgressIfname : string; r_BoundIfname : string;
  r_Remote : bool }.

(** [Snapshot.Resolve] *)
Definition SnapshotResolve (s : option (Snapshot T)) (dst : option Addr) (boundIfindex : Z) : Resolution :=
  let '(loc, egressIf, _) := Lookup s dst in
  mkResolution loc egressIf (IfName s egressIf) (IfName s boundIfindex) (bool_decide (loc = LocalityRemote)).
End Snapshot.
