(* ===== verification/LocalnetSpec.v ===== *)
(** What a snapshot answers: its table as a function of the dumps, the
    classification as the longest match in that function, and the consequences
    the enrichment relies on. *)

From stdpp Require Import countable.
From S2P Require Import Prelude NlHeaders FlatRecord Enrich RtParsers Localnet.

(** ** Masks *)

Lemma length_mask n l : length (mask_bytes n l) = length l.
Proof. revert n. induction l as [|b l IH]; intros n; cbn; [done|]. by rewrite IH. Qed.

Lemma mask_bytes_full n l : 8 * glen l <= n -> mask_bytes n l = l.
Proof.
  revert n. induction l as [|b l IH]; intros n Hn; [done|]. rewrite glen_cons in Hn. pose proof (glen_nonneg l).
  cbn [mask_bytes]. rewrite decide_True by lia. rewrite IH by lia. done.
Qed.

Lemma mask_bytes_twice n l : mask_bytes n (mask_bytes n l) = mask_bytes n l.
Proof.
  revert n. induction l as [|b l IH]; intros n; cbn [mask_bytes]; [done|]. rewrite IH. f_equal.
  repeat case_decide; try done; try lia. by rewrite <- Z.land_assoc, Z.land_diag.
Qed.

Lemma mask_bytes_zero n : n <= 0 -> forall l, mask_bytes n l = replicate (length l) 0.
Proof.
  intros Hn l. revert n Hn. induction l as [|b l IH]; intros n Hn; [done|]. cbn [mask_bytes length replicate].
  rewrite decide_False, decide_True by lia. by rewrite IH by lia.
Qed.

Lemma wf_mask n a : wf_addr a -> wf_addr (mask_addr n a).
Proof. destruct a; unfold wf_addr, mask_addr, glen; cbn; by rewrite length_mask. Qed.
Lemma BitLen_nonneg a : 0 <= BitLen a.
Proof. by destruct a. Qed.
Lemma BitLen_mask n a : BitLen (mask_addr n a) = BitLen a.
Proof. by destruct a. Qed.
Lemma mask_addr_twice n a : mask_addr n (mask_addr n a) = mask_addr n a.
Proof. destruct a; unfold mask_addr; cbn; by rewrite mask_bytes_twice. Qed.
Lemma mask_addr_full a : wf_addr a -> mask_addr (BitLen a) a = a.
Proof. destruct a; unfold wf_addr, mask_addr; cbn; intros H; by rewrite mask_bytes_full by lia. Qed.

Lemma canonical_masked a n : wf_addr a -> 0 <= n <= BitLen a -> canonical (PrefixFrom (mask_addr n a) n).
Proof.
  intros Ha Hn. unfold canonical, Masked. cbn [pfx_Addr Bits]. rewrite BitLen_mask, mask_addr_twice.
  split_and!; [by apply wf_mask|lia..|done].
Qed.
Lemma canonical_host a : wf_addr a -> canonical (hostPrefix a).
Proof.
  intros Ha. unfold hostPrefix. rewrite <- (mask_addr_full a Ha) at 1. apply canonical_masked; [done|].
  split; [apply BitLen_nonneg|lia].
Qed.
Lemma contains_canonical p a : wf_addr a -> contains p a -> canonical p.
Proof. intros Ha [Hb ->]. by apply canonical_masked. Qed.

Lemma wf_Unmap a : wf_addr a -> wf_addr (Unmap a).
Proof.
  destruct a as [b|b]; [done|]. unfold wf_addr, Unmap. cbn. intros H. case_decide; [|done].
  cbn. unfold glen in *. rewrite length_drop. lia.
Qed.
Lemma addrFromBytes_wf b a : addrFromBytes b = Some a -> wf_addr a.
Proof.
  unfold addrFromBytes. case_decide; [done|]. intros H1. apply bind_Some in H1 as (x & Hx & [= <-]).
  apply wf_Unmap. unfold AddrFromSlice in Hx. repeat case_decide; simplify_eq; done.
Qed.
Lemma prefixFromBytes_canonical b n p : 0 <= n -> prefixFromBytes b n = Some p -> canonical p.
Proof.
  unfold prefixFromBytes. intros Hn H. apply bind_Some in H as (a & Ha & H). case_decide; [done|]. injection H as <-.
  unfold Masked. cbn [Bits pfx_Addr]. apply canonical_masked; [by eapply addrFromBytes_wf|lia].
Qed.
Lemma defaultPrefix_canonical f p : defaultPrefix f = Some p -> canonical p.
Proof.
  unfold defaultPrefix. intros H. repeat case_decide; simplify_eq; unfold canonical, wf_addr; cbn; by split_and!.
Qed.
Lemma routePrefix_canonical ri p : 0 <= Route.ri_num ri Route.DstLen -> routePrefix ri = Some p -> canonical p.
Proof.
  unfold routePrefix. intros Hl H. repeat case_decide; [by eapply prefixFromBytes_canonical|by eapply defaultPrefix_canonical|done].
Qed.

(** ** The longest match *)

Lemma longest_spec {V} (g : Prefix -> option V) a n :
  match longest g a n with
  | Some e => exists k, (k <= n)%nat /\ g (PrefixFrom (mask_addr (Z.of_nat k) a) (Z.of_nat k)) = Some e /\
      forall j, (k < j <= n)%nat -> g (PrefixFrom (mask_addr (Z.of_nat j) a) (Z.of_nat j)) = None
  | None => forall j, (j <= n)%nat -> g (PrefixFrom (mask_addr (Z.of_nat j) a) (Z.of_nat j)) = None
  end.
Proof.
  induction n as [|n IH]; cbn [longest].
  - destruct (g _) as [e|] eqn:E; [exists 0%nat; split_and!; [done|done|lia]|]. intros j Hj. by replace j with 0%nat by lia.
  - destruct (g (PrefixFrom (mask_addr (Z.of_nat (S n)) a) (Z.of_nat (S n)))) as [e|] eqn:E.
    { exists (S n). split_and!; [done|done|lia]. }
    destruct (longest g a n) as [e|].
    + destruct IH as (k & Hk & He & Hmax). exists k. split_and!; [lia|done|]. intros j Hj.
      destruct (decide (j = S n)) as [->|]; [done|]. apply Hmax. lia.
    + intros j Hj. destruct (decide (j = S n)) as [->|]; [done|]. apply IH. lia.
Qed.

(** The match is a prefix that contains the address, and none longer does. *)
Lemma longest_match_spec {V} (g : Prefix -> option V) a :
  match longest_match g a with
  | Some e => exists p, contains p a /\ g p = Some e /\
      forall q, contains q a -> Bits p < Bits q -> g q = None
  | None => forall p, contains p a -> g p = None
  end.
Proof.
  pose proof (BitLen_nonneg a). unfold longest_match. pose proof (longest_spec g a (Z.to_nat (BitLen a))) as Hl.
  destruct (longest _ _ _) as [e|].
  - destruct Hl as (k & Hk & He & Hmax). eexists. split_and!; [| exact He|].
    + split; cbn [Bits]; [lia|done].
    + intros q [Hb Hq] Hlt. cbn in Hlt. rewrite Hq, <- (Z2Nat.id (Bits q)) by lia. apply Hmax. lia.
  - intros q [Hb Hq]. rewrite Hq, <- (Z2Nat.id (Bits q)) by lia. apply Hl. lia.
Qed.

Lemma longest_ext {V} (g h : Prefix -> option V) a n :
  (forall k, (k <= n)%nat -> g (PrefixFrom (mask_addr (Z.of_nat k) a) (Z.of_nat k)) =
    h (PrefixFrom (mask_addr (Z.of_nat k) a) (Z.of_nat k))) -> longest g a n = longest h a n.
Proof.
  induction n as [|n IH]; intros Hgh; cbn [longest]; rewrite Hgh by lia; [done|].
  case_match; [done|]. apply IH. intros k Hk. apply Hgh. lia.
Qed.
Lemma longest_match_ext {V} (g h : Prefix -> option V) a : wf_addr a ->
  (forall p, canonical p -> g p = h p) -> longest_match g a = longest_match h a.
Proof.
  intros Ha Hgh. apply longest_ext. intros k Hk. apply Hgh, canonical_masked; [done|]. split; [lia|].
  pose proof (BitLen_nonneg a). lia.
Qed.
Lemma longest_match_host {V} (g : Prefix -> option V) a e : wf_addr a -> g (hostPrefix a) = Some e -> longest_match g a = Some e.
Proof.
  intros Ha Hg. unfold longest_match, hostPrefix in *. rewrite <- (mask_addr_full a Ha) in Hg at 1.
  assert (BitLen a = Z.of_nat (Z.to_nat (BitLen a))) as Hb by (by destruct a).
  destruct (Z.to_nat (BitLen a)) eqn:E; cbn [longest]; rewrite <- Hb, Hg; done.
Qed.

(** ** A table: a finite map searched from the longest length down *)

#[export] Instance gmap_table : PrefixTable (gmap Prefix routeEntry) := {
  tbl_empty := ∅;
  tbl_Insert t p e := <[p := e]> t;
  tbl_Get t p := t !! p;
  tbl_Lookup t a := longest_match (fun p => t !! p) a }.
#[export] Instance gmap_table_laws : PrefixTableLaws (gmap Prefix routeEntry).
Proof.
  split; cbn; [intros p; apply lookup_empty| |done]. intros t p q e _ _. apply lookup_insert.
Qed.

(** ** The content of the table *)

(** What a dump asks for: a self entry or a route entry at a prefix. *)
Inductive entry := Self (p : Prefix) (oif : Z) | OfRoute (p : Prefix) (e : routeEntry).

Definition addr_self (ai : Addr.AddrInfo) : option Addr :=
  addrFromBytes (if decide (glen (raw (Addr.ai_buf ai Addr.Local_)) = 0) then raw (Addr.ai_buf ai Addr.Address)
                 else raw (Addr.ai_buf ai Addr.Local_)).
Definition addr_entry (ai : Addr.AddrInfo) : option entry :=
  a ← addr_self ai; Some (Self (hostPrefix a) (Addr.ai_num ai Addr.Index)).

(** A unicast route is a local subnet when it is on-link and not the default. *)
Definition onLink (ri : Route.RouteInfo) (p : Prefix) : bool :=
  negb (gatewayReached ri) && bool_decide (Bits p <> 0).
Definition egress (ri : Route.RouteInfo) : Z :=
  if gatewayReached ri && (Route.ri_has ri Route.HasMultipath || bool_decide (Route.ri_num ri Route.NhID <> 0))
  then 0 else Route.ri_num ri Route.Oif.
Definition local_prefix (ri : Route.RouteInfo) : option Prefix :=
  if inClassifiedTable (Route.ri_num ri Route.Table) && bool_decide (Route.ri_num ri Route.Type_ = RTN_LOCAL)
  then prefixFromBytes (raw (Route.ri_buf ri Route.Dst)) (Route.ri_num ri Route.DstLen) else None.
Definition unicast_prefix (ri : Route.RouteInfo) : option Prefix :=
  if inClassifiedTable (Route.ri_num ri Route.Table) && bool_decide (Route.ri_num ri Route.Type_ = RTN_UNICAST)
  then routePrefix ri else None.
Definition route_entry (ri : Route.RouteInfo) : option entry :=
  match local_prefix ri with
  | Some p => Some (Self p (Route.ri_num ri Route.Oif))
  | None => p ← unicast_prefix ri;
      Some (OfRoute p (mkEntry (if onLink ri p then LocalitySubnet else LocalityRemote) (egress ri)))
  end.
Definition entries (addrs : list Addr.AddrInfo) (routes : list Route.RouteInfo) : list entry :=
  omap addr_entry addrs ++ omap route_entry routes.

(** The table's abstract content: the last self entry at a prefix, else the
    last route entry. *)
Definition self_at (p : Prefix) (o : entry) : option routeEntry :=
  match o with Self q oif => if decide (q = p) then Some (mkEntry LocalitySelf oif) else None | _ => None end.
Definition route_at (p : Prefix) (o : entry) : option routeEntry :=
  match o with OfRoute q e => if decide (q = p) then Some e else None | _ => None end.
Definition table_spec (l : list entry) (p : Prefix) : option routeEntry :=
  union (last (omap (self_at p) l)) (last (omap (route_at p) l)).

Definition entry_ok (o : entry) : Prop :=
  match o with
  | Self p _ => canonical p
  | OfRoute p e => canonical p /\ e_loc e <> LocalitySelf
  end.

(** Prefix lengths are bytes of the route message. *)
Definition route_ok (ri : Route.RouteInfo) : Prop := 0 <= Route.ri_num ri Route.DstLen.

Lemma addr_entry_ok ai o : addr_entry ai = Some o -> entry_ok o.
Proof.
  intros H. apply bind_Some in H as (a & Ha & [= <-]). cbn. apply canonical_host. by eapply addrFromBytes_wf.
Qed.
Lemma route_entry_ok ri o : route_ok ri -> route_entry ri = Some o -> entry_ok o.
Proof.
  unfold route_entry, local_prefix, unicast_prefix, route_ok. intros Hr.
  destruct (_ && bool_decide (_ = RTN_LOCAL)).
  - destruct (prefixFromBytes _ _) as [p|] eqn:E.
    + intros [= <-]. by eapply prefixFromBytes_canonical.
    + destruct (_ && _); [|done]. intros H. apply bind_Some in H as (p & Hp & [= <-]). split; [|by destruct (onLink ri p)].
      by eapply routePrefix_canonical.
  - destruct (_ && _); [|done]. intros H. apply bind_Some in H as (p & Hp & [= <-]). split; [|by destruct (onLink ri p)].
    by eapply routePrefix_canonical.
Qed.
Lemma entries_ok addrs routes : Forall route_ok routes -> Forall entry_ok (entries addrs routes).
Proof.
  intros Hr. apply Forall_app. split; apply Forall_forall; intros o Ho; apply list_elem_of_omap in Ho as (x & Hx & Ho).
  - by eapply addr_entry_ok.
  - eapply route_entry_ok; [|exact Ho]. rewrite Forall_forall in Hr. by apply Hr.
Qed.

Section Table.
Context {T : Type} `{HT : PrefixTable T} `{!PrefixTableLaws T}.

Definition run_entry (t : T) (o : entry) : T :=
  match o with
  | Self p oif => tbl_Insert t p (mkEntry LocalitySelf oif)
  | OfRoute p e => insertRoute t p e
  end.

Lemma build_addr_run s ai : (build_addr s ai).1 = from_option (run_entry s.1) s.1 (addr_entry ai).
Proof.
  destruct s as [t nls]. unfold build_addr, addr_entry, addr_self. cbv zeta. by destruct (addrFromBytes _).
Qed.
Lemma build_route_run s ri : (build_route s ri).1 = from_option (run_entry s.1) s.1 (route_entry ri).
Proof.
  destruct s as [t nls]. unfold build_route, route_entry, local_prefix, unicast_prefix, onLink, egress. cbv zeta.
  destruct (inClassifiedTable _); cbn [negb andb]; [|done].
  destruct (decide (Route.ri_num ri Route.Type_ = RTN_LOCAL)) as [Hl|Hl].
  - rewrite bool_decide_true by done. rewrite (bool_decide_false (Route.ri_num ri Route.Type_ = RTN_UNICAST)) by (rewrite Hl; done).
    by destruct (prefixFromBytes _ _).
  - rewrite (bool_decide_false (Route.ri_num ri Route.Type_ = RTN_LOCAL)) by done.
    destruct (decide (Route.ri_num ri Route.Type_ = RTN_UNICAST));
      [rewrite (bool_decide_true (Route.ri_num ri Route.Type_ = RTN_UNICAST)) by done|
       by rewrite (bool_decide_false (Route.ri_num ri Route.Type_ = RTN_UNICAST))].
    destruct (routePrefix ri) as [p|]; [|done]. cbn [mbind option_bind from_option fst].
    destruct (gatewayReached ri); cbn [negb andb]; [by destruct (_ || _)|].
    destruct (decide (Bits p = 0)); [by rewrite bool_decide_false by (intros []; done)|by rewrite bool_decide_true].
Qed.
Lemma foldl_run {A} (f : T * bool -> A -> T * bool) (g : A -> option entry) s l :
  (forall s a, (f s a).1 = from_option (run_entry s.1) s.1 (g a)) ->
  (foldl f s l).1 = foldl run_entry s.1 (omap g l).
Proof.
  intros Hf. revert s. induction l as [|a l IH]; intros s; cbn [foldl omap list_omap]; [done|].
  rewrite IH, Hf. by destruct (g a).
Qed.
Lemma BuildSnapshot_tbl addrs routes links :
  tbl (BuildSnapshot addrs routes links) = Some (foldl run_entry tbl_empty (entries addrs routes)).
Proof.
  unfold BuildSnapshot, entries. destruct (foldl build_route _ _) as [t nls] eqn:E. cbn [tbl]. f_equal.
  apply (f_equal fst) in E. cbn [fst] in E. rewrite <- E, foldl_app.
  rewrite (foldl_run build_route route_entry) by apply build_route_run.
  by rewrite (foldl_run build_addr addr_entry) by apply build_addr_run.
Qed.

Lemma self_at_loc p l e : last (omap (self_at p) l) = Some e -> e_loc e = LocalitySelf.
Proof.
  intros H. apply last_Some_elem_of in H. apply list_elem_of_omap in H as (o & _ & Ho).
  destruct o; cbn in Ho; [|done]. case_decide; [|done]. by simplify_eq.
Qed.
Lemma route_at_loc p l e : Forall entry_ok l -> last (omap (route_at p) l) = Some e -> e_loc e <> LocalitySelf.
Proof.
  intros Hl H. apply last_Some_elem_of in H. apply list_elem_of_omap in H as (o & Hin & Ho).
  rewrite Forall_forall in Hl. specialize (Hl _ Hin). destruct o; cbn in Ho; [done|]. case_decide; [|done].
  simplify_eq. apply Hl.
Qed.

Lemma omap_snoc {A B} (f : A -> option B) l x : last (omap f (l ++ [x])) = union (f x) (last (omap f l)).
Proof.
  rewrite omap_app. cbn [omap list_omap]. destruct (f x) as [y|]; cbn.
  - rewrite last_snoc. by destruct (last _).
  - rewrite app_nil_r. by destruct (last _).
Qed.

Lemma insertRoute_get t p q e : canonical p -> canonical q ->
  tbl_Get (insertRoute t q e) p =
    if decide (q = p) then
      match tbl_Get t q with
      | Some c => if decide (e_loc c = LocalitySelf) then Some c else Some e
      | None => Some e
      end
    else tbl_Get t p.
Proof using PrefixTableLaws0.
  intros Hp Hq. unfold insertRoute. destruct (tbl_Get t q) as [c|] eqn:E.
  - destruct (decide (e_loc c = LocalitySelf)).
    + case_decide; by subst.
    + rewrite Get_Insert by done. by case_decide.
  - rewrite Get_Insert by done. by case_decide.
Qed.

Lemma table_spec_snoc_route l q e p : Forall entry_ok l ->
  table_spec (l ++ [OfRoute q e]) p =
    if decide (q = p) then
      match table_spec l q with
      | Some c => if decide (e_loc c = LocalitySelf) then Some c else Some e
      | None => Some e
      end
    else table_spec l p.
Proof.
  intros Hl. unfold table_spec. rewrite !omap_snoc. cbn [self_at route_at]. case_decide; subst.
  - pose proof (self_at_loc p l) as Hs. pose proof (route_at_loc p l) as Hr.
    destruct (last (omap (self_at p) l)) as [c|], (last (omap (route_at p) l)) as [c'|]; cbn; try done.
    + by rewrite decide_True by (by apply Hs).
    + by rewrite decide_True by (by apply Hs).
    + by rewrite decide_False by (by apply Hr).
  - by destruct (last (omap (self_at p) l)), (last (omap (route_at p) l)).
Qed.
Lemma table_spec_snoc_self l q oif p :
  table_spec (l ++ [Self q oif]) p = if decide (q = p) then Some (mkEntry LocalitySelf oif) else table_spec l p.
Proof.
  unfold table_spec. rewrite !omap_snoc. cbn [self_at route_at].
  case_decide; by destruct (last (omap (self_at p) l)), (last (omap (route_at p) l)).
Qed.

Lemma table_content l : Forall entry_ok l ->
  forall p, canonical p -> tbl_Get (foldl run_entry tbl_empty l) p = table_spec l p.
Proof using PrefixTableLaws0.
  induction l as [|o l IH] using rev_ind; intros Hl p Hp; [cbn; by rewrite Get_empty|].
  apply Forall_app in Hl as [Hl Ho]. apply Forall_cons_1 in Ho as [Ho _]. specialize (IH Hl).
  rewrite foldl_snoc. destruct o as [q oif|q e]; cbn [run_entry].
  - cbn in Ho. rewrite table_spec_snoc_self, Get_Insert by done. by rewrite IH.
  - destruct Ho as [Hq _]. rewrite table_spec_snoc_route, insertRoute_get by done. by rewrite !IH.
Qed.

Lemma BuildSnapshot_content addrs routes links : Forall route_ok routes ->
  exists t, tbl (BuildSnapshot addrs routes links) = Some t /\
    (forall p, canonical p -> tbl_Get t p = table_spec (entries addrs routes) p) /\
    (forall a, wf_addr a -> tbl_Lookup t a = longest_match (table_spec (entries addrs routes)) a).
Proof using PrefixTableLaws0.
  intros Hr. eexists. split; [apply BuildSnapshot_tbl|]. pose proof (table_content _ (entries_ok addrs routes Hr)) as Hc.
  split; [done|]. intros a Ha. rewrite Lookup_longest by done. by apply longest_match_ext.
Qed.
End Table.

(** ** What a snapshot says of a destination *)

(** The reference classification of an unmapped address. *)
Definition lookup_spec (addrs : list Addr.AddrInfo) (routes : list Route.RouteInfo) (a : Addr) : Locality * Z :=
  if IsUnspecified a then (LocalityUnspecified, 0) else
  match longest_match (table_spec (entries addrs routes)) a with
  | Some e => if IsLoopback a && bool_decide (e_loc e <> LocalitySelf) then (LocalitySelf, 0) else (e_loc e, e_oif e)
  | None => (if IsLoopback a then LocalitySelf else LocalityRemote, 0)
  end.

Section Lookup.
Context {T : Type} `{HT : PrefixTable T} `{!PrefixTableLaws T}.

Lemma Lookup_eq addrs routes links a : Forall route_ok routes -> wf_addr a ->
  Lookup (Some (BuildSnapshot addrs routes links)) (Some a) = (lookup_spec addrs routes (Unmap a), true).
Proof using PrefixTableLaws0.
  intros Hr Ha. unfold Lookup, lookup_spec. cbn [fmap option_fmap option_map].
  destruct (IsUnspecified _); [done|]. cbv zeta. cbn [mbind option_bind].
  destruct (BuildSnapshot_content addrs routes links Hr) as (t & Ht & _ & Hl). rewrite Ht. cbn [mbind option_bind].
  rewrite Hl by (by apply wf_Unmap). destruct (longest_match _ _) as [e|]; [|by destruct (IsLoopback _)].
  destruct (IsLoopback _); cbn [andb]; [|done].
  destruct (decide (e_loc e <> LocalitySelf)) as [Hn|Hn]; [by rewrite bool_decide_true|].
  rewrite bool_decide_false by done. apply dec_stable in Hn. by rewrite Hn.
Qed.
End Lookup.

(** The table of a self entry: its prefix's own entry is self. *)
Lemma table_spec_self l p oif : Self p oif ∈ l -> exists e, table_spec l p = Some e /\ e_loc e = LocalitySelf.
Proof.
  intros Hin. assert (mkEntry LocalitySelf oif ∈ omap (self_at p) l) as Hs.
  { apply list_elem_of_omap. exists (Self p oif). split; [done|]. cbn. by rewrite decide_True by done. }
  unfold table_spec. destruct (last (omap (self_at p) l)) as [e|] eqn:E.
  - exists e. split; [by destruct (last (omap (route_at p) l))|]. by eapply self_at_loc.
  - apply last_None in E. rewrite E in Hs. by inversion Hs.
Qed.

Lemma table_spec_Some l p e : table_spec l p = Some e ->
  (exists oif, Self p oif ∈ l /\ e = mkEntry LocalitySelf oif) \/ OfRoute p e ∈ l.
Proof.
  unfold table_spec. destruct (last (omap (self_at p) l)) as [c|] eqn:E.
  - intros Hu. assert (c = e) as -> by (destruct (last (omap (route_at p) l)); injection Hu; done). left.
    apply last_Some_elem_of in E. apply list_elem_of_omap in E as (o & Hin & Ho). destruct o as [q oif|]; cbn in Ho; [|done].
    case_decide; [|done]. simplify_eq. by exists oif.
  - destruct (last (omap (route_at p) l)) as [c|] eqn:E'; [|done]. intros [= <-]. right.
    apply last_Some_elem_of in E'. apply list_elem_of_omap in E' as (o & Hin & Ho). destruct o as [|q e]; cbn in Ho; [done|].
    case_decide; [|done]. by simplify_eq.
Qed.

(** ** The claims *)

Section Claims.
Context {T : Type} `{HT : PrefixTable T} `{!PrefixTableLaws T}.

(** C12: a snapshot implements its abstract reading of the dumps: for every
    address, Lookup is the longest match among the prefixes the dumps name, a
    prefix named by an address or an RTN_LOCAL route being self whatever unicast
    route names it too and in whatever order; loopback is self, the unspecified
    address unclassified, and no match is remote. *)
Theorem Lookup_refines_spec addrs routes links a :
  Forall route_ok routes -> wf_addr a ->
  Lookup (Some (BuildSnapshot addrs routes links)) (Some a) = (lookup_spec addrs routes (Unmap a), true).
Proof using PrefixTableLaws0. apply Lookup_eq. Qed.

(** Every address of the dump, other than the unspecified one, is self,
    mapped into IPv6 or not, whatever the routes are. *)
Theorem own_address_is_self addrs routes links ai a b :
  Forall route_ok routes -> ai ∈ addrs -> addr_self ai = Some a -> IsUnspecified a = false ->
  wf_addr b -> Unmap b = a ->
  Classify (Some (BuildSnapshot addrs routes links)) (Some b) = LocalitySelf.
Proof using PrefixTableLaws0.
  intros Hr Hin Ha Hu Hb Hba. unfold Classify. rewrite Lookup_eq by done. unfold lookup_spec. rewrite Hba, Hu.
  destruct (table_spec_self (entries addrs routes) (hostPrefix a) (Addr.ai_num ai Addr.Index)) as (e & He & Hs).
  { apply elem_of_app. left. apply list_elem_of_omap. exists ai. split; [done|]. unfold addr_entry. by rewrite Ha. }
  rewrite (longest_match_host _ _ e) by (done || by eapply addrFromBytes_wf).
  rewrite bool_decide_false by (intros []; done). by rewrite andb_false_r.
Qed.

Lemma route_entry_subnet ri p e : route_entry ri = Some (OfRoute p e) -> e_loc e = LocalitySubnet ->
  inClassifiedTable (Route.ri_num ri Route.Table) = true /\ Route.ri_num ri Route.Type_ = RTN_UNICAST /\
  routePrefix ri = Some p /\ gatewayReached ri = false /\ Bits p <> 0 /\ e_oif e = Route.ri_num ri Route.Oif.
Proof.
  unfold route_entry, unicast_prefix. intros H Hs. destruct (local_prefix ri); [done|].
  destruct (inClassifiedTable _) eqn:Et; cbn [andb] in H; [|done].
  destruct (bool_decide (Route.ri_num ri Route.Type_ = RTN_UNICAST)) eqn:Ety; [|done]. apply bool_decide_eq_true in Ety.
  apply bind_Some in H as (q & Hq & [= <- <-]). cbn in Hs. unfold onLink, egress in *.
  destruct (gatewayReached ri); cbn in *; [done|]. destruct (bool_decide (Bits q <> 0)) eqn:Eb; [|done].
  apply bool_decide_eq_true in Eb. done.
Qed.

(** An address is classified as a local subnet only when a unicast route of
    the main or local table, without a gateway, via, multipath or next-hop object
    and longer than the default, contains it, and that route's interface is the
    egress reported; no default route ever makes one. *)
Theorem subnet_is_on_link addrs routes links a oif ok :
  Forall route_ok routes -> wf_addr a ->
  Lookup (Some (BuildSnapshot addrs routes links)) (Some a) = (LocalitySubnet, oif, ok) ->
  exists ri p, ri ∈ routes /\ inClassifiedTable (Route.ri_num ri Route.Table) = true /\
    Route.ri_num ri Route.Type_ = RTN_UNICAST /\ routePrefix ri = Some p /\ contains p (Unmap a) /\
    gatewayReached ri = false /\ Bits p <> 0 /\ Route.ri_num ri Route.Oif = oif.
Proof using PrefixTableLaws0.
  intros Hr Ha. rewrite Lookup_eq by done. unfold lookup_spec. intros H.
  destruct (IsUnspecified _); [done|].
  pose proof (longest_match_spec (table_spec (entries addrs routes)) (Unmap a)) as Hm.
  destruct (longest_match _ _) as [e|]; [|by destruct (IsLoopback _)].
  destruct Hm as (p & Hp & He & _). destruct (_ && _); [done|]. injection H as Hl Ho _.
  apply table_spec_Some in He as [(? & _ & ->)|Hin]; [done|].
  apply elem_of_app in Hin as [Hin|Hin]; apply list_elem_of_omap in Hin as (x & Hx & He).
  { by apply bind_Some in He as (? & _ & ?). }
  apply route_entry_subnet in He as (? & ? & ? & ? & ? & ?); [|done]. exists x, p. subst oif. by split_and!.
Qed.
End Claims.

(** *** The loopback test of a namespace that is still being plumbed *)

Lemma isLoopbackPrefix_sound p a : wf_addr a -> isLoopbackPrefix p = true -> contains p a -> IsLoopback a = true.
Proof.
  intros Ha Hp [Hb Hm]. unfold isLoopbackPrefix in Hp. rewrite Hm in Hp. cbn [pfx_Addr Bits] in Hp.
  destruct (IsLoopback (mask_addr (Bits p) a)) eqn:El; [|done]. cbn [negb] in Hp.
  destruct a as [b|b]; unfold mask_addr in *; cbn [addr_bytes with_bytes Is4 IsLoopback wf_addr BitLen] in *;
    apply bool_decide_eq_true in Hp; apply bool_decide_eq_true in El; apply bool_decide_eq_true.
  - destruct b as [|x b]; cbn [mask_bytes] in El; [done|]. by rewrite decide_True in El by done.
  - rewrite Hp in El. rewrite mask_bytes_full in El by lia. done.
Qed.

(** An entry beyond loopback: an address, or a local route's range. *)
Definition addr_beyond (ai : Addr.AddrInfo) : bool := from_option (fun a => negb (IsLoopback a)) false (addr_self ai).
Definition route_beyond (ri : Route.RouteInfo) : bool :=
  from_option (fun p => negb (isLoopbackPrefix p)) false (local_prefix ri).

Section Loopback.
Context {T : Type} `{HT : PrefixTable T}.

Lemma build_addr_nls (s : T * bool) ai : (build_addr s ai).2 = s.2 || addr_beyond ai.
Proof.
  destruct s as [t nls]. unfold build_addr, addr_beyond, addr_self. cbv zeta.
  destruct (addrFromBytes _) as [a|]; cbn; [|by rewrite orb_false_r]. by destruct (IsLoopback a), nls.
Qed.
Lemma build_route_nls (s : T * bool) ri : (build_route s ri).2 = s.2 || route_beyond ri.
Proof.
  destruct s as [t nls]. unfold build_route, route_beyond, local_prefix. cbv zeta.
  destruct (inClassifiedTable _); cbn [negb andb]; [|by rewrite orb_false_r].
  destruct (decide (Route.ri_num ri Route.Type_ = RTN_LOCAL)) as [Hl|Hl].
  - rewrite (bool_decide_true (Route.ri_num ri Route.Type_ = RTN_LOCAL)) by done. destruct (prefixFromBytes _ _) as [p|]; cbn; [|by rewrite orb_false_r].
    by destruct (isLoopbackPrefix p), nls.
  - rewrite (bool_decide_false (Route.ri_num ri Route.Type_ = RTN_LOCAL)) by done. cbn [from_option]. rewrite orb_false_r. case_decide; [|done].
    destruct (routePrefix ri); [|done]. by repeat case_match.
Qed.
Lemma foldl_nls {A} (f : T * bool -> A -> T * bool) (g : A -> bool) s l :
  (forall s a, (f s a).2 = s.2 || g a) -> (foldl f s l).2 = s.2 || existsb g l.
Proof.
  intros Hf. revert s. induction l as [|a l IH]; intros s; cbn [foldl existsb]; [by rewrite orb_false_r|].
  by rewrite IH, Hf, orb_assoc.
Qed.

(** The flag that decides whether a namespace is dumped again soon is set
    exactly when some address of the dump is not a loopback address or some
    RTN_LOCAL route of the main or local table covers more than loopback. *)
Theorem HasNonLoopbackSelf_spec addrs routes links :
  HasNonLoopbackSelf (Some (BuildSnapshot (T := T) addrs routes links)) =
  existsb addr_beyond addrs || existsb route_beyond routes.
Proof.
  unfold HasNonLoopbackSelf, BuildSnapshot. destruct (foldl build_route _ _) as [t nls] eqn:E. cbn [nonLoopbackSelf].
  apply (f_equal snd) in E. cbn [snd] in E. rewrite <- E.
  rewrite (foldl_nls build_route route_beyond) by apply build_route_nls.
  by rewrite (foldl_nls build_addr addr_beyond) by apply build_addr_nls.
Qed.
End Loopback.

(** ** A namespace: eth0 with 10.0.0.5/24 and a default route *)

Definition demo_addr (b : bytes) (i : Z) : Addr.AddrInfo :=
  Addr.set_buf Addr.Local_ (Some b) (Addr.set_num Addr.Index i Addr.zeroAddrInfo).
Definition demo_route (ty : Z) (dst : option bytes) (len : Z) (gw : option bytes) (oif : Z) : Route.RouteInfo :=
  Route.set_num Route.Family AF_INET (Route.set_num Route.Table RT_TABLE_MAIN (Route.set_num Route.Type_ ty
    (Route.set_num Route.DstLen len (Route.set_num Route.Oif oif
      (Route.set_buf Route.Dst dst (Route.set_buf Route.Gateway gw Route.zeroRouteInfo)))))).
Definition demo_addrs : list Addr.AddrInfo := [demo_addr [10; 0; 0; 5] 2; demo_addr [127; 0; 0; 1] 1].
Definition demo_routes : list Route.RouteInfo :=
  [demo_route RTN_UNICAST (Some [10; 0; 0; 5]) 32 None 3;
   demo_route RTN_UNICAST None 0 (Some [10; 0; 0; 1]) 2; demo_route RTN_UNICAST (Some [10; 0; 0; 77]) 24 None 2].
Definition demo_snapshot : Snapshot (gmap Prefix routeEntry) := BuildSnapshot demo_addrs demo_routes ∅.

Lemma demo_routes_ok : Forall route_ok demo_routes.
Proof. repeat (apply Forall_cons_2 || apply Forall_nil_2); unfold route_ok; vm_compute; discriminate. Qed.

Lemma Lookup_refines_spec_witness :
  Lookup (Some demo_snapshot) (Some (Addr4 [8; 8; 8; 8])) = ((LocalityRemote, 2), true).
Proof.
  apply (Lookup_refines_spec demo_addrs demo_routes ∅ (Addr4 [8; 8; 8; 8])); [apply demo_routes_ok|done].
Defined.

Lemma own_address_is_self_witness :
  Classify (Some demo_snapshot) (Some (Addr16 [0; 0; 0; 0; 0; 0; 0; 0; 0; 0; 255; 255; 10; 0; 0; 5])) = LocalitySelf.
Proof.
  apply (own_address_is_self demo_addrs demo_routes ∅ (demo_addr [10; 0; 0; 5] 2) (Addr4 [10; 0; 0; 5]));
    [apply demo_routes_ok|by left|done..].
Defined.

Lemma subnet_is_on_link_witness :
  exists ri p, ri ∈ demo_routes /\ inClassifiedTable (Route.ri_num ri Route.Table) = true /\
    Route.ri_num ri Route.Type_ = RTN_UNICAST /\ routePrefix ri = Some p /\ contains p (Addr4 [10; 0; 0; 9]) /\
    gatewayReached ri = false /\ Bits p <> 0 /\ Route.ri_num ri Route.Oif = 2.
Proof.
  apply (subnet_is_on_link (T := gmap Prefix routeEntry) demo_addrs demo_routes ∅ (Addr4 [10; 0; 0; 9]) 2 true);
    [apply demo_routes_ok|done|vm_compute; reflexivity].
Defined.
