(* ===== verification/Bond.v ===== *)
(** Bonding options (pkg/xtcpnl/xtcpnl_bond.go): the option table, and the
    parsers of a bond's and a bond port's nested data. *)

From S2P Require Import Prelude NlHeaders FlatRecord Enrich RtAttr NlRequest NlEnvelope LinkStats Localnet.

Inductive BondWire :=
  | BondWireU8 | BondWireU16 | BondWireU32 | BondWireMAC | BondWireIPv4Set | BondWireIPv6Set
  | BondWireNest | BondWireS32.
#[export] Instance BondWire_eq : EqDecision BondWire. Proof. solve_decision. Defined.
Inductive BondMatch := BondMatchPrefix | BondMatchExact.

Record BondOptionSpec := mkBondOption {
  bo_Keyword : string; bo_Aliases : list string; bo_ID : Z; bo_Wire : BondWire; bo_Names : list string;
  bo_Match : BondMatch; bo_ReadOnly : bool }.

Definition opt (kw : string) (id : Z) (w : BondWire) (m : BondMatch) (names : list string) : BondOptionSpec :=
  mkBondOption kw [] id w names m false.

Definition bondOnOff : list string := ["off"; "on"].

Definition BondOptions : list BondOptionSpec := [
  opt "mode" 1 BondWireU8 BondMatchPrefix
    ["balance-rr"; "active-backup"; "balance-xor"; "broadcast"; "802.3ad"; "balance-tlb"; "balance-alb"];
  mkBondOption "active_slave" ["clear_active_slave"] 2 BondWireU32 [] BondMatchPrefix false;
  opt "miimon" 3 BondWireU32 BondMatchPrefix [];
  opt "updelay" 4 BondWireU32 BondMatchPrefix [];
  opt "downdelay" 5 BondWireU32 BondMatchPrefix [];
  opt "peer_notify_delay" 28 BondWireU32 BondMatchPrefix [];
  opt "use_carrier" 6 BondWireU8 BondMatchPrefix [];
  opt "arp_interval" 7 BondWireU32 BondMatchPrefix [];
  opt "arp_missed_max" 30 BondWireU8 BondMatchExact [];
  opt "arp_ip_target" 8 BondWireIPv4Set BondMatchPrefix [];
  opt "ns_ip6_target" 31 BondWireIPv6Set BondMatchExact [];
  opt "arp_validate" 9 BondWireU32 BondMatchPrefix
    ["none"; "active"; "backup"; "all"; "filter"; "filter_active"; "filter_backup"];
  opt "arp_all_targets" 10 BondWireU32 BondMatchPrefix ["any"; "all"];
  opt "primary" 11 BondWireU32 BondMatchPrefix [];
  opt "primary_reselect" 12 BondWireU8 BondMatchPrefix ["always"; "better"; "failure"];
  opt "fail_over_mac" 13 BondWireU8 BondMatchPrefix ["none"; "active"; "follow"];
  opt "xmit_hash_policy" 14 BondWireU8 BondMatchPrefix
    ["layer2"; "layer3+4"; "layer2+3"; "encap2+3"; "encap3+4"; "vlan+srcmac"];
  opt "resend_igmp" 15 BondWireU32 BondMatchPrefix [];
  mkBondOption "num_grat_arp" ["num_unsol_na"] 16 BondWireU8 [] BondMatchPrefix false;
  opt "all_slaves_active" 17 BondWireU8 BondMatchPrefix [];
  opt "lacp_strict" 34 BondWireU8 BondMatchPrefix bondOnOff;
  opt "min_links" 18 BondWireU32 BondMatchPrefix [];
  opt "lp_interval" 19 BondWireU32 BondMatchPrefix [];
  opt "packets_per_slave" 20 BondWireU32 BondMatchPrefix [];
  opt "lacp_active" 29 BondWireU8 BondMatchExact bondOnOff;
  opt "lacp_rate" 21 BondWireU8 BondMatchPrefix ["slow"; "fast"];
  opt "coupled_control" 32 BondWireU8 BondMatchExact bondOnOff;
  opt "broadcast_neighbor" 33 BondWireU8 BondMatchExact bondOnOff;
  opt "ad_select" 22 BondWireU8 BondMatchPrefix ["stable"; "bandwidth"; "count"; "actor_port_prio"];
  mkBondOption "ad_info" [] 23 BondWireNest [] BondMatchPrefix true;
  opt "ad_actor_sys_prio" 24 BondWireU16 BondMatchPrefix [];
  opt "ad_user_port_key" 25 BondWireU16 BondMatchPrefix [];
  opt "ad_actor_system" 26 BondWireMAC BondMatchPrefix [];
  opt "tlb_dynamic_lb" 27 BondWireU8 BondMatchPrefix []].

(** The index built at start: the last option of an id. *)
Definition indexBondOptions (opts : list BondOptionSpec) : gmap Z BondOptionSpec :=
  foldl (fun m o => <[bo_ID o := o]> m) ∅ opts.
Definition BondOptionSpecByID (id : Z) : option BondOptionSpec := indexBondOptions BondOptions !! id.

(** A nil spec is [None]. *)
Definition ValueName (s : option BondOptionSpec) (v : Z) : go string :=
  match s with
  | None => Some ""
  | Some s => if decide (glen (bo_Names s) <= v) then Some "" else index (bo_Names s) v
  end.

(** U8Attr, U16Attr and U32Attr: absent, which is their zero value, or
    present with a value. *)
Definition setU8 (val : bytes) (a : option Z) : go (option Z) :=
  if decide (glen val < 1) then Some a else v ← index val 0; Some (Some v).
Definition setU16 (val : bytes) (a : option Z) : go (option Z) :=
  if decide (glen val < 2) then Some a else v ← LE16 val 0 2; Some (Some v).
Definition setU32 (val : bytes) (a : option Z) : go (option Z) :=
  if decide (glen val < 4) then Some a else v ← LE32 val 0 4; Some (Some v).

(** BondValue of an option that is present. *)
Inductive BondValue := BondU (u : Z) | BondBytes (b : option bytes).

Record BondAdInfo := mkBondAdInfo {
  bad_Aggregator : option Z; bad_NumPorts : option Z; bad_ActorKey : option Z; bad_PartnerKey : option Z;
  bad_PartnerMAC : option bytes }.

Record BondInfo := mkBondInfo {
  bi_values : gmap Z BondValue; bi_ArpIPTargets : list Addr; bi_NsIP6Targets : list Addr;
  bi_AdInfo : option BondAdInfo; bi_Unknown : list Z }.

Definition bondEtherAddrLenCst : Z := 6.
Definition bondMaxTargetsCst : Z := 16.

Definition ad_attr (atype : Z) (val : bytes) (ai : BondAdInfo) : go BondAdInfo :=
  let '(mkBondAdInfo ag np ak pk mac) := ai in
  if decide (atype = 1) then x ← setU16 val ag; Some (mkBondAdInfo x np ak pk mac) else
  if decide (atype = 2) then x ← setU16 val np; Some (mkBondAdInfo ag x ak pk mac) else
  if decide (atype = 3) then x ← setU16 val ak; Some (mkBondAdInfo ag np x pk mac) else
  if decide (atype = 4) then x ← setU16 val pk; Some (mkBondAdInfo ag np ak x mac) else
  if decide (atype = 5) then
    if decide (bondEtherAddrLenCst <= glen val)
    then m ← slice val 0 bondEtherAddrLenCst; Some (mkBondAdInfo ag np ak pk (CopyBytes m))
    else Some ai
  else Some ai.
Definition ParseBondAdInfo (nest : option bytes) : go (option BondAdInfo) :=
  match nest with
  | None => Some None
  | Some nest => a ← walkNestTolerant nest ad_attr (mkBondAdInfo None None None None None); Some (Some a)
  end.

Definition bondScalar (w : BondWire) (val : bytes) : go (option Z) :=
  match w with
  | BondWireU8 => if decide (1 <= glen val) then v ← index val 0; Some (Some v) else Some None
  | BondWireU16 => if decide (2 <= glen val) then v ← slice val 0 (glen val) ≫= le_uint 2; Some (Some v) else Some None
  | BondWireU32 => if decide (4 <= glen val) then v ← slice val 0 (glen val) ≫= le_uint 4; Some (Some v) else Some None
  | _ => Some None
  end.

(** The slots [0, n) of the array; an invalid address is [None]. *)
Definition target_attr (alen : Z) (pos : Z) (val : bytes) (s : list (option Addr) * Z)
    : go (list (option Addr) * Z) :=
  let '(slots, n) := s in
  if decide (bondMaxTargetsCst <= pos \/ glen val <> alen) then Some s else
  match AddrFromSlice val with
  | None => Some s
  | Some a =>
      slots ← put_at slots pos [Some a];
      Some (slots, if decide (n < pos + 1) then pos + 1 else n)
  end.
Definition bondTargets (nest : bytes) (alen : Z) : go (list Addr) :=
  '(slots, n) ← walkNestTolerant nest (target_attr alen) (replicate 16 None, 0);
  Some (omap id (take (Z.to_nat n) slots)).

Definition bond_attr (atype : Z) (val : bytes) (b : BondInfo) : go BondInfo :=
  let '(mkBondInfo vs arp ns ad unk) := b in
  match BondOptionSpecByID atype with
  | None => Some (mkBondInfo vs arp ns ad (unk ++ [atype]))
  | Some spec =>
      match bo_Wire spec with
      | BondWireU8 | BondWireU16 | BondWireU32 =>
          v ← bondScalar (bo_Wire spec) val;
          Some (match v with Some v => mkBondInfo (<[atype := BondU v]> vs) arp ns ad unk | None => b end)
      | BondWireMAC =>
          if decide (bondEtherAddrLenCst <= glen val) then
            m ← slice val 0 bondEtherAddrLenCst;
            Some (mkBondInfo (<[atype := BondBytes (CopyBytes m)]> vs) arp ns ad unk)
          else Some b
      | BondWireIPv4Set => t ← bondTargets val 4; Some (mkBondInfo vs t ns ad unk)
      | BondWireIPv6Set => t ← bondTargets val 16; Some (mkBondInfo vs arp t ad unk)
      | BondWireNest => a ← ParseBondAdInfo (Some val); Some (mkBondInfo vs arp ns a unk)
      | BondWireS32 => Some b
      end
  end.
Definition ParseBondInfoData (nest : option bytes) : go (option BondInfo) :=
  match nest with
  | None => Some None
  | Some nest => b ← walkNestTolerant nest bond_attr (mkBondInfo ∅ [] [] None []); Some (Some b)
  end.
(** [Value] of a nil info, or of an absent option, is the zero value. *)
Definition Value (b : option BondInfo) (id : Z) : option BondValue := b ← b; bi_values b !! id.

(** *** A port of a bond *)

Inductive slave_num :=
  | State | MiiStatus | LinkFailureCount | QueueID | Prio | AdAggregatorID | AdActorOperState
  | AdPartnerOperState | AdChurnActorState | AdChurnPartnerState | ActorPortPrio.
#[export] Instance slave_num_eq : EqDecision slave_num.
Proof. solve_decision. Defined.
Record BondSlaveInfo := mkBondSlaveInfo { bs_num : slave_num -> option Z; bs_PermHwaddr : option bytes }.

Definition setPartnerOperState (val : bytes) (a : option Z) : go (option Z) :=
  if decide (2 <= glen val) then setU16 val a else
  if decide (glen val = 1) then v ← index val 0; Some (Some v) else Some a.

Definition slave_attr (atype : Z) (val : bytes) (s : BondSlaveInfo) : go BondSlaveInfo :=
  let set f (r : bytes -> option Z -> go (option Z)) :=
    x ← r val (bs_num s f); Some (mkBondSlaveInfo (<[f := x]> (bs_num s)) (bs_PermHwaddr s)) in
  if decide (atype = 1) then set State setU8 else
  if decide (atype = 2) then set MiiStatus setU8 else
  if decide (atype = 3) then set LinkFailureCount setU32 else
  if decide (atype = 4) then Some (mkBondSlaveInfo (bs_num s) (CopyBytes val)) else
  if decide (atype = 5) then set QueueID setU16 else
  if decide (atype = 9) then set Prio setU32 else
  if decide (atype = 6) then set AdAggregatorID setU16 else
  if decide (atype = 7) then set AdActorOperState setU8 else
  if decide (atype = 8) then set AdPartnerOperState setPartnerOperState else
  if decide (atype = 11) then set AdChurnActorState setU8 else
  if decide (atype = 12) then set AdChurnPartnerState setU8 else
  if decide (atype = 10) then set ActorPortPrio setU16 else
  Some s.
Definition ParseBondSlaveData (nest : option bytes) : go (option BondSlaveInfo) :=
  match nest with
  | None => Some None
  | Some nest => s ← walkNestTolerant nest slave_attr (mkBondSlaveInfo (fun _ => None) None); Some (Some s)
  end.
Definition PrioInt32 (s : BondSlaveInfo) : Z := int32 (default 0 (bs_num s Prio)).

(** ** Lemmas *)

Definition u8_opt (val : bytes) : option Z := if decide (glen val < 1) then None else Some (byte_at val 0).
Definition u16_opt (val : bytes) : option Z := if decide (glen val < 2) then None else Some (le_at 2 val 0).
Definition u32_opt (val : bytes) : option Z := if decide (glen val < 4) then None else Some (le_at 4 val 0).

Lemma setU8_eq val a : setU8 val a = Some (union (u8_opt val) a).
Proof. unfold setU8, u8_opt. case_decide; [by destruct a|]. rewrite index_ok by lia. by destruct a. Qed.
Lemma setU16_eq val a : setU16 val a = Some (union (u16_opt val) a).
Proof. unfold setU16, u16_opt. case_decide; [by destruct a|]. rewrite LE16_ok by lia. by destruct a. Qed.
Lemma setU32_eq val a : setU32 val a = Some (union (u32_opt val) a).
Proof. unfold setU32, u32_opt. case_decide; [by destruct a|]. rewrite LE32_ok by lia. by destruct a. Qed.
Lemma setPartnerOperState_total val a : is_Some (setPartnerOperState val a).
Proof.
  unfold setPartnerOperState. repeat case_decide; [rewrite setU16_eq|rewrite index_ok by lia|]; by eexists.
Qed.

Lemma tolerant_total {S} val (fn : Z -> bytes -> S -> go S) s :
  (forall t v s, is_Some (fn t v s)) -> is_Some (walkNestTolerant val fn s).
Proof. intros H. rewrite walkNestTolerant_eq. by apply visit_total. Qed.

Lemma ad_attr_total t v a : is_Some (ad_attr t v a).
Proof.
  destruct a. unfold ad_attr, bondEtherAddrLenCst. rewrite !setU16_eq.
  repeat case_decide; try by eexists. rewrite (slice_ok v 0 6) by lia. by eexists.
Qed.
Lemma ParseBondAdInfo_total n : is_Some (ParseBondAdInfo n).
Proof.
  unfold ParseBondAdInfo. destruct n as [n|]; [|by eexists].
  destruct (tolerant_total n ad_attr (mkBondAdInfo None None None None None) ad_attr_total) as [a ->]. by eexists.
Qed.
Lemma bondScalar_total w v : is_Some (bondScalar w v).
Proof.
  unfold bondScalar. destruct w; try (by eexists); case_decide; try (by eexists).
  - rewrite index_ok by lia. by eexists.
  - rewrite slice_all. cbn [mbind option_bind]. unfold le_uint, glen in *. rewrite decide_True by lia. by eexists.
  - rewrite slice_all. cbn [mbind option_bind]. unfold le_uint, glen in *. rewrite decide_True by lia. by eexists.
Qed.

(** Every target slot stays inside the array. *)
Lemma target_attr_total alen t v s : 0 <= t < 2 ^ 14 -> length s.1 = 16%nat ->
  exists s', target_attr alen t v s = Some s' /\ length s'.1 = 16%nat.
Proof.
  destruct s as [slots n]. cbn [fst]. intros Ht Hl. unfold target_attr, bondMaxTargetsCst.
  case_decide; [by eexists|]. destruct (AddrFromSlice v) as [a|]; [|by eexists].
  unfold put_at. rewrite (decide_True (P := 0 <= t /\ t + glen [Some a] <= glen slots)) by (change (glen [Some a]) with 1; unfold glen; lia).
  cbn [mbind option_bind]. eexists. split; [done|].
  cbn [fst]. rewrite !length_app, length_take, length_drop. cbn. lia.
Qed.
Lemma bondTargets_total nest alen : is_Some (bondTargets nest alen).
Proof.
  unfold bondTargets. rewrite walkNestTolerant_eq.
  destruct (visit_inv (target_attr alen) (fun s => length s.1 = 16%nat) (parse_attrs nest).1 (replicate 16 None, 0)
    (target_attr_total alen) (parse_attrs_types nest) eq_refl) as ([slots n] & -> & _). by eexists.
Qed.

Lemma bond_attr_total t v b : is_Some (bond_attr t v b).
Proof.
  destruct b. unfold bond_attr. destruct (BondOptionSpecByID t) as [sp|]; [|by eexists].
  destruct (bo_Wire sp).
  - destruct (bondScalar_total BondWireU8 v) as [x ->]. by eexists.
  - destruct (bondScalar_total BondWireU16 v) as [x ->]. by eexists.
  - destruct (bondScalar_total BondWireU32 v) as [x ->]. by eexists.
  - unfold bondEtherAddrLenCst. case_decide; [|by eexists]. rewrite (slice_ok v 0 6) by lia. by eexists.
  - destruct (bondTargets_total v 4) as [x ->]. by eexists.
  - destruct (bondTargets_total v 16) as [x ->]. by eexists.
  - destruct (ParseBondAdInfo_total (Some v)) as [x ->]. by eexists.
  - by eexists.
Qed.
Lemma ParseBondInfoData_total n : is_Some (ParseBondInfoData n).
Proof.
  unfold ParseBondInfoData. destruct n as [n|]; [|by eexists].
  destruct (tolerant_total n bond_attr (mkBondInfo ∅ [] [] None []) bond_attr_total) as [b ->]. by eexists.
Qed.

Lemma slave_attr_total t v s : is_Some (slave_attr t v s).
Proof.
  unfold slave_attr. cbv zeta. rewrite !setU8_eq, !setU16_eq, !setU32_eq.
  destruct (setPartnerOperState_total v (bs_num s AdPartnerOperState)) as [x ->].
  repeat (case_decide; [by eexists|]). by eexists.
Qed.
Lemma ParseBondSlaveData_total n : is_Some (ParseBondSlaveData n).
Proof.
  unfold ParseBondSlaveData. destruct n as [n|]; [|by eexists].
  destruct (tolerant_total n slave_attr (mkBondSlaveInfo (fun _ => None) None) slave_attr_total) as [b ->]. by eexists.
Qed.

(** Every option's id is its own, so the index finds each option. *)
Lemma BondOptions_ids : NoDup (bo_ID <$> BondOptions).
Proof. apply (bool_decide_unpack (NoDup _)). vm_compute. exact I. Qed.
Lemma BondOptionSpecByID_complete :
  Forall (fun o => BondOptionSpecByID (bo_ID o) = Some o) BondOptions.
Proof. repeat (apply Forall_cons_2 || apply Forall_nil_2); reflexivity. Qed.
