(* ===== verification/Links.v ===== *)
(** Links (pkg/xtcpnl/xtcpnl_ifinfomsg.go): the RTM_NEWLINK and RTM_DELLINK
    parser with its nested link info, statistics and detail attributes.

    A LinkInfo's fields of one type are a function from the field's name; the
    fields of its LinkDetail are among them. *)

From stdpp Require Import functions.
From S2P Require Import Prelude NlHeaders Enrich RtAttr NlRequest NlEnvelope RtParsers LinkStats Bond.

Module Link.

Record IfInfomsg := mkIfInfomsg {
  m_Family : Z; m_Pad : Z; m_Type : Z; m_Index : Z; m_Flags : Z; m_Change : Z }.
Definition IfInfomsgReadCst : Z := IfInfomsgSizeCst.

Definition DeserializeIfInfomsg (data : bytes) (m : IfInfomsg) : go (IfInfomsg * Z * option err) :=
  if decide (glen data < IfInfomsgSizeCst) then Some (m, 0, Some ErrIfInfomsgSmall) else
  f ← index data 0;
  p ← index data 1;
  t ← LE16 data 2 4;
  i ← LE32 data 4 8;
  fl ← LE32 data 8 12;
  c ← LE32 data 12 16;
  Some (mkIfInfomsg f p t (int32 i) fl c, IfInfomsgReadCst, None).

Inductive num :=
  | Index | Flags | Change | Type_ | OperState | Carrier | MTU | Link_ | Master | LinkNetnsID | LinkMode
  | TxQLen | Group | Event | StatsFields | AddrGenMode.
Inductive has :=
  | HasOperState | HasCarrier | HasMTU | HasInfoData | HasInfoSlaveData | HasLinkInfo | HasLink
  | HasLinkNetnsID | HasLinkMode | HasTxQLen | HasGroup | HasEvent | StatsIs64 | NetnsImmutable
  | HasAddrGenMode.
(** U32Attr fields. *)
Inductive u32 :=
  | VrfTable | VrfPortTable | CarrierChanges | CarrierUpCount | CarrierDownCount
  | Promiscuity | AllMulti | MinMTU | MaxMTU | NumTxQueues | NumRxQueues | GSOMaxSize | GSOMaxSegs
  | TSOMaxSize | TSOMaxSegs | GROMaxSize | GSOIPv4MaxSize | GROIPv4MaxSize.
Inductive buf := Address | Broadcast | PermAddress | PhysPortID | PhysSwitchID.
Inductive str := Name | Qdisc | Kind | SlaveKind | PhysPortName | ParentDevBusName | ParentDevName.
#[export] Instance num_eq : EqDecision num. Proof. solve_decision. Defined.
#[export] Instance has_eq : EqDecision has. Proof. solve_decision. Defined.
#[export] Instance u32_eq : EqDecision u32. Proof. solve_decision. Defined.
#[export] Instance buf_eq : EqDecision buf. Proof. solve_decision. Defined.
#[export] Instance str_eq : EqDecision str. Proof. solve_decision. Defined.

Record nested := mkNested {
  n_Bond : option BondInfo; n_BondSlave : option BondSlaveInfo; n_AltNames : list bytes;
  n_Stats : option RtnlLinkStats64 }.
Record LinkInfo := mkLinkInfo {
  li_num : num -> Z; li_has : has -> bool; li_u32 : u32 -> option Z; li_buf : buf -> option bytes;
  li_str : str -> bytes; li_nested : nested }.

Definition zeroLinkInfo : LinkInfo :=
  mkLinkInfo (fun _ => 0) (fun _ => false) (fun _ => None) (fun _ => None) (fun _ => [])
    (mkNested None None [] None).

Definition set_num (f : num) (v : Z) (l : LinkInfo) : LinkInfo :=
  mkLinkInfo (<[f := v]> (li_num l)) (li_has l) (li_u32 l) (li_buf l) (li_str l) (li_nested l).
Definition put_has (f : has) (b : bool) (l : LinkInfo) : LinkInfo :=
  mkLinkInfo (li_num l) (<[f := b]> (li_has l)) (li_u32 l) (li_buf l) (li_str l) (li_nested l).
Definition set_has (f : has) : LinkInfo -> LinkInfo := put_has f true.
Definition set_u32 (f : u32) (v : option Z) (l : LinkInfo) : LinkInfo :=
  mkLinkInfo (li_num l) (li_has l) (<[f := v]> (li_u32 l)) (li_buf l) (li_str l) (li_nested l).
Definition set_buf (f : buf) (v : option bytes) (l : LinkInfo) : LinkInfo :=
  mkLinkInfo (li_num l) (li_has l) (li_u32 l) (<[f := v]> (li_buf l)) (li_str l) (li_nested l).
Definition set_str (f : str) (v : bytes) (l : LinkInfo) : LinkInfo :=
  mkLinkInfo (li_num l) (li_has l) (li_u32 l) (li_buf l) (<[f := v]> (li_str l)) (li_nested l).
Definition upd_nested (f : nested -> nested) (l : LinkInfo) : LinkInfo :=
  mkLinkInfo (li_num l) (li_has l) (li_u32 l) (li_buf l) (li_str l) (f (li_nested l)).

(** IFLA_*, in the kernel's numbering. *)
Definition IFLA_ADDRESS : Z := 1.
Definition IFLA_BROADCAST : Z := 2.
Definition IFLA_MTU : Z := 4.
Definition IFLA_LINK : Z := 5.
Definition IFLA_QDISC : Z := 6.
Definition IFLA_STATS : Z := 7.
Definition IFLA_PROTINFO : Z := 12.
Definition IFLA_TXQLEN : Z := 13.
Definition IFLA_OPERSTATE : Z := 16.
Definition IFLA_LINKMODE : Z := 17.
Definition IFLA_STATS64 : Z := 23.
Definition IFLA_AF_SPEC : Z := 26.
Definition IFLA_GROUP : Z := 27.
Definition IFLA_PROMISCUITY : Z := 30.
Definition IFLA_NUM_TX_QUEUES : Z := 31.
Definition IFLA_NUM_RX_QUEUES : Z := 32.
Definition IFLA_CARRIER : Z := 33.
Definition IFLA_PHYS_PORT_ID : Z := 34.
Definition IFLA_CARRIER_CHANGES : Z := 35.
Definition IFLA_PHYS_SWITCH_ID : Z := 36.
Definition IFLA_LINK_NETNSID : Z := 37.
Definition IFLA_PHYS_PORT_NAME : Z := 38.
Definition IFLA_GSO_MAX_SEGS : Z := 40.
Definition IFLA_GSO_MAX_SIZE : Z := 41.
Definition IFLA_EVENT : Z := 44.
Definition IFLA_CARRIER_UP_COUNT : Z := 47.
Definition IFLA_CARRIER_DOWN_COUNT : Z := 48.
Definition IFLA_MIN_MTU : Z := 50.
Definition IFLA_MAX_MTU : Z := 51.
Definition IFLA_PROP_LIST : Z := 52.
Definition IFLA_PERM_ADDRESS : Z := 54.
Definition IFLA_PARENT_DEV_NAME : Z := 56.
Definition IFLA_PARENT_DEV_BUS_NAME : Z := 57.
Definition IFLA_GRO_MAX_SIZE : Z := 58.
Definition IFLA_TSO_MAX_SIZE : Z := 59.
Definition IFLA_TSO_MAX_SEGS : Z := 60.
Definition IFLA_ALLMULTI : Z := 61.
Definition IFLA_GSO_IPV4_MAX_SIZE : Z := 63.
Definition IFLA_GRO_IPV4_MAX_SIZE : Z := 64.
Definition IflaNetnsImmutable : Z := 67.
Definition IFLA_ALT_IFNAME : Z := 53.
Definition IFLA_INFO_DATA : Z := 2.
Definition IFLA_INFO_SLAVE_KIND : Z := 4.
Definition IFLA_INFO_SLAVE_DATA : Z := 5.
Definition IFLA_INET6_ADDR_GEN_MODE : Z := 8.

(** *** Nests *)

Definition linkAltNames (val : bytes) : go (list bytes) :=
  walkNestTolerant val (fun atype inner names =>
    if decide (atype <> IFLA_ALT_IFNAME) then Some names else
    let n := TrimRight0 inner in
    Some (if decide (n <> []) then names ++ [n] else names)) [].

Definition vrfKindCst : bytes := [118; 114; 102].
Definition bondKindCst : bytes := [98; 111; 110; 100].

Definition vrfTableAttr (nest : option bytes) (attr : Z) : go (option Z) :=
  match nest with
  | None => Some None
  | Some nest => walkNestTolerant nest (fun atype inner out =>
      if bool_decide (atype = attr) && bool_decide (out = None) then setU32 inner out else Some out) None
  end.

(** The callback's captured variables: the link, infoData and slaveData. *)
Definition link_info_attr (atype : Z) (inner : bytes) (s : LinkInfo * option bytes * option bytes)
    : go (LinkInfo * option bytes * option bytes) :=
  let '(li, infoData, slaveData) := s in
  if decide (atype = IFLA_INFO_KIND) then
    Some (if decide (li_str li Kind = []) then set_str Kind (TrimRight0 inner) li else li, infoData, slaveData)
  else if decide (atype = IFLA_INFO_SLAVE_KIND) then
    Some (if decide (li_str li SlaveKind = []) then set_str SlaveKind (TrimRight0 inner) li else li,
          infoData, slaveData)
  else if decide (atype = IFLA_INFO_DATA) then Some (set_has HasInfoData li, Some inner, slaveData)
  else if decide (atype = IFLA_INFO_SLAVE_DATA) then Some (set_has HasInfoSlaveData li, infoData, Some inner)
  else Some s.

Definition setLinkInfoNest (val : bytes) (li : LinkInfo) : go LinkInfo :=
  '(li, infoData, slaveData) ← walkNestTolerant val link_info_attr (li, None, None);
  li ← (if decide (li_str li Kind = vrfKindCst)
        then v ← vrfTableAttr infoData 1; Some (set_u32 VrfTable v li) else Some li);
  li ← (if decide (li_str li SlaveKind = vrfKindCst)
        then v ← vrfTableAttr slaveData 1; Some (set_u32 VrfPortTable v li) else Some li);
  li ← (if decide (li_str li Kind = bondKindCst)
        then b ← ParseBondInfoData infoData;
             Some (upd_nested (fun n => mkNested b (n_BondSlave n) (n_AltNames n) (n_Stats n)) li) else Some li);
  if decide (li_str li SlaveKind = bondKindCst)
  then b ← ParseBondSlaveData slaveData;
       Some (upd_nested (fun n => mkNested (n_Bond n) b (n_AltNames n) (n_Stats n)) li) else Some li.

Definition gen_mode_attr (atype : Z) (inner : bytes) (li : LinkInfo) : go LinkInfo :=
  if decide (atype <> IFLA_INET6_ADDR_GEN_MODE \/ glen inner < 1) then Some li else
  if negb (li_has li HasAddrGenMode)
  then v ← index inner 0; Some (set_has HasAddrGenMode (set_num AddrGenMode v li)) else Some li.
Definition setAddrGenMode (val : bytes) (li : LinkInfo) : go LinkInfo :=
  walkNestTolerant val (fun family afVal li =>
    if decide (family <> AF_INET6) then Some li else walkNestTolerant afVal gen_mode_attr li) li.

(** *** The switches *)

Definition setU32_field (f : u32) (val : bytes) (li : LinkInfo) : go LinkInfo :=
  v ← setU32 val (li_u32 li f); Some (set_u32 f v li).
(** [len(val) >= 1] and [len(val) >= 4] guards. *)
Definition u8_field (f : num) (h : has) (val : bytes) (li : LinkInfo) : go LinkInfo :=
  if decide (1 <= glen val) then v ← index val 0; Some (set_has h (set_num f v li)) else Some li.
Definition u32_field (f : num) (h : has) (val : bytes) (li : LinkInfo) : go LinkInfo :=
  with_u32 val li (fun v => set_has h (set_num f v li)).

Definition setLinkDetailAttr (atype : Z) (val : bytes) (li : LinkInfo) : go LinkInfo :=
  if decide (atype = IFLA_PROMISCUITY) then setU32_field Promiscuity val li else
  if decide (atype = IFLA_ALLMULTI) then setU32_field AllMulti val li else
  if decide (atype = IFLA_MIN_MTU) then setU32_field MinMTU val li else
  if decide (atype = IFLA_MAX_MTU) then setU32_field MaxMTU val li else
  if decide (atype = IflaNetnsImmutable) then
    if decide (1 <= glen val) then v ← index val 0; Some (put_has NetnsImmutable (bool_decide (v <> 0)) li)
    else Some li
  else
  if decide (atype = IFLA_AF_SPEC) then setAddrGenMode val li else
  if decide (atype = IFLA_NUM_TX_QUEUES) then setU32_field NumTxQueues val li else
  if decide (atype = IFLA_NUM_RX_QUEUES) then setU32_field NumRxQueues val li else
  if decide (atype = IFLA_GSO_MAX_SIZE) then setU32_field GSOMaxSize val li else
  if decide (atype = IFLA_GSO_MAX_SEGS) then setU32_field GSOMaxSegs val li else
  if decide (atype = IFLA_TSO_MAX_SIZE) then setU32_field TSOMaxSize val li else
  if decide (atype = IFLA_TSO_MAX_SEGS) then setU32_field TSOMaxSegs val li else
  if decide (atype = IFLA_GRO_MAX_SIZE) then setU32_field GROMaxSize val li else
  if decide (atype = IFLA_GSO_IPV4_MAX_SIZE) then setU32_field GSOIPv4MaxSize val li else
  if decide (atype = IFLA_GRO_IPV4_MAX_SIZE) then setU32_field GROIPv4MaxSize val li else
  if decide (atype = IFLA_PHYS_PORT_NAME) then Some (set_str PhysPortName (TrimRight0 val) li) else
  if decide (atype = IFLA_PHYS_PORT_ID) then Some (set_buf PhysPortID (CopyBytes val) li) else
  if decide (atype = IFLA_PHYS_SWITCH_ID) then Some (set_buf PhysSwitchID (CopyBytes val) li) else
  if decide (atype = IFLA_PARENT_DEV_BUS_NAME) then Some (set_str ParentDevBusName (TrimRight0 val) li) else
  if decide (atype = IFLA_PARENT_DEV_NAME) then Some (set_str ParentDevName (TrimRight0 val) li) else
  Some li.

Definition setLinkScalarAttr (atype : Z) (val : bytes) (li : LinkInfo) : go LinkInfo :=
  if decide (atype = IFLA_OPERSTATE) then u8_field OperState HasOperState val li else
  if decide (atype = IFLA_CARRIER) then u8_field Carrier HasCarrier val li else
  if decide (atype = IFLA_MTU) then u32_field MTU HasMTU val li else
  if decide (atype = IFLA_TXQLEN) then u32_field TxQLen HasTxQLen val li else
  if decide (atype = IFLA_EVENT) then u32_field Event HasEvent val li else
  if decide (atype = IFLA_LINKMODE) then u8_field LinkMode HasLinkMode val li else
  if decide (atype = IFLA_GROUP) then u32_field Group HasGroup val li else
  if decide (atype = IFLA_LINK) then with_u32 val li (fun v => set_has HasLink (set_num Link_ (int32 v) li)) else
  if decide (atype = IFLA_MASTER) then with_u32 val li (fun v => set_num Master (int32 v) li) else
  if decide (atype = IFLA_LINK_NETNSID) then
    with_u32 val li (fun v => set_has HasLinkNetnsID (set_num LinkNetnsID (int32 v) li)) else
  Some li.

Record linkStatsRaw := mkRaw { r_stats : option bytes; r_stats64 : option bytes; r_protinfo : option bytes }.

Definition setLinkAttr (atype : Z) (val : bytes) (s : LinkInfo * linkStatsRaw) : go (LinkInfo * linkStatsRaw) :=
  let '(li, raw) := s in
  let on (x : go LinkInfo) := li ← x; Some (li, raw) in
  if decide (atype = IFLA_IFNAME) then Some (set_str Name (TrimRight0 val) li, raw) else
  if decide (atype ∈ [IFLA_OPERSTATE; IFLA_CARRIER; IFLA_MTU; IFLA_TXQLEN; IFLA_LINKMODE; IFLA_GROUP;
                      IFLA_LINK; IFLA_MASTER; IFLA_LINK_NETNSID; IFLA_EVENT])
  then on (setLinkScalarAttr atype val li) else
  if decide (atype = IFLA_ADDRESS) then Some (set_buf Address (CopyBytes val) li, raw) else
  if decide (atype = IFLA_BROADCAST) then Some (set_buf Broadcast (CopyBytes val) li, raw) else
  if decide (atype = IFLA_PERM_ADDRESS) then Some (set_buf PermAddress (CopyBytes val) li, raw) else
  if decide (atype = IFLA_QDISC) then Some (set_str Qdisc (TrimRight0 val) li, raw) else
  if decide (atype = IFLA_LINKINFO) then on (setLinkInfoNest val (set_has HasLinkInfo li)) else
  if decide (atype = IFLA_PROP_LIST) then
    on (l ← linkAltNames val;
        Some (upd_nested (fun n => mkNested (n_Bond n) (n_BondSlave n) l (n_Stats n)) li)) else
  if decide (atype = IFLA_CARRIER_CHANGES) then on (setU32_field CarrierChanges val li) else
  if decide (atype = IFLA_CARRIER_UP_COUNT) then on (setU32_field CarrierUpCount val li) else
  if decide (atype = IFLA_CARRIER_DOWN_COUNT) then on (setU32_field CarrierDownCount val li) else
  if decide (atype = IFLA_STATS) then Some (li, mkRaw (Some val) (r_stats64 raw) (r_protinfo raw)) else
  if decide (atype = IFLA_STATS64) then Some (li, mkRaw (r_stats raw) (Some val) (r_protinfo raw)) else
  if decide (atype = IFLA_PROTINFO) then Some (li, mkRaw (r_stats raw) (r_stats64 raw) (Some val)) else
  on (setLinkDetailAttr atype val li).

(** *** ParseNewLink *)

Definition completeFields (r : linkStatsRaw) : Z :=
  match r_stats64 r, r_stats r with
  | Some b, _ => uint8 (Z.min (glen b / 8) (RtnlLinkStats64SizeCst / 8))
  | None, Some b => uint8 (Z.min (glen b / 4) (RtnlLinkStatsSizeCst / 4))
  | None, None => 0
  end.

Definition header_info (m : IfInfomsg) : LinkInfo :=
  set_num Index (m_Index m) (set_num Flags (m_Flags m) (set_num Change (m_Change m)
    (set_num Type_ (m_Type m) zeroLinkInfo))).

Definition finish (li : LinkInfo) (raw : linkStatsRaw) : go LinkInfo :=
  s ← DecodeLinkStats (r_stats64 raw) (r_stats raw) (r_protinfo raw);
  let li := match s with
    | Some s =>
        put_has StatsIs64 (bool_decide (r_stats64 raw <> None) ||
            bool_decide (r_stats raw = None) && bool_decide (r_protinfo raw <> None))
          (upd_nested (fun n => mkNested (n_Bond n) (n_BondSlave n) (n_AltNames n) (Some s)) li)
    | None => li
    end in
  Some (set_num StatsFields (completeFields raw) li).

Definition ParseNewLink (body : bytes) : go (LinkInfo * option err) :=
  '(m, _, derr) ← DeserializeIfInfomsg body (mkIfInfomsg 0 0 0 0 0 0);
  match derr with
  | Some e => Some (zeroLinkInfo, Some e)
  | None =>
      attrs ← slice body IfInfomsgSizeCst (glen body);
      '((_, (li, raw)), werr) ← WalkRTAttrs (guarded setLinkAttr) attrs (0, (header_info m, mkRaw None None None));
      match werr with
      | Some e => Some (zeroLinkInfo, Some e)
      | None => li ← finish li raw; Some (li, None)
      end
  end.

(** *** Methods *)

Definition IFF_UP : Z := 1.
Definition IFF_RUNNING : Z := 64.
Definition IsUp (li : LinkInfo) : bool :=
  bool_decide (Z.land (li_num li Flags) (Z.lor IFF_UP IFF_RUNNING) = Z.lor IFF_UP IFF_RUNNING).
Definition IsAdminDown (li : LinkInfo) : bool := bool_decide (Z.land (li_num li Flags) IFF_UP = 0).
Definition IsCarrierDown (li : LinkInfo) : bool :=
  bool_decide (Z.land (li_num li Flags) IFF_UP <> 0) && bool_decide (Z.land (li_num li Flags) IFF_RUNNING = 0).
Definition PermAddrDiffers (li : LinkInfo) : bool :=
  if decide (glen (default [] (li_buf li PermAddress)) = 0) then false
  else negb (bool_decide (default [] (li_buf li PermAddress) = default [] (li_buf li Address))).

End Link.
