(* ===== verification/LinksSpec.v ===== *)
(** What the link parser returns: every field of a link as a function of the
    message's header and attributes. *)

From stdpp Require Import functions.
From S2P Require Import Prelude NlHeaders Enrich RtAttr NlRequest NlEnvelope RtParsers RtParsersSpec.
From S2P Require Import LinkStats Bond Links.
Import Links.Link.

(** ** Attribute types past the first-wins set *)

Section High.
Context {X A : Type} (body : Z -> bytes -> X -> go X) (g : X -> A) (t : Z) (h : bytes -> A -> A).
Context (Hother : forall u v x x', u <> t -> body u v x = Some x' -> g x' = g x).
Context (Hset : forall v x x', body t v x = Some x' -> g x' = h v (g x)).

(** Every payload of a type. *)
Definition all_attrs (t : Z) (l : list (Z * bytes)) : list bytes := snd <$> filter (fun a => a.1 = t) l.

(** A type of 64 and above is visited at every occurrence. *)
Lemma visit_every_field l seen x x' : 64 <= t -> visit_attrs body (firsts seen l) x = Some x' ->
  g x' = foldl (fun d v => h v d) (g x) (all_attrs t l).
Proof using Hother Hset.
  intros Ht. unfold all_attrs. revert seen x. induction l as [|[u v] l IH]; intros seen x H; cbn [firsts fst] in H.
  { cbn [visit_attrs] in H. by simplify_eq. }
  rewrite filter_cons. cbn [fst snd]. destruct (decide (u = t)) as [->|Hu].
  - rewrite decide_True in H by done. cbn [visit_attrs] in H. apply bind_Some in H as (x1 & Hx1 & H).
    rewrite fmap_cons. cbn [foldl snd]. rewrite <- (Hset _ _ _ Hx1). by eapply IH.
  - case_decide; [|case_decide; [by eapply IH|]]; cbn [visit_attrs] in H; apply bind_Some in H as (x1 & Hx1 & H);
      rewrite <- (Hother _ _ _ _ Hu Hx1); by eapply IH.
Qed.
End High.

(** ** Totality of the nests *)

Lemma link_info_attr_total t v s : is_Some (link_info_attr t v s).
Proof. destruct s as [[li i] s]. unfold link_info_attr. repeat (case_decide; [by eexists|]). by eexists. Qed.
Lemma vrfTableAttr_total n a : is_Some (vrfTableAttr n a).
Proof.
  unfold vrfTableAttr. destruct n as [n|]; [|by eexists]. apply tolerant_total. intros t v s.
  destruct (_ && _); [rewrite setU32_eq|]; by eexists.
Qed.
Lemma linkAltNames_total v : is_Some (linkAltNames v).
Proof. apply tolerant_total. intros. case_decide; by eexists. Qed.
Lemma setLinkInfoNest_total v li : is_Some (setLinkInfoNest v li).
Proof.
  unfold setLinkInfoNest. destruct (tolerant_total v link_info_attr (li, None, None) link_info_attr_total) as [[[l i] s] ->].
  cbn [mbind option_bind]. destruct (vrfTableAttr_total i 1) as [x Hx]. destruct (vrfTableAttr_total s 1) as [y Hy].
  destruct (ParseBondInfoData_total i) as [b Hb]. destruct (ParseBondSlaveData_total s) as [c Hc].
  rewrite Hx, Hy, Hb, Hc. cbn [mbind option_bind].
  repeat (case_decide; cbn [mbind option_bind]); by eexists.
Qed.
Lemma setAddrGenMode_total v li : is_Some (setAddrGenMode v li).
Proof.
  apply tolerant_total. intros t w s. case_decide; [by eexists|]. apply tolerant_total. intros t' w' s'.
  unfold gen_mode_attr. case_decide as Hn; [by eexists|]. destruct (negb _); [|by eexists].
  apply Decidable.not_or in Hn as [_ Hn]. rewrite index_ok by lia. by eexists.
Qed.

(** ** The callback without its panics *)

Definition nest_upd (v : bytes) (li : LinkInfo) : LinkInfo :=
  default li (setLinkInfoNest v (set_has HasLinkInfo li)).
Definition gen_upd (v : bytes) (li : LinkInfo) : LinkInfo := default li (setAddrGenMode v li).
Definition on_u32 (v : bytes) (li : LinkInfo) (k : Z -> LinkInfo) : LinkInfo :=
  match u32_of v with Some n => k n | None => li end.
Definition on_u8 (v : bytes) (li : LinkInfo) (k : Z -> LinkInfo) : LinkInfo :=
  match u8_of v with Some n => k n | None => li end.
Definition u32attr (f : u32) (v : bytes) (li : LinkInfo) : LinkInfo :=
  set_u32 f (union (u32_opt v) (li_u32 li f)) li.

Definition scalar_upd (t : Z) (v : bytes) (li : LinkInfo) : LinkInfo :=
  if decide (t = IFLA_OPERSTATE) then on_u8 v li (fun n => set_has HasOperState (set_num OperState n li)) else
  if decide (t = IFLA_CARRIER) then on_u8 v li (fun n => set_has HasCarrier (set_num Carrier n li)) else
  if decide (t = IFLA_MTU) then on_u32 v li (fun n => set_has HasMTU (set_num MTU n li)) else
  if decide (t = IFLA_TXQLEN) then on_u32 v li (fun n => set_has HasTxQLen (set_num TxQLen n li)) else
  if decide (t = IFLA_EVENT) then on_u32 v li (fun n => set_has HasEvent (set_num Event n li)) else
  if decide (t = IFLA_LINKMODE) then on_u8 v li (fun n => set_has HasLinkMode (set_num LinkMode n li)) else
  if decide (t = IFLA_GROUP) then on_u32 v li (fun n => set_has HasGroup (set_num Group n li)) else
  if decide (t = IFLA_LINK) then on_u32 v li (fun n => set_has HasLink (set_num Link_ (int32 n) li)) else
  if decide (t = IFLA_MASTER) then on_u32 v li (fun n => set_num Master (int32 n) li) else
  if decide (t = IFLA_LINK_NETNSID) then
    on_u32 v li (fun n => set_has HasLinkNetnsID (set_num LinkNetnsID (int32 n) li)) else
  li.

Definition detail_upd (t : Z) (v : bytes) (li : LinkInfo) : LinkInfo :=
  if decide (t = IFLA_PROMISCUITY) then u32attr Promiscuity v li else
  if decide (t = IFLA_ALLMULTI) then u32attr AllMulti v li else
  if decide (t = IFLA_MIN_MTU) then u32attr MinMTU v li else
  if decide (t = IFLA_MAX_MTU) then u32attr MaxMTU v li else
  if decide (t = IflaNetnsImmutable) then on_u8 v li (fun n => put_has NetnsImmutable (bool_decide (n <> 0)) li) else
  if decide (t = IFLA_AF_SPEC) then gen_upd v li else
  if decide (t = IFLA_NUM_TX_QUEUES) then u32attr NumTxQueues v li else
  if decide (t = IFLA_NUM_RX_QUEUES) then u32attr NumRxQueues v li else
  if decide (t = IFLA_GSO_MAX_SIZE) then u32attr GSOMaxSize v li else
  if decide (t = IFLA_GSO_MAX_SEGS) then u32attr GSOMaxSegs v li else
  if decide (t = IFLA_TSO_MAX_SIZE) then u32attr TSOMaxSize v li else
  if decide (t = IFLA_TSO_MAX_SEGS) then u32attr TSOMaxSegs v li else
  if decide (t = IFLA_GRO_MAX_SIZE) then u32attr GROMaxSize v li else
  if decide (t = IFLA_GSO_IPV4_MAX_SIZE) then u32attr GSOIPv4MaxSize v li else
  if decide (t = IFLA_GRO_IPV4_MAX_SIZE) then u32attr GROIPv4MaxSize v li else
  if decide (t = IFLA_PHYS_PORT_NAME) then set_str PhysPortName (TrimRight0 v) li else
  if decide (t = IFLA_PHYS_PORT_ID) then set_buf PhysPortID (CopyBytes v) li else
  if decide (t = IFLA_PHYS_SWITCH_ID) then set_buf PhysSwitchID (CopyBytes v) li else
  if decide (t = IFLA_PARENT_DEV_BUS_NAME) then set_str ParentDevBusName (TrimRight0 v) li else
  if decide (t = IFLA_PARENT_DEV_NAME) then set_str ParentDevName (TrimRight0 v) li else
  li.

Definition link_upd (t : Z) (v : bytes) (li : LinkInfo) : LinkInfo :=
  if decide (t = IFLA_IFNAME) then set_str Name (TrimRight0 v) li else
  if decide (t = IFLA_ADDRESS) then set_buf Address (CopyBytes v) li else
  if decide (t = IFLA_BROADCAST) then set_buf Broadcast (CopyBytes v) li else
  if decide (t = IFLA_PERM_ADDRESS) then set_buf PermAddress (CopyBytes v) li else
  if decide (t = IFLA_QDISC) then set_str Qdisc (TrimRight0 v) li else
  if decide (t = IFLA_LINKINFO) then nest_upd v li else
  if decide (t = IFLA_PROP_LIST) then
    upd_nested (fun n => mkNested (n_Bond n) (n_BondSlave n) (default [] (linkAltNames v)) (n_Stats n)) li else
  if decide (t = IFLA_CARRIER_CHANGES) then u32attr CarrierChanges v li else
  if decide (t = IFLA_CARRIER_UP_COUNT) then u32attr CarrierUpCount v li else
  if decide (t = IFLA_CARRIER_DOWN_COUNT) then u32attr CarrierDownCount v li else
  detail_upd t v (scalar_upd t v li).

Definition raw_upd (t : Z) (v : bytes) (r : linkStatsRaw) : linkStatsRaw :=
  if decide (t = IFLA_STATS) then mkRaw (Some v) (r_stats64 r) (r_protinfo r) else
  if decide (t = IFLA_STATS64) then mkRaw (r_stats r) (Some v) (r_protinfo r) else
  if decide (t = IFLA_PROTINFO) then mkRaw (r_stats r) (r_stats64 r) (Some v) else r.

Lemma setU32_field_eq f v li : setU32_field f v li = Some (u32attr f v li).
Proof. unfold setU32_field, u32attr. by rewrite setU32_eq. Qed.
Lemma u8_field_eq f h v li : u8_field f h v li = Some (on_u8 v li (fun n => set_has h (set_num f n li))).
Proof. unfold u8_field, on_u8. by rewrite u8_eq. Qed.
Lemma u32_field_eq f h v li : u32_field f h v li = Some (on_u32 v li (fun n => set_has h (set_num f n li))).
Proof. unfold u32_field, on_u32. by rewrite with_u32_eq. Qed.

Lemma scalar_eq t v li : setLinkScalarAttr t v li = Some (scalar_upd t v li).
Proof.
  unfold setLinkScalarAttr, scalar_upd. rewrite !u8_field_eq, !u32_field_eq, !with_u32_eq.
  by repeat (case_decide; [done|]).
Qed.
Lemma detail_eq t v li : setLinkDetailAttr t v li = Some (detail_upd t v li).
Proof.
  unfold setLinkDetailAttr, detail_upd. rewrite !setU32_field_eq, u8_eq.
  destruct (setAddrGenMode_total v li) as [l Hl]. unfold gen_upd. rewrite Hl. cbn [default from_option id].
  by repeat (case_decide; [done|]).
Qed.

Definition scalar_attrs : list Z :=
  [IFLA_OPERSTATE; IFLA_CARRIER; IFLA_MTU; IFLA_TXQLEN; IFLA_LINKMODE; IFLA_GROUP; IFLA_LINK; IFLA_MASTER;
   IFLA_LINK_NETNSID; IFLA_EVENT].

Lemma scalar_id t v li : t ∉ scalar_attrs -> scalar_upd t v li = li.
Proof.
  intros H. unfold scalar_upd. unfold scalar_attrs in H. repeat (rewrite decide_False by set_solver). done.
Qed.

Lemma setLinkAttr_eq t v s : setLinkAttr t v s = Some (link_upd t v s.1, raw_upd t v s.2).
Proof.
  destruct s as [li raw]. unfold setLinkAttr. cbv zeta. cbn [fst snd]. fold scalar_attrs.
  destruct (decide (t ∈ scalar_attrs)) as [Hs|Hs].
  - rewrite scalar_eq. repeat (apply elem_of_cons in Hs as [->|Hs]; [done|]). inversion Hs.
  - rewrite detail_eq. unfold link_upd, raw_upd. rewrite scalar_id by done. rewrite !setU32_field_eq.
    unfold nest_upd. destruct (setLinkInfoNest_total v (set_has HasLinkInfo li)) as [l ->].
    destruct (linkAltNames_total v) as [n ->]. cbn [mbind option_bind default from_option id].
    repeat (case_decide; [by subst|]). done.
Qed.

(** ** What the nests touch *)

Lemma visit_sim {A B} (R : A -> B -> Prop) (f : Z -> bytes -> A -> go A) (g : Z -> bytes -> B -> go B) l a b a' b' :
  (forall t v a b a' b', R a b -> f t v a = Some a' -> g t v b = Some b' -> R a' b') ->
  R a b -> visit_attrs f l a = Some a' -> visit_attrs g l b = Some b' -> R a' b'.
Proof.
  intros Hfg. revert a b. induction l as [|[t v] l IH]; intros a b Hab Ha Hb; cbn [visit_attrs] in *; [by simplify_eq|].
  apply bind_Some in Ha as (a1 & Ha1 & Ha). apply bind_Some in Hb as (b1 & Hb1 & Hb). eapply IH; [|done..]. by eapply Hfg.
Qed.

(** The fields IFLA_LINKINFO's nest sets, and those IFLA_AF_SPEC's does. *)
Definition nest_has (f : has) : bool := bool_decide (f ∈ [HasLinkInfo; HasInfoData; HasInfoSlaveData]).
Definition nest_u32 (f : u32) : bool := bool_decide (f ∈ [VrfTable; VrfPortTable]).
Definition nest_str (f : str) : bool := bool_decide (f ∈ [Kind; SlaveKind]).

Record nest_frame (a b : LinkInfo) : Prop := {
  nf_num f : li_num b f = li_num a f;
  nf_has f : nest_has f = false -> li_has b f = li_has a f;
  nf_u32 f : nest_u32 f = false -> li_u32 b f = li_u32 a f;
  nf_buf f : li_buf b f = li_buf a f;
  nf_str f : nest_str f = false -> li_str b f = li_str a f;
  nf_alt : n_AltNames (li_nested b) = n_AltNames (li_nested a);
  nf_stats : n_Stats (li_nested b) = n_Stats (li_nested a) }.

(** The fields of the nest agree in two links. *)
Record nest_agree (a b : LinkInfo) : Prop := {
  na_has f : nest_has f = true -> li_has b f = li_has a f;
  na_u32 f : nest_u32 f = true -> li_u32 b f = li_u32 a f;
  na_str f : nest_str f = true -> li_str b f = li_str a f;
  na_bond : n_Bond (li_nested b) = n_Bond (li_nested a);
  na_slave : n_BondSlave (li_nested b) = n_BondSlave (li_nested a) }.

#[export] Instance nest_frame_refl : Reflexive nest_frame.
Proof. by split. Qed.
#[export] Instance nest_frame_trans : Transitive nest_frame.
Proof. intros a b c Hab Hbc. split; intros; (etrans; [by apply Hbc|by apply Hab]). Qed.

Ltac insert_ne := rewrite ?fn_lookup_insert_ne by (intros <-; done).

Lemma frame_has f b li : nest_has f = true -> nest_frame li (put_has f b li).
Proof. intros Hf. split; try done. intros g Hg. cbn. apply fn_lookup_insert_ne. intros <-. congruence. Qed.
Lemma frame_u32 f b li : nest_u32 f = true -> nest_frame li (set_u32 f b li).
Proof. intros Hf. split; try done. intros g Hg. cbn. apply fn_lookup_insert_ne. intros <-. congruence. Qed.
Lemma frame_str f b li : nest_str f = true -> nest_frame li (set_str f b li).
Proof. intros Hf. split; try done. intros g Hg. cbn. apply fn_lookup_insert_ne. intros <-. congruence. Qed.
Lemma frame_bond b li :
  nest_frame li (upd_nested (fun n => mkNested b (n_BondSlave n) (n_AltNames n) (n_Stats n)) li).
Proof. by split. Qed.
Lemma frame_slave b li :
  nest_frame li (upd_nested (fun n => mkNested (n_Bond n) b (n_AltNames n) (n_Stats n)) li).
Proof. by split. Qed.

#[local] Hint Resolve frame_has frame_u32 frame_str frame_bond frame_slave : core.

Lemma link_info_frame t v s s' : link_info_attr t v s = Some s' -> nest_frame s.1.1 s'.1.1.
Proof.
  destruct s as [[li i] d]. unfold link_info_attr, set_has. intros H. repeat case_decide; simplify_eq; cbn [fst]; auto using frame_has, frame_str; reflexivity.
Qed.
Lemma nest_upd_frame v li : nest_frame li (nest_upd v li).
Proof.
  unfold nest_upd. destruct (setLinkInfoNest_total v (set_has HasLinkInfo li)) as [l Hl]. rewrite Hl. cbn.
  unfold setLinkInfoNest in Hl. rewrite walkNestTolerant_eq in Hl. apply bind_Some in Hl as ([[l0 i] d] & Hv & Hl).
  trans l0.
  - trans (set_has HasLinkInfo li); [by apply frame_has|].
    assert (forall l s, visit_attrs link_info_attr l s = Some (l0, i, d) -> nest_frame s.1.1 l0) as Hn.
    { clear. induction l as [|[t v] l IH]; intros s H; cbn [visit_attrs] in H; [by simplify_eq|].
      apply bind_Some in H as (s1 & Hs1 & H). trans (s1.1.1); [by eapply link_info_frame|by apply IH]. }
    apply Hn in Hv. exact Hv.
  - clear Hv. apply bind_Some in Hl as (l1 & H1 & Hl). apply bind_Some in Hl as (l2 & H2 & Hl).
    apply bind_Some in Hl as (l3 & H3 & Hl).
    trans l1; [|trans l2; [|trans l3]].
    + destruct (decide (li_str l0 Kind = vrfKindCst)); [apply bind_Some in H1 as (? & _ & [= <-]); auto|by injection H1 as <-].
    + destruct (decide (li_str l1 SlaveKind = vrfKindCst)); [apply bind_Some in H2 as (? & _ & [= <-]); auto|by injection H2 as <-].
    + destruct (decide (li_str l2 Kind = bondKindCst)); [apply bind_Some in H3 as (? & _ & [= <-]); auto|by injection H3 as <-].
    + destruct (decide (li_str l3 SlaveKind = bondKindCst)); [apply bind_Some in Hl as (? & _ & [= <-]); auto|by injection Hl as <-].
Qed.

(** The nest's outcome depends on the fields it sets alone. *)
Lemma agree_put_has f x a b : nest_agree a b -> nest_agree (put_has f x a) (put_has f x b).
Proof. intros []. split; try done. intros g Hg. cbn. destruct (decide (f = g)) as [<-|]; rewrite ?fn_lookup_insert, ?fn_lookup_insert_ne by done; auto. Qed.
Lemma agree_set_u32 f x a b : nest_agree a b -> nest_agree (set_u32 f x a) (set_u32 f x b).
Proof. intros []. split; try done. intros g Hg. cbn. destruct (decide (f = g)) as [<-|]; rewrite ?fn_lookup_insert, ?fn_lookup_insert_ne by done; auto. Qed.
Lemma agree_set_str f x a b : nest_agree a b -> nest_agree (set_str f x a) (set_str f x b).
Proof. intros []. split; try done. intros g Hg. cbn. destruct (decide (f = g)) as [<-|]; rewrite ?fn_lookup_insert, ?fn_lookup_insert_ne by done; auto. Qed.
#[local] Hint Resolve agree_put_has agree_set_u32 agree_set_str : core.

Definition nest_step_agree (x y : LinkInfo * option bytes * option bytes) : Prop :=
  nest_agree x.1.1 y.1.1 /\ x.1.2 = y.1.2 /\ x.2 = y.2.
Lemma link_info_agree t w p q s1 s2 : nest_step_agree p q ->
  link_info_attr t w p = Some s1 -> link_info_attr t w q = Some s2 -> nest_step_agree s1 s2.
Proof.
  destruct p as [[p ip] dp], q as [[q iq] dq]. intros (Hpq & Hi & Hd) H1 H2. cbn [fst snd] in *. subst iq dq.
  pose proof (na_str _ _ Hpq Kind eq_refl) as Hk. pose proof (na_str _ _ Hpq SlaveKind eq_refl) as Hs.
  unfold link_info_attr, set_has in *. rewrite Hk, Hs in H2.
  repeat case_decide; simplify_eq; unfold nest_step_agree; cbn [fst snd]; split_and!; auto.
Qed.

Lemma nest_upd_agree v a b : nest_agree a b -> nest_agree (nest_upd v a) (nest_upd v b).
Proof.
  intros Hab. unfold nest_upd. destruct (setLinkInfoNest_total v (set_has HasLinkInfo a)) as [x Hx].
  destruct (setLinkInfoNest_total v (set_has HasLinkInfo b)) as [y Hy]. rewrite Hx, Hy. cbn.
  unfold setLinkInfoNest in Hx, Hy. rewrite walkNestTolerant_eq in Hx, Hy.
  apply bind_Some in Hx as ([[a0 i] d] & Hva & Hx). apply bind_Some in Hy as ([[b0 i'] d'] & Hvb & Hy).
  assert (nest_agree a0 b0 /\ i = i' /\ d = d') as (Hab0 & <- & <-).
  { assert (nest_step_agree (set_has HasLinkInfo a, None, None) (set_has HasLinkInfo b, None, None)) as H0
      by (unfold nest_step_agree; cbn; split_and!; [by apply agree_put_has|done..]).
    exact (visit_sim nest_step_agree link_info_attr link_info_attr _ _ _ _ _ link_info_agree H0 Hva Hvb). }
  clear Hva Hvb Hab.
  apply bind_Some in Hx as (a1 & A1 & Hx). apply bind_Some in Hx as (a2 & A2 & Hx). apply bind_Some in Hx as (a3 & A3 & Hx).
  apply bind_Some in Hy as (b1 & B1 & Hy). apply bind_Some in Hy as (b2 & B2 & Hy). apply bind_Some in Hy as (b3 & B3 & Hy).
  rewrite (na_str _ _ Hab0 Kind eq_refl) in B1.
  assert (nest_agree a1 b1) as H1.
  { destruct (decide (li_str a0 Kind = vrfKindCst)); [apply bind_Some in A1 as (? & E & [= <-]), B1 as (? & E' & [= <-]); simplify_eq; auto|by simplify_eq]. }
  rewrite (na_str _ _ H1 SlaveKind eq_refl) in B2.
  assert (nest_agree a2 b2) as H2.
  { destruct (decide (li_str a1 SlaveKind = vrfKindCst)); [apply bind_Some in A2 as (? & E & [= <-]), B2 as (? & E' & [= <-]); simplify_eq; auto|by simplify_eq]. }
  rewrite (na_str _ _ H2 Kind eq_refl) in B3.
  assert (nest_agree a3 b3) as H3.
  { destruct (decide (li_str a2 Kind = bondKindCst)); [|by simplify_eq]. apply bind_Some in A3 as (? & E & [= <-]), B3 as (? & E' & [= <-]). simplify_eq.
    destruct H2. by split. }
  rewrite (na_str _ _ H3 SlaveKind eq_refl) in Hy.
  destruct (decide (li_str a3 SlaveKind = bondKindCst)); [|by simplify_eq]. apply bind_Some in Hx as (? & E & [= <-]), Hy as (? & E' & [= <-]). simplify_eq.
  destruct H3. by split.
Qed.

(** The address generation mode: the nest of AF_INET6 inside IFLA_AF_SPEC. *)
Record gen_frame (a b : LinkInfo) : Prop := {
  gf_num f : f <> AddrGenMode -> li_num b f = li_num a f;
  gf_has f : f <> HasAddrGenMode -> li_has b f = li_has a f;
  gf_rest : li_u32 b = li_u32 a /\ li_buf b = li_buf a /\ li_str b = li_str a /\ li_nested b = li_nested a }.
Definition gen_agree (a b : LinkInfo) : Prop :=
  li_num b AddrGenMode = li_num a AddrGenMode /\ li_has b HasAddrGenMode = li_has a HasAddrGenMode.

#[export] Instance gen_frame_refl : Reflexive gen_frame.
Proof. by split. Qed.
Lemma gen_frame_trans a b c : gen_frame a b -> gen_frame b c -> gen_frame a c.
Proof.
  intros [A1 A2 (A3 & A4 & A5 & A6)] [B1 B2 (B3 & B4 & B5 & B6)].
  split; intros; [by rewrite B1, A1|by rewrite B2, A2|]. by rewrite B3, B4, B5, B6.
Qed.
Lemma visit_frame {A} (R : A -> A -> Prop) (f : Z -> bytes -> A -> go A) l a b :
  Reflexive R -> (forall a b c, R a b -> R b c -> R a c) -> (forall t v a b, f t v a = Some b -> R a b) ->
  visit_attrs f l a = Some b -> R a b.
Proof.
  intros Hr Ht Hf. revert a. induction l as [|[t v] l IH]; intros a H; cbn [visit_attrs] in H; [by simplify_eq|].
  apply bind_Some in H as (x & Hx & H). eapply Ht; [by eapply Hf|by apply IH].
Qed.

Lemma gen_mode_frame t v a b : gen_mode_attr t v a = Some b -> gen_frame a b.
Proof.
  unfold gen_mode_attr. intros H. case_decide; [by simplify_eq|]. destruct (negb _); [|by simplify_eq].
  apply bind_Some in H as (x & _ & [= <-]). unfold set_has, put_has, set_num.
  split; cbn; try done; intros f Hf; by apply fn_lookup_insert_ne.
Qed.
Lemma gen_mode_agree t v a b a' b' : gen_agree a b ->
  gen_mode_attr t v a = Some a' -> gen_mode_attr t v b = Some b' -> gen_agree a' b'.
Proof.
  unfold gen_mode_attr. intros [Hn Hh] H1 H2. case_decide; [by simplify_eq|]. rewrite Hh in H2.
  destruct (negb _); [|by simplify_eq]. apply bind_Some in H1 as (x & E & [= <-]), H2 as (x' & E' & [= <-]). simplify_eq.
  split; unfold set_has, put_has, set_num; cbn; by rewrite !fn_lookup_insert.
Qed.
Lemma gen_upd_frame v li : gen_frame li (gen_upd v li).
Proof.
  unfold gen_upd. destruct (setAddrGenMode_total v li) as [l Hl]. rewrite Hl. cbn. unfold setAddrGenMode in Hl.
  rewrite walkNestTolerant_eq in Hl. revert Hl. apply visit_frame; [apply _|apply gen_frame_trans|].
  intros t w a b H. case_decide; [by simplify_eq|]. rewrite walkNestTolerant_eq in H. revert H.
  apply visit_frame; [apply _|apply gen_frame_trans|apply gen_mode_frame].
Qed.
Lemma gen_upd_agree v a b : gen_agree a b -> gen_agree (gen_upd v a) (gen_upd v b).
Proof.
  intros Hab. unfold gen_upd. destruct (setAddrGenMode_total v a) as [x Hx], (setAddrGenMode_total v b) as [y Hy].
  rewrite Hx, Hy. cbn. unfold setAddrGenMode in Hx, Hy. rewrite walkNestTolerant_eq in Hx, Hy.
  refine (visit_sim gen_agree _ _ _ _ _ _ _ _ Hab Hx Hy). clear. intros t w a b a' b' Hab H1 H2.
  case_decide; [by simplify_eq|]. rewrite walkNestTolerant_eq in H1, H2.
  exact (visit_sim gen_agree _ _ _ _ _ _ _ gen_mode_agree Hab H1 H2).
Qed.

(** ** The attribute that owns a field *)

Definition num_owner (f : num) : option Z :=
  match f with
  | OperState => Some IFLA_OPERSTATE | Carrier => Some IFLA_CARRIER | MTU => Some IFLA_MTU
  | Link_ => Some IFLA_LINK | Master => Some IFLA_MASTER | LinkNetnsID => Some IFLA_LINK_NETNSID
  | LinkMode => Some IFLA_LINKMODE | TxQLen => Some IFLA_TXQLEN | Group => Some IFLA_GROUP
  | Event => Some IFLA_EVENT | AddrGenMode => Some IFLA_AF_SPEC
  | Index | Flags | Change | Type_ | StatsFields => None
  end.
Definition num_reader (f : num) (v : bytes) : option Z :=
  match f with
  | OperState | Carrier | LinkMode => u8_of v
  | MTU | TxQLen | Group | Event => u32_of v
  | Link_ | Master | LinkNetnsID => int32 <$> u32_of v
  | _ => None
  end.
Definition has_owner (f : has) : option Z :=
  match f with
  | HasOperState => Some IFLA_OPERSTATE | HasCarrier => Some IFLA_CARRIER | HasMTU => Some IFLA_MTU
  | HasInfoData | HasInfoSlaveData | HasLinkInfo => Some IFLA_LINKINFO
  | HasLink => Some IFLA_LINK | HasLinkNetnsID => Some IFLA_LINK_NETNSID | HasLinkMode => Some IFLA_LINKMODE
  | HasTxQLen => Some IFLA_TXQLEN | HasGroup => Some IFLA_GROUP | HasEvent => Some IFLA_EVENT
  | StatsIs64 => None | NetnsImmutable => Some IflaNetnsImmutable | HasAddrGenMode => Some IFLA_AF_SPEC
  end.
(** The field of the value a presence flag tells of. *)
Definition has_reader (f : has) (v : bytes) : option Z :=
  match f with
  | HasOperState | HasCarrier | HasLinkMode => u8_of v
  | HasMTU | HasTxQLen | HasGroup | HasEvent | HasLink | HasLinkNetnsID => u32_of v
  | _ => None
  end.
Definition u32_owner (f : u32) : Z :=
  match f with
  | VrfTable | VrfPortTable => IFLA_LINKINFO
  | CarrierChanges => IFLA_CARRIER_CHANGES | CarrierUpCount => IFLA_CARRIER_UP_COUNT
  | CarrierDownCount => IFLA_CARRIER_DOWN_COUNT | Promiscuity => IFLA_PROMISCUITY | AllMulti => IFLA_ALLMULTI
  | MinMTU => IFLA_MIN_MTU | MaxMTU => IFLA_MAX_MTU | NumTxQueues => IFLA_NUM_TX_QUEUES
  | NumRxQueues => IFLA_NUM_RX_QUEUES | GSOMaxSize => IFLA_GSO_MAX_SIZE | GSOMaxSegs => IFLA_GSO_MAX_SEGS
  | TSOMaxSize => IFLA_TSO_MAX_SIZE | TSOMaxSegs => IFLA_TSO_MAX_SEGS | GROMaxSize => IFLA_GRO_MAX_SIZE
  | GSOIPv4MaxSize => IFLA_GSO_IPV4_MAX_SIZE | GROIPv4MaxSize => IFLA_GRO_IPV4_MAX_SIZE
  end.
Definition buf_owner (f : buf) : Z :=
  match f with
  | Address => IFLA_ADDRESS | Broadcast => IFLA_BROADCAST | PermAddress => IFLA_PERM_ADDRESS
  | PhysPortID => IFLA_PHYS_PORT_ID | PhysSwitchID => IFLA_PHYS_SWITCH_ID
  end.
Definition str_owner (f : str) : Z :=
  match f with
  | Name => IFLA_IFNAME | Qdisc => IFLA_QDISC | Kind | SlaveKind => IFLA_LINKINFO
  | PhysPortName => IFLA_PHYS_PORT_NAME | ParentDevBusName => IFLA_PARENT_DEV_BUS_NAME
  | ParentDevName => IFLA_PARENT_DEV_NAME
  end.

(** No other attribute touches a field. *)
Ltac other_attr :=
  unfold link_upd, detail_upd, scalar_upd, u32attr, on_u32, on_u8;
  repeat case_decide; subst; repeat case_match; try done;
  unfold set_has, put_has, set_num, set_u32, set_buf, set_str, upd_nested;
  cbn [li_num li_has li_u32 li_buf li_str li_nested n_Bond n_BondSlave n_AltNames n_Stats];
  rewrite ?fn_lookup_insert_ne by (intros <-; done); try done.

Lemma link_num_frame t v li f : num_owner f <> Some t -> li_num (link_upd t v li) f = li_num li f.
Proof.
  intros Ht. other_attr.
  - apply nf_num, nest_upd_frame.
  - apply gf_num; [apply gen_upd_frame|]. by intros ->.
Qed.
Lemma link_has_frame t v li f : has_owner f <> Some t -> li_has (link_upd t v li) f = li_has li f.
Proof.
  intros Ht. other_attr.
  - apply nf_has; [apply nest_upd_frame|]. by destruct f.
  - apply gf_has; [apply gen_upd_frame|]. by intros ->.
Qed.
Lemma link_u32_frame t v li f : u32_owner f <> t -> li_u32 (link_upd t v li) f = li_u32 li f.
Proof.
  intros Ht. other_attr.
  - apply nf_u32; [apply nest_upd_frame|]. by destruct f.
  - by destruct (gf_rest _ _ (gen_upd_frame v li)) as (-> & _).
Qed.
Lemma link_buf_frame t v li f : buf_owner f <> t -> li_buf (link_upd t v li) f = li_buf li f.
Proof.
  intros Ht. other_attr.
  - apply nf_buf, nest_upd_frame.
  - by destruct (gf_rest _ _ (gen_upd_frame v li)) as (_ & -> & _).
Qed.
Lemma link_str_frame t v li f : str_owner f <> t -> li_str (link_upd t v li) f = li_str li f.
Proof.
  intros Ht. other_attr.
  - apply nf_str; [apply nest_upd_frame|]. by destruct f.
  - by destruct (gf_rest _ _ (gen_upd_frame v li)) as (_ & _ & -> & _).
Qed.

(** ** The fields of a link *)

(** The raw statistics the walk leaves. *)
Definition raw_of (att : Z -> option bytes) : linkStatsRaw :=
  mkRaw (att IFLA_STATS) (att IFLA_STATS64) (att IFLA_PROTINFO).
Definition stats_of (r : linkStatsRaw) : option RtnlLinkStats64 :=
  default None (DecodeLinkStats (r_stats64 r) (r_stats r) (r_protinfo r)).

(** A nest's fields, from a link with none of them. *)
Definition nest_of (v : bytes) : LinkInfo := nest_upd v zeroLinkInfo.
Definition gen_of (v : bytes) : LinkInfo := gen_upd v zeroLinkInfo.

Definition num_spec (body : bytes) (att : Z -> option bytes) (f : num) : Z :=
  match f with
  | Index => int32 (le_at 4 body 4) | Flags => le_at 4 body 8 | Change => le_at 4 body 12
  | Type_ => le_at 2 body 2
  | StatsFields => completeFields (raw_of att)
  | AddrGenMode => from_option (fun v => li_num (gen_of v) AddrGenMode) 0 (att IFLA_AF_SPEC)
  | _ => default 0 (t ← num_owner f; v ← att t; num_reader f v)
  end.
Definition has_spec (att : Z -> option bytes) (every : Z -> list bytes) (f : has) : bool :=
  match f with
  | HasInfoData | HasInfoSlaveData | HasLinkInfo => from_option (fun v => li_has (nest_of v) f) false (att IFLA_LINKINFO)
  | HasAddrGenMode => from_option (fun v => li_has (gen_of v) f) false (att IFLA_AF_SPEC)
  | StatsIs64 => bool_decide (is_Some (stats_of (raw_of att))) &&
      (bool_decide (att IFLA_STATS64 <> None) ||
       bool_decide (att IFLA_STATS = None) && bool_decide (att IFLA_PROTINFO <> None))
  | NetnsImmutable => foldl (fun d v => match u8_of v with Some n => bool_decide (n <> 0) | None => d end)
      false (every IflaNetnsImmutable)
  | _ => bool_decide (is_Some (t ← has_owner f; v ← att t; has_reader f v))
  end.
Definition u32_spec (att : Z -> option bytes) (every : Z -> list bytes) (f : u32) : option Z :=
  match f with
  | VrfTable | VrfPortTable => v ← att IFLA_LINKINFO; li_u32 (nest_of v) f
  | GROIPv4MaxSize => foldl (fun d v => union (u32_opt v) d) None (every IFLA_GRO_IPV4_MAX_SIZE)
  | _ => v ← att (u32_owner f); u32_opt v
  end.
Definition str_spec (att : Z -> option bytes) (f : str) : bytes :=
  match f with
  | Kind | SlaveKind => from_option (fun v => li_str (nest_of v) f) [] (att IFLA_LINKINFO)
  | _ => from_option TrimRight0 [] (att (str_owner f))
  end.

Definition link_fields (body : bytes) (att : Z -> option bytes) (every : Z -> list bytes) (li : LinkInfo) : Prop :=
  (forall f, li_num li f = num_spec body att f) /\
  (forall f, li_has li f = has_spec att every f) /\
  (forall f, li_u32 li f = u32_spec att every f) /\
  (forall f, li_buf li f = att (buf_owner f) ≫= CopyBytes) /\
  (forall f, li_str li f = str_spec att f) /\
  n_Bond (li_nested li) = (v ← att IFLA_LINKINFO; n_Bond (li_nested (nest_of v))) /\
  n_BondSlave (li_nested li) = (v ← att IFLA_LINKINFO; n_BondSlave (li_nested (nest_of v))) /\
  n_AltNames (li_nested li) = default [] (att IFLA_PROP_LIST ≫= linkAltNames) /\
  n_Stats (li_nested li) = stats_of (raw_of att).

Definition link_header (body : bytes) : LinkInfo :=
  header_info (mkIfInfomsg (byte_at body 0) (byte_at body 1) (le_at 2 body 2) (int32 (le_at 4 body 4))
    (le_at 4 body 8) (le_at 4 body 12)).

Section Fields.
Context (l : list (Z * bytes)) (body : bytes) (li : LinkInfo) (raw : linkStatsRaw).
Context (Hv : visit_attrs setLinkAttr (firsts [] l) (link_header body, mkRaw None None None) = Some (li, raw)).

(** A field owned by one attribute, below and above the first-wins set. *)
Lemma owned_field {A} (g : LinkInfo -> A) t (h : bytes -> A -> A) : 0 <= t < 64 ->
  (forall u v x, u <> t -> g (link_upd u v x) = g x) -> (forall v x, g (link_upd t v x) = h v (g x)) ->
  g li = match first_attr t l with Some v => h v (g (link_header body)) | None => g (link_header body) end.
Proof using Hv.
  intros Ht Ho Hs.
  refine (visit_firsts_field setLinkAttr (fun s => g s.1) t h _ _ l [] _ (li, raw) Ht _ Hv); [| |intros H; inversion H].
  - intros u v x x' Hu. rewrite setLinkAttr_eq. intros [= <-]. by apply Ho.
  - intros v x x'. rewrite setLinkAttr_eq. intros [= <-]. apply Hs.
Qed.
Lemma owned_every {A} (g : LinkInfo -> A) t (h : bytes -> A -> A) : 64 <= t ->
  (forall u v x, u <> t -> g (link_upd u v x) = g x) -> (forall v x, g (link_upd t v x) = h v (g x)) ->
  g li = foldl (fun d v => h v d) (g (link_header body)) (all_attrs t l).
Proof using Hv.
  intros Ht Ho Hs.
  refine (visit_every_field setLinkAttr (fun s => g s.1) t h _ _ l [] _ (li, raw) Ht Hv).
  - intros u v x x' Hu. rewrite setLinkAttr_eq. intros [= <-]. by apply Ho.
  - intros v x x'. rewrite setLinkAttr_eq. intros [= <-]. apply Hs.
Qed.
Lemma unowned_field {A} (g : LinkInfo -> A) :
  (forall u v x, g (link_upd u v x) = g x) -> g li = g (link_header body).
Proof using Hv.
  intros Ho. rewrite (owned_field g 63 (fun _ d => d)) by (lia || done). by destruct (first_attr 63 l).
Qed.

Lemma raw_fields : raw = raw_of (fun t => first_attr t l).
Proof using Hv.
  assert (forall (g : linkStatsRaw -> option bytes) t, 0 <= t < 64 -> g (mkRaw None None None) = None ->
    (forall u v x, u <> t -> g (raw_upd u v x) = g x) -> (forall v x, g (raw_upd t v x) = Some v) ->
    g raw = first_attr t l) as Hraw.
  { intros g t Ht H0 Ho Hs.
    pose proof (visit_firsts_field setLinkAttr (fun s => g s.2) t (fun v _ => Some v)) as Hf.
    specialize (Hf ltac:(intros u v x x' Hu; rewrite setLinkAttr_eq; intros [= <-]; by apply Ho)
      ltac:(intros v x x'; rewrite setLinkAttr_eq; intros [= <-]; apply Hs) l [] _ _ Ht
      ltac:(intros H; inversion H) Hv). cbn [fst snd] in Hf. rewrite Hf, H0. by destruct (first_attr t l). }
  unfold raw_of. destruct raw as [a b c] eqn:Er. f_equal.
  - apply (Hraw r_stats IFLA_STATS); try done. intros. unfold raw_upd. by repeat case_decide.
  - apply (Hraw r_stats64 IFLA_STATS64); try done. intros. unfold raw_upd. by repeat case_decide.
  - apply (Hraw r_protinfo IFLA_PROTINFO); try done. intros. unfold raw_upd. by repeat case_decide.
Qed.

(** A group of fields owned by one attribute, as a relation. *)
Lemma owned_rel (R : LinkInfo -> LinkInfo -> Prop) t (h : bytes -> LinkInfo -> LinkInfo) y :
  0 <= t < 64 -> (forall a b c, R a b -> R b c -> R a c) -> (forall a b, R a b -> R b a) ->
  (forall u v x, u <> t -> R x (link_upd u v x)) -> (forall v x y, R x y -> R (link_upd t v x) (h v y)) ->
  R (link_header body) y -> R li (match first_attr t l with Some v => h v y | None => y end).
Proof using Hv.
  intros Ht Htr Hsy Ho Hs.
  assert (forall z l x s, first_attr t l = None -> visit_attrs setLinkAttr l (x, s) = Some (li, raw) -> R x z -> R li z) as Hoth.
  { clear Hv l. intros z l. induction l as [|[u v] l IH]; intros x s Hl H Hy; cbn [visit_attrs] in H; [by simplify_eq|].
    rewrite first_attr_cons in Hl. cbn [fst snd] in Hl. case_decide as Hu; [done|].
    rewrite setLinkAttr_eq in H. cbn [mbind option_bind fst snd] in H. eapply IH; [done..|].
    eapply Htr; [apply Hsy, Ho; exact Hu|done]. }
  assert (forall l seen x s, t ∉ seen -> visit_attrs setLinkAttr (firsts seen l) (x, s) = Some (li, raw) -> R x y ->
    R li (match first_attr t l with Some v => h v y | None => y end)) as H; [|intros Hy; eapply H; [|exact Hv|exact Hy]; by intros Hi; inversion Hi].
  clear Hv. clear l. intros l. induction l as [|[u v] l IH]; intros seen x s Hn H Hy; cbn [firsts fst] in H.
  { cbn [visit_attrs] in H. by simplify_eq. }
  rewrite first_attr_cons. cbn [fst snd]. destruct (decide (u = t)) as [->|Hu].
  - rewrite !decide_False in H by (done || lia). cbn [visit_attrs] in H. rewrite setLinkAttr_eq in H.
    cbn [mbind option_bind fst snd] in H.
    eapply Hoth; [|exact H|by apply Hs]. apply firsts_seen; [done|by left].
  - case_decide; [|case_decide; [by eapply IH|]]; cbn [visit_attrs] in H; rewrite setLinkAttr_eq in H;
      cbn [mbind option_bind fst snd] in H; (eapply IH; [|exact H|]);
      [set_solver|eapply Htr; [apply Hsy, Ho; exact Hu|done]|set_solver|eapply Htr; [apply Hsy, Ho; exact Hu|done]].
Qed.

Lemma na_trans a b c : nest_agree a b -> nest_agree b c -> nest_agree a c.
Proof. intros Hab Hbc. split; intros; (etrans; [by apply Hbc|by apply Hab]). Qed.
Lemma na_sym a b : nest_agree a b -> nest_agree b a.
Proof. intros Hab. split; intros; symmetry; by apply Hab. Qed.
(** Only IFLA_LINKINFO touches the nest's fields, only IFLA_AF_SPEC the mode. *)
Lemma na_other u v x : u <> IFLA_LINKINFO -> nest_agree x (link_upd u v x).
Proof.
  intros Hu. split; intros; [apply link_has_frame|apply link_u32_frame|apply link_str_frame|..].
  - destruct f; try done; cbn; congruence.
  - destruct f; try done; cbn; congruence.
  - destruct f; try done; cbn; congruence.
  - other_attr. by destruct (gf_rest _ _ (gen_upd_frame v x)) as (_ & _ & _ & ->).
  - other_attr. by destruct (gf_rest _ _ (gen_upd_frame v x)) as (_ & _ & _ & ->).
Qed.
Lemma ga_other u v x : u <> IFLA_AF_SPEC -> gen_agree x (link_upd u v x).
Proof. intros Hu. split; [apply link_num_frame|apply link_has_frame]; cbn; congruence. Qed.

Lemma link_nest : nest_agree (match first_attr IFLA_LINKINFO l with Some v => nest_of v | None => zeroLinkInfo end) li.
Proof using Hv.
  apply na_sym.
  pose proof (owned_rel nest_agree IFLA_LINKINFO nest_upd zeroLinkInfo ltac:(done) na_trans na_sym na_other) as H.
  apply H; [intros v x y Hxy; by apply nest_upd_agree|by split].
Qed.
Lemma link_gen : gen_agree (match first_attr IFLA_AF_SPEC l with Some v => gen_of v | None => zeroLinkInfo end) li.
Proof using Hv.
  assert (forall a b, gen_agree a b -> gen_agree b a) as Hsy by (intros a b []; split; congruence).
  apply Hsy. apply (owned_rel gen_agree IFLA_AF_SPEC gen_upd zeroLinkInfo); try done.
  - intros a b c [] []; split; congruence.
  - apply ga_other.
  - intros v x y Hxy. by apply gen_upd_agree.
Qed.

Lemma link_num f : f <> StatsFields -> li_num li f = num_spec body (fun t => first_attr t l) f.
Proof using Hv.
  intros Hf. destruct (num_owner f) as [t|] eqn:Eo.
  - destruct (decide (f = AddrGenMode)) as [->|Hg].
    { destruct link_gen as [-> _]. cbn [num_spec]. by destruct (first_attr IFLA_AF_SPEC l). }
    rewrite (owned_field (fun x => li_num x f) t (fun v d => default d (num_reader f v))).
    + destruct f; simplify_eq/=; by destruct (first_attr _ l).
    + destruct f; simplify_eq/=; done.
    + intros u v x Hu. apply link_num_frame. congruence.
    + intros v x. destruct f; simplify_eq/=; unfold link_upd, detail_upd, scalar_upd, on_u32, on_u8; cbn;
        first [by destruct (u32_of v)|by destruct (u8_of v)].
  - rewrite (unowned_field (fun x => li_num x f)) by (intros; apply link_num_frame; congruence). by destruct f.
Qed.

(** Presence flags set with their value. *)
Definition flag_of_value (f : has) : bool :=
  bool_decide (f ∈ [HasOperState; HasCarrier; HasMTU; HasLink; HasLinkNetnsID; HasLinkMode; HasTxQLen; HasGroup; HasEvent]).

Lemma link_has_value f : flag_of_value f = true ->
  li_has li f = bool_decide (is_Some (t ← has_owner f; v ← first_attr t l; has_reader f v)).
Proof using Hv.
  intros Hf. destruct (has_owner f) as [t|] eqn:Eo; [|by destruct f].
  rewrite (owned_field (fun x => li_has x f) t (fun v d => if bool_decide (is_Some (has_reader f v)) then true else d)).
  - cbn [mbind option_bind]. destruct (first_attr t l) as [v|]; cbn [mbind option_bind]; [|by destruct f].
    case_bool_decide; [done|by destruct f].
  - by destruct f; simplify_eq/=.
  - intros u v x Hu. apply link_has_frame. congruence.
  - intros v x. destruct f; simplify_eq/=; unfold link_upd, detail_upd, scalar_upd, on_u32, on_u8; cbn;
      first [by destruct (u32_of v)|by destruct (u8_of v)].
Qed.

Lemma link_has f : f <> StatsIs64 -> li_has li f = has_spec (fun t => first_attr t l) (fun t => all_attrs t l) f.
Proof using Hv.
  intros Hf. destruct (flag_of_value f) eqn:Ef; [rewrite link_has_value by done; by destruct f|].
  destruct (nest_has f) eqn:En.
  { rewrite (na_has _ _ link_nest f En). destruct f; try done; cbn [has_spec]; by destruct (first_attr IFLA_LINKINFO l). }
  destruct f; try done; cbn [has_spec].
  - rewrite (owned_every (fun x => li_has x NetnsImmutable) IflaNetnsImmutable
      (fun v d => match u8_of v with Some n => bool_decide (n <> 0) | None => d end)); try done.
    + intros u v x Hu. apply link_has_frame. cbn. congruence.
    + intros v x. unfold link_upd, detail_upd, scalar_upd, on_u8. cbn. by destruct (u8_of v).
  - destruct link_gen as [_ ->]. by destruct (first_attr IFLA_AF_SPEC l).
Qed.

Lemma link_u32 f : li_u32 li f = u32_spec (fun t => first_attr t l) (fun t => all_attrs t l) f.
Proof using Hv.
  destruct (nest_u32 f) eqn:En.
  { rewrite (na_u32 _ _ link_nest f En). destruct f; try done; cbn [u32_spec]; by destruct (first_attr IFLA_LINKINFO l). }
  destruct (decide (f = GROIPv4MaxSize)) as [->|Hf].
  { apply (owned_every (fun x => li_u32 x GROIPv4MaxSize) IFLA_GRO_IPV4_MAX_SIZE (fun v d => union (u32_opt v) d)); try done.
    - intros u v x Hu. apply link_u32_frame. cbn. congruence. }
  rewrite (owned_field (fun x => li_u32 x f) (u32_owner f) (fun v d => union (u32_opt v) d)).
  - destruct f; try done; cbn [u32_spec u32_owner]; destruct (first_attr _ l) as [v|]; try done; cbn; by destruct (u32_opt v).
  - by destruct f.
  - intros u v x Hu. apply link_u32_frame. congruence.
  - intros v x. by destruct f.
Qed.

Lemma link_buf f : li_buf li f = first_attr (buf_owner f) l ≫= CopyBytes.
Proof using Hv.
  rewrite (owned_field (fun x => li_buf x f) (buf_owner f) (fun v _ => CopyBytes v)).
  - by destruct (first_attr _ l).
  - by destruct f.
  - intros u v x Hu. apply link_buf_frame. congruence.
  - intros v x. by destruct f.
Qed.

Lemma link_str f : li_str li f = str_spec (fun t => first_attr t l) f.
Proof using Hv.
  destruct (nest_str f) eqn:En.
  { rewrite (na_str _ _ link_nest f En). destruct f; try done; cbn [str_spec]; by destruct (first_attr IFLA_LINKINFO l). }
  rewrite (owned_field (fun x => li_str x f) (str_owner f) (fun v _ => TrimRight0 v)).
  - destruct f; try done; cbn [str_spec str_owner]; by destruct (first_attr _ l).
  - by destruct f.
  - intros u v x Hu. apply link_str_frame. congruence.
  - intros v x. by destruct f.
Qed.

Lemma link_alt : n_AltNames (li_nested li) = default [] (first_attr IFLA_PROP_LIST l ≫= linkAltNames).
Proof using Hv.
  rewrite (owned_field (fun x => n_AltNames (li_nested x)) IFLA_PROP_LIST (fun v _ => default [] (linkAltNames v))); try done.
  - by destruct (first_attr _ l).
  - intros u v x Hu. other_attr; [apply nf_alt, nest_upd_frame|].
    by destruct (gf_rest _ _ (gen_upd_frame v x)) as (_ & _ & _ & ->).
Qed.
Lemma link_stats0 : n_Stats (li_nested li) = None.
Proof using Hv.
  rewrite (unowned_field (fun x => n_Stats (li_nested x))); [done|]. intros u v x.
  other_attr; [apply nf_stats, nest_upd_frame|]. by destruct (gf_rest _ _ (gen_upd_frame v x)) as (_ & _ & _ & ->).
Qed.
Lemma link_is64 : li_has li StatsIs64 = false.
Proof using Hv. apply (unowned_field (fun x => li_has x StatsIs64)). intros. by apply link_has_frame. Qed.

Lemma finish_fields : exists li', finish li raw = Some li' /\
  link_fields body (fun t => first_attr t l) (fun t => all_attrs t l) li'.
Proof using Hv.
  unfold finish. destruct (DecodeLinkStats_total (r_stats64 raw) (r_stats raw) (r_protinfo raw)) as [s Hs].
  rewrite Hs. cbn [mbind option_bind]. eexists. split; [done|].
  assert (stats_of raw = s) as Hst by (unfold stats_of; by rewrite Hs). pose proof raw_fields as Hraw.
  pose proof link_nest as Hn. unfold link_fields. split_and!.
  - intros f. destruct (decide (f = StatsFields)) as [->|Hf].
    + cbn. rewrite fn_lookup_insert. by rewrite Hraw.
    + rewrite <- link_num by done. destruct s; cbn; by rewrite fn_lookup_insert_ne.
  - intros f. destruct (decide (f = StatsIs64)) as [->|Hf].
    + cbn [has_spec]. rewrite <- Hraw, Hst. destruct s as [s|]; cbn; [|apply link_is64].
      rewrite fn_lookup_insert. by rewrite Hraw.
    + rewrite <- link_has by done. destruct s; cbn; [by rewrite fn_lookup_insert_ne|done].
  - intros f. rewrite <- link_u32. by destruct s.
  - intros f. rewrite <- link_buf. by destruct s.
  - intros f. rewrite <- link_str. by destruct s.
  - trans (n_Bond (li_nested li)); [by destruct s|]. rewrite (na_bond _ _ Hn). by destruct (first_attr IFLA_LINKINFO l).
  - trans (n_BondSlave (li_nested li)); [by destruct s|]. rewrite (na_slave _ _ Hn). by destruct (first_attr IFLA_LINKINFO l).
  - rewrite <- link_alt. by destruct s.
  - rewrite <- Hraw, Hst. destruct s; [done|]. cbn. apply link_stats0.
Qed.
End Fields.

Lemma DeserializeIfInfomsg_ok body m : 16 <= glen body ->
  DeserializeIfInfomsg body m = Some (mkIfInfomsg (byte_at body 0) (byte_at body 1) (le_at 2 body 2)
    (int32 (le_at 4 body 4)) (le_at 4 body 8) (le_at 4 body 12), 16, None).
Proof.
  intros H. unfold DeserializeIfInfomsg, IfInfomsgReadCst, IfInfomsgSizeCst. rewrite decide_False by lia.
  rewrite !index_ok by lia. cbn [mbind option_bind]. rewrite LE16_ok by lia. cbn [mbind option_bind].
  by rewrite !LE32_ok by lia.
Qed.

(** Parsing a link message always returns: the zero value and an error for
    a body shorter than the header or with a mis-framed attribute; otherwise
    every field is the header's or what the first attribute that owns it says -
    the last one for the two types past the first-wins set - with the bond, VRF
    and statistics nests decoded and a malformed nest read as far as it goes. *)
Theorem ParseNewLink_spec body :
  exists li e, ParseNewLink body = Some (li, e) /\
    let w := parse_attrs (drop 16 body) in
    match e with
    | Some e => li = zeroLinkInfo /\ (if decide (glen body < 16) then e = ErrIfInfomsgSmall else w.2 = Some e)
    | None => 16 <= glen body /\ w.2 = None /\
        link_fields body (fun t => first_attr t w.1) (fun t => all_attrs t w.1) li
    end.
Proof.
  destruct (decide (glen body < 16)) as [H|H].
  - exists zeroLinkInfo, (Some ErrIfInfomsgSmall). split; [|done].
    unfold ParseNewLink, DeserializeIfInfomsg, IfInfomsgSizeCst. by rewrite decide_True by done.
  - unfold ParseNewLink. rewrite DeserializeIfInfomsg_ok by lia. cbn [mbind option_bind].
    unfold IfInfomsgSizeCst. rewrite slice_tail by lia. cbn [mbind option_bind]. change (Z.to_nat 16) with 16%nat.
    destruct (guarded_walk_total setLinkAttr (drop 16 body) (link_header body, mkRaw None None None)) as (seen & [li raw] & Hv & Hw).
    { intros. rewrite setLinkAttr_eq. by eexists. }
    unfold link_header in Hw. rewrite Hw. cbn [mbind option_bind]. destruct (parse_attrs (drop 16 body)).2 as [e|] eqn:He.
    + by exists zeroLinkInfo, (Some e).
    + destruct (finish_fields _ _ _ _ Hv) as (li' & -> & Hf). exists li', None. split; [done|]. split_and!; [lia|done|exact Hf].
Qed.
