(* ===== verification/Rules.v ===== *)
(** Policy routing rules (pkg/xtcpnl/xtcpnl_fib_rule_hdr.go) and next-hop
    objects (pkg/xtcpnl/xtcpnl_nhmsg.go): their parsers. *)

From stdpp Require Import functions.
From S2P Require Import Prelude NlHeaders Enrich RtAttr NlRequest NlEnvelope RtParsers.

(** ** Rules *)

Module Rule.

Record FibRuleHdr := mkFibRuleHdr {
  m_Family : Z; m_DstLen : Z; m_SrcLen : Z; m_Tos : Z; m_Table : Z; m_Res1 : Z; m_Res2 : Z; m_Action : Z;
  m_Flags : Z }.
Definition FibRuleHdrReadCst : Z := FibRuleHdrSizeCst.

Definition DeserializeFibRuleHdr (data : bytes) (m : FibRuleHdr) : go (FibRuleHdr * Z * option err) :=
  if decide (glen data < FibRuleHdrSizeCst) then Some (m, 0, Some ErrFibRuleHdrSmall) else
  f ← index data 0;
  dl ← index data 1;
  sl ← index data 2;
  tos ← index data 3;
  tb ← index data 4;
  r1 ← index data 5;
  r2 ← index data 6;
  ac ← index data 7;
  fl ← LE32 data 8 12;
  Some (mkFibRuleHdr f dl sl tos tb r1 r2 ac fl, FibRuleHdrReadCst, None).

(** The two fields of a range are two of the fields. *)
Inductive num :=
  | Family | SrcLen | DstLen | Tos | Action | Flags | RawTable | Priority | Fwmark | Fwmask | L3mdev
  | UidStart | UidEnd | IPProto | SportStart | SportEnd | SportMask | DportStart | DportEnd | DportMask
  | TunID | Table | SuppressPrefixlen | SuppressIfgroup | Flow | Goto | Protocol | Dscp | DscpMask
  | Flowlabel | FlowlabelMask.
Inductive has :=
  | HasPriority | HasFwmark | HasFwmask | HasIifName | HasOifName | HasL3mdev | HasUidRange | HasIPProto
  | HasSportRange | HasSportMask | HasDportRange | HasDportMask | HasTunID | HasSuppressPrefixlen
  | HasSuppressIfgroup | HasFlow | HasGateway | HasGoto | HasProtocol | HasDscp | HasDscpMask
  | HasFlowlabel | HasFlowlabelMask.
Inductive buf := Src | Dst | Gateway.
Inductive str := IifName | OifName.
#[export] Instance num_eq : EqDecision num. Proof. solve_decision. Defined.
#[export] Instance has_eq : EqDecision has. Proof. solve_decision. Defined.
#[export] Instance buf_eq : EqDecision buf. Proof. solve_decision. Defined.
#[export] Instance str_eq : EqDecision str. Proof. solve_decision. Defined.

Record RuleInfo := mkRuleInfo {
  ru_num : num -> Z; ru_has : has -> bool; ru_buf : buf -> option bytes; ru_str : str -> bytes }.
Definition zeroRuleInfo : RuleInfo := mkRuleInfo (fun _ => 0) (fun _ => false) (fun _ => None) (fun _ => []).
Definition set_num (f : num) (v : Z) (r : RuleInfo) : RuleInfo :=
  mkRuleInfo (<[f := v]> (ru_num r)) (ru_has r) (ru_buf r) (ru_str r).
Definition set_has (f : has) (r : RuleInfo) : RuleInfo :=
  mkRuleInfo (ru_num r) (<[f := true]> (ru_has r)) (ru_buf r) (ru_str r).
Definition set_buf (f : buf) (v : option bytes) (r : RuleInfo) : RuleInfo :=
  mkRuleInfo (ru_num r) (ru_has r) (<[f := v]> (ru_buf r)) (ru_str r).
Definition set_str (f : str) (v : bytes) (r : RuleInfo) : RuleInfo :=
  mkRuleInfo (ru_num r) (ru_has r) (ru_buf r) (<[f := v]> (ru_str r)).

Definition FRA_DST : Z := 1.
Definition FRA_SRC : Z := 2.
Definition FRA_IIFNAME : Z := 3.
Definition FRA_GOTO : Z := 4.
Definition RTA_GATEWAY : Z := 5.
Definition FRA_PRIORITY : Z := 6.
Definition FRA_FWMARK : Z := 10.
Definition FRA_FLOW : Z := 11.
Definition FRA_TUN_ID : Z := 12.
Definition FRA_SUPPRESS_IFGROUP : Z := 13.
Definition FRA_SUPPRESS_PREFIXLEN : Z := 14.
Definition FRA_TABLE : Z := 15.
Definition FRA_FWMASK : Z := 16.
Definition FRA_OIFNAME : Z := 17.
Definition FRA_L3MDEV : Z := 19.
Definition FRA_UID_RANGE : Z := 20.
Definition FRA_PROTOCOL : Z := 21.
Definition FRA_IP_PROTO : Z := 22.
Definition FRA_SPORT_RANGE : Z := 23.
Definition FRA_DPORT_RANGE : Z := 24.
Definition FraDscp : Z := 25.
Definition FraFlowlabel : Z := 26.
Definition FraFlowlabelMask : Z := 27.
Definition FraSportMask : Z := 28.
Definition FraDportMask : Z := 29.
Definition FraDscpMask : Z := 30.

(** [v, ok := attrU32(val)]: [None] when the payload is short. *)
Definition attrU8 (val : bytes) : go (option Z) :=
  if decide (glen val < 1) then Some None else v ← index val 0; Some (Some v).
Definition attrU16 (val : bytes) : go (option Z) :=
  if decide (glen val < 2) then Some None else v ← LE16 val 0 2; Some (Some v).
Definition attrU32 (val : bytes) : go (option Z) :=
  if decide (glen val < 4) then Some None else v ← LE32 val 0 4; Some (Some v).
Definition attrPortRange (val : bytes) : go (option (Z * Z)) :=
  if decide (glen val < 4) then Some None else
  a ← LE16 val 0 2; b ← LE16 val 2 4; Some (Some (a, b)).

(** [if v, ok := r; ok { ri.F, ri.HasF = v, true }] *)
Definition set_if (r : go (option Z)) (f : num) (h : has) (ri : RuleInfo) : go RuleInfo :=
  v ← r; Some (match v with Some v => set_has h (set_num f v ri) | None => ri end).

Definition setRuleBigEndianAttr (atype : Z) (val : bytes) (ri : RuleInfo) : go RuleInfo :=
  if decide (atype = FRA_TUN_ID) then
    if decide (8 <= glen val) then v ← slice val 0 8 ≫= be_uint 8; Some (set_has HasTunID (set_num TunID v ri))
    else Some ri
  else if decide (atype = FraFlowlabel) then
    if decide (4 <= glen val) then v ← BE32 val 0 4; Some (set_has HasFlowlabel (set_num Flowlabel v ri))
    else Some ri
  else if decide (atype = FraFlowlabelMask) then
    if decide (4 <= glen val) then v ← BE32 val 0 4; Some (set_has HasFlowlabelMask (set_num FlowlabelMask v ri))
    else Some ri
  else Some ri.

Definition set_range (r : go (option (Z * Z))) (a b : num) (h : has) (ri : RuleInfo) : go RuleInfo :=
  v ← r; Some (match v with Some (x, y) => set_has h (set_num b y (set_num a x ri)) | None => ri end).

Definition setRuleRangeAttr (atype : Z) (val : bytes) (ri : RuleInfo) : go RuleInfo :=
  if decide (atype = FRA_UID_RANGE) then
    if decide (8 <= glen val) then
      a ← LE32 val 0 4; b ← LE32 val 4 8;
      Some (set_has HasUidRange (set_num UidEnd b (set_num UidStart a ri)))
    else Some ri
  else
  if decide (atype = FRA_SPORT_RANGE) then set_range (attrPortRange val) SportStart SportEnd HasSportRange ri else
  if decide (atype = FraSportMask) then set_if (attrU16 val) SportMask HasSportMask ri else
  if decide (atype = FRA_DPORT_RANGE) then set_range (attrPortRange val) DportStart DportEnd HasDportRange ri else
  if decide (atype = FraDportMask) then set_if (attrU16 val) DportMask HasDportMask ri else
  setRuleBigEndianAttr atype val ri.

Definition setRuleU8Attr (atype : Z) (val : bytes) (ri : RuleInfo) : go RuleInfo :=
  if decide (atype = FRA_L3MDEV) then set_if (attrU8 val) L3mdev HasL3mdev ri else
  if decide (atype = FRA_IP_PROTO) then set_if (attrU8 val) IPProto HasIPProto ri else
  if decide (atype = FRA_PROTOCOL) then set_if (attrU8 val) Protocol HasProtocol ri else
  if decide (atype = FraDscp) then set_if (attrU8 val) Dscp HasDscp ri else
  if decide (atype = FraDscpMask) then set_if (attrU8 val) DscpMask HasDscpMask ri else
  setRuleRangeAttr atype val ri.

Definition setRuleU32Attr (atype : Z) (val : bytes) (ri : RuleInfo) : go RuleInfo :=
  if decide (atype = FRA_PRIORITY) then set_if (attrU32 val) Priority HasPriority ri else
  if decide (atype = FRA_FWMARK) then set_if (attrU32 val) Fwmark HasFwmark ri else
  if decide (atype = FRA_FWMASK) then set_if (attrU32 val) Fwmask HasFwmask ri else
  if decide (atype = FRA_TABLE) then
    v ← attrU32 val; Some (match v with Some v => set_num Table v ri | None => ri end) else
  if decide (atype = FRA_SUPPRESS_PREFIXLEN) then
    set_if (attrU32 val) SuppressPrefixlen HasSuppressPrefixlen ri else
  if decide (atype = FRA_SUPPRESS_IFGROUP) then set_if (attrU32 val) SuppressIfgroup HasSuppressIfgroup ri else
  if decide (atype = FRA_FLOW) then set_if (attrU32 val) Flow HasFlow ri else
  if decide (atype = FRA_GOTO) then set_if (attrU32 val) Goto HasGoto ri else
  setRuleU8Attr atype val ri.

Definition setRuleAttr (atype : Z) (val : bytes) (ri : RuleInfo) : go RuleInfo :=
  if decide (atype = FRA_SRC) then Some (set_buf Src (CopyBytes val) ri) else
  if decide (atype = FRA_DST) then Some (set_buf Dst (CopyBytes val) ri) else
  if decide (atype = FRA_IIFNAME) then Some (set_has HasIifName (set_str IifName (TrimRight0 val) ri)) else
  if decide (atype = FRA_OIFNAME) then Some (set_has HasOifName (set_str OifName (TrimRight0 val) ri)) else
  if decide (atype = RTA_GATEWAY) then Some (set_has HasGateway (set_buf Gateway (CopyBytes val) ri)) else
  setRuleU32Attr atype val ri.

Definition header_info (m : FibRuleHdr) : RuleInfo :=
  set_num Family (m_Family m) (set_num SrcLen (m_SrcLen m) (set_num DstLen (m_DstLen m)
    (set_num Tos (m_Tos m) (set_num Action (m_Action m) (set_num Flags (m_Flags m)
      (set_num RawTable (m_Table m) (set_num Table (m_Table m) zeroRuleInfo))))))).

Definition ParseRule (body : bytes) : go (RuleInfo * option err) :=
  '(m, _, derr) ← DeserializeFibRuleHdr body (mkFibRuleHdr 0 0 0 0 0 0 0 0 0);
  match derr with
  | Some e => Some (zeroRuleInfo, Some e)
  | None =>
      attrs ← slice body FibRuleHdrSizeCst (glen body);
      '((_, ri), werr) ← WalkRTAttrs (guarded setRuleAttr) attrs (0, header_info m);
      match werr with
      | Some e => Some (zeroRuleInfo, Some e)
      | None => Some (ri, None)
      end
  end.

End Rule.

(** ** Next-hop objects *)

Module Nexthop.

Record Nhmsg := mkNhmsg { m_Family : Z; m_Scope : Z; m_Protocol : Z; m_Resvd : Z; m_Flags : Z }.

Definition DeserializeNhmsg (data : bytes) (h : Nhmsg) : go (Nhmsg * Z * option err) :=
  if decide (glen data < NhMsgSizeCst) then Some (h, 0, Some ErrNhmsgSmall) else
  f ← index data 0;
  s ← index data 1;
  p ← index data 2;
  r ← index data 3;
  fl ← LE32 data 4 8;
  Some (mkNhmsg f s p r fl, NhMsgSizeCst, None).

Record GroupMember := mkMember { g_ID : Z; g_Weight : Z }.
Record ResGroup := mkResGroup {
  rg_Buckets : Z; rg_IdleTimer : Z; rg_UnbalancedTimer : Z; rg_UnbalancedTime : Z }.

Record NexthopInfo := mkNexthopInfo {
  nh_Family : Z; nh_Scope : Z; nh_Protocol : Z; nh_Flags : Z; nh_ID : Z; nh_OIF : Z;
  nh_Gateway : option bytes; nh_Blackhole : bool; nh_Fdb : bool; nh_HasGroup : bool;
  nh_Group : list GroupMember; nh_GroupType : Z; nh_HasResGroup : bool; nh_ResGroup : ResGroup;
  nh_RespOpFlags : Z }.
Definition zeroNexthopInfo : NexthopInfo :=
  mkNexthopInfo 0 0 0 0 0 0 None false false false [] 0 false (mkResGroup 0 0 0 0) 0.

Definition NhaID : Z := 1.
Definition NhaGroup : Z := 2.
Definition NhaGroupType : Z := 3.
Definition NhaBlackhole : Z := 4.
Definition NhaOIF : Z := 5.
Definition NhaGateway : Z := 6.
Definition NhaFdb : Z := 11.
Definition NhaResGroup : Z := 12.
Definition NhaOpFlags : Z := 14.
Definition NhaOpFlagRespGrpResvd0 : Z := 2147483648.
Definition NexthopGrpSizeCst : Z := 8.

(** The callback's captured variables: the object, groupRaw and resGroupRaw. *)
Definition nexthop_attr (atype : Z) (val : bytes) (s : NexthopInfo * option bytes * option bytes)
    : go (NexthopInfo * option bytes * option bytes) :=
  let '(nh, gr, rg) := s in
  let '(mkNexthopInfo fa sc pr fl id oif gw bh fdb hg g gt hr r ro) := nh in
  if decide (atype = NhaID) then
    with_u32 val s (fun v => (mkNexthopInfo fa sc pr fl v oif gw bh fdb hg g gt hr r ro, gr, rg)) else
  if decide (atype = NhaOIF) then
    with_u32 val s (fun v => (mkNexthopInfo fa sc pr fl id (int32 v) gw bh fdb hg g gt hr r ro, gr, rg)) else
  if decide (atype = NhaGateway) then
    Some (mkNexthopInfo fa sc pr fl id oif (CopyBytes val) bh fdb hg g gt hr r ro, gr, rg) else
  if decide (atype = NhaBlackhole) then Some (mkNexthopInfo fa sc pr fl id oif gw true fdb hg g gt hr r ro, gr, rg) else
  if decide (atype = NhaFdb) then Some (mkNexthopInfo fa sc pr fl id oif gw bh true hg g gt hr r ro, gr, rg) else
  if decide (atype = NhaGroup) then
    Some (mkNexthopInfo fa sc pr fl id oif gw bh fdb true g gt hr r ro, CopyBytes val, rg) else
  if decide (atype = NhaGroupType) then
    if decide (2 <= glen val) then
      v ← LE16 val 0 2; Some (mkNexthopInfo fa sc pr fl id oif gw bh fdb hg g v hr r ro, gr, rg)
    else Some s
  else
  if decide (atype = NhaResGroup) then
    Some (mkNexthopInfo fa sc pr fl id oif gw bh fdb hg g gt true r ro, gr, CopyBytes val) else
  if decide (atype = NhaOpFlags) then
    with_u32 val s (fun v => (mkNexthopInfo fa sc pr fl id oif gw bh fdb hg g gt hr r v, gr, rg)) else
  Some s.

Definition set_group (g : list GroupMember) (nh : NexthopInfo) : NexthopInfo :=
  let '(mkNexthopInfo fa sc pr fl id oif gw bh fdb hg _ gt hr r ro) := nh in
  mkNexthopInfo fa sc pr fl id oif gw bh fdb hg g gt hr r ro.
Definition set_res (r : ResGroup) (nh : NexthopInfo) : NexthopInfo :=
  let '(mkNexthopInfo fa sc pr fl id oif gw bh fdb hg g gt hr _ ro) := nh in
  mkNexthopInfo fa sc pr fl id oif gw bh fdb hg g gt hr r ro.

(** The loop over the members, [n] of them from offset [off]. *)
Fixpoint group_members (n : nat) (highOK : bool) (raw : bytes) (off : Z) : go (list GroupMember) :=
  match n with
  | O => Some []
  | S n =>
      if decide (off < glen raw) then
        id ← LE32 raw off (off + 4);
        low ← index raw (off + 4);
        high ← index raw (off + 5);
        let w := if highOK then high else 0 in
        l ← group_members n highOK raw (off + NexthopGrpSizeCst);
        Some (mkMember id (uint16 (Z.lor (uint16 (Z.shiftl w 8)) low + 1)) :: l)
      else Some []
  end.

Definition resolveNhGroup (nh : NexthopInfo) (groupRaw : option bytes) : go (NexthopInfo * option err) :=
  match groupRaw with
  | None => Some (nh, None)
  | Some raw =>
      if decide (glen raw = 0 \/ glen raw mod NexthopGrpSizeCst <> 0) then Some (nh, Some ErrNhGroupBad) else
      let highOK := bool_decide (Z.land (nh_RespOpFlags nh) NhaOpFlagRespGrpResvd0 <> 0) in
      g ← group_members (S (length raw)) highOK raw 0;
      Some (set_group g nh, None)
  end.

Definition res_attr (atype : Z) (val : bytes) (r : ResGroup) : go ResGroup :=
  let '(mkResGroup b i u t) := r in
  if decide (atype = 1) then
    if decide (2 <= glen val) then v ← LE16 val 0 2; Some (mkResGroup v i u t) else Some r
  else
  if decide (atype = 2) then with_u32 val r (fun v => mkResGroup b v u t) else
  if decide (atype = 3) then with_u32 val r (fun v => mkResGroup b i v t) else
  if decide (atype = 4) then
    if decide (8 <= glen val) then v ← LE64 val 0 8; Some (mkResGroup b i u v) else Some r
  else Some r.

Definition decodeResGroup (nh : NexthopInfo) (resGroupRaw : option bytes) : go (NexthopInfo * option err) :=
  match resGroupRaw with
  | None => Some (nh, None)
  | Some raw => '(r, e) ← WalkRTAttrs res_attr raw (nh_ResGroup nh); Some (set_res r nh, e)
  end.

(** No first-wins guard here, and an error returns what was decoded so far. *)
Definition ParseNewNexthop (body : bytes) : go (NexthopInfo * option err) :=
  '(h, _, derr) ← DeserializeNhmsg body (mkNhmsg 0 0 0 0 0);
  match derr with
  | Some e => Some (zeroNexthopInfo, Some e)
  | None =>
      let nh := mkNexthopInfo (m_Family h) (m_Scope h) (m_Protocol h) (m_Flags h) 0 0 None false false false [] 0
                  false (mkResGroup 0 0 0 0) 0 in
      attrs ← slice body NhMsgSizeCst (glen body);
      '((nh, gr, rg), werr) ← WalkRTAttrs nexthop_attr attrs (nh, None, None);
      match werr with
      | Some e => Some (nh, Some e)
      | None =>
          '(nh, gerr) ← resolveNhGroup nh gr;
          match gerr with
          | Some e => Some (nh, Some e)
          | None => decodeResGroup nh rg
          end
      end
  end.

End Nexthop.
