(* ===== verification/RulesSpec.v ===== *)
(** What the rule and next-hop parsers return. *)

From stdpp Require Import functions.
From S2P Require Import Prelude NlHeaders Enrich RtAttr NlRequest NlEnvelope RtParsers RtParsersSpec.
From S2P Require Import Bond LinksSpec Rules.

(** ** Rules *)

Module RuleSpec.
Import Rules.Rule.

Definition be64_opt (v : bytes) : option Z := if decide (8 <= glen v) then Some (be_at 8 v 0) else None.
Definition be32_opt (v : bytes) : option Z := if decide (4 <= glen v) then Some (be_at 4 v 0) else None.
Definition at_opt (n : nat) (off len : Z) (v : bytes) : option Z :=
  if decide (glen v < len) then None else Some (le_at n v off).

(** The attribute a numeric field is set by, and how it is read. *)
Definition num_source (f : num) : option (Z * (bytes -> option Z)) :=
  match f with
  | Priority => Some (FRA_PRIORITY, u32_opt) | Fwmark => Some (FRA_FWMARK, u32_opt)
  | Fwmask => Some (FRA_FWMASK, u32_opt) | Table => Some (FRA_TABLE, u32_opt)
  | SuppressPrefixlen => Some (FRA_SUPPRESS_PREFIXLEN, u32_opt)
  | SuppressIfgroup => Some (FRA_SUPPRESS_IFGROUP, u32_opt)
  | Flow => Some (FRA_FLOW, u32_opt) | Goto => Some (FRA_GOTO, u32_opt)
  | L3mdev => Some (FRA_L3MDEV, u8_opt) | IPProto => Some (FRA_IP_PROTO, u8_opt)
  | Protocol => Some (FRA_PROTOCOL, u8_opt) | Dscp => Some (FraDscp, u8_opt) | DscpMask => Some (FraDscpMask, u8_opt)
  | UidStart => Some (FRA_UID_RANGE, at_opt 4 0 8) | UidEnd => Some (FRA_UID_RANGE, at_opt 4 4 8)
  | SportStart => Some (FRA_SPORT_RANGE, at_opt 2 0 4) | SportEnd => Some (FRA_SPORT_RANGE, at_opt 2 2 4)
  | DportStart => Some (FRA_DPORT_RANGE, at_opt 2 0 4) | DportEnd => Some (FRA_DPORT_RANGE, at_opt 2 2 4)
  | SportMask => Some (FraSportMask, u16_opt) | DportMask => Some (FraDportMask, u16_opt)
  | TunID => Some (FRA_TUN_ID, be64_opt)
  | Flowlabel => Some (FraFlowlabel, be32_opt) | FlowlabelMask => Some (FraFlowlabelMask, be32_opt)
  | Family | SrcLen | DstLen | Tos | Action | Flags | RawTable => None
  end.
(** The number a presence flag tells of, if any. *)
Definition has_value (f : has) : option num :=
  match f with
  | HasPriority => Some Priority | HasFwmark => Some Fwmark | HasFwmask => Some Fwmask | HasL3mdev => Some L3mdev
  | HasUidRange => Some UidStart | HasIPProto => Some IPProto | HasSportRange => Some SportStart
  | HasSportMask => Some SportMask | HasDportRange => Some DportStart | HasDportMask => Some DportMask
  | HasTunID => Some TunID | HasSuppressPrefixlen => Some SuppressPrefixlen
  | HasSuppressIfgroup => Some SuppressIfgroup | HasFlow => Some Flow | HasGoto => Some Goto
  | HasProtocol => Some Protocol | HasDscp => Some Dscp | HasDscpMask => Some DscpMask
  | HasFlowlabel => Some Flowlabel | HasFlowlabelMask => Some FlowlabelMask
  | HasIifName | HasOifName | HasGateway => None
  end.
Definition has_source (f : has) : Z * (bytes -> option Z) :=
  match has_value f ≫= num_source with
  | Some s => s
  | None => (match f with HasIifName => FRA_IIFNAME | HasOifName => FRA_OIFNAME | _ => RTA_GATEWAY end, fun _ => Some 0)
  end.
Definition buf_source (f : buf) : Z := match f with Src => FRA_SRC | Dst => FRA_DST | Gateway => RTA_GATEWAY end.
Definition str_source (f : str) : Z := match f with IifName => FRA_IIFNAME | OifName => FRA_OIFNAME end.

(** The callback without its panics. *)
Definition set_opt (r : option Z) (f : num) (h : has) (ri : RuleInfo) : RuleInfo :=
  match r with Some v => set_has h (set_num f v ri) | None => ri end.
Definition set_range_upd (v : bytes) (a b : num) (h : has) (ri : RuleInfo) : RuleInfo :=
  if decide (glen v < 4) then ri else set_has h (set_num b (le_at 2 v 2) (set_num a (le_at 2 v 0) ri)).
Definition bigendian_upd (t : Z) (v : bytes) (ri : RuleInfo) : RuleInfo :=
  if decide (t = FRA_TUN_ID) then set_opt (be64_opt v) TunID HasTunID ri else
  if decide (t = FraFlowlabel) then set_opt (be32_opt v) Flowlabel HasFlowlabel ri else
  if decide (t = FraFlowlabelMask) then set_opt (be32_opt v) FlowlabelMask HasFlowlabelMask ri else ri.
Definition range_upd (t : Z) (v : bytes) (ri : RuleInfo) : RuleInfo :=
  if decide (t = FRA_UID_RANGE) then
    if decide (glen v < 8) then ri
    else set_has HasUidRange (set_num UidEnd (le_at 4 v 4) (set_num UidStart (le_at 4 v 0) ri)) else
  if decide (t = FRA_SPORT_RANGE) then set_range_upd v SportStart SportEnd HasSportRange ri else
  if decide (t = FraSportMask) then set_opt (u16_opt v) SportMask HasSportMask ri else
  if decide (t = FRA_DPORT_RANGE) then set_range_upd v DportStart DportEnd HasDportRange ri else
  if decide (t = FraDportMask) then set_opt (u16_opt v) DportMask HasDportMask ri else bigendian_upd t v ri.
Definition u8_upd (t : Z) (v : bytes) (ri : RuleInfo) : RuleInfo :=
  if decide (t = FRA_L3MDEV) then set_opt (u8_opt v) L3mdev HasL3mdev ri else
  if decide (t = FRA_IP_PROTO) then set_opt (u8_opt v) IPProto HasIPProto ri else
  if decide (t = FRA_PROTOCOL) then set_opt (u8_opt v) Protocol HasProtocol ri else
  if decide (t = FraDscp) then set_opt (u8_opt v) Dscp HasDscp ri else
  if decide (t = FraDscpMask) then set_opt (u8_opt v) DscpMask HasDscpMask ri else range_upd t v ri.
Definition u32_upd (t : Z) (v : bytes) (ri : RuleInfo) : RuleInfo :=
  if decide (t = FRA_PRIORITY) then set_opt (u32_opt v) Priority HasPriority ri else
  if decide (t = FRA_FWMARK) then set_opt (u32_opt v) Fwmark HasFwmark ri else
  if decide (t = FRA_FWMASK) then set_opt (u32_opt v) Fwmask HasFwmask ri else
  if decide (t = FRA_TABLE) then match u32_opt v with Some n => set_num Table n ri | None => ri end else
  if decide (t = FRA_SUPPRESS_PREFIXLEN) then set_opt (u32_opt v) SuppressPrefixlen HasSuppressPrefixlen ri else
  if decide (t = FRA_SUPPRESS_IFGROUP) then set_opt (u32_opt v) SuppressIfgroup HasSuppressIfgroup ri else
  if decide (t = FRA_FLOW) then set_opt (u32_opt v) Flow HasFlow ri else
  if decide (t = FRA_GOTO) then set_opt (u32_opt v) Goto HasGoto ri else u8_upd t v ri.
Definition rule_upd (t : Z) (v : bytes) (ri : RuleInfo) : RuleInfo :=
  if decide (t = FRA_SRC) then set_buf Src (CopyBytes v) ri else
  if decide (t = FRA_DST) then set_buf Dst (CopyBytes v) ri else
  if decide (t = FRA_IIFNAME) then set_has HasIifName (set_str IifName (TrimRight0 v) ri) else
  if decide (t = FRA_OIFNAME) then set_has HasOifName (set_str OifName (TrimRight0 v) ri) else
  if decide (t = RTA_GATEWAY) then set_has HasGateway (set_buf Gateway (CopyBytes v) ri) else u32_upd t v ri.

Lemma set_if_eq r o f h ri : r = Some o -> set_if r f h ri = Some (set_opt o f h ri).
Proof. by intros ->. Qed.
Lemma attrU8_eq v : attrU8 v = Some (u8_opt v).
Proof. unfold attrU8, u8_opt. case_decide; [done|]. by rewrite index_ok by lia. Qed.
Lemma attrU16_eq v : attrU16 v = Some (u16_opt v).
Proof. unfold attrU16, u16_opt. case_decide; [done|]. by rewrite LE16_ok by lia. Qed.
Lemma attrU32_eq v : attrU32 v = Some (u32_opt v).
Proof. unfold attrU32, u32_opt. case_decide; [done|]. by rewrite LE32_ok by lia. Qed.
Lemma set_range_eq v a b h ri : set_range (attrPortRange v) a b h ri = Some (set_range_upd v a b h ri).
Proof. unfold set_range, attrPortRange, set_range_upd. case_decide; [done|]. by rewrite !LE16_ok by lia. Qed.

Lemma setRuleBigEndianAttr_eq t v ri : setRuleBigEndianAttr t v ri = Some (bigendian_upd t v ri).
Proof.
  unfold setRuleBigEndianAttr, bigendian_upd, be64_opt, be32_opt.
  repeat destruct (decide (t = _)); try done; case_decide; try done.
  - by rewrite be_slice_ok by lia.
  - by rewrite BE32_ok by lia.
  - by rewrite BE32_ok by lia.
Qed.
Lemma setRuleRangeAttr_eq t v ri : setRuleRangeAttr t v ri = Some (range_upd t v ri).
Proof.
  unfold setRuleRangeAttr, range_upd.
  rewrite !set_range_eq, !(set_if_eq _ _ _ _ _ (attrU16_eq v)), setRuleBigEndianAttr_eq.
  repeat destruct (decide (t = _)); try done.
  destruct (decide (8 <= glen v)); [|by rewrite decide_True by lia].
  by rewrite !LE32_ok, decide_False by lia.
Qed.
Lemma setRuleU8Attr_eq t v ri : setRuleU8Attr t v ri = Some (u8_upd t v ri).
Proof.
  unfold setRuleU8Attr, u8_upd. rewrite !(set_if_eq _ _ _ _ _ (attrU8_eq v)), setRuleRangeAttr_eq.
  by repeat destruct (decide (t = _)).
Qed.
Lemma setRuleU32Attr_eq t v ri : setRuleU32Attr t v ri = Some (u32_upd t v ri).
Proof.
  unfold setRuleU32Attr, u32_upd. rewrite !(set_if_eq _ _ _ _ _ (attrU32_eq v)), attrU32_eq, setRuleU8Attr_eq.
  by repeat destruct (decide (t = _)).
Qed.
Lemma setRuleAttr_eq t v ri : setRuleAttr t v ri = Some (rule_upd t v ri).
Proof.
  unfold setRuleAttr, rule_upd. rewrite setRuleU32Attr_eq. by repeat destruct (decide (t = _)).
Qed.

Ltac rule_other :=
  unfold rule_upd, u32_upd, u8_upd, range_upd, bigendian_upd, set_range_upd, set_opt; repeat case_decide; subst; repeat case_match; try done;
  unfold set_has, set_num, set_buf, set_str; cbn [ru_num ru_has ru_buf ru_str];
  rewrite ?fn_lookup_insert_ne by (intros <-; done); done.

Lemma rule_num_frame t v ri f : (fst <$> num_source f) <> Some t -> ru_num (rule_upd t v ri) f = ru_num ri f.
Proof. intros Ht. rule_other. Qed.
Lemma rule_has_frame t v ri f : (has_source f).1 <> t -> ru_has (rule_upd t v ri) f = ru_has ri f.
Proof. intros Ht. rule_other. Qed.
Lemma rule_buf_frame t v ri f : buf_source f <> t -> ru_buf (rule_upd t v ri) f = ru_buf ri f.
Proof. intros Ht. rule_other. Qed.
Lemma rule_str_frame t v ri f : str_source f <> t -> ru_str (rule_upd t v ri) f = ru_str ri f.
Proof. intros Ht. rule_other. Qed.

Definition rule_header (b : bytes) : RuleInfo :=
  header_info (mkFibRuleHdr (byte_at b 0) (byte_at b 1) (byte_at b 2) (byte_at b 3) (byte_at b 4) (byte_at b 5)
    (byte_at b 6) (byte_at b 7) (le_at 4 b 8)).

Definition rule_fields (body : bytes) (att : Z -> option bytes) (ri : RuleInfo) : Prop :=
  (forall f, ru_num ri f = match num_source f with
     | Some (t, r) => default (ru_num (rule_header body) f) (att t ≫= r)
     | None => ru_num (rule_header body) f end) /\
  (forall f, ru_has ri f = bool_decide (is_Some (att (has_source f).1 ≫= (has_source f).2))) /\
  (forall f, ru_buf ri f = att (buf_source f) ≫= CopyBytes) /\
  (forall f, ru_str ri f = from_option TrimRight0 [] (att (str_source f))).

Section Fields.
Context (l : list (Z * bytes)) (body : bytes) (ri : RuleInfo).
Context (Hv : visit_attrs setRuleAttr (firsts [] l) (rule_header body) = Some ri).

Lemma rule_owned {A} (g : RuleInfo -> A) t (h : bytes -> A -> A) : 0 <= t < 64 ->
  (forall u v x, u <> t -> g (rule_upd u v x) = g x) -> (forall v x, g (rule_upd t v x) = h v (g x)) ->
  g ri = match first_attr t l with Some v => h v (g (rule_header body)) | None => g (rule_header body) end.
Proof using Hv.
  intros Ht Ho Hs.
  refine (visit_firsts_field setRuleAttr g t h _ _ l [] _ ri Ht _ Hv); [| |intros H; inversion H].
  - intros u v x x' Hu. rewrite setRuleAttr_eq. intros [= <-]. by apply Ho.
  - intros v x x'. rewrite setRuleAttr_eq. intros [= <-]. apply Hs.
Qed.

Ltac rule_set :=
  unfold rule_upd, u32_upd, u8_upd, range_upd, bigendian_upd, set_range_upd, set_opt, u32_opt, u16_opt, u8_opt,
    be32_opt, be64_opt, at_opt; repeat case_decide; done.

Lemma rule_fields_ok : rule_fields body (fun t => first_attr t l) ri.
Proof using Hv.
  unfold rule_fields. split_and!; intros f.
  - destruct (num_source f) as [[t r]|] eqn:Es.
    + rewrite (rule_owned (fun x => ru_num x f) t (fun v d => default d (r v))).
      * by destruct (first_attr t l).
      * by destruct f; simplify_eq/=.
      * intros u v x Hu. apply rule_num_frame. rewrite Es. cbn. congruence.
      * intros v x. destruct f; simplify_eq/=; rule_set.
    + rewrite (rule_owned (fun x => ru_num x f) 63 (fun _ d => d)); [|done|..].
      * by destruct (first_attr 63 l).
      * intros u v x _. apply rule_num_frame. by rewrite Es.
      * intros v x. apply rule_num_frame. by rewrite Es.
  - rewrite (rule_owned (fun x => ru_has x f) (has_source f).1
      (fun v d => if bool_decide (is_Some ((has_source f).2 v)) then true else d)).
    + destruct (first_attr _ l) as [v|]; [|by destruct f]. cbn [mbind option_bind].
      case_bool_decide; [done|by destruct f].
    + by destruct f.
    + intros u v x Hu. apply rule_has_frame. congruence.
    + intros v x. destruct f; cbn; try done; rule_set.
  - rewrite (rule_owned (fun x => ru_buf x f) (buf_source f) (fun v _ => CopyBytes v)).
    + by destruct (first_attr _ l).
    + by destruct f.
    + intros u v x Hu. apply rule_buf_frame. congruence.
    + intros v x. by destruct f.
  - rewrite (rule_owned (fun x => ru_str x f) (str_source f) (fun v _ => TrimRight0 v)).
    + by destruct (first_attr _ l).
    + by destruct f.
    + intros u v x Hu. apply rule_str_frame. congruence.
    + intros v x. by destruct f.
Qed.
End Fields.

Lemma DeserializeFibRuleHdr_ok b m : 12 <= glen b ->
  DeserializeFibRuleHdr b m = Some (mkFibRuleHdr (byte_at b 0) (byte_at b 1) (byte_at b 2) (byte_at b 3) (byte_at b 4)
    (byte_at b 5) (byte_at b 6) (byte_at b 7) (le_at 4 b 8), 12, None).
Proof.
  intros H. unfold DeserializeFibRuleHdr, FibRuleHdrReadCst, FibRuleHdrSizeCst. rewrite decide_False by lia.
  rewrite !index_ok by lia. cbn [mbind option_bind]. by rewrite LE32_ok by lia.
Qed.

(** Parsing a policy rule always returns: the zero value and an error for a
    short body or mis-framed attributes; otherwise every field is the header's
    or the first attribute's of its type, a presence flag is set exactly when
    its attribute is there and long enough, FRA_TABLE replaces the header's
    table, and the tunnel id and flow labels are read big-endian. *)
Theorem ParseRule_spec body :
  exists ri e, ParseRule body = Some (ri, e) /\
    let w := parse_attrs (drop 12 body) in
    match e with
    | Some e => ri = zeroRuleInfo /\ (if decide (glen body < 12) then e = ErrFibRuleHdrSmall else w.2 = Some e)
    | None => 12 <= glen body /\ w.2 = None /\ rule_fields body (fun t => first_attr t w.1) ri
    end.
Proof.
  destruct (decide (glen body < 12)) as [H|H].
  - exists zeroRuleInfo, (Some ErrFibRuleHdrSmall). split; [|done].
    unfold ParseRule, DeserializeFibRuleHdr, FibRuleHdrSizeCst. by rewrite decide_True by done.
  - unfold ParseRule. rewrite DeserializeFibRuleHdr_ok by lia. cbn [mbind option_bind].
    unfold FibRuleHdrSizeCst. rewrite slice_tail by lia. cbn [mbind option_bind]. change (Z.to_nat 12) with 12%nat.
    destruct (guarded_walk_total setRuleAttr (drop 12 body) (rule_header body)) as (seen & ri & Hv & Hw).
    { intros. rewrite setRuleAttr_eq. by eexists. }
    unfold rule_header in Hw. rewrite Hw. cbn [mbind option_bind]. destruct (parse_attrs (drop 12 body)).2 as [e|] eqn:He.
    + by exists zeroRuleInfo, (Some e).
    + exists ri, None. split; [done|]. split_and!; [lia|done|]. by apply rule_fields_ok.
Qed.

End RuleSpec.

(** ** Next-hop objects *)

(** The last occurrence of a type that its reader accepts, and what a callback
    that only overwrites makes of it. *)
Definition last_read {A} (t : Z) (r : bytes -> option A) (l : list (Z * bytes)) : option A :=
  last (omap (fun a => if decide (a.1 = t) then r a.2 else None) l).

Lemma last_read_snoc {A} t (r : bytes -> option A) l u v d :
  default d (last_read t r (l ++ [(u, v)])) =
  if decide (u = t) then default (default d (last_read t r l)) (r v) else default d (last_read t r l).
Proof.
  unfold last_read. rewrite omap_app. cbn [fst snd omap list_omap]. case_decide; [|by rewrite app_nil_r].
  destruct (r v); [by rewrite last_snoc|by rewrite app_nil_r].
Qed.
Lemma visit_foldl {S} (fn : Z -> bytes -> S -> go S) (upd : Z -> bytes -> S -> S) l s :
  (forall u v s, fn u v s = Some (upd u v s)) ->
  visit_attrs fn l s = Some (foldl (fun s a => upd a.1 a.2 s) s l).
Proof.
  intros Hf. revert s. induction l as [|[u v] l IH]; intros s; cbn [visit_attrs foldl]; [done|].
  rewrite Hf. cbn [mbind option_bind fst snd]. apply IH.
Qed.

Module NexthopSpec.
Import Rules.Nexthop.

Definition present (v : bytes) : option bool := Some true.
Definition u16_read (v : bytes) : option Z := if decide (2 <= glen v) then Some (le_at 2 v 0) else None.
Definition u64_read (v : bytes) : option Z := if decide (8 <= glen v) then Some (le_at 8 v 0) else None.
Definition copied (v : bytes) : option (option bytes) := Some (CopyBytes v).

(** The object before its group is resolved, from the body's header and the
    attributes visited. *)
Definition nexthop_base (body : bytes) (l : list (Z * bytes)) : NexthopInfo :=
  mkNexthopInfo (byte_at body 0) (byte_at body 1) (byte_at body 2) (le_at 4 body 4)
    (default 0 (last_read NhaID u32_of l)) (default 0 (last_read NhaOIF (fun v => int32 <$> u32_of v) l))
    (default None (last_read NhaGateway copied l)) (default false (last_read NhaBlackhole present l))
    (default false (last_read NhaFdb present l)) (default false (last_read NhaGroup present l)) []
    (default 0 (last_read NhaGroupType u16_read l)) (default false (last_read NhaResGroup present l))
    (mkResGroup 0 0 0 0) (default 0 (last_read NhaOpFlags u32_of l)).
Definition raw_payload (t : Z) (l : list (Z * bytes)) : option bytes := default None (last_read t copied l).

(** Member [i] of a group payload: a weight is stored less one, its high byte
    read only when the kernel says it is meaningful. *)
Definition member_at (highOK : bool) (raw : bytes) (i : Z) : GroupMember :=
  let high := if highOK then byte_at raw (8 * i + 5) else 0 in
  mkMember (le_at 4 raw (8 * i)) (uint16 (Z.lor (uint16 (Z.shiftl high 8)) (byte_at raw (8 * i + 4)) + 1)).
Definition weight_high (nh : NexthopInfo) : bool := Z.testbit (nh_RespOpFlags nh) 31.
Definition group_of (highOK : bool) (raw : bytes) : list GroupMember := member_at highOK raw <$> seqZ 0 (glen raw / 8).
Definition res_group_of (l : list (Z * bytes)) : ResGroup :=
  mkResGroup (default 0 (last_read 1 u16_read l)) (default 0 (last_read 2 u32_of l))
    (default 0 (last_read 3 u32_of l)) (default 0 (last_read 4 u64_read l)).

(** A reference definition of the whole parse. *)
Definition nexthop_reference (body : bytes) : NexthopInfo * option err :=
  if decide (glen body < 8) then (zeroNexthopInfo, Some ErrNhmsgSmall) else
  let '(l, e) := parse_attrs (drop 8 body) in
  let nh := nexthop_base body l in
  let with_group raw := set_group (group_of (weight_high nh) raw) nh in
  let with_res nh := match raw_payload NhaResGroup l with
    | None => (nh, None)
    | Some raw => let '(l', e') := parse_attrs raw in (set_res (res_group_of l') nh, e') end in
  match e, raw_payload NhaGroup l with
  | Some e, _ => (nh, Some e)
  | None, None => with_res nh
  | None, Some raw => if decide (glen raw mod 8 = 0) then with_res (with_group raw) else (nh, Some ErrNhGroupBad)
  end.

(** *** The callback *)

Definition nexthop_upd (t : Z) (v : bytes) (s : NexthopInfo * option bytes * option bytes)
    : NexthopInfo * option bytes * option bytes :=
  let '(nh, gr, rg) := s in
  let '(mkNexthopInfo fa sc pr fl id oif gw bh fdb hg g gt hr r ro) := nh in
  let own {A} u (x : option A) d := if decide (t = u) then default d x else d in
  (mkNexthopInfo fa sc pr fl (own NhaID (u32_of v) id) (own NhaOIF (int32 <$> u32_of v) oif)
     (own NhaGateway (copied v) gw) (own NhaBlackhole (present v) bh) (own NhaFdb (present v) fdb)
     (own NhaGroup (present v) hg) g (own NhaGroupType (u16_read v) gt) (own NhaResGroup (present v) hr) r
     (own NhaOpFlags (u32_of v) ro),
   own NhaGroup (copied v) gr, own NhaResGroup (copied v) rg).
Lemma nexthop_attr_eq t v s : nexthop_attr t v s = Some (nexthop_upd t v s).
Proof.
  destruct s as [[[] gr] rg]. unfold nexthop_attr, nexthop_upd. rewrite !with_u32_eq. unfold u16_read.
  repeat (destruct (decide (t = _)) as [->|]; [repeat case_decide; try done;
    try (rewrite LE16_ok by lia; done); by destruct (u32_of v)|]). done.
Qed.
Definition res_upd (t : Z) (v : bytes) (s : ResGroup) : ResGroup :=
  let '(mkResGroup b i u w) := s in
  let own {A} u (x : option A) d := if decide (t = u) then default d x else d in
  mkResGroup (own 1 (u16_read v) b) (own 2 (u32_of v) i) (own 3 (u32_of v) u) (own 4 (u64_read v) w).
Lemma res_attr_eq t v s : res_attr t v s = Some (res_upd t v s).
Proof.
  destruct s. unfold res_attr, res_upd. rewrite !with_u32_eq. unfold u16_read, u64_read.
  repeat (destruct (decide (t = _)) as [->|]; [repeat case_decide; try done;
    try (rewrite ?LE16_ok, ?LE64_ok by lia; done); by destruct (u32_of v)|]). done.
Qed.


Lemma nexthop_fold l body : foldl (fun s a => nexthop_upd a.1 a.2 s) (nexthop_base body [], None, None) l =
  (nexthop_base body l, raw_payload NhaGroup l, raw_payload NhaResGroup l).
Proof.
  induction l as [|[u v] l IH] using rev_ind; [done|]. rewrite foldl_snoc, IH. cbn [fst snd].
  unfold nexthop_base, raw_payload. by rewrite !last_read_snoc.
Qed.
Lemma res_fold l : foldl (fun s a => res_upd a.1 a.2 s) (mkResGroup 0 0 0 0) l = res_group_of l.
Proof.
  induction l as [|[u v] l IH] using rev_ind; [done|]. rewrite foldl_snoc, IH. cbn [fst snd].
  unfold res_group_of. by rewrite !last_read_snoc.
Qed.

(** *** The group *)

Lemma group_members_eq n highOK raw i : 0 <= i -> glen raw mod 8 = 0 -> glen raw < 8 * (i + Z.of_nat n) ->
  group_members n highOK raw (8 * i) = Some (member_at highOK raw <$> seqZ i (glen raw / 8 - i)).
Proof.
  intros Hi Hm Hn. pose proof (Z.div_mod (glen raw) 8 ltac:(lia)) as Hd. revert i Hi Hn.
  induction n as [|n IH]; intros i Hi Hn; cbn [group_members].
  { rewrite seqZ_nil; [done|]. lia. }
  case_decide as Hlt; [|rewrite seqZ_nil; [done|lia]].
  assert (8 * i + 8 <= glen raw) as Hb by lia.
  rewrite LE32_ok by lia. cbn [mbind option_bind]. rewrite !index_ok by lia. cbn [mbind option_bind].
  replace (8 * i + NexthopGrpSizeCst) with (8 * (i + 1)) by (unfold NexthopGrpSizeCst; lia).
  rewrite IH by lia. cbn [mbind option_bind]. rewrite (seqZ_cons i) by lia.
  replace (Z.pred (glen raw / 8 - i)) with (glen raw / 8 - (i + 1)) by lia.
  by rewrite <- Z.add_1_r.
Qed.

Lemma weight_high_eq nh : bool_decide (Z.land (nh_RespOpFlags nh) NhaOpFlagRespGrpResvd0 <> 0) = weight_high nh.
Proof.
  unfold weight_high, NhaOpFlagRespGrpResvd0. change 2147483648 with (2 ^ 31).
  destruct (Z.testbit _ 31) eqn:E; [apply bool_decide_eq_true|apply bool_decide_eq_false].
  - intros H. assert (Z.testbit (Z.land (nh_RespOpFlags nh) (2 ^ 31)) 31 = false) as H' by (rewrite H; apply Z.bits_0).
    by rewrite Z.land_spec, E, Z.pow2_bits_true in H'.
  - intros H. apply H, Z.bits_inj'. intros k Hk. rewrite Z.land_spec, Z.bits_0.
    destruct (decide (k = 31)) as [->|]; [by rewrite E|]. by rewrite Z.pow2_bits_false, andb_false_r by lia.
Qed.

Lemma raw_payload_nonempty t l raw : raw_payload t l = Some raw -> glen raw <> 0.
Proof.
  unfold raw_payload. induction l as [|[u v] l IH] using rev_ind; [done|]. rewrite last_read_snoc.
  case_decide; [|done]. cbn. unfold CopyBytes. case_decide; [done|]. by intros [= <-].
Qed.

Lemma resolveNhGroup_eq nh l : resolveNhGroup nh (raw_payload NhaGroup l) = Some
  match raw_payload NhaGroup l with
  | None => (nh, None)
  | Some raw => if decide (glen raw mod 8 = 0) then (set_group (group_of (weight_high nh) raw) nh, None)
                else (nh, Some ErrNhGroupBad)
  end.
Proof.
  unfold resolveNhGroup. destruct (raw_payload NhaGroup l) as [raw|] eqn:E; [|done].
  apply raw_payload_nonempty in E. unfold NexthopGrpSizeCst. destruct (decide (glen raw mod 8 = 0)).
  - rewrite decide_False by tauto. rewrite (group_members_eq _ _ _ 0) by (unfold glen in *; lia).
    rewrite weight_high_eq. cbn [mbind option_bind]. by rewrite Z.sub_0_r.
  - by rewrite decide_True by tauto.
Qed.

Lemma decodeResGroup_eq nh l : nh_ResGroup nh = mkResGroup 0 0 0 0 ->
  decodeResGroup nh (raw_payload NhaResGroup l) = Some
  match raw_payload NhaResGroup l with
  | None => (nh, None)
  | Some raw => let '(l', e') := parse_attrs raw in (set_res (res_group_of l') nh, e')
  end.
Proof.
  intros H. unfold decodeResGroup. destruct (raw_payload NhaResGroup l) as [raw|]; [|done].
  rewrite H, WalkRTAttrs_eq, (visit_foldl _ res_upd) by apply res_attr_eq. rewrite res_fold.
  cbn [mbind option_bind]. by destruct (parse_attrs raw).
Qed.

(** Parsing a next-hop object always returns, and returns what the
    reference definition says: the last well-formed attribute of each type
    wins, the group's weights are read with the high byte when the operation
    flags of the same message say so wherever they stand, and an error leaves
    the fields decoded so far. *)
Theorem ParseNewNexthop_spec body : ParseNewNexthop body = Some (nexthop_reference body).
Proof.
  unfold ParseNewNexthop, nexthop_reference, DeserializeNhmsg, NhMsgSizeCst. case_decide; [done|].
  rewrite !index_ok, LE32_ok, slice_tail by lia. cbn [mbind option_bind m_Family m_Scope m_Protocol m_Flags].
  change (Z.to_nat 8) with 8%nat. rewrite WalkRTAttrs_eq, (visit_foldl _ nexthop_upd) by apply nexthop_attr_eq.
  change (mkNexthopInfo (byte_at body 0) (byte_at body 1) (byte_at body 2) (le_at 4 body 4) 0 0 None false false false
    [] 0 false (mkResGroup 0 0 0 0) 0) with (nexthop_base body []). rewrite nexthop_fold.
  destruct (parse_attrs (drop 8 body)) as [l [e|]]; cbn [mbind option_bind fst snd]; [done|].
  rewrite resolveNhGroup_eq. cbn [mbind option_bind].
  destruct (raw_payload NhaGroup l) as [raw|]; [case_decide; [|done]|]; by rewrite decodeResGroup_eq.
Qed.

(** An empty NHA_GROUP is not refused: the copy of an empty payload is nil,
    which the check takes for no group at all. *)
Lemma empty_group_accepted : exists nh,
  ParseNewNexthop (replicate 8 0 ++ [4; 0; 2; 0]) = Some (nh, None) /\ nh_HasGroup nh = true /\ nh_Group nh = [].
Proof. eexists. split; [reflexivity|done]. Qed.

End NexthopSpec.
