(* ===== verification/Events.v ===== *)
(** rtnetlink events (pkg/xtcpnl/xtcpnl_rtnetlink_events.go): which messages are
    notifications, their decoding, and the walk over a listening socket's
    datagrams. *)

From S2P Require Import Prelude NlHeaders RtAttr NlRequest NlWalk NlEnvelope RtParsers RtParsersSpec.
From S2P Require Import RouteSpec LinkStats Bond Links LinksSpec Rules RulesSpec.

Inductive EventAction := EventActionUnknown | EventActionAdd | EventActionDel.
Definition NLM_F_MULTI : Z := 2.
#[export] Instance EventAction_eq : EqDecision EventAction. Proof. solve_decision. Defined.

(** The dynamic types of the [any] an event is returned as. *)
Inductive event :=
  | LinkEvent (Action : EventAction) (Link : Link.LinkInfo)
  | AddrEvent (Action : EventAction) (Addr : Addr.AddrInfo)
  | RouteEvent (Action : EventAction) (Route : Route.RouteInfo)
  | NeighEvent (Action : EventAction) (Neigh : Neigh.NeighInfo)
  | RuleEvent (Action : EventAction) (Rule : Rule.RuleInfo).

Definition IsRtnetlinkEventType (msgType : Z) : bool :=
  bool_decide (msgType ∈ [RTM_NEWLINK; RTM_DELLINK; RTM_NEWADDR; RTM_DELADDR; RTM_NEWROUTE; RTM_DELROUTE;
    RTM_NEWNEIGH; RTM_DELNEIGH; RTM_NEWRULE; RTM_DELRULE]).

Definition IsRtnetlinkNotification (h : NlMsgHdr) : bool :=
  if negb (IsRtnetlinkEventType (nlh_Type h)) then false
  else bool_decide (Z.land (nlh_Flags h) (Z.lor NLM_F_REQUEST NLM_F_MULTI) = 0).

(** A nil event is [None]. *)
Definition parse_event {A} (p : bytes -> go (A * option err)) (mk : A -> event) (body : bytes)
    : go (option event * option err) :=
  '(i, e) ← p body;
  Some (match e with Some e => (None, Some e) | None => (Some (mk i), None) end).
Definition parseLinkEvent (action : EventAction) := parse_event Link.ParseNewLink (LinkEvent action).
Definition parseAddrEvent (action : EventAction) := parse_event Addr.ParseNewAddr (AddrEvent action).
Definition parseRouteEvent (action : EventAction) := parse_event Route.ParseNewRoute (RouteEvent action).
Definition parseNeighEvent (action : EventAction) := parse_event Neigh.ParseNeigh (NeighEvent action).
Definition parseRuleEvent (action : EventAction) := parse_event Rule.ParseRule (RuleEvent action).

Definition ParseRtnetlinkEvent (msgType : Z) (body : bytes) : go (option event * option err) :=
  if decide (msgType = RTM_NEWLINK) then parseLinkEvent EventActionAdd body else
  if decide (msgType = RTM_DELLINK) then parseLinkEvent EventActionDel body else
  if decide (msgType = RTM_NEWADDR) then parseAddrEvent EventActionAdd body else
  if decide (msgType = RTM_DELADDR) then parseAddrEvent EventActionDel body else
  if decide (msgType = RTM_NEWROUTE) then parseRouteEvent EventActionAdd body else
  if decide (msgType = RTM_DELROUTE) then parseRouteEvent EventActionDel body else
  if decide (msgType = RTM_NEWNEIGH) then parseNeighEvent EventActionAdd body else
  if decide (msgType = RTM_DELNEIGH) then parseNeighEvent EventActionDel body else
  if decide (msgType = RTM_NEWRULE) then parseRuleEvent EventActionAdd body else
  if decide (msgType = RTM_DELRULE) then parseRuleEvent EventActionDel body else
  Some (None, Some ErrNotAnEvent).

Section Notifications.
Context {S : Type} (visit : NlMsgHdr -> bytes -> S -> go (S * option err)).

(** The envelope visitor of [WalkNotifications]. *)
Definition notify (e : NetlinkEnvelope) (s : S) : go (S * option err) :=
  match ev_Control e with
  | NetlinkError => r ← netlinkErr (ev_Body e); Some (s, r)
  | _ => if negb (IsRtnetlinkNotification (ev_Header e)) then Some (s, None)
         else visit (ev_Header e) (ev_Body e) s
  end.
Definition WalkNotifications (data : bytes) (s : S) : go (S * option err) :=
  WalkNetlinkEnvelopes (Some notify) data s.
End Notifications.

(** ** The parsers always return *)

Lemma ParseNewLink_total body : is_Some (Link.ParseNewLink body).
Proof.
  unfold Link.ParseNewLink. destruct (decide (glen body < 16)) as [H|H].
  { unfold Link.DeserializeIfInfomsg, IfInfomsgSizeCst. rewrite decide_True by done. by eexists. }
  rewrite DeserializeIfInfomsg_ok by lia. cbn [mbind option_bind].
  unfold IfInfomsgSizeCst. rewrite slice_tail by lia. cbn [mbind option_bind]. change (Z.to_nat 16) with 16%nat.
  destruct (guarded_walk_total Link.setLinkAttr (drop 16 body)
    (link_header body, Link.mkRaw None None None)) as (seen & [li raw] & Hv & Hw).
  { intros. rewrite setLinkAttr_eq. by eexists. }
  unfold link_header in Hw. rewrite Hw. cbn [mbind option_bind]. destruct (parse_attrs _).2; [by eexists|].
  destruct (finish_fields _ _ _ _ Hv) as (li' & -> & _). by eexists.
Qed.
Lemma ParseNewAddr_total body : is_Some (Addr.ParseNewAddr body).
Proof.
  destruct (decide (glen body < 8)).
  - unfold Addr.ParseNewAddr, Addr.DeserializeIfAddrmsg, IfAddrmsgSizeCst. rewrite decide_True by done. by eexists.
  - destruct (AddrSpec.ParseNewAddr_eq body) as (x & _ & ->); [lia|]. by eexists.
Qed.
Lemma ParseNewRoute_total body : is_Some (Route.ParseNewRoute body).
Proof.
  destruct (decide (glen body < 12)).
  - unfold Route.ParseNewRoute, Route.DeserializeRtMsg, RtMsgSizeCst. rewrite decide_True by done. by eexists.
  - destruct (ParseNewRoute_eq body) as (x & _ & ->); [lia|]. by eexists.
Qed.
Lemma ParseNeigh_total body : is_Some (Neigh.ParseNeigh body).
Proof.
  unfold Neigh.ParseNeigh. destruct (decide (glen body < 12)) as [H|H].
  { unfold Neigh.DeserializeNdMsg, NdMsgSizeCst. rewrite decide_True by done. by eexists. }
  rewrite NeighSpec.DeserializeNdMsg_ok by lia. cbn [mbind option_bind].
  unfold NdMsgSizeCst. rewrite slice_tail by lia. cbn [mbind option_bind].
  edestruct (guarded_walk_total Neigh.neigh_attr) as (seen & x & _ & ->).
  { intros. rewrite NeighSpec.neigh_attr_eq. by eexists. }
  cbn [mbind option_bind]. destruct (parse_attrs _).2; by eexists.
Qed.
Lemma ParseRule_total body : is_Some (Rule.ParseRule body).
Proof.
  unfold Rule.ParseRule. destruct (decide (glen body < 12)) as [H|H].
  { unfold Rule.DeserializeFibRuleHdr, FibRuleHdrSizeCst. rewrite decide_True by done. by eexists. }
  rewrite RuleSpec.DeserializeFibRuleHdr_ok by lia. cbn [mbind option_bind].
  unfold FibRuleHdrSizeCst. rewrite slice_tail by lia. cbn [mbind option_bind].
  edestruct (guarded_walk_total Rule.setRuleAttr) as (seen & x & _ & ->).
  { intros. rewrite RuleSpec.setRuleAttr_eq. by eexists. }
  cbn [mbind option_bind]. destruct (parse_attrs _).2; by eexists.
Qed.

(** ** What a type decodes to *)

(** The message type an event stands for. *)
Definition event_type (ev : event) : option Z :=
  let ty a new := match a with
    | EventActionAdd => Some new | EventActionDel => Some (new + 1) | EventActionUnknown => None end in
  match ev with
  | LinkEvent a _ => ty a RTM_NEWLINK | AddrEvent a _ => ty a RTM_NEWADDR | RouteEvent a _ => ty a RTM_NEWROUTE
  | NeighEvent a _ => ty a RTM_NEWNEIGH | RuleEvent a _ => ty a RTM_NEWRULE
  end.

Lemma parse_event_spec {A} p (mk : A -> event) body ty : is_Some (p body) -> (forall a, event_type (mk a) = Some ty) ->
  exists ev e, parse_event p mk body = Some (ev, e) /\ (ev = None <-> e <> None) /\
    (forall x, ev = Some x -> event_type x = Some ty).
Proof.
  intros [[i e] Hp] Hm. unfold parse_event. rewrite Hp. cbn [mbind option_bind].
  destruct e as [e|]; do 2 eexists; (split; [done|]); split; try (by split); intros x Hx; simplify_eq. apply Hm.
Qed.

(** Decoding an event always returns, an event or else an error and never
    both; the event's kind and action are the message type's, and any type
    outside the ten is refused as not an event. *)
Theorem ParseRtnetlinkEvent_spec ty body :
  exists ev e, ParseRtnetlinkEvent ty body = Some (ev, e) /\
    (ev = None <-> e <> None) /\
    (forall x, ev = Some x -> event_type x = Some ty) /\
    (IsRtnetlinkEventType ty = false -> e = Some ErrNotAnEvent).
Proof.
  unfold ParseRtnetlinkEvent, parseLinkEvent, parseAddrEvent, parseRouteEvent, parseNeighEvent, parseRuleEvent.
  repeat (destruct (decide (ty = _)) as [->|]; [edestruct @parse_event_spec as (ev & e & H1 & H2 & H3);
    [| |exists ev, e; split_and!; [exact H1|exact H2|exact H3|intros Hf; by vm_compute in Hf]];
    [first [apply ParseNewLink_total|apply ParseNewAddr_total|apply ParseNewRoute_total|apply ParseNeigh_total|
      apply ParseRule_total]|done]|]).
  by exists None, (Some ErrNotAnEvent).
Qed.

(** ** The walk over a datagram *)

(** An error the kernel addressed to the listener, if the message is one. *)
Definition listener_error (m : nlmsg) : option err :=
  match ev_Control (envelope_of m) with NetlinkError => default None (netlinkErr (nm_Body m)) | _ => None end.
Definition is_notification (m : nlmsg) : bool := IsRtnetlinkNotification (nm_hdr m).
(** The messages before the first such error, and that error. *)
Fixpoint until_error (ms : list nlmsg) : list nlmsg * option err :=
  match ms with
  | [] => ([], None)
  | m :: ms => match listener_error m with
               | Some e => ([], Some e)
               | None => let '(l, e) := until_error ms in (m :: l, e)
               end
  end.
(** A visit that never fails, seen as a state update. *)
Definition recording (h : NlMsgHdr) (b : bytes) (s : list (NlMsgHdr * bytes)) :
  go (list (NlMsgHdr * bytes) * option err) := Some (s ++ [(h, b)], None).

Lemma netlinkErr_error m : classifiable m -> ev_Control (envelope_of m) = NetlinkError ->
  is_Some (listener_error m).
Proof.
  intros [Hc _] H. unfold listener_error. rewrite H. revert H. unfold envelope_of, netlinkErr.
  destruct (decide (nm_Type m = NLMSG_ERROR)) as [Ht|]; [|by repeat case_decide].
  specialize (Hc Ht). rewrite !(decide_False (P := glen (nm_Body m) < 4)) by lia. rewrite LE32_ok by lia.
  cbn [mbind option_bind ev_Control]. by repeat case_decide.
Qed.

Lemma envelope_header m : ev_Header (envelope_of m) = nm_hdr m /\ ev_Body (envelope_of m) = nm_Body m.
Proof. unfold envelope_of. by repeat case_decide. Qed.

Lemma notify_eq {S} (visit : NlMsgHdr -> bytes -> S -> go (S * option err)) m s : classifiable m ->
  notify visit (envelope_of m) s =
  match listener_error m with
  | Some e => Some (s, Some e)
  | None => if negb (is_notification m) then Some (s, None) else visit (nm_hdr m) (nm_Body m) s
  end.
Proof.
  intros Hm. unfold notify. destruct (envelope_header m) as [-> ->]. fold (is_notification m).
  assert (ev_Control (envelope_of m) = NetlinkError \/ ev_Control (envelope_of m) <> NetlinkError) as [He|He]
    by (destruct (ev_Control _); auto).
  - destruct (netlinkErr_error m Hm He) as [e Hle]. rewrite Hle, He. unfold listener_error in Hle. rewrite He in Hle.
    destruct (netlinkErr (nm_Body m)) as [[e'|]|]; by simplify_eq/=.
  - assert (listener_error m = None) as -> by (unfold listener_error; by destruct (ev_Control _)).
    by destruct (ev_Control _).
Qed.

Lemma notify_visit ms s : Forall classifiable ms ->
  visit_envs (notify recording) ms s =
  Some (s ++ ((fun m => (nm_hdr m, nm_Body m)) <$> filter (fun m => is_notification m = true) (until_error ms).1),
    (until_error ms).2).
Proof.
  intros Hc. revert s. induction Hc as [|m ms Hm Hc IH]; intros s; cbn [visit_envs until_error].
  { by rewrite app_nil_r. }
  rewrite notify_eq by done. destruct (listener_error m) as [e|]; [by rewrite app_nil_r|].
  destruct (until_error ms) as [l e]. cbn [fst snd] in IH |- *. rewrite filter_cons.
  destruct (is_notification m); cbn [negb].
  - rewrite decide_True by done. cbn [recording mbind option_bind]. by rewrite IH, <- app_assoc, fmap_cons.
  - rewrite decide_False by done. cbn [mbind option_bind]. apply IH.
Qed.

(** A listener is given exactly the notifications of a datagram the kernel
    encoded, in order and whole, whatever sequence numbers and ports they
    carry: requests, dump replies and control messages are passed over. An
    NLMSG_ERROR with a nonzero errno stops the walk with that errno, and a
    stray tail is the only other error. *)
Theorem WalkNotifications_spec ms tail :
  ms <> [] -> Forall wf_nlmsg ms -> Forall classifiable ms -> glen tail < NlMsgHdrSizeCst ->
  WalkNotifications recording (enc_nlmsgs ms ++ tail) [] =
    Some ((fun m => (nm_hdr m, nm_Body m)) <$> filter (fun m => is_notification m = true) (until_error ms).1,
      union (until_error ms).2 (if decide (tail = []) then None else Some ErrNlMsgHdrSmall)).
Proof.
  intros. unfold WalkNotifications. by rewrite WalkNetlinkEnvelopes_walk, notify_visit by done.
Qed.

(** A notification caused by request 7 of port 9, a dump reply, a request. *)
Definition demo_mcast : list nlmsg :=
  [mkNlmsg RTM_NEWROUTE 0 7 9 [1]; demo_msg RTM_NEWROUTE 2 5 [2]; demo_msg RTM_DELROUTE 1 5 [3];
   demo_msg RTM_DELLINK 0 0 [4]].
Lemma WalkNotifications_spec_witness :
  WalkNotifications recording (enc_nlmsgs demo_mcast ++ [0; 0]) [] =
  Some ([(mkNlMsgHdr 17 24 0 7 9, [1]); (mkNlMsgHdr 17 17 0 0 0, [4])], Some ErrNlMsgHdrSmall).
Proof.
  apply (WalkNotifications_spec demo_mcast [0; 0]).
  - discriminate.
  - repeat (apply Forall_cons_2 || apply Forall_nil_2); split; vm_compute; (reflexivity || split; (discriminate || reflexivity)).
  - repeat (apply Forall_cons_2 || apply Forall_nil_2); split; vm_compute; intros; (discriminate || (by left)).
  - reflexivity.
Defined.
