(* ===== verification/Tracker.v ===== *)
(** The tracker (pkg/localnet/tracker.go): a namespace's links, addresses and
    routes kept current by folding rtnetlink notifications, and the snapshot
    built from them. *)

From stdpp Require Import countable sorting.
From Stdlib Require Import Ascii.
From S2P Require Import Prelude NlHeaders FlatRecord Enrich RtParsers LinkStats Bond Links Rules Events Localnet.

(** ** State *)

(** The bytes of a Go string. *)
Definition go_string (b : bytes) : string := String.string_of_list_ascii ((fun z => ascii_of_N (Z.to_N z)) <$> b).

Record trackedLink := mkTrackedLink { name : bytes; up : bool }.
#[export] Instance trackedLink_eq : EqDecision trackedLink. Proof. solve_decision. Defined.

Record addrKey := mkAddrKey {
  ak_index : Z; ak_family : Z; ak_prefixlen : Z; ak_local : bytes; ak_address : bytes }.
#[export] Instance addrKey_eq : EqDecision addrKey. Proof. solve_decision. Defined.
#[export] Instance addrKey_countable : Countable addrKey.
Proof.
  refine (inj_countable' (fun k => (ak_index k, ak_family k, ak_prefixlen k, ak_local k, ak_address k))
    (fun '(a, b, c, d, e) => mkAddrKey a b c d e) _). by intros [].
Defined.

Record routeKey := mkRouteKey {
  rk_family : Z; rk_dstLen : Z; rk_srcLen : Z; rk_tos : Z; rk_table : Z; rk_priority : Z; rk_oif : Z;
  rk_dst : bytes; rk_src : bytes; rk_gateway : bytes }.
#[export] Instance routeKey_eq : EqDecision routeKey. Proof. solve_decision. Defined.
#[export] Instance routeKey_countable : Countable routeKey.
Proof.
  refine (inj_countable'
    (fun k => (rk_family k, rk_dstLen k, rk_srcLen k, rk_tos k, rk_table k, rk_priority k, rk_oif k,
               rk_dst k, rk_src k, rk_gateway k))
    (fun '(a, b, c, d, e, f, g, h, i, j) => mkRouteKey a b c d e f g h i j) _). by intros [].
Defined.

Record Tracker := mkTracker {
  links : gmap Z trackedLink; addrs : gmap addrKey Addr.AddrInfo; routes : gmap routeKey Route.RouteInfo }.

(** ** Keys *)

Definition IFF_UP : Z := 1.
Definition RTM_F_CLONED : Z := 512.
Definition RT_SCOPE_HOST : Z := 254.

Definition r_num (r : Route.RouteInfo) := Route.ri_num r.
Definition r_buf (r : Route.RouteInfo) (f : Route.buf) : bytes := raw (Route.ri_buf r f).

Definition tracked (r : Route.RouteInfo) : bool :=
  inClassifiedTable (r_num r Route.Table) && bool_decide (Z.land (r_num r Route.Flags) RTM_F_CLONED = 0).

Definition keyOfAddr (a : Addr.AddrInfo) : addrKey :=
  let fam := Addr.ai_num a Addr.Family in
  let '(p, ad) := if decide (fam = AF_INET) then (Addr.ai_num a Addr.Prefixlen, raw (Addr.ai_buf a Addr.Address))
                  else (0, []) in
  mkAddrKey (Addr.ai_num a Addr.Index) fam p (raw (Addr.ai_buf a Addr.Local_)) ad.

Definition keyOfRoute (r : Route.RouteInfo) : routeKey :=
  let n := r_num r in
  let '(oif, gw) := if decide (n Route.Family = AF_INET6) then (n Route.Oif, r_buf r Route.Gateway) else (0, []) in
  mkRouteKey (n Route.Family) (n Route.DstLen) (n Route.SrcLen) (n Route.Tos) (n Route.Table) (n Route.Priority)
    oif (r_buf r Route.Dst) (r_buf r Route.Src) gw.

Definition sameClass (a b : Route.RouteInfo) : bool :=
  bool_decide (r_num a Route.Type_ = r_num b Route.Type_) && bool_decide (r_num a Route.Oif = r_num b Route.Oif) &&
  bool_decide (r_buf a Route.Gateway = r_buf b Route.Gateway) &&
  eqb (Route.ri_has a Route.HasVia) (Route.ri_has b Route.HasVia) &&
  eqb (Route.ri_has a Route.HasMultipath) (Route.ri_has b Route.HasMultipath) &&
  bool_decide (r_num a Route.NhID = r_num b Route.NhID).

Definition deleteKey {K A} `{Countable K} (m : gmap K A) (k : K) : gmap K A * bool :=
  match m !! k with None => (m, false) | Some _ => (delete k m, true) end.

(** ** Operations *)

Definition link_idx (l : Link.LinkInfo) : Z := uint32 (Link.li_num l Link.Index).
Definition tracked_link (l : Link.LinkInfo) : trackedLink :=
  mkTrackedLink (Link.li_str l Link.Name) (bool_decide (Z.land (Link.li_num l Link.Flags) IFF_UP <> 0)).
Definition put_link (m : gmap Z trackedLink) (l : Link.LinkInfo) := <[link_idx l := tracked_link l]> m.
Definition put_addr (m : gmap addrKey Addr.AddrInfo) (a : Addr.AddrInfo) := <[keyOfAddr a := a]> m.
Definition put_route (m : gmap routeKey Route.RouteInfo) (r : Route.RouteInfo) :=
  if tracked r then <[keyOfRoute r := r]> m else m.

Definition Reset (ls : list Link.LinkInfo) (ads : list Addr.AddrInfo) (rs : list Route.RouteInfo) : Tracker :=
  mkTracker (foldl put_link ∅ ls) (foldl put_addr ∅ ads) (foldl put_route ∅ rs).
Definition NewTracker : Tracker := Reset [] [] [].

(** The routes [flushRoutes] drops. *)
Definition flushed (idx : Z) (unregistered : bool) (r : Route.RouteInfo) : bool :=
  if bool_decide (r_num r Route.Oif <> idx) || Route.ri_has r Route.HasMultipath ||
     bool_decide (r_num r Route.NhID <> 0) then false else
  if negb unregistered &&
     (bool_decide (r_num r Route.Family <> AF_INET) || bool_decide (r_num r Route.Scope = RT_SCOPE_HOST))
  then false else true.
Definition flushRoutes (t : Tracker) (idx : Z) (unregistered : bool) : Tracker * bool :=
  (mkTracker (links t) (addrs t) (filter (fun kr => flushed idx unregistered kr.2 = false) (routes t)),
   bool_decide (filter (fun kr => flushed idx unregistered kr.2 = true) (routes t) <> ∅)).

Definition addr_on (idx : Z) (a : Addr.AddrInfo) : bool := bool_decide (Addr.ai_num a Addr.Index = idx).

Definition applyLink (t : Tracker) (a : EventAction) (l : Link.LinkInfo) : Tracker * bool :=
  let idx := link_idx l in
  let old := links t !! idx in
  if decide (a = EventActionDel) then
    let changed := match old with Some o => bool_decide (name o <> []) | None => false end in
    let changed := changed || bool_decide (filter (fun ka => addr_on idx ka.2 = true) (addrs t) <> ∅) in
    let t := mkTracker (delete idx (links t)) (filter (fun ka => addr_on idx ka.2 = false) (addrs t)) (routes t) in
    let '(t, flushed) := flushRoutes t idx true in
    (t, flushed || changed)
  else
    let new := tracked_link l in
    let t := mkTracker (<[idx := new]> (links t)) (addrs t) (routes t) in
    let changed := match old with None => true | Some o => bool_decide (name o <> name new) end in
    if (match old with Some o => up o | None => false end) && negb (up new) then
      let '(t, flushed) := flushRoutes t idx false in (t, flushed || changed)
    else (t, changed).

Definition Apply (t : Tracker) (ev : event) : Tracker * bool :=
  match ev with
  | LinkEvent a l => applyLink t a l
  | AddrEvent a ai =>
      let k := keyOfAddr ai in
      if decide (a = EventActionDel) then
        let '(m, changed) := deleteKey (addrs t) k in (mkTracker (links t) m (routes t), changed)
      else
        (mkTracker (links t) (<[k := ai]> (addrs t)) (routes t),
         match addrs t !! k with Some _ => false | None => true end)
  | RouteEvent a r =>
      if negb (tracked r) then (t, false) else
      let k := keyOfRoute r in
      if decide (a = EventActionDel) then
        let '(m, changed) := deleteKey (routes t) k in (mkTracker (links t) (addrs t) m, changed)
      else
        (mkTracker (links t) (addrs t) (<[k := r]> (routes t)),
         match routes t !! k with Some old => negb (sameClass old r) | None => true end)
  | NeighEvent _ _ | RuleEvent _ _ => (t, false)
  end.

(** ** Snapshot *)

(** cmp.Compare, bytes.Compare and cmp.Or. *)
Definition cmp_Compare (a b : Z) : Z := if decide (a < b) then -1 else if decide (b < a) then 1 else 0.
Fixpoint bytes_Compare (a b : bytes) : Z :=
  match a, b with
  | [], [] => 0
  | [], _ :: _ => -1
  | _ :: _, [] => 1
  | x :: a, y :: b => if decide (x = y) then bytes_Compare a b else cmp_Compare x y
  end.
Definition cmp_Or (l : list Z) : Z := default 0 (head (filter (fun z => z <> 0) l)).

Definition compareRoutes (a b : Route.RouteInfo) : Z :=
  cmp_Or [cmp_Compare (r_num a Route.Family) (r_num b Route.Family);
    cmp_Compare (r_num a Route.Table) (r_num b Route.Table);
    cmp_Compare (r_num a Route.DstLen) (r_num b Route.DstLen);
    bytes_Compare (r_buf a Route.Dst) (r_buf b Route.Dst);
    cmp_Compare (r_num a Route.Tos) (r_num b Route.Tos);
    cmp_Compare (r_num a Route.Priority) (r_num b Route.Priority);
    cmp_Compare (r_num a Route.Oif) (r_num b Route.Oif);
    bytes_Compare (r_buf a Route.Gateway) (r_buf b Route.Gateway)].
Definition route_le (a b : Route.RouteInfo) : Prop := compareRoutes a b <= 0.

Definition link_names (t : Tracker) : gmap Z string :=
  omap (fun l => match name l with [] => None | n => Some (go_string n) end) (links t).

(** The addresses come in the map's order and the routes sorted by an unstable
    sort: [Snapshot t s] when [s] is a snapshot some such orders give. *)
Definition Snapshot {T} `{PrefixTable T} (t : Tracker) (s : Localnet.Snapshot T) : Prop :=
  exists ads rs, ads ≡ₚ (map_to_list (addrs t)).*2 /\ rs ≡ₚ (map_to_list (routes t)).*2 /\
    Sorted route_le rs /\ s = BuildSnapshot ads rs (link_names t).
