(* ===== verification/TrackerSpec.v ===== *)
(** What the tracker keeps: its invariant, that folding is idempotent and
    agrees with a fresh dump, what a lost link takes with it, and that the
    changes it does not report are the ones no snapshot shows. *)

From stdpp Require Import countable sorting.
From S2P Require Import Prelude NlHeaders FlatRecord Enrich RtAttr NlRequest RtParsers RtParsersSpec LinkStats Bond Links Rules.
From S2P Require Import Events Localnet LocalnetSpec Tracker.

(** ** The invariant *)

(** ParseNewAddr leaves an address without IFA_LOCAL without IFA_ADDRESS too. *)
Definition addr_ok (a : Addr.AddrInfo) : Prop :=
  raw (Addr.ai_buf a Addr.Local_) = [] -> raw (Addr.ai_buf a Addr.Address) = [].
Definition event_ok (ev : event) : Prop := match ev with AddrEvent _ a => addr_ok a | _ => True end.

Inductive reachable : Tracker -> Prop :=
  | reach_Reset ls ads rs : Forall addr_ok ads -> reachable (Reset ls ads rs)
  | reach_Apply t ev : reachable t -> event_ok ev -> reachable (Apply t ev).1.

Record wf_tracker (t : Tracker) : Prop := {
  wf_addrs k a : addrs t !! k = Some a -> keyOfAddr a = k /\ addr_ok a;
  wf_routes k r : routes t !! k = Some r -> keyOfRoute r = k /\ tracked r = true }.

Definition addrs_ok (m : gmap addrKey Addr.AddrInfo) : Prop :=
  map_Forall (fun k a => keyOfAddr a = k /\ addr_ok a) m.
Definition routes_ok (m : gmap routeKey Route.RouteInfo) : Prop :=
  map_Forall (fun k r => keyOfRoute r = k /\ tracked r = true) m.

Lemma put_addrs_ok ads m : Forall addr_ok ads -> addrs_ok m -> addrs_ok (foldl put_addr m ads).
Proof.
  intros H. revert m. induction H as [|a ads Ha H IH]; intros m Hm; cbn; [done|].
  apply IH, map_Forall_insert_2; [done|exact Hm].
Qed.
Lemma put_routes_ok rs m : routes_ok m -> routes_ok (foldl put_route m rs).
Proof.
  revert m. induction rs as [|r rs IH]; intros m Hm; cbn; [done|]. apply IH. unfold put_route.
  destruct (tracked r) eqn:Ht; [|done]. by apply map_Forall_insert_2.
Qed.
Lemma filter_ok {K A} `{Countable K} (P : K -> A -> Prop) (Q : K * A -> Prop) `{!forall x, Decision (Q x)} (m : gmap K A) :
  map_Forall P m -> map_Forall P (filter Q m).
Proof. intros Hm k a Hk. apply map_lookup_filter_Some in Hk as [Hk _]. by apply Hm. Qed.
Lemma deleteKey_eq {K A} `{Countable K} (m : gmap K A) k :
  deleteKey m k = (delete k m, match m !! k with Some _ => true | None => false end).
Proof. unfold deleteKey. destruct (m !! k) eqn:E; [done|]. by rewrite delete_id. Qed.

Lemma applyLink_ok t a l : addrs_ok (addrs t) -> routes_ok (routes t) ->
  addrs_ok (addrs (applyLink t a l).1) /\ routes_ok (routes (applyLink t a l).1).
Proof.
  intros Ha Hr. unfold applyLink, flushRoutes. cbv zeta. case_decide; cbn [fst addrs routes links].
  - split; by apply filter_ok.
  - destruct (_ && _); cbn [fst addrs routes links]; split; try done; by apply filter_ok.
Qed.

Lemma Apply_ok t ev : event_ok ev -> addrs_ok (addrs t) -> routes_ok (routes t) ->
  addrs_ok (addrs (Apply t ev).1) /\ routes_ok (routes (Apply t ev).1).
Proof.
  intros He Ha Hr. destruct ev as [a l|a ai|a r|a n|a r]; cbn [Apply event_ok] in *; [by apply applyLink_ok| | |done|done].
  - case_decide; cbn [fst addrs routes].
    + rewrite deleteKey_eq. split; [by apply map_Forall_delete|done].
    + split; [by apply map_Forall_insert_2|done].
  - destruct (tracked r) eqn:Ht; cbn [negb]; [|done]. case_decide; cbn [fst addrs routes].
    + rewrite deleteKey_eq. split; [done|by apply map_Forall_delete].
    + split; [done|by apply map_Forall_insert_2].
Qed.

Lemma reachable_ok t : reachable t -> addrs_ok (addrs t) /\ routes_ok (routes t).
Proof.
  induction 1 as [ls ads rs Hads|t ev Ht [IHa IHr] He]; [|by apply Apply_ok].
  split; [apply put_addrs_ok; [done|apply map_Forall_empty]|apply put_routes_ok, map_Forall_empty].
Qed.

(** Whatever dumps and notifications a tracker has folded, every address and
    every route stands under its own key, and every route kept is one a snapshot
    may read. *)
Lemma reachable_wf t : reachable t -> wf_tracker t.
Proof. intros H. destruct (reachable_ok t H) as [Ha Hr]. split; [exact Ha|exact Hr]. Qed.

(** ** Idempotence *)

Definition Applies (t : Tracker) (l : list event) : Tracker := foldl (fun t ev => (Apply t ev).1) t l.

Lemma filter_none {K A} `{Countable K} (f : A -> bool) (m : gmap K A) :
  filter (fun ka => f ka.2 = true) m = ∅ -> filter (fun ka => f ka.2 = false) m = m.
Proof.
  intros Hm. apply map_filter_id. intros k a Hk. cbn. destruct (f a) eqn:E; [|done].
  exfalso. assert (filter (fun ka => f ka.2 = true) m !! k = Some a) as Hc by (by apply map_lookup_filter_Some).
  by rewrite Hm, lookup_empty in Hc.
Qed.
Lemma filter_twice {K A} `{Countable K} (f : A -> bool) (m : gmap K A) :
  filter (fun ka => f ka.2 = false) (filter (fun ka => f ka.2 = false) m) = filter (fun ka => f ka.2 = false) m /\
  filter (fun ka => f ka.2 = true) (filter (fun ka => f ka.2 = false) m) = ∅.
Proof.
  split; [apply map_filter_id; intros k a Hk; by apply map_lookup_filter_Some in Hk as [_ ?]|].
  apply map_empty. intros k. apply eq_None_not_Some. intros [a Hk]. apply map_lookup_filter_Some in Hk as [Hk Ht].
  apply map_lookup_filter_Some in Hk as [_ Hf]. cbn in *. congruence.
Qed.
Lemma sameClass_refl r : sameClass r r = true.
Proof. unfold sameClass. by rewrite !bool_decide_true, !eqb_reflx. Qed.

(** Folding a notification twice is folding it once, and the second time
    nothing is reported: a change that is both in the dump and queued behind it
    does no harm. *)
Theorem Apply_idempotent t ev : Apply (Applies t [ev]) ev = (Applies t [ev], false).
Proof.
  unfold Applies. cbn [foldl].
  destruct ev as [a l|a ai|a r|a n|a r]; cbn [Apply]; [| | |done|done].
  - unfold applyLink, flushRoutes. cbv zeta. case_decide; cbn [fst links addrs routes].
    + destruct (filter_twice (flushed (link_idx l) true) (routes t)) as [-> ->].
      destruct (filter_twice (addr_on (link_idx l)) (addrs t)) as [-> ->].
      rewrite lookup_delete_eq, delete_delete_eq. done.
    + destruct (up (tracked_link l)) eqn:Eu, (links t !! link_idx l) as [o|]; cbn [negb andb]; [| |destruct (up o)|];
        rewrite ?andb_false_r; cbn [andb fst links addrs routes]; rewrite lookup_insert_eq, insert_insert_eq, ?Eu; cbn [andb];
        by rewrite bool_decide_false by tauto.
  - case_decide; cbn [fst links addrs routes].
    + rewrite !deleteKey_eq. cbn [fst links addrs routes]. by rewrite lookup_delete_eq, delete_delete_eq.
    + by rewrite lookup_insert_eq, insert_insert_eq.
  - destruct (tracked r) eqn:Ht; cbn [negb fst]; [|done]. case_decide; cbn [fst links addrs routes].
    + rewrite !deleteKey_eq. cbn [fst links addrs routes]. by rewrite lookup_delete_eq, delete_delete_eq.
    + by rewrite lookup_insert_eq, sameClass_refl, insert_insert_eq.
Qed.

(** ** A dump and a stream of additions *)

Definition as_events ls ads rs : list event :=
  (LinkEvent EventActionAdd <$> ls) ++ (AddrEvent EventActionAdd <$> ads) ++ (RouteEvent EventActionAdd <$> rs).

Lemma Applies_app t l k : Applies t (l ++ k) = Applies (Applies t l) k.
Proof. apply foldl_app. Qed.
Lemma Applies_routes t rs :
  Applies t (RouteEvent EventActionAdd <$> rs) = mkTracker (links t) (addrs t) (foldl put_route (routes t) rs).
Proof.
  revert t. induction rs as [|r rs IH]; intros t; cbn [fmap list_fmap Applies foldl]; [by destruct t|].
  fold (Applies (Apply t (RouteEvent EventActionAdd r)).1 (RouteEvent EventActionAdd <$> rs)). rewrite IH.
  cbn [Apply]. unfold put_route at 3. destruct (tracked r); by cbn.
Qed.
Lemma Applies_addrs t ads :
  Applies t (AddrEvent EventActionAdd <$> ads) = mkTracker (links t) (foldl put_addr (addrs t) ads) (routes t).
Proof.
  revert t. induction ads as [|a ads IH]; intros t; cbn [fmap list_fmap Applies foldl]; [by destruct t|].
  fold (Applies (Apply t (AddrEvent EventActionAdd a)).1 (AddrEvent EventActionAdd <$> ads)). by rewrite IH.
Qed.
Lemma Applies_links ls m : NoDup (link_idx <$> ls) -> (forall l, l ∈ ls -> m !! link_idx l = None) ->
  Applies (mkTracker m ∅ ∅) (LinkEvent EventActionAdd <$> ls) = mkTracker (foldl put_link m ls) ∅ ∅.
Proof.
  revert m. induction ls as [|l ls IH]; intros m Hd Hm; cbn [fmap list_fmap Applies foldl]; [done|].
  fold (Applies (Apply (mkTracker m ∅ ∅) (LinkEvent EventActionAdd l)).1 (LinkEvent EventActionAdd <$> ls)).
  apply NoDup_cons in Hd as [Hn Hd]. cbn [Apply applyLink]. unfold applyLink. cbv zeta. cbn [links addrs routes].
  rewrite (Hm l) by by left. cbn [andb fst]. apply IH; [done|].
  intros l' Hl'. unfold put_link. rewrite lookup_insert_ne; [apply Hm; by right|].
  intros He. apply Hn. rewrite He. by apply list_elem_of_fmap_2.
Qed.

(** C35: a tracker reset from a dump that lists no link twice is the one that
    folded, from empty, one addition per object of the dump: the dump path and the event path agree. *)
Theorem Reset_is_fold ls ads rs : NoDup (link_idx <$> ls) ->
  Reset ls ads rs = Applies NewTracker (as_events ls ads rs).
Proof.
  intros Hd. unfold as_events, NewTracker, Reset. rewrite !Applies_app. cbn [foldl].
  rewrite Applies_links by done. by rewrite Applies_addrs, Applies_routes.
Qed.

(** ** What a snapshot reads *)

Record addr_seen := mkAddrSeen { as_index : Z; as_bytes : bytes }.
Definition addr_view (a : Addr.AddrInfo) : addr_seen :=
  mkAddrSeen (Addr.ai_num a Addr.Index)
    (if decide (glen (raw (Addr.ai_buf a Addr.Local_)) = 0) then raw (Addr.ai_buf a Addr.Address)
     else raw (Addr.ai_buf a Addr.Local_)).
(** The fields [BuildSnapshot] and [compareRoutes] read of a route. *)
Definition route_nums : list Route.num :=
  [Route.Family; Route.Table; Route.DstLen; Route.Tos; Route.Priority; Route.Oif; Route.Type_; Route.NhID].
Definition route_view (r : Route.RouteInfo) : list Z * bytes * bytes * bool * bool :=
  (r_num r <$> route_nums, r_buf r Route.Dst, r_buf r Route.Gateway, Route.ri_has r Route.HasVia,
   Route.ri_has r Route.HasMultipath).
Definition view (t : Tracker) := (link_names t, addr_view <$> addrs t, route_view <$> routes t).

Lemma view_num r r' f : route_view r = route_view r' -> f ∈ route_nums -> r_num r f = r_num r' f.
Proof. intros H. unfold route_view in H. simplify_eq/=. intros Hf. unfold route_nums in Hf. by repeat (apply elem_of_cons in Hf as [->|Hf]); [..|apply elem_of_nil in Hf]. Qed.
Section Views.
Context {T : Type} `{HT : PrefixTable T}.

Lemma build_addr_view (s : T * bool) a a' : addr_view a = addr_view a' -> build_addr s a = build_addr s a'.
Proof.
  intros H. destruct s as [t nls]. unfold build_addr. cbv zeta.
  change (if decide (glen (raw (Addr.ai_buf a Addr.Local_)) = 0) then raw (Addr.ai_buf a Addr.Address)
     else raw (Addr.ai_buf a Addr.Local_)) with (as_bytes (addr_view a)).
  change (Addr.ai_num a Addr.Index) with (as_index (addr_view a)). by rewrite H.
Qed.
Lemma build_route_view (s : T * bool) r r' : route_view r = route_view r' -> build_route s r = build_route s r'.
Proof.
  intros H. assert (forall f, f ∈ route_nums -> Route.ri_num r f = Route.ri_num r' f) as Hn
    by (intros f; by apply view_num).
  injection H as _ _ _ _ _ _ _ _ Hd Hg Hv Hm. unfold r_buf in Hd, Hg.
  unfold build_route, routePrefix, gatewayReached.
  rewrite (Hn Route.Table), (Hn Route.Oif), (Hn Route.Type_), (Hn Route.DstLen), (Hn Route.NhID), (Hn Route.Family)
    by (unfold route_nums; set_solver).
  by rewrite Hd, Hg, Hv, Hm.
Qed.
Lemma foldl_view {A V S} (f : S -> A -> S) (v : A -> V) s l l' :
  (forall s a a', v a = v a' -> f s a = f s a') -> v <$> l = v <$> l' -> foldl f s l = foldl f s l'.
Proof.
  intros Hf. revert s l'. induction l as [|a l IH]; intros s [|a' l'] H; try done. cbn in *. simplify_eq.
  rewrite (Hf s a a') by done. by apply IH.
Qed.
Lemma BuildSnapshot_view ads ads' rs rs' ln : addr_view <$> ads = addr_view <$> ads' ->
  route_view <$> rs = route_view <$> rs' ->
  BuildSnapshot (T := T) ads rs ln = BuildSnapshot ads' rs' ln.
Proof.
  intros Ha Hr. unfold BuildSnapshot. rewrite (foldl_view build_addr addr_view _ ads ads');
    [|intros; by apply build_addr_view|done].
  by rewrite (foldl_view build_route route_view _ rs rs'); [|intros; by apply build_route_view|].
Qed.
End Views.

Lemma compareRoutes_view a a' b b' : route_view a = route_view a' -> route_view b = route_view b' ->
  compareRoutes a b = compareRoutes a' b'.
Proof.
  intros Ha Hb. unfold compareRoutes.
  rewrite !(view_num a a' _ Ha), !(view_num b b' _ Hb) by (unfold route_nums; set_solver).
  injection Ha as _ _ _ _ _ _ _ _ Hd Hg _ _. injection Hb as _ _ _ _ _ _ _ _ Hd' Hg' _ _. by rewrite Hd, Hd', Hg, Hg'.
Qed.
Lemma cons_eq {A} (x y : A) l k : x :: l = y :: k -> x = y /\ l = k.
Proof. by intros [= -> ->]. Qed.
Lemma Sorted_view l l' : route_view <$> l = route_view <$> l' -> Sorted route_le l -> Sorted route_le l'.
Proof.
  revert l'. induction l as [|a l IH]; intros [|a' l'] H Hs; try done. apply cons_eq in H as [Ha Hl]. inversion Hs as [|? ? Hs' Hd]; subst. constructor; [by apply IH|].
  destruct l as [|b l], l' as [|b' l']; [by constructor|done|done|]. apply cons_eq in Hl as [Hb _]. constructor.
  inversion Hd; subst. unfold route_le in *. by rewrite <- (compareRoutes_view a a' b b').
Qed.

Lemma perm_view {A V} (v : A -> V) l k k' : l ≡ₚ k -> v <$> k ≡ₚ v <$> k' ->
  exists l', l' ≡ₚ k' /\ v <$> l = v <$> l'.
Proof.
  intros Hl Hk. assert (v <$> l ≡ₚ v <$> k') as Hp by (by rewrite Hl).
  apply Permutation_map_inv in Hp as (l' & Hl' & Hp). by exists l'.
Qed.
Lemma map_view {K A V} `{Countable K} (v : A -> V) (m m' : gmap K A) : v <$> m = v <$> m' ->
  v <$> (map_to_list m).*2 ≡ₚ v <$> (map_to_list m').*2.
Proof.
  intros Hm. assert (forall m : gmap K A, v <$> (map_to_list m).*2 = (map_to_list (v <$> m)).*2) as Hv.
  { intros n. rewrite map_to_list_fmap, <- !list_fmap_compose. by apply list_fmap_ext. }
  by rewrite !Hv, Hm.
Qed.

Lemma Snapshot_view {T} `{HT : PrefixTable T} t t' (s : Localnet.Snapshot T) :
  view t = view t' -> Snapshot t s -> Snapshot t' s.
Proof.
  unfold view. intros H (ads & rs & Ha & Hr & Hs & ->). injection H as Hl Hva Hvr.
  destruct (perm_view addr_view _ _ _ Ha (map_view _ _ _ Hva)) as (ads' & Ha' & Hea).
  destruct (perm_view route_view _ _ _ Hr (map_view _ _ _ Hvr)) as (rs' & Hr' & Her).
  exists ads', rs'. split_and!; [done|done|by eapply Sorted_view|]. rewrite <- Hl. by apply BuildSnapshot_view.
Qed.

(** ** Changes that are not reported *)

Lemma key_addr a : ak_index (keyOfAddr a) = Addr.ai_num a Addr.Index /\
  ak_local (keyOfAddr a) = raw (Addr.ai_buf a Addr.Local_).
Proof. unfold keyOfAddr. by case_decide. Qed.
Lemma key_addr_view a a' : keyOfAddr a = keyOfAddr a' -> addr_ok a -> addr_ok a' -> addr_view a = addr_view a'.
Proof.
  intros Hk Ha Ha'. pose proof (key_addr a) as [Hi Hl]. pose proof (key_addr a') as [Hi' Hl'].
  rewrite Hk, Hi' in Hi. rewrite Hk, Hl' in Hl. unfold addr_ok, addr_view in *. rewrite <- Hi, <- Hl in *.
  f_equal. case_decide as Hg; [|done].
  destruct (raw (Addr.ai_buf a' Addr.Local_)); [by rewrite Ha, Ha'|]. rewrite glen_cons in Hg. glen_pos. lia.
Qed.
Lemma key_route r : let k := keyOfRoute r in
  rk_family k = r_num r Route.Family /\ rk_dstLen k = r_num r Route.DstLen /\ rk_tos k = r_num r Route.Tos /\
  rk_table k = r_num r Route.Table /\ rk_priority k = r_num r Route.Priority /\ rk_dst k = r_buf r Route.Dst.
Proof. unfold keyOfRoute. by case_decide. Qed.
Lemma key_route_view r r' : keyOfRoute r = keyOfRoute r' -> sameClass r r' = true -> route_view r = route_view r'.
Proof.
  intros Hk Hs. pose proof (key_route r) as H. pose proof (key_route r') as H'. cbv zeta in *. rewrite Hk in H.
  destruct H as (K1 & K2 & K3 & K4 & K5 & K6), H' as (L1 & L2 & L3 & L4 & L5 & L6).
  unfold sameClass in Hs. repeat (apply andb_true_iff in Hs as [Hs ?]); repeat match goal with
    | H : bool_decide _ = true |- _ => apply bool_decide_eq_true in H
    | H : eqb _ _ = true |- _ => apply eqb_prop in H end.
  unfold route_view, route_nums. cbn. congruence.
Qed.

Lemma flush_silent t idx u : (flushRoutes t idx u).2 = false -> (flushRoutes t idx u).1 = t.
Proof.
  unfold flushRoutes. cbn. intros H. apply bool_decide_eq_false, dec_stable in H.
  rewrite (filter_none _ _ H). by destruct t.
Qed.
Lemma insert_view {K A V} `{Countable K} (v : A -> V) (m : gmap K A) k a a' :
  m !! k = Some a -> v a = v a' -> v <$> <[k := a']> m = v <$> m.
Proof. intros Hk Hv. rewrite fmap_insert, <- Hv. apply insert_id. by rewrite lookup_fmap, Hk. Qed.
Lemma link_names_same (m : gmap Z trackedLink) k o n : m !! k = Some o -> name o = name n ->
  omap (fun l => match name l with [] => None | b => Some (go_string b) end) (<[k := n]> m) =
  omap (fun l => match name l with [] => None | b => Some (go_string b) end) m.
Proof.
  intros Hk Hn. apply map_eq. intros j. rewrite !lookup_omap. destruct (decide (k = j)) as [->|Hj].
  - rewrite lookup_insert_eq, Hk. cbn. by rewrite Hn.
  - by rewrite lookup_insert_ne.
Qed.

Lemma link_names_gone (m : gmap Z trackedLink) k : match m !! k with Some o => name o = [] | None => True end ->
  omap (fun l => match name l with [] => None | b => Some (go_string b) end) (delete k m) =
  omap (fun l => match name l with [] => None | b => Some (go_string b) end) m.
Proof.
  intros Hk. apply map_eq. intros j. rewrite !lookup_omap. destruct (decide (k = j)) as [->|Hj].
  - rewrite lookup_delete_eq. destruct (m !! j); cbn; [by rewrite Hk|done].
  - by rewrite lookup_delete_ne.
Qed.

Lemma applyLink_silent t a l : (applyLink t a l).2 = false -> view (applyLink t a l).1 = view t.
Proof.
  unfold applyLink. cbv zeta. set (idx := link_idx l). case_decide as Hd.
  - set (t1 := mkTracker (delete idx (links t)) _ _). pose proof (flush_silent t1 idx true) as Hf.
    destruct (flushRoutes t1 idx true) as [t2 f]. cbn [fst snd] in *. intros H.
    apply orb_false_iff in H as [-> H]. apply orb_false_iff in H as [Hn Ha]. rewrite (Hf eq_refl). unfold t1, view.
    cbn [links addrs routes]. apply bool_decide_eq_false, dec_stable in Ha. rewrite (filter_none _ _ Ha).
    unfold link_names. cbn [links]. rewrite link_names_gone; [done|].
    destruct (links t !! idx); [|done]. by apply bool_decide_eq_false, dec_stable in Hn.
  - set (t1 := mkTracker (<[idx := tracked_link l]> (links t)) _ _).
    pose proof (flush_silent t1 idx false) as Hf.
    assert (match links t !! idx with Some o => bool_decide (name o <> name (tracked_link l)) | None => true end = false ->
      view t1 = view t) as Hv.
    { intros Hn. destruct (links t !! idx) as [o|] eqn:Eo; [|done]. apply bool_decide_eq_false, dec_stable in Hn.
      unfold view, link_names, t1. cbn [links addrs routes]. by rewrite (link_names_same _ _ _ _ Eo Hn). }
    destruct (_ && negb _); [|done]. destruct (flushRoutes t1 idx false) as [t2 f]. cbn [fst snd] in *.
    intros H. apply orb_false_iff in H as [-> H]. rewrite (Hf eq_refl). by apply Hv.
Qed.

Lemma Apply_silent t ev : addrs_ok (addrs t) -> routes_ok (routes t) -> event_ok ev ->
  (Apply t ev).2 = false -> view (Apply t ev).1 = view t.
Proof.
  intros Ha Hr He. destruct ev as [a l|a ai|a r|a n|a r]; cbn [Apply event_ok] in *; [apply applyLink_silent| | |done|done].
  - case_decide; [rewrite deleteKey_eq|]; cbn [fst snd]; destruct (addrs t !! keyOfAddr ai) as [o|] eqn:E; try done; intros _.
    + rewrite delete_id by done. by destruct t.
    + unfold view. cbn [links addrs routes link_names]. rewrite (insert_view _ _ _ _ _ E); [done|].
      destruct (Ha _ _ E) as [Hk Ho]. by apply key_addr_view.
  - destruct (tracked r); cbn [negb]; [|done].
    case_decide; [rewrite deleteKey_eq|]; cbn [fst snd]; destruct (routes t !! keyOfRoute r) as [o|] eqn:E; try done; intros Hs.
    + rewrite delete_id by done. by destruct t.
    + unfold view. cbn [links addrs routes link_names]. rewrite (insert_view _ _ _ _ _ E); [done|].
      destruct (Hr _ _ E) as [Hk _]. apply key_route_view; [done|]. by apply negb_false_iff.
Qed.

(** C34: a notification (as the decoder returns it, an address without
    IFA_LOCAL having no IFA_ADDRESS either) that the tracker, whatever it has
    folded before, does not report changes no snapshot: the
    snapshots that could be built before and after it are the same, whatever
    orders the map's iteration and the sort choose. *)
Theorem unreported_is_invisible {T} `{HT : PrefixTable T} t ev (s : Localnet.Snapshot T) :
  reachable t -> event_ok ev -> (Apply t ev).2 = false -> Snapshot (Apply t ev).1 s <-> Snapshot t s.
Proof.
  intros Ht He Hs. destruct (reachable_ok t Ht) as [Ha Hr]. pose proof (Apply_silent t ev Ha Hr He Hs) as Hv.
  split; by apply Snapshot_view.
Qed.

(** ** A link that is gone *)

Definition entry_oif (o : entry) : Z := match o with Self _ oif => oif | OfRoute _ e => e_oif e end.

Lemma lookup_spec_oif ads rs a idx : idx <> 0 -> Forall (fun o => entry_oif o <> idx) (entries ads rs) ->
  (lookup_spec ads rs a).2 <> idx.
Proof.
  intros Hi He. rewrite Forall_forall in He. unfold lookup_spec. destruct (IsUnspecified a); [cbn; congruence|].
  pose proof (longest_match_spec (table_spec (entries ads rs)) a) as Hm.
  destruct (longest_match _ a) as [e|]; [|cbn; congruence]. destruct Hm as (p & _ & Hp & _).
  destruct (_ && _); [cbn; congruence|]. cbn [snd].
  apply table_spec_Some in Hp as [(oif & Hin & ->)|Hin]; by apply He in Hin.
Qed.

(** A route that is not flushed with its device names another one. *)
Lemma kept_route_oif idx r o : idx <> 0 -> flushed idx true r = false ->
  (Route.ri_has r Route.HasMultipath = true \/ r_num r Route.NhID <> 0 -> r_num r Route.Type_ <> RTN_LOCAL) ->
  route_entry r = Some o -> entry_oif o <> idx.
Proof.
  unfold flushed. cbn [negb andb]. intros Hi Hf Hm Ho.
  destruct (bool_decide (r_num r Route.Oif <> idx)) eqn:Eo.
  { apply bool_decide_eq_true in Eo. unfold route_entry, egress, r_num in *.
    destruct (local_prefix r); [by simplify_eq/=|]. apply bind_Some in Ho as (p & _ & [= <-]). cbn.
    by destruct (_ && _). }
  cbn [orb] in Hf. destruct (Route.ri_has r Route.HasMultipath || bool_decide (r_num r Route.NhID <> 0)) eqn:Em; [|done].
  assert (r_num r Route.Type_ <> RTN_LOCAL) as Ht.
  { apply Hm. apply orb_true_iff in Em as [->|Em]; [by left|right]. by apply bool_decide_eq_true in Em. }
  unfold route_entry, local_prefix, egress, gatewayReached in Ho. unfold r_num in *.
  rewrite (bool_decide_false (Route.ri_num r Route.Type_ = RTN_LOCAL)), andb_false_r in Ho by done.
  apply bind_Some in Ho as (p & _ & [= <-]). cbn. rewrite Em, <- orb_assoc, Em, orb_true_r. cbn. congruence.
Qed.

(** Several next hops, or a next-hop object, are not how the local table's
    routes are written. *)
Definition routes_plain (t : Tracker) : Prop := map_Forall (fun _ r => route_ok r /\
  (Route.ri_has r Route.HasMultipath = true \/ r_num r Route.NhID <> 0 -> r_num r Route.Type_ <> RTN_LOCAL)) (routes t).

Section Gone.
Context {T : Type} `{HT : PrefixTable T} `{!PrefixTableLaws T}.

(** Once a link's deletion is folded, no snapshot resolves any destination
    to its interface index or has a name for it, whatever addresses and routes
    the kernel did not report deleting. *)
Theorem deleted_link_is_unused t l (s : Localnet.Snapshot T) a :
  routes_plain t -> link_idx l <> 0 -> wf_addr a ->
  Snapshot (Apply t (LinkEvent EventActionDel l)).1 s ->
  (Lookup (Some s) (Some a)).1.2 <> link_idx l /\ IfName (Some s) (link_idx l) = ""%string.
Proof using PrefixTableLaws0.
  intros Hp Hi Ha (ads & rs & Hads & Hrs & _ & ->). cbn [Apply] in *. unfold applyLink, flushRoutes in *. cbv zeta in *.
  rewrite decide_True in * by done. cbn [fst links addrs routes] in *.
  assert (forall r, r ∈ rs -> exists k, routes t !! k = Some r /\ flushed (link_idx l) true r = false) as Hr.
  { intros r Hr. rewrite Hrs in Hr. apply list_elem_of_fmap in Hr as ([k r'] & -> & Hr).
    apply elem_of_map_to_list, map_lookup_filter_Some in Hr. by exists k. }
  split.
  - rewrite Lookup_eq; [cbn [fst snd]|apply Forall_forall; intros r (k & Hk & _)%Hr; by apply (Hp k)|done].
    apply lookup_spec_oif; [done|]. apply Forall_app. split; apply Forall_forall; intros o Ho.
    + apply list_elem_of_omap in Ho as (ai & Hai & Ho). apply bind_Some in Ho as (x & _ & [= <-]). cbn.
      rewrite Hads in Hai. apply list_elem_of_fmap in Hai as ([k ai'] & -> & Hai).
      apply elem_of_map_to_list, map_lookup_filter_Some in Hai as [_ Hai]. cbn in *.
      unfold addr_on in Hai. by apply bool_decide_eq_false in Hai.
    + apply list_elem_of_omap in Ho as (r & (k & Hk & Hf)%Hr & Ho).
      eapply kept_route_oif; [done|exact Hf|apply (Hp k r Hk)|done].
  - unfold IfName. rewrite decide_False by done. cbn. unfold BuildSnapshot.
    destruct (foldl _ _ _) as [tb nls]. cbn. unfold link_names. cbn.
    by rewrite lookup_omap, lookup_delete_eq.
Qed.
End Gone.

(** ** What the parser hands over *)

Lemma raw_copied (o : option bytes) : raw (o ≫= CopyBytes) = [] -> o ≫= CopyBytes = None.
Proof.
  destruct o as [b|]; [|done]. cbn. unfold CopyBytes. case_decide as H; [done|]. cbn. by intros ->.
Qed.
Lemma parsed_addr_ok body ai : Addr.ParseNewAddr body = Some (ai, None) -> addr_ok ai.
Proof.
  intros H. destruct (decide (8 <= glen body)) as [Hb|Hb].
  - destruct (AddrSpec.ParseNewAddr_eq body Hb) as (x & Hv & Hp). rewrite Hp in H.
    destruct (parse_attrs (drop 8 body)).2; simplify_eq. pose proof (AddrSpec.addr_fields_ok body x Hv) as Hf.
    destruct Hf as (_ & _ & _ & _ & _ & Ha & Hl & _). unfold addr_ok. rewrite Ha, Hl.
    set (p := first_attr Addr.IFA_LOCAL _). set (q := first_attr Addr.IFA_ADDRESS _).
    pose proof (raw_copied p). pose proof (raw_copied q).
    destruct (p ≫= CopyBytes) as [b|], (q ≫= CopyBytes) as [c|]; cbn in *; try done; intros ->; naive_solver.
  - unfold Addr.ParseNewAddr, Addr.DeserializeIfAddrmsg, IfAddrmsgSizeCst in H. rewrite decide_True in H by lia. done.
Qed.

(** Every event the decoder returns is one the tracker expects. *)
Lemma parsed_event_ok ty body ev e : ParseRtnetlinkEvent ty body = Some (Some ev, e) -> event_ok ev.
Proof.
  unfold ParseRtnetlinkEvent, parseLinkEvent, parseAddrEvent, parseRouteEvent, parseNeighEvent, parseRuleEvent, parse_event.
  intros H. repeat (case_decide; [apply bind_Some in H as ([i o] & Hp & H); destruct o; simplify_eq; try exact I;
    by apply (parsed_addr_ok body)|]). done.
Qed.

(** ** Snapshots exist *)

Lemma cmp_Compare_opp a b : cmp_Compare b a = - cmp_Compare a b.
Proof. unfold cmp_Compare. repeat case_decide; lia. Qed.
Lemma bytes_Compare_opp a b : bytes_Compare b a = - bytes_Compare a b.
Proof.
  revert b. induction a as [|x a IH]; intros [|y b]; cbn; try done. destruct (decide (x = y)) as [->|Hn].
  - by rewrite decide_True.
  - rewrite decide_False by congruence. apply cmp_Compare_opp.
Qed.
Lemma cmp_Or_opp l : cmp_Or (Z.opp <$> l) = - cmp_Or l.
Proof.
  unfold cmp_Or. induction l as [|x l IH]; [done|]. rewrite fmap_cons, !filter_cons.
  destruct (decide (x <> 0)); [rewrite decide_True by lia|rewrite decide_False by lia]; [done|exact IH].
Qed.
Lemma compareRoutes_opp a b : compareRoutes b a = - compareRoutes a b.
Proof.
  unfold compareRoutes. rewrite <- cmp_Or_opp. cbn [fmap list_fmap].
  by rewrite <- !cmp_Compare_opp, <- !bytes_Compare_opp.
Qed.
#[export] Instance route_le_dec : RelDecision route_le.
Proof. intros a b. unfold route_le. apply _. Defined.
#[export] Instance route_le_total : Total route_le.
Proof. intros a b. unfold route_le. rewrite (compareRoutes_opp a b). lia. Qed.

(** One of the orders. *)
Definition SnapshotSorted {T} `{PrefixTable T} (t : Tracker) : Localnet.Snapshot T :=
  BuildSnapshot (map_to_list (addrs t)).*2 (merge_sort route_le (map_to_list (routes t)).*2) (link_names t).
Lemma Snapshot_exists {T} `{HT : PrefixTable T} t : Snapshot t (SnapshotSorted (T := T) t).
Proof.
  exists (map_to_list (addrs t)).*2, (merge_sort route_le (map_to_list (routes t)).*2).
  split_and!; [done|apply merge_sort_Permutation|apply Sorted_merge_sort, _|done].
Qed.

(** ** Witnesses *)

Definition demo_link (i flags : Z) (n : bytes) : Link.LinkInfo :=
  Link.set_num Link.Index i (Link.set_num Link.Flags flags (Link.set_str Link.Name n Link.zeroLinkInfo)).
Definition demo_tracker : Tracker :=
  Reset [demo_link 1 1 [108; 111]; demo_link 2 1 [101]] [demo_addr [10; 0; 0; 5] 2; demo_addr [127; 0; 0; 1] 1]
    [demo_route RTN_UNICAST (Some [10; 0; 0; 0]) 24 None 2; demo_route RTN_UNICAST None 0 (Some [10; 0; 0; 1]) 2].
Lemma demo_tracker_reachable : reachable demo_tracker.
Proof. constructor. repeat (apply Forall_cons_2 || apply Forall_nil_2); unfold addr_ok; vm_compute; discriminate. Qed.

Lemma Reset_is_fold_witness :
  Reset [demo_link 1 1 [108; 111]; demo_link 2 1 [101]] [demo_addr [10; 0; 0; 5] 2] [] =
  Applies NewTracker (as_events [demo_link 1 1 [108; 111]; demo_link 2 1 [101]] [demo_addr [10; 0; 0; 5] 2] []).
Proof.
  apply (Reset_is_fold [demo_link 1 1 [108; 111]; demo_link 2 1 [101]] [demo_addr [10; 0; 0; 5] 2] []).
  refine (bool_decide_unpack _ _). vm_compute. exact I.
Defined.

(** A lifetime refresh. *)
Definition demo_refresh : event :=
  AddrEvent EventActionAdd (Addr.set_num Addr.Flags 128 (demo_addr [10; 0; 0; 5] 2)).
Lemma unreported_is_invisible_witness :
  Snapshot (Apply demo_tracker demo_refresh).1 (SnapshotSorted (T := gmap Prefix routeEntry) demo_tracker) <->
  Snapshot demo_tracker (SnapshotSorted (T := gmap Prefix routeEntry) demo_tracker).
Proof.
  apply (unreported_is_invisible demo_tracker demo_refresh).
  - apply demo_tracker_reachable.
  - vm_compute. discriminate.
  - vm_compute. reflexivity.
Defined.

Lemma demo_plain : routes_plain demo_tracker.
Proof.
  unfold routes_plain. apply map_Forall_to_list. vm_compute map_to_list.
  repeat (apply Forall_cons_2 || apply Forall_nil_2); (split; [vm_compute; discriminate|intros _; discriminate]).
Qed.
Lemma deleted_link_is_unused_witness :
  let s := SnapshotSorted (T := gmap Prefix routeEntry)
    (Apply demo_tracker (LinkEvent EventActionDel (demo_link 2 1 [101]))).1 in
  (Lookup (Some s) (Some (Addr4 [10; 0; 0; 9]))).1.2 <> 2 /\ IfName (Some s) 2 = ""%string.
Proof.
  apply (deleted_link_is_unused demo_tracker (demo_link 2 1 [101])).
  - apply demo_plain.
  - discriminate.
  - reflexivity.
  - apply Snapshot_exists.
Defined.

(** ** Ties *)

(** Two IPv6 routes for one prefix, one of them for a single source: their keys
    differ and [compareRoutes] does not see it. *)
Definition demo_prefix : bytes := [32; 1; 13; 184] ++ replicate 12 0.
Definition demo_route6 : Route.RouteInfo :=
  Route.set_num Route.Family AF_INET6 (demo_route RTN_UNICAST (Some demo_prefix) 32 None 2).
Definition demo_source_route : Route.RouteInfo :=
  Route.set_num Route.SrcLen 64 (Route.set_buf Route.Src (Some demo_prefix) (Route.set_num Route.NhID 7 demo_route6)).

Definition tied : Tracker := Reset [] [] [demo_route6; demo_source_route].
Lemma tied_values : (map_to_list (routes tied)).*2 ≡ₚ [demo_source_route; demo_route6].
Proof.
  unfold tied, Reset. cbn [routes foldl]. unfold put_route at 1. rewrite (eq_refl : tracked demo_source_route = true).
  unfold put_route. rewrite (eq_refl : tracked demo_route6 = true).
  rewrite map_to_list_insert by (rewrite lookup_insert_ne; [done|vm_compute; discriminate]).
  rewrite map_to_list_insert by done. by rewrite map_to_list_empty.
Qed.
Lemma tied_snapshot rs : rs ≡ₚ [demo_source_route; demo_route6] -> Sorted route_le rs ->
  Snapshot tied (BuildSnapshot (T := gmap Prefix routeEntry) [] rs ∅).
Proof. intros Hr Hs. exists [], rs. by rewrite tied_values. Qed.

(** The order of two routes for one prefix is not fixed when they differ in
    their source: the same tracker has two snapshots that classify a
    destination differently. *)
Lemma source_routes_tie : exists s1 s2 : Localnet.Snapshot (gmap Prefix routeEntry),
  Snapshot tied s1 /\ Snapshot tied s2 /\
  Classify (Some s1) (Some (Addr16 demo_prefix)) = LocalityRemote /\
  Classify (Some s2) (Some (Addr16 demo_prefix)) = LocalitySubnet.
Proof.
  exists (BuildSnapshot [] [demo_route6; demo_source_route] ∅), (BuildSnapshot [] [demo_source_route; demo_route6] ∅).
  split_and!; [apply tied_snapshot|apply tied_snapshot|reflexivity|reflexivity].
  - constructor.
  - repeat constructor; vm_compute; discriminate.
  - done.
  - repeat constructor; vm_compute; discriminate.
Qed.
