(* ===== verification/Locality.v ===== *)
(** The locality index (pkg/xtcp/enrich_locality.go) and its event listeners
    (pkg/xtcp/enrich_locality_listen.go): one slot per network namespace,
    published to by the reconciler's Refresh and by the namespace's listener.

    A slot is shared: the index maps an inode to it, and a listener and its
    debounce timers keep it after the map has dropped it. Slots therefore live
    in a store and are named by their location. *)

From stdpp Require Import countable sorting.
From S2P Require Import Prelude NlHeaders FlatRecord Enrich RtAttr RtParsers LinkStats Bond Links Rules Events.
From S2P Require Import Localnet LocalnetSpec Tracker TrackerSpec.

(** ** The retry backoff: nanoseconds *)

Definition Second : Z := 1000000000.
Definition Minute : Z := 60 * Second.
Definition localityRetryMinCst : Z := 30 * Second.
Definition localityRetryMaxCst : Z := 5 * Minute.
Definition localityNewNsPerPassCst : Z := 32.
Definition localityDumpRetriesCst : Z := 3.

Record localityRetryState := mkRetry { nextRetry : Z; backoff : Z }.

Definition nextLocalityRetry (prev : localityRetryState) (retrying : bool) (now : Z) (hard : bool)
    : localityRetryState :=
  let b :=
    if negb retrying && negb hard then 0
    else if negb retrying || bool_decide (backoff prev = 0) then localityRetryMinCst
    else let b := backoff prev * 2 in if decide (localityRetryMaxCst < b) then localityRetryMaxCst else b in
  mkRetry (now + b) b.

(** ** Slots *)

Section Locality.
Context {T : Type} `{PrefixTable T}.
Notation Snap := (Localnet.Snapshot T).

Record localitySlot := mkSlot {
  snap : option Snap; live : bool; tracker : option Tracker; pending : bool }.
Definition emptySlot : localitySlot := mkSlot None false None false.

Definition publishDump (s : Snap) (sl : localitySlot) : localitySlot :=
  if live sl then sl else mkSlot (Some s) (live sl) (tracker sl) (pending sl).

(** [rebuild]: [s] is the snapshot [slot.tracker.Snapshot()] returned. *)
Definition rebuild (s : Snap) (sl : localitySlot) : localitySlot :=
  mkSlot (Some s) (live sl) (tracker sl) false.

(** The listener's Snapshot: the fold is reset, published, and the slot live. *)
Definition listenerSnapshot (ls : list Link.LinkInfo) (ads : list Addr.AddrInfo) (rs : list Route.RouteInfo)
    (s : Snap) (sl : localitySlot) : localitySlot :=
  let sl := mkSlot (snap sl) (live sl) (Some (Reset ls ads rs)) (pending sl) in
  let sl := rebuild s sl in
  mkSlot (snap sl) true (tracker sl) (pending sl).

(** The listener's Event, and whether it set a debounce timer. *)
Definition listenerEvent (ev : event) (sl : localitySlot) : localitySlot * bool :=
  match tracker sl with
  | None => (sl, false)
  | Some t =>
      let '(t, changed) := Apply t ev in
      let sl := mkSlot (snap sl) (live sl) (Some t) (pending sl) in
      if negb changed || pending sl then (sl, false)
      else (mkSlot (snap sl) (live sl) (tracker sl) true, true)
  end.

Definition flush (s : Snap) (sl : localitySlot) : localitySlot :=
  if live sl && pending sl then rebuild s sl else sl.

Definition release (sl : localitySlot) : localitySlot := mkSlot (snap sl) false None false.

(** ** The index *)

Record localityIndex := mkIndex {
  store : gmap nat localitySlot; byInode : option (gmap Z nat);
  lastRefresh : option Z; retry : gmap Z localityRetryState }.
Definition newLocalityIndex : localityIndex := mkIndex ∅ None None ∅.

Definition slots (l : localityIndex) : gmap Z nat := default ∅ (byInode l).
Definition Active (l : localityIndex) : bool := bool_decide (is_Some (byInode l)).

(** [&localitySlot{}] *)
Definition new_slot (st : gmap nat localitySlot) : gmap nat localitySlot * nat :=
  let p := fresh (dom st) in (<[p := emptySlot]> st, p).

(** The loop of syncSlots, over the namespaces in the order [ns]. *)
Fixpoint sync_loop (cur : gmap Z nat) (ns : list Z) (st : gmap nat localitySlot) (m : gmap Z nat)
    : gmap nat localitySlot * gmap Z nat :=
  match ns with
  | [] => (st, m)
  | inode :: ns =>
      match cur !! inode with
      | Some p => sync_loop cur ns st (<[inode := p]> m)
      | None => let '(st, p) := new_slot st in sync_loop cur ns st (<[inode := p]> m)
      end
  end.
Definition syncSlots (ns : list Z) (l : localityIndex) : localityIndex :=
  let '(st, m) := sync_loop (slots l) ns (store l) ∅ in
  mkIndex st (Some m) (lastRefresh l) (retry l).

Definition slotFor (inode : Z) (l : localityIndex) : localityIndex * nat :=
  match slots l !! inode with
  | Some p => (l, p)
  | None => let '(st, p) := new_slot (store l) in
      (mkIndex st (Some (<[inode := p]> (slots l))) (lastRefresh l) (retry l), p)
  end.

Definition with_slot (p : nat) (f : localitySlot -> localitySlot) (l : localityIndex) : localityIndex :=
  mkIndex (alter f p (store l)) (byInode l) (lastRefresh l) (retry l).
Definition set_retry (r : gmap Z localityRetryState) (l : localityIndex) : localityIndex :=
  mkIndex (store l) (byInode l) (lastRefresh l) r.

Definition LocalityResolve (l : localityIndex) (inode : Z) (dst : option Addr) (boundIfindex : Z)
    : option Resolution :=
  p ← slots l !! inode;
  sl ← store l !! p;
  s ← snap sl;
  Some (SnapshotResolve (Some s) dst boundIfindex).

(** ** Refresh *)

(** What one pass keeps in its local variables: the namespaces still to visit,
    whether it is a full pass, its clock, the dumps it may still start (none
    for an uncapped pass), its slot map, and the namespace being dumped. *)
Record pass := mkPass {
  todo : list Z; full : bool; start : Z; budget : option Z; pass_slots : gmap Z nat; dumping : option Z }.

Definition is_full (interval now : Z) (l : localityIndex) : bool :=
  match lastRefresh l with
  | None => true
  | Some t => bool_decide (0 < interval) && bool_decide (interval <= now - t)
  end.

Definition beginRefresh (interval now : Z) (order : list Z) (l : localityIndex) : localityIndex * pass :=
  let f := is_full interval now l in
  let l := syncSlots order l in
  (l, mkPass order f now (if f then None else Some localityNewNsPerPassCst) (slots l) None).

(** What the loop body decides for a namespace before dumping. *)
Inductive decision := SkipLive | Reuse | Defer | Dump.
#[local] Instance decision_eq : EqDecision decision. Proof. solve_decision. Defined.

Definition decide_ns (l : localityIndex) (p : pass) (inode : Z) : option decision :=
  q ← pass_slots p !! inode;
  sl ← store l !! q;
  Some (
    if live sl then SkipLive else
    let had := bool_decide (is_Some (snap sl)) in
    let need := match retry l !! inode with
      | Some r => negb (bool_decide (start p < nextRetry r))
      | None => full p || negb had end in
    if negb need then Reuse else
    if decide (budget p = Some 0) then Defer else Dump).

(** The dump's outcome: [Some s] for a snapshot, [None] for a failure. *)
Definition finishDump (outcome : option Snap) (inode : Z) (p : pass) (l : localityIndex) : localityIndex :=
  let prev := retry l !! inode in
  let next hard := <[inode := nextLocalityRetry (default (mkRetry 0 0) prev) (bool_decide (is_Some prev))
                                (start p) hard]> (retry l) in
  match outcome, pass_slots p !! inode with
  | Some s, Some q =>
      let l' := with_slot q (publishDump s) l in
      if negb (HasNonLoopbackSelf (Some s)) then set_retry (next false) l'
      else set_retry (delete inode (retry l)) l'
  | _, _ => set_retry (next true) l
  end.

Definition visit (d : decision) (rest : list Z) (inode : Z) (p : pass) : pass :=
  match d with
  | Dump => mkPass rest (full p) (start p) (Z.pred <$> budget p) (pass_slots p) (Some inode)
  | _ => mkPass rest (full p) (start p) (budget p) (pass_slots p) None
  end.
Definition dumped (p : pass) : pass := mkPass (todo p) (full p) (start p) (budget p) (pass_slots p) None.

Definition endRefresh (p : pass) (l : localityIndex) : localityIndex :=
  mkIndex (store l) (byInode l) (if full p then Some (start p) else lastRefresh l)
    (filter (fun kr => is_Some (pass_slots p !! kr.1)) (retry l)).

(** One whole pass with nothing in between; [dump] is what each namespace's
    discovery returns. The result also lists the namespaces dumped. *)
Fixpoint refresh_loop (dump : Z -> option Snap) (ns : list Z) (p : pass) (l : localityIndex)
    : option (localityIndex * list Z) :=
  match ns with
  | [] => Some (endRefresh p l, [])
  | inode :: ns =>
      d ← decide_ns l p inode;
      let p := visit d ns inode p in
      if decide (d = Dump) then
        '(l, ds) ← refresh_loop dump ns (dumped p) (finishDump (dump inode) inode p l);
        Some (l, inode :: ds)
      else refresh_loop dump ns p l
  end.
Definition Refresh (dump : Z -> option Snap) (interval now : Z) (order : list Z) (l : localityIndex)
    : option (localityIndex * list Z) :=
  let '(l, p) := beginRefresh interval now order l in refresh_loop dump order p l.

(** ** The running system *)

(** The index, the pass in progress, the slots listeners hold and the debounce
    timers set for a slot. *)
Record system := mkSystem {
  index : localityIndex; refreshing : option pass; listeners : list nat; timers : list nat }.
Definition boot : system := mkSystem newLocalityIndex None [] [].

Inductive step : system -> system -> Prop :=
  | step_begin l ls ts interval now order l' p :
      NoDup order -> beginRefresh interval now order l = (l', p) ->
      step (mkSystem l None ls ts) (mkSystem l' (Some p) ls ts)
  | step_visit l ls ts p inode rest d :
      dumping p = None -> todo p = inode :: rest -> decide_ns l p inode = Some d ->
      step (mkSystem l (Some p) ls ts) (mkSystem l (Some (visit d rest inode p)) ls ts)
  | step_dumped l ls ts p inode outcome :
      dumping p = Some inode ->
      step (mkSystem l (Some p) ls ts) (mkSystem (finishDump outcome inode p l) (Some (dumped p)) ls ts)
  | step_end l ls ts p :
      dumping p = None -> todo p = [] ->
      step (mkSystem l (Some p) ls ts) (mkSystem (endRefresh p l) None ls ts)
  | step_listen l rf ls ts inode l' q :
      slotFor inode l = (l', q) ->
      step (mkSystem l rf ls ts) (mkSystem l' rf (q :: ls) ts)
  | step_snapshot l rf ls ts q li ai ri s :
      q ∈ ls -> Forall (fun a => event_ok (AddrEvent EventActionAdd a)) ai -> Tracker.Snapshot (Reset li ai ri) s ->
      step (mkSystem l rf ls ts) (mkSystem (with_slot q (listenerSnapshot li ai ri s) l) rf ls ts)
  | step_event l rf ls ts q sl ev sl' timer :
      q ∈ ls -> store l !! q = Some sl -> event_ok ev -> listenerEvent ev sl = (sl', timer) ->
      step (mkSystem l rf ls ts)
           (mkSystem (with_slot q (fun _ => sl') l) rf ls (if timer then q :: ts else ts))
  | step_flush l rf ls ts1 ts2 q sl s :
      store l !! q = Some sl -> (forall t, tracker sl = Some t -> Tracker.Snapshot t s) ->
      step (mkSystem l rf ls (ts1 ++ q :: ts2)) (mkSystem (with_slot q (flush s) l) rf ls (ts1 ++ ts2))
  | step_release l rf ls1 ls2 ts q :
      step (mkSystem l rf (ls1 ++ q :: ls2) ts) (mkSystem (with_slot q release l) rf (ls1 ++ q :: ls2) ts)
  | step_leave l rf ls1 ls2 ts q :
      step (mkSystem l rf (ls1 ++ q :: ls2) ts) (mkSystem (with_slot q release l) rf (ls1 ++ ls2) ts).

Inductive steps : system -> system -> Prop :=
  | steps_refl s : steps s s
  | steps_step s1 s2 s3 : steps s1 s2 -> step s2 s3 -> steps s1 s3.
End Locality.
