(* ===== verification/LocalitySpec.v ===== *)
(** The locality index: the retry schedule, what one Refresh pass does, and
    that a live listener's slot stays true to its fold under every
    interleaving of the pass, the listeners and their timers. *)

From stdpp Require Import countable sorting.
From S2P Require Import Prelude NlHeaders FlatRecord Enrich RtAttr RtParsers LinkStats Bond Links Rules Events.
From S2P Require Import Localnet LocalnetSpec Tracker TrackerSpec Locality.

(** ** The retry schedule *)

(** The state after unsuccessful dumps at the given times, the first of them a
    failure or a loopback-only snapshot. *)
Definition retry_after (hards : list (Z * bool)) (now : Z) (hard : bool) : localityRetryState :=
  foldl (fun r nh => nextLocalityRetry r true nh.1 nh.2) (nextLocalityRetry (mkRetry 0 0) false now hard) hards.
Definition capped (n : nat) : Z := Z.min (localityRetryMinCst * 2 ^ Z.of_nat n) localityRetryMaxCst.

Lemma next_of_capped r n now hard : backoff r = capped n ->
  backoff (nextLocalityRetry r true now hard) = capped (S n).
Proof.
  intros Hr. unfold nextLocalityRetry. cbn [negb andb orb backoff]. rewrite bool_decide_false.
  - rewrite Hr. unfold capped, localityRetryMinCst, localityRetryMaxCst, Minute, Second.
    rewrite Nat2Z.inj_succ, Z.pow_succ_r by lia. pose proof (Z.pow_pos_nonneg 2 (Z.of_nat n)).
    case_decide; lia.
  - rewrite Hr. unfold capped, localityRetryMinCst, localityRetryMaxCst, Minute, Second.
    pose proof (Z.pow_pos_nonneg 2 (Z.of_nat n)). lia.
Qed.
Lemma after_capped hards r n : backoff r = capped n ->
  backoff (foldl (fun r nh => nextLocalityRetry r true nh.1 nh.2) r hards) = capped (n + length hards).
Proof.
  revert r n. induction hards as [|h hards IH]; intros r n Hr; cbn [foldl length]; [by rewrite Nat.add_0_r|].
  rewrite (IH _ (S n)) by by apply next_of_capped. by rewrite Nat.add_succ_r.
Qed.

(** The wait after a namespace's unsuccessful dumps doubles from 30 s and
    never exceeds 5 min; a namespace first seen with only loopback waits for
    nothing once and then follows the same schedule, and the next dump is due
    that long after the last one. *)
Theorem retry_schedule hards now hard :
  backoff (retry_after hards now hard) =
    (if hard then capped (length hards) else match hards with [] => 0 | _ :: hs => capped (length hs) end) /\
  0 <= backoff (retry_after hards now hard) <= localityRetryMaxCst /\
  nextRetry (retry_after hards now hard) = (default now (fst <$> last hards)) + backoff (retry_after hards now hard).
Proof.
  assert (backoff (retry_after hards now hard) =
    if hard then capped (length hards) else match hards with [] => 0 | _ :: hs => capped (length hs) end) as Hb.
  { unfold retry_after. destruct hard; [by apply (after_capped _ _ 0)|]. destruct hards as [|h hs]; [done|].
    cbn [foldl]. by apply (after_capped _ _ 0). }
  split_and!; [done|..].
  - assert (forall n, 0 <= capped n) as Hc.
    { intros n. unfold capped, localityRetryMinCst, localityRetryMaxCst, Minute, Second.
      pose proof (Z.pow_nonneg 2 (Z.of_nat n)). lia. }
    rewrite Hb. destruct hard; [apply Hc|]. destruct hards; [lia|apply Hc].
  - rewrite Hb. assert (forall n, capped n <= localityRetryMaxCst) as Hc by (intros n; unfold capped; lia).
    destruct hard; [apply Hc|]. destruct hards; [unfold localityRetryMaxCst, Minute, Second; lia|apply Hc].
  - unfold retry_after. destruct hards as [|h hs _] using rev_ind; [done|]. by rewrite foldl_snoc, last_snoc.
Qed.

(** ** Slots of the store *)

Section Spec.
Context {T : Type} `{HT : PrefixTable T}.
Notation Snap := (Localnet.Snapshot T).

(** Every slot the index names is in the store, and no two namespaces share
    one. *)
Definition wf_map (st : gmap nat (localitySlot (T := T))) (m : gmap Z nat) : Prop :=
  (forall i q, m !! i = Some q -> is_Some (st !! q)) /\ (forall i j q, m !! i = Some q -> m !! j = Some q -> i = j).
Definition wf_index (l : localityIndex) : Prop := wf_map (store l) (slots l).

Lemma new_slot_fresh st st' q : new_slot (T := T) st = (st', q) -> st !! q = None /\ st' = <[q := emptySlot]> st.
Proof.
  unfold new_slot. intros [= <- <-]. split; [|done]. apply not_elem_of_dom, is_fresh.
Qed.

(** What the loop of syncSlots adds to the store is empty slots. *)
Definition grows (st st' : gmap nat (localitySlot (T := T))) : Prop :=
  st ⊆ st' /\ forall q, st !! q = None -> is_Some (st' !! q) -> st' !! q = Some emptySlot.
Lemma grows_refl st : grows st st.
Proof. split; [done|]. intros q Hq [x Hx]. congruence. Qed.
Lemma grows_new st q : st !! q = None -> grows st (<[q := emptySlot]> st).
Proof.
  intros Hq. split; [by apply insert_subseteq|]. intros q' Hq' Hs. destruct (decide (q = q')) as [->|Hn].
  - by rewrite lookup_insert_eq.
  - rewrite lookup_insert_ne in Hs |- * by done. destruct Hs as [x Hx]. congruence.
Qed.
Lemma grows_trans s1 s2 s3 : grows s1 s2 -> grows s2 s3 -> grows s1 s3.
Proof.
  intros [H1 H1'] [H2 H2']. split; [by etrans|]. intros q Hq Hs. destruct (s2 !! q) as [x|] eqn:E.
  - eapply lookup_weaken; [|exact H2]. apply H1'; [done|]. by exists x.
  - by apply H2'.
Qed.

Lemma wf_map_mono st st' m : st ⊆ st' -> wf_map st m -> wf_map st' m.
Proof. intros Hs [H1 H2]. split; [|exact H2]. intros i q Hi. destruct (H1 i q Hi) as [x Hx]. exists x. eapply lookup_weaken; [exact Hx|exact Hs]. Qed.
Lemma wf_map_insert st m i q : wf_map st m -> is_Some (st !! q) -> (forall j, m !! j = Some q -> j = i) ->
  wf_map st (<[i := q]> m).
Proof.
  intros [H1 H2] Hq Hi. split.
  - intros j q' Hj. apply lookup_insert_Some in Hj as [[<- <-]|[_ Hj]]; [done|by eapply H1].
  - intros j k q' Hj Hk. apply lookup_insert_Some in Hj as [[<- <-]|[Hn Hj]], Hk as [[<- ?]|[Hn' Hk]]; subst; try done.
    + symmetry. by apply Hi.
    + by apply Hi.
    + by eapply H2.
Qed.

Definition disjoint_names (cur m : gmap Z nat) : Prop := forall i j q, cur !! i = Some q -> m !! j = Some q -> i = j.
(** What the loop has done when it returns. *)
Record synced (cur : gmap Z nat) (ns : list Z) (st : gmap nat (localitySlot (T := T))) (m : gmap Z nat) st' (m' : gmap Z nat) : Prop := {
  sy_grows : grows st st';
  sy_wf : wf_map st' m';
  sy_keeps i q : m !! i = Some q -> i ∉ ns -> m' !! i = Some q;
  sy_dom i : i ∉ ns -> m !! i = None -> m' !! i = None;
  sy_old i q : i ∈ ns -> cur !! i = Some q -> m' !! i = Some q;
  sy_new i : i ∈ ns -> cur !! i = None -> exists q, m' !! i = Some q /\ st !! q = None /\ st' !! q = Some emptySlot }.

Lemma sync_loop_spec cur ns st m st' m' :
  sync_loop cur ns st m = (st', m') -> NoDup ns -> wf_map st cur -> wf_map st m -> disjoint_names cur m ->
  synced cur ns st m st' m'.
Proof.
  revert st m. induction ns as [|i ns IH]; intros st m H Hd Hc Hm Hx; cbn [sync_loop] in H.
  { injection H as <- <-. split; try done; [apply grows_refl|set_solver..]. }
  apply NoDup_cons in Hd as [Hi Hd]. destruct (cur !! i) as [q|] eqn:Ec.
  - destruct (IH _ _ H Hd Hc) as [G W K D O N].
    + apply wf_map_insert; [done|by eapply Hc|]. intros j Hj. symmetry. by eapply Hx.
    + intros j k q' Hj Hk. apply lookup_insert_Some in Hk as [[<- <-]|[_ Hk]]; [by eapply Hc|by eapply Hx].
    + split; [done|done|..].
      * intros j q' Hj Hn. apply K; [|set_solver]. rewrite lookup_insert_ne by set_solver. done.
      * intros j Hn Hj. apply D; [set_solver|]. rewrite lookup_insert_ne by set_solver. done.
      * intros j q' Hj Hq'. destruct (decide (j = i)) as [->|]; [|apply O; set_solver].
        apply K; [|done]. rewrite lookup_insert_eq. congruence.
      * intros j Hj Hn. apply N; [set_solver|done].
  - destruct (new_slot st) as [st1 q] eqn:En. apply new_slot_fresh in En as [Hq ->].
    assert (st ⊆ <[q := emptySlot]> st) as Hs by by apply insert_subseteq.
    assert (forall m0 j, wf_map st m0 -> m0 !! j <> Some q) as Hf by (intros m0 j [H0 _] Hj; destruct (H0 _ _ Hj); congruence).
    destruct (IH _ _ H Hd) as [G W K D O N].
    + by eapply wf_map_mono.
    + apply wf_map_insert; [by eapply wf_map_mono|by rewrite lookup_insert_eq|]. intros j Hj. by apply Hf in Hj.
    + intros j k q' Hj Hk. apply lookup_insert_Some in Hk as [[<- <-]|[_ Hk]]; [by apply Hf in Hj|by eapply Hx].
    + split; [by eapply grows_trans; [apply grows_new|]|done|..].
      * intros j q' Hj Hn. apply K; [|set_solver]. rewrite lookup_insert_ne by set_solver. done.
      * intros j Hn Hj. apply D; [set_solver|]. rewrite lookup_insert_ne by set_solver. done.
      * intros j q' Hj Hq'. apply O; [set_solver|done].
      * intros j Hj Hn. destruct (decide (j = i)) as [->|].
        { exists q. split; [apply K; [by rewrite lookup_insert_eq|done]|]. split; [done|].
          eapply lookup_weaken; [|apply G]. by rewrite lookup_insert_eq. }
        destruct (N j) as (q' & ? & Hq' & ?); [set_solver|done|]. exists q'. split_and!; [done| |done].
        destruct (decide (q = q')) as [->|]; [by rewrite lookup_insert_eq in Hq'|by rewrite lookup_insert_ne in Hq'].
Qed.

(** ** One pass *)

Definition slot_of (l : localityIndex (T := T)) (i : Z) : option localitySlot := q ← slots l !! i; store l !! q.
Definition slot_before (l : localityIndex) (i : Z) : localitySlot := default emptySlot (slot_of l i).
(** Whether a pass may dump a namespace: no listener has it, and its retry
    window has opened or, without one, it is due. *)
Definition due (sl : localitySlot (T := T)) (r : option localityRetryState) (f : bool) (now : Z) : bool :=
  negb (live sl) && match r with
    | Some r => negb (bool_decide (now < nextRetry r))
    | None => f || negb (bool_decide (is_Some (snap sl))) end.
Definition after_dump (o : option Snap) (sl : localitySlot) : localitySlot :=
  match o with Some s => publishDump s sl | None => sl end.
Definition retry_outcome (o : option Snap) (prev : option localityRetryState) (now : Z) : option localityRetryState :=
  let next hard := Some (nextLocalityRetry (default (mkRetry 0 0) prev) (bool_decide (is_Some prev)) now hard) in
  match o with
  | Some s => if HasNonLoopbackSelf (Some s) then None else next false
  | None => next true
  end.

Lemma sync_wf order l : NoDup order -> wf_index l -> wf_index (syncSlots order l) /\
  (forall i, slot_of (syncSlots order l) i = if decide (i ∈ order) then Some (slot_before l i) else None) /\
  (forall i, i ∉ order -> slots (syncSlots order l) !! i = None) /\
  grows (store l) (store (syncSlots order l)).
Proof.
  intros Hd Hw. unfold syncSlots. destruct (sync_loop _ _ _ _) as [st' m'] eqn:E.
  apply sync_loop_spec in E as [G W K D O N]; [|done|done|by split; intros; rewrite lookup_empty in *|by intros ???; rewrite lookup_empty].
  split_and!; [exact W| |intros i Hi; by apply D|exact G].
  intros i. change (slot_of (mkIndex st' (Some m') (lastRefresh l) (retry l)) i) with (m' !! i ≫= (st' !!.)).
  unfold slot_before. case_decide as Hi; [|by rewrite D].
  destruct (slots l !! i) as [q|] eqn:Ei.
  - rewrite (O i q Hi Ei). cbn. unfold slot_of. rewrite Ei. cbn. destruct (proj1 Hw i q Ei) as [x Hx]. rewrite Hx. cbn.
    eapply lookup_weaken; [exact Hx|apply G].
  - destruct (N i Hi Ei) as (q & -> & _ & Hq). cbn. unfold slot_of. by rewrite Ei.
Qed.

Lemma decide_ns_eq l p i sl : pass_slots p = slots l -> slot_of l i = Some sl ->
  decide_ns l p i = Some (if live sl then SkipLive else
    if due sl (retry l !! i) (full p) (start p) then (if decide (budget p = Some 0) then Defer else Dump) else Reuse).
Proof.
  intros Hp Hs. unfold decide_ns. rewrite Hp. unfold slot_of in Hs. apply bind_Some in Hs as (q & -> & Hq).
  cbn [mbind option_bind]. rewrite Hq. cbn [mbind option_bind]. unfold due. destruct (live sl); [done|].
  cbn [negb andb]. destruct (retry l !! i) as [r|]; [by destruct (bool_decide (start p < nextRetry r))|].
  by destruct (full p || _).
Qed.

Lemma finishDump_spec o i p l sl : pass_slots p = slots l -> wf_index l -> slot_of l i = Some sl ->
  let l' := finishDump o i p l in
  wf_index l' /\ slots l' = slots l /\ lastRefresh l' = lastRefresh l /\
  (forall j, slot_of l' j = if decide (j = i) then Some (after_dump o sl) else slot_of l j) /\
  (forall j, retry l' !! j = if decide (j = i) then retry_outcome o (retry l !! i) (start p) else retry l !! j).
Proof.
  intros Hp Hw Hs. cbv zeta. pose proof Hs as Hs'. unfold slot_of in Hs'. apply bind_Some in Hs' as (q & Hq & Hst).
  unfold finishDump. rewrite Hp, Hq.
  assert (forall s, wf_index (with_slot q (publishDump s) l) /\
    forall j, slot_of (with_slot q (publishDump s) l) j = if decide (j = i) then Some (publishDump s sl) else slot_of l j) as Hpub.
  { intros s. split.
    - destruct Hw as [H1 H2]. split; [|exact H2]. intros j q' Hj. destruct (H1 j q' Hj) as [x Hx]. cbn [with_slot store].
      destruct (decide (q = q')) as [<-|Hn]; [rewrite lookup_alter_eq, Hx|rewrite lookup_alter_ne, Hx by done]; by eexists.
    - intros j. unfold slot_of. change (slots (with_slot q (publishDump s) l)) with (slots l). cbn [with_slot store].
      case_decide as Hj; [subst j; rewrite Hq; cbn; rewrite lookup_alter_eq, Hst; done|].
      destruct (slots l !! j) as [q'|] eqn:Ej; [|done]. cbn. apply lookup_alter_ne. intros <-. apply Hj. by eapply Hw. }
  assert (forall v j, <[i := v]> (retry l) !! j = if decide (j = i) then Some v else retry l !! j) as Hins.
  { intros v j. case_decide; [subst; by rewrite lookup_insert_eq|by rewrite lookup_insert_ne]. }
  destruct o as [s|]; cbn [after_dump retry_outcome].
  - destruct (Hpub s) as [Hw' Hs'].
    destruct (HasNonLoopbackSelf (Some s)); cbn [negb]; (split_and!; [exact Hw'|done|done|exact Hs'|]); [|exact (Hins _)].
    intros j. cbn [set_retry Locality.retry]. case_decide; [subst; by rewrite lookup_delete_eq|by rewrite lookup_delete_ne].
  - split_and!; [exact Hw|done|done| |exact (Hins _)]. intros j. unfold slot_of in *. cbn [set_retry store].
    change (slots (set_retry _ l)) with (slots l). case_decide; [subst; by rewrite Hq|done].
Qed.

(** The namespaces a pass dumps, in the order it visits them. *)
Definition within (b : option Z) (l : list Z) : list Z := match b with Some n => take (Z.to_nat n) l | None => l end.
Definition due_in (l : localityIndex) (f : bool) (now : Z) (i : Z) : Prop :=
  due (slot_before l i) (retry l !! i) f now = true.
#[export] Instance due_in_dec l f now i : Decision (due_in l f now i).
Proof. unfold due_in. apply _. Defined.

Lemma filter_in_ext (P Q : Z -> Prop) `{!forall x, Decision (P x), !forall x, Decision (Q x)} (l : list Z) :
  (forall x, x ∈ l -> P x <-> Q x) -> filter P l = filter Q l.
Proof.
  induction l as [|x l IH]; intros Hpq; [done|]. rewrite !filter_cons.
  destruct (decide (P x)) as [Hx|Hx], (decide (Q x)) as [Hx'|Hx'].
  - f_equal. apply IH. intros. apply Hpq. by right.
  - exfalso. apply Hx', Hpq; [by left|done].
  - exfalso. apply Hx, Hpq; [by left|done].
  - apply IH. intros. apply Hpq. by right.
Qed.

Lemma endRefresh_retry p (l : localityIndex (T := T)) j : pass_slots p = slots l ->
  retry (endRefresh p l) !! j = if decide (is_Some (slots l !! j)) then retry l !! j else None.
Proof.
  intros Hp. unfold endRefresh. cbn [Locality.retry]. rewrite Hp, map_lookup_filter.
  destruct (retry l !! j) as [r|]; cbn [mbind option_bind fst]; [|by case_decide].
  destruct (decide (is_Some (slots l !! j))); [by rewrite option_guard_True|by rewrite option_guard_False].
Qed.

(** What a pass over [ns] from [l] leaves. *)
Record passed (dump : Z -> option Snap) (p : pass) (l : localityIndex) (ds : list Z) (l' : localityIndex (T := T)) : Prop := {
  pd_wf : wf_index l';
  pd_slots : slots l' = slots l;
  pd_slot j : slot_of l' j = if decide (j ∈ ds) then Some (after_dump (dump j) (slot_before l j)) else slot_of l j;
  pd_retry j : retry l' !! j = if decide (is_Some (slots l !! j)) then
      (if decide (j ∈ ds) then retry_outcome (dump j) (retry l !! j) (start p) else retry l !! j) else None;
  pd_last : lastRefresh l' = if full p then Some (start p) else lastRefresh l }.

Lemma passed_dump dump p q i (l l1 : localityIndex (T := T)) ds l' sl : pass_slots p = slots l -> wf_index l -> slot_of l i = Some sl ->
  l1 = finishDump (dump i) i p l -> start q = start p -> full q = full p -> i ∉ ds ->
  passed dump q l1 ds l' -> passed dump p l (i :: ds) l'.
Proof.
  intros Hp Hw Hs -> Hst Hfu Hi [P1 P2 P3 P4 P5].
  destruct (finishDump_spec (dump i) i p l sl Hp Hw Hs) as (Hw1 & Hs1 & Hl1 & Hslot & Hretry).
  split; [done|congruence|..].
  - intros j. rewrite P3, Hslot. destruct (decide (j = i)) as [->|Hn].
    + rewrite decide_False, decide_True by (done || by left). unfold slot_before. by rewrite Hs.
    + unfold slot_before. rewrite Hslot, (decide_False (P := j = i)) by done.
      by destruct (decide (j ∈ ds)); [rewrite decide_True by (by right)|rewrite decide_False by set_solver].
  - intros j. rewrite P4, Hs1, Hst. case_decide as Hj; [|done]. rewrite !Hretry. destruct (decide (j = i)) as [->|Hn].
    + by rewrite decide_False, decide_True by (done || by left).
    + by destruct (decide (j ∈ ds)); [rewrite decide_True by (by right)|rewrite decide_False by set_solver].
  - by rewrite P5, Hl1, Hst, Hfu.
Qed.
Lemma passed_visit dump d ns i p l ds l' : passed dump (visit d ns i p) l ds l' -> passed dump p l ds l'.
Proof. by destruct d; intros []; split. Qed.
Lemma within_cons b i l : match b with Some n => 0 <= n | None => True end -> b <> Some 0 ->
  within b (i :: l) = i :: within (Z.pred <$> b) l.
Proof.
  destruct b as [n|]; [|done]. intros Hn Hb. assert (n <> 0) by congruence. cbn.
  by replace (Z.to_nat n) with (S (Z.to_nat (Z.pred n))) by lia.
Qed.
Lemma within_subset b l i : i ∈ within b l -> i ∈ l.
Proof. destruct b as [n|]; [|done]. cbn. intros H. by eapply elem_of_take in H as (? & H & _); apply list_elem_of_lookup_2 in H. Qed.

Lemma refresh_loop_spec dump ns p (l : localityIndex (T := T)) :
  pass_slots p = slots l -> wf_index l -> NoDup ns -> (forall i, i ∈ ns -> is_Some (slot_of l i)) ->
  match budget p with Some n => 0 <= n | None => True end ->
  let ds := within (budget p) (filter (due_in l (full p) (start p)) ns) in
  exists l', refresh_loop dump ns p l = Some (l', ds) /\ passed dump p l ds l'.
Proof.
  revert p l. induction ns as [|i ns IH]; intros p l Hp Hw Hd Hin Hb; cbn [refresh_loop]; cbv zeta.
  - exists (endRefresh p l). rewrite filter_nil.
    assert (within (budget p) [] = []) as -> by (destruct (budget p); [apply take_nil|done]).
    split; [done|]. split; [exact Hw|done|intros j; by rewrite decide_False by set_solver| |done].
    intros j. rewrite endRefresh_retry by done. case_decide; [|done]. by rewrite decide_False by set_solver.
  - apply NoDup_cons in Hd as [Hi Hd]. destruct (Hin i) as [sl Hs]; [by left|].
    assert (forall j, j ∈ ns -> is_Some (slot_of l j)) as Hin' by (intros; apply Hin; by right).
    rewrite (decide_ns_eq l p i sl Hp Hs). cbn [mbind option_bind]. rewrite filter_cons.
    assert (due_in l (full p) (start p) i <-> due sl (retry l !! i) (full p) (start p) = true) as Hdue
      by (unfold due_in, slot_before; by rewrite Hs).
    destruct (due sl (retry l !! i) (full p) (start p)) eqn:Ed.
    + rewrite (decide_True (P := due_in _ _ _ _)) by by apply Hdue.
      assert (live sl = false) as -> by (unfold due in Ed; by destruct (live sl)).
      destruct (decide (budget p = Some 0)) as [Hz|Hz].
      * rewrite decide_False by done. destruct (IH (visit Defer ns i p) l) as (l' & Hl' & Hpd); [done..|].
        apply passed_visit in Hpd. exists l'. rewrite Hl'. cbn [visit full start budget] in Hpd |- *. rewrite Hz in Hpd |- *.
        by split.
      * rewrite decide_True by done.
        destruct (finishDump_spec (dump i) i (visit Dump ns i p) l sl) as (Hw1 & Hs1 & Hl1 & Hslot & Hretry); [done..|].
        set (l1 := finishDump (dump i) i (visit Dump ns i p) l) in *.
        assert (forall j, j ∈ ns -> due_in l1 (full p) (start p) j <-> due_in l (full p) (start p) j) as Hdj.
        { intros j Hj. assert (j <> i) by (intros ->; done). unfold due_in, slot_before.
          by rewrite Hslot, Hretry, !decide_False by done. }
        destruct (IH (dumped (visit Dump ns i p)) l1) as (l' & Hl' & Hpd); [cbn; congruence|done|done| | |].
        { intros j Hj. rewrite Hslot. case_decide; [by eexists|by apply Hin']. }
        { cbn. destruct (budget p) as [n|]; [cbn|done]. assert (n <> 0) by congruence. lia. }
        change (full (dumped _)) with (full p) in Hl', Hpd. change (start (dumped _)) with (start p) in Hl', Hpd.
        change (budget (dumped _)) with (Z.pred <$> budget p) in Hl', Hpd. rewrite (filter_in_ext _ _ _ Hdj) in Hl', Hpd.
        rewrite Hl'. cbn [mbind option_bind]. rewrite within_cons by done. exists l'. split; [done|].
        apply (passed_visit dump Dump ns i), (passed_dump dump (visit Dump ns i p) (dumped (visit Dump ns i p)) i l l1 _ l' sl); try done. intros Hx%within_subset. by apply list_elem_of_filter in Hx as [_ Hx].
    + rewrite (decide_False (P := due_in _ _ _ _)) by (rewrite Hdue; done).
      destruct (IH (visit (if live sl then SkipLive else Reuse) ns i p) l) as (l' & Hl' & Hpd);
        [by destruct (live sl)|done|done|done|by destruct (live sl)|].
      exists l'. destruct (live sl); (rewrite decide_False by done); (split; [done|by eapply passed_visit]).
Qed.

(** One refresh pass dumps the namespaces that are due, in the order it
    meets them - all of them on a full pass, at most 32 on any other - and never
    one a listener keeps live or one whose retry window has not opened. A
    successful dump is published, a failed one leaves the last good snapshot;
    the retry entry is cleared, or set to the schedule's next state for a failure
    and for a snapshot with nothing beyond loopback; slots and retry entries of
    namespaces that are gone are dropped, and nothing else changes. *)
Theorem Refresh_spec dump interval now order (l : localityIndex (T := T)) :
  NoDup order -> wf_index l ->
  let f := is_full interval now l in
  let ds := within (if f then None else Some localityNewNsPerPassCst) (filter (due_in l f now) order) in
  exists l', Refresh dump interval now order l = Some (l', ds) /\ wf_index l' /\
    (forall i, slot_of l' i = if decide (i ∈ order)
       then Some (after_dump (if decide (i ∈ ds) then dump i else None) (slot_before l i)) else None) /\
    (forall i, retry l' !! i = if decide (i ∈ order)
       then (if decide (i ∈ ds) then retry_outcome (dump i) (retry l !! i) now else retry l !! i) else None) /\
    lastRefresh l' = if f then Some now else lastRefresh l.
Proof.
  intros Hd Hw. cbv zeta. set (f := is_full interval now l). destruct (sync_wf order l Hd Hw) as (Hw0 & Hslot & Hno & _).
  set (l0 := syncSlots order l) in *. set (p := mkPass order f now (if f then None else Some localityNewNsPerPassCst) (slots l0) None).
  assert (retry l0 = retry l /\ lastRefresh l0 = lastRefresh l) as [Hr0 Hl0]
    by (unfold l0, syncSlots; by destruct (sync_loop _ _ _ _)).
  assert (forall i, i ∈ order -> slot_before l0 i = slot_before l i) as Hb.
  { intros i Hi. unfold slot_before at 1. by rewrite Hslot, decide_True by done. }
  destruct (refresh_loop_spec dump order p l0) as (l' & Hl' & [P1 P2 P3 P4 P5]); [done..| | |].
  { intros i Hi. rewrite Hslot, decide_True by done. by eexists. }
  { cbn. by destruct f. }
  exists l'. unfold Refresh, beginRefresh. fold f l0 p. rewrite Hl'. cbn [p budget full start] in *.
  rewrite (filter_in_ext (due_in l0 f now) (due_in l f now)) in *
    by (intros i Hi; unfold due_in; by rewrite Hb, Hr0).
  set (ds := within _ _) in *. split; [done|]. split; [done|].
  assert (forall i, i ∈ ds -> i ∈ order) as Hin by (intros i Hi%within_subset; by apply list_elem_of_filter in Hi as [_ Hi]).
  assert (forall i, is_Some (slots l0 !! i) <-> i ∈ order) as Hdom.
  { intros i. split; intros Hi; [destruct (decide (i ∈ order)); [done|]; rewrite Hno in Hi by done; by destruct Hi|].
    pose proof (Hslot i) as Hs. rewrite decide_True in Hs by done. unfold slot_of in Hs. by destruct (slots l0 !! i). }
  split_and!; intros.
  - rewrite P3. destruct (decide (i ∈ ds)) as [Hi|Hi].
    + by rewrite (decide_True (P := i ∈ order)), Hb by auto.
    + rewrite Hslot. by case_decide.
  - rewrite P4, Hr0. destruct (decide (i ∈ order)); [rewrite decide_True by (by apply Hdom)|rewrite decide_False by (by rewrite Hdom)]; done.
  - by rewrite P5, Hl0.
Qed.

(** ** Every interleaving *)

(** A slot with a fold is live and published, or has a timer that will publish
    it; one without is neither live nor pending. *)
Definition slot_ok (ts : list nat) (q : nat) (sl : localitySlot (T := T)) : Prop :=
  match tracker sl with
  | Some t => live sl = true /\ reachable t /\
      (if pending sl then q ∈ ts else exists s, snap sl = Some s /\ Tracker.Snapshot t s)
  | None => live sl = false /\ pending sl = false
  end.
Definition store_ok (ts : list nat) (l : localityIndex (T := T)) : Prop := map_Forall (slot_ok ts) (store l).
Definition pass_ok (l : localityIndex (T := T)) (p : pass) : Prop :=
  forall i, i ∈ todo p \/ dumping p = Some i -> exists q, pass_slots p !! i = Some q /\ is_Some (store l !! q).
Record system_ok (s : system (T := T)) : Prop := {
  so_store : store_ok (timers s) (index s);
  so_index : wf_index (index s);
  so_pass p : refreshing s = Some p -> pass_ok (index s) p }.

Lemma slot_ok_mono ts ts' q sl : (q ∈ ts -> q ∈ ts') -> slot_ok ts q sl -> slot_ok ts' q sl.
Proof.
  unfold slot_ok. intros Hts. destruct (tracker sl) as [t|]; [|done]. intros (? & ? & H). split_and!; [done..|].
  destruct (pending sl); [by apply Hts|done].
Qed.
Lemma empty_slot_ok ts q : slot_ok ts q emptySlot.
Proof. done. Qed.

(** A change of one slot. *)
Lemma with_slot_ok ts ts' q f l : store_ok ts l -> (forall q', q' <> q -> q' ∈ ts -> q' ∈ ts') ->
  (forall sl, store l !! q = Some sl -> slot_ok ts q sl -> slot_ok ts' q (f sl)) -> store_ok ts' (with_slot q f l).
Proof.
  intros Hs Hts Hf q' sl Hq'. cbn [with_slot store] in Hq'. destruct (decide (q' = q)) as [->|Hn].
  - rewrite lookup_alter_eq in Hq'. destruct (store l !! q) as [x|] eqn:E; [|done]. injection Hq' as <-.
    apply Hf; [done|]. by apply Hs.
  - rewrite lookup_alter_ne in Hq' by done. eapply slot_ok_mono; [by apply Hts|by apply Hs].
Qed.
Lemma with_slot_dom q f (l : localityIndex (T := T)) q' : is_Some (store l !! q') -> is_Some (store (with_slot q f l) !! q').
Proof.
  intros [x Hx]. cbn [with_slot store]. destruct (decide (q' = q)) as [->|Hn];
    [rewrite lookup_alter_eq, Hx|rewrite lookup_alter_ne, Hx by done]; by eexists.
Qed.
Lemma wf_index_with q f l : wf_index l -> wf_index (with_slot q f l).
Proof. intros [H1 H2]. split; [|exact H2]. intros i q' Hi. eapply with_slot_dom, H1, Hi. Qed.
Lemma system_with q f l rf ls ls' ts ts' : system_ok (mkSystem l rf ls ts) ->
  (forall q', q' <> q -> q' ∈ ts -> q' ∈ ts') ->
  (forall sl, store l !! q = Some sl -> slot_ok ts q sl -> slot_ok ts' q (f sl)) ->
  system_ok (mkSystem (with_slot q f l) rf ls' ts').
Proof.
  intros [Hs Hi Hp] Hts Hf. split; cbn in *; [by eapply with_slot_ok|by apply wf_index_with|].
  intros p H i Hi'. destruct (Hp p H i Hi') as (q' & Hq' & Hx). exists q'. split; [done|]. by apply with_slot_dom.
Qed.

Lemma grow_ok ts st st' bi lr r lr' r' bi' : grows st st' -> store_ok ts (mkIndex st bi lr r) -> store_ok ts (mkIndex st' bi' lr' r').
Proof.
  intros [Hsub Hnew] Hs q sl Hq. cbn in *. destruct (st !! q) as [x|] eqn:E.
  - assert (st' !! q = Some x) as H by (by eapply lookup_weaken). rewrite H in Hq. injection Hq as <-. by apply Hs.
  - rewrite Hnew in Hq by (done || by eexists). by injection Hq as <-.
Qed.

Lemma publishDump_ok ts q s sl : slot_ok ts q sl -> slot_ok ts q (publishDump s sl).
Proof.
  unfold slot_ok, publishDump. destruct (tracker sl) as [t|] eqn:Et; intros H.
  - destruct H as (Hl & H). rewrite Hl, Et. by split.
  - destruct H as [-> Hp]. by rewrite Hp.
Qed.
Lemma listenerEvent_ok ts q ev sl sl' timer : event_ok ev -> listenerEvent ev sl = (sl', timer) -> slot_ok ts q sl ->
  slot_ok (if timer then q :: ts else ts) q sl'.
Proof.
  intros He Hev. unfold listenerEvent in Hev. unfold slot_ok at 1. destruct (tracker sl) as [t|] eqn:Et;
    [|intros H; simplify_eq; unfold slot_ok; by rewrite Et].
  intros (Hl & Hr & H). destruct (Apply t ev) as [t' changed] eqn:Ea.
  assert (reachable t') as Hr' by (replace t' with (Apply t ev).1 by (by rewrite Ea); by constructor).
  destruct changed; cbn [negb orb] in Hev; [destruct (pending sl) eqn:Ep|]; simplify_eq/=;
    unfold slot_ok; cbn [tracker live pending snap]; (split_and!; [done..|]).
  - done.
  - by left.
  - destruct (pending sl); [done|]. destruct H as (s & Hsn & Hs). exists s. split; [done|].
    destruct (reachable_ok t Hr) as [Ha Hrt].
    pose proof (Apply_silent t ev Ha Hrt He) as Hv. rewrite Ea in Hv. cbn in Hv. by apply (Snapshot_view t); [symmetry; apply Hv|].
Qed.

Lemma finishDump_ok o i p l rf ls ts : system_ok (mkSystem l (Some p) ls ts) ->
  (forall p', rf = Some p' -> todo p' = todo p /\ dumping p' = None /\ pass_slots p' = pass_slots p) ->
  system_ok (mkSystem (finishDump o i p l) rf ls ts).
Proof.
  intros H Hrf.
  assert (forall l', system_ok (mkSystem l' (Some p) ls ts) -> forall r, system_ok (mkSystem (set_retry r l') rf ls ts)) as Hset.
  { intros l' [Hs Hi Hp] r. split; [exact Hs|exact Hi|]. cbn. intros p' Hp' j Hj.
    destruct (Hrf p' Hp') as (Ht & Hd & Hsl). rewrite Ht, Hd in Hj. destruct Hj as [Hj|]; [|done].
    rewrite Hsl. apply (Hp p eq_refl j). by left. }
  unfold finishDump. destruct o as [s|], (pass_slots p !! i) as [q|]; try (by apply Hset).
  assert (system_ok (mkSystem (with_slot q (publishDump s) l) (Some p) ls ts)) as Hpub.
  { eapply system_with; [exact H|done|]. intros sl _. apply publishDump_ok. }
  destruct (negb _); by apply Hset.
Qed.
Lemma grow_pass st st' bi bi' lr lr' r r' p : grows st st' -> pass_ok (mkIndex (T := T) st bi lr r) p -> pass_ok (mkIndex st' bi' lr' r') p.
Proof.
  intros [Hs _] Hp i Hi. destruct (Hp i Hi) as (q & Hq & [x Hx]). exists q. split; [done|]. exists x. cbn.
  by eapply lookup_weaken.
Qed.
Lemma begin_ok interval now order l l' p ls ts : NoDup order -> beginRefresh interval now order l = (l', p) ->
  system_ok (mkSystem l None ls ts) -> system_ok (mkSystem l' (Some p) ls ts).
Proof.
  intros Hd Hb [Hs Hi _]. unfold beginRefresh in Hb. destruct (sync_wf order l Hd Hi) as (Hw & Hsl & _ & Hg).
  injection Hb as <- <-. split; cbn.
  - destruct l as [st bi lr r], (syncSlots order _) as [st' bi' lr' r'] eqn:E. by eapply grow_ok.
  - exact Hw.
  - intros p [= <-] i [Hin|]; [|done]. cbn in Hin |- *. pose proof (Hsl i) as Hq. rewrite decide_True in Hq by done.
    unfold slot_of in Hq. apply bind_Some in Hq as (q & Hq & Hst). exists q. split; [done|by eexists].
Qed.
Lemma slotFor_ok inode l l' q rf ls ts : slotFor inode l = (l', q) ->
  system_ok (mkSystem l rf ls ts) -> system_ok (mkSystem l' rf (q :: ls) ts).
Proof.
  unfold slotFor. intros Hf [Hs Hi Hp]. destruct (slots l !! inode) as [q'|] eqn:Eq; [injection Hf as <- <-; by split|].
  destruct (new_slot (store l)) as [st q'] eqn:En. injection Hf as <- <-.
  apply new_slot_fresh in En as [Hq ->]. pose proof (grows_new _ _ Hq) as Hg. destruct l as [st bi lr r].
  split; cbn [index timers refreshing] in *; [by eapply grow_ok| |].
  - unfold wf_index, slots. cbn [byInode store default]. apply wf_map_insert.
    + eapply wf_map_mono; [apply Hg|exact Hi].
    + cbn. by rewrite lookup_insert_eq.
    + intros j Hj. destruct (proj1 Hi j _ Hj) as [x Hx]. cbn in *. congruence.
  - intros p Hrf. eapply grow_pass; [exact Hg|by apply Hp].
Qed.

Lemma step_ok s s' : step s s' -> system_ok s -> system_ok s'.
Proof.
  destruct 1 as [l ls ts interval now order l' p Hd Hb|l ls ts p i rest d Hn Ht Hdn|l ls ts p i o Hdu|l ls ts p Hdu Ht
    |l rf ls ts inode l' q Hf|l rf ls ts q li ai ri sn Hq Hai Hsn|l rf ls ts q sl ev sl' timer Hq Hst He Hev
    |l rf ls ts1 ts2 q sl sn Hst Hsn|l rf ls1 ls2 ts q|l rf ls1 ls2 ts q]; intros Hok.
  - by eapply begin_ok.
  - destruct Hok as [Hs Hi Hp]. split; [done..|]. cbn in *. intros p' [= <-] j Hj. specialize (Hp p eq_refl j).
    rewrite Ht in Hp. assert (pass_slots (visit d rest i p) = pass_slots p) as -> by by destruct d.
    apply Hp. left. destruct d; cbn in Hj; destruct Hj as [Hj|Hj]; simplify_eq; set_solver.
  - eapply finishDump_ok; [done|]. by intros p' [= <-].
  - destruct Hok as [Hs Hi _]. by split.
  - by eapply slotFor_ok.
  - eapply system_with; [exact Hok|done|]. intros sl _ _. unfold slot_ok. cbn. split_and!; [done| |by eexists].
    apply reach_Reset. exact Hai.
  - eapply system_with; [exact Hok| |].
    + intros q' Hn Hin. destruct timer; [by right|done].
    + intros sl0 H0 Hok0. rewrite Hst in H0. injection H0 as <-. by eapply listenerEvent_ok.
  - eapply system_with; [exact Hok| |].
    + intros q' Hn Hin. apply elem_of_app in Hin as [Hin|Hin]; [apply elem_of_app; by left|].
      apply elem_of_cons in Hin as [->|Hin]; [done|]. apply elem_of_app. by right.
    + intros sl0 H0 Hok0. rewrite Hst in H0. injection H0 as <-. unfold slot_ok, flush, rebuild in *.
      destruct (tracker sl) as [t|] eqn:Et; [|destruct Hok0 as [Hl Hp]; rewrite !Hl; cbn; rewrite Et; by split].
      destruct Hok0 as (Hl & Hr & Hp). rewrite Hl. destruct (pending sl) eqn:Ep; cbn; rewrite ?Et, ?Ep.
      * split_and!; [done..|]. exists sn. split; [done|]. by apply Hsn.
      * by split_and!.
  - eapply system_with; [exact Hok|done|]. by intros.
  - eapply system_with; [exact Hok|done|]. by intros.
Qed.
Lemma steps_ok s : steps boot s -> system_ok s.
Proof.
  intros H. remember boot as b eqn:Hb. assert (system_ok b) as H0.
  { rewrite Hb. split; [by intros ??|by split|done]. }
  clear Hb. induction H as [s|s1 s2 s3 H IH Hs]; [done|]. eapply step_ok; [done|]. by apply IH.
Qed.

(** A slot's published snapshot is one of its listener's fold, or a timer that
    will publish it is set. *)
Definition current (s : system (T := T)) (q : nat) (sl : localitySlot) : Prop :=
  exists t, tracker sl = Some t /\ reachable t /\
    (q ∈ timers s \/ exists sn, snap sl = Some sn /\ Tracker.Snapshot t sn).

(** C3: whatever the order of refresh passes, listener snapshots, events,
    debounce timers and listener ends, a slot with a live listener holds a
    snapshot of that listener's current fold, or else a timer is set that will
    publish it: a slow dump of the reconciler never overwrites it, and no
    reported change is forgotten. *)
Theorem live_slot_current s q sl : steps boot s -> store (index s) !! q = Some sl -> live sl = true ->
  current s q sl.
Proof.
  intros Hs Hq Hl. destruct (steps_ok s Hs) as [Hok _ _]. specialize (Hok q sl Hq). unfold slot_ok, current in *.
  destruct (tracker sl) as [t|]; [|by destruct Hok; congruence]. destruct Hok as (_ & Hr & H). exists t.
  split_and!; [done..|]. destruct (pending sl); [by left|by right].
Qed.

(** The steps a pass still has to take. *)
Definition pass_measure (p : pass) : nat := 2 * length (todo p) + (if dumping p then 1 else 0).

(** A refresh pass always has a next step, which ends it or brings it
    closer to its end: it neither panics nor waits for a listener, and the
    steps of listeners and timers do not set it back. *)
Theorem refresh_terminates s p : steps boot s -> refreshing s = Some p ->
  (exists s', step s s' /\ match refreshing s' with None => True | Some p' => (pass_measure p' < pass_measure p)%nat end) /\
  (forall s', step s s' -> match refreshing s' with None => True | Some p' => (pass_measure p' <= pass_measure p)%nat end).
Proof.
  intros Hs Hp. destruct (steps_ok s Hs) as [_ _ Hok]. specialize (Hok p Hp).
  destruct s as [l rf ls ts]. cbn in Hp, Hok. subst rf. split.
  - destruct (dumping p) as [i|] eqn:Ed.
    + exists (mkSystem (finishDump None i p l) (Some (dumped p)) ls ts). split; [by apply step_dumped|]. cbn.
      unfold pass_measure. rewrite Ed. cbn. lia.
    + destruct (todo p) as [|i rest] eqn:Et.
      * exists (mkSystem (endRefresh p l) None ls ts). split; [by apply step_end|done].
      * destruct (Hok i) as (q & Hq & [sl Hsl]); [left; rewrite Et; by left|].
        assert (exists d, decide_ns l p i = Some d) as [d Hd] by (unfold decide_ns; rewrite Hq; cbn; rewrite Hsl; by eexists).
        exists (mkSystem l (Some (visit d rest i p)) ls ts). split; [by apply step_visit|]. cbn.
        unfold pass_measure. rewrite Ed, Et. destruct d; cbn; lia.
  - inversion 1; subst; cbn [refreshing]; unfold pass_measure; try lia; try done.
    + repeat match goal with H : todo p = _ |- _ => rewrite H end. destruct d; cbn; lia.
    + cbn. destruct (dumping p); lia.
Qed.
End Spec.

(** ** Witnesses *)

Notation demo_index := (localityIndex (T := gmap Prefix routeEntry)).
(** Namespace 7 dumped fine, 8 failed to; 9 is new. *)
Definition demo_dump (i : Z) : option (Localnet.Snapshot (gmap Prefix routeEntry)) :=
  if decide (i = 8) then None else Some (SnapshotSorted demo_tracker).

Lemma Refresh_spec_witness : exists l', Refresh demo_dump 0 100 [7; 8; 9] newLocalityIndex = Some (l', [7; 8; 9]) /\
  retry l' !! 8 = Some (mkRetry (100 + localityRetryMinCst) localityRetryMinCst) /\ lastRefresh l' = Some 100.
Proof.
  assert (NoDup [7; 8; 9]) as Hd by (refine (bool_decide_unpack _ _); vm_compute; exact I).
  destruct (Refresh_spec demo_dump 0 100 [7; 8; 9] newLocalityIndex Hd) as (l' & Hl' & _ & _ & Hr & Hlast); [by split|].
  exists l'. split; [exact Hl'|]. split; [exact (Hr 8)|exact Hlast].
Defined.

Definition demo_system : system (T := gmap Prefix routeEntry) :=
  let '(l, q) := slotFor 7 newLocalityIndex in
  mkSystem (with_slot q (listenerSnapshot [] [] [] (SnapshotSorted (Reset [] [] []))) l) None [q] [].
Lemma demo_steps : steps boot demo_system.
Proof.
  eapply steps_step; [eapply steps_step; [constructor|by eapply (step_listen _ _ _ _ 7)]|].
  apply step_snapshot; [by left|constructor|apply Snapshot_exists].
Qed.
Lemma live_slot_current_witness : exists sl, store (index demo_system) !! 0%nat = Some sl /\
  current demo_system 0%nat sl.
Proof.
  eexists. split; [vm_compute; reflexivity|].
  eapply (live_slot_current demo_system 0%nat); [apply demo_steps|vm_compute; reflexivity|reflexivity].
Defined.
Definition demo_pass : localityIndex * pass := beginRefresh (T := gmap Prefix routeEntry) 0 100 [7] newLocalityIndex.
Lemma refresh_terminates_witness : exists s', step (mkSystem demo_pass.1 (Some demo_pass.2) [] []) s' /\
  match refreshing s' with None => True | Some p' => (pass_measure p' < pass_measure demo_pass.2)%nat end.
Proof.
  refine (proj1 (refresh_terminates (mkSystem demo_pass.1 (Some demo_pass.2) [] []) demo_pass.2 _ eq_refl)).
  eapply steps_step; [constructor|]. apply (step_begin _ _ _ 0 100 [7]); [|reflexivity].
  refine (bool_decide_unpack _ _). vm_compute. exact I.
Defined.
