(* ===== verification/LocalityDump.v ===== *)
(** A namespace's discovery (pkg/xtcp/enrich_locality.go, dumpRetrying and
    dumpLocalityInNs): the link, address and route dumps on one socket, retried
    while the kernel reports an interrupted dump, parsed and built into a
    snapshot.

    A dump's callback folds the delivered messages into the caller's variables:
    the simulation lemmas turn what a recording callback receives
    ([NlWalk]) into what any callback computes. *)

From stdpp Require Import countable.
From S2P Require Import Prelude NlHeaders FlatRecord Enrich RtAttr NlRequest NlWalk RtParsers LinkStats Bond Links.
From S2P Require Import Localnet LocalnetSpec Tracker Locality.

(** ** dumpRetrying *)

Section Retrying.
Context {S : Type}.

(** [build] is the request of a sequence number, [sendto] what sending it
    returns, [reset] the cleared accumulator, [retries] the retries left. *)
Fixpoint dumpRetrying (retries : nat) (build : Z -> go (option bytes)) (sendto : Z -> option Z) (reset : S)
    (onMsg : Z -> bytes -> S -> go (S * option err)) (seq : Z) (recvs : list recv)
    : go (outcome (S := S) (S * Z * option err)) :=
  let seq := uint32 (seq + 1) in
  req ← build seq;
  r ← DumpRtnetlink (default [] req) (sendto seq) (Some onMsg) recvs reset;
  match r with
  | Waiting s i => Some (Waiting s i)
  | Returned (s, e) rest =>
      match retries with
      | Datatypes.S retries =>
          if decide (e = Some ErrDumpInterrupted) then dumpRetrying retries build sendto reset onMsg seq rest
          else Some (Returned (s, seq, e) rest)
      | O => Some (Returned (s, seq, e) rest)
      end
  end.
End Retrying.

(** ** dumpLocalityInNs *)

(** A callback that keeps the messages of one type a parser accepts. *)
Definition collecting {A B} (ty : Z) (parse : bytes -> go (A * option err)) (add : A -> B -> B)
    (mt : Z) (body : bytes) (s : B) : go (B * option err) :=
  if decide (mt = ty) then
    '(x, perr) ← parse body;
    match perr with Some e => Some (s, Some e) | None => Some (add x s, None) end
  else Some (s, None).

Definition on_link := collecting RTM_NEWLINK Link.ParseNewLink
  (fun li (links : gmap Z string) => <[link_idx li := go_string (Link.li_str li Link.Name)]> links).
Definition on_addr := collecting RTM_NEWADDR Addr.ParseNewAddr (fun ai addrs => addrs ++ [ai]).
Definition on_route := collecting RTM_NEWROUTE Route.ParseNewRoute (fun ri routes => routes ++ [ri]).

(** The result is [None] while a dump waits for a datagram. *)
Definition dumpLocalityInNs {T} `{PrefixTable T} (sendto : Z -> option Z) (recvs : list recv)
    : go (option (Localnet.Snapshot T + err)) :=
  let n := Z.to_nat localityDumpRetriesCst in
  r ← dumpRetrying n BuildDumpLinkRequest sendto ∅ on_link 0 recvs;
  match r with
  | Waiting _ _ => Some None
  | Returned (_, _, Some e) _ => Some (Some (inr e))
  | Returned (links, seq, None) recvs =>
      r ← dumpRetrying n (BuildDumpAddrRequest AF_UNSPEC) sendto [] on_addr seq recvs;
      match r with
      | Waiting _ _ => Some None
      | Returned (_, _, Some e) _ => Some (Some (inr e))
      | Returned (addrs, seq, None) recvs =>
          r ← dumpRetrying n (BuildDumpRouteRequest AF_UNSPEC) sendto [] on_route seq recvs;
          match r with
          | Waiting _ _ => Some None
          | Returned (_, _, Some e) _ => Some (Some (inr e))
          | Returned (routes, _, None) _ => Some (Some (inl (BuildSnapshot addrs routes links)))
          end
      end
  end.

(** ** Callbacks as folds *)

Notation message := (NlMsgHdr * bytes)%type.
(** A callback over a list of delivered messages, stopping at an error. *)
Fixpoint folds {S} (f : NlMsgHdr -> bytes -> S -> go (S * option err)) (ms : list message) (s : S)
    : go (S * option err) :=
  match ms with
  | [] => Some (s, None)
  | m :: ms => '(s, e) ← f m.1 m.2 s; match e with Some e => Some (s, Some e) | None => folds f ms s end
  end.
Lemma folds_app {S} f ms ms' (s s' : S) : folds f (ms ++ ms') s = Some (s', None) <->
  exists s1, folds f ms s = Some (s1, None) /\ folds f ms' s1 = Some (s', None).
Proof.
  revert s. induction ms as [|m ms IH]; intros s; cbn; [naive_solver|].
  destruct (f m.1 m.2 s) as [[s1 [e|]]|]; cbn; naive_solver.
Qed.

Definition deliver_if {A} (b : bool) (f : A) : option A := if b then Some f else None.

Lemma walk_loop_sim {S} (f : NlMsgHdr -> bytes -> S -> go (S * option err)) fuel data seq b de intr acc acc' d e :
  walkNlMsgsHdr_loop fuel data seq (deliver_if b record) de intr acc = Some (acc', d, e) ->
  exists ms, acc' = acc ++ ms /\ forall s s', folds f ms s = Some (s', None) ->
    walkNlMsgsHdr_loop fuel data seq (deliver_if b f) de intr s = Some (s', d, e).
Proof.
  revert data intr acc. induction fuel as [|fuel IH]; intros data intr acc H; [done|]. cbn [walkNlMsgsHdr_loop] in *.
  assert (forall r : bool * option err, Some (acc, r.1, r.2) = Some (acc', d, e) -> exists ms, acc' = acc ++ ms /\
    forall s s', folds f ms s = Some (s', None) -> Some (s, r.1, r.2) = Some (s', d, e)) as Hret.
  { intros [d0 e0] [= -> <- <-]. exists []. rewrite app_nil_r. split; [done|]. by intros s s' [= <-]. }
  destruct (decide (NlMsgHdrSizeCst <= glen data)); [|apply (Hret (_, _)), H].
  destruct (DeserializeNlMsgHdr data _) as [[[h n] derr]|]; [|done]. cbn [mbind option_bind] in *.
  destruct derr; [apply (Hret (_, _)), H|]. cbv zeta in *.
  destruct (decide (nlh_Len h < NlMsgHdrSizeCst \/ glen data < nlh_Len h)); [apply (Hret (_, _)), H|].
  destruct (slice data NlMsgHdrSizeCst (nlh_Len h)) as [body|]; [|done]. cbn [mbind option_bind] in *.
  set (adv := if decide (glen data < _) then glen data else _) in *. clearbody adv.
  destruct (slice data adv (glen data)) as [rest|]; [|done]. cbn [mbind option_bind] in *.
  destruct (decide (nlh_Seq h <> seq)); [by apply IH|].
  set (intr' := if decide (Z.land _ _ <> 0) then true else intr) in *. clearbody intr'.
  destruct (decide (nlh_Type h = NLMSG_DONE)).
  { destruct intr'; [apply (Hret (_, _)), H|]. destruct de; [|apply (Hret (_, _)), H].
    destruct (DoneErr body); [|done]. apply (Hret (_, _)), H. }
  destruct (decide (nlh_Type h = NLMSG_ERROR)).
  { destruct intr'; [apply (Hret (_, _)), H|]. destruct (netlinkErr body); [|done]. apply (Hret (_, _)), H. }
  destruct (decide (nlh_Type h = NLMSG_NOOP)); [by apply IH|].
  destruct b; cbn [deliver_if] in *; [|by apply (IH rest)]. destruct intr'; [by apply IH|].
  cbn [record mbind option_bind] in H. apply IH in H as (ms & -> & Hf). exists ((h, body) :: ms).
  rewrite <- app_assoc. split; [done|]. intros s s' Hs. cbn [folds fst snd] in Hs.
  destruct (f h body s) as [[s1 [e1|]]|]; [done| |done]. cbn [mbind option_bind] in *. by apply Hf.
Qed.

Lemma walk_sim {S} (f : NlMsgHdr -> bytes -> S -> go (S * option err)) data seq b de acc acc' d e :
  walkNlMsgsHdr data seq (deliver_if b record) de acc = Some (acc', d, e) ->
  exists ms, acc' = acc ++ ms /\ forall s s', folds f ms s = Some (s', None) ->
    walkNlMsgsHdr data seq (deliver_if b f) de s = Some (s', d, e).
Proof.
  unfold walkNlMsgsHdr. case_decide; [|apply walk_loop_sim].
  intros [= -> <- <-]. exists []. rewrite app_nil_r. split; [done|]. by intros s s' [= <-].
Qed.

Lemma deliver_intr {A} (intr : bool) (f : A) : (if intr then None else Some f) = deliver_if (negb intr) f.
Proof. by destruct intr. Qed.

(** A run with the recording callback, and the run with [f] it stands for. *)
Definition sims {S} (f : NlMsgHdr -> bytes -> S -> go (S * option err)) (acc : list message)
    (rec : go (outcome (S := list message) (list message * option err)))
    (run : S -> go (outcome (S := S) (S * option err))) : Prop :=
  forall acc' e rest, rec = Some (Returned (acc', e) rest) ->
  exists ms, acc' = acc ++ ms /\ forall s s', folds f ms s = Some (s', None) -> run s = Some (Returned (s', e) rest).
Lemma sims_ret {S} f acc e rest : sims (S := S) f acc (Some (Returned (acc, e) rest)) (fun s => Some (Returned (s, e) rest)).
Proof. intros acc' e' rest' [= <- <- <-]. exists []. rewrite app_nil_r. split; [done|]. by intros s s' [= <-]. Qed.

Lemma dump_loop_sim {S} (f : NlMsgHdr -> bytes -> S -> go (S * option err)) seq de recvs intr acc :
  sims f acc (dump_loop seq (Some record) de recvs intr acc) (dump_loop seq (Some f) de recvs intr).
Proof.
  revert intr acc. induction recvs as [|[n|from data] recvs IH]; intros intr acc; [done|apply sims_ret|].
  cbn [dump_loop]. destruct (negb (fromKernel from)); [by apply IH|]. intros acc' e rest H. cbv zeta in *.
  rewrite (deliver_intr intr record) in H. destruct (walkNlMsgsHdr data seq _ de acc) as [[[acc1 d] werr]|] eqn:E; [|done].
  cbn [mbind option_bind] in H. destruct (walk_sim f _ _ _ _ _ _ _ _ E) as (ms & -> & Hf).
  assert (exists ms', acc' = (acc ++ ms) ++ ms' /\ forall s s', folds f ms' s = Some (s', None) ->
    (if decide (werr = Some ErrDumpInterrupted) then
       if d then Some (Returned (s, Some ErrDumpInterrupted) recvs) else dump_loop seq (Some f) de recvs true s
     else match werr with
          | Some e => Some (Returned (s, Some e) recvs)
          | None => if d then Some (Returned (s, if intr then Some ErrDumpInterrupted else None) recvs)
                    else dump_loop seq (Some f) de recvs intr s end) = Some (Returned (s', e) rest)) as (ms' & -> & Hg).
  { case_decide; [destruct d; [by apply sims_ret|by apply IH]|]. destruct werr; [by apply sims_ret|].
    destruct d; [by apply sims_ret|by apply IH]. }
  exists (ms ++ ms'). rewrite app_assoc. split; [done|]. intros s s' (s1 & Hs1 & Hs')%folds_app.
  rewrite (deliver_intr intr f), (Hf _ _ Hs1). cbn [mbind option_bind]. by apply Hg.
Qed.

(** ** What a complete reply gives *)

(** The datagrams of one dump: foreign or open ones, then one that ends it. *)
Record reply := mkReply {
  rp_open : list (option Z * list nlmsg); rp_from : option Z; rp_msgs : list nlmsg; rp_done : nlmsg;
  rp_tail : list nlmsg }.
Definition reply_script (r : reply) : list recv :=
  (dgram <$> rp_open r) ++ [dgram (rp_from r, rp_msgs r ++ rp_done r :: rp_tail r)].
Definition collected (seq : Z) (r : reply) : list message := delivered seq (kernel_msgs (rp_open r) ++ rp_msgs r).
Record complete (seq : Z) (r : reply) : Prop := {
  cp_open : Forall (open_dgram seq) (rp_open r);
  cp_from : fromKernel (rp_from r) = true;
  cp_wf : Forall wf_nlmsg (rp_msgs r ++ rp_done r :: rp_tail r);
  cp_msgs : no_end seq (rp_msgs r);
  cp_done : nm_Seq (rp_done r) = seq /\ nm_Type (rp_done r) = NLMSG_DONE;
  cp_steady : interrupted_by seq (kernel_msgs (rp_open r) ++ rp_msgs r ++ [rp_done r]) = false }.

Definition typed {S} (f : Z -> bytes -> S -> go (S * option err)) (h : NlMsgHdr) (b : bytes) (s : S) := f (nlh_Type h) b s.

Lemma DumpRtnetlink_reply {S} (f : Z -> bytes -> S -> go (S * option err)) request seq r rest s s' :
  16 <= glen request -> le_at 4 request 8 = seq -> complete seq r ->
  folds (typed f) (collected seq r) s = Some (s', None) ->
  DumpRtnetlink request None (Some f) (reply_script r ++ rest) s = Some (Returned (s', None) rest).
Proof.
  intros Hl Hq [H1 H2 H3 H4 [H5 H5'] H6] Hf. unfold DumpRtnetlink, DumpRtnetlinkMsgs, dumpRtnetlinkMsgs, NlMsgHdrSizeCst.
  rewrite decide_False by lia. rewrite LE32_ok by lia. cbn [mbind option_bind]. rewrite Hq.
  unfold reply_script. rewrite <- app_assoc. cbn [app].
  pose proof (dump_closes seq (rp_open r) (rp_from r) (rp_msgs r) (rp_done r) (rp_tail r) rest H1 H2 H3 H4 H5 H5') as Hd.
  rewrite H6 in Hd. apply (dump_loop_sim (typed f)) in Hd as (ms & Hms & Hg). cbn [app] in Hms.
  apply Hg. by rewrite <- Hms.
Qed.

(** The messages of a type, parsed. *)
Definition parsed {A} (ty : Z) (parse : bytes -> go (A * option err)) (ms : list message) : list A :=
  omap (fun m => if decide (nlh_Type m.1 = ty) then fst <$> parse m.2 else None) ms.
Definition parses {A} (ty : Z) (parse : bytes -> go (A * option err)) (ms : list message) : Prop :=
  Forall (fun m => nlh_Type m.1 = ty -> exists x, parse m.2 = Some (x, None)) ms.

Lemma typed_collecting {A B} ty parse (add : A -> B -> B) m s :
  (nlh_Type m.1 = ty -> exists x, parse m.2 = Some (x, None)) ->
  typed (collecting ty parse add) m.1 m.2 s = Some (foldl (fun s x => add x s) s (parsed ty parse [m]), None).
Proof.
  intros Hm. unfold typed, collecting, parsed. cbn [omap list_omap]. case_decide as Ht; [|done].
  by destruct (Hm Ht) as [x ->].
Qed.
Lemma folds_collecting {A B} ty parse (add : A -> B -> B) ms s : parses ty parse ms ->
  folds (typed (collecting ty parse add)) ms s = Some (foldl (fun s x => add x s) s (parsed ty parse ms), None).
Proof.
  intros H. revert s. induction H as [|m ms Hm H IH]; intros s; [done|]. cbn [folds].
  rewrite typed_collecting by done. cbn [mbind option_bind]. rewrite IH, <- foldl_app.
  unfold parsed. by rewrite <- omap_app.
Qed.
Lemma foldl_snocs {A} (s l : list A) : foldl (fun s x => s ++ [x]) s l = s ++ l.
Proof. revert s. induction l as [|x l IH]; intros s; cbn; [by rewrite app_nil_r|]. by rewrite IH, <- app_assoc. Qed.

Lemma dumpRetrying_reply {S} n build (f : Z -> bytes -> S -> go (S * option err)) reset seq r rest req s' :
  build (uint32 (seq + 1)) = Some (Some req) -> 16 <= glen req -> le_at 4 req 8 = uint32 (seq + 1) ->
  complete (uint32 (seq + 1)) r -> folds (typed f) (collected (uint32 (seq + 1)) r) reset = Some (s', None) ->
  dumpRetrying n build (fun _ => None) reset f seq (reply_script r ++ rest) =
    Some (Returned (s', uint32 (seq + 1), None) rest).
Proof.
  intros Hb Hl Hq Hc Hf. destruct n as [|n]; cbn [dumpRetrying]; rewrite Hb; cbn [mbind option_bind];
    change (default [] (Some req)) with req; by rewrite (DumpRtnetlink_reply f req _ r rest reset s' Hl Hq Hc Hf).
Qed.

Definition link_map (ls : list Link.LinkInfo) : gmap Z string :=
  foldl (fun m li => <[link_idx li := go_string (Link.li_str li Link.Name)]> m) ∅ ls.

(** When the kernel answers the three dumps of a namespace completely and
    uninterrupted, with parseable messages, the discovery returns the snapshot
    built from exactly the links, addresses and routes of those answers, in
    order - whatever datagrams of other senders, other requests' messages and
    other message types come in between. *)
Theorem dumpLocalityInNs_spec {T} `{PrefixTable T} rl ra rr rest :
  complete 1 rl -> complete 2 ra -> complete 3 rr ->
  parses RTM_NEWLINK Link.ParseNewLink (collected 1 rl) ->
  parses RTM_NEWADDR Addr.ParseNewAddr (collected 2 ra) ->
  parses RTM_NEWROUTE Route.ParseNewRoute (collected 3 rr) ->
  dumpLocalityInNs (fun _ => None) (reply_script rl ++ reply_script ra ++ reply_script rr ++ rest) =
    Some (Some (inl (BuildSnapshot (T := T) (parsed RTM_NEWADDR Addr.ParseNewAddr (collected 2 ra))
      (parsed RTM_NEWROUTE Route.ParseNewRoute (collected 3 rr))
      (link_map (parsed RTM_NEWLINK Link.ParseNewLink (collected 1 rl)))))).
Proof.
  intros Hl Ha Hr Pl Pa Pr. unfold dumpLocalityInNs.
  erewrite (dumpRetrying_reply _ BuildDumpLinkRequest on_link ∅ 0 rl); [|reflexivity|done|done|exact Hl|by apply folds_collecting].
  cbn [mbind option_bind].
  erewrite (dumpRetrying_reply _ (BuildDumpAddrRequest AF_UNSPEC) on_addr [] 1 ra); [|reflexivity|done|done|exact Ha|by apply folds_collecting].
  cbn [mbind option_bind].
  erewrite (dumpRetrying_reply _ (BuildDumpRouteRequest AF_UNSPEC) on_route [] 2 rr); [|reflexivity|done|done|exact Hr|by apply folds_collecting].
  cbn [mbind option_bind]. by rewrite !foldl_snocs.
Qed.

Definition demo_reply (seq : Z) (ms : list nlmsg) : reply :=
  mkReply [(Some 9, [demo_msg 20 2 seq [7]])] (Some 0) ms (demo_msg NLMSG_DONE 2 seq (make 4)) [].
Definition demo_addr_msg : nlmsg :=
  demo_msg RTM_NEWADDR 2 2 [2; 24; 0; 0; 2; 0; 0; 0; 8; 0; 2; 0; 10; 0; 0; 5].
Ltac wf_messages :=
  repeat (apply Forall_cons_2 || apply Forall_nil_2); split; vm_compute; (reflexivity || split; (discriminate || reflexivity)).
Lemma demo_complete seq ms : Forall wf_nlmsg (ms ++ [demo_msg NLMSG_DONE 2 seq (make 4)]) -> no_end seq ms ->
  interrupted_by seq (ms ++ [demo_msg NLMSG_DONE 2 seq (make 4)]) = false -> complete seq (demo_reply seq ms).
Proof. intros Hw Hn Hi. split; try done. by apply Forall_singleton. Qed.

Lemma dumpLocalityInNs_spec_witness :
  dumpLocalityInNs (T := gmap Prefix routeEntry) (fun _ => None)
    (reply_script (demo_reply 1 []) ++ reply_script (demo_reply 2 [demo_addr_msg]) ++
     reply_script (demo_reply 3 []) ++ [RecvErr 11]) =
  Some (Some (inl (BuildSnapshot (parsed RTM_NEWADDR Addr.ParseNewAddr (collected 2 (demo_reply 2 [demo_addr_msg]))) [] ∅))).
Proof.
  apply (dumpLocalityInNs_spec (demo_reply 1 []) (demo_reply 2 [demo_addr_msg]) (demo_reply 3 []) [RecvErr 11]).
  - apply demo_complete; [wf_messages|constructor|done].
  - apply demo_complete; [wf_messages|repeat constructor|done].
  - apply demo_complete; [wf_messages|constructor|done].
  - constructor.
  - repeat constructor. intros _. eexists. vm_compute. reflexivity.
  - constructor.
Defined.

(** ** Interrupted dumps *)

(** A retried dump never merges attempts: what it returns is what one
    attempt, started from the cleared accumulator, returned, and an interrupted
    one is returned only by the last attempt allowed. *)
Theorem dumpRetrying_spec {S} n build sendto (reset : S) f seq recvs s seq' e rest :
  dumpRetrying n build sendto reset f seq recvs = Some (Returned (s, seq', e) rest) ->
  exists k req recvs', (k <= n)%nat /\ seq' = Nat.iter (Datatypes.S k) (fun q => uint32 (q + 1)) seq /\
    build seq' = Some req /\
    DumpRtnetlink (default [] req) (sendto seq') (Some f) recvs' reset = Some (Returned (s, e) rest) /\
    (e = Some ErrDumpInterrupted -> k = n).
Proof.
  revert seq recvs. induction n as [|n IH]; intros seq recvs H; cbn [dumpRetrying] in H;
    apply bind_Some in H as (req & Hreq & H); apply bind_Some in H as (r & Hr & H);
    destruct r as [[s1 e1] rest1|s1 i1]; try done.
  - simplify_eq. by exists 0%nat, req, recvs.
  - case_decide as He; simplify_eq.
    + apply IH in H as (k & req' & recvs' & Hk & Hq & Hb & Hd & Hi). exists (Datatypes.S k), req', recvs'.
      split_and!; [lia| |done|done|intros; f_equal; by apply Hi]. rewrite Hq. clear. induction k as [|k IHk]; cbn in *; [done|by rewrite IHk].
    + exists 0%nat, req, recvs. split_and!; [lia|done..|]. by intros ->.
Qed.
Lemma dumpRetrying_spec_witness : exists k req recvs', (k <= 1)%nat /\
  2 = Nat.iter (Datatypes.S k) (fun q => uint32 (q + 1)) 0 /\ BuildDumpLinkRequest 2 = Some req /\
  DumpRtnetlink (default [] req) None (Some on_link) recvs' ∅ = Some (Returned (∅, None) []) /\
  (None = Some ErrDumpInterrupted -> k = 1%nat).
Proof.
  apply (dumpRetrying_spec 1 BuildDumpLinkRequest (fun _ => None) ∅ on_link 0
    ([dgram (Some 0, [demo_msg NLMSG_DONE 18 1 (make 4)])] ++ [dgram (Some 0, [demo_msg NLMSG_DONE 2 2 (make 4)])])
    ∅ 2 None []).
  vm_compute. reflexivity.
Defined.
