(* ===== verification/Rtnlmon.v ===== *)
(** The rtnetlink monitor (pkg/rtnlmon/rtnlmon_linux.go): the dumps a set of
    multicast groups needs, how their replies are collected, and the loop that
    keeps a handler's state current - join, dump, deliver, and after a loss
    drain, dump and resume.

    The loop is a step relation against the kernel's side of a multicast
    socket: a bounded queue, the one-shot ENOBUFS and the congestion that drops
    everything until the queue is empty, as Run's comment documents them. *)

From S2P Require Import Prelude NlHeaders Enrich RtAttr NlRequest RtParsers LinkStats Bond Links Rules Events.

(** ** Groups and dumps *)

Definition GroupLink : Z := 1.
Definition GroupNeigh : Z := 3.
Definition GroupIPv4Addr : Z := 5.
Definition GroupIPv4Route : Z := 7.
Definition GroupIPv6Addr : Z := 9.
Definition GroupIPv6Route : Z := 11.

Inductive Reason := ReasonStart | ReasonOverrun | ReasonTruncated | ReasonPeriodic.
#[export] Instance Reason_eq : EqDecision Reason. Proof. solve_decision. Defined.

Record dumpReq := mkDumpReq { msgType : Z; family : Z }.
#[export] Instance dumpReq_eq : EqDecision dumpReq. Proof. solve_decision. Defined.

Inductive planErr := ErrNoGroups | ErrUnknownGroup (g : Z).

Definition known_groups : list Z :=
  [GroupLink; GroupIPv4Addr; GroupIPv6Addr; GroupIPv4Route; GroupIPv6Route; GroupNeigh].
Fixpoint first_unknown (groups : list Z) : option Z :=
  match groups with [] => None | g :: gs => if decide (g ∈ known_groups) then first_unknown gs else Some g end.

Definition planDumps (groups : list Z) : list dumpReq + planErr :=
  if decide (length groups = 0%nat) then inr ErrNoGroups else
  match first_unknown groups with
  | Some g => inr (ErrUnknownGroup g)
  | None =>
      let has g := bool_decide (g ∈ groups) in
      let family v4 v6 := if has v4 && has v6 then AF_UNSPEC else if has v4 then AF_INET else AF_INET6 in
      inl (
        (if has GroupLink then [mkDumpReq RTM_GETLINK AF_UNSPEC] else []) ++
        (if has GroupIPv4Addr || has GroupIPv6Addr
         then [mkDumpReq RTM_GETADDR (family GroupIPv4Addr GroupIPv6Addr)] else []) ++
        (if has GroupIPv4Route || has GroupIPv6Route
         then [mkDumpReq RTM_GETROUTE (family GroupIPv4Route GroupIPv6Route)] else []) ++
        (if has GroupNeigh then [mkDumpReq RTM_GETNEIGH AF_UNSPEC] else []))
  end.

Definition request (r : dumpReq) (seq : Z) : go (option bytes) :=
  if decide (msgType r = RTM_GETLINK) then BuildDumpLinkRequest seq else
  if decide (msgType r = RTM_GETADDR) then BuildDumpAddrRequest (family r) seq else
  if decide (msgType r = RTM_GETROUTE) then BuildDumpRouteRequest (family r) seq else
  BuildDumpNeighRequest (family r) seq.

(** The monitor's Snapshot: the content of the tables. *)
Record tables := mkTables {
  Links : list Link.LinkInfo; Addrs : list Addr.AddrInfo; Routes : list Route.RouteInfo;
  Neighs : list Neigh.NeighInfo }.

Definition collect (msgType : Z) (body : bytes) (s : tables) : go (tables * option err) :=
  if negb (IsRtnetlinkEventType msgType) then Some (s, None) else
  '(ev, e) ← ParseRtnetlinkEvent msgType body;
  match e with
  | Some e => Some (s, Some e)
  | None => Some (match ev with
      | Some (LinkEvent _ l) => mkTables (Links s ++ [l]) (Addrs s) (Routes s) (Neighs s)
      | Some (AddrEvent _ a) => mkTables (Links s) (Addrs s ++ [a]) (Routes s) (Neighs s)
      | Some (RouteEvent _ r) => mkTables (Links s) (Addrs s) (Routes s ++ [r]) (Neighs s)
      | Some (NeighEvent _ n) => mkTables (Links s) (Addrs s) (Routes s) (Neighs s ++ [n])
      | _ => s end, None)
  end.

(** The table a group notifies of, and the family it is limited to. *)
Definition group_table (g : Z) : Z * Z :=
  if decide (g = GroupLink) then (RTM_GETLINK, AF_UNSPEC) else
  if decide (g = GroupIPv4Addr) then (RTM_GETADDR, AF_INET) else
  if decide (g = GroupIPv6Addr) then (RTM_GETADDR, AF_INET6) else
  if decide (g = GroupIPv4Route) then (RTM_GETROUTE, AF_INET) else
  if decide (g = GroupIPv6Route) then (RTM_GETROUTE, AF_INET6) else (RTM_GETNEIGH, AF_UNSPEC).
Definition dumps (plan : list dumpReq) (g : Z) : bool :=
  existsb (fun r => bool_decide (msgType r = (group_table g).1) &&
                    (bool_decide (family r = AF_UNSPEC) || bool_decide (family r = (group_table g).2))) plan.

Lemma first_unknown_None groups : first_unknown groups = None <-> Forall (fun g => g ∈ known_groups) groups.
Proof.
  induction groups as [|g gs IH]; cbn; [done|]. case_decide; rewrite Forall_cons; naive_solver.
Qed.
Lemma first_unknown_Some groups g : first_unknown groups = Some g -> g ∈ groups /\ g ∉ known_groups.
Proof. induction groups as [|g' gs IH]; cbn; [done|]. case_decide; set_solver. Qed.

(** Without groups, or with one outside the six, the plan is refused;
    otherwise a table is dumped for exactly the groups joined - both families
    in one dump when both are - and no table is dumped twice. *)
Theorem planDumps_spec groups :
  match planDumps groups with
  | inr ErrNoGroups => groups = []
  | inr (ErrUnknownGroup g) => g ∈ groups /\ g ∉ known_groups
  | inl plan => Forall (fun g => g ∈ known_groups) groups /\ NoDup (msgType <$> plan) /\
      forall g, g ∈ known_groups -> dumps plan g = bool_decide (g ∈ groups)
  end.
Proof.
  unfold planDumps. case_decide as Hl; [by destruct groups|].
  destruct (first_unknown groups) as [g|] eqn:Hu; [by apply first_unknown_Some|].
  destruct (bool_decide (GroupLink ∈ groups)) eqn:H1, (bool_decide (GroupIPv4Addr ∈ groups)) eqn:H2,
    (bool_decide (GroupIPv6Addr ∈ groups)) eqn:H3, (bool_decide (GroupIPv4Route ∈ groups)) eqn:H4,
    (bool_decide (GroupIPv6Route ∈ groups)) eqn:H5, (bool_decide (GroupNeigh ∈ groups)) eqn:H6; cbn.
  all: split; [by apply first_unknown_None|]; split; [refine (bool_decide_unpack _ _); vm_compute; exact I|].
  all: intros g Hg; unfold known_groups in Hg; set_unfold in Hg; destruct_or! Hg; subst.
  all: first [rewrite H1|rewrite H2|rewrite H3|rewrite H4|rewrite H5|rewrite H6]; reflexivity.
Qed.

(** ** The kernel's tables *)

(** The kernel's identities, as the Tracker's comment documents them: a link is
    its number; an address is (ifindex, family, IFA_LOCAL), plus the prefix
    length and IFA_ADDRESS for IPv4; a route is (family, table, dst, src, tos,
    priority), plus the egress interface and gateway for IPv6, and a cached
    clone is another object than the route it was made from. *)
Definition ifindex (l : Link.LinkInfo) : Z := uint32 (Link.li_num l Link.Index).
Definition link_up (l : Link.LinkInfo) : bool := bool_decide (Z.land (Link.li_num l Link.Flags) 1 <> 0).
Definition same_link (l l' : Link.LinkInfo) : bool := bool_decide (ifindex l = ifindex l').
Definition same_addr (a b : Addr.AddrInfo) : bool :=
  let eqn f := bool_decide (Addr.ai_num a f = Addr.ai_num b f) in
  let eqb f := bool_decide (default [] (Addr.ai_buf a f) = default [] (Addr.ai_buf b f)) in
  eqn Addr.Index && eqn Addr.Family && eqb Addr.Local_ &&
  (if decide (Addr.ai_num a Addr.Family = AF_INET) then eqn Addr.Prefixlen && eqb Addr.Address else true).
Definition cloned (r : Route.RouteInfo) : bool := bool_decide (Z.land (Route.ri_num r Route.Flags) 512 <> 0).
Definition same_route (r s : Route.RouteInfo) : bool :=
  let eqn f := bool_decide (Route.ri_num r f = Route.ri_num s f) in
  let eqb f := bool_decide (default [] (Route.ri_buf r f) = default [] (Route.ri_buf s f)) in
  eqn Route.Family && eqn Route.Table && eqn Route.DstLen && eqb Route.Dst && eqn Route.SrcLen && eqb Route.Src &&
  eqn Route.Tos && eqn Route.Priority && bool_decide (cloned r = cloned s) &&
  (if decide (Route.ri_num r Route.Family = AF_INET6) then eqn Route.Oif && eqb Route.Gateway else true).

Definition without {A} (p : A -> bool) (l : list A) : list A := filter (fun x => p x = false) l.
Definition replaced {A} (same : A -> A -> bool) (x : A) (l : list A) : list A := without (same x) l ++ [x].

(** A change of the kernel's tables: the notification it sends, and the routes
    it takes away without one. *)
Record change := mkChange { notice : event; gone : Route.RouteInfo -> bool }.

Definition notified (ev : event) (t : tables) : tables :=
  match ev with
  | LinkEvent a l =>
      if decide (a = EventActionDel) then
        mkTables (without (same_link l) (Links t)) (without (fun x => bool_decide (Addr.ai_num x Addr.Index = ifindex l)) (Addrs t))
          (Routes t) (Neighs t)
      else mkTables (replaced same_link l (Links t)) (Addrs t) (Routes t) (Neighs t)
  | AddrEvent a x =>
      mkTables (Links t) (if decide (a = EventActionDel) then without (same_addr x) (Addrs t) else replaced same_addr x (Addrs t))
        (Routes t) (Neighs t)
  | RouteEvent a r =>
      mkTables (Links t) (Addrs t)
        (if decide (a = EventActionDel) then without (same_route r) (Routes t) else replaced same_route r (Routes t)) (Neighs t)
  | NeighEvent _ _ | RuleEvent _ _ => t
  end.
Definition changed (c : change) (t : tables) : tables :=
  let t := notified (notice c) t in mkTables (Links t) (Addrs t) (without (gone c) (Routes t)) (Neighs t).

(** The routes applyLink's comment says go without a notification: with a
    deleted device every single-path route through it, with one going down the
    IPv4 ones that are not host scope. A change that takes others away (an
    IPv6 route replaced, say) is not [documented]. *)
Definition vanishes (t : tables) (ev : event) (r : Route.RouteInfo) : bool :=
  match ev with
  | LinkEvent a l =>
      bool_decide (Route.ri_num r Route.Oif = ifindex l) && negb (Route.ri_has r Route.HasMultipath) &&
      bool_decide (Route.ri_num r Route.NhID = 0) &&
      (bool_decide (a = EventActionDel) ||
       existsb (fun l' => same_link l l' && link_up l') (Links t) && negb (link_up l) &&
       bool_decide (Route.ri_num r Route.Family = AF_INET) && bool_decide (Route.ri_num r Route.Scope <> 254))
  | _ => false
  end.
Definition documented (t : tables) (c : change) : Prop := forall r, gone c r = vanishes t (notice c) r.

(** No object is in its table twice. *)
Record tables_wf (t : tables) : Prop := {
  wf_links : ForallOrdPairs (fun x y => same_link x y = false) (Links t);
  wf_addrs : ForallOrdPairs (fun x y => same_addr x y = false) (Addrs t);
  wf_routes : ForallOrdPairs (fun x y => same_route x y = false) (Routes t) }.

(** One dump of a plan: the table it asks for, of its family, added to the
    snapshot under way. *)
Definition dump_table (t s : tables) (r : dumpReq) : tables :=
  let fam (f : Z) := bool_decide (family r = AF_UNSPEC) || bool_decide (family r = f) in
  if decide (msgType r = RTM_GETLINK) then mkTables (Links s ++ Links t) (Addrs s) (Routes s) (Neighs s) else
  if decide (msgType r = RTM_GETADDR) then
    mkTables (Links s) (Addrs s ++ filter (fun a => fam (Addr.ai_num a Addr.Family) = true) (Addrs t)) (Routes s) (Neighs s) else
  if decide (msgType r = RTM_GETROUTE) then
    mkTables (Links s) (Addrs s) (Routes s ++ filter (fun x => fam (Route.ri_num x Route.Family) = true) (Routes t)) (Neighs s) else
  mkTables (Links s) (Addrs s) (Routes s) (Neighs s ++ Neighs t).
Definition no_tables : tables := mkTables [] [] [] [].
Definition snapshot_of (plan : list dumpReq) (t : tables) : tables := foldl (dump_table t) no_tables plan.

(** ** Following the kernel *)

(** [run]'s configuration and the plan of its [dump]; maxBatch is pkg/nlconn's. *)
Record runConfig := mkRunConfig { retries : nat; resyncAfter : Z; plan : list dumpReq }.
Definition maxBatch : nat := 64.

Section Run.
(** The Handler: what it makes of a Snapshot and of an Event. *)
Context {St : Type} (reset : tables -> St) (apply : event -> St -> St).

Definition applies (l : list event) (s : St) : St := foldl (fun s e => apply e s) s l.
#[local] Arguments applies : simpl never.

(** Where the loop is: in [resync] with the number of dumps already retried, the
    dumps still to do and the snapshot under way; in Receive with the datagrams
    of its batch delivered so far; in Drain; or returned. *)
Inductive phase :=
  | Resync (r : Reason) (attempt : nat) (todo : list dumpReq) (s : tables)
  | Receiving (delivered : nat) | Draining (r : Reason) | Ended.

(** The socket, the handler's state and the clock: [enobufs] is the pending
    socket error, [congested] the flag under which the kernel drops every
    broadcast, [last] the time of the last snapshot. *)
Record world := mkWorld {
  table : tables; queue : list event; enobufs : bool; congested : bool; state : St; at_phase : phase;
  clock : Z; last : Z }.

(** The kernel changes its tables and notifies: the broadcast is queued, or
    does not fit, or is dropped under congestion. Time passes. *)
Inductive kernel_step (ok : tables -> change -> Prop) : world -> world -> Prop :=
  | k_queued t q en s p now l c : ok t c ->
      kernel_step ok (mkWorld t q en false s p now l) (mkWorld (changed c t) (q ++ [notice c]) en false s p now l)
  | k_overrun t q en s p now l c : ok t c ->
      kernel_step ok (mkWorld t q en false s p now l) (mkWorld (changed c t) q true true s p now l)
  | k_dropped t q en s p now l c : ok t c ->
      kernel_step ok (mkWorld t q en true s p now l) (mkWorld (changed c t) q en true s p now l)
  | k_tick t q en c s p now l d : 0 <= d ->
      kernel_step ok (mkWorld t q en c s p now l) (mkWorld t q en c s p (now + d) l).

(** The congestion left when a receive has taken the queue down to [q]. *)
Definition after_receive (c : bool) (q : list event) : bool := match q with [] => false | _ => c end.

Definition resync (cfg : runConfig) (r : Reason) : phase := Resync r 0 (plan cfg) no_tables.

(** What follows a Receive that returned without an error. *)
Definition after_batch (cfg : runConfig) (now l : Z) : phase :=
  if decide (resyncAfter cfg <= 0 \/ now - l < resyncAfter cfg) then Receiving 0 else resync cfg ReasonPeriodic.

(** [run], [resync], and the receiver's Receive and Drain: Receive delivers what
    is queued, up to maxBatch datagrams, and a pending ENOBUFS is reported
    before anything queued. A dump the kernel changed under is marked
    interrupted, and the whole snapshot is retaken. *)
Inductive run_step (cfg : runConfig) : world -> world -> Prop :=
  | r_dumped t q en c s now l r a d todo x :
      run_step cfg (mkWorld t q en c s (Resync r a (d :: todo) x) now l)
        (mkWorld t q en c s (Resync r a todo (dump_table t x d)) now l)
  | r_interrupted t q en c s now l r a todo x : (a < retries cfg)%nat ->
      run_step cfg (mkWorld t q en c s (Resync r a todo x) now l)
        (mkWorld t q en c s (Resync r (S a) (plan cfg) no_tables) now l)
  | r_dump_failed t q en c s now l r a todo x :
      run_step cfg (mkWorld t q en c s (Resync r a todo x) now l) (mkWorld t q en c s Ended now l)
  | r_snapshot t q en c s now l r a x :
      run_step cfg (mkWorld t q en c s (Resync r a [] x) now l) (mkWorld t q en c (reset x) (Receiving 0) now now)
  | r_deliver t e q c s now l d : (d < maxBatch)%nat ->
      run_step cfg (mkWorld t (e :: q) false c s (Receiving d) now l)
        (mkWorld t q false (after_receive c q) (apply e s) (Receiving (S d)) now l)
  | r_batch t q en c s now l d : (0 < d)%nat -> q = [] /\ en = false \/ d = maxBatch ->
      run_step cfg (mkWorld t q en c s (Receiving d) now l) (mkWorld t q en c s (after_batch cfg now l) now l)
  | r_enobufs t q c s now l d : (d < maxBatch)%nat ->
      run_step cfg (mkWorld t q true c s (Receiving d) now l)
        (mkWorld t q false (after_receive c q) s (Draining ReasonOverrun) now l)
  | r_truncated t e q c s now l d : (d < maxBatch)%nat ->
      run_step cfg (mkWorld t (e :: q) false c s (Receiving d) now l)
        (mkWorld t q false (after_receive c q) s (Draining ReasonTruncated) now l)
  | r_drain_one t e q c s now l r :
      run_step cfg (mkWorld t (e :: q) false c s (Draining r) now l)
        (mkWorld t q false (after_receive c q) s (Draining r) now l)
  | r_drain_enobufs t q c s now l r :
      run_step cfg (mkWorld t q true c s (Draining r) now l) (mkWorld t q false (after_receive c q) s (Draining r) now l)
  | r_drained t c s now l r :
      run_step cfg (mkWorld t [] false c s (Draining r) now l) (mkWorld t [] false false s (resync cfg r) now l)
  | r_failed t q en c s p now l : p <> Ended ->
      run_step cfg (mkWorld t q en c s p now l) (mkWorld t q en c s Ended now l).

(** The loop and the kernel side by side, the kernel's changes limited to [ok]. *)
Definition both ok cfg (w w' : world) : Prop := kernel_step ok w w' \/ run_step cfg w w'.

(** A snapshot is about to be taken and nothing is queued: the start - the
    groups joined, no notification yet - and the end of every drain. *)
Definition about_to_dump (cfg : runConfig) (w : world) : Prop :=
  (exists r, at_phase w = resync cfg r) /\ queue w = [] /\ enobufs w = false /\ congested w = false.

(** Every run of [step] that does not end gets to [goal], whatever the loop's
    environment answers, and it can always go on short of ending. *)
Inductive inevitable (cfg : runConfig) (goal : world -> Prop) : world -> Prop :=
  | in_goal w : goal w \/ at_phase w = Ended -> inevitable cfg goal w
  | in_step w : (exists w', run_step cfg w w' /\ at_phase w' <> Ended) ->
      (forall w', run_step cfg w w' -> inevitable cfg goal w') -> inevitable cfg goal w.

(** ** Recovery *)

(** Receiving with nothing queued, the handler's state that of a dump of the
    kernel's tables. *)
Definition current (cfg : runConfig) (w : world) : Prop :=
  at_phase w = Receiving 0 /\ queue w = [] /\ state w = reset (snapshot_of (plan cfg) (table w)).

Lemma dumps_inevitable cfg t c s now l r k n : forall a todo x, (retries cfg - a = k)%nat -> length todo = n ->
  foldl (dump_table t) x todo = snapshot_of (plan cfg) t ->
  inevitable cfg (current cfg) (mkWorld t [] false c s (Resync r a todo x) now l).
Proof.
  revert n. induction k as [k IHk] using lt_wf_ind. intros n. induction n as [|n IHn]; intros a todo x Hk Hn Hx.
  all: apply in_step; [|intros w' Hw; inv Hw; try (by apply in_goal; right)].
  - destruct todo; [|done]. eexists. split; [apply r_snapshot|done].
  - eapply IHk; [|reflexivity..]. lia.
  - apply in_goal. left. split_and!; [done..|]. cbn. f_equal. exact Hx.
  - destruct todo; [done|]. eexists. split; [apply r_dumped|done].
  - apply IHn; [done|by injection Hn|done].
  - eapply IHk; [|reflexivity..]. lia.
Qed.
Lemma resync_inevitable cfg t c s now l r :
  inevitable cfg (current cfg) (mkWorld t [] false c s (resync cfg r) now l).
Proof. by eapply dumps_inevitable. Qed.

Lemma drains_inevitable cfg t q en c s now l r :
  inevitable cfg (current cfg) (mkWorld t q en c s (Draining r) now l).
Proof.
  assert (forall q c, inevitable cfg (current cfg) (mkWorld t q false c s (Draining r) now l)) as Hd.
  { induction q0 as [|e q0 IH]; intros c0; (apply in_step; [|intros w' Hw; inv Hw; try (by apply in_goal; right)]).
    - eexists. split; [apply r_drained|done].
    - apply resync_inevitable.
    - eexists. split; [apply r_drain_one|done].
    - apply IH. }
  destruct en; [|apply Hd]. apply in_step; [|intros w' Hw; inv Hw; [apply Hd|by apply in_goal; right]].
  eexists. split; [apply r_drain_enobufs|done].
Qed.

(** A batch that ends with the refresh due. *)
Lemma batch_inevitable cfg t c now l : 0 < resyncAfter cfg <= now - l -> forall q d s,
  (0 < d + length q <= maxBatch)%nat ->
  inevitable cfg (current cfg) (mkWorld t q false c s (Receiving d) now l).
Proof.
  intros Hdue q. revert c. assert (after_batch cfg now l = resync cfg ReasonPeriodic) as Hb.
  { unfold after_batch. rewrite decide_False by lia. done. }
  induction q as [|e q IH]; intros c d s Hd; cbn [length] in Hd.
  all: apply in_step; [|intros w' Hw; inv Hw; try (by apply in_goal; right)].
  - eexists. split; [apply r_batch; [lia|by left]|]. by rewrite Hb.
  - rewrite Hb. apply resync_inevitable.
  - eexists. split; [apply r_deliver; lia|done].
  - apply IH. lia.
  - match goal with H : _ \/ d = maxBatch |- _ => destruct H as [[? _]|Hm] end; [done|lia].
  - apply drains_inevitable.
Qed.
End Run.

#[export] Hint Constructors run_step : rtnlmon.
