(* ===== verification/MonitorTracker.v ===== *)
(** The tracker as the handler of the monitor (pkg/xtcp/enrich_locality_listen.go
    feeds pkg/localnet's Tracker from pkg/rtnlmon's Run), against the kernel's
    own tables: folding a notification is what the change does to the tables,
    which notifications may be folded twice, as a dump that races them makes the
    monitor do, and when the tracker is the one a dump would give. *)

From stdpp Require Import relations.
From S2P Require Import Prelude NlHeaders FlatRecord Enrich RtAttr NlRequest RtParsers LinkStats Bond Links Rules Events Localnet Tracker LocalnetSpec TrackerSpec Rtnlmon.

(** ** Tables and maps *)

(** The map a loop of insertions builds of a list. *)
Section Build.
Context `{Countable K} {A V : Type} (key : A -> K) (val : A -> V).

Definition build (l : list A) : gmap K V := foldl (fun m x => <[key x := val x]> m) ∅ l.

Lemma build_snoc l x : build (l ++ [x]) = <[key x := val x]> (build l).
Proof. unfold build. by rewrite foldl_snoc. Qed.
Lemma build_None l k : k ∉ key <$> l -> build l !! k = None.
Proof.
  induction l as [|x l IH] using rev_ind; [done|]. rewrite fmap_app, not_elem_of_app, build_snoc. intros [Hl Hx].
  rewrite lookup_insert_ne; [by apply IH|]. intros <-. apply Hx. by left.
Qed.
Lemma build_without l s k : (forall x, x ∈ l -> s x = true <-> key x = k) -> build (without s l) = delete k (build l).
Proof.
  unfold without. induction l as [|x l IH] using rev_ind; intros Hs; [symmetry; apply delete_empty|].
  rewrite filter_app, build_snoc, filter_cons, filter_nil.
  specialize (IH (fun y Hy => Hs y (proj2 (elem_of_app _ _ _) (or_introl Hy)))).
  destruct (Hs x) as [H1 H2]; [apply elem_of_app; right; by left|].
  case_decide as Ex.
  - rewrite build_snoc, IH, delete_insert_ne; [done|]. intros He. rewrite H2 in Ex by done. done.
  - rewrite app_nil_r, IH. apply not_false_is_true, H1 in Ex as <-. by rewrite delete_insert_eq.
Qed.
Lemma build_replaced l same x : (forall y, y ∈ l -> same x y = true <-> key y = key x) ->
  build (replaced same x l) = <[key x := val x]> (build l).
Proof. intros Hs. unfold replaced. by rewrite build_snoc, (build_without _ _ (key x)), insert_delete_eq. Qed.
Lemma build_filter l (p : A -> bool) (q : V -> bool) : NoDup (key <$> l) -> (forall x, p x = q (val x)) ->
  build (without p l) = filter (fun kv => q kv.2 = false) (build l).
Proof.
  intros Hd Hp. unfold without. induction l as [|x l IH] using rev_ind; [symmetry; apply map_filter_empty|].
  rewrite fmap_app in Hd. apply NoDup_app in Hd as (Hd & Hx & _). rewrite filter_app, build_snoc, filter_cons, filter_nil, Hp.
  case_decide as Hq; [rewrite build_snoc, IH by done; by rewrite map_filter_insert_True|].
  rewrite app_nil_r, IH, map_filter_insert_False by done. rewrite delete_id; [done|].
  apply build_None. intros Hi. apply (Hx _ Hi). by left.
Qed.
Lemma build_Some l k v : build l !! k = Some v -> exists x, x ∈ l /\ key x = k /\ val x = v.
Proof.
  induction l as [|x l IH] using rev_ind; [done|]. rewrite build_snoc, lookup_insert_Some.
  intros [[Hk Hv]|[_ Hl]]; [exists x; set_solver|]. destruct (IH Hl) as (y & Hy & ?). exists y. set_solver.
Qed.
Lemma build_elem l x : NoDup (key <$> l) -> x ∈ l -> build l !! key x = Some (val x).
Proof.
  induction l as [|y l IH] using rev_ind; [by intros _ ?%elem_of_nil|]. rewrite fmap_app, build_snoc.
  intros (Hd & Hy & _)%NoDup_app [Hx|Hx]%elem_of_app.
  - rewrite lookup_insert_ne; [by apply IH|]. intros He. apply (Hy (key x)); [by apply list_elem_of_fmap_2|]. rewrite <- He. by left.
  - apply list_elem_of_singleton in Hx as ->. by rewrite lookup_insert_eq.
Qed.
End Build.

(** *** Lists without a pair of the same object *)

Section Pairs.
Context {A : Type} (same : A -> A -> bool).
Notation distinct := (ForallOrdPairs (fun x y => same x y = false)).

Lemma distinct_filter (P : A -> Prop) `{!forall x, Decision (P x)} l : distinct l -> distinct (filter P l).
Proof.
  induction 1 as [|x l Hx Hl IH]; [constructor|]. rewrite filter_cons. case_decide; [|done].
  constructor; [|done]. apply Forall_forall. intros y Hy. apply list_elem_of_filter in Hy as [_ Hy].
  rewrite Forall_forall in Hx. by apply Hx.
Qed.
Lemma distinct_snoc `{!Symmetric (fun x y => same x y = false)} l x : distinct l -> Forall (fun y => same x y = false) l -> distinct (l ++ [x]).
Proof.
  induction 1 as [|y l Hy Hl IH]; cbn; intros Hx; [by repeat constructor|]. inv Hx.
  constructor; [|by apply IH]. apply Forall_app. split; [done|]. apply Forall_singleton. by apply (symmetry (R := fun x y => same x y = false)).
Qed.
Lemma distinct_replaced `{!Symmetric (fun x y => same x y = false)} l x : distinct l -> distinct (replaced same x l).
Proof.
  intros Hl. apply distinct_snoc; [by apply distinct_filter|]. apply Forall_forall. intros y Hy.
  by apply list_elem_of_filter in Hy as [Hy _].
Qed.
Lemma distinct_keys `{EqDecision K} (key : A -> K) l : (forall x y, key x = key y -> x ∈ l -> y ∈ l -> same x y = true) ->
  distinct l -> NoDup (key <$> l).
Proof.
  intros Hk. induction 1 as [|x l Hx Hl IH]; [constructor|]. apply NoDup_cons. split.
  - intros Hi. apply list_elem_of_fmap in Hi as (y & He & Hy). rewrite Forall_forall in Hx. specialize (Hx y Hy).
    rewrite (Hk x y He) in Hx; [done|by left|by right].
  - apply IH. intros y z He Hy Hz. apply Hk; [done|by right..].
Qed.
End Pairs.

(** ** Identities and keys *)

(** The tracker of a dump. *)
Definition tracker_of (t : tables) : Tracker := Reset (Links t) (Addrs t) (Routes t).

Lemma same_link_idx l l' : same_link l l' = true <-> link_idx l' = link_idx l.
Proof. unfold same_link, ifindex, link_idx. rewrite bool_decide_eq_true. by split. Qed.

(** The tracker's keys are the kernel's identities. *)
Lemma same_addr_key a b : same_addr a b = true <-> keyOfAddr b = keyOfAddr a.
Proof.
  unfold same_addr, keyOfAddr, raw. rewrite !andb_true_iff, !bool_decide_eq_true. split.
  - intros [[[H1 H2] H3] H4]. rewrite <- H2 in *. case_decide; [|by rewrite H1, H3].
    rewrite andb_true_iff, !bool_decide_eq_true in H4. destruct H4 as [H4 H5]. by rewrite H1, H3, H4, H5.
  - intros He. assert (Addr.ai_num b Addr.Family = Addr.ai_num a Addr.Family) as Hf.
    { revert He. repeat case_decide; congruence. }
    rewrite Hf in He. case_decide; simplify_eq; [|by rewrite Hf].
    rewrite andb_true_iff, !bool_decide_eq_true. by rewrite Hf.
Qed.
Lemma same_route_key r s : tracked r = true -> tracked s = true -> same_route r s = true <-> keyOfRoute s = keyOfRoute r.
Proof.
  unfold tracked, RTM_F_CLONED. rewrite !andb_true_iff, !bool_decide_eq_true. intros [_ Hr] [_ Hs].
  unfold same_route, keyOfRoute, r_num, r_buf, raw. cbv zeta. rewrite !andb_true_iff, !bool_decide_eq_true.
  unfold cloned. unfold r_num in Hr, Hs. rewrite Hr, Hs. split.
  - intros (((((((((H1 & H2) & H3) & H4) & H5) & H6) & H7) & H8) & _) & H9). rewrite <- H1 in *.
    case_decide; [|by rewrite H2, H3, H4, H5, H6, H7, H8].
    rewrite andb_true_iff, !bool_decide_eq_true in H9. destruct H9 as [H9 H10]. by rewrite H2, H3, H4, H5, H6, H7, H8, H9, H10.
  - intros He. assert (Route.ri_num s Route.Family = Route.ri_num r Route.Family) as Hf.
    { revert He. repeat case_decide; congruence. }
    rewrite Hf in He. case_decide; injection He as ?; [rewrite andb_true_iff, !bool_decide_eq_true|]; split_and!; congruence.
Qed.

#[export] Instance same_link_sym : Symmetric (fun x y => same_link x y = false).
Proof. intros x y. rewrite <- !not_true_iff_false, !same_link_idx. congruence. Qed.
#[export] Instance same_addr_sym : Symmetric (fun x y => same_addr x y = false).
Proof. intros x y. rewrite <- !not_true_iff_false, !same_addr_key. congruence. Qed.
#[export] Instance same_route_sym : Symmetric (fun x y => same_route x y = false).
Proof.
  assert (forall x y, same_route x y = true -> same_route y x = true) as H.
  { intros x y. unfold same_route. cbv zeta. rewrite !andb_true_iff, !bool_decide_eq_true.
    intros (((((((((H1 & H2) & H3) & H4) & H5) & H6) & H7) & H8) & H9) & H10). rewrite H1 in H10.
    split_and!; try done. case_decide; [|done]. rewrite andb_true_iff, !bool_decide_eq_true in *. naive_solver. }
  intros x y. rewrite <- !not_true_iff_false. eauto.
Qed.

(** *** The maps of a tracker *)

Definition tracked_of (l : list Route.RouteInfo) : list Route.RouteInfo := filter (fun r => tracked r = true) l.
Lemma routes_build rs : foldl put_route ∅ rs = build keyOfRoute id (tracked_of rs).
Proof.
  unfold tracked_of. induction rs as [|r rs IH] using rev_ind; [done|].
  rewrite foldl_snoc, filter_app, filter_cons, filter_nil, IH. unfold put_route.
  case_decide as Ht; [by rewrite Ht, build_snoc|]. apply not_true_is_false in Ht. by rewrite Ht, app_nil_r.
Qed.
Lemma tracker_build t :
  tracker_of t = mkTracker (build link_idx tracked_link (Links t)) (build keyOfAddr id (Addrs t))
                   (build keyOfRoute id (tracked_of (Routes t))).
Proof. unfold tracker_of, Reset. by rewrite routes_build. Qed.

Lemma tracked_without p l : tracked_of (without p l) = without p (tracked_of l).
Proof. unfold tracked_of, without. rewrite !list_filter_filter. apply list_filter_iff. tauto. Qed.
Lemma tracked_replaced r l : tracked_of (replaced same_route r l) =
  if tracked r then replaced same_route r (tracked_of l) else without (same_route r) (tracked_of l).
Proof.
  unfold replaced. unfold tracked_of at 1. rewrite filter_app, filter_cons, filter_nil. fold (tracked_of (without (same_route r) l)).
  rewrite tracked_without. case_decide as Ht; [by rewrite Ht|]. apply not_true_is_false in Ht. by rewrite Ht, app_nil_r.
Qed.
Lemma tracked_same r s : same_route r s = true -> tracked r = tracked s.
Proof.
  unfold same_route, tracked, cloned, RTM_F_CLONED, r_num. cbv zeta. rewrite !andb_true_iff, !bool_decide_eq_true.
  intros (((((((((_ & H2) & _) & _) & _) & _) & _) & _) & H9) & _). rewrite H2. f_equal.
  revert H9. do 4 case_bool_decide; congruence.
Qed.
Lemma without_none {A} (p : A -> bool) l : (forall x, x ∈ l -> p x = false) -> without p l = l.
Proof.
  unfold without. induction l as [|x l IH]; intros Hl; [done|]. rewrite filter_cons, decide_True by (apply Hl; by left).
  f_equal. apply IH. intros y Hy. apply Hl. by right.
Qed.
Lemma untracked_without r l : tracked r = false -> without (same_route r) (tracked_of l) = tracked_of l.
Proof.
  intros Hr. apply without_none. intros s Hs. apply list_elem_of_filter in Hs as [Hs _].
  destruct (same_route r s) eqn:E; [|done]. apply tracked_same in E. congruence.
Qed.
Lemma tracked_keys r l s : tracked r = true -> s ∈ tracked_of l -> same_route r s = true <-> keyOfRoute s = keyOfRoute r.
Proof. intros Hr Hs. apply list_elem_of_filter in Hs as [Hs _]. by apply same_route_key. Qed.
Lemma tracked_NoDup l : ForallOrdPairs (fun x y => same_route x y = false) l -> NoDup (keyOfRoute <$> tracked_of l).
Proof.
  intros Hl. apply (distinct_keys same_route); [|by apply distinct_filter]. intros x y He Hx Hy.
  apply list_elem_of_filter in Hx as [Hx _]. by apply (tracked_keys x l y).
Qed.

(** ** A notification and the change behind it *)

Lemma changed_wf c t : tables_wf t -> tables_wf (changed c t).
Proof.
  intros [Hl Ha Hr]. destruct c as [[a l|a x|a r|a n|a r] g]; split; cbn;
    repeat first [done|case_decide; cbn|apply distinct_filter|apply distinct_replaced|apply _].
Qed.

Lemma links_NoDup t : tables_wf t -> NoDup (link_idx <$> Links t).
Proof.
  intros [Hl _ _]. apply (distinct_keys same_link); [|done]. intros x y He _ _. by apply same_link_idx.
Qed.
Lemma addrs_NoDup t : tables_wf t -> NoDup (keyOfAddr <$> Addrs t).
Proof.
  intros [_ Ha _]. apply (distinct_keys same_addr); [|done]. intros x y He _ _. by apply same_addr_key.
Qed.

(** The tracker knows which links of the tables are up. *)
Lemma links_up t l : tables_wf t ->
  existsb (fun l' => same_link l l' && link_up l') (Links t) =
  match build link_idx tracked_link (Links t) !! link_idx l with Some o => up o | None => false end.
Proof.
  intros Hwf%links_NoDup. apply eq_true_iff_eq. rewrite existsb_exists. split.
  - intros (l' & Hl & [Hs Hu]%andb_true_iff). apply same_link_idx in Hs. rewrite <- Hs.
    rewrite (build_elem link_idx tracked_link _ l') by (done || by apply list_elem_of_In). exact Hu.
  - destruct (build _ _ _ !! _) as [o|] eqn:Ho; [|done]. apply build_Some in Ho as (l' & Hl & Hk & <-). intros Hu.
    exists l'. split; [by apply list_elem_of_In|]. apply andb_true_iff. split; [by apply same_link_idx|exact Hu].
Qed.

Lemma routes_gone (g q : Route.RouteInfo -> bool) l : ForallOrdPairs (fun x y => same_route x y = false) l ->
  (forall r, g r = q r) ->
  build keyOfRoute id (tracked_of (without g l)) = filter (fun kr => q kr.2 = false) (build keyOfRoute id (tracked_of l)).
Proof. intros Hl Hg. rewrite tracked_without. by apply build_filter; [apply tracked_NoDup|]. Qed.
Lemma none_gone (g : Route.RouteInfo -> bool) l : (forall r, g r = false) -> without g l = l.
Proof. intros Hg. by apply without_none. Qed.

Lemma vanishes_deleted t l r : vanishes t (LinkEvent EventActionDel l) r = flushed (link_idx l) true r.
Proof.
  cbn [vanishes]. unfold flushed, r_num, ifindex, link_idx. rewrite (bool_decide_true (EventActionDel = EventActionDel)) by done.
  cbn [negb andb orb]. destruct (Route.ri_has r Route.HasMultipath); repeat case_bool_decide; done.
Qed.
Lemma vanishes_updated t a l r : a <> EventActionDel -> vanishes t (LinkEvent a l) r =
  existsb (fun l' => same_link l l' && link_up l') (Links t) && negb (link_up l) && flushed (link_idx l) false r.
Proof.
  intros Ha. cbn [vanishes]. unfold flushed, r_num, ifindex, link_idx, RT_SCOPE_HOST. rewrite (bool_decide_false _ Ha).
  destruct (existsb _ _), (link_up l), (Route.ri_has r Route.HasMultipath); repeat case_bool_decide; done.
Qed.

Lemma tracks_link t a l g : tables_wf t -> documented t (mkChange (LinkEvent a l) g) ->
  (Apply (tracker_of t) (LinkEvent a l)).1 = tracker_of (changed (mkChange (LinkEvent a l) g) t).
Proof.
  intros Hwf Hg. unfold documented in Hg. cbn [notice gone] in Hg. unfold changed. cbn [notice gone notified].
  rewrite !tracker_build. cbn [Apply]. unfold applyLink, flushRoutes. cbv zeta. cbn [links addrs routes].
  case_decide as Ha; cbn [fst links addrs routes Links Addrs Routes].
  - subst a. f_equal.
    + symmetry. apply build_without. intros x _. apply same_link_idx.
    + symmetry. apply (build_filter keyOfAddr id _ _ (addr_on (link_idx l))); [by apply addrs_NoDup|done].
    + symmetry. apply routes_gone; [apply Hwf|]. intros r. rewrite Hg. apply vanishes_deleted.
  - setoid_rewrite (vanishes_updated t a l _ Ha) in Hg. rewrite links_up in Hg by done.
    assert (build link_idx tracked_link (replaced same_link l (Links t)) =
            <[link_idx l := tracked_link l]> (build link_idx tracked_link (Links t))) as ->.
    { apply build_replaced. intros y _. apply same_link_idx. }
    change (link_up l) with (up (tracked_link l)) in Hg.
    destruct (match build _ _ _ !! _ with Some o => up o | None => false end && negb (up (tracked_link l))); cbn [fst].
    + f_equal. symmetry. apply routes_gone; [apply Hwf|exact Hg].
    + f_equal. by rewrite none_gone.
Qed.
Lemma tracks_addr t a x g : tables_wf t -> documented t (mkChange (AddrEvent a x) g) ->
  (Apply (tracker_of t) (AddrEvent a x)).1 = tracker_of (changed (mkChange (AddrEvent a x) g) t).
Proof.
  intros Hwf Hg. unfold changed. cbn [notice gone notified Links Addrs Routes]. rewrite none_gone by exact Hg.
  rewrite !tracker_build. cbn [Apply]. cbn [links addrs routes Links Addrs Routes].
  case_decide; [rewrite deleteKey_eq|]; cbn [fst]; f_equal; symmetry; [apply build_without|apply (build_replaced keyOfAddr id)];
    intros y _; apply same_addr_key.
Qed.
Lemma tracks_route t a r g : tables_wf t -> documented t (mkChange (RouteEvent a r) g) ->
  (Apply (tracker_of t) (RouteEvent a r)).1 = tracker_of (changed (mkChange (RouteEvent a r) g) t).
Proof.
  intros Hwf Hg. unfold changed. cbn [notice gone notified Links Addrs Routes]. rewrite none_gone by exact Hg.
  rewrite !tracker_build. cbn [Apply]. cbn [links addrs routes Links Addrs Routes].
  destruct (tracked r) eqn:Hr; cbn [negb].
  - case_decide; [rewrite deleteKey_eq, tracked_without|rewrite tracked_replaced, Hr]; cbn [fst]; f_equal; symmetry.
    + apply build_without. intros y Hy. by eapply tracked_keys.
    + apply (build_replaced keyOfRoute id). intros y Hy. by eapply tracked_keys.
  - cbn [fst]. f_equal. case_decide; [rewrite tracked_without|rewrite tracked_replaced, Hr]; by rewrite untracked_without.
Qed.
Lemma tracks c t : tables_wf t -> documented t c -> (Apply (tracker_of t) (notice c)).1 = tracker_of (changed c t).
Proof.
  intros Hwf Hg. destruct c as [[a l|a x|a r|a n|a r] g]; [by apply tracks_link|by apply tracks_addr|by apply tracks_route|..].
  all: unfold changed; cbn [notice gone notified Links Addrs Routes Apply fst]; by rewrite none_gone by exact Hg; destruct t.
Qed.

(** ** What a notification does to one key *)

(** Either it fixes the entry, or it keeps the entries some test admits. *)
Definition acts {A} (f : option A -> option A) : Prop :=
  (exists c, forall x, f x = c) \/ (exists p : A -> bool, forall x, f x = x ≫= fun v => if p v then Some v else None).

Lemma acts_id {A} (f : option A -> option A) : (forall x, f x = x) -> acts f.
Proof. intros Hf. right. exists (fun _ => true). intros []; by rewrite Hf. Qed.
Lemma acts_const {A} (f : option A -> option A) c : (forall x, f x = c) -> acts f.
Proof. intros Hf. left. by exists c. Qed.
Lemma acts_comp {A} (f g : option A -> option A) : acts f -> acts g -> acts (fun x => g (f x)).
Proof.
  intros Hf [[c Hc]|[q Hq]]; [by apply (acts_const _ c)|]. destruct Hf as [[c Hc]|[p Hp]].
  - left. exists (g c). intros x. by rewrite Hc.
  - right. exists (fun v => p v && q v). intros x. rewrite Hq, Hp. destruct x as [v|]; [|done]. cbn.
    by destruct (p v).
Qed.
Lemma acts_idem {A} (f : option A -> option A) x : acts f -> f (f x) = f x.
Proof.
  intros [[c Hc]|[p Hp]]; [by rewrite !Hc|]. rewrite !Hp. destruct x as [v|]; [|done]. cbn.
  destruct (p v) eqn:Hv; cbn; [by rewrite Hv|done].
Qed.

(** A change of a map that acts key by key, and folding one again. *)
Definition keywise `{Countable K} {A} (F : gmap K A -> gmap K A) : Prop :=
  forall k, exists f, acts f /\ forall m, F m !! k = f (m !! k).

Section Keywise.
Context `{Countable K} {A : Type}.
Implicit Types F G : gmap K A -> gmap K A.

Lemma keywise_id : keywise (fun m : gmap K A => m).
Proof. intros k. exists (fun x => x). split; [by apply acts_id|done]. Qed.
Lemma keywise_comp F G : keywise F -> keywise G -> keywise (fun m => G (F m)).
Proof.
  intros HF HG k. destruct (HF k) as (f & Af & Ef), (HG k) as (g & Ag & Eg). exists (fun x => g (f x)).
  split; [by apply acts_comp|]. intros m. by rewrite Eg, Ef.
Qed.
Lemma keywise_idem F m : keywise F -> F (F m) = F m.
Proof. intros HF. apply map_eq. intros k. destruct (HF k) as (f & Af & Ef). rewrite !Ef. by apply acts_idem. Qed.
Lemma keywise_insert i (v : A) : keywise (insert (M := gmap K A) i v).
Proof.
  intros k. destruct (decide (i = k)) as [->|Hne].
  - exists (fun _ => Some v). split; [by eapply acts_const|]. intros m. by rewrite lookup_insert_eq.
  - exists (fun x => x). split; [by apply acts_id|]. intros m. by rewrite lookup_insert_ne.
Qed.
Lemma keywise_delete i : keywise (delete (M := gmap K A) i).
Proof.
  intros k. destruct (decide (i = k)) as [->|Hne].
  - exists (fun _ => None). split; [by eapply acts_const|]. intros m. by rewrite lookup_delete_eq.
  - exists (fun x => x). split; [by apply acts_id|]. intros m. by rewrite lookup_delete_ne.
Qed.
Lemma keywise_filter (p : A -> bool) : keywise (fun m : gmap K A => filter (fun kv => p kv.2 = false) m).
Proof.
  intros k. exists (fun x => x ≫= fun v => if negb (p v) then Some v else None).
  split; [right; by exists (fun v => negb (p v))|].
  intros m. rewrite map_lookup_filter. destruct (m !! k) as [v|]; [|done]. cbn.
  destruct (p v) eqn:Hv; cbn; [by rewrite option_guard_False by congruence|by rewrite option_guard_True].
Qed.
Lemma deleteKey_delete (m : gmap K A) k : (deleteKey m k).1 = delete k m.
Proof. unfold deleteKey. destruct (m !! k) eqn:Hk; [done|]. cbn. by rewrite delete_id. Qed.
End Keywise.
#[local] Hint Resolve keywise_id keywise_insert keywise_delete keywise_filter : core.

(** A change of the tracker that acts key by key on each of its maps. *)
Definition pointwise (g : Tracker -> Tracker) : Prop :=
  exists fl fa fr, keywise fl /\ keywise fa /\ keywise fr /\
    forall t, g t = mkTracker (fl (links t)) (fa (addrs t)) (fr (routes t)).

Lemma pointwise_id : pointwise (fun t => t).
Proof. exists (fun m => m), (fun m => m), (fun m => m). repeat split; auto. by intros []. Qed.
Lemma pointwise_comp g h : pointwise g -> pointwise h -> pointwise (fun t => h (g t)).
Proof.
  intros (f1 & f2 & f3 & F1 & F2 & F3 & E) (g1 & g2 & g3 & G1 & G2 & G3 & E').
  exists (fun m => g1 (f1 m)), (fun m => g2 (f2 m)), (fun m => g3 (f3 m)).
  repeat split; try (by apply keywise_comp). intros t. by rewrite E', E.
Qed.
Lemma pointwise_idem g t : pointwise g -> g (g t) = g t.
Proof. intros (f1 & f2 & f3 & F1 & F2 & F3 & E). rewrite !E. cbn. by rewrite !keywise_idem. Qed.

(** ** Replaying *)

(** Every notification but one that says a link is down. *)
Definition link_stays_up (ev : event) : Prop :=
  match ev with LinkEvent a l => a = EventActionDel \/ up (tracked_link l) = true | _ => True end.

Definition fold_event (ev : event) (t : Tracker) : Tracker := (Apply t ev).1.

Lemma pointwise_link a l : link_stays_up (LinkEvent a l) -> pointwise (fold_event (LinkEvent a l)).
Proof.
  unfold fold_event. cbn [Apply link_stays_up]. unfold applyLink. intros Hok.
  destruct (decide (a = EventActionDel)) as [Hd|Hd].
  - exists (delete (link_idx l)), (fun m => filter (fun ka => addr_on (link_idx l) ka.2 = false) m),
      (fun m => filter (fun kr => flushed (link_idx l) true kr.2 = false) m).
    repeat split; auto.
  - destruct Hok as [?|Hup]; [done|]. exists (insert (link_idx l) (tracked_link l)), (fun m => m), (fun m => m).
    repeat split; auto. intros t. by rewrite Hup, andb_false_r.
Qed.
Lemma pointwise_apply ev : link_stays_up ev -> pointwise (fold_event ev).
Proof.
  intros Hok. destruct ev as [a l|a ai|a r|a n|a r]; [by apply pointwise_link|unfold fold_event; cbn [Apply]..];
    [| |apply pointwise_id..].
  - destruct (decide (a = EventActionDel)) as [Hd|Hd].
    + exists (fun m => m), (delete (keyOfAddr ai)), (fun m => m). repeat split; auto. intros t.
      rewrite <- deleteKey_delete. by destruct (deleteKey _ _).
    + by exists (fun m => m), (insert (keyOfAddr ai) ai), (fun m => m); repeat split; auto.
  - destruct (tracked r); cbn [negb]; [|apply pointwise_id]. destruct (decide (a = EventActionDel)) as [Hd|Hd].
    + exists (fun m => m), (fun m => m), (delete (keyOfRoute r)). repeat split; auto. intros t.
      rewrite <- deleteKey_delete. by destruct (deleteKey _ _).
    + by exists (fun m => m), (fun m => m), (insert (keyOfRoute r) r); repeat split; auto.
Qed.

#[local] Arguments applies : simpl never.
Lemma applies_snoc l ev t : applies fold_event (l ++ [ev]) t = fold_event ev (applies fold_event l t).
Proof. unfold applies. by rewrite foldl_snoc. Qed.
Lemma pointwise_applies l : Forall link_stays_up l -> pointwise (applies fold_event l).
Proof.
  induction l as [|ev l IH] using rev_ind; intros Hl; [apply pointwise_id|]. apply Forall_app in Hl as [Hl He]. inv He.
  destruct (pointwise_comp _ _ (IH Hl) (pointwise_apply ev ltac:(assumption))) as (g1 & g2 & g3 & G1 & G2 & G3 & E').
  exists g1, g2, g3. repeat split; auto. intros t. rewrite applies_snoc. apply E'.
Qed.
(** Run's comment, "applying it again is idempotent". *)
Lemma replay l t : Forall link_stays_up l -> applies fold_event l (applies fold_event l t) = applies fold_event l t.
Proof. intros Hl. apply (pointwise_idem (applies fold_event l)). by apply pointwise_applies. Qed.

(** *** One table at a time *)

Inductive part := PLinks | PAddrs | PRoutes.
#[export] Instance part_eq : EqDecision part. Proof. solve_decision. Defined.
Definition agree (p : part) (t t' : Tracker) : Prop :=
  match p with PLinks => links t = links t' | PAddrs => addrs t = addrs t' | PRoutes => routes t = routes t' end.
Lemma agree_all t t' : (forall p, agree p t t') -> t = t'.
Proof.
  intros H. pose proof (H PLinks) as H1. pose proof (H PAddrs) as H2. pose proof (H PRoutes) as H3.
  destruct t, t'. cbn in *. congruence.
Qed.
Lemma agree_applies p l t t' : Forall link_stays_up l -> agree p t t' -> agree p (applies fold_event l t) (applies fold_event l t').
Proof.
  intros (f1 & f2 & f3 & _ & _ & _ & E)%pointwise_applies. rewrite !E. destruct p; cbn; by intros ->.
Qed.

(** ** The monitor's tracker *)

(** The groups the locality listener joins, and the dumps they need. *)
Definition localityGroups : list Z := [GroupLink; GroupIPv4Addr; GroupIPv6Addr; GroupIPv4Route; GroupIPv6Route].
Definition part_req (p : part) : dumpReq :=
  mkDumpReq (match p with PLinks => RTM_GETLINK | PAddrs => RTM_GETADDR | PRoutes => RTM_GETROUTE end) AF_UNSPEC.
Definition locality_parts : list part := [PLinks; PAddrs; PRoutes].
Lemma locality_plan : planDumps localityGroups = inl (part_req <$> locality_parts).
Proof. reflexivity. Qed.

(** The tables of a dump, whole. *)
Definition part_of (p : part) (t s : tables) : tables :=
  match p with
  | PLinks => mkTables (Links t) (Addrs s) (Routes s) (Neighs s)
  | PAddrs => mkTables (Links s) (Addrs t) (Routes s) (Neighs s)
  | PRoutes => mkTables (Links s) (Addrs s) (Routes t) (Neighs s)
  end.
Definition empty_part (p : part) (s : tables) : Prop :=
  match p with PLinks => Links s = [] | PAddrs => Addrs s = [] | PRoutes => Routes s = [] end.
Lemma filter_all {A} (f : A -> bool) (l : list A) : (forall x, f x = true) -> filter (fun x => f x = true) l = l.
Proof. intros Hf. induction l as [|x l IH]; [done|]. rewrite filter_cons, decide_True by apply Hf. by f_equal. Qed.
Lemma dump_part t s p : empty_part p s -> dump_table t s (part_req p) = part_of p t s.
Proof.
  unfold dump_table. destruct p; cbn [part_req msgType family empty_part part_of]; intros He.
  - rewrite decide_True by done. by rewrite He.
  - rewrite decide_False, decide_True by done. by rewrite He, (filter_all (fun a => _ || bool_decide (AF_UNSPEC = Addr.ai_num a Addr.Family))).
  - rewrite decide_False, decide_False, decide_True by done.
    by rewrite He, (filter_all (fun x => _ || bool_decide (AF_UNSPEC = Route.ri_num x Route.Family))).
Qed.
Lemma snapshot_locality t : tracker_of (snapshot_of (part_req <$> locality_parts) t) = tracker_of t.
Proof. unfold snapshot_of. cbn [fmap list_fmap locality_parts foldl]. by rewrite !dump_part. Qed.
Lemma agree_part p t s : agree p (tracker_of (part_of p t s)) (tracker_of t).
Proof. by destruct p. Qed.
Lemma agree_other p p' t s : p <> p' -> agree p (tracker_of (part_of p' t s)) (tracker_of s).
Proof. by destruct p, p'. Qed.

(** The changes considered: they take no route away but those the comments
    name, and no notification says that a link is down. *)
Definition plain (t : tables) (c : change) : Prop := documented t c /\ link_stays_up (notice c).

(** A snapshot under way: the tables not yet dumped are still empty, and once
    what is queued is folded onto the others they are the kernel's. *)
Definition under_way (todo : list dumpReq) (x : tables) (q : list event) (t : tables) : Prop :=
  exists ps, todo = part_req <$> ps /\ suffix ps locality_parts /\ Forall (fun p => empty_part p x) ps /\
    forall p, p ∉ ps -> agree p (applies fold_event q (tracker_of x)) (tracker_of t).

(** What holds in each phase: unless an ENOBUFS is pending, the queue is
    gap-free since some state - the handler's, while receiving. *)
Definition phase_ok (w : world (St := Tracker)) : Prop :=
  match at_phase w with
  | Receiving _ => enobufs w = true \/
      congested w = false /\ applies fold_event (queue w) (state w) = tracker_of (table w)
  | Resync _ _ todo x => enobufs w = true \/ congested w = false /\
      (exists k, applies fold_event (queue w) k = tracker_of (table w)) /\ under_way todo x (queue w) (table w)
  | Draining _ | Ended => True
  end.
Definition following (w : world) : Prop :=
  tables_wf (table w) /\ Forall link_stays_up (queue w) /\ phase_ok w.

Lemma kernel_following w w' : kernel_step plain w w' -> following w -> following w'.
Proof.
  unfold following, phase_ok. destruct 1 as [t q en s p now l c [Hc Hu]|t q en s p now l c [Hc Hu]|t q en s p now l c [Hc Hu]|];
    cbn; intros (Hwf & Hq & Hw).
  4: done.
  all: split; [by apply changed_wf|]; split; [rewrite ?Forall_app, ?Forall_singleton; done|].
  all: destruct p; try done; destruct Hw as [H|[H1 H2]]; try (by left); try done; right; (split; [done|]).
  - destruct H2 as [[k Hk] (ps & Hps & Hs & He & Ha)]. split.
    + exists k. by rewrite applies_snoc, Hk, <- (tracks c t).
    + exists ps. split_and!; try done. intros p Hp. rewrite applies_snoc, <- (tracks c t) by done.
      apply (agree_applies p [notice c]); [by constructor|]. by apply Ha.
  - by rewrite applies_snoc, H2, <- (tracks c t).
Qed.

Lemma suffix_fresh p ps : suffix (p :: ps) locality_parts -> p ∉ ps /\ suffix ps locality_parts.
Proof.
  intros [l Hl]. split; [|exists (l ++ [p]); by rewrite <- app_assoc].
  assert (NoDup locality_parts) as Hd by (refine (bool_decide_unpack _ _); vm_compute; exact I).
  rewrite Hl in Hd. apply NoDup_app in Hd as (_ & _ & Hd). by apply NoDup_cons in Hd as [? _].
Qed.
Lemma dump_under_way d todo x q t : Forall link_stays_up q -> (exists k, applies fold_event q k = tracker_of t) ->
  under_way (d :: todo) x q t -> under_way todo (dump_table t x d) q t.
Proof.
  intros Hq [k Hk] ([|p ps] & Hps & Hs & He & Ha); [done|]. injection Hps as -> ->. inv He.
  destruct (suffix_fresh _ _ Hs) as [Hf Hs']. rewrite dump_part by done. exists ps. split_and!; [done..| |].
  - apply Forall_forall. intros p' Hp'. rewrite Forall_forall in *.
    assert (empty_part p' x) by auto. destruct p, p'; try done; by destruct Hf.
  - intros p' Hp'. destruct (decide (p' = p)) as [->|Hne].
    + assert (tracker_of t = applies fold_event q (tracker_of t)) as Ht by (rewrite <- Hk, replay; done).
      rewrite Ht. apply agree_applies; [done|]. apply agree_part.
    + specialize (Ha p' ltac:(set_solver)). revert Ha.
      pose proof (agree_applies p' q _ _ Hq (agree_other p' p t x Hne)) as Hx. destruct p'; cbn in *; congruence.
Qed.
Lemma starts_under_way q t : under_way (part_req <$> locality_parts) no_tables q t.
Proof. exists locality_parts. split_and!; [done..| |]; [by repeat constructor|]. intros p Hp. destruct p; set_solver. Qed.

Lemma run_following cfg w w' : planDumps localityGroups = inl (plan cfg) ->
  run_step tracker_of fold_event cfg w w' -> following w -> following w'.
Proof.
  rewrite locality_plan. intros [= Hplan]. unfold following, phase_ok. destruct 1; cbn; intros (Hwf & Hq & Hw);
    (split; [done|]); (split; [by repeat (done || inv Hq)|]); try done.
  - destruct Hw as [Hw|(Hw & Hk & Hu)]; [by left|right]. split_and!; [done..|]. by apply dump_under_way.
  - destruct Hw as [Hw|(Hw & Hk & Hu)]; [by left|right]. split_and!; [done..|]. rewrite <- Hplan. apply starts_under_way.
  - destruct Hw as [Hw|(Hw & _ & ps & Hps & _ & _ & Ha)]; [by left|right]. split; [done|]. apply agree_all. intros p.
    apply Ha. destruct ps; [apply not_elem_of_nil|done].
  - destruct Hw as [Hw|[H1 H2]]; [done|]. right. split; [by destruct q|exact H2].
  - unfold after_batch. case_decide; [done|]. cbn. destruct Hw as [Hw|[Hc Hk]]; [by left|right].
    split_and!; [done|by eexists|]. rewrite <- Hplan. apply starts_under_way.
  - right. split_and!; [done|by exists (tracker_of t)|]. rewrite <- Hplan. apply starts_under_way.
Qed.

Lemma about_to_dump_following cfg w : planDumps localityGroups = inl (plan cfg) -> tables_wf (table w) ->
  about_to_dump cfg w -> following w.
Proof.
  rewrite locality_plan. intros [= Hplan] Hwf ((r & Hr) & Hq & He & Hc). unfold following, phase_ok. rewrite Hr, Hq. cbn.
  split_and!; [done..|right]. split_and!; [done|by exists (tracker_of (table w))|]. rewrite <- Hplan. apply starts_under_way.
Qed.
Lemma runs_following cfg w0 w : planDumps localityGroups = inl (plan cfg) -> following w0 ->
  rtc (both tracker_of fold_event plain cfg) w0 w -> following w.
Proof.
  intros Hp H0. induction 1 as [|w1 w2 w3 [Hs|Hs] _ IH]; [done|..]; apply IH; [by eapply kernel_following|by eapply run_following].
Qed.

(** C11: from every point where the monitor of the locality listener is about to
    take a snapshot with nothing queued - its start, the end of every drain -
    however stale the tracker was, and through whatever follows - kernel changes
    between the dumps of the three tables (one that changes the table being
    dumped is marked by the kernel and the snapshot is retaken), overruns,
    truncated datagrams, periodic refreshes - whenever it is receiving
    and no loss is pending, folding what is still queued onto the tracker gives
    the tracker a dump of the kernel's tables would give; with an empty queue the
    tracker is that one. The kernel's changes are limited to those that take no
    route away silently but the ones the Tracker's comments name (an IPv6 route
    replaced or an IPv4 one prepended may) and whose notifications say of no
    link that it is down. *)
Theorem tracker_follows_kernel cfg w0 w :
  planDumps localityGroups = inl (plan cfg) -> tables_wf (table w0) -> about_to_dump cfg w0 ->
  rtc (both tracker_of fold_event plain cfg) w0 w ->
  forall d, at_phase w = Receiving d -> enobufs w = false ->
  applies fold_event (queue w) (state w) = tracker_of (table w) /\
  (queue w = [] -> state w = tracker_of (table w)).
Proof.
  intros Hp Hwf H0 Hr d Hd He.
  assert (applies fold_event (queue w) (state w) = tracker_of (table w)) as H.
  { destruct (runs_following cfg w0 w Hp (about_to_dump_following cfg w0 Hp Hwf H0) Hr) as (_ & _ & H).
    unfold phase_ok in H. rewrite Hd in H. destruct H as [H|[_ H]]; [congruence|done]. }
  split; [done|]. intros Hq. by rewrite Hq in H.
Qed.

(** *** Recovery *)

Lemma inevitable_keeps cfg (goal goal' : world -> Prop) w : inevitable tracker_of fold_event cfg goal w ->
  (forall w', table w' = table w -> goal w' -> goal' w') -> inevitable tracker_of fold_event cfg goal' w.
Proof.
  induction 1 as [w [Hg|He]|w Hex _ IH]; intros Hgoal; [apply in_goal; left; by apply Hgoal|by apply in_goal; right|].
  apply in_step; [done|]. intros w' Hw. apply (IH w' Hw). intros w'' Ht. apply Hgoal. rewrite Ht. by inv Hw.
Qed.


(** C33: folding a notification onto the tracker of the kernel's tables gives the
    tracker of the tables after the change behind it - the addresses of a deleted
    link and the routes a link takes with it when deleted or set down included -
    for every change that takes no other route away silently: the tracker's
    keys tell apart exactly what the kernel's identities tell apart. *)
Theorem tracker_tracks_changes c t : tables_wf t -> documented t c ->
  (Apply (tracker_of t) (notice c)).1 = tracker_of (changed c t) /\ tables_wf (changed c t).
Proof. intros Hwf Hc. split; [by apply tracks|by apply changed_wf]. Qed.

(** ** A stale route *)

(** A route through a link, and that link going down, while the first snapshot
    is taken. *)
Definition demo_cfg : runConfig := mkRunConfig 3 30 (part_req <$> locality_parts).
Definition demo_up : tables := mkTables [demo_link 2 1 [101]] [] [] [].
Definition demo_route_added : change :=
  mkChange (RouteEvent EventActionAdd (demo_route RTN_UNICAST (Some [10; 0; 0; 0]) 24 None 2)) (fun _ => false).
Definition demo_routed : tables := changed demo_route_added demo_up.
Definition demo_down : event := LinkEvent EventActionAdd (demo_link 2 0 [101]).
Definition demo_link_down : change := mkChange demo_down (vanishes demo_routed demo_down).
Definition demo_start : world := mkWorld demo_up [] false false NewTracker (resync demo_cfg ReasonStart) 0 0.

Lemma demo_up_wf : tables_wf demo_up.
Proof. split; repeat constructor. Qed.
Lemma demo_routed_wf : tables_wf demo_routed.
Proof. apply changed_wf, demo_up_wf. Qed.
Lemma demo_start_about : about_to_dump demo_cfg demo_start.
Proof. split; [by exists ReasonStart|done]. Qed.

Lemma both_kernel ok cfg w w' w'' : kernel_step ok w w' -> rtc (both tracker_of fold_event ok cfg) w' w'' ->
  rtc (both tracker_of fold_event ok cfg) w w''.
Proof. intros Hk. by apply rtc_l; left. Qed.
Lemma both_run ok cfg w w' w'' : run_step tracker_of fold_event cfg w w' -> rtc (both tracker_of fold_event ok cfg) w' w'' ->
  rtc (both tracker_of fold_event ok cfg) w w''.
Proof. intros Hr. by apply rtc_l; right. Qed.

Definition demo_stale : Tracker := fold_event demo_down (fold_event (notice demo_route_added) (tracker_of (changed demo_link_down demo_routed))).

(** With a link going down the fold is not idempotent: a route added and its
    link set down while the first snapshot is taken are folded again onto it;
    the link is down there already, so the fold sees no transition, flushes
    nothing, and keeps a route the kernel has dropped - with nothing queued and
    nothing lost. *)
Theorem stale_route_after_link_down : exists w,
  rtc (both tracker_of fold_event documented demo_cfg) demo_start w /\
  at_phase w = Receiving 2 /\ enobufs w = false /\ queue w = [] /\
  size (routes (tracker_of (table w))) = 0%nat /\ size (routes (state w)) = 1%nat.
Proof.
  eexists. split.
  - eapply both_kernel; [by apply (k_queued _ _ _ _ _ _ _ _ demo_route_added)|].
    eapply both_kernel; [by apply (k_queued _ _ _ _ _ _ _ _ demo_link_down)|].
    do 3 (eapply both_run; [apply r_dumped|]). eapply both_run; [apply r_snapshot|].
    do 2 (eapply both_run; [apply r_deliver; unfold maxBatch; lia|]). apply rtc_refl.
  - vm_compute. by repeat split.
Qed.

(** *** Witnesses *)

(** The route is added between the dump of the links and that of the addresses. *)
Definition demo_received : world :=
  mkWorld demo_routed [notice demo_route_added] false false
    (tracker_of (mkTables (Links demo_up) (Addrs demo_routed) (Routes demo_routed) [])) (Receiving 0) 0 0.
Lemma demo_path : rtc (both tracker_of fold_event plain demo_cfg) demo_start demo_received.
Proof.
  eapply both_run; [apply r_dumped|]. eapply both_kernel; [by apply (k_queued _ _ _ _ _ _ _ _ demo_route_added)|].
  do 2 (eapply both_run; [apply r_dumped|]). eapply both_run; [apply r_snapshot|]. apply rtc_refl.
Qed.
Lemma tracker_follows_kernel_witness :
  applies fold_event (queue demo_received) (state demo_received) = tracker_of (table demo_received) /\
  (queue demo_received = [] -> state demo_received = tracker_of (table demo_received)).
Proof.
  apply (tracker_follows_kernel demo_cfg demo_start demo_received eq_refl demo_up_wf demo_start_about demo_path 0);
    reflexivity.
Defined.


Lemma tracker_tracks_changes_witness :
  (Apply (tracker_of demo_routed) demo_down).1 = tracker_of (changed demo_link_down demo_routed) /\
  tables_wf (changed demo_link_down demo_routed).
Proof. apply (tracker_tracks_changes demo_link_down demo_routed); [apply demo_routed_wf|intros r; reflexivity]. Defined.
