(* ===== verification/NsDiscover.v ===== *)
(** Namespace discovery (pkg/nsdiscover/scanner.go and resolve.go, and
    pkg/xtcp/ns_discover.go): the scan of /proc for distinct network namespaces,
    the names and paths of bind-mounted ones, and the union of both that the
    reconciler converges to.

    What the kernel answers - directory listings, link targets, inodes, cgroup
    files - is an argument: a list of entries, or a function that is [None] when
    the call fails. *)

From S2P Require Import Prelude InetDiag.

(** ** Parsing *)

Definition is_digit (c : Z) : bool := (48 <=? c) && (c <=? 57).

(** [n = n*10 + int(c-'0')] in 64 bits; a byte that is no digit ends it. *)
Fixpoint digits (wrap : Z -> Z) (n : Z) (b : bytes) : option Z :=
  match b with
  | [] => Some n
  | c :: b => if is_digit c then digits wrap (wrap (n * 10 + (c - 48))) b else None
  end.
Definition atoiBytes (b : bytes) : option Z := if decide (length b = 0%nat) then None else digits int64 0 b.

Fixpoint IndexByte (b : bytes) (c : Z) : option nat :=
  match b with
  | [] => None
  | h :: t => if decide (h = c) then Some 0%nat else S <$> IndexByte t c
  end.
Definition parseNetInode (target : bytes) : option Z :=
  match IndexByte target 91, IndexByte target 93 with
  | Some l, Some r => if decide (r <= l + 1)%nat then None else digits uint64 0 (take (r - (l + 1)) (drop (l + 1) target))
  | _, _ => None
  end.

(** [strconv.FormatUint(n, 10)]: at most twenty digits. *)
Fixpoint format_loop (fuel : nat) (n : Z) (acc : bytes) : bytes :=
  match fuel with
  | O => acc
  | S fuel => let acc := (48 + n mod 10) :: acc in if decide (n < 10) then acc else format_loop fuel (n / 10) acc
  end.
Definition FormatUint (n : Z) : bytes := format_loop 20 n [].
Definition net_link (inode : Z) : bytes := ascii_bytes "net:[" ++ FormatUint inode ++ [93].

(** ** The scan *)

Record Namespace := mkNamespace { Inode : Z; Pid : Z }.

(** One directory entry: not a pid to look at, a pid whose link could not be
    read, or a namespace. *)
Inductive entry := NotAPid | Unreadable | Found (ns : Namespace).

Section Scan.
(** The pid skipped, and readlinkat of "<pid>/ns/net". *)
Context (skip : Z) (readlink : bytes -> option bytes).

Definition read_entry (name : bytes) : entry :=
  match name with
  | [] => NotAPid
  | c :: _ =>
      if negb (is_digit c) then NotAPid else
      match atoiBytes name with
      | None => NotAPid
      | Some pid =>
          if decide (pid = skip) then NotAPid else
          match readlink (name ++ ascii_bytes "/ns/net") with
          | None => Unreadable
          | Some target => match parseNetInode target with None => Unreadable | Some ino => Found (mkNamespace ino pid) end
          end
      end
  end.

Fixpoint scan_loop (names : list bytes) (seen : gset Z) (skipped : Z) : list Namespace * Z :=
  match names with
  | [] => ([], skipped)
  | name :: names =>
      match read_entry name with
      | NotAPid => scan_loop names seen skipped
      | Unreadable => scan_loop names seen (skipped + 1)
      | Found ns =>
          if decide (Inode ns ∈ seen) then scan_loop names seen skipped
          else let '(r, s) := scan_loop names ({[ Inode ns ]} ∪ seen) skipped in (ns :: r, s)
      end
  end.
(** The namespaces Scan calls back with, in order, and its result. *)
Definition Scan (names : list bytes) : list Namespace * Z := scan_loop names ∅ 0.
End Scan.

(** ** Names and paths *)

Record Resolver := mkResolver { byInode : gmap Z bytes; pathByIno : gmap Z bytes }.

(** An entry of a bind-mount directory, with what Stat says of it. *)
Record dir_entry := mkDirEntry { de_name : bytes; de_dir : bool; de_ino : option Z }.

Section Resolve.
(** [filepath.Join], and the cgroup file of a pid. *)
Context (Join : bytes -> bytes -> bytes) (cgroup : Z -> option bytes).

Definition refresh_entry (dir : bytes) (r : Resolver) (e : dir_entry) : Resolver :=
  if de_dir e then r else
  match de_ino e with
  | None => r
  | Some ino =>
      match byInode r !! ino with
      | Some _ => r
      | None => mkResolver (<[ino := de_name e]> (byInode r)) (<[ino := Join dir (de_name e)]> (pathByIno r))
      end
  end.
(** A directory that cannot be read is [None]. *)
Definition refresh_dir (r : Resolver) (d : bytes * option (list dir_entry)) : Resolver :=
  match d.2 with None => r | Some entries => foldl (refresh_entry d.1) r entries end.
Definition Resolver_Refresh (dirs : list (bytes * option (list dir_entry))) : Resolver :=
  foldl refresh_dir (mkResolver ∅ ∅) dirs.

Definition isHexLower (c : Z) : bool := (48 <=? c) && (c <=? 57) || (97 <=? c) && (c <=? 102).

(** [run] and [start] of the loop, at position [i]. *)
Fixpoint container_loop (all : bytes) (i : nat) (rest : bytes) (run start : nat) : bytes :=
  match rest with
  | c :: rest =>
      if isHexLower c then container_loop all (S i) rest (S run) (if decide (run = 0%nat) then i else start)
      else if decide (64 <= run)%nat then take 64 (drop start all) else container_loop all (S i) rest 0 start
  | [] => if decide (64 <= run)%nat then take 64 (drop start all) else []
  end.
Definition parseContainerID (cg : bytes) : bytes := container_loop cg 0 cg 0 0.
Definition containerID (pid : Z) : bytes := match cgroup pid with None => [] | Some data => parseContainerID data end.

Definition Name (r : Resolver) (inode pid : Z) : bytes :=
  match byInode r !! inode with
  | Some name => name
  | None =>
      match containerID pid with
      | [] => ascii_bytes "netns:[" ++ FormatUint inode ++ [93]
      | cid => cid
      end
  end.

(** ** The union *)

Record nsIdentity := mkIdentity { id_inode : Z; id_pid : Z; id_name : bytes; id_path : bytes }.

Definition add_proc (r : Resolver) (out : gmap Z nsIdentity) (ns : Namespace) : gmap Z nsIdentity :=
  <[Inode ns := mkIdentity (Inode ns) (Pid ns) (Name r (Inode ns) (Pid ns)) []]> out.
Definition add_mount (r : Resolver) (out : gmap Z nsIdentity) (m : Z * bytes) : gmap Z nsIdentity :=
  match out !! m.1 with
  | Some _ => out
  | None => <[m.1 := mkIdentity m.1 0 (Name r m.1 0) m.2]> out
  end.
(** [mounts] is EachBindMount's order: that of a Go map. *)
Definition discover (r : Resolver) (scan : list Namespace) (mounts : list (Z * bytes)) : gmap Z nsIdentity :=
  foldl (add_mount r) (foldl (add_proc r) ∅ scan) mounts.
Definition discoverNamespaces (dirs : list (bytes * option (list dir_entry))) (skip : Z)
    (readlink : bytes -> option bytes) (names : list bytes) : gmap Z nsIdentity :=
  let r := Resolver_Refresh dirs in
  discover r (Scan skip readlink names).1 (map_to_list (pathByIno r)).
End Resolve.

(** ** Decimal numbers *)

Lemma digits_app wrap n l m : digits wrap n (l ++ m) = digits wrap n l ≫= fun v => digits wrap v m.
Proof. revert n. induction l as [|c l IH]; intros n; cbn; [done|]. by destruct (is_digit c). Qed.
Lemma IndexByte_app l c m : Forall (fun b => b <> c) l -> IndexByte (l ++ c :: m) c = Some (length l).
Proof.
  induction 1 as [|b l Hb Hl IH]; cbn; [by rewrite decide_True|]. by rewrite decide_False, IH.
Qed.

Lemma is_digit_mod n : is_digit (48 + n mod 10) = true.
Proof. unfold is_digit. pose proof (Z.mod_pos_bound n 10 ltac:(lia)). lia. Qed.
(** The rendered number in front of [acc], when [n] has at most [fuel] digits. *)
Lemma format_loop_digits fuel n acc : 0 <= n < 2 ^ 64 -> n < 10 ^ Z.of_nat fuel -> (0 < fuel)%nat ->
  exists ds, format_loop fuel n acc = ds ++ acc /\ Forall (fun c => is_digit c = true) ds /\
    ds <> [] /\ digits uint64 0 ds = Some n.
Proof.
  revert n acc. induction fuel as [|fuel IH]; intros n acc Hn Hf H0; [lia|]. cbn [format_loop].
  pose proof (Z.mod_pos_bound n 10 ltac:(lia)) as Hm. pose proof (Z.div_mod n 10 ltac:(lia)) as Hd.
  case_decide as Hlt.
  - exists [48 + n mod 10]. split; [done|]. split; [by repeat constructor; apply is_digit_mod|].
    split; [done|]. cbn. rewrite is_digit_mod. f_equal. rewrite Z.mod_small by lia. unfold uint64.
    rewrite Z.mod_small; lia.
  - assert (0 < fuel)%nat as Hp by (destruct fuel; [cbn in Hf; lia|lia]).
    destruct (IH (n / 10) ((48 + n mod 10) :: acc)) as (ds & He & Hds & Hne & Hv); [lia| |done|].
    { apply Z.div_lt_upper_bound; [lia|]. rewrite Nat2Z.inj_succ, Z.pow_succ_r in Hf by lia. lia. }
    exists (ds ++ [48 + n mod 10]). rewrite He, <- app_assoc. split; [done|].
    split; [apply Forall_app; split; [done|by repeat constructor; apply is_digit_mod]|]. split; [by destruct ds|].
    rewrite digits_app, Hv. cbn. rewrite is_digit_mod. f_equal. unfold uint64. rewrite Z.mod_small; lia.
Qed.
Lemma FormatUint_digits n : 0 <= n < 2 ^ 64 ->
  Forall (fun c => is_digit c = true) (FormatUint n) /\ FormatUint n <> [] /\ digits uint64 0 (FormatUint n) = Some n.
Proof.
  intros Hn. destruct (format_loop_digits 20 n []) as (ds & He & Hds); [done|change (10 ^ Z.of_nat 20) with (10^20); lia|lia|].
  unfold FormatUint. by rewrite He, app_nil_r.
Qed.

(** The inode of a namespace link "net:[n]" is read back as [n], for every
    64-bit inode. *)
Theorem parseNetInode_roundtrip n : 0 <= n < 2 ^ 64 -> parseNetInode (net_link n) = Some n.
Proof.
  intros Hn. destruct (FormatUint_digits n Hn) as (Hd & Hne & Hv). unfold parseNetInode.
  assert (IndexByte (net_link n) 91 = Some 4%nat) as ->.
  { apply (IndexByte_app (ascii_bytes "net:") 91 (FormatUint n ++ [93])). refine (bool_decide_unpack _ _); vm_compute; exact I. }
  assert (IndexByte (net_link n) 93 = Some (5 + length (FormatUint n))%nat) as ->.
  { change (net_link n) with (ascii_bytes "net:[" ++ FormatUint n ++ [93]).
    rewrite (app_assoc (ascii_bytes "net:[")), IndexByte_app; [by rewrite length_app|].
    apply Forall_app. split; [refine (bool_decide_unpack _ _); vm_compute; exact I|].
    eapply Forall_impl; [exact Hd|]. intros c Hc ->. discriminate. }
  assert (length (FormatUint n) <> 0%nat) by (by destruct (FormatUint n)). rewrite decide_False by lia.
  change (drop (4 + 1) (net_link n)) with (FormatUint n ++ [93]).
  rewrite take_app_length' by lia. exact Hv.
Qed.
Lemma parseNetInode_roundtrip_witness : parseNetInode (net_link 4026531840) = Some 4026531840.
Proof. apply (parseNetInode_roundtrip 4026531840). lia. Defined.

(** ** The scan's result *)

Definition entry_ns (e : entry) : option Namespace := match e with Found ns => Some ns | _ => None end.
Definition entry_skipped (e : entry) : bool := match e with Unreadable => true | _ => false end.
(** Every namespace some entry shows, once per entry. *)
Definition shown (skip : Z) (readlink : bytes -> option bytes) (names : list bytes) : list Namespace :=
  omap (fun name => entry_ns (read_entry skip readlink name)) names.
(** [ns] is the first of [l] with its inode. *)
Definition first_with (ns : Namespace) (l : list Namespace) : Prop :=
  exists pre post, l = pre ++ ns :: post /\ Inode ns ∉ Inode <$> pre.

Lemma first_with_cons ns ns' l : first_with ns l -> Inode ns <> Inode ns' -> first_with ns (ns' :: l).
Proof. intros (pre & post & -> & Hp) Hne. exists (ns' :: pre), post. split; [done|]. cbn. set_solver. Qed.

Lemma shown_cons skip readlink name names : shown skip readlink (name :: names) =
  match entry_ns (read_entry skip readlink name) with
  | Some ns => ns :: shown skip readlink names | None => shown skip readlink names end.
Proof. done. Qed.
Lemma scan_loop_spec skip readlink names seen k r s : scan_loop skip readlink names seen k = (r, s) ->
  NoDup (Inode <$> r) /\
  (forall i, i ∈ Inode <$> r <-> i ∈ Inode <$> shown skip readlink names /\ i ∉ seen) /\
  (forall ns, ns ∈ r -> first_with ns (shown skip readlink names)) /\
  s = k + glen (filter (fun name => entry_skipped (read_entry skip readlink name) = true) names).
Proof.
  revert seen k r s. induction names as [|name names IH]; intros seen k r s; cbn [scan_loop].
  { intros [= <- <-]. split_and!; [apply NoDup_nil_2|set_solver|set_solver|rewrite filter_nil; len_lia]. }
  rewrite filter_cons, shown_cons. destruct (read_entry skip readlink name) as [| |ns] eqn:Hr; cbn [entry_ns entry_skipped].
  - rewrite decide_False by done. apply IH.
  - rewrite decide_True by done. intros H. apply IH in H as (H1 & H2 & H3 & H4). split_and!; [done..|len_lia].
  - rewrite (decide_False (P := false = true)) by done. case_decide as Hs.
    + intros H. apply IH in H as (H1 & H2 & H3 & H4). split_and!; [done| | |done].
      * intros i. rewrite H2. cbn. set_solver.
      * intros ns' Hns. apply first_with_cons; [by apply H3|]. apply (list_elem_of_fmap_2 Inode), H2 in Hns as [_ Hns].
        intros He. rewrite He in Hns. by destruct Hns.
    + destruct (scan_loop skip readlink names _ k) as [r' s'] eqn:Hl. intros [= <- <-].
      apply IH in Hl as (H1 & H2 & H3 & H4). split_and!; [| | |done].
      * cbn. apply NoDup_cons. rewrite H2. set_solver.
      * intros i. cbn. rewrite !elem_of_cons, H2. rewrite not_elem_of_union, not_elem_of_singleton. destruct (decide (i = Inode ns)) as [->|]; tauto.
      * intros ns' Hns. apply elem_of_cons in Hns as [->|Hns]; [by exists [], (shown skip readlink names); split; [|set_solver]|].
        apply first_with_cons; [by apply H3|]. apply (list_elem_of_fmap_2 Inode), H2 in Hns as [_ Hns].
        intros He. apply Hns. rewrite He. set_solver.
Qed.

(** A scan calls back once per distinct namespace of the readable pid
    entries other than the skipped pid's, with the first pid seen in it, and
    counts exactly the pids whose link it could not read. *)
Theorem Scan_spec skip readlink names :
  let '(r, skipped) := Scan skip readlink names in
  NoDup (Inode <$> r) /\
  (forall i, i ∈ Inode <$> r <-> i ∈ Inode <$> shown skip readlink names) /\
  (forall ns, ns ∈ r -> first_with ns (shown skip readlink names) /\ Pid ns <> skip) /\
  skipped = glen (filter (fun name => entry_skipped (read_entry skip readlink name) = true) names).
Proof.
  unfold Scan. destruct (scan_loop skip readlink names ∅ 0) as [r s] eqn:Hl.
  apply scan_loop_spec in Hl as (H1 & H2 & H3 & H4). split_and!; [done| | |done].
  - intros i. rewrite H2. set_solver.
  - intros ns Hns. split; [by apply H3|]. destruct (H3 ns Hns) as (pre & post & He & _).
    assert (ns ∈ shown skip readlink names) as Hin by (rewrite He; set_solver).
    apply list_elem_of_omap in Hin as (name & _ & Hn). unfold read_entry in Hn.
    repeat (case_match; try done). by simplify_eq/=.
Qed.

(** ** Container ids *)

(** Some 64 consecutive bytes are hex digits. *)
Definition hex_run (n : nat) (l : bytes) : Prop :=
  exists pre run post, l = pre ++ run ++ post /\ length run = n /\ Forall (fun c => isHexLower c = true) run.

Lemma hex_run_short n l : hex_run n l -> (n <= length l)%nat.
Proof. intros (p & h & q & -> & <- & _). rewrite !length_app. lia. Qed.
Lemma hex_run_cut n l c post : isHexLower c = false -> hex_run n (l ++ c :: post) -> hex_run n l \/ hex_run n post.
Proof.
  intros Hc (p & h & q & He & Hl & Hh). apply app_eq_app in He as [k [[-> He]|[-> He]]].
  - apply app_eq_app in He as [k' [[-> He]|[-> He]]]; [|left; by exists p, h, k'].
    destruct k' as [|c' k']; [left; exists p, k, []; rewrite ?app_nil_r in *; done|].
    cbn in He. simplify_eq. apply Forall_app in Hh as [_ Hh]. inv Hh. congruence.
  - destruct k as [|c' k]; cbn in He; simplify_eq.
    + destruct h as [|c' h]; cbn in He; simplify_eq; [left; exists l, [], []; by rewrite !app_nil_r|inv Hh; congruence].
    + right. by exists k, h, q.
Qed.

(** What the loop has read: [pre], no 64 digits in a row and a non-digit last,
    then [run], the digits in progress. *)
Record reading (pre run : bytes) : Prop := mkReading {
  rd_none : ~ hex_run 64 pre;
  rd_edge : forall c, last pre = Some c -> isHexLower c = false;
  rd_run : Forall (fun c => isHexLower c = true) run }.

Lemma reading_short pre run : reading pre run -> (length run < 64)%nat -> ~ hex_run 64 (pre ++ run).
Proof.
  intros [H1 H2 H3] Hl. destruct pre as [|c pre _] using rev_ind.
  - intros Hr. apply hex_run_short in Hr. cbn in Hr. lia.
  - rewrite <- app_assoc. intros Hr. apply hex_run_cut in Hr as [Hr|Hr]; [| |apply H2; by rewrite last_snoc].
    + apply H1. destruct Hr as (p & h & q & -> & Hh). exists p, h, (q ++ [c]). by rewrite <- !app_assoc.
    + apply hex_run_short in Hr. lia.
Qed.
Lemma reading_next pre run c : reading pre run -> (length run < 64)%nat -> isHexLower c = false ->
  reading (pre ++ run ++ [c]) [].
Proof.
  intros Hr Hl Hc. split; [|intros c'; rewrite app_assoc, last_snoc; by intros [= <-]|constructor].
  rewrite app_assoc. intros H. apply hex_run_cut in H as [H|H]; [|by apply hex_run_short in H; cbn in H; lia|done].
  by apply (reading_short _ _ Hr Hl).
Qed.

(** The first container id: 64 digits, the start of the first maximal run that
    long. *)
Definition is_container_id (all id : bytes) : Prop :=
  exists pre post, all = pre ++ id ++ post /\ length id = 64%nat /\ reading pre id.
Lemma reading_id pre run rest : reading pre run -> (64 <= length run)%nat ->
  is_container_id (pre ++ run ++ rest) (take 64 (drop (length pre) (pre ++ run ++ rest))).
Proof.
  intros [H1 H2 H3] Hl. rewrite drop_app_length, take_app_le by done. exists pre, (drop 64 run ++ rest).
  rewrite (app_assoc (take 64 run)), take_drop. split; [done|]. split; [rewrite length_take; lia|].
  split; [done|done|by apply Forall_take].
Qed.
Definition container_result (all id : bytes) : Prop :=
  match id with [] => ~ hex_run 64 all | _ => is_container_id all id end.
Lemma container_id_found all id : is_container_id all id -> container_result all id.
Proof. destruct id; [|done]. by intros (? & ? & _ & ? & _). Qed.
Lemma container_loop_spec rest : forall pre run start, reading pre run -> (run <> [] -> start = length pre) ->
  let all := pre ++ run ++ rest in
  container_result all (container_loop all (length pre + length run) rest (length run) start).
Proof.
  induction rest as [|c rest IH]; intros pre run start Hr Hs; cbn [container_loop].
  all: assert ((64 <= length run)%nat -> start = length pre) as Hs' by (intros Hl; apply Hs; intros ->; cbn in Hl; lia).
  - case_decide as Hl.
    + rewrite (Hs' Hl). by apply container_id_found, (reading_id pre run []).
    + rewrite app_nil_r. apply reading_short; [done|lia].
  - destruct (isHexLower c) eqn:Hc; [|case_decide as Hl].
    + specialize (IH pre (run ++ [c]) (if decide (length run = 0%nat) then (length pre + length run)%nat else start)).
      rewrite length_app, <- (app_assoc run) in IH. cbn [length app] in IH.
      rewrite Nat.add_1_r, Nat.add_succ_r in IH. apply IH.
      * destruct Hr. split; [done..|]. apply Forall_app. by repeat constructor.
      * intros _. case_decide as H0; [lia|]. apply Hs. by destruct run.
    + rewrite (Hs' Hl). by apply container_id_found, (reading_id pre run (c :: rest)).
    + specialize (IH (pre ++ run ++ [c]) [] start). cbn [length app] in IH.
      rewrite !length_app, Nat.add_0_r, <- !app_assoc in IH. cbn [length app] in IH.
      rewrite (Nat.add_assoc (length pre)), Nat.add_1_r in IH. apply IH; [|done].
      apply reading_next; [done|lia|done].
Qed.

(** From a cgroup file the first 64 hex digits of the first maximal run at
    least that long are taken, and nothing exactly when no 64 bytes in a row are
    hex digits. *)
Theorem parseContainerID_spec cg : container_result cg (parseContainerID cg).
Proof.
  apply (container_loop_spec cg [] [] 0%nat); [|done]. split; [|done|done].
  intros H. apply hex_run_short in H. cbn in H. lia.
Qed.

(** ** The union's content *)

Lemma refresh_entry_dom Join dir r e : dom (byInode r) = dom (pathByIno r) ->
  dom (byInode (refresh_entry Join dir r e)) = dom (pathByIno (refresh_entry Join dir r e)).
Proof. intros Hd. unfold refresh_entry. repeat case_match; try done. cbn. by rewrite !dom_insert_L, Hd. Qed.
Lemma foldl_inv {A B} (f : A -> B -> A) (P : A -> Prop) l a : (forall a b, P a -> P (f a b)) -> P a -> P (foldl f a l).
Proof. intros Hf. revert a. induction l as [|b l IH]; intros a Ha; [done|]. by apply IH, Hf. Qed.
Lemma Resolver_Refresh_dom Join dirs :
  dom (byInode (Resolver_Refresh Join dirs)) = dom (pathByIno (Resolver_Refresh Join dirs)).
Proof.
  apply (foldl_inv _ (fun r => dom (byInode r) = dom (pathByIno r))); [|done]. intros r [dir [es|]] Hr; [|done].
  apply (foldl_inv _ (fun r => dom (byInode r) = dom (pathByIno r))); [|done]. intros. by apply refresh_entry_dom.
Qed.

Lemma foldl_add_mount cgroup r mounts out i : NoDup mounts.*1 ->
  foldl (add_mount cgroup r) out mounts !! i =
  match out !! i with
  | Some id => Some id
  | None => (fun p => mkIdentity i 0 (Name cgroup r i 0) p) <$> (list_to_map mounts : gmap Z bytes) !! i
  end.
Proof.
  revert out. induction mounts as [|[j p] mounts IH]; intros out Hn; cbn; [by destruct (out !! i)|].
  inv Hn. rewrite IH by done. unfold add_mount. cbn. destruct (decide (i = j)) as [->|Hne].
  - rewrite lookup_insert_eq. destruct (out !! j) as [id|] eqn:Ho; [by rewrite Ho|]. by rewrite lookup_insert_eq.
  - rewrite (lookup_insert_ne _ j i) by done. destruct (out !! j); [done|]. by rewrite lookup_insert_ne.
Qed.
Lemma foldl_add_proc_other cgroup r scan out i : i ∉ Inode <$> scan -> foldl (add_proc cgroup r) out scan !! i = out !! i.
Proof.
  revert out. induction scan as [|ns scan IH]; intros out Hi; cbn; [done|]. rewrite fmap_cons, not_elem_of_cons in Hi.
  rewrite IH by tauto. unfold add_proc. by rewrite lookup_insert_ne by (intros ?; naive_solver).
Qed.
Lemma foldl_add_proc cgroup r scan out ns : NoDup (Inode <$> scan) -> ns ∈ scan ->
  foldl (add_proc cgroup r) out scan !! Inode ns = Some (mkIdentity (Inode ns) (Pid ns) (Name cgroup r (Inode ns) (Pid ns)) []).
Proof.
  intros Hn (l1 & l2 & ->)%list_elem_of_split. rewrite foldl_app. cbn [foldl].
  rewrite foldl_add_proc_other; [by unfold add_proc; rewrite lookup_insert_eq|].
  rewrite fmap_app, fmap_cons in Hn. apply NoDup_app in Hn as (_ & _ & Hn). by inv Hn.
Qed.

(** The discovered set is the union of the scan and the bind mounts. A
    scanned namespace is entered by its pid; one only bind-mounted has no pid
    and is entered by its path, under the mount's own name. The order of the
    Go map of mounts makes no difference. *)
Theorem discover_spec Join cgroup dirs scan mounts : let r := Resolver_Refresh Join dirs in
  NoDup (Inode <$> scan) -> mounts ≡ₚ map_to_list (pathByIno r) ->
  let out := discover cgroup r scan mounts in
  dom out = list_to_set (Inode <$> scan) ∪ dom (pathByIno r) /\
  (forall ns, ns ∈ scan ->
    out !! Inode ns = Some (mkIdentity (Inode ns) (Pid ns) (Name cgroup r (Inode ns) (Pid ns)) [])) /\
  (forall i p, i ∉ Inode <$> scan -> pathByIno r !! i = Some p ->
    exists name, byInode r !! i = Some name /\ out !! i = Some (mkIdentity i 0 name p)).
Proof.
  intros r Hn Hm out. assert (NoDup mounts.*1) as Hd by (rewrite Hm; apply NoDup_fst_map_to_list).
  assert (list_to_map mounts = pathByIno r) as Hmap.
  { rewrite <- (list_to_map_to_list (pathByIno r)). by apply list_to_map_proper. }
  assert (forall i, out !! i = match foldl (add_proc cgroup r) ∅ scan !! i with Some id => Some id
    | None => (fun p => mkIdentity i 0 (Name cgroup r i 0) p) <$> pathByIno r !! i end) as Hout.
  { intros i. unfold out, discover. by rewrite foldl_add_mount, Hmap. }
  assert (forall i, i ∉ Inode <$> scan -> foldl (add_proc cgroup r) ∅ scan !! i = None) as Hnone.
  { intros i Hi. by rewrite foldl_add_proc_other. }
  split_and!.
  - apply set_eq. intros i. rewrite elem_of_union, elem_of_list_to_set, !elem_of_dom, Hout.
    destruct (decide (i ∈ Inode <$> scan)) as [Hi|Hi].
    + pose proof Hi as Hi'. apply list_elem_of_fmap in Hi' as (ns & -> & Hns). rewrite foldl_add_proc by done. naive_solver.
    + rewrite Hnone, fmap_is_Some by done. tauto.
  - intros ns Hns. by rewrite Hout, foldl_add_proc.
  - intros i p Hi Hp. rewrite Hout, Hnone, Hp by done. cbn.
    assert (i ∈ dom (byInode r)) as [name Hname]%elem_of_dom by (unfold r; rewrite Resolver_Refresh_dom; by eapply elem_of_dom_2).
    exists name. unfold Name. by rewrite Hname.
Qed.

(** A container bind-mounted and seen through a process, and one bind-mounted
    only. *)
Definition demo_join (d n : bytes) : bytes := d ++ [47] ++ n.
Definition demo_dirs : list (bytes * option (list dir_entry)) :=
  [([47; 114], Some [mkDirEntry [97] false (Some 7); mkDirEntry [98] false (Some 8)])].
Lemma discover_spec_witness :
  let r := Resolver_Refresh demo_join demo_dirs in
  let out := discover (fun _ => None) r [mkNamespace 7 100] (map_to_list (pathByIno r)) in
  dom out = list_to_set [7] ∪ dom (pathByIno r) /\
  (forall ns, ns ∈ [mkNamespace 7 100] ->
    out !! Inode ns = Some (mkIdentity (Inode ns) (Pid ns) (Name (fun _ => None) r (Inode ns) (Pid ns)) [])) /\
  (forall i p, i ∉ [7] -> pathByIno r !! i = Some p ->
    exists name, byInode r !! i = Some name /\ out !! i = Some (mkIdentity i 0 name p)).
Proof.
  apply (discover_spec demo_join (fun _ => None) demo_dirs [mkNamespace 7 100]); [|reflexivity].
  refine (bool_decide_unpack _ _). vm_compute. exact I.
Defined.
