(* ===== verification/Namespaces.v ===== *)
(** The set of monitored namespaces (pkg/xtcp/ns_reconcile.go, ns_add.go,
    ns_delete.go, ns_map_count.go): the maps, adding and deleting an entry, one
    reconciliation with the discovered set, and the retried setns of
    ns_net_namespace.go. The goroutines the entries belong to are NsLife.v's.

    A context is a number; [cancelled] holds the ones whose cancel was called.
    The sync.Maps are finite maps. *)

From S2P Require Import Prelude NsDiscover.

(** ** State *)

Record netNSitem := mkItem { it_inode : Z; it_pid : Z; it_name : bytes; it_ctx : nat; it_fd : Z }.

(** Where a goroutine of netNamespaceInstance is; from [Guard] to [UndoFd] it is
    inside createNetlinkersAndStore. *)
Inductive pc :=
  | Entering | CheckCtx | OpenSocket | Bind | Guard | StoreNs | StoreFd | CountStore | Recheck | UndoNs | UndoFd
  | Waiting | Closing | Done.
#[export] Instance pc_eq : EqDecision pc. Proof. solve_decision. Defined.

(** Its arguments, the namespace its thread is in, and its socket. *)
Record instance := mkInstance { i_id : nsIdentity; i_thread : Z; i_fd : Z; i_pc : pc }.

(** [sockets] are the open sockets, each with the namespace it was opened in. *)
Record XTCP := mkXTCP {
  nsMap : gmap Z netNSitem; fdToNsMap : gmap Z Z; pollTime : gmap Z Z;
  storeCount : Z; deleteCount : Z; generation : Z;
  nextCtx : nat; cancelled : gset nat; instances : gmap nat instance; sockets : gmap Z Z }.

Definition set_nsMap (m : gmap Z netNSitem) (s : XTCP) : XTCP :=
  mkXTCP m (fdToNsMap s) (pollTime s) (storeCount s) (deleteCount s) (generation s) (nextCtx s) (cancelled s)
    (instances s) (sockets s).
Definition set_fdToNsMap (m : gmap Z Z) (s : XTCP) : XTCP :=
  mkXTCP (nsMap s) m (pollTime s) (storeCount s) (deleteCount s) (generation s) (nextCtx s) (cancelled s)
    (instances s) (sockets s).
Definition set_pollTime (m : gmap Z Z) (s : XTCP) : XTCP :=
  mkXTCP (nsMap s) (fdToNsMap s) m (storeCount s) (deleteCount s) (generation s) (nextCtx s) (cancelled s)
    (instances s) (sockets s).
Definition set_sockets (m : gmap Z Z) (s : XTCP) : XTCP :=
  mkXTCP (nsMap s) (fdToNsMap s) (pollTime s) (storeCount s) (deleteCount s) (generation s) (nextCtx s) (cancelled s)
    (instances s) m.
Definition set_instance (c : nat) (i : instance) (s : XTCP) : XTCP :=
  mkXTCP (nsMap s) (fdToNsMap s) (pollTime s) (storeCount s) (deleteCount s) (generation s) (nextCtx s) (cancelled s)
    (<[c := i]> (instances s)) (sockets s).
Definition cancel (c : nat) (s : XTCP) : XTCP :=
  mkXTCP (nsMap s) (fdToNsMap s) (pollTime s) (storeCount s) (deleteCount s) (generation s) (nextCtx s)
    ({[c]} ∪ cancelled s) (instances s) (sockets s).
(** [context.WithCancel] *)
Definition new_context (s : XTCP) : XTCP :=
  mkXTCP (nsMap s) (fdToNsMap s) (pollTime s) (storeCount s) (deleteCount s) (generation s) (S (nextCtx s)) (cancelled s)
    (instances s) (sockets s).

Definition incrementStoreAndGenerationCounts (s : XTCP) : XTCP :=
  mkXTCP (nsMap s) (fdToNsMap s) (pollTime s) (uint64 (storeCount s + 1)) (deleteCount s) (uint64 (generation s + 1))
    (nextCtx s) (cancelled s) (instances s) (sockets s).
Definition incrementDeleteAndGenerationCounts (s : XTCP) : XTCP :=
  mkXTCP (nsMap s) (fdToNsMap s) (pollTime s) (storeCount s) (uint64 (deleteCount s + 1)) (uint64 (generation s + 1))
    (nextCtx s) (cancelled s) (instances s) (sockets s).

Definition MapCount (s : XTCP) : Z := uint64 (storeCount s - deleteCount s).
Definition LenSyncMap (s : XTCP) : Z := Z.of_nat (size (nsMap s)).
(** In the order Range visits the map. *)
Definition GetNetlinkSocketFDs (range : list (Z * netNSitem)) : list Z := (fun kv => it_fd kv.2) <$> range.

(** ** Add, delete, reconcile *)

Definition reserved (id : nsIdentity) (c : nat) : netNSitem := mkItem (id_inode id) (id_pid id) (id_name id) c (-1).

(** The goroutine starts in the namespace of the daemon, [self_ns]. *)
Definition nsAdd (self_ns : Z) (id : nsIdentity) (s : XTCP) : XTCP :=
  let c := nextCtx s in
  let s := new_context s in
  match nsMap s !! id_inode id with
  | Some _ => cancel c s
  | None => set_instance c (mkInstance id self_ns (-1) Entering) (set_nsMap (<[id_inode id := reserved id c]> (nsMap s)) s)
  end.

Definition nsDelete (inode : Z) (s : XTCP) : XTCP :=
  match nsMap s !! inode with
  | None => s
  | Some item =>
      let s := cancel (it_ctx item) s in
      let fd := it_fd item in
      let s := set_nsMap (delete inode (nsMap s)) s in
      let s := set_fdToNsMap (delete fd (fdToNsMap s)) s in
      let s := set_pollTime (delete fd (pollTime s)) s in
      incrementDeleteAndGenerationCounts s
  end.

(** The two loops, over the keys in the order Range visits them and the live
    namespaces in the order of the Go map. *)
Definition delete_gone (selfNsInode : Z) (live : gmap Z nsIdentity) (inode : Z) (sn : XTCP * Z) : XTCP * Z :=
  let '(s, dels) := sn in
  if decide (inode = selfNsInode) then (s, dels) else
  match live !! inode with Some _ => (s, dels) | None => (nsDelete inode s, dels + 1) end.
Definition add_new (selfNsInode : Z) (id : Z * nsIdentity) (sn : XTCP * Z) : XTCP * Z :=
  let '(s, stores) := sn in
  match nsMap s !! id.1 with Some _ => (s, stores) | None => (nsAdd selfNsInode id.2 s, stores + 1) end.
Definition reconcile (selfNsInode : Z) (live : gmap Z nsIdentity) (keys : list Z) (ids : list (Z * nsIdentity))
    (s : XTCP) : XTCP * Z * Z :=
  let '(s, dels) := foldl (fun sn k => delete_gone selfNsInode live k sn) (s, 0) keys in
  let '(s, stores) := foldl (fun sn id => add_new selfNsInode id sn) (s, 0) ids in
  (s, dels, stores).

(** ** Reconciliation *)

Lemma filter_ext_in {A} (P Q : A -> Prop) `{!forall x, Decision (P x), !forall x, Decision (Q x)} (l : list A) :
  (forall x, x ∈ l -> P x <-> Q x) -> filter P l = filter Q l.
Proof.
  induction l as [|x l IH]; intros HPQ; [done|]. rewrite !filter_cons, IH by (intros; apply HPQ; by right).
  apply decide_ext, HPQ. by left.
Qed.
Lemma glen_filter_size {K} `{Countable K} (P : K -> Prop) `{!forall x, Decision (P x)} (l : list K) :
  NoDup l -> glen (filter P l) = Z.of_nat (size (filter P (list_to_set l : gset K))).
Proof.
  intros Hn. unfold glen. f_equal. rewrite <- (size_list_to_set (C := gset K)) by by apply NoDup_filter.
  f_equal. apply set_eq. intros x. rewrite elem_of_filter, !elem_of_list_to_set. apply list_elem_of_filter.
Qed.

Lemma glen_filter_fst {A B} (P : A -> Prop) `{!forall x, Decision (P x), !forall x : A * B, Decision (P x.1)} (l : list (A * B)) :
  glen (filter (fun x => P x.1) l) = glen (filter P l.*1).
Proof.
  induction l as [|x l IH]; [done|]. rewrite fmap_cons, !filter_cons. repeat case_decide; rewrite ?glen_cons; (lia || done).
Qed.

Section Reconcile.
Context (selfNsInode : Z) (live : gmap Z nsIdentity).

Definition gone (i : Z) : bool := bool_decide (i <> selfNsInode) && bool_decide (live !! i = None).

Lemma delete_gone_eq i s n : delete_gone selfNsInode live i (s, n) =
  if gone i then (nsDelete i s, n + 1) else (s, n).
Proof. unfold delete_gone, gone. repeat case_decide; destruct (live !! i); repeat case_bool_decide; done. Qed.

(** What the delete loop leaves alone. *)
Record shrunk (s s' : XTCP) : Prop := mkShrunk {
  sh_cancelled : cancelled s ⊆ cancelled s';
  sh_fd : forall fd, fdToNsMap s !! fd = None -> fdToNsMap s' !! fd = None;
  sh_poll : forall fd, pollTime s !! fd = None -> pollTime s' !! fd = None;
  sh_instances : instances s' = instances s; sh_next : nextCtx s' = nextCtx s }.
Lemma shrunk_refl s : shrunk s s.
Proof. by split. Qed.
Lemma shrunk_trans s1 s2 s3 : shrunk s1 s2 -> shrunk s2 s3 -> shrunk s1 s3.
Proof. intros [? ? ? ? ?] [? ? ? ? ?]. split; [set_solver|naive_solver|naive_solver|congruence|congruence]. Qed.

(** A tracked namespace torn down: its context cancelled, no trace of its fd. *)
Definition torn_down (item : netNSitem) (s : XTCP) : Prop :=
  it_ctx item ∈ cancelled s /\ fdToNsMap s !! it_fd item = None /\ pollTime s !! it_fd item = None.
Lemma torn_down_shrunk item s s' : shrunk s s' -> torn_down item s -> torn_down item s'.
Proof. intros [? ? ? ? ?] (? & ? & ?). split_and!; [set_solver|auto|auto]. Qed.

Lemma nsDelete_spec i item s : nsMap s !! i = Some item ->
  nsMap (nsDelete i s) = delete i (nsMap s) /\ shrunk s (nsDelete i s) /\ torn_down item (nsDelete i s).
Proof.
  intros Hi. unfold nsDelete. rewrite Hi. split; [done|]. split.
  - split; cbn; [set_solver| | |done|done]; intros fd Hfd; rewrite lookup_delete_None; auto.
  - split_and!; cbn; [set_solver|by rewrite lookup_delete_eq..].
Qed.

Lemma delete_loop keys s n s' n' : NoDup keys -> (forall k, k ∈ keys -> is_Some (nsMap s !! k)) ->
  foldl (fun sn k => delete_gone selfNsInode live k sn) (s, n) keys = (s', n') ->
  n' = n + glen (filter (fun k => gone k = true) keys) /\ shrunk s s' /\
  (forall i, nsMap s' !! i = if decide (i ∈ keys /\ gone i = true) then None else nsMap s !! i) /\
  (forall i item, i ∈ keys -> gone i = true -> nsMap s !! i = Some item -> torn_down item s').
Proof.
  revert s n. induction keys as [|k keys IH]; intros s n Hn Hs Hf; cbn [foldl] in Hf.
  { simplify_eq. rewrite filter_nil. split_and!; [len_lia|apply shrunk_refl| |set_solver].
    intros i. by rewrite decide_False by set_solver. }
  inv Hn. rewrite delete_gone_eq in Hf. rewrite filter_cons. destruct (gone k) eqn:Hk.
  - rewrite decide_True by done. destruct (Hs k) as [item Hitem]; [by left|].
    destruct (nsDelete_spec k item s Hitem) as (Hm & Hsh & Ht).
    apply IH in Hf as (H1' & H2' & H3' & H4'); [|done|].
    2: { intros k' Hk'. rewrite Hm, lookup_delete_ne by (intros <-; done). apply Hs. by right. }
    split_and!; [len_lia|by eapply shrunk_trans| |].
    + intros i. rewrite H3', Hm. destruct (decide (i = k)) as [->|Hne].
      * rewrite (decide_True (P := k ∈ k :: keys /\ _)) by (split; [by left|done]). rewrite lookup_delete_eq.
        by case_decide.
      * rewrite lookup_delete_ne by done. apply decide_ext. rewrite elem_of_cons. tauto.
    + intros i it Hi Hg Hit. destruct (decide (i = k)) as [->|Hne].
      * simplify_eq. by eapply torn_down_shrunk.
      * apply (H4' i); [by apply elem_of_cons in Hi as [|]|done|]. by rewrite Hm, lookup_delete_ne.
  - rewrite decide_False by done. apply IH in Hf as (H1' & H2' & H3' & H4'); [|done|intros; apply Hs; set_solver].
    split_and!; [done|done| |].
    + intros i. rewrite H3'. apply decide_ext. rewrite elem_of_cons. naive_solver congruence.
    + intros i it Hi Hg Hit. apply (H4' i); [|done|done]. apply elem_of_cons in Hi as [->|Hi]; [congruence|done].
Qed.

(** A namespace just added: its slot reserved, its goroutine about to enter. *)
Definition started (id : nsIdentity) (s : XTCP) : Prop :=
  exists c, nsMap s !! id_inode id = Some (reserved id c) /\
    instances s !! c = Some (mkInstance id selfNsInode (-1) Entering).
(** What the add loop leaves alone. *)
Record grown (s s' : XTCP) : Prop := mkGrown {
  gr_map : forall i item, nsMap s !! i = Some item -> nsMap s' !! i = Some item;
  gr_next : (nextCtx s <= nextCtx s')%nat;
  gr_inst : forall c, (c < nextCtx s)%nat -> instances s' !! c = instances s !! c;
  gr_rest : cancelled s' = cancelled s /\ fdToNsMap s' = fdToNsMap s /\ pollTime s' = pollTime s }.
Lemma grown_refl s : grown s s.
Proof. by split. Qed.
Lemma grown_trans s1 s2 s3 : grown s1 s2 -> grown s2 s3 -> grown s1 s3.
Proof.
  intros [M1 N1 I1 (C1 & F1 & P1)] [M2 N2 I2 (C2 & F2 & P2)]. split; [auto|lia| |split_and!; congruence].
  intros c Hc. rewrite I2 by lia. auto.
Qed.

Lemma nsAdd_spec id s : nsMap s !! id_inode id = None ->
  let s' := nsAdd selfNsInode id s in
  nsMap s' = <[id_inode id := reserved id (nextCtx s)]> (nsMap s) /\ grown s s' /\ nextCtx s' = S (nextCtx s) /\
  instances s' !! nextCtx s = Some (mkInstance id selfNsInode (-1) Entering).
Proof.
  intros Hi s'. subst s'. unfold nsAdd. cbn. rewrite Hi. split_and!; [done| |done|by cbn; rewrite lookup_insert_eq].
  split; [|cbn; lia| |done].
  - intros i item Hit. cbn. rewrite lookup_insert_ne by congruence. done.
  - intros c Hc. cbn. rewrite lookup_insert_ne by lia. done.
Qed.

Lemma add_loop ids s n s' n' : NoDup ids.*1 -> Forall (fun id => id_inode id.2 = id.1) ids ->
  foldl (fun sn id => add_new selfNsInode id sn) (s, n) ids = (s', n') ->
  n' = n + glen (filter (fun id => nsMap s !! id.1 = None) ids) /\ grown s s' /\
  (forall i, i ∉ ids.*1 -> nsMap s' !! i = nsMap s !! i) /\
  (forall id, id ∈ ids -> nsMap s !! id.1 = None -> exists c, (nextCtx s <= c < nextCtx s')%nat /\
     nsMap s' !! id.1 = Some (reserved id.2 c) /\ instances s' !! c = Some (mkInstance id.2 selfNsInode (-1) Entering)).
Proof.
  revert s n. induction ids as [|id ids IH]; intros s n Hn Hk Hf; cbn [foldl] in Hf.
  { simplify_eq. rewrite filter_nil. split_and!; [len_lia|apply grown_refl|done|set_solver]. }
  rewrite fmap_cons in Hn. inv Hn. inv Hk. rewrite filter_cons. cbn [add_new] in Hf.
  destruct (nsMap s !! id.1) as [item|] eqn:Hid.
  - rewrite decide_False by done. apply IH in Hf as (H1' & H2' & H3' & H4'); [|done|done].
    split_and!; [done|done| |].
    + intros i Hi. apply H3'. rewrite fmap_cons, not_elem_of_cons in Hi. tauto.
    + intros id' [->|Hi]%elem_of_cons Hno; [congruence|auto].
  - rewrite decide_True by done. destruct (nsAdd_spec id.2 s) as (Hm & Hg & Hx & Hi); [congruence|].
    match goal with H : id_inode _ = _ |- _ => rename H into Hkey end. rewrite Hkey in Hm.
    apply IH in Hf as (H1' & H2' & H3' & H4'); [|done|done]. split_and!.
    + rewrite H1'. cut (filter (fun id' => nsMap (nsAdd selfNsInode id.2 s) !! id'.1 = None) ids =
                        filter (fun id' => nsMap s !! id'.1 = None) ids); [intros ->; len_lia|].
      apply filter_ext_in. intros id' Hid'. rewrite Hm, lookup_insert_ne; [done|].
      intros He. apply (list_elem_of_fmap_2 fst) in Hid'. by rewrite <- He in Hid'.
    + by eapply grown_trans.
    + intros i Hi'. rewrite fmap_cons, not_elem_of_cons in Hi'. destruct Hi' as [Hne Hi'].
      by rewrite H3', Hm, lookup_insert_ne.
    + destruct H2' as [M2 N2 I2 _]. intros id' [->|Hi']%elem_of_cons Hno.
      * exists (nextCtx s). split_and!; [lia|lia| |by rewrite I2 by lia].
        rewrite (M2 _ (reserved id.2 (nextCtx s))); [done|]. by rewrite Hm, lookup_insert_eq.
      * destruct (H4' id' Hi') as (c & Hc & Hmc & Hic); [|exists c; split_and!; [lia|lia|done|done]].
        rewrite Hm, lookup_insert_ne; [done|]. intros He. apply (list_elem_of_fmap_2 fst) in Hi'. by rewrite <- He in Hi'.
Qed.

(** A reconciliation ends with exactly the live namespaces tracked, and the
    daemon's own if it was; what was tracked and stays is the same entry; what
    is gone has its context cancelled and no fd or poll-time entry left; what
    is new has its slot reserved and its goroutine started; and the two counts
    returned are the numbers of the latter - whatever order the maps are
    visited in. *)
Theorem reconcile_spec keys ids s :
  keys ≡ₚ (map_to_list (nsMap s)).*1 -> ids ≡ₚ map_to_list live -> (forall i id, live !! i = Some id -> id_inode id = i) ->
  let '(s', dels, stores) := reconcile selfNsInode live keys ids s in
  dom (nsMap s') = dom live ∪ (dom (nsMap s) ∩ {[selfNsInode]}) /\
  (forall i item, nsMap s !! i = Some item ->
     if gone i then torn_down item s' else nsMap s' !! i = Some item) /\
  (forall i id, live !! i = Some id -> nsMap s !! i = None -> started id s') /\
  dels = Z.of_nat (size (filter (fun i => gone i = true) (dom (nsMap s)))) /\
  stores = Z.of_nat (size (dom live ∖ dom (nsMap s))).
Proof.
  intros Hk Hi Hkey. unfold reconcile.
  destruct (foldl _ (s, 0) keys) as [s1 dels] eqn:Hd. destruct (foldl _ (s1, 0) ids) as [s2 stores] eqn:Ha.
  assert (NoDup keys) as Hnk by (rewrite Hk; apply NoDup_fst_map_to_list).
  assert (forall i, i ∈ keys <-> is_Some (nsMap s !! i)) as Hin.
  { intros i. rewrite Hk. rewrite list_elem_of_fmap. split.
    - intros ([i' it] & -> & H%elem_of_map_to_list). by exists it.
    - intros [it H]. exists (i, it). split; [done|]. by apply elem_of_map_to_list. }
  apply delete_loop in Hd as (D1 & D2 & D3 & D4); [|done|intros; by apply Hin].
  apply add_loop in Ha as (A1 & A2 & A3 & A4).
  2: { rewrite Hi. apply NoDup_fst_map_to_list. }
  2: { apply Forall_forall. intros [i id]. rewrite Hi, elem_of_map_to_list. apply Hkey. }
  assert (forall i id, (i, id) ∈ ids <-> live !! i = Some id) as Hid by (intros; by rewrite Hi, elem_of_map_to_list).
  assert (forall i, i ∈ ids.*1 <-> is_Some (live !! i)) as Hid1.
  { intros i. rewrite list_elem_of_fmap. split; [|intros [id Hl]; exists (i, id); by rewrite Hid].
    intros ([i' id] & -> & Hl%Hid). by exists id. }
  assert (forall i, is_Some (live !! i) -> nsMap s1 !! i = nsMap s !! i) as Hlive.
  { intros i [id Hl]. rewrite D3, decide_False; [done|]. unfold gone. rewrite Hl. by rewrite andb_false_r; intros []. }
  destruct A2 as [AM AN AI (AC & AF & AP)]. split_and!.
  - apply set_eq. intros i. rewrite elem_of_union, elem_of_intersection, elem_of_singleton, !elem_of_dom.
    destruct (live !! i) as [id|] eqn:Hl.
    + split; [by left|]. intros _. destruct (nsMap s1 !! i) as [it|] eqn:Hs1; [by rewrite (AM i it)|].
      destruct (A4 (i, id)) as (c & _ & Hc & _); [by apply Hid|done|]. cbn in Hc. by rewrite Hc.
    + rewrite A3 by (rewrite Hid1, Hl; by intros []). rewrite D3. unfold gone. rewrite Hl. cbn.
      case_decide as Hg; rewrite andb_true_r in Hg; case_bool_decide; rewrite <- ?Hin in *; naive_solver.
  - intros i item Hit. destruct (gone i) eqn:Hg.
    + destruct (D4 i item) as (? & ? & ?); [apply Hin; by eexists|done..|]. split_and!; congruence.
    + apply AM. rewrite D3, decide_False; [done|]. intros []. congruence.
  - intros i id Hl Hn. destruct (A4 (i, id)) as (c & _ & Hc & Hc'); [by apply Hid|by rewrite Hlive|].
    exists c. cbn in *. by rewrite (Hkey _ _ Hl).
  - rewrite D1, glen_filter_size by done. rewrite Z.add_0_l.
    assert (list_to_set keys = dom (nsMap s)) as ->; [|done]. apply set_eq. intros i.
    by rewrite elem_of_list_to_set, elem_of_dom.
  - rewrite A1, (glen_filter_fst (fun i : Z => nsMap s1 !! i = None)), glen_filter_size by (rewrite Hi; apply NoDup_fst_map_to_list).
    rewrite Z.add_0_l. f_equal. f_equal. apply set_eq. intros i.
    rewrite elem_of_filter, elem_of_list_to_set, elem_of_difference, not_elem_of_dom, elem_of_dom, Hid1.
    destruct (live !! i) as [id|] eqn:Hl; [|by split; intros [? []]]. rewrite Hlive by done. tauto.
Qed.
End Reconcile.

Definition demo_item (i : Z) (c : nat) (fd : Z) : netNSitem := mkItem i 0 [] c fd.
Definition demo_id (i : Z) : nsIdentity := mkIdentity i 100 [] [].
(** The daemon in namespace 1, 5 and 7 tracked; then 7 and 9 live. *)
Definition demo_state : XTCP :=
  mkXTCP {[1 := demo_item 1 0 3; 5 := demo_item 5 1 4; 7 := demo_item 7 2 6]} {[3 := 1; 4 := 5; 6 := 7]} {[3 := 0; 4 := 0]}
    3 0 3 3 ∅ ∅ {[3 := 1; 4 := 5; 6 := 7]}.
Definition demo_live : gmap Z nsIdentity := {[7 := demo_id 7; 9 := demo_id 9]}.
Lemma reconcile_spec_witness :
  let '(s', dels, stores) := reconcile 1 demo_live [1; 5; 7] [(7, demo_id 7); (9, demo_id 9)] demo_state in
  dom (nsMap s') = dom demo_live ∪ (dom (nsMap demo_state) ∩ {[1]}) /\
  (forall i item, nsMap demo_state !! i = Some item ->
     if gone 1 demo_live i then torn_down item s' else nsMap s' !! i = Some item) /\
  (forall i id, demo_live !! i = Some id -> nsMap demo_state !! i = None -> started 1 id s') /\
  dels = Z.of_nat (size (filter (fun i => gone 1 demo_live i = true) (dom (nsMap demo_state)))) /\
  stores = Z.of_nat (size (dom demo_live ∖ dom (nsMap demo_state))).
Proof.
  apply (reconcile_spec 1 demo_live [1; 5; 7] [(7, demo_id 7); (9, demo_id 9)] demo_state).
  - refine (bool_decide_unpack _ _). vm_compute. exact I.
  - apply NoDup_Permutation; [| |].
    + apply (NoDup_fmap_1 fst). refine (bool_decide_unpack _ _). vm_compute. exact I.
    + apply NoDup_map_to_list.
    + intros [i id]. rewrite elem_of_map_to_list. unfold demo_live. split.
      * intros Hi. set_unfold in Hi. by destruct Hi as [[= -> ->]|[[= -> ->]|[]]].
      * intros Hi. apply lookup_insert_Some in Hi as [[<- <-]|[_ Hi]]; [set_solver|].
        apply lookup_singleton_Some in Hi as [<- <-]. set_solver.
  - intros i id Hi. unfold demo_live in Hi. apply lookup_insert_Some in Hi as [[<- <-]|[_ Hi]]; [done|].
    apply lookup_singleton_Some in Hi as [<- <-]. done.
Defined.

(** ** Entering a namespace *)

(** One attemptOpenAndSetns: the open failed, the setns failed and its
    descriptor was closed, or the thread is in. *)
Inductive attempt := OpenFailed | SetnsFailed | Entered (fd : Z).

Definition maxRetriesCst : nat := 10.
(** 10 ms, in nanoseconds. *)
Definition backoffFactor : Z := 10 * 1000000.
Definition backoffSleep (attempt : nat) : Z :=
  if decide (attempt = 0 \/ maxRetriesCst <= attempt)%nat then 0 else 2 ^ Z.of_nat attempt * backoffFactor.

(** The descriptor returned, whether the thread is in, and the time slept, from
    attempt [a] on with [n] left. *)
Fixpoint setns_loop (tries : nat -> attempt) (n a : nat) : Z * bool * Z :=
  match n with
  | O => (-1, false, 0)
  | S n =>
      match tries a with
      | OpenFailed => (-1, false, 0)
      | Entered fd => (fd, true, 0)
      | SetnsFailed => let '(fd, inside, slept) := setns_loop tries n (S a) in (fd, inside, backoffSleep a + slept)
      end
  end.
(** Without the mount-info gate: both callers pass checkMount false. *)
Definition openAndSetNSWithRetries (tries : nat -> attempt) : Z * bool * Z := setns_loop tries maxRetriesCst 0.

Lemma backoffSleep_bound a : (a < 10)%nat -> 0 <= backoffSleep a <= 2 ^ Z.of_nat a * backoffFactor.
Proof. intros Ha. unfold backoffSleep, backoffFactor. case_decide; [split; [lia|]; pose proof (Z.pow_pos_nonneg 2 (Z.of_nat a)); lia|lia]. Qed.
Lemma setns_loop_spec tries n a : (a + n = 10)%nat ->
  let '(fd, inside, slept) := setns_loop tries n a in
  0 <= slept <= (2 ^ 10 - 2 ^ Z.of_nat a) * backoffFactor /\
  (if inside then exists k, (a <= k < 10)%nat /\ tries k = Entered fd /\ forall j, (a <= j < k)%nat -> tries j = SetnsFailed
   else fd = -1 /\ ((forall j, (a <= j < 10)%nat -> tries j = SetnsFailed) \/
     exists k, (a <= k < 10)%nat /\ tries k = OpenFailed /\ forall j, (a <= j < k)%nat -> tries j = SetnsFailed)).
Proof.
  assert (0 < backoffFactor) as Hb by (unfold backoffFactor; lia).
  revert a. induction n as [|n IH]; intros a Ha; cbn [setns_loop].
  { assert (a = 10)%nat as -> by lia. split; [cbn; lia|]. split; [done|]. left. lia. }
  assert (2 ^ Z.of_nat a <= 2 ^ 10) as Hpow by (apply Z.pow_le_mono_r; lia).
  destruct (tries a) as [| |fd] eqn:Ht.
  - split; [nia|]. split; [done|]. right. exists a. split_and!; [lia|lia|done|lia].
  - specialize (IH (S a) ltac:(lia)). destruct (setns_loop tries n (S a)) as [[fd inside] slept]. destruct IH as [Hs Hi].
    pose proof (backoffSleep_bound a ltac:(lia)) as Hsl.
    assert (2 ^ Z.of_nat (S a) = 2 * 2 ^ Z.of_nat a) as He by (rewrite Nat2Z.inj_succ, Z.pow_succ_r; lia).
    split; [rewrite He in Hs; nia|]. destruct inside.
    + destruct Hi as (k & Hk & Hf & Hj). exists k. split_and!; [lia|lia|done|]. intros j Hj'.
      destruct (decide (j = a)) as [->|]; [done|apply Hj; lia].
    + destruct Hi as [-> Hi]. split; [done|]. destruct Hi as [Hj|(k & Hk & Hf & Hj)]; [left|right].
      * intros j Hj'. destruct (decide (j = a)) as [->|]; [done|apply Hj; lia].
      * exists k. split_and!; [lia|lia|done|]. intros j Hj'. destruct (decide (j = a)) as [->|]; [done|apply Hj; lia].
  - split; [nia|]. exists a. split_and!; [lia|lia|done|lia].
Qed.

(** Entering is tried ten times at most, 10.23 seconds of back-off in all;
    the descriptor returned is the successful attempt's exactly when the thread
    is inside, and -1 - never a descriptor already closed - when an open failed
    or every setns did. *)
Theorem openAndSetNSWithRetries_spec tries :
  let '(fd, inside, slept) := openAndSetNSWithRetries tries in
  0 <= slept <= 10230 * 1000000 /\
  (if inside then exists k, (k < 10)%nat /\ tries k = Entered fd /\ forall j, (j < k)%nat -> tries j = SetnsFailed
   else fd = -1 /\ ((forall j, (j < 10)%nat -> tries j = SetnsFailed) \/
     exists k, (k < 10)%nat /\ tries k = OpenFailed /\ forall j, (j < k)%nat -> tries j = SetnsFailed)).
Proof.
  unfold openAndSetNSWithRetries. pose proof (setns_loop_spec tries maxRetriesCst 0 eq_refl) as H.
  destruct (setns_loop tries maxRetriesCst 0) as [[fd inside] slept]. destruct H as [Hs Hi].
  split; [unfold backoffFactor in Hs; cbn in Hs; lia|]. destruct inside.
  - destruct Hi as (k & Hk & Hf & Hj). exists k. split_and!; [lia|done|]. intros j Hj'. apply Hj. lia.
  - destruct Hi as [-> [Hj|(k & Hk & Hf & Hj)]]; (split; [done|]); [left; intros; apply Hj; lia|right].
    exists k. split_and!; [lia|done|]. intros j Hj'. apply Hj. lia.
Qed.
