(* ===== verification/NsLife.v ===== *)
(** The life of a monitored namespace (pkg/xtcp/ns_net_namespace.go and
    ns_createNetlinkersAndStore.go) against the reconciler's nsAdd and nsDelete:
    every interleaving of the goroutines' steps with the deleter's, one access
    to a shared map at a time. *)

From S2P Require Import Prelude InetDiag NsDiscover Namespaces.

(** ** One goroutine *)

Definition goto (c : nat) (i : instance) (p : pc) (s : XTCP) : XTCP :=
  set_instance c (mkInstance (i_id i) (i_thread i) (i_fd i) p) s.

(** The next step inside createNetlinkersAndStore. *)
Definition createNetlinkersAndStore (c : nat) (i : instance) (s : XTCP) : XTCP :=
  let inode := id_inode (i_id i) in
  let done := bool_decide (c ∈ cancelled s) in
  match i_pc i with
  | Guard => goto c i (if done then Waiting else StoreNs) s
  | StoreNs =>
      let nsi := mkItem inode (id_pid (i_id i)) (id_name (i_id i)) c (i_fd i) in
      goto c i StoreFd (set_nsMap (<[inode := nsi]> (nsMap s)) s)
  | StoreFd => goto c i CountStore (set_fdToNsMap (<[i_fd i := inode]> (fdToNsMap s)) s)
  | CountStore => goto c i Recheck (incrementStoreAndGenerationCounts s)
  | Recheck => goto c i (if done then UndoNs else Waiting) s
  | UndoNs => goto c i UndoFd (set_nsMap (delete inode (nsMap s)) s)
  | UndoFd => goto c i Waiting (set_fdToNsMap (delete (i_fd i) (fdToNsMap s)) s)
  | _ => s
  end.

(** The next step of the goroutine of context [c]. [ok] is the outcome of the
    system call it makes there - setns with its retries, socket, bind - and [fd]
    the descriptor a socket gets, one not in use. *)
Definition advance (ok : bool) (fd : Z) (c : nat) (s : XTCP) : option XTCP :=
  i ← instances s !! c;
  let done := bool_decide (c ∈ cancelled s) in
  match i_pc i with
  | Entering =>
      Some (set_instance c (mkInstance (i_id i) (if ok then id_inode (i_id i) else i_thread i) (i_fd i) CheckCtx) s)
  | CheckCtx => Some (goto c i (if done then Done else OpenSocket) s)
  | OpenSocket =>
      if ok then
        if decide (0 <= fd /\ sockets s !! fd = None)
        then Some (set_instance c (mkInstance (i_id i) (i_thread i) fd Bind) (set_sockets (<[fd := i_thread i]> (sockets s)) s))
        else None
      else Some (goto c i Done s)
  | Bind => Some (goto c i (if ok then Guard else Closing) s)
  | Waiting => if done then Some (goto c i Closing s) else None
  | Closing => Some (goto c i Done (set_sockets (delete (i_fd i) (sockets s)) s))
  | Done => None
  | _ => Some (createNetlinkersAndStore c i s)
  end.

(** ** The deleter *)

(** Where nsDelete is, with the key and the entry it loaded. *)
Inductive del_pc := DIdle | DCancel (i : Z) (it : netNSitem) | DNsMap (i : Z) (it : netNSitem)
  | DFd (it : netNSitem) | DPoll (it : netNSitem) | DCount.
#[export] Instance netNSitem_eq : EqDecision netNSitem. Proof. solve_decision. Defined.
#[export] Instance del_pc_eq : EqDecision del_pc. Proof. solve_decision. Defined.

Definition advance_delete (d : del_pc) (s : XTCP) : del_pc * XTCP :=
  match d with
  | DIdle => (DIdle, s)
  | DCancel i it => (DNsMap i it, cancel (it_ctx it) s)
  | DNsMap i it => (DFd it, set_nsMap (delete i (nsMap s)) s)
  | DFd it => (DPoll it, set_fdToNsMap (delete (it_fd it) (fdToNsMap s)) s)
  | DPoll it => (DCount, set_pollTime (delete (it_fd it) (pollTime s)) s)
  | DCount => (DIdle, incrementDeleteAndGenerationCounts s)
  end.

(** With nothing in between, its steps are nsDelete. *)
Lemma advance_delete_nsDelete i it s : nsMap s !! i = Some it ->
  Nat.iter 5 (fun ds => advance_delete ds.1 ds.2) (DCancel i it, s) = (DIdle, nsDelete i s).
Proof. intros Hi. unfold nsDelete. by rewrite Hi. Qed.

(** ** All of it *)

Section Life.
Context (selfNsInode : Z).

Inductive action :=
  | ARun (ok : bool) (fd : Z) (c : nat)   (* a goroutine steps *)
  | AAdd (id : nsIdentity)                (* the reconciler adds *)
  | ALoad (i : Z)                         (* the reconciler starts a delete *)
  | ADelete.                              (* the deleter steps *)

(** Both callers of reconcile hold its mutex, so adds and deletes do not
    overlap; the daemon's own namespace is never deleted. *)
Definition act (a : action) (ds : del_pc * XTCP) : option (del_pc * XTCP) :=
  let '(d, s) := ds in
  match a with
  | ARun ok fd c => (fun s' => (d, s')) <$> advance ok fd c s
  | AAdd id => if decide (d = DIdle) then Some (DIdle, nsAdd selfNsInode id s) else None
  | ALoad i =>
      if decide (d = DIdle /\ i <> selfNsInode) then (fun it => (DCancel i it, s)) <$> nsMap s !! i else None
  | ADelete => if decide (d = DIdle) then None else Some (advance_delete d s)
  end.
Definition acts (l : list action) (ds : del_pc * XTCP) : option (del_pc * XTCP) :=
  foldl (fun o a => o ≫= act a) (Some ds) l.

(** After openDefaultNetLinkSocket, on descriptor [fd]. *)
Definition default_id : nsIdentity := mkIdentity selfNsInode 0 (ascii_bytes "default") [].
Definition init (fd : Z) : XTCP :=
  mkXTCP {[selfNsInode := mkItem selfNsInode 0 (ascii_bytes "default") 0 fd]} {[fd := selfNsInode]} ∅ 1 0 1 1 ∅
    {[0%nat := mkInstance default_id selfNsInode fd Waiting]} {[fd := selfNsInode]}.

(** A setns that failed after its retries. *)
Definition setns_failed (a : action) (s : XTCP) : bool :=
  match a with
  | ARun false _ c => match instances s !! c with Some i => bool_decide (i_pc i = Entering) | None => false end
  | _ => false
  end.
(** What can be reached, with or without such failures. *)
Inductive reachable (fails : bool) : del_pc * XTCP -> Prop :=
  | reach_init fd : 0 <= fd -> reachable fails (DIdle, init fd)
  | reach_act a ds ds' : reachable fails ds -> (fails = false -> setns_failed a ds.2 = false) ->
      act a ds = Some ds' -> reachable fails ds'.
End Life.

(** ** What a goroutine's step changes *)

(** Between publishing its entry and having checked for, or undone, a delete. *)
Definition publishing (p : pc) : bool := 
  match p with StoreFd | CountStore | Recheck | UndoNs => true | _ => false end.
(** From opening the socket to closing it. *)
Definition holds (p : pc) : bool :=
  
  match p with Entering | CheckCtx | OpenSocket | Done => false | _ => true end.

Ltac advance_cases H :=
  unfold advance, createNetlinkersAndStore in H; let i := fresh "i" in let Hi := fresh "Hi" in
  match type of H with (instances ?s !! ?c ≫= _) = _ => destruct (instances s !! c) as [i|] eqn:Hi; [|done] end;
  cbn [mbind option_bind] in H; let Hp := fresh "Hp" in destruct (i_pc i) eqn:Hp;
  repeat case_match; simplify_eq/=.

Lemma advance_map ok fd c s s' : advance ok fd c s = Some s' ->
  exists i i', instances s !! c = Some i /\ instances s' = <[c := i']> (instances s) /\ i_id i' = i_id i /\
    cancelled s' = cancelled s /\ nextCtx s' = nextCtx s /\
    ((nsMap s' = nsMap s /\
      (publishing (i_pc i) = true -> publishing (i_pc i') = true \/ c ∉ cancelled s)) \/
     (publishing (i_pc i') = true /\ exists it, it_ctx it = c /\ nsMap s' = <[id_inode (i_id i) := it]> (nsMap s)) \/
     nsMap s' = delete (id_inode (i_id i)) (nsMap s)).
Proof.
  intros H. advance_cases H; do 2 eexists; repeat (split; [solve [assumption | reflexivity | done | intros; congruence]|]).
  all: try (left; split; [done|]; rewrite Hp; first [done|by intros; left|intros; right; by eapply bool_decide_eq_false_1]).
  - right; left. split; [done|]. eexists; split; [|reflexivity]; done.
  - by right; right.
Qed.

Lemma advance_sockets ok fd c s s' : advance ok fd c s = Some s' ->
  exists i i', instances s !! c = Some i /\ instances s' = <[c := i']> (instances s) /\ i_id i' = i_id i /\
    (i_pc i <> Entering -> i_thread i' = i_thread i) /\ i_pc i' <> Entering /\
    (i_pc i = Entering -> ok = true -> i_thread i' = id_inode (i_id i)) /\
    ((sockets s' = sockets s /\ holds (i_pc i') = holds (i_pc i) /\ (holds (i_pc i) = true -> i_fd i' = i_fd i)) \/
     (holds (i_pc i) = false /\ holds (i_pc i') = true /\ i_fd i' = fd /\ sockets s !! fd = None /\
        i_pc i <> Entering /\ sockets s' = <[fd := i_thread i']> (sockets s)) \/
     (holds (i_pc i) = true /\ holds (i_pc i') = false /\ i_pc i <> Entering /\ sockets s' = delete (i_fd i) (sockets s))).
Proof.
  intros H. advance_cases H; do 2 eexists; repeat (split; [solve [assumption | reflexivity | done | intros; congruence]|]).
  all: try (left; split; [done|]; split; [by rewrite Hp|done]).
  - right; left. rewrite Hp. naive_solver.
  - right; right. by rewrite Hp.
Qed.

(** ** Entries *)

(** The entry's context is that of a goroutine for the key. *)
Definition owns (s : XTCP) (k : Z) (it : netNSitem) : Prop :=
  exists i, instances s !! it_ctx it = Some i /\ id_inode (i_id i) = k.

Record wf (ds : del_pc * XTCP) : Prop := mkWf {
  wf_entry : forall k it, nsMap ds.2 !! k = Some it -> owns ds.2 k it;
  wf_loaded : forall k it, ds.1 = DCancel k it \/ ds.1 = DNsMap k it -> owns ds.2 k it;
  wf_fresh : forall c, (nextCtx ds.2 <= c)%nat -> instances ds.2 !! c = None /\ c ∉ cancelled ds.2;
  wf_stale : forall k it, nsMap ds.2 !! k = Some it -> it_ctx it ∈ cancelled ds.2 ->
    (exists it', ds.1 = DNsMap k it') \/
    exists i, instances ds.2 !! it_ctx it = Some i /\ publishing (i_pc i) = true }.

Lemma owns_set s s' c i i' k it : instances s !! c = Some i -> instances s' = <[c := i']> (instances s) ->
  i_id i' = i_id i -> owns s k it -> owns s' k it.
Proof.
  intros Hi Hs Hid (j & Hj & Hk). unfold owns. rewrite Hs. destruct (decide (it_ctx it = c)) as [Hx|Hne].
  - exists i'. rewrite Hx, lookup_insert_eq in *. split; [done|]. congruence.
  - exists j. by rewrite lookup_insert_ne.
Qed.

Lemma wf_run ok fd c d s s' : advance ok fd c s = Some s' -> wf (d, s) -> wf (d, s').
Proof.
  intros (i & i' & Hi & Hs & Hid & Hc & Hn & Hm)%advance_map [H1 H2 H3 H4]. cbn in *.
  assert (forall k it, nsMap s' !! k = Some it -> nsMap s !! k = Some it \/
    publishing (i_pc i') = true /\ it_ctx it = c /\ k = id_inode (i_id i)) as Hnew.
  { intros k it. destruct Hm as [[-> _]|[(Hp & it' & Hit & ->)| ->]]; [by left| |].
    - intros [[<- <-]|[_ ?]]%lookup_insert_Some; [by right|by left].
    - intros [_ ?]%lookup_delete_Some. by left. }
  split; cbn.
  - intros k it [Hit|(_ & Hx & ->)]%Hnew; [by eapply owns_set, H1|]. exists i'. rewrite Hs, Hx, lookup_insert_eq. by rewrite Hid.
  - intros k it Hd. by eapply owns_set, H2.
  - intros c' Hc'. rewrite Hs, Hc, Hn in *. destruct (H3 c' Hc') as [Hi' Hn']. split; [|done].
    rewrite lookup_insert_ne; [done|]. intros <-. congruence.
  - intros k it Hit Hcan. rewrite Hc in Hcan. rewrite Hs. destruct (decide (it_ctx it = c)) as [Hx|Hx].
    + rewrite Hx, lookup_insert_eq. destruct (Hnew k it Hit) as [Hold|(Hp & _ & _)]; [|right; by exists i'].
      destruct (H4 k it Hold Hcan) as [?|(j & Hj & Hp)]; [by left|]. rewrite Hx in Hj. simplify_eq. right. exists i'. split; [done|].
      destruct Hm as [[_ Hpub]|[[Hp' _]|Hm]]; [destruct (Hpub Hp); [done|congruence]|done|].
      destruct (H1 k it Hold) as (j & Hj' & Hk). simplify_eq. by rewrite Hm, lookup_delete_eq in Hit.
    + rewrite lookup_insert_ne by done. apply Hnew in Hit as [Hit|(_ & ? & _)]; [|done]. by apply H4.
Qed.

Lemma wf_add selfNs id s : wf (DIdle, s) -> wf (DIdle, nsAdd selfNs id s).
Proof.
  intros [H1 H2 H3 H4]. cbn in *. destruct (H3 (nextCtx s) ltac:(lia)) as [Hi Hc].
  assert (forall k it, owns s k it -> it_ctx it <> nextCtx s) as Hne by (intros k it (i & Hi' & _) He; congruence).
  unfold nsAdd. cbn. destruct (nsMap s !! id_inode id) as [old|] eqn:Hid.
  - split; cbn; [done|naive_solver| |].
    + intros c Hx. destruct (H3 c ltac:(lia)) as [Hi' Hc']. split; [done|]. rewrite not_elem_of_union, not_elem_of_singleton. split; [lia|done].
    + intros k it Hit Hcan. apply H4; [done|]. apply elem_of_union in Hcan as [Hcan|]; [|done].
      apply elem_of_singleton in Hcan. by destruct (Hne _ _ (H1 _ _ Hit)).
  - split; cbn; [|naive_solver| |].
    + intros k it [[<- <-]|[_ Hit]]%lookup_insert_Some.
      * eexists. cbn. rewrite lookup_insert_eq. done.
      * destruct (H1 k it Hit) as (i & Hi' & Hk). exists i. cbn. rewrite lookup_insert_ne; [done|].
        intros He. by apply (Hne k it); [by exists i|].
    + intros c Hx. destruct (H3 c ltac:(lia)) as [Hi' Hc']. by rewrite lookup_insert_ne by lia.
    + intros k it [[<- <-]|[_ Hit]]%lookup_insert_Some Hcan; [done|]. rewrite lookup_insert_ne; [by apply H4|].
      intros He. by apply (Hne k it); [apply H1|].
Qed.

Lemma wf_delete d s : wf (d, s) -> wf (advance_delete d s).
Proof.
  intros [H1 H2 H3 H4]. cbn in *. destruct d as [|k it|k it|it|it|]; split; cbn.
  all: try first [exact H1|exact H2|exact H3|exact H4|by intros ? ? [?|?]
                 |by intros k' it' Hit Hc; destruct (H4 k' it' Hit Hc) as [[? ?]|?]; [|right]].
  - intros k' it' [[=]|[= <- <-]]. apply H2. by left.
  - (* the cancel *)
    destruct (H2 k it) as (i & Hi & Hk); [by left|]. intros c Hc. destruct (H3 c Hc). split; [done|].
    rewrite not_elem_of_union, not_elem_of_singleton. split; [congruence|done].
  - intros k' it' Hit Hcan. destruct (decide (it_ctx it' ∈ cancelled s)) as [Hin|Hin].
    { destruct (H4 k' it' Hit Hin) as [[? ?]|?]; [done|by right]. }
    left. assert (it_ctx it' = it_ctx it) as He by (apply elem_of_union in Hcan as [Hcan|]; [by apply elem_of_singleton in Hcan|done]).
    destruct (H1 k' it' Hit) as (i & Hi & <-), (H2 k it) as (j & Hj & <-); [by left|]. exists it. congruence.
  - intros k' it' [_ Hit]%lookup_delete_Some. by apply H1.
  - intros k' it' [Hne Hit]%lookup_delete_Some Hcan. destruct (H4 k' it' Hit Hcan) as [[? [= ? ?]]|?]; [done|by right].
Qed.

Lemma wf_init selfNs fd : wf (DIdle, init selfNs fd).
Proof.
  split; cbn; [|naive_solver| |set_solver].
  - intros k it [<- <-]%lookup_singleton_Some. eexists. cbn. by rewrite lookup_singleton_eq.
  - intros c Hc. rewrite lookup_singleton_ne by lia. set_solver.
Qed.
Lemma reachable_entries selfNs fails ds : reachable selfNs fails ds -> wf ds.
Proof.
  induction 1 as [fd|a [d s] ds' Hr IH Hf Ha]; [apply wf_init|]. destruct a as [ok fd c|id|i|]; cbn in Ha.
  - destruct (advance ok fd c s) as [s'|] eqn:Hs; [|done]. simplify_eq/=. by eapply wf_run.
  - case_decide; simplify_eq. by apply wf_add.
  - case_decide as Hd; [|done]. destruct (nsMap s !! i) as [it|] eqn:Hi; [|done]. simplify_eq/=. destruct Hd as [-> _].
    destruct IH as [H1 H2 H3 H4]. split; cbn in *; [done| |done|].
    + intros k it' [[= <- <-]|[=]]. by apply H1.
    + intros k it' Hit Hc. destruct (H4 k it' Hit Hc) as [[? ?]|?]; [done|by right].
  - case_decide; simplify_eq. by apply wf_delete.
Qed.

(** C9: a namespace deleted at any moment of its goroutine's set-up leaves no
    stale entry behind: a tracked entry whose context was cancelled is one the
    deleter is about to remove, or one its goroutine has just published and has
    not yet checked. *)
Theorem no_stale_entries selfNs fails d s k it :
  reachable selfNs fails (d, s) -> nsMap s !! k = Some it -> it_ctx it ∈ cancelled s ->
  (exists it', d = DNsMap k it') \/
  exists i, instances s !! it_ctx it = Some i /\ publishing (i_pc i) = true.
Proof. intros Hr%reachable_entries. apply (wf_stale _ Hr). Qed.

(** ** Sockets *)

Record sockets_ok (s : XTCP) : Prop := mkSocketsOk {
  so_owner : forall fd ns, sockets s !! fd = Some ns ->
    exists c i, instances s !! c = Some i /\ holds (i_pc i) = true /\ i_fd i = fd /\ i_thread i = ns;
  so_open : forall c i, instances s !! c = Some i -> holds (i_pc i) = true -> sockets s !! i_fd i = Some (i_thread i);
  so_inj : forall c c' i i', instances s !! c = Some i -> instances s !! c' = Some i' ->
    holds (i_pc i) = true -> holds (i_pc i') = true -> i_fd i = i_fd i' -> c = c' }.

Lemma sockets_same s s' : instances s' = instances s -> sockets s' = sockets s -> sockets_ok s -> sockets_ok s'.
Proof. intros Hi Hs [H1 H2 H3]. split; rewrite ?Hi, ?Hs; done. Qed.

(** An instance that holds nothing, before and after. *)
Lemma sockets_idle s s' c i' : (forall i, instances s !! c = Some i -> holds (i_pc i) = false) ->
  holds (i_pc i') = false -> instances s' = <[c := i']> (instances s) -> sockets s' = sockets s ->
  sockets_ok s -> sockets_ok s'.
Proof.
  intros Hold Hnew Hi Hs [H1 H2 H3]. split; rewrite ?Hi, ?Hs.
  - intros fd ns Hfd. destruct (H1 fd ns Hfd) as (c' & j & Hj & Hh & Hx). exists c', j.
    rewrite lookup_insert_ne; [done|]. intros <-. rewrite (Hold j Hj) in Hh. done.
  - intros c' j [[<- <-]|[_ Hj]]%lookup_insert_Some Hh; [congruence|by eapply H2].
  - intros c1 c2 j1 j2 [[<- <-]|[_ Hj1]]%lookup_insert_Some [[<- <-]|[_ Hj2]]%lookup_insert_Some; [done|congruence..|by apply H3].
Qed.
Lemma sockets_run ok fd c s s' : advance ok fd c s = Some s' -> sockets_ok s -> sockets_ok s'.
Proof.
  intros (i & i' & Hi & Hs & Hid & Ht & _ & _ & Hcase)%advance_sockets Hok. pose proof Hok as [H1 H2 H3].
  destruct Hcase as [(Hso & Hh & Hfd)|[(Hn & Hy & Hfd & Hfree & Hne & Hso)|(Hy & Hn & Hne & Hso)]].
  - (* nothing opened or closed *)
    destruct (holds (i_pc i)) eqn:Hhi; [|by apply (sockets_idle s s' c i'); [intros j Hj; congruence|..]].
    assert (i_thread i' = i_thread i) as Ht' by (apply Ht; intros He; by rewrite He in Hhi). specialize (Hfd eq_refl).
    split; rewrite ?Hs, ?Hso.
    + intros f ns Hf. destruct (H1 f ns Hf) as (c' & j & Hj & Hx). destruct (decide (c' = c)) as [->|Hc].
      * exists c, i'. rewrite lookup_insert_eq. simplify_eq. destruct Hx as (_ & <- & <-). done.
      * exists c', j. by rewrite lookup_insert_ne.
    + intros c' j [[<- <-]|[_ Hj]]%lookup_insert_Some Hx; [|by eapply H2]. rewrite Hfd, Ht'. by eapply H2.
    + intros c1 c2 j1 j2 [[<- <-]|[? Hj1]]%lookup_insert_Some [[<- <-]|[? Hj2]]%lookup_insert_Some Hx1 Hx2 He; [done| | |by eapply H3].
      * eapply (H3 c c2); [done|done|done|done|congruence].
      * eapply (H3 c1 c); [done|done|done|done|congruence].
  - (* the socket opened *)
    split; rewrite ?Hs, ?Hso.
    + intros f ns [[<- <-]|[Hf Hns]]%lookup_insert_Some; [exists c, i'; by rewrite lookup_insert_eq|].
      destruct (H1 f ns Hns) as (c' & j & Hj & Hx & Hx'). exists c', j. rewrite lookup_insert_ne; [done|]. intros <-. congruence.
    + intros c' j [[<- <-]|[_ Hj]]%lookup_insert_Some Hx; [by rewrite Hfd, lookup_insert_eq|].
      rewrite lookup_insert_ne; [by eapply H2|]. intros He. pose proof (H2 _ _ Hj Hx). congruence.
    + intros c1 c2 j1 j2 [[<- <-]|[? Hj1]]%lookup_insert_Some [[<- <-]|[? Hj2]]%lookup_insert_Some Hx1 Hx2 He; [done| | |by eapply H3].
      * pose proof (H2 _ _ Hj2 Hx2). congruence.
      * pose proof (H2 _ _ Hj1 Hx1). congruence.
  - (* the socket closed *)
    split; rewrite ?Hs, ?Hso.
    + intros f ns [Hf Hns]%lookup_delete_Some. destruct (H1 f ns Hns) as (c' & j & Hj & Hx & Hx' & Hx'').
      exists c', j. rewrite lookup_insert_ne; [done|]. intros <-. congruence.
    + intros c' j [[<- <-]|[Hc Hj]]%lookup_insert_Some Hx; [congruence|].
      rewrite lookup_delete_ne; [by eapply H2|]. intros He. by apply Hc, (H3 _ _ i j).
    + intros c1 c2 j1 j2 [[<- <-]|[? Hj1]]%lookup_insert_Some [[<- <-]|[? Hj2]]%lookup_insert_Some Hx1 Hx2 He; [done|congruence..|by eapply H3].
Qed.

Lemma nsAdd_sockets selfNs id s : instances s !! nextCtx s = None -> sockets_ok s -> sockets_ok (nsAdd selfNs id s).
Proof.
  intros Hn Hs. unfold nsAdd. cbn. destruct (nsMap s !! id_inode id); [by apply (sockets_same s)|].
  apply (sockets_idle s _ (nextCtx s) (mkInstance id selfNs (-1) Entering)); [intros i Hi; congruence|done..].
Qed.
Lemma reachable_sockets selfNs fails ds : reachable selfNs fails ds -> sockets_ok ds.2.
Proof.
  induction 1 as [fd|a [d s] ds' Hr IH Hf Ha].
  - split; cbn.
    + intros f ns [<- <-]%lookup_singleton_Some. eexists 0%nat, _. by rewrite lookup_singleton_eq.
    + intros c i [<- <-]%lookup_singleton_Some _. by rewrite lookup_singleton_eq.
    + by intros c c' i i' [<- <-]%lookup_singleton_Some [<- <-]%lookup_singleton_Some.
  - pose proof (wf_fresh _ (reachable_entries _ _ _ Hr) (nextCtx s) ltac:(cbn; lia)) as [Hnone _].
    destruct a as [ok fd c|id|i|]; cbn in *.
    + destruct (advance ok fd c s) as [s'|] eqn:Hs; [|done]. simplify_eq/=. by eapply sockets_run.
    + case_decide; simplify_eq/=. by apply nsAdd_sockets.
    + case_decide as Hd; [|done]. destruct (nsMap s !! i); by simplify_eq/=.
    + case_decide; simplify_eq/=. by destruct d; apply (sockets_same s).
Qed.

(** No socket leaks: every open namespace socket is held by exactly one
    goroutine that has not ended, on the namespace its thread was in, however
    deletes and failures fall. *)
Theorem socket_has_one_owner selfNs fails d s fd ns :
  reachable selfNs fails (d, s) -> sockets s !! fd = Some ns ->
  exists c, (exists i, instances s !! c = Some i /\ i_pc i <> Done /\ i_fd i = fd /\ i_thread i = ns) /\
    forall c' i', instances s !! c' = Some i' -> holds (i_pc i') = true -> i_fd i' = fd -> c' = c.
Proof.
  intros [H1 H2 H3]%reachable_sockets Hfd. cbn in *. destruct (H1 fd ns Hfd) as (c & i & Hi & Hh & Hf & Ht).
  exists c. split; [exists i; split_and!; [done|intros He; by rewrite He in Hh|done|done]|].
  intros c' i' Hi' Hh' Hf'. eapply H3; [done|done|done|done|congruence].
Qed.

(** With every setns successful, a thread past it is in its namespace. *)
Lemma reachable_thread selfNs ds c i : reachable selfNs false ds -> instances ds.2 !! c = Some i ->
  i_pc i <> Entering -> i_thread i = id_inode (i_id i).
Proof.
  intros Hr. revert c i. induction Hr as [fd|a [d s] ds' Hr IH Hf Ha]; cbn.
  { by intros c i [<- <-]%lookup_singleton_Some _. }
  specialize (Hf eq_refl). destruct a as [ok fd c|id|k|]; cbn in *.
  - destruct (advance ok fd c s) as [s'|] eqn:Hs; [|done]. simplify_eq/=.
    apply advance_sockets in Hs as (i & i' & Hi & Hs' & Hid & Ht & _ & He & _). rewrite Hs'.
    intros c' j [[<- <-]|[_ Hj]]%lookup_insert_Some Hpc; [|by eapply IH]. rewrite Hid.
    destruct (decide (i_pc i = Entering)) as [Hp|Hp]; [|by rewrite Ht; [eapply IH|]].
    apply He; [done|]. destruct ok; [done|]. rewrite Hi in Hf. by apply bool_decide_eq_false_1 in Hf.
  - case_decide; simplify_eq/=. unfold nsAdd. cbn. destruct (nsMap s !! id_inode id); cbn; [exact IH|].
    intros c' j [[<- <-]|[_ Hj]]%lookup_insert_Some Hpc; [done|by eapply IH].
  - case_decide as Hd; [|done]. destruct (nsMap s !! k); simplify_eq/=. exact IH.
  - case_decide; simplify_eq/=. by destruct d.
Qed.

(** As long as no setns fails, every open namespace socket was opened in the
    namespace of the goroutine that holds it. *)
Theorem socket_in_its_namespace selfNs d s fd ns :
  reachable selfNs false (d, s) -> sockets s !! fd = Some ns ->
  exists c i, instances s !! c = Some i /\ i_fd i = fd /\ id_inode (i_id i) = ns.
Proof.
  intros Hr Hfd. destruct (so_owner _ (reachable_sockets _ _ _ Hr) fd ns Hfd) as (c & i & Hi & Hh & Hf & Ht).
  exists c, i. split_and!; [done|done|]. rewrite <- Ht. symmetry. apply (reachable_thread selfNs (d, s) c i Hr Hi).
  intros He. by rewrite He in Hh.
Qed.

(** ** Leaving *)

(** The steps a goroutine has at most left once its context is cancelled. *)
Definition rank (p : pc) : nat :=
  match p with
  | Done => 0 | Closing => 1 | Waiting => 2 | UndoFd => 3 | UndoNs => 4 | Recheck => 5 | CountStore => 6
  | StoreFd => 7 | StoreNs => 8 | Guard => 9 | Bind => 10 | OpenSocket => 11 | CheckCtx => 12 | Entering => 13
  end.
Definition steps_of (c : nat) (a : action) : nat := match a with ARun _ _ c' => if decide (c' = c) then 1 else 0 | _ => 0 end.

Lemma advance_rank ok fd c s s' : c ∈ cancelled s -> advance ok fd c s = Some s' ->
  exists i i', instances s !! c = Some i /\ instances s' !! c = Some i' /\ (rank (i_pc i') < rank (i_pc i))%nat.
Proof.
  intros Hc H. advance_cases H; do 2 eexists; (split; [reflexivity|]); (split; [cbn; by rewrite lookup_insert_eq|]).
  all: cbn; rewrite ?Hp; cbn; try lia; exfalso.
  all: match goal with He : bool_decide _ = false |- _ => by apply bool_decide_eq_false_1 in He end.
Qed.
Lemma advance_enabled ok fd c s i : instances s !! c = Some i -> c ∈ cancelled s -> i_pc i <> Done ->
  0 <= fd -> sockets s !! fd = None -> is_Some (advance ok fd c s).
Proof.
  intros Hi Hc Hp Hfd Hfree. unfold advance. rewrite Hi. cbn. rewrite bool_decide_true by done.
  destruct (i_pc i); try done; try (by eexists). destruct ok; [rewrite decide_True by done|]; by eexists.
Qed.

(** One action: its own steps lower the rank, the others do not touch it. *)
Lemma act_rank selfNs a d s d' s' c i : instances s !! c = Some i -> c ∈ cancelled s -> (c < nextCtx s)%nat ->
  act selfNs a (d, s) = Some (d', s') ->
  exists i', instances s' !! c = Some i' /\ c ∈ cancelled s' /\ (c < nextCtx s')%nat /\
    (steps_of c a + rank (i_pc i') <= rank (i_pc i))%nat.
Proof.
  intros Hi Hc Hn Ha. destruct a as [ok fd c'|id|k|]; cbn in Ha; cbn [steps_of].
  - destruct (advance ok fd c' s) as [s1|] eqn:Hs; [|done]. simplify_eq/=. case_decide as He.
    + subst c'. destruct (advance_rank _ _ _ _ _ Hc Hs) as (j & j' & Hj & Hj' & Hr). simplify_eq.
      apply advance_map in Hs as (_ & _ & _ & _ & _ & Hcan & Hnx & _). exists j'. rewrite Hcan, Hnx. split_and!; [done..|lia].
    + apply advance_map in Hs as (j & j' & _ & Hs' & _ & Hcan & Hnx & _). exists i.
      rewrite Hs', Hcan, Hnx, lookup_insert_ne by done. split_and!; [done..|lia].
  - case_decide; simplify_eq/=. exists i. unfold nsAdd. cbn.
    destruct (nsMap s !! id_inode id); cbn; [split_and!; [done|set_solver|lia|lia]|].
    rewrite lookup_insert_ne by lia. split_and!; [done|done|lia|lia].
  - case_decide; [|done]. destruct (nsMap s !! k); simplify_eq/=. exists i. split_and!; [done..|lia].
  - case_decide; simplify_eq/=. exists i. destruct d; simplify_eq/=; (split_and!; [done|set_solver|lia|lia]).
Qed.

(** C10: once a namespace's context is cancelled its goroutine ends: whatever the
    other goroutines, the reconciler and the system calls do, it takes at most
    thirteen more steps, and until it has ended its next one is never blocked. *)
Theorem cancelled_instance_exits selfNs fails l d s d' s' c i :
  reachable selfNs fails (d, s) -> instances s !! c = Some i -> c ∈ cancelled s ->
  acts selfNs l (d, s) = Some (d', s') ->
  (sum_list_with (steps_of c) l <= 13)%nat /\
  exists i', instances s' !! c = Some i' /\
    (i_pc i' = Done \/
     forall ok fd, 0 <= fd -> sockets s' !! fd = None -> is_Some (act selfNs (ARun ok fd c) (d', s'))).
Proof.
  intros Hr Hi Hc Ha. assert (c < nextCtx s)%nat as Hn.
  { destruct (decide (c < nextCtx s)%nat) as [|Hge]; [done|].
    destruct (wf_fresh _ (reachable_entries _ _ _ Hr) c) as [_ ?]; [cbn; lia|done]. }
  assert (rank (i_pc i) <= 13)%nat as Hk by (destruct (i_pc i); cbn; lia).
  cut (exists i', instances s' !! c = Some i' /\ c ∈ cancelled s' /\
    (sum_list_with (steps_of c) l + rank (i_pc i') <= rank (i_pc i))%nat).
  { intros (i' & Hi' & Hc' & Hsum). split; [lia|]. exists i'. split; [done|].
    destruct (decide (i_pc i' = Done)) as [|Hd]; [by left|right]. intros ok fd Hfd Hfree. cbn.
    destruct (advance_enabled ok fd c s' i') as [s'' ->]; [done..|by eexists]. }
  clear Hr Hk. revert d s i Hi Hc Hn Ha. induction l as [|a l IH]; intros d s i Hi Hc Hn Ha.
  { cbn in Ha. simplify_eq. by exists i. }
  unfold acts in Ha. cbn [foldl mbind option_bind] in Ha. destruct (act selfNs a (d, s)) as [[d1 s1]|] eqn:Ha1.
  2: { exfalso. clear -Ha. induction l; cbn in Ha; [done|auto]. }
  destruct (act_rank _ _ _ _ _ _ _ _ Hi Hc Hn Ha1) as (i1 & Hi1 & Hc1 & Hn1 & Hr1).
  destruct (IH d1 s1 i1 Hi1 Hc1 Hn1 Ha) as (i' & Hi' & Hc' & Hr'). exists i'. cbn. split_and!; [done|done|lia].
Qed.

(** ** Runs *)

Lemma acts_reachable selfNs fails l ds ds' :
  reachable selfNs fails ds -> (forall a, a ∈ l -> forall s, fails = false -> setns_failed a s = false) ->
  acts selfNs l ds = Some ds' -> reachable selfNs fails ds'.
Proof.
  revert ds. induction l as [|a l IH]; intros ds Hr Hf Ha; [cbn in Ha; by simplify_eq|].
  unfold acts in Ha. cbn [foldl mbind option_bind] in Ha. destruct (act selfNs a ds) as [ds1|] eqn:Ha1.
  - apply (IH ds1); [|intros; apply Hf; [by right|done]|done]. eapply reach_act; [exact Hr| |exact Ha1]. apply Hf. by left.
  - exfalso. clear -Ha. induction l; cbn in Ha; [done|auto].
Qed.
(** A run from the start that may fail. *)
Definition run_from (selfNs fd : Z) (l : list action) : option (del_pc * XTCP) := acts selfNs l (DIdle, init selfNs fd).
Lemma run_from_reachable selfNs fd l ds : 0 <= fd -> run_from selfNs fd l = Some ds -> reachable selfNs true ds.
Proof. intros Hfd. apply acts_reachable; [by constructor|done]. Qed.

Definition go_on (c n : nat) : list action := replicate n (ARun true 0 c).
Definition delete_steps : list action := replicate 5 ADelete.
Definition is_done (s : XTCP) (c : nat) : bool :=
  match instances s !! c with Some i => bool_decide (i_pc i = Done) | None => false end.
(** A property of the state a run reaches. *)
Definition after (o : option (del_pc * XTCP)) (P : XTCP -> bool) : bool :=
  match o with Some (DIdle, s) => P s | _ => false end.
Lemma after_reachable selfNs fd l P : 0 <= fd -> after (run_from selfNs fd l) P = true ->
  exists s, reachable selfNs true (DIdle, s) /\ P s = true.
Proof.
  intros Hfd. unfold after. destruct (run_from selfNs fd l) as [[[] s]|] eqn:Hr; try done. intros HP.
  exists s. split; [by eapply run_from_reachable|done].
Qed.

(** A setns that fails after its retries is not noticed: the socket is
    opened in the daemon's own namespace and published under the other
    namespace's inode, to be polled as that namespace. *)
Theorem failed_setns_polls_own_namespace : exists s it,
  reachable 1 true (DIdle, s) /\ nsMap s !! 7 = Some it /\ 0 <= it_fd it /\ sockets s !! it_fd it = Some 1.
Proof.
  destruct (after_reachable 1 3 (AAdd (demo_id 7) :: ARun false 0 1 :: ARun true 0 1 :: ARun true 4 1 :: go_on 1 6)
    (fun s => match nsMap s !! 7 with
              | Some it => bool_decide (0 <= it_fd it) && bool_decide (sockets s !! it_fd it = Some 1) | None => false end))
    as (s & Hr & Hs); [lia|vm_compute; reflexivity|].
  destruct (nsMap s !! 7) as [it|] eqn:Hit; [|done]. apply andb_true_iff in Hs as [H1 H2].
  exists s, it. split_and!; [done|done|by apply bool_decide_eq_true_1 in H1|by apply bool_decide_eq_true_1 in H2].
Qed.

(** A delete that loads a reserved entry just before its socket is published
    cancels a goroutine past its last check, and deletes the descriptor -1: with
    everything at rest the descriptor's entry stays in fdToNsMap. *)
Theorem fd_entry_leaks : exists s,
  reachable 1 true (DIdle, s) /\ dom (nsMap s) = {[1]} /\ is_done s 1 = true /\ fdToNsMap s !! 4 = Some 7.
Proof.
  destruct (after_reachable 1 3 (AAdd (demo_id 7) :: go_on 1 2 ++ ARun true 4 1 :: ARun true 0 1 :: ALoad 7 :: go_on 1 5 ++
      delete_steps ++ go_on 1 2)
    (fun s => bool_decide (dom (nsMap s) = {[1]}) && is_done s 1 && bool_decide (fdToNsMap s !! 4 = Some 7)))
    as (s & Hr & Hs); [lia|vm_compute; reflexivity|].
  apply andb_true_iff in Hs as [[H1 H2]%andb_true_iff H3]. exists s.
  split_and!; [done|by apply bool_decide_eq_true_1 in H1|done|by apply bool_decide_eq_true_1 in H3].
Qed.

(** A namespace deleted and added again while its first goroutine is between
    its check and its publication loses the second one's entry to the first
    one's undo: the second goroutine keeps running on its socket, its context
    not cancelled and in no entry, so no delete reaches it. *)
Theorem readd_orphans_goroutine : exists s,
  reachable 1 true (DIdle, s) /\ dom (nsMap s) = {[1]} /\ is_done s 1 = true /\
  2%nat ∉ cancelled s /\ is_done s 2 = false /\ sockets s !! 5 = Some 7.
Proof.
  destruct (after_reachable 1 3 (AAdd (demo_id 7) :: go_on 1 2 ++ ARun true 4 1 :: go_on 1 2 ++ ALoad 7 :: delete_steps ++
      AAdd (demo_id 7) :: go_on 2 2 ++ ARun true 5 2 :: go_on 2 6 ++ go_on 1 8)
    (fun s => bool_decide (dom (nsMap s) = {[1]}) && is_done s 1 && bool_decide (2%nat ∉ cancelled s) &&
              negb (is_done s 2) && bool_decide (sockets s !! 5 = Some 7)))
    as (s & Hr & Hs); [lia|vm_compute; reflexivity|].
  apply andb_true_iff in Hs as [Hs H5]. apply andb_true_iff in Hs as [Hs H4%negb_true_iff].
  apply andb_true_iff in Hs as [Hs H3]. apply andb_true_iff in Hs as [H1 H2]. exists s.
  split_and!; [done|by apply bool_decide_eq_true_1 in H1|done|by apply bool_decide_eq_true_1 in H3|done|
               by apply bool_decide_eq_true_1 in H5].
Qed.

(** A namespace deleted before its socket is published is counted as deleted
    and never as stored: after two of them the gauge of monitored namespaces,
    MapCount, is 2^64-1 while one is tracked. *)
Theorem MapCount_underflows : exists s,
  reachable 1 true (DIdle, s) /\ LenSyncMap s = 1 /\ MapCount s = 2 ^ 64 - 1.
Proof.
  destruct (after_reachable 1 3 ((AAdd (demo_id 7) :: ALoad 7 :: delete_steps) ++ AAdd (demo_id 7) :: ALoad 7 :: delete_steps)
    (fun s => bool_decide (LenSyncMap s = 1) && bool_decide (MapCount s = 2 ^ 64 - 1)))
    as (s & Hr & Hs); [lia|vm_compute; reflexivity|].
  apply andb_true_iff in Hs as [H1 H2]. exists s.
  split_and!; [done|by apply bool_decide_eq_true_1 in H1|by apply bool_decide_eq_true_1 in H2].
Qed.

(** *** Witnesses *)

(** A delete that met a goroutine which has just published its entry. *)
Definition demo_race : list action :=
  AAdd (demo_id 7) :: go_on 1 2 ++ ARun true 4 1 :: go_on 1 2 ++ ALoad 7 :: ADelete :: ADelete :: ADelete :: go_on 1 1.
Definition demo_raced : del_pc * XTCP := default (DIdle, init 1 3) (run_from 1 3 demo_race).
Lemma demo_raced_reachable : reachable 1 true (demo_raced.1, demo_raced.2).
Proof. apply (run_from_reachable 1 3 demo_race); [lia|vm_compute; reflexivity]. Qed.
Definition demo_published : netNSitem := mkItem 7 100 [] 1 4.
Lemma no_stale_entries_witness :
  (exists it', demo_raced.1 = DNsMap 7 it') \/
  exists i, instances demo_raced.2 !! 1%nat = Some i /\ publishing (i_pc i) = true.
Proof.
  apply (no_stale_entries 1 true demo_raced.1 demo_raced.2 7 demo_published demo_raced_reachable).
  - vm_compute. reflexivity.
  - refine (bool_decide_unpack _ _). vm_compute. exact I.
Defined.
Lemma socket_has_one_owner_witness :
  exists c, (exists i, instances demo_raced.2 !! c = Some i /\ i_pc i <> Done /\ i_fd i = 4 /\ i_thread i = 7) /\
    forall c' i', instances demo_raced.2 !! c' = Some i' -> holds (i_pc i') = true -> i_fd i' = 4 -> c' = c.
Proof.
  apply (socket_has_one_owner 1 true demo_raced.1 demo_raced.2 4 7 demo_raced_reachable). vm_compute. reflexivity.
Defined.
Lemma demo_fresh_reachable : reachable 1 false (DIdle, init 1 3).
Proof. constructor. lia. Qed.
Lemma socket_in_its_namespace_witness :
  exists c i, instances (init 1 3) !! c = Some i /\ i_fd i = 3 /\ id_inode (i_id i) = 1.
Proof. apply (socket_in_its_namespace 1 DIdle (init 1 3) 3 1 demo_fresh_reachable). vm_compute. reflexivity. Defined.
Lemma cancelled_instance_exits_witness :
  (sum_list_with (steps_of 1) [] <= 13)%nat /\
  exists i', instances demo_raced.2 !! 1%nat = Some i' /\
    (i_pc i' = Done \/ forall ok fd, 0 <= fd -> sockets demo_raced.2 !! fd = None ->
       is_Some (act 1 (ARun ok fd 1) (demo_raced.1, demo_raced.2))).
Proof.
  apply (cancelled_instance_exits 1 true [] demo_raced.1 demo_raced.2 demo_raced.1 demo_raced.2 1
    (mkInstance (demo_id 7) 7 4 StoreFd) demo_raced_reachable).
  - vm_compute. reflexivity.
  - refine (bool_decide_unpack _ _). vm_compute. exact I.
  - reflexivity.
Defined.
