(* ===== verification/RtWrite.v ===== *)
(** The rtnetlink write builders (pkg/xtcpnl/xtcpnl_addr_write.go,
    xtcpnl_route_write.go and xtcpnl_link_write.go): the requests of `ip
    address`, `ip route` and `ip link`, with the bond and veth data nests.

    A builder's body is a sequence of encoder calls, each returning early on an
    error; what one appends, and exactly when it succeeds, is [appends], and the
    calls compose by it. *)

From S2P Require Import Prelude NlHeaders FlatRecord Enrich RtAttr NlRequest RtParsers LinkStats Bond Links.


(** A call on a builder. *)
Abbreviation op := (AttrBuilder -> go (AttrBuilder * option err)).
Definition skip_op : op := fun a => Some (a, None).
Definition and_then (f g : op) : op := fun a =>
  '(a, e) ← f a; match e with Some e => Some (a, Some e) | None => g a end.
Definition fail_op (e : err) : op := fun a => Some (a, Some e).
(** [m, err := ab.BeginNest(t); ...; return ab.EndNest(m)] *)
Definition nest_op (atype : Z) (inner : op) : op := fun a =>
  '(a, m, e) ← BeginNest atype a;
  match e with
  | Some e => Some (a, Some e)
  | None => '(a, e) ← inner a; match e with Some e => Some (a, Some e) | None => EndNest m a end
  end.

(** ** Addresses *)

Definition addrWriteBufCst : Z := 256.
Definition ifaFlagsHdrMaxCst : Z := 255.

(** An attribute: its type and its payload. *)
Definition AddrAttrU8 (atype v : Z) : Z * bytes := (atype, [v]).
Definition AddrAttrU32 (atype v : Z) : Z * bytes := (atype, le_split 4 v).
Definition AddrAttrString (atype : Z) (s : bytes) : Z * bytes := (atype, s ++ [0]).
Definition AddrAttrBytes (atype : Z) (b : bytes) : Z * bytes := (atype, b).
Definition AddrAttrCacheinfo (preferred valid : Z) : Z * bytes :=
  (Addr.IFA_CACHEINFO, le_split 4 preferred ++ le_split 4 valid ++ le_split 4 0 ++ le_split 4 0).

Record AddrWrite := mkAddrWrite {
  aw_MsgType : Z; aw_Flags : Z; aw_Family : Z; aw_Prefixlen : Z; aw_Scope : Z; aw_Index : Z; aw_IfaFlags : Z;
  aw_Attrs : list (Z * bytes); aw_PostAttrs : list (Z * bytes) }.

Definition EncodeIfAddrmsg (family prefixlen flags scope index : Z) : bytes :=
  [family; prefixlen; flags; scope] ++ le_split 4 index.
Definition putAddrAttrs (attrs : list (Z * bytes)) : op := each (fun p => PutBytes p.1 p.2) attrs.

Definition BuildAddrWriteRequest (w : AddrWrite) (seq : Z) : go built :=
  if decide (aw_MsgType w <> RTM_NEWADDR /\ aw_MsgType w <> RTM_DELADDR) then Some (inr ErrAddrWriteType) else
  if decide (Exists (fun a => a.1 = Addr.IFA_FLAGS) (aw_Attrs w ++ aw_PostAttrs w))
  then Some (inr ErrAddrWriteFlagsAttr) else
  let hdrFlags := if decide (aw_IfaFlags w <= ifaFlagsHdrMaxCst) then uint8 (aw_IfaFlags w) else 0 in
  on_ok (putAddrAttrs (aw_Attrs w) (NewAttrBuilder (make addrWriteBufCst))) (fun ab =>
  on_ok (put_if (ifaFlagsHdrMaxCst < aw_IfaFlags w) (PutU32 Addr.IFA_FLAGS (aw_IfaFlags w)) ab) (fun ab =>
  on_ok (putAddrAttrs (aw_PostAttrs w) ab) (fun ab =>
  b ← Bytes ab;
  BuildWriteRequest (aw_MsgType w) (aw_Flags w) seq
    (EncodeIfAddrmsg (aw_Family w) (aw_Prefixlen w) hdrFlags (aw_Scope w) (aw_Index w)) b))).

(** ** Routes *)

Definition routeWriteBufCst : Z := 4096.
Definition routeMetricsBufCst : Z := 256 - RTAttrSizeCst.
Definition RTAX_LOCK : Z := 1.

Definition RouteAttrU32 := AddrAttrU32.
Definition RouteAttrBytes := AddrAttrBytes.

Record RouteMetric := mkRouteMetric { rx_Type : Z; rx_U32 : Z; rx_Str : bytes }.
Record RouteWrite := mkRouteWrite {
  rw_MsgType : Z; rw_Flags : Z; rw_Family : Z; rw_DstLen : Z; rw_SrcLen : Z; rw_Tos : Z; rw_Table : Z;
  rw_Protocol : Z; rw_Scope : Z; rw_Type : Z; rw_RtmFlags : Z; rw_Attrs : list (Z * bytes);
  rw_Metrics : list RouteMetric; rw_MetricLock : Z }.

Definition EncodeRtMsg (w : RouteWrite) : bytes :=
  [rw_Family w; rw_DstLen w; rw_SrcLen w; rw_Tos w; rw_Table w; rw_Protocol w; rw_Scope w; rw_Type w] ++
  le_split 4 (rw_RtmFlags w).

Definition put_metric (m : RouteMetric) : op :=
  if decide (rx_Type m = Route.RTAX_CC_ALGO) then PutBytes (rx_Type m) (rx_Str m) else PutU32 (rx_Type m) (rx_U32 m).
(** A nil result is [inl None]. *)
Definition EncodeRouteMetrics (ms : list RouteMetric) (lock : Z) : go (option bytes + err) :=
  if decide (length ms = 0%nat /\ lock = 0) then Some (inl None) else
  '(ab, e) ← each put_metric ms (NewAttrBuilder (make routeMetricsBufCst));
  match e with
  | Some e => Some (inr e)
  | None =>
      '(ab, e) ← put_if (lock <> 0) (PutU32 RTAX_LOCK lock) ab;
      match e with Some e => Some (inr e) | None => b ← Bytes ab; Some (inl (CopyBytes b)) end
  end.

Definition BuildRouteWriteRequest (w : RouteWrite) (seq : Z) : go built :=
  if decide (rw_MsgType w <> RTM_NEWROUTE /\ rw_MsgType w <> RTM_DELROUTE) then Some (inr ErrRouteWriteType) else
  mx ← EncodeRouteMetrics (rw_Metrics w) (rw_MetricLock w);
  match mx with
  | inr e => Some (inr e)
  | inl mx =>
      on_ok (each (fun p => PutBytes p.1 p.2) (rw_Attrs w) (NewAttrBuilder (make routeWriteBufCst))) (fun ab =>
      on_ok (match mx with Some mx => PutBytes Route.RTA_METRICS mx | None => skip_op end ab) (fun ab =>
      b ← Bytes ab; BuildWriteRequest (rw_MsgType w) (rw_Flags w) seq (EncodeRtMsg w) b))
  end.

(** ** Links *)

Definition linkWriteBufCst : Z := NlMsgHdrSizeCst + IfInfomsgSizeCst + 1024.

Definition LinkAttrU32 := AddrAttrU32.
Definition LinkAttrString := AddrAttrString.
Definition LinkAttrBytes := AddrAttrBytes.

Record LinkWrite := mkLinkWrite {
  lw_MsgType : Z; lw_Flags : Z; lw_Family : Z; lw_Index : Z; lw_IfFlags : Z; lw_IfChange : Z;
  lw_Attrs : list (Z * bytes); lw_Kind : bytes; lw_Data : bytes; lw_HasData : bool }.

(** The first underscore on, compared with "_slave". *)
Fixpoint from_underscore (kind : bytes) : option bytes :=
  match kind with [] => None | c :: k => if decide (c = 95) then Some kind else from_underscore k end.
Definition LinkKindDataType (kind : bytes) : Z :=
  if decide (from_underscore kind = Some [95; 115; 108; 97; 118; 101])
  then Link.IFLA_INFO_SLAVE_DATA else Link.IFLA_INFO_DATA.

Definition EncodeIfInfomsg (family index flags change : Z) : bytes :=
  [family; 0; 0; 0] ++ le_split 4 (uint32 index) ++ le_split 4 flags ++ le_split 4 change.

Definition putRaw (b : bytes) : op := fun ab =>
  if decide (glen (ab_buf ab) - ab_n ab < glen b) then Some (ab, Some ErrAttrNoSpace) else
  c ← copy_at (ab_buf ab) (ab_n ab) b;
  Some ({| ab_buf := c; ab_n := ab_n ab + glen b |}, None).
Definition putLinkInfo (w : LinkWrite) : op :=
  nest_op IFLA_LINKINFO (and_then (PutString IFLA_INFO_KIND (lw_Kind w))
    (if lw_HasData w then nest_op (LinkKindDataType (lw_Kind w)) (putRaw (lw_Data w)) else skip_op)).

Definition BuildLinkWriteRequest (w : LinkWrite) (seq : Z) : go built :=
  if decide (lw_MsgType w <> RTM_NEWLINK /\ lw_MsgType w <> RTM_DELLINK) then Some (inr ErrLinkWriteType) else
  if decide (lw_Kind w = [] /\ lw_HasData w = true) then Some (inr ErrLinkWriteDataWithoutKind) else
  on_ok (each (fun p => PutBytes p.1 p.2) (lw_Attrs w)
           (NewAttrBuilder (make (linkWriteBufCst - NlMsgHdrSizeCst - IfInfomsgSizeCst)))) (fun ab =>
  on_ok (if decide (lw_Kind w <> []) then putLinkInfo w ab else Some (ab, None)) (fun ab =>
  b ← Bytes ab;
  BuildWriteRequest (lw_MsgType w) (lw_Flags w) seq
    (EncodeIfInfomsg (lw_Family w) (lw_Index w) (lw_IfFlags w) (lw_IfChange w)) b)).

(** *** Bond options *)

Record BondSetting := mkBondSetting {
  st_Spec : option BondOptionSpec; st_Value : Z; st_Bytes : bytes; st_Targets : list Addr }.

(** [As4] panics on an address that is neither IPv4 nor IPv4-mapped. *)
Definition As4 (a : Addr) : go bytes := match Unmap a with Addr4 b => Some b | Addr16 _ => None end.
Definition As16 (a : Addr) : bytes := match a with Addr16 b => b | Addr4 b => replicate 10 0 ++ [255; 255] ++ b end.

Fixpoint put_targets (w : BondWire) (i : Z) (l : list Addr) : op := fun ab =>
  match l with
  | [] => Some (ab, None)
  | a :: l =>
      p ← (match w with BondWireIPv4Set => As4 a | _ => Some (As16 a) end);
      and_then (PutBytes (uint16 i) p) (put_targets w (i + 1) l) ab
  end.
Definition putBondTargets (s : BondSetting) (spec : BondOptionSpec) : op :=
  if decide (bondMaxTargetsCst < glen (st_Targets s)) then fail_op ErrAttrTooLong else
  nest_op (bo_ID spec) (put_targets (bo_Wire spec) 0 (st_Targets s)).
Definition putBondSetting (s : BondSetting) : op :=
  match st_Spec s with
  | None => fail_op ErrBondSettingWire
  | Some spec =>
      if bo_ReadOnly spec then fail_op ErrBondSettingWire else
      match bo_Wire spec with
      | BondWireU8 => PutU8 (bo_ID spec) (uint8 (st_Value s))
      | BondWireU16 => PutU16 (bo_ID spec) (uint16 (st_Value s))
      | BondWireU32 | BondWireS32 => PutU32 (bo_ID spec) (st_Value s)
      | BondWireMAC => PutBytes (bo_ID spec) (st_Bytes s)
      | BondWireIPv4Set | BondWireIPv6Set => putBondTargets s spec
      | BondWireNest => fail_op ErrBondSettingWire
      end
  end.
(** The bytes of a fresh builder after the call, or its error. *)
Definition run_op (n : Z) (f : op) : go built :=
  '(ab, e) ← f (NewAttrBuilder (make n));
  match e with Some e => Some (inr e) | None => b ← Bytes ab; Some (inl b) end.
Definition encodeBondSettings (l : list BondSetting) : go built := run_op linkWriteBufCst (each putBondSetting l).
Definition EncodeBondInfoData := encodeBondSettings.
Definition EncodeBondSlaveData := encodeBondSettings.

(** *** veth *)

Definition VethInfoPeer : Z := 1.
Record VethPeer := mkVethPeer { vp_Index : Z; vp_IfFlags : Z; vp_IfChange : Z; vp_Attrs : list (Z * bytes) }.
Definition EncodeVethPeer (p : VethPeer) : go built :=
  run_op linkWriteBufCst (nest_op VethInfoPeer
    (and_then (putRaw (EncodeIfInfomsg AF_UNSPEC (vp_Index p) (vp_IfFlags p) (vp_IfChange p)))
       (each (fun a => PutBytes a.1 a.2) (vp_Attrs p)))).

(** ** What a call appends *)

(** [f] appends [w] when [c] holds and it fits, and fails otherwise. *)
Definition appends (c : Prop) (w : bytes) (f : op) : Prop := forall a d r, holds a d r ->
  exists a' e, f a = Some (a', e) /\ (e = None <-> c /\ glen w <= glen r) /\
    (e = None -> holds a' (d ++ w) (drop (length w) r)).

Lemma appends_put ty v f : (forall a d r, holds a d r -> put_outcome ty v a d r (f a)) ->
  appends (glen v <= RtaMaxPayloadCst) (enc_attr (ty, v)) f.
Proof.
  intros Hf a d r Ha. destruct (Hf a d r Ha) as (a' & e & -> & He & Hh). exists a', e.
  rewrite attr_space_enc. split_and!; [done|done|]. by intros ->.
Qed.
Lemma appends_bytes ty v : appends (glen v <= RtaMaxPayloadCst) (enc_attr (ty, v)) (PutBytes ty v).
Proof. apply appends_put. intros. by apply PutBytes_outcome. Qed.
Lemma appends_cond c c' w f : (c <-> c') -> appends c w f -> appends c' w f.
Proof. intros Hc Hf a d r Ha. destruct (Hf a d r Ha) as (a' & e & ? & He & ?). exists a', e. split_and!; [done|by rewrite He, Hc|done]. Qed.
Lemma appends_u32 ty v : appends True (enc_attr (ty, le_split 4 v)) (PutU32 ty v).
Proof.
  apply (appends_cond (glen (le_split 4 v) <= RtaMaxPayloadCst)).
  - rewrite glen_le_split. split; [done|intros _; vm_compute; discriminate].
  - apply appends_put. intros. by apply PutU32_outcome.
Qed.
Lemma appends_u16 ty v : appends True (enc_attr (ty, le_split 2 v)) (PutU16 ty v).
Proof.
  apply (appends_cond (glen (le_split 2 v) <= RtaMaxPayloadCst)).
  - rewrite glen_le_split. split; [done|intros _; vm_compute; discriminate].
  - apply appends_put. intros. by apply PutU16_outcome.
Qed.
Lemma appends_string ty s : appends (glen s < RtaMaxPayloadCst) (enc_attr (ty, s ++ [0])) (PutString ty s).
Proof.
  apply (appends_cond (glen (s ++ [0]) <= RtaMaxPayloadCst)); [rewrite glen_app; change (glen [0]) with 1; lia|].
  apply appends_put. intros. by apply PutString_outcome.
Qed.
Lemma appends_skip : appends True [] skip_op.
Proof.
  intros a d r Ha. exists a, None. split_and!; [done| |intros _; by rewrite app_nil_r].
  split; [|done]. intros _. split; [done|]. apply glen_nonneg.
Qed.
Lemma appends_fail w e : appends False w (fail_op e).
Proof. intros a d r Ha. exists a, (Some e). split_and!; [done| |done]. split; [done|tauto]. Qed.
Lemma appends_seq c1 w1 f c2 w2 g : appends c1 w1 f -> appends c2 w2 g -> appends (c1 /\ c2) (w1 ++ w2) (and_then f g).
Proof.
  intros Hf Hg a d r Ha. unfold and_then. destruct (Hf a d r Ha) as (a1 & e1 & -> & He1 & Hh1). cbn [mbind option_bind].
  rewrite glen_app. destruct e1 as [e|].
  - exists a1, (Some e). split_and!; [done| |done]. split; [done|]. intros [[Hc _] Hl]. apply He1. split; [done|]. glen_pos; lia.
  - destruct (proj1 He1 eq_refl) as [Hc1 Hl1]. destruct (Hg a1 _ _ (Hh1 eq_refl)) as (a2 & e2 & -> & He2 & Hh2).
    exists a2, e2. split_and!; [done| |].
    + rewrite He2, glen_drop. unfold glen in *. split; intros; split_and?; try tauto; lia.
    + intros He. specialize (Hh2 He). by rewrite <- app_assoc, drop_drop, <- length_app in Hh2.
Qed.
Lemma appends_each {A} (c : A -> Prop) (w : A -> bytes) (f : A -> op) l :
  (forall x, x ∈ l -> appends (c x) (w x) (f x)) -> appends (Forall c l) (concat (w <$> l)) (each f l).
Proof.
  induction l as [|x l IH]; intros Hl.
  - intros a d r Ha. destruct (appends_skip a d r Ha) as (a' & e & H1 & H2 & H3). exists a', e.
    split_and!; [exact H1| |exact H3]. rewrite H2. split; intros [_ ?]; split; try done.
  - intros a d r Ha. destruct (appends_seq _ _ _ _ _ _ (Hl x ltac:(by left)) (IH ltac:(intros; apply Hl; by right)) a d r Ha)
      as (a' & e & H1 & H2 & H3). exists a', e. rewrite Forall_cons. by split_and!.
Qed.
Lemma appends_attrs l : appends (Forall (fun a => glen a.2 <= RtaMaxPayloadCst) l) (enc_attrs l)
  (each (fun p => PutBytes p.1 p.2) l).
Proof. apply appends_each. intros [t v] _. apply appends_bytes. Qed.
Lemma appends_when (b : bool) c w f : appends c w f ->
  appends (b = true -> c) (if b then w else []) (if b then f else skip_op).
Proof.
  intros Hf a d r Ha. destruct b.
  - destruct (Hf a d r Ha) as (a' & e & H1 & H2 & H3). exists a', e. split_and!; [done| |done]. rewrite H2. tauto.
  - destruct (appends_skip a d r Ha) as (a' & e & H1 & H2 & H3). exists a', e. split_and!; [done| |done]. rewrite H2. naive_solver.
Qed.
Lemma appends_raw b : appends True b (putRaw b).
Proof.
  intros a d r [Hb Hn]. unfold putRaw. rewrite Hb, Hn, glen_app. case_decide as Hl.
  - eexists a, (Some _). split_and!; [done| |done]. split; [done|lia].
  - replace (d ++ r) with (d ++ take (length b) r ++ drop (length b) r) by by rewrite take_drop.
    rewrite copy_at_mid by (done || (rewrite glen_take; unfold glen in *; lia)). cbn [mbind option_bind].
    eexists _, None. split_and!; [done|split; [intros _; split; [done|lia]|done]|].
    intros _. split; cbn [ab_buf ab_n]; [by rewrite <- app_assoc|by rewrite glen_app].
Qed.

(** A nest of [w]: its header and [w]; an attribute when [w] is padded. *)
Definition nest_bytes (ty : Z) (w : bytes) : bytes := le_split 2 (4 + glen w) ++ le_split 2 ty ++ w.
Lemma nest_bytes_attr ty w : glen w mod 4 = 0 -> nest_bytes ty w = enc_attr (ty, w).
Proof.
  intros Hw. unfold nest_bytes, enc_attr, pad. cbn [fst snd].
  by rewrite FourByteAlignPadding_mod, Z.mod_opp_l_z, app_nil_r by (lia || done).
Qed.
Lemma appends_nest ty c w f : appends c w f -> appends (c /\ glen w <= RtaMaxPayloadCst) (nest_bytes ty w) (nest_op ty f).
Proof.
  intros Hf a d r Ha. unfold nest_op, nest_bytes. rewrite !glen_app, !glen_le_split, !length_app, !length_le_split.
  destruct (BeginNest_outcome ty a d r Ha) as (a1 & m & e1 & -> & He1 & Hh1). cbn [mbind option_bind].
  destruct e1 as [e|].
  { exists a1, (Some e). split_and!; [done| |done]. split; [done|]. intros [_ Hl]. apply He1. glen_pos; lia. }
  destruct (Hh1 eq_refl) as [-> Ha1]. pose proof (proj1 He1 eq_refl) as Hr.
  destruct (Hf a1 _ _ Ha1) as (a2 & e2 & -> & He2 & Hh2). cbn [mbind option_bind]. rewrite glen_drop in He2.
  destruct e2 as [e|].
  { exists a2, (Some e). split_and!; [done| |done]. split; [done|]. intros [[Hc _] Hl]. apply He2. split; [done|]. unfold glen in *; lia. }
  destruct (proj1 He2 eq_refl) as [Hc Hw]. specialize (Hh2 eq_refl). rewrite <- app_assoc in Hh2.
  destruct (EndNest_outcome ty a2 d w _ Hh2) as (a3 & e3 & -> & He3 & _ & Hh3 & _).
  exists a3, e3. split_and!; [done| |].
  - rewrite He3. unfold glen in *. split; intros; split_and?; try tauto; lia.
  - intros He. specialize (Hh3 He). by rewrite drop_drop in Hh3.
Qed.

(** A fresh builder. *)
Lemma on_ok_seq f g a k : on_ok (f a) (fun ab => on_ok (g ab) k) = on_ok (and_then f g a) k.
Proof.
  unfold on_ok, and_then. destruct (f a) as [[a' [e|]]|]; [done| |done]. cbn [mbind option_bind]. done.
Qed.
Lemma on_ok_appends n c w f (k : bytes -> go built) : appends c w f -> 0 <= n ->
  exists e, on_ok (f (NewAttrBuilder (make n))) (fun ab => b ← Bytes ab; k b) =
    match e with None => k w | Some e => Some (inr e) end /\ (e = None <-> c /\ glen w <= n).
Proof.
  intros Hf Hn. destruct (Hf (NewAttrBuilder (make n)) [] (make n)) as (a & e & Ha & He & Hh); [done|].
  rewrite glen_make in He by done. exists e. split; [|done]. unfold on_ok. rewrite Ha. cbn [mbind option_bind].
  destruct e as [e|]; [done|]. by rewrite (holds_Bytes _ _ _ (Hh eq_refl)).
Qed.
Lemma run_op_appends n c w f : appends c w f -> 0 <= n ->
  exists res, run_op n f = Some res /\
    match res with inl b => b = w /\ c /\ glen w <= n | inr _ => ~ (c /\ glen w <= n) end.
Proof.
  intros Hf Hn. destruct (on_ok_appends n c w f (fun b => Some (inl b)) Hf Hn) as (e & He & Hi).
  unfold on_ok in He. unfold run_op. rewrite He. destruct e as [e|]; eexists; (split; [done|]).
  - intros Hx. by apply Hi in Hx.
  - split; [done|]. by apply Hi.
Qed.
