(* ===== verification/RtWriteSpec.v ===== *)
(** What a write request says: the builders' results on every branch, and that
    the parsers of the reply side read a built request back. *)

From S2P Require Import Prelude NlHeaders FlatRecord Enrich RtAttr NlRequest NlWalk NlEnvelope RtParsers RtParsersSpec RouteSpec LinkStats Bond Links RtWrite.

(** ** Attributes *)

(** A caller's attribute: a type without the two flag bits. *)
Definition plain_type (a : Z * bytes) : Prop := 0 <= a.1 < 2 ^ 14.
Definition fits (n : Z) (l : list (Z * bytes)) : Prop :=
  Forall (fun a => glen a.2 <= RtaMaxPayloadCst) l /\ glen (enc_attrs l) <= n.

Lemma masked_plain l : Forall plain_type l -> masked <$> l = l.
Proof.
  induction 1 as [|[t v] l Ht Hl IH]; [done|]. cbn. rewrite IH. unfold masked. cbn [fst snd].
  unfold plain_type in Ht. cbn [fst] in Ht. by rewrite NlaTypeMask_mod, Z.mod_small.
Qed.
(** A stream of them walks back to the list. *)
Lemma parse_attrs_plain l : Forall plain_type l -> Forall (fun a => glen a.2 <= RtaMaxPayloadCst) l ->
  parse_attrs (enc_attrs l) = (l, None).
Proof.
  intros Ht Hv. rewrite parse_attrs_enc, masked_plain; [done|done|].
  apply Forall_forall. intros a Ha. rewrite Forall_forall in Ht, Hv. specialize (Ht a Ha). specialize (Hv a Ha).
  unfold plain_type, RtaMaxPayloadCst, RTAttrSizeCst, wf_attr in *. lia.
Qed.
Lemma first_attr_none t l : Forall (fun a => a.1 <> t) l -> first_attr t l = None.
Proof. induction 1 as [|a l Ha Hl IH]; [done|]. by rewrite first_attr_cons, decide_False. Qed.
Lemma first_attr_app t l k : first_attr t (l ++ k) = match first_attr t l with Some v => Some v | None => first_attr t k end.
Proof. induction l as [|a l IH]; [done|]. cbn [app]. rewrite !first_attr_cons. by case_decide. Qed.

Lemma firsts_Forall (P : Z * bytes -> Prop) seen l : Forall P l -> Forall P (firsts seen l).
Proof.
  intros H. revert seen. induction H as [|a l Ha Hl IH]; intros seen; cbn [firsts]; [done|].
  repeat case_decide; auto.
Qed.

(** A request's body is its family header and attributes. *)
Lemma message_body ty fl seq hdr attrs : drop 16 (message_bytes ty fl seq hdr attrs) = hdr ++ attrs.
Proof. done. Qed.

(** A word written little-endian is read back. *)
Lemma u32_of_split v : 0 <= v < 2 ^ 32 -> u32_of (le_split 4 v) = Some v.
Proof.
  intros Hv. unfold u32_of. rewrite glen_le_split, decide_True by done. f_equal.
  rewrite <- (app_nil_r (le_split 4 v)). by apply le_at_split.
Qed.

(** ** Addresses *)

Section Addr.
Context (w : AddrWrite).

(** The attributes in wire order. *)
Definition addr_wire : list (Z * bytes) :=
  aw_Attrs w ++ (if decide (ifaFlagsHdrMaxCst < aw_IfaFlags w) then [(Addr.IFA_FLAGS, le_split 4 (aw_IfaFlags w))] else []) ++
  aw_PostAttrs w.
Definition addr_hdr : bytes :=
  EncodeIfAddrmsg (aw_Family w) (aw_Prefixlen w)
    (if decide (aw_IfaFlags w <= ifaFlagsHdrMaxCst) then uint8 (aw_IfaFlags w) else 0) (aw_Scope w) (aw_Index w).

Definition addr_refused : option err :=
  if decide (aw_MsgType w <> RTM_NEWADDR /\ aw_MsgType w <> RTM_DELADDR) then Some ErrAddrWriteType else
  if decide (Exists (fun a => a.1 = Addr.IFA_FLAGS) (aw_Attrs w ++ aw_PostAttrs w)) then Some ErrAddrWriteFlagsAttr
  else None.

Lemma addr_appends : appends (Forall (fun a => glen a.2 <= RtaMaxPayloadCst) addr_wire) (enc_attrs addr_wire)
  (and_then (and_then (putAddrAttrs (aw_Attrs w)) (put_if (ifaFlagsHdrMaxCst < aw_IfaFlags w) (PutU32 Addr.IFA_FLAGS (aw_IfaFlags w))))
     (putAddrAttrs (aw_PostAttrs w))).
Proof.
  unfold addr_wire. rewrite !enc_attrs_app, (app_assoc (enc_attrs _)).
  eapply appends_cond; [|refine (appends_seq _ _ _ _ _ _ (appends_seq _ _ _ _ _ _ (appends_attrs _) _) (appends_attrs _))].
  2: { instantiate (1 := True). unfold put_if. case_decide; [rewrite enc_attrs_one; apply appends_u32|apply appends_skip]. }
  rewrite !Forall_app. case_decide; [rewrite Forall_singleton; cbn [snd]; rewrite glen_le_split|rewrite Forall_nil]; [|tauto].
  assert (Z.of_nat 4 <= RtaMaxPayloadCst) by (vm_compute; discriminate). tauto.
Qed.

Lemma BuildAddrWriteRequest_eq seq : exists r, BuildAddrWriteRequest w seq = Some r /\
  match addr_refused, r with
  | Some e, r => r = inr e
  | None, inl b => fits addrWriteBufCst addr_wire /\
      b = message_bytes (aw_MsgType w) (Z.lor (aw_Flags w) NLM_F_REQUEST) seq addr_hdr (enc_attrs addr_wire)
  | None, inr _ => ~ fits addrWriteBufCst addr_wire
  end.
Proof.
  unfold BuildAddrWriteRequest, addr_refused. case_decide as Ht; [by eexists|]. case_decide; [by eexists|]. cbv zeta.
  rewrite on_ok_seq, on_ok_seq. fold addr_hdr.
  destruct (on_ok_appends addrWriteBufCst _ _ _
    (fun b => BuildWriteRequest (aw_MsgType w) (aw_Flags w) seq addr_hdr b) addr_appends ltac:(done)) as (e & -> & He).
  destruct e as [e|]; [eexists; split; [done|]; intros Hf; by apply He in Hf|].
  rewrite BuildWriteRequest_eq. assert (aw_MsgType w = RTM_NEWADDR \/ aw_MsgType w = RTM_DELADDR) as Hty by lia.
  assert (IsAdmittedWriteType (aw_MsgType w) = true /\ FamilyHdrLen (aw_MsgType w) = 8) as [-> ->] by (by destruct Hty as [-> | ->]).
  cbn [negb]. change (glen addr_hdr) with 8. rewrite decide_False by lia. eexists. split; [done|]. split; [by apply He|done].
Qed.

(** Field widths, and attribute types without flag bits. *)
Definition addr_wf : Prop :=
  0 <= aw_Index w < 2 ^ 32 /\ 0 <= aw_IfaFlags w < 2 ^ 32 /\ Forall plain_type (aw_Attrs w ++ aw_PostAttrs w).

Lemma addr_wire_plain : addr_wf -> Forall plain_type addr_wire.
Proof.
  unfold addr_wf, addr_wire. intros (_ & _ & Hp). rewrite Forall_app in Hp. destruct Hp as [H1 H2].
  rewrite !Forall_app. split_and!; [done| |done]. case_decide; [|done]. apply Forall_singleton. by vm_compute.
Qed.
Lemma addr_wire_other t : t <> Addr.IFA_FLAGS -> first_attr t addr_wire = first_attr t (aw_Attrs w ++ aw_PostAttrs w).
Proof.
  intros Ht. unfold addr_wire. rewrite !first_attr_app. destruct (first_attr t (aw_Attrs w)); [done|].
  case_decide; [|done]. by rewrite first_attr_cons, decide_False.
Qed.
(** Wherever they are written, the flags are read back whole. *)
Lemma addr_wire_flags : addr_refused = None -> addr_wf ->
  default (if decide (aw_IfaFlags w <= ifaFlagsHdrMaxCst) then uint8 (aw_IfaFlags w) else 0)
    (first_attr Addr.IFA_FLAGS addr_wire ≫= u32_of) = aw_IfaFlags w.
Proof.
  unfold addr_refused, addr_wf. intros Hr (_ & Hf & _). case_decide; [done|]. case_decide as Hno; [done|].
  apply Forall_Exists_neg, Forall_app in Hno as [H1 H2].
  unfold addr_wire. rewrite first_attr_app, (first_attr_none _ (aw_Attrs w)) by exact H1. rewrite first_attr_app.
  case_decide as Hle.
  - unfold ifaFlagsHdrMaxCst in *. rewrite decide_False by lia. cbn. rewrite first_attr_none by exact H2. cbn.
    unfold uint8. rewrite Z.mod_small; lia.
  - rewrite decide_True by lia. rewrite first_attr_cons. cbn [fst snd]. rewrite decide_True by done. cbn [mbind option_bind].
    by rewrite u32_of_split.
Qed.
End Addr.

Module AddrWriteSpec.
Import RtParsers.Addr RtParsersSpec.AddrSpec.

(** An address write is refused for a foreign type or an IFA_FLAGS among its
    attributes, or when they overflow the 256-byte buffer; otherwise it is the
    header and the attributes in order, and the reply parser reads it back: the
    header's fields, the flags whole whether they went into the header byte or
    into IFA_FLAGS, and the first attribute of each type. *)
Theorem addr_write_roundtrip w seq : addr_wf w ->
  exists r, BuildAddrWriteRequest w seq = Some r /\
  match addr_refused w, r with
  | Some e, r => r = inr e
  | None, inr _ => ~ fits addrWriteBufCst (addr_wire w)
  | None, inl b =>
      b = message_bytes (aw_MsgType w) (Z.lor (aw_Flags w) NLM_F_REQUEST) seq (addr_hdr w) (enc_attrs (addr_wire w)) /\
      exists ai, ParseNewAddr (drop 16 b) = Some (ai, None) /\
        let att t := first_attr t (aw_Attrs w ++ aw_PostAttrs w) in
        ai_num ai Family = aw_Family w /\ ai_num ai Prefixlen = aw_Prefixlen w /\ ai_num ai Scope = aw_Scope w /\
        ai_num ai Index = aw_Index w /\ ai_num ai Flags = aw_IfaFlags w /\
        ai_buf ai Address = union (att IFA_ADDRESS ≫= CopyBytes) (att IFA_LOCAL ≫= CopyBytes) /\
        ai_buf ai Local_ = union (att IFA_LOCAL ≫= CopyBytes) (att IFA_ADDRESS ≫= CopyBytes) /\
        ai_buf ai Broadcast = att IFA_BROADCAST ≫= CopyBytes /\
        ai_Label ai = from_option TrimRight0 [] (att IFA_LABEL) /\
        ai_num ai RtPriority = default 0 (att IFA_RT_PRIORITY ≫= u32_of) /\
        ai_CacheInfo ai = default zeroCacheinfo (att IFA_CACHEINFO ≫= cacheinfo_of)
  end.
Proof.
  intros Hwf. destruct (BuildAddrWriteRequest_eq w seq) as (r & Hb & Hr). exists r. split; [done|].
  destruct (addr_refused w) as [e|] eqn:Hno; [done|]. destruct r as [b|]; [|done]. destruct Hr as [[Hv _] ->].
  split; [done|]. rewrite message_body. destruct (ParseNewAddr_spec (addr_hdr w ++ enc_attrs (addr_wire w))) as (ai & e & Hp & He).
  change (drop 8 (addr_hdr w ++ enc_attrs (addr_wire w))) with (enc_attrs (addr_wire w)) in He.
  rewrite (parse_attrs_plain _ (addr_wire_plain w Hwf) Hv) in He. cbn [fst snd] in He.
  assert (8 <= glen (addr_hdr w ++ enc_attrs (addr_wire w))) as Hl.
  { rewrite glen_app. change (glen (addr_hdr w)) with 8. glen_pos. lia. }
  destruct e as [e|]; [destruct He as [_ He]; case_decide; [lia|done]|]. exists ai. split; [exact Hp|].
  destruct He as (_ & _ & F1 & F2 & F3 & F4 & F5 & F6 & F7 & F8 & _ & _ & F9 & _ & _ & F10 & _ & _ & _ & F11 & _).
  rewrite (addr_wire_other w IFA_ADDRESS), (addr_wire_other w IFA_LOCAL) in F6, F7 by discriminate.
  rewrite addr_wire_other in F8, F9, F10, F11 by discriminate. cbv zeta.
  split_and!; [exact F1|exact F2|exact F3| |by rewrite F5, <- (addr_wire_flags w Hno Hwf)|exact F6|exact F7|exact F8|
               exact F9|exact F10|exact F11].
  rewrite F4. change (addr_hdr w ++ ?x) with ([aw_Family w; aw_Prefixlen w;
    (if decide (aw_IfaFlags w <= ifaFlagsHdrMaxCst) then uint8 (aw_IfaFlags w) else 0); aw_Scope w] ++ le_split 4 (aw_Index w) ++ x).
  rewrite (le_at_app 4 [_; _; _; _] _ 0) by done. apply le_at_split; [|done]. destruct Hwf as [Hi _]. exact Hi.
Qed.

(** 10.0.0.1/24 with managed and home-address flags, which need IFA_FLAGS. *)
Definition demo_addr : AddrWrite := mkAddrWrite RTM_NEWADDR NLM_F_ACK 2 24 0 7 544
  [AddrAttrBytes IFA_LOCAL [10; 0; 0; 1]] [AddrAttrString IFA_LABEL [101]].
Lemma addr_write_roundtrip_witness : addr_wf demo_addr /\ addr_refused demo_addr = None /\
  exists b, BuildAddrWriteRequest demo_addr 1 = Some (inl b) /\
    (exists ai, ParseNewAddr (drop 16 b) = Some (ai, None) /\ ai_num ai Flags = 544) /\
    exists r, BuildAddrWriteRequest demo_addr 1 = Some r.
Proof.
  assert (addr_wf demo_addr) as Hw.
  { split_and!; [by vm_compute|by vm_compute| |by vm_compute|]; try by vm_compute.
    repeat constructor; by vm_compute. }
  split; [exact Hw|]. split; [reflexivity|].
  destruct (addr_write_roundtrip demo_addr 1 Hw) as (r & Hr & H). eexists. split; [vm_compute; reflexivity|].
  split; [|by exists r]. vm_compute in Hr. injection Hr as <-. change (addr_refused demo_addr) with (@None err) in H.
  destruct H as (_ & ai & Hp & _ & _ & _ & _ & Hf & _). exists ai. split; [exact Hp|exact Hf].
Defined.
End AddrWriteSpec.

(** ** Routes *)

Module RouteWriteSpec.
Import RtParsers.Route RouteSpec.

(** *** Metrics *)

Definition metric_wire (m : RouteMetric) : Z * bytes :=
  (rx_Type m, if decide (rx_Type m = RTAX_CC_ALGO) then rx_Str m else le_split 4 (rx_U32 m)).
(** The metrics written: the caller's, then the lock word. *)
Definition all_metrics (ms : list RouteMetric) (lock : Z) : list RouteMetric :=
  ms ++ (if decide (lock <> 0) then [mkRouteMetric RTAX_LOCK lock []] else []).
Definition metrics_wire (ms : list RouteMetric) (lock : Z) : list (Z * bytes) := metric_wire <$> all_metrics ms lock.

Lemma put_metric_appends m : appends (glen (metric_wire m).2 <= RtaMaxPayloadCst) (enc_attr (metric_wire m)) (put_metric m).
Proof.
  unfold put_metric, metric_wire. cbn [snd]. case_decide; [apply appends_bytes|].
  eapply appends_cond; [|apply appends_u32]. rewrite glen_le_split. split; [intros _; vm_compute; discriminate|done].
Qed.
Lemma metrics_appends ms lock :
  appends (Forall (fun a => glen a.2 <= RtaMaxPayloadCst) (metrics_wire ms lock)) (enc_attrs (metrics_wire ms lock))
    (and_then (each put_metric ms) (put_if (lock <> 0) (PutU32 RTAX_LOCK lock))).
Proof.
  unfold metrics_wire, all_metrics. rewrite fmap_app, enc_attrs_app. unfold enc_attrs at 1. rewrite <- list_fmap_compose.
  eapply appends_cond; [|refine (appends_seq _ _ _ _ _ _ (appends_each _ _ _ ms (fun m _ => put_metric_appends m)) _)].
  2: { instantiate (1 := True). unfold put_if. case_decide; [|apply appends_skip]. cbn [fmap list_fmap].
       rewrite enc_attrs_one. apply appends_u32. }
  rewrite Forall_app, Forall_fmap. case_decide; [|rewrite Forall_nil; tauto]. cbn [fmap list_fmap]. rewrite Forall_singleton.
  cbn [metric_wire snd rx_Type rx_U32]. rewrite decide_False, glen_le_split by done.
  assert (Z.of_nat 4 <= RtaMaxPayloadCst) by (vm_compute; discriminate). tauto.
Qed.

Definition no_metrics (ms : list RouteMetric) (lock : Z) : Prop := length ms = 0%nat /\ lock = 0.
#[export] Instance no_metrics_dec ms lock : Decision (no_metrics ms lock). Proof. unfold no_metrics. apply _. Defined.
Lemma enc_attrs_CopyBytes l : l <> [] -> CopyBytes (enc_attrs l) = Some (enc_attrs l).
Proof. by destruct l. Qed.

Lemma EncodeRouteMetrics_eq ms lock : exists r, EncodeRouteMetrics ms lock = Some r /\
  match r with
  | inl None => no_metrics ms lock
  | inl (Some b) => ~ no_metrics ms lock /\ fits routeMetricsBufCst (metrics_wire ms lock) /\ b = enc_attrs (metrics_wire ms lock)
  | inr _ => ~ no_metrics ms lock /\ ~ fits routeMetricsBufCst (metrics_wire ms lock)
  end.
Proof.
  unfold EncodeRouteMetrics. case_decide as Hno; [by eexists|].
  destruct (metrics_appends ms lock (NewAttrBuilder (make routeMetricsBufCst)) [] (make routeMetricsBufCst)) as (a & e & Ha & He & Hh); [done|].
  unfold and_then in Ha. destruct (each put_metric ms _) as [[a1 [e1|]]|]; [|cbn [mbind option_bind] in *|done].
  - cbn [mbind option_bind] in *. simplify_eq. eexists. split; [done|]. split; [done|]. intros Hf. by apply He in Hf.
  - rewrite Ha. cbn [mbind option_bind]. destruct e as [e|].
    + eexists. split; [done|]. split; [done|]. intros Hf. by apply He in Hf.
    + rewrite (holds_Bytes _ _ _ (Hh eq_refl)). cbn [mbind option_bind app]. rewrite enc_attrs_CopyBytes.
      * eexists. split; [done|]. split_and!; [done|by apply He|done].
      * unfold metrics_wire, all_metrics. intros Hn. apply fmap_nil_inv, app_nil in Hn as [-> Hn].
        case_decide as Hl; [done|]. apply Hno. split; [done|lia].
Qed.

(** What reading a list of metrics leaves. *)
Definition last_u32 (t : Z) (l : list RouteMetric) : option Z :=
  last (omap (fun m => if decide (rx_Type m = t) then Some (rx_U32 m) else None) l).
Definition last_algo (l : list RouteMetric) : option bytes :=
  last (omap (fun m => if decide (rx_Type m = RTAX_CC_ALGO) then Some (rx_Str m) else None) l).
Definition metric_ok (m : RouteMetric) : Prop := 0 <= rx_Type m <= RouteMetricMaxCst /\ 0 <= rx_U32 m < 2 ^ 32.
Record reads (l : list RouteMetric) (m : RouteMetrics) : Prop := mkReads {
  rd_len : length (rm_Values m) = 18%nat;
  rd_present : forall t, 0 <= t <= RouteMetricMaxCst -> Z.testbit (rm_Present m) t = bool_decide (t ∈ rx_Type <$> l);
  rd_values : forall t, 0 <= t <= RouteMetricMaxCst -> t <> RTAX_CC_ALGO ->
    rm_Values m !! Z.to_nat t = Some (default 0 (last_u32 t l));
  rd_algo : rm_CcAlgo m = from_option TrimRight0 [] (last_algo l);
  rd_unknown : rm_Unknown m = 0 }.

Lemma put_at_one (vs : list Z) t v : 0 <= t < glen vs -> put_at vs t [v] = Some (<[Z.to_nat t := v]> vs).
Proof.
  intros Ht. unfold put_at. rewrite decide_True by (change (glen [v]) with 1; lia). f_equal.
  change (length [v]) with 1%nat. rewrite insert_take_drop by (unfold glen in Ht; lia). cbn [app]. by rewrite Nat.add_1_r.
Qed.
Lemma present_bit p t u : 0 <= t <= RouteMetricMaxCst -> 0 <= u <= RouteMetricMaxCst ->
  Z.testbit (Z.lor p (uint32 (Z.shiftl 1 t))) u = Z.testbit p u || bool_decide (u = t).
Proof.
  unfold RouteMetricMaxCst. intros Ht Hu. rewrite Z.lor_spec. f_equal. unfold uint32. rewrite Z.shiftl_1_l, Z.mod_small.
  - rewrite Z.pow2_bits_eqb by lia. case_bool_decide; [by apply Z.eqb_eq|by apply Z.eqb_neq].
  - split; [lia|]. apply Z.pow_lt_mono_r; lia.
Qed.

Lemma reads_step l x m : reads l m -> metric_ok x ->
  exists m', metric_attr (metric_wire x).1 (metric_wire x).2 m = Some m' /\ reads (l ++ [x]) m'.
Proof.
  intros [H1 H2 H3 H4 H5] [Ht Hv]. unfold metric_attr, metric_wire. cbn [fst snd]. rewrite decide_False by lia. cbv zeta.
  assert (forall u, 0 <= u <= RouteMetricMaxCst -> Z.testbit (Z.lor (rm_Present m) (uint32 (Z.shiftl 1 (rx_Type x)))) u =
    bool_decide (u ∈ rx_Type <$> l ++ [x])) as Hbit.
  { intros u Hu. rewrite present_bit, H2 by done. apply eq_bool_prop_intro. rewrite fmap_app.
    rewrite orb_True, !bool_decide_spec, elem_of_app. cbn. by rewrite list_elem_of_singleton. }
  assert (forall u, last_u32 u (l ++ [x]) = if decide (rx_Type x = u) then Some (rx_U32 x) else last_u32 u l) as Hlast.
  { intros u. unfold last_u32. rewrite omap_app. cbn. case_decide; [by rewrite last_snoc|by rewrite app_nil_r]. }
  assert (last_algo (l ++ [x]) = if decide (rx_Type x = RTAX_CC_ALGO) then Some (rx_Str x) else last_algo l) as Halgo.
  { unfold last_algo. rewrite omap_app. cbn. case_decide; [by rewrite last_snoc|by rewrite app_nil_r]. }
  destruct (decide (rx_Type x = RTAX_CC_ALGO)) as [Hc|Hc].
  - eexists. split; [done|]. split; cbn; [done|exact Hbit| |by rewrite Halgo|done].
    intros u Hu Hne. rewrite Hlast, decide_False by congruence. by apply H3.
  - rewrite glen_le_split, decide_False by lia. rewrite <- (app_nil_r (le_split 4 _)), LE32_ok by (rewrite ?glen_app, ?glen_le_split; glen_pos; lia).
    cbn [mbind option_bind]. rewrite le_at_split by done. rewrite put_at_one by (unfold glen; rewrite H1; unfold RouteMetricMaxCst in Ht; lia).
    cbn [mbind option_bind]. eexists. split; [done|]. split; cbn; [by rewrite length_insert|exact Hbit| |by rewrite Halgo|done].
    intros u Hu Hne. rewrite Hlast. case_decide as Hx.
    + subst u. rewrite list_lookup_insert_eq; [done|]. unfold RouteMetricMaxCst in Ht. lia.
    + rewrite list_lookup_insert_ne by lia. by apply H3.
Qed.
Lemma visit_reads l k m : Forall metric_ok l -> reads k m ->
  exists m', visit_attrs metric_attr (metric_wire <$> l) m = Some m' /\ reads (k ++ l) m'.
Proof.
  intros Hl. revert k m. induction Hl as [|x l Hx Hl IH]; intros k m Hm; [exists m; by rewrite app_nil_r|].
  destruct (reads_step k x m Hm Hx) as (m1 & Hm1 & Hr1). destruct (IH _ _ Hr1) as (m2 & Hm2 & Hr2). exists m2.
  cbn [fmap list_fmap]. destruct (metric_wire x) as [t v] eqn:Hw. cbn [visit_attrs fst snd] in *. rewrite Hm1. cbn [mbind option_bind].
  split; [exact Hm2|]. by rewrite <- app_assoc in Hr2.
Qed.
Lemma ParseRouteMetrics_wire l : Forall metric_ok l -> Forall (fun a => glen a.2 <= RtaMaxPayloadCst) (metric_wire <$> l) ->
  exists m, ParseRouteMetrics (enc_attrs (metric_wire <$> l)) = Some (Some m, None) /\ reads l m.
Proof.
  intros Hl Hf. unfold ParseRouteMetrics. rewrite WalkRTAttrs_eq, parse_attrs_plain; [|..|done].
  - cbn [fst snd]. destruct (visit_reads l [] (mkRouteMetrics 0 (replicate 18 0) [] 0) Hl) as (m & -> & Hr).
    + split; cbn [rm_Present rm_Values rm_CcAlgo rm_Unknown]; [done|intros; by rewrite Z.bits_0| |done|done]. intros t Ht _. unfold RouteMetricMaxCst in Ht.
      apply lookup_replicate_2. lia.
    + cbn [mbind option_bind]. by exists m.
  - apply Forall_fmap. eapply Forall_impl; [exact Hl|]. intros x [Hx _]. unfold plain_type, RouteMetricMaxCst in *. cbn. lia.
Qed.
(** Reading one metric back. *)
Lemma reads_Get l m t : reads l m -> 0 <= t <= RouteMetricMaxCst -> t <> RTAX_CC_ALGO ->
  Get (Some m) t = Some (default 0 (last_u32 t l), bool_decide (t ∈ rx_Type <$> l)).
Proof.
  intros [H1 H2 H3 _ _] Ht Hne. unfold Get, Has. rewrite (decide_False (P := RouteMetricMaxCst < t)) by lia.
  assert (bool_decide (Z.land (rm_Present m) (uint32 (Z.shiftl 1 t)) <> 0) = bool_decide (t ∈ rx_Type <$> l)) as ->.
  { rewrite <- H2 by done. unfold uint32. rewrite Z.mod_small.
    - case_bool_decide as Hb; [symmetry; by apply land_bit_testbit; [lia|]|].
      destruct (Z.testbit _ t) eqn:Hx; [|done]. by apply land_bit_testbit in Hx; [|lia].
    - unfold RouteMetricMaxCst in Ht. rewrite Z.shiftl_1_l. split; [lia|]. apply Z.pow_lt_mono_r; lia. }
  case_bool_decide as Hin; cbn [negb].
  - cbn [mbind option_bind]. unfold index. rewrite decide_True, H3 by (done || lia). done.
  - unfold last_u32. replace (omap _ l) with ([] : list Z); [done|]. clear -Hin. induction l as [|x l IH]; [done|].
    rewrite fmap_cons, not_elem_of_cons in Hin. cbn. rewrite decide_False by naive_solver. apply IH. tauto.
Qed.

(** *** The request *)

Section Route.
Context (w : RouteWrite).
Local Abbreviation lock := (rw_MetricLock w).
Local Abbreviation ms := (rw_Metrics w).

(** The attributes in wire order, the metrics nest last. *)
Definition route_wire : list (Z * bytes) :=
  rw_Attrs w ++ (if decide (no_metrics ms lock) then [] else [(RTA_METRICS, enc_attrs (metrics_wire ms lock))]).
Definition route_fits : Prop :=
  (no_metrics ms lock \/ fits routeMetricsBufCst (metrics_wire ms lock)) /\ fits routeWriteBufCst route_wire.

Lemma BuildRouteWriteRequest_eq seq : exists r, BuildRouteWriteRequest w seq = Some r /\
  if decide (rw_MsgType w <> RTM_NEWROUTE /\ rw_MsgType w <> RTM_DELROUTE) then r = inr ErrRouteWriteType else
  match r with
  | inl b => route_fits /\
      b = message_bytes (rw_MsgType w) (Z.lor (rw_Flags w) NLM_F_REQUEST) seq (EncodeRtMsg w) (enc_attrs route_wire)
  | inr _ => ~ route_fits
  end.
Proof.
  unfold BuildRouteWriteRequest. case_decide as Ht; [by eexists|].
  destruct (EncodeRouteMetrics_eq ms lock) as (r & -> & Hr). cbn [mbind option_bind].
  destruct r as [mx|e]; [|eexists; split; [done|]; unfold route_fits; tauto].
  rewrite on_ok_seq.
  assert (appends (Forall (fun a => glen a.2 <= RtaMaxPayloadCst) route_wire) (enc_attrs route_wire)
    (and_then (each (fun p => PutBytes p.1 p.2) (rw_Attrs w))
       (match mx with Some mx => PutBytes RTA_METRICS mx | None => skip_op end))) as Happ.
  { unfold route_wire. rewrite enc_attrs_app. destruct mx as [b|].
    - destruct Hr as (Hno & _ & ->). rewrite decide_False by exact Hno. rewrite enc_attrs_one.
      eapply appends_cond; [|refine (appends_seq _ _ _ _ _ _ (appends_attrs _) (appends_bytes _ _))].
      by rewrite Forall_app, Forall_singleton.
    - rewrite decide_True by exact Hr. rewrite app_nil_r.
      eapply appends_cond; [|refine (appends_seq _ _ _ _ _ _ (appends_attrs _) appends_skip)]. tauto. }
  destruct (on_ok_appends routeWriteBufCst _ _ _
    (fun b => BuildWriteRequest (rw_MsgType w) (rw_Flags w) seq (EncodeRtMsg w) b) Happ ltac:(done)) as (e & -> & He).
  assert (no_metrics ms lock \/ fits routeMetricsBufCst (metrics_wire ms lock)) as Hm by (destruct mx; tauto).
  destruct e as [e|]; [eexists; split; [done|]; intros [_ Hf]; by apply He in Hf|].
  rewrite BuildWriteRequest_eq. assert (rw_MsgType w = RTM_NEWROUTE \/ rw_MsgType w = RTM_DELROUTE) as Hty by lia.
  assert (IsAdmittedWriteType (rw_MsgType w) = true /\ FamilyHdrLen (rw_MsgType w) = 12) as [-> ->] by (by destruct Hty as [-> | ->]).
  cbn [negb]. change (glen (EncodeRtMsg w)) with 12. rewrite decide_False by lia. eexists. split; [done|].
  split; [|done]. split; [exact Hm|by apply He].
Qed.

(** Field widths, attribute types without flag bits, payloads the parser takes,
    and metric types it stores. *)
Definition route_wf : Prop :=
  0 <= rw_RtmFlags w < 2 ^ 32 /\ Forall plain_type (rw_Attrs w) /\
  Forall (fun a => a.1 <> RTA_METRICS /\ route_err a.1 a.2 = None) (rw_Attrs w) /\
  Forall metric_ok (all_metrics ms lock).

Lemma route_wire_plain : route_wf -> Forall plain_type route_wire.
Proof.
  intros (_ & Hp & _). unfold route_wire. apply Forall_app. split; [done|]. case_decide; [done|]. apply Forall_singleton. by vm_compute.
Qed.
Lemma route_wire_other t : t <> RTA_METRICS -> first_attr t route_wire = first_attr t (rw_Attrs w).
Proof.
  intros Ht. unfold route_wire. rewrite first_attr_app. destruct (first_attr t (rw_Attrs w)); [done|].
  case_decide; [done|]. by rewrite first_attr_cons, decide_False.
Qed.
Lemma route_wire_metrics : route_wf -> first_attr RTA_METRICS route_wire =
  if decide (no_metrics ms lock) then None else Some (enc_attrs (metrics_wire ms lock)).
Proof.
  intros (_ & _ & Hn & _). unfold route_wire. rewrite first_attr_app, first_attr_none.
  - case_decide; [done|]. by rewrite first_attr_cons, decide_True.
  - eapply Forall_impl; [exact Hn|]. by intros a [? _].
Qed.
Lemma route_metrics_read : route_wf -> route_fits -> ~ no_metrics ms lock ->
  exists m, metrics_of (enc_attrs (metrics_wire ms lock)) = (Some m, None) /\ reads (all_metrics ms lock) m.
Proof.
  intros (_ & _ & _ & Hm) [[?|[Hf _]] _] Hno; [done|].
  destruct (ParseRouteMetrics_wire _ Hm Hf) as (m & Hp & Hr). exists m. split; [|done].
  unfold metrics_of, metrics_wire. by rewrite Hp.
Qed.
Lemma route_wire_no_err : route_wf -> route_fits -> first_err (firsts [] route_wire) = None.
Proof.
  intros Hwf Hfit. unfold first_err.
  assert (Forall (fun a => route_err a.1 a.2 = None) (firsts [] route_wire)) as Hf.
  { apply firsts_Forall. pose proof Hwf as (_ & _ & Hn & _). unfold route_wire. apply Forall_app. split.
    - eapply Forall_impl; [exact Hn|]. by intros a [_ ?].
    - case_decide as Hno; [done|]. apply Forall_singleton. cbn [fst snd].
      destruct (route_metrics_read Hwf Hfit Hno) as (m & Hm & _).
      unfold route_err. repeat (rewrite decide_False by done). by rewrite decide_True, Hm. }
  induction Hf as [|a l Ha Hl IH]; [done|]. cbn. by rewrite Ha.
Qed.
End Route.

(** C32: a route write is refused for a foreign type, or when the metrics do not
    fit 252 bytes or the attributes 4096; otherwise the reply parser reads it
    back: the header's fields; of the attributes, the first of each type the
    parser knows (numbers, presence flags, addresses, multipath, via, cacheinfo
    and multicast statistics, the table the RTA_TABLE attribute's when one is
    written); and every metric, the lock word among them, a repeated one with its
    last value. Assumed of the write: fields in their widths, attribute types
    without the nested and byte-order bits and other than RTA_METRICS (metrics
    are given apart), nested payloads the parser does not refuse as malformed,
    and 32-bit metrics with types the parser stores (up to 17); the congestion
    algorithm's name is read without trailing NULs. *)
Theorem route_write_roundtrip w seq : route_wf w ->
  exists r, BuildRouteWriteRequest w seq = Some r /\
  if decide (rw_MsgType w <> RTM_NEWROUTE /\ rw_MsgType w <> RTM_DELROUTE) then r = inr ErrRouteWriteType else
  match r with
  | inr _ => ~ route_fits w
  | inl b => route_fits w /\ exists ri, ParseNewRoute (drop 16 b) = Some (ri, None) /\
      let att t := first_attr t (rw_Attrs w) in
      let metrics := all_metrics (rw_Metrics w) (rw_MetricLock w) in
      ri_num ri <$> [Family; DstLen; SrcLen; Tos; Protocol; Scope; Type_; Flags] =
        [rw_Family w; rw_DstLen w; rw_SrcLen w; rw_Tos w; rw_Protocol w; rw_Scope w; rw_Type w; rw_RtmFlags w] /\
      (forall f t read, num_source f = Some (t, read) ->
         ri_num ri f = default (if decide (f = Table) then rw_Table w else 0) (att t ≫= read)) /\
      (forall f, ri_has ri f = from_option (has_source f).2 false (att (has_source f).1)) /\
      (forall f, ri_buf ri f = att (buf_source f) ≫= CopyBytes) /\
      n_Multipath (ri_nested ri) = from_option (fun v => (nexthops_of v).1) [] (att RTA_MULTIPATH) /\
      n_Via (ri_nested ri) = att RTA_VIA ≫= via_of /\
      n_CacheInfo (ri_nested ri) = att RTA_CACHEINFO ≫= rcache_of /\
      n_MfcStats (ri_nested ri) = att RTA_MFC_STATS ≫= mfc_of /\
      (forall t, 0 <= t <= RouteMetricMaxCst -> t <> RTAX_CC_ALGO ->
         Get (n_Metrics (ri_nested ri)) t = Some (default 0 (last_u32 t metrics), bool_decide (t ∈ rx_Type <$> metrics))) /\
      from_option rm_CcAlgo [] (n_Metrics (ri_nested ri)) = from_option TrimRight0 [] (last_algo metrics)
  end.
Proof.
  intros Hwf. destruct (BuildRouteWriteRequest_eq w seq) as (r & Hb & Hr). exists r. split; [done|].
  case_decide; [done|]. destruct r as [b|]; [|done]. destruct Hr as [Hfit ->]. split; [done|]. rewrite message_body.
  set (body := EncodeRtMsg w ++ _).
  destruct (ParseNewRoute_spec body) as (ri & e & Hp & He).
  change (drop 12 body) with (enc_attrs (route_wire w)) in He.
  rewrite (parse_attrs_plain _ (route_wire_plain w Hwf) ltac:(apply Hfit)) in He. cbn [fst snd] in He.
  rewrite (route_wire_no_err w Hwf Hfit) in He.
  assert (12 <= glen body) as Hl by (unfold body; rewrite glen_app; change (glen (EncodeRtMsg w)) with 12; glen_pos; lia).
  destruct e as [e|]; [destruct He as [_ He]; case_decide; [lia|done]|]. exists ri. split; [exact Hp|].
  destruct He as (_ & _ & _ & Hnum & Hhas & Hbuf & Hmp & Hvia & Hmet & Hci & Hmfc). cbv zeta.
  assert (ri_num (route_header_of body) Flags = rw_RtmFlags w) as Hflags.
  { change (ri_num (route_header_of body) Flags) with (le_at 4 body 8). unfold body, EncodeRtMsg. rewrite <- app_assoc.
    rewrite (le_at_app 4 [_; _; _; _; _; _; _; _] _ 0) by done. apply le_at_split; [|done]. apply Hwf. }
  split_and!.
  - cbn [fmap list_fmap]. by rewrite !Hnum, Hflags.
  - intros f t read Hf. rewrite Hnum, Hf, route_wire_other by (destruct f; cbn in Hf; by simplify_eq). f_equal. by destruct f.
  - intros f. rewrite Hhas. f_equal. apply route_wire_other. by destruct f.
  - intros f. rewrite Hbuf. f_equal. apply route_wire_other. by destruct f.
  - by rewrite Hmp, route_wire_other.
  - by rewrite Hvia, route_wire_other.
  - by rewrite Hci, route_wire_other.
  - by rewrite Hmfc, route_wire_other.
  - intros t Ht Hne. rewrite Hmet, route_wire_metrics by done. case_decide as Hno.
    + destruct Hno as [Hm Hk]. apply nil_length_inv in Hm. unfold all_metrics. by rewrite Hm, Hk.
    + destruct (route_metrics_read w Hwf Hfit Hno) as (m & Hm & Hr). cbn [mbind option_bind]. rewrite Hm. by apply reads_Get.
  - rewrite Hmet, route_wire_metrics by done. case_decide as Hno.
    + destruct Hno as [Hm Hk]. apply nil_length_inv in Hm. unfold all_metrics. by rewrite Hm, Hk.
    + destruct (route_metrics_read w Hwf Hfit Hno) as (m & Hm & Hr). cbn [mbind option_bind]. rewrite Hm. apply (rd_algo _ _ Hr).
Qed.

(** 10.0.0.0/8 via 10.0.0.1 with the MTU locked at 1400. *)
Definition demo_route : RouteWrite := mkRouteWrite RTM_NEWROUTE NLM_F_ACK 2 8 0 0 254 3 0 1 0
  [(RTA_DST, [10; 0; 0; 0]); (RTA_GATEWAY, [10; 0; 0; 1])] [mkRouteMetric 2 1400 []] 4.
Lemma route_write_roundtrip_witness : route_wf demo_route /\
  exists b ri, BuildRouteWriteRequest demo_route 1 = Some (inl b) /\ ParseNewRoute (drop 16 b) = Some (ri, None) /\
    Get (n_Metrics (ri_nested ri)) 2 = Some (1400, true) /\ Get (n_Metrics (ri_nested ri)) RTAX_LOCK = Some (4, true).
Proof.
  assert (route_wf demo_route) as Hw.
  { split; [by vm_compute|]. split; [repeat constructor; by vm_compute|].
    split; repeat (constructor; [split; by vm_compute|]); constructor. }
  split; [exact Hw|]. destruct (route_write_roundtrip demo_route 1 Hw) as (r & Hr & H).
  match type of H with if ?d then _ else _ => destruct d as [[Hn _]|_]; [exfalso; apply Hn; reflexivity|] end.
  vm_compute in Hr. injection Hr as <-.
  destruct H as (_ & ri & Hp & _ & _ & _ & _ & _ & _ & _ & _ & Hm & _).
  eexists _, ri. split; [vm_compute; reflexivity|]. split; [exact Hp|].
  split; refine (eq_trans (Hm _ _ _) _); first [vm_compute; reflexivity | split; vm_compute; discriminate | vm_compute; discriminate].
Defined.
End RouteWriteSpec.
