(* ===== verification/LinkWriteSpec.v ===== *)
(** Link writes and their data nests: what the bond options, the veth peer and a
    whole link request append, and that the link parser reads them back. *)

From stdpp Require Import functions.
From S2P Require Import Prelude NlHeaders FlatRecord Enrich RtAttr NlRequest NlWalk NlEnvelope RtParsers RtParsersSpec LinkStats Localnet Bond Links LinksSpec RtWrite RtWriteSpec.

(** ** Bond targets *)

(** The bytes an address is written as, by the option's wire. *)
Definition target_bytes (w : BondWire) (a : Addr) : bytes :=
  match w with BondWireIPv4Set => addr_bytes (Unmap a) | _ => As16 a end.
(** The address the parser makes of them. *)
Definition target_read (w : BondWire) (a : Addr) : Addr :=
  match w with BondWireIPv4Set => Unmap a | _ => Addr16 (As16 a) end.
(** Addresses the wire can carry: IPv4, when the set is. *)
Definition target_ok (w : BondWire) (a : Addr) : Prop :=
  wf_addr a /\ (w = BondWireIPv4Set -> Is4 (Unmap a) = true).
Definition target_len (w : BondWire) : Z := match w with BondWireIPv4Set => 4 | _ => 16 end.

Fixpoint target_attrs (w : BondWire) (i : nat) (l : list Addr) : list (Z * bytes) :=
  match l with [] => [] | a :: l => (Z.of_nat i, target_bytes w a) :: target_attrs w (S i) l end.

Lemma As16_size a : wf_addr a -> glen (As16 a) = 16.
Proof. destruct a as [b|b]; [|done]. cbn [As16 wf_addr]. intros H. by rewrite !glen_app, H. Qed.
Lemma AddrFromSlice_4 b : glen b = 4 -> AddrFromSlice b = Some (Addr4 b).
Proof. intros H. unfold AddrFromSlice. by rewrite H. Qed.
Lemma AddrFromSlice_16 b : glen b = 16 -> AddrFromSlice b = Some (Addr16 b).
Proof. intros H. unfold AddrFromSlice. by rewrite H. Qed.
Lemma Unmap_wf a : wf_addr a -> wf_addr (Unmap a).
Proof.
  destruct a as [b|b]; [done|]. unfold Unmap. case_match; [|done]. cbn [wf_addr]. rewrite glen_drop. lia.
Qed.
Lemma target_size w a : target_ok w a ->
  glen (target_bytes w a) = target_len w /\ AddrFromSlice (target_bytes w a) = Some (target_read w a).
Proof.
  intros [Ha H4]. unfold target_bytes, target_read, target_len.
  destruct w; try (split; [by apply As16_size|by apply AddrFromSlice_16, As16_size]).
  specialize (H4 eq_refl). apply Unmap_wf in Ha. destruct (Unmap a) as [b|b]; [|done]. cbn [addr_bytes wf_addr] in *.
  split; [done|by apply AddrFromSlice_4].
Qed.

Lemma put_targets_appends w i l : Forall (target_ok w) l -> Z.of_nat (i + length l) <= 2 ^ 16 ->
  appends (Forall (fun a => glen a.2 <= RtaMaxPayloadCst) (target_attrs w i l)) (enc_attrs (target_attrs w i l))
    (put_targets w (Z.of_nat i) l).
Proof.
  intros Hl. revert i. induction Hl as [|a l Ha Hl IH]; intros i Hi; cbn [length] in Hi.
  - eapply appends_cond; [|apply appends_skip]. cbn. by rewrite Forall_nil.
  - cbn [target_attrs put_targets]. change (enc_attrs (?x :: ?l)) with (enc_attr x ++ enc_attrs l).
    intros b d r Hb. assert (match w with BondWireIPv4Set => As4 a | _ => Some (As16 a) end = Some (target_bytes w a)) as ->.
    { destruct Ha as [_ H4]. unfold target_bytes, As4. destruct w; try done. specialize (H4 eq_refl). by destruct (Unmap a). }
    cbn [mbind option_bind]. specialize (IH (S i) ltac:(lia)). rewrite Nat2Z.inj_succ in IH.
    assert (appends (glen (target_bytes w a) <= RtaMaxPayloadCst) (enc_attr (Z.of_nat i, target_bytes w a))
      (PutBytes (uint16 (Z.of_nat i)) (target_bytes w a))) as Hp.
    { unfold uint16. rewrite Z.mod_small by lia. apply appends_bytes. }
    destruct (appends_seq _ _ _ _ _ _ Hp IH b d r Hb) as (a' & e & H1 & H2 & H3). exists a', e. rewrite Forall_cons. by split_and!.
Qed.

Lemma target_attrs_plain w i l : Z.of_nat (i + length l) <= 16 -> Forall plain_type (target_attrs w i l).
Proof.
  revert i. induction l as [|a l IH]; intros i Hi; cbn [target_attrs length] in *; constructor; [|apply IH; lia].
  unfold plain_type. cbn [fst]. lia.
Qed.
Lemma target_attrs_small w i l : Forall (target_ok w) l -> Forall (fun a => glen a.2 <= RtaMaxPayloadCst) (target_attrs w i l).
Proof.
  intros Hl. revert i. induction Hl as [|a l Ha Hl IH]; intros i; cbn [target_attrs]; constructor; [|apply IH]. cbn [snd].
  destruct (target_size w a Ha) as [-> _]. unfold target_len, RtaMaxPayloadCst, RTAttrSizeCst. destruct w; lia.
Qed.
Lemma target_attrs_len w i l : Forall (target_ok w) l -> glen (enc_attrs (target_attrs w i l)) = glen l * (4 + target_len w).
Proof.
  intros Hl. revert i. induction Hl as [|a l Ha Hl IH]; intros i; cbn [target_attrs]; [done|].
  change (enc_attrs (?x :: ?l)) with (enc_attr x ++ enc_attrs l). rewrite glen_app, IH, glen_cons. unfold enc_attr, pad. cbn [fst snd].
  destruct (target_size w a Ha) as [Ht _]. rewrite !glen_app, !glen_le_split, Ht.
  assert (FourByteAlignPadding (target_len w) = 0) as -> by (by destruct w). change (glen (replicate (Z.to_nat 0) 0)) with 0. lia.
Qed.

(** The slots after the first [n] are filled. *)
Lemma targets_visit w l k : Forall (target_ok w) l -> (length k + length l <= 16)%nat ->
  visit_attrs (target_attr (target_len w)) (target_attrs w (length k) l)
    ((Some <$> k) ++ replicate (16 - length k) None, glen k) =
  Some ((Some <$> k ++ (target_read w <$> l)) ++ replicate (16 - length k - length l) None, glen k + glen l).
Proof.
  intros Hl. revert k. induction Hl as [|a l Ha Hl IH]; intros k Hk; cbn [target_attrs visit_attrs fmap list_fmap length] in *.
  { rewrite app_nil_r, Nat.sub_0_r. do 2 f_equal. change (glen (@nil Addr)) with 0. lia. }
  destruct (target_size w a Ha) as [Ht Hr]. unfold target_attr at 2. rewrite decide_False by (unfold bondMaxTargetsCst; lia).
  rewrite Hr. replace (16 - length k)%nat with (S (15 - length k)) by lia. cbn [replicate].
  change (?p ++ None :: ?s) with (p ++ [None] ++ s). rewrite (put_at_mid (Some <$> k) [None] _ [Some (target_read w a)]) by (done || (unfold glen; rewrite length_fmap; lia)).
  cbn [mbind option_bind]. rewrite decide_True by (unfold glen; lia).
  specialize (IH (k ++ [target_read w a])). rewrite length_app, Nat.add_1_r, fmap_app, <- !app_assoc in IH. cbn [app fmap list_fmap] in IH.
  replace (16 - S (length k))%nat with (15 - length k)%nat in IH by lia.
  replace (glen (k ++ [target_read w a])) with (Z.of_nat (length k) + 1) in IH by (unfold glen; rewrite length_app; cbn; lia).
  cbn [app]. rewrite IH by lia. do 2 f_equal; unfold glen; cbn; lia.
Qed.
Lemma bondTargets_enc w l : Forall (target_ok w) l -> (length l <= 16)%nat ->
  bondTargets (enc_attrs (target_attrs w 0 l)) (target_len w) = Some (target_read w <$> l).
Proof.
  intros Hl Hn. unfold bondTargets. rewrite walkNestTolerant_eq, parse_attrs_plain;
    [|apply target_attrs_plain; lia|by apply target_attrs_small].
  cbn [fst]. pose proof (targets_visit w l [] Hl ltac:(cbn; lia)) as Hv. cbn [app fmap list_fmap length] in Hv.
  change (glen (@nil Addr)) with 0 in Hv. change (16 - 0)%nat with 16%nat in Hv. rewrite Hv. cbn [mbind option_bind]. f_equal.
  rewrite Z.add_0_l. unfold glen. rewrite Nat2Z.id, take_app_le by (rewrite !length_fmap; reflexivity).
  rewrite take_ge by (rewrite !length_fmap; reflexivity).
  clear. induction (target_read w <$> l) as [|x r IH]; [done|]. cbn. f_equal. exact IH.
Qed.


(** ** Bond options *)

(** The payload of an option's attribute. *)
Definition setting_payload (spec : BondOptionSpec) (s : BondSetting) : bytes :=
  match bo_Wire spec with
  | BondWireU8 => [uint8 (st_Value s)]
  | BondWireU16 => le_split 2 (uint16 (st_Value s))
  | BondWireU32 | BondWireS32 => le_split 4 (st_Value s)
  | BondWireMAC => st_Bytes s
  | BondWireIPv4Set | BondWireIPv6Set => enc_attrs (target_attrs (bo_Wire spec) 0 (st_Targets s))
  | BondWireNest => []
  end.
Definition setting_attr (s : BondSetting) : Z * bytes :=
  match st_Spec s with Some spec => (bo_ID spec, setting_payload spec s) | None => (0, []) end.
(** The settings with an encoding. *)
Definition encodable (s : BondSetting) : Prop :=
  match st_Spec s with
  | None => False
  | Some spec => bo_ReadOnly spec = false /\ bo_Wire spec <> BondWireNest /\
      match bo_Wire spec with
      | BondWireIPv4Set | BondWireIPv6Set => glen (st_Targets s) <= bondMaxTargetsCst
      | BondWireMAC => glen (st_Bytes s) <= RtaMaxPayloadCst
      | _ => True
      end
  end.
#[export] Instance encodable_dec s : Decision (encodable s).
Proof. unfold encodable. destruct (st_Spec s) as [spec|]; [|apply _]. destruct (bo_Wire spec); apply _. Defined.
(** Fields at their width, and targets the wire carries. *)
Definition setting_wf (s : BondSetting) : Prop :=
  0 <= st_Value s < 2 ^ 32 /\ forall spec, st_Spec s = Some spec -> Forall (target_ok (bo_Wire spec)) (st_Targets s).

Lemma appends_u8 ty v : appends True (enc_attr (ty, [v])) (PutU8 ty v).
Proof.
  apply (appends_cond (glen [v] <= RtaMaxPayloadCst)); [split; [done|intros _; vm_compute; discriminate]|].
  apply appends_bytes.
Qed.
Lemma appends_targets s spec : Forall (target_ok (bo_Wire spec)) (st_Targets s) ->
  appends (glen (st_Targets s) <= bondMaxTargetsCst)
    (enc_attr (bo_ID spec, enc_attrs (target_attrs (bo_Wire spec) 0 (st_Targets s)))) (putBondTargets s spec).
Proof.
  intros Hl. unfold putBondTargets. case_decide as Hn; [eapply appends_cond; [|apply appends_fail]; lia|].
  assert (length (st_Targets s) <= 16)%nat as Hn' by (unfold bondMaxTargetsCst, glen in Hn; lia).
  rewrite <- nest_bytes_attr.
  2: { rewrite target_attrs_len by done. apply Z.mod_divide; [done|]. apply Z.divide_mul_r. unfold target_len.
       destruct (bo_Wire spec); first [by exists 2|by exists 5]. }
  eapply appends_cond; [|apply appends_nest; apply (put_targets_appends (bo_Wire spec) 0); [done|lia]].
  split; [lia|]. intros _. split; [by apply target_attrs_small|]. rewrite target_attrs_len by done.
  unfold target_len, RtaMaxPayloadCst, RTAttrSizeCst, glen. destruct (bo_Wire spec); lia.
Qed.
Lemma put_setting_appends s : setting_wf s -> appends (encodable s) (enc_attr (setting_attr s)) (putBondSetting s).
Proof.
  intros [_ Ht]. unfold putBondSetting, encodable, setting_attr, setting_payload.
  destruct (st_Spec s) as [spec|]; [|apply appends_fail]. specialize (Ht _ eq_refl).
  destruct (bo_ReadOnly spec); [eapply appends_cond; [|apply appends_fail]; naive_solver|].
  pose proof (appends_targets s spec Ht) as Hs.
  destruct (bo_Wire spec); try (eapply appends_cond; [|first [apply appends_u8|apply appends_u16|apply appends_u32|apply appends_bytes|exact Hs|apply appends_fail]]; naive_solver).
Qed.

Lemma le_uint_written n v : 0 <= v < 256 ^ Z.of_nat n -> le_uint n (le_split n v) = Some v.
Proof.
  intros Hv. rewrite le_uint_ok by (rewrite glen_le_split; lia). rewrite <- (app_nil_r (le_split n v)). by rewrite le_at_split.
Qed.

(** What one option leaves when the parser reads it. *)
Definition apply_setting (s : BondSetting) (b : BondInfo) : BondInfo :=
  match st_Spec s with
  | None => b
  | Some spec =>
      let '(mkBondInfo vs arp ns ad unk) := b in
      let put v := mkBondInfo (<[bo_ID spec := v]> vs) arp ns ad unk in
      match bo_Wire spec with
      | BondWireU8 => put (BondU (uint8 (st_Value s)))
      | BondWireU16 => put (BondU (uint16 (st_Value s)))
      | BondWireU32 => put (BondU (st_Value s))
      | BondWireMAC =>
          if decide (bondEtherAddrLenCst <= glen (st_Bytes s)) then put (BondBytes (Some (take 6 (st_Bytes s)))) else b
      | BondWireIPv4Set => mkBondInfo vs (Unmap <$> st_Targets s) ns ad unk
      | BondWireIPv6Set => mkBondInfo vs arp ((fun a => Addr16 (As16 a)) <$> st_Targets s) ad unk
      | _ => b
      end
  end.
Definition zeroBondInfo : BondInfo := mkBondInfo ∅ [] [] None [].
Definition apply_settings (l : list BondSetting) : BondInfo := foldl (fun b s => apply_setting s b) zeroBondInfo l.
Lemma BondOptionSpecByID_sound id spec : BondOptionSpecByID id = Some spec -> spec ∈ BondOptions.
Proof.
  unfold BondOptionSpecByID, indexBondOptions. generalize BondOptions as l. intros l.
  assert (forall m, foldl (fun m o => <[bo_ID o := o]> m) m l !! id = Some spec -> spec ∈ l \/ (m : gmap Z BondOptionSpec) !! id = Some spec) as H.
  { induction l as [|o l IH]; intros m Hm; [by right|]. cbn [foldl] in Hm. destruct (IH _ Hm) as [?|Hi]; [left; by right|].
    destruct (decide (bo_ID o = id)) as [<-|]; [rewrite lookup_insert_eq in Hi; simplify_eq; left; by left|rewrite lookup_insert_ne in Hi by done; by right]. }
  intros Hm. by destruct (H ∅ Hm).
Qed.
(** The settings are of options of the table. *)
Definition of_table (s : BondSetting) : Prop := forall spec, st_Spec s = Some spec -> spec ∈ BondOptions.

Lemma bond_setting_read s b : setting_wf s -> encodable s -> of_table s ->
  bond_attr (setting_attr s).1 (setting_attr s).2 b = Some (apply_setting s b).
Proof.
  unfold encodable, of_table, setting_attr, setting_payload, apply_setting. intros [Hv Ht] He Hin.
  destruct (st_Spec s) as [spec|]; [|done]. destruct He as (_ & Hw & He). specialize (Ht _ eq_refl). specialize (Hin _ eq_refl).
  pose proof BondOptionSpecByID_complete as Hc. rewrite Forall_forall in Hc. destruct b as [vs arp ns ad unk].
  unfold bond_attr. cbn [fst snd]. rewrite (Hc _ Hin).
  assert (bo_Wire spec <> BondWireS32) as H32.
  { intros H32. assert (Forall (fun o => bo_Wire o <> BondWireS32) BondOptions) as Hf by (refine (bool_decide_unpack _ _); vm_compute; exact I).
    rewrite Forall_forall in Hf. by apply (Hf spec). }
  unfold bondScalar. destruct (bo_Wire spec) eqn:Hws; try done.
  - rewrite decide_True by (rewrite glen_le_split; done). rewrite slice_all. cbn [mbind option_bind].
    by rewrite le_uint_written by (unfold uint16; apply Z.mod_pos_bound; lia).
  - rewrite decide_True by (rewrite glen_le_split; done). rewrite slice_all. cbn [mbind option_bind].
    by rewrite le_uint_written by done.
  - case_decide as Hl; [|done]. unfold bondEtherAddrLenCst in *. rewrite slice_ok by lia. cbn [mbind option_bind].
    change (drop (Z.to_nat 0) (st_Bytes s)) with (st_Bytes s). change (Z.to_nat (6 - 0)) with 6%nat.
    destruct (st_Bytes s) as [|x r]; [by vm_compute in Hl|done].
  - rewrite (bondTargets_enc BondWireIPv4Set) by (done || (unfold bondMaxTargetsCst, glen in *; lia)). done.
  - rewrite (bondTargets_enc BondWireIPv6Set) by (done || (unfold bondMaxTargetsCst, glen in *; lia)). done.
Qed.

Lemma bond_settings_read l b : Forall setting_wf l -> Forall encodable l -> Forall of_table l ->
  visit_attrs bond_attr (setting_attr <$> l) b = Some (foldl (fun b s => apply_setting s b) b l).
Proof.
  revert b. induction l as [|s l IH]; intros b Hw He Ht; [done|]. apply Forall_cons in Hw as [Hw1 Hw2], He as [He1 He2], Ht as [Ht1 Ht2].
  cbn [fmap list_fmap]. pose proof (bond_setting_read s b Hw1 He1 Ht1) as Hs. destruct (setting_attr s) as [t v].
  cbn [visit_attrs fst snd] in *. rewrite Hs. cbn [mbind option_bind foldl]. by apply IH.
Qed.
Lemma BondOptions_plain : Forall (fun o => 0 <= bo_ID o < 2 ^ 14) BondOptions.
Proof. refine (bool_decide_unpack _ _). vm_compute. exact I. Qed.
Lemma setting_plain s : encodable s -> of_table s -> plain_type (setting_attr s).
Proof.
  unfold encodable, of_table, setting_attr, plain_type. destruct (st_Spec s) as [spec|]; [|done]. intros _ Ht.
  pose proof BondOptions_plain as Hp. rewrite Forall_forall in Hp. by apply Hp, Ht.
Qed.
Lemma setting_small s : encodable s -> setting_wf s -> glen (setting_attr s).2 <= RtaMaxPayloadCst.
Proof.
  unfold encodable, setting_attr, setting_payload, setting_wf. destruct (st_Spec s) as [spec|]; [|done]. intros (_ & _ & He) [_ Ht].
  specialize (Ht _ eq_refl). cbn [snd]. assert (forall n v, (n <= 4)%nat -> glen (le_split n v) <= RtaMaxPayloadCst) as Hle.
  { intros n v Hn. rewrite glen_le_split. unfold RtaMaxPayloadCst, RTAttrSizeCst. lia. }
  destruct (bo_Wire spec) eqn:Hw; try (apply Hle; lia); try (vm_compute; discriminate); [exact He|..];
    rewrite target_attrs_len by done; unfold target_len, bondMaxTargetsCst, RtaMaxPayloadCst, RTAttrSizeCst in *; lia.
Qed.

Definition settings_fit (l : list BondSetting) : Prop :=
  Forall encodable l /\ glen (enc_attrs (setting_attr <$> l)) <= linkWriteBufCst.
Lemma EncodeBondInfoData_eq l : Forall setting_wf l ->
  exists r, EncodeBondInfoData l = Some r /\
    match r with inl b => settings_fit l /\ b = enc_attrs (setting_attr <$> l) | inr _ => ~ settings_fit l end.
Proof.
  intros Hw. unfold EncodeBondInfoData, encodeBondSettings, settings_fit. rewrite Forall_forall in Hw.
  destruct (run_op_appends linkWriteBufCst _ _ _
    (appends_each encodable (fun s => enc_attr (setting_attr s)) putBondSetting l (fun s Hs => put_setting_appends s (Hw s Hs))) ltac:(done))
    as (r & -> & Hr). exists r. split; [done|]. unfold enc_attrs. rewrite <- list_fmap_compose.
  destruct r as [b|e]; [|exact Hr]. destruct Hr as (-> & ? & ?). done.
Qed.
Lemma ParseBondInfoData_enc l : Forall setting_wf l -> Forall encodable l -> Forall of_table l ->
  ParseBondInfoData (Some (enc_attrs (setting_attr <$> l))) = Some (Some (apply_settings l)).
Proof.
  intros Hw He Ht. unfold ParseBondInfoData. rewrite walkNestTolerant_eq, parse_attrs_plain.
  - cbn [fst]. by rewrite bond_settings_read.
  - rewrite Forall_fmap, Forall_forall in *. intros s Hs. apply setting_plain; auto.
  - rewrite Forall_fmap, Forall_forall in *. intros s Hs. apply setting_small; auto.
Qed.

(** The last setting of an option is the one read. *)
Definition reads_as (spec : BondOptionSpec) (s : BondSetting) : option BondValue :=
  match bo_Wire spec with
  | BondWireU8 => Some (BondU (uint8 (st_Value s)))
  | BondWireU16 => Some (BondU (uint16 (st_Value s)))
  | BondWireU32 => Some (BondU (st_Value s))
  | BondWireMAC => if decide (bondEtherAddrLenCst <= glen (st_Bytes s)) then Some (BondBytes (Some (take 6 (st_Bytes s)))) else None
  | _ => None
  end.
Definition setting_value (id : Z) (s : BondSetting) : option BondValue :=
  match st_Spec s with Some spec => if decide (bo_ID spec = id) then reads_as spec s else None | None => None end.
Lemma apply_settings_value l id : Value (Some (apply_settings l)) id = last (omap (setting_value id) l).
Proof.
  unfold Value, apply_settings. cbn [mbind option_bind]. induction l as [|s l IH] using rev_ind; [done|].
  rewrite foldl_snoc, omap_app. cbn [omap list_omap]. unfold apply_setting at 1, setting_value at 2, reads_as.
  destruct (foldl _ _ l) as [vs arp ns ad unk] eqn:Hl. cbn [bi_values] in IH.
  destruct (st_Spec s) as [spec|]; [|by rewrite app_nil_r].
  assert (forall v, (<[bo_ID spec := v]> vs : gmap Z BondValue) !! id =
    last (omap (setting_value id) l ++ match (if decide (bo_ID spec = id) then Some v else None) with Some x => [x] | None => [] end)) as Hput.
  { intros v. case_decide as Hid; [by rewrite Hid, lookup_insert_eq, last_snoc|by rewrite lookup_insert_ne, app_nil_r]. }
  assert (last (omap (setting_value id) l ++ match (if decide (bo_ID spec = id) then None else None : option BondValue) with Some x => [x] | None => [] end) =
    vs !! id) as Hkeep by (case_decide; by rewrite app_nil_r).
  destruct (bo_Wire spec); try (exact (Hput _)); try (symmetry; exact Hkeep).
  destruct (decide (bondEtherAddrLenCst <= glen (st_Bytes s))); [exact (Hput _)|symmetry; exact Hkeep].
Qed.

(** ** The link request *)

Module LinkWriteRoundtrip.
Import Link.

Section Link.
Context (w : LinkWrite).

Definition info_attrs : list (Z * bytes) :=
  (IFLA_INFO_KIND, lw_Kind w ++ [0]) :: (if lw_HasData w then [(LinkKindDataType (lw_Kind w), lw_Data w)] else []).
Definition link_wire : list (Z * bytes) :=
  lw_Attrs w ++ (if decide (lw_Kind w <> []) then [(IFLA_LINKINFO, enc_attrs info_attrs)] else []).
Definition link_hdr : bytes := EncodeIfInfomsg (lw_Family w) (lw_Index w) (lw_IfFlags w) (lw_IfChange w).
Definition link_refused : option err :=
  if decide (lw_MsgType w <> RTM_NEWLINK /\ lw_MsgType w <> RTM_DELLINK) then Some ErrLinkWriteType else
  if decide (lw_Kind w = [] /\ lw_HasData w = true) then Some ErrLinkWriteDataWithoutKind else None.

Lemma enc_attr_small a : glen a.2 + 4 <= glen (enc_attr a).
Proof. rewrite enc_attr_length, pad_length. pose proof (FourByteAlignPadding_bound (glen a.2)). lia. Qed.

Context (Halign : lw_HasData w = true -> glen (lw_Data w) mod 4 = 0).

Lemma putLinkInfo_appends : appends (glen (enc_attrs info_attrs) <= RtaMaxPayloadCst)
  (enc_attr (IFLA_LINKINFO, enc_attrs info_attrs)) (putLinkInfo w).
Proof using Halign.
  unfold putLinkInfo, info_attrs in *. destruct (lw_HasData w) eqn:Hd.
  - change (enc_attrs [?a; ?b]) with (enc_attr a ++ enc_attr b ++ []). rewrite app_nil_r.
    rewrite <- (nest_bytes_attr IFLA_LINKINFO) by (rewrite glen_app, Z.add_mod, !enc_attr_aligned by done; done).
    eapply appends_cond; [|refine (appends_nest _ _ _ _ (appends_seq _ _ _ _ _ _ (appends_string _ _) _))].
    2: { rewrite <- (nest_bytes_attr (LinkKindDataType _)) by auto. refine (appends_nest _ _ _ _ (appends_raw _)). }
    rewrite <- (nest_bytes_attr (LinkKindDataType _)) by auto. cbn beta. rewrite glen_app.
    pose proof (enc_attr_small (IFLA_INFO_KIND, lw_Kind w ++ [0])) as H1. cbn [snd] in H1. rewrite glen_app in H1.
    change (glen [0]) with 1 in H1. assert (glen (lw_Data w) <= glen (nest_bytes (LinkKindDataType (lw_Kind w)) (lw_Data w))) as H2.
    { unfold nest_bytes. rewrite !glen_app, !glen_le_split. lia. }
    pose proof (glen_nonneg (nest_bytes (LinkKindDataType (lw_Kind w)) (lw_Data w))). pose proof (glen_nonneg (lw_Kind w)).
    split; [tauto|]. intros Hl. split; [|lia]. split; [lia|]. split; [done|lia].
  - rewrite enc_attrs_one. rewrite <- (nest_bytes_attr IFLA_LINKINFO) by apply enc_attr_aligned.
    rewrite <- (app_nil_r (enc_attr (IFLA_INFO_KIND, _))) at 2.
    eapply appends_cond; [|refine (appends_nest _ _ _ _ (appends_seq _ _ _ _ _ _ (appends_string _ _) appends_skip))].
    cbn beta. rewrite app_nil_r. pose proof (enc_attr_small (IFLA_INFO_KIND, lw_Kind w ++ [0])) as H1. cbn [snd] in H1.
    rewrite glen_app in H1. change (glen [0]) with 1 in H1. split; [tauto|]. intros Hl. split; [|lia]. split; [lia|done].
Qed.

Definition link_room : Z := linkWriteBufCst - NlMsgHdrSizeCst - IfInfomsgSizeCst.
Lemma link_appends : appends (Forall (fun a => glen a.2 <= RtaMaxPayloadCst) link_wire) (enc_attrs link_wire)
  (and_then (each (fun p => PutBytes p.1 p.2) (lw_Attrs w))
     (fun ab => if decide (lw_Kind w <> []) then putLinkInfo w ab else Some (ab, None))).
Proof using Halign.
  unfold link_wire. rewrite enc_attrs_app. destruct (decide (lw_Kind w <> [])).
  - rewrite enc_attrs_one.
    eapply appends_cond; [|refine (appends_seq _ _ _ _ _ _ (appends_attrs _) putLinkInfo_appends)].
    by rewrite Forall_app, Forall_singleton.
  - eapply appends_cond; [|refine (appends_seq _ _ _ _ _ _ (appends_attrs _) appends_skip)]. rewrite app_nil_r. tauto.
Qed.

Lemma BuildLinkWriteRequest_eq seq : exists r, BuildLinkWriteRequest w seq = Some r /\
  match link_refused, r with
  | Some e, r => r = inr e
  | None, inr _ => ~ fits link_room link_wire
  | None, inl b => fits link_room link_wire /\
      b = message_bytes (lw_MsgType w) (Z.lor (lw_Flags w) NLM_F_REQUEST) seq link_hdr (enc_attrs link_wire)
  end.
Proof using Halign.
  unfold BuildLinkWriteRequest, link_refused. case_decide as Ht; [by eexists|]. case_decide; [by eexists|].
  fold link_room. rewrite (on_ok_seq _ (fun ab => if decide (lw_Kind w <> []) then putLinkInfo w ab else Some (ab, None))).
  destruct (on_ok_appends link_room _ _ _
    (fun b => BuildWriteRequest (lw_MsgType w) (lw_Flags w) seq link_hdr b) link_appends ltac:(done)) as (e & He & Hi).
  unfold link_hdr in *. rewrite He. destruct e as [e|]; [eexists; split; [done|]; intros Hf; by apply Hi in Hf|].
  rewrite BuildWriteRequest_eq. assert (lw_MsgType w = RTM_NEWLINK \/ lw_MsgType w = RTM_DELLINK) as Hty by lia.
  assert (IsAdmittedWriteType (lw_MsgType w) = true /\ FamilyHdrLen (lw_MsgType w) = 16) as [-> ->] by (by destruct Hty as [-> | ->]).
  cbn [negb]. change (glen (EncodeIfInfomsg _ _ _ _)) with 16. rewrite decide_False by lia. eexists. split; [done|].
  split; [by apply Hi|done].
Qed.

(** *** What the parser makes of the nest *)

(** Field widths; types without flag bits, none of them the nest; aligned data;
    a kind that does not end in a NUL. *)
Definition link_wf : Prop :=
  - 2 ^ 31 <= lw_Index w < 2 ^ 31 /\ 0 <= lw_IfFlags w < 2 ^ 32 /\ 0 <= lw_IfChange w < 2 ^ 32 /\
  Forall plain_type (lw_Attrs w) /\ Forall (fun a => a.1 <> IFLA_LINKINFO) (lw_Attrs w) /\
  (lw_HasData w = true -> glen (lw_Data w) mod 4 = 0) /\ last (lw_Kind w) <> Some 0.

(** The data the bond and VRF parsers are given. *)
Definition info_data : option bytes :=
  if lw_HasData w && bool_decide (LinkKindDataType (lw_Kind w) = IFLA_INFO_DATA) then Some (lw_Data w) else None.

Lemma LinkKindDataType_cases k : LinkKindDataType k = IFLA_INFO_DATA \/ LinkKindDataType k = IFLA_INFO_SLAVE_DATA.
Proof. unfold LinkKindDataType. case_decide; auto. Qed.
Lemma info_attrs_parse : glen (enc_attrs info_attrs) <= RtaMaxPayloadCst -> parse_attrs (enc_attrs info_attrs) = (info_attrs, None).
Proof using.
  clear Halign.
  intros Hl. apply parse_attrs_plain; unfold info_attrs in *.
  - constructor; [by vm_compute|]. destruct (lw_HasData w); [|done]. constructor; [|done].
    unfold plain_type. cbn [fst]. by destruct (LinkKindDataType_cases (lw_Kind w)) as [-> | ->].
  - change (enc_attrs (?a :: ?l)) with (enc_attr a ++ enc_attrs l) in Hl. rewrite glen_app in Hl.
    pose proof (enc_attr_small (IFLA_INFO_KIND, lw_Kind w ++ [0])) as H1.
    pose proof (glen_nonneg (enc_attrs (if lw_HasData w then [(LinkKindDataType (lw_Kind w), lw_Data w)] else []))).
    constructor; [lia|]. destruct (lw_HasData w); [|done]. constructor; [|done]. rewrite enc_attrs_one in *.
    pose proof (enc_attr_small (LinkKindDataType (lw_Kind w), lw_Data w)). pose proof (glen_nonneg (lw_Kind w ++ [0])). cbn [snd] in *. lia.
Qed.

Lemma nest_info : last (lw_Kind w) <> Some 0 -> glen (enc_attrs info_attrs) <= RtaMaxPayloadCst ->
  let n := nest_of (enc_attrs info_attrs) in
  li_str n Kind = lw_Kind w /\ li_str n SlaveKind = [] /\ li_has n HasLinkInfo = true /\
  li_has n HasInfoData = bool_decide (is_Some info_data) /\
  (lw_Kind w = bondKindCst -> ParseBondInfoData info_data = Some (n_Bond (li_nested n))) /\
  (lw_Kind w = vrfKindCst -> vrfTableAttr info_data 1 = Some (li_u32 n VrfTable)).
Proof using.
  clear Halign.
  intros Hk Hl. unfold nest_of, nest_upd, setLinkInfoNest. rewrite walkNestTolerant_eq, info_attrs_parse by done.
  set (li0 := set_has HasLinkInfo zeroLinkInfo). set (li1 := set_str Kind (lw_Kind w) li0).
  assert (exists li2, visit_attrs link_info_attr info_attrs (li0, None, None) =
    Some (li2, info_data, if lw_HasData w && negb (bool_decide (LinkKindDataType (lw_Kind w) = IFLA_INFO_DATA)) then Some (lw_Data w) else None) /\
    (forall f, li_str li2 f = li_str li1 f) /\ li_has li2 HasLinkInfo = true /\ li_has li2 HasInfoData = bool_decide (is_Some info_data)) as (li2 & Hv & Hs & Hh & Hd).
  { assert (link_info_attr IFLA_INFO_KIND (lw_Kind w ++ [0]) (li0, None, None) = Some (li1, None, None)) as H1.
    { unfold li1. change [0] with (replicate 1 0). rewrite <- (TrimRight0_nul (lw_Kind w) 1) at 2 by done. done. }
    unfold info_attrs, info_data. cbn [visit_attrs]. rewrite H1. cbn [mbind option_bind]. destruct (lw_HasData w); [|by exists li1].
    cbn [visit_attrs andb].
    destruct (LinkKindDataType_cases (lw_Kind w)) as [-> | ->]; eexists; (split; [reflexivity|]); done. }
  cbn [fst]. rewrite Hv. cbn [mbind option_bind]. rewrite !Hs.
  assert (li_str li1 Kind = lw_Kind w) as Hk1 by apply fn_lookup_insert.
  assert (li_str li1 SlaveKind = []) as Hk2 by done. rewrite Hk1.
  destruct (decide (lw_Kind w = vrfKindCst)) as [Hvrf|Hvrf].
  - destruct (vrfTableAttr_total info_data 1) as [v Hv1]. rewrite Hv1. cbn [mbind option_bind].
    cbn [li_str set_u32]. rewrite Hs, Hk2, decide_False by done. cbn [mbind option_bind li_str set_u32].
    rewrite Hs, Hk1, Hvrf, decide_False by done. cbn [mbind option_bind li_str set_u32].
    rewrite Hs, Hk2, decide_False by done. cbn [default id li_str li_has li_u32 li_nested set_u32].
    rewrite !Hs, Hk1, Hk2, Hh, Hd, fn_lookup_insert. by rewrite Hvrf.
  - cbn [mbind option_bind]. rewrite Hs, Hk2, decide_False by done. cbn [mbind option_bind]. rewrite Hs, Hk1.
    destruct (decide (lw_Kind w = bondKindCst)) as [Hb|Hb].
    + destruct (ParseBondInfoData_total info_data) as [b Hb1]. rewrite Hb1. cbn [mbind option_bind li_str upd_nested].
      rewrite Hs, Hk2, decide_False by done. cbn [default id li_str li_has li_nested upd_nested n_Bond]. rewrite !Hs, Hk1, Hk2, Hh, Hd. done.
    + cbn [mbind option_bind]. rewrite Hs, Hk2, decide_False by done. cbn [default id]. rewrite !Hs, Hk1, Hk2, Hh, Hd. done.
Qed.

Lemma link_wire_plain : link_wf -> Forall plain_type link_wire.
Proof using.
  clear Halign. intros (_ & _ & _ & Hp & _). unfold link_wire. apply Forall_app. split; [done|].
  case_decide; [|done]. apply Forall_singleton. by vm_compute.
Qed.
Lemma link_wire_other t : t <> IFLA_LINKINFO -> first_attr t link_wire = first_attr t (lw_Attrs w).
Proof using.
  clear Halign. intros Ht. unfold link_wire. rewrite first_attr_app. destruct (first_attr t (lw_Attrs w)); [done|].
  case_decide; [|done]. by rewrite first_attr_cons, decide_False.
Qed.
Lemma link_wire_info : link_wf -> first_attr IFLA_LINKINFO link_wire =
  if decide (lw_Kind w <> []) then Some (enc_attrs info_attrs) else None.
Proof using.
  clear Halign. intros (_ & _ & _ & _ & Hn & _). unfold link_wire. rewrite first_attr_app, first_attr_none by done.
  case_decide; [|done]. by rewrite first_attr_cons, decide_True.
Qed.
Lemma fits_info : lw_Kind w <> [] -> fits link_room link_wire -> glen (enc_attrs info_attrs) <= RtaMaxPayloadCst.
Proof using.
  clear Halign. intros Hk [Hf _]. unfold link_wire in Hf. rewrite decide_True in Hf by done. apply Forall_app in Hf as [_ Hf].
  by rewrite Forall_singleton in Hf.
Qed.
End Link.

Lemma int32_of_uint32 z : - 2 ^ 31 <= z < 2 ^ 31 -> int32 (uint32 z) = z.
Proof.
  unfold int32, uint32. intros H. rewrite Zmod_mod. destruct (decide (0 <= z)).
  - rewrite Z.mod_small by lia. rewrite decide_True by lia. done.
  - assert (z mod 2 ^ 32 = z + 2 ^ 32) as -> by (symmetry; apply (Z.mod_unique_pos _ _ (-1)); lia). rewrite decide_False by lia. lia.
Qed.

Lemma link_hdr_word w p s off v : link_hdr w = p ++ le_split 4 v ++ s -> off = glen p -> 0 <= v < 2 ^ 32 ->
  le_at 4 (link_hdr w ++ enc_attrs (link_wire w)) off = v.
Proof.
  intros -> -> Hv. rewrite <- !app_assoc, <- (Z.add_0_r (glen p)). rewrite le_at_app by done. by apply le_at_split.
Qed.

(** A link write is refused for a foreign type or for data without a kind,
    or when it overflows the 1024-byte buffer; otherwise the link parser reads
    it back: the header's fields, the first attribute of each type, the kind,
    and the data nest, which the bond options of a bond read back from, each
    with the last value set. *)
Theorem link_write_roundtrip w seq : link_wf w ->
  exists r, BuildLinkWriteRequest w seq = Some r /\
  match link_refused w, r with
  | Some e, r => r = inr e
  | None, inr _ => ~ fits link_room (link_wire w)
  | None, inl b => exists li, ParseNewLink (drop 16 b) = Some (li, None) /\
      let att t := first_attr t (lw_Attrs w) in
      li_num li Index = lw_Index w /\ li_num li Flags = lw_IfFlags w /\ li_num li Change = lw_IfChange w /\
      li_str li Name = from_option TrimRight0 [] (att IFLA_IFNAME) /\
      (forall f, buf_owner f <> IFLA_LINKINFO -> li_buf li f = att (buf_owner f) ≫= CopyBytes) /\
      li_str li Kind = lw_Kind w /\ li_has li HasInfoData = bool_decide (is_Some (info_data w)) /\
      (lw_Kind w = bondKindCst -> lw_HasData w = true ->
       forall l, Forall setting_wf l -> Forall of_table l -> EncodeBondInfoData l = Some (inl (lw_Data w)) ->
       n_Bond (li_nested li) = Some (apply_settings l) /\
       forall id, Value (n_Bond (li_nested li)) id = last (omap (setting_value id) l))
  end.
Proof.
  intros Hwf. pose proof Hwf as (Hi & Hfl & Hch & _ & _ & Hal & Hk).
  destruct (BuildLinkWriteRequest_eq w Hal seq) as (r & Hb & Hr). exists r. split; [done|].
  destruct (link_refused w) as [e|] eqn:Hno; [done|]. destruct r as [b|]; [|done]. destruct Hr as [Hfit ->]. rewrite message_body.
  set (body := link_hdr w ++ _). destruct (ParseNewLink_spec body) as (li & e & Hp & He).
  change (drop 16 body) with (enc_attrs (link_wire w)) in He. rewrite (parse_attrs_plain _ (link_wire_plain w Hwf) ltac:(apply Hfit)) in He.
  cbn [fst snd] in He. assert (16 <= glen body) as Hl by (unfold body; rewrite glen_app; change (glen (link_hdr w)) with 16; glen_pos; lia).
  destruct e as [e|]; [destruct He as [_ He]; case_decide; [lia|done]|]. exists li. split; [exact Hp|].
  destruct He as (_ & _ & Hnum & Hhas & _ & Hbuf & Hstr & Hbond & _). cbv zeta.
  rewrite !Hnum, !Hstr, Hhas, Hbond. cbn [num_spec has_spec str_spec str_owner]. rewrite link_wire_other, link_wire_info by done.
  split_and!.
  - rewrite (link_hdr_word w [_; 0; 0; 0] _ _ (uint32 (lw_Index w)) eq_refl) by (done || (apply Z.mod_pos_bound; lia)). by apply int32_of_uint32.
  - by apply (link_hdr_word w ([_; 0; 0; 0] ++ le_split 4 (uint32 (lw_Index w))) _ _ (lw_IfFlags w) eq_refl).
  - by apply (link_hdr_word w ([_; 0; 0; 0] ++ le_split 4 (uint32 (lw_Index w)) ++ le_split 4 (lw_IfFlags w)) _ _ (lw_IfChange w) eq_refl).
  - done.
  - intros f Hf. rewrite Hbuf. f_equal. by apply link_wire_other.
  - case_decide as Hn; [by apply nest_info, fits_info|]. destruct (lw_Kind w); [done|]. by destruct Hn.
  - case_decide as Hn; [by apply nest_info, fits_info|]. unfold info_data. assert (lw_HasData w = false) as ->; [|done].
    unfold link_refused in Hno. repeat case_decide; try done. apply not_true_is_false. intros Hd. destruct (lw_Kind w); naive_solver.
  - intros Hkb Hd l Hw Ht Hl'. rewrite decide_True by (by rewrite Hkb). cbn [mbind option_bind].
    destruct (nest_info w Hk) as (_ & _ & _ & _ & Hn & _); [apply fits_info; [by rewrite Hkb|done]|]. specialize (Hn Hkb).
    unfold info_data in Hn. rewrite Hd, Hkb in Hn. cbn [andb] in Hn. rewrite bool_decide_true in Hn by done.
    destruct (EncodeBondInfoData_eq l Hw) as (r & Hr & Hq). rewrite Hl' in Hr. injection Hr as <-. destruct Hq as [[He _] Hq].
    rewrite Hq, ParseBondInfoData_enc in Hn by done. injection Hn as <-. split; [done|]. apply apply_settings_value.
Qed.

(** bond0 with mode 802.3ad and miimon set twice. *)
Definition demo_setting (id v : Z) : BondSetting := mkBondSetting (BondOptionSpecByID id) v [] [].
Definition demo_settings : list BondSetting := [demo_setting 3 50; demo_setting 1 4; demo_setting 3 100].
Definition demo_link : LinkWrite := mkLinkWrite RTM_NEWLINK NLM_F_ACK 0 0 0 0 [LinkAttrString IFLA_IFNAME [98; 48]] bondKindCst
  (enc_attrs [(3, [50; 0; 0; 0]); (1, [4]); (3, [100; 0; 0; 0])]) true.
Lemma demo_link_wf : link_wf demo_link.
Proof. repeat split; try (vm_compute; (discriminate || reflexivity)); repeat constructor; vm_compute; (discriminate || reflexivity). Qed.
Lemma demo_settings_wf : Forall setting_wf demo_settings.
Proof. repeat constructor; try (vm_compute; discriminate); intros spec [= <-]; constructor. Qed.
Lemma demo_settings_of_table : Forall of_table demo_settings.
Proof. apply Forall_forall. intros s Hs spec. repeat (apply elem_of_cons in Hs as [->|Hs]); [apply BondOptionSpecByID_sound..|inversion Hs]. Qed.
Lemma link_write_roundtrip_witness : link_wf demo_link /\
  exists b li, BuildLinkWriteRequest demo_link 1 = Some (inl b) /\ ParseNewLink (drop 16 b) = Some (li, None) /\
    li_str li Kind = bondKindCst /\ Value (n_Bond (li_nested li)) 3 = Some (BondU 100).
Proof.
  split; [exact demo_link_wf|].
  destruct (link_write_roundtrip demo_link 1 demo_link_wf) as (r & Hr & H).
  change (link_refused demo_link) with (@None err) in H. vm_compute in Hr. injection Hr as <-.
  destruct H as (li & Hp & _ & _ & _ & _ & _ & Hk & _ & Hb).
  eexists _, li. split; [vm_compute; reflexivity|]. split; [exact Hp|]. split; [exact Hk|].
  destruct (Hb eq_refl eq_refl demo_settings demo_settings_wf demo_settings_of_table ltac:(vm_compute; reflexivity)) as [_ Hv].
  refine (eq_trans (Hv 3) _). vm_compute. reflexivity.
Defined.
End LinkWriteRoundtrip.
