(* ===== verification/NetText.v ===== *)
(** The text of IP addresses, as net and net/netip write and read it. *)

From S2P Require Import Prelude.

(** ** Writing *)

Definition hex_digit (n : Z) : Z := if decide (n < 10) then 48 + n else 87 + n.
(** [strings.Join] with a separator. *)
Fixpoint join (sep : bytes) (l : list bytes) : bytes :=
  match l with [] => [] | [x] => x | x :: l => x ++ sep ++ join sep l end.

(** Dotted decimal; hexadecimal groups with the first longest run of two or
    more zero groups cut to "::". *)
Definition decimal (n : Z) : bytes :=
  (if decide (100 <= n) then [48 + n / 100] else []) ++ (if decide (10 <= n) then [48 + n / 10 mod 10] else []) ++ [48 + n mod 10].
Definition dotted (b : bytes) : bytes := join [46] (decimal <$> b).
Definition hex_group (n : Z) : bytes :=
  (if decide (4096 <= n) then [hex_digit (n / 4096)] else []) ++ (if decide (256 <= n) then [hex_digit (n / 256 mod 16)] else []) ++
  (if decide (16 <= n) then [hex_digit (n / 16 mod 16)] else []) ++ [hex_digit (n mod 16)].
Fixpoint groups (b : bytes) : list Z := match b with x :: y :: b => (x * 256 + y) :: groups b | _ => [] end.
Fixpoint zero_run (l : list Z) : nat := match l with z :: l => if decide (z = 0) then S (zero_run l) else 0%nat | [] => 0%nat end.
(** The first longest run so far, and from position [i] on: start and length. *)
Fixpoint longest_run (l : list Z) (i : nat) (best : nat * nat) : nat * nat :=
  match l with
  | [] => best
  | _ :: l' => let n := zero_run l in longest_run l' (S i) (if decide (best.2 < n /\ 2 <= n)%nat then (i, n) else best)
  end.
Definition ipv6_string (b : bytes) : bytes :=
  let gs := groups b in
  match longest_run gs 0 (0%nat, 0%nat) with
  | (_, O) => join [58] (hex_group <$> gs)
  | (i, n) => join [58] (hex_group <$> take i gs) ++ [58; 58] ++ join [58] (hex_group <$> drop (i + n) gs)
  end.

Definition mapped_prefix : bytes := replicate 10 0 ++ [255; 255].
(** [netip.Addr.String] without a zone, of 4 bytes or of 16. *)
Definition Addr_String (b : bytes) : bytes :=
  if decide (glen b = 4) then dotted b else
  if decide (take 12 b = mapped_prefix) then [58; 58; 102; 102; 102; 102; 58] ++ dotted (drop 12 b) else ipv6_string b.

(** ** Reading *)

Definition is_digit (c : Z) : bool := bool_decide (48 <= c <= 57).
(** [parseIPv4Fields]: [prev] is the byte before, [fields] what is complete. *)
Fixpoint fields_loop (s : bytes) (prev : option Z) (val : Z) (digLen : nat) (fields : bytes) : option bytes :=
  match s with
  | [] => if decide (length fields < 3)%nat then None else Some (fields ++ [val])
  | c :: s =>
      if is_digit c then
        if decide (digLen = 1%nat /\ val = 0) then None else
        let val := val * 10 + (c - 48) in
        if decide (255 < val) then None else fields_loop s (Some c) val (S digLen) fields
      else if decide (c = 46) then
        if decide (prev = None \/ s = [] \/ prev = Some 46) then None else
        if decide (length fields = 3%nat) then None else fields_loop s (Some c) 0 0 (fields ++ [val])
      else None
  end.
Definition parseIPv4Fields (s : bytes) : option bytes := fields_loop s None 0 0 [].

Definition hex_value (c : Z) : option Z :=
  if decide (48 <= c <= 57) then Some (c - 48) else
  if decide (97 <= c <= 102) then Some (c - 97 + 10) else
  if decide (65 <= c <= 70) then Some (c - 65 + 10) else None.
(** One hexadecimal group: its value, its length and the rest. *)
Fixpoint hex_loop (s : bytes) (off : nat) (acc : Z) : option (Z * nat * bytes) :=
  match s with
  | [] => Some (acc, off, s)
  | c :: s' =>
      match hex_value c with
      | None => Some (acc, off, s)
      | Some d =>
          let acc := acc * 16 + d in
          if decide (3 < off)%nat then None else if decide (65535 < acc) then None else hex_loop s' (S off) acc
      end
  end.
(** The loop of [parseIPv6] over at most [n] groups: the rest, the bytes so far
    and the place of the ellipsis in them. *)
Fixpoint v6_loop (n : nat) (s ip : bytes) (ellipsis : option nat) : option (bytes * bytes * option nat) :=
  match n with
  | O => Some (s, ip, ellipsis)
  | S n =>
      '(acc, off, rest) ← hex_loop s 0 0;
      if decide (off = 0%nat) then None else
      if decide (head rest = Some 46) then
        if decide (ellipsis = None /\ length ip <> 12%nat) then None else
        if decide (16 < length ip + 4)%nat then None else
        f ← parseIPv4Fields s; Some ([], ip ++ f, ellipsis)
      else
      let ip := ip ++ [acc / 256; acc mod 256] in
      match rest with
      | [] => Some ([], ip, ellipsis)
      | c :: rest =>
          if decide (c <> 58) then None else
          match rest with
          | [] => None
          | c1 :: rest1 =>
              if decide (c1 = 58) then
                if decide (ellipsis <> None) then None else
                if decide (rest1 = []) then Some ([], ip, Some (length ip)) else v6_loop n rest1 ip (Some (length ip))
              else v6_loop n rest ip ellipsis
          end
      end
  end.
(** [parseIPv6] of a string without a zone. *)
Definition parseIPv6 (s : bytes) : option bytes :=
  let '(s, ellipsis) := if decide (take 2 s = [58; 58]) then (drop 2 s, Some 0%nat) else (s, None) in
  if decide (ellipsis = Some 0%nat /\ s = []) then Some (replicate 16 0) else
  '(s, ip, ellipsis) ← v6_loop 8 s [] ellipsis;
  if decide (s <> []) then None else
  match ellipsis with
  | None => if decide (length ip < 16)%nat then None else Some ip
  | Some e => if decide (length ip < 16)%nat then Some (take e ip ++ replicate (16 - length ip) 0 ++ drop e ip) else None
  end.
(** [netip.ParseAddr]; a zone, which [netip.ParsePrefix] refuses, is refused
    here. *)
Fixpoint first_mark (s : bytes) : option Z :=
  match s with [] => None | c :: s => if decide (c = 46 \/ c = 58 \/ c = 37) then Some c else first_mark s end.
Definition ParseAddr (s : bytes) : option bytes :=
  if decide (first_mark s = Some 46) then parseIPv4Fields s else
  if decide (first_mark s = Some 58) then if decide (37 ∈ s) then None else parseIPv6 s else None.

(** ** What is written is read back *)

#[local] Ltac digits := Z.to_euclidean_division_equations; lia.
Lemma is_digit_char x : 0 <= x < 10 -> is_digit (48 + x) = true.
Proof. intros H. apply bool_decide_eq_true_2. lia. Qed.
Lemma hex_value_digit x : 0 <= x < 16 -> hex_value (hex_digit x) = Some x.
Proof.
  intros H. unfold hex_value, hex_digit. destruct (decide (x < 10)).
  - rewrite decide_True by lia. f_equal. lia.
  - rewrite decide_False, decide_True by lia. f_equal. lia.
Qed.
Lemma fields_digit c s prev val n fields : 0 <= c < 10 -> (n = 1%nat -> val <> 0) -> val * 10 + c <= 255 ->
  fields_loop ((48 + c) :: s) prev val n fields = fields_loop s (Some (48 + c)) (val * 10 + c) (S n) fields.
Proof.
  intros H Hn Hv. cbn [fields_loop]. rewrite is_digit_char by done. rewrite decide_False by (intros [? ?]; by apply Hn).
  rewrite decide_False by lia. f_equal; lia.
Qed.
#[local] Ltac octet := rewrite fields_digit; [|digits|intros ?; try discriminate; digits|digits].
Lemma fields_decimal a s prev fields : is_byte a -> exists n,
  fields_loop (decimal a ++ s) prev 0 0 fields = fields_loop s (Some (48 + a mod 10)) a n fields.
Proof.
  intros H. unfold decimal, is_byte in *. destruct (decide (100 <= a)); [|destruct (decide (10 <= a))].
  - rewrite (decide_True (P := 10 <= a)) by lia. exists 3%nat. cbn [app]. do 3 octet. f_equal; digits.
  - exists 2%nat. cbn [app]. do 2 octet. f_equal; digits.
  - exists 1%nat. cbn [app]. octet. f_equal; digits.
Qed.
Lemma fields_dot s c val n fields : c <> 46 -> s <> [] -> (length fields < 3)%nat ->
  fields_loop (46 :: s) (Some c) val n fields = fields_loop s (Some 46) 0 0 (fields ++ [val]).
Proof.
  intros Hc Hs Hl. cbn [fields_loop]. change (is_digit 46) with false. cbn [negb]. rewrite decide_True by done.
  rewrite decide_False by (intros [?|[?|?]]; congruence). by rewrite decide_False by lia.
Qed.
Lemma decimal_nonempty a s : decimal a ++ s <> [].
Proof. unfold decimal. intros [[_ [_ ?]%app_nil]%app_nil _]%app_nil. done. Qed.
Lemma dotted_parses b : wf_bytes b -> glen b = 4 -> parseIPv4Fields (dotted b) = Some b.
Proof.
  intros Hb Hl. destruct b as [|a [|b [|c [|d [|]]]]]; try (exfalso; revert Hl; unfold glen; cbn; lia). clear Hl.
  rewrite !Forall_cons in Hb. destruct Hb as (Ha & Hb & Hc & Hd & _). unfold parseIPv4Fields, dotted. cbn [fmap list_fmap join app].
  destruct (fields_decimal a (46 :: decimal b ++ 46 :: decimal c ++ 46 :: decimal d) None [] Ha) as [n1 ->].
  rewrite fields_dot by (try apply decimal_nonempty; cbn; digits). cbn [app].
  destruct (fields_decimal b (46 :: decimal c ++ 46 :: decimal d) (Some 46) [a] Hb) as [n2 ->].
  rewrite fields_dot by (try apply decimal_nonempty; cbn; digits). cbn [app].
  destruct (fields_decimal c (46 :: decimal d) (Some 46) [a; b] Hc) as [n3 ->].
  rewrite fields_dot by (try (rewrite <- (app_nil_r (decimal d)); apply decimal_nonempty); cbn; digits). cbn [app].
  destruct (fields_decimal d [] (Some 46) [a; b; c] Hd) as [n4 E]. rewrite app_nil_r in E. rewrite E. done.
Qed.

Lemma hex_step c s off acc d : hex_value c = Some d -> (off <= 3)%nat -> acc * 16 + d <= 65535 ->
  hex_loop (c :: s) off acc = hex_loop s (S off) (acc * 16 + d).
Proof. intros Hc Ho Ha. cbn [hex_loop]. rewrite Hc. by rewrite !decide_False by lia. Qed.
Definition ends_group (s : bytes) : Prop := forall c, head s = Some c -> hex_value c = None.
Lemma hex_stop s off acc : ends_group s -> hex_loop s off acc = Some (acc, off, s).
Proof. intros H. destruct s as [|c s]; [done|]. cbn [hex_loop]. by rewrite (H c). Qed.
#[local] Ltac hexit := rewrite (fun c s o a => hex_step (hex_digit c) s o a c) by (try apply hex_value_digit; try lia; digits).
Lemma hex_group_read x s : 0 <= x < 65536 -> ends_group s -> exists off, hex_loop (hex_group x ++ s) 0 0 = Some (x, S off, s).
Proof.
  intros H Hs. unfold hex_group. destruct (decide (4096 <= x)); [|destruct (decide (256 <= x)); [|destruct (decide (16 <= x))]];
    rewrite ?(decide_True (P := 256 <= x)), ?(decide_True (P := 16 <= x)) by lia; cbn [app].
  - exists 3%nat. do 4 hexit. rewrite hex_stop by done. repeat f_equal; digits.
  - exists 2%nat. do 3 hexit. rewrite hex_stop by done. repeat f_equal; digits.
  - exists 1%nat. do 2 hexit. rewrite hex_stop by done. repeat f_equal; digits.
  - exists 0%nat. hexit. rewrite hex_stop by done. repeat f_equal; digits.
Qed.

Definition is_group (x : Z) : Prop := 0 <= x < 65536.
Definition group_bytes (gs : list Z) : bytes := gs ≫= fun x => [x / 256; x mod 256].
Lemma group_bytes_groups n : forall b, wf_bytes b -> length b = (2 * n)%nat ->
  group_bytes (groups b) = b /\ Forall is_group (groups b) /\ length (groups b) = n.
Proof.
  induction n as [|n IH]; intros b Hb Hl; [by destruct b|]. destruct b as [|x [|y b]]; cbn in Hl; try lia.
  rewrite !Forall_cons in Hb. destruct Hb as (Hx & Hy & Hb). destruct (IH b Hb ltac:(lia)) as (E & F & L). unfold is_byte in *. split_and!.
  - cbn. fold (group_bytes (groups b)). rewrite E. repeat f_equal; digits.
  - cbn. apply Forall_cons. split; [unfold is_group; lia|done].
  - cbn. by rewrite L.
Qed.
Lemma length_group_bytes gs : length (group_bytes gs) = (2 * length gs)%nat.
Proof. induction gs as [|x gs IH]; [done|]. cbn. fold (group_bytes gs). rewrite IH. lia. Qed.
Definition group_text (gs : list Z) : bytes := join [58] (hex_group <$> gs).
Lemma group_text_cons x gs : gs <> [] -> group_text (x :: gs) = hex_group x ++ 58 :: group_text gs.
Proof. by destruct gs. Qed.
Lemma hex_digit_not x c : 0 <= x < 16 -> c = 58 \/ c = 46 \/ c = 37 \/ c = 47 -> hex_digit x <> c.
Proof. unfold hex_digit. intros H Hc. case_decide; lia. Qed.
Lemma hex_group_head x s : is_group x -> exists c t, hex_group x ++ s = c :: t /\ c <> 58.
Proof.
  unfold is_group, hex_group. intros H. repeat case_decide; cbn [app]; eexists _, _; (split; [reflexivity|]); apply hex_digit_not; (digits || auto).
Qed.
Lemma group_text_head gs s : gs <> [] -> Forall is_group gs -> exists c t, group_text gs ++ s = c :: t /\ c <> 58.
Proof.
  intros Hne Hg. destruct gs as [|x gs]; [done|]. apply Forall_cons in Hg as [Hx Hg]. destruct gs as [|y gs].
  - by apply hex_group_head.
  - rewrite group_text_cons, <- app_assoc by done. by apply hex_group_head.
Qed.
Lemma ends_nil : ends_group [].
Proof. by intros c. Qed.
Lemma ends_char c s : hex_value c = None -> ends_group (c :: s).
Proof. by intros H c' [= <-]. Qed.
Lemma v6_group n x s ip ell : is_group x -> head s <> Some 58 -> s <> [] ->
  v6_loop (S n) (hex_group x ++ 58 :: s) ip ell = v6_loop n s (ip ++ [x / 256; x mod 256]) ell.
Proof.
  intros Hx Hs Hne. destruct (hex_group_read x (58 :: s) Hx (ends_char 58 _ eq_refl)) as [off E]. cbn [v6_loop]. rewrite E. cbn [mbind option_bind].
  rewrite decide_False by done. cbn [head]. rewrite decide_False by congruence. cbn beta iota zeta. rewrite decide_False by congruence.
  destruct s as [|c s]; [done|]. rewrite decide_False by (intros ->; by apply Hs). done.
Qed.
Lemma group_text_start gs s : gs <> [] -> Forall is_group gs -> head (group_text gs ++ s) <> Some 58 /\ group_text gs ++ s <> [].
Proof. intros Hne Hg. destruct (group_text_head gs s Hne Hg) as (c & t & -> & Hc). cbn. split; congruence. Qed.
Lemma v6_groups gs : forall n ip ell, gs <> [] -> Forall is_group gs -> (length gs <= n)%nat ->
  v6_loop n (group_text gs) ip ell = Some ([], ip ++ group_bytes gs, ell).
Proof.
  induction gs as [|x gs IH]; intros n ip ell Hne Hg Hn; [done|]. apply Forall_cons in Hg as [Hx Hg]. destruct n as [|n]; [cbn in Hn; lia|].
  destruct (decide (gs = [])) as [->|Hgs].
  - change (group_text [x]) with (hex_group x). rewrite <- (app_nil_r (hex_group x)). cbn [v6_loop].
    destruct (hex_group_read x [] Hx ends_nil) as [off ->]. cbn. done.
  - destruct (group_text_start gs [] Hgs Hg). rewrite app_nil_r in *. rewrite group_text_cons, v6_group by done.
    rewrite (IH n) by (done || cbn in Hn; lia). by rewrite <- app_assoc.
Qed.
Lemma v6_groups_ellipsis gs after : forall n ip, gs <> [] -> Forall is_group gs -> (length gs <= n)%nat ->
  v6_loop n (group_text gs ++ 58 :: 58 :: after) ip None =
  let ip' := ip ++ group_bytes gs in
  if decide (after = []) then Some ([], ip', Some (length ip')) else v6_loop (n - length gs) after ip' (Some (length ip')).
Proof.
  induction gs as [|x gs IH]; intros n ip Hne Hg Hn; [done|]. apply Forall_cons in Hg as [Hx Hg]. destruct n as [|n]; [cbn in Hn; lia|].
  destruct (decide (gs = [])) as [->|Hgs].
  - change (group_text [x]) with (hex_group x). destruct (hex_group_read x (58 :: 58 :: after) Hx (ends_char 58 _ eq_refl)) as [off E].
    cbn [v6_loop]. rewrite E. cbn [mbind option_bind]. rewrite decide_False by done. cbn [head]. rewrite decide_False by congruence.
    cbn beta iota zeta. rewrite decide_False by congruence. rewrite decide_True, decide_False by (done || congruence).
    cbn [length]. by rewrite Nat.sub_succ, Nat.sub_0_r.
  - destruct (group_text_start gs (58 :: 58 :: after) Hgs Hg). rewrite group_text_cons, <- app_assoc by done. cbn [app].
    rewrite v6_group by done. rewrite (IH n) by (done || cbn in Hn; lia). rewrite <- app_assoc. cbn [length]. by rewrite Nat.sub_succ.
Qed.

Lemma zero_run_spec l : take (zero_run l) l = replicate (zero_run l) 0 /\ (zero_run l <= length l)%nat.
Proof. induction l as [|z l [IH1 IH2]]; [done|]. cbn. case_decide as E; [|cbn; split; [done|lia]]. subst. cbn. rewrite IH1. split; [done|lia]. Qed.
(** A place and number of zero groups that may be cut. *)
Definition cut (L : list Z) (b : nat * nat) : Prop :=
  b.2 = 0%nat \/ ((2 <= b.2)%nat /\ (b.1 + b.2 <= length L)%nat /\ take b.2 (drop b.1 L) = replicate b.2 0).
Lemma longest_run_cut L l : forall i best, l = drop i L -> cut L best -> cut L (longest_run l i best).
Proof.
  induction l as [|z l IH]; intros i best El Hb; [done|]. cbn [longest_run]. apply IH.
  - apply (f_equal (drop 1)) in El. change (drop 1 (z :: l)) with l in El. rewrite El at 1. rewrite drop_drop. f_equal. lia.
  - case_decide as Hn; [|done]. right. cbn [fst snd]. rewrite El in Hn |- *. destruct (zero_run_spec (drop i L)) as [Hz Hl]. rewrite length_drop in Hl.
    split_and!; [lia|lia|done].
Qed.
Lemma cut_split L i n : (2 <= n)%nat -> (i + n <= length L)%nat -> take n (drop i L) = replicate n 0 ->
  L = take i L ++ replicate n 0 ++ drop (i + n) L.
Proof. intros _ _ <-. rewrite <- drop_drop, take_drop, take_drop. done. Qed.
Lemma group_bytes_app g1 g2 : group_bytes (g1 ++ g2) = group_bytes g1 ++ group_bytes g2.
Proof. apply bind_app. Qed.
Lemma group_bytes_zeros n : group_bytes (replicate n 0) = replicate (n + n) 0.
Proof. induction n as [|n IH]; [done|]. rewrite Nat.add_succ_r. cbn. fold (group_bytes (replicate n 0)). by rewrite IH. Qed.
Lemma no_ellipsis s c t : s = c :: t -> c <> 58 -> take 2 s <> [58; 58].
Proof. intros -> Hc. cbn. congruence. Qed.
Lemma ipv6_string_parses b : wf_bytes b -> glen b = 16 -> parseIPv6 (ipv6_string b) = Some b.
Proof.
  intros Hb Hl. unfold glen in Hl. destruct (group_bytes_groups 8 b Hb ltac:(lia)) as (Eb & Hg & Lg). unfold ipv6_string.
  set (gs := groups b) in *. pose proof (longest_run_cut gs gs 0 (0%nat, 0%nat) eq_refl (or_introl eq_refl)) as Hc.
  destruct (longest_run gs 0 (0%nat, 0%nat)) as [i [|n]]; fold (group_text gs).
  - assert (Hne : gs <> []) by (intros E; rewrite E in Lg; done). destruct (group_text_head gs [] Hne Hg) as (c & t & Et & Hc58). rewrite app_nil_r in Et.
    unfold parseIPv6. rewrite decide_False by (by eapply no_ellipsis). rewrite decide_False by (by intros [? _]).
    rewrite v6_groups by (done || lia). cbn [mbind option_bind app]. rewrite decide_False by (by intros []).
    rewrite decide_False by (rewrite length_group_bytes; lia). by rewrite Eb.
  - destruct Hc as [?|(H2 & Hin & Hz)]; [done|]. cbn [fst snd] in H2, Hin, Hz. pose proof (cut_split gs i (S n) H2 Hin Hz) as Es. set (m := S n) in *.
    set (before := take i gs) in *. set (after := drop (i + m) gs) in *.
    assert (Hgs : Forall is_group before /\ Forall is_group after) by (split; [by apply Forall_take|by apply Forall_drop]). destruct Hgs as [Hgb Hga].
    assert (Lb : length before = i) by (unfold before; rewrite length_take; lia). assert (La : length after = (8 - (i + m))%nat) by (unfold after; rewrite length_drop; lia).
    assert (Eb' : b = group_bytes before ++ replicate (m + m) 0 ++ group_bytes after) by (rewrite <- Eb, Es, !group_bytes_app, group_bytes_zeros; done).
    change (join [58] (hex_group <$> before)) with (group_text before). change (join [58] (hex_group <$> after)) with (group_text after). cbn [app].
    assert (Ha : after <> [] -> group_text after <> []).
    { intros Hne E. destruct (group_text_head after [] Hne Hga) as (c & t & Et & _). by rewrite E in Et. }
    assert (Fin : forall e ip, ip = group_bytes before ++ group_bytes after -> e = length (group_bytes before) ->
      (if decide (length ip < 16)%nat then Some (take e ip ++ replicate (16 - length ip) 0 ++ drop e ip) else None) = Some b).
    { intros e ip -> ->. rewrite length_app, !length_group_bytes, Lb, La, decide_True by lia. rewrite take_app_length', drop_app_length' by (rewrite length_group_bytes; lia).
      rewrite Eb'. repeat f_equal. lia. }
    destruct (decide (before = [])) as [E0|E0].
    + rewrite E0 in *. change (group_text []) with (@nil Z). cbn [app]. unfold parseIPv6. rewrite decide_True by done. cbn [drop]. rewrite ?drop_0.
      destruct (decide (after = [])) as [Ea|Ea].
      * rewrite Ea in *. rewrite decide_True by done. rewrite Eb'. assert (Hm : (m + m = 16)%nat) by (cbn [length] in Lb, La; lia). by rewrite Hm, app_nil_r.
      * rewrite decide_False by (intros [_ ?]; by apply Ha). rewrite v6_groups by (done || lia). cbn [mbind option_bind app].
        rewrite decide_False by (by intros []). by apply Fin.
    + destruct (group_text_head before (58 :: 58 :: group_text after) E0 Hgb) as (c & t & Et & Hc58). unfold parseIPv6.
      rewrite decide_False by (by eapply no_ellipsis). rewrite decide_False by (by intros [? _]).
      rewrite v6_groups_ellipsis by (done || lia). cbn zeta. cbn [app]. destruct (decide (after = [])) as [Ea|Ea].
      * rewrite Ea in *. rewrite decide_True by done. cbn [mbind option_bind]. rewrite decide_False by (by intros []). apply Fin; [by rewrite app_nil_r|done].
      * rewrite decide_False by (by apply Ha). rewrite v6_groups by (done || lia). cbn [mbind option_bind]. rewrite decide_False by (by intros []). by apply Fin.
Qed.

Definition text_char (c : Z) : Prop := c <> 46 /\ c <> 37 /\ c <> 47.
Lemma hex_digit_char x : 0 <= x < 16 -> text_char (hex_digit x) /\ hex_digit x <> 58.
Proof. intros H. split; [split_and!|]; apply hex_digit_not; auto. Qed.
Lemma hex_group_chars x : is_group x -> Forall (fun c => text_char c /\ c <> 58) (hex_group x).
Proof.
  unfold is_group, hex_group. intros H. repeat (apply Forall_app; split); repeat case_decide; try apply Forall_nil_2; apply Forall_singleton, hex_digit_char; digits.
Qed.
Lemma group_text_chars gs : Forall is_group gs -> Forall text_char (group_text gs).
Proof.
  assert (H58 : text_char 58) by (by split_and!). induction gs as [|x gs IH]; intros Hg; [by apply Forall_nil_2|].
  apply Forall_cons in Hg as [Hx Hg]. assert (Hh : Forall text_char (hex_group x)) by (eapply Forall_impl; [by apply hex_group_chars|naive_solver]).
  destruct (decide (gs = [])) as [->|Hne]; [done|]. rewrite group_text_cons by done. apply Forall_app. split; [done|]. apply Forall_cons. split; [done|]. by apply IH.
Qed.
Lemma first_mark_colon l s : Forall (fun c => text_char c /\ c <> 58) l -> first_mark (l ++ 58 :: s) = Some 58.
Proof.
  induction 1 as [|c l [(H1 & H2 & _) H3] _ IH]; [done|]. cbn. rewrite decide_False by (intros [?|[?|?]]; done). exact IH.
Qed.
Lemma first_mark_groups l s : l <> [] -> Forall is_group l -> (2 <= length l)%nat \/ head s = Some 58 -> first_mark (group_text l ++ s) = Some 58.
Proof.
  intros Hne Hg Hs. destruct l as [|x l]; [done|]. apply Forall_cons in Hg as [Hx _]. pose proof (hex_group_chars x Hx) as Hc. destruct (decide (l = [])) as [->|Hn].
  - destruct Hs as [Hs|Hs]; [cbn in Hs; lia|]. destruct s as [|c s]; [done|]. injection Hs as ->. by apply first_mark_colon.
  - rewrite group_text_cons, <- app_assoc by done. by apply first_mark_colon.
Qed.
Lemma ipv6_string_text b : wf_bytes b -> glen b = 16 -> Forall text_char (ipv6_string b) /\ first_mark (ipv6_string b) = Some 58.
Proof.
  intros Hb Hl. unfold glen in Hl. destruct (group_bytes_groups 8 b Hb ltac:(lia)) as (_ & Hg & Lg). unfold ipv6_string.
  set (gs := groups b) in *. assert (Hne : gs <> []) by (intros E; by rewrite E in Lg).
  destruct (longest_run gs 0 (0%nat, 0%nat)) as [i [|n]]; fold (group_text gs).
  - split; [by apply group_text_chars|]. rewrite <- (app_nil_r (group_text gs)). apply first_mark_groups; [done|done|left; lia].
  - fold (group_text (take i gs)). fold (group_text (drop (i + S n) gs)). split.
    + repeat (apply Forall_app; split); [by apply group_text_chars, Forall_take|by repeat constructor|by apply group_text_chars, Forall_drop].
    + destruct (decide (take i gs = [])) as [->|Ht]; [done|]. apply first_mark_groups; [done|by apply Forall_take|by right].
Qed.
Lemma decimal_chars a : is_byte a -> Forall (fun c => 48 <= c <= 57) (decimal a).
Proof.
  unfold is_byte, decimal. intros H. repeat (apply Forall_app; split); repeat case_decide; try apply Forall_nil_2; apply Forall_singleton; digits.
Qed.
Lemma dotted_chars b : wf_bytes b -> Forall (fun c => 48 <= c <= 57 \/ c = 46) (dotted b).
Proof.
  unfold dotted. intros Hb. induction Hb as [|x b Hx Hb IH]; [by apply Forall_nil_2|]. assert (Hd : Forall (fun c => 48 <= c <= 57 \/ c = 46) (decimal x)).
  { eapply Forall_impl; [by apply decimal_chars|]. intros c H. by left. }
  cbn [fmap list_fmap join]. destruct b as [|y b]; [done|]. apply Forall_app. split; [done|]. apply Forall_app. split; [apply Forall_singleton; by right|exact IH].
Qed.
Lemma dotted_mark b : wf_bytes b -> glen b = 4 -> first_mark (dotted b) = Some 46.
Proof.
  intros Hb Hl. destruct b as [|a [|b [|c [|d [|]]]]]; try (exfalso; revert Hl; unfold glen; cbn; lia). apply Forall_cons in Hb as [Ha _].
  unfold dotted. cbn [fmap list_fmap join app]. pose proof (decimal_chars a Ha) as Hc. generalize (decimal b ++ 46 :: decimal c ++ 46 :: decimal d). intros s.
  induction Hc as [|x l Hx Hc IH]; [done|]. cbn. rewrite decide_False by lia. exact IH.
Qed.

Lemma hex_value_char x : 0 <= x < 10 -> hex_value (48 + x) = Some x.
Proof. intros H. unfold hex_value. rewrite decide_True by lia. f_equal. lia. Qed.
#[local] Ltac hexchar := rewrite (fun c s o a => hex_step (48 + c) s o a c) by (try apply hex_value_char; try lia; digits).
Lemma hex_decimal a s : is_byte a -> ends_group s -> exists acc off, hex_loop (decimal a ++ s) 0 0 = Some (acc, S off, s).
Proof.
  intros H Hs. unfold decimal, is_byte in *. destruct (decide (100 <= a)); [|destruct (decide (10 <= a))].
  - rewrite (decide_True (P := 10 <= a)) by lia. cbn [app]. do 3 hexchar. rewrite hex_stop by done. by eexists _, _.
  - cbn [app]. do 2 hexchar. rewrite hex_stop by done. by eexists _, _.
  - cbn [app]. hexchar. rewrite hex_stop by done. by eexists _, _.
Qed.
Lemma dotted_head b : wf_bytes b -> glen b = 4 -> exists a s, is_byte a /\ dotted b = decimal a ++ 46 :: s.
Proof.
  intros Hb Hl. destruct b as [|a [|b [|c [|d [|]]]]]; try (exfalso; revert Hl; unfold glen; cbn; lia). apply Forall_cons in Hb as [Ha _].
  exists a. by eexists.
Qed.
Lemma v6_dotted n d ip e : wf_bytes d -> glen d = 4 -> (length ip <= 12)%nat ->
  v6_loop (S n) (dotted d) ip (Some e) = Some ([], ip ++ d, Some e).
Proof.
  intros Hd Hl Hip. cbn [v6_loop]. destruct (dotted_head d Hd Hl) as (a & s & Ha & E). rewrite E at 1.
  destruct (hex_decimal a (46 :: s) Ha (ends_char 46 _ eq_refl)) as (acc & off & ->). cbn [mbind option_bind]. rewrite decide_False by done.
  rewrite decide_True by done. rewrite decide_False by (by intros [? _]). rewrite decide_False by lia. by rewrite dotted_parses.
Qed.
Lemma v6_mapped d : wf_bytes d -> glen d = 4 -> v6_loop 8 ([102; 102; 102; 102; 58] ++ dotted d) [] (Some 0%nat) = Some ([], [255; 255] ++ d, Some 0%nat).
Proof.
  intros Hd Hl. destruct (dotted_head d Hd Hl) as (a & s & _ & E). pose proof (dotted_chars d Hd) as Hc. rewrite Forall_forall in Hc.
  change ([102; 102; 102; 102; 58] ++ dotted d) with (hex_group 65535 ++ 58 :: dotted d). rewrite v6_group.
  - change ([] ++ [65535 / 256; 65535 mod 256]) with [255; 255]. apply v6_dotted; [done|done|cbn; lia].
  - unfold is_group. lia.
  - intros Hh. assert (H : 58 ∈ dotted d) by (destruct (dotted d); [done|]; injection Hh as ->; apply list_elem_of_here). specialize (Hc _ H). lia.
  - rewrite E. by destruct (decimal a).
Qed.

(** An address written by [Addr.String] is read back. *)
Theorem ParseAddr_String b : wf_bytes b -> glen b = 4 \/ glen b = 16 -> ParseAddr (Addr_String b) = Some b /\ 47 ∉ Addr_String b.
Proof.
  intros Hb Hl. unfold ParseAddr, Addr_String. destruct (decide (glen b = 4)) as [H4|H4].
  - rewrite dotted_mark, decide_True by done. split; [by apply dotted_parses|]. pose proof (dotted_chars b Hb) as Hc. rewrite Forall_forall in Hc.
    intros H. specialize (Hc _ H). lia.
  - destruct Hl as [|Hl]; [done|]. destruct (decide (take 12 b = mapped_prefix)) as [Hm|Hm].
    + assert (Hd : wf_bytes (drop 12 b)) by (by apply Forall_drop). assert (H12 : glen (drop 12 b) = 4) by (unfold glen in *; rewrite length_drop; lia).
      pose proof (dotted_chars _ Hd) as Hc. rewrite Forall_forall in Hc.
      assert (Hn : forall c, c = 37 \/ c = 47 -> c ∉ [58; 58; 102; 102; 102; 102; 58] ++ dotted (drop 12 b)).
      { intros c Hc' [H|H]%elem_of_app; [|specialize (Hc _ H); lia]. repeat (apply elem_of_cons in H as [->|H]; [lia|]). by apply not_elem_of_nil in H. }
      split; [|apply Hn; by right]. rewrite decide_False, decide_True, decide_False by (done || apply Hn; by left).
      unfold parseIPv6. rewrite decide_True by done. change (drop 2 _) with ([102; 102; 102; 102; 58] ++ dotted (drop 12 b)).
      rewrite decide_False by (by intros [_ ?]). rewrite v6_mapped by done. cbn [mbind option_bind]. rewrite decide_False by (by intros []).
      rewrite length_app. unfold glen in H12. replace (length (drop 12 b)) with 4%nat by lia. rewrite decide_True by (cbn; lia). cbn [take app drop].
      f_equal. rewrite <- (take_drop 12 b) at 2. by rewrite Hm.
    + destruct (ipv6_string_text b Hb Hl) as [Ht Hf]. rewrite Hf. rewrite Forall_forall in Ht. split; [|intros H; by apply Ht in H as (_ & _ & ?)].
      rewrite decide_False, decide_True by done. rewrite decide_False by (intros H; by apply Ht in H as (_ & ? & _)). by apply ipv6_string_parses.
Qed.

(** What is read is an address. *)
Lemma fields_wf s : forall prev val n fields b, is_byte val -> wf_bytes fields -> (length fields <= 3)%nat ->
  fields_loop s prev val n fields = Some b -> wf_bytes b /\ length b = 4%nat.
Proof.
  induction s as [|c s IH]; intros prev val n fields b Hv Hf Hl; cbn [fields_loop].
  - case_decide; [done|]. intros [= <-]. split; [apply Forall_app; split; [done|by apply Forall_singleton]|rewrite length_app; cbn; lia].
  - unfold is_byte in *. destruct (is_digit c) eqn:Ed.
    + apply bool_decide_eq_true_1 in Ed. case_decide; [done|]. case_decide; [done|]. apply IH; [lia|done|done].
    + case_decide; [|done]. case_decide; [done|]. case_decide; [done|]. apply IH; [lia|apply Forall_app; split; [done|by apply Forall_singleton]|].
      rewrite length_app. cbn. lia.
Qed.
Lemma hex_value_range c d : hex_value c = Some d -> 0 <= d < 16.
Proof. unfold hex_value. repeat case_decide; intros [= <-]; lia. Qed.
Lemma hex_loop_range s : forall off acc x o r, 0 <= acc <= 65535 -> hex_loop s off acc = Some (x, o, r) -> 0 <= x <= 65535.
Proof.
  induction s as [|c s IH]; intros off acc x o r Ha; cbn [hex_loop]; [by intros [= <- _ _]|].
  destruct (hex_value c) as [d|] eqn:Ed; [|by intros [= <- _ _]]. apply hex_value_range in Ed. case_decide; [done|]. case_decide; [done|].
  apply IH. lia.
Qed.
Lemma v6_wf n : forall s ip e s' ip' e', wf_bytes ip -> (length ip + 2 * n = 16)%nat -> (default 0 e <= length ip)%nat ->
  v6_loop n s ip e = Some (s', ip', e') -> wf_bytes ip' /\ (length ip' <= 16)%nat /\ (default 0 e' <= length ip')%nat.
Proof.
  induction n as [|n IH]; intros s ip e s' ip' e' Hw Hl He; cbn [v6_loop]; [intros [= _ <- <-]; split_and!; [done|lia|done]|].
  destruct (hex_loop s 0 0) as [[[acc off] rest]|] eqn:Eh; [|done]. cbn [mbind option_bind]. apply hex_loop_range in Eh as Ha; [|lia].
  case_decide; [done|]. case_decide.
  - case_decide; [done|]. case_decide; [done|]. destruct (parseIPv4Fields s) as [f|] eqn:Ef; [|done]. cbn. intros [= _ <- <-].
    apply fields_wf in Ef as [Hf Lf]; [|by split|done|cbn; lia]. rewrite length_app. split_and!; [by apply Forall_app|lia|lia].
  - set (ip1 := ip ++ [acc / 256; acc mod 256]). assert (Hw1 : wf_bytes ip1) by (apply Forall_app; split; [done|]; repeat constructor; unfold is_byte; digits).
    assert (Hl1 : length ip1 = S (S (length ip))) by (unfold ip1; rewrite length_app; cbn; lia). cbn zeta.
    destruct rest as [|c rest]; [intros [= _ <- <-]; split_and!; [done|lia|lia]|]. case_decide; [done|]. destruct rest as [|c1 rest1]; [done|].
    case_decide; [|apply IH; [done|lia|lia]]. case_decide; [done|]. case_decide; [intros [= _ <- <-]; split_and!; [done|lia|done]|].
    apply IH; [done|lia|done].
Qed.
Lemma ParseAddr_wf s b : ParseAddr s = Some b -> wf_bytes b /\ (glen b = 4 \/ glen b = 16).
Proof.
  unfold ParseAddr, glen. case_decide.
  { intros H'. apply fields_wf in H' as [Hw Hl]; [|by split|done|cbn; lia]. split; [done|left; lia]. }
  case_decide; [|done]. case_decide; [done|]. unfold parseIPv6. destruct (if decide (take 2 s = _) then _ else _) as [s1 e1] eqn:E1.
  assert (He1 : default 0%nat e1 = 0%nat) by (revert E1; case_decide; by intros [= _ <-]). clear E1. case_decide.
  { intros [= <-]. split; [by repeat constructor|by right]. }
  destruct (v6_loop 8 s1 [] e1) as [[[s2 ip] e2]|] eqn:Ev; [|done]. cbn [mbind option_bind].
  apply v6_wf in Ev as (Hw & Hl & He); [|done|done|rewrite He1; done]. case_decide; [done|]. destruct e2 as [e|]; cbn in He.
  - case_decide; [|done]. intros [= <-]. rewrite !length_app, length_replicate, length_take, length_drop. split; [|right; lia].
    repeat (apply Forall_app; split); [by apply Forall_take|by apply Forall_replicate|by apply Forall_drop].
  - case_decide; [done|]. intros [= <-]. split; [done|right; lia].
Qed.
