(* ===== verification/Lldp.v ===== *)
(** The lldpd control client (pkg/lldp): the framing of the control socket's
    messages, lldpd's pointer-graph serialization, and the neighbour table read
    from it.

    A decoded graph lives in a heap of nodes, as several fields may point to one
    node and a list may loop back on itself: a node is its position in the heap,
    and [seen] maps the ids of the message to nodes. *)

From stdpp Require Import gmap.
From S2P Require Import Prelude NetText.

(** ** Framing *)

Definition hmsgHeaderSize : Z := 16.
Definition hmsgMaxSize : Z := 2 ^ 19.
Definition wrapperHeader : Z := 16.
Definition alignTo : Z := 8.
Definition opNone : Z := 0.
Definition opGetInterfaces : Z := 3.
Definition opGetInterface : Z := 6.

Inductive lldp_err := ErrShortBuffer | ErrTooLarge | ErrProtocol | ErrMalformed | ErrRead.

(** What [writeMsg] writes. *)
Definition writeMsg (opcode : Z) (payload : bytes) : bytes :=
  le_split 4 (uint32 opcode) ++ replicate 4 0 ++ le_split 8 (glen payload) ++ payload.
(** [readMsg] from a stream: the payload, or the error, and what is left.
    [io.ReadFull] of a stream that ends early is an error. *)
Definition readMsg (stream : bytes) (want : Z) : go ((bytes + lldp_err) * bytes) :=
  if decide (glen stream < hmsgHeaderSize) then Some (inr ErrRead, []) else
  hdr ← slice stream 0 hmsgHeaderSize;
  rest ← slice stream hmsgHeaderSize (glen stream);
  t ← LE32 hdr 0 4;
  let typ := int32 t in
  length ← LE64 hdr 8 16;
  if decide (hmsgMaxSize < length) then Some (inr ErrTooLarge, rest) else
  if decide (typ <> want) then Some (inr ErrProtocol, rest) else
  if decide (length = 0) then Some (inl [], rest) else
  if decide (glen rest < length) then Some (inr ErrRead, []) else
  payload ← slice rest 0 length;
  rest ← slice rest length (glen rest);
  Some (inl payload, rest).

(** The argument of GET_INTERFACE: a wrapper around a C string. *)
Definition marshalString (s : bytes) : bytes :=
  le_split 8 1 ++ le_split 8 (wrapperHeader + glen s + 1) ++ s ++ [0].

(** ** Struct descriptors *)

Inductive mkind := kPtr | kStr | kFstr.
(** The five descriptors the code builds; the kinds of object are their names. *)
Inductive minfo := miInterfaceList | miInterface | miMgmt | miChassis | miPort.
#[export] Instance minfo_eq : EqDecision minfo. Proof. solve_decision. Defined.
Record mfield := mkField { f_off : Z; f_lenOff : Z; f_kind : mkind; f_mi : minfo }.

Definition offIfaceNext : Z := 0.
Definition offIfaceName : Z := 16.
Definition offMgmtNext : Z := 0.
Definition offMgmtFamily : Z := 16.
Definition offMgmtAddr : Z := 20.
Definition offChassisIDSubtype : Z := 21.
Definition offChassisID : Z := 24.
Definition offChassisIDLen : Z := 32.
Definition offChassisName : Z := 40.
Definition offChassisDescr : Z := 48.
Definition offChassisMgmt : Z := 64.
Definition offPortNext : Z := 0.
Definition offPortChassis : Z := 16.
Definition offPortIDSubtype : Z := 64.
Definition offPortID : Z := 72.
Definition offPortIDLen : Z := 80.
Definition offPortDescr : Z := 88.
Definition maxDepth : Z := 4096.

Definition mi_size (mi : minfo) : Z :=
  match mi with miInterfaceList => 16 | miInterface => 24 | miMgmt => 56 | miChassis => 144 | miPort => 376 end.
(** The descriptor of a string field is never used. *)
Definition ptr_field (off : Z) (mi : minfo) : mfield := mkField off 0 kPtr mi.
Definition str_field (off : Z) : mfield := mkField off 0 kStr miMgmt.
Definition fstr_field (off lenOff : Z) : mfield := mkField off lenOff kFstr miMgmt.
Definition mi_fields (mi : minfo) : list mfield :=
  match mi with
  | miInterfaceList => [ptr_field 0 miInterface]
  | miInterface => [ptr_field offIfaceNext miInterface; str_field offIfaceName]
  | miMgmt => [ptr_field offMgmtNext miMgmt]
  | miChassis => [fstr_field offChassisID offChassisIDLen; str_field offChassisName; str_field offChassisDescr; ptr_field offChassisMgmt miMgmt]
  | miPort => [ptr_field offPortNext miPort; ptr_field offPortChassis miChassis; fstr_field offPortID offPortIDLen; str_field offPortDescr]
  end.

(** ** The graph *)

(** A string registered for back-references has no descriptor and its value at
    offset 0. *)
Record node := mkNode { n_mi : option minfo; n_body : bytes; n_ptrs : gmap Z nat; n_strs : gmap Z bytes }.
Record graph := mkGraph { seen : gmap Z nat; heap : list node }.
Definition new_node (mi : minfo) (body : bytes) : node := mkNode (Some mi) body ∅ ∅.
Definition str_node (val : bytes) : node := mkNode None [] ∅ {[0 := val]}.
(** Allocates a node and registers it under [orig]. *)
Definition alloc (orig : Z) (n : node) (g : graph) : nat * graph :=
  (length (heap g), mkGraph (<[orig := length (heap g)]> (seen g)) (heap g ++ [n])).
Definition set_ptr (nid : nat) (off : Z) (c : nat) (g : graph) : graph :=
  mkGraph (seen g) (alter (fun n => mkNode (n_mi n) (n_body n) (<[off := c]> (n_ptrs n)) (n_strs n)) nid (heap g)).
Definition set_str (nid : nat) (off : Z) (v : bytes) (g : graph) : graph :=
  mkGraph (seen g) (alter (fun n => mkNode (n_mi n) (n_body n) (n_ptrs n) (<[off := v]> (n_strs n))) nid (heap g)).

(** ** Decoding *)

(** A value and an error of Go: [inr] is the error. *)
Abbreviation res A := (go (A + lldp_err)).
Definition rbind {A B} (m : res A) (f : A -> res B) : res B :=
  x ← m; match x with inl a => f a | inr e => Some (inr e) end.
Notation "x ⇐ y ; z" := (rbind y (fun x => z)) (at level 20, y at level 100, z at level 200, only parsing).
Notation "' x ⇐ y ; z" := (rbind y (fun x => z)) (at level 20, x pattern, y at level 100, z at level 200, only parsing).
Definition fail {A} (e : lldp_err) : res A := Some (inr e).
Definition ok {A} (a : A) : res A := Some (inl a).

(** The value, or false. *)
Definition le64 (b : bytes) (off : Z) : go (option Z) :=
  if decide (off < 0 \/ glen b < off + 8) then Some None else v ← LE64 b off (off + 8); Some (Some v).
Definition le32 (b : bytes) (off : Z) : go (option Z) :=
  if decide (off < 0 \/ glen b < off + 4) then Some None else v ← LE32 b off (off + 4); Some (Some v).
(** [(n + 7) &^ 7] *)
Definition align8 (n : Z) : Z := Z.ldiff (n + alignTo - 1) (alignTo - 1).

Definition wrapperSize (buf : bytes) (pos : Z) : res (Z * Z) :=
  if decide (pos < 0 \/ glen buf < pos + wrapperHeader) then fail ErrShortBuffer else
  orig ← LE64 buf pos (pos + 8);
  sz ← LE64 buf (pos + 8) (pos + 16);
  if decide (sz < wrapperHeader) then fail ErrMalformed else
  if decide (hmsgMaxSize < sz) then fail ErrTooLarge else
  if decide (glen buf < pos + sz) then fail ErrShortBuffer else
  ok (orig, sz).

(** The bytes up to the first NUL. *)
Fixpoint c_string (b : bytes) : bytes :=
  match b with [] => [] | c :: b => if decide (c = 0) then [] else c :: c_string b end.
Definition decodeString (buf : bytes) (pos flen : Z) (g : graph) : res (bytes * Z * graph) :=
  '(orig, size) ⇐ wrapperSize buf pos;
  obj ← slice buf (pos + wrapperHeader) (pos + size);
  if decide (flen < 0) then
    let val := c_string obj in ok (val, size, (alloc orig (str_node val) g).2)
  else
    if decide (glen obj < flen) then fail ErrMalformed else
    val ← slice obj 0 flen;
    ok (val, size, (alloc orig (str_node val) g).2).

(** The loop over the fields of node [nid], whose wrapper is [size] bytes at
    [pos]; [tl] is where the next child is, relative to it. *)
Fixpoint decode_fields (dec : Z -> minfo -> graph -> res (nat * Z * graph)) (buf : bytes) (pos size : Z) (nid : nat)
    (body : bytes) (fs : list mfield) (tl : Z) (g : graph) : res graph :=
  match fs with
  | [] => ok g
  | f :: fs =>
      p ← le64 body (f_off f);
      match p with
      | None => fail ErrShortBuffer
      | Some ptr =>
          if decide (ptr = 0) then decode_fields dec buf pos size nid body fs tl g else
          match (match f_kind f with kPtr => seen g !! ptr | _ => None end) with
          | Some existing => decode_fields dec buf pos size nid body fs tl (set_ptr nid (f_off f) existing g)
          | None =>
              let tl := align8 tl in
              '(tl, g) ⇐ match f_kind f with
                | kPtr =>
                    '(child, childLen, g) ⇐ dec (pos + tl) (f_mi f) g;
                    ok (tl + childLen, set_ptr nid (f_off f) child g)
                | kStr =>
                    '(val, childLen, g) ⇐ decodeString buf (pos + tl) (-1) g;
                    ok (tl + childLen, set_str nid (f_off f) val g)
                | kFstr =>
                    l32 ← le32 body (f_lenOff f);
                    match l32 with
                    | None => fail ErrShortBuffer
                    | Some l32 =>
                        '(val, childLen, g) ⇐ decodeString buf (pos + tl) (int32 l32) g;
                        ok (tl + childLen, set_str nid (f_off f) val g)
                    end
                end;
              if decide (size < tl) then fail ErrShortBuffer else decode_fields dec buf pos size nid body fs tl g
          end
      end
  end.
(** [decode] at depth [maxDepth + 1 - fuel]. *)
Fixpoint decode (fuel : nat) (buf : bytes) (pos : Z) (mi : minfo) (g : graph) : res (nat * Z * graph) :=
  match fuel with
  | O => fail ErrMalformed
  | S fuel =>
      '(orig, size) ⇐ wrapperSize buf pos;
      let objStart := pos + wrapperHeader in
      let objEnd := objStart + mi_size mi in
      if decide (pos + size < objEnd \/ glen buf < objEnd) then fail ErrShortBuffer else
      body ← slice buf objStart objEnd;
      let '(nid, g) := alloc orig (new_node mi body) g in
      g ⇐ decode_fields (fun p mi g => decode fuel buf p mi g) buf pos size nid body (mi_fields mi) (wrapperHeader + mi_size mi) g;
      ok (nid, size, g)
  end.
Definition depth0 : nat := Z.to_nat (maxDepth + 1).
Definition node_at (g : graph) (nid : nat) : go node := heap g !! nid.
Definition empty_graph : graph := mkGraph ∅ [].

(** ** Walks *)

(** The nodes from [cur] along the pointer at [off], at most [fuel] of them. *)
Fixpoint walk (fuel : nat) (off : Z) (cur : option nat) (g : graph) : go (list node) :=
  match fuel, cur with
  | S fuel, Some nid => n ← node_at g nid; l ← walk fuel off (n_ptrs n !! off) g; Some (n :: l)
  | _, _ => Some []
  end.
Definition str_at (off : Z) (n : node) : bytes := default [] (n_strs n !! off).

Definition ParseInterfaces (payload : bytes) : res (list bytes) :=
  if decide (glen payload < wrapperHeader) then fail ErrShortBuffer else
  '(root, _, g) ⇐ decode depth0 payload 0 miInterfaceList empty_graph;
  n ← node_at g root;
  l ← walk depth0 offIfaceNext (n_ptrs n !! 0) g;
  ok (A := list bytes) (map (str_at offIfaceName) l).

(** ** Formatting *)

Definition hex_byte (c : Z) : bytes := [hex_digit (c / 16); hex_digit (c mod 16)].
Definition macString (b : bytes) : bytes := join [58] (hex_byte <$> b).
Definition hex_EncodeToString (b : bytes) : bytes := concat (hex_byte <$> b).
Definition isPrintableASCII (b : bytes) : bool := forallb (fun c => bool_decide (32 <= c <= 126)) b.

Definition chassisSubtypeLLADDR : Z := 4.
Definition portSubtypeLLADDR : Z := 3.
Definition portSubtypeIfname : Z := 5.
Definition portSubtypeLocal : Z := 7.
Definition formatChassisID (subtype : Z) (b : bytes) : bytes :=
  if decide (b = []) then [] else
  if decide (subtype = chassisSubtypeLLADDR) then macString b else
  if isPrintableASCII b then b else hex_EncodeToString b.
Definition formatPortID (subtype : Z) (b : bytes) : bytes :=
  if decide (b = []) then [] else
  if decide (subtype = portSubtypeLLADDR) then macString b else
  if decide (subtype = portSubtypeIfname \/ subtype = portSubtypeLocal) then b else
  if isPrintableASCII b then b else hex_EncodeToString b.

(** [net.IP.String], of 4 bytes or of 16: an IPv4-mapped address is dotted. *)
Definition IP_String (b : bytes) : bytes :=
  if decide (glen b = 4) then dotted b else
  if decide (take 12 b = replicate 10 0 ++ [255; 255]) then dotted (drop 12 b) else ipv6_string b.

Definition afIPv4 : Z := 1.
Definition afIPv6 : Z := 2.
Definition formatMgmt (family : Z) (octets : bytes) : go bytes :=
  if decide (family = afIPv4) then
    if decide (glen octets < 4) then Some [] else o ← slice octets 0 4; Some (IP_String o)
  else if decide (family = afIPv6) then
    if decide (glen octets < 16) then Some [] else o ← slice octets 0 16; Some (IP_String o)
  else Some [].

(** ** Neighbours *)

Record Neighbor := mkNeighbor {
  nb_Ifname : bytes; nb_ChassisName : bytes; nb_ChassisID : bytes; nb_MgmtIP : bytes; nb_PortID : bytes; nb_PortDescr : bytes }.
#[export] Instance Neighbor_eq : EqDecision Neighbor. Proof. solve_decision. Defined.

(** The addresses of the management list in turn. *)
Fixpoint firstMgmtIP_loop (l : list node) (firstAny : bytes) : go bytes :=
  match l with
  | [] => Some firstAny
  | cur :: l =>
      family ← le32 (n_body cur) offMgmtFamily;
      match family with
      | Some family =>
          if decide (n_mi cur = Some miMgmt) then
            octets ← (if decide (offMgmtAddr + 16 <= glen (n_body cur)) then slice (n_body cur) offMgmtAddr (offMgmtAddr + 16) else Some []);
            ip ← formatMgmt (int32 family) octets;
            if decide (ip <> []) then
              if decide (int32 family = afIPv4) then Some ip
              else firstMgmtIP_loop l (if decide (firstAny = []) then ip else firstAny)
            else firstMgmtIP_loop l firstAny
          else firstMgmtIP_loop l firstAny
      | None => firstMgmtIP_loop l firstAny
      end
  end.
Definition firstMgmtIP (first : option nat) (g : graph) : go bytes :=
  l ← walk depth0 offMgmtNext first g; firstMgmtIP_loop l [].

Definition subtype_at (off : Z) (n : node) : go Z := if decide (off < glen (n_body n)) then index (n_body n) off else Some 0.
Definition neighborFromPort (port : node) (g : graph) : go Neighbor :=
  portSubtype ← subtype_at offPortIDSubtype port;
  let id := formatPortID portSubtype (str_at offPortID port) in
  let descr := str_at offPortDescr port in
  match n_ptrs port !! offPortChassis with
  | None => Some (mkNeighbor [] [] [] [] id descr)
  | Some c =>
      chassis ← node_at g c;
      chSubtype ← subtype_at offChassisIDSubtype chassis;
      mgmt ← firstMgmtIP (n_ptrs chassis !! offChassisMgmt) g;
      Some (mkNeighbor [] (str_at offChassisName chassis) (formatChassisID chSubtype (str_at offChassisID chassis)) mgmt id descr)
  end.
Fixpoint neighborsFromPorts (l : list node) (g : graph) : go (list Neighbor) :=
  match l with [] => Some [] | p :: l => n ← neighborFromPort p g; ns ← neighborsFromPorts l g; Some (n :: ns) end.

(** ** The hardware reply *)

(** Layouts by their hardware size. *)
Definition Layout1_0_13 : Z := 624.
Definition Layout1_0_18 : Z := 632.
Definition Layout1_0_22 : Z := 640.
Definition layoutsFor (hint : string) : list Z :=
  if decide (hint = "1.0.13") then [Layout1_0_13] else
  if decide (hint = "1.0.18" \/ hint = "1.0.19" \/ hint = "1.0.20") then [Layout1_0_18] else
  if decide (hint = "1.0.21" \/ hint = "1.0.22") then [Layout1_0_22] else
  [Layout1_0_22; Layout1_0_18; Layout1_0_13].

Definition ParseHardware (payload : bytes) (hwObj : Z) : res (list Neighbor) :=
  if decide (glen payload < wrapperHeader) then fail ErrShortBuffer else
  '(_, topSize) ⇐ wrapperSize payload 0;
  if decide (hwObj <= 0) then fail ErrMalformed else
  if decide (topSize < wrapperHeader + hwObj) then fail ErrShortBuffer else
  let lportPos := align8 (wrapperHeader + hwObj) in
  '(_, lportSize) ⇐ wrapperSize payload lportPos;
  if decide (topSize < lportPos + lportSize) then fail ErrShortBuffer else
  let rportPos := align8 (lportPos + lportSize) in
  if decide (topSize < rportPos + wrapperHeader) then ok [] else
  '(first, _, g) ⇐ decode depth0 payload rportPos miPort empty_graph;
  l ← walk depth0 offPortNext (Some first) g;
  ns ← neighborsFromPorts l g;
  ok (A := list Neighbor) ns.

(** The loop over the layouts; [lastErr] and [emptyOK] are the loop's variables. *)
Fixpoint parseHardwareTolerant_loop (payload : bytes) (layouts : list Z) (lastErr : option lldp_err) (emptyOK : bool)
    : res (list Neighbor) :=
  match layouts with
  | [] => if emptyOK then ok [] else match lastErr with Some e => fail e | None => ok [] end
  | l :: layouts =>
      r ← ParseHardware payload l;
      match r with
      | inr e => parseHardwareTolerant_loop payload layouts (Some e) emptyOK
      | inl ns => if decide (ns <> []) then ok ns else parseHardwareTolerant_loop payload layouts lastErr true
      end
  end.
Definition parseHardwareTolerant (payload : bytes) (layouts : list Z) : res (list Neighbor) :=
  parseHardwareTolerant_loop payload layouts None false.

(** ** Fetch

    The connection is the bytes lldpd sends; [written] is what the client does.
    Deadlines and failing writes are left out. *)
Definition set_ifname (ifn : bytes) (n : Neighbor) : Neighbor :=
  mkNeighbor ifn (nb_ChassisName n) (nb_ChassisID n) (nb_MgmtIP n) (nb_PortID n) (nb_PortDescr n).
Fixpoint fetch_loop (layouts : list Z) (ifnames : list bytes) (conn written : bytes) (out : gmap bytes Neighbor)
    : go (gmap bytes Neighbor * bytes * bytes) :=
  match ifnames with
  | [] => Some (out, conn, written)
  | ifn :: ifnames =>
      let written := written ++ writeMsg opGetInterface (marshalString ifn) in
      '(r, conn) ← readMsg conn opGetInterface;
      match r with
      | inr _ => fetch_loop layouts ifnames conn written out
      | inl hw =>
          ns ← parseHardwareTolerant hw layouts;
          match ns with
          | inl (n :: _) => fetch_loop layouts ifnames conn written (<[ifn := set_ifname ifn n]> out)
          | _ => fetch_loop layouts ifnames conn written out
          end
      end
  end.
Definition Fetch (conn : bytes) (versionHint : string) : res (gmap bytes Neighbor * bytes * bytes) :=
  let written := writeMsg opGetInterfaces [] in
  '(r, conn) ← readMsg conn opGetInterfaces;
  match r with
  | inr e => fail e
  | inl ifPayload =>
      ifnames ⇐ ParseInterfaces ifPayload;
      x ← fetch_loop (layoutsFor versionHint) ifnames conn written ∅;
      ok (A := gmap bytes Neighbor * bytes * bytes) x
  end.
