(* ===== verification/LldpMarshal.v ===== *)
(** The serialization that [Lldp.decode] reads, as pkg/lldp/marshal.go's header
    describes it, and the proof that decoding a serialized graph rebuilds it. *)

From stdpp Require Import gmap.
From S2P Require Import Prelude NetText Lldp.

(** ** The format

    An object, its block of bytes, what each of its fields points to in the
    descriptor's order, and the bytes of trailing fields the client does not
    know. A pointer is null, to an object of the message that was already
    written, to one that follows, or to a string: its value, and what follows
    the value in its wrapper (the terminator). *)
Inductive obj := Obj (id : Z) (mi : minfo) (body : bytes) (cs : objs) (extra : bytes)
with objs :=
  | End
  | Null (cs : objs)
  | Ref (id : Z) (cs : objs)
  | Sub (t : obj) (cs : objs)
  | Str (id : Z) (val tail : bytes) (cs : objs).

Scheme obj_mind := Induction for obj Sort Prop with objs_mind := Induction for objs Sort Prop.
Combined Scheme obj_objs_ind from obj_mind, objs_mind.

Definition obj_id (t : obj) : Z := let 'Obj id _ _ _ _ := t in id.
Definition obj_mi (t : obj) : minfo := let 'Obj _ mi _ _ _ := t in mi.
Definition obj_body (t : obj) : bytes := let 'Obj _ _ b _ _ := t in b.
Definition obj_cs (t : obj) : objs := let 'Obj _ _ _ cs _ := t in cs.

Definition wrap (id : Z) (content : bytes) : bytes :=
  le_split 8 id ++ le_split 8 (wrapperHeader + glen content) ++ content.
Definition pad (tl : Z) : bytes := make (align8 tl - tl).

(** A child starts at the next multiple of 8 from the start of its parent, [tl]
    being where the last one ended. *)
Fixpoint ser (t : obj) : bytes :=
  match t with Obj id mi body cs extra => wrap id (body ++ ser_cs (wrapperHeader + mi_size mi) cs ++ extra) end
with ser_cs (tl : Z) (cs : objs) : bytes :=
  match cs with
  | End => []
  | Null cs | Ref _ cs => ser_cs tl cs
  | Sub t cs => pad tl ++ ser t ++ ser_cs (align8 tl + glen (ser t)) cs
  | Str id val tail cs => pad tl ++ wrap id (val ++ tail) ++ ser_cs (align8 tl + (wrapperHeader + glen (val ++ tail))) cs
  end.

(** The ids written, objects and strings. *)
Fixpoint ids (t : obj) : gset Z :=
  match t with Obj id _ _ cs _ => {[id]} ∪ ids_cs cs end
with ids_cs (cs : objs) : gset Z :=
  match cs with
  | End => ∅
  | Null cs | Ref _ cs => ids_cs cs
  | Sub t cs => ids t ∪ ids_cs cs
  | Str id _ _ cs => {[id]} ∪ ids_cs cs
  end.
Fixpoint depth (t : obj) : nat :=
  match t with Obj _ _ _ cs _ => S (depth_cs cs) end
with depth_cs (cs : objs) : nat :=
  match cs with
  | End => 0
  | Null cs | Ref _ cs | Str _ _ _ cs => depth_cs cs
  | Sub t cs => Nat.max (depth t) (depth_cs cs)
  end.

(** A well-formed graph, after the ids [known]: ids are new, at most 64 bits
    and not 0; the block has the descriptor's size and its pointers hold the
    ids; a wrapper is at most the protocol's maximum. *)
Definition valid_id (id : Z) : Prop := 0 < id < 2 ^ 64.
Definition wf_str (body : bytes) (f : mfield) (val tail : bytes) : Prop :=
  match f_kind f with
  | kPtr => False
  | kStr => Forall (fun c => c <> 0) val /\ head tail = Some 0
  | kFstr => le_at 4 body (f_lenOff f) = glen val
  end.
Fixpoint wf_obj (known : gset Z) (t : obj) : Prop :=
  match t with
  | Obj id mi body cs extra =>
      valid_id id /\ id ∉ known /\ glen body = mi_size mi /\ glen (ser t) <= hmsgMaxSize /\
      wf_objs ({[id]} ∪ known) body (mi_fields mi) cs
  end
with wf_objs (known : gset Z) (body : bytes) (fs : list mfield) (cs : objs) : Prop :=
  match fs, cs with
  | [], End => True
  | f :: fs, Null cs => le_at 8 body (f_off f) = 0 /\ wf_objs known body fs cs
  | f :: fs, Ref id cs =>
      f_kind f = kPtr /\ valid_id id /\ id ∈ known /\ le_at 8 body (f_off f) = id /\ wf_objs known body fs cs
  | f :: fs, Sub t cs =>
      f_kind f = kPtr /\ f_mi f = obj_mi t /\ le_at 8 body (f_off f) = obj_id t /\ wf_obj known t /\
      wf_objs (ids t ∪ known) body fs cs
  | f :: fs, Str id val tail cs =>
      valid_id id /\ id ∉ known /\ le_at 8 body (f_off f) = id /\ wf_str body f val tail /\
      wf_objs ({[id]} ∪ known) body fs cs
  | _, _ => False
  end.

(** ** What a decoded node stands for *)

(** Node [c] of [g], and what it points to, is the object; the nodes are at
    [lo] or later. *)
Fixpoint rep (lo : nat) (g : graph) (c : nat) (t : obj) : Prop :=
  match t with
  | Obj id mi body cs _ =>
      exists n, heap g !! c = Some n /\ (lo <= c)%nat /\ n_mi n = Some mi /\ n_body n = body /\ seen g !! id = Some c /\
        rep_cs (S c) g n (mi_fields mi) cs
  end
with rep_cs (lo : nat) (g : graph) (n : node) (fs : list mfield) (cs : objs) : Prop :=
  match fs, cs with
  | f :: fs, Null cs => n_ptrs n !! f_off f = None /\ n_strs n !! f_off f = None /\ rep_cs lo g n fs cs
  | f :: fs, Ref id cs => (exists c, n_ptrs n !! f_off f = Some c /\ seen g !! id = Some c) /\ rep_cs lo g n fs cs
  | f :: fs, Sub t cs => (exists c, n_ptrs n !! f_off f = Some c /\ rep lo g c t) /\ rep_cs lo g n fs cs
  | f :: fs, Str _ val _ cs => n_strs n !! f_off f = Some val /\ rep_cs lo g n fs cs
  | _, _ => True
  end.

(** [g'] has the nodes of [g] from [lo] on, and its ids. *)
Definition keeps (lo : nat) (g g' : graph) : Prop :=
  (forall i n, (lo <= i)%nat -> heap g !! i = Some n -> heap g' !! i = Some n) /\ seen g ⊆ seen g'.

Lemma rep_mono :
  (forall t lo lo' g g' c, rep lo g c t -> keeps lo g g' -> (lo' <= lo)%nat -> rep lo' g' c t) /\
  (forall cs lo lo' g g' n fs, rep_cs lo g n fs cs -> keeps lo g g' -> (lo' <= lo)%nat -> rep_cs lo' g' n fs cs).
Proof.
  apply obj_objs_ind; cbn [rep rep_cs].
  - intros id mi body cs IH extra lo lo' g g' c (n & Hn & Hlo & Hmi & Hb & Hs & Hr) Hk Hlo'. destruct Hk as [Hh Hseen].
    exists n. split_and!; [by apply Hh | lia | done | done | by eapply lookup_weaken |].
    eapply IH; [exact Hr| |lia]. split; [|done]. intros i m Hi. apply Hh. lia.
  - by intros lo lo' g g' n [|f fs].
  - intros cs IH lo lo' g g' n [|f fs]; naive_solver.
  - intros id cs IH lo lo' g g' n [|f fs]; [done|]. intros [(c & Hc & Hs) Hr] Hk Hlo. split; [|by eapply IH].
    exists c. split; [done|]. destruct Hk. by eapply lookup_weaken.
  - intros t IHt cs IH lo lo' g g' n [|f fs]; [done|]. intros [(c & Hc & Hs) Hr] Hk Hlo. split; [|by eapply IH].
    exists c. split; [done|]. by eapply IHt.
  - intros id val tail cs IH lo lo' g g' n [|f fs]; [done|]. intros [? ?] Hk Hlo. split; [done|]. by eapply IH.
Qed.
(** The strings and pointers of the node matter at the fields only. *)
Lemma rep_cs_node cs : forall lo g n n' fs, rep_cs lo g n fs cs ->
  (forall off, off ∈ f_off <$> fs -> n_ptrs n' !! off = n_ptrs n !! off /\ n_strs n' !! off = n_strs n !! off) ->
  rep_cs lo g n' fs cs.
Proof.
  induction cs; intros lo g n n' [|f fs]; cbn [rep_cs]; try done; intros Hr Hn;
    pose proof (Hn (f_off f) ltac:(left)) as [Hp Hs]; rewrite ?Hp, ?Hs;
    (assert (forall off, off ∈ f_off <$> fs -> n_ptrs n' !! off = n_ptrs n !! off /\ n_strs n' !! off = n_strs n !! off)
      as Hn' by (intros; apply Hn; by right)); naive_solver.
Qed.

(** ** Reading the pieces *)

Lemma align8_ge n : n <= align8 n.
Proof.
  unfold align8, alignTo. change (8 - 1) with (Z.ones 3). rewrite Z.ldiff_ones_r, Z.shiftl_mul_pow2, Z.shiftr_div_pow2 by lia.
  change (Z.ones 3) with 7. pose proof (Z.div_mod (n + 8 - 1) (2 ^ 3) ltac:(lia)).
  pose proof (Z.mod_pos_bound (n + 8 - 1) (2 ^ 3) ltac:(lia)). lia.
Qed.
Lemma glen_pad tl : glen (pad tl) = align8 tl - tl.
Proof. unfold pad. apply glen_make. pose proof (align8_ge tl). lia. Qed.
Lemma glen_wrap id content : glen (wrap id content) = wrapperHeader + glen content.
Proof. unfold wrap, wrapperHeader. len_lia. Qed.
#[export] Hint Rewrite glen_pad glen_wrap : glen.

Lemma wrapperSize_wrap id content pre post buf :
  0 <= id < 2 ^ 64 -> glen (wrap id content) <= hmsgMaxSize -> buf = pre ++ wrap id content ++ post ->
  wrapperSize buf (glen pre) = ok (id, glen (wrap id content)).
Proof.
  intros Hid Hsz ->. rewrite glen_wrap in *. unfold wrapperSize, wrapperHeader in *. pose proof (glen_nonneg content).
  rewrite decide_False by (unfold wrap; len_lia). rewrite !LE64_ok by (unfold wrap; len_lia).
  assert (le_at 8 (pre ++ wrap id content ++ post) (glen pre) = id) as ->.
  { replace (glen pre) with (glen pre + 0) by lia. rewrite le_at_app by lia. unfold wrap. rewrite <- !app_assoc.
    by apply le_at_split. }
  assert (le_at 8 (pre ++ wrap id content ++ post) (glen pre + 8) = 16 + glen content) as ->.
  { rewrite le_at_app by lia. unfold wrap. rewrite <- !app_assoc, le_at_skip by lia.
    unfold hmsgMaxSize, wrapperHeader in *. apply le_at_split; [|lia]. change (256 ^ Z.of_nat 8) with (2 ^ 64). lia. }
  cbn -[wrap decide ok Z.add]. rewrite !decide_False; [done | | lia | lia]. unfold wrap. len_lia.
Qed.
Lemma wrap_content id content pre post buf :
  buf = pre ++ wrap id content ++ post ->
  slice buf (glen pre + wrapperHeader) (glen pre + glen (wrap id content)) = Some content.
Proof.
  intros ->. rewrite glen_wrap. unfold wrapperHeader. pose proof (glen_nonneg content). pose proof (glen_nonneg pre).
  pose proof (glen_nonneg post). rewrite slice_ok; [|lia|rewrite !glen_app, glen_wrap; unfold wrapperHeader; lia].
  f_equal. eapply (slice_mid (pre ++ le_split 8 id ++ le_split 8 (16 + glen content)) content post); [len_lia | len_lia |].
  unfold wrap, wrapperHeader. by rewrite <- !app_assoc.
Qed.
Lemma c_string_app val tail : Forall (fun c => c <> 0) val -> head tail = Some 0 -> c_string (val ++ tail) = val.
Proof.
  intros Hv Ht. induction Hv as [|c val Hc _ IH]; cbn.
  - destruct tail; cbn in Ht; [done|]. simplify_eq. cbn. done.
  - rewrite decide_False by done. by rewrite IH.
Qed.
Lemma decodeString_wrap id val tail pre post buf flen g :
  valid_id id -> glen (wrap id (val ++ tail)) <= hmsgMaxSize -> buf = pre ++ wrap id (val ++ tail) ++ post ->
  (flen = -1 /\ Forall (fun c => c <> 0) val /\ head tail = Some 0) \/ flen = glen val ->
  decodeString buf (glen pre) flen g = ok (val, glen (wrap id (val ++ tail)), (alloc id (str_node val) g).2).
Proof.
  intros Hid Hsz Hbuf Hf. unfold valid_id in Hid. unfold decodeString.
  rewrite (wrapperSize_wrap id (val ++ tail) pre post) by (done || lia). cbn -[wrap decide alloc].
  rewrite (wrap_content id (val ++ tail) pre post) by done. cbn -[wrap decide alloc].
  destruct Hf as [(-> & Hv & Ht) | ->].
  - rewrite decide_True by lia. by rewrite c_string_app.
  - pose proof (glen_nonneg val). rewrite decide_False by lia. rewrite decide_False by len_lia.
    assert (slice (val ++ tail) 0 (glen val) = Some val) as ->; [|done].
    rewrite slice_ok by len_lia. f_equal. by apply (slice_mid [] val tail).
Qed.

(** ** Decoding a serialized graph *)

Definition field_ok (mi : minfo) (f : mfield) : Prop :=
  0 <= f_off f /\ f_off f + 8 <= mi_size mi /\ 0 <= f_lenOff f /\ f_lenOff f + 4 <= mi_size mi.
Lemma fields_ok mi : Forall (field_ok mi) (mi_fields mi) /\ NoDup (f_off <$> mi_fields mi).
Proof. destruct mi; (split; [repeat first [apply Forall_cons_2 | apply Forall_nil_2]; split_and!; by vm_compute
                                  | refine (bool_decide_unpack _ _); reflexivity]). Qed.
Lemma le64_ok body off : 0 <= off -> off + 8 <= glen body -> le64 body off = Some (Some (le_at 8 body off)).
Proof. intros. unfold le64. rewrite decide_False by lia. by rewrite LE64_ok by lia. Qed.
Lemma le32_ok body off : 0 <= off -> off + 4 <= glen body -> le32 body off = Some (Some (le_at 4 body off)).
Proof. intros. unfold le32. rewrite decide_False by lia. by rewrite LE32_ok by lia. Qed.
Lemma int32_small z : 0 <= z < 2 ^ 31 -> int32 z = z.
Proof. intros. unfold int32, uint32. rewrite Z.mod_small by lia. by rewrite decide_True by lia. Qed.

(** The nodes but [nid], and the ids, are kept. *)
Definition keeps_but (nid : nat) (g g' : graph) : Prop :=
  (forall i n, i <> nid -> heap g !! i = Some n -> heap g' !! i = Some n) /\ seen g ⊆ seen g'.
Lemma keeps_but_keeps nid lo g g' : (nid < lo)%nat -> keeps_but nid g g' -> keeps lo g g'.
Proof. intros Hlt [H ?]. split; [|done]. intros i n Hi. apply H. lia. Qed.
Lemma keeps_but_trans nid g1 g2 g3 : keeps_but nid g1 g2 -> keeps_but nid g2 g3 -> keeps_but nid g1 g3.
Proof. intros [H1 S1] [H2 S2]. split; [eauto | by etrans]. Qed.
Lemma keeps_keeps_but nid g g' : keeps 0 g g' -> keeps_but nid g g'.
Proof. intros [H ?]. split; [|done]. intros i n _. apply H. lia. Qed.

Lemma keeps_but_set_ptr nid off c g : keeps_but nid g (set_ptr nid off c g).
Proof. split; [|done]. intros i n Hi Hn. cbn. by rewrite list_lookup_alter_ne. Qed.
Lemma keeps_but_set_str nid off v g : keeps_but nid g (set_str nid off v g).
Proof. split; [|done]. intros i n Hi Hn. cbn. by rewrite list_lookup_alter_ne. Qed.
Lemma keeps_alloc orig n g : orig ∉ dom (seen g) -> keeps 0 g (alloc orig n g).2.
Proof.
  intros Ho. split; cbn; [|by apply insert_subseteq, not_elem_of_dom].
  intros i m _ Hi. by apply lookup_app_l_Some.
Qed.

(** The state after the loop over the fields [fs] of node [nid], [n] before. *)
Record fields_done (known : gset Z) (nid : nat) (g : graph) (n : node) (fs : list mfield) (cs : objs) (g' : graph) (n' : node) : Prop := {
  fd_node : heap g' !! nid = Some n';
  fd_mi : n_mi n' = n_mi n;
  fd_body : n_body n' = n_body n;
  fd_other off : off ∉ f_off <$> fs -> n_ptrs n' !! off = n_ptrs n !! off /\ n_strs n' !! off = n_strs n !! off;
  fd_rep : rep_cs (S nid) g' n' fs cs;
  fd_keeps : keeps_but nid g g';
  fd_len : (length (heap g) <= length (heap g'))%nat;
  fd_dom : dom (seen g') = ids_cs cs ∪ known }.

(** One field, from [g], [n] to [g1], [n1], before the others. *)
Lemma fields_cons known known1 nid g n f fs cs cs' g1 n1 g' n' :
  fields_done known1 nid g1 n1 fs cs g' n' -> f_off f ∉ f_off <$> fs ->
  n_mi n1 = n_mi n -> n_body n1 = n_body n ->
  (forall off, off <> f_off f -> n_ptrs n1 !! off = n_ptrs n !! off /\ n_strs n1 !! off = n_strs n !! off) ->
  keeps_but nid g g1 -> (length (heap g) <= length (heap g1))%nat -> ids_cs cs ∪ known1 = ids_cs cs' ∪ known ->
  (n_ptrs n' !! f_off f = n_ptrs n1 !! f_off f -> n_strs n' !! f_off f = n_strs n1 !! f_off f -> keeps_but nid g1 g' ->
    rep_cs (S nid) g' n' fs cs -> rep_cs (S nid) g' n' (f :: fs) cs') ->
  fields_done known nid g n (f :: fs) cs' g' n'.
Proof.
  intros [Hn Hmi Hb Ho Hr Hk Hl Hd] Hnf Hmi1 Hb1 Ho1 Hk1 Hl1 Hdom Hrep. split.
  - done.
  - congruence.
  - congruence.
  - intros off. rewrite fmap_cons, not_elem_of_cons. intros [Hne Hni].
    destruct (Ho off Hni) as [-> ->]. by apply Ho1.
  - destruct (Ho _ Hnf). by apply Hrep.
  - by eapply keeps_but_trans.
  - lia.
  - congruence.
Qed.

Lemma node_set_ptr nid off c g n : heap g !! nid = Some n ->
  heap (set_ptr nid off c g) !! nid = Some (mkNode (n_mi n) (n_body n) (<[off := c]> (n_ptrs n)) (n_strs n)).
Proof. intros H. cbn. by rewrite list_lookup_alter_eq, H. Qed.
Lemma node_set_str nid off v g n : heap g !! nid = Some n ->
  heap (set_str nid off v g) !! nid = Some (mkNode (n_mi n) (n_body n) (n_ptrs n) (<[off := v]> (n_strs n))).
Proof. intros H. cbn. by rewrite list_lookup_alter_eq, H. Qed.

(** The two claims of the induction, on objects and on lists of children. *)
Definition decodes (t : obj) : Prop := forall fuel known g buf pre post,
  wf_obj known t -> dom (seen g) = known -> (depth t <= fuel)%nat -> buf = pre ++ ser t ++ post ->
  exists g', decode fuel buf (glen pre) (obj_mi t) g = ok (length (heap g), glen (ser t), g') /\
    rep (length (heap g)) g' (length (heap g)) t /\ keeps 0 g g' /\ (length (heap g) < length (heap g'))%nat /\
    dom (seen g') = ids t ∪ known.
Definition decodes_cs (cs : objs) : Prop := forall fuel known g buf pre mid post size nid n mi body fs,
  wf_objs known body fs cs -> dom (seen g) = known -> (depth_cs cs <= fuel)%nat ->
  buf = pre ++ mid ++ ser_cs (glen mid) cs ++ post -> glen mid + glen (ser_cs (glen mid) cs) <= size <= hmsgMaxSize ->
  glen body = mi_size mi -> Forall (field_ok mi) fs -> NoDup (f_off <$> fs) ->
  heap g !! nid = Some n -> (forall off, off ∈ f_off <$> fs -> n_ptrs n !! off = None /\ n_strs n !! off = None) ->
  exists g' n', decode_fields (fun p mi g => decode fuel buf p mi g) buf (glen pre) size nid body fs (glen mid) g = ok g' /\
    fields_done known nid g n fs cs g' n'.

Lemma decodes_End : decodes_cs End.
Proof.
  intros fuel known g buf pre mid post size nid n mi body [|f fs] Hwf Hd Hf Hbuf Hsz Hb Hok Hnd Hn Hno; [|done].
  exists g, n. split; [done|]. split; try done. all: try (by split). cbn. rewrite Hd. set_solver.
Qed.
Lemma decodes_Null cs : decodes_cs cs -> decodes_cs (Null cs).
Proof.
  intros IH fuel known g buf pre mid post size nid n mi body [|f fs] Hwf Hd Hf Hbuf Hsz Hb Hok Hnd Hn Hno; [done|].
  destruct Hwf as [H0 Hwf]. apply Forall_cons in Hok as [Hf0 Hok]. unfold field_ok in Hf0.
  rewrite fmap_cons in Hnd. apply NoDup_cons in Hnd as [Hni Hnd]. cbn [decode_fields].
  rewrite le64_ok, H0 by lia. cbn -[decode_fields].
  destruct (IH fuel known g buf pre mid post size nid n mi body fs) as (g' & n' & Hr & HD); try done.
  { intros. apply Hno. by right. }
  exists g', n'. split; [exact Hr|]. eapply fields_cons; try done; try (by split).
  intros Hp Hs _ Hrep. destruct (Hno (f_off f)) as [Hp0 Hs0]; [by left|]. cbn. by rewrite Hp, Hs.
Qed.
Lemma decodes_Ref id cs : decodes_cs cs -> decodes_cs (Ref id cs).
Proof.
  intros IH fuel known g buf pre mid post size nid n mi body [|f fs] Hwf Hd Hf Hbuf Hsz Hb Hok Hnd Hn Hno; [done|].
  destruct Hwf as (Hkind & Hid & Hin & H0 & Hwf). apply Forall_cons in Hok as [Hf0 Hok]. unfold field_ok in Hf0.
  rewrite fmap_cons in Hnd. apply NoDup_cons in Hnd as [Hni Hnd]. cbn [decode_fields].
  rewrite le64_ok, H0 by lia. cbn -[decode_fields]. unfold valid_id in Hid. rewrite decide_False, Hkind by lia.
  rewrite <- Hd in Hin. apply elem_of_dom in Hin as [c Hc]. rewrite Hc.
  destruct (IH fuel known (set_ptr nid (f_off f) c g) buf pre mid post size nid _ mi body fs Hwf Hd Hf Hbuf Hsz Hb Hok Hnd
    (node_set_ptr _ _ _ _ _ Hn)) as (g' & n' & Hr & HD).
  { intros off Hoff. cbn. rewrite lookup_insert_ne by congruence. apply Hno. by right. }
  exists g', n'. split; [exact Hr|]. eapply fields_cons; try done.
  - intros off Hne. cbn. by rewrite lookup_insert_ne.
  - apply keeps_but_set_ptr.
  - cbn. by rewrite length_alter.
  - intros Hp _ [_ Hk] Hrep. cbn in Hp. rewrite lookup_insert_eq in Hp. cbn. split; [|done]. exists c. split; [done|].
    eapply lookup_weaken; [|exact Hk]. done.
Qed.

Lemma wf_obj_id known t : wf_obj known t -> valid_id (obj_id t) /\ obj_id t ∉ known.
Proof. destruct t. cbn. naive_solver. Qed.

Lemma decodes_Sub t cs : decodes t -> decodes_cs cs -> decodes_cs (Sub t cs).
Proof.
  intros IHt IH fuel known g buf pre mid post size nid n mi body [|f fs] Hwf Hd Hf Hbuf Hsz Hb Hok Hnd Hn Hno; [done|].
  destruct Hwf as (Hkind & Hmi & H0 & Ht & Hwf). destruct (wf_obj_id _ _ Ht) as [Hid Hnew].
  apply Forall_cons in Hok as [Hf0 Hok]. unfold field_ok in Hf0. rewrite fmap_cons in Hnd. apply NoDup_cons in Hnd as [Hni Hnd].
  cbn [depth_cs] in Hf. cbn [ser_cs] in Hbuf, Hsz. pose proof (align8_ge (glen mid)) as Ha.
  set (mid1 := mid ++ pad (glen mid)). assert (glen mid1 = align8 (glen mid)) as Hm1 by (unfold mid1; len_lia).
  set (mid2 := mid1 ++ ser t). assert (glen mid2 = align8 (glen mid) + glen (ser t)) as Hm2 by (unfold mid2; rewrite glen_app; lia).
  rewrite <- Hm2 in Hbuf, Hsz.
  destruct (IHt fuel known g buf (pre ++ mid1) (ser_cs (glen mid2) cs ++ post) Ht Hd) as (g1 & Hdec & Hrep1 & Hk1 & Hl1 & Hd1);
    [lia | rewrite Hbuf; unfold mid1; by rewrite <- !app_assoc |].
  cbn [decode_fields]. rewrite le64_ok, H0 by lia. cbn -[decode_fields]. unfold valid_id in Hid.
  rewrite decide_False, Hkind, Hmi by lia.
  assert (seen g !! obj_id t = None) as -> by (apply not_elem_of_dom; by rewrite Hd).
  rewrite glen_app, Hm1 in Hdec. rewrite Hdec. cbn -[decode_fields]. rewrite <- Hm2.
  rewrite !glen_app in Hsz. glen_pos. rewrite decide_False by (rewrite Hm2; len_lia).
  pose proof (proj1 Hk1 nid n (Nat.le_0_l _) Hn) as Hn1.
  pose proof (node_set_ptr _ (f_off f) (length (heap g)) _ _ Hn1) as Hn2.
  edestruct (IH fuel (ids t ∪ known) (set_ptr nid (f_off f) (length (heap g)) g1) buf pre mid2 post size)
    as (g' & n' & Hr & HD); [exact Hwf | exact Hd1 | lia | | | exact Hb | exact Hok | exact Hnd | exact Hn2 | |].
  { rewrite Hbuf. unfold mid2, mid1. by rewrite <- !app_assoc. }
  { len_lia. }
  { intros off Hoff. cbn. rewrite lookup_insert_ne by congruence. apply Hno. by right. }
  exists g', n'. split; [exact Hr|]. eapply fields_cons; try done.
  - intros off Hne. cbn. by rewrite lookup_insert_ne.
  - eapply keeps_but_trans; [by apply keeps_keeps_but | apply keeps_but_set_ptr].
  - cbn. rewrite length_alter. lia.
  - cbn. set_solver.
  - intros Hp _ Hk Hrep. cbn in Hp. rewrite lookup_insert_eq in Hp. split; [|done]. exists (length (heap g)). split; [done|].
    assert (nid < length (heap g))%nat by by eapply lookup_lt_Some.
    eapply (proj1 rep_mono); [exact Hrep1| |lia]. eapply (keeps_but_keeps nid); [lia|].
    eapply keeps_but_trans; [apply keeps_but_set_ptr | exact Hk].
Qed.
Lemma decodes_Str id val tail cs : decodes_cs cs -> decodes_cs (Str id val tail cs).
Proof.
  intros IH fuel known g buf pre mid post size nid n mi body [|f fs] Hwf Hd Hf Hbuf Hsz Hb Hok Hnd Hn Hno; [done|].
  destruct Hwf as (Hid & Hnew & H0 & Hstr & Hwf).
  apply Forall_cons in Hok as [Hf0 Hok]. unfold field_ok in Hf0. rewrite fmap_cons in Hnd. apply NoDup_cons in Hnd as [Hni Hnd].
  cbn [depth_cs] in Hf. cbn [ser_cs] in Hbuf, Hsz. rewrite <- (glen_wrap id) in Hbuf, Hsz. pose proof (align8_ge (glen mid)) as Ha.
  set (w := wrap id (val ++ tail)) in *.
  set (mid1 := mid ++ pad (glen mid)). assert (glen mid1 = align8 (glen mid)) as Hm1 by (unfold mid1; len_lia).
  set (mid2 := mid1 ++ w). assert (glen mid2 = align8 (glen mid) + glen w) as Hm2 by (unfold mid2; rewrite glen_app; lia).
  rewrite <- Hm2 in Hbuf, Hsz. rewrite !glen_app, glen_pad in Hsz. pose proof (glen_nonneg (ser_cs (glen mid2) cs)).
  pose proof (glen_nonneg mid). assert (glen w = 16 + glen val + glen tail) as Hw by (unfold w; rewrite glen_wrap, glen_app; unfold wrapperHeader; lia).
  pose proof (glen_nonneg val). pose proof (glen_nonneg tail).
  assert (forall flen, (flen = -1 /\ Forall (fun c => c <> 0) val /\ head tail = Some 0) \/ flen = glen val ->
    decodeString buf (glen pre + align8 (glen mid)) flen g = ok (val, glen w, (alloc id (str_node val) g).2)) as Hdec.
  { intros flen Hfl. rewrite <- Hm1, <- glen_app. eapply (decodeString_wrap id val tail _ (ser_cs (glen mid2) cs ++ post));
      [done | fold w; lia | | exact Hfl]. rewrite Hbuf. unfold mid1. by rewrite <- !app_assoc. }
  set (g1 := (alloc id (str_node val) g).2) in *.
  assert (keeps 0 g g1) as Hk1 by (apply keeps_alloc; by rewrite Hd).
  assert (dom (seen g1) = {[id]} ∪ known) as Hd1 by (unfold g1; cbn; by rewrite dom_insert_L, Hd).
  pose proof (proj1 Hk1 nid n (Nat.le_0_l _) Hn) as Hn1. pose proof (node_set_str _ (f_off f) val _ _ Hn1) as Hn2.
  edestruct (IH fuel ({[id]} ∪ known) (set_str nid (f_off f) val g1) buf pre mid2 post size)
    as (g' & n' & Hr & HD); [exact Hwf | exact Hd1 | lia | | | exact Hb | exact Hok | exact Hnd | exact Hn2 | |].
  { rewrite Hbuf. unfold mid2, mid1. by rewrite <- !app_assoc. }
  { lia. }
  { intros off Hoff. cbn. rewrite lookup_insert_ne by congruence. apply Hno. by right. }
  exists g', n'. split.
  - cbn [decode_fields]. rewrite le64_ok, H0 by lia. cbn -[decode_fields g1 w glen align8 Z.add]. unfold valid_id in Hid. rewrite decide_False by lia.
    rewrite Hm2 in Hr. unfold wf_str in Hstr. destruct (f_kind f); [done | |].
    + rewrite Hdec by auto. cbn -[decode_fields g1 w glen align8 Z.add]. rewrite decide_False by lia. exact Hr.
    + rewrite le32_ok by lia. cbn -[decode_fields g1 w glen align8 Z.add]. rewrite Hstr, int32_small by (unfold hmsgMaxSize in *; lia).
      rewrite Hdec by auto. cbn -[decode_fields g1 w glen align8 Z.add]. rewrite decide_False by lia. exact Hr.
  - eapply fields_cons; try done.
    + intros off Hne. cbn. by rewrite lookup_insert_ne.
    + eapply keeps_but_trans; [by apply keeps_keeps_but | apply keeps_but_set_str].
    + cbn. rewrite length_alter, length_app. lia.
    + cbn. set_solver.
    + intros _ Hs Hk Hrep. cbn in Hs. rewrite lookup_insert_eq in Hs. by split.
Qed.

Lemma decodes_Obj id mi body cs extra : decodes_cs cs -> decodes (Obj id mi body cs extra).
Proof.
  intros IH fuel known g buf pre post Hwf Hd Hf Hbuf. destruct Hwf as (Hid & Hnew & Hb & Hsz & Hwf).
  cbn [depth] in Hf. destruct fuel as [|fuel]; [lia|]. cbn [obj_mi ser] in *.
  set (content := body ++ ser_cs (wrapperHeader + mi_size mi) cs ++ extra) in *. cbn [decode].
  unfold valid_id in Hid. rewrite (wrapperSize_wrap id content pre post) by (done || lia).
  pose proof (glen_nonneg pre). pose proof (glen_nonneg post). pose proof (glen_nonneg extra).
  set (sc := ser_cs (wrapperHeader + mi_size mi) cs) in *. pose proof (glen_nonneg sc).
  assert (0 < mi_size mi) by (by destruct mi).
  assert (glen (wrap id content) = 16 + mi_size mi + glen sc + glen extra) as Hw
    by (rewrite glen_wrap; unfold content, wrapperHeader; len_lia).
  assert (glen buf = glen pre + glen (wrap id content) + glen post) as Hbl by (rewrite Hbuf, !glen_app; lia).
  cbn -[decode_fields wrap mi_size mi_fields wrapperHeader glen Z.add]. rewrite decide_False by (unfold wrapperHeader; lia).
  set (hd := le_split 8 id ++ le_split 8 (wrapperHeader + glen content)).
  assert (buf = (pre ++ hd) ++ body ++ (sc ++ extra ++ post)) as Hbuf1
    by (rewrite Hbuf; unfold wrap, hd, content; by rewrite <- !app_assoc).
  assert (slice buf (glen pre + wrapperHeader) (glen pre + wrapperHeader + mi_size mi) = Some body) as ->.
  { rewrite slice_ok by (unfold wrapperHeader; lia). f_equal. eapply slice_mid; [|lia|exact Hbuf1]. unfold hd, wrapperHeader. len_lia. }
  cbn -[decode_fields wrap mi_size mi_fields wrapperHeader glen Z.add]. set (g0 := mkGraph _ _).
  assert (g0 = (alloc id (new_node mi body) g).2) as Hg0 by done.
  destruct (IH fuel ({[id]} ∪ known) g0 buf pre (hd ++ body) (extra ++ post) (glen (wrap id content)) (length (heap g))
    (new_node mi body) mi body (mi_fields mi)) as (g' & n' & Hr & HD); try done.
  - unfold g0. cbn. by rewrite dom_insert_L, Hd.
  - lia.
  - assert (glen (hd ++ body) = wrapperHeader + mi_size mi) as -> by (unfold hd, wrapperHeader; len_lia). fold sc.
    rewrite Hbuf1. by rewrite <- !app_assoc.
  - assert (glen (hd ++ body) = wrapperHeader + mi_size mi) as -> by (unfold hd, wrapperHeader; len_lia). fold sc. unfold wrapperHeader. lia.
  - apply fields_ok.
  - apply fields_ok.
  - unfold g0. cbn. by rewrite lookup_app_r, Nat.sub_diag by lia.
  - assert (glen (hd ++ body) = wrapperHeader + mi_size mi) as E by (unfold hd, wrapperHeader; len_lia). rewrite E in Hr. rewrite Hr.
    cbn -[wrap]. exists g'. destruct HD as [HDn HDmi HDb _ HDr [HDk HDs] HDl HDd].
    assert (keeps 0 g g0) as [Hk0 Hs0] by (rewrite Hg0; apply keeps_alloc; by rewrite Hd).
    split_and!; [done | | | | cbn; set_solver].
    + exists n'. split_and!; [done | lia | done | done | | exact HDr].
      eapply lookup_weaken; [|exact HDs]. unfold g0. cbn. by rewrite lookup_insert_eq.
    + split; [|by etrans]. intros i n Hi Hn. apply HDk; [apply lookup_lt_Some in Hn; lia|]. by apply Hk0.
    + unfold g0 in HDl. cbn in HDl. rewrite length_app in HDl. cbn in HDl. lia.
Qed.

Lemma decode_all : (forall t, decodes t) /\ (forall cs, decodes_cs cs).
Proof.
  apply obj_objs_ind; eauto using decodes_Obj, decodes_End, decodes_Null, decodes_Ref, decodes_Sub, decodes_Str.
Qed.
