(* ===== verification/LldpRead.v ===== *)
(** What the parsers of [Lldp] return on messages in [LldpMarshal]'s format: the
    interface names, and the neighbours with their shared chassis and the
    preferred management address. *)

From stdpp Require Import gmap.
From S2P Require Import Prelude NetText Lldp LldpMarshal.

(** ** Reading an object *)

Definition cs_tail (cs : objs) : objs :=
  match cs with End => End | Null cs | Ref _ cs | Sub _ cs | Str _ _ _ cs => cs end.
Definition str_of (cs : objs) : bytes := match cs with Str _ v _ _ => v | _ => [] end.
(** The list that starts at an object, along its first field, and the list a
    field points to. *)
Fixpoint chain (t : obj) : list obj :=
  match t with Obj _ _ _ cs _ => t :: match cs with Sub t' _ => chain t' | _ => [] end end.
Definition chain_of (cs : objs) : list obj := match cs with Sub t _ => chain t | _ => [] end.
(** The list ends in a null pointer. *)
Fixpoint linear (mi : minfo) (t : obj) : Prop :=
  match t with Obj _ mi' _ cs _ => mi' = mi /\ match cs with Sub t' _ => linear mi t' | Ref _ _ => False | _ => True end end.
Definition linear_of (mi : minfo) (cs : objs) : Prop :=
  match cs with Sub t _ => linear mi t | Ref _ _ => False | _ => True end.
(** The kinds of object that start with a pointer to the next one. *)
Definition listed (mi : minfo) : Prop := mi = miInterface \/ mi = miMgmt \/ mi = miPort.

(** The objects of a message. *)
Fixpoint subs (t : obj) : list obj :=
  match t with Obj _ _ _ cs _ => t :: subs_cs cs end
with subs_cs (cs : objs) : list obj :=
  match cs with
  | End => []
  | Null cs | Ref _ cs | Str _ _ _ cs => subs_cs cs
  | Sub t cs => subs t ++ subs_cs cs
  end.

(** [n] is the node of [t] in [g]. *)
Definition node_of (g : graph) (n : node) (t : obj) : Prop :=
  n_mi n = Some (obj_mi t) /\ n_body n = obj_body t /\ glen (obj_body t) = mi_size (obj_mi t) /\
  exists lo known, rep_cs lo g n (mi_fields (obj_mi t)) (obj_cs t) /\
    wf_objs known (obj_body t) (mi_fields (obj_mi t)) (obj_cs t).
Definition ptr_of (g : graph) (c : nat) (t : obj) : Prop := exists n, node_at g c = Some n /\ node_of g n t.

Lemma rep_ptr_of lo g c t known : rep lo g c t -> wf_obj known t -> ptr_of g c t.
Proof.
  destruct t as [id mi body cs extra]. cbn [rep wf_obj]. intros (n & Hn & _ & Hmi & Hb & _ & Hr) (_ & _ & Hl & _ & Hwf).
  exists n. split; [exact Hn|]. split_and!; [done | done | done |]. by eexists _, _.
Qed.

(** The field at the head of the fields left. *)
Lemma rep_str lo g n f fs cs known body :
  rep_cs lo g n (f :: fs) cs -> wf_objs known body (f :: fs) cs -> f_kind f <> kPtr -> str_at (f_off f) n = str_of cs.
Proof.
  intros Hr Hwf Hk. unfold str_at. destruct cs; cbn in *; try tauto; destruct_and?.
  - by replace (n_strs n !! f_off f) with (@None bytes).
  - by replace (n_strs n !! f_off f) with (Some val).
Qed.
Lemma rep_tail lo g n f fs cs known body :
  rep_cs lo g n (f :: fs) cs -> wf_objs known body (f :: fs) cs ->
  rep_cs lo g n fs (cs_tail cs) /\ exists known', wf_objs known' body fs (cs_tail cs).
Proof. intros Hr Hwf. destruct cs; cbn in *; destruct_and?; eauto; done. Qed.
Lemma rep_chain_head lo g n f fs cs known body :
  rep_cs lo g n (f :: fs) cs -> wf_objs known body (f :: fs) cs -> linear_of (f_mi f) cs -> f_kind f = kPtr ->
  match n_ptrs n !! f_off f with
  | None => chain_of cs = []
  | Some c => exists t, chain_of cs = chain t /\ linear (f_mi f) t /\ ptr_of g c t /\ exists cs', cs = Sub t cs'
  end.
Proof.
  intros Hr Hwf Hlin Hk. destruct cs; cbn in Hr, Hwf, Hlin; try done.
  - by destruct Hr as [-> _].
  - destruct Hr as [(c & -> & Hrep) _]. exists t. split_and!; [done | done | | by eexists].
    eapply rep_ptr_of; [exact Hrep|]. apply Hwf.
  - destruct Hwf as (_ & _ & _ & Hs & _). unfold wf_str in Hs. by rewrite Hk in Hs.
Qed.

Lemma linear_mi mi t : linear mi t -> obj_mi t = mi.
Proof. destruct t. cbn. tauto. Qed.
Lemma chain_depth t : (length (chain t) <= depth t)%nat.
Proof.
  revert t. fix IH 1. intros [id mi body cs extra]. cbn. destruct cs as [| | |t cs|]; cbn; try lia.
  specialize (IH t). lia.
Qed.
Lemma chain_unfold t : chain t = t :: chain_of (obj_cs t).
Proof. by destruct t as [? ? ? []]. Qed.
Lemma linear_unfold mi t : linear mi t <-> obj_mi t = mi /\ linear_of mi (obj_cs t).
Proof. by destruct t as [? ? ? []]. Qed.
Lemma depth_sub t t' cs : obj_cs t = Sub t' cs -> (depth t' < depth t)%nat.
Proof. destruct t. cbn. intros ->. cbn. lia. Qed.

(** A walk visits the nodes of the chain. *)
Lemma walk_chain mi g fuel : listed mi -> forall c t,
  ptr_of g c t -> linear mi t -> (length (chain t) <= fuel)%nat ->
  exists ns, walk fuel 0 (Some c) g = Some ns /\ Forall2 (node_of g) ns (chain t).
Proof.
  intros Hmi. induction fuel as [|fuel IH]; intros c t Hp Hlin Hlen; rewrite chain_unfold in Hlen; cbn [length] in Hlen; [lia|].
  destruct Hp as (n & Hn & Hof). cbn [walk]. rewrite Hn. cbn -[walk]. rewrite chain_unfold.
  apply linear_unfold in Hlin as [Hm Hlin]. pose proof Hof as (_ & _ & _ & lo & known & Hr & Hwf).
  assert (exists f fs, mi_fields (obj_mi t) = f :: fs /\ f_off f = 0 /\ f_mi f = mi /\ f_kind f = kPtr) as (f & fs & E & Hoff & Hfm & Hk).
  { rewrite Hm. destruct Hmi as [->|[->| ->]]; by eexists _, _. }
  rewrite E in Hr, Hwf. rewrite <- Hfm in Hlin.
  pose proof (rep_chain_head _ _ _ _ _ _ _ _ Hr Hwf Hlin Hk) as HH. rewrite Hoff in HH.
  destruct (n_ptrs n !! 0) as [c'|].
  - destruct HH as (t' & Ht' & Hlin' & Hp' & _). rewrite Hfm in Hlin'. rewrite Ht' in *.
    destruct (IH c' t' Hp' Hlin' ltac:(lia)) as (ns & -> & HF). eexists. split; [done|]. by constructor.
  - rewrite HH. exists [n]. split; [by destruct fuel|]. by constructor; [|constructor].
Qed.

(** ** The interface list *)

Definition iface_name (u : obj) : bytes := str_of (cs_tail (obj_cs u)).
Definition interfaces (t : obj) : list obj := chain_of (obj_cs t).

Lemma node_name g n u : node_of g n u -> obj_mi u = miInterface -> str_at offIfaceName n = iface_name u.
Proof.
  intros (_ & _ & _ & lo & known & Hr & Hwf) Hm. rewrite Hm in Hr, Hwf.
  destruct (rep_tail _ _ _ _ _ _ _ _ Hr Hwf) as [Hr1 [k1 Hwf1]]. by apply (rep_str _ _ _ _ _ _ _ _ Hr1 Hwf1).
Qed.
Lemma chain_mi mi t : linear mi t -> Forall (fun u => obj_mi u = mi) (chain t).
Proof.
  revert t. fix IH 1. intros [id mi' body cs extra]. cbn. intros [-> Hlin].
  apply Forall_cons_2; [done|]. destruct cs as [| | |t cs|]; try by apply Forall_nil. by apply IH.
Qed.

(** An interface list in lldpd's format is read back: whatever ids the
    server chose, whatever follows in the payload and whatever trailing fields
    the client does not know, the names are those of the list, in its order. *)
Theorem ParseInterfaces_reads (t : obj) (post : bytes)
    (Hmi : obj_mi t = miInterfaceList) (Hwf : wf_obj ∅ t) (Hd : (depth t <= depth0)%nat)
    (Hlin : linear_of miInterface (obj_cs t)) :
  ParseInterfaces (ser t ++ post) = ok (map iface_name (interfaces t)).
Proof.
  destruct (proj1 decode_all t depth0 ∅ empty_graph (ser t ++ post) [] post) as (g & Hdec & Hrep & _ & _ & _); try done.
  unfold ParseInterfaces. rewrite decide_False.
  2:{ destruct t as [id mi body cs extra]. cbn [ser]. rewrite glen_app, glen_wrap. glen_pos. lia. }
  rewrite Hmi in Hdec. change (glen []) with 0 in Hdec. rewrite Hdec. cbn -[walk depth0 map].
  destruct (rep_ptr_of _ _ _ _ _ Hrep Hwf) as (n & Hn & _ & _ & _ & lo & known & Hr & Hwf'). cbn in Hn. rewrite Hn.
  cbn -[walk depth0 map]. rewrite Hmi in Hr, Hwf'. pose proof (rep_chain_head _ _ _ _ _ _ _ _ Hr Hwf' Hlin eq_refl) as HH.
  change (f_off (ptr_field 0 miInterface)) with 0 in HH. unfold interfaces, offIfaceNext.
  destruct (n_ptrs n !! 0) as [c|].
  - destruct HH as (u & -> & Hl & Hp & cs' & Hcs). pose proof (depth_sub _ _ _ Hcs). pose proof (chain_depth u).
    destruct (walk_chain miInterface g depth0 ltac:(by left) c u Hp Hl ltac:(lia)) as (ns & -> & HF). cbn -[map depth0].
    unfold ok. do 2 f_equal. pose proof (chain_mi _ _ Hl) as Hall. clear -HF Hall.
    induction HF as [|n u' ns us Hnu HF IH]; [done|]. apply Forall_cons in Hall as [Hu Hall]. cbn.
    f_equal; [by eapply node_name | by apply IH].
  - rewrite HH. unfold depth0. cbn -[map Z.to_nat maxDepth Z.add]. destruct (Z.to_nat (maxDepth + 1)); done.
Qed.

(** ** Neighbours *)

(** The management address of a list: its first IPv4 address, or its first
    IPv6 one. *)
Definition mgmt_family (m : obj) : Z := int32 (le_at 4 (obj_body m) offMgmtFamily).
Definition mgmt_octets (n : nat) (m : obj) : bytes := take n (drop (Z.to_nat offMgmtAddr) (obj_body m)).
Definition mgmt_ip (l : list obj) : bytes :=
  match find (fun m => bool_decide (mgmt_family m = afIPv4)) l with
  | Some m => dotted (mgmt_octets 4 m)
  | None => match find (fun m => bool_decide (mgmt_family m = afIPv6)) l with Some m => IP_String (mgmt_octets 16 m) | None => [] end
  end.
(** The chassis of a port: the one that follows it, or an earlier one of the
    message [root] that it refers to. *)
Definition chassis_of (root u : obj) : option obj :=
  match cs_tail (obj_cs u) with
  | Sub ch _ => Some ch
  | Ref id _ => find (fun ch => bool_decide (obj_id ch = id)) (subs root)
  | _ => None
  end.
Definition child (n : nat) (t : obj) : objs := Nat.iter n cs_tail (obj_cs t).
Definition neighbor_of (root u : obj) : Neighbor :=
  let id := formatPortID (byte_at (obj_body u) offPortIDSubtype) (str_of (child 2 u)) in
  let descr := str_of (child 3 u) in
  match chassis_of root u with
  | None => mkNeighbor [] [] [] [] id descr
  | Some ch =>
      mkNeighbor [] (str_of (child 1 ch)) (formatChassisID (byte_at (obj_body ch) offChassisIDSubtype) (str_of (child 0 ch)))
        (mgmt_ip (chain_of (child 3 ch))) id descr
  end.
(** A port's chassis is one, and its list of addresses ends. *)
Definition port_ok (root u : obj) : Prop :=
  match cs_tail (obj_cs u) with
  | Null _ => True
  | _ => exists ch, chassis_of root u = Some ch /\ obj_mi ch = miChassis /\ linear_of miMgmt (child 3 ch) /\
           (length (chain_of (child 3 ch)) <= depth0)%nat
  end.

Lemma join_nil sep x l : x <> [] -> join sep (x :: l) <> [].
Proof. destruct l; cbn; [done|]. intros Hx [? _]%app_nil. done. Qed.
Lemma dotted_nonempty b : glen b = 4 -> dotted b <> [].
Proof.
  destruct b as [|x b]; [done|]. intros _. unfold dotted. rewrite fmap_cons. apply join_nil. unfold decimal.
  intros [_ [_ ?]%app_nil]%app_nil. done.
Qed.
Lemma hex_group_nonempty n : hex_group n <> [].
Proof. unfold hex_group. by intros [_ [_ [_ ?]%app_nil]%app_nil]%app_nil. Qed.
Lemma IP_String_nonempty b : glen b = 16 -> IP_String b <> [].
Proof.
  intros Hl. unfold IP_String. rewrite decide_False by lia. case_decide; [apply dotted_nonempty; len_lia|].
  unfold ipv6_string. destruct (longest_run _ _ _) as [i [|k]].
  - do 2 (destruct b as [|? b]; [done|]). cbn [groups]. rewrite fmap_cons. apply join_nil, hex_group_nonempty.
  - by intros [_ ?]%app_nil.
Qed.

Lemma formatMgmt_octets m : glen (obj_body m) = mi_size miMgmt ->
  formatMgmt (mgmt_family m) (mgmt_octets 16 m) = Some (
    if decide (mgmt_family m = afIPv4) then dotted (mgmt_octets 4 m)
    else if decide (mgmt_family m = afIPv6) then IP_String (mgmt_octets 16 m) else []).
Proof.
  intros Hl. cbn [mi_size] in Hl. assert (glen (mgmt_octets 16 m) = 16) as H16 by (unfold mgmt_octets, offMgmtAddr; len_lia).
  unfold formatMgmt. case_decide as H1.
  - rewrite decide_False by lia. rewrite slice_ok by lia. cbn -[IP_String take drop mgmt_octets]. f_equal.
    change (take (Z.to_nat (4 - 0)) _) with (take 4 (mgmt_octets 16 m)). unfold mgmt_octets at 1. rewrite take_take.
    unfold IP_String. rewrite decide_True; [done|]. unfold offMgmtAddr. len_lia.
  - case_decide; [|done]. rewrite decide_False by lia. rewrite slice_ok by lia. cbn -[IP_String take drop mgmt_octets].
    change (take (Z.to_nat (16 - 0)) _) with (take 16 (mgmt_octets 16 m)). unfold mgmt_octets at 1. by rewrite take_take.
Qed.
Lemma mgmt_loop g ns ms : Forall2 (node_of g) ns ms -> Forall (fun m => obj_mi m = miMgmt) ms -> forall acc,
  firstMgmtIP_loop ns acc = Some (match find (fun m => bool_decide (mgmt_family m = afIPv4)) ms with
    | Some m => dotted (mgmt_octets 4 m) | None => if decide (acc = []) then mgmt_ip ms else acc end).
Proof.
  induction 1 as [|n m ns ms Hn _ IH]; intros Hms acc; [cbn; by case_decide; subst|].
  apply Forall_cons in Hms as [Hm Hms]. destruct Hn as (Hmi & Hb & Hl & _). cbn [firstMgmtIP_loop].
  rewrite Hm in Hmi, Hl. rewrite Hb. pose proof (formatMgmt_octets m Hl) as HF. cbn [mi_size] in Hl.
  rewrite le32_ok by (unfold offMgmtFamily; lia). cbn -[firstMgmtIP_loop find mgmt_ip slice formatMgmt offMgmtFamily offMgmtAddr].
  rewrite decide_True by done. fold (mgmt_family m). rewrite decide_True by (unfold offMgmtAddr; lia).
  rewrite slice_ok by (unfold offMgmtAddr; lia). cbn -[firstMgmtIP_loop find mgmt_ip formatMgmt offMgmtFamily offMgmtAddr take drop].
  change (take _ _) with (mgmt_octets 16 m). rewrite HF. cbn -[firstMgmtIP_loop find mgmt_ip].
  cbn [find]. unfold mgmt_ip. cbn [find].
  assert (dotted (mgmt_octets 4 m) <> []) by (apply dotted_nonempty; unfold mgmt_octets, offMgmtAddr; len_lia).
  assert (IP_String (mgmt_octets 16 m) <> []) by (apply IP_String_nonempty; unfold mgmt_octets, offMgmtAddr; len_lia).
  destruct (decide (mgmt_family m = afIPv4)) as [E4|E4].
  - rewrite bool_decide_true by done. by rewrite decide_True.
  - rewrite bool_decide_false by done. destruct (decide (mgmt_family m = afIPv6)) as [E6|E6].
    + rewrite bool_decide_true by done. rewrite decide_True, IH by done.
      destruct (find _ ms); [done|]. destruct (decide (acc = [])); by rewrite ?decide_False.
    + rewrite bool_decide_false by done. rewrite decide_False, IH by auto. done.
Qed.

(** Every object of the message has its node, under its id. *)
Lemma rep_subs :
  (forall t lo g c known, rep lo g c t -> wf_obj known t ->
    forall u, u ∈ subs t -> exists c', seen g !! obj_id u = Some c' /\ ptr_of g c' u) /\
  (forall cs lo g n fs known body, rep_cs lo g n fs cs -> wf_objs known body fs cs ->
    forall u, u ∈ subs_cs cs -> exists c', seen g !! obj_id u = Some c' /\ ptr_of g c' u).
Proof.
  apply obj_objs_ind.
  - intros id mi body cs IH extra lo g c known Hrep Hwf u. cbn [subs]. rewrite elem_of_cons. intros [->|Hu].
    + exists c. split; [|by eapply rep_ptr_of]. cbn in Hrep. naive_solver.
    + cbn in Hrep, Hwf. destruct Hrep as (n & _ & _ & _ & _ & _ & Hr). eapply IH; [exact Hr | apply Hwf | done].
  - intros lo g n fs known body _ _ u Hu. by apply elem_of_nil in Hu.
  - intros cs IH lo g n [|f fs] known body; cbn; [done|]. naive_solver.
  - intros id cs IH lo g n [|f fs] known body; cbn; [done|]. naive_solver.
  - intros t IHt cs IH lo g n [|f fs] known body; cbn; [done|]. intros [(c & _ & Hr) Hrs] (_ & _ & _ & Ht & Hcs) u.
    rewrite elem_of_app. intros [Hu|Hu]; eauto.
  - intros id val tail cs IH lo g n [|f fs] known body; cbn; [done|]. naive_solver.
Qed.

Lemma subtype_node g n u off : node_of g n u -> 0 <= off < mi_size (obj_mi u) ->
  subtype_at off n = Some (byte_at (obj_body u) off).
Proof. intros (_ & Hb & Hl & _) Ho. unfold subtype_at. rewrite Hb, Hl, decide_True by lia. by apply index_ok; lia. Qed.

(** The chassis of a port is the node of [chassis_of]. *)
Lemma chassis_known root lo0 c0 g n u known :
  rep lo0 g c0 root -> wf_obj known root -> node_of g n u -> obj_mi u = miPort -> port_ok root u ->
  match n_ptrs n !! offPortChassis with
  | None => chassis_of root u = None
  | Some c => exists ch, chassis_of root u = Some ch /\ ptr_of g c ch /\ obj_mi ch = miChassis /\
                linear_of miMgmt (child 3 ch) /\ (length (chain_of (child 3 ch)) <= depth0)%nat
  end.
Proof.
  intros Hrep Hwf (_ & _ & _ & lo & k & Hr & Hw) Hm Hok. rewrite Hm in Hr, Hw.
  destruct (rep_tail _ _ _ _ _ _ _ _ Hr Hw) as [Hr1 [k1 Hw1]]. clear Hr Hw. unfold port_ok, chassis_of in *.
  destruct (cs_tail (obj_cs u)) as [|cs|id cs|t cs|id v tl cs]; cbn in Hr1, Hw1; [done | | | |].
  - by destruct Hr1 as [-> _].
  - destruct Hr1 as [(c & -> & Hs) _], Hok as (ch & Hf & Hrest). exists ch. split; [done|]. split; [|done].
    apply find_some in Hf as [Hin Hid]. apply bool_decide_eq_true in Hid. apply list_elem_of_In in Hin.
    destruct (proj1 rep_subs _ _ _ _ _ Hrep Hwf _ Hin) as (c' & Hs' & Hp). congruence.
  - destruct Hr1 as [(c & -> & Hs) _], Hok as (ch & [= <-] & Hrest). exists t. split; [done|]. split; [|done].
    eapply rep_ptr_of; [exact Hs | apply Hw1].
  - by destruct Hw1 as (_ & _ & _ & [] & _).
Qed.

Lemma neighbor_node root lo0 c0 g n u known :
  rep lo0 g c0 root -> wf_obj known root -> node_of g n u -> obj_mi u = miPort -> port_ok root u ->
  neighborFromPort n g = Some (neighbor_of root u).
Proof.
  intros Hrep Hwf Hn Hm Hok. pose proof (chassis_known root lo0 c0 g n u known Hrep Hwf Hn Hm Hok) as Hch.
  unfold neighborFromPort, neighbor_of. rewrite (subtype_node g n u) by (done || rewrite Hm; unfold offPortIDSubtype; cbn; lia).
  cbn -[formatPortID firstMgmtIP]. pose proof Hn as (_ & _ & _ & lo & k & Hr & Hw). rewrite Hm in Hr, Hw.
  destruct (rep_tail _ _ _ _ _ _ _ _ Hr Hw) as [Hr1 [k1 Hw1]]. destruct (rep_tail _ _ _ _ _ _ _ _ Hr1 Hw1) as [Hr2 [k2 Hw2]].
  destruct (rep_tail _ _ _ _ _ _ _ _ Hr2 Hw2) as [Hr3 [k3 Hw3]].
  pose proof (rep_str _ _ _ _ _ _ _ _ Hr2 Hw2 ltac:(done)) as Hid. pose proof (rep_str _ _ _ _ _ _ _ _ Hr3 Hw3 ltac:(done)) as Hdescr.
  cbn [f_off fstr_field str_field] in Hid, Hdescr. rewrite Hid, Hdescr.
  destruct (n_ptrs n !! offPortChassis) as [c|]; [|by rewrite Hch].
  destruct Hch as (ch & -> & (nc & Hnc & Hof) & Hmc & Hlin & Hlen). rewrite Hnc. cbn -[formatPortID formatChassisID firstMgmtIP].
  rewrite (subtype_node g nc ch) by (done || rewrite Hmc; unfold offChassisIDSubtype; cbn; lia).
  cbn -[formatPortID formatChassisID firstMgmtIP mgmt_ip]. clear Hr Hw Hr1 Hw1 Hr2 Hw2 Hr3 Hw3 Hid Hdescr.
  destruct Hof as (_ & _ & _ & lo' & k' & Hr & Hw). rewrite Hmc in Hr, Hw.
  destruct (rep_tail _ _ _ _ _ _ _ _ Hr Hw) as [Hr1 [k1' Hw1]]. destruct (rep_tail _ _ _ _ _ _ _ _ Hr1 Hw1) as [Hr2 [k2' Hw2]].
  destruct (rep_tail _ _ _ _ _ _ _ _ Hr2 Hw2) as [Hr3 [k3' Hw3]].
  pose proof (rep_str _ _ _ _ _ _ _ _ Hr Hw ltac:(done)) as Hcid. pose proof (rep_str _ _ _ _ _ _ _ _ Hr1 Hw1 ltac:(done)) as Hcn.
  cbn [f_off fstr_field str_field] in Hcid, Hcn. rewrite Hcid, Hcn.
  pose proof (rep_chain_head _ _ _ _ _ _ _ _ Hr3 Hw3 Hlin ltac:(done)) as HH. cbn [f_off ptr_field] in HH.
  assert (firstMgmtIP (n_ptrs nc !! offChassisMgmt) g = Some (mgmt_ip (chain_of (child 3 ch)))) as ->; [|done].
  unfold firstMgmtIP, offMgmtNext. destruct (n_ptrs nc !! offChassisMgmt) as [cm|].
  - destruct HH as (m & Hc & Hl & Hp & _). change (cs_tail (cs_tail (cs_tail (obj_cs ch)))) with (child 3 ch) in Hc.
    rewrite Hc in *. destruct (walk_chain miMgmt g depth0 ltac:(right; by left) cm m Hp Hl Hlen) as (ns & -> & HF).
    cbn -[firstMgmtIP_loop mgmt_ip]. rewrite (mgmt_loop _ _ _ HF (chain_mi _ _ Hl)). unfold mgmt_ip.
    rewrite decide_True by done. by destruct (find _ (chain m)).
  - change (cs_tail (cs_tail (cs_tail (obj_cs ch)))) with (child 3 ch) in HH. rewrite HH. by destruct depth0.
Qed.

(** ** The hardware reply

    The hardware's block [hw], whose size depends on lldpd's version, the local
    port's wrapper, and the list of remote ports if there are any. *)
Definition lport_at (hw : bytes) : Z := align8 (wrapperHeader + glen hw).
Definition hardware (hid : Z) (hw : bytes) (lid : Z) (lport : bytes) (ports : option obj) (extra : bytes) : bytes :=
  wrap hid (hw ++ pad (wrapperHeader + glen hw) ++ wrap lid lport ++
    match ports with Some t => pad (lport_at hw + glen (wrap lid lport)) ++ ser t ++ extra | None => [] end).
Definition ports_ok (t : obj) : Prop :=
  obj_mi t = miPort /\ wf_obj ∅ t /\ (depth t <= depth0)%nat /\ linear miPort t /\ Forall (port_ok t) (chain t).
Definition neighbors_of (ports : option obj) : list Neighbor :=
  match ports with Some t => map (neighbor_of t) (chain t) | None => [] end.

Lemma neighbors_chain g ns us root lo0 c0 known :
  rep lo0 g c0 root -> wf_obj known root -> Forall2 (node_of g) ns us ->
  Forall (fun u => obj_mi u = miPort) us -> Forall (port_ok root) us ->
  neighborsFromPorts ns g = Some (map (neighbor_of root) us).
Proof.
  intros Hrep Hwf. induction 1 as [|n u ns us Hn _ IH]; intros Hm Hok; [done|].
  apply Forall_cons in Hm as [Hu Hm]. apply Forall_cons in Hok as [Hp Hok]. cbn [neighborsFromPorts map].
  rewrite (neighbor_node root lo0 c0 g n u known) by done. cbn -[neighborsFromPorts]. by rewrite IH.
Qed.

(** The ports at their place in a payload. *)
Lemma decode_ports payload pre post t :
  ports_ok t -> payload = pre ++ ser t ++ post ->
  ('(first, _, g) ⇐ decode depth0 payload (glen pre) miPort empty_graph;
   l ← walk depth0 offPortNext (Some first) g; ns ← neighborsFromPorts l g; ok (A := list Neighbor) ns)
  = ok (map (neighbor_of t) (chain t)).
Proof.
  intros (Hm & Hwf & Hd & Hlin & Hok) Hbuf.
  destruct (proj1 decode_all t depth0 ∅ empty_graph payload pre post) as (g & Hdec & Hrep & _ & _ & _); try done.
  rewrite Hm in Hdec. rewrite Hdec. cbn -[walk depth0 map neighborsFromPorts]. pose proof (chain_depth t).
  destruct (walk_chain miPort g depth0 ltac:(right; by right) _ t (rep_ptr_of _ _ _ _ _ Hrep Hwf) Hlin ltac:(lia)) as (ns & Hw & HF).
  cbn in Hw. unfold offPortNext. rewrite Hw. cbn -[map neighborsFromPorts].
  by rewrite (neighbors_chain _ _ _ _ _ _ _ Hrep Hwf HF (chain_mi _ _ Hlin) Hok).
Qed.

(** A hardware reply in lldpd's format, under the layout of the server's
    version, is read back as its remote ports in order: each port's id and
    description, its chassis - its own or one shared with an earlier port by
    reference - with id and name, and the management address, an IPv4 one if
    the chassis has any. Without remote ports there is no neighbour. *)
Theorem ParseHardware_reads (hid lid : Z) (hw lport extra : bytes) (ports : option obj)
    (Hhid : valid_id hid) (Hlid : valid_id lid) (Hhw : 0 < glen hw)
    (Hsz : glen (hardware hid hw lid lport ports extra) <= hmsgMaxSize)
    (Hports : forall t, ports = Some t -> ports_ok t) :
  ParseHardware (hardware hid hw lid lport ports extra) (glen hw) = ok (neighbors_of ports).
Proof.
  set (payload := hardware hid hw lid lport ports extra) in *. unfold valid_id in *.
  set (rest := match ports with Some t => pad (lport_at hw + glen (wrap lid lport)) ++ ser t ++ extra | None => [] end).
  set (content := hw ++ pad (wrapperHeader + glen hw) ++ wrap lid lport ++ rest).
  assert (payload = [] ++ wrap hid content ++ []) as Hp0 by (by rewrite app_nil_r).
  set (pre := le_split 8 hid ++ le_split 8 (wrapperHeader + glen content) ++ hw ++ pad (wrapperHeader + glen hw)).
  assert (payload = pre ++ wrap lid lport ++ rest) as Hp1
    by (rewrite Hp0; unfold wrap at 1, content, pre; cbn [app]; rewrite app_nil_r; by rewrite <- !app_assoc).
  assert (glen payload = glen pre + glen (wrap lid lport) + glen rest) as Hlen by (rewrite Hp1, !glen_app; lia).
  pose proof (glen_nonneg rest). pose proof (glen_nonneg lport).
  assert (glen (wrap lid lport) = 16 + glen lport) as Hwl by (by rewrite glen_wrap).
  assert (glen pre = lport_at hw) as Hpre by (unfold pre, lport_at, wrapperHeader; len_lia).
  assert (16 + glen hw <= lport_at hw) as Hla by (apply align8_ge).
  unfold ParseHardware. rewrite decide_False by (unfold wrapperHeader; lia).
  assert (glen (wrap hid content) = glen payload) as Hw0 by (rewrite Hp0; cbn [app]; by rewrite app_nil_r).
  clearbody payload pre content.
  change 0 with (glen (@nil Z)) at 1. rewrite (wrapperSize_wrap hid content [] []) by (done || lia). rewrite Hw0.
  cbn -[decode wrapperSize walk neighborsFromPorts depth0 glen decide align8].
  rewrite !decide_False by (unfold wrapperHeader; lia). fold (lport_at hw). rewrite <- Hpre.
  rewrite (wrapperSize_wrap lid lport pre rest) by (done || lia).
  cbn -[decode walk neighborsFromPorts depth0 glen decide align8 wrap]. rewrite decide_False by lia.
  unfold rest in *. clear rest. destruct ports as [t|]; cbn [neighbors_of].
  - specialize (Hports t eq_refl). set (pre2 := pre ++ wrap lid lport ++ pad (lport_at hw + glen (wrap lid lport))).
    assert (glen pre2 = align8 (glen pre + glen (wrap lid lport))) as Hpre2 by (unfold pre2; rewrite <- Hpre; len_lia).
    rewrite decide_False.
    + rewrite <- Hpre2. apply (decode_ports payload pre2 extra t Hports). rewrite Hp1. unfold pre2. by rewrite <- !app_assoc.
    + rewrite !glen_app, glen_pad, <- Hpre in Hlen. pose proof (glen_nonneg extra).
      destruct t as [? ? ? ? ?]. cbn [ser] in Hlen. rewrite (glen_wrap id) in Hlen. glen_pos. unfold wrapperHeader in *. lia.
  - change (glen []) with 0 in Hlen. pose proof (align8_ge (glen pre + glen (wrap lid lport))).
    rewrite decide_True by (unfold wrapperHeader; lia). done.
Qed.

(** ** A message *)

Module LldpDemo.
Definition zeros (n : Z) : bytes := make n.
Definition iface_body (next name : Z) : bytes := le_split 8 next ++ zeros 8 ++ le_split 8 name.
Definition eth0 : bytes := [101; 116; 104; 48].
Definition lo : bytes := [108; 111].
(** Two interfaces; the second is written inside the first. *)
Definition ifs : obj :=
  Obj 1 miInterfaceList (le_split 8 2 ++ zeros 8)
    (Sub (Obj 2 miInterface (iface_body 3 5)
      (Sub (Obj 3 miInterface (iface_body 0 4) (Null (Str 4 lo [0] End)) []) (Str 5 eth0 [0] End)) []) End) [].
(** Two ports of one switch: the second port, written first, has the chassis,
    with an IPv6 and an IPv4 address, and the first refers to it. *)
Definition mgmt_body (next fam : Z) (addr : bytes) : bytes :=
  le_split 8 next ++ zeros 8 ++ le_split 4 fam ++ addr ++ zeros (36 - glen addr).
Definition chassis_body (sub id len name descr mgmt : Z) : bytes :=
  zeros 21 ++ [sub] ++ zeros 2 ++ le_split 8 id ++ le_split 4 len ++ zeros 4 ++ le_split 8 name ++ le_split 8 descr ++
  zeros 8 ++ le_split 8 mgmt ++ zeros 72.
Definition port_body (next chassis sub id len descr : Z) : bytes :=
  le_split 8 next ++ zeros 8 ++ le_split 8 chassis ++ zeros 40 ++ [sub] ++ zeros 7 ++ le_split 8 id ++ le_split 4 len ++ zeros 4 ++
  le_split 8 descr ++ zeros 280.
Definition v6 : bytes := [254; 128; 0; 0; 0; 0; 0; 0; 0; 0; 0; 0; 0; 0; 0; 1].
Definition switch : obj :=
  Obj 3 miChassis (chassis_body 4 4 6 5 0 6)
    (Str 4 [0; 27; 33; 170; 187; 204] [] (Str 5 [115; 119; 49] [0] (Null
      (Sub (Obj 6 miMgmt (mgmt_body 7 2 v6) (Sub (Obj 7 miMgmt (mgmt_body 0 1 [10; 0; 0; 1]) (Null End) []) End) []) End)))) [9; 9].
Definition ports : obj :=
  Obj 1 miPort (port_body 2 3 5 9 4 0)
    (Sub (Obj 2 miPort (port_body 0 3 7 8 2 0) (Null (Sub switch (Str 8 [103; 50] [] (Null End)))) [])
      (Ref 3 (Str 9 [103; 105; 48; 49] [] (Null End)))) [].
Definition neighbour (port : bytes) : Neighbor :=
  mkNeighbor [] [115; 119; 49] (macString [0; 27; 33; 170; 187; 204]) [49; 48; 46; 48; 46; 48; 46; 49] port [].
Definition reply : bytes := hardware 1 (zeros 640) 2 [1; 2; 3] (Some ports) [4; 5].

Ltac wf_step :=
  match goal with
  | |- _ /\ _ => split
  | |- True => exact I
  | |- valid_id _ => split; reflexivity
  | |- _ ∉ _ => refine (bool_decide_unpack _ _); vm_compute; exact I
  | |- _ ∈ _ => refine (bool_decide_unpack _ _); vm_compute; exact I
  | |- _ <= _ => vm_compute; discriminate
  | |- wf_str _ _ _ _ => unfold wf_str; cbn [f_kind fstr_field str_field ptr_field]
  | |- Forall _ _ => refine (bool_decide_unpack _ _); vm_compute; exact I
  | |- _ = _ => vm_compute; reflexivity
  end.
Lemma ifs_wf : wf_obj ∅ ifs.
Proof. cbn [ifs wf_obj wf_objs mi_fields]. repeat wf_step. Qed.
Lemma ports_wf : wf_obj ∅ ports.
Proof. cbn [ports switch wf_obj wf_objs mi_fields]. repeat wf_step. Qed.
Lemma le_depth0 n : Nat.leb n depth0 = true -> (n <= depth0)%nat.
Proof. apply Nat.leb_le. Qed.
Lemma ports_are_ok : ports_ok ports.
Proof.
  split_and!; [done | exact ports_wf | by apply le_depth0 | done |]. cbn [chain ports].
  repeat apply Forall_cons_2; [| |apply Forall_nil_2];
    (exists switch; split_and!; [vm_compute; reflexivity | done | done | by apply le_depth0]).
Qed.
End LldpDemo.

Lemma ParseInterfaces_reads_witness : ParseInterfaces (ser LldpDemo.ifs ++ [7; 7]) = ok [LldpDemo.eth0; LldpDemo.lo].
Proof.
  exact (ParseInterfaces_reads LldpDemo.ifs [7; 7] eq_refl LldpDemo.ifs_wf (LldpDemo.le_depth0 (depth LldpDemo.ifs) eq_refl) (conj eq_refl (conj eq_refl I))).
Defined.
Lemma ParseHardware_reads_witness :
  ParseHardware LldpDemo.reply 640
  = ok [LldpDemo.neighbour [103; 105; 48; 49]; LldpDemo.neighbour [103; 50]].
Proof.
  refine (eq_trans (ParseHardware_reads 1 2 (LldpDemo.zeros 640) [1; 2; 3] [4; 5] (Some LldpDemo.ports) _ _ _ _ _) _).
  - split; reflexivity.
  - split; reflexivity.
  - reflexivity.
  - vm_compute. discriminate.
  - intros t [= <-]. exact LldpDemo.ports_are_ok.
  - vm_compute. reflexivity.
Defined.

(** A string pointer never consults the ids seen: a name with the id of an
    earlier string, with no wrapper of its own, is not that string. *)
Example repeated_string_is_not_a_reference :
  ParseInterfaces (ser (Obj 1 miInterfaceList (le_split 8 2 ++ make 8)
    (Sub (Obj 2 miInterface (LldpDemo.iface_body 3 4)
      (Sub (Obj 3 miInterface (LldpDemo.iface_body 0 4) (Null (Str 4 LldpDemo.lo [0] End)) []) End) []) End) []))
  = fail ErrShortBuffer.
Proof. vm_compute. reflexivity. Qed.
