(* ===== verification/LldpSpec.v ===== *)
(** Specifications of [Lldp]: nothing a payload holds makes the decoder panic,
    and the walks are bounded; a graph serialized in lldpd's format is read
    back; the client's exchange with a server that answers each request. *)

From stdpp Require Import gmap.
From S2P Require Import Prelude NetText Lldp LldpMarshal LldpRead.

(** ** No panic

    [safe m Q]: no panic, and a value satisfies [Q]. *)
Definition safe {A} (m : go (A + lldp_err)) (Q : A -> Prop) : Prop :=
  match m with None => False | Some (inl a) => Q a | Some (inr _) => True end.

Lemma safe_ok {A} (a : A) (Q : A -> Prop) : Q a -> safe (ok a) Q.
Proof. done. Qed.
Lemma safe_fail {A} e (Q : A -> Prop) : safe (fail e) Q.
Proof. done. Qed.
Lemma safe_rbind {A B} (m : go (A + lldp_err)) (f : A -> go (B + lldp_err)) (P : A -> Prop) (Q : B -> Prop) :
  safe m P -> (forall a, P a -> safe (f a) Q) -> safe (rbind m f) Q.
Proof. intros Hm Hf. unfold rbind. destruct m as [[a | e]|]; cbn in *; auto. Qed.
Lemma safe_mono {A} (m : go (A + lldp_err)) (P Q : A -> Prop) : safe m P -> (forall a, P a -> Q a) -> safe m Q.
Proof. unfold safe. destruct m as [[a | e]|]; auto. Qed.
Lemma safe_total {A} (m : go (A + lldp_err)) Q : safe m Q -> exists r, m = Some r /\ forall a, r = inl a -> Q a.
Proof. unfold safe. destruct m as [[a | e]|]; intros H; [| |done]; eexists; split; eauto; naive_solver. Qed.
Create HintDb lldp.
#[export] Hint Resolve safe_ok safe_fail : lldp.

Lemma le64_total b off : exists r, le64 b off = Some r.
Proof. unfold le64. case_decide; [by eexists|]. rewrite LE64_ok by lia. by eexists. Qed.
Lemma le32_total b off : exists r, le32 b off = Some r.
Proof. unfold le32. case_decide; [by eexists|]. rewrite LE32_ok by lia. by eexists. Qed.

Lemma wrapperSize_safe buf pos :
  safe (wrapperSize buf pos) (fun '(orig, sz) => 0 <= pos /\ 16 <= sz <= hmsgMaxSize /\ pos + sz <= glen buf).
Proof.
  unfold wrapperSize, wrapperHeader. case_decide; [apply safe_fail|]. rewrite !LE64_ok by lia. cbn -[safe].
  repeat (case_decide; [apply safe_fail|]). apply safe_ok. lia.
Qed.

(** Every pointer of a graph is a node of its heap. *)
Definition wf_graph (g : graph) : Prop :=
  map_Forall (fun _ c => (c < length (heap g))%nat) (seen g) /\
  Forall (fun n => map_Forall (fun _ c => (c < length (heap g))%nat) (n_ptrs n)) (heap g).
(** [g'] is [g] with more nodes. *)
Definition grown (g g' : graph) : Prop := wf_graph g' /\ (length (heap g) <= length (heap g'))%nat.

Lemma heap_grown_refl g : wf_graph g -> grown g g.
Proof. split; [done | lia]. Qed.
Lemma heap_grown_trans g1 g2 g3 : grown g1 g2 -> grown g2 g3 -> grown g1 g3.
Proof. intros [_ H1] [Hw H2]. split; [done | lia]. Qed.
#[export] Hint Resolve heap_grown_refl heap_grown_trans : lldp.

Lemma alloc_grown orig n g nid g' :
  wf_graph g -> n_ptrs n = ∅ -> alloc orig n g = (nid, g') -> grown g g' /\ (nid < length (heap g'))%nat.
Proof.
  intros [Hs Hh] Hn [= <- <-]. unfold grown, wf_graph. cbn. rewrite length_app. cbn. split_and!; [| |lia|lia].
  - apply map_Forall_insert_2; [lia|]. eapply map_Forall_impl; [done|]. cbn. lia.
  - apply Forall_app. split.
    + eapply Forall_impl; [done|]. cbn. intros x Hx. eapply map_Forall_impl; [done|]. cbn. lia.
    + apply Forall_singleton. rewrite Hn. apply map_Forall_empty.
Qed.
Lemma alter_wf f nid (h : list node) k :
  Forall (fun n => map_Forall (fun _ c => (c < k)%nat) (n_ptrs n)) h ->
  (forall n, map_Forall (fun _ c => (c < k)%nat) (n_ptrs n) -> map_Forall (fun _ c => (c < k)%nat) (n_ptrs (f n))) ->
  Forall (fun n => map_Forall (fun _ c => (c < k)%nat) (n_ptrs n)) (alter f nid h).
Proof. intros Hh Hf. apply Forall_alter; auto. Qed.
Lemma set_ptr_grown nid off c g : wf_graph g -> (c < length (heap g))%nat -> grown g (set_ptr nid off c g).
Proof.
  intros [Hs Hh] Hc. unfold grown, wf_graph. cbn. rewrite length_alter. split_and!; [done| |lia].
  apply alter_wf; [done|]. intros n Hn. cbn. by apply map_Forall_insert_2.
Qed.
Lemma set_str_grown nid off v g : wf_graph g -> grown g (set_str nid off v g).
Proof.
  intros [Hs Hh]. unfold grown, wf_graph. cbn. rewrite length_alter. split_and!; [done| |lia]. by apply alter_wf.
Qed.

Lemma decodeString_safe buf pos flen g :
  wf_graph g -> safe (decodeString buf pos flen g) (fun '(_, _, g') => grown g g').
Proof.
  intros Hg. unfold decodeString. eapply safe_rbind; [apply wrapperSize_safe|]. intros [orig size] (? & ? & ?).
  unfold wrapperHeader in *. rewrite slice_ok by lia. cbn -[safe alloc].
  assert (forall v, grown g (alloc orig (str_node v) g).2) as HA.
  { intros v. destruct (alloc orig (str_node v) g) as [nid g'] eqn:E. by edestruct alloc_grown as [? _]; [..|exact E|]. }
  case_decide; [by apply safe_ok|]. case_decide; [apply safe_fail|].
  rewrite slice_ok by lia. by apply safe_ok.
Qed.

Lemma decode_fields_safe dec buf pos size nid body fs :
  (forall p mi g, wf_graph g -> safe (dec p mi g) (fun '(c, _, g') => grown g g' /\ (c < length (heap g'))%nat)) ->
  forall tl g, wf_graph g -> safe (decode_fields dec buf pos size nid body fs tl g) (grown g).
Proof.
  intros Hdec. induction fs as [|f fs IH]; intros tl g Hg; [by apply safe_ok, heap_grown_refl|].
  cbn [decode_fields]. destruct (le64_total body (f_off f)) as [[ptr|] ->]; cbn -[safe decode_fields]; [|done].
  case_decide; [by apply IH|].
  assert (forall (m : go (Z * graph + lldp_err)), safe m (fun '(_, g') => grown g g') ->
    safe (rbind m (fun '(tl, g) => if decide (size < tl) then fail ErrShortBuffer
      else decode_fields dec buf pos size nid body fs tl g)) (grown g)) as HC.
  { intros m Hm. eapply safe_rbind; [exact Hm|]. intros [tl' g'] Hg'. case_decide; [apply safe_fail|].
    eapply safe_mono; [apply IH, Hg'|]. eauto with lldp. }
  assert (forall p flen (tl' : Z), safe (rbind (decodeString buf p flen g) (fun '(val, childLen, g) =>
    ok (tl' + childLen, set_str nid (f_off f) val g))) (fun '(_, g') => grown g g')) as HS.
  { intros p flen tl'. eapply safe_rbind; [by apply decodeString_safe|]. intros [[v sz] g'] Hg'.
    apply safe_ok. eapply heap_grown_trans; [exact Hg'|]. apply set_str_grown, Hg'. }
  destruct (f_kind f).
  - destruct (seen g !! ptr) as [existing|] eqn:Hs.
    + destruct Hg as [Hseen Hh]. pose proof (Hseen _ _ Hs) as Hlt. cbn in Hlt.
      pose proof (set_ptr_grown nid (f_off f) existing g ltac:(done) Hlt) as HG.
      eapply safe_mono; [apply IH, HG|]. eauto with lldp.
    + apply HC. eapply safe_rbind; [by apply Hdec|]. intros [[c sz] g'] [Hg' Hc].
      apply safe_ok. eapply heap_grown_trans; [exact Hg'|]. by apply set_ptr_grown; [apply Hg'|].
  - apply HC, HS.
  - apply HC. destruct (le32_total body (f_lenOff f)) as [[l|] ->]; [|done]. apply HS.
Qed.

Lemma decode_safe fuel buf : forall pos mi g, wf_graph g ->
  safe (decode fuel buf pos mi g) (fun '(c, _, g') => grown g g' /\ (c < length (heap g'))%nat).
Proof.
  induction fuel as [|fuel IH]; intros pos mi g Hg; [done|]. cbn [decode].
  eapply safe_rbind; [apply wrapperSize_safe|]. intros [orig size] (? & ? & ?).
  unfold wrapperHeader in *. case_decide; [apply safe_fail|]. assert (0 < mi_size mi) by (by destruct mi).
  rewrite slice_ok by lia. cbn -[safe alloc decode_fields].
  destruct (alloc orig _ g) as [nid g'] eqn:E. edestruct alloc_grown as [Hgr Hnid]; [exact Hg| |exact E|]; [done|].
  eapply safe_rbind; [apply decode_fields_safe; [exact IH|apply Hgr]|]. intros g'' Hg''.
  apply safe_ok. split; [eauto with lldp|]. destruct Hg''. lia.
Qed.

Lemma empty_graph_wf : wf_graph empty_graph.
Proof. split; [apply map_Forall_empty | by apply Forall_nil]. Qed.
Lemma ptr_valid g n off c : wf_graph g -> n ∈ heap g -> n_ptrs n !! off = Some c -> (c < length (heap g))%nat.
Proof. intros [_ Hh] Hn. by eapply Forall_forall in Hh; [apply (Hh off c)|]. Qed.
Lemma node_at_total g nid : (nid < length (heap g))%nat -> exists n, node_at g nid = Some n /\ n ∈ heap g.
Proof. intros H. destruct (lookup_lt_is_Some_2 _ _ H) as [n Hn]. exists n. split; [done|]. by eapply list_elem_of_lookup_2. Qed.

Lemma walk_total fuel off g : wf_graph g -> forall cur,
  (forall c, cur = Some c -> (c < length (heap g))%nat) ->
  exists l, walk fuel off cur g = Some l /\ (length l <= fuel)%nat /\ forall n, n ∈ l -> n ∈ heap g.
Proof.
  intros Hg. induction fuel as [|fuel IH]; intros cur Hc.
  { exists []. destruct cur; (split_and!; [done | cbn; lia | intros ? Hn; by apply elem_of_nil in Hn]). }
  destruct cur as [nid|]; cbn [walk].
  2:{ exists []. split_and!; [done | cbn; lia | intros ? Hn; by apply elem_of_nil in Hn]. }
  destruct (node_at_total g nid) as (nd & Hn & Hin); [by apply Hc|]. rewrite Hn. cbn -[walk].
  destruct (IH (n_ptrs nd !! off)) as (l & Hl & Hlen & Hall); [intros c; by apply ptr_valid|].
  rewrite Hl. exists (nd :: l). split_and!; [done | cbn; lia |]. intros n'. rewrite elem_of_cons. intros [-> | ?]; auto.
Qed.

Lemma formatMgmt_total family octets : exists r, formatMgmt family octets = Some r.
Proof. unfold formatMgmt. repeat case_decide; try (by eexists); rewrite slice_ok by lia; by eexists. Qed.
Lemma firstMgmtIP_loop_total l : forall acc, exists r, firstMgmtIP_loop l acc = Some r.
Proof.
  induction l as [|n l IH]; intros acc; [by eexists|]. cbn [firstMgmtIP_loop].
  destruct (le32_total (n_body n) offMgmtFamily) as [[fam|] ->]; cbn -[firstMgmtIP_loop formatMgmt]; [|apply IH].
  destruct (decide _) as [_|_]; [|apply IH].
  assert (exists o, (if decide (offMgmtAddr + 16 <= glen (n_body n)) then slice (n_body n) offMgmtAddr (offMgmtAddr + 16) else Some [])
    = Some o) as [o Ho].
  { case_decide; [|by eexists]. rewrite slice_ok by (unfold offMgmtAddr in *; lia). by eexists. }
  rewrite Ho. cbn -[firstMgmtIP_loop formatMgmt]. destruct (formatMgmt_total (int32 fam) o) as [ip ->]. cbn -[firstMgmtIP_loop].
  repeat case_decide; (by eexists) || apply IH.
Qed.
Lemma subtype_at_total off n : 0 <= off -> exists r, subtype_at off n = Some r.
Proof. intros. unfold subtype_at. case_decide; [|by eexists]. rewrite index_ok by lia. by eexists. Qed.

Lemma neighborFromPort_total g port : wf_graph g -> port ∈ heap g -> exists r, neighborFromPort port g = Some r.
Proof.
  intros Hg Hp. unfold neighborFromPort.
  destruct (subtype_at_total offPortIDSubtype port ltac:(unfold offPortIDSubtype; lia)) as [ps ->].
  cbn -[formatPortID subtype_at firstMgmtIP].
  destruct (n_ptrs port !! offPortChassis) as [c|] eqn:Hc; [|by eexists].
  destruct (node_at_total g c) as (ch & Hch & Hin); [by eapply ptr_valid|]. rewrite Hch.
  cbn -[formatPortID formatChassisID subtype_at firstMgmtIP].
  destruct (subtype_at_total offChassisIDSubtype ch ltac:(unfold offChassisIDSubtype; lia)) as [cs ->].
  cbn -[formatPortID formatChassisID firstMgmtIP]. unfold firstMgmtIP.
  destruct (walk_total depth0 offMgmtNext g Hg (n_ptrs ch !! offChassisMgmt)) as (l & -> & _ & _);
    [intros d; by apply ptr_valid|].
  cbn -[formatPortID formatChassisID firstMgmtIP_loop]. destruct (firstMgmtIP_loop_total l []) as [ip ->]. by eexists.
Qed.
Lemma neighborsFromPorts_total g l : wf_graph g -> (forall n, n ∈ l -> n ∈ heap g) ->
  exists ns, neighborsFromPorts l g = Some ns /\ length ns = length l.
Proof.
  intros Hg. induction l as [|p l IH]; intros Hl; [by exists []|]. cbn [neighborsFromPorts].
  destruct (neighborFromPort_total g p Hg) as [n ->]; [apply Hl, list_elem_of_here|]. cbn -[neighborsFromPorts].
  destruct IH as (ns & -> & Hns); [intros ? ?; by apply Hl, list_elem_of_further|]. exists (n :: ns). cbn. auto.
Qed.

Lemma ParseInterfaces_safe payload : safe (ParseInterfaces payload) (fun names => (length names <= depth0)%nat).
Proof.
  unfold ParseInterfaces. case_decide; [apply safe_fail|].
  eapply safe_rbind; [apply decode_safe, empty_graph_wf|]. intros [[root sz] g] [[Hg _] Hroot].
  destruct (node_at_total g root Hroot) as (n & -> & Hin). cbn -[safe walk depth0 map].
  destruct (walk_total depth0 offIfaceNext g Hg (n_ptrs n !! 0)) as (l & -> & Hlen & _); [intros c; by apply ptr_valid|].
  cbn -[safe depth0 map]. apply safe_ok. by rewrite List.length_map.
Qed.
Lemma ParseHardware_safe payload hwObj : safe (ParseHardware payload hwObj) (fun ns => (length ns <= depth0)%nat).
Proof.
  unfold ParseHardware. case_decide; [apply safe_fail|].
  eapply safe_rbind; [apply wrapperSize_safe|]. intros [o1 topSize] _. repeat (case_decide; [apply safe_fail|]).
  eapply safe_rbind; [apply wrapperSize_safe|]. intros [o2 lportSize] _. case_decide; [apply safe_fail|].
  case_decide; [apply safe_ok; cbn; lia|].
  eapply safe_rbind; [apply decode_safe, empty_graph_wf|]. intros [[first sz] g] [[Hg _] Hroot].
  destruct (walk_total depth0 offPortNext g Hg (Some first)) as (l & -> & Hlen & Hl); [naive_solver|].
  cbn -[safe depth0 neighborsFromPorts]. destruct (neighborsFromPorts_total g l Hg Hl) as (ns & -> & Hns).
  cbn -[safe depth0]. apply safe_ok. lia.
Qed.
Lemma parseHardwareTolerant_loop_safe payload layouts : forall e b,
  safe (parseHardwareTolerant_loop payload layouts e b) (fun ns => (length ns <= depth0)%nat).
Proof.
  induction layouts as [|l layouts IH]; intros e b; cbn [parseHardwareTolerant_loop].
  { destruct b; [apply safe_ok; cbn; lia|]. destruct e; [apply safe_fail | apply safe_ok; cbn; lia]. }
  pose proof (ParseHardware_safe payload l) as H. destruct (safe_total _ _ H) as ([ns | e'] & -> & Hr);
    cbn -[safe parseHardwareTolerant_loop depth0]; [|apply IH].
  case_decide; [apply safe_ok; by apply Hr | apply IH].
Qed.

(** ** The choice of a layout *)

Definition no_neighbours (payload : bytes) (l : Z) : Prop := forall ns, ParseHardware payload l = ok ns -> ns = [].
(** With one layout the result is that layout's; with several it is the first
    that finds a neighbour, and empty when none does and one is free of error. *)
Lemma tolerant_one payload l : parseHardwareTolerant payload [l] = ParseHardware payload l.
Proof.
  unfold parseHardwareTolerant. cbn [parseHardwareTolerant_loop].
  destruct (safe_total _ _ (ParseHardware_safe payload l)) as ([ns|e] & -> & _); [|done]. cbn.
  case_decide as H; [done|]. by destruct ns; [|destruct H].
Qed.
Lemma tolerant_first payload layouts l post ns : forall e b,
  Forall (no_neighbours payload) layouts -> ParseHardware payload l = ok ns -> ns <> [] ->
  parseHardwareTolerant_loop payload (layouts ++ l :: post) e b = ok ns.
Proof.
  induction layouts as [|k layouts IH]; intros e b Hno Hl Hns; cbn [app parseHardwareTolerant_loop].
  { rewrite Hl. cbn. by rewrite decide_True. }
  apply Forall_cons in Hno as [Hk Hno]. unfold no_neighbours in Hk.
  destruct (safe_total _ _ (ParseHardware_safe payload k)) as ([ns'|e'] & Hr & _); rewrite Hr; cbn -[parseHardwareTolerant_loop].
  - rewrite (Hk ns' Hr). rewrite decide_False by auto. by apply IH.
  - by apply IH.
Qed.
Lemma tolerant_empty payload layouts : forall e b,
  Forall (no_neighbours payload) layouts -> b = true \/ (exists l, l ∈ layouts /\ ParseHardware payload l = ok []) ->
  parseHardwareTolerant_loop payload layouts e b = ok [].
Proof.
  induction layouts as [|k layouts IH]; intros e b Hno Hb; cbn [parseHardwareTolerant_loop].
  { destruct Hb as [->|(l & Hl & _)]; [done | by apply elem_of_nil in Hl]. }
  apply Forall_cons in Hno as [Hk Hno]. unfold no_neighbours in Hk.
  destruct (safe_total _ _ (ParseHardware_safe payload k)) as ([ns|e'] & Hr & _); rewrite Hr; cbn -[parseHardwareTolerant_loop].
  - rewrite (Hk ns Hr). rewrite decide_False by auto. apply IH; auto.
  - apply IH; [done|]. destruct Hb as [->|(l & [->|Hl]%elem_of_cons & HP)]; [by left | unfold ok in HP; congruence | right; eauto].
Qed.

Lemma le_at_nonneg n data off : wf_bytes data -> 0 <= le_at n data off.
Proof. intros H. unfold le_at. apply le_combine_bound. by apply wf_take, wf_drop. Qed.
Lemma readMsg_total stream want : wf_bytes stream ->
  exists r rest, readMsg stream want = Some (r, rest) /\ wf_bytes rest.
Proof.
  intros Hwf. unfold readMsg, hmsgHeaderSize. case_decide; [by eexists _, _|].
  rewrite (slice_ok stream 0 16), (slice_tail stream 16) by lia. cbn -[slice LE32 LE64 decide take drop].
  set (hdr := take _ _). assert (glen hdr = 16) by (unfold hdr; len_lia).
  rewrite LE32_ok, LE64_ok by lia. cbn -[slice decide hdr].
  set (rest := drop (Z.to_nat 16) stream) in *. assert (wf_bytes rest) by by apply wf_drop.
  repeat (case_decide; [by eexists _, _|]).
  assert (0 <= le_at 8 hdr 8) by by apply le_at_nonneg, wf_take, wf_drop.
  rewrite (slice_ok rest 0), (slice_tail rest) by lia. eexists _, _. split; [done|]. by apply wf_drop.
Qed.

Lemma fetch_loop_total layouts names : forall conn written out, wf_bytes conn ->
  exists r, fetch_loop layouts names conn written out = Some r.
Proof.
  induction names as [|ifn names IH]; intros conn written out Hc; [by eexists|]. cbn [fetch_loop].
  destruct (readMsg_total conn opGetInterface Hc) as (r & rest & -> & Hrest). cbn -[fetch_loop parseHardwareTolerant writeMsg].
  destruct r as [hw|e]; [|by apply IH].
  destruct (safe_total _ _ (parseHardwareTolerant_loop_safe hw layouts None false)) as (ns & Hns & _).
  unfold parseHardwareTolerant. rewrite Hns. cbn -[fetch_loop writeMsg]. destruct ns as [[|n ns]|e]; by apply IH.
Qed.

(** A value or an error, and at most [n] entries. *)
Definition returns_at_most {A} (n : nat) (m : go (list A + lldp_err)) : Prop :=
  exists r, m = Some r /\ forall l, r = inl l -> (length l <= n)%nat.

(** C14: nothing a server sends makes the LLDP client panic, whatever layout is
    tried: every payload is parsed to a value or an error, with at most
    maxDepth + 1 interfaces or neighbours even when the decoded list loops back
    on itself, and a whole exchange over any stream of bytes returns. *)
Theorem lldp_never_panics (payload : bytes) :
  returns_at_most depth0 (ParseInterfaces payload) /\
  (forall layouts, returns_at_most depth0 (parseHardwareTolerant payload layouts)) /\
  (forall hint, wf_bytes payload -> exists r, Fetch payload hint = Some r).
Proof.
  split_and!.
  - apply safe_total, ParseInterfaces_safe.
  - intros layouts. apply safe_total, parseHardwareTolerant_loop_safe.
  - intros hint Hwf. unfold Fetch.
    destruct (readMsg_total payload opGetInterfaces Hwf) as (r & rest & -> & Hrest). cbn -[ParseInterfaces fetch_loop writeMsg].
    destruct r as [p|e]; [|by eexists].
    destruct (safe_total _ _ (ParseInterfaces_safe p)) as ([names|e] & -> & _); [|by eexists].
    cbn -[fetch_loop writeMsg].
    by destruct (fetch_loop_total (layoutsFor hint) names rest (writeMsg opGetInterfaces []) ∅ Hrest) as [x ->]; eexists.
Qed.

(** ** The exchange *)

Lemma glen_writeMsg op p : glen (writeMsg op p) = 16 + glen p.
Proof. unfold writeMsg. len_lia. Qed.
(** A message is read back as it was written, whatever follows it; one of
    another type is refused with its payload left unread, so that the next read
    starts in the middle of it. *)
Lemma readMsg_cases op want p rest :
  0 <= op < 2 ^ 31 -> glen p <= hmsgMaxSize ->
  readMsg (writeMsg op p ++ rest) want = if decide (op <> want) then Some (inr ErrProtocol, p ++ rest) else Some (inl p, rest).
Proof.
  intros Hop Hp. pose proof (glen_nonneg p). pose proof (glen_nonneg rest). unfold readMsg, hmsgHeaderSize.
  rewrite decide_False by (rewrite glen_app, glen_writeMsg; lia).
  set (s := writeMsg op p ++ rest). assert (glen s = 16 + glen p + glen rest) as Hs by (unfold s; rewrite glen_app, glen_writeMsg; lia).
  set (hd := le_split 4 (uint32 op) ++ replicate 4 0 ++ le_split 8 (glen p)).
  assert (slice s 0 16 = Some hd) as ->.
  { rewrite slice_ok by lia. reflexivity. }
  assert (slice s 16 (glen s) = Some (p ++ rest)) as ->.
  { rewrite slice_tail by lia. reflexivity. }
  cbn -[LE32 LE64 decide slice hd].
  assert (le_at 4 hd 0 = op) as Hop'.
  { assert (uint32 op = op) as E by (apply Z.mod_small; lia). unfold hd. rewrite E. apply le_at_split; [|done].
    change (256 ^ Z.of_nat 4) with (2 ^ 32). lia. }
  assert (le_at 8 hd 8 = glen p) as Hlen.
  { unfold hd. rewrite le_at_skip by lia. change (8 - Z.of_nat 4) with (glen (replicate 4 0) + 0).
    rewrite le_at_app by lia. rewrite <- (app_nil_r (le_split 8 _)). apply le_at_split; [|done].
    unfold hmsgMaxSize in Hp. change (256 ^ Z.of_nat 8) with (2 ^ 64). lia. }
  rewrite LE32_ok, LE64_ok, Hop', Hlen by (unfold hd; len_lia). cbn -[decide slice int32]. rewrite decide_False by lia.
  assert (int32 op = op) as ->. { unfold int32, uint32. rewrite Z.mod_small by lia. by rewrite decide_True by lia. }
  destruct (decide (op <> want)); [done|]. case_decide as Hz.
  { destruct p; [done|]. rewrite glen_cons in Hz. pose proof (glen_nonneg p). lia. }
  rewrite decide_False by (rewrite glen_app; lia).
  rewrite (slice_ok _ 0 (glen p)), (slice_tail _ (glen p)) by (rewrite ?glen_app; lia). cbn -[take drop].
  do 2 f_equal; [f_equal|].
  - eapply (slice_mid [] p rest); [done | done | done].
  - unfold glen. by rewrite Nat2Z.id, drop_app_length.
Qed.

Lemma readMsg_writeMsg op p rest :
  0 <= op < 2 ^ 31 -> glen p <= hmsgMaxSize -> readMsg (writeMsg op p ++ rest) op = Some (inl p, rest).
Proof. intros. rewrite readMsg_cases by done. by rewrite decide_False by auto. Qed.

(** What the server sends for the interfaces [l], each with its reply; what the
    client sends for them. *)
Definition replies (l : list (bytes * bytes)) : bytes := concat (map (fun x => writeMsg opGetInterface x.2) l).
Definition requests (l : list (bytes * bytes)) : bytes :=
  concat (map (fun x => writeMsg opGetInterface (marshalString x.1)) l).
(** The first neighbour in a reply. *)
Definition neighbour_in (layouts : list Z) (ifn hw : bytes) (n : Neighbor) : Prop :=
  exists n0 ns, parseHardwareTolerant hw layouts = ok (n0 :: ns) /\ n = set_ifname ifn n0.

Lemma fetch_loop_exchange layouts rest l : forall written out,
  Forall (fun x => glen x.2 <= hmsgMaxSize) l -> NoDup l.*1 -> (forall ifn, ifn ∈ l.*1 -> out !! ifn = None) ->
  exists out', fetch_loop layouts l.*1 (replies l ++ rest) written out = Some (out', rest, written ++ requests l) /\
    forall ifn n, out' !! ifn = Some n <-> out !! ifn = Some n \/ exists hw, (ifn, hw) ∈ l /\ neighbour_in layouts ifn hw n.
Proof.
  induction l as [|[ifn hw] l IH]; intros written out Hl Hnd Hout.
  { exists out. split; [cbn; by rewrite app_nil_r|]. intros ifn n. split; [auto|].
    intros [?|(? & []%elem_of_nil & _)]; done. }
  apply Forall_cons in Hl as [Hh Hl]. cbn [fst snd] in Hh.
  rewrite fmap_cons in Hnd, Hout. cbn [fst] in Hnd, Hout. apply NoDup_cons in Hnd as [Hni Hnd].
  rewrite fmap_cons. cbn [fst fetch_loop]. unfold replies. cbn [map concat snd]. rewrite <- app_assoc.
  rewrite readMsg_writeMsg by (unfold opGetInterface; lia || done). cbn -[fetch_loop parseHardwareTolerant writeMsg fmap list_fmap].
  destruct (safe_total _ _ (parseHardwareTolerant_loop_safe hw layouts None false)) as (r & Hr & _).
  fold (parseHardwareTolerant hw layouts) in Hr. rewrite Hr. cbn -[fetch_loop writeMsg fmap list_fmap].
  set (out1 := match r with inl (n :: _) => <[ifn := set_ifname ifn n]> out | _ => out end).
  destruct (IH (written ++ writeMsg opGetInterface (marshalString ifn)) out1 Hl Hnd) as (out' & Hf & Hspec).
  { intros i Hi. assert (i <> ifn) by congruence. specialize (Hout i ltac:(by apply list_elem_of_further)).
    unfold out1. repeat case_match; rewrite ?lookup_insert_ne by done; done. }
  exists out'. split.
  { unfold requests in *. cbn [map concat fst]. rewrite (app_assoc written). unfold replies in Hf.
    unfold out1 in Hf. destruct r as [[|n ns]|e]; exact Hf. }
  intros i n. rewrite Hspec. clear Hf Hspec IH.
  assert (out1 !! i = Some n <-> out !! i = Some n \/ i = ifn /\ neighbour_in layouts ifn hw n) as ->.
  { specialize (Hout ifn ltac:(apply list_elem_of_here)). unfold neighbour_in. rewrite Hr. unfold out1, ok.
    destruct r as [[|n0 ns]|e]; [naive_solver | | naive_solver].
    destruct (decide (i = ifn)) as [->|Hne]; [rewrite lookup_insert_eq; naive_solver | rewrite lookup_insert_ne by done; naive_solver]. }
  setoid_rewrite elem_of_cons. naive_solver.
Qed.

(** Against a server that answers every request, [Fetch] sends one
    GET_INTERFACES and one GET_INTERFACE per interface in the order of the list,
    reads exactly the replies, and maps an interface to a neighbour iff the
    reply to its own request parses, under the layouts of the version hint, to a
    list that starts with that neighbour: an interface whose reply does not
    parse or is empty hides no other. *)
Theorem Fetch_exchange (hint : string) (p0 : bytes) (l : list (bytes * bytes)) (rest : bytes)
    (Hp0 : glen p0 <= hmsgMaxSize) (Hl : Forall (fun x => glen x.2 <= hmsgMaxSize) l) (Hnd : NoDup l.*1)
    (Hifs : ParseInterfaces p0 = ok l.*1) :
  exists out, Fetch (writeMsg opGetInterfaces p0 ++ replies l ++ rest) hint
      = ok (out, rest, writeMsg opGetInterfaces [] ++ requests l) /\
    forall ifn n, out !! ifn = Some n <-> exists hw, (ifn, hw) ∈ l /\ neighbour_in (layoutsFor hint) ifn hw n.
Proof.
  unfold Fetch. rewrite readMsg_writeMsg by (unfold opGetInterfaces; lia || done).
  cbn -[ParseInterfaces fetch_loop writeMsg fmap list_fmap layoutsFor]. rewrite Hifs.
  cbn -[fetch_loop writeMsg fmap list_fmap layoutsFor].
  destruct (fetch_loop_exchange (layoutsFor hint) rest l (writeMsg opGetInterfaces []) ∅ Hl Hnd) as (out & -> & Hspec);
    [intros; apply lookup_empty|].
  exists out. split; [done|]. intros ifn n. rewrite Hspec, lookup_empty. naive_solver.
Qed.

Lemma Fetch_exchange_witness : exists out,
  Fetch (writeMsg opGetInterfaces (ser LldpDemo.ifs) ++ replies [(LldpDemo.eth0, LldpDemo.reply); (LldpDemo.lo, [])] ++ []) "1.0.22"
    = ok (out, [], writeMsg opGetInterfaces [] ++ requests [(LldpDemo.eth0, LldpDemo.reply); (LldpDemo.lo, [])]) /\
  out !! LldpDemo.eth0 = Some (set_ifname LldpDemo.eth0 (LldpDemo.neighbour [103; 105; 48; 49])).
Proof.
  destruct (Fetch_exchange "1.0.22" (ser LldpDemo.ifs) [(LldpDemo.eth0, LldpDemo.reply); (LldpDemo.lo, [])] [])
    as (out & H & Hout).
  - vm_compute. discriminate.
  - repeat apply Forall_cons_2; [vm_compute; discriminate | vm_compute; discriminate | apply Forall_nil_2].
  - refine (bool_decide_unpack _ _). vm_compute. exact I.
  - vm_compute. reflexivity.
  - exists out. split; [exact H|]. apply Hout. exists LldpDemo.reply. split; [apply list_elem_of_here|].
    eexists _, _. split; [vm_compute; reflexivity | reflexivity].
Defined.
