(* ===== verification/GoStrings.v ===== *)
(** Go strings as bytes, and the parts of unicode and unicode/utf8 the program
    uses on them. *)

From stdpp Require Import strings.
From S2P Require Import Prelude.

Definition string_bytes (s : string) : bytes := (fun a => Z.of_nat (Ascii.nat_of_ascii a)) <$> String.list_ascii_of_string s.
Definition cont (b : Z) : bool := bool_decide (128 <= b <= 191).
(** [utf8.DecodeRune] of a non-empty slice: an invalid byte is U+FFFD, of one byte. *)
Definition decode_rune (b0 : Z) (b : bytes) : Z * nat :=
  let low := fun b => Z.land b 63 in
  match b with
  | b1 :: rest =>
      if decide (b0 < 128) then (b0, 1%nat) else
      if decide (194 <= b0 <= 223) then
        if cont b1 then (Z.land b0 31 * 64 + low b1, 2%nat) else (65533, 1%nat)
      else if decide (224 <= b0 <= 239) then
        let lo := if decide (b0 = 224) then 160 else 128 in
        let hi := if decide (b0 = 237) then 159 else 191 in
        match rest with
        | b2 :: _ => if bool_decide (lo <= b1 <= hi) && cont b2 then (Z.land b0 15 * 4096 + low b1 * 64 + low b2, 3%nat) else (65533, 1%nat)
        | [] => (65533, 1%nat)
        end
      else if decide (240 <= b0 <= 244) then
        let lo := if decide (b0 = 240) then 144 else 128 in
        let hi := if decide (b0 = 244) then 143 else 191 in
        match rest with
        | b2 :: b3 :: _ =>
            if bool_decide (lo <= b1 <= hi) && cont b2 && cont b3
            then (Z.land b0 7 * 262144 + low b1 * 4096 + low b2 * 64 + low b3, 4%nat) else (65533, 1%nat)
        | _ => (65533, 1%nat)
        end
      else (65533, 1%nat)
  | [] => if decide (b0 < 128) then (b0, 1%nat) else (65533, 1%nat)
  end.
Fixpoint runes_loop (fuel : nat) (b : bytes) : list Z :=
  match fuel, b with
  | S fuel, b0 :: rest => let '(r, n) := decode_rune b0 rest in r :: runes_loop fuel (drop n b)
  | _, _ => []
  end.
Definition runes (b : bytes) : list Z := runes_loop (length b) b.
Definition IsSpace (r : Z) : bool :=
  bool_decide (9 <= r <= 13 \/ r = 32 \/ r = 133 \/ r = 160 \/ r = 5760 \/ 8192 <= r <= 8202 \/ r = 8232 \/ r = 8233 \/
               r = 8239 \/ r = 8287 \/ r = 12288).
Definition IsControl (r : Z) : bool := bool_decide (0 <= r <= 31 \/ 127 <= r <= 159).

(** ** Trimming *)

(** The runes of a string with the bytes each came from. *)
Fixpoint segments_loop (fuel : nat) (b : bytes) : list (Z * bytes) :=
  match fuel, b with
  | S fuel, b0 :: rest => let '(r, n) := decode_rune b0 rest in (r, take n b) :: segments_loop fuel (drop n b)
  | _, _ => []
  end.
Definition segments (b : bytes) : list (Z * bytes) := segments_loop (length b) b.
Fixpoint drop_spaces (l : list (Z * bytes)) : list (Z * bytes) :=
  match l with (r, c) :: k => if IsSpace r then drop_spaces k else l | [] => [] end.
(** [strings.TrimSpace] *)
Definition TrimSpace (b : bytes) : bytes := concat (reverse (drop_spaces (reverse (drop_spaces (segments b))))).*2.

(** ASCII is decoded byte by byte. *)
Definition plain (c : Z) : Prop := 32 < c < 127.
Lemma segments_plain b : Forall plain b -> segments b = (fun c => (c, [c])) <$> b.
Proof.
  unfold segments. assert (H : forall n b, (length b <= n)%nat -> Forall plain b -> segments_loop n b = (fun c => (c, [c])) <$> b).
  { clear b. induction n as [|n IH]; intros b Hn Hb; [by destruct b; [|cbn in Hn; lia]|]. destruct b as [|x b]; [done|].
    apply Forall_cons in Hb as [Hx Hb]. cbn in Hn. unfold plain in Hx. cbn [segments_loop fmap list_fmap].
    assert (E : decode_rune x b = (x, 1%nat)) by (unfold decode_rune; destruct b; rewrite (decide_True (P := x < 128)) by lia; done).
    rewrite E. cbn [take drop]. f_equal. apply IH; [lia|done]. }
  intros Hb. by apply H.
Qed.
Lemma plain_not_space c : plain c -> IsSpace c = false.
Proof. unfold plain, IsSpace. intros H. apply bool_decide_eq_false_2. lia. Qed.
Lemma drop_spaces_plain b : Forall plain b -> drop_spaces ((fun c => (c, [c])) <$> b) = (fun c => (c, [c])) <$> b.
Proof. intros Hb. destruct Hb as [|x b Hx Hb]; [done|]. cbn. by rewrite plain_not_space. Qed.
Lemma TrimSpace_plain b : Forall plain b -> TrimSpace b = b.
Proof.
  intros Hb. unfold TrimSpace. rewrite segments_plain, drop_spaces_plain by done. rewrite <- fmap_reverse.
  rewrite drop_spaces_plain by (by apply Forall_reverse). rewrite <- fmap_reverse, reverse_involutive. clear Hb.
  induction b as [|x b IH]; [done|]. cbn. by rewrite IH.
Qed.
