(* ===== verification/KeyIndex.v ===== *)
(** A map from the keys of a list's elements to their positions: what an index
    beside a slice must satisfy, and how it follows the slice's updates. *)

From stdpp Require Import gmap.
From S2P Require Import Prelude.

Section key_index.
Context {K A : Type} `{Countable K} (key : A -> K).

(** [idx] holds the position of every key, and nothing else. *)
Definition indexes (idx : gmap K nat) (l : list A) : Prop := forall k i, idx !! k = Some i <-> key <$> l !! i = Some k.
(** The index computed from the list. *)
Definition rebuild (l : list A) : gmap K nat := foldl (fun m '(i, x) => <[key x := i]> m) ∅ (zip (seq 0 (length l)) l).

Lemma indexes_nodup idx l : indexes idx l -> NoDup (key <$> l).
Proof.
  intros Hi. apply NoDup_alt. intros i j k Hi1 Hj. rewrite list_lookup_fmap in Hi1, Hj. apply Hi in Hi1, Hj. congruence.
Qed.
Lemma indexes_Some idx l k i : indexes idx l -> idx !! k = Some i -> exists x, l !! i = Some x /\ key x = k.
Proof. intros Hi Hk. apply Hi in Hk. apply fmap_Some in Hk as (x & Hx & ->). by exists x. Qed.
Lemma indexes_at idx l i x : indexes idx l -> l !! i = Some x -> idx !! key x = Some i.
Proof. intros Hi Hx. apply Hi. by rewrite Hx. Qed.
Lemma indexes_nil : indexes ∅ [].
Proof. intros k i. rewrite lookup_empty. cbn. done. Qed.

Lemma indexes_insert idx l i x y : indexes idx l -> l !! i = Some x -> key y = key x -> indexes idx (<[i := y]> l).
Proof.
  intros Hi Hx Hk k j. rewrite (Hi k j). destruct (decide (j = i)) as [->|Hne].
  - rewrite list_lookup_insert_eq by (by eapply lookup_lt_Some). rewrite Hx. cbn. by rewrite Hk.
  - by rewrite list_lookup_insert_ne.
Qed.
Lemma indexes_app idx l x : indexes idx l -> idx !! key x = None -> indexes (<[key x := length l]> idx) (l ++ [x]).
Proof.
  intros Hi Hn k i. destruct (decide (i < length l)%nat) as [Hlt|Hge].
  - rewrite lookup_app_l by done. destruct (decide (k = key x)) as [->|Hne].
    + rewrite lookup_insert_eq. split; [intros [= ?]; lia|]. intros Hk. apply Hi in Hk. congruence.
    + by rewrite lookup_insert_ne.
  - rewrite lookup_app_r by lia. destruct (decide (k = key x)) as [->|Hne].
    + rewrite lookup_insert_eq. split; [intros [= <-]; by rewrite Nat.sub_diag|].
      intros Hf. apply fmap_Some in Hf as (y & Hy & _). apply list_lookup_singleton_Some in Hy as [? _]. f_equal. lia.
    + rewrite lookup_insert_ne by done. split; [|intros Hf; apply fmap_Some in Hf as (y & Hy & ->); apply list_lookup_singleton_Some in Hy as [_ <-]; done].
      intros Hk. destruct (indexes_Some _ _ _ _ Hi Hk) as (y & Hy & _). apply lookup_lt_Some in Hy. lia.
Qed.
(** The last element moved to position [i] and the list cut. *)
Lemma indexes_cut idx l i last x y :
  indexes idx l -> l !! i = Some x -> l !! last = Some y -> length l = S last ->
  indexes (delete (key x) (if decide (i = last) then idx else <[key y := i]> idx)) (take last (<[i := y]> l)).
Proof.
  intros Hi Hx Hy Hlen k j. pose proof (lookup_lt_Some _ _ _ Hx). pose proof (indexes_at _ _ _ _ Hi Hx) as Hkx.
  pose proof (indexes_at _ _ _ _ Hi Hy) as Hky.
  assert (Hlow : (j < last)%nat -> take last (<[i := y]> l) !! j = if decide (j = i) then Some y else l !! j).
  { intros Hj. rewrite lookup_take_lt by done. case_decide; [subst; by rewrite list_lookup_insert_eq | by rewrite list_lookup_insert_ne]. }
  assert (Hhigh : (last <= j)%nat -> take last (<[i := y]> l) !! j = None).
  { intros Hj. apply lookup_ge_None. rewrite length_take. lia. }
  destruct (decide (k = key x)) as [->|Hne].
  { rewrite lookup_delete_eq. split; [done|]. intros Hf. apply fmap_Some in Hf as (z & Hz & Hk).
    destruct (decide (j < last)%nat) as [Hj|Hj]; [|rewrite Hhigh in Hz by lia; done]. rewrite Hlow in Hz by done. case_decide.
    - subst j. injection Hz as <-. rewrite Hk in Hkx. rewrite Hkx in Hky. injection Hky as ->. lia.
    - assert (idx !! key z = Some j) by (apply Hi; by rewrite Hz). rewrite Hk in Hkx. congruence. }
  rewrite lookup_delete_ne by done. destruct (decide (i = last)) as [->|Hil].
  - rewrite (Hi k j). destruct (decide (j < last)%nat) as [Hj|Hj].
    + rewrite Hlow by done. by rewrite decide_False by lia.
    + rewrite Hhigh by lia. split; [|done]. intros Hf. apply fmap_Some in Hf as (z & Hz & ->).
      assert (j = last) as -> by (apply lookup_lt_Some in Hz; lia). congruence.
  - destruct (decide (k = key y)) as [->|Hny].
    + rewrite lookup_insert_eq. split.
      * intros [= <-]. rewrite Hlow by lia. by rewrite decide_True.
      * intros Hf. apply fmap_Some in Hf as (z & Hz & Hk). destruct (decide (j < last)%nat) as [Hj|Hj]; [|rewrite Hhigh in Hz by lia; done].
        rewrite Hlow in Hz by done. case_decide; [by subst|]. assert (idx !! key z = Some j) by (apply Hi; by rewrite Hz).
        rewrite Hk in Hky. assert (j = last) by congruence. lia.
    + rewrite lookup_insert_ne by done. rewrite (Hi k j). destruct (decide (j < last)%nat) as [Hj|Hj].
      * rewrite Hlow by done. case_decide; [|done]. subst j. rewrite Hx. cbn. split; intros [=]; congruence.
      * rewrite Hhigh by lia. split; [|done]. intros Hf. apply fmap_Some in Hf as (z & Hz & ->).
        assert (j = last) as -> by (apply lookup_lt_Some in Hz; lia). congruence.
Qed.

Lemma rebuild_snoc l x : rebuild (l ++ [x]) = <[key x := length l]> (rebuild l).
Proof.
  unfold rebuild. rewrite length_app. cbn [length]. rewrite seq_app, zip_with_app by apply length_seq. by rewrite foldl_app.
Qed.
Lemma rebuild_indexes l : NoDup (key <$> l) -> indexes (rebuild l) l.
Proof.
  induction l as [|x l IH] using rev_ind; intros Hnd; [apply indexes_nil|].
  rewrite fmap_app in Hnd. apply NoDup_app in Hnd as (Hnd & Hdis & _). rewrite rebuild_snoc. apply indexes_app; [by apply IH|].
  destruct (rebuild l !! key x) as [i|] eqn:E; [|done]. destruct (indexes_Some _ _ _ _ (IH Hnd) E) as (y & Hy & Hk).
  destruct (Hdis (key x)); [|by apply list_elem_of_here]. rewrite <- Hk. apply list_elem_of_fmap_2. by eapply list_elem_of_lookup_2.
Qed.
(** There is one index. *)
Lemma indexes_unique idx idx' l : indexes idx l -> indexes idx' l -> idx = idx'.
Proof. intros H1 H2. apply map_eq. intros k. apply option_eq. intros i. by rewrite (H1 k i), (H2 k i). Qed.
End key_index.
