(* ===== verification/LinkModel.v ===== *)
(** The link monitor's data (pkg/linkmonitor/internal/model/model.go): device
    identities, tokens, observations and the keys of collector jobs. *)

From stdpp Require Import countable strings.
From S2P Require Import Prelude.

Inductive DeviceKind := DeviceUnknown | DeviceEthernet | DeviceNativeRDMA.
Inductive CollectorKind :=
  | CollectorUnknown | CollectorInventory | CollectorNetdev | CollectorCarrier | CollectorSettings | CollectorDriver
  | CollectorPHY | CollectorChannels | CollectorRings | CollectorRDMAState | CollectorRDMACapabilities
  | CollectorRDMACounters | CollectorRDMAErrors | CollectorRDMAEvents | CollectorNetstat.
Inductive Eligibility := EligibilityUnknown | Eligible | Excluded.
Inductive Support := SupportUnknown | Supported | Unsupported | NotApplicable.
Inductive ErrorReason := ErrorNone | ErrorPermission | ErrorTimeout | ErrorIO | ErrorMalformed | ErrorOversize.
Inductive Check := CheckUnknown | CheckPass | CheckFail | CheckNotApplicable.

Record DeviceKey := mkDeviceKey {
  Namespace : Z; Kind : DeviceKind; Index : Z; RDMADevice : string; Port : Z }.
Definition zero_DeviceKey : DeviceKey := mkDeviceKey 0 DeviceUnknown 0 "" 0.
Record JobKey := mkJobKey { jk_Namespace : Z; jk_Device : DeviceKey; jk_Collector : CollectorKind }.
Record Token := mkToken { Generation : Z; Revision : Z; SourceEpoch : Z; Attempt : Z }.
Definition zero_Token : Token := mkToken 0 0 0 0.
(** [Optional[T]]: the value is kept when it is not present, and compared. *)
Record Optional (A : Type) := mkOptional { Value : A; Present : bool }.
Arguments mkOptional {A} _ _.
Arguments Value {A} _.
Arguments Present {A} _.
Definition presentValue {A} (a : A) : Optional A := mkOptional a true.
(** The wall clock is in nanoseconds, 0 for the zero time. *)
Record Stamp := mkStamp { Wall : Z; Monotonic : Z }.

Record Device := mkDevice {
  Key : DeviceKey; dev_Token : Token; Name : string; Up : Optional bool; dev_Eligibility : Eligibility;
  HardwareID : string; RDMA : bool }.
Record Observation := mkObservation { ob_Device : Device; Observed : Stamp }.

#[export] Instance DeviceKind_eq : EqDecision DeviceKind. Proof. solve_decision. Defined.
#[export] Instance CollectorKind_eq : EqDecision CollectorKind. Proof. solve_decision. Defined.
#[export] Instance Eligibility_eq : EqDecision Eligibility. Proof. solve_decision. Defined.
#[export] Instance Support_eq : EqDecision Support. Proof. solve_decision. Defined.
#[export] Instance ErrorReason_eq : EqDecision ErrorReason. Proof. solve_decision. Defined.
#[export] Instance Check_eq : EqDecision Check. Proof. solve_decision. Defined.
#[export] Instance DeviceKey_eq : EqDecision DeviceKey. Proof. solve_decision. Defined.
#[export] Instance JobKey_eq : EqDecision JobKey. Proof. solve_decision. Defined.
#[export] Instance Token_eq : EqDecision Token. Proof. solve_decision. Defined.
#[export] Instance Optional_eq {A} `{EqDecision A} : EqDecision (Optional A). Proof. solve_decision. Defined.
#[export] Instance Stamp_eq : EqDecision Stamp. Proof. solve_decision. Defined.
#[export] Instance Device_eq : EqDecision Device. Proof. solve_decision. Defined.

(** The values of the constants, as in the source. *)
Definition DeviceKind_value (k : DeviceKind) : Z :=
  match k with DeviceUnknown => 0 | DeviceEthernet => 1 | DeviceNativeRDMA => 2 end.
Definition all_collectors : list CollectorKind :=
  [CollectorUnknown; CollectorInventory; CollectorNetdev; CollectorCarrier; CollectorSettings; CollectorDriver;
   CollectorPHY; CollectorChannels; CollectorRings; CollectorRDMAState; CollectorRDMACapabilities;
   CollectorRDMACounters; CollectorRDMAErrors; CollectorRDMAEvents; CollectorNetstat].
Definition CollectorKind_value (k : CollectorKind) : Z :=
  match k with
  | CollectorUnknown => 0 | CollectorInventory => 1 | CollectorNetdev => 2 | CollectorCarrier => 3 | CollectorSettings => 4
  | CollectorDriver => 5 | CollectorPHY => 6 | CollectorChannels => 7 | CollectorRings => 8 | CollectorRDMAState => 9
  | CollectorRDMACapabilities => 10 | CollectorRDMACounters => 11 | CollectorRDMAErrors => 12 | CollectorRDMAEvents => 13
  | CollectorNetstat => 14
  end.
(** [for kind := CollectorInventory; kind < CollectorNetstat; kind++] *)
Definition device_collectors : list CollectorKind :=
  filter (fun k => 1 <= CollectorKind_value k < 14) all_collectors.

#[export] Instance DeviceKind_countable : Countable DeviceKind.
Proof.
  refine (inj_countable' DeviceKind_value
    (fun z => match z with 1 => DeviceEthernet | 2 => DeviceNativeRDMA | _ => DeviceUnknown end) _). by intros [].
Defined.
#[export] Instance CollectorKind_countable : Countable CollectorKind.
Proof.
  refine (inj_countable' CollectorKind_value (fun z => nth (Z.to_nat z) all_collectors CollectorUnknown) _). by intros [].
Defined.
#[export] Instance DeviceKey_countable : Countable DeviceKey.
Proof.
  refine (inj_countable' (fun k => (Namespace k, Kind k, Index k, RDMADevice k, Port k))
    (fun '(n, k, i, r, p) => mkDeviceKey n k i r p) _). by intros [].
Defined.
#[export] Instance JobKey_countable : Countable JobKey.
Proof.
  refine (inj_countable' (fun k => (jk_Namespace k, jk_Device k, jk_Collector k)) (fun '(n, d, c) => mkJobKey n d c) _).
  by intros [].
Defined.
