(* ===== verification/Deadlines.v ===== *)
(** The link monitor's deadline queue (pkg/linkmonitor/deadlines.go): a binary
    heap with the position of each key, one entry per key. *)

From stdpp Require Import gmap sorting.
From S2P Require Import Prelude LinkModel KeyIndex.

Inductive deadlineKind :=
  | deadlineCollector | deadlineResync | deadlinePoll | deadlineAttempt | deadlineRetry | deadlineCoordinator
  | deadlineLifecycle | deadlineTrafficPoll | deadlineCarrierFields | deadlineRDMA | deadlineRDMAEvents.
#[export] Instance deadlineKind_eq : EqDecision deadlineKind. Proof. solve_decision. Defined.
Definition all_deadlineKinds : list deadlineKind :=
  [deadlineCollector; deadlineResync; deadlinePoll; deadlineAttempt; deadlineRetry; deadlineCoordinator;
   deadlineLifecycle; deadlineTrafficPoll; deadlineCarrierFields; deadlineRDMA; deadlineRDMAEvents].
Definition deadlineKind_value (k : deadlineKind) : nat :=
  match k with
  | deadlineCollector => 0 | deadlineResync => 1 | deadlinePoll => 2 | deadlineAttempt => 3 | deadlineRetry => 4
  | deadlineCoordinator => 5 | deadlineLifecycle => 6 | deadlineTrafficPoll => 7 | deadlineCarrierFields => 8
  | deadlineRDMA => 9 | deadlineRDMAEvents => 10
  end.
#[export] Instance deadlineKind_countable : Countable deadlineKind.
Proof.
  refine (inj_countable' deadlineKind_value (fun n => nth n all_deadlineKinds deadlineCollector) _). by intros [].
Defined.

Record deadlineKey := mkKey { dl_kind : deadlineKind; dl_job : JobKey }.
#[export] Instance deadlineKey_eq : EqDecision deadlineKey. Proof. solve_decision. Defined.
#[export] Instance deadlineKey_countable : Countable deadlineKey.
Proof. refine (inj_countable' (fun k => (dl_kind k, dl_job k)) (fun p => mkKey p.1 p.2) _). by intros []. Defined.
Record deadlineEntry := mkEntry { e_key : deadlineKey; e_at : Z; e_generation : Z; e_token : Token }.
#[export] Instance deadlineEntry_eq : EqDecision deadlineEntry. Proof. solve_decision. Defined.

Record deadlineQueue := mkQueue { entries : list deadlineEntry; index : gmap deadlineKey nat }.
Definition empty_queue : deadlineQueue := mkQueue [] ∅.

(** ** Operations

    An index out of range is a panic. *)

Definition at_ (q : deadlineQueue) (i : nat) : go Z := e_at <$> entries q !! i.
Definition swap (a b : nat) (q : deadlineQueue) : go deadlineQueue :=
  ea ← entries q !! a; eb ← entries q !! b;
  Some (mkQueue (<[a := eb]> (<[b := ea]> (entries q))) (<[e_key ea := b]> (<[e_key eb := a]> (index q)))).
Fixpoint up_loop (fuel : nat) (i : nat) (q : deadlineQueue) : go (nat * deadlineQueue) :=
  match fuel with
  | O => None
  | S fuel =>
      if decide (i = 0)%nat then Some (i, q) else
      let parent := ((i - 1) / 2)%nat in
      p ← at_ q parent; c ← at_ q i;
      if decide (p <= c) then Some (i, q) else q ← swap parent i q; up_loop fuel parent q
  end.
Definition up (i : nat) (q : deadlineQueue) : go (nat * deadlineQueue) := up_loop (S i) i q.
Fixpoint down_loop (fuel : nat) (i : nat) (q : deadlineQueue) : go deadlineQueue :=
  match fuel with
  | O => None
  | S fuel =>
      if decide (i < length (entries q) / 2)%nat then
        let child := (i * 2 + 1)%nat in
        child ← (if decide (child + 1 < length (entries q))%nat then
                   a ← at_ q (child + 1); b ← at_ q child;
                   Some (if decide (a < b) then (child + 1)%nat else child)
                 else Some child);
        x ← at_ q i; y ← at_ q child;
        if decide (x <= y) then Some q else q ← swap i child q; down_loop fuel child q
      else Some q
  end.
Definition down (i : nat) (q : deadlineQueue) : go deadlineQueue := down_loop (S (length (entries q))) i q.

(** [trim] rebuilds the storage when there is much more of it than entries:
    [shrink] is whether there is, as the capacity is not part of the state. *)
Definition trim (shrink : bool) (q : deadlineQueue) : deadlineQueue :=
  match entries q with
  | [] => empty_queue
  | l => if shrink then mkQueue l (rebuild e_key l) else q
  end.

Definition set (entry : deadlineEntry) (q : deadlineQueue) : go deadlineQueue :=
  match index q !! e_key entry with
  | Some i =>
      if decide (i < length (entries q))%nat then
        '(i, q) ← up i (mkQueue (<[i := entry]> (entries q)) (index q)); down i q
      else None
  | None =>
      let i := length (entries q) in
      '(_, q) ← up i (mkQueue (entries q ++ [entry]) (<[e_key entry := i]> (index q))); Some q
  end.
Definition cancel (shrink : bool) (key : deadlineKey) (q : deadlineQueue) : go deadlineQueue :=
  match index q !! key with
  | None => Some q
  | Some i =>
      if decide (entries q = []) then None else
      let last := (length (entries q) - 1)%nat in
      q ← swap i last q;
      let q := mkQueue (take last (entries q)) (delete key (index q)) in
      q ← (if decide (i < last)%nat then '(i, q) ← up i q; down i q else Some q);
      Some (trim shrink q)
  end.
Definition first (q : deadlineQueue) : option deadlineEntry := head (entries q).
Definition due (shrink : bool) (now : Z) (q : deadlineQueue) : go (option deadlineEntry * deadlineQueue) :=
  match first q with
  | None => Some (None, q)
  | Some entry =>
      if decide (now < e_at entry) then Some (None, q) else
      q ← cancel shrink (e_key entry) q; Some (Some entry, q)
  end.
(** [deadlineAfter], of two durations. *)
Definition deadlineAfter (now delay : Z) : Z :=
  if decide (int64 (2 ^ 63 - 1 - now) < delay) then 2 ^ 63 - 1 else int64 (now + delay).

(** ** The index

    The position of every key, one entry per key. *)

Definition key_at (q : deadlineQueue) (i : nat) : option deadlineKey := e_key <$> entries q !! i.
Definition index_ok (q : deadlineQueue) : Prop := indexes e_key (index q) (entries q).

(** What the queue holds. *)
Definition contents (q : deadlineQueue) : gmap deadlineKey deadlineEntry :=
  list_to_map ((fun e => (e_key e, e)) <$> entries q).

Lemma index_ok_nodup q : index_ok q -> NoDup (e_key <$> entries q).
Proof. apply indexes_nodup. Qed.
Lemma contents_keys (l : list deadlineEntry) : (((fun e => (e_key e, e)) <$> l)).*1 = e_key <$> l.
Proof. rewrite <- list_fmap_compose. by apply list_fmap_ext. Qed.
Lemma contents_lookup q k e : index_ok q -> contents q !! k = Some e <-> e ∈ entries q /\ e_key e = k.
Proof.
  intros H. unfold contents. rewrite <- elem_of_list_to_map by (rewrite contents_keys; by apply index_ok_nodup).
  rewrite list_elem_of_fmap. split; [intros (e' & [= -> ->] & Hin); done | intros [Hin <-]; by exists e].
Qed.
Lemma contents_perm q q' : index_ok q -> entries q ≡ₚ entries q' -> contents q = contents q'.
Proof.
  intros H Hp. unfold contents. apply list_to_map_proper; [rewrite contents_keys; by apply index_ok_nodup | by rewrite Hp].
Qed.

(** Positions [a] and [b] exchanged. *)
Definition tr (a b i : nat) : nat := if decide (i = a) then b else if decide (i = b) then a else i.
Lemma tr_tr a b i : tr a b (tr a b i) = i.
Proof. unfold tr. repeat case_decide; congruence. Qed.

Lemma swap_spec a b q ea eb :
  entries q !! a = Some ea -> entries q !! b = Some eb -> index_ok q ->
  exists q', swap a b q = Some q' /\ index_ok q' /\ entries q' ≡ₚ entries q /\ (forall i, entries q' !! i = entries q !! tr a b i).
Proof.
  intros Ha Hb Hok. unfold swap. rewrite Ha, Hb. cbn. eexists. split; [reflexivity|].
  pose proof (lookup_lt_Some _ _ _ Ha) as La. pose proof (lookup_lt_Some _ _ _ Hb) as Lb.
  assert (forall i, <[a:=eb]> (<[b:=ea]> (entries q)) !! i = entries q !! tr a b i) as Hl.
  { intros i. unfold tr. case_decide; subst.
    - rewrite list_lookup_insert_eq; [done|]. by rewrite length_insert.
    - rewrite list_lookup_insert_ne by done. case_decide; subst; [by rewrite list_lookup_insert_eq | by rewrite list_lookup_insert_ne]. }
  split_and!; [| |exact Hl].
  - intros k i. unfold key_at. cbn [entries index]. rewrite Hl.
    assert (Hka : index q !! e_key ea = Some a) by (apply Hok; unfold key_at; by rewrite Ha).
    assert (Hkb : index q !! e_key eb = Some b) by (apply Hok; unfold key_at; by rewrite Hb).
    destruct (decide (k = e_key ea)) as [->|Hna].
    + rewrite lookup_insert_eq. split.
      * intros [= <-]. unfold tr. case_decide; [subst b; by rewrite Ha in Hb; injection Hb as ->; rewrite Ha|].
        case_decide; [by rewrite Ha | done].
      * intros Hk. apply Hok in Hk. rewrite Hka in Hk. injection Hk as Hk. f_equal. rewrite <- (tr_tr a b i), <- Hk.
        unfold tr. by rewrite decide_True.
    + rewrite lookup_insert_ne by done. destruct (decide (k = e_key eb)) as [->|Hnb].
      * rewrite lookup_insert_eq. split.
        -- intros [= <-]. unfold tr. rewrite decide_True by done. by rewrite Hb.
        -- intros Hk. apply Hok in Hk. rewrite Hkb in Hk. injection Hk as Hk. f_equal. rewrite <- (tr_tr a b i), <- Hk.
           unfold tr. case_decide; [congruence|]. by rewrite decide_True.
      * rewrite lookup_insert_ne by done. rewrite (Hok k i). unfold key_at, tr.
        case_decide; [subst i; rewrite Ha, Hb; cbn; split; intros [=]; congruence|].
        case_decide; [subst i; rewrite Ha, Hb; cbn; split; intros [=]; congruence|]. done.
  - by apply Permutation_insert_swap.
Qed.

(** ** The heap

    [f] is the deadline at each position; a position's parent is not later. *)

Definition parent (i : nat) : nat := ((i - 1) / 2)%nat.
Definition edge (f : nat -> option Z) (i : nat) : Prop := forall x y, f (parent i) = Some x -> f i = Some y -> x <= y.
(** The edges but those of [i]; and its children are not earlier than its parent. *)
Definition hole (f : nat -> option Z) (i : nat) : Prop :=
  (forall j, (0 < j)%nat -> j <> i -> parent j <> i -> edge f j) /\
  (forall j x y, (0 < i)%nat -> (0 < j)%nat -> parent j = i -> f (parent i) = Some x -> f j = Some y -> x <= y).
Definition edge_up (f : nat -> option Z) (i : nat) : Prop := (0 < i)%nat -> edge f i.
Definition edges_down (f : nat -> option Z) (i : nat) : Prop := forall j, (0 < j)%nat -> parent j = i -> edge f j.
Definition heap (f : nat -> option Z) : Prop := forall i, (0 < i)%nat -> edge f i.
Definition total_to (f : nat -> option Z) : Prop := forall i j, (i <= j)%nat -> is_Some (f j) -> is_Some (f i).

Lemma parent_lt i : (0 < i)%nat -> (parent i < i)%nat.
Proof. unfold parent. intros. assert ((i - 1) / 2 <= i - 1)%nat by (apply Nat.Div0.div_le_upper_bound; lia). lia. Qed.
Lemma parent_children i j : (0 < j)%nat -> parent j = i <-> (j = 2 * i + 1 \/ j = 2 * i + 2)%nat.
Proof.
  unfold parent. intros Hj. pose proof (Nat.div_mod_eq (j - 1) 2). pose proof (Nat.mod_upper_bound (j - 1) 2). lia.
Qed.

Lemma heap_from_hole f i : hole f i -> edge_up f i -> edges_down f i -> heap f.
Proof.
  intros [H _] Hu Hd j Hj. destruct (decide (j = i)) as [->|]; [by apply Hu|].
  destruct (decide (parent j = i)); [by apply Hd | by apply H].
Qed.
Lemma heap_hole f i : total_to f -> heap f -> hole f i.
Proof.
  intros Ht H. split; [intros; by apply H|]. intros j x y Hi Hj Hp Hx Hy.
  assert (is_Some (f i)) as [z Hz] by (apply (Ht i j); [pose proof (parent_lt j); lia | by eexists]).
  pose proof (H i Hi x z Hx Hz). pose proof (H j Hj z y). rewrite Hp in *. specialize (H1 Hz Hy). lia.
Qed.

(** Swapping with the parent moves the hole up, and leaves no edge below it. *)
Lemma hole_up f i x y :
  (0 < i)%nat -> hole f i -> total_to f -> f (parent i) = Some x -> f i = Some y -> y < x ->
  hole (fun j => f (tr (parent i) i j)) (parent i) /\ edges_down (fun j => f (tr (parent i) i j)) (parent i).
Proof.
  intros Hi [H1 H2] Ht Hx Hy Hlt. pose proof (parent_lt i Hi) as Hpi. set (p := parent i) in *.
  assert (Hother : forall j, j <> p -> j <> i -> tr p i j = j) by (intros; unfold tr; by rewrite !decide_False).
  assert (Htp : tr p i p = i) by (unfold tr; by rewrite decide_True).
  assert (Hti : tr p i i = p) by (unfold tr; rewrite decide_False by lia; by rewrite decide_True).
  assert (Hgood : forall j, (0 < j)%nat -> parent j <> p -> j <> p -> edge (fun j => f (tr p i j)) j).
  { intros j Hj Hpj Hjp a b Ha Hb. destruct (decide (j = i)) as [->|Hji]; [done|]. rewrite (Hother j) in Hb by done.
    destruct (decide (parent j = i)) as [E|E].
    - rewrite E, Hti in Ha. assert (a = x) as -> by congruence. eapply H2; [exact Hi | exact Hj | exact E | exact Hx | exact Hb].
    - rewrite Hother in Ha by done. by eapply H1. }
  split; [split|].
  - intros j Hj Hjp Hpj. by apply Hgood.
  - intros j a b Hp0 Hj Hpj Ha Hb. pose proof (parent_lt p Hp0). rewrite Hother in Ha by lia.
    assert (Hpx : a <= x) by (apply (H1 p Hp0 ltac:(lia) ltac:(lia) a x Ha Hx)).
    destruct (decide (j = i)) as [->|Hji]; [rewrite Hti in Hb; congruence|].
    pose proof (parent_lt j Hj). rewrite Hother in Hb by lia.
    assert (x <= b); [|lia]. apply (H1 j Hj Hji ltac:(lia) x b); [by rewrite Hpj | done].
  - intros j Hj Hpj a b Ha Hb. rewrite Hpj, Htp in Ha. assert (a = y) as -> by congruence.
    destruct (decide (j = i)) as [->|Hji]; [rewrite Hti in Hb; assert (b = x) by congruence; lia|].
    pose proof (parent_lt j Hj). rewrite Hother in Hb by lia.
    assert (x <= b); [|lia]. apply (H1 j Hj Hji ltac:(lia) x b); [by rewrite Hpj | done].
Qed.
(** Swapping with the earlier child moves the hole down. *)
Lemma hole_down f i c x y :
  (0 < c)%nat -> parent c = i -> hole f i -> edge_up f i -> f i = Some x -> f c = Some y -> y < x ->
  (forall j z, (0 < j)%nat -> parent j = i -> f j = Some z -> y <= z) ->
  hole (fun j => f (tr i c j)) c /\ edge_up (fun j => f (tr i c j)) c.
Proof.
  intros Hc Hpc [H1 H2] Hu Hx Hy Hlt Hmin. pose proof (parent_lt c Hc) as Hci. rewrite Hpc in Hci.
  assert (Hother : forall j, j <> i -> j <> c -> tr i c j = j) by (intros; unfold tr; by rewrite !decide_False).
  assert (Hti : tr i c i = c) by (unfold tr; by rewrite decide_True).
  assert (Htc : tr i c c = i) by (unfold tr; rewrite decide_False by lia; by rewrite decide_True).
  split; [split|].
  - intros j Hj Hjc Hpj a b Ha Hb. destruct (decide (j = i)) as [->|Hji].
    + rewrite Hti in Hb. assert (b = y) as -> by congruence. pose proof (parent_lt i Hj). rewrite Hother in Ha by lia.
      eapply H2; [exact Hj | exact Hc | exact Hpc | exact Ha | exact Hy].
    + rewrite (Hother j) in Hb by done. destruct (decide (parent j = i)) as [E|E].
      * rewrite E, Hti in Ha. assert (a = y) as -> by congruence. by eapply Hmin.
      * rewrite Hother in Ha by done. by eapply H1.
  - intros j a b _ Hj Hpj Ha Hb. rewrite Hpc, Hti in Ha. assert (a = y) as -> by congruence.
    pose proof (parent_lt j Hj). rewrite Hother in Hb by lia. apply (H1 j Hj ltac:(lia) ltac:(lia) y b); [by rewrite Hpj | done].
  - intros _ a b Ha Hb. rewrite Hpc, Hti in Ha. rewrite Htc in Hb. assert (a = y) as -> by congruence.
    assert (b = x) by congruence. lia.
Qed.

Lemma at_total q : total_to (at_ q).
Proof.
  intros i j Hij [x Hx]. unfold at_ in *. apply fmap_Some in Hx as (e & He & _). apply lookup_lt_Some in He.
  destruct (lookup_lt_is_Some_2 (entries q) i ltac:(lia)) as [e' ->]. by eexists.
Qed.
Lemma at_lt q i : (i < length (entries q))%nat -> exists e, entries q !! i = Some e /\ at_ q i = Some (e_at e).
Proof. intros H. destruct (lookup_lt_is_Some_2 _ _ H) as [e He]. exists e. unfold at_. by rewrite He. Qed.

(** The predicates of a swapped queue. *)
Lemma hole_ext f g i : (forall j, g j = f j) -> hole f i -> hole g i.
Proof. intros E [H1 H2]. split; unfold edge in *; setoid_rewrite E; done. Qed.
Lemma edges_down_ext f g i : (forall j, g j = f j) -> edges_down f i -> edges_down g i.
Proof. intros E H. unfold edges_down, edge in *. setoid_rewrite E. done. Qed.
Lemma edge_up_ext f g i : (forall j, g j = f j) -> edge_up f i -> edge_up g i.
Proof. intros E H. unfold edge_up, edge in *. setoid_rewrite E. done. Qed.

(** The queue is a heap with its index. *)
Definition wf (q : deadlineQueue) : Prop := index_ok q /\ heap (at_ q).
(** [q'] has the entries of [q]. *)
Definition rearranged (q q' : deadlineQueue) : Prop := index_ok q' /\ entries q' ≡ₚ entries q.

Lemma rearranged_length q q' : rearranged q q' -> length (entries q') = length (entries q).
Proof. intros [_ H]. by rewrite H. Qed.
Lemma rearranged_trans q1 q2 q3 : rearranged q1 q2 -> rearranged q2 q3 -> rearranged q1 q3.
Proof. intros [_ H1] [? H2]. split; [done | by rewrite H2]. Qed.
Lemma swap_at a b q ea eb :
  entries q !! a = Some ea -> entries q !! b = Some eb -> index_ok q ->
  exists q', swap a b q = Some q' /\ rearranged q q' /\ forall i, at_ q' i = at_ q (tr a b i).
Proof.
  intros Ha Hb Hok. destruct (swap_spec a b q ea eb Ha Hb Hok) as (q' & -> & Hok' & Hp & Hl).
  exists q'. split_and!; [done | done |]. intros i. unfold at_. by rewrite Hl.
Qed.

Lemma up_loop_spec fuel : forall i q,
  (i < fuel)%nat -> (i < length (entries q))%nat -> index_ok q -> hole (at_ q) i ->
  exists j q', up_loop fuel i q = Some (j, q') /\ rearranged q q' /\ (j < length (entries q))%nat /\
    hole (at_ q') j /\ edge_up (at_ q') j /\ (edges_down (at_ q) i -> edges_down (at_ q') j).
Proof.
  induction fuel as [|fuel IH]; intros i q Hf Hi Hok Hh; [lia|]. cbn [up_loop].
  destruct (decide (i = 0)%nat) as [->|Hne].
  { exists 0%nat, q. split_and!; try done. intros ?. lia. }
  pose proof (parent_lt i ltac:(lia)) as Hp. fold (parent i).
  destruct (at_lt q (parent i) ltac:(lia)) as (ep & Hep & Hx), (at_lt q i Hi) as (ei & Hei & Hy).
  rewrite Hx, Hy. cbn -[up_loop parent]. case_decide as Hle.
  { exists i, q. split_and!; try done. intros _ x y Hx' Hy'. congruence. }
  destruct (swap_at _ _ q ep ei Hep Hei Hok) as (q1 & -> & Hr & Hat). cbn -[up_loop parent].
  destruct (hole_up (at_ q) i (e_at ep) (e_at ei) ltac:(lia) Hh (at_total q) Hx Hy ltac:(lia)) as [Hh1 Hd1].
  eapply hole_ext in Hh1; [|exact Hat]. eapply edges_down_ext in Hd1; [|exact Hat].
  pose proof (rearranged_length _ _ Hr) as Hlen.
  destruct (IH (parent i) q1 ltac:(lia) ltac:(lia) (proj1 Hr) Hh1) as (j & q' & Hu & Hr' & Hj & Hh' & Heu & Hed).
  exists j, q'. split_and!; [done | by eapply rearranged_trans | lia | done | done | auto].
Qed.
Lemma up_spec i q : (i < length (entries q))%nat -> index_ok q -> hole (at_ q) i ->
  exists j q', up i q = Some (j, q') /\ rearranged q q' /\ (j < length (entries q))%nat /\
    hole (at_ q') j /\ edge_up (at_ q') j /\ (edges_down (at_ q) i -> edges_down (at_ q') j).
Proof. intros. apply up_loop_spec; auto. Qed.

(** The earlier child of a position that has one. *)
Lemma down_child q i : (i < length (entries q) / 2)%nat ->
  exists c y, (if decide (i * 2 + 1 + 1 < length (entries q))%nat then
       a ← at_ q (i * 2 + 1 + 1); b ← at_ q (i * 2 + 1);
       Some (if decide (a < b) then (i * 2 + 1 + 1)%nat else (i * 2 + 1)%nat)
     else Some (i * 2 + 1)%nat) = Some c /\
    (c < length (entries q))%nat /\ (0 < c)%nat /\ parent c = i /\ at_ q c = Some y /\
    forall j z, (0 < j)%nat -> parent j = i -> at_ q j = Some z -> y <= z.
Proof.
  intros Hi. pose proof (Nat.div_mod_eq (length (entries q)) 2) as Hd. pose proof (Nat.mod_upper_bound (length (entries q)) 2 ltac:(lia)).
  destruct (at_lt q (i * 2 + 1) ltac:(lia)) as (e1 & _ & H1). rewrite H1.
  assert (forall j z, (length (entries q) <= j)%nat -> at_ q j <> Some z) as Hout.
  { intros j z Hj Hz. unfold at_ in Hz. apply fmap_Some in Hz as (e & He & _). apply lookup_lt_Some in He. lia. }
  case_decide as Hlt.
  - destruct (at_lt q (i * 2 + 1 + 1) ltac:(lia)) as (e2 & _ & H2). rewrite H2. cbn.
    exists (if decide (e_at e2 < e_at e1)%Z then i * 2 + 1 + 1 else i * 2 + 1)%nat, (Z.min (e_at e1) (e_at e2)).
    split; [done|]. assert (forall j, (j = i * 2 + 1 + 1 \/ j = i * 2 + 1)%nat -> (0 < j)%nat /\ parent j = i) as Hpar
      by (intros j Hj; split; [lia | apply parent_children; lia]).
    case_decide as Hm; split_and!; try (apply Hpar; by auto) || lia; try (rewrite ?H1, ?H2; f_equal; lia).
    all: intros j z Hj Hp Hz; apply parent_children in Hp; [|done]; destruct Hp as [-> | ->];
      [replace (2 * i + 1)%nat with (i * 2 + 1)%nat in Hz by lia | replace (2 * i + 2)%nat with (i * 2 + 1 + 1)%nat in Hz by lia];
      rewrite ?H1, ?H2 in Hz; injection Hz as <-; lia.
  - exists (i * 2 + 1)%nat, (e_at e1). split_and!; try done; [lia | lia | apply parent_children; lia|].
    intros j z Hj Hp Hz. apply parent_children in Hp; [|done]. destruct Hp as [-> | ->].
    + replace (2 * i + 1)%nat with (i * 2 + 1)%nat in Hz by lia. rewrite H1 in Hz. injection Hz as <-. lia.
    + exfalso. eapply Hout; [|exact Hz]. lia.
Qed.
Lemma down_loop_spec fuel : forall i q,
  (length (entries q) - i < fuel)%nat -> (i < length (entries q))%nat -> index_ok q -> hole (at_ q) i -> edge_up (at_ q) i ->
  exists q', down_loop fuel i q = Some q' /\ rearranged q q' /\ heap (at_ q').
Proof.
  induction fuel as [|fuel IH]; intros i q Hf Hi Hok Hh He; [lia|]. cbn [down_loop].
  case_decide as Hlt.
  2:{ exists q. split_and!; try done. eapply heap_from_hole; [done | done|]. intros j Hj Hp a b _ Hb.
      apply parent_children in Hp; [|done]. unfold at_ in Hb. apply fmap_Some in Hb as (e & Hb & _). apply lookup_lt_Some in Hb.
      pose proof (Nat.div_mod_eq (length (entries q)) 2). pose proof (Nat.mod_upper_bound (length (entries q)) 2 ltac:(lia)). lia. }
  destruct (down_child q i Hlt) as (c & y & -> & Hc & Hc0 & Hpc & Hy & Hmin). cbn -[down_loop].
  destruct (at_lt q i Hi) as (ei & Hei & Hx). rewrite Hx, Hy. cbn -[down_loop]. case_decide as Hle.
  { exists q. split_and!; try done. eapply heap_from_hole; [done | done|]. intros j Hj Hp a b Ha Hb.
    rewrite Hp, Hx in Ha. injection Ha as <-. specialize (Hmin j b Hj Hp Hb). lia. }
  destruct (at_lt q c Hc) as (ec & Hec & Hyc). assert (y = e_at ec) as -> by congruence.
  destruct (swap_at _ _ q ei ec Hei Hec Hok) as (q1 & -> & Hr & Hat). cbn -[down_loop].
  destruct (hole_down (at_ q) i c (e_at ei) (e_at ec) Hc0 Hpc Hh He Hx Hyc ltac:(lia) Hmin) as [Hh1 He1].
  eapply hole_ext in Hh1; [|exact Hat]. eapply edge_up_ext in He1; [|exact Hat].
  pose proof (rearranged_length _ _ Hr) as Hlen. pose proof (parent_lt c Hc0).
  destruct (IH c q1 ltac:(lia) ltac:(lia) (proj1 Hr) Hh1 He1) as (q' & Hd & Hr' & Hheap).
  exists q'. split_and!; [done | by eapply rearranged_trans | done].
Qed.

(** The value at one position of a heap replaced. *)
Lemma hole_insert q i e : (i < length (entries q))%nat -> heap (at_ q) ->
  hole (at_ (mkQueue (<[i := e]> (entries q)) (index q))) i.
Proof.
  intros Hi Hh. pose proof (heap_hole _ i (at_total q) Hh) as [H1 H2].
  assert (forall j, j <> i -> at_ (mkQueue (<[i := e]> (entries q)) (index q)) j = at_ q j) as Hne
    by (intros j Hj; unfold at_; cbn; by rewrite list_lookup_insert_ne).
  split.
  - intros j Hj Hji Hpi a b Ha Hb. rewrite Hne in Ha, Hb by done. by eapply H1.
  - intros j a b Hi0 Hj Hp Ha Hb. pose proof (parent_lt i Hi0). pose proof (parent_lt j Hj). rewrite Hne in Ha, Hb by lia.
    by eapply H2.
Qed.
(** Up and down from a replaced position. *)
Lemma up_down_spec i q : (i < length (entries q))%nat -> index_ok q -> hole (at_ q) i ->
  exists j q1 q', up i q = Some (j, q1) /\ down j q1 = Some q' /\ rearranged q q' /\ heap (at_ q').
Proof.
  intros Hi Hok Hh. destruct (up_spec i q Hi Hok Hh) as (j & q1 & Hu & Hr & Hj & Hh1 & He1 & _).
  pose proof (rearranged_length _ _ Hr) as Hlen.
  destruct (down_loop_spec (S (length (entries q1))) j q1 ltac:(lia) ltac:(lia) (proj1 Hr) Hh1 He1) as (q' & Hd & Hr' & Hheap).
  exists j, q1, q'. split_and!; [done | done | by eapply rearranged_trans | done].
Qed.

(** ** What the operations do to the contents *)

Lemma contents_index q k : index_ok q -> contents q !! k = index q !! k ≫= fun i => entries q !! i.
Proof.
  intros H. apply option_eq. intros e. rewrite (contents_lookup q k e H), bind_Some. split.
  - intros [Hin Hk]. apply list_elem_of_lookup in Hin as [i Hi]. exists i. split; [|done]. apply H. unfold key_at. by rewrite Hi, <- Hk.
  - intros (i & Hi & He). split; [by eapply list_elem_of_lookup_2|]. apply H in Hi. unfold key_at in Hi. rewrite He in Hi. by injection Hi.
Qed.
Lemma index_lt q k i : index_ok q -> index q !! k = Some i -> exists e, entries q !! i = Some e /\ e_key e = k.
Proof. intros H Hi. apply H in Hi. unfold key_at in Hi. apply fmap_Some in Hi as (e & He & ->). by exists e. Qed.
Lemma rearranged_contents q q' : index_ok q -> rearranged q q' -> contents q' = contents q.
Proof. intros H [H' Hp]. symmetry. by apply contents_perm; [|symmetry]. Qed.

Lemma set_spec e q : wf q ->
  exists q', set e q = Some q' /\ wf q' /\ contents q' = <[e_key e := e]> (contents q).
Proof.
  intros [Hok Hheap]. unfold set. destruct (index q !! e_key e) as [i|] eqn:Hi.
  - destruct (index_lt q _ _ Hok Hi) as (e0 & He0 & Hk0). pose proof (lookup_lt_Some _ _ _ He0) as Hlt.
    rewrite decide_True by done. set (q0 := mkQueue (<[i := e]> (entries q)) (index q)).
    assert (index_ok q0) as Hok0 by (by eapply indexes_insert).
    assert (i < length (entries q0))%nat as Hlt0 by (unfold q0; cbn; by rewrite length_insert).
    destruct (up_down_spec i q0 Hlt0 Hok0 (hole_insert q i e Hlt Hheap)) as (j & q1 & q' & Hu & Hd & Hr & Hh).
    rewrite Hu. cbn -[down]. rewrite Hd. exists q'. split_and!; [done | split; [apply Hr | done] |].
    rewrite (rearranged_contents q0 q') by done. apply map_eq. intros k. rewrite (contents_index q0) by done. unfold q0. cbn.
    destruct (decide (k = e_key e)) as [->|Hne].
    + rewrite Hi. cbn. by rewrite list_lookup_insert_eq, lookup_insert_eq.
    + rewrite lookup_insert_ne by done. rewrite (contents_index q) by done. destruct (index q !! k) as [j'|] eqn:Hj; [|done]. cbn.
      rewrite list_lookup_insert_ne; [done|]. intros <-. apply Hok in Hi, Hj. congruence.
  - set (n := length (entries q)). set (q0 := mkQueue (entries q ++ [e]) (<[e_key e := n]> (index q))).
    assert (forall j, (j < n)%nat -> entries q0 !! j = entries q !! j) as Hold by (intros; unfold q0; cbn; by rewrite lookup_app_l).
    assert (entries q0 !! n = Some e) as Hnew by (unfold q0, n; cbn; by rewrite lookup_app_r, Nat.sub_diag).
    assert (index_ok q0) as Hok0 by (by apply indexes_app).
    assert (hole (at_ q0) n /\ edges_down (at_ q0) n) as [Hh0 Hd0].
    { assert (forall j z, at_ q0 j = Some z -> (j <= n)%nat) as Hle.
      { intros j z Hz. unfold at_ in Hz. apply fmap_Some in Hz as (e' & He' & _). apply lookup_lt_Some in He'. unfold q0 in He'.
        cbn in He'. rewrite length_app in He'. cbn in He'. unfold n. lia. }
      split; [split|].
      - intros j Hj Hjn Hpn a b Ha Hb. pose proof (Hle _ _ Hb). pose proof (parent_lt j Hj).
        unfold at_ in Ha, Hb. rewrite Hold in Ha, Hb by lia. by apply (Hheap j Hj).
      - intros j a b Hn Hj Hp _ Hb. pose proof (Hle _ _ Hb). pose proof (parent_lt j Hj). lia.
      - intros j Hj Hp a b _ Hb. pose proof (Hle _ _ Hb). pose proof (parent_lt j Hj). lia. }
    destruct (up_spec n q0) as (j & q' & Hu & Hr & _ & Hh & He & Hd);
      [unfold q0; cbn; rewrite length_app; cbn; unfold n; lia | done | done |].
    rewrite Hu. cbn. exists q'. split_and!; [done | split; [apply Hr | eapply heap_from_hole; eauto] |].
    rewrite (rearranged_contents q0 q') by done. apply map_eq. intros k. rewrite (contents_index q0) by done. change (index q0) with (<[e_key e := n]> (index q)).
    destruct (decide (k = e_key e)) as [->|Hne]; [rewrite !lookup_insert_eq; exact Hnew|].
    rewrite !lookup_insert_ne by done. rewrite (contents_index q) by done. destruct (index q !! k) as [j'|] eqn:Hj; [|done]. cbn.
    destruct (index_lt q _ _ Hok Hj) as (e' & He' & _). apply Hold. by eapply lookup_lt_Some.
Qed.

Lemma trim_spec shrink q : wf q -> wf (trim shrink q) /\ contents (trim shrink q) = contents q.
Proof.
  intros [Hok Hh]. unfold trim. destruct (entries q) as [|e l] eqn:E.
  { split; [split|]; [| |unfold contents; by rewrite E].
    - intros k i. unfold key_at, empty_queue. cbn. by rewrite lookup_empty.
    - intros i _ x y Hx. unfold at_, empty_queue in Hx. cbn in Hx. done. }
  destruct shrink; [|done]. rewrite <- E. split; [|done]. split; [|exact Hh].
  unfold index_ok. cbn [index entries]. by apply rebuild_indexes, index_ok_nodup.
Qed.

(** The entry at [i] moved last and cut off. *)
Lemma cut_spec q i last e : wf q -> entries q !! i = Some e -> length (entries q) = S last ->
  exists q1, swap i last q = Some q1 /\
    let q2 := mkQueue (take last (entries q1)) (delete (e_key e) (index q1)) in
    index_ok q2 /\ contents q2 = delete (e_key e) (contents q) /\ length (entries q2) = last /\
    (i < last -> hole (at_ q2) i)%nat /\ (i = last -> heap (at_ q2)).
Proof.
  intros [Hok Hh] He Hlen. pose proof (lookup_lt_Some _ _ _ He) as Hi.
  destruct (lookup_lt_is_Some_2 (entries q) last ltac:(lia)) as [el Hel].
  destruct (swap_spec i last q e el He Hel Hok) as (q1 & -> & Hok1 & Hp & Hl). exists q1. split; [done|].
  assert (length (entries q1) = S last) as Hlen1 by (by rewrite Hp).
  assert (entries q1 !! last = Some e) as Hlast.
  { rewrite Hl. unfold tr. case_decide; [subst; congruence|]. by rewrite decide_True. }
  set (q2 := mkQueue _ _). cbn zeta.
  assert (forall j, (j < last)%nat -> entries q2 !! j = entries q1 !! j) as Hlow by (intros; unfold q2; cbn; by rewrite lookup_take_lt).
  assert (forall j x, entries q2 !! j = Some x -> (j < last)%nat) as Hin.
  { intros j x Hx. apply lookup_lt_Some in Hx. unfold q2 in Hx. cbn in Hx. rewrite length_take in Hx. lia. }
  assert (index_ok q2) as Hok2.
  { intros k j. unfold q2. cbn [index]. unfold key_at. cbn [entries]. fold (entries q2). destruct (decide (k = e_key e)) as [->|Hne].
    - rewrite lookup_delete_eq. split; [done|]. intros Hk. apply fmap_Some in Hk as (x & Hx & Hk). pose proof (Hin j x Hx) as Hj.
      change (take last (entries q1) !! j) with (entries q2 !! j) in Hx. rewrite Hlow in Hx by done.
      assert (index q1 !! e_key e = Some j) by (apply Hok1; unfold key_at; by rewrite Hx, Hk).
      assert (index q1 !! e_key e = Some last) by (apply Hok1; unfold key_at; by rewrite Hlast). simplify_eq. lia.
    - rewrite lookup_delete_ne by done. rewrite (Hok1 k j). unfold key_at. change (take last (entries q1) !! j) with (entries q2 !! j).
      destruct (decide (j < last)%nat); [by rewrite Hlow|]. split; intros Hk; apply fmap_Some in Hk as (x & Hx & Hk).
      + assert (j = last) as -> by (apply lookup_lt_Some in Hx; lia). congruence.
      + pose proof (Hin j x Hx). lia. }
  split_and!; [done | | unfold q2; cbn; rewrite length_take; lia | |].
  - apply map_eq. intros k. apply option_eq. intros x. rewrite lookup_delete_Some, (contents_lookup q2), (contents_lookup q) by done.
    split.
    + intros [Hx <-]. apply list_elem_of_lookup in Hx as [j Hj]. pose proof (Hin j x Hj). rewrite Hlow in Hj by done. split_and!; [| |done].
      * intros E. assert (index q1 !! e_key e = Some j) by (apply Hok1; unfold key_at; by rewrite Hj, E).
        assert (index q1 !! e_key e = Some last) by (apply Hok1; unfold key_at; by rewrite Hlast). simplify_eq. lia.
      * rewrite <- Hp. by eapply list_elem_of_lookup_2.
    + intros (Hne & Hx & <-). split; [|done]. rewrite <- Hp in Hx. apply list_elem_of_lookup in Hx as [j Hj].
      apply list_elem_of_lookup. exists j. rewrite Hlow; [done|]. pose proof (lookup_lt_Some _ _ _ Hj).
      assert (j <> last); [|lia]. intros ->. congruence.
  - intros Hil. pose proof (heap_hole _ i (at_total q) Hh) as [H1 H2].
    assert (forall j z, j <> i -> at_ q2 j = Some z -> at_ q j = Some z) as Hsame.
    { intros j z Hj Hz. unfold at_ in *. apply fmap_Some in Hz as (x & Hx & ->). pose proof (Hin j x Hx). rewrite Hlow, Hl in Hx by done.
      unfold tr in Hx. rewrite !decide_False in Hx by lia. by rewrite Hx. }
    split.
    + intros j Hj Hji Hpi a b Ha Hb. by apply (H1 j Hj Hji Hpi a b (Hsame _ _ Hpi Ha) (Hsame _ _ Hji Hb)).
    + intros j a b Hi0 Hj Hpj Ha Hb. pose proof (parent_lt i Hi0). pose proof (parent_lt j Hj).
      apply (H2 j a b Hi0 Hj Hpj (Hsame (parent i) a ltac:(lia) Ha) (Hsame j b ltac:(lia) Hb)).
  - intros ->. assert (forall j z, at_ q2 j = Some z -> at_ q j = Some z) as Hsame.
    { intros j z Hz. unfold at_ in *. apply fmap_Some in Hz as (x & Hx & ->). pose proof (Hin j x Hx). rewrite Hlow, Hl in Hx by done.
      unfold tr in Hx. rewrite !decide_False in Hx by lia. by rewrite Hx. }
    intros j Hj a b Ha Hb. by apply (Hh j Hj a b (Hsame _ _ Ha) (Hsame _ _ Hb)).
Qed.
Lemma cancel_cases k q : wf q ->
  (index q !! k = None /\ forall shrink, cancel shrink k q = Some q) \/
  exists q', wf q' /\ contents q' = delete k (contents q) /\ forall shrink, cancel shrink k q = Some (trim shrink q').
Proof.
  intros Hwf. unfold cancel. destruct (index q !! k) as [i|] eqn:Hi; [|by left]. right.
  destruct (index_lt q _ _ (proj1 Hwf) Hi) as (e & He & <-). pose proof (lookup_lt_Some _ _ _ He) as Hlt.
  set (last := (length (entries q) - 1)%nat). assert (length (entries q) = S last) as Hlen by (unfold last; lia).
  destruct (cut_spec q i last e Hwf He Hlen) as (q1 & Hs & Hok & Hc & Hl & Hhole & Hheap).
  assert (exists q3, (if decide (i < last)%nat
      then '(i, q) ← up i (mkQueue (take last (entries q1)) (delete (e_key e) (index q1))); down i q
      else Some (mkQueue (take last (entries q1)) (delete (e_key e) (index q1)))) = Some q3 /\
    wf q3 /\ contents q3 = delete (e_key e) (contents q)) as (q3 & Hq3 & Hwf3 & Hc3).
  { case_decide as Hil.
    - destruct (up_down_spec i _ ltac:(rewrite Hl; exact Hil) Hok (Hhole Hil)) as (j & qa & qb & Hu & Hd & Hr & Hhp).
      rewrite Hu. cbn -[down]. rewrite Hd. exists qb. split; [done|]. split; [split; [apply Hr | done]|].
      by rewrite (rearranged_contents _ qb Hok Hr).
    - eexists. split; [done|]. split; [split; [exact Hok | apply Hheap; lia] | exact Hc]. }
  exists q3. split_and!; [done | done |]. intros shrink. rewrite decide_False by (intros E; rewrite E in Hlt; cbn in Hlt; lia).
  rewrite Hs. cbn -[up down trim]. by rewrite Hq3.
Qed.
(** Shrinking the storage changes nothing. *)
Lemma trim_same q : wf q -> trim true q = trim false q.
Proof.
  intros [Hok _]. unfold trim. destruct (entries q) as [|e l] eqn:E; [done|]. rewrite <- E. destruct q as [l' idx]. cbn. f_equal.
  eapply indexes_unique; [|exact Hok]. apply rebuild_indexes. by apply (index_ok_nodup (mkQueue l' idx)).
Qed.

Lemma cancel_spec shrink k q : wf q ->
  exists q', cancel shrink k q = Some q' /\ wf q' /\ contents q' = delete k (contents q).
Proof.
  intros Hwf. destruct (cancel_cases k q Hwf) as [[Hi Hc]|(q' & Hwf' & Hc & Hq)].
  - exists q. split_and!; [done | done|]. rewrite delete_id; [done|]. rewrite contents_index by apply Hwf. by rewrite Hi.
  - destruct (trim_spec shrink q' Hwf') as [Hwf2 Hc2]. rewrite Hq. eexists. split; [done|]. split; [done | congruence].
Qed.
Lemma cancel_shrink shrink k q : wf q -> cancel shrink k q = cancel false k q.
Proof.
  intros Hwf. destruct (cancel_cases k q Hwf) as [[_ Hc]|(q' & Hwf' & _ & Hq)]; [by rewrite !Hc|].
  rewrite !Hq. destruct shrink; [|done]. by rewrite trim_same.
Qed.

Lemma heap_root q i a b : heap (at_ q) -> at_ q 0 = Some a -> at_ q i = Some b -> a <= b.
Proof.
  intros Hh Ha. revert b. induction i as [i IH] using lt_wf_ind. intros b Hb.
  destruct (decide (i = 0)%nat) as [->|]; [assert (a = b) by congruence; lia|].
  pose proof (parent_lt i ltac:(lia)) as Hp. assert (is_Some (at_ q (parent i))) as [c Hc] by (apply (at_total q _ i); [lia | by eexists]).
  pose proof (IH (parent i) Hp c Hc). pose proof (Hh i ltac:(lia) c b Hc Hb). lia.
Qed.
Lemma first_spec q : wf q ->
  match first q with
  | None => contents q = ∅
  | Some e => contents q !! e_key e = Some e /\ forall k e', contents q !! k = Some e' -> e_at e <= e_at e'
  end.
Proof.
  intros [Hok Hh]. unfold first. destruct (entries q) as [|e l] eqn:E; [unfold contents; by rewrite E|]. cbn. split.
  - apply contents_lookup; [done|]. split; [|done]. rewrite E. apply list_elem_of_here.
  - intros k e' He'. apply contents_lookup in He' as [Hin _]; [|done]. apply list_elem_of_lookup in Hin as [i Hi].
    eapply (heap_root q i); [done | unfold at_; by rewrite E | unfold at_; by rewrite Hi].
Qed.

(** ** The queue as a map

    What a client may rely on: the deadlines by key; the one taken is due and
    no other is earlier. *)
Definition deadlines : Type := gmap deadlineKey deadlineEntry.
Inductive qop := Set_ (e : deadlineEntry) | Cancel (k : deadlineKey) (shrink : bool) | Due (now : Z) (shrink : bool).
Definition run_op (op : qop) (q : deadlineQueue) : go (option deadlineEntry * deadlineQueue) :=
  match op with
  | Set_ e => q ← set e q; Some (None, q)
  | Cancel k shrink => q ← cancel shrink k q; Some (None, q)
  | Due now shrink => due shrink now q
  end.
Fixpoint run_ops (ops : list qop) (q : deadlineQueue) : go (list (option deadlineEntry) * deadlineQueue) :=
  match ops with
  | [] => Some ([], q)
  | op :: ops => '(o, q) ← run_op op q; '(os, q) ← run_ops ops q; Some (o :: os, q)
  end.
Definition earliest (m : deadlines) (e : deadlineEntry) : Prop :=
  m !! e_key e = Some e /\ forall k e', m !! k = Some e' -> e_at e <= e_at e'.
Definition spec_op (op : qop) (m : deadlines) (o : option deadlineEntry) (m' : deadlines) : Prop :=
  match op with
  | Set_ e => o = None /\ m' = <[e_key e := e]> m
  | Cancel k _ => o = None /\ m' = delete k m
  | Due now _ =>
      match o with
      | None => m' = m /\ forall k e, m !! k = Some e -> now < e_at e
      | Some e => earliest m e /\ e_at e <= now /\ m' = delete (e_key e) m
      end
  end.
Fixpoint spec_ops (ops : list qop) (m : deadlines) (os : list (option deadlineEntry)) (m' : deadlines) : Prop :=
  match ops, os with
  | [], [] => m' = m
  | op :: ops, o :: os => exists m1, spec_op op m o m1 /\ spec_ops ops m1 os m'
  | _, _ => False
  end.

Lemma run_op_spec op q : wf q ->
  exists o q', run_op op q = Some (o, q') /\ wf q' /\ spec_op op (contents q) o (contents q').
Proof.
  intros Hwf. destruct op as [e|k shrink|now shrink]; cbn [run_op spec_op].
  - destruct (set_spec e q Hwf) as (q' & -> & Hwf' & Hc). by exists None, q'.
  - destruct (cancel_spec shrink k q Hwf) as (q' & -> & Hwf' & Hc). by exists None, q'.
  - unfold due. pose proof (first_spec q Hwf) as Hf. destruct (first q) as [e|].
    + destruct Hf as [He Hmin]. case_decide.
      * exists None, q. split_and!; try done. intros k e' He'. specialize (Hmin k e' He'). lia.
      * destruct (cancel_spec shrink (e_key e) q Hwf) as (q' & -> & Hwf' & Hc). exists (Some e), q'. split_and!; try done. lia.
    + exists None, q. split_and!; try done. intros k e He. by rewrite Hf in He.
Qed.
Lemma run_ops_spec ops : forall q, wf q ->
  exists os q', run_ops ops q = Some (os, q') /\ wf q' /\ spec_ops ops (contents q) os (contents q').
Proof.
  induction ops as [|op ops IH]; intros q Hwf; [by exists [], q|]. cbn [run_ops].
  destruct (run_op_spec op q Hwf) as (o & q1 & -> & Hwf1 & H1). cbn.
  destruct (IH q1 Hwf1) as (os & q' & -> & Hwf' & H2). exists (o :: os), q'. cbn. split_and!; [done | done | by exists (contents q1)].
Qed.
Lemma wf_empty : wf empty_queue.
Proof. split; [|intros i _ x y Hx; done]. intros k i. unfold key_at. cbn. split; intros [=]. Qed.

(** C29: the indexed heap implements a map of deadlines by key: over any
    sequence of set, cancel and due from the empty queue, with the storage
    trimmed whenever, no index is out of range, the heap and the positions stay
    consistent, a key has one entry (the last one set), and due takes an
    earliest entry that is due exactly when there is one. *)
Theorem deadlines_refine_map (ops : list qop) :
  exists os q, run_ops ops empty_queue = Some (os, q) /\ wf q /\ spec_ops ops ∅ os (contents q).
Proof. apply (run_ops_spec ops empty_queue wf_empty). Qed.
