(* ===== verification/LinkReducer.v ===== *)
(** The link monitor's reducer (pkg/linkmonitor/reducer.go,
    lifecycle_counts.go, freshness.go): the inventory of devices as one
    goroutine folds observations into it, with the counts it publishes.

    [collectors] holds, of each collector's state, whether its data is fresh:
    the counts depend on no more of it. *)

From stdpp Require Import gmap.
From S2P Require Import Prelude GoStrings LinkModel KeyIndex.
From S2P Require Deadlines.

(** ** Names *)

(** "/:\,*?[](){}|^$" *)
Definition forbidden : list Z := [47; 58; 92; 44; 42; 63; 91; 93; 40; 41; 123; 125; 124; 94; 36].
Definition validName (name : string) (maxBytes : Z) : bool :=
  let b := string_bytes name in
  if decide (name = "" \/ name = "." \/ name = ".." \/ maxBytes < glen b) then false else
  forallb (fun c => bool_decide (c ∉ forbidden)) b && forallb (fun r => negb (IsSpace r || IsControl r)) (runes b).

(** ** State *)

Record deviceChecks := mkChecks {
  maximumSpeed : Check; maximumWidth : Check; fullDuplex : Check; rdmaReadiness : Check; activeBits : Optional Z }.
Definition zero_checks : deviceChecks := mkChecks CheckUnknown CheckUnknown CheckUnknown CheckUnknown (mkOptional 0 false).
Inductive evidenceClass := evidenceNone | evidenceLink | evidenceRDMA | evidenceDrop | evidenceFlap.
#[export] Instance evidenceClass_eq : EqDecision evidenceClass. Proof. solve_decision. Defined.

Record deviceSlot := mkSlot {
  device : Device; observed : Stamp; counted : bool; upTransitions : Z; downTransitions : Z;
  fresh : CollectorKind -> bool; checks : deviceChecks; requiresRDMA : bool; missingRDMA : bool;
  evidence : evidenceClass -> Optional Stamp; settledFrom : Stamp }.
Definition no_stamp : Optional Stamp := mkOptional (mkStamp 0 0) false.
(** [&deviceSlot{device, observed, settledFrom}] *)
Definition new_slot (d : Device) (obs settled : Stamp) : deviceSlot :=
  mkSlot d obs false 0 0 (fun _ => false) zero_checks false false (fun _ => no_stamp) settled.

Record reducer := mkReducer {
  rdmaUncertain : Z; namespace : Z; epoch : Z; revision : Z; generation : Z; countRevision : Z;
  r_index : gmap DeviceKey nat; slots : list deviceSlot; upCount : Z; uncertain : Z; dirtyPages : list Z;
  r_deadlines : Deadlines.deadlineQueue; configuration : Z; lastResync : Optional Stamp; resyncEpoch : Z;
  routeEvents : bool; rdmaEvents : bool; resyncOverdue : bool; requiredRDMA : Z; missing : Z;
  rdmaEventsUnsupported : bool }.
(** [configuration] is the freshness policy's. *)
Definition newReducer (ns conf : Z) : reducer :=
  mkReducer 0 ns 1 0 0 0 ∅ [] 0 0 [] Deadlines.empty_queue conf no_stamp 0 false false false 0 0 false.

Definition MaxUint64 : Z := 2 ^ 64 - 1.

(** Record updates. *)
Definition with_slots (idx : gmap DeviceKey nat) (s : list deviceSlot) (r : reducer) : reducer :=
  mkReducer (rdmaUncertain r) (namespace r) (epoch r) (revision r) (generation r) (countRevision r) idx s (upCount r)
    (uncertain r) (dirtyPages r) (r_deadlines r) (configuration r) (lastResync r) (resyncEpoch r) (routeEvents r) (rdmaEvents r)
    (resyncOverdue r) (requiredRDMA r) (missing r) (rdmaEventsUnsupported r).
Definition with_revisions (ep rev gen cnt : Z) (r : reducer) : reducer :=
  mkReducer (rdmaUncertain r) (namespace r) ep rev gen cnt (r_index r) (slots r) (upCount r)
    (uncertain r) (dirtyPages r) (r_deadlines r) (configuration r) (lastResync r) (resyncEpoch r) (routeEvents r) (rdmaEvents r)
    (resyncOverdue r) (requiredRDMA r) (missing r) (rdmaEventsUnsupported r).
Definition with_counts (up unc req mis : Z) (r : reducer) : reducer :=
  mkReducer (rdmaUncertain r) (namespace r) (epoch r) (revision r) (generation r) (countRevision r) (r_index r) (slots r) up
    unc (dirtyPages r) (r_deadlines r) (configuration r) (lastResync r) (resyncEpoch r) (routeEvents r) (rdmaEvents r)
    (resyncOverdue r) req mis (rdmaEventsUnsupported r).
Definition with_dirty (d : list Z) (r : reducer) : reducer :=
  mkReducer (rdmaUncertain r) (namespace r) (epoch r) (revision r) (generation r) (countRevision r) (r_index r) (slots r) (upCount r)
    (uncertain r) d (r_deadlines r) (configuration r) (lastResync r) (resyncEpoch r) (routeEvents r) (rdmaEvents r)
    (resyncOverdue r) (requiredRDMA r) (missing r) (rdmaEventsUnsupported r).
Definition with_deadlines (q : Deadlines.deadlineQueue) (r : reducer) : reducer :=
  mkReducer (rdmaUncertain r) (namespace r) (epoch r) (revision r) (generation r) (countRevision r) (r_index r) (slots r) (upCount r)
    (uncertain r) (dirtyPages r) q (configuration r) (lastResync r) (resyncEpoch r) (routeEvents r) (rdmaEvents r)
    (resyncOverdue r) (requiredRDMA r) (missing r) (rdmaEventsUnsupported r).
Definition with_resync (at_ : Optional Stamp) (ep : Z) (overdue : bool) (r : reducer) : reducer :=
  mkReducer (rdmaUncertain r) (namespace r) (epoch r) (revision r) (generation r) (countRevision r) (r_index r) (slots r) (upCount r)
    (uncertain r) (dirtyPages r) (r_deadlines r) (configuration r) at_ ep (routeEvents r) (rdmaEvents r)
    overdue (requiredRDMA r) (missing r) (rdmaEventsUnsupported r).
Definition with_events (route rdma : bool) (r : reducer) : reducer :=
  mkReducer (rdmaUncertain r) (namespace r) (epoch r) (revision r) (generation r) (countRevision r) (r_index r) (slots r) (upCount r)
    (uncertain r) (dirtyPages r) (r_deadlines r) (configuration r) (lastResync r) (resyncEpoch r) route rdma
    (resyncOverdue r) (requiredRDMA r) (missing r) (rdmaEventsUnsupported r).

Definition set_device (d : Device) (obs : Stamp) (s : deviceSlot) : deviceSlot :=
  mkSlot d obs (counted s) (upTransitions s) (downTransitions s) (fresh s) (checks s) (requiresRDMA s) (missingRDMA s) (evidence s) (settledFrom s).
Definition set_checks (c : deviceChecks) (s : deviceSlot) : deviceSlot :=
  mkSlot (device s) (observed s) (counted s) (upTransitions s) (downTransitions s) (fresh s) c (requiresRDMA s) (missingRDMA s) (evidence s) (settledFrom s).
Definition set_fresh (f : CollectorKind -> bool) (s : deviceSlot) : deviceSlot :=
  mkSlot (device s) (observed s) (counted s) (upTransitions s) (downTransitions s) f (checks s) (requiresRDMA s) (missingRDMA s) (evidence s) (settledFrom s).
Definition set_token (t : Token) (d : Device) : Device :=
  mkDevice (Key d) t (Name d) (Up d) (dev_Eligibility d) (HardwareID d) (RDMA d).
Definition set_hardware (h : string) (d : Device) : Device :=
  mkDevice (Key d) (dev_Token d) (Name d) (Up d) (dev_Eligibility d) h (RDMA d).

(** ** Operations *)

Inductive red_err := ErrInvalidIdentity | ErrSequenceExhausted.
#[export] Instance red_err_eq : EqDecision red_err. Proof. solve_decision. Defined.

Definition validKey (key : DeviceKey) (r : reducer) : bool :=
  bool_decide (Namespace key = namespace r) &&
  match Kind key with
  | DeviceEthernet => bool_decide (0 < Index key /\ RDMADevice key = "" /\ Port key = 0)
  | DeviceNativeRDMA => bool_decide (Index key = 0 /\ 0 < Port key) && validName (RDMADevice key) 63
  | DeviceUnknown => false
  end.
Definition observationMatches (incoming current : Token) : bool :=
  bool_decide (Generation incoming = 0 \/ Generation incoming = Generation current) &&
  bool_decide (Revision incoming = 0 \/ Revision incoming = Revision current).
Definition countDecision (d : Device) : Optional bool :=
  match dev_Eligibility d with
  | Excluded => presentValue false
  | Eligible => Up d
  | EligibilityUnknown => mkOptional false false
  end.
Definition countIdentityChanged (old next : Device) (replaced : bool) : bool :=
  if decide (dev_Eligibility old = Excluded /\ dev_Eligibility next = Excluded) then false else
  replaced || bool_decide (dev_Eligibility old <> dev_Eligibility next \/ Up old <> Up next \/ RDMA old <> RDMA next).

Definition b2z (b : bool) : Z := if b then 1 else 0.
Definition requires (d : Device) : bool :=
  bool_decide (dev_Eligibility d = Eligible) && (bool_decide (Kind (Key d) = DeviceNativeRDMA) || RDMA d).
Definition unaccount (s : deviceSlot) (r : reducer) : reducer :=
  with_counts (uint64 (upCount r - b2z (counted s))) (uint64 (uncertain r - b2z (negb (Present (countDecision (device s))))))
    (uint64 (requiredRDMA r - b2z (requiresRDMA s))) (uint64 (missing r - b2z (missingRDMA s))) r.
Definition account (s : deviceSlot) (r : reducer) : deviceSlot * reducer :=
  let req := requires (device s) in
  let mis := req && negb (fresh s CollectorRDMAState) in
  let decision := countDecision (device s) in
  let cnt := if Present decision then Value decision else counted s in
  (mkSlot (device s) (observed s) cnt (upTransitions s) (downTransitions s) (fresh s) (checks s) req mis (evidence s) (settledFrom s),
   with_counts (uint64 (upCount r + b2z cnt)) (uint64 (uncertain r + b2z (negb (Present decision))))
     (uint64 (requiredRDMA r + b2z req)) (uint64 (missing r + b2z mis)) r).
Definition countTransition (s : deviceSlot) (next : Device) (obs : Stamp) : deviceSlot :=
  let old := device s in
  if decide (dev_Eligibility old <> Eligible \/ dev_Eligibility next <> Eligible \/ Present (Up old) = false \/
             Present (Up next) = false \/ Value (Up old) = Value (Up next)) then s
  else if Value (Up next) then
    mkSlot (device s) (observed s) (counted s) (uint64 (upTransitions s + 1)) (downTransitions s) (fresh s) (checks s) (requiresRDMA s)
      (missingRDMA s) (evidence s) obs
  else
    mkSlot (device s) (observed s) (counted s) (upTransitions s) (uint64 (downTransitions s + 1)) (fresh s) (checks s) (requiresRDMA s)
      (missingRDMA s) (fun c => if decide (c = evidenceFlap) then presentValue obs else evidence s c) (settledFrom s).

Definition devicesPerPage : nat := 32.
Fixpoint extend (n : nat) (l : list Z) : list Z :=
  match n, l with
  | O, _ => l
  | S n, [] => 0 :: extend n []
  | S n, x :: l => x :: extend n l
  end.
Definition markDirty (i : nat) (r : reducer) : reducer :=
  let page := (i / devicesPerPage)%nat in
  with_dirty (alter (fun m => Z.lor m (Z.shiftl 1 (Z.of_nat (i mod devicesPerPage)))) page (extend (S page) (dirtyPages r))) r.

(** The capacity of the queue's storage is left out: shrinking it rebuilds the
    same index ([Deadlines.cancel_shrink]). *)
Definition cancel (k : Deadlines.deadlineKey) (r : reducer) : go reducer :=
  q ← Deadlines.cancel false k (r_deadlines r); Some (with_deadlines q r).
Fixpoint cancel_all (l : list Deadlines.deadlineKey) (r : reducer) : go reducer :=
  match l with [] => Some r | k :: l => r ← cancel k r; cancel_all l r end.
Definition device_deadlines (key : DeviceKey) (r : reducer) : list Deadlines.deadlineKey :=
  Deadlines.mkKey Deadlines.deadlineCarrierFields (mkJobKey (namespace r) key CollectorCarrier) ::
  ((fun kind => Deadlines.mkKey Deadlines.deadlineCollector (mkJobKey (namespace r) key kind)) <$> device_collectors).
Definition cancelDeviceDeadlines (key : DeviceKey) (r : reducer) : go reducer := cancel_all (device_deadlines key r) r.

Definition insert_device (o : Observation) (r : reducer) : (bool + red_err) * reducer :=
  if decide (revision r = MaxUint64 \/ generation r = MaxUint64) then (inr ErrSequenceExhausted, r) else
  let d := ob_Device o in
  let rev := revision r + 1 in
  let gen := generation r + 1 in
  let r := with_revisions (epoch r) rev gen (if decide (dev_Eligibility d <> Excluded) then rev else countRevision r) r in
  let d := set_token (mkToken gen rev (epoch r) 0) d in
  let '(s, r) := account (new_slot d (Observed o) (Observed o)) r in
  let n := length (slots r) in
  (inl true, markDirty n (with_slots (<[Key d := n]> (r_index r)) (slots r ++ [s]) r)).

(** [observe] of a device that is known and whose record changes, with the
    token current and the hardware id filled in. *)
Definition update_device (i : nat) (s : deviceSlot) (d : Device) (obs : Stamp) (r : reducer) : go ((bool + red_err) * reducer) :=
  let replaced := bool_decide (HardwareID d <> "" /\ HardwareID (device s) <> "" /\ HardwareID d <> HardwareID (device s)) in
  if decide (replaced = false /\ d = device s) then
    let r := if decide (observed s <> obs) then markDirty i r else r in
    Some (inl false, with_slots (r_index r) (<[i := set_device (device s) obs s]> (slots r)) r)
  else if decide (revision r = MaxUint64 \/ replaced = true /\ generation r = MaxUint64) then Some (inr ErrSequenceExhausted, r)
  else
    let rev := revision r + 1 in
    let r := with_revisions (epoch r) rev (generation r)
               (if countIdentityChanged (device s) d replaced then rev else countRevision r) r in
    let d := set_token (mkToken (Generation (dev_Token d)) rev (epoch r) (Attempt (dev_Token d))) d in
    '(s, r) ← (if replaced then
                 r ← cancelDeviceDeadlines (Key d) r;
                 let gen := generation r + 1 in
                 let r := with_revisions (epoch r) (revision r) gen (countRevision r) r in
                 Some (set_device (set_token (mkToken gen rev (epoch r) (Attempt (dev_Token d))) d) obs
                         (new_slot d obs obs), unaccount s r)
               else
                 let s := countTransition s d obs in
                 Some (set_device d obs s, unaccount s r));
    let '(s, r) := account (set_checks zero_checks s) r in
    Some (inl true, markDirty i (with_slots (r_index r) (<[i := s]> (slots r)) r)).
Definition observe (o : Observation) (r : reducer) : go ((bool + red_err) * reducer) :=
  let d := ob_Device o in
  if negb (validKey (Key d) r) then Some (inr ErrInvalidIdentity, r) else
  if decide (SourceEpoch (dev_Token d) <> epoch r) then Some (inl false, r) else
  match r_index r !! Key d with
  | None =>
      if decide (Generation (dev_Token d) <> 0 \/ Revision (dev_Token d) <> 0) then Some (inl false, r)
      else Some (insert_device o r)
  | Some i =>
      s ← slots r !! i;
      if negb (observationMatches (dev_Token d) (dev_Token (device s))) then Some (inl false, r) else
      let d := if decide (HardwareID d = "") then set_hardware (HardwareID (device s)) d else d in
      let t := dev_Token (device s) in
      update_device i s (set_token (mkToken (Generation t) (Revision t) (epoch r) (Attempt t)) d) (Observed o) r
  end.

(** [shrink]: whether there is much more storage than slots. *)
Definition trim (shrink : bool) (r : reducer) : reducer :=
  match slots r with
  | [] => with_slots ∅ [] r
  | l => if shrink then with_slots (rebuild (fun s => Key (device s)) l) l r else r
  end.
Definition remove (shrink : bool) (key : DeviceKey) (token : Token) (r : reducer) : go ((bool + red_err) * reducer) :=
  match r_index r !! key with
  | None => Some (inl false, r)
  | Some i =>
      if decide (SourceEpoch token <> epoch r) then Some (inl false, r) else
      s ← slots r !! i;
      if negb (observationMatches token (dev_Token (device s))) then Some (inl false, r) else
      if decide (revision r = MaxUint64) then Some (inr ErrSequenceExhausted, r) else
      let rev := revision r + 1 in
      let r := with_revisions (epoch r) rev (generation r) (countRevision r) r in
      r ← cancelDeviceDeadlines key r;
      let r := if decide (dev_Eligibility (device s) <> Excluded)
               then with_revisions (epoch r) (revision r) (generation r) (revision r) r else r in
      let r := unaccount s r in
      let last := (length (slots r) - 1)%nat in
      let r := markDirty last (markDirty i r) in
      sl ← slots r !! last;
      let '(idx, l) := if decide (i <> last) then (<[Key (device sl) := i]> (r_index r), <[i := sl]> (slots r))
                       else (r_index r, slots r) in
      Some (inl true, trim shrink (with_slots (delete key idx) (take last l) r))
  end.

Fixpoint markDirty_all (n : nat) (r : reducer) : reducer :=
  match n with O => r | S n => markDirty n (markDirty_all n r) end.
Definition loseEvents (r : reducer) : (unit + red_err) * reducer :=
  if decide (epoch r = MaxUint64 \/ revision r = MaxUint64) then (inr ErrSequenceExhausted, r) else
  let r := with_revisions (epoch r + 1) (revision r + 1) (generation r) (revision r + 1) r in
  let r := with_events false (rdmaEvents r) r in
  (inl tt, markDirty_all (length (slots r)) (with_slots (r_index r) (set_checks zero_checks <$> slots r) r)).
Definition setSubscriptions (route rdma : bool) (r : reducer) : (unit + red_err) * reducer :=
  if (routeEvents r && negb route) || (rdmaEvents r && negb rdma && bool_decide (requiredRDMA r <> 0)) then
    match loseEvents r with
    | (inr e, r) => (inr e, r)
    | (inl _, r) => (inl tt, with_events route rdma r)
    end
  else (inl tt, with_events route rdma r).

Definition is_native (s : deviceSlot) : bool := bool_decide (Kind (Key (device s)) = DeviceNativeRDMA).
Definition no_bits : Optional Z := mkOptional 0 false.
Definition invalidateChecks (s : deviceSlot) (kind : CollectorKind) : deviceSlot :=
  let c := checks s in
  match kind with
  | CollectorSettings =>
      if bool_decide (Kind (Key (device s)) = DeviceEthernet)
      then set_checks (mkChecks CheckUnknown (maximumWidth c) CheckUnknown (rdmaReadiness c) no_bits) s else s
  | CollectorRDMAState =>
      if is_native s && negb (fresh s kind)
      then set_checks (mkChecks CheckUnknown CheckUnknown (fullDuplex c) CheckUnknown no_bits) s
      else set_checks (mkChecks (maximumSpeed c) (maximumWidth c) (fullDuplex c) CheckUnknown (activeBits c)) s
  | CollectorRDMACapabilities =>
      if is_native s
      then set_checks (mkChecks CheckUnknown CheckUnknown (fullDuplex c) (rdmaReadiness c) no_bits) s else s
  | _ => s
  end.
(** [effectiveChecks], the assignments in the order of the code. *)
Definition effectiveChecks (s : deviceSlot) : deviceChecks :=
  let own := checks s in
  let native := is_native s in
  let c := mkChecks (maximumSpeed own) CheckNotApplicable (fullDuplex own) CheckNotApplicable (activeBits own) in
  let c :=
    if native then
      let c := mkChecks (maximumSpeed c) (maximumWidth own) CheckNotApplicable (rdmaReadiness c) (activeBits c) in
      if negb (fresh s CollectorRDMACapabilities) || negb (fresh s CollectorRDMAState)
      then mkChecks CheckUnknown CheckUnknown (fullDuplex c) (rdmaReadiness c) (activeBits c) else c
    else if negb (fresh s CollectorSettings)
    then mkChecks CheckUnknown (maximumWidth c) CheckUnknown (rdmaReadiness c) (activeBits c) else c in
  let c :=
    if requiresRDMA s
    then mkChecks (maximumSpeed c) (maximumWidth c) (fullDuplex c)
           (if fresh s CollectorRDMAState then rdmaReadiness own else CheckUnknown) (activeBits c) else c in
  let up := Up (device s) in
  let up := if native && negb (fresh s CollectorRDMAState) then mkOptional (Value up) false else up in
  let link := fun v c =>
    if native then mkChecks v v (fullDuplex c) (rdmaReadiness c) (activeBits c)
    else mkChecks v (maximumWidth c) v (rdmaReadiness c) (activeBits c) in
  let c := if negb (Present up) then link CheckUnknown c else if negb (Value up) then link CheckNotApplicable c else c in
  if decide (maximumSpeed c <> CheckPass /\ maximumSpeed c <> CheckFail)
  then mkChecks (maximumSpeed c) (maximumWidth c) (fullDuplex c) (rdmaReadiness c) no_bits else c.

(** [collectionChanged], for a collector of the device of [key] whose state
    became [b] fresh, after an attempt that succeeded or not. *)
Definition collectionChanged (key : DeviceKey) (kind : CollectorKind) (b succeeded : bool) (r : reducer) : go reducer :=
  match r_index r !! key with
  | None => Some r
  | Some i =>
      s ← slots r !! i;
      let s := set_fresh (fun k => if decide (k = kind) then b else fresh s k) s in
      let s := if succeeded || negb b then invalidateChecks s kind else s in
      let '(s, r) := account s (unaccount s r) in
      Some (markDirty i (with_slots (r_index r) (<[i := s]> (slots r)) r))
  end.

(** [applyEvent] of a refresh hint. *)
Definition refreshEvent (key : DeviceKey) (r : reducer) : go ((bool + red_err) * reducer) :=
  if decide (revision r = MaxUint64) then Some (inr ErrSequenceExhausted, r) else
  let rev := revision r + 1 in
  let r := with_revisions (epoch r) rev (generation r) (countRevision r) r in
  match r_index r !! key with
  | None => Some (inl true, r)
  | Some i =>
      s ← slots r !! i;
      let t := dev_Token (device s) in
      let d := set_token (mkToken (Generation t) rev (SourceEpoch t) (Attempt t)) (device s) in
      let s := set_checks zero_checks (set_device d (observed s) s) in
      Some (inl true, markDirty i (with_slots (r_index r) (<[i := s]> (slots r)) r))
  end.

Definition recordResync (token : Token) (now : Stamp) (r : reducer) : go (bool * reducer) :=
  if decide (SourceEpoch token <> epoch r \/ Revision token <> revision r \/ Monotonic now < 0 \/
             (Present (lastResync r) = true /\ Monotonic now < Monotonic (Value (lastResync r)))) then Some (false, r) else
  let r := with_resync (presentValue now) (epoch r) false r in
  let key := Deadlines.mkKey Deadlines.deadlineResync (mkJobKey 0 zero_DeviceKey CollectorUnknown) in
  r ← cancel key r;
  let at_ := Deadlines.deadlineAfter (Monotonic now) (configuration r) in
  if decide (at_ <> 2 ^ 63 - 1) then
    q ← Deadlines.set (Deadlines.mkEntry key (at_ + 1) 0 zero_Token) (r_deadlines r); Some (true, with_deadlines q r)
  else Some (true, r).

Record Health := mkHealth { Running : bool; Ready : bool; CollectionHealthy : bool; BaselineReady : bool; BaselineProvisional : bool }.
Definition publicationHealth (running baseline : bool) (r : reducer) : Health :=
  let healthy := Present (lastResync r) && bool_decide (resyncEpoch r = epoch r) && negb (resyncOverdue r) &&
    routeEvents r && bool_decide (uncertain r = 0 /\ rdmaUncertain r = 0 /\ missing r = 0) &&
    (bool_decide (requiredRDMA r = 0) || rdmaEvents r || rdmaEventsUnsupported r) in
  mkHealth running (running && baseline && healthy) (running && healthy) baseline false.
Definition countReady (r : reducer) : bool :=
  Present (lastResync r) && bool_decide (resyncEpoch r = epoch r) && negb (resyncOverdue r) &&
  routeEvents r && bool_decide (uncertain r = 0 /\ rdmaUncertain r = 0) &&
  (bool_decide (requiredRDMA r = 0) || rdmaEvents r || rdmaEventsUnsupported r).
