(* ===== verification/LinkReducerSpec.v ===== *)
(** Specifications of [LinkReducer]: under any sequence of observations,
    removals, losses and freshness changes the published counts are those of the
    inventory, and a token stands for one record of one device. *)

From stdpp Require Import gmap.
From S2P Require Import Prelude GoStrings LinkModel KeyIndex LinkReducer.
From S2P Require Deadlines.

(** ** Counting slots *)

Fixpoint cnt (p : deviceSlot -> bool) (l : list deviceSlot) : Z :=
  match l with [] => 0 | s :: l => b2z (p s) + cnt p l end.
Lemma slots_app p l k : cnt p (l ++ k) = cnt p l + cnt p k.
Proof. induction l as [|s l IH]; cbn; lia. Qed.
Lemma cnt_insert p l i s s' : l !! i = Some s -> cnt p (<[i := s']> l) = cnt p l - b2z (p s) + b2z (p s').
Proof.
  intros Hi. rewrite (insert_take_drop l i s') by (by eapply lookup_lt_Some). rewrite <- (take_drop_middle l i s Hi) at 3.
  rewrite !slots_app. cbn. lia.
Qed.
Lemma cnt_cut p l i last s sl : l !! i = Some s -> l !! last = Some sl -> length l = S last ->
  cnt p (take last (<[i := sl]> l)) = cnt p l - b2z (p s).
Proof.
  intros Hi Hl Hlen. pose proof (cnt_insert p l i s sl Hi) as H.
  assert (<[i := sl]> l = take last (<[i := sl]> l) ++ [sl]) as E.
  { rewrite <- (take_drop last (<[i := sl]> l)) at 1. f_equal.
    assert (<[i := sl]> l !! last = Some sl) as Hls.
    { destruct (decide (i = last)) as [->|]; [rewrite list_lookup_insert_eq by lia; done | by rewrite list_lookup_insert_ne]. }
    rewrite (drop_S _ _ _ Hls). f_equal. apply drop_ge. rewrite length_insert. lia. }
  rewrite E, slots_app in H. cbn in H. lia.
Qed.
Lemma cnt_fmap p f l : (forall s, p (f s) = p s) -> cnt p (f <$> l) = cnt p l.
Proof. intros Hf. induction l as [|s l IH]; cbn; [done|]. by rewrite Hf, IH. Qed.
Lemma slots_nonneg p l : 0 <= cnt p l <= Z.of_nat (length l).
Proof. induction l as [|s l IH]; cbn [cnt length]; [lia|]. unfold b2z. case_match; lia. Qed.

Definition undecided (s : deviceSlot) : bool := negb (Present (countDecision (device s))).
(** The four counters stand for these numbers. *)
Definition counted_as (r : reducer) (u c q m : Z) : Prop :=
  upCount r = uint64 u /\ uncertain r = uint64 c /\ requiredRDMA r = uint64 q /\ missing r = uint64 m.
Definition counts_ok (r : reducer) : Prop :=
  counted_as r (cnt counted (slots r)) (cnt undecided (slots r)) (cnt requiresRDMA (slots r)) (cnt missingRDMA (slots r)).

Lemma uint64_add a b : uint64 (uint64 a + b) = uint64 (a + b).
Proof. unfold uint64. by rewrite Z.add_mod_idemp_l. Qed.
Lemma uint64_sub a b : uint64 (uint64 a - b) = uint64 (a - b).
Proof. unfold uint64. by rewrite Zminus_mod_idemp_l. Qed.
Lemma unaccount_counts s r u c q m : counted_as r u c q m ->
  counted_as (unaccount s r) (u - b2z (counted s)) (c - b2z (undecided s)) (q - b2z (requiresRDMA s)) (m - b2z (missingRDMA s)).
Proof. intros (Hu & Hc & Hq & Hm). unfold counted_as. cbn. rewrite Hu, Hc, Hq, Hm, !uint64_sub. done. Qed.
Lemma account_counts s r s' r' u c q m : account s r = (s', r') -> counted_as r u c q m ->
  counted_as r' (u + b2z (counted s')) (c + b2z (undecided s')) (q + b2z (requiresRDMA s')) (m + b2z (missingRDMA s')).
Proof. intros [= <- <-] (Hu & Hc & Hq & Hm). unfold counted_as. cbn. rewrite Hu, Hc, Hq, Hm, !uint64_add. done. Qed.

(** What [account] leaves in a slot. *)
Record slot_ok (s : deviceSlot) : Prop := {
  so_counted : Present (countDecision (device s)) = true -> counted s = Value (countDecision (device s));
  so_requires : requiresRDMA s = requires (device s);
  so_missing : missingRDMA s = requires (device s) && negb (fresh s CollectorRDMAState) }.
Lemma account_ok s r s' r' : account s r = (s', r') -> slot_ok s' /\ device s' = device s.
Proof. intros [= <- <-]. split; [|done]. split; cbn; [|done|done]. by intros ->. Qed.

(** ** The invariant *)

Definition key_of (s : deviceSlot) : DeviceKey := Key (device s).
Definition token_of (s : deviceSlot) : Token := dev_Token (device s).
Record rinv (r : reducer) : Prop := {
  ri_index : indexes key_of (r_index r) (slots r);
  ri_counts : counts_ok r;
  ri_slots : Forall slot_ok (slots r);
  ri_tokens : Forall (fun s => 0 < Generation (token_of s) <= generation r /\ 0 < Revision (token_of s) <= revision r) (slots r);
  ri_keys : Forall (fun s => validKey (key_of s) r = true) (slots r);
  ri_bounds : Z.of_nat (length (slots r)) <= generation r <= MaxUint64 /\ 0 <= revision r <= MaxUint64;
  ri_deadlines : Deadlines.wf (r_deadlines r) }.

(** The slot of a device. *)
Definition find_slot (r : reducer) (k : DeviceKey) : option deviceSlot := r_index r !! k ≫= fun i => slots r !! i.
(** Every record of [r'] is one of [r], or has a revision [r] had not given. *)
Definition evolves (r r' : reducer) : Prop :=
  revision r <= revision r' /\
  forall k s', find_slot r' k = Some s' ->
    revision r < Revision (token_of s') \/ exists s, find_slot r k = Some s /\ device s = device s'.

Lemma find_slot_at r i s : rinv r -> slots r !! i = Some s -> find_slot r (key_of s) = Some s.
Proof. intros H Hi. unfold find_slot. rewrite (indexes_at _ _ _ _ _ (ri_index _ H) Hi). done. Qed.
Lemma find_slot_Some r k s : rinv r -> find_slot r k = Some s -> exists i, slots r !! i = Some s /\ key_of s = k.
Proof.
  intros H Hf. apply bind_Some in Hf as (i & Hi & Hs). exists i. split; [done|].
  destruct (indexes_Some _ _ _ _ _ (ri_index _ H) Hi) as (s' & Hs' & <-). congruence.
Qed.
Lemma evolves_refl r : evolves r r.
Proof. split; [lia|]. intros k s Hs. right. by exists s. Qed.
Lemma evolves_trans r1 r2 r3 : evolves r1 r2 -> evolves r2 r3 -> evolves r1 r3.
Proof.
  intros [H1 E1] [H2 E2]. split; [lia|]. intros k s3 Hs. destruct (E2 k s3 Hs) as [?|(s2 & Hs2 & Hd)]; [left; lia|].
  destruct (E1 k s2 Hs2) as [?|(s1 & Hs1 & Hd')]; [left; unfold token_of in *; by rewrite <- Hd | right; exists s1; split; [done | congruence]].
Qed.
(** By positions. *)
Lemma evolves_slots r r' : rinv r -> rinv r' -> revision r <= revision r' ->
  (forall i s', slots r' !! i = Some s' -> revision r < Revision (token_of s') \/
     exists j s, slots r !! j = Some s /\ device s = device s') -> evolves r r'.
Proof.
  intros H H' Hr HS. split; [done|]. intros k s' Hs. destruct (find_slot_Some r' k s' H' Hs) as (i & Hi & <-).
  destruct (HS i s' Hi) as [?|(j & s & Hj & Hd)]; [by left|]. right. exists s. split; [|done].
  replace (key_of s') with (key_of s) by (unfold key_of; by rewrite Hd). by eapply find_slot_at.
Qed.

Lemma cancel_all_spec l : forall r, Deadlines.wf (r_deadlines r) ->
  exists q, cancel_all l r = Some (with_deadlines q r) /\ Deadlines.wf q.
Proof.
  induction l as [|k l IH]; intros r Hq; [exists (r_deadlines r); split; [by destruct r | done]|]. cbn [cancel_all]. unfold cancel.
  destruct (Deadlines.cancel_spec false k (r_deadlines r) Hq) as (q & -> & Hwf & _). cbn -[cancel_all].
  destruct (IH (with_deadlines q r) Hwf) as (q' & -> & Hwf'). by exists q'.
Qed.

(** ** Steps *)

Definition bounded (r : reducer) (t : Token) : Prop :=
  0 < Generation t <= generation r /\ 0 < Revision t <= revision r.
(** What a change of the counters, the dirty pages or the subscriptions keeps. *)
Record grows (r r' : reducer) : Prop := {
  gr_index : r_index r' = r_index r;
  gr_slots : slots r' = slots r;
  gr_namespace : namespace r' = namespace r;
  gr_generation : generation r <= generation r' <= MaxUint64;
  gr_revision : revision r <= revision r' <= MaxUint64;
  gr_deadlines : Deadlines.wf (r_deadlines r') }.

Lemma grows_keys r r' s : namespace r' = namespace r -> validKey s r = true -> validKey s r' = true.
Proof. unfold validKey. by intros ->. Qed.
Lemma grows_rinv r r' : rinv r -> grows r r' -> counts_ok r' -> rinv r'.
Proof.
  intros H [Hi Hs Hn Hg Hr Hd] Hc. destruct H as [I C S T K B D]. split; rewrite ?Hi, ?Hs; try done.
  - eapply Forall_impl; [exact T|]. cbn. intros s. lia.
  - eapply Forall_impl; [exact K|]. intros s. by apply grows_keys.
  - lia.
Qed.
Lemma grows_same r : rinv r -> grows r r.
Proof. intros H. destruct (ri_bounds r H). split; try done; try lia. apply H. Qed.
Lemma grows_evolves r r' : grows r r' -> evolves r r'.
Proof.
  intros [Hi Hs _ _ Hr _]. split; [lia|]. intros k s Hf. right. exists s. split; [|done]. unfold find_slot in *. by rewrite <- Hi, <- Hs.
Qed.

(** The slot at [i] replaced by one accounted for again. *)
Definition put (i : nat) (s : deviceSlot) (r : reducer) : reducer :=
  markDirty i (with_slots (r_index r) (<[i := s]> (slots r)) r).
Lemma put_rinv r r0 i s s1 s' r1 :
  rinv r -> grows r r0 -> counts_ok r0 -> slots r !! i = Some s -> key_of s1 = key_of s -> bounded r0 (token_of s1) ->
  account s1 (unaccount s r0) = (s', r1) -> rinv (put i s' r1).
Proof.
  intros H G C Hi Hk Hb Ha. destruct (account_ok _ _ _ _ Ha) as [Hok Hd]. pose proof (grows_rinv _ _ H G C) as H0.
  assert (Hi0 : slots r0 !! i = Some s) by (by rewrite (gr_slots _ _ G)).
  assert (key_of s' = key_of s) as Hk' by (unfold key_of in *; by rewrite Hd).
  assert (token_of s' = token_of s1) as Ht by (unfold token_of; by rewrite Hd).
  pose proof (account_counts _ _ _ _ _ _ _ _ Ha (unaccount_counts s _ _ _ _ _ C)) as C1.
  assert (E : slots r1 = slots r0 /\ r_index r1 = r_index r0 /\ namespace r1 = namespace r0 /\ generation r1 = generation r0 /\
    revision r1 = revision r0 /\ r_deadlines r1 = r_deadlines r0) by (injection Ha as _ <-; done).
  destruct E as (Es & Ei & En & Eg & Er & Ed). destruct H0 as [I _ S T K B D].
  split; unfold put; cbn [slots r_index namespace generation revision r_deadlines markDirty with_dirty with_slots];
    rewrite ?Es, ?Ei, ?Eg, ?Er, ?Ed; try done.
  - by apply (indexes_insert key_of _ _ i s s').
  - unfold counts_ok. cbn [slots markDirty with_dirty with_slots]. rewrite ?Es, !(cnt_insert _ _ _ _ _ Hi0). exact C1.
  - apply Forall_insert; done.
  - apply Forall_insert; [done|]. rewrite Ht. exact Hb.
  - apply Forall_insert; [eapply Forall_impl; [exact K | intros x; by apply grows_keys]|].
    rewrite Hk'. eapply grows_keys, (Forall_lookup_1 _ _ _ _ K Hi0). exact En.
  - rewrite length_insert. rewrite ?Es in *. exact B.
Qed.

Lemma put_evolves r r0 i s s1 s' r1 :
  rinv r -> grows r r0 -> counts_ok r0 -> slots r !! i = Some s -> key_of s1 = key_of s -> bounded r0 (token_of s1) ->
  account s1 (unaccount s r0) = (s', r1) -> device s1 = device s \/ revision r < Revision (token_of s1) -> evolves r (put i s' r1).
Proof.
  intros H G C Hi Hk Hb Ha Hd. pose proof (put_rinv r r0 i s s1 s' r1 H G C Hi Hk Hb Ha) as H1.
  destruct (account_ok _ _ _ _ Ha) as [_ Hdev].
  assert (Es : slots r1 = slots r /\ revision r1 = revision r0) by (injection Ha as _ <-; by rewrite <- (gr_slots _ _ G)).
  destruct Es as [Es Er]. apply evolves_slots; [done|done| cbn; pose proof (gr_revision _ _ G); lia |].
  intros j x Hj. cbn in Hj. rewrite Es in Hj. destruct (decide (j = i)) as [->|Hne].
  - rewrite list_lookup_insert_eq in Hj by (by eapply lookup_lt_Some). injection Hj as <-. unfold token_of in *. rewrite Hdev.
    destruct Hd as [Hd|Hd]; [right; exists i, s; split; [done|congruence] | by left].
  - rewrite list_lookup_insert_ne in Hj by done. right. by exists j, x.
Qed.

(** What a step promises. *)
Definition stepped {A} (r : reducer) (o : go (A * reducer)) : Prop := exists a r', o = Some (a, r') /\ rinv r' /\ evolves r r'.
Lemma stepped_same {A} (a : A) r : rinv r -> stepped r (Some (a, r)).
Proof. intros H. exists a, r. split_and!; [done|done|apply evolves_refl]. Qed.
Lemma stepped_grows {A} (a : A) r r' : rinv r -> grows r r' -> counts_ok r' -> stepped r (Some (a, r')).
Proof. intros H G C. exists a, r'. split_and!; [done | by eapply grows_rinv | by apply grows_evolves]. Qed.
Lemma stepped_put {A} (a : A) r r0 i s s1 s' r1 :
  rinv r -> grows r r0 -> counts_ok r0 -> slots r !! i = Some s -> key_of s1 = key_of s -> bounded r0 (token_of s1) ->
  device s1 = device s \/ revision r < Revision (token_of s1) ->
  account s1 (unaccount s r0) = (s', r1) -> stepped r (Some (a, put i s' r1)).
Proof. intros H G C Hi Hk Hb Hd Ha. exists a, (put i s' r1). split_and!; [done | by eapply put_rinv | by eapply put_evolves]. Qed.

Lemma insert_stepped o r : rinv r -> validKey (Key (ob_Device o)) r = true -> r_index r !! Key (ob_Device o) = None ->
  stepped r (Some (insert_device o r)).
Proof.
  intros H Hv Hn. unfold insert_device. case_decide as Hx; [by apply stepped_same|]. destruct (ri_bounds _ H) as [Bg Br].
  assert (Bg' : generation r + 1 <= MaxUint64) by lia. assert (Br' : revision r + 1 <= MaxUint64) by lia.
  destruct (account _ _) as [s r1] eqn:Ha. destruct (account_ok _ _ _ _ Ha) as [Hok Hd].
  pose proof (account_counts _ _ _ _ _ _ _ _ Ha (ri_counts _ H)) as C1.
  assert (E : slots r1 = slots r /\ r_index r1 = r_index r /\ namespace r1 = namespace r /\ generation r1 = generation r + 1 /\
    revision r1 = revision r + 1 /\ r_deadlines r1 = r_deadlines r) by (injection Ha as _ <-; done).
  destruct E as (Es & Ei & En & Eg & Er & Ed). rewrite Es, Ei.
  change (Key (set_token ?t (ob_Device o))) with (Key (ob_Device o)).
  assert (Hk : key_of s = Key (ob_Device o)) by (unfold key_of; by rewrite Hd).
  assert (Ht : token_of s = mkToken (generation r + 1) (revision r + 1) (epoch r) 0) by (unfold token_of; by rewrite Hd).
  destruct H as [I C S T K B D].
  eexists (inl true), _. split; [done|]. match goal with |- rinv ?r' /\ _ => assert (H' : rinv r') end.
  { split; cbn [slots r_index namespace generation revision r_deadlines markDirty with_dirty with_slots];
      rewrite ?Eg, ?Er, ?Ed, ?Es; try done.
    - rewrite <- Hk. apply indexes_app; [done | by rewrite Hk].
    - unfold counts_ok. cbn [slots markDirty with_dirty with_slots]. rewrite !slots_app. cbn [cnt]. rewrite !Z.add_0_r. exact C1.
    - apply Forall_app. by split; [|apply Forall_singleton].
    - apply Forall_app. split; [eapply Forall_impl; [exact T|]; cbn; intros x; lia|]. apply Forall_singleton. rewrite Ht. cbn. lia.
    - apply Forall_app. split; [eapply Forall_impl; [exact K|]; intros x; by apply grows_keys|]. apply Forall_singleton. rewrite Hk.
      by eapply grows_keys.
    - rewrite length_app. cbn [length]. lia. }
  split; [done|]. apply evolves_slots; [by split | done | cbn; lia|]. intros j x Hj. cbn in Hj.
  apply lookup_app_Some in Hj as [Hj|[_ Hj]]; [right; by exists j, x|]. apply list_lookup_singleton_Some in Hj as [_ <-]. left. rewrite Ht. cbn. lia.
Qed.

Lemma grows_revisions r g ep rev gen cnt : rinv r -> grows r g ->
  generation g <= gen <= MaxUint64 -> revision g <= rev <= MaxUint64 -> grows r (with_revisions ep rev gen cnt g).
Proof. intros H [Hi Hs Hn Hg Hr Hd] ? ?. split; cbn; try done; lia. Qed.
Lemma countTransition_device s d t : device (countTransition s d t) = device s.
Proof. unfold countTransition. repeat case_match; done. Qed.
Lemma countTransition_counts s d t r : unaccount (countTransition s d t) r = unaccount s r.
Proof. unfold countTransition. repeat case_match; done. Qed.

(** A slot rewritten without any change of what is accounted. *)
Record same_account (s s' : deviceSlot) : Prop := {
  sa_key : key_of s' = key_of s;
  sa_decision : countDecision (device s') = countDecision (device s);
  sa_requires : requires (device s') = requires (device s);
  sa_fields : counted s' = counted s /\ requiresRDMA s' = requiresRDMA s /\ missingRDMA s' = missingRDMA s /\ fresh s' = fresh s }.
Lemma stepped_kept {A} (a : A) r q i s s' : rinv r -> grows r q -> counts_ok q -> slots r !! i = Some s -> same_account s s' ->
  bounded q (token_of s') -> device s' = device s \/ revision r < Revision (token_of s') ->
  stepped r (Some (a, with_slots (r_index q) (<[i := s']> (slots q)) q)).
Proof.
  intros H G C Hi [Hk Hcd Hrq (F1 & F2 & F3 & F4)] Hb Hd. pose proof (grows_rinv _ _ H G C) as [I _ S T K B D].
  rewrite (gr_slots _ _ G), (gr_index _ _ G) in *.
  eexists _, _. split; [done|]. match goal with |- rinv ?r' /\ _ => assert (H' : rinv r') end.
  { split; cbn [slots r_index namespace generation revision r_deadlines with_slots]; try done.
    - by apply (indexes_insert key_of _ _ i s).
    - unfold counts_ok in *. rewrite (gr_slots _ _ G) in C. cbn [slots with_slots]. rewrite !(cnt_insert _ _ _ _ _ Hi), F1, F2, F3.
      unfold undecided. rewrite Hcd. unfold counted_as in *. cbn.
      destruct C as (-> & -> & -> & ->). split_and!; f_equal; cbn; unfold undecided; cbn; lia.
    - apply Forall_insert; [done|]. destruct (Forall_lookup_1 _ _ _ _ S Hi) as [S1 S2 S3]. split; rewrite ?Hcd, ?Hrq, ?F1, ?F2, ?F3, ?F4; done.
    - by apply Forall_insert.
    - apply Forall_insert; [done|]. rewrite Hk. exact (Forall_lookup_1 _ _ _ _ K Hi).
    - by rewrite length_insert. }
  split; [done|]. apply evolves_slots; [done | done | cbn; pose proof (gr_revision _ _ G); lia|]. intros j x Hj. cbn in Hj.
  destruct (decide (j = i)) as [->|Hne].
  - rewrite list_lookup_insert_eq in Hj by (by eapply lookup_lt_Some). injection Hj as <-.
    destruct Hd as [Hd|Hd]; [right; exists i, s; done | by left].
  - rewrite list_lookup_insert_ne in Hj by done. right. by exists j, x.
Qed.

Lemma update_stepped i s d obs r : rinv r -> slots r !! i = Some s -> Key d = key_of s ->
  Generation (dev_Token d) = Generation (token_of s) -> stepped r (update_device i s d obs r).
Proof.
  intros H Hi Hk Hg. unfold update_device. set (replaced := bool_decide _).
  pose proof (Forall_lookup_1 _ _ _ _ (ri_tokens _ H) Hi) as Hb. cbn in Hb. destruct (ri_bounds _ H) as [Bg Br].
  assert (Hwf := ri_deadlines _ H). pose proof (grows_same r H) as G.
  destruct (decide (replaced = false /\ d = device s)) as [[_ ->]|_].
  { apply (stepped_kept (inl false) r (if decide (observed s <> obs) then markDirty i r else r) i s _ H); try done.
    - case_decide; [destruct G; by split | done].
    - case_decide; exact (ri_counts _ H).
    - case_decide; exact Hb.
    - by left. }
  case_decide as Hx; [by apply stepped_same|].
  assert (Hr1 : revision r + 1 <= MaxUint64) by (assert (revision r <> MaxUint64) by (intros E; apply Hx; by left); lia).
  assert (G1 : forall ep gen c, generation r <= gen <= MaxUint64 -> grows r (with_revisions ep (revision r + 1) gen c r))
    by (intros; apply grows_revisions; [done|done|lia|lia]).
  destruct replaced.
  - assert (Hg1 : generation r + 1 <= MaxUint64) by (assert (generation r <> MaxUint64) by (intros E; apply Hx; by right); lia).
    unfold cancelDeviceDeadlines.
    match goal with |- context[cancel_all ?l ?x] => destruct (cancel_all_spec l x Hwf) as (q & -> & Hq) end. cbn -[account unaccount].
    destruct (account _ _) as [s' r1] eqn:Ha. cbn -[account unaccount].
    refine (stepped_put _ r _ i s _ s' r1 H _ _ Hi _ _ _ Ha).
    + split; try done; cbn; lia.
    + exact (ri_counts _ H).
    + exact Hk.
    + unfold bounded, token_of. cbn. lia.
    + right. cbn. lia.
  - cbn -[account unaccount]. rewrite countTransition_counts. destruct (account _ _) as [s' r1] eqn:Ha. cbn -[account unaccount].
    refine (stepped_put _ r _ i s _ s' r1 H _ _ Hi _ _ _ Ha).
    + apply G1. lia.
    + exact (ri_counts _ H).
    + exact Hk.
    + unfold bounded, token_of. cbn. rewrite Hg. unfold token_of in *. lia.
    + right. cbn. lia.
Qed.

Lemma observe_stepped o r : rinv r -> stepped r (observe o r).
Proof.
  intros H. unfold observe. destruct (validKey _ r) eqn:Hv; cbn [negb]; [|by apply stepped_same].
  case_decide; [by apply stepped_same|]. destruct (r_index r !! Key (ob_Device o)) as [i|] eqn:Hi.
  - destruct (indexes_Some _ _ _ _ _ (ri_index _ H) Hi) as (s & Hs & Hk). rewrite Hs. cbn -[update_device observationMatches].
    destruct (observationMatches _ _); cbn [negb]; [|by apply stepped_same]. apply update_stepped; [done|done| |done].
    cbn. rewrite Hk. by case_decide.
  - case_decide; [by apply stepped_same | by apply insert_stepped].
Qed.
Lemma refresh_stepped key r : rinv r -> stepped r (refreshEvent key r).
Proof.
  intros H. unfold refreshEvent. case_decide; [by apply stepped_same|]. cbn [r_index with_revisions slots].
  destruct (ri_bounds _ H) as [Bg Br]. pose proof (grows_same r H) as G.
  assert (G1 : grows r (with_revisions (epoch r) (revision r + 1) (generation r) (countRevision r) r)) by (apply grows_revisions; [done|done|lia|lia]).
  destruct (r_index r !! key) as [i|] eqn:Hi; [|apply stepped_grows; [done|done|exact (ri_counts _ H)]].
  destruct (indexes_Some _ _ _ _ _ (ri_index _ H) Hi) as (s & Hs & Hk). rewrite Hs. cbn [mbind option_bind].
  pose proof (Forall_lookup_1 _ _ _ _ (ri_tokens _ H) Hs) as Hb. cbn in Hb.
  match goal with |- context[<[i := ?s']> _] =>
    destruct (stepped_kept (A := bool + red_err) (inl true) r (markDirty i (with_revisions (epoch r) (revision r + 1) (generation r) (countRevision r) r)) i s s' H)
      as (x & r' & [= <- E] & Hr') end.
  - destruct G1. by split.
  - exact (ri_counts _ H).
  - done.
  - by split.
  - unfold bounded, token_of in *. cbn. lia.
  - right. cbn. lia.
  - exists (inl true), r'. split; [|done]. rewrite <- E. done.
Qed.
Lemma changed_stepped key kind b ok r : rinv r ->
  stepped r (r' ← collectionChanged key kind b ok r; Some (tt, r')).
Proof.
  intros H. unfold collectionChanged. destruct (r_index r !! key) as [i|] eqn:Hi; [|by apply stepped_same].
  destruct (indexes_Some _ _ _ _ _ (ri_index _ H) Hi) as (s & Hs & Hk). rewrite Hs. cbn [mbind option_bind].
  set (s0 := set_fresh _ s). set (s1 := if ok || negb b then invalidateChecks s0 kind else s0).
  assert (E : device s1 = device s /\ unaccount s1 r = unaccount s r).
  { unfold s1, invalidateChecks. destruct kind; repeat case_match; done. }
  destruct E as [Ed ->]. destruct (account _ _) as [s' r1] eqn:Ha. cbn -[account unaccount].
  refine (stepped_put _ r _ i s s1 s' r1 H (grows_same r H) (ri_counts _ H) Hs _ _ _ Ha).
  - unfold key_of. by rewrite Ed.
  - unfold bounded, token_of. rewrite Ed. pose proof (Forall_lookup_1 _ _ _ _ (ri_tokens _ H) Hs) as Hb. exact Hb.
  - by left.
Qed.

Lemma trim_reduced shrink r : rinv r -> rinv (trim shrink r) /\ slots (trim shrink r) = slots r /\ revision (trim shrink r) = revision r.
Proof.
  intros H. unfold trim. destruct (slots r) as [|s l] eqn:E.
  - split; [|cbn; done]. destruct H as [I C S T K B D]. unfold counts_ok in C. rewrite E in *.
    split; cbn [slots r_index generation revision r_deadlines with_slots]; try done.
  - rewrite <- E. destruct shrink; [|by split]. split; [|cbn; by rewrite E]. destruct H as [I C S T K B D].
    split; cbn [slots r_index generation revision r_deadlines with_slots]; rewrite <- ?E; try done.
    apply rebuild_indexes. by eapply indexes_nodup.
Qed.
Lemma remove_stepped shrink key t r : rinv r -> stepped r (remove shrink key t r).
Proof.
  intros H. unfold remove. destruct (r_index r !! key) as [i|] eqn:Hi; [|by apply stepped_same].
  case_decide; [by apply stepped_same|]. destruct (indexes_Some _ _ _ _ _ (ri_index _ H) Hi) as (s & Hs & Hk). rewrite Hs.
  cbn -[trim unaccount with_revisions cancelDeviceDeadlines observationMatches].
  destruct (observationMatches _ _); cbn [negb]; [|by apply stepped_same]. case_decide as Hx; [by apply stepped_same|].
  destruct (ri_bounds _ H) as [Bg Br]. pose proof (lookup_lt_Some _ _ _ Hs) as Hlt.
  unfold cancelDeviceDeadlines.
  match goal with |- context[cancel_all ?l ?x] => destruct (cancel_all_spec l x (ri_deadlines _ H)) as (q & -> & Hq) end.
  cbn [mbind option_bind]. set (g := if decide (dev_Eligibility _ <> _) then _ else _).
  assert (G : grows r g).
  { unfold g. case_decide; split; cbn; try done; lia. }
  assert (C : counts_ok g) by (unfold g; case_decide; exact (ri_counts _ H)).
  pose proof (grows_rinv _ _ H G C) as Hg. clearbody g.
  cbn [slots markDirty with_dirty unaccount with_counts r_index]. rewrite (gr_slots _ _ G), (gr_index _ _ G).
  set (last := (length (slots r) - 1)%nat). assert (Hlast : length (slots r) = S last) by lia.
  destruct (lookup_lt_is_Some_2 (slots r) last) as [sl Hsl]; [lia|]. rewrite Hsl. cbn [mbind option_bind].
  set (idx := if decide (i = last) then r_index r else <[key_of sl := i]> (r_index r)).
  assert (E : (if decide (i <> last) then (<[Key (device sl) := i]> (r_index r), <[i := sl]> (slots r)) else (r_index r, slots r))
            = (idx, <[i := sl]> (slots r))).
  { unfold idx. destruct (decide (i = last)) as [->|Hne]; [rewrite decide_False by tauto; by rewrite list_insert_id | by rewrite decide_True]. }
  rewrite E. set (r' := with_slots _ _ _).
  assert (H' : rinv r').
  { destruct Hg as [_ _ _ T K B D]. rewrite (gr_slots _ _ G) in T, K.
    split; unfold r'; cbn [slots r_index namespace generation revision r_deadlines with_slots markDirty with_dirty unaccount with_counts];
      try done.
    - rewrite <- Hk. by eapply (indexes_cut key_of); [apply H| | |].
    - unfold counts_ok. cbn [slots with_slots]. rewrite !(cnt_cut _ _ _ _ _ _ Hs Hsl Hlast).
      unfold counts_ok in C. rewrite (gr_slots _ _ G) in C. exact (unaccount_counts s _ _ _ _ _ C).
    - apply Forall_take, Forall_insert; [apply H | exact (Forall_lookup_1 _ _ _ _ (ri_slots _ H) Hsl)].
    - apply Forall_take, Forall_insert; [done | exact (Forall_lookup_1 _ _ _ _ T Hsl)].
    - apply Forall_take, Forall_insert; [done | exact (Forall_lookup_1 _ _ _ _ K Hsl)].
    - rewrite length_take, length_insert. pose proof (gr_generation _ _ G). cbn. lia. }
  destruct (trim_reduced shrink r' H') as (Ht & Hts & Htr).
  exists (inl true), (trim shrink r'). split_and!; [done|done|]. apply evolves_slots; [done|done| |].
  - rewrite Htr. unfold r'. cbn. pose proof (gr_revision _ _ G). lia.
  - intros j x. rewrite Hts. intros Hj. right. unfold r' in Hj. cbn in Hj. apply lookup_take_Some in Hj as [Hj _].
    destruct (decide (j = i)) as [->|Hne]; [|rewrite list_lookup_insert_ne in Hj by done; by exists j, x].
    rewrite list_lookup_insert_eq in Hj by done. injection Hj as <-. by exists last, sl.
Qed.

Lemma markDirty_all_grows n r : exists d, markDirty_all n r = with_dirty d r.
Proof.
  induction n as [|n [d IH]]; [exists (dirtyPages r); by destruct r|]. cbn [markDirty_all]. rewrite IH. by eexists.
Qed.
Lemma loseEvents_stepped r : rinv r -> stepped r (Some (loseEvents r)).
Proof.
  intros H. unfold loseEvents. case_decide as Hx; [by apply stepped_same|]. destruct (ri_bounds _ H) as [Bg Br].
  match goal with |- context[markDirty_all ?n ?x] => destruct (markDirty_all_grows n x) as [d ->] end.
  eexists _, _. split; [done|]. destruct H as [I C S T K B D]. match goal with |- rinv ?r' /\ _ => assert (H' : rinv r') end.
  { split; cbn [slots r_index namespace generation revision r_deadlines with_dirty with_slots with_events with_revisions]; try done.
    - intros k i. rewrite (I k i), list_lookup_fmap. by destruct (slots r !! i).
    - unfold counts_ok. cbn [slots with_dirty with_slots with_events with_revisions].
      rewrite !(cnt_fmap _ (set_checks zero_checks)) by done. exact C.
    - apply Forall_fmap. eapply Forall_impl; [exact S|]. intros x [S1 S2 S3]. by split.
    - apply Forall_fmap. eapply Forall_impl; [exact T|]. intros x. unfold token_of. cbn. lia.
    - apply Forall_fmap. eapply Forall_impl; [exact K|]. intros x. done.
    - rewrite length_fmap. lia. }
  split; [done|]. apply evolves_slots; [by split|done|cbn; lia|]. intros j x Hj. cbn in Hj. apply list_lookup_fmap_Some in Hj as (y & -> & Hj).
  right. by exists j, y.
Qed.
Lemma with_events_stepped a b r : rinv r -> grows r (with_events a b r) /\ counts_ok (with_events a b r).
Proof. intros H. split; [by destruct (grows_same r H); split | apply H]. Qed.
Lemma setSubscriptions_stepped a b r : rinv r -> stepped r (Some (setSubscriptions a b r)).
Proof.
  intros H. unfold setSubscriptions. case_match.
  - destruct (loseEvents_stepped r H) as (res & r' & [= E] & H' & He). rewrite E. destruct res as [u|e].
    + destruct (with_events_stepped a b r' H') as [G C]. exists (inl tt), (with_events a b r'). split_and!; [done | by eapply grows_rinv|].
      eapply evolves_trans; [exact He | by apply grows_evolves].
    + exists (inr e), r'. done.
  - destruct (with_events_stepped a b r H) as [G C]. by apply stepped_grows.
Qed.
Lemma recordResync_stepped t now r : rinv r -> stepped r (recordResync t now r).
Proof.
  intros H. unfold recordResync. case_decide; [by apply stepped_same|]. unfold cancel. cbn [r_deadlines with_resync].
  match goal with |- context[Deadlines.cancel false ?k _] =>
    destruct (Deadlines.cancel_spec false k (r_deadlines r) (ri_deadlines _ H)) as (q & -> & Hq & _) end.
  cbn -[Deadlines.set Deadlines.deadlineAfter]. destruct (ri_bounds _ H).
  case_decide.
  - match goal with |- context[Deadlines.set ?e q] => destruct (Deadlines.set_spec e q Hq) as (q' & -> & Hq' & _) end.
    cbn [mbind option_bind]. apply stepped_grows; [done| |exact (ri_counts _ H)]. split; try done; cbn; lia.
  - apply stepped_grows; [done| |exact (ri_counts _ H)]. split; try done; cbn; lia.
Qed.

(** ** Runs *)

(** The calls of the owner of a reducer; [Changed] is [collectionChanged] with
    the freshness and the success of the collector's attempt. *)
Inductive red_op :=
  | Observe (o : Observation) | Remove (shrink : bool) (key : DeviceKey) (t : Token) | LoseEvents
  | SetSubscriptions (route rdma : bool) | Refresh (key : DeviceKey) | Changed (key : DeviceKey) (kind : CollectorKind) (b ok : bool)
  | Resync (t : Token) (now : Stamp).
Definition run_op (op : red_op) (r : reducer) : go reducer :=
  match op with
  | Observe o => snd <$> observe o r
  | Remove shrink key t => snd <$> remove shrink key t r
  | LoseEvents => Some (snd (loseEvents r))
  | SetSubscriptions a b => Some (snd (setSubscriptions a b r))
  | Refresh key => snd <$> refreshEvent key r
  | Changed key kind b ok => collectionChanged key kind b ok r
  | Resync t now => snd <$> recordResync t now r
  end.
Fixpoint run_ops (ops : list red_op) (r : reducer) : go reducer :=
  match ops with [] => Some r | op :: ops => r ← run_op op r; run_ops ops r end.

Lemma stepped_snd {A} r (o : go (A * reducer)) : stepped r o -> exists r', snd <$> o = Some r' /\ rinv r' /\ evolves r r'.
Proof. intros (a & r' & -> & H). by exists r'. Qed.
Lemma red_op_spec op r : rinv r -> exists r', run_op op r = Some r' /\ rinv r' /\ evolves r r'.
Proof.
  intros H. destruct op as [o|shrink key t| |a b|key|key kind b ok|t now]; cbn [run_op].
  - by apply stepped_snd, observe_stepped.
  - by apply stepped_snd, remove_stepped.
  - destruct (loseEvents_stepped r H) as (a & r' & [= E] & H'). rewrite E. by exists r'.
  - destruct (setSubscriptions_stepped a b r H) as (c & r' & [= E] & H'). rewrite E. by exists r'.
  - by apply stepped_snd, refresh_stepped.
  - destruct (changed_stepped key kind b ok r H) as (u & r' & E & H'). apply bind_Some in E as (x & Hx & [= _ <-]). by exists x.
  - by apply stepped_snd, recordResync_stepped.
Qed.
Lemma red_ops_spec ops : forall r, rinv r -> exists r', run_ops ops r = Some r' /\ rinv r' /\ evolves r r'.
Proof.
  induction ops as [|op ops IH]; intros r H; [exists r; split_and!; [done|done|apply evolves_refl]|]. cbn [run_ops].
  destruct (red_op_spec op r H) as (r1 & -> & H1 & E1). cbn [mbind option_bind]. destruct (IH r1 H1) as (r2 & -> & H2 & E2).
  exists r2. split_and!; [done|done|]. by eapply evolves_trans.
Qed.
Lemma newReducer_rinv ns conf : rinv (newReducer ns conf).
Proof.
  split; cbn; try (by constructor); try (by split_and!); try (unfold MaxUint64; lia).
Qed.

(** ** The published counts *)

(** [publish]'s [LinkCounts.current]. *)
Definition currentCount (r : reducer) : Optional Z :=
  mkOptional (upCount r) (Present (lastResync r) && bool_decide (uncertain r = 0 /\ rdmaUncertain r = 0)).
Definition is_up (d : Device) : bool := bool_decide (dev_Eligibility d = Eligible) && Present (Up d) && Value (Up d).
Definition undecided_device (d : Device) : bool :=
  bool_decide (dev_Eligibility d = EligibilityUnknown \/ dev_Eligibility d = Eligible /\ Present (Up d) = false).

Lemma undecided_spec s : undecided s = undecided_device (device s).
Proof.
  unfold undecided, countDecision, undecided_device. destruct (dev_Eligibility _); cbn; [done| |done].
  destruct (Present _); cbn; symmetry; [apply bool_decide_eq_false_2; intros [|[]]; done | by apply bool_decide_eq_true_2; right].
Qed.
Lemma counted_spec s : slot_ok s -> undecided s = false -> counted s = is_up (device s).
Proof.
  intros Hok Hu. unfold undecided in Hu. apply negb_false_iff in Hu. rewrite (so_counted _ Hok Hu). revert Hu.
  unfold countDecision, is_up. destruct (dev_Eligibility _); cbn; [done| |done]. by intros ->.
Qed.
Lemma cnt_ext p q l : (forall s, s ∈ l -> p s = q s) -> cnt p l = cnt q l.
Proof.
  induction l as [|s l IH]; intros Hp; [done|]. cbn. rewrite (Hp s) by apply list_elem_of_here. f_equal. apply IH. intros x Hx.
  by apply Hp, list_elem_of_further.
Qed.
Lemma slots_zero p l : cnt p l = 0 -> forall s, s ∈ l -> p s = false.
Proof.
  induction l as [|s l IH]; [by intros _ s Hs%not_elem_of_nil|]. cbn. pose proof (slots_nonneg p l). intros Hz x Hx.
  assert (p s = false /\ cnt p l = 0) as [? ?] by (destruct (p s); cbn in Hz; [lia | split; [done | lia]]).
  apply elem_of_cons in Hx as [->|Hx]; [done | by apply IH].
Qed.
Lemma cnt_uint64 r p : rinv r -> uint64 (cnt p (slots r)) = cnt p (slots r).
Proof.
  intros H. pose proof (slots_nonneg p (slots r)). destruct (ri_bounds _ H) as [B _]. unfold uint64, MaxUint64 in *. apply Z.mod_small. lia.
Qed.

(** C28: whatever observations, removals, refresh hints, losses of events, subscription
    changes, collection results and resyncs a reducer folds, in any order, it
    never indexes out of range, its inventory holds a device once, and its
    counters, which it only ever increments and decrements, are those a full
    recount would give: the devices whose state is not decided, the devices that
    require RDMA and those of them without fresh RDMA state. When the count is
    published as current, it is the number of eligible devices that are up. *)
Theorem reducer_counts (ns conf : Z) (ops : list red_op) : exists r,
  run_ops ops (newReducer ns conf) = Some r /\
  NoDup (key_of <$> slots r) /\
  uncertain r = cnt (fun s => undecided_device (device s)) (slots r) /\
  requiredRDMA r = cnt (fun s => requires (device s)) (slots r) /\
  missing r = cnt (fun s => requires (device s) && negb (fresh s CollectorRDMAState)) (slots r) /\
  (Present (currentCount r) = true -> Value (currentCount r) = cnt (fun s => is_up (device s)) (slots r)).
Proof.
  destruct (red_ops_spec ops _ (newReducer_rinv ns conf)) as (r & -> & H & _). exists r.
  destruct (ri_counts _ H) as (Hu & Hc & Hq & Hm). rewrite cnt_uint64 in Hu, Hc, Hq, Hm by done.
  pose proof (proj1 (Forall_forall _ _) (ri_slots _ H)) as Hok.
  split_and!; [done | eapply indexes_nodup, H | | | |].
  - rewrite Hc. apply cnt_ext. intros s _. apply undecided_spec.
  - rewrite Hq. apply cnt_ext. intros s Hs. apply (so_requires _ (Hok s Hs)).
  - rewrite Hm. apply cnt_ext. intros s Hs. apply (so_missing _ (Hok s Hs)).
  - unfold currentCount. cbn. intros [_ [Hz _]%bool_decide_eq_true]%andb_true_iff. rewrite Hu. apply cnt_ext. intros s Hs.
    apply counted_spec; [by apply Hok|]. rewrite Hc in Hz. by apply (slots_zero _ _ Hz).
Qed.
Lemma find_slot_elem r s : rinv r -> s ∈ slots r -> find_slot r (key_of s) = Some s.
Proof. intros H [i Hi]%list_elem_of_lookup. by eapply find_slot_at. Qed.

(** An answer to a query names the record it was asked about by its token.
    If that device has since been changed, replaced by other hardware, or removed
    (even if the same device was added again), the answer is dropped without
    any effect, whatever happened in between. *)
Theorem stale_answer_ignored (ns conf : Z) (ops ops' : list red_op) (r r' : reducer) (s : deviceSlot) (o : Observation) :
  run_ops ops (newReducer ns conf) = Some r -> run_ops ops' r = Some r' -> s ∈ slots r ->
  Key (ob_Device o) = key_of s -> Revision (dev_Token (ob_Device o)) = Revision (token_of s) ->
  (device <$> find_slot r' (key_of s) <> Some (device s)) -> snd <$> observe o r' = Some r'.
Proof.
  intros Hr Hr' Hs Hk Ht Hne. destruct (red_ops_spec ops _ (newReducer_rinv ns conf)) as (r0 & Hr0 & H & _).
  rewrite Hr in Hr0. injection Hr0 as <-. destruct (red_ops_spec ops' _ H) as (r1 & Hr1 & H' & [_ E]).
  rewrite Hr' in Hr1. injection Hr1 as <-.
  pose proof (proj1 (Forall_forall _ _) (ri_tokens _ H) s Hs) as Hb. cbn in Hb.
  unfold observe. destruct (validKey _ r'); [|done]. cbn [negb]. case_decide; [done|]. rewrite Hk.
  destruct (r_index r' !! key_of s) as [i|] eqn:Hi.
  - destruct (indexes_Some _ _ _ _ _ (ri_index _ H') Hi) as (s' & Hs' & Hk'). rewrite Hs'. cbn [mbind option_bind].
    assert (Hf : find_slot r' (key_of s) = Some s') by (unfold find_slot; by rewrite Hi).
    rewrite Hf in Hne. cbn in Hne.
    assert (Hrev : Revision (token_of s') <> Revision (token_of s)).
    { destruct (E _ _ Hf) as [Hlt|(s0 & Hs0 & Hd)]; [lia|]. rewrite (find_slot_elem _ _ H Hs) in Hs0. congruence. }
    replace (observationMatches _ _) with false; [done|]. symmetry. unfold observationMatches. apply andb_false_iff. right.
    apply bool_decide_eq_false_2. rewrite Ht. intros [?|?]; [lia | by unfold token_of in *].
  - rewrite decide_True; [done|]. right. lia.
Qed.
Definition example_device (name hw : string) (t : Token) (up : bool) : Observation :=
  mkObservation (mkDevice (mkDeviceKey 7 DeviceEthernet 3 "" 0) t name (presentValue up) Eligible hw false) (mkStamp 10 10).
Lemma stale_answer_ignored_witness : exists r r' s,
  run_ops [Observe (example_device "eth0" "a" (mkToken 0 0 1 0) true)] (newReducer 7 60) = Some r /\ s ∈ slots r /\
  run_ops [Remove false (key_of s) (mkToken 0 0 1 0); Observe (example_device "eth0" "a" (mkToken 0 0 1 0) true)] r = Some r' /\
  snd <$> observe (example_device "eth0" "a" (mkToken 1 1 1 0) false) r' = Some r'.
Proof.
  assert (H1 : is_Some (run_ops [Observe (example_device "eth0" "a" (mkToken 0 0 1 0) true)] (newReducer 7 60)))
    by (vm_compute; by eexists).
  destruct H1 as [r Hr].
  pose proof Hr as Hr0. vm_compute in Hr0. injection Hr0 as Hr0.
  set (s := default (new_slot (ob_Device (example_device "" "" zero_Token false)) (mkStamp 0 0) (mkStamp 0 0)) (slots r !! 0%nat)).
  assert (Hs : s ∈ slots r) by (unfold s; rewrite <- Hr0; apply list_elem_of_here).
  assert (H2 : is_Some (run_ops [Remove false (key_of s) (mkToken 0 0 1 0); Observe (example_device "eth0" "a" (mkToken 0 0 1 0) true)] r))
    by (unfold s; rewrite <- Hr0; vm_compute; by eexists).
  destruct H2 as [r' Hr'].
  exists r, r', s. split_and!; [done|done|done|].
  apply (stale_answer_ignored 7 60 _ _ r r' s _ Hr Hr' Hs).
  - unfold s. rewrite <- Hr0. reflexivity.
  - unfold s. rewrite <- Hr0. reflexivity.
  - pose proof Hr' as E. unfold s in E |- *. rewrite <- Hr0 in E |- *. vm_compute in E. injection E as <-. vm_compute. congruence.
Defined.
