(* ===== verification/ParquetRow.v ===== *)
(** The Parquet row (pkg/xtcp/destinations_s3parquet_schema.go) and the copy of a
    decoded record into one (rowFromProto and its helpers in
    destinations_s3parquet.go). *)

From S2P Require Import Prelude FlatRecord.
#[local] Open Scope string_scope.

(** ** The two rows

    A decoded record owns its addresses: it was unmarshalled, not sliced out of a
    packet. *)

Record PbRow := mkPbRow { p_num : NumField -> Z; p_str : StrField -> string; p_src : bytes; p_dst : bytes }.
Record ParquetRow := mkParquetRow {
  q_num : NumField -> Z; q_str : StrField -> string; q_src : bytes; q_dst : bytes; q_EventDate : string }.
Definition zeroRow : ParquetRow := mkParquetRow (fun _ => 0) (fun _ => "") [] [] "".

(** ** The schema: the columns with their Go types and tags, in declaration order *)

Inductive Column := NumCol (f : NumField) | StrCol (f : StrField) | SrcCol | DstCol | EventDateCol.
#[export] Instance Column_eq : EqDecision Column. Proof. solve_decision. Defined.
Inductive coltype := U32 | U64 | I64 | I32 | Str | Bytes.
#[export] Instance coltype_eq : EqDecision coltype. Proof. solve_decision. Defined.
Definition parquet_columns : list (Column * coltype * string) :=
  [
   (NumCol SchemaVersion, U32, "schema_version"); (StrCol DaemonVersion, Str, "daemon_version");
   (NumCol TimestampNs, I64, "timestamp_ns"); (EventDateCol, Str, "event_date"); (StrCol Hostname, Str, "hostname");
   (StrCol Location, Str, "location"); (StrCol Netns, Str, "netns"); (NumCol NetnsInode, U64, "netns_inode");
   (NumCol Nsid, U32, "nsid"); (StrCol ContainerId, Str, "container_id");
   (StrCol ContainerRuntime, Str, "container_runtime"); (StrCol ContainerName, Str, "container_name");
   (StrCol ContainerImage, Str, "container_image"); (StrCol Label, Str, "label"); (StrCol Tag, Str, "tag");
   (NumCol RecordCounter, U64, "record_counter"); (NumCol SocketFd, U64, "socket_fd");
   (NumCol NetlinkerId, U64, "netlinker_id"); (StrCol Uplink1Ifname, Str, "uplink1_ifname");
   (StrCol Uplink1NicDriver, Str, "uplink1_nic_driver"); (StrCol Uplink1NicModel, Str, "uplink1_nic_model");
   (NumCol Uplink1NicPciVendor, U32, "uplink1_nic_pci_vendor");
   (NumCol Uplink1NicPciDevice, U32, "uplink1_nic_pci_device");
   (StrCol Uplink1NicBusInfo, Str, "uplink1_nic_bus_info");
   (NumCol Uplink1NicSpeedMbps, U32, "uplink1_nic_speed_mbps");
   (StrCol Uplink1NicFwVersion, Str, "uplink1_nic_fw_version");
   (StrCol Uplink1LldpChassisName, Str, "uplink1_lldp_chassis_name");
   (StrCol Uplink1LldpChassisId, Str, "uplink1_lldp_chassis_id");
   (StrCol Uplink1LldpMgmtIp, Str, "uplink1_lldp_mgmt_ip"); (StrCol Uplink1LldpPortId, Str, "uplink1_lldp_port_id");
   (StrCol Uplink1LldpPortDescr, Str, "uplink1_lldp_port_descr"); (StrCol Uplink2Ifname, Str, "uplink2_ifname");
   (StrCol Uplink2NicDriver, Str, "uplink2_nic_driver"); (StrCol Uplink2NicModel, Str, "uplink2_nic_model");
   (NumCol Uplink2NicPciVendor, U32, "uplink2_nic_pci_vendor");
   (NumCol Uplink2NicPciDevice, U32, "uplink2_nic_pci_device");
   (StrCol Uplink2NicBusInfo, Str, "uplink2_nic_bus_info");
   (NumCol Uplink2NicSpeedMbps, U32, "uplink2_nic_speed_mbps");
   (StrCol Uplink2NicFwVersion, Str, "uplink2_nic_fw_version");
   (StrCol Uplink2LldpChassisName, Str, "uplink2_lldp_chassis_name");
   (StrCol Uplink2LldpChassisId, Str, "uplink2_lldp_chassis_id");
   (StrCol Uplink2LldpMgmtIp, Str, "uplink2_lldp_mgmt_ip"); (StrCol Uplink2LldpPortId, Str, "uplink2_lldp_port_id");
   (StrCol Uplink2LldpPortDescr, Str, "uplink2_lldp_port_descr");
   (StrCol EnrichSocketInterfaceName, Str, "enrich_socket_interface_name");
   (NumCol EnrichSocketDestLocality, I32, "enrich_socket_dest_locality");
   (NumCol EnrichSocketDestEgressIfindex, U32, "enrich_socket_dest_egress_ifindex");
   (StrCol EnrichSocketDestEgressIfname, Str, "enrich_socket_dest_egress_ifname");
   (NumCol EnrichSocketDestAsn, U64, "enrich_socket_dest_asn");
   (NumCol EnrichSocketDestNextHopAsn, U64, "enrich_socket_dest_next_hop_asn");
   (StrCol EnrichSocketDestNetworkOwner, Str, "enrich_socket_dest_network_owner");
   (NumCol InetDiagMsgFamily, U32, "inet_diag_msg_family"); (NumCol InetDiagMsgState, U32, "inet_diag_msg_state");
   (NumCol InetDiagMsgTimer, U32, "inet_diag_msg_timer"); (NumCol InetDiagMsgRetrans, U32, "inet_diag_msg_retrans");
   (NumCol InetDiagMsgSocketSourcePort, U32, "inet_diag_msg_socket_source_port");
   (NumCol InetDiagMsgSocketDestinationPort, U32, "inet_diag_msg_socket_destination_port");
   (SrcCol, Bytes, "inet_diag_msg_socket_source"); (DstCol, Bytes, "inet_diag_msg_socket_destination");
   (NumCol InetDiagMsgSocketInterface, U32, "inet_diag_msg_socket_interface");
   (NumCol InetDiagMsgSocketCookie, U64, "inet_diag_msg_socket_cookie");
   (NumCol InetDiagMsgExpires, U32, "inet_diag_msg_expires"); (NumCol InetDiagMsgRqueue, U32, "inet_diag_msg_rqueue");
   (NumCol InetDiagMsgWqueue, U32, "inet_diag_msg_wqueue"); (NumCol InetDiagMsgUid, U32, "inet_diag_msg_uid");
   (NumCol InetDiagMsgInode, U32, "inet_diag_msg_inode"); (NumCol MemInfoRmem, U32, "mem_info_rmem");
   (NumCol MemInfoWmem, U32, "mem_info_wmem"); (NumCol MemInfoFmem, U32, "mem_info_fmem");
   (NumCol MemInfoTmem, U32, "mem_info_tmem"); (NumCol TcpInfoState, U32, "tcp_info_state");
   (NumCol TcpInfoCaState, U32, "tcp_info_ca_state"); (NumCol TcpInfoRetransmits, U32, "tcp_info_retransmits");
   (NumCol TcpInfoProbes, U32, "tcp_info_probes"); (NumCol TcpInfoBackoff, U32, "tcp_info_backoff");
   (NumCol TcpInfoOptions, U32, "tcp_info_options"); (NumCol TcpInfoSndWscale, U32, "tcp_info_snd_wscale");
   (NumCol TcpInfoRcvWscale, U32, "tcp_info_rcv_wscale");
   (NumCol TcpInfoDeliveryRateAppLimited, U32, "tcp_info_delivery_rate_app_limited");
   (NumCol TcpInfoFastopenClientFail, U32, "tcp_info_fastopen_client_fail"); (NumCol TcpInfoRto, U32, "tcp_info_rto");
   (NumCol TcpInfoAto, U32, "tcp_info_ato"); (NumCol TcpInfoSndMss, U32, "tcp_info_snd_mss");
   (NumCol TcpInfoRcvMss, U32, "tcp_info_rcv_mss"); (NumCol TcpInfoUnacked, U32, "tcp_info_unacked");
   (NumCol TcpInfoSacked, U32, "tcp_info_sacked"); (NumCol TcpInfoLost, U32, "tcp_info_lost");
   (NumCol TcpInfoRetrans, U32, "tcp_info_retrans"); (NumCol TcpInfoFackets, U32, "tcp_info_fackets");
   (NumCol TcpInfoLastDataSent, U32, "tcp_info_last_data_sent");
   (NumCol TcpInfoLastAckSent, U32, "tcp_info_last_ack_sent");
   (NumCol TcpInfoLastDataRecv, U32, "tcp_info_last_data_recv");
   (NumCol TcpInfoLastAckRecv, U32, "tcp_info_last_ack_recv"); (NumCol TcpInfoPmtu, U32, "tcp_info_pmtu");
   (NumCol TcpInfoRcvSsthresh, U32, "tcp_info_rcv_ssthresh"); (NumCol TcpInfoRtt, U32, "tcp_info_rtt");
   (NumCol TcpInfoRttvar, U32, "tcp_info_rttvar"); (NumCol TcpInfoSndSsthresh, U32, "tcp_info_snd_ssthresh");
   (NumCol TcpInfoSndCwnd, U32, "tcp_info_snd_cwnd"); (NumCol TcpInfoAdvmss, U32, "tcp_info_advmss");
   (NumCol TcpInfoReordering, U32, "tcp_info_reordering"); (NumCol TcpInfoRcvRtt, U32, "tcp_info_rcv_rtt");
   (NumCol TcpInfoRcvSpace, U32, "tcp_info_rcv_space"); (NumCol TcpInfoTotalRetrans, U32, "tcp_info_total_retrans");
   (NumCol TcpInfoPacingRate, U64, "tcp_info_pacing_rate");
   (NumCol TcpInfoMaxPacingRate, U64, "tcp_info_max_pacing_rate");
   (NumCol TcpInfoBytesAcked, U64, "tcp_info_bytes_acked");
   (NumCol TcpInfoBytesReceived, U64, "tcp_info_bytes_received"); (NumCol TcpInfoSegsOut, U32, "tcp_info_segs_out");
   (NumCol TcpInfoSegsIn, U32, "tcp_info_segs_in"); (NumCol TcpInfoNotsentBytes, U32, "tcp_info_notsent_bytes");
   (NumCol TcpInfoMinRtt, U32, "tcp_info_min_rtt"); (NumCol TcpInfoDataSegsIn, U32, "tcp_info_data_segs_in");
   (NumCol TcpInfoDataSegsOut, U32, "tcp_info_data_segs_out");
   (NumCol TcpInfoDeliveryRate, U64, "tcp_info_delivery_rate"); (NumCol TcpInfoBusyTime, U64, "tcp_info_busy_time");
   (NumCol TcpInfoRwndLimited, U64, "tcp_info_rwnd_limited");
   (NumCol TcpInfoSndbufLimited, U64, "tcp_info_sndbuf_limited");
   (NumCol TcpInfoDelivered, U32, "tcp_info_delivered"); (NumCol TcpInfoDeliveredCe, U32, "tcp_info_delivered_ce");
   (NumCol TcpInfoBytesSent, U64, "tcp_info_bytes_sent"); (NumCol TcpInfoBytesRetrans, U64, "tcp_info_bytes_retrans");
   (NumCol TcpInfoDsackDups, U32, "tcp_info_dsack_dups"); (NumCol TcpInfoReordSeen, U32, "tcp_info_reord_seen");
   (NumCol TcpInfoRcvOoopack, U32, "tcp_info_rcv_ooopack"); (NumCol TcpInfoSndWnd, U32, "tcp_info_snd_wnd");
   (NumCol TcpInfoRcvWnd, U32, "tcp_info_rcv_wnd"); (NumCol TcpInfoRehash, U32, "tcp_info_rehash");
   (NumCol TcpInfoTotalRto, U32, "tcp_info_total_rto");
   (NumCol TcpInfoTotalRtoRecoveries, U32, "tcp_info_total_rto_recoveries");
   (NumCol TcpInfoTotalRtoTime, U32, "tcp_info_total_rto_time");
   (NumCol TcpInfoReceivedCe, U32, "tcp_info_received_ce");
   (NumCol TcpInfoDeliveredE1Bytes, U32, "tcp_info_delivered_e1_bytes");
   (NumCol TcpInfoDeliveredE0Bytes, U32, "tcp_info_delivered_e0_bytes");
   (NumCol TcpInfoDeliveredCeBytes, U32, "tcp_info_delivered_ce_bytes");
   (NumCol TcpInfoReceivedE1Bytes, U32, "tcp_info_received_e1_bytes");
   (NumCol TcpInfoReceivedE0Bytes, U32, "tcp_info_received_e0_bytes");
   (NumCol TcpInfoReceivedCeBytes, U32, "tcp_info_received_ce_bytes");
   (NumCol TcpInfoEcnMode, U32, "tcp_info_ecn_mode"); (NumCol TcpInfoAccecnOptSeen, U32, "tcp_info_accecn_opt_seen");
   (NumCol TcpInfoAccecnFailMode, U32, "tcp_info_accecn_fail_mode");
   (NumCol TcpInfoOptions2, U32, "tcp_info_options2"); (StrCol InetDiagCong, Str, "inet_diag_cong");
   (NumCol InetDiagCongEnum, I32, "inet_diag_cong_enum"); (NumCol InetDiagTos, U32, "inet_diag_tos");
   (NumCol InetDiagTclass, U32, "inet_diag_tclass"); (NumCol SkMemInfoRmemAlloc, U32, "sk_mem_info_rmem_alloc");
   (NumCol SkMemInfoRcvbuf, U32, "sk_mem_info_rcvbuf"); (NumCol SkMemInfoWmemAlloc, U32, "sk_mem_info_wmem_alloc");
   (NumCol SkMemInfoSndbuf, U32, "sk_mem_info_sndbuf"); (NumCol SkMemInfoFwdAlloc, U32, "sk_mem_info_fwd_alloc");
   (NumCol SkMemInfoWmemQueued, U32, "sk_mem_info_wmem_queued"); (NumCol SkMemInfoOptmem, U32, "sk_mem_info_optmem");
   (NumCol SkMemInfoBacklog, U32, "sk_mem_info_backlog"); (NumCol SkMemInfoDrops, U32, "sk_mem_info_drops");
   (NumCol InetDiagShutdown, U32, "inet_diag_shutdown"); (NumCol VegasInfoEnabled, U32, "vegas_info_enabled");
   (NumCol VegasInfoRttcnt, U32, "vegas_info_rttcnt"); (NumCol VegasInfoRtt, U32, "vegas_info_rtt");
   (NumCol VegasInfoMinrtt, U32, "vegas_info_minrtt"); (NumCol DctcpInfoEnabled, U32, "dctcp_info_enabled");
   (NumCol DctcpInfoCeState, U32, "dctcp_info_ce_state"); (NumCol DctcpInfoAlpha, U32, "dctcp_info_alpha");
   (NumCol DctcpInfoAbEcn, U32, "dctcp_info_ab_ecn"); (NumCol DctcpInfoAbTot, U32, "dctcp_info_ab_tot");
   (NumCol BbrInfoBwLo, U32, "bbr_info_bw_lo"); (NumCol BbrInfoBwHi, U32, "bbr_info_bw_hi");
   (NumCol BbrInfoMinRtt, U32, "bbr_info_min_rtt"); (NumCol BbrInfoPacingGain, U32, "bbr_info_pacing_gain");
   (NumCol BbrInfoCwndGain, U32, "bbr_info_cwnd_gain"); (NumCol InetDiagClassId, U32, "inet_diag_class_id");
   (NumCol InetDiagSockopt, U32, "inet_diag_sockopt"); (NumCol InetDiagCgroupId, U64, "inet_diag_cgroup_id")].

(** ** Copying a record *)

(** Assignments [p.dst = r.src], in the order of the code. *)
Definition assign_num (l : list (NumField * NumField)) (r : PbRow) (p : ParquetRow) : ParquetRow :=
  mkParquetRow (foldl (fun n '(d, s) => upd d (p_num r s) n) (q_num p) l) (q_str p) (q_src p) (q_dst p) (q_EventDate p).
Definition assign_str (l : list (StrField * StrField)) (r : PbRow) (p : ParquetRow) : ParquetRow :=
  mkParquetRow (q_num p) (foldl (fun n '(d, s) => fun f => if decide (d = f) then p_str r s else n f) (q_str p) l)
    (q_src p) (q_dst p) (q_EventDate p).

Definition fillTCPInfoAccECN (r : PbRow) (p : ParquetRow) : ParquetRow :=
  let p := assign_num [
   (TcpInfoReceivedCe, TcpInfoReceivedCe); (TcpInfoDeliveredE1Bytes, TcpInfoDeliveredE1Bytes);
   (TcpInfoDeliveredE0Bytes, TcpInfoDeliveredE0Bytes); (TcpInfoDeliveredCeBytes, TcpInfoDeliveredCeBytes);
   (TcpInfoReceivedE1Bytes, TcpInfoReceivedE1Bytes); (TcpInfoReceivedE0Bytes, TcpInfoReceivedE0Bytes);
   (TcpInfoReceivedCeBytes, TcpInfoReceivedCeBytes); (TcpInfoEcnMode, TcpInfoEcnMode);
   (TcpInfoAccecnOptSeen, TcpInfoAccecnOptSeen); (TcpInfoAccecnFailMode, TcpInfoAccecnFailMode);
   (TcpInfoOptions2, TcpInfoOptions2)] r p in
  p.

Definition fillTCPInfo (r : PbRow) (p : ParquetRow) : ParquetRow :=
  let p := assign_num [
   (TcpInfoState, TcpInfoState); (TcpInfoCaState, TcpInfoCaState); (TcpInfoRetransmits, TcpInfoRetransmits);
   (TcpInfoProbes, TcpInfoProbes); (TcpInfoBackoff, TcpInfoBackoff); (TcpInfoOptions, TcpInfoOptions);
   (TcpInfoSndWscale, TcpInfoSndWscale); (TcpInfoRcvWscale, TcpInfoRcvWscale);
   (TcpInfoDeliveryRateAppLimited, TcpInfoDeliveryRateAppLimited);
   (TcpInfoFastopenClientFail, TcpInfoFastopenClientFail); (TcpInfoRto, TcpInfoRto); (TcpInfoAto, TcpInfoAto);
   (TcpInfoSndMss, TcpInfoSndMss); (TcpInfoRcvMss, TcpInfoRcvMss); (TcpInfoUnacked, TcpInfoUnacked);
   (TcpInfoSacked, TcpInfoSacked); (TcpInfoLost, TcpInfoLost); (TcpInfoRetrans, TcpInfoRetrans);
   (TcpInfoFackets, TcpInfoFackets); (TcpInfoLastDataSent, TcpInfoLastDataSent);
   (TcpInfoLastAckSent, TcpInfoLastAckSent); (TcpInfoLastDataRecv, TcpInfoLastDataRecv);
   (TcpInfoLastAckRecv, TcpInfoLastAckRecv); (TcpInfoPmtu, TcpInfoPmtu); (TcpInfoRcvSsthresh, TcpInfoRcvSsthresh);
   (TcpInfoRtt, TcpInfoRtt); (TcpInfoRttvar, TcpInfoRttvar); (TcpInfoSndSsthresh, TcpInfoSndSsthresh);
   (TcpInfoSndCwnd, TcpInfoSndCwnd); (TcpInfoAdvmss, TcpInfoAdvmss); (TcpInfoReordering, TcpInfoReordering);
   (TcpInfoRcvRtt, TcpInfoRcvRtt); (TcpInfoRcvSpace, TcpInfoRcvSpace); (TcpInfoTotalRetrans, TcpInfoTotalRetrans);
   (TcpInfoPacingRate, TcpInfoPacingRate); (TcpInfoMaxPacingRate, TcpInfoMaxPacingRate);
   (TcpInfoBytesAcked, TcpInfoBytesAcked); (TcpInfoBytesReceived, TcpInfoBytesReceived);
   (TcpInfoSegsOut, TcpInfoSegsOut); (TcpInfoSegsIn, TcpInfoSegsIn); (TcpInfoNotsentBytes, TcpInfoNotsentBytes);
   (TcpInfoMinRtt, TcpInfoMinRtt); (TcpInfoDataSegsIn, TcpInfoDataSegsIn); (TcpInfoDataSegsOut, TcpInfoDataSegsOut);
   (TcpInfoDeliveryRate, TcpInfoDeliveryRate); (TcpInfoBusyTime, TcpInfoBusyTime);
   (TcpInfoRwndLimited, TcpInfoRwndLimited); (TcpInfoSndbufLimited, TcpInfoSndbufLimited);
   (TcpInfoDelivered, TcpInfoDelivered); (TcpInfoDeliveredCe, TcpInfoDeliveredCe);
   (TcpInfoBytesSent, TcpInfoBytesSent); (TcpInfoBytesRetrans, TcpInfoBytesRetrans);
   (TcpInfoDsackDups, TcpInfoDsackDups); (TcpInfoReordSeen, TcpInfoReordSeen); (TcpInfoRcvOoopack, TcpInfoRcvOoopack);
   (TcpInfoSndWnd, TcpInfoSndWnd); (TcpInfoRcvWnd, TcpInfoRcvWnd); (TcpInfoRehash, TcpInfoRehash);
   (TcpInfoTotalRto, TcpInfoTotalRto); (TcpInfoTotalRtoRecoveries, TcpInfoTotalRtoRecoveries);
   (TcpInfoTotalRtoTime, TcpInfoTotalRtoTime)] r p in
  fillTCPInfoAccECN r p.

Definition fillInetDiag (r : PbRow) (p : ParquetRow) : ParquetRow :=
  let p := assign_num [
   (InetDiagMsgFamily, InetDiagMsgFamily); (InetDiagMsgState, InetDiagMsgState); (InetDiagMsgTimer, InetDiagMsgTimer);
   (InetDiagMsgRetrans, InetDiagMsgRetrans); (InetDiagMsgSocketSourcePort, InetDiagMsgSocketSourcePort);
   (InetDiagMsgSocketDestinationPort, InetDiagMsgSocketDestinationPort);
   (InetDiagMsgSocketInterface, InetDiagMsgSocketInterface); (InetDiagMsgSocketCookie, InetDiagMsgSocketCookie);
   (InetDiagMsgExpires, InetDiagMsgExpires); (InetDiagMsgRqueue, InetDiagMsgRqueue);
   (InetDiagMsgWqueue, InetDiagMsgWqueue); (InetDiagMsgUid, InetDiagMsgUid); (InetDiagMsgInode, InetDiagMsgInode);
   (InetDiagCongEnum, InetDiagCongEnum); (InetDiagTos, InetDiagTos); (InetDiagTclass, InetDiagTclass);
   (InetDiagShutdown, InetDiagShutdown)] r p in
  let p := assign_str [
   (InetDiagCong, InetDiagCong)] r p in
  let p := mkParquetRow (q_num p) (q_str p) (p_src r) (p_dst r) (q_EventDate p) in
  p.

Definition fillMemInfo (r : PbRow) (p : ParquetRow) : ParquetRow :=
  let p := assign_num [
   (MemInfoRmem, MemInfoRmem); (MemInfoWmem, MemInfoWmem); (MemInfoFmem, MemInfoFmem); (MemInfoTmem, MemInfoTmem);
   (SkMemInfoRmemAlloc, SkMemInfoRmemAlloc); (SkMemInfoRcvbuf, SkMemInfoRcvbuf);
   (SkMemInfoWmemAlloc, SkMemInfoWmemAlloc); (SkMemInfoSndbuf, SkMemInfoSndbuf);
   (SkMemInfoFwdAlloc, SkMemInfoFwdAlloc); (SkMemInfoWmemQueued, SkMemInfoWmemQueued);
   (SkMemInfoOptmem, SkMemInfoOptmem); (SkMemInfoBacklog, SkMemInfoBacklog); (SkMemInfoDrops, SkMemInfoDrops)] r p in
  p.

Definition fillCCAlgos (r : PbRow) (p : ParquetRow) : ParquetRow :=
  let p := assign_num [
   (VegasInfoEnabled, VegasInfoEnabled); (VegasInfoRttcnt, VegasInfoRttcnt); (VegasInfoRtt, VegasInfoRtt);
   (VegasInfoMinrtt, VegasInfoMinrtt); (DctcpInfoEnabled, DctcpInfoEnabled); (DctcpInfoCeState, DctcpInfoCeState);
   (DctcpInfoAlpha, DctcpInfoAlpha); (DctcpInfoAbEcn, DctcpInfoAbEcn); (DctcpInfoAbTot, DctcpInfoAbTot);
   (BbrInfoBwLo, BbrInfoBwLo); (BbrInfoBwHi, BbrInfoBwHi); (BbrInfoMinRtt, BbrInfoMinRtt);
   (BbrInfoPacingGain, BbrInfoPacingGain); (BbrInfoCwndGain, BbrInfoCwndGain); (InetDiagClassId, InetDiagClassId);
   (InetDiagSockopt, InetDiagSockopt); (InetDiagCgroupId, InetDiagCgroupId)] r p in
  p.

(** The enumerations are int32 on both sides. *)
Definition rowHeader (r : PbRow) (p : ParquetRow) : ParquetRow :=
  let p := assign_num [
   (SchemaVersion, SchemaVersion); (TimestampNs, TimestampNs); (NetnsInode, NetnsInode); (Nsid, Nsid);
   (RecordCounter, RecordCounter); (SocketFd, SocketFd); (NetlinkerId, NetlinkerId);
   (Uplink1NicPciVendor, Uplink1NicPciVendor); (Uplink1NicPciDevice, Uplink1NicPciDevice);
   (Uplink1NicSpeedMbps, Uplink1NicSpeedMbps); (Uplink2NicPciVendor, Uplink2NicPciVendor);
   (Uplink2NicPciDevice, Uplink2NicPciDevice); (Uplink2NicSpeedMbps, Uplink2NicSpeedMbps);
   (EnrichSocketDestLocality, EnrichSocketDestLocality);
   (EnrichSocketDestEgressIfindex, EnrichSocketDestEgressIfindex); (EnrichSocketDestAsn, EnrichSocketDestAsn);
   (EnrichSocketDestNextHopAsn, EnrichSocketDestNextHopAsn)] r p in
  let p := assign_str [
   (DaemonVersion, DaemonVersion); (Hostname, Hostname); (Location, Location); (Netns, Netns);
   (ContainerId, ContainerId); (ContainerRuntime, ContainerRuntime); (ContainerName, ContainerName);
   (ContainerImage, ContainerImage); (Label, Label); (Tag, Tag); (Uplink1Ifname, Uplink1Ifname);
   (Uplink1NicDriver, Uplink1NicDriver); (Uplink1NicModel, Uplink1NicModel); (Uplink1NicBusInfo, Uplink1NicBusInfo);
   (Uplink1NicFwVersion, Uplink1NicFwVersion); (Uplink1LldpChassisName, Uplink1LldpChassisName);
   (Uplink1LldpChassisId, Uplink1LldpChassisId); (Uplink1LldpMgmtIp, Uplink1LldpMgmtIp);
   (Uplink1LldpPortId, Uplink1LldpPortId); (Uplink1LldpPortDescr, Uplink1LldpPortDescr);
   (Uplink2Ifname, Uplink2Ifname); (Uplink2NicDriver, Uplink2NicDriver); (Uplink2NicModel, Uplink2NicModel);
   (Uplink2NicBusInfo, Uplink2NicBusInfo); (Uplink2NicFwVersion, Uplink2NicFwVersion);
   (Uplink2LldpChassisName, Uplink2LldpChassisName); (Uplink2LldpChassisId, Uplink2LldpChassisId);
   (Uplink2LldpMgmtIp, Uplink2LldpMgmtIp); (Uplink2LldpPortId, Uplink2LldpPortId);
   (Uplink2LldpPortDescr, Uplink2LldpPortDescr); (EnrichSocketInterfaceName, EnrichSocketInterfaceName);
   (EnrichSocketDestEgressIfname, EnrichSocketDestEgressIfname);
   (EnrichSocketDestNetworkOwner, EnrichSocketDestNetworkOwner)] r p in
  p.
Definition rowFromProto (r : PbRow) : ParquetRow :=
  fillCCAlgos r (fillTCPInfo r (fillMemInfo r (fillInetDiag r (rowHeader r zeroRow)))).

(** The size estimate of a row, the order of the sum as in the code. *)
Definition numericBaseline : Z := 800.
Definition slen (s : string) : Z := Z.of_nat (String.length s).
Definition approxRowBytes (r : PbRow) : Z :=
  numericBaseline + slen (p_str r Hostname) + slen (p_str r Netns) + slen (p_str r Label) + slen (p_str r Tag) +
    slen (p_str r InetDiagCong) + glen (p_src r) + glen (p_dst r).

(** ** Nothing is dropped *)

(** The Go type of a column of the record. *)
Definition proto_type (t : gotype) : coltype := match t with TU32 => U32 | TU64 => U64 | TI64 => I64 | TEnum => I32 end.
Definition record_columns : list (Column * coltype) :=
  ((fun f => (NumCol f, proto_type (NumField_type f))) <$> all_NumField) ++ ((fun f => (StrCol f, Str)) <$> all_StrField) ++
  [(SrcCol, Bytes); (DstCol, Bytes)].
Lemma all_nums f : f ∈ all_NumField.
Proof. eapply list_elem_of_lookup_2, all_NumField_idx. Qed.
Lemma all_strs f : f ∈ all_StrField.
Proof. eapply list_elem_of_lookup_2, all_StrField_idx. Qed.

(** Every column of a record is copied, unchanged, into the Parquet column
    that carries its name: no assignment is missing, none is crossed with
    another column, and none is overwritten by a later one. *)
Theorem rowFromProto_complete (r : PbRow) :
  (forall f, q_num (rowFromProto r) f = p_num r f) /\ (forall f, q_str (rowFromProto r) f = p_str r f) /\
  q_src (rowFromProto r) = p_src r /\ q_dst (rowFromProto r) = p_dst r /\ q_EventDate (rowFromProto r) = "".
Proof. split_and!; [by intros [] | by intros [] | done..]. Qed.

(** The Parquet columns are those of the record, each of its Go type and
    declared once under a name of its own, and the derived event date. *)
Lemma parquet_columns_are_the_records :
  (parquet_columns.*1).*1 ≡ₚ EventDateCol :: record_columns.*1 /\
  (forall c t n, (c, t, n) ∈ parquet_columns -> c <> EventDateCol -> (c, t) ∈ record_columns) /\ NoDup (parquet_columns.*2).
Proof.
  split_and!.
  - apply (bool_decide_unpack _). vm_compute. exact I.
  - intros c t n Hin Hne.
    assert (Hall : Forall (fun '(c, t, n) => c = EventDateCol \/ (c, t) ∈ record_columns) parquet_columns)
      by (apply (bool_decide_unpack _); vm_compute; exact I).
    rewrite Forall_forall in Hall. by destruct (Hall _ Hin).
  - apply (bool_decide_unpack _). vm_compute. exact I.
Qed.

(** The estimate is no upper bound: the location, which it does not count, may
    be longer than the estimated row. *)
Lemma approxRowBytes_no_bound (n : nat) : exists r, approxRowBytes r = 800 /\ slen (p_str r Location) = Z.of_nat n.
Proof.
  exists (mkPbRow (fun _ => 0) (fun f => if decide (f = Location) then String.concat "" (replicate n "x") else "") [] []).
  split; [done|]. cbn [p_str]. rewrite decide_True by done. unfold slen. f_equal.
  induction n as [|n IH]; [done|]. destruct n; [done|].
  change (String.concat "" (replicate (S (S n)) "x")) with (String (Ascii.ascii_of_nat 120) (String.concat "" (replicate (S n) "x"))). cbn [String.length].
  by rewrite IH.
Qed.
