(* ===== verification/S3Upload.v ===== *)
(** The S3 Parquet destination's worker (pkg/xtcp/destinations_s3parquet.go): the
    in-memory object, its byte target, the uploads with their retries, and the
    decoding of envelopes into rows.

    The world is an [Env]: the outcome of the n-th write, of the n-th Close of a
    Parquet writer, of every attempt to store the n-th object and of the sleep
    after it, and the random numbers. [unmarshal] is protodelim with the
    generated Envelope. An object that is over keeps its rows with its fate. *)

From Stdlib Require Import Ascii.
From stdpp Require Import pretty.
From S2P Require Import Prelude FlatRecord ParquetRow.
From S2P Require Poller.

#[local] Open Scope string_scope.

(** ** Jitter and backoff (pkg/misc/timing.go) *)

(** [ScaleIntPct] and [JitterIntN]: on an int, what [ScalePct] and
    [JitterDuration] compute on a duration. *)
Definition ScaleIntPct : Z -> Z -> Z := Poller.Timing.ScalePct.
Definition JitterIntN : Z -> Z -> Z := Poller.Timing.JitterDuration.
Definition jitteredThreshold (threshold pct random : Z) : Z := threshold - JitterIntN random (ScaleIntPct threshold pct).
Definition nextFlushDelay (interval pct random : Z) : Z :=
  let limit := Poller.Timing.ScalePct interval pct in
  if decide (limit <= 0) then interval else interval - Z.quot limit 2 + Poller.Timing.JitterDuration random limit.

Definition second : Z := 1000000000.
Definition s3UploadBackoffBaseCst : Z := 1 * second.
Definition s3UploadBackoffCapMinCst : Z := 1 * second.
Definition s3UploadBackoffCapMaxCst : Z := 3600 * second.
Definition s3FlushIntervalFloorCst : Z := 1800 * second.
Definition s3ParquetUploadMaxAttempts : Z := 10.
Definition S3ParquetFlushThresholdBytesCst : Z := 63 * 1024 * 1024.
Definition resolveFlushInterval (interval pollFrequency : Z) : Z :=
  if decide (interval > 0) then interval else
  if decide (pollFrequency > s3FlushIntervalFloorCst) then pollFrequency else s3FlushIntervalFloorCst.
Definition resolveBackoffCap (cap pollFrequency : Z) : Z :=
  if decide (cap > 0) then cap else
  let capDur := Z.quot pollFrequency 10 in
  let capDur := if decide (capDur < s3UploadBackoffCapMinCst) then s3UploadBackoffCapMinCst else capDur in
  if decide (capDur > s3UploadBackoffCapMaxCst) then s3UploadBackoffCapMaxCst else capDur.
Definition backoffWindow (base capDur attempt : Z) : Z :=
  let shift := attempt - 1 in
  let shift := if decide (shift < 0) then 0 else shift in
  if decide (shift >= 33) then capDur else
  let w := int64 (Z.shiftl base shift) in
  if decide (w <= 0 \/ w > capDur) then capDur else w.

(** ** Dates *)

Definition nsPerDayCst : Z := 24 * 60 * 60 * 1000000000.
(** The proleptic Gregorian date of a day number, day 0 being 1970-01-01. *)
Definition civil (day : Z) : Z * Z * Z :=
  let z := day + 719468 in
  let era := z / 146097 in
  let doe := z mod 146097 in
  let yoe := (doe - doe / 1460 + doe / 36524 - doe / 146096) / 365 in
  let doy := doe - (365 * yoe + yoe / 4 - yoe / 100) in
  let mp := (5 * doy + 2) / 153 in
  let m := if decide (mp < 10) then mp + 3 else mp - 9 in
  (yoe + era * 400 + (if decide (m <= 2) then 1 else 0), m, doy - (153 * mp + 2) / 5 + 1).
Definition two_digits (z : Z) : string := (if decide (z < 10) then "0" else "") +:+ pretty (Z.to_N z).
(** [time.Unix(0, ns).UTC().Format("2006-01-02")]; an int64 of nanoseconds is
    within the years 1677 to 2262. *)
Definition utcDateFromNs (ns : Z) : string :=
  let '(y, m, d) := civil (ns / nsPerDayCst) in
  pretty (Z.to_N y) +:+ "-" +:+ two_digits m +:+ "-" +:+ two_digits d.

(** ** The worker *)

Record Env := mkEnv {
  write_ok : nat -> bool; close_ok : nat -> bool; put_ok : nat -> Z -> bool; sleep_ok : nat -> Z -> bool; random : nat -> Z }.
Inductive fate := Uploaded | DroppedAfterRetries | UploadAborted | WriterCloseFailed.
#[export] Instance fate_eq : EqDecision fate. Proof. solve_decision. Defined.
(** An object that is over; the effective threshold it had. *)
Record object := mkObject { o_fate : fate; o_rows : list ParquetRow; o_target : Z }.

Record counters := mkCounters {
  c_unmarshal : Z; c_write : Z; c_close : Z; c_upload : Z; c_uploadRows : Z; c_retry : Z; c_uploadErr : Z; c_rowsDropped : Z }.
Record worker := mkWorker {
  rows : list ParquetRow; accumBytes : Z; fileRows : Z; effectiveThreshold : Z; (* the builder *)
  lastDayIdx : Z; lastDate : string;
  threshold : Z; thresholdJitterPct : Z; flushInterval : Z; maxAttempts : Z;
  writes : nat; draws : nat; objects : list object; metrics : counters }.

Definition with_builder (rs : list ParquetRow) (acc n eff : Z) (w : worker) : worker :=
  mkWorker rs acc n eff (lastDayIdx w) (lastDate w) (threshold w) (thresholdJitterPct w) (flushInterval w) (maxAttempts w)
    (writes w) (draws w) (objects w) (metrics w).
Definition with_date (idx : Z) (date : string) (w : worker) : worker :=
  mkWorker (rows w) (accumBytes w) (fileRows w) (effectiveThreshold w) idx date (threshold w) (thresholdJitterPct w) (flushInterval w)
    (maxAttempts w) (writes w) (draws w) (objects w) (metrics w).
Definition with_counts (wr dr : nat) (os : list object) (m : counters) (w : worker) : worker :=
  mkWorker (rows w) (accumBytes w) (fileRows w) (effectiveThreshold w) (lastDayIdx w) (lastDate w) (threshold w) (thresholdJitterPct w)
    (flushInterval w) (maxAttempts w) wr dr os m.
Definition with_timing (thr interval : Z) (w : worker) : worker :=
  mkWorker (rows w) (accumBytes w) (fileRows w) (effectiveThreshold w) (lastDayIdx w) (lastDate w) thr (thresholdJitterPct w) interval
    (maxAttempts w) (writes w) (draws w) (objects w) (metrics w).
Definition over (f : fate) (m : counters) (w : worker) : worker :=
  with_counts (writes w) (draws w) (objects w ++ [mkObject f (rows w) (effectiveThreshold w)]) m w.

Section worker.
Context (unmarshal : bytes -> option (list PbRow)) (e : Env).

Definition startBuilder (w : worker) : worker :=
  let eff := jitteredThreshold (threshold w) (thresholdJitterPct w) (random e (draws w)) in
  with_counts (writes w) (S (draws w)) (objects w) (metrics w) (with_builder [] 0 0 eff w).

(** The loop of [uploadWithRetry] over the attempts from [attempt], for the
    [n]-th object: how it ended, and how many attempts failed. *)
Fixpoint upload_loop (n : nat) (maxAttempts attempt : Z) (fuel : nat) : fate * Z :=
  match fuel with
  | O => (DroppedAfterRetries, 0)
  | S fuel =>
      if put_ok e n attempt then (Uploaded, 0) else
      if decide (attempt = maxAttempts) then (DroppedAfterRetries, 1) else
      if sleep_ok e n attempt then let '(f, k) := upload_loop n maxAttempts (attempt + 1) fuel in (f, k + 1)
      else (UploadAborted, 1)
  end.
Definition uploadWithRetry (n : nat) (maxAttempts nrows : Z) (m : counters) : fate * counters :=
  let '(f, k) := upload_loop n maxAttempts 1 (Z.to_nat maxAttempts) in
  (f, match f with
      | Uploaded => mkCounters (c_unmarshal m) (c_write m) (c_close m) (c_upload m + 1) (c_uploadRows m + nrows) (c_retry m + k) (c_uploadErr m) (c_rowsDropped m)
      | DroppedAfterRetries => mkCounters (c_unmarshal m) (c_write m) (c_close m) (c_upload m) (c_uploadRows m) (c_retry m + k) (c_uploadErr m + 1) (c_rowsDropped m + nrows)
      | _ => mkCounters (c_unmarshal m) (c_write m) (c_close m) (c_upload m) (c_uploadRows m) (c_retry m + k) (c_uploadErr m) (c_rowsDropped m)
      end).
Definition finalize (w : worker) : worker :=
  if decide (fileRows w = 0) then startBuilder w else
  let n := length (objects w) in
  if negb (close_ok e n) then
    let m := metrics w in
    startBuilder (over WriterCloseFailed
      (mkCounters (c_unmarshal m) (c_write m) (c_close m + 1) (c_upload m) (c_uploadRows m) (c_retry m) (c_uploadErr m) (c_rowsDropped m)) w)
  else
    let '(f, m) := uploadWithRetry n (maxAttempts w) (fileRows w) (metrics w) in
    startBuilder (over f m w).

Definition set_EventDate (d : string) (p : ParquetRow) : ParquetRow := mkParquetRow (q_num p) (q_str p) (q_src p) (q_dst p) d.
Definition process_row (row : PbRow) (w : worker) : worker :=
  let parquetRow := rowFromProto row in
  let ts := p_num row TimestampNs in
  let idx := Z.quot ts nsPerDayCst in
  let w := if decide (idx <> lastDayIdx w) then with_date idx (utcDateFromNs ts) w else w in
  let parquetRow := set_EventDate (lastDate w) parquetRow in
  let j := writes w in
  let m := metrics w in
  if negb (write_ok e j) then
    with_counts (S j) (draws w) (objects w)
      (mkCounters (c_unmarshal m) (c_write m + 1) (c_close m) (c_upload m) (c_uploadRows m) (c_retry m) (c_uploadErr m) (c_rowsDropped m)) w
  else
    let w := with_counts (S j) (draws w) (objects w) m w in
    let acc := accumBytes w + approxRowBytes row in
    let w := with_builder (rows w ++ [parquetRow]) acc (fileRows w + 1) (effectiveThreshold w) w in
    if decide (acc >= effectiveThreshold w) then finalize w else w.
Definition processItem (item : bytes) (w : worker) : worker :=
  match unmarshal item with
  | None =>
      let m := metrics w in
      with_counts (writes w) (draws w) (objects w)
        (mkCounters (c_unmarshal m + 1) (c_write m) (c_close m) (c_upload m) (c_uploadRows m) (c_retry m) (c_uploadErr m) (c_rowsDropped m)) w
  | Some rs => foldl (fun w row => process_row row w) w rs
  end.
(** A runtime change of the upload timing. *)
Definition setFlush (interval thresholdBytes : option Z) (w : worker) : worker :=
  with_timing (default (threshold w) thresholdBytes) (default (flushInterval w) interval) w.

Definition new_worker (thr pct interval attempts : Z) : worker :=
  startBuilder (mkWorker [] 0 0 0 (-1) "" thr pct interval attempts 0 0 [] (mkCounters 0 0 0 0 0 0 0 0)).
End worker.

(** ** Object keys *)

Definition key_char (c : Ascii.ascii) : bool :=
  let z := Z.of_nat (Ascii.nat_of_ascii c) in
  bool_decide (97 <= z <= 122 \/ 65 <= z <= 90 \/ 48 <= z <= 57 \/ z = 46 \/ z = 95 \/ z = 45).
Definition dot : Ascii.ascii := "."%char.
Definition underscore : Ascii.ascii := "_"%char.
Fixpoint map_key (s : string) : string :=
  match s with "" => "" | String c s => String (if key_char c then c else underscore) (map_key s) end.
(** [strings.Contains(s, "..")] and [strings.ReplaceAll(s, "..", "_")] *)
Fixpoint has_dots (s : string) : bool :=
  match s with
  | String a (String b _ as r) => (bool_decide (a = dot) && bool_decide (b = dot)) || has_dots r
  | _ => false
  end.
Fixpoint replace_dots (s : string) : string :=
  match s with
  | String a r =>
      match r with
      | String b q => if bool_decide (a = dot) && bool_decide (b = dot) then String underscore (replace_dots q) else String a (replace_dots r)
      | "" => String a ""
      end
  | "" => ""
  end.
Fixpoint clean_loop (fuel : nat) (s : string) : option string :=
  if has_dots s then match fuel with O => None | S fuel => clean_loop fuel (replace_dots s) end else Some s.
Definition sanitizeHostnameForS3Key (h : string) : option string :=
  if decide (h = "") then Some "unknown" else
  cleaned ← clean_loop (String.length h) (map_key h);
  Some (if decide (cleaned = "") then "unknown" else cleaned).
