(* ===== verification/S3UploadSpec.v ===== *)
(** Specifications of [S3Upload]: what the worker does with the rows it is given,
    the bounds of the jitter and the backoff, and the sanitized host name. *)

From Stdlib Require Import Ascii.
From stdpp Require Import pretty.
From S2P Require Import Prelude FlatRecord ParquetRow S3Upload.
From S2P Require Poller.


(** ** The rows of a worker *)

Definition row_bytes (p : ParquetRow) : Z :=
  numericBaseline + slen (q_str p Hostname) + slen (q_str p Netns) + slen (q_str p Label) + slen (q_str p Tag) +
    slen (q_str p InetDiagCong) + glen (q_src p) + glen (q_dst p).
Definition total_bytes (l : list ParquetRow) : Z := foldr (fun p n => row_bytes p + n) 0 l.
(** A record with the date of its own timestamp. *)
Definition dated (r : PbRow) : ParquetRow := set_EventDate (utcDateFromNs (p_num r TimestampNs)) (rowFromProto r).
Definition timed (r : PbRow) : Prop := 0 <= p_num r TimestampNs.

Lemma total_bytes_app l k : total_bytes (l ++ k) = total_bytes l + total_bytes k.
Proof. induction l as [|p l IH]; [done|]. change (row_bytes p + total_bytes (l ++ k) = row_bytes p + total_bytes l + total_bytes k). lia. Qed.
Lemma row_bytes_nonneg p : 0 <= row_bytes p.
Proof. unfold row_bytes, slen, numericBaseline. len_lia. Qed.
Lemma row_bytes_dated d r : row_bytes (set_EventDate d (rowFromProto r)) = approxRowBytes r.
Proof. done. Qed.

(** The rows with which objects ended in one way. *)
Definition ended (f : fate) (l : list object) : list ParquetRow := concat (o_rows <$> filter (fun o => o_fate o = f) l).
Definition ended_objects (f : fate) (l : list object) : Z := glen (filter (fun o => o_fate o = f) l).
Lemma ended_snoc f l o : ended f (l ++ [o]) = ended f l ++ (if decide (o_fate o = f) then o_rows o else []).
Proof.
  unfold ended. rewrite filter_app, fmap_app, concat_app. f_equal. rewrite filter_cons. case_decide; cbn; [apply app_nil_r | done].
Qed.
Lemma ended_objects_snoc f l o : ended_objects f (l ++ [o]) = ended_objects f l + (if decide (o_fate o = f) then 1 else 0).
Proof. unfold ended_objects. rewrite filter_app, glen_app, filter_cons. by case_decide. Qed.

(** An object holds at least one row, and before its last one it was below its
    target. *)
Definition within (target : Z) (l : list ParquetRow) : Prop := l = [] \/ total_bytes l < target.
Definition closable (target : Z) (l : list ParquetRow) : Prop := exists k p, l = k ++ [p] /\ within target k.
Definition object_ok (o : object) : Prop := closable (o_target o) (o_rows o).
Lemma within_closable t l : within t l -> l <> [] -> closable t l.
Proof.
  intros H Hne. destruct l as [|p l _] using rev_ind; [done|]. exists l, p. split; [done|]. right.
  destruct H as [H|H]; [by destruct l|]. rewrite total_bytes_app in H. cbn -[row_bytes] in H. pose proof (row_bytes_nonneg p). lia.
Qed.

Record winv (w : worker) : Prop := {
  wi_rows : fileRows w = glen (rows w);
  wi_bytes : accumBytes w = total_bytes (rows w);
  wi_closable : rows w = [] \/ closable (effectiveThreshold w) (rows w);
  wi_date : forall ts, 0 <= ts -> Z.quot ts nsPerDayCst = lastDayIdx w -> lastDate w = utcDateFromNs ts;
  wi_objects : Forall object_ok (objects w);
  wi_uploaded : c_uploadRows (metrics w) = glen (ended Uploaded (objects w));
  wi_dropped : c_rowsDropped (metrics w) = glen (ended DroppedAfterRetries (objects w));
  wi_closed : c_close (metrics w) = ended_objects WriterCloseFailed (objects w) }.

(** Between two rows. *)
Definition steady (w : worker) : Prop := winv w /\ within (effectiveThreshold w) (rows w).

(** Everything a worker was given and wrote, in order. *)
Definition history (w : worker) : list ParquetRow := concat (o_rows <$> objects w) ++ rows w.

Section spec.
Context (unmarshal : bytes -> option (list PbRow)) (e : Env).

(** The rows of which the writes from the [j]-th on succeed. *)
Fixpoint written (j : nat) (l : list PbRow) : list ParquetRow :=
  match l with [] => [] | r :: l => (if write_ok e j then [dated r] else []) ++ written (S j) l end.
Lemma written_app j l k : written j (l ++ k) = written j l ++ written (j + length l) k.
Proof.
  revert j. induction l as [|r l IH]; intros j; cbn [app written length]; [by rewrite Nat.add_0_r|].
  rewrite IH, <- app_assoc. by replace (j + S (length l))%nat with (S j + length l)%nat by lia.
Qed.
Fixpoint failed_writes (j : nat) (n : nat) : Z :=
  match n with O => 0 | S n => (if write_ok e j then 0 else 1) + failed_writes (S j) n end.
Lemma failed_writes_add j n k : failed_writes j (n + k) = failed_writes j n + failed_writes (j + n) k.
Proof.
  revert j. induction n as [|n IH]; intros j; [by rewrite Nat.add_0_r|].
  cbn [Nat.add failed_writes]. rewrite IH. replace (j + S n)%nat with (S j + n)%nat by lia. lia.
Qed.

Lemma startBuilder_spec w : winv w -> winv (startBuilder e w) /\ rows (startBuilder e w) = [] /\ objects (startBuilder e w) = objects w /\
  writes (startBuilder e w) = writes w /\ metrics (startBuilder e w) = metrics w.
Proof. intros []. split; [|done]. split; cbn; try done. by left. Qed.

Lemma uploadWithRetry_fate n a k m :
  (uploadWithRetry e n a k m).1 <> WriterCloseFailed /\
  c_uploadRows (uploadWithRetry e n a k m).2 = c_uploadRows m + (if decide ((uploadWithRetry e n a k m).1 = Uploaded) then k else 0) /\
  c_rowsDropped (uploadWithRetry e n a k m).2 = c_rowsDropped m + (if decide ((uploadWithRetry e n a k m).1 = DroppedAfterRetries) then k else 0) /\
  c_close (uploadWithRetry e n a k m).2 = c_close m /\ c_unmarshal (uploadWithRetry e n a k m).2 = c_unmarshal m /\
  c_write (uploadWithRetry e n a k m).2 = c_write m.
Proof.
  unfold uploadWithRetry. assert (Hf : forall fuel at_, (upload_loop e n a at_ fuel).1 <> WriterCloseFailed).
  { induction fuel as [|fuel IH]; intros at_; cbn [upload_loop]; [done|]. destruct (put_ok e n at_); [done|]. case_decide; [done|].
    destruct (sleep_ok e n at_); [|done]. specialize (IH (at_ + 1)). by destruct (upload_loop e n a (at_ + 1) fuel). }
  specialize (Hf (Z.to_nat a) 1). destruct (upload_loop e n a 1 (Z.to_nat a)) as [f x]; cbn [fst snd] in *.
  destruct f; cbn -[Z.add]; split_and!; try done; rewrite ?decide_True, ?decide_False by done; lia.
Qed.

Lemma finalize_spec w : winv w ->
  winv (finalize e w) /\ rows (finalize e w) = [] /\ history (finalize e w) = history w /\ writes (finalize e w) = writes w /\
  c_unmarshal (metrics (finalize e w)) = c_unmarshal (metrics w) /\ c_write (metrics (finalize e w)) = c_write (metrics w).
Proof.
  intros H. unfold finalize. case_decide as H0.
  { destruct (startBuilder_spec w H) as (Hw & Hr & Ho & Hwr & Hm). rewrite Hm. split_and!; try done.
    unfold history. rewrite Hr, Ho. rewrite (wi_rows _ H) in H0. by destruct (rows w). }
  assert (Hover : forall f m,
    c_uploadRows m = c_uploadRows (metrics w) + (if decide (f = Uploaded) then fileRows w else 0) ->
    c_rowsDropped m = c_rowsDropped (metrics w) + (if decide (f = DroppedAfterRetries) then fileRows w else 0) ->
    c_close m = c_close (metrics w) + (if decide (f = WriterCloseFailed) then 1 else 0) ->
    c_unmarshal m = c_unmarshal (metrics w) -> c_write m = c_write (metrics w) ->
    let w' := startBuilder e (over f m w) in
    winv w' /\ rows w' = [] /\ history w' = history w /\ writes w' = writes w /\
    c_unmarshal (metrics w') = c_unmarshal (metrics w) /\ c_write (metrics w') = c_write (metrics w)).
  { intros f m Hu Hd Hc Hm Hw. cbn. split_and!; try done.
    - destruct H as [R B W D O U Dr C]. split; cbn -[ended ended_objects]; [done|done|by left|done| | | |].
      + apply Forall_app. split; [done|]. apply Forall_singleton. destruct W as [W|W]; [by rewrite R, W in H0 | exact W].
      + rewrite Hu, U, ended_snoc, glen_app, R. cbn [o_fate o_rows]. by destruct (decide (f = Uploaded)).
      + rewrite Hd, Dr, ended_snoc, glen_app, R. cbn [o_fate o_rows]. by destruct (decide (f = DroppedAfterRetries)).
      + by rewrite Hc, C, ended_objects_snoc.
    - unfold history. cbn. rewrite fmap_app, concat_app. cbn. by rewrite !app_nil_r. }
  destruct (close_ok e (length (objects w))); cbn [negb].
  - destruct (uploadWithRetry_fate (length (objects w)) (maxAttempts w) (fileRows w) (metrics w)) as (F1 & F2 & F3 & F4 & F5 & F6).
    destruct (uploadWithRetry e _ _ _ _) as [f m]. cbn [fst snd] in *. apply Hover; [done|done| |done|done].
    rewrite F4, decide_False by done. lia.
  - apply Hover; first [rewrite decide_False by done | rewrite decide_True by done | idtac]; cbn; lia.
Qed.

Lemma process_row_spec r w : steady w -> timed r ->
  let w' := process_row e r w in
  steady w' /\ history w' = history w ++ written (writes w) [r] /\ writes w' = S (writes w) /\
  c_unmarshal (metrics w') = c_unmarshal (metrics w) /\ c_write (metrics w') = c_write (metrics w) + failed_writes (writes w) 1.
Proof.
  intros [H HW] Hts. unfold process_row. cbn [written failed_writes]. rewrite app_nil_r.
  set (idx := Z.quot _ _). set (w0 := if decide (idx <> lastDayIdx w) then _ else w).
  assert (H0 : winv w0 /\ within (effectiveThreshold w0) (rows w0) /\ lastDate w0 = utcDateFromNs (p_num r TimestampNs) /\
    history w0 = history w /\ writes w0 = writes w /\ metrics w0 = metrics w).
  { unfold w0. case_decide as Hi.
    - split_and!; try done. destruct H as [R B W D O U Dr C]. split; cbn; try done. intros ts Hp Hq.
      unfold utcDateFromNs. assert (E : ts / nsPerDayCst = p_num r TimestampNs / nsPerDayCst); [|by rewrite E].
      unfold timed in Hts. unfold idx in Hq. rewrite !Z.quot_div_nonneg in Hq by (unfold nsPerDayCst; lia). exact Hq.
    - split_and!; try done. apply (wi_date _ H); [done|]. exact Hi. }
  clearbody w0. destruct H0 as (H0 & HW0 & Hd & Hh & Hw & Hm). rewrite Hd, Hw, Hm. fold (dated r).
  destruct (write_ok e (writes w)); cbn [negb].
  - set (wc := with_counts _ _ _ _ w0). set (w1 := with_builder _ _ _ _ wc).
    assert (Hacc : accumBytes w1 = total_bytes (rows w1)).
    { unfold w1. cbn -[approxRowBytes]. rewrite total_bytes_app. cbn -[row_bytes approxRowBytes]. rewrite (wi_bytes _ H0).
      unfold dated. rewrite row_bytes_dated. lia. }
    assert (Hhist : history w1 = history w ++ [dated r]) by (unfold w1, history in *; cbn; by rewrite app_assoc, Hh).
    assert (H1 : winv w1).
    { destruct H0 as [R B W D O U Dr C]. split; try done; unfold w1; cbn -[approxRowBytes]; rewrite ?glen_app, ?R, <- ?Hm; try done.
      right. by exists (rows w0), (dated r). }
    change (accumBytes wc + approxRowBytes r) with (accumBytes w1). case_decide as Hge.
    + destruct (finalize_spec w1 H1) as (Hf & Hr & Hh1 & Hwr & Hcu & Hcw). rewrite Hcu, Hcw, Hwr, Hh1. split_and!; try done.
      * split; [done|]. rewrite Hr. by left.
      * cbn. lia.
    + split_and!; try done; [split; [done | right; lia] | cbn; lia].
  - unfold history in *. cbn. rewrite app_nil_r. split_and!; try done; try lia.
    destruct H0 as [R B W D O U Dr C]. rewrite Hm in *. by split.
Qed.
Lemma process_rows_spec rs : forall w, steady w -> Forall timed rs ->
  let w' := foldl (fun w row => process_row e row w) w rs in
  steady w' /\ history w' = history w ++ written (writes w) rs /\ writes w' = (writes w + length rs)%nat /\
  c_unmarshal (metrics w') = c_unmarshal (metrics w) /\
  c_write (metrics w') = c_write (metrics w) + failed_writes (writes w) (length rs).
Proof.
  induction rs as [|r rs IH]; intros w H Ht; cbn [foldl].
  - split_and!; [done | cbn; by rewrite app_nil_r | cbn; lia | done | cbn; lia].
  - apply Forall_cons in Ht as [Hr Ht]. destruct (process_row_spec r w H Hr) as (H1 & Hh & Hw & Hu & Hc).
    destruct (IH _ H1 Ht) as (H2 & Hh2 & Hw2 & Hu2 & Hc2). rewrite Hh2, Hh, Hw2, Hu2, Hu, Hc2, Hc, Hw. split_and!; try done.
    + rewrite <- app_assoc. f_equal. by rewrite (written_app _ [r] rs), Nat.add_1_r.
    + cbn [length]. lia.
    + cbn [length]. rewrite (failed_writes_add _ 1 (length rs)), Nat.add_1_r. lia.
Qed.
Definition rows_of (item : bytes) : list PbRow := default [] (unmarshal item).
Definition undecodable (item : bytes) : Z := match unmarshal item with None => 1 | Some _ => 0 end.
Lemma processItem_spec item w : steady w -> Forall timed (rows_of item) ->
  let w' := processItem unmarshal e item w in
  steady w' /\ history w' = history w ++ written (writes w) (rows_of item) /\ writes w' = (writes w + length (rows_of item))%nat /\
  c_unmarshal (metrics w') = c_unmarshal (metrics w) + undecodable item /\
  c_write (metrics w') = c_write (metrics w) + failed_writes (writes w) (length (rows_of item)).
Proof.
  unfold processItem, rows_of, undecodable. intros H Ht. destruct (unmarshal item) as [rs|]; cbn [default from_option] in *.
  - destruct (process_rows_spec rs w H Ht) as (?&?&?&?&?). split_and!; try done. unfold id in *. lia.
  - cbn. rewrite app_nil_r. split_and!; try done; try lia. destruct H as [[R B W D O U Dr C] HW]. by split.
Qed.
Lemma new_worker_steady thr pct interval attempts : steady (new_worker e thr pct interval attempts).
Proof.
  split; [|by left]. split; cbn; try done; [by left|]. intros ts Hts Hq. rewrite Z.quot_div_nonneg in Hq by (unfold nsPerDayCst; lia).
  pose proof (Z.div_pos ts nsPerDayCst Hts ltac:(unfold nsPerDayCst; lia)). lia.
Qed.
Lemma setFlush_steady i t w : steady w -> steady (setFlush i t w) /\ history (setFlush i t w) = history w /\
  writes (setFlush i t w) = writes w /\ metrics (setFlush i t w) = metrics w.
Proof. intros [[] HW]. split_and!; try done. Qed.
Lemma finalize_steady w : steady w -> steady (finalize e w).
Proof. intros [H _]. destruct (finalize_spec w H) as (Hf & Hr & _). split; [done|]. rewrite Hr. by left. Qed.
End spec.

(** ** Retries *)

Lemma upload_loop_spec e n max fuel : forall attempt, 1 <= attempt -> Z.of_nat fuel = max - attempt + 1 ->
  let '(f, k) := upload_loop e n max attempt fuel in
  match f with
  | Uploaded => attempt <= attempt + k <= max /\ put_ok e n (attempt + k) = true /\
      (forall j, attempt <= j < attempt + k -> put_ok e n j = false /\ sleep_ok e n j = true)
  | DroppedAfterRetries => k = max - attempt + 1 /\ (forall j, attempt <= j <= max -> put_ok e n j = false) /\
      (forall j, attempt <= j < max -> sleep_ok e n j = true)
  | UploadAborted => attempt <= attempt + k - 1 < max /\ sleep_ok e n (attempt + k - 1) = false /\
      (forall j, attempt <= j <= attempt + k - 1 -> put_ok e n j = false) /\
      (forall j, attempt <= j < attempt + k - 1 -> sleep_ok e n j = true)
  | WriterCloseFailed => False
  end.
Proof.
  induction fuel as [|fuel IH]; intros a Ha Hf; cbn [upload_loop].
  { split_and!; [lia | intros j Hj; lia | intros j Hj; lia]. }
  destruct (put_ok e n a) eqn:Hp. { rewrite Z.add_0_r. split_and!; [lia | lia | done | intros j Hj; lia]. }
  case_decide as Hm.
  { split_and!; [lia | intros j Hj; by replace j with a by lia | intros j Hj; lia]. }
  destruct (sleep_ok e n a) eqn:Hs.
  2: { replace (a + 1 - 1) with a by lia. split_and!; [lia|lia|done| intros j Hj; by replace j with a by lia | intros j Hj; lia]. }
  specialize (IH (a + 1) ltac:(lia) ltac:(lia)). destruct (upload_loop e n max (a + 1) fuel) as [f k].
  assert (Hstep : forall (P : Z -> Prop) hi, P a -> (forall j, a + 1 <= j < hi -> P j) -> forall j, a <= j < hi -> P j).
  { intros P hi H1 H2 j Hj. destruct (decide (j = a)) as [->|]; [done|]. apply H2. lia. }
  destruct f; [| | |done].
  - destruct IH as (Hk & Hpk & Hall). replace (a + (k + 1)) with (a + 1 + k) by lia. split_and!; [lia|lia|done|].
    by apply (Hstep (fun j => put_ok e n j = false /\ sleep_ok e n j = true)).
  - destruct IH as (-> & Hput & Hsleep). split_and!; [lia | |].
    + intros j Hj. destruct (decide (j = a)) as [->|]; [done|]. apply Hput. lia.
    + by apply (Hstep (fun j => sleep_ok e n j = true)).
  - destruct IH as (Hk & Hsk & Hput & Hsleep). replace (a + (k + 1) - 1) with (a + 1 + k - 1) by lia. split_and!; [lia|lia|done| |].
    + intros j Hj. destruct (decide (j = a)) as [->|]; [done|]. apply Hput. lia.
    + by apply (Hstep (fun j => sleep_ok e n j = true)).
Qed.

(** An upload is attempted until it succeeds, until the last attempt
    failed, or until the sleep after a failed attempt is cut short by the
    deadline or the shutdown. Only in the second case are the rows counted as
    dropped: rows lost to an interrupted backoff are in no counter. *)
Theorem uploadWithRetry_spec (e : Env) (n : nat) (max nrows : Z) (m : counters) : 0 <= max ->
  let '(f, m') := uploadWithRetry e n max nrows m in
  match f with
  | Uploaded => exists k, 1 <= k <= max /\ put_ok e n k = true /\
      (forall j, 1 <= j < k -> put_ok e n j = false /\ sleep_ok e n j = true) /\
      c_uploadRows m' = c_uploadRows m + nrows /\ c_rowsDropped m' = c_rowsDropped m /\ c_retry m' = c_retry m + (k - 1)
  | DroppedAfterRetries => (forall j, 1 <= j <= max -> put_ok e n j = false) /\ (forall j, 1 <= j < max -> sleep_ok e n j = true) /\
      c_uploadRows m' = c_uploadRows m /\ c_rowsDropped m' = c_rowsDropped m + nrows /\ c_retry m' = c_retry m + max
  | UploadAborted => exists k, 1 <= k < max /\ sleep_ok e n k = false /\
      (forall j, 1 <= j <= k -> put_ok e n j = false) /\ (forall j, 1 <= j < k -> sleep_ok e n j = true) /\
      c_uploadRows m' = c_uploadRows m /\ c_rowsDropped m' = c_rowsDropped m /\ c_uploadErr m' = c_uploadErr m /\ c_retry m' = c_retry m + k
  | WriterCloseFailed => False
  end.
Proof.
  intros Hmax. unfold uploadWithRetry. pose proof (upload_loop_spec e n max (Z.to_nat max) 1 ltac:(lia) ltac:(lia)) as H.
  destruct (upload_loop e n max 1 (Z.to_nat max)) as [[] k]; cbn -[Z.add].
  - destruct H as (Hk & Hp & Hall). exists (1 + k). split_and!; [lia|lia|done|done|done|done|lia].
  - destruct H as (Hk & Hp & Hall). split_and!; [done|done|done|done|lia].
  - destruct H as (Hk & Hs & Hp & Hall). exists (1 + k - 1). split_and!; [lia|lia|done|done|done|done|done|done|lia].
  - done.
Qed.
Definition interrupted : Env := mkEnv (fun _ => true) (fun _ => true) (fun _ _ => false) (fun _ k => bool_decide (k < 3)) (fun _ => 0).
Lemma uploadWithRetry_spec_witness : uploadWithRetry interrupted 0 10 500 (mkCounters 0 0 0 0 0 0 0 0) =
    (UploadAborted, mkCounters 0 0 0 0 0 3 0 0) /\
  let '(f, m') := uploadWithRetry interrupted 0 10 500 (mkCounters 0 0 0 0 0 0 0 0) in c_rowsDropped m' = 0.
Proof.
  split; [vm_compute; reflexivity|].
  pose proof (uploadWithRetry_spec interrupted 0 10 500 (mkCounters 0 0 0 0 0 0 0 0) ltac:(lia)) as H. vm_compute in H |- *.
  destruct H as (k & _ & _ & _ & _ & _ & H & _). exact H.
Defined.

(** ** Bounds of the jitter and the backoff *)

(** With a percentage of at most 100, the byte target of an object lies
    between the threshold less that percentage and the threshold, and is
    positive; a flush delay is positive and within half the percentage of the
    interval on either side. *)
Theorem jitter_bounds (threshold interval pct random : Z) :
  0 < threshold < 2 ^ 56 -> 0 < interval < 2 ^ 56 -> 0 <= pct <= 100 ->
  (threshold - threshold * pct / 100 <= jitteredThreshold threshold pct random <= threshold /\
   0 < jitteredThreshold threshold pct random) /\
  (interval - interval * pct / 100 / 2 <= nextFlushDelay interval pct random <= interval + (interval * pct / 100 + 1) / 2 /\
   0 < nextFlushDelay interval pct random).
Proof.
  intros Ht Hi Hp. unfold jitteredThreshold, nextFlushDelay, JitterIntN, ScaleIntPct.
  destruct (Poller.Timing.ScalePct_bound threshold pct ltac:(lia) Hp ltac:(nia)) as [E1 H1]. rewrite E1 in *. clear E1.
  destruct (Poller.Timing.ScalePct_bound interval pct ltac:(lia) Hp ltac:(nia)) as [E2 H2]. rewrite E2 in *. clear E2.
  set (a := threshold * pct / 100) in *. set (b := interval * pct / 100) in *.
  assert (Hj : forall l, 0 <= l < 2 ^ 56 -> 0 <= Poller.Timing.JitterDuration random l <= l /\ (0 < l -> Poller.Timing.JitterDuration random l < l)).
  { intros l Hl. destruct (decide (l = 0)) as [->|]; [unfold Poller.Timing.JitterDuration; rewrite decide_True; lia|].
    pose proof (Poller.Timing.JitterDuration_bound random l ltac:(lia)). lia. }
  destruct (Hj a ltac:(lia)) as [A1 A2]. destruct (Hj b ltac:(lia)) as [B1 B2].
  split; [destruct (decide (a = 0)); lia|]. case_decide as Hb.
  - assert (Eb : b = 0) by lia. rewrite Eb. change (0 / 2) with 0. change ((0 + 1) / 2) with 0. lia.
  - rewrite Z.quot_div_nonneg by lia. pose proof (Z.div_mod b 2 ltac:(lia)). pose proof (Z.mod_pos_bound b 2 ltac:(lia)).
    pose proof (Z.div_mod (b + 1) 2 ltac:(lia)). pose proof (Z.mod_pos_bound (b + 1) 2 ltac:(lia)). specialize (B2 ltac:(lia)). lia.
Qed.
Lemma jitter_bounds_witness :
  (63 * 1024 * 1024 - 63 * 1024 * 1024 * 10 / 100 <= jitteredThreshold (63 * 1024 * 1024) 10 12345 <= 63 * 1024 * 1024 /\
   0 < jitteredThreshold (63 * 1024 * 1024) 10 12345) /\
  (s3FlushIntervalFloorCst - s3FlushIntervalFloorCst * 10 / 100 / 2 <= nextFlushDelay s3FlushIntervalFloorCst 10 12345
     <= s3FlushIntervalFloorCst + (s3FlushIntervalFloorCst * 10 / 100 + 1) / 2 /\ 0 < nextFlushDelay s3FlushIntervalFloorCst 10 12345).
Proof. apply jitter_bounds; unfold s3FlushIntervalFloorCst, second; lia. Defined.

(** The window doubles from one second and is capped; the shift never
    overflows. *)
Lemma backoffWindow_spec cap attempt : 0 < cap <= s3UploadBackoffBaseCst * 2 ^ 33 -> 1 <= attempt ->
  backoffWindow s3UploadBackoffBaseCst cap attempt = Z.min cap (s3UploadBackoffBaseCst * 2 ^ (attempt - 1)).
Proof.
  intros Hc Ha. unfold backoffWindow. rewrite (decide_False (P := attempt - 1 < 0)) by lia.
  case_decide as Hs.
  - pose proof (Z.pow_le_mono_r 2 33 (attempt - 1) ltac:(lia) ltac:(lia)). unfold s3UploadBackoffBaseCst, second in *. lia.
  - rewrite Z.shiftl_mul_pow2 by lia. pose proof (Z.pow_le_mono_r 2 (attempt - 1) 32 ltac:(lia) ltac:(lia)).
    pose proof (Z.pow_pos_nonneg 2 (attempt - 1) ltac:(lia) ltac:(lia)).
    rewrite Poller.Timing.int64_small by (unfold s3UploadBackoffBaseCst, second; lia). unfold s3UploadBackoffBaseCst, second in *. case_decide; lia.
Qed.
Lemma resolveBackoffCap_bounds poll : s3UploadBackoffCapMinCst <= resolveBackoffCap 0 poll <= s3UploadBackoffCapMaxCst.
Proof. unfold resolveBackoffCap, s3UploadBackoffCapMinCst, s3UploadBackoffCapMaxCst, second. repeat case_decide; lia. Qed.

(** ** Object keys *)

Fixpoint all_chars (p : ascii -> bool) (s : string) : bool :=
  match s with EmptyString => true | String c s => p c && all_chars p s end.
Definition starts_dot (s : string) : bool := match s with String a _ => bool_decide (a = dot) | EmptyString => false end.

Lemma map_key_ok s : all_chars key_char (map_key s) = true /\ String.length (map_key s) = String.length s.
Proof.
  induction s as [|c s [IH1 IH2]]; [done|]. cbn. rewrite IH1, IH2. split; [|done]. destruct (key_char c) eqn:E; [by rewrite E | done].
Qed.
Lemma map_key_id s : all_chars key_char s = true -> map_key s = s.
Proof. induction s as [|c s IH]; [done|]. cbn. intros [Hc Hs]%andb_true_iff. by rewrite Hc, IH. Qed.
(** One pass of ReplaceAll leaves no two dots in a row. *)
Lemma replace_dots_ok n : forall s, (String.length s <= n)%nat ->
  has_dots (replace_dots s) = false /\ (starts_dot (replace_dots s) = true -> starts_dot s = true) /\
  (replace_dots s = EmptyString -> s = EmptyString) /\ (all_chars key_char s = true -> all_chars key_char (replace_dots s) = true).
Proof.
  induction n as [|n IH]; intros s Hn; [by destruct s; [|cbn in Hn; lia]|].
  destruct s as [|a [|b q]]; [done| by destruct a as [[] [] [] [] [] [] [] []] |]. cbn [String.length] in Hn.
  change (replace_dots (String a (String b q))) with
    (if bool_decide (a = dot) && bool_decide (b = dot) then String underscore (replace_dots q) else String a (replace_dots (String b q))).
  destruct (bool_decide (a = dot) && bool_decide (b = dot)) eqn:E.
  - destruct (IH q ltac:(lia)) as (H1 & H2 & H3 & H4). split_and!.
    + destruct (replace_dots q) as [|x r] eqn:Eq; [done|]. change (has_dots (String underscore (String x r))) with
        ((bool_decide (underscore = dot) && bool_decide (x = dot)) || has_dots (String x r)). by rewrite H1.
    + done.
    + done.
    + cbn [all_chars]. intros [_ [_ Hq]%andb_true_iff]%andb_true_iff. by rewrite (H4 Hq).
  - destruct (IH (String b q) ltac:(cbn [String.length]; lia)) as (H1 & H2 & H3 & H4). split_and!.
    + destruct (replace_dots (String b q)) as [|x r] eqn:Eq; [done|]. change (has_dots (String a (String x r))) with
        ((bool_decide (a = dot) && bool_decide (x = dot)) || has_dots (String x r)). rewrite H1, orb_false_r.
      destruct (bool_decide (a = dot)) eqn:Ea; [|done]. cbn in E |- *. destruct (bool_decide (x = dot)) eqn:Ex; [|done].
      cbn in H2. rewrite Ex in H2. rewrite H2 in E by done. done.
    + done.
    + done.
    + cbn [all_chars]. intros [Ha Hq]%andb_true_iff. rewrite Ha. apply H4. exact Hq.
Qed.

(** The host segment of an object key is never empty and holds only letters,
    digits, dots, underscores and dashes, without two dots in a row: no host name
    adds a segment to the key or climbs out of the prefix. A host name that is
    already of this form is kept. The loop runs at most once. *)
Theorem sanitizeHostnameForS3Key_spec (h : string) : exists s,
  sanitizeHostnameForS3Key h = Some s /\ s <> EmptyString /\ all_chars key_char s = true /\ has_dots s = false /\
  (h <> EmptyString -> all_chars key_char h = true -> has_dots h = false -> s = h).
Proof.
  unfold sanitizeHostnameForS3Key. case_decide as Hh; [by eexists|]. destruct (map_key_ok h) as [Hk Hl].
  assert (Hne : map_key h <> EmptyString) by (intros E; rewrite E in Hl; by destruct h).
  destruct (has_dots (map_key h)) eqn:Hd.
  - destruct (replace_dots_ok (String.length (map_key h)) (map_key h) ltac:(lia)) as (H1 & _ & H3 & H4).
    assert (E : clean_loop (String.length h) (map_key h) = Some (replace_dots (map_key h))).
    { destruct h as [|c h]; [done|]. cbn [String.length clean_loop]. rewrite Hd. by destruct (String.length h); cbn [clean_loop]; rewrite H1. }
    rewrite E. cbn [mbind option_bind]. rewrite decide_False by auto. eexists. split_and!; [done|auto|auto|done|].
    intros _ Hc Hn. rewrite map_key_id in Hd by done. congruence.
  - assert (E : clean_loop (String.length h) (map_key h) = Some (map_key h)) by (destruct (String.length h); cbn [clean_loop]; by rewrite Hd).
    rewrite E. cbn [mbind option_bind]. rewrite decide_False by done. eexists. split_and!; [done..|]. intros _ Hc _. by apply map_key_id.
Qed.
