(* ===== verification/S3Dest.v ===== *)
(** The S3 Parquet destination as a whole: the goroutines that call Send, the one
    that calls Close, and the worker between them
    (pkg/xtcp/destinations_s3parquet.go).

    An action is one select or one channel operation of one goroutine, so a list
    of actions is an interleaving. A Send is named by a number, which also names
    its buffer; a buffer goes back to destBytesPool when its name is in
    [returned]. Close's wait for the worker is not an action: it has no effect. *)

From stdpp Require Import gmap.
From S2P Require Import Prelude FlatRecord ParquetRow S3Upload S3UploadSpec.

Definition s3ParquetDestQueueCapacity : nat := 16.

(** Where a Send is: past its first look at closedCh, or blocked on the full
    queue. *)
Inductive send_pc := AtQueue | AtFull.
#[export] Instance send_pc_eq : EqDecision send_pc. Proof. solve_decision. Defined.
Inductive worker_pc := Selecting | Draining | Exited.
#[export] Instance worker_pc_eq : EqDecision worker_pc. Proof. solve_decision. Defined.
(** The case a select takes. *)
Inductive choice := TakeQueue | TakeClosed | TakeDone.

Record dest := mkDest {
  queue : list (nat * bytes); closed : bool; wpc : worker_pc; wk : worker; senders : gmap nat (send_pc * bytes);
  queueFull : Z;
  (* ghost *)
  accepted : list (nat * bytes); consumed : list (nat * bytes); rejected : list nat; returned : list nat }.

Inductive action :=
  | SendStart (i : nat) (b : bytes)  (* Send is called and looks at closedCh *)
  | SendSelect (i : nat) (c : choice)  (* its non-blocking select; the default case is [TakeDone] *)
  | SendBlocked (i : nat) (c : choice)  (* its blocking select *)
  | CloseDest
  | WorkItem | WorkFlush | WorkControl (interval thresholdBytes : option Z)
  | WorkClosed | WorkDrain.

Section dest.
Context (unmarshal : bytes -> option (list PbRow)) (e : Env).

Definition enqueue (i : nat) (b : bytes) (d : dest) : option dest :=
  if decide (length (queue d) < s3ParquetDestQueueCapacity)%nat then
    Some (mkDest (queue d ++ [(i, b)]) (closed d) (wpc d) (wk d) (delete i (senders d)) (queueFull d) (accepted d ++ [(i, b)]) (consumed d)
            (rejected d) (returned d))
  else None.
(** [refundOnReject] and the return with an error. *)
Definition reject (i : nat) (d : dest) : dest :=
  mkDest (queue d) (closed d) (wpc d) (wk d) (delete i (senders d)) (queueFull d) (accepted d) (consumed d) (rejected d ++ [i]) (returned d ++ [i]).
Definition park (i : nat) (b : bytes) (full : bool) (d : dest) : dest :=
  mkDest (queue d) (closed d) (wpc d) (wk d) (<[i := (if full then AtFull else AtQueue, b)]> (senders d))
    (if full then queueFull d + 1 else queueFull d) (accepted d) (consumed d) (rejected d) (returned d).
Definition set_worker (pc : worker_pc) (w : worker) (d : dest) : dest :=
  mkDest (queue d) (closed d) pc w (senders d) (queueFull d) (accepted d) (consumed d) (rejected d) (returned d).
(** The worker receives an item and processes it; its buffer is returned. *)
Definition take_item (d : dest) : option dest :=
  match queue d with
  | [] => None
  | (i, b) :: q =>
      Some (mkDest q (closed d) (wpc d) (processItem unmarshal e b (wk d)) (senders d) (queueFull d) (accepted d) (consumed d ++ [(i, b)])
              (rejected d) (returned d ++ [i]))
  end.
(** The names of the Sends so far. *)
Definition issued (d : dest) : list nat := (accepted d).*1 ++ rejected d ++ (map_to_list (senders d)).*1.

(** The worker's select, and the select of its drain. *)
Definition worker_step (a : action) (d : dest) : option dest :=
  match a with
  | WorkItem => if decide (wpc d = Selecting) then take_item d else None
  | WorkFlush => if decide (wpc d = Selecting) then Some (set_worker Selecting (finalize e (wk d)) d) else None
  | WorkControl i t => if decide (wpc d = Selecting) then Some (set_worker Selecting (setFlush i t (wk d)) d) else None
  | WorkClosed => if decide (wpc d = Selecting /\ closed d = true) then Some (set_worker Draining (wk d) d) else None
  | WorkDrain =>
      if decide (wpc d = Draining) then
        match queue d with [] => Some (set_worker Exited (finalize e (wk d)) d) | _ => take_item d end
      else None
  | _ => None
  end.
Definition step (a : action) (d : dest) : option dest :=
  match a with
  | SendStart i b =>
      if decide (i ∈ issued d) then None else
      if closed d then Some (reject i d) else Some (park i b false d)
  | SendSelect i c =>
      match senders d !! i with
      | Some (AtQueue, b) =>
          match c with
          | TakeQueue => enqueue i b d
          | TakeClosed => if closed d then Some (reject i d) else None
          | TakeDone => if decide (length (queue d) = s3ParquetDestQueueCapacity /\ closed d = false) then Some (park i b true d) else None
          end
      | _ => None
      end
  | SendBlocked i c =>
      match senders d !! i with
      | Some (AtFull, b) =>
          match c with
          | TakeQueue => enqueue i b d
          | TakeClosed => if closed d then Some (reject i d) else None
          | TakeDone => Some (reject i d)
          end
      | _ => None
      end
  | CloseDest =>
      if closed d then None else
      Some (mkDest (queue d) true (wpc d) (wk d) (senders d) (queueFull d) (accepted d) (consumed d) (rejected d) (returned d))
  | _ => worker_step a d
  end.
Fixpoint run (l : list action) (d : dest) : option dest :=
  match l with [] => Some d | a :: l => d ← step a d; run l d end.
(** [newS3ParquetDest] *)
Definition newS3ParquetDest (thr pct interval attempts : Z) : dest :=
  mkDest [] false Selecting (new_worker e thr pct interval attempts) ∅ 0 [] [] [] [].

(** ** The invariant *)

Definition rows_in (l : list (nat * bytes)) : list PbRow := concat ((fun p => rows_of unmarshal p.2) <$> l).
Definition undecodable_in (l : list (nat * bytes)) : Z := foldr (fun p n => undecodable unmarshal p.2 + n) 0 l.
(** The records of an envelope were stamped after 1970. *)
Definition action_timed (a : action) : Prop := match a with SendStart _ b => Forall timed (rows_of unmarshal b) | _ => True end.

Record dinv (d : dest) : Prop := {
  di_queue : accepted d = consumed d ++ queue d;
  di_cap : (length (queue d) <= s3ParquetDestQueueCapacity)%nat;
  di_steady : steady (wk d);
  di_history : history (wk d) = written e 0 (rows_in (consumed d)) /\ writes (wk d) = length (rows_in (consumed d));
  di_metrics : c_unmarshal (metrics (wk d)) = undecodable_in (consumed d) /\ c_write (metrics (wk d)) = failed_writes e 0 (writes (wk d));
  di_timed : Forall (fun p => Forall timed (rows_of unmarshal p.2)) (queue d) /\ map_Forall (fun _ p => Forall timed (rows_of unmarshal p.2)) (senders d);
  di_pool : returned d ≡ₚ (consumed d).*1 ++ rejected d;
  di_names : NoDup (issued d);
  di_closed : closed d = false -> wpc d = Selecting;
  di_exited : wpc d = Exited -> rows (wk d) = [] }.

Lemma rows_in_app l k : rows_in (l ++ k) = rows_in l ++ rows_in k.
Proof. unfold rows_in. by rewrite fmap_app, concat_app. Qed.
Lemma undecodable_in_app l k : undecodable_in (l ++ k) = undecodable_in l + undecodable_in k.
Proof. induction l as [|p l IH]; [done|]. change (undecodable unmarshal p.2 + undecodable_in (l ++ k) = undecodable unmarshal p.2 + undecodable_in l + undecodable_in k). lia. Qed.

Lemma nodup_perm {A} (l k : list A) : k ≡ₚ l -> NoDup l -> NoDup k.
Proof. by intros ->. Qed.
Lemma issued_delete {A} (m : gmap nat A) i x : m !! i = Some x -> (map_to_list m).*1 ≡ₚ i :: (map_to_list (delete i m)).*1.
Proof. intros Hi. rewrite <- (insert_delete_id m i x Hi) at 1. rewrite map_to_list_insert by apply lookup_delete_eq. done. Qed.

Lemma enqueue_inv i b pc d d' : dinv d -> senders d !! i = Some (pc, b) -> enqueue i b d = Some d' -> dinv d'.
Proof.
  intros [Q C S H M [T1 T2] P N Cl X] Hi Hd. unfold enqueue in Hd. case_decide; [|done]. injection Hd as <-.
  pose proof (T2 _ _ Hi) as Hb. cbn in Hb.
  split; cbn; try done.
  - by rewrite Q, app_assoc.
  - rewrite length_app. cbn. lia.
  - split; [apply Forall_app; by split; [|apply Forall_singleton] | by apply map_Forall_delete].
  - eapply nodup_perm; [|exact N]. unfold issued. cbn. rewrite fmap_app, <- app_assoc. apply Permutation_app_head.
    rewrite (issued_delete _ _ _ Hi). cbn. apply Permutation_middle.
Qed.
Lemma reject_inv i d : dinv d -> is_Some (senders d !! i) \/ i ∉ issued d -> dinv (reject i d).
Proof.
  intros [Q C S H M [T1 T2] P N Cl X] Hi. split; cbn; try done.
  - split; [done | by apply map_Forall_delete].
  - rewrite P. by rewrite <- app_assoc.
  - unfold issued in *. cbn. destruct Hi as [[x E]|Hi].
    + eapply nodup_perm; [|exact N]. rewrite (issued_delete _ _ _ E). by rewrite <- app_assoc.
    + assert (Hn : senders d !! i = None).
      { apply eq_None_not_Some. intros [x Hx]. apply Hi. apply elem_of_app; right. apply elem_of_app; right.
        apply list_elem_of_fmap. exists (i, x). by rewrite elem_of_map_to_list. }
      rewrite delete_id by done. eapply nodup_perm; [|exact (NoDup_cons_2 _ _ Hi N)]. rewrite <- app_assoc. cbn.
      rewrite !(app_assoc (accepted d).*1). symmetry. apply Permutation_middle.
Qed.
Lemma park_inv i b full d : dinv d -> Forall timed (rows_of unmarshal b) ->
  (exists pc, senders d !! i = Some (pc, b)) \/ i ∉ issued d -> dinv (park i b full d).
Proof.
  intros [Q C S H M [T1 T2] P N Cl X] Hb Hi. split; cbn; try done.
  - split; [done | by apply map_Forall_insert_2].
  - unfold issued in *. cbn. destruct (senders d !! i) as [x|] eqn:E.
    + eapply nodup_perm; [|exact N]. rewrite (issued_delete _ _ _ E).
      rewrite (issued_delete (<[i := _]> (senders d)) i _ (lookup_insert_eq _ _ _)). by rewrite delete_insert_eq.
    + destruct Hi as [[pc Hi]|Hi]; [congruence|]. rewrite map_to_list_insert by done. cbn.
      eapply nodup_perm; [|exact (NoDup_cons_2 _ _ Hi N)]. rewrite !(app_assoc (accepted d).*1). symmetry. apply Permutation_middle.
Qed.
Lemma take_item_inv d d' : dinv d -> wpc d <> Exited -> take_item d = Some d' -> dinv d'.
Proof.
  intros [Q C S [H1 H2] [M1 M2] [T1 T2] P N Cl X] Hpc Hd. unfold take_item in Hd. destruct (queue d) as [|[i b] q] eqn:Eq; [done|].
  injection Hd as <-. apply Forall_cons in T1 as [Hb T1]. cbn in Hb.
  destruct (processItem_spec unmarshal e b (wk d) S Hb) as (S' & Hh & Hw & Hu & Hc).
  split; cbn [queue closed wpc wk senders queueFull accepted consumed rejected returned]; try done.
  - by rewrite <- app_assoc.
  - cbn in C. lia.
  - rewrite rows_in_app, length_app, Hh, Hw, H1, H2. unfold rows_in at 3 6. cbn. rewrite !app_nil_r. split; [|done].
    by rewrite written_app.
  - split; [rewrite undecodable_in_app, Hu, M1; cbn; lia | by rewrite Hc, Hw, M2, failed_writes_add].
  - rewrite P, fmap_app. cbn. rewrite <- !app_assoc. apply Permutation_app_head, Permutation_app_comm.
Qed.

Lemma s3_step_inv a d d' : dinv d -> action_timed a -> step a d = Some d' -> dinv d'.
Proof.
  intros H Ht. pose proof (di_timed _ H) as [_ T2]. destruct a as [i b|i c|i c| | | |iv t| |]; cbn [step worker_step].
  - case_decide as Hi; [done|]. destruct (closed d); intros [= <-]; [apply reject_inv; auto | apply park_inv; auto].
  - destruct (senders d !! i) as [[[] b]|] eqn:Es; [|done..]. pose proof (T2 _ _ Es) as Hb. cbn in Hb. destruct c.
    + intros Hd. by eapply enqueue_inv.
    + destruct (closed d); [|done]. intros [= <-]. apply reject_inv; [done|]. rewrite Es. eauto.
    + case_decide; [|done]. intros [= <-]. apply park_inv; eauto.
  - destruct (senders d !! i) as [[[] b]|] eqn:Es; [done| |done]. destruct c.
    + intros Hd. by eapply enqueue_inv.
    + destruct (closed d); [|done]. intros [= <-]. apply reject_inv; [done|]. rewrite Es. eauto.
    + intros [= <-]. apply reject_inv; [done|]. rewrite Es. eauto.
  - destruct (closed d); [done|]. intros [= <-]. destruct H. by split.
  - case_decide as Hp; [|done]. apply take_item_inv; [done | by rewrite Hp].
  - case_decide as Hp; [|done]. intros [= <-]. destruct H as [Q C S [H1 H2] [M1 M2] T P N Cl X].
    destruct (finalize_spec e (wk d) (proj1 S)) as (_ & _ & Hh & Hw & Hu & Hc).
    split; cbn -[finalize]; rewrite ?Hh, ?Hw, ?Hu, ?Hc; try done. by apply finalize_steady.
  - case_decide as Hp; [|done]. intros [= <-]. destruct H as [Q C S [H1 H2] [M1 M2] T P N Cl X].
    destruct (setFlush_steady iv t (wk d) S) as (S' & Hh & Hw & Hm). split; cbn -[setFlush]; rewrite ?Hh, ?Hw, ?Hm; try done.
  - case_decide as Hp; [|done]. intros [= <-]. destruct H as [Q C S H M T P N Cl X]. split; cbn; try done. intros Hc. destruct Hp; congruence.
  - case_decide as Hp; [|done]. destruct (queue d) as [|x q] eqn:Eq.
    + intros [= <-]. destruct H as [Q C S [H1 H2] [M1 M2] T P N Cl X].
      destruct (finalize_spec e (wk d) (proj1 S)) as (_ & Hr & Hh & Hw & Hu & Hc).
      split; cbn -[finalize]; rewrite ?Hh, ?Hw, ?Hu, ?Hc; try done; [by apply finalize_steady|]. intros Hcl. rewrite (Cl Hcl) in Hp. done.
    + apply take_item_inv; [done | by rewrite Hp].
Qed.
Lemma run_inv l : forall d d', dinv d -> Forall action_timed l -> run l d = Some d' -> dinv d'.
Proof.
  induction l as [|a l IH]; intros d d' H Ht; [by intros [= <-]|]. apply Forall_cons in Ht as [Ha Ht]. cbn [run].
  intros (d1 & H1 & Hr)%bind_Some. eapply IH; [by eapply s3_step_inv | done..].
Qed.
Lemma run_app l k d : run (l ++ k) d = (d ← run l d; run k d).
Proof. revert d. induction l as [|a l IH]; intros d; [done|]. cbn. destruct (step a d); [apply IH | done]. Qed.
Lemma s3_start_inv thr pct interval attempts : dinv (newS3ParquetDest thr pct interval attempts).
Proof.
  split; cbn -[new_worker]; try done.
  - unfold s3ParquetDestQueueCapacity. lia.
  - apply new_worker_steady.
  - by apply NoDup_nil.
Qed.

(** ** After Close *)

(** Closed with no Send under way. *)
Definition quiet (d : dest) : Prop := closed d = true /\ senders d = ∅ /\ (wpc d = Exited -> queue d = []).
Lemma step_quiet a d d' : quiet d -> step a d = Some d' -> quiet d' /\ accepted d' = accepted d.
Proof.
  intros (Hc & Hs & Hq). destruct a as [i b|i c|i c| | | |iv t| |]; cbn [step worker_step]; rewrite ?Hs, ?lookup_empty, ?Hc; try done.
  - case_decide; [done|]. intros [= <-]. split_and!; [split_and!; cbn; [done | by rewrite Hs, delete_empty | done] | done].
  - case_decide as Hp; [|done]. unfold take_item. destruct (queue d) as [|[i b] q]; [done|]. intros [= <-]. cbn.
    split_and!; [split_and!; cbn; [done|done|by rewrite Hp] | done].
  - case_decide as Hp; [|done]. intros [= <-]. by split_and!.
  - case_decide as Hp; [|done]. intros [= <-]. by split_and!.
  - case_decide as Hp; [|done]. intros [= <-]. by split_and!.
  - case_decide as Hp; [|done]. unfold take_item. destruct (queue d) as [|[i b] q] eqn:Eq; intros [= <-]; cbn.
    + split_and!; [split_and!; cbn; done | done].
    + split_and!; [split_and!; cbn; [done|done|by rewrite Hp] | done].
Qed.
Lemma run_quiet l : forall d d', quiet d -> run l d = Some d' -> quiet d' /\ accepted d' = accepted d.
Proof.
  induction l as [|a l IH]; intros d d' H; [by intros [= <-]|]. cbn [run]. intros (d1 & H1 & Hr)%bind_Some.
  destruct (step_quiet _ _ _ H H1) as [Hq <-]. by apply IH.
Qed.
Lemma s3_drains l : forall d, wpc d = Draining -> queue d = l -> exists d', run (replicate (S (length l)) WorkDrain) d = Some d' /\
  wpc d' = Exited /\ queue d' = [] /\ consumed d' = consumed d ++ l.
Proof.
  induction l as [|[i b] l IH]; intros d Hp Hq.
  - cbn [length replicate run step worker_step]. rewrite decide_True, Hq by done. eexists. split_and!; [done|done|done | cbn; by rewrite app_nil_r].
  - cbn [length]. rewrite replicate_S. cbn [run step worker_step]. rewrite decide_True, Hq by done. unfold take_item. rewrite Hq. cbn [mbind option_bind].
    match goal with |- context[run _ ?d1] => destruct (IH d1 Hp eq_refl) as (d' & Hd & ? & ? & Hc) end.
    exists d'. split_and!; [exact Hd|done|done|]. rewrite Hc. cbn. by rewrite <- app_assoc.
Qed.

(** C38: over any interleaving of Sends, Close and the worker, with any outcome of
    the writes and uploads, for records stamped no earlier than 1970: the worker
    receives the accepted envelopes in order, each once, and the queue never
    holds more than 16; the rows of the received envelopes are, in order and each
    with the date of its own timestamp, those of the objects that are over
    followed by those of the current one, less the rows whose write failed. The
    upload counter is the number of rows of the uploaded objects, the dropped
    counter that of the objects given up after every retry (the rows of an
    upload cut short or of a writer that fails to close are in neither), and the
    write and unmarshal counters count the failed writes and undecodable
    envelopes; every object holds a row and was below its byte target before its
    last one; the buffers returned to the pool are those of the received and of
    the refused envelopes, each once (one accepted but never received is not
    returned). *)
Theorem s3_conserves_rows thr pct interval attempts (acts : list action) (d : dest) :
  Forall action_timed acts -> run acts (newS3ParquetDest thr pct interval attempts) = Some d ->
  (accepted d = consumed d ++ queue d /\ (length (queue d) <= s3ParquetDestQueueCapacity)%nat) /\
  concat (o_rows <$> objects (wk d)) ++ rows (wk d) = written e 0 (rows_in (consumed d)) /\
  (c_uploadRows (metrics (wk d)) = glen (ended Uploaded (objects (wk d))) /\
   c_rowsDropped (metrics (wk d)) = glen (ended DroppedAfterRetries (objects (wk d))) /\
   c_write (metrics (wk d)) = failed_writes e 0 (length (rows_in (consumed d))) /\
   c_unmarshal (metrics (wk d)) = undecodable_in (consumed d)) /\
  Forall object_ok (objects (wk d)) /\
  (returned d ≡ₚ (consumed d).*1 ++ rejected d /\ NoDup (returned d)).
Proof.
  intros Ht Hr. pose proof (run_inv _ _ _ (s3_start_inv thr pct interval attempts) Ht Hr) as [Q C [W Win] [H1 H2] [M1 M2] T P N Cl X].
  split_and!; try done; try apply W; [by rewrite M2, H2|]. rewrite P.
  unfold issued in N. rewrite Q, fmap_app in N. apply NoDup_app in N as (N1 & N2 & N3). apply NoDup_app in N1 as (N1 & _ & _).
  apply NoDup_app in N3 as (N3 & _ & _). apply NoDup_app. split_and!; [done| |done]. intros x Hx Hx'. apply (N2 x); apply elem_of_app; by left.
Qed.

(** C39: when Close is called with no Send under way, what was accepted before
    (its records stamped no earlier than 1970) is all received by the time the
    worker exits, and every row whose write succeeded is in an object that is
    over: nothing is left in the queue or in memory. *)
Theorem s3_close_ships_everything thr pct interval attempts (before after : list action) (d1 d : dest) :
  Forall action_timed before -> Forall action_timed after ->
  run before (newS3ParquetDest thr pct interval attempts) = Some d1 -> senders d1 = ∅ -> closed d1 = false ->
  run (CloseDest :: after) d1 = Some d -> wpc d = Exited ->
  accepted d = accepted d1 /\ consumed d = accepted d1 /\
  concat (o_rows <$> objects (wk d)) = written e 0 (rows_in (accepted d1)).
Proof.
  intros Hb Ha H1 Hs Hc Hr Hx. pose proof (run_inv _ _ _ (s3_start_inv thr pct interval attempts) Hb H1) as I1.
  pose proof (run_inv (CloseDest :: after) d1 d I1 (Forall_cons_2 _ CloseDest _ I Ha) Hr) as [Q _ _ [H _] _ _ _ _ _ X].
  cbn [run step worker_step] in Hr. rewrite Hc in Hr. cbn [mbind option_bind] in Hr.
  match type of Hr with run after ?d0 = _ => assert (Hq : quiet d0) end.
  { split_and!; [done|done|]. cbn. rewrite (di_closed _ I1 Hc). done. }
  destruct (run_quiet _ _ _ Hq Hr) as [(_ & _ & Hempty) Hacc]. cbn in Hacc. rewrite (Hempty Hx), app_nil_r in Q.
  unfold history in H. rewrite (X Hx), app_nil_r in H. split_and!; [done|congruence|]. by rewrite H, <- Q, Hacc.
Qed.

(** Once closed, the worker gets to its end: whatever it was doing, the
    steps that are its own take it through the queue and out, in one step more
    than there are envelopes left. *)
Theorem s3_worker_exits (d : dest) : closed d = true -> wpc d <> Exited -> exists l d',
  run l d = Some d' /\ wpc d' = Exited /\ queue d' = [] /\ consumed d' = consumed d ++ queue d /\
  (length l <= length (queue d) + 2)%nat /\ Forall (fun a => a = WorkClosed \/ a = WorkDrain) l.
Proof.
  intros Hc Hp. destruct (wpc d) eqn:Ep; [| |done].
  - destruct (s3_drains (queue d) (set_worker Draining (wk d) d) eq_refl eq_refl) as (d' & Hr & ? & ? & ?).
    exists (WorkClosed :: replicate (S (length (queue d))) WorkDrain), d'. split_and!; try done.
    + cbn [run]. cbn [step worker_step]. by rewrite decide_True.
    + cbn [length]. rewrite length_replicate. lia.
    + apply Forall_cons_2; [by left|]. apply Forall_replicate. by right.
  - destruct (s3_drains (queue d) d Ep eq_refl) as (d' & Hr & ? & ? & ?).
    exists (replicate (S (length (queue d))) WorkDrain), d'. split_and!; try done.
    + rewrite length_replicate. lia.
    + apply Forall_replicate. by right.
Qed.

(** After the worker has exited nothing is received any more. *)
Lemma exited_is_final a d d' : wpc d = Exited -> step a d = Some d' -> wpc d' = Exited /\ consumed d' = consumed d /\ objects (wk d') = objects (wk d).
Proof.
  intros Hp. destruct a as [i b|i c|i c| | | |iv t| |]; cbn [step worker_step]; unfold enqueue; repeat case_match; intros; destruct_and?; try congruence; simplify_eq/=; done.
Qed.
End dest.

(** ** Examples *)

Definition no_rows (b : bytes) : option (list PbRow) := Some [].
Definition one_row : PbRow := mkPbRow (fun _ => 0) (fun _ => EmptyString) [1; 2; 3; 4] [5; 6; 7; 8].
Definition one_row_each (b : bytes) : option (list PbRow) := match b with [] => None | _ => Some (replicate (length b) one_row) end.
Definition sunny : Env := mkEnv (fun _ => true) (fun _ => true) (fun _ _ => true) (fun _ _ => true) (fun _ => 0).
Definition example_acts : list action :=
  [SendStart 1 [0; 0; 0]; SendSelect 1 TakeQueue; WorkItem; SendStart 2 []; SendSelect 2 TakeQueue; SendStart 3 [0]; SendSelect 3 TakeQueue].
Definition example_after : list action := [SendStart 4 [0]; WorkItem; WorkClosed; WorkDrain; WorkDrain].

Lemma one_row_timed b : Forall timed (rows_of one_row_each b).
Proof. destruct b as [|x b]; [by apply Forall_nil_2|]. apply Forall_replicate. unfold timed. cbn. lia. Qed.
Lemma example_timed l : Forall (action_timed one_row_each) l.
Proof. apply Forall_true. intros []; try done. apply one_row_timed. Qed.

Lemma s3_conserves_rows_witness : exists d,
  run one_row_each sunny example_acts (newS3ParquetDest sunny 2000 0 60 10) = Some d /\
  (length <$> (o_rows <$> objects (wk d))) = [3%nat] /\ accepted d = consumed d ++ queue d /\
  concat (o_rows <$> objects (wk d)) ++ rows (wk d) = written sunny 0 (rows_in one_row_each (consumed d)).
Proof.
  destruct (run one_row_each sunny example_acts (newS3ParquetDest sunny 2000 0 60 10)) as [d|] eqn:E.
  - exists d. split; [reflexivity|]. split.
    + assert (H : ((fun d => length <$> (o_rows <$> objects (wk d))) <$> run one_row_each sunny example_acts (newS3ParquetDest sunny 2000 0 60 10))
        = Some [3%nat]) by (vm_compute; reflexivity). rewrite E in H. injection H as H. exact H.
    + destruct (s3_conserves_rows one_row_each sunny 2000 0 60 10 example_acts d (example_timed _) E) as ([H _] & H2 & _).
      split; [exact H | exact H2].
  - assert (H : bool_decide (is_Some (run one_row_each sunny example_acts (newS3ParquetDest sunny 2000 0 60 10))) = true) by (vm_compute; reflexivity).
    rewrite E in H. discriminate H.
Defined.
Lemma s3_close_ships_everything_witness : exists d1 d,
  run one_row_each sunny example_acts (newS3ParquetDest sunny 2000 0 60 10) = Some d1 /\
  run one_row_each sunny (CloseDest :: example_after) d1 = Some d /\ rejected d = [4%nat] /\
  concat (o_rows <$> objects (wk d)) = written sunny 0 (rows_in one_row_each (accepted d1)).
Proof.
  assert (Hc : match run one_row_each sunny example_acts (newS3ParquetDest sunny 2000 0 60 10) with
    | Some d1 => match run one_row_each sunny (CloseDest :: example_after) d1 with
                 | Some d => bool_decide (rejected d = [4%nat] /\ wpc d = Exited /\ map_to_list (senders d1) = [] /\ closed d1 = false)
                 | None => false end
    | None => false end = true) by (vm_compute; reflexivity).
  destruct (run one_row_each sunny example_acts (newS3ParquetDest sunny 2000 0 60 10)) as [d1|] eqn:E1; [|discriminate Hc].
  destruct (run one_row_each sunny (CloseDest :: example_after) d1) as [d|] eqn:E2; [|discriminate Hc].
  apply bool_decide_eq_true in Hc as (Hr & Hx & Hs & Hcl). exists d1, d. split; [reflexivity|]. split; [exact E2|]. split; [exact Hr|].
  apply (s3_close_ships_everything one_row_each sunny 2000 0 60 10 example_acts example_after d1 d (example_timed _) (example_timed _) E1
    (proj1 (map_to_list_empty_iff _) Hs) Hcl E2 Hx).
Defined.
Lemma s3_worker_exits_witness : exists l d',
  run no_rows sunny l (mkDest [(1%nat, [0])] true Selecting (new_worker sunny 2000 0 60 10) ∅ 0 [(1%nat, [0])] [] [] []) = Some d' /\ wpc d' = Exited.
Proof.
  destruct (s3_worker_exits no_rows sunny
    (mkDest [(1%nat, [0])] true Selecting (new_worker sunny 2000 0 60 10) ∅ 0 [(1%nat, [0])] [] [] [])) as (l & d' & Hr & Hx & _);
    [reflexivity | discriminate | exists l, d'; split; [exact Hr | exact Hx]].
Defined.

(** A Send that looked at closedCh before Close can still put its envelope on the
    queue after the worker has found it empty and exited: it returns success, and
    the envelope is never received (see [exited_is_final]). *)
Lemma send_accepted_after_exit :
  ((fun d => (wpc d, accepted d, consumed d, queue d, returned d)) <$>
    run one_row_each sunny [SendStart 1 [0]; CloseDest; WorkClosed; WorkDrain; SendSelect 1 TakeQueue] (newS3ParquetDest sunny 2000 0 60 10)) =
  Some (Exited, [(1%nat, [0])], [], [(1%nat, [0])], []).
Proof. vm_compute. reflexivity. Qed.
