(* ===== verification/Hmac.v ===== *)
(** SHA-256, HMAC and unpadded URL base64 (crypto/sha256, crypto/hmac and
    encoding/base64), on lists of bytes. *)

From stdpp Require Import strings.
From S2P Require Import Prelude GoStrings.

(** ** SHA-256 (FIPS 180-4) *)

Definition word32 (z : Z) : Z := Z.land z (Z.ones 32).
Definition rotr (n x : Z) : Z := Z.lor (Z.shiftr x n) (word32 (Z.shiftl x (32 - n))).
(** The constants are the first 32 bits of the fractional parts of the roots of
    the first primes; [root_fraction n p] is that of the [n]-th root of [p]. *)
Fixpoint bisect (fuel : nat) (n x lo hi : Z) : Z :=
  match fuel with
  | O => lo
  | S fuel => let mid := (lo + hi) / 2 in if mid ^ n <=? x then bisect fuel n x mid hi else bisect fuel n x lo mid
  end.
Definition root_fraction (n p : Z) : Z := word32 (bisect 48 n (p * 2 ^ (32 * n)) 0 (2 ^ 48)).
Definition is_prime (p : nat) : bool := forallb (fun d => negb (Nat.modulo p d =? 0)%nat) (seq 2 (p - 2)).
Definition primes : list Z := Eval vm_compute in Z.of_nat <$> filter (fun p => is_prime p = true) (seq 2 310).
Definition round_constants : list Z := Eval vm_compute in root_fraction 3 <$> primes.
(** The eight words of the hash state. *)
Record hstate := mkH { ha : Z; hb : Z; hc : Z; hd : Z; he : Z; hf : Z; hg : Z; hh : Z }.
Definition initial_hash : hstate :=
  Eval vm_compute in let h i := root_fraction 2 (nth i primes 0) in mkH (h 0%nat) (h 1%nat) (h 2%nat) (h 3%nat) (h 4%nat) (h 5%nat) (h 6%nat) (h 7%nat).

(** The message schedule, newest word first. *)
Definition next_word (w : list Z) : Z :=
  let s1 x := Z.lxor (Z.lxor (rotr 17 x) (rotr 19 x)) (Z.shiftr x 10) in
  let s0 x := Z.lxor (Z.lxor (rotr 7 x) (rotr 18 x)) (Z.shiftr x 3) in
  word32 (s1 (nth 1 w 0) + nth 6 w 0 + s0 (nth 14 w 0) + nth 15 w 0).
Fixpoint schedule (n : nat) (w : list Z) : list Z :=
  match n with O => w | S n => schedule n (next_word w :: w) end.
Definition round (s : hstate) (kw : Z * Z) : hstate :=
  let '(mkH a b c d e f g h) := s in
  let ch := Z.lxor (Z.land e f) (Z.land (Z.lxor e (Z.ones 32)) g) in
  let maj := Z.lxor (Z.lxor (Z.land a b) (Z.land a c)) (Z.land b c) in
  let sum1 := Z.lxor (Z.lxor (rotr 6 e) (rotr 11 e)) (rotr 25 e) in
  let sum0 := Z.lxor (Z.lxor (rotr 2 a) (rotr 13 a)) (rotr 22 a) in
  let t1 := h + sum1 + ch + kw.1 + kw.2 in
  mkH (word32 (t1 + sum0 + maj)) a b c (word32 (d + t1)) e f g.
Fixpoint words (n : nat) (b : bytes) : list Z :=
  match n with O => [] | S n => be_combine (take 4 b) :: words n (drop 4 b) end.
Definition compress (s : hstate) (block : bytes) : hstate :=
  let w := reverse (schedule 48 (reverse (words 16 block))) in
  let t := foldl round s (zip round_constants w) in
  mkH (word32 (ha s + ha t)) (word32 (hb s + hb t)) (word32 (hc s + hc t)) (word32 (hd s + hd t))
      (word32 (he s + he t)) (word32 (hf s + hf t)) (word32 (hg s + hg t)) (word32 (hh s + hh t)).
Fixpoint blocks (n : nat) (s : hstate) (b : bytes) : hstate :=
  match n with O => s | S n => blocks n (compress s (take 64 b)) (drop 64 b) end.
Definition padded (msg : bytes) : bytes :=
  msg ++ 128 :: replicate (Z.to_nat ((55 - glen msg) mod 64)) 0 ++ be_split 8 (8 * glen msg).
Definition sha256 (msg : bytes) : bytes :=
  let p := padded msg in
  let s := blocks (length p / 64) initial_hash p in
  concat (be_split 4 <$> [ha s; hb s; hc s; hd s; he s; hf s; hg s; hh s]).

(** ** HMAC (RFC 2104) *)

Definition hmac_key (key : bytes) : bytes :=
  let k := if decide (64 < glen key) then sha256 key else key in k ++ replicate (64 - length k) 0.
Definition hmac_sha256 (key msg : bytes) : bytes :=
  let k := hmac_key key in
  sha256 ((Z.lxor 92 <$> k) ++ sha256 ((Z.lxor 54 <$> k) ++ msg)).

(** ** [base64.RawURLEncoding] *)

(** A..Z a..z 0..9 - _ *)
Definition b64_char (v : Z) : Z :=
  if decide (v < 26) then 65 + v else if decide (v < 52) then 71 + v else if decide (v < 62) then v - 4 else
  if decide (v = 62) then 45 else 95.
Fixpoint base64 (b : bytes) : bytes :=
  match b with
  | x :: y :: z :: b =>
      let n := x * 65536 + y * 256 + z in
      b64_char (n / 262144) :: b64_char (n / 4096 mod 64) :: b64_char (n / 64 mod 64) :: b64_char (n mod 64) :: base64 b
  | [x; y] =>
      let n := x * 65536 + y * 256 in [b64_char (n / 262144); b64_char (n / 4096 mod 64); b64_char (n / 64 mod 64)]
  | [x] => let n := x * 65536 in [b64_char (n / 262144); b64_char (n / 4096 mod 64)]
  | [] => []
  end.

(** ** Known answers *)

Definition hex_digit (v : Z) : Z := if decide (v < 10) then 48 + v else 87 + v.
Definition hex (b : bytes) : bytes := concat ((fun x => [hex_digit (x / 16); hex_digit (x mod 16)]) <$> b).
Example sha256_abc : hex (sha256 (string_bytes "abc")) =
  string_bytes "ba7816bf8f01cfea414140de5dae2223b00361a396177a9cb410ff61f20015ad".
Proof. vm_compute. reflexivity. Qed.
Example sha256_two_blocks : hex (sha256 (string_bytes "abcdbcdecdefdefgefghfghighijhijkijkljklmklmnlmnomnopnopq")) =
  string_bytes "248d6a61d20638b8e5c026930c3e6039a33ce45964ff2167f6ecedd419db06c1".
Proof. vm_compute. reflexivity. Qed.
Example hmac_known : hex (hmac_sha256 (string_bytes "key") (string_bytes "The quick brown fox jumps over the lazy dog")) =
  string_bytes "f7bc83f430538424b13298e6aa6fb143ef4d59a14946175997479dbc2d1a3cd8".
Proof. vm_compute. reflexivity. Qed.
Example base64_known : base64 (string_bytes "light work.") = string_bytes "bGlnaHQgd29yay4" /\ base64 [255; 239; 190] = string_bytes "_---".
Proof. vm_compute. done. Qed.

(** ** Lengths and alphabets *)

Lemma length_sha256 msg : length (sha256 msg) = 32%nat.
Proof. unfold sha256. cbn [fmap list_fmap concat]. rewrite !length_app. unfold be_split. rewrite !length_reverse, !length_le_split. done. Qed.
Lemma be_split_bytes n z : wf_bytes (be_split n z).
Proof. unfold be_split. apply Forall_reverse, wf_le_split. Qed.
Lemma sha256_bytes msg : wf_bytes (sha256 msg).
Proof. unfold sha256. cbn [fmap list_fmap concat]. repeat (apply Forall_app; split; [apply be_split_bytes|]). by apply Forall_nil_2. Qed.
Lemma hmac_length key msg : length (hmac_sha256 key msg) = 32%nat.
Proof. apply length_sha256. Qed.
Lemma hmac_bytes key msg : wf_bytes (hmac_sha256 key msg).
Proof. apply sha256_bytes. Qed.

(** A letter, a digit, a dash or an underscore. *)
Definition token_char (c : Z) : Prop := 65 <= c <= 90 \/ 97 <= c <= 122 \/ 48 <= c <= 57 \/ c = 45 \/ c = 95.
Lemma b64_char_ok v : 0 <= v < 64 -> token_char (b64_char v).
Proof. unfold b64_char, token_char. intros. repeat case_decide; lia. Qed.
Lemma base64_ok n : forall b, (length b <= n)%nat -> wf_bytes b -> Forall token_char (base64 b) /\ (length b <= length (base64 b))%nat.
Proof.
  induction n as [|n IH]; intros b Hn Hb; [by destruct b; [|cbn in Hn; lia]|].
  assert (B : forall m, 0 <= m mod 64 < 64) by (intros; apply Z.mod_pos_bound; lia).
  assert (D : forall x r, 0 <= x < 256 -> 0 <= r < 65536 -> 0 <= (x * 65536 + r) / 262144 < 64)
    by (intros; split; [apply Z.div_pos; lia | apply Z.div_lt_upper_bound; lia]).
  destruct b as [|x [|y [|z b]]]; cbn [base64]; [done| | |]; apply Forall_cons in Hb as [Hx Hb]; unfold is_byte in *.
  - split; [|cbn; lia]. repeat apply Forall_cons_2; try done; apply b64_char_ok; [|done]. rewrite <- (Z.add_0_r (x * 65536)). apply D; lia.
  - apply Forall_cons in Hb as [Hy _]. split; [|cbn; lia]. repeat apply Forall_cons_2; try done; apply b64_char_ok; [|done..]. apply D; lia.
  - apply Forall_cons in Hb as [Hy Hb]. apply Forall_cons in Hb as [Hz Hb]. cbn [length] in *.
    destruct (IH b ltac:(lia) Hb) as [H1 H2]. split; [|cbn [length]; lia].
    repeat apply Forall_cons_2; try done; apply b64_char_ok; [|done..]. rewrite <- Z.add_assoc. apply D; lia.
Qed.
