(* ===== verification/ListenerAuth.v ===== *)
(** The authentication of listener callers (pkg/listenerauth/listenerauth.go) and
    the access policy over gRPC methods and HTTP paths (policy.go).

    A Go string is its bytes, a time is nanoseconds since 1970, and a call's
    credentials are the values of its Authorization header. The delay after a
    failure has no effect on the answer. *)

From stdpp Require Import gmap strings pretty.
From S2P Require Import Prelude GoStrings Hmac.

(** ** Authenticators *)

Inductive ListenerAuthMode := ModeUnspecified | ModeDisabled | ModeRawToken | ModeHmacUtcMinute | ModeOther (v : Z).
#[export] Instance ListenerAuthMode_eq : EqDecision ListenerAuthMode. Proof. solve_decision. Defined.
(** The configuration message; durations are unset or nanoseconds. *)
Record ListenerAuth := mkListenerAuth {
  la_mode : ListenerAuthMode; la_rawToken : bytes; la_hmacKey : bytes; la_skew : Z; la_jitterMin : option Z; la_jitterMax : option Z }.
Record Authenticator := mkAuthenticator {
  mode : ListenerAuthMode; rawToken : bytes; hmacKey : bytes; skew : Z; jitterMin : Z; jitterMax : Z }.

Definition MaxSignedTokenSkewMinutes : Z := 5.
Definition DefaultFailureJitterMin : Z := 20000000.
Definition DefaultFailureJitterMax : Z := 200000000.
Inductive new_err := ErrSkewTooLarge | ErrJitterRange | ErrNoToken | ErrNoKey | ErrUnsupportedMode.

Definition disabled_authenticator : Authenticator := mkAuthenticator ModeDisabled [] [] 0 0 0.
(** [New] of a configuration, nil or not. *)
Definition New (cfg : option ListenerAuth) : Authenticator + new_err :=
  match cfg with
  | None => inl disabled_authenticator
  | Some c =>
      if decide (la_mode c = ModeUnspecified \/ la_mode c = ModeDisabled) then inl disabled_authenticator else
      let a := mkAuthenticator (la_mode c) (la_rawToken c) (la_hmacKey c) (la_skew c)
                 (default DefaultFailureJitterMin (la_jitterMin c)) (default DefaultFailureJitterMax (la_jitterMax c)) in
      if decide (MaxSignedTokenSkewMinutes < skew a) then inr ErrSkewTooLarge else
      if decide (jitterMax a < jitterMin a) then inr ErrJitterRange else
      match mode a with
      | ModeRawToken => if decide (rawToken a = []) then inr ErrNoToken else inl a
      | ModeHmacUtcMinute => if decide (hmacKey a = []) then inr ErrNoKey else inl a
      | _ => inr ErrUnsupportedMode
      end
  end.
Definition Enabled (a : Authenticator) : bool := bool_decide (mode a <> ModeUnspecified /\ mode a <> ModeDisabled).

Definition minute_ns : Z := 60 * 1000000000.
(** [SignedToken]; [t.Unix()] is the floor of the seconds. *)
Definition SignedToken (sharedKey : bytes) (t : Z) : bytes :=
  let minute := string_bytes (pretty (Z.quot (t / 1000000000) 60)) in
  base64 (hmac_sha256 sharedKey minute).
Definition constantTimeStringEqual (a b : bytes) : bool := bool_decide (a = b).
(** The loop over the minutes from [delta] on. *)
Fixpoint skew_loop (key : bytes) (now delta : Z) (token : bytes) (fuel : nat) : bool :=
  match fuel with
  | O => false
  | S fuel => if constantTimeStringEqual token (SignedToken key (now + delta * minute_ns)) then true
              else skew_loop key now (delta + 1) token fuel
  end.
Definition validToken (a : Authenticator) (now : Z) (token : bytes) : bool :=
  match mode a with
  | ModeRawToken => constantTimeStringEqual token (rawToken a)
  | ModeHmacUtcMinute =>
      let now := now / minute_ns * minute_ns in
      skew_loop (hmacKey a) now (- skew a) token (Z.to_nat (2 * skew a + 1))
  | _ => false
  end.

Inductive auth_err := ErrMissingCredentials | ErrDuplicateCredentials | ErrMalformedCredentials | ErrInvalidCredentials | ErrInsufficientAccess.
#[export] Instance auth_err_eq : EqDecision auth_err. Proof. solve_decision. Defined.
Definition bearerPrefix : bytes := string_bytes "Bearer ".
(** " \t\r\n" *)
Definition token_spaces : list Z := [32; 9; 13; 10].
Definition bearerToken (values : list bytes) : bytes + auth_err :=
  match values with
  | [] => inr ErrMissingCredentials
  | [value] =>
      if negb (bool_decide (bearerPrefix `prefix_of` value)) then inr ErrMalformedCredentials else
      let token := drop (length bearerPrefix) value in
      if decide (token = [] \/ token <> TrimSpace token \/ Exists (fun c => c ∈ token_spaces) token) then inr ErrMalformedCredentials
      else inl token
  | _ => inr ErrDuplicateCredentials
  end.
(** No error is [None]. *)
Definition AuthenticateValues (a : Authenticator) (now : Z) (values : list bytes) : option auth_err :=
  if negb (Enabled a) then None else
  match bearerToken values with
  | inr e => Some e
  | inl token => if validToken a now token then None else Some ErrInvalidCredentials
  end.

(** [Authenticator.WrapHTTP]: the handler is called, or the status of the refusal. *)
Definition Authenticator_WrapHTTP (a : Authenticator) (now : Z) (values : list bytes) : option Z :=
  if negb (Enabled a) then None else
  match AuthenticateValues a now values with None => None | Some _ => Some 401 end.
Inductive grpc_code := GrpcOK | GrpcPermissionDenied | GrpcUnauthenticated.
#[export] Instance grpc_code_eq : EqDecision grpc_code. Proof. solve_decision. Defined.
(** [authenticateGRPC]; a context without metadata is [None]. *)
Definition authenticateGRPC (a : Authenticator) (now : Z) (md : option (list bytes)) : grpc_code :=
  if negb (Enabled a) then GrpcOK else
  match md with
  | None => GrpcUnauthenticated
  | Some values => match AuthenticateValues a now values with None => GrpcOK | Some _ => GrpcUnauthenticated end
  end.

(** The delay after a failure; [n] is the random number [rand.Int] draws below
    its bound, which it refuses with a panic when the bound is not positive. *)
Inductive jitter_result := JitterErr | JitterPanic | JitterOf (d : Z).
Definition CryptoJitterDuration (rand : Z -> Z) (lo hi : Z) : jitter_result :=
  if decide (lo < 0 \/ hi < 0) then JitterErr else
  if decide (hi < lo) then JitterErr else
  if decide (hi = lo) then JitterOf lo else
  let bound := int64 (hi - lo + 1) in
  if decide (bound <= 0) then JitterPanic else JitterOf (lo + rand bound).
(** [Jitter]: [None] when it does not wait. *)
Definition Jitter (rand : Z -> Z) (a : Authenticator) : option jitter_result :=
  if negb (Enabled a) then None else
  Some match CryptoJitterDuration rand (jitterMin a) (jitterMax a) with JitterErr => JitterOf (jitterMin a) | r => r end.

(** [ModeString]; [other] is the generated name of any other value. *)
Definition ModeString (other : Z -> bytes) (m : ListenerAuthMode) : bytes :=
  match m with
  | ModeRawToken => string_bytes "raw"
  | ModeHmacUtcMinute => string_bytes "hmac-utc-minute"
  | ModeDisabled | ModeUnspecified => string_bytes "disabled"
  | ModeOther v => other v
  end.

(** ** Policies *)

Inductive Access := AccessUnspecified | AccessRead | AccessAdmin.
#[export] Instance Access_eq : EqDecision Access. Proof. solve_decision. Defined.
Definition Methods : Type := gmap bytes Access.
(** [Merge]: the other's entries win. *)
Definition Merge (m other : Methods) : Methods := other ∪ m.
Record Policy := mkPolicy { p_read : Authenticator; p_admin : Authenticator; p_methods : Methods }.
Definition StandardMethods : Methods :=
  list_to_map ((fun s => (string_bytes s, AccessRead)) <$>
    ["/grpc.health.v1.Health/Check"; "/grpc.health.v1.Health/List"; "/grpc.health.v1.Health/Watch";
     "/grpc.reflection.v1.ServerReflection/ServerReflectionInfo";
     "/grpc.reflection.v1alpha.ServerReflection/ServerReflectionInfo"]%string).
(** [ServiceMethods] of a service's full name and its methods, each with the
    access its option gives. *)
Definition ServiceMethods (fullName : bytes) (methods : list (bytes * option Access)) : Methods :=
  foldl (fun out m => <[string_bytes "/" ++ fullName ++ string_bytes "/" ++ m.1 := default AccessUnspecified m.2]> out) ∅ methods.
Definition NewPolicy (read admin : option ListenerAuth) (methods : Methods) : Policy + new_err :=
  match New read with
  | inr e => inr e
  | inl r => match New admin with inr e => inr e | inl a => inl (mkPolicy r a (Merge ∅ methods)) end
  end.
Definition split (p : Policy) : bool := Enabled (p_admin p).
Definition policy_Enabled (p : Policy) : bool := Enabled (p_read p) || split p.
Definition effective (a : Access) : Access := if decide (a = AccessRead) then a else AccessAdmin.
Definition MethodAccess (p : Policy) (fullMethod : bytes) : Access := effective (default AccessUnspecified (p_methods p !! fullMethod)).
Definition Authorize (p : Policy) (now : Z) (values : list bytes) (need : Access) : option auth_err :=
  if negb (split p) then AuthenticateValues (p_read p) now values else
  if decide (effective need = AccessRead) then
    if negb (Enabled (p_read p)) then None else
    match AuthenticateValues (p_read p) now values with
    | None => None
    | Some _ => AuthenticateValues (p_admin p) now values
    end
  else
    match AuthenticateValues (p_admin p) now values with
    | None => None
    | Some e =>
        if Enabled (p_read p) && bool_decide (AuthenticateValues (p_read p) now values = None)
        then Some ErrInsufficientAccess else Some e
    end.
Definition jitter (rand : Z -> Z) (p : Policy) : option jitter_result :=
  if Enabled (p_read p) then Jitter rand (p_read p) else Jitter rand (p_admin p).
(** The code a call is answered with, and the wait before the answer; a wait that
    is a panic is a call that is not answered. *)
Definition authorizeGRPC (rand : Z -> Z) (p : Policy) (now : Z) (values : list bytes) (fullMethod : bytes) : grpc_code * option jitter_result :=
  if negb (policy_Enabled p) then (GrpcOK, None) else
  match Authorize p now values (MethodAccess p fullMethod) with
  | None => (GrpcOK, None)
  | Some e => (if decide (e = ErrInsufficientAccess) then GrpcPermissionDenied else GrpcUnauthenticated, jitter rand p)
  end.
Definition PathAccess (adminPrefixes : list bytes) (path : bytes) : Access :=
  if existsb (fun prefix => bool_decide (prefix `prefix_of` path)) adminPrefixes then AccessAdmin else AccessRead.
(** [WrapHTTP]: the handler is called, or the status of the refusal and the wait
    before it. *)
Definition WrapHTTP (rand : Z -> Z) (p : Policy) (now : Z) (values : list bytes) (access : Access) : option (Z * option jitter_result) :=
  if negb (policy_Enabled p) then None else
  match Authorize p now values access with
  | None => None
  | Some e => Some (if decide (e = ErrInsufficientAccess) then 403 else 401, jitter rand p)
  end.

(** ** Clients *)

Record ClientAuth := mkClientAuth { RawToken : bytes; HMACSharedKey : bytes }.
(** [ClientAuthFromValues]; [readFile] is [os.ReadFile], an error [None]. *)
Definition readSecretFile (readFile : bytes -> option bytes) (path : bytes) : option bytes := TrimSpace <$> readFile path.
Inductive client_err := ErrSecretFile | ErrMutuallyExclusive.
Definition ClientAuthFromValues (readFile : bytes -> option bytes) (rawToken rawTokenFile hmacKey hmacKeyFile : bytes) : ClientAuth + client_err :=
  match (if decide (rawTokenFile <> []) then readSecretFile readFile rawTokenFile else Some rawToken) with
  | None => inr ErrSecretFile
  | Some raw =>
      match (if decide (hmacKeyFile <> []) then readSecretFile readFile hmacKeyFile else Some hmacKey) with
      | None => inr ErrSecretFile
      | Some key => if decide (raw <> [] /\ key <> []) then inr ErrMutuallyExclusive else inl (mkClientAuth raw key)
      end
  end.
(** [ClientAuthFromEnvAndFlags]: an environment variable wins over its flag. *)
Definition ClientAuthFromEnvAndFlags (readFile env : bytes -> option bytes)
    (rawFlag rawFileFlag hmacFlag hmacFileFlag rawEnv rawFileEnv hmacEnv hmacFileEnv : bytes) : ClientAuth + client_err :=
  ClientAuthFromValues readFile (default rawFlag (env rawEnv)) (default rawFileFlag (env rawFileEnv))
    (default hmacFlag (env hmacEnv)) (default hmacFileFlag (env hmacFileEnv)).
Definition BearerToken (a : ClientAuth) (now : Z) : option bytes :=
  if decide (RawToken a <> []) then Some (RawToken a) else
  if decide (HMACSharedKey a <> []) then Some (SignedToken (HMACSharedKey a) now) else None.
(** [ContextWithClientAuth], on a context without credentials. *)
Definition client_values (a : ClientAuth) (now : Z) : list bytes :=
  match BearerToken a now with None => [] | Some token => [bearerPrefix ++ token] end.
Definition ForAccess (shared admin : ClientAuth) (access : Access) : ClientAuth :=
  let haveAdmin := bool_decide (RawToken admin <> [] \/ HMACSharedKey admin <> []) in
  let haveShared := bool_decide (RawToken shared <> [] \/ HMACSharedKey shared <> []) in
  if haveAdmin && (bool_decide (effective access = AccessAdmin) || negb haveShared) then admin else shared.

(** ** Tokens *)

(** The token of a minute. *)
Definition minute_token (key : bytes) (minute : Z) : bytes := base64 (hmac_sha256 key (string_bytes (pretty minute))).
Definition minute_of (t : Z) : Z := t / minute_ns.

Lemma SignedToken_minute key t : 0 <= t -> SignedToken key t = minute_token key (minute_of t).
Proof.
  intros H. unfold SignedToken, minute_token, minute_of, minute_ns. do 4 f_equal.
  rewrite Z.quot_div_nonneg by (try lia; apply Z.div_pos; lia). rewrite Z.div_div by lia. f_equal.
Qed.

(** A token a header can carry. *)
Definition carried (token : bytes) : Prop := token <> [] /\ Forall plain token.
Lemma token_char_plain c : token_char c -> plain c.
Proof. unfold token_char, plain. lia. Qed.
Lemma minute_token_carried key m : carried (minute_token key m).
Proof.
  destruct (base64_ok _ (hmac_sha256 key (string_bytes (pretty m))) (Nat.le_refl _) (hmac_bytes _ _)) as [H1 H2].
  rewrite hmac_length in H2. split.
  - intros E. unfold minute_token in E. rewrite E in H2. cbn in H2. lia.
  - eapply Forall_impl; [exact H1|]. apply token_char_plain.
Qed.
Lemma bearerToken_carried token : carried token -> bearerToken [bearerPrefix ++ token] = inl token.
Proof.
  intros [Hne Hp]. unfold bearerToken. rewrite bool_decide_true by (by apply prefix_app_r). cbn [negb].
  rewrite drop_app_length. rewrite decide_False; [done|]. intros [?|[Ht|He]]; [done| by rewrite TrimSpace_plain in Ht |].
  apply Exists_exists in He as (c & Hc & Hin). rewrite Forall_forall in Hp. specialize (Hp c Hc). unfold plain, token_spaces in *.
  repeat (apply elem_of_cons in Hin as [->|Hin]; [lia|]). by apply not_elem_of_nil in Hin.
Qed.
Lemma bearerToken_inv values token : bearerToken values = inl token -> values = [bearerPrefix ++ token].
Proof.
  unfold bearerToken. destruct values as [|v [|? ?]]; [done| |done]. destruct (bool_decide _) eqn:E; cbn [negb]; [|done].
  apply bool_decide_eq_true in E as [t ->]. rewrite drop_app_length. case_decide; [done|]. by intros [= ->].
Qed.

Lemma skew_loop_spec key token m fuel : forall delta, 0 <= m + delta ->
  skew_loop key (m * minute_ns) delta token fuel = true <->
  exists k, m + delta <= k < m + delta + Z.of_nat fuel /\ token = minute_token key k.
Proof.
  induction fuel as [|fuel IH]; intros delta Hd; cbn [skew_loop].
  { split; [done|]. intros (k & Hk & _). lia. }
  rewrite <- Z.mul_add_distr_r, SignedToken_minute by (unfold minute_ns; lia).
  unfold minute_of at 1. rewrite Z.div_mul by (unfold minute_ns; lia). unfold constantTimeStringEqual. case_bool_decide as E.
  - split; [|done]. intros _. exists (m + delta). split; [lia|done].
  - rewrite IH by lia. split; intros (k & Hk & Ht); exists k; (split; [|done]); [lia|].
    destruct (decide (k = m + delta)) as [->|]; [congruence|lia].
Qed.
