(* ===== verification/ListenerAuthSpec.v ===== *)
(** What the listener's authentication guarantees: which headers an
    authenticator accepts, what a policy lets each credential reach, and that a
    client with the server's credentials is let in. *)

From stdpp Require Import gmap strings pretty.
From S2P Require Import Prelude GoStrings Hmac ListenerAuth.

(** ** Accepted headers *)

(** A token that [bearerToken] lets through. *)
Definition carriable (token : bytes) : bool := bool_decide (bearerToken [bearerPrefix ++ token] = inl token).
(** The tokens an authenticator accepts at a time. *)
Definition valid_tokens (a : Authenticator) (now : Z) : list bytes :=
  match mode a with
  | ModeRawToken => if carriable (rawToken a) then [rawToken a] else []
  | ModeHmacUtcMinute => minute_token (hmacKey a) <$> seqZ (minute_of now - skew a) (2 * skew a + 1)
  | _ => []
  end.
Definition valid_headers (a : Authenticator) (now : Z) : list (list bytes) := (fun t => [bearerPrefix ++ t]) <$> valid_tokens a now.

Lemma New_enabled c a : New (Some c) = inl a -> Enabled a = true ->
  (mode a = ModeRawToken \/ mode a = ModeHmacUtcMinute) /\ skew a = la_skew c /\ skew a <= MaxSignedTokenSkewMinutes.
Proof.
  unfold New. case_decide; [by intros [= <-]|]. cbn [skew jitterMax jitterMin mode]. do 2 (case_decide; [done|]).
  destruct (la_mode c); try done; cbn; (case_decide; [done|]); intros [= <-] _; cbn; (split; [auto|split; [done|lia]]).
Qed.
Lemma New_None : New None = inl disabled_authenticator.
Proof. done. Qed.
Lemma validToken_spec a now token : (mode a = ModeRawToken \/ mode a = ModeHmacUtcMinute) -> 0 <= skew a -> skew a <= minute_of now ->
  validToken a now token = true <->
  match mode a with
  | ModeRawToken => token = rawToken a
  | _ => exists k, minute_of now - skew a <= k <= minute_of now + skew a /\ token = minute_token (hmacKey a) k
  end.
Proof.
  intros Hm Hs Hn. unfold validToken. destruct Hm as [->| ->].
  - unfold constantTimeStringEqual. apply bool_decide_eq_true.
  - change (now / minute_ns) with (minute_of now). rewrite skew_loop_spec by lia.
    split; intros (k & Hk & Ht); exists k; (split; [lia|done]).
Qed.
Lemma authenticate_spec a now values : (mode a = ModeRawToken \/ mode a = ModeHmacUtcMinute) -> 0 <= skew a -> skew a <= minute_of now ->
  AuthenticateValues a now values = None <-> values ∈ valid_headers a now.
Proof.
  intros Hm Hs Hn. assert (He : Enabled a = true) by (unfold Enabled; apply bool_decide_eq_true; by destruct Hm as [->| ->]).
  unfold AuthenticateValues. rewrite He. cbn [negb]. unfold valid_headers. rewrite list_elem_of_fmap.
  assert (Hv : forall t, t ∈ valid_tokens a now <-> bearerToken [bearerPrefix ++ t] = inl t /\ validToken a now t = true).
  { intros t. rewrite validToken_spec by done. unfold valid_tokens. destruct Hm as [->| ->].
    - unfold carriable. case_bool_decide as Hc.
      + rewrite list_elem_of_singleton. split; [intros ->; by split|by intros [_ ?]].
      + split; [intros Ht; by apply not_elem_of_nil in Ht|intros [Ht ->]; done].
    - rewrite list_elem_of_fmap. setoid_rewrite elem_of_seqZ. split.
      + intros (k & -> & Hk). split; [apply bearerToken_carried, minute_token_carried|]. exists k. split; [lia|done].
      + intros (_ & k & Hk & ->). exists k. split; [done|lia]. }
  setoid_rewrite Hv. destruct (bearerToken values) as [t|e] eqn:E.
  - pose proof (bearerToken_inv _ _ E) as ->. destruct (validToken a now t) eqn:Ht.
    + split; [|done]. intros _. by exists t.
    + split; [done|]. intros (t' & Heq & _ & Ht'). injection Heq as ->. congruence.
  - split; [done|]. intros (t & -> & Ht & _). congruence.
Qed.
Lemma valid_headers_bound a now : 0 <= skew a <= MaxSignedTokenSkewMinutes -> (length (valid_headers a now) <= 11)%nat.
Proof.
  unfold MaxSignedTokenSkewMinutes. intros Hs. unfold valid_headers, valid_tokens.
  destruct (mode a); rewrite ?length_fmap; try (cbn; lia).
  - case_match; cbn; lia.
  - rewrite length_seqZ. lia.
Qed.

(** An authenticator that is enabled lets a call in only with exactly one
    Authorization header, and that header is one of at most eleven: "Bearer "
    and the raw token, or "Bearer " and the signature of one of the minutes no
    further from the current one than the configured skew, which [New] keeps at
    five. Nothing else is accepted, and each of them is. *)
Theorem accepted_headers (c : ListenerAuth) (a : Authenticator) (now : Z) (values : list bytes) :
  New (Some c) = inl a -> Enabled a = true -> 0 <= la_skew c -> la_skew c <= minute_of now ->
  (AuthenticateValues a now values = None <-> values ∈ valid_headers a now) /\
  (length (valid_headers a now) <= 11)%nat /\
  (forall h, h ∈ valid_headers a now -> exists token, h = [bearerPrefix ++ token]).
Proof.
  intros Hnew He Hs Hn. destruct (New_enabled _ _ Hnew He) as (Hm & Hk & Hmax). rewrite <- Hk in *. split_and!.
  - by apply authenticate_spec.
  - apply valid_headers_bound. lia.
  - intros h Hh. unfold valid_headers in Hh. apply list_elem_of_fmap in Hh as (t & -> & _). by exists t.
Qed.
Definition example_hmac : ListenerAuth := mkListenerAuth ModeHmacUtcMinute [] (string_bytes "key") 1 None None.
Definition example_hmac_auth : Authenticator :=
  mkAuthenticator ModeHmacUtcMinute [] (string_bytes "key") 1 DefaultFailureJitterMin DefaultFailureJitterMax.
(** The token of the minute before is accepted, that of two minutes before is not. *)
Lemma accepted_headers_witness :
  New (Some example_hmac) = inl example_hmac_auth /\
  [bearerPrefix ++ minute_token (string_bytes "key") 29999999] ∈ valid_headers example_hmac_auth (30000000 * minute_ns) /\
  AuthenticateValues example_hmac_auth (30000000 * minute_ns) [bearerPrefix ++ minute_token (string_bytes "key") 29999998]
    = Some ErrInvalidCredentials.
Proof.
  split; [by vm_compute|]. split.
  - apply (accepted_headers example_hmac example_hmac_auth); [by vm_compute|by vm_compute|by vm_compute|by vm_compute|].
    vm_compute. reflexivity.
  - vm_compute. reflexivity.
Defined.

(** ** What a policy lets each credential reach *)

(** An enabled credential accepts the call. *)
Definition accepts (a : Authenticator) (now : Z) (values : list bytes) : Prop := Enabled a = true /\ AuthenticateValues a now values = None.
#[export] Instance accepts_dec a now values : Decision (accepts a now values). Proof. apply _. Defined.

Lemma not_enabled_accepts_all a now values : Enabled a = false -> AuthenticateValues a now values = None.
Proof. intros H. unfold AuthenticateValues. by rewrite H. Qed.
Lemma authenticate_not_insufficient a now values : AuthenticateValues a now values <> Some ErrInsufficientAccess.
Proof.
  unfold AuthenticateValues. destruct (negb _); [done|]. destruct (bearerToken values) as [t|e] eqn:E.
  - by destruct (validToken _ _ _).
  - intros [= ->]. unfold bearerToken in E. destruct values as [|v [|? ?]]; [done| |done].
    destruct (negb _); [done|]. by case_decide.
Qed.

(** What each class of method answers. *)
Definition method_answer (p : Policy) (now : Z) (values : list bytes) (class : Access) : grpc_code :=
  let r := bool_decide (accepts (p_read p) now values) in
  let a := bool_decide (accepts (p_admin p) now values) in
  match Enabled (p_read p), Enabled (p_admin p), class with
  | false, false, _ => GrpcOK
  | true, false, _ => if r then GrpcOK else GrpcUnauthenticated
  | false, true, AccessRead => GrpcOK
  | true, true, AccessRead => if r || a then GrpcOK else GrpcUnauthenticated
  | _, true, _ => if a then GrpcOK else if r then GrpcPermissionDenied else GrpcUnauthenticated
  end.
Lemma accepts_bool a now values :
  bool_decide (accepts a now values) = Enabled a && bool_decide (AuthenticateValues a now values = None).
Proof. apply eq_true_iff_eq. by rewrite andb_true_iff, !bool_decide_eq_true. Qed.

Lemma authorizeGRPC_answer rand p now values m : (authorizeGRPC rand p now values m).1 = method_answer p now values (MethodAccess p m).
Proof.
  assert (Hc : MethodAccess p m = AccessRead \/ MethodAccess p m = AccessAdmin).
  { unfold MethodAccess, effective. case_decide; auto. }
  unfold authorizeGRPC, method_answer, policy_Enabled, Authorize, split. rewrite !accepts_bool.
  pose proof (authenticate_not_insufficient (p_read p) now values). pose proof (authenticate_not_insufficient (p_admin p) now values).
  destruct (Enabled (p_read p)), (Enabled (p_admin p)); cbn [negb orb andb]; destruct Hc as [Hc|Hc]; rewrite ?Hc;
    repeat (rewrite ?bool_decide_true by done; first [done | case_match | case_decide | case_bool_decide]; try congruence; cbn in *; subst; try done).
Qed.

(** C40: when the admin credential is set, a method the table does not list as
    read - one it does not list at all included - is reached exactly by calls the
    admin credential accepts, and a call only the read credential accepts is told
    that its permission is missing; a read method is reached when the read
    credential is off or either accepts. Without an admin credential the read
    one, if it is on, decides for every method alike. A call let into a method
    that is not a read method is let into every method. A call let in does not
    wait, and a refused one is answered after the failure delay. *)
Theorem policy_grants (rand : Z -> Z) (p : Policy) (now : Z) (values : list bytes) (m : bytes) :
  (Enabled (p_admin p) = true -> p_methods p !! m <> Some AccessRead ->
     ((authorizeGRPC rand p now values m).1 = GrpcOK <-> accepts (p_admin p) now values) /\
     ((authorizeGRPC rand p now values m).1 = GrpcPermissionDenied <-> accepts (p_read p) now values /\ ~ accepts (p_admin p) now values)) /\
  (Enabled (p_admin p) = true -> p_methods p !! m = Some AccessRead ->
     ((authorizeGRPC rand p now values m).1 = GrpcOK <->
        Enabled (p_read p) = false \/ accepts (p_read p) now values \/ accepts (p_admin p) now values) /\
     (authorizeGRPC rand p now values m).1 <> GrpcPermissionDenied) /\
  (Enabled (p_admin p) = false ->
     (authorizeGRPC rand p now values m).1 = GrpcOK <-> Enabled (p_read p) = false \/ accepts (p_read p) now values) /\
  (p_methods p !! m <> Some AccessRead -> (authorizeGRPC rand p now values m).1 = GrpcOK ->
     forall m', (authorizeGRPC rand p now values m').1 = GrpcOK) /\
  ((authorizeGRPC rand p now values m).2 = if decide ((authorizeGRPC rand p now values m).1 = GrpcOK) then None else jitter rand p).
Proof.
  assert (Hread : forall m, MethodAccess p m = if decide (p_methods p !! m = Some AccessRead) then AccessRead else AccessAdmin).
  { intros m'. unfold MethodAccess, effective. destruct (p_methods p !! m') as [[| |]|]; done. }
  assert (Ha : Enabled (p_admin p) = false -> ~ accepts (p_admin p) now values) by (intros H [? _]; congruence).
  assert (Hr : Enabled (p_read p) = false -> ~ accepts (p_read p) now values) by (intros H [? _]; congruence).
  assert (Hw : (authorizeGRPC rand p now values m).2 = if decide ((authorizeGRPC rand p now values m).1 = GrpcOK) then None else jitter rand p).
  { unfold authorizeGRPC. destruct (negb _); [done|]. destruct (Authorize _ _ _ _); [|done]. cbn. by repeat case_decide. }
  rewrite Hw. clear Hw. rewrite !authorizeGRPC_answer, Hread.
  split_and!; [..|done]; intros Hm; try intros Hm2; try intros m'; rewrite ?authorizeGRPC_answer, ?Hread in *; repeat case_decide; try done;
    unfold method_answer in *; destruct (Enabled (p_admin p)) eqn:?, (Enabled (p_read p)) eqn:?; cbn [orb] in *;
    repeat case_bool_decide; cbn [orb] in *; naive_solver.
Qed.
(** The answers of a server whose admin credential is "admin" and whose read
    credential is "read": to a method of no known class, and to a read method. *)
Definition example_policy : Policy :=
  mkPolicy (mkAuthenticator ModeRawToken (string_bytes "read") [] 0 0 0) (mkAuthenticator ModeRawToken (string_bytes "admin") [] 0 0 0)
    StandardMethods.
Lemma policy_grants_witness :
  let unknown := string_bytes "/x.Y/Z" in let rand := fun _ : Z => 0 in
  (authorizeGRPC rand example_policy 0 [string_bytes "Bearer read"] unknown).1 = GrpcPermissionDenied /\
  (authorizeGRPC rand example_policy 0 [string_bytes "Bearer admin"] unknown).1 = GrpcOK /\
  (forall m', (authorizeGRPC rand example_policy 0 [string_bytes "Bearer admin"] m').1 = GrpcOK).
Proof.
  assert (Hm : p_methods example_policy !! string_bytes "/x.Y/Z" <> Some AccessRead) by (vm_compute; discriminate).
  destruct (policy_grants (fun _ => 0) example_policy 0 [string_bytes "Bearer admin"] (string_bytes "/x.Y/Z")) as (H1 & _ & _ & H4 & _).
  assert (E : (authorizeGRPC (fun _ => 0) example_policy 0 [string_bytes "Bearer admin"] (string_bytes "/x.Y/Z")).1 = GrpcOK)
    by (apply (H1 eq_refl Hm); split; vm_compute; reflexivity).
  split; [vm_compute; reflexivity|]. split; [exact E|]. exact (H4 Hm E).
Defined.

(** ** A client that holds the server's credentials *)

(** The client's credential is the server's, and its clock is near enough. *)
Definition holds (cred : ClientAuth) (a : Authenticator) (client_now server_now : Z) : Prop :=
  match mode a with
  | ModeRawToken => RawToken cred = rawToken a /\ carried (rawToken a)
  | ModeHmacUtcMinute =>
      RawToken cred = [] /\ HMACSharedKey cred = hmacKey a /\ hmacKey a <> [] /\
      0 <= client_now /\ skew a <= minute_of server_now /\ Z.abs (minute_of client_now - minute_of server_now) <= skew a
  | _ => False
  end.
Definition has_credential (cred : ClientAuth) : Prop := RawToken cred <> [] \/ HMACSharedKey cred <> [].

Lemma holds_has_credential cred a tc ts : holds cred a tc ts -> has_credential cred.
Proof. unfold holds, has_credential, carried. destruct (mode a); intros H; try done.
  - left. by destruct H as (-> & ? & _).
  - right. by destruct H as (_ & -> & ? & _).
Qed.
Lemma holds_accepts cred a tc ts : holds cred a tc ts -> accepts a ts (client_values cred tc).
Proof.
  intros H. unfold holds in H. unfold accepts. destruct (mode a) eqn:Em; try done; (split; [unfold Enabled; by rewrite Em|]).
  - destruct H as [Hr Hc]. unfold client_values, BearerToken. rewrite decide_True by (rewrite Hr; apply Hc).
    unfold AuthenticateValues. replace (Enabled a) with true by (unfold Enabled; by rewrite Em). cbn [negb].
    rewrite Hr, bearerToken_carried by done. unfold validToken, constantTimeStringEqual. rewrite Em.
    by rewrite bool_decide_true by done.
  - destruct H as (Hr & Hk & Hne & Ht & Hs & Hclock). apply authenticate_spec; [by right|lia|lia|].
    unfold client_values, BearerToken. rewrite Hr, Hk. rewrite decide_False by (intros Hx; by apply Hx). rewrite decide_True by done.
    unfold valid_headers, valid_tokens. rewrite Em, SignedToken_minute by done.
    apply list_elem_of_fmap. eexists. split; [done|]. apply list_elem_of_fmap. eexists. split; [done|]. apply elem_of_seqZ. lia.
Qed.

(** A client that holds the server's credentials - each one the server has
    enabled, with a clock within the skew, and no admin credential for a server
    without one - is let into every method: the credential [ForAccess] chooses for
    the method's class, presented as the client presents it, is accepted. *)
Theorem client_is_let_in (rand : Z -> Z) (p : Policy) (shared admin : ClientAuth) (client_now server_now : Z) (m : bytes) :
  (Enabled (p_read p) = true -> holds shared (p_read p) client_now server_now) ->
  (Enabled (p_admin p) = true -> holds admin (p_admin p) client_now server_now) ->
  (Enabled (p_admin p) = false -> ~ has_credential admin) ->
  (authorizeGRPC rand p server_now (client_values (ForAccess shared admin (MethodAccess p m)) client_now) m).1 = GrpcOK.
Proof.
  intros Hr Ha Hn. rewrite authorizeGRPC_answer.
  assert (Hc : effective (MethodAccess p m) = MethodAccess p m /\ (MethodAccess p m = AccessRead \/ MethodAccess p m = AccessAdmin)).
  { unfold MethodAccess, effective. repeat case_decide; naive_solver. }
  destruct Hc as [He Hc]. unfold ForAccess. rewrite He.
  assert (Hb : forall cred, bool_decide (RawToken cred <> [] \/ HMACSharedKey cred <> []) = true <-> has_credential cred)
    by (intros; apply bool_decide_eq_true).
  assert (Hf : Enabled (p_admin p) = false -> bool_decide (RawToken admin <> [] \/ HMACSharedKey admin <> []) = false).
  { intros E. apply not_true_is_false. rewrite Hb. by apply Hn. }
  assert (Hra : Enabled (p_read p) = true -> bool_decide (accepts (p_read p) server_now (client_values shared client_now)) = true).
  { intros E. apply bool_decide_true. by apply holds_accepts, Hr. }
  assert (Haa : Enabled (p_admin p) = true -> bool_decide (accepts (p_admin p) server_now (client_values admin client_now)) = true).
  { intros E. apply bool_decide_true. by apply holds_accepts, Ha. }
  assert (Hsc : Enabled (p_read p) = true -> bool_decide (RawToken shared <> [] \/ HMACSharedKey shared <> []) = true).
  { intros E. apply Hb. by eapply holds_has_credential, Hr. }
  assert (Hac : Enabled (p_admin p) = true -> bool_decide (RawToken admin <> [] \/ HMACSharedKey admin <> []) = true).
  { intros E. apply Hb. by eapply holds_has_credential, Ha. }
  clear Hb Hr Ha Hn. unfold method_answer. destruct (Enabled (p_read p)), (Enabled (p_admin p)); [| | |done];
    destruct Hc as [Hc|Hc]; rewrite Hc; rewrite ?Hsc, ?Hac, ?Hf by done; cbn;
    rewrite ?(bool_decide_false (AccessRead = AccessAdmin)), ?(bool_decide_true (AccessAdmin = AccessAdmin)) by done; cbn;
    rewrite ?Hra, ?Haa by done; done.
Qed.
(** A server of both credentials, and a client whose clock is a minute behind. *)
Lemma client_is_let_in_witness :
  let p := mkPolicy example_hmac_auth (mkAuthenticator ModeRawToken (string_bytes "admin") [] 0 0 0) StandardMethods in
  let shared := mkClientAuth [] (string_bytes "key") in
  let admin := mkClientAuth (string_bytes "admin") [] in
  let m := string_bytes "/grpc.health.v1.Health/Check" in
  ForAccess shared admin (MethodAccess p m) = shared /\
  (authorizeGRPC (fun _ => 0) p (30000000 * minute_ns) (client_values (ForAccess shared admin (MethodAccess p m)) (29999999 * minute_ns)) m).1 = GrpcOK.
Proof.
  cbv zeta. split; [vm_compute; reflexivity|]. apply client_is_let_in.
  - intros _. cbn [p_read]. unfold holds, example_hmac_auth. cbn [mode RawToken HMACSharedKey hmacKey skew].
    repeat split; try done; vm_compute; discriminate.
  - intros _. unfold holds. cbn [p_admin mode RawToken rawToken]. split; [done|]. split; [done|]. change (string_bytes "admin") with [97; 100; 109; 105; 110].
    repeat (apply Forall_cons_2; [unfold plain; lia|]). apply Forall_nil_2.
  - intros H. vm_compute in H. discriminate.
Defined.

(** ** The delay after a failure *)

(** The delay is in its interval, ends included, whatever the random source
    draws; but the widest interval, of 2^63 - 1 nanoseconds, is a panic. *)
Lemma CryptoJitterDuration_spec (rand : Z -> Z) (lo hi : Z) :
  (forall b, 0 < b -> 0 <= rand b < b) -> 0 <= lo -> lo <= hi -> hi < 2 ^ 63 ->
  (hi - lo < 2 ^ 63 - 1 -> exists d, CryptoJitterDuration rand lo hi = JitterOf d /\ lo <= d <= hi) /\
  (hi - lo = 2 ^ 63 - 1 -> CryptoJitterDuration rand lo hi = JitterPanic).
Proof.
  intros Hr Hlo Hhi Hmax. unfold CryptoJitterDuration. rewrite (decide_False (P := lo < 0 \/ hi < 0)) by lia.
  rewrite (decide_False (P := hi < lo)) by lia. split; intros Hspan.
  - case_decide; [exists lo; split; [done|lia]|]. cbv zeta.
    assert (E : int64 (hi - lo + 1) = hi - lo + 1).
    { unfold int64, uint64. rewrite Z.mod_small by lia. cbv zeta. rewrite decide_True by lia. done. }
    rewrite E, decide_False by lia. eexists. split; [done|]. specialize (Hr (hi - lo + 1)). lia.
  - rewrite decide_False by lia. rewrite Hspan. by vm_compute.
Qed.
