(* ===== verification/Reconciler.v ===== *)
(** The link monitor's reconciler (pkg/linkmonitor/reconcile*.go): the inventory
    kept current by ordered events, an authoritative dump whose identities are
    queried again when an event arrives meanwhile, and recovery after a loss.

    Around the owner, which runs one handler at a time, stand the event executor
    with the bounded inbox it pushes into (reconcile_events.go,
    reconcile_subscription.go), the inventory executor (scheduler_inventory.go)
    and the kernel: a step is one handler of the owner or one action of the
    others, so a run is an interleaving. A handler reads the inbox's atomics at
    its start; the others' steps commute with the rest of it.

    Left out: RDMA and ethtool specifics beyond whether a dump lists RDMA ports,
    statistics and carrier values, the reasons and errors that only label
    metrics, and the collector scheduler, which the inventory does not depend on:
    of the traffic and RDMA schedules a commit calls, whether they fail is kept. *)

From stdpp Require Import gmap pretty.
From S2P Require Import Prelude GoStrings LinkModel LinkReducer.
From S2P Require Deadlines.

(** ** Outcomes

    A handler returns a state, or the error the owner's loop stops with; [None]
    is a panic. *)

Inductive rec_err := ErrSequence | ErrEventOrder | ErrOccupied | ErrClock | ErrTime | ErrRejected | ErrInvalid.
#[export] Instance rec_err_eq : EqDecision rec_err. Proof. solve_decision. Defined.
Definition res (A : Type) : Type := go (A + rec_err).
Definition ret {A} (a : A) : res A := Some (inl a).
Definition err {A} (e : rec_err) : res A := Some (inr e).
Definition rbind {A B} (m : res A) (f : A -> res B) : res B :=
  match m with Some (inl a) => f a | Some (inr e) => Some (inr e) | None => None end.
Declare Scope rec_scope.
Notation "x <-- m ; k" := (rbind m (fun x => k)) (at level 90, m at next level, right associativity) : rec_scope.
#[local] Open Scope rec_scope.
(** An operation of the reducer, whose errors end the loop. *)
Definition lift {A} (o : go ((A + red_err) * reducer)) : res (A * reducer) :=
  match o with
  | None => None
  | Some (inl a, r) => ret (a, r)
  | Some (inr ErrSequenceExhausted, _) => err ErrSequence
  | Some (inr ErrInvalidIdentity, _) => err ErrInvalid
  end.

(** ** Events and the inbox *)

Inductive EventKind := EventChange | EventRemove | EventRefresh | EventLoss | EventLink | EventResync.
#[export] Instance EventKind_eq : EqDecision EventKind. Proof. solve_decision. Defined.
Record Event := mkEvent { Sequence : Z; ev_Kind : EventKind; ev_Observation : Observation }.
Definition ev_device (e : Event) : Device := ob_Device (ev_Observation e).
Definition ev_key (e : Event) : DeviceKey := Key (ev_device e).
Definition ev_epoch (e : Event) : Z := SourceEpoch (dev_Token (ev_device e)).
Definition source_token (ep : Z) : Token := mkToken 0 0 ep 0.
Definition set_source (ep : Z) (o : Observation) : Observation := mkObservation (set_token (source_token ep) (ob_Device o)) (Observed o).

Definition eventQueueCapacity : Z := 4096.
Record eventInbox := mkInbox { events : list Event; in_epoch : Z; produced : Z; exhausted : bool }.
Definition newEventInbox (ep : Z) : eventInbox := mkInbox [] ep 0 false.
Definition lose (ep : Z) (q : eventInbox) : eventInbox :=
  if decide (ep = MaxUint64) then
    if decide (in_epoch q = ep) then mkInbox (events q) (in_epoch q) (produced q) true else q
  else if decide (in_epoch q = ep) then mkInbox (events q) (ep + 1) (produced q) (exhausted q) else q.
Definition slen (s : string) : Z := Z.of_nat (String.length s).
Definition push (ep : Z) (kind : EventKind) (o : Observation) (q : eventInbox) : bool * eventInbox :=
  if decide (in_epoch q <> ep) then (false, q) else
  if decide (produced q = MaxUint64) then (false, mkInbox (events q) (in_epoch q) (produced q) true) else
  if decide (kind = EventLoss) then (false, lose ep q) else
  let d := ob_Device o in
  if decide (255 < slen (Name d) \/ 1024 < slen (HardwareID d) \/ 63 < slen (RDMADevice (Key d))) then (false, lose ep q) else
  if decide (glen (events q) < eventQueueCapacity) then
    let n := produced q + 1 in
    (true, mkInbox (events q ++ [mkEvent n kind (set_source ep o)]) (in_epoch q) n (exhausted q))
  else (false, lose ep q).

Definition canonical_name (key : DeviceKey) : string := "rdma:" +:+ RDMADevice key +:+ ":" +:+ pretty (Port key).
Definition validateObservation (r : reducer) (o : Observation) : bool :=
  let d := ob_Device o in
  let nameValid :=
    if decide (Kind (Key d) = DeviceNativeRDMA)
    then bool_decide (Name d = "" \/ Name d = RDMADevice (Key d) \/ Name d = canonical_name (Key d))
    else validName (Name d) 255 in
  validKey (Key d) r && nameValid && bool_decide (slen (HardwareID d) <= 1024 /\ 0 <= Monotonic (Observed o)).
Definition validEvent (r : reducer) (e : Event) : bool :=
  match ev_Kind e with
  | EventChange | EventLink => validateObservation r (ev_Observation e)
  | EventResync => true
  | EventRemove | EventRefresh => validKey (ev_key e) r
  | EventLoss => false
  end.

(** ** Inventory requests *)

Record inventoryRequest := mkRequest { rq_token : Token; rq_key : DeviceKey; rq_query : bool; rq_version : Z }.
#[export] Instance inventoryRequest_eq : EqDecision inventoryRequest. Proof. solve_decision. Defined.
(** What the backend answers: an error, ENODEV, a dump - complete or not, with
    RDMA ports or not, its ports and statistics consistent or not - or the
    record of a query, its statistics consistent or not. *)
Inductive inventoryAnswer :=
  | AnswerError | AnswerGone
  | AnswerDump (complete : bool) (devices : list Observation) (ports consistent : bool)
  | AnswerQuery (o : Observation) (consistent : bool).
Record inventoryCompletion := mkCompletion { cp_request : inventoryRequest; cp_answer : inventoryAnswer }.

(** ** The reconciler *)

Definition second : Z := 1000000000.
Definition maxInventoryDevices : Z := 65536.
Definition collectionBudget : Z := 5 * second.
(** The reconciliation under way; an entry of [dirty] is the version and whether
    it is queued. *)
Record resync := mkResync {
  pending : bool; request : option inventoryRequest; waiting : option inventoryCompletion; watermark : Z;
  candidate : option (gmap DeviceKey Observation); rdmaPorts : bool; dirty : option (gmap DeviceKey (Z * bool));
  queries : list DeviceKey }.
Record timers := mkTimers {
  nextResync : Z; retryAt : Z; reconnectAt : Z; subscribeUntil : Z; backoff : Z; queryBackoff : Z }.

(** The event executor's goroutine: no subscription, one being opened, one that
    has joined its groups - with what its socket holds, whether something was
    dropped from it, and whether its status was sent - or one being closed. *)
Inductive subscription :=
  | NoSub | Subscribing (ep : Z) | Live (ep : Z) (socket : list (EventKind * Observation)) (lost notified : bool) | Ending (ep : Z).
Record subscriptionStatus := mkStatus { st_epoch : Z; st_ready : bool; st_rdma : bool }.
(** The inventory executor's goroutine: idle, reading for a request - with each
    device as it was when last read - or done. *)
Inductive executor := Idle | Reading (q : inventoryRequest) (seen : gmap DeviceKey Device) | Done (c : inventoryCompletion).

Record system := mkSystem {
  red : reducer; processed : Z; serial : Z; inv : resync; tim : timers;
  busy : bool; exec : executor;
  inbox : eventInbox; sub_busy : bool; sub : subscription; statuses : list subscriptionStatus;
  kernel : gmap DeviceKey Device }.

Definition set_red (r : reducer) (s : system) : system :=
  mkSystem r (processed s) (serial s) (inv s) (tim s) (busy s) (exec s) (inbox s) (sub_busy s) (sub s) (statuses s) (kernel s).
Definition set_processed (n : Z) (s : system) : system :=
  mkSystem (red s) n (serial s) (inv s) (tim s) (busy s) (exec s) (inbox s) (sub_busy s) (sub s) (statuses s) (kernel s).
Definition set_inv (i : resync) (s : system) : system :=
  mkSystem (red s) (processed s) (serial s) i (tim s) (busy s) (exec s) (inbox s) (sub_busy s) (sub s) (statuses s) (kernel s).
Definition set_tim (t : timers) (s : system) : system :=
  mkSystem (red s) (processed s) (serial s) (inv s) t (busy s) (exec s) (inbox s) (sub_busy s) (sub s) (statuses s) (kernel s).
Definition set_exec (n : Z) (b : bool) (x : executor) (s : system) : system :=
  mkSystem (red s) (processed s) n (inv s) (tim s) b x (inbox s) (sub_busy s) (sub s) (statuses s) (kernel s).
Definition set_inbox (q : eventInbox) (s : system) : system :=
  mkSystem (red s) (processed s) (serial s) (inv s) (tim s) (busy s) (exec s) q (sub_busy s) (sub s) (statuses s) (kernel s).
Definition set_sub (b : bool) (x : subscription) (l : list subscriptionStatus) (s : system) : system :=
  mkSystem (red s) (processed s) (serial s) (inv s) (tim s) (busy s) (exec s) (inbox s) b x l (kernel s).
Definition set_kernel (k : gmap DeviceKey Device) (s : system) : system :=
  mkSystem (red s) (processed s) (serial s) (inv s) (tim s) (busy s) (exec s) (inbox s) (sub_busy s) (sub s) (statuses s) k.

(** ** Handlers of the owner *)

Section owner.
(** Whether a slice has much more storage than elements, and the order a map is
    ranged over: of no effect on what follows. *)
Context (shrink : reducer -> bool) (range : gmap DeviceKey Observation -> list (DeviceKey * Observation)).

Definition set_pending (b : bool) (i : resync) : resync :=
  mkResync b (request i) (waiting i) (watermark i) (candidate i) (rdmaPorts i) (dirty i) (queries i).
Definition set_dirty (d : gmap DeviceKey (Z * bool)) (q : list DeviceKey) (i : resync) : resync :=
  mkResync (pending i) (request i) (waiting i) (watermark i) (candidate i) (rdmaPorts i) (Some d) q.
Definition requestResync (s : system) : system :=
  let i := inv s in
  if negb (pending i) && bool_decide (request i = None) && bool_decide (dirty i = None) then set_inv (set_pending true i) s else s.
(** [abort]; the running request is cancelled, and may end in an error. *)
Definition abort (s : system) : system :=
  let i := inv s in set_inv (mkResync (pending i) None None (watermark i) None false None []) s.
Definition fail (now : Z) (s : system) : system :=
  let s := abort s in
  let t := tim s in
  let s := set_inv (set_pending true (inv s)) s in
  set_tim (mkTimers (nextResync t) (Deadlines.deadlineAfter now (queryBackoff t)) (reconnectAt t) (subscribeUntil t) (backoff t)
             (Z.min (2 * queryBackoff t) (30 * second))) s.
Definition syncLoss (now : Z) (s : system) : res system :=
  if exhausted (inbox s) then err ErrSequence else
  let r := red s in
  let ep := in_epoch (inbox s) in
  if decide (ep = epoch r) then ret s else
  if decide (ep <> epoch r + 1) then err ErrSequence else
  match loseEvents r with
  | (inr _, _) => err ErrSequence
  | (inl _, r) =>
      let r := with_events (routeEvents r) false r in
      let s := abort (set_red r s) in
      let s := set_inv (set_pending true (inv s)) s in
      let t := tim s in
      ret (set_tim (mkTimers (nextResync t) (retryAt t) (Deadlines.deadlineAfter now (backoff t)) 0
                      (Z.min (backoff t * 2) (30 * second)) (queryBackoff t)) s)
  end.

Definition markDirty (now : Z) (key : DeviceKey) (version : Z) (s : system) : system :=
  match dirty (inv s) with
  | None => s
  | Some d =>
      match (d !! key : option (Z * bool)) with
      | None =>
          if decide (Z.of_nat (size d) = maxInventoryDevices) then fail now s
          else set_inv (set_dirty (<[key := (version, true)]> d) (queries (inv s) ++ [key]) (inv s)) s
      | Some (_, queued) =>
          set_inv (set_dirty (<[key := (version, true)]> d) (if queued then queries (inv s) else queries (inv s) ++ [key]) (inv s)) s
      end
  end.

Definition known_device (r : reducer) (key : DeviceKey) : go (option Device) :=
  match r_index r !! key with None => Some None | Some i => sl ← slots r !! i; Some (Some (device sl)) end.
Definition knownLink (e : Event) (s : system) : go Event :=
  let d := ev_device e in
  known ← known_device (red s) (Key d);
  Some match known with
       | Some k =>
           if decide (Name k = Name d)
           then mkEvent (Sequence e) EventChange
                  (mkObservation (mkDevice (Key k) (dev_Token d) (Name k) (Up d) (dev_Eligibility k) (HardwareID k) (RDMA k))
                     (Observed (ev_Observation e)))
           else mkEvent (Sequence e) EventRefresh (ev_Observation e)
       | None => mkEvent (Sequence e) EventRefresh (ev_Observation e)
       end.
Definition applyEvent (e : Event) (s : system) : res (bool * system) :=
  let r := red s in
  p <-- match ev_Kind e with
        | EventChange => lift (observe (ev_Observation e) r)
        | EventRemove => lift (remove (shrink r) (ev_key e) (dev_Token (ev_device e)) r)
        | EventRefresh => lift (refreshEvent (ev_key e) r)
        | _ => err ErrInvalid
        end;
  ret (p.1, set_red p.2 s).
Definition event (now : Z) (e : Event) (s : system) : res system :=
  if decide (Sequence e <= processed s) then err ErrEventOrder else
  s <-- syncLoss now (set_processed (Sequence e) s);
  if decide (ev_epoch e <> epoch (red s)) then ret s else
  if negb (validEvent (red s) e) then syncLoss now (set_inbox (lose (epoch (red s)) (inbox s)) s) else
  if decide (ev_Kind e = EventResync) then ret (requestResync (abort s)) else
  let s := if decide (ev_Kind e = EventRemove \/ ev_Kind e = EventRefresh \/ ev_Kind e = EventLink) then requestResync s else s in
  match (if decide (ev_Kind e = EventLink) then knownLink e s else Some e) with
  | None => None
  | Some e =>
      p <-- applyEvent e s;
      ret (if decide (dirty (inv p.2) <> None) then markDirty now (ev_key e) (Sequence e) p.2 else p.2)
  end.

(** [before]: at most two statuses. *)
Definition take_status (st : subscriptionStatus) (s : system) : system :=
  let s := if st_ready st then s else set_sub false (sub s) (statuses s) s in
  if decide (st_epoch st <> epoch (red s)) then s else
  if st_ready st && bool_decide (in_epoch (inbox s) = st_epoch st) then
    let t := tim s in
    set_tim (mkTimers (nextResync t) (retryAt t) (reconnectAt t) 0 (backoff t) (queryBackoff t))
      (set_red (with_events true (st_rdma st) (red s)) s)
  else s.
Fixpoint take_statuses (n : nat) (s : system) : system :=
  match n, statuses s with
  | S n, st :: l => take_statuses n (take_status st (set_sub (sub_busy s) (sub s) l s))
  | _, _ => s
  end.
Definition before (now : Z) (s : system) : res system :=
  s <-- syncLoss now s; syncLoss now (take_statuses 2 s).

(** [result], after [completed] has released the executor. *)
Definition result (c : inventoryCompletion) (s : system) : system :=
  let s := set_exec (serial s) false Idle s in
  let i := inv s in
  if decide (request i = Some (cp_request c)) then
    set_inv (mkResync (pending i) (request i) (Some c) (produced (inbox s)) (candidate i) (rdmaPorts i) (dirty i) (queries i)) s
  else s.
Definition identityToken (key : DeviceKey) (r : reducer) : go Token :=
  known ← known_device r key;
  Some match known with
       | Some d => mkToken (Generation (dev_Token d)) (Revision (dev_Token d)) (epoch r) (Attempt (dev_Token d))
       | None => source_token (epoch r)
       end.
(** [submit]; the executor's goroutine takes the request at once. *)
Definition submit (key : DeviceKey) (query : bool) (version : Z) (s : system) : res system :=
  if decide (serial s = MaxUint64) then err ErrSequence else
  let n := serial s + 1 in
  match identityToken key (red s) with
  | None => None
  | Some t =>
      let q := mkRequest (mkToken (Generation t) (Revision t) (SourceEpoch t) n) key query version in
      if busy s then err ErrOccupied else
      let s := set_exec n true (Reading q (kernel s)) s in
      let i := inv s in
      ret (set_inv (mkResync (pending i) (Some q) (waiting i) (watermark i) (candidate i) (rdmaPorts i) (dirty i) (queries i)) s)
  end.

(** The candidate of a dump: [None] where a record is invalid or repeated. *)
Definition candidate_of (r : reducer) (l : list Observation) : option (gmap DeviceKey Observation) :=
  foldl (fun m o =>
    m ← m;
    let key := Key (ob_Device o) in
    if negb (validateObservation r o) || bool_decide (is_Some (m !! key)) then None else Some (<[key := o]> m)) (Some ∅) l.
Definition set_candidate (c : gmap DeviceKey Observation) (ports : bool) (i : resync) : resync :=
  mkResync (pending i) (request i) (waiting i) (watermark i) (Some c) ports (dirty i) (queries i).
Definition sameRevision (a b : Token) : bool :=
  bool_decide (Generation a = Generation b /\ Revision a = Revision b /\ SourceEpoch a = SourceEpoch b).
Definition settle_query (key : DeviceKey) (c : gmap DeviceKey Observation) (s : system) : system :=
  let i := set_candidate c (rdmaPorts (inv s)) (inv s) in
  match dirty i with
  | None => set_inv i s
  | Some d => set_inv (set_dirty (delete key d) (filter (fun k => k <> key) (queries i)) i) s
  end.
Definition acceptQuery (now : Z) (q : inventoryRequest) (a : inventoryAnswer) (s : system) : go system :=
  if rdmaPorts (inv s) then Some (fail now s) else
  match dirty (inv s) ≫= (fun d => d !! rq_key q : option (Z * bool)) with
  | None => Some s
  | Some (version, _) =>
      t ← identityToken (rq_key q) (red s);
      if decide (version <> rq_version q) then Some (markDirty now (rq_key q) version s) else
      if negb (sameRevision (rq_token q) t) then Some (markDirty now (rq_key q) version s) else
      c ← candidate (inv s);
      Some match a with
           | AnswerGone => settle_query (rq_key q) (delete (rq_key q) c) s
           | AnswerQuery o consistent =>
               if decide (Key (ob_Device o) <> rq_key q) then fail now s else
               if negb (validateObservation (red s) o) then fail now s else
               if decide (c !! rq_key q = None /\ Z.of_nat (size c) = maxInventoryDevices) then fail now s else
               if negb consistent then fail now s else settle_query (rq_key q) (<[rq_key q := o]> c) s
           | _ => fail now s
           end
  end.
Definition acceptResult (now : Z) (s : system) : go system :=
  match waiting (inv s) with
  | None => None
  | Some c =>
      let i := inv s in
      let s := set_inv (mkResync (pending i) None None (watermark i) (candidate i) (rdmaPorts i) (dirty i) (queries i)) s in
      let q := cp_request c in
      if decide (SourceEpoch (rq_token q) <> epoch (red s)) then Some s else
      if rq_query q then acceptQuery now q (cp_answer c) s else
      match cp_answer c with
      | AnswerDump complete devices ports consistent =>
          if negb complete || bool_decide (maxInventoryDevices < glen devices) then Some (fail now s) else
          match candidate_of (red s) devices with
          | None => Some (fail now s)
          | Some m =>
              if negb consistent then Some (fail now s)
              else Some (set_inv (set_candidate m ports (inv s)) s)
          end
      | _ => Some (fail now s)
      end
  end.

Definition nextQuery (s : system) : res system :=
  match queries (inv s) with
  | [] => ret s
  | key :: l =>
      match dirty (inv s) ≫= (fun d => d !! key : option (Z * bool)) with
      | None => None
      | Some (version, _) =>
          s <-- submit key true version s;
          ret (match dirty (inv s) with
               | None => s
               | Some d => set_inv (set_dirty (<[key := (version, false)]> d) l (inv s)) s
               end)
      end
  end.

(** ** Commit *)

Fixpoint commit_observe (l : list (DeviceKey * Observation)) (r : reducer) : res reducer :=
  match l with
  | [] => ret r
  | (_, o) :: l => p <-- lift (observe (set_source (epoch r) o) r); commit_observe l p.2
  end.
(** The removals, from position [i] on. *)
Fixpoint commit_remove (fuel : nat) (i : nat) (c : gmap DeviceKey Observation) (r : reducer) : res reducer :=
  match slots r !! i with
  | None => ret r
  | Some sl =>
      match fuel with
      | O => None
      | S fuel =>
          let key := Key (device sl) in
          if decide (is_Some (c !! key)) then commit_remove fuel (S i) c r
          else p <-- lift (remove (shrink r) key (source_token (epoch r)) r); commit_remove fuel i c p.2
      end
  end.
(** What a commit depends on outside the reconciler: the revision of the RDMA
    schedule, when there is one, and the reducer's last attempt number, when the
    traffic schedule is to reuse the dump's statistics (it has no batch or
    attempt under way, and the dump has statistics). *)
Record hooks := mkHooks { h_rdma : option Z; h_reuse : option Z }.
(** [reuse], as far as it can fail: [capture] needs two attempts a device. *)
Definition traffic_reuse (h : hooks) (r : reducer) : res unit :=
  match h_reuse h with
  | Some attempt =>
      if decide (maxInventoryDevices < glen (slots r) \/ MaxUint64 - 2 * glen (slots r) < attempt) then err ErrSequence else ret ()
  | None => ret ()
  end.
(** The RDMA schedule's [replace], likewise. *)
Definition rdma_replace (h : hooks) : res unit :=
  if decide (h_rdma h = Some MaxUint64) then err ErrSequence else ret ().
Definition commit (interval : Z) (now : Stamp) (h : hooks) (c : gmap DeviceKey Observation) (s : system) : res system :=
  let r := red s in
  if decide (h_rdma h = Some MaxUint64) then err ErrSequence else
  let mutations := glen (slots r) + Z.of_nat (size c) in
  if decide (MaxUint64 - mutations < revision r \/ MaxUint64 - Z.of_nat (size c) < generation r) then err ErrSequence else
  if decide (Monotonic now < 0 \/ Present (lastResync r) = true /\ Monotonic now < Monotonic (Value (lastResync r))) then err ErrTime else
  r <-- commit_observe (range c) r;
  r <-- commit_remove (length (slots r)) 0 c r;
  match recordResync (mkToken 0 (revision r) (epoch r) 0) now r with
  | None => None
  | Some (false, _) => err ErrRejected
  | Some (true, r) =>
      _ <-- traffic_reuse h r;
      _ <-- rdma_replace h;
      let s := abort (set_red r s) in
      let s := set_inv (set_pending false (inv s)) s in
      let t := tim s in
      ret (set_tim (mkTimers (Deadlines.deadlineAfter (Monotonic now) interval) 0 (reconnectAt t) (subscribeUntil t) second second) s)
  end.

(** ** [advance] *)

Definition advanceInventory (interval : Z) (now : Stamp) (h : hooks) (s : system) : res system :=
  if decide (processed s < produced (inbox s)) then ret s else
  match candidate (inv s) with
  | Some c =>
      if decide (default ∅ (dirty (inv s)) <> ∅) then nextQuery s else
      if decide (in_epoch (inbox s) <> epoch (red s)) then syncLoss (Monotonic now) s else commit interval now h c s
  | None =>
      if pending (inv s) && bool_decide (retryAt (tim s) <= Monotonic now) then
        submit zero_DeviceKey false 0 (set_inv (set_pending false (set_dirty ∅ (queries (inv s)) (inv s))) s)
      else ret s
  end.
Definition arm_time (now : Z) (s : system) : Z :=
  let add := fun at_ value => if decide (now < value /\ (at_ = 0 \/ value < at_)) then value else at_ in
  let t := tim s in
  if negb (routeEvents (red s)) then add 0 (if sub_busy s then subscribeUntil t else reconnectAt t)
  else let at_ := add 0 (nextResync t) in if pending (inv s) then add at_ (retryAt t) else at_.
Definition coordinator_key : Deadlines.deadlineKey := Deadlines.mkKey Deadlines.deadlineCoordinator (mkJobKey 0 zero_DeviceKey CollectorUnknown).
Definition arm (now : Z) (s : system) : res system :=
  match cancel coordinator_key (red s) with
  | None => None
  | Some r =>
      let at_ := arm_time now s in
      if decide (at_ = 0) then ret (set_red r s) else
      match Deadlines.set (Deadlines.mkEntry coordinator_key at_ 0 zero_Token) (r_deadlines r) with
      | None => None
      | Some q => ret (set_red (with_deadlines q r) s)
      end
  end.
Definition subscribe (now : Z) (s : system) : system :=
  if negb (sub_busy s) && bool_decide (reconnectAt (tim s) <= now) then
    let t := tim s in
    set_tim (mkTimers (nextResync t) (retryAt t) (reconnectAt t) (Deadlines.deadlineAfter now collectionBudget) (backoff t) (queryBackoff t))
      (set_sub true (Subscribing (epoch (red s))) (statuses s) s)
  else s.
Definition advance (interval : Z) (now : Stamp) (h : hooks) (s : system) : res system :=
  let n := Monotonic now in
  if decide (n < 0 \/ n = 2 ^ 63 - 1) then err ErrClock else
  s <-- syncLoss n s;
  s <-- (if decide (subscribeUntil (tim s) <> 0 /\ subscribeUntil (tim s) <= n)
         then syncLoss n (set_inbox (lose (epoch (red s)) (inbox s)) s) else ret s);
  if negb (routeEvents (red s)) then arm n (subscribe n s) else
  let s := if decide (nextResync (tim s) <> 0 /\ nextResync (tim s) <= n) then
             let s := requestResync s in
             let t := tim s in
             set_tim (mkTimers 0 (retryAt t) (reconnectAt t) (subscribeUntil t) (backoff t) (queryBackoff t)) s
           else s in
  match (if decide (is_Some (waiting (inv s)) /\ watermark (inv s) <= processed s) then acceptResult n s else Some s) with
  | None => None
  | Some s =>
      s <-- (if negb (busy s) && bool_decide (request (inv s) = None) then advanceInventory interval now h s else ret s);
      arm n s
  end.

(** ** Interleavings *)

(** What the kernel announces of a device's change to its subscribers: its new
    record, its new link state, that it is gone, that its record should be read
    again, or no more than that something changed. *)
Definition announces (kind : EventKind) (key : DeviceKey) (new : option Device) (o : Observation) : Prop :=
  match kind with
  | EventChange => exists d, new = Some d /\ ob_Device o = d
  | EventRemove => new = None /\ Key (ob_Device o) = key
  | EventLink | EventRefresh => Key (ob_Device o) = key
  | EventResync | EventLoss => True
  end.

Inductive action :=
  | KernelChange (key : DeviceKey) (new : option Device) (kind : EventKind) (o : Observation) (overflow : bool)
  | SubFail | SubJoin | SubReady (rdma : bool) | SubDeliver | SubBreak | SubLose | SubEnd
  | ExecRead (key : DeviceKey) | ExecFinish (a : inventoryAnswer)
  | OwnerBefore (now : Z) | OwnerEvent (now : Z) | OwnerResult | OwnerAdvance (now : Stamp) (h : hooks).

(** An answer that tells what was read. *)
Definition reads_dump (seen : gmap DeviceKey Device) (l : list Observation) : Prop :=
  Forall (fun o => seen !! Key (ob_Device o) = Some (ob_Device o)) l /\ forall k d, seen !! k = Some d -> k ∈ (fun o => Key (ob_Device o)) <$> l.
Definition answers (q : inventoryRequest) (seen : gmap DeviceKey Device) (a : inventoryAnswer) : Prop :=
  match a with
  | AnswerError => True
  | AnswerGone => rq_query q = true /\ seen !! rq_key q = None
  | AnswerDump complete devices _ _ => rq_query q = false /\ (complete = true -> reads_dump seen devices)
  | AnswerQuery o _ => rq_query q = true /\ seen !! Key (ob_Device o) = Some (ob_Device o)
  end.
Definition record_ok (key : DeviceKey) (new : option Device) : Prop :=
  match new with None => True | Some d => Key d = key /\ dev_Token d = zero_Token end.
Definition set_row (key : DeviceKey) (new : option Device) (m : gmap DeviceKey Device) : gmap DeviceKey Device :=
  match new with None => delete key m | Some d => <[key := d]> m end.
Definition notified_of (kind : EventKind) (o : Observation) (overflow : bool) (x : subscription) : subscription :=
  match x with
  | Live ep socket lost n => if overflow then Live ep socket true n else Live ep (socket ++ [(kind, o)]) lost n
  | _ => x
  end.

(** The steps of a run; [None] is the end of the owner's loop with an error or
    in a panic, told apart by [halts]. *)
Inductive step (interval : Z) : action -> system -> res system -> Prop :=
  | step_kernel key new kind o overflow s :
      record_ok key new -> announces kind key new o ->
      step interval (KernelChange key new kind o overflow) s
        (ret (set_sub (sub_busy s) (notified_of kind o overflow (sub s)) (statuses s) (set_kernel (set_row key new (kernel s)) s)))
  | step_fail ep s : sub s = Subscribing ep ->
      step interval SubFail s (ret (set_sub (sub_busy s) NoSub (statuses s ++ [mkStatus ep false false]) (set_inbox (lose ep (inbox s)) s)))
  | step_join ep s : sub s = Subscribing ep ->
      step interval SubJoin s (ret (set_sub (sub_busy s) (Live ep [] false false) (statuses s) s))
  | step_ready rdma ep socket lost s : sub s = Live ep socket lost false ->
      step interval (SubReady rdma) s (ret (set_sub (sub_busy s) (Live ep socket lost true) (statuses s ++ [mkStatus ep true rdma]) s))
  | step_deliver ep kind o socket lost s : sub s = Live ep ((kind, o) :: socket) lost true ->
      step interval SubDeliver s
        (let '(ok, q) := push ep kind o (inbox s) in
         ret (set_sub (sub_busy s) (Live ep socket (lost || negb ok) true) (statuses s) (set_inbox q s)))
  | step_break ep socket socket' lost n s : sub s = Live ep socket lost n -> socket' `sublist_of` socket ->
      step interval SubBreak s (ret (set_sub (sub_busy s) (Live ep socket' true n) (statuses s) s))
  | step_lose ep socket lost s : sub s = Live ep socket lost true ->
      step interval SubLose s (ret (set_sub (sub_busy s) (Ending ep) (statuses s) (set_inbox (lose ep (inbox s)) s)))
  | step_end ep s : sub s = Ending ep ->
      step interval SubEnd s (ret (set_sub (sub_busy s) NoSub (statuses s ++ [mkStatus ep false false]) (set_inbox (lose ep (inbox s)) s)))
  | step_read key q seen s : exec s = Reading q seen ->
      step interval (ExecRead key) s (ret (set_exec (serial s) (busy s) (Reading q (set_row key (kernel s !! key) seen)) s))
  | step_finish a q seen s : exec s = Reading q seen -> answers q seen a ->
      step interval (ExecFinish a) s (ret (set_exec (serial s) (busy s) (Done (mkCompletion q a)) s))
  | step_before now s : step interval (OwnerBefore now) s (before now s)
  | step_event now e l s : events (inbox s) = e :: l ->
      step interval (OwnerEvent now) s
        (event now e (set_inbox (mkInbox l (in_epoch (inbox s)) (produced (inbox s)) (exhausted (inbox s))) s))
  | step_result c s : exec s = Done c -> step interval OwnerResult s (ret (result c s))
  | step_advance now h s : step interval (OwnerAdvance now h) s (advance interval now h s).

(** [newReconciler] over a new reducer. *)
Definition newReconciler (ns conf : Z) (k : gmap DeviceKey Device) : system :=
  mkSystem (newReducer ns conf) 0 0 (mkResync true None None 0 None false None []) (mkTimers 0 0 0 0 second second)
    false Idle (newEventInbox 1) false NoSub [] k.
Inductive reachable (interval : Z) : system -> Prop :=
  | reach_start ns conf k : map_Forall (fun key d => record_ok key (Some d)) k -> reachable interval (newReconciler ns conf k)
  | reach_step a s s' : reachable interval s -> step interval a s (ret s') -> reachable interval s'.
End owner.
