(* ===== verification/LinkInventory.v ===== *)
(** The inventory a reducer holds, as a map from identities to devices, and what
    each of the reducer's operations does to it ([LinkReducer]). *)

From stdpp Require Import gmap.
From S2P Require Import Prelude GoStrings LinkModel KeyIndex LinkReducer LinkReducerSpec.
From S2P Require Deadlines.

Definition inventory (r : reducer) (k : DeviceKey) : option Device := device <$> find_slot r k.

(** A device that shows what was observed: only the token differs, and an
    observation without a hardware id keeps the one that is known. *)
Definition shows (d o : Device) : Prop :=
  Key d = Key o /\ Name d = Name o /\ Up d = Up o /\ dev_Eligibility d = dev_Eligibility o /\ RDMA d = RDMA o /\
  (HardwareID o = "" \/ HardwareID d = HardwareID o).
(** The parts of the reducer an observation or a removal leaves alone. *)
Definition same_session (r r' : reducer) : Prop :=
  epoch r' = epoch r /\ resyncEpoch r' = resyncEpoch r /\ routeEvents r' = routeEvents r /\ lastResync r' = lastResync r /\
  namespace r' = namespace r.

Lemma same_session_refl r : same_session r r.
Proof. done. Qed.
Lemma same_session_trans r1 r2 r3 : same_session r1 r2 -> same_session r2 r3 -> same_session r1 r3.
Proof. intros (? & ? & ? & ? & ?) (? & ? & ? & ? & ?). unfold same_session. split_and!; congruence. Qed.

Lemma inventory_slots r r' : r_index r' = r_index r -> slots r' = slots r -> inventory r' = inventory r.
Proof. intros H1 H2. unfold inventory, find_slot. by rewrite H1, H2. Qed.
Lemma inventory_put r r1 i s s' : rinv r -> slots r !! i = Some s -> key_of s' = key_of s ->
  r_index r1 = r_index r -> slots r1 = slots r ->
  inventory (put i s' r1) (key_of s) = Some (device s') /\ forall k, k <> key_of s -> inventory (put i s' r1) k = inventory r k.
Proof.
  intros H Hi Hk Hx Hs. pose proof (indexes_at _ _ _ _ _ (ri_index _ H) Hi) as Hidx. pose proof (lookup_lt_Some _ _ _ Hi) as Hlt.
  unfold inventory, find_slot, put. cbn. rewrite Hx, Hs. split.
  - rewrite Hidx. cbn. by rewrite list_lookup_insert_eq.
  - intros k Hne. destruct (r_index r !! k) as [j|] eqn:Hj; [|done]. cbn. rewrite list_lookup_insert_ne; [done|].
    intros <-. destruct (indexes_Some _ _ _ _ _ (ri_index _ H) Hj) as (x & Hx' & Hkx). congruence.
Qed.

Lemma unaccount_frame s r : r_index (unaccount s r) = r_index r /\ slots (unaccount s r) = slots r /\ same_session r (unaccount s r).
Proof. done. Qed.
Lemma account_frame s r s' r' : account s r = (s', r') ->
  device s' = device s /\ r_index r' = r_index r /\ slots r' = slots r /\ same_session r r'.
Proof. by intros [= <- <-]. Qed.
Lemma cancel_all_frame l : forall r r', cancel_all l r = Some r' -> r_index r' = r_index r /\ slots r' = slots r /\ same_session r r'.
Proof.
  induction l as [|k l IH]; intros r r'; [by intros [= <-]|]. cbn [cancel_all]. unfold cancel.
  destruct (Deadlines.cancel _ _ _) as [q|]; [|done]. cbn. intros H. by destruct (IH _ _ H).
Qed.
Lemma inventory_elem r k d : rinv r -> inventory r k = Some d <-> exists s, s ∈ slots r /\ device s = d /\ Key d = k.
Proof.
  intros H. unfold inventory. split.
  - intros (s & Hs & ->)%fmap_Some. destruct (find_slot_Some r k s H Hs) as (i & Hi & <-). exists s.
    split_and!; [by eapply list_elem_of_lookup_2|done|done].
  - intros (s & Hs & <- & <-). apply list_elem_of_lookup_1 in Hs as (i & Hi). fold (key_of s). by rewrite (find_slot_at r i s H Hi).
Qed.

Lemma cut_perm {A} (l : list A) i last x y : l !! i = Some x -> l !! last = Some y -> length l = S last ->
  l ≡ₚ x :: take last (<[i := y]> l).
Proof.
  intros Hx Hy Hlen. pose proof (lookup_lt_Some _ _ _ Hx).
  assert (E : l = take last l ++ [y]) by (rewrite <- (take_S_r _ _ _ Hy); by rewrite firstn_all2 by lia).
  destruct (decide (i = last)) as [->|Hne].
  - replace x with y by congruence. rewrite list_insert_id by done. rewrite E at 1. by rewrite Permutation_app_comm.
  - rewrite take_insert_lt by lia. rewrite E at 1. set (m := take last l).
    assert (Hm : m !! i = Some x) by (unfold m; by rewrite lookup_take_lt by lia).
    rewrite (delete_Permutation m i x Hm) at 1. rewrite Permutation_app_comm. cbn.
    assert (Hi : <[i := y]> m !! i = Some y) by (apply list_lookup_insert_eq; by eapply lookup_lt_Some).
    rewrite (delete_Permutation _ i y Hi), !delete_take_drop, take_insert_ge, drop_insert_lt by lia. apply perm_swap.
Qed.

(** ** What an operation does

    [changes r k f r']: on success the entry of [k] satisfies [f], no other entry
    has changed, and neither has the session. *)

Definition changes (r : reducer) (k : DeviceKey) (f : option Device -> Prop) (r' : reducer) : Prop :=
  f (inventory r' k) /\ (forall k', k' <> k -> inventory r' k' = inventory r k') /\ same_session r r'.
Definition shown (o : Device) (x : option Device) : Prop := exists d, x = Some d /\ shows d o.

Lemma update_changes i s d obs r b r' : rinv r -> slots r !! i = Some s -> Key d = key_of s ->
  update_device i s d obs r = Some (inl b, r') -> changes r (Key d) (shown d) r'.
Proof.
  intros H Hi Hk. unfold update_device. set (replaced := bool_decide _).
  destruct (decide (replaced = false /\ d = device s)) as [[_ ->]|_].
  { intros [= <- <-]. set (g := if decide (observed s <> obs) then markDirty i r else r).
    assert (Hg : r_index g = r_index r /\ slots g = slots r /\ same_session r g) by (unfold g; by case_decide).
    clearbody g. destruct Hg as (G1 & G2 & G3). destruct (inventory_put r g i s (set_device (device s) obs s) H Hi eq_refl G1 G2) as [P1 P2].
    split_and!; [|exact P2|exact G3]. exists (device s). split; [exact P1|]. unfold shows. by repeat (split; [done|]); right. }
  case_decide; [done|]. destruct replaced.
  - unfold cancelDeviceDeadlines. destruct (cancel_all _ _) as [r0|] eqn:Ec; [|done].
    destruct (cancel_all_frame _ _ _ Ec) as (C1 & C2 & C3). cbn -[account unaccount]. destruct (account _ _) as [s' r1] eqn:Ha.
    destruct (account_frame _ _ _ _ Ha) as (A0 & A1 & A2 & A3). intros [= <- <-].
    assert (E : key_of s' = key_of s) by (unfold key_of in *; by rewrite A0).
    destruct (inventory_put r r1 i s s' H Hi E) as [P1 P2]; [by rewrite A1|by rewrite A2|]. rewrite Hk. split_and!; [|exact P2|].
    + eexists. split; [exact P1|]. rewrite A0. unfold shows. cbn. by repeat (split; [done|]); right.
    + eapply same_session_trans; [exact C3|exact A3].
  - cbn -[account unaccount]. destruct (account _ _) as [s' r1] eqn:Ha.
    destruct (account_frame _ _ _ _ Ha) as (A0 & A1 & A2 & A3). intros [= <- <-].
    assert (E : key_of s' = key_of s) by (unfold key_of in *; by rewrite A0).
    destruct (inventory_put r r1 i s s' H Hi E) as [P1 P2]; [by rewrite A1|by rewrite A2|]. rewrite Hk. split_and!; [|exact P2|exact A3].
    eexists. split; [exact P1|]. rewrite A0. unfold shows. cbn. by repeat (split; [done|]); right.
Qed.
Lemma observe_changes o r b r' : rinv r -> dev_Token (ob_Device o) = mkToken 0 0 (epoch r) 0 ->
  observe o r = Some (inl b, r') -> changes r (Key (ob_Device o)) (shown (ob_Device o)) r'.
Proof.
  intros H Ht. unfold observe. destruct (validKey _ r); cbn [negb]; [|done]. rewrite Ht. cbn [SourceEpoch Generation Revision].
  rewrite decide_False by (intros E; by apply E). destruct (r_index r !! Key (ob_Device o)) as [i|] eqn:Hi.
  - destruct (indexes_Some _ _ _ _ _ (ri_index _ H) Hi) as (s & Hs & Hk). rewrite Hs. cbn [mbind option_bind].
    unfold observationMatches. cbn [Generation Revision]. rewrite !bool_decide_true by auto. cbn [andb negb].
    set (d := if decide _ then _ else _). intros Hu. unfold key_of in Hk.
    assert (Hd : Key d = Key (ob_Device o) /\ shows d (ob_Device o)).
    { unfold d, shows. case_decide as Hh; cbn; (split; [done|]); repeat (split; [done|]); auto. }
    destruct Hd as [Hkd Hsd].
    apply (update_changes i s _ (Observed o) r b r' H Hs) in Hu as (Hf & Ho & Hss); [|cbn; by rewrite Hkd].
    cbn [Key set_token] in Hf, Ho. rewrite Hkd in Hf, Ho. split_and!; [|done|done].
    destruct Hf as (x & Hx & Hsh). exists x. split; [done|]. unfold shows in *. cbn in Hsh.
    destruct Hsh as (? & ? & ? & ? & ? & Hh1), Hsd as (? & ? & ? & ? & ? & Hh2). split_and!; try congruence.
    destruct Hh2 as [?|Hh2]; [by left|]. destruct Hh1 as [Hh1|Hh1]; [left; congruence|right; congruence].
  - rewrite decide_False by (intros []; done). unfold insert_device. case_decide; [done|].
    set (s := new_slot _ _ _). destruct (account s _) as [s' r1] eqn:Ha. destruct (account_frame _ _ _ _ Ha) as (A0 & A1 & A2 & A3).
    intros [= <- <-]. set (key := Key (ob_Device o)). set (n := length (slots r)).
    unfold changes, inventory, find_slot. cbn [r_index slots markDirty with_dirty with_slots]. rewrite A1, A2.
    cbn [r_index slots with_revisions]. split_and!.
    + rewrite lookup_insert_eq. cbn [mbind option_bind]. rewrite lookup_app_r by done. unfold n. rewrite Nat.sub_diag. cbn.
      eexists. split; [done|]. rewrite A0. unfold shows. cbn. by repeat (split; [done|]); right.
    + intros k Hne. rewrite lookup_insert_ne by done. destruct (r_index r !! k) as [j|] eqn:Hj; [|done]. cbn.
      destruct (indexes_Some _ _ _ _ _ (ri_index _ H) Hj) as (y & Hy & _). by rewrite lookup_app_l by (by eapply lookup_lt_Some).
    + exact A3.
Qed.

Lemma trim_frame shrink r : slots (trim shrink r) = slots r /\ same_session r (trim shrink r).
Proof. unfold trim. destruct (slots r) eqn:E; [done|]. destruct shrink; [|by rewrite E]. done. Qed.
Lemma remove_changes shrink key t r b r' : rinv r -> t = mkToken 0 0 (epoch r) 0 ->
  remove shrink key t r = Some (inl b, r') ->
  changes r key (fun x => x = None) r' /\ (length (slots r') <= length (slots r))%nat /\
  (is_Some (inventory r key) -> exists s, key_of s = key /\ slots r ≡ₚ s :: slots r') /\
  (forall i s, slots r !! i = Some s -> key_of s = key -> forall j, (j < i)%nat -> slots r' !! j = slots r !! j).
Proof.
  intros H -> Hrem. pose proof (remove_stepped shrink key (mkToken 0 0 (epoch r) 0) r H) as (a & r2 & E & H' & _).
  rewrite Hrem in E. injection E as <- <-. unfold remove in Hrem. destruct (r_index r !! key) as [i|] eqn:Hi.
  2: { injection Hrem as <- <-. assert (En : inventory r key = None) by (unfold inventory, find_slot; by rewrite Hi).
       split; [done|]. split; [lia|]. rewrite En. split; [by intros [? ?]|done]. }
  cbn [SourceEpoch] in Hrem. rewrite decide_False in Hrem by (intros E; by apply E).
  destruct (indexes_Some _ _ _ _ _ (ri_index _ H) Hi) as (s & Hs & Hk). rewrite Hs in Hrem. revert Hrem.
  cbn -[trim unaccount with_revisions cancelDeviceDeadlines]. case_decide as Hx; [done|].
  destruct (ri_bounds _ H) as [Bg Br]. pose proof (lookup_lt_Some _ _ _ Hs) as Hlt. unfold cancelDeviceDeadlines.
  destruct (cancel_all _ _) as [r0|] eqn:Ec; [|done]. destruct (cancel_all_frame _ _ _ Ec) as (C1 & C2 & C3). cbn [mbind option_bind].
  set (g := if decide (dev_Eligibility _ <> _) then _ else _).
  assert (G : r_index g = r_index r /\ slots g = slots r /\ same_session r g) by (unfold g; by case_decide).
  clearbody g. destruct G as (G1 & G2 & G3). cbn [slots markDirty with_dirty unaccount with_counts r_index]. rewrite G1, G2.
  set (last := (length (slots r) - 1)%nat). assert (Hlast : length (slots r) = S last) by lia.
  destruct (lookup_lt_is_Some_2 (slots r) last) as [sl Hsl]; [lia|]. rewrite Hsl. cbn [mbind option_bind].
  pose proof (cut_perm _ _ _ _ _ Hs Hsl Hlast) as Hp. set (l := take last (<[i:=sl]> (slots r))) in *.
  assert (Hl : exists idx, (if decide (i <> last) then (<[Key (device sl) := i]> (r_index r), <[i := sl]> (slots r))
                            else (r_index r, slots r)) = (idx, <[i := sl]> (slots r))).
  { destruct (decide (i = last)) as [->|Hne]; [rewrite decide_False by tauto; rewrite list_insert_id by done|rewrite decide_True by done]; eauto. }
  destruct Hl as [idx ->]. set (x := with_slots _ _ _). intros [= <- <-].
  assert (Ex : slots (trim shrink x) = l /\ same_session r (trim shrink x)).
  { destruct (trim_frame shrink x) as [-> T]. split; [done|]. eapply same_session_trans; [exact G3|exact T]. }
  destruct Ex as [Es Ess].
  assert (Hnd : NoDup (key_of <$> slots r)) by (eapply indexes_nodup, H). rewrite Hp in Hnd. cbn in Hnd.
  apply NoDup_cons in Hnd as [Hout _]. rewrite Hk in Hout.
  split; [split_and!; [| |done]|split_and!; [rewrite Es; apply Permutation_length in Hp; cbn in Hp; lia| |]].
  - destruct (inventory (trim shrink x) key) as [d|] eqn:E; [|done]. apply (inventory_elem _ _ _ H') in E as (y & Hy & <- & Hky).
    rewrite Es in Hy. destruct Hout. apply list_elem_of_fmap. exists y. by rewrite <- Hky.
  - intros k Hne. apply option_eq. intros d. rewrite (inventory_elem _ _ _ H'), (inventory_elem _ _ _ H), Es.
    split; intros (y & Hy & Hd & Hky); exists y; (split; [|done]); rewrite Hp in *; [by apply list_elem_of_further|].
    apply elem_of_cons in Hy as [->|Hy]; [|done]. unfold key_of in Hk. congruence.
  - intros _. exists s. by rewrite Es.
  - intros i' s' Hs' Hk' j Hj. pose proof (indexes_at _ _ _ _ _ (ri_index _ H) Hs') as Hi'. rewrite Hk' in Hi'.
    assert (i' = i) as -> by congruence. rewrite Es. unfold l. rewrite lookup_take_lt by lia. by rewrite list_lookup_insert_ne by lia.
Qed.

(** A device but for its token. *)
Definition same_record (d d' : Device) : Prop :=
  Key d' = Key d /\ Name d' = Name d /\ Up d' = Up d /\ dev_Eligibility d' = dev_Eligibility d /\ RDMA d' = RDMA d /\ HardwareID d' = HardwareID d.
Lemma same_record_shows d d' o : same_record d d' -> shows d o -> shows d' o.
Proof.
  intros (? & ? & ? & ? & ? & ?) (? & ? & ? & ? & ? & [?|?]); unfold shows; split_and!; try congruence; [by left|right; congruence].
Qed.
Definition kept (x x' : option Device) : Prop :=
  match x, x' with None, None => True | Some d, Some d' => same_record d d' | _, _ => False end.
Lemma kept_refl x : kept x x.
Proof. destruct x; [|done]. done. Qed.

Lemma refresh_changes key r b r' : rinv r -> refreshEvent key r = Some (inl b, r') ->
  changes r key (kept (inventory r key)) r'.
Proof.
  intros H. unfold refreshEvent. case_decide; [done|]. cbn [r_index with_revisions slots].
  destruct (r_index r !! key) as [i|] eqn:Hi.
  - destruct (indexes_Some _ _ _ _ _ (ri_index _ H) Hi) as (s & Hs & <-). rewrite Hs. cbn [mbind option_bind].
    match goal with |- Some (_, markDirty i (with_slots _ (<[i:=?s']> _) ?r1)) = _ -> _ =>
      intros [= <- <-]; destruct (inventory_put r r1 i s s' H Hs eq_refl eq_refl eq_refl) as [P1 P2] end.
    assert (Ek : inventory r (key_of s) = Some (device s)) by (unfold inventory; by rewrite (find_slot_at r i s H Hs)).
    split_and!; [|exact P2|done]. rewrite Ek. match goal with |- kept _ ?x => replace x with (Some (device (set_checks zero_checks
      (set_device (set_token (mkToken (Generation (dev_Token (device s))) (revision r + 1) (SourceEpoch (dev_Token (device s)))
         (Attempt (dev_Token (device s)))) (device s)) (observed s) s)))) by (symmetry; exact P1) end. done.
  - intros [= <- <-]. split_and!; [apply kept_refl|done|done].
Qed.

Lemma loseEvents_changes r r' : loseEvents r = (inl tt, r') ->
  (forall k, inventory r' k = inventory r k) /\ epoch r' = epoch r + 1 /\ resyncEpoch r' = resyncEpoch r /\ routeEvents r' = false.
Proof.
  unfold loseEvents. case_decide; [done|]. match goal with |- context[markDirty_all ?n ?x] => destruct (markDirty_all_grows n x) as [d ->] end.
  intros [= <-]. split_and!; [|done..]. intros k. unfold inventory, find_slot. cbn.
  destruct (r_index r !! k) as [i|]; [|done]. cbn. rewrite list_lookup_fmap. by destruct (slots r !! i).
Qed.
Lemma recordResync_changes t now r r' : recordResync t now r = Some (true, r') ->
  inventory r' = inventory r /\ epoch r' = epoch r /\ resyncEpoch r' = epoch r /\ routeEvents r' = routeEvents r.
Proof.
  unfold recordResync. case_decide; [done|]. unfold cancel. destruct (Deadlines.cancel _ _ _) as [q|]; [|done]. cbn -[Deadlines.set Deadlines.deadlineAfter].
  case_decide; [|by intros [= <-]]. destruct (Deadlines.set _ _) as [q'|]; [|done]. by intros [= <-].
Qed.
Lemma with_deadlines_rinv q r : rinv r -> Deadlines.wf q -> rinv (with_deadlines q r).
Proof. intros [I C S T K B D] Hq. by split. Qed.
Lemma with_events_rinv a b r : rinv r -> rinv (with_events a b r).
Proof. intros H. destruct (with_events_stepped a b r H) as [G C]. by eapply grows_rinv. Qed.

(** ** What an operation costs

    One revision at most, and a generation at most for an observation; it fails
    only when one of them is exhausted, or on an invalid identity. *)

Definition same_counters (r r' : reducer) : Prop := revision r' = revision r /\ generation r' = generation r.
Lemma cancel_all_counters l : forall r r', cancel_all l r = Some r' -> same_counters r r'.
Proof.
  induction l as [|k l IH]; intros r r'; [by intros [= <-]|]. cbn [cancel_all]. unfold cancel.
  destruct (Deadlines.cancel _ _ _) as [q|]; [|done]. cbn. intros H. exact (IH _ _ H).
Qed.
Lemma trim_counters b r : same_counters r (trim b r).
Proof. unfold trim. destruct (slots r); [done|]. by destruct b. Qed.

Definition costs {A} (g : Z) (r : reducer) (o : go ((A + red_err) * reducer)) : Prop :=
  match o with
  | Some (inl _, r') => revision r <= revision r' <= revision r + 1 /\ generation r <= generation r' <= generation r + g
  | Some (inr ErrSequenceExhausted, r') => revision r = MaxUint64 \/ 0 < g /\ generation r = MaxUint64
  | _ => True
  end.
Ltac spent := cbn -[Z.le MaxUint64] in *; lia.

Lemma update_costs i s d obs r : costs 1 r (update_device i s d obs r).
Proof.
  unfold update_device. set (replaced := bool_decide _). case_decide; [case_decide; spent|]. case_decide as Hx; [cbn; lia|]. destruct replaced.
  - unfold cancelDeviceDeadlines. destruct (cancel_all _ _) as [r1|] eqn:E; [|done]. destruct (cancel_all_counters _ _ _ E) as [E1 E2].
    cbn -[account unaccount Z.le]. unfold account. spent.
  - cbn -[Z.le]. lia.
Qed.
Lemma observe_costs o r : costs 1 r (observe o r).
Proof.
  unfold observe. destruct (negb _); [done|]. case_decide; [spent|]. destruct (r_index r !! _) as [i|].
  - destruct (slots r !! i); [|done]. cbn [mbind option_bind]. destruct (negb _); [spent|]. apply update_costs.
  - case_decide; [spent|]. unfold insert_device. case_decide as Hx; [cbn; lia|]. spent.
Qed.
Lemma remove_costs shrink key t r : costs 0 r (remove shrink key t r).
Proof.
  unfold remove. destruct (r_index r !! key) as [i|]; [|spent]. case_decide; [spent|]. destruct (slots r !! i) as [s|]; [|done].
  cbn -[trim unaccount with_revisions cancelDeviceDeadlines observationMatches costs]. destruct (negb _); [spent|].
  case_decide as Hx; [by left|]. unfold cancelDeviceDeadlines. destruct (cancel_all _ _) as [r1|] eqn:E; [|done].
  destruct (cancel_all_counters _ _ _ E) as [E1 E2]. cbn -[trim unaccount with_revisions costs].
  set (g := if decide (dev_Eligibility _ <> _) then _ else _).
  assert (G : same_counters r1 g) by (unfold g; by case_decide). destruct G as [G1 G2]. clearbody g.
  cbn -[trim costs MaxUint64]. destruct (slots g !! _) as [sl|]; [|done]. cbn -[trim costs]. case_decide.
  all: match goal with |- costs _ _ (Some (_, trim ?b ?x)) => destruct (trim_counters b x) as [T1 T2] end; cbn -[trim Z.le MaxUint64] in *; lia.
Qed.
Lemma refresh_costs key r : costs 0 r (refreshEvent key r).
Proof.
  unfold refreshEvent. case_decide; [by left|]. cbn -[with_revisions costs]. destruct (r_index _ !! _) as [i|]; [|spent].
  destruct (slots _ !! _); [|done]. spent.
Qed.
