(* ===== verification/ReconcilerSpec.v ===== *)
(** Specifications of [Reconciler]: under every interleaving of the kernel, the
    event reader, the inventory executor and the owner, the inventory is the
    kernel's table wherever nothing is under way. *)

From stdpp Require Import gmap.
From S2P Require Import Prelude GoStrings LinkModel KeyIndex LinkReducer LinkReducerSpec LinkInventory Reconciler.
From S2P Require Deadlines.

#[local] Open Scope rec_scope.

Lemma known_device_inventory r k : rinv r -> known_device r k = Some (inventory r k).
Proof.
  intros H. unfold known_device, inventory, find_slot. destruct (r_index r !! k) as [i|] eqn:Hi; [|done].
  destruct (indexes_Some _ _ _ _ _ (ri_index _ H) Hi) as (s & Hs & _). cbn. by rewrite Hs.
Qed.

Lemma lift_inl {A} (o : go ((A + red_err) * reducer)) a r : lift o = ret (a, r) -> o = Some (inl a, r).
Proof. destruct o as [[[x|[]] y]|]; cbn; try done. by intros [= -> ->]. Qed.
Lemma validKey_session r r' k : same_session r r' -> validKey k r' = validKey k r.
Proof. intros (_ & _ & _ & _ & En). unfold validKey. by rewrite En. Qed.

(** An operation of the reducer either succeeds, or a sequence is exhausted. *)
Definition applies (g : Z) (r : reducer) (m : res (bool * reducer)) (key : DeviceKey) (f : option Device -> Prop) : Prop :=
  match m with
  | Some (inl (_, r')) => rinv r' /\ changes r key f r' /\ revision r' <= revision r + 1 /\ generation r' <= generation r + g
  | Some (inr e) => e = ErrSequence /\ (revision r = MaxUint64 \/ 0 < g /\ generation r = MaxUint64)
  | None => False
  end.
Lemma stepped_applies g r (o : go ((bool + red_err) * reducer)) key f : stepped r o -> costs g r o ->
  (forall b r', o = Some (inl b, r') -> changes r key f r') ->
  (forall r', o <> Some (inr ErrInvalidIdentity, r')) -> applies g r (lift o) key f.
Proof.
  intros ([b|[]] & r' & -> & Hr' & _) Hg Hc Hi; cbn in *; [|by edestruct Hi|done]. split_and!; [done|by eapply Hc|lia..].
Qed.
Lemma update_invalid i s d obs r r' : update_device i s d obs r <> Some (inr ErrInvalidIdentity, r').
Proof.
  unfold update_device. set (replaced := bool_decide _). case_decide; [done|]. case_decide; [done|]. destruct replaced.
  - destruct (cancelDeviceDeadlines _ _); cbn -[account unaccount]; [|done]. by destruct (account _ _).
  - cbn -[account unaccount]. by destruct (account _ _).
Qed.
Lemma observe_applies o r : rinv r -> validKey (Key (ob_Device o)) r = true -> dev_Token (ob_Device o) = source_token (epoch r) ->
  applies 1 r (lift (observe o r)) (Key (ob_Device o)) (shown (ob_Device o)).
Proof.
  intros H Hv Ht. apply stepped_applies; [by apply observe_stepped|apply observe_costs|intros b r'; by apply observe_changes|].
  intros r'. unfold observe. rewrite Hv. cbn [negb]. case_decide; [done|]. destruct (r_index r !! _) as [i|] eqn:Hi.
  - destruct (indexes_Some _ _ _ _ _ (ri_index _ H) Hi) as (s & Hs & _). rewrite Hs. cbn [mbind option_bind]. case_match; [done|].
    apply update_invalid.
  - case_decide; [done|]. unfold insert_device. case_decide; [done|]. by destruct (account _ _).
Qed.
Lemma remove_applies shrink key t r : rinv r -> t = source_token (epoch r) ->
  applies 0 r (lift (remove shrink key t r)) key (fun x => x = None).
Proof.
  intros H Ht. apply stepped_applies; [by apply remove_stepped|apply remove_costs|intros b r' E; by eapply remove_changes in E as [? _]|].
  intros r'. unfold remove. destruct (r_index r !! key) as [i|]; [|done]. case_decide; [done|]. destruct (slots r !! i); [|done].
  cbn -[trim unaccount with_revisions cancelDeviceDeadlines observationMatches].
  destruct (negb _); [done|]. case_decide; [done|].
  destruct (cancelDeviceDeadlines _ _) as [r1|]; [|done]. cbn -[trim unaccount with_revisions]. destruct (slots _ !! _); [|done].
  cbn -[trim unaccount with_revisions]. by case_decide.
Qed.
Lemma refresh_applies key r : rinv r -> applies 0 r (lift (refreshEvent key r)) key (kept (inventory r key)).
Proof.
  intros H. apply stepped_applies; [by apply refresh_stepped|apply refresh_costs|intros b r'; by apply refresh_changes|].
  intros r'. unfold refreshEvent. case_decide; [done|]. cbn -[with_revisions].
  destruct (r_index _ !! _) as [i|]; [|done]. by destruct (slots _ !! _).
Qed.

(** ** The commit *)

Definition keyed (r : reducer) (l : list (DeviceKey * Observation)) : Prop :=
  NoDup l.*1 /\ Forall (fun p => Key (ob_Device p.2) = p.1 /\ validKey p.1 r = true) l.
Lemma commit_observe_spec l : forall r, rinv r -> keyed r l ->
  match commit_observe l r with
  | Some (inl r') => rinv r' /\ same_session r r' /\
      (forall k o, (k, o) ∈ l -> shown (ob_Device o) (inventory r' k)) /\ (forall k, k ∉ l.*1 -> inventory r' k = inventory r k) /\
      revision r' <= revision r + glen l
  | Some (inr e) => e = ErrSequence /\ (MaxUint64 < revision r + glen l \/ MaxUint64 < generation r + glen l)
  | None => False
  end.
Proof.
  induction l as [|[k o] l IH]; intros r H [Hnd Hk]; cbn [commit_observe].
  - cbn [ret]. split_and!; [done|done| |done|unfold glen; cbn; lia]. intros k o Hin%not_elem_of_nil. done.
  - cbn in Hnd. apply NoDup_cons in Hnd as [Hout Hnd]. apply Forall_cons in Hk as [[Hk0 Hv] Hk]. cbn in Hk0, Hv.
    rewrite glen_cons. pose proof (glen_nonneg l) as Hl0. pose proof (observe_applies (set_source (epoch r) o) r H) as Ha.
    change (Key (ob_Device (set_source (epoch r) o))) with (Key (ob_Device o)) in Ha. rewrite Hk0 in Ha. specialize (Ha Hv eq_refl).
    destruct (lift _) as [[[b r1]|e]|]; cbn [rbind] in *; [| |done].
    + destruct Ha as (H1 & (Hf & Ho & Hss) & Hrev & Hgen). cbn [snd].
      assert (Hk1 : keyed r1 l).
      { split; [done|]. eapply Forall_impl; [exact Hk|]. cbn. intros p [? ?]. split; [done|]. by rewrite (validKey_session r r1). }
      specialize (IH r1 H1 Hk1). destruct (commit_observe l r1) as [[r'|e]|]; [| |done].
      * destruct IH as (H' & Hss' & Hin & Hout' & Hrev'). split_and!; [done|by eapply same_session_trans| | |lia].
        -- intros k' o' [[= -> ->]|Hin']%elem_of_cons; [|by apply Hin]. rewrite Hout' by done. exact Hf.
        -- intros k' Hk'. cbn in Hk'. apply not_elem_of_cons in Hk' as [Hne Hk']. rewrite Hout' by done. by apply Ho.
      * destruct IH as [-> IH]. split; [done|]. lia.
    + destruct Ha as [-> Ha]. split; [done|]. lia.
Qed.

Section commit.
Context (shrink : reducer -> bool) (c : gmap DeviceKey Observation).

(** The devices that are to be removed. *)
Definition absent (r : reducer) : list deviceSlot := filter (fun s => c !! key_of s = None) (slots r).
Lemma absent_cons r r' s : slots r ≡ₚ s :: slots r' -> c !! key_of s = None -> glen (absent r) = glen (absent r') + 1.
Proof.
  intros Hp Hs. unfold absent, glen. rewrite Hp. rewrite filter_cons_True by done. cbn [length]. lia.
Qed.
Lemma commit_remove_spec fuel : forall i r, rinv r -> (length (slots r) - i <= fuel)%nat ->
  (forall j s, (j < i)%nat -> slots r !! j = Some s -> is_Some (c !! key_of s)) ->
  match commit_remove shrink fuel i c r with
  | Some (inl r') => rinv r' /\ same_session r r' /\ (forall k, inventory r' k = if decide (is_Some (c !! k)) then inventory r k else None)
  | Some (inr e) => e = ErrSequence /\ MaxUint64 < revision r + glen (absent r)
  | None => False
  end.
Proof.
  induction fuel as [|fuel IH]; intros i r H Hf Hpre; cbn [commit_remove]; destruct (slots r !! i) as [s|] eqn:Hs.
  1: { apply lookup_lt_Some in Hs. lia. }
  1,3: cbn [ret]; split_and!; [done|done|]; intros k; case_decide as Hc; [done|];
    destruct (inventory r k) as [d|] eqn:E; [|done]; apply (inventory_elem _ _ _ H) in E as (s & Hin & <- & <-);
    apply list_elem_of_lookup_1 in Hin as [j Hj]; destruct Hc; apply (Hpre j); [|done];
    apply lookup_ge_None in Hs; apply lookup_lt_Some in Hj; lia.
  pose proof (lookup_lt_Some _ _ _ Hs) as Hlt. case_decide as Hc.
  - apply IH; [done|lia|]. intros j x Hj Hx. destruct (decide (j = i)) as [->|]; [|by apply (Hpre j); [lia|]].
    rewrite Hs in Hx. injection Hx as <-. exact Hc.
  - fold (key_of s) in *. apply eq_None_not_Some in Hc.
    pose proof (remove_applies (shrink r) (key_of s) (source_token (epoch r)) r H eq_refl) as Ha.
    assert (Hin : inventory r (key_of s) = Some (device s)).
    { apply (inventory_elem _ _ _ H). exists s. split; [by eapply list_elem_of_lookup_2|done]. }
    destruct (lift _) as [[[b r1]|e]|] eqn:E; cbn [rbind] in *; [| |done].
    + apply lift_inl in E. destruct (remove_changes _ _ _ _ _ _ H eq_refl E) as ((_ & Ho & Hss) & _ & Hlen & Hpfx).
      destruct Ha as (H1 & _ & Hrev & _). cbn [snd]. destruct (Hlen ltac:(rewrite Hin; by eexists)) as (s' & Hs' & Hp).
      rewrite (absent_cons r r1 s' Hp) by (by rewrite Hs'). pose proof (Permutation_length Hp) as Hl. cbn in Hl.
      assert (Hpre1 : forall j x, (j < i)%nat -> slots r1 !! j = Some x -> is_Some (c !! key_of x)).
      { intros j x Hj Hx. rewrite (Hpfx i s Hs eq_refl j Hj) in Hx. by apply (Hpre j). }
      specialize (IH i r1 H1 ltac:(lia) Hpre1). destruct (commit_remove _ _ _ _ _) as [[r'|e]|]; [| |done].
      * destruct IH as (H' & Hss' & Hinv). split_and!; [done|by eapply same_session_trans|].
        intros k. rewrite Hinv. case_decide as Hk; [|done]. apply Ho. intros ->. rewrite Hc in Hk. by destruct Hk.
      * destruct IH as [-> IH]. split; [done|]. lia.
    + destruct Ha as [-> Ha]. split; [done|]. assert (0 < glen (absent r)); [|lia]. unfold glen, absent.
      assert (Hel : s ∈ filter (fun s => c !! key_of s = None) (slots r)) by (apply list_elem_of_filter; split; [done|by eapply list_elem_of_lookup_2]).
      destruct (filter _ _); [by apply not_elem_of_nil in Hel|]. cbn [length]. lia.
Qed.
End commit.

(** ** What is under way

    An announcement on its way to the owner, without its token, and the devices
    it may be about. *)

Definition norm (p : EventKind * Observation) : EventKind * Device := (p.1, set_token zero_Token (ob_Device p.2)).
Definition touches (k : DeviceKey) (p : EventKind * Device) : Prop := p.1 = EventResync \/ p.1 = EventLoss \/ Key p.2 = k.
Definition inbox_events (ep : Z) (q : eventInbox) : list (EventKind * Device) :=
  (fun e => norm (ev_Kind e, ev_Observation e)) <$> filter (fun e => ev_epoch e = ep) (events q).
Definition socket_events (ep : Z) (x : subscription) : list (EventKind * Device) :=
  match x with Live ep' socket _ _ => if decide (ep' = ep) then norm <$> socket else [] | _ => [] end.
Definition undelivered (ep : Z) (q : eventInbox) (x : subscription) : list (EventKind * Device) := inbox_events ep q ++ socket_events ep x.

(** No loss is on its way to the owner; the subscription is joined; and nothing
    was dropped from it. *)
Definition alive (ep : Z) (q : eventInbox) : Prop := in_epoch q = ep /\ exhausted q = false.
Definition live (ep : Z) (x : subscription) : Prop := exists socket lost n, x = Live ep socket lost n.
Definition current (ep : Z) (q : eventInbox) (x : subscription) : Prop := alive ep q /\ exists socket n, x = Live ep socket false n.
(** Nothing about a device is under way. *)
Definition quiet (ep : Z) (q : eventInbox) (x : subscription) (k : DeviceKey) : Prop :=
  current ep q x /\ Forall (fun p => ~ touches k p) (undelivered ep q x).
(** The last announcement of a device's record is its record. *)
Definition last_told (K : gmap DeviceKey Device) (u : list (EventKind * Device)) : Prop :=
  forall pre d post, u = pre ++ (EventChange, d) :: post -> Forall (fun p => ~ touches (Key d) p) post -> K !! Key d = Some d.

(** ** The invariant *)

Record world (ep : Z) (route : bool) (q : eventInbox) (b : bool) (x : subscription) (l : list subscriptionStatus)
    (K : gmap DeviceKey Device) (proc : Z) : Prop := {
  w_epoch : in_epoch q = ep \/ in_epoch q = ep + 1;
  w_kernel : map_Forall (fun k d => record_ok k (Some d)) K;
  w_events : Forall (fun e => ev_epoch e <= ep /\ dev_Token (ev_device e) = source_token (ev_epoch e)) (events q);
  w_sub : match x with
          | NoSub => True
          | Subscribing e | Live e _ _ _ | Ending e => e <= ep /\ b = true /\ Forall (fun st => st_ready st = true) l
          end;
  w_free : b = false -> Forall (fun st => st_ready st = true) l;
  w_one : (length (filter (fun st => st_ready st = false) l) <= 1)%nat;
  w_statuses : Forall (fun st => st_epoch st <= ep) l;
  w_idle : alive ep q -> ~ live ep x ->
    route = false /\ Forall (fun st => st_ready st = true -> st_epoch st <> ep) l /\ Forall (fun e => ev_epoch e <> ep) (events q);
  w_seq : Sequence <$> events q = seqZ (proc + 1) (produced q - proc) /\ proc <= produced q;
  w_last : current ep q x -> last_told K (undelivered ep q x) }.

Record shape (r : reducer) (proc : Z) (i : resync) (b : bool) (ex : executor) : Prop := {
  s_none : dirty i = None -> request i = None /\ candidate i = None /\ queries i = [];
  s_started : dirty i <> None -> request i = None -> is_Some (candidate i);
  s_request : forall rq, request i = Some rq ->
    SourceEpoch (rq_token rq) = epoch r /\ rq_version rq <= proc /\ if rq_query rq then is_Some (candidate i) else candidate i = None;
  s_waiting : forall c, waiting i = Some c -> request i = Some (cp_request c);
  s_exec : forall rq, request i = Some rq -> waiting i = None ->
    b = true /\ ((exists seen, ex = Reading rq seen) \/ exists a, ex = Done (mkCompletion rq a));
  s_busy : b = false -> ex = Idle;
  s_settled : is_Some (waiting i) -> b = false;
  s_versions : forall d k v f, dirty i = Some d -> d !! k = Some (v, f) -> v <= proc;
  s_queries : forall d, dirty i = Some d -> NoDup (queries i) /\ forall k, k ∈ queries i <-> exists v, d !! k = Some (v, true);
  s_candidate : forall c, candidate i = Some c -> map_Forall (fun k o => Key (ob_Device o) = k /\ validKey k r = true) c;
  s_proc : 0 <= proc }.

(** What an answer tells of a device. *)
Definition dump_row (l : list Observation) (k : DeviceKey) : option Device :=
  ob_Device <$> head (filter (fun o => Key (ob_Device o) = k) l).
Definition learned_answer (a : inventoryAnswer) (k : DeviceKey) : option (option Device) :=
  match a with
  | AnswerDump true l _ _ => Some (dump_row l k)
  | AnswerGone => Some None
  | AnswerQuery o _ => if decide (Key (ob_Device o) = k) then Some (Some (ob_Device o)) else None
  | _ => None
  end.
(** What the request under way has learned of a device. *)
Definition learned (i : resync) (ex : executor) (k : DeviceKey) : option (option Device) :=
  match waiting i with
  | Some c => learned_answer (cp_answer c) k
  | None =>
      match ex with
      | Idle => None
      | Reading _ seen => Some (seen !! k)
      | Done c => learned_answer (cp_answer c) k
      end
  end.
Definition clean (i : resync) (k : DeviceKey) : Prop := match dirty i with None => True | Some d => d !! k = None end.
(** What the request was made for. *)
Definition relevant (i : resync) (rq : inventoryRequest) (k : DeviceKey) : Prop :=
  if rq_query rq then k = rq_key rq /\ exists d f, dirty i = Some d /\ d !! k = Some (rq_version rq, f) else clean i k.
(** The inventory agrees with the kernel's record. *)
Definition agrees (x y : option Device) : Prop :=
  match x, y with None, None => True | Some d, Some d' => shows d d' | _, _ => False end.

(** [X] is where the data need not be right yet. *)
Record told (r : reducer) (q : eventInbox) (x : subscription) (K : gmap DeviceKey Device) (i : resync) (ex : executor)
    (X : DeviceKey -> Prop) : Prop := {
  t_learned : forall rq k v, request i = Some rq -> ~ X k -> quiet (epoch r) q x k -> relevant i rq k -> learned i ex k = Some v -> v = K !! k;
  t_candidate : forall c k, candidate i = Some c -> ~ X k -> quiet (epoch r) q x k -> clean i k -> ob_Device <$> c !! k = K !! k;
  t_synced : forall k, resyncEpoch r = epoch r -> pending i = false -> dirty i = None -> ~ X k -> quiet (epoch r) q x k ->
    agrees (inventory r k) (K !! k);
  t_idle : alive (epoch r) q -> ~ live (epoch r) x -> request i = None /\ candidate i = None /\ resyncEpoch r <> epoch r;
  t_resync : resyncEpoch r <= epoch r;
  t_queried : forall d k v, dirty i = Some d -> ~ X k -> d !! k = Some (v, false) ->
    exists rq, request i = Some rq /\ rq_query rq = true /\ rq_key rq = k }.

Definition world_of (s : system) : Prop :=
  world (epoch (red s)) (routeEvents (red s)) (inbox s) (sub_busy s) (sub s) (statuses s) (kernel s) (processed s).
Definition shape_of (s : system) : Prop := shape (red s) (processed s) (inv s) (busy s) (exec s).
Definition told_of (X : DeviceKey -> Prop) (s : system) : Prop := told (red s) (inbox s) (sub s) (kernel s) (inv s) (exec s) X.
Record good (X : DeviceKey -> Prop) (s : system) : Prop := {
  g_rinv : rinv (red s); g_world : world_of s; g_shape : shape_of s; g_told : told_of X s }.
Definition nowhere (k : DeviceKey) : Prop := False.

(** The fields of an updated system. *)
Ltac fields := unfold world_of, shape_of, told_of, abort in *;
  cbn [red processed serial inv tim busy exec inbox sub_busy sub statuses kernel set_red set_processed set_inv set_tim set_exec set_inbox
       set_sub set_kernel] in *.

(** ** Steps of the others *)

Lemma lose_alive ep e q : in_epoch q = ep \/ in_epoch q = ep + 1 -> alive ep (lose e q) -> lose e q = q /\ e <> ep.
Proof.
  unfold lose, alive. intros Hq. repeat case_decide; subst; cbn; intros [H1 H2]; try (exfalso; lia || congruence);
    (split; [done|]); intros Heq; lia || congruence.
Qed.
Lemma lose_epoch ep e q : e <= ep -> in_epoch q = ep \/ in_epoch q = ep + 1 -> in_epoch (lose e q) = ep \/ in_epoch (lose e q) = ep + 1.
Proof. unfold lose. intros He Hq. repeat case_decide; cbn; lia. Qed.
Lemma lose_same e q : events (lose e q) = events q /\ produced (lose e q) = produced q.
Proof. unfold lose. by repeat case_decide. Qed.

(** A change that leaves the owner alone, and makes nothing quiet that was not. *)
Lemma told_mono r q q' x x' K K' i ex X :
  told r q x K i ex X ->
  (forall k, quiet (epoch r) q' x' k -> quiet (epoch r) q x k /\ K' !! k = K !! k) ->
  (alive (epoch r) q' -> ~ live (epoch r) x' -> alive (epoch r) q /\ ~ live (epoch r) x) ->
  told r q' x' K' i ex X.
Proof.
  intros [T1 T2 T3 T4 T5 TQ] Hq Ha. split; [| | | |done|done].
  - intros rq k v Hr HX Hk Hrel Hl. destruct (Hq k Hk) as [Hk' ->]. by eapply T1.
  - intros c k Hc HX Hk Hcl. destruct (Hq k Hk) as [Hk' ->]. by apply T2.
  - intros k H1 H2 H3 HX Hk. destruct (Hq k Hk) as [Hk' ->]. by apply T3.
  - intros H1 H2. destruct (Ha H1 H2). by apply T4.
Qed.

(** A device's record changes together with an announcement of it. *)
Lemma last_told_change K u p key new : last_told K u -> touches key p -> record_ok key new ->
  (p.1 = EventChange -> new = Some p.2) -> last_told (set_row key new K) (u ++ [p]).
Proof.
  intros Hl Ht Hok Hp pre d post E Hpost. destruct post as [|y post _] using rev_ind.
  - apply app_inj_tail in E as [_ ->]. cbn in Hp. specialize (Hp eq_refl) as ->. destruct Hok as [<- _]. cbn. by rewrite lookup_insert_eq.
  - rewrite app_comm_cons, app_assoc in E. apply app_inj_tail in E as [E ->]. apply Forall_app in Hpost as [Hpost Hy].
    apply Forall_cons in Hy as [Hy _]. assert (Hne : key <> Key d) by (intros Heq; apply Hy; by rewrite <- Heq).
    assert (Hrow : set_row key new K !! Key d = K !! Key d).
    { destruct new; cbn; [by rewrite lookup_insert_ne|by rewrite lookup_delete_ne]. }
    rewrite Hrow. by eapply Hl.
Qed.

Lemma announced_touches kind key new o : announces kind key new o -> record_ok key new -> touches key (norm (kind, o)).
Proof.
  intros Ha Hok. unfold touches, norm. cbn. destruct kind; cbn in Ha; auto.
  - destruct Ha as (d & -> & <-). destruct Hok as [<- _]. auto.
  - destruct Ha as [_ <-]. auto.
Qed.
Lemma norm_announced kind key new o : announces kind key new o -> record_ok key new -> kind = EventChange -> new = Some (norm (kind, o)).2.
Proof.
  intros Ha Hok ->. destruct Ha as (d & -> & <-). destruct Hok as [_ Ht]. unfold norm. cbn [fst snd]. f_equal.
  destruct (ob_Device o). cbn in *. by subst.
Qed.

Lemma kernel_quiet ep q x kind o overflow key k : touches key (norm (kind, o)) ->
  quiet ep q (notified_of kind o overflow x) k -> quiet ep q x k /\ k <> key.
Proof.
  intros Ht [[Ha (socket & n & Hx)] Hu]. destruct x as [|e|e sk lost n'|e]; try done. cbn in Hx, Hu.
  destruct overflow; [done|]. injection Hx as -> <- -> ->. cbn [undelivered socket_events] in Hu.
  unfold undelivered in Hu. cbn [socket_events] in Hu. rewrite decide_True in Hu by done. rewrite fmap_app, app_assoc in Hu.
  apply Forall_app in Hu as [Hu Hp]. apply Forall_cons in Hp as [Hp _]. split.
  - split; [split; [done|by eexists _, _]|]. unfold undelivered. cbn. by rewrite decide_True.
  - intros ->. done.
Qed.

Lemma world_kernel ep route q b x l K proc key new kind o overflow :
  world ep route q b x l K proc -> record_ok key new -> announces kind key new o ->
  world ep route q b (notified_of kind o overflow x) l (set_row key new K) proc.
Proof.
  intros [E Kr Ev Sb Fr On St Id Sq La] Hok Ha. split; try done.
  - intros k d Hk. destruct new as [d'|]; cbn in Hk.
    + apply lookup_insert_Some in Hk as [[<- <-]|[_ Hk]]; [done|by apply Kr].
    + apply lookup_delete_Some in Hk as [_ Hk]. by apply Kr.
  - destruct x; try done. cbn. by destruct overflow.
  - intros Hal Hl. apply Id; [done|]. intros (sk & lost & n & ->). apply Hl. cbn. destruct overflow; by eexists _, _, _.
  - intros [Hal (socket & n & Hx)]. destruct x as [|e|e sk lost n'|e]; try done. cbn in Hx. destruct overflow; [done|].
    injection Hx as -> <- -> ->. unfold undelivered. cbn [socket_events notified_of]. rewrite decide_True by done.
    rewrite fmap_app, app_assoc. apply last_told_change.
    + specialize (La (conj Hal (ex_intro _ _ (ex_intro _ _ eq_refl)))). unfold undelivered in La. cbn in La. by rewrite decide_True in La.
    + by eapply announced_touches.
    + done.
    + intros Hk. by eapply norm_announced.
Qed.

Definition sub_epoch (x : subscription) : option Z :=
  match x with NoSub => None | Subscribing e | Live e _ _ _ | Ending e => Some e end.
Lemma not_live_epoch ep x e : sub_epoch x = Some e -> e <> ep -> ~ live ep x.
Proof. intros Hx Hne (sk & lost & n & ->). cbn in Hx. congruence. Qed.
Lemma not_current ep q x : ~ live ep x -> ~ current ep q x.
Proof. intros Hl [_ (sk & n & ->)]. apply Hl. by eexists _, _, _. Qed.

(** The subscription ends, or is being closed, with the loss of its epoch. *)
Lemma world_lose ep route q b x l K proc e (ended : bool) : world ep route q b x l K proc -> sub_epoch x = Some e ->
  world ep route (lose e q) b (if ended then NoSub else Ending e) (if ended then l ++ [mkStatus e false false] else l) K proc.
Proof.
  intros [E Kr Ev Sb Fr On St Id Sq La] Hx. destruct (lose_same e q) as [Le Lp].
  assert (Hb : e <= ep /\ b = true /\ Forall (fun st => st_ready st = true) l) by (destruct x; cbn in Hx; simplify_eq; done).
  destruct Hb as (He & -> & Hl). split; rewrite ?Le, ?Lp; try done.
  - by apply lose_epoch.
  - by destruct ended.
  - destruct ended; [|done]. rewrite filter_app, filter_cons_True, filter_nil, length_app by done. cbn [length].
    assert (filter (fun st => st_ready st = false) l = []) as ->; [|cbn [length]; lia].
    clear -Hl. induction Hl as [|st l Hst Hl IH]; [done|]. rewrite filter_cons_False by congruence. done.
  - destruct ended; [|done]. apply Forall_app. split; [done|]. by apply Forall_singleton.
  - intros Ha _. destruct (lose_alive _ _ _ E Ha) as [Eq Hne]. rewrite Eq in Ha.
    destruct (Id Ha (not_live_epoch _ _ _ Hx Hne)) as (I1 & I2 & I3). split_and!; [done| |done]. destruct ended; [|done].
    apply Forall_app. split; [done|]. by apply Forall_singleton.
  - intros Hc. destruct ended; destruct Hc as [_ (? & ? & ?)]; done.
Qed.
Lemma told_lose r q x K i ex X e (ended : bool) : in_epoch q = epoch r \/ in_epoch q = epoch r + 1 -> sub_epoch x = Some e ->
  told r q x K i ex X -> told r (lose e q) (if ended then NoSub else Ending e) K i ex X.
Proof.
  intros E Hx T. eapply told_mono; [exact T| |].
  - intros k [Hc _]. exfalso. destruct ended; destruct Hc as [_ (? & ? & ?)]; done.
  - intros Ha _. destruct (lose_alive _ _ _ E Ha) as [Eq Hne]. rewrite Eq in Ha. split; [done|]. by eapply not_live_epoch.
Qed.

(** The subscription joins. *)
Lemma world_join ep route q b l K proc e : world ep route q b (Subscribing e) l K proc ->
  world ep route q b (Live e [] false false) l K proc.
Proof.
  intros [E Kr Ev Sb Fr On St Id Sq La]. split; try done.
  - intros Ha Hl. apply Id; [done|]. intros (? & ? & ? & ?). done.
  - intros [Ha (sk & n & [= -> <- <-])]. destruct (Id Ha) as (_ & _ & I3); [intros (? & ? & ? & ?); done|].
    intros pre d post Eu. exfalso. unfold undelivered, inbox_events in Eu. cbn in Eu. rewrite decide_True in Eu by done.
    assert (filter (fun e => ev_epoch e = ep) (events q) = []) as En.
    { clear -I3. induction I3 as [|y l Hy I3 IH]; [done|]. by rewrite filter_cons_False. }
    rewrite En in Eu. cbn in Eu. by destruct pre.
Qed.
Lemma told_join r q K i ex X e : told r q (Subscribing e) K i ex X -> told r q (Live e [] false false) K i ex X.
Proof.
  intros [T1 T2 T3 T4 T5 TQ]. assert (Hn : ~ live (epoch r) (Subscribing e)) by (intros (? & ? & ? & ?); done).
  split; [| | | |done|done].
  - intros rq k v Hr _ [[Ha _] _]. destruct (T4 Ha Hn) as (? & _). congruence.
  - intros c k Hc _ [[Ha _] _]. destruct (T4 Ha Hn) as (_ & ? & _). congruence.
  - intros k Hr _ _ _ [[Ha _] _]. destruct (T4 Ha Hn) as (_ & _ & ?). congruence.
  - intros Ha _. by apply T4.
Qed.
(** Its status is sent. *)
Lemma world_ready ep route q b e sk lost n l K proc rd : world ep route q b (Live e sk lost n) l K proc ->
  world ep route q b (Live e sk lost true) (l ++ [mkStatus e true rd]) K proc.
Proof.
  intros [E Kr Ev Sb Fr On St Id Sq La]. destruct Sb as (He & Hb & Hl).
  assert (Hnl : ~ live ep (Live e sk lost true) -> ~ live ep (Live e sk lost n) /\ e <> ep).
  { intros Hn. split; [intros (? & ? & ? & [= -> _ _ _])|intros ->]; apply Hn; by eexists _, _, _. }
  split; try done.
  - split_and!; [done|done|]. apply Forall_app. split; [done|]. by apply Forall_singleton.
  - congruence.
  - rewrite filter_app, filter_cons_False by done. rewrite filter_nil, app_nil_r. done.
  - apply Forall_app. split; [done|]. by apply Forall_singleton.
  - intros Ha Hn. destruct (Hnl Hn) as [Hn' Hne]. destruct (Id Ha Hn') as (I1 & I2 & I3). split_and!; [done| |done].
    apply Forall_app. split; [done|]. by apply Forall_singleton.
  - intros [Ha (sk' & n' & [= -> -> -> _])]. specialize (La (conj Ha (ex_intro _ _ (ex_intro _ _ eq_refl)))). exact La.
Qed.
Lemma told_notified r q K i ex X e sk lost n n' : told r q (Live e sk lost n) K i ex X -> told r q (Live e sk lost n') K i ex X.
Proof.
  intros T. eapply told_mono; [exact T| |].
  - intros k [[Ha (sk' & m & [= -> -> ->])] Hu]. split; [|done]. split; [|exact Hu]. split; [done|]. by eexists _, _.
  - intros Ha Hn. split; [done|]. intros (? & ? & ? & [= -> _ _ _]). apply Hn. by eexists _, _, _.
Qed.
(** Something is dropped from the socket. *)
Lemma world_break ep route q b e sk sk' lost n l K proc : world ep route q b (Live e sk lost n) l K proc ->
  world ep route q b (Live e sk' true n) l K proc.
Proof.
  intros [E Kr Ev Sb Fr On St Id Sq La]. split; try done.
  - intros Ha Hn. apply Id; [done|]. intros (? & ? & ? & [= -> _ _ _]). apply Hn. by eexists _, _, _.
  - by intros [_ (? & ? & ?)].
Qed.
Lemma told_break r q q' K i ex X e sk sk' lost n : (alive (epoch r) q' -> alive (epoch r) q) ->
  told r q (Live e sk lost n) K i ex X -> told r q' (Live e sk' true n) K i ex X.
Proof.
  intros Hq T. eapply told_mono; [exact T| |].
  - by intros k [[_ (? & ? & ?)] _].
  - intros Ha Hn. split; [auto|]. intros (? & ? & ? & [= -> _ _ _]). apply Hn. by eexists _, _, _.
Qed.

(** The reader hands an event over. *)
Lemma push_cases e kind o q ok q' : push e kind o q = (ok, q') ->
  (ok = false /\ events q' = events q /\ produced q' = produced q /\
     (q' = q \/ q' = lose e q \/ in_epoch q' = in_epoch q /\ exhausted q' = true)) \/
  (ok = true /\ in_epoch q = e /\
     q' = mkInbox (events q ++ [mkEvent (produced q + 1) kind (set_source e o)]) e (produced q + 1) (exhausted q)).
Proof.
  unfold push. destruct (lose_same e q) as [Le Lp].
  case_decide as H1; [intros [= <- <-]; left; split_and!; auto|].
  case_decide; [intros [= <- <-]; left; split_and!; try done; right; by right|].
  case_decide; [intros [= <- <-]; left; split_and!; auto|]. cbv zeta. case_decide; [intros [= <- <-]; left; split_and!; auto|].
  case_decide; intros [= <- <-]; [right; by rewrite H1|left; split_and!; auto].
Qed.
Lemma undelivered_push q e kind o sk lost : in_epoch q = e ->
  undelivered e (mkInbox (events q ++ [mkEvent (produced q + 1) kind (set_source e o)]) e (produced q + 1) (exhausted q)) (Live e sk lost true)
  = undelivered e q (Live e ((kind, o) :: sk) lost true).
Proof.
  intros _. unfold undelivered, inbox_events. cbn [events socket_events]. rewrite !decide_True by done.
  rewrite filter_app, filter_cons_True, filter_nil by done. rewrite fmap_app, <- app_assoc. done.
Qed.
Lemma world_deliver ep route q b e kind o sk lost l K proc ok q' : world ep route q b (Live e ((kind, o) :: sk) lost true) l K proc ->
  push e kind o q = (ok, q') -> world ep route q' b (Live e sk (lost || negb ok) true) l K proc.
Proof.
  intros [E Kr Ev Sb Fr On St Id Sq La] Hp. pose proof (proj1 Sb) as He.
  destruct (push_cases _ _ _ _ _ _ Hp) as [(-> & He' & Hp' & Hq)|(-> & Hin & ->)].
  - rewrite orb_true_r. assert (Hal : alive ep q' -> alive ep q).
    { destruct Hq as [->|[->|[Hq1 Hq2]]]; [done| |intros [_ ?]; congruence].
      intros Ha. destruct (lose_alive _ _ _ E Ha) as [Eq _]. by rewrite Eq in Ha. }
    split; rewrite ?He', ?Hp'; try done.
    + destruct Hq as [->|[->|[Hq1 Hq2]]]; [done|by apply lose_epoch|by rewrite Hq1].
    + intros Ha Hn. apply Id; [auto|]. intros (? & ? & ? & [= -> _ _ _]). apply Hn. by eexists _, _, _.
    + by intros [_ (? & ? & ?)].
  - cbn [negb]. rewrite orb_false_r. split; cbn [in_epoch events produced exhausted]; try done.
    + by rewrite <- Hin.
    + apply Forall_app. split; [done|]. by apply Forall_singleton.
    + intros [Ha _] Hn. cbn in Ha. subst ep. exfalso. apply Hn. by eexists _, _, _.
    + destruct Sq as [S1 S2]. split; [|lia]. rewrite fmap_app, S1. cbn [fmap list_fmap Sequence].
      replace (produced q + 1 - proc) with (produced q - proc + 1) by lia. rewrite seqZ_app by lia. f_equal.
      replace (proc + 1 + (produced q - proc)) with (produced q + 1) by lia. rewrite seqZ_cons by lia. by rewrite seqZ_nil by lia.
    + intros [[Ha Hx] (sk' & n' & Hlive)]. cbn in Ha, Hx. injection Hlive as _ <- -> _. destruct Ha.
      rewrite undelivered_push by done. apply La. split; [by split|by eexists _, _].
Qed.
Lemma told_deliver r q K i ex X e kind o sk lost ok q' : in_epoch q = epoch r \/ in_epoch q = epoch r + 1 -> e <= epoch r ->
  told r q (Live e ((kind, o) :: sk) lost true) K i ex X -> push e kind o q = (ok, q') ->
  told r q' (Live e sk (lost || negb ok) true) K i ex X.
Proof.
  intros E He T Hp. destruct (push_cases _ _ _ _ _ _ Hp) as [(-> & _ & _ & Hq)|(-> & Hin & ->)].
  - rewrite orb_true_r. eapply told_break; [|exact T]. destruct Hq as [->|[->|[Hq1 Hq2]]]; [done| |intros [_ ?]; congruence].
    intros Ha. destruct (lose_alive _ _ _ E Ha) as [Eq _]. by rewrite Eq in Ha.
  - cbn [negb]. rewrite orb_false_r. eapply told_mono; [exact T| |].
    + intros k [[[Ha Hx] (sk' & n' & Hlive)] Hu]. cbn in Ha, Hx. injection Hlive as _ <- -> _. rewrite <- Ha in *.
      rewrite undelivered_push in Hu by done. split; [|done]. split; [|exact Hu]. split; [by split|by eexists _, _].
    + intros [Ha _] Hn. cbn in Ha. exfalso. apply Hn. rewrite <- Ha. by eexists _, _, _.
Qed.

(** The inventory executor reads and answers. *)
Lemma shape_exec r proc i b ex ex' : shape r proc i b ex -> (b = false -> ex' = Idle) ->
  (forall rq, request i = Some rq -> waiting i = None ->
     (exists seen, ex' = Reading rq seen) \/ exists a, ex' = Done (mkCompletion rq a)) -> shape r proc i b ex'.
Proof.
  intros [S1 SN S2 S3 S4 S5 S6 S7 S8 S9 SP] Hb Hx. split; try done. intros rq Hr Hw. split; [by apply (S4 rq)|by apply Hx].
Qed.
Lemma told_exec r q x K i ex ex' X : told r q x K i ex X ->
  (forall rq k v, request i = Some rq -> ~ X k -> quiet (epoch r) q x k -> relevant i rq k -> learned i ex' k = Some v -> v = K !! k) ->
  told r q x K i ex' X.
Proof. intros [T1 T2 T3 T4 T5 TQ] H. by split. Qed.

Lemma reads_dump_row seen l k : reads_dump seen l -> dump_row l k = seen !! k.
Proof.
  intros [Hl Hs]. unfold dump_row. destruct (filter _ l) as [|o l'] eqn:E; cbn.
  - destruct (seen !! k) as [d|] eqn:Hd; [|done]. apply Hs in Hd. apply list_elem_of_fmap in Hd as (o & -> & Ho).
    assert (Hin : o ∈ filter (fun o' => Key (ob_Device o') = Key (ob_Device o)) l) by (by apply list_elem_of_filter).
    rewrite E in Hin. by apply not_elem_of_nil in Hin.
  - assert (Hin : o ∈ filter (fun o => Key (ob_Device o) = k) l) by (rewrite E; apply list_elem_of_here).
    apply list_elem_of_filter in Hin as [<- Hin]. rewrite Forall_forall in Hl. by rewrite (Hl o Hin).
Qed.
Lemma learned_answers rq seen a k v : answers rq seen a -> learned_answer a k = Some v -> (rq_query rq = true -> k = rq_key rq) -> v = seen !! k.
Proof.
  intros Ha Hl Hk. destruct a as [| |[] l ports ok|o ok]; cbn in Hl, Ha; try done.
  - destruct Ha as [Hq Hn]. injection Hl as <-. rewrite Hk by done. by symmetry.
  - destruct Ha as [_ Hr]. injection Hl as <-. by apply reads_dump_row, Hr.
  - case_decide as Ho; [|done]. injection Hl as <-. destruct Ha as [_ Hr]. by rewrite <- Ho.
Qed.
Lemma relevant_key i rq k : relevant i rq k -> rq_query rq = true -> k = rq_key rq.
Proof. unfold relevant. intros H Hq. rewrite Hq in H. by destruct H. Qed.

Lemma read_good X s key rq seen : good X s -> exec s = Reading rq seen ->
  good X (set_exec (serial s) (busy s) (Reading rq (set_row key (kernel s !! key) seen)) s).
Proof.
  intros [Hr Hw Hs Ht] Hx. split; fields; [done|done| |].
  - eapply shape_exec; [exact Hs| |].
    + intros Hb. pose proof (s_busy _ _ _ _ _ Hs Hb) as Hi. rewrite Hx in Hi. done.
    + intros rq' Hr' Hwt. destruct (s_exec _ _ _ _ _ Hs rq' Hr' Hwt) as [_ [[seen' Hx']|[a Hx']]]; rewrite Hx in Hx'; [|done].
      injection Hx' as -> _. left. by eexists.
  - eapply told_exec; [exact Ht|]. intros rq' k v Hr' HX Hq Hrel. pose proof (t_learned _ _ _ _ _ _ _ Ht rq' k) as T. rewrite Hx in T.
    revert T. unfold learned. destruct (waiting (inv s)) as [c|]; [intros T Hl; exact (T v Hr' HX Hq Hrel Hl)|]. intros T [= <-].
    destruct (decide (k = key)) as [->|Hne].
    + destruct (kernel s !! key) as [d|]; cbn; [by rewrite lookup_insert_eq|by rewrite lookup_delete_eq].
    + destruct (kernel s !! key) as [d|]; cbn; [rewrite lookup_insert_ne by done|rewrite lookup_delete_ne by done]; by apply T.
Qed.
Lemma finish_good X s a rq seen : good X s -> exec s = Reading rq seen -> answers rq seen a ->
  good X (set_exec (serial s) (busy s) (Done (mkCompletion rq a)) s).
Proof.
  intros [Hr Hw Hs Ht] Hx Ha. split; fields; [done|done| |].
  - eapply shape_exec; [exact Hs| |].
    + intros Hb. pose proof (s_busy _ _ _ _ _ Hs Hb) as Hi. rewrite Hx in Hi. done.
    + intros rq' Hr' Hwt. destruct (s_exec _ _ _ _ _ Hs rq' Hr' Hwt) as [_ [[seen' Hx']|[a' Hx']]]; rewrite Hx in Hx'; [|done].
      injection Hx' as -> _. right. by eexists.
  - eapply told_exec; [exact Ht|]. intros rq' k v Hr' HX Hq Hrel. pose proof (t_learned _ _ _ _ _ _ _ Ht rq' k) as T. rewrite Hx in T.
    pose proof (s_exec _ _ _ _ _ Hs rq' Hr') as Se. revert T Se. unfold learned.
    destruct (waiting (inv s)) as [c|]; [intros T _ Hl; exact (T v Hr' HX Hq Hrel Hl)|]. intros T Se Hl. destruct (Se eq_refl) as [_ [[seen' Hx']|[a' Hx']]];
      rewrite Hx in Hx'; [|done]. injection Hx' as <- <-. rewrite <- (T (seen !! k)) by done.
    eapply learned_answers; [exact Ha|exact Hl|by apply (relevant_key (inv s))].
Qed.
Lemma result_good X s c : good X s -> exec s = Done c -> good X (result c s).
Proof.
  intros [Hr Hw [S1 SN S2 S3 S4 S5 S6 S7 S8 S9 SP] [T1 T2 T3 T4 T5 TQ]] Hx. unfold result.
  assert (Hb : busy s = true) by (destruct (busy s); [done|]; specialize (S5 eq_refl); congruence).
  assert (Hwt : waiting (inv s) = None) by (destruct (waiting (inv s)); [|done]; specialize (S6 ltac:(by eexists)); congruence).
  fields. case_decide as Hq.
  - split; fields; [done|done| |].
    + split; cbn -[Z.le]; try done. by intros c' [= <-].
    + split; cbn -[Z.le]; try done. intros rq k v Hrq HX Hk Hrel Hl. apply (T1 rq k v Hrq HX Hk Hrel). unfold learned. by rewrite Hwt, Hx.
  - assert (Hn : request (inv s) = None).
    { destruct (request (inv s)) as [rq|] eqn:E; [|done]. destruct (S4 rq eq_refl Hwt) as [_ [[seen Hx']|[a Hx']]]; rewrite Hx in Hx'; [done|].
      injection Hx' as ->. done. }
    split; fields; [done|done| |].
    + split; cbn -[Z.le]; try done. intros rq Hrq. congruence.
    + split; cbn -[Z.le]; try done. intros rq k v Hrq. congruence.
Qed.

(** ** Steps of the owner

    A handler of the owner leaves a state with [Q], or ends the loop because a
    sequence or the clock is exhausted, or because time went backwards. *)

Definition expected (e : rec_err) : Prop := e = ErrSequence \/ e = ErrClock \/ e = ErrTime.
Definition safe (Q : system -> Prop) (m : res system) : Prop :=
  match m with None => False | Some (inl s) => Q s | Some (inr e) => expected e end.
Lemma safe_bind Q R (m : res system) f : safe Q m -> (forall s, Q s -> safe R (f s)) -> safe R (rbind m f).
Proof. destruct m as [[s|e]|]; cbn; auto. Qed.
Lemma safe_weaken (Q R : system -> Prop) m : safe Q m -> (forall s, Q s -> R s) -> safe R m.
Proof. destruct m as [[s|e]|]; cbn; auto. Qed.
Lemma expected_sequence : expected ErrSequence.
Proof. by left. Qed.

Lemma good_weaken (X Y : DeviceKey -> Prop) s : good X s -> (forall k, X k -> Y k) -> good Y s.
Proof.
  intros [Hr Hw Hs [T1 T2 T3 T4 T5 TQ]] HXY. split; [done|done|done|]. split; try done.
  - intros rq k v H1 H2. apply T1; [done|]. intros ?. by apply H2, HXY.
  - intros c k H1 H2. apply T2; [done|]. intros ?. by apply H2, HXY.
  - intros k H1 H2 H3 H4. apply T3; [done..|]. intros ?. by apply H4, HXY.
  - intros d k v H1 H2. apply (TQ d k v H1). intros ?. by apply H2, HXY.
Qed.
Lemma good_tim X s t : good X s -> good X (set_tim t s).
Proof. by intros [? ? ? ?]. Qed.

Definition no_resync (w : Z) : resync := mkResync true None None w None false None [].
Lemma shape_none r proc w b ex : (b = false -> ex = Idle) -> 0 <= proc -> shape r proc (no_resync w) b ex.
Proof. intros Hb Hp. by split; cbn -[Z.le]. Qed.
(** A resync that is pending, and nothing under way. *)
Lemma reset_good X Y s w : good X s -> good Y (set_inv (no_resync w) s).
Proof.
  intros [Hr Hw Hs Ht]. split; fields; [done|done|apply shape_none; apply Hs|]. destruct Ht as [T1 T2 T3 T4 T5 TQ]. split; cbn; try done.
  intros H1 H2. by destruct (T4 H1 H2) as (_ & _ & ?).
Qed.
Lemma fail_good X Y now s : good X s -> good Y (fail now s).
Proof. intros H. unfold fail. apply good_tim. unfold abort. fields. apply (reset_good X Y s (watermark (inv s)) H). Qed.
Lemma requestResync_good X s : good X s -> good X (requestResync s) /\ (pending (inv (requestResync s)) = true \/ dirty (inv (requestResync s)) <> None) /\
  request (inv (requestResync s)) = request (inv s) /\ dirty (inv (requestResync s)) = dirty (inv s) /\
  red (requestResync s) = red s /\ processed (requestResync s) = processed s /\ inbox (requestResync s) = inbox s /\
  sub (requestResync s) = sub s /\ kernel (requestResync s) = kernel s.
Proof.
  intros H. unfold requestResync. destruct (pending (inv s)) eqn:Ep; cbn [negb andb]; [split_and!; auto|].
  case_bool_decide as Hq; cbn [andb]; [case_bool_decide as Hd|].
  - split; [|split_and!; auto]. destruct H as [Hr Hw [S1 SN S2 S3 S4 S5 S6 S7 S8 S9 SP] [T1 T2 T3 T4 T5 TQ]]. split; fields; [done|done|by split|].
    by split; cbn.
  - split_and!; auto.
  - split_and!; auto. right. intros Hd. by destruct (s_none _ _ _ _ _ (g_shape _ _ H) Hd).
Qed.

Lemma requestResync_abort s : requestResync (abort s) = set_inv (no_resync (watermark (inv s))) s.
Proof. unfold requestResync, abort, no_resync. cbn. destruct (pending (inv s)) eqn:E; cbn; [done|done]. Qed.

(** ** Losses *)

Definition lost_all (s : system) : Prop := good nowhere s /\ dirty (inv s) = None /\ ~ live (epoch (red s)) (sub s) /\
  Forall (fun e => ev_epoch e <> epoch (red s)) (events (inbox s)).
Lemma not_live_old ep q b x l K proc route : world ep route q b x l K proc -> ~ live (ep + 1) x.
Proof. intros W (sk & lost & n & ->). pose proof (w_sub _ _ _ _ _ _ _ _ W) as (? & _). lia. Qed.
Lemma syncLoss_good X now s : good X s -> safe (fun s' => good X s' /\ alive (epoch (red s')) (inbox s') /\
  (s' = s \/ lost_all s' /\ inbox s' = inbox s /\ epoch (red s') = epoch (red s) + 1 /\ processed s' = processed s)) (syncLoss now s).
Proof.
  intros H. unfold syncLoss. destruct (exhausted (inbox s)) eqn:Ex; [apply expected_sequence|].
  case_decide as He; [split_and!; auto; by split|]. destruct H as [Hr Hw Hs Ht].
  case_decide as He'; [apply expected_sequence|].
  destruct (loseEvents (red s)) as [[[]|er] r] eqn:El; [|apply expected_sequence].
  destruct (loseEvents_changes _ _ El) as (Hi & Hep & Hrs & Hro).
  destruct (loseEvents_stepped (red s) Hr) as (a & r' & E & Hr' & _). rewrite El in E. injection E as _ <-.
  set (s' := set_tim _ _). assert (G : good nowhere s' /\ dirty (inv s') = None /\ ~ live (epoch (red s')) (sub s') /\
    Forall (fun e => ev_epoch e <> epoch (red s')) (events (inbox s'))).
  { assert (Hnl : ~ live (epoch r) (sub s)) by (rewrite Hep; by eapply not_live_old).
    assert (Hev : Forall (fun e => ev_epoch e <> epoch r) (events (inbox s))).
    { eapply Forall_impl; [exact (w_events _ _ _ _ _ _ _ _ Hw)|]. cbn. intros e [? _]. lia. }
    split; [|split_and!; [done|exact Hnl|exact Hev]]. unfold s'. apply good_tim. split; fields.
    - by apply with_events_rinv.
    - cbn [epoch with_events routeEvents]. rewrite Hro, Hep. destruct Hw as [E Kr Ev Sb Fr On St Id Sq La]. split; try done.
      + left. lia.
      + eapply Forall_impl; [exact Ev|]. cbn. intros e [? ?]. split; [lia|done].
      + destruct (sub s); try done; destruct Sb as (? & ? & ?); split_and!; (done || lia).
      + eapply Forall_impl; [exact St|]. cbn. lia.
      + intros _ _. split_and!; [done| |by rewrite Hep in Hev]. eapply Forall_impl; [exact St|]. cbn. intros; lia.
      + intros Hc. exfalso. rewrite Hep in Hnl. by eapply not_current.
    - unfold abort. fields. apply shape_none; apply Hs.
    - unfold abort. fields. pose proof (t_resync _ _ _ _ _ _ _ Ht). split; cbn; try done; rewrite ?Hrs, ?Hep; [|lia].
      intros _ _. split_and!; [done|done|lia]. }
  cbn [safe]. split; [|split].
  - eapply good_weaken; [apply G|done].
  - split; [|exact Ex]. unfold s'. cbn. lia.
  - right. split; [exact G|]. split_and!; [done|unfold s'; cbn; lia|done].
Qed.
Lemma lose_good X now s : good X s -> safe (good nowhere) (syncLoss now (set_inbox (lose (epoch (red s)) (inbox s)) s)).
Proof.
  intros [Hr Hw Hs [T1 T2 T3 T4 T5 TQ]]. pose proof (w_epoch _ _ _ _ _ _ _ _ Hw) as E. destruct (lose_same (epoch (red s)) (inbox s)) as [Le Lp].
  assert (Hna : ~ alive (epoch (red s)) (lose (epoch (red s)) (inbox s))).
  { intros Ha. by destruct (lose_alive _ _ _ E Ha) as [_ []]. }
  eapply safe_weaken; [apply (syncLoss_good X)|].
  - split; fields; [done| |done|].
    + destruct Hw as [_ Kr Ev Sb Fr On St Id Sq La]. split; rewrite ?Le, ?Lp; try done.
      * by apply lose_epoch.
      * by intros [? _].
    + split; try done; [intros rq k v _ _ [[? _] _]|intros c k _ _ [[? _] _]|intros k _ _ _ _ [[? _] _]]; done.
  - intros s' (_ & Ha & [->|((Gn & _) & _)]); [by destruct Hna|exact Gn].
Qed.

(** ** Events *)

Lemma undelivered_pop ep e l q x : events q = e :: l ->
  undelivered ep q x =
  (if decide (ev_epoch e = ep) then [norm (ev_Kind e, ev_Observation e)] else []) ++
  undelivered ep (mkInbox l (in_epoch q) (produced q) (exhausted q)) x.
Proof.
  intros E. unfold undelivered, inbox_events. cbn [events]. rewrite E. case_decide as He.
  - by rewrite filter_cons_True.
  - by rewrite filter_cons_False.
Qed.
Lemma last_told_app K u1 u2 : last_told K (u1 ++ u2) -> last_told K u2.
Proof. intros H pre d post -> Hp. apply (H (u1 ++ pre) d post); [by rewrite app_assoc|done]. Qed.
(** What the first event may be about. *)
Definition popped (ep : Z) (e : Event) (k : DeviceKey) : Prop := ev_epoch e = ep /\ touches k (norm (ev_Kind e, ev_Observation e)).
Definition pop (e : Event) (l : list Event) (s : system) : system :=
  set_processed (Sequence e) (set_inbox (mkInbox l (in_epoch (inbox s)) (produced (inbox s)) (exhausted (inbox s))) s).

Lemma pop_good s e l : good nowhere s -> events (inbox s) = e :: l ->
  good (popped (epoch (red s)) e) (pop e l s) /\ Sequence e = processed s + 1 /\
  (ev_epoch e <= epoch (red s) /\ dev_Token (ev_device e) = source_token (ev_epoch e)) /\
  (forall rq, request (inv s) = Some rq -> rq_version rq < Sequence e) /\
  (ev_epoch e = epoch (red s) -> ev_Kind e = EventChange -> quiet (epoch (red s)) (inbox (pop e l s)) (sub s) (ev_key e) ->
     kernel s !! ev_key e = Some (norm (ev_Kind e, ev_Observation e)).2).
Proof.
  intros [Hr Hw Hs Ht] E. pose proof Hw as [Ee Kr Ev Sb Fr On St Id [Sq Sp] La].
  pose proof (undelivered_pop (epoch (red s)) e l (inbox s) (sub s) E) as Hu.
  assert (Hn : Sequence e = processed s + 1 /\ Sequence <$> l = seqZ (processed s + 1 + 1) (produced (inbox s) - (processed s + 1)) /\
    processed s + 1 <= produced (inbox s)).
  { rewrite E in Sq. destruct (decide (produced (inbox s) - processed s = 0)) as [H0|H0]; [by rewrite H0, seqZ_nil in Sq by lia|].
    rewrite seqZ_cons in Sq by lia. cbn in Sq. injection Sq as H1 H2. split; [done|]. split; [|lia]. rewrite H2. f_equal; lia. }
  destruct Hn as (Hn1 & Hn2 & Hn3). rewrite E in Ev. apply Forall_cons in Ev as [Hev Ev].
  assert (Hcur : forall x, current (epoch (red s)) (inbox (pop e l s)) x -> current (epoch (red s)) (inbox s) x) by done.
  split; [|split; [done|split; [done|split]]].
  - unfold pop. split; fields; [done| | |].
    + split; cbn [in_epoch events produced]; try done.
      * intros Ha Hl. destruct (Id Ha Hl) as (? & ? & Hx). split_and!; [done|done|]. rewrite E in Hx. by apply Forall_cons in Hx as [_ ?].
      * by rewrite Hn1.
      * intros Hc. specialize (La Hc). rewrite Hu in La. by eapply last_told_app.
    + destruct Hs as [S1 SN S2 S3 S4 S5 S6 S7 S8 S9 SP]. rewrite Hn1. split; try done.
      * intros rq Hrq. destruct (S2 rq Hrq) as (? & ? & ?). split_and!; [done|lia|done].
      * intros d k v f Hd Hk. specialize (S7 d k v f Hd Hk). lia.
      * lia.
    + assert (Hq : forall k, ~ popped (epoch (red s)) e k ->
        quiet (epoch (red s)) (mkInbox l (in_epoch (inbox s)) (produced (inbox s)) (exhausted (inbox s))) (sub s) k ->
        quiet (epoch (red s)) (inbox s) (sub s) k).
      { intros k Hk [Hc Hf]. split; [done|]. rewrite Hu. apply Forall_app. split; [|done]. case_decide as Hd; [|done].
        apply Forall_singleton. intros Htk. by apply Hk. }
      destruct Ht as [T1 T2 T3 T4 T5 TQ]. split; try done.
      * intros rq k v H1 H2 H3. apply (T1 rq k v H1); [by intros ?|by apply Hq].
      * intros c k H1 H2 H3. apply (T2 c k H1); [by intros ?|by apply Hq].
      * intros k H1 H2 H3 H4 H5. apply (T3 k H1 H2 H3); [by intros ?|by apply Hq].
      * intros d k v H1 H2. apply (TQ d k v H1); by intros ?.
  - intros rq Hrq. destruct (s_request _ _ _ _ _ Hs rq Hrq) as (_ & ? & _). lia.
  - intros He Hk [Hc Hf]. rewrite decide_True in Hu by done. refine (La Hc [] (norm (ev_Kind e, ev_Observation e)).2 _ _ Hf).
    rewrite Hu. cbn. unfold norm at 1. by rewrite Hk.
Qed.

(** An entry, or a new version of it, whose query is still to be made. *)
Lemma markDirty_good X s now key version : good X s -> (forall k, X k -> k = key) -> version <= processed s ->
  (forall rq, request (inv s) = Some rq -> rq_version rq < version) -> dirty (inv s) <> None ->
  good nowhere (markDirty now key version s).
Proof.
  intros G HX Hv Hrq Hd. unfold markDirty. destruct (dirty (inv s)) as [d|] eqn:Ed; [|done].
  assert (A : forall qs, (forall k, k ∈ qs <-> k = key \/ k ∈ queries (inv s)) -> NoDup qs ->
    good nowhere (set_inv (set_dirty (<[key := (version, true)]> d) qs (inv s)) s)).
  { intros qs Hqs Hnd. destruct G as [Hr Hw [S1 SN S2 S3 S4 S5 S6 S7 S8 S9 SP] [T1 T2 T3 T4 T5 TQ]]. split; fields; [done|done| |].
    - split; cbn -[Z.le]; try done; [intros _; by apply SN; rewrite Ed| |].
      + intros d' k v f [= <-] [[<- [= <- <-]]|[_ Hk]]%lookup_insert_Some; [done|by eapply S7].
      + intros d' [= <-]. split; [done|]. intros k. rewrite Hqs. destruct (S8 d Ed) as [_ Hs]. split.
        * intros [->|Hk]; [exists version; by rewrite lookup_insert_eq|]. destruct (decide (key = k)) as [->|Hne];
            [exists version; by rewrite lookup_insert_eq|]. rewrite lookup_insert_ne by done. by apply Hs.
        * intros (v & [[<- _]|[_ Hk]]%lookup_insert_Some); [by left|]. right. apply Hs. by exists v.
    - split; cbn -[Z.le]; try done.
      + intros rq k v Hr' _ Hq Hrel. assert (Hne : k <> key).
        { intros ->. unfold relevant in Hrel. destruct (rq_query rq) eqn:Eq; cbn in Hrel.
          - destruct Hrel as (_ & d' & f & [= <-] & Hk). rewrite lookup_insert_eq in Hk. injection Hk as Hk _.
            specialize (Hrq rq Hr'). lia.
          - unfold clean in Hrel. cbn in Hrel. by rewrite lookup_insert_eq in Hrel. }
        apply (T1 rq k v Hr'); [by intros ?%HX|done|]. unfold relevant, clean in *. cbn in Hrel. rewrite Ed. destruct (rq_query rq).
        * destruct Hrel as (-> & d' & f & [= <-] & Hk). rewrite lookup_insert_ne in Hk by done. split; [done|]. by exists d, f.
        * by rewrite lookup_insert_ne in Hrel by done.
      + intros c k Hc _ Hq Hcl. unfold clean in Hcl. cbn in Hcl. apply lookup_insert_None in Hcl as [Hk Hne].
        apply (T2 c k Hc); [by intros ->%HX|done|]. unfold clean. by rewrite Ed.
      + intros d' k v [= <-] _ [[_ [=]]|[Hne Hk]]%lookup_insert_Some. eapply TQ; [exact Ed| |exact Hk]. by intros ->%HX. }
  destruct (s_queries _ _ _ _ _ (g_shape _ _ G) d Ed) as [Hnd Hqs]. destruct (d !! key) as [[v q]|] eqn:Ek.
  - destruct q; apply A; try done.
    + intros k. split; [by right|]. intros [->|?]; [|done]. apply Hqs. by exists v.
    + intros k. rewrite elem_of_app, list_elem_of_singleton. tauto.
    + apply NoDup_app. split_and!; [done| |apply NoDup_singleton]. intros k Hk ->%list_elem_of_singleton.
      apply Hqs in Hk as [v' Hk]. congruence.
  - case_decide; [by eapply fail_good|]. apply A.
    + intros k. rewrite elem_of_app, list_elem_of_singleton. tauto.
    + apply NoDup_app. split_and!; [done| |apply NoDup_singleton]. intros k Hk ->%list_elem_of_singleton.
      apply Hqs in Hk as [v' Hk]. congruence.
Qed.

(** The reducer moves on within its session, changing one entry. *)
Lemma shape_session r r' proc i b ex : same_session r r' -> shape r proc i b ex -> shape r' proc i b ex.
Proof.
  intros Hss [S1 SN S2 S3 S4 S5 S6 S7 S8 S9 SP]. pose proof Hss as (He & _). split; try done.
  - intros rq Hr. rewrite He. by apply S2.
  - intros c Hc k o Hk. rewrite (validKey_session r r' k Hss). by apply (S9 c Hc).
Qed.
Lemma changed_good X s key f r' : good X s -> (forall k, X k -> k = key) -> rinv r' -> changes (red s) key f r' ->
  good (fun k => k = key) (set_red r' s).
Proof.
  intros [Hr Hw Hs [T1 T2 T3 T4 T5 TQ]] HX Hr' (_ & Ho & Hss). pose proof Hss as (He & Hre & Hro & _ & _). split; fields; [done| | |].
  - by rewrite He, Hro.
  - by eapply shape_session.
  - rewrite <- He in T1, T2, T3, T4, T5. rewrite <- Hre in T3, T4, T5. split; try done.
    + intros rq k v H1 H2. apply (T1 rq k v H1). by intros ?%HX.
    + intros c k H1 H2. apply (T2 c k H1). by intros ?%HX.
    + intros k H1 H2 H3 H4. rewrite Ho by done. apply (T3 k H1 H2 H3). by intros ?%HX.
    + intros d k v H1 H2. apply (TQ d k v H1). by intros ?%HX.
Qed.
Lemma settled_good s key : good (fun k => k = key) s -> dirty (inv s) = None ->
  pending (inv s) = true \/ (quiet (epoch (red s)) (inbox s) (sub s) key -> agrees (inventory (red s) key) (kernel s !! key)) ->
  good nowhere s.
Proof.
  intros [Hr Hw Hs [T1 T2 T3 T4 T5 TQ]] Hd Hp. destruct (s_none _ _ _ _ _ Hs Hd) as (Hn1 & Hn2 & _). split; [done|done|done|]. split; try done.
  - intros rq k v. congruence.
  - intros c k. congruence.
  - intros k H1 H2 _ _ Hq. destruct (decide (k = key)) as [->|Hne]; [|by apply T3]. destruct Hp as [?|Hp]; [congruence|by apply Hp].
  - intros d k v. congruence.
Qed.

Lemma validEvent_key r e : validEvent r e = true -> ev_Kind e <> EventResync -> validKey (ev_key e) r = true /\ ev_Kind e <> EventLoss.
Proof.
  unfold validEvent, validateObservation. destruct (ev_Kind e); try done; cbv zeta; rewrite ?andb_true_iff; try tauto;
    intros ? ?; (split; [tauto|done]).
Qed.

Section events.
Context (shrink : reducer -> bool).

Lemma knownLink_cases e s : rinv (red s) -> exists e', knownLink e s = Some e' /\ Sequence e' = Sequence e /\ ev_key e' = ev_key e /\
  dev_Token (ev_device e') = dev_Token (ev_device e) /\ (ev_Kind e' = EventChange \/ ev_Kind e' = EventRefresh).
Proof.
  intros H. unfold knownLink. rewrite known_device_inventory by done. cbn [mbind option_bind].
  destruct (inventory (red s) (Key (ev_device e))) as [d|] eqn:E; [case_decide|]; eexists; (split; [done|]); split_and!; auto.
  apply (inventory_elem _ _ _ H) in E as (_ & _ & _ & E). exact E.
Qed.
Lemma applyEvent_good X e s : good X s -> (forall k, X k -> k = ev_key e) -> validKey (ev_key e) (red s) = true ->
  dev_Token (ev_device e) = source_token (epoch (red s)) ->
  ev_Kind e = EventChange \/ ev_Kind e = EventRemove \/ ev_Kind e = EventRefresh ->
  match applyEvent shrink e s with
  | Some (inl (_, s')) => exists r', s' = set_red r' s /\ good (fun k => k = ev_key e) s' /\ epoch r' = epoch (red s) /\
      (ev_Kind e = EventChange -> shown (ev_device e) (inventory r' (ev_key e)))
  | Some (inr er) => er = ErrSequence
  | None => False
  end.
Proof.
  intros G HX Hv Ht Hk. pose proof (g_rinv _ _ G) as Hr. unfold applyEvent.
  assert (A : exists m f g, match ev_Kind e with
      | EventChange => lift (observe (ev_Observation e) (red s))
      | EventRemove => lift (remove (shrink (red s)) (ev_key e) (dev_Token (ev_device e)) (red s))
      | EventRefresh => lift (refreshEvent (ev_key e) (red s))
      | _ => err ErrInvalid
      end = m /\ applies g (red s) m (ev_key e) f /\ (ev_Kind e = EventChange -> f = shown (ev_device e))).
  { destruct Hk as [-> | [-> | ->]].
    - eexists _, _, _. split; [reflexivity|]. split; [exact (observe_applies _ _ Hr Hv Ht)|done].
    - eexists _, _, _. split; [reflexivity|]. split; [exact (remove_applies _ _ _ _ Hr Ht)|discriminate].
    - eexists _, _, _. split; [reflexivity|]. split; [exact (refresh_applies _ _ Hr)|discriminate]. }
  destruct A as (m & f & g & -> & Ha & Hf). destruct m as [[[b r']|er]|]; cbn in Ha |- *; [|by destruct Ha|done]. destruct Ha as (Hr' & Hc & _).
  exists r'. split_and!; [done|by eapply changed_good|by destruct Hc as (_ & _ & ? & _)|].
  intros Hch. rewrite <- (Hf Hch). by destruct Hc.
Qed.

Lemma event_good now s e l : good nowhere s -> events (inbox s) = e :: l ->
  safe (good nowhere) (event shrink now e (set_inbox (mkInbox l (in_epoch (inbox s)) (produced (inbox s)) (exhausted (inbox s))) s)).
Proof.
  intros G E. destruct (pop_good s e l G E) as (Gp & Hn & (Hep & Htok) & Hrq & Hlast). unfold event.
  rewrite decide_False by (fields; lia). fold (pop e l s). set (sp := pop e l s) in *. eapply safe_bind; [by apply syncLoss_good|].
  intros s' (Gs & Ha & Hs). case_decide as He.
  { destruct Hs as [->|((Gn & _) & _)]; [|exact Gn]. cbn. eapply good_weaken; [exact Gs|]. intros k [? _]. by apply He. }
  assert (s' = sp) as ->.
  { destruct Hs as [->|(_ & _ & Hs & _)]; [done|]. exfalso. unfold sp in Hs. unfold pop in Hs. fields. lia. }
  clear Hs Gs. change (red sp) with (red s) in *.
  destruct (validEvent (red s) e) eqn:Hv; cbn [negb].
  2: { exact (lose_good _ now sp Gp). }
  case_decide as Hre; [rewrite requestResync_abort; by apply (reset_good _ nowhere _ _ Gp)|].
  destruct (validEvent_key _ _ Hv Hre) as [Hvk Hnl].
  set (s2 := if decide _ then requestResync sp else sp).
  assert (A : good (popped (epoch (red s)) e) s2 /\ (ev_Kind e <> EventChange -> pending (inv s2) = true \/ dirty (inv s2) <> None) /\
    request (inv s2) = request (inv s) /\ red s2 = red s /\ processed s2 = Sequence e /\ inbox s2 = inbox sp /\ sub s2 = sub s /\ kernel s2 = kernel s).
  { destruct (requestResync_good _ _ Gp) as (R1 & R2 & R3 & _ & R5 & R6 & R7 & R8 & R9). unfold s2. case_decide as Hk; split_and!; try done.
    intros Hc. exfalso. destruct (ev_Kind e); tauto. }
  clearbody s2. destruct A as (G2 & A1 & A2 & A3 & A4 & A5 & A6 & A7).
  assert (HX : forall k, popped (epoch (red s)) e k -> k = ev_key e).
  { intros k [_ Hk]. unfold touches, norm in Hk. cbn in Hk. destruct Hk as [?|[?|<-]]; [done|done|done]. }
  assert (B : exists e', (if decide (ev_Kind e = EventLink) then knownLink e s2 else Some e) = Some e' /\ Sequence e' = Sequence e /\
    ev_key e' = ev_key e /\ dev_Token (ev_device e') = dev_Token (ev_device e) /\
    (ev_Kind e' = EventChange \/ ev_Kind e' = EventRemove \/ ev_Kind e' = EventRefresh) /\ (ev_Kind e = EventChange -> e' = e)).
  { case_decide as Hl.
    - destruct (knownLink_cases e s2 (g_rinv _ _ G2)) as (e' & ? & ? & ? & ? & ?). exists e'. split_and!; try done; [tauto|by rewrite Hl].
    - exists e. split_and!; try done. destruct (ev_Kind e); tauto. }
  destruct B as (e' & -> & B1 & B2 & B3 & B4 & B5). rewrite <- A3 in Hvk, He.
  pose proof (applyEvent_good _ e' s2 G2) as Hap. rewrite B2, B3 in Hap. specialize (Hap HX Hvk). rewrite Htok, He in Hap.
  specialize (Hap eq_refl B4). destruct (applyEvent shrink e' s2) as [[[b s3]|er]|]; [|by rewrite Hap; apply expected_sequence|done].
  destruct Hap as (r' & -> & G3 & Hep' & Hsh). cbn [rbind snd ret safe]. rewrite B1, B2. case_decide as Hd.
  - eapply markDirty_good; [exact G3|done|fields; lia| |exact Hd]. fields. intros rq. rewrite A2. apply Hrq.
  - eapply settled_good; [exact G3|exact Hd|]. fields. destruct (decide (ev_Kind e = EventChange)) as [Hc|Hc].
    + right. intros Hq. rewrite Hep', A3, A5, A6 in Hq. rewrite A7. rewrite A3 in He. rewrite (Hlast He Hc Hq).
      rewrite (B5 Hc) in Hsh. destruct (Hsh Hc) as (d & -> & Hd'). exact Hd'.
    + left. destruct (A1 Hc) as [?|?]; [done|congruence].
Qed.
End events.

(** ** Statuses *)

Lemma ready_statuses l : Forall (fun st => st_ready st = true) l -> filter (fun st => st_ready st = false) l = [].
Proof. intros H. induction H as [|st l Hst Hl IH]; [done|]. rewrite filter_cons_False by congruence. done. Qed.
Lemma ready_statuses_inv l : filter (fun st => st_ready st = false) l = [] -> Forall (fun st => st_ready st = true) l.
Proof.
  induction l as [|st l IH]; [done|]. destruct (st_ready st) eqn:E.
  - rewrite filter_cons_False by congruence. intros H. apply Forall_cons. split; [done|by apply IH].
  - by rewrite filter_cons_True.
Qed.
(** A status is taken: one that is not ready is the end of the subscription. *)
Lemma world_take ep route q b x st l K proc : world ep route q b x (st :: l) K proc ->
  world ep route q (if st_ready st then b else false) x l K proc.
Proof.
  intros [E Kr Ev Sb Fr On St Id Sq La]. apply Forall_cons in St as [_ St]. split; try done.
  - destruct (st_ready st) eqn:Er.
    + destruct x; try done; destruct Sb as (? & ? & Sb); apply Forall_cons in Sb as [_ Sb]; done.
    + destruct x; try done; destruct Sb as (_ & _ & Sb); apply Forall_cons in Sb as [Sb _]; congruence.
  - destruct (st_ready st) eqn:Er; intros Hb.
    + specialize (Fr Hb). by apply Forall_cons in Fr as [_ Fr].
    + apply ready_statuses_inv. rewrite filter_cons_True in On by done. cbn in On. apply length_zero_iff_nil. lia.
  - destruct (st_ready st) eqn:Er; [rewrite filter_cons_False in On by congruence|rewrite filter_cons_True in On by done; cbn in On]; lia.
  - intros Ha Hl. destruct (Id Ha Hl) as (? & I2 & ?). apply Forall_cons in I2 as [_ I2]. done.
Qed.
Lemma world_route ep route q b x l K proc : world ep route q b x l K proc -> (alive ep q -> ~ ~ live ep x) -> world ep true q b x l K proc.
Proof. intros [E Kr Ev Sb Fr On St Id Sq La] H. split; try done. intros Ha Hl. by destruct (H Ha Hl). Qed.
Lemma good_events X s a b : good X s -> world_of (set_red (with_events a b (red s)) s) -> good X (set_red (with_events a b (red s)) s).
Proof.
  intros [Hr Hw [S1 SN S2 S3 S4 S5 S6 S7 S8 S9 SP] [T1 T2 T3 T4 T5 TQ]] Hw'. split; [by apply with_events_rinv|exact Hw'|by split|by split].
Qed.
Lemma take_status_good s st l : good nowhere s -> statuses s = st :: l -> good nowhere (take_status st (set_sub (sub_busy s) (sub s) l s)).
Proof.
  intros G E. pose proof G as [Hr Hw Hs Ht]. unfold world_of in Hw. rewrite E in Hw. pose proof (world_take _ _ _ _ _ _ _ _ _ Hw) as Hw1.
  assert (G1 : good nowhere (set_sub (if st_ready st then sub_busy s else false) (sub s) l s)) by (split; fields; done).
  unfold take_status. destruct (st_ready st) eqn:Er; cbn [andb].
  - case_decide; [exact G1|]. case_bool_decide as Hi; [|exact G1]. apply good_tim. apply good_events; [exact G1|]. fields.
    apply (world_route _ (routeEvents (red s))); [exact Hw1|]. intros Ha Hl.
    destruct (w_idle _ _ _ _ _ _ _ _ Hw Ha Hl) as (_ & I2 & _). apply Forall_cons in I2 as [I2 _]. by apply I2.
  - case_decide; exact G1.
Qed.
Lemma take_statuses_good n : forall s, good nowhere s -> good nowhere (take_statuses n s).
Proof.
  induction n as [|n IH]; intros s G; [done|]. cbn [take_statuses]. destruct (statuses s) as [|st l] eqn:E; [done|].
  by apply IH, take_status_good.
Qed.
Lemma before_good now s : good nowhere s -> safe (good nowhere) (before now s).
Proof.
  intros G. unfold before. eapply safe_bind; [by apply syncLoss_good|]. intros s' (G' & _).
  eapply safe_weaken; [by apply syncLoss_good, take_statuses_good|]. by intros ? (? & _).
Qed.

(** ** Answers *)

Definition taken (i : resync) : resync := mkResync (pending i) None None (watermark i) (candidate i) (rdmaPorts i) (dirty i) (queries i).
Lemma candidate_of_spec r l : forall m, candidate_of r l = Some m ->
  (forall k, ob_Device <$> m !! k = dump_row l k) /\ map_Forall (fun k o => Key (ob_Device o) = k /\ validKey k r = true) m.
Proof.
  induction l as [|o l IH] using rev_ind; intros m.
  - intros [= <-]. done.
  - unfold candidate_of. rewrite foldl_app. cbn [foldl]. fold (candidate_of r l). destruct (candidate_of r l) as [m0|] eqn:E; [|done].
    cbn [mbind option_bind]. destruct (validateObservation r o) eqn:Hv; cbn [negb orb]; [|done]. case_bool_decide as Hn; [done|].
    intros [= <-]. destruct (IH m0 eq_refl) as [Hrow Hval]. split.
    + intros k. specialize (Hrow k). unfold dump_row in *. rewrite filter_app. destruct (decide (Key (ob_Device o) = k)) as [<-|Hne].
      * rewrite filter_cons_True, filter_nil, lookup_insert_eq by done. destruct (m0 !! Key (ob_Device o)); [by destruct Hn|].
        destruct (filter _ l); [done|]. done.
      * rewrite filter_cons_False, filter_nil, app_nil_r, lookup_insert_ne by done. exact Hrow.
    + apply map_Forall_insert_2; [|done]. split; [done|]. unfold validateObservation in Hv. apply andb_true_iff in Hv as [Hv _].
      by apply andb_true_iff in Hv as [Hv _].
Qed.
Definition asked (rq : inventoryRequest) (k : DeviceKey) : Prop := rq_query rq = true /\ k = rq_key rq.
Lemma taken_good s c : good nowhere s -> waiting (inv s) = Some c -> rq_query (cp_request c) = true ->
  good (asked (cp_request c)) (set_inv (taken (inv s)) s).
Proof.
  intros [Hr Hw [S1 SN S2 S3 S4 S5 S6 S7 S8 S9 SP] [T1 T2 T3 T4 T5 TQ]] Hc Hquery. specialize (S3 c Hc). split; fields; [done|done| |].
  - split; cbn -[Z.le]; try done.
    + intros Hd. by destruct (S1 Hd) as (? & ? & ?).
    + intros _ _. destruct (S2 _ S3) as (_ & _ & Hs). by rewrite Hquery in Hs.
  - split; cbn -[Z.le]; try done.
    + intros c' k Hc' _ Hq Hcl. by apply (T2 c' k Hc'); [intros ?| |].
    + intros k H1 H2 H3 _. by apply (T3 k H1 H2 H3); intros ?.
    + intros H1 H2. by destruct (T4 H1 H2) as (_ & ? & ?).
    + intros d k v Hd Hk Hv. destruct (TQ d k v Hd (fun x => x) Hv) as (rq & Hrq & Hq & <-). exfalso. apply Hk.
      rewrite S3 in Hrq. by injection Hrq as <-.
Qed.
(** What a dump tells becomes the candidate. *)
Lemma candidate_good s rq m ports : good nowhere s -> request (inv s) = Some rq -> rq_query rq = false ->
  map_Forall (fun k o => Key (ob_Device o) = k /\ validKey k (red s) = true) m ->
  (forall k, quiet (epoch (red s)) (inbox s) (sub s) k -> clean (inv s) k -> ob_Device <$> m !! k = kernel s !! k) ->
  good nowhere (set_inv (set_candidate m ports (taken (inv s))) s).
Proof.
  intros [Hr Hw [S1 SN S2 S3 S4 S5 S6 S7 S8 S9 SP] [T1 T2 T3 T4 T5 TQ]] Hrq Hq Hm Hk. split; fields; [done|done| |].
  - split; cbn -[Z.le]; try done; [|by intros ? [= <-]]. intros Hd. destruct (S1 Hd). congruence.
  - split; cbn -[Z.le]; try done.
    + intros c k [= <-] _. apply Hk.
    + intros H1 H2. destruct (T4 H1 H2). congruence.
    + intros d k v H1 _ Hv. destruct (TQ d k v H1 (fun x => x) Hv) as (rq' & Hrq' & Hq' & _). congruence.
Qed.
Lemma settle_good s rq key c c' : good (asked rq) s -> rq_key rq = key -> candidate (inv s) = Some c ->
  dirty (inv s) <> None -> request (inv s) = None ->
  map_Forall (fun k o => Key (ob_Device o) = k /\ validKey k (red s) = true) c' -> (forall k, k <> key -> c' !! k = c !! k) ->
  (quiet (epoch (red s)) (inbox s) (sub s) key -> ob_Device <$> c' !! key = kernel s !! key) ->
  good nowhere (settle_query key c' s).
Proof.
  intros [Hr Hw [S1 SN S2 S3 S4 S5 S6 S7 S8 S9 SP] [T1 T2 T3 T4 T5 TQ]] <- Hc Hd Hn Hm Ho Hk. unfold settle_query. cbn [dirty set_candidate].
  destruct (dirty (inv s)) as [d|] eqn:Ed; [|done]. split; fields; [done|done| |].
  - split; cbn -[Z.le]; try done.
    + intros rq'. congruence.
    + intros d' k v f [= <-] [_ Hv]%lookup_delete_Some. by eapply S7.
    + intros d' [= <-]. destruct (S8 d eq_refl) as [Hnd Hq]. split; [by apply NoDup_filter|]. intros k.
      rewrite list_elem_of_filter, Hq. split; [intros [Hne (v & Hv)]; exists v; by rewrite lookup_delete_ne|].
      intros (v & Hv). apply lookup_delete_Some in Hv as [? ?]. split; [done|by exists v].
    + by intros ? [= <-].
  - split; cbn -[Z.le]; try done.
    + intros rq' k v. congruence.
    + intros ? k [= <-] _ Hq Hcl. destruct (decide (k = rq_key rq)) as [->|Hne]; [by apply Hk|]. rewrite Ho by done.
      apply (T2 c k Hc); [by intros [_ ?]|done|]. unfold clean in *. cbn in Hcl. rewrite lookup_delete_ne in Hcl by done. by rewrite Ed.
    + intros H1 H2. destruct (T4 H1 H2) as (_ & ? & _). congruence.
    + intros d' k v [= <-] _ [Hne Hv]%lookup_delete_Some. eapply TQ; [reflexivity| |exact Hv]. by intros [_ ?].
Qed.
Lemma validate_key r o : validateObservation r o = true -> validKey (Key (ob_Device o)) r = true.
Proof. unfold validateObservation. rewrite !andb_true_iff. tauto. Qed.
Lemma acceptResult_good now s : good nowhere s -> is_Some (waiting (inv s)) -> exists s', acceptResult now s = Some s' /\ good nowhere s'.
Proof.
  intros G [c Hc]. pose proof (taken_good s c G Hc) as G1. pose proof (g_shape _ _ G) as Hs. pose proof (s_waiting _ _ _ _ _ Hs c Hc) as Hrq.
  destruct (s_request _ _ _ _ _ Hs _ Hrq) as (Hep & _ & Hcand).
  assert (Hdirty : dirty (inv s) <> None) by (intros Hd; destruct (s_none _ _ _ _ _ Hs Hd); congruence).
  pose proof (fun k v => t_learned _ _ _ _ _ _ _ (g_told _ _ G) (cp_request c) k v Hrq) as Hlearned.
  assert (Hl : forall k, learned (inv s) (exec s) k = learned_answer (cp_answer c) k) by (intros k; unfold learned; by rewrite Hc).
  pose proof (fail_good nowhere nowhere now s G) as Gf. unfold acceptResult. rewrite Hc. fold (taken (inv s)).
  set (s1 := set_inv (taken (inv s)) s) in *. change (fail now s) with (fail now s1) in Gf. cbv zeta.
  rewrite decide_False by (intros E; by apply E). set (rq := cp_request c) in *. clearbody rq.
  destruct (rq_query rq) eqn:Eq.
  - specialize (G1 eq_refl). unfold acceptQuery. destruct (rdmaPorts (inv s1)); [by eexists|]. cbn [dirty inv s1 set_inv taken].
    destruct (dirty (inv s)) as [d|] eqn:Ed; [|done]. cbn [mbind option_bind].
    destruct (d !! rq_key rq) as [[version f]|] eqn:Ek.
    2: { eexists. split; [done|]. destruct G1 as [Hr1 Hw1 Hs1 [T1 T2 T3 T4 T5 TQ]]. split; [done..|]. fields. split; cbn -[Z.le] in *; try done.
      - intros c' k Hc' _ Hq Hcl. by apply (t_candidate _ _ _ _ _ _ _ (g_told _ _ G) c' k Hc'); [intros ?| |].
      - intros k. congruence.
      - intros d' k v Hd' _ Hv. destruct (decide (asked rq k)) as [[_ ->]|Hk]; [congruence|by apply (TQ d' k v)]. }
    assert (Gm : good nowhere (markDirty now (rq_key rq) version s1)).
    { eapply markDirty_good; [exact G1|by intros k [_ ?]| |done|]; unfold s1; fields; cbn; [|by rewrite Ed].
      by eapply (s_versions _ _ _ _ _ Hs). }
    unfold identityToken. rewrite known_device_inventory by apply G1. cbn [mbind option_bind].
    case_decide as Hv; [by eexists|]. destruct (negb (sameRevision _ _)); [by eexists|].
    cbn [candidate inv s1 set_inv taken]. destruct (candidate (inv s)) as [cd|] eqn:Ecd; [|by destruct Hcand]. cbn [mbind option_bind].
    assert (Hrel : relevant (inv s) rq (rq_key rq)) by (unfold relevant; rewrite Eq; split; [done|]; exists d, f; subst; done).
    pose proof (s_candidate _ _ _ _ _ Hs cd Ecd) as Hcv.
    destruct (cp_answer c) as [| | |o ok]; try (by eexists).
    + eexists. split; [done|]. eapply (settle_good s1 rq); [exact G1|done|exact Ecd|by unfold s1; fields; cbn; rewrite Ed|done| | |].
      * by apply map_Forall_delete.
      * intros k Hk. by rewrite lookup_delete_ne.
      * intros Hq. rewrite lookup_delete_eq. cbn. apply (Hlearned (rq_key rq) None); [by intros ?|done|done|]. by rewrite Hl.
    + case_decide as Hk; [by eexists|]. destruct (validateObservation _ _) eqn:Hval; cbn [negb]; [|by eexists].
      case_decide; [by eexists|]. destruct ok; [|by eexists]. eexists. split; [done|].
      eapply (settle_good s1 rq); [exact G1|done|exact Ecd|by unfold s1; fields; cbn; rewrite Ed|done| | |].
      * apply map_Forall_insert_2; [|done]. split; [done|]. rewrite <- Hk. by apply validate_key.
      * intros k Hne. by rewrite lookup_insert_ne.
      * intros Hq. rewrite lookup_insert_eq. cbn. apply (Hlearned (rq_key rq) (Some (ob_Device o))); [by intros ?|done|done|].
        rewrite Hl. cbn. by rewrite decide_True.
  - destruct (cp_answer c) as [| |complete l ports ok|]; try (by eexists). destruct complete; cbn [negb orb]; [|by eexists].
    case_bool_decide; [by eexists|]. destruct (candidate_of (red s1) l) as [m|] eqn:Em; [|by eexists].
    destruct ok; cbn [negb]; [|by eexists]. eexists. split; [done|]. destruct (candidate_of_spec _ _ _ Em) as [Hrow Hval].
    apply (candidate_good s rq); [done..|exact Hval|].
    intros k Hq Hcl. apply (Hlearned k); [by intros ?|exact Hq|unfold relevant; by rewrite Eq|]. rewrite Hl. cbn. by rewrite Hrow.
Qed.

Lemma fail_red now s : red (fail now s) = red s.
Proof. done. Qed.
Lemma markDirty_red now key v s : red (markDirty now key v s) = red s.
Proof.
  unfold markDirty. destruct (dirty (inv s)) as [d|]; [|done]. destruct (d !! key) as [[? ?]|]; [done|]. by case_decide.
Qed.
Lemma settle_red key c s : red (settle_query key c s) = red s.
Proof. unfold settle_query. by destruct (dirty _). Qed.
Lemma acceptResult_red now s s' : acceptResult now s = Some s' -> red s' = red s.
Proof.
  unfold acceptResult. destruct (waiting (inv s)) as [c|]; [|done]. fold (taken (inv s)). set (s1 := set_inv (taken (inv s)) s).
  change (red s) with (red s1). case_decide; [by intros [= <-]|]. destruct (rq_query _).
  - unfold acceptQuery. destruct (rdmaPorts _); [by intros [= <-]|]. destruct (dirty (inv s1) ≫= _) as [[v f]|]; [|by intros [= <-]].
    destruct (identityToken _ _); [|done]. cbn [mbind option_bind]. case_decide; [intros [= <-]; apply markDirty_red|].
    destruct (negb _); [intros [= <-]; apply markDirty_red|]. destruct (candidate _); [|done]. cbn [mbind option_bind].
    intros [= <-]. destruct (cp_answer c); [done|apply settle_red|done|]. case_decide; [done|]. destruct (negb _); [done|].
    case_decide; [done|]. destruct (negb _); [done|]. apply settle_red.
  - destruct (cp_answer c); try by intros [= <-]. destruct (negb _ || _); [by intros [= <-]|]. destruct (candidate_of _ _); [|by intros [= <-]].
    destruct (negb _); by intros [= <-].
Qed.

(** ** Requests *)

Definition requested (q : inventoryRequest) (i : resync) : resync :=
  mkResync (pending i) (Some q) (waiting i) (watermark i) (candidate i) (rdmaPorts i) (dirty i) (queries i).
Lemma submit_spec key query version s : rinv (red s) -> busy s = false ->
  match submit key query version s with
  | Some (inl s') => exists t n, SourceEpoch t = epoch (red s) /\
      let q := mkRequest t key query version in s' = set_inv (requested q (inv s)) (set_exec n true (Reading q (kernel s)) s)
  | Some (inr e) => e = ErrSequence
  | None => False
  end.
Proof.
  intros H Hb. unfold submit. case_decide; [done|]. unfold identityToken. rewrite known_device_inventory by done. cbn [mbind option_bind].
  rewrite Hb. eexists _, _. split; [|reflexivity]. by destruct (inventory (red s) key).
Qed.
Lemma waiting_none r proc i b ex : shape r proc i b ex -> request i = None -> waiting i = None.
Proof. intros S Hn. destruct (waiting i) as [c|] eqn:E; [|done]. pose proof (s_waiting _ _ _ _ _ S c E). congruence. Qed.

Lemma dump_good s : good nowhere s -> busy s = false -> request (inv s) = None -> candidate (inv s) = None -> routeEvents (red s) = true ->
  safe (good nowhere) (submit zero_DeviceKey false 0 (set_inv (set_pending false (set_dirty ∅ (queries (inv s)) (inv s))) s)).
Proof.
  intros [Hr Hw Hs [T1 T2 T3 T4 T5 TQ]] Hb Hn Hc Hro. set (s1 := set_inv _ s).
  pose proof (submit_spec zero_DeviceKey false 0 s1 Hr Hb) as Hsub. pose proof (waiting_none _ _ _ _ _ Hs Hn) as Hwt.
  destruct (submit _ _ _ s1) as [[s'|e]|]; [|by rewrite Hsub; apply expected_sequence|done]. destruct Hsub as (t & n & Ht & ->). unfold s1 in *. clear s1.
  destruct Hs as [S1 SN S2 S3 S4 S5 S6 S7 S8 S9 SP].
  assert (Hd : dirty (inv s) = None).
  { destruct (dirty (inv s)) eqn:Ed; [|done]. destruct (SN ltac:(done) Hn). congruence. }
  destruct (S1 Hd) as (_ & _ & Hq). split; fields; [done|done| |].
  - split; cbn -[Z.le]; rewrite ?Hc, ?Hwt, ?Hq; try done.
    + intros rq [= <-]. done.
    + intros rq [= <-] _. split; [done|]. left. by eexists.
    + intros d k v f [= <-]. by rewrite lookup_empty.
    + intros d [= <-]. split; [apply NoDup_nil_2|]. intros k. split; [by intros ?%not_elem_of_nil|]. intros [v Hv]. by rewrite lookup_empty in Hv.
  - split; cbn -[Z.le]; rewrite ?Hc; try done.
    + intros rq k v _ _ _ _. unfold learned. cbn. rewrite Hwt. by intros [= <-].
    + intros H1 H2. exfalso. destruct (w_idle _ _ _ _ _ _ _ _ Hw H1 H2). congruence.
    + intros d k v [= <-] _. by rewrite lookup_empty.
Qed.
Lemma nextQuery_good s c : good nowhere s -> busy s = false -> request (inv s) = None -> candidate (inv s) = Some c ->
  safe (good nowhere) (nextQuery s).
Proof.
  intros G Hb Hn Hc. unfold nextQuery. destruct (queries (inv s)) as [|key l] eqn:Eq; [exact G|].
  destruct G as [Hr Hw Hs [T1 T2 T3 T4 T5 TQ]]. pose proof (waiting_none _ _ _ _ _ Hs Hn) as Hwt.
  destruct Hs as [S1 SN S2 S3 S4 S5 S6 S7 S8 S9 SP]. destruct (dirty (inv s)) as [d|] eqn:Ed; [|destruct (S1 eq_refl); naive_solver].
  destruct (S8 d eq_refl) as [Hnd Hq]. rewrite Eq in Hnd, Hq. cbn [mbind option_bind].
  destruct (proj1 (Hq key)) as (version & Hk); [apply list_elem_of_here|]. rewrite Hk. apply NoDup_cons in Hnd as [Hout Hnd].
  pose proof (submit_spec key true version s Hr Hb) as Hsub.
  destruct (submit _ _ _ s) as [[s'|e]|]; [|by rewrite Hsub; apply expected_sequence|done]. destruct Hsub as (t & n & Ht & ->).
  cbn [rbind inv set_inv requested dirty set_exec]. rewrite Ed. cbn [ret safe].
  assert (Hlook : forall k v f, <[key := (version, false)]> d !! k = Some (v, f) ->
    (k = key /\ v = version /\ f = false) \/ (k <> key /\ d !! k = Some (v, f))).
  { intros k v f [[<- [= <- <-]]|[Hne ?]]%lookup_insert_Some; [by left|by right]. }
  split; fields; [done|done| |].
  - split; cbn -[Z.le]; rewrite ?Hc, ?Hwt; try done.
    + intros rq [= <-]. cbn. split_and!; [done|by eapply S7|by eexists].
    + intros rq [= <-] _. split; [done|]. left. by eexists.
    + intros d' k v f [= <-] [(-> & -> & _)|[_ Hv]]%Hlook; by eapply S7.
    + intros d' [= <-]. split; [done|]. intros k. split.
      * intros Hin. assert (k <> key) by congruence. destruct (proj1 (Hq k)) as [v Hv]; [by apply list_elem_of_further|].
        exists v. by rewrite lookup_insert_ne.
      * intros [v [(_ & _ & ?)|[Hne Hv]]%Hlook]; [done|]. assert (Hin : k ∈ key :: l) by (apply Hq; by exists v).
        by apply elem_of_cons in Hin as [->|?].
    + by rewrite <- Hc.
  - split; cbn -[Z.le]; rewrite ?Hc; try done.
    + intros rq k v _ _ _ _. unfold learned. cbn. rewrite Hwt. by intros [= <-].
    + intros c' k [= <-] _ Hqu Hcl. unfold clean in Hcl. cbn in Hcl. apply lookup_insert_None in Hcl as [Hcl Hne].
      apply (T2 c k Hc); [by intros ?|done|]. unfold clean. by rewrite Ed.
    + intros H1 H2. destruct (T4 H1 H2) as (_ & ? & _). congruence.
    + intros d' k v [= <-] _ [(-> & _)|[Hne Hv]]%Hlook; [by eexists|].
      destruct (TQ d k v eq_refl (fun x => x) Hv) as (rq & ? & _). congruence.
Qed.

(** ** Deadlines *)

Lemma arm_good X now s : good X s -> exists s', arm now s = ret s' /\ good X s'.
Proof.
  intros [Hr Hw Hs Ht]. unfold arm, cancel.
  destruct (Deadlines.cancel_spec false coordinator_key (r_deadlines (red s)) (ri_deadlines _ Hr)) as (q & -> & Hq & _).
  cbn [mbind option_bind]. assert (A : forall q, Deadlines.wf q -> good X (set_red (with_deadlines q (red s)) s)).
  { intros q1 Hq1. split; [by apply with_deadlines_rinv|exact Hw| |].
    - destruct Hs as [S1 SN S2 S3 S4 S5 S6 S7 S8 S9 SP]. by split.
    - destruct Ht as [T1 T2 T3 T4 T5 TQ]. by split. }
  case_decide; [eexists; split; [done|by apply A]|]. cbn [r_deadlines with_deadlines].
  match goal with |- context[Deadlines.set ?e q] => destruct (Deadlines.set_spec e q Hq) as (q' & -> & Hq' & _) end.
  eexists. split; [done|]. exact (A q' Hq').
Qed.

(** ** The owner's turn *)

Section advance.
Context (shrink : reducer -> bool) (range : gmap DeviceKey Observation -> list (DeviceKey * Observation)).
Context (range_perm : forall c, range c ≡ₚ map_to_list c).

Lemma absent_bound c r r' : rinv r -> rinv r' -> (forall k, c !! k = None -> inventory r' k = inventory r k) ->
  glen (absent c r') <= glen (slots r).
Proof.
  intros H H' Hinv. unfold glen. apply inj_le. rewrite <- (length_fmap key_of (absent c r')), <- (length_fmap key_of (slots r)).
  apply submseteq_length, NoDup_submseteq.
  - eapply sublist_NoDup; [eapply indexes_nodup, H'|]. apply fmap_sublist. apply sublist_filter.
  - intros k (s & -> & Hs)%list_elem_of_fmap. apply list_elem_of_filter in Hs as [Hc Hs].
    assert (Hk : inventory r' (key_of s) = Some (device s)) by (apply (inventory_elem _ _ _ H'); by exists s).
    rewrite Hinv in Hk by done. apply (inventory_elem _ _ _ H) in Hk as (s' & Hs' & Hd & _).
    apply list_elem_of_fmap. exists s'. split; [|done]. unfold key_of. by rewrite Hd.
Qed.
Lemma keyed_range r c : map_Forall (fun k o => Key (ob_Device o) = k /\ validKey k r = true) c -> keyed r (range c).
Proof using range_perm.
  intros Hc. split; [rewrite range_perm; apply NoDup_fst_map_to_list|]. apply Forall_forall. intros [k o] Hin.
  rewrite range_perm in Hin. apply elem_of_map_to_list in Hin. exact (Hc k o Hin).
Qed.
(** The preflight of a commit. *)
Definition affordable (r : reducer) (c : gmap DeviceKey Observation) : Prop :=
  revision r + glen (slots r) + Z.of_nat (size c) <= MaxUint64 /\ generation r + Z.of_nat (size c) <= MaxUint64.
Definition timely (r : reducer) (now : Stamp) : Prop :=
  0 <= Monotonic now /\ (Present (lastResync r) = true -> Monotonic (Value (lastResync r)) <= Monotonic now).

(** Once the candidate is affordable the commit goes through. *)
Lemma commit_reducer c r : rinv r -> map_Forall (fun k o => Key (ob_Device o) = k /\ validKey k r = true) c -> affordable r c ->
  exists r', (r1 <-- commit_observe (range c) r; commit_remove shrink (length (slots r1)) 0 c r1) = ret r' /\
    rinv r' /\ same_session r r' /\ forall k, agrees (inventory r' k) (ob_Device <$> c !! k).
Proof using range_perm.
  intros H Hc [Ha1 Ha2]. assert (Hsize : glen (range c) = Z.of_nat (size c)).
  { unfold glen. by rewrite range_perm, length_map_to_list. }
  pose proof (commit_observe_spec (range c) r H (keyed_range r c Hc)) as Hobs. pose proof (glen_nonneg (slots r)).
  destruct (commit_observe (range c) r) as [[r1|e]|]; cbn [rbind]; [|lia|done]. destruct Hobs as (H1 & Hss1 & Hin & Hout & Hrev).
  assert (Hnot : forall k, c !! k = None -> inventory r1 k = inventory r k).
  { intros k Hk. apply Hout. rewrite range_perm. intros ([k' o] & -> & Hel%elem_of_map_to_list)%list_elem_of_fmap. cbn in Hk. congruence. }
  pose proof (absent_bound c r r1 H H1 Hnot) as Hb.
  pose proof (commit_remove_spec shrink c (length (slots r1)) 0 r1 H1 ltac:(lia) ltac:(intros; lia)) as Hrem.
  destruct (commit_remove _ _ _ _ _) as [[r'|e]|]; [|lia|done]. destruct Hrem as (H' & Hss' & Hinv).
  exists r'. split_and!; [done|done|by eapply same_session_trans|]. intros k. rewrite Hinv. destruct (c !! k) as [o|] eqn:Hk.
  - rewrite decide_True by (by eexists). destruct (Hin k o) as (d & -> & Hd); [|exact Hd]. rewrite range_perm. by apply elem_of_map_to_list.
  - by rewrite decide_False by (by intros [? ?]).
Qed.
Lemma commit_recorded c r now : rinv r -> map_Forall (fun k o => Key (ob_Device o) = k /\ validKey k r = true) c -> affordable r c ->
  ~ (Monotonic now < 0 \/ Present (lastResync r) = true /\ Monotonic now < Monotonic (Value (lastResync r))) ->
  exists r1 r', (r1 <-- commit_observe (range c) r; commit_remove shrink (length (slots r1)) 0 c r1) = ret r1 /\
    recordResync (mkToken 0 (revision r1) (epoch r1) 0) now r1 = Some (true, r') /\ rinv r' /\
    (forall k, agrees (inventory r' k) (ob_Device <$> c !! k)) /\
    epoch r' = epoch r /\ resyncEpoch r' = epoch r /\ routeEvents r' = routeEvents r.
Proof using range_perm.
  intros H Hc Ha Htime. destruct (commit_reducer c r H Hc Ha) as (r1 & E & H1 & Hss & Hag). destruct Hss as (He & Hre & Hro & Hlast & Hns).
  destruct (recordResync_stepped (mkToken 0 (revision r1) (epoch r1) 0) now r1 H1) as (b & r' & E' & H' & _). exists r1, r'.
  assert (b = true) as ->.
  { destruct b; [done|]. unfold recordResync in E'. rewrite decide_False in E'.
    - unfold cancel in E'. destruct (Deadlines.cancel _ _ _); [|done]. cbn -[Deadlines.set Deadlines.deadlineAfter] in E'.
      case_decide; [|done]. by destruct (Deadlines.set _ _).
    - cbn -[Z.lt]. rewrite Hlast. intros [?|[?|[?|?]]]; [done|done|apply Htime; by left|apply Htime; by right]. }
  destruct (recordResync_changes _ _ _ _ E') as (Hi & He' & Hre' & Hro'). split_and!; try done; try congruence.
  intros k. rewrite Hi. apply Hag.
Qed.
Lemma traffic_reuse_cases h r : traffic_reuse h r = ret () \/ traffic_reuse h r = err ErrSequence.
Proof. unfold traffic_reuse. destruct (h_reuse h); [|by left]. case_decide; auto. Qed.
Lemma commit_good interval now h c s : good nowhere s -> candidate (inv s) = Some c -> dirty (inv s) = Some ∅ ->
  safe (good nowhere) (commit shrink range interval now h c s).
Proof using range_perm.
  intros [Hr Hw Hs Ht] Hc Hd. unfold commit. case_decide as Hrd; [apply expected_sequence|]. case_decide as Hp; [apply expected_sequence|]. case_decide as Htime; [by right; right|].
  pose proof (s_candidate _ _ _ _ _ Hs c Hc) as Hcv.
  destruct (commit_recorded c (red s) now Hr Hcv) as (r1 & r' & E & E' & H' & Hag & He' & Hre' & Hro'); [unfold affordable; lia|done|].
  destruct (commit_observe (range c) (red s)) as [[r0|e]|]; cbn [rbind] in *; [|done|done]. rewrite E. cbn [rbind ret]. rewrite E'.
  destruct (traffic_reuse_cases h r') as [->| ->]; [|apply expected_sequence]. unfold rdma_replace. rewrite (decide_False _ _ Hrd).
  cbn [rbind ret safe]. apply good_tim. split; fields; [done| | |].
  - by rewrite He', Hro'.
  - destruct Hs as [S1 SN S2 S3 S4 S5 S6 S7 S8 S9 SP]. by split; cbn -[Z.le].
  - destruct Ht as [T1 T2 T3 T4 T5 TQ]. split; cbn -[Z.le]; try done; rewrite ?He', ?Hre'.
    + intros k _ _ _ _ Hq. rewrite <- (T2 c k Hc); [apply Hag|by intros ?|done|]. unfold clean. by rewrite Hd, lookup_empty.
    + intros H2 H3. destruct (T4 H2 H3) as (_ & ? & _). congruence.
    + done.
Qed.
Lemma advanceInventory_good interval now h s : good nowhere s -> busy s = false -> request (inv s) = None -> routeEvents (red s) = true ->
  safe (good nowhere) (advanceInventory shrink range interval now h s).
Proof using range_perm.
  intros G Hb Hn Hro. unfold advanceInventory. case_decide; [exact G|]. destruct (candidate (inv s)) as [c|] eqn:Hc.
  - case_decide as Hd; [by eapply nextQuery_good|]. case_decide.
    + eapply safe_weaken; [by apply syncLoss_good|]. by intros s' (? & _).
    + apply commit_good; [done|done|]. destruct (dirty (inv s)) as [d|] eqn:Ed; cbn in Hd; [by rewrite Hd|].
      destruct (s_none _ _ _ _ _ (g_shape _ _ G) Ed) as (_ & ? & _). congruence.
  - destruct (pending (inv s) && _); [|exact G]. by apply dump_good.
Qed.
Lemma subscribe_good now s : good nowhere s -> good nowhere (subscribe now s).
Proof.
  intros G. unfold subscribe. destruct (sub_busy s) eqn:Hb; cbn [negb andb]; [done|]. case_bool_decide; [|done]. apply good_tim.
  destruct G as [Hr [E Kr Ev Sb Fr On St Id Sq La] Hs [T1 T2 T3 T4 T5 TQ]].
  assert (Hx : sub s = NoSub) by (destruct (sub s); [done|destruct Sb as (_ & ? & _); congruence..]). rewrite Hx in Id, T4.
  assert (Hnl : forall ep ep', ~ live ep (Subscribing ep')) by (intros ? ? (? & ? & ? & ?); done).
  assert (Hn0 : forall ep, ~ live ep NoSub) by (intros ? (? & ? & ? & ?); done).
  split; fields; [done| |done|].
  - split; try done.
    + split_and!; [lia|done|by apply Fr].
    + intros Ha _. by apply Id.
    + by intros [_ (? & ? & ?)].
  - split; try done.
    + intros rq k v _ _ [[_ (? & ? & ?)] _]. done.
    + intros c k _ _ [[_ (? & ? & ?)] _]. done.
    + intros k _ _ _ _ [[_ (? & ? & ?)] _]. done.
    + intros Ha _. by apply T4.
Qed.
Lemma arm_safe now s : good nowhere s -> safe (good nowhere) (arm now s).
Proof. intros G. by destruct (arm_good nowhere now s G) as (s' & -> & ?). Qed.

Lemma advance_good interval now h s : good nowhere s -> safe (good nowhere) (advance shrink range interval now h s).
Proof using range_perm.
  intros G. unfold advance. case_decide; [by right; left|]. set (n := Monotonic now).
  eapply safe_bind; [by eapply safe_weaken; [apply syncLoss_good|intros s' (? & _); exact H0]|]. clear s G. intros s G.
  apply (safe_bind (good nowhere)); [case_decide; [by eapply lose_good|exact G]|]. clear s G. intros s G.
  destruct (routeEvents (red s)) eqn:Hro; cbn [negb]; [|by apply arm_safe, subscribe_good].
  set (s1 := if decide _ then _ else s). assert (A : good nowhere s1 /\ routeEvents (red s1) = true).
  { unfold s1. case_decide; [|done]. destruct (requestResync_good _ _ G) as (G' & _ & _ & _ & Er & _). split; [by apply good_tim|].
    cbn [red set_tim]. by rewrite Er. }
  clearbody s1. clear G Hro. destruct A as [G Hro].
  assert (A : exists s2, (if decide (is_Some (waiting (inv s1)) /\ watermark (inv s1) <= processed s1) then acceptResult n s1 else Some s1) = Some s2 /\
    good nowhere s2 /\ routeEvents (red s2) = true).
  { case_decide as Hw; [|by exists s1]. destruct (acceptResult_good n s1 G (proj1 Hw)) as (s2 & E & G2). exists s2. split_and!; [done|done|].
    rewrite <- Hro. f_equal. by eapply acceptResult_red. }
  destruct A as (s2 & -> & G2 & Hro2). apply (safe_bind (good nowhere)); [|by intros; apply arm_safe].
  destruct (busy s2) eqn:Hb; cbn [negb andb]; [exact G2|]. case_bool_decide; [|exact G2]. by apply advanceInventory_good.
Qed.

(** ** Every reachable state *)

Lemma step_good interval a s o : good nowhere s -> step shrink range interval a s o -> safe (good nowhere) o.
Proof using range_perm.
  intros G Hst. pose proof G as [Hr Hw Hs Ht]. pose proof (w_epoch _ _ _ _ _ _ _ _ Hw) as He. fields.
  destruct Hst; try (match goal with H : sub _ = _ |- _ => rewrite H in Hw, Ht end); cbn [ret safe].
  - split; fields; [done|by apply world_kernel|done|]. eapply told_mono; [exact Ht| |].
    + intros k Hq. apply (kernel_quiet _ _ _ _ _ _ key) in Hq as [Hq Hne]; [|by eapply announced_touches]. split; [done|].
      destruct new; cbn; [by rewrite lookup_insert_ne|by rewrite lookup_delete_ne].
    + intros Ha Hn. split; [done|]. intros (sk & lost & n & Hx). apply Hn. rewrite Hx. cbn. destruct overflow; by eexists _, _, _.
  - split; fields; [done|by apply (world_lose _ _ _ _ _ _ _ _ ep true Hw)|done|by apply (told_lose _ _ _ _ _ _ _ ep true He) in Ht].
  - split; fields; [done|by apply world_join|done|by apply told_join].
  - split; fields; [done|by eapply world_ready|done|by eapply told_notified].
  - destruct (push ep kind o (inbox s)) as [ok q] eqn:Ep. cbn [ret safe]. split; fields; [done|by eapply world_deliver|done|].
    eapply told_deliver; [done| |exact Ht|exact Ep]. by destruct (w_sub _ _ _ _ _ _ _ _ Hw).
  - split; fields; [done|by eapply world_break|done|]. eapply told_break; [|exact Ht]. done.
  - split; fields; [done|by apply (world_lose _ _ _ _ _ _ _ _ ep false Hw)|done|by apply (told_lose _ _ _ _ _ _ _ ep false He) in Ht].
  - split; fields; [done|by apply (world_lose _ _ _ _ _ _ _ _ ep true Hw)|done|by apply (told_lose _ _ _ _ _ _ _ ep true He) in Ht].
  - by eapply read_good.
  - by eapply finish_good.
  - by apply before_good.
  - by apply event_good.
  - by apply result_good.
  - by apply advance_good.
Qed.
Lemma reachable_good interval s : reachable shrink range interval s -> good nowhere s.
Proof using range_perm.
  induction 1 as [ns conf k Hk|a s s' _ IH Hst]; [|exact (step_good interval a s _ IH Hst)].
  split; fields; [apply newReducer_rinv| | |].
  - split; try done; [by left|cbn; lia|]. by intros [_ (? & ? & ?)].
  - by split; cbn -[Z.le].
  - by split; cbn -[Z.le].
Qed.
End advance.

(** ** Properties *)

(** C16: under every interleaving of the kernel, the event reader, the inventory
    executor and the owner: when no reconciliation is asked for or under way, the
    last one was of the current epoch, the subscription is joined with no loss
    pending, and no announcement of a device is still on its way, then the
    inventory has exactly the kernel's record of that device - and no device
    where the kernel has none. *)
Theorem reconciled shrink range interval s k : (forall c, range c ≡ₚ map_to_list c) -> reachable shrink range interval s ->
  pending (inv s) = false -> dirty (inv s) = None -> resyncEpoch (red s) = epoch (red s) ->
  quiet (epoch (red s)) (inbox s) (sub s) k ->
  agrees (inventory (red s) k) (kernel s !! k).
Proof.
  intros Hrange H Hp Hd He Hq. pose proof (reachable_good shrink range Hrange interval s H) as G.
  by apply (t_synced _ _ _ _ _ _ _ (g_told _ _ G)); [| | |intros ?|].
Qed.

(** C17: the owner never panics. Whatever the others do, each of its handlers
    leaves a reachable state, or ends the loop because a sequence or the clock is
    exhausted or because time went backwards: an event out of order, a second
    request for an occupied executor, a rejected resync and an invalid identity
    never happen. *)
Theorem owner_safe shrink range interval a s o : (forall c, range c ≡ₚ map_to_list c) -> reachable shrink range interval s ->
  step shrink range interval a s o -> safe (reachable shrink range interval) o.
Proof.
  intros Hrange H Hst. pose proof (step_good shrink range Hrange interval a s o (reachable_good _ _ Hrange _ _ H) Hst) as Hsafe.
  destruct o as [[s'|e]|]; [|exact Hsafe|exact Hsafe]. by eapply reach_step.
Qed.

(** A traffic schedule about to reuse the statistics finds too few attempt
    numbers left for the devices of [r]. *)
Definition starved (h : hooks) (r : reducer) : Prop := traffic_reuse h r = err ErrSequence.

(** C18: what a commit can do. It is refused before anything is changed when the
    sequence numbers of the reducer or of the RDMA schedule might not last or
    time went backwards. Otherwise every device of the candidate is stored,
    every other device is removed and the current epoch is recorded as
    reconciled, nothing failing on the way; then the commit ends with no
    reconciliation left under way - unless the traffic schedule, which is asked
    only now, has too few attempt numbers left, the one failure that comes after
    the change. *)
Theorem commit_outcomes shrink range interval now h c s : (forall c, range c ≡ₚ map_to_list c) -> rinv (red s) ->
  map_Forall (fun k o => Key (ob_Device o) = k /\ validKey k (red s) = true) c ->
  let refused := ~ affordable (red s) c \/ h_rdma h = Some MaxUint64 in
  (refused /\ commit shrink range interval now h c s = err ErrSequence) \/
  (~ refused /\ ~ timely (red s) now /\ commit shrink range interval now h c s = err ErrTime) \/
  (~ refused /\ timely (red s) now /\ exists r',
     (forall k, agrees (inventory r' k) (ob_Device <$> c !! k)) /\ epoch r' = epoch (red s) /\ resyncEpoch r' = epoch (red s) /\
     (starved h r' /\ commit shrink range interval now h c s = err ErrSequence \/
      ~ starved h r' /\ exists s', commit shrink range interval now h c s = ret s' /\ red s' = r' /\
        pending (inv s') = false /\ request (inv s') = None /\ candidate (inv s') = None /\ dirty (inv s') = None /\ queries (inv s') = [])).
Proof.
  intros Hrange H Hc refused. unfold commit, refused. case_decide as Hrd; [left; tauto|].
  case_decide as Hp; [left; split; [unfold affordable; lia|done]|].
  assert (Ha : affordable (red s) c) by (unfold affordable; lia). right. assert (Hn : ~ refused) by (unfold refused; tauto).
  case_decide as Htime; [left; split_and!; [done| |done]; unfold timely; intros [? Hl]; destruct Htime as [?|[Hl' ?]]; [lia|specialize (Hl Hl'); lia]|].
  right. split; [done|]. split; [unfold timely; split; [lia|intros; destruct (decide (Monotonic now < Monotonic (Value (lastResync (red s)))));
    [destruct Htime; by right|lia]]|].
  destruct (commit_recorded shrink range Hrange c (red s) now H Hc Ha Htime) as (r1 & r' & E1 & E2 & _ & Hag & He & Hre & _).
  destruct (commit_observe (range c) (red s)) as [[r0|e]|]; cbn [rbind] in *; [|done|done]. rewrite E1. cbn [rbind ret]. rewrite E2.
  exists r'. split_and!; [done..|]. unfold starved, rdma_replace. rewrite (decide_False _ _ Hrd).
  destruct (traffic_reuse_cases h r') as [-> | ->]; [right; split; [done|]|by left]. eexists. by split_and!.
Qed.

(** C19: a reconciliation under way is never stuck. Its request is with the
    inventory executor or has been answered; or its dump is there, and either
    nothing is left to ask, so that it can be committed, or a query is queued. *)
Theorem reconciliation_moves shrink range interval s d : (forall c, range c ≡ₚ map_to_list c) -> reachable shrink range interval s ->
  dirty (inv s) = Some d ->
  (exists rq, request (inv s) = Some rq /\
     ((exists a, waiting (inv s) = Some (mkCompletion rq a)) \/ (exists seen, exec s = Reading rq seen) \/
      exists a, exec s = Done (mkCompletion rq a))) \/
  (request (inv s) = None /\ exists c, candidate (inv s) = Some c /\
     (d = ∅ \/ exists key l v, queries (inv s) = key :: l /\ d !! key = Some (v, true))).
Proof.
  intros Hrange H Hd. pose proof (reachable_good shrink range Hrange interval s H) as [_ _ Hs Ht].
  destruct (request (inv s)) as [rq|] eqn:Hr.
  - left. exists rq. split; [done|]. destruct (waiting (inv s)) as [[rq' a]|] eqn:Hw.
    + left. exists a. pose proof (s_waiting _ _ _ _ _ Hs _ Hw) as E. rewrite Hr in E. cbn in E. by injection E as ->.
    + right. by destruct (s_exec _ _ _ _ _ Hs rq Hr Hw) as [_ ?].
  - right. split; [done|]. destruct (s_started _ _ _ _ _ Hs ltac:(congruence) Hr) as [c Hc]. exists c. split; [done|].
    destruct (map_choose_or_empty d) as [(k & [v f] & Hk)| ->]; [|by left]. right.
    destruct (s_queries _ _ _ _ _ Hs d Hd) as [_ Hq]. assert (f = true) as ->.
    { destruct f; [done|]. destruct (t_queried _ _ _ _ _ _ _ Ht d k v Hd (fun x => x) Hk) as (rq & ? & _). congruence. }
    assert (Hin : k ∈ queries (inv s)) by (apply Hq; by exists v). destruct (queries (inv s)) as [|key l] eqn:Eq; [by apply not_elem_of_nil in Hin|].
    destruct (proj1 (Hq key)) as [v' Hv']; [apply list_elem_of_here|]. by exists key, l, v'.
Qed.

(** ** A run

    Some steps as a function, to replay a run: the subscription opens, a dump is
    read, the device changes before it is answered, so its record is queried. *)

#[local] Instance record_ok_dec key new : Decision (record_ok key new).
Proof. destruct new; apply _. Defined.
Definition perform (shrink : reducer -> bool) (range : gmap DeviceKey Observation -> list (DeviceKey * Observation)) (interval : Z)
    (a : action) (s : system) : res system :=
  match a with
  | KernelChange key new EventChange o overflow =>
      if decide (record_ok key new /\ new = Some (ob_Device o))
      then ret (set_sub (sub_busy s) (notified_of EventChange o overflow (sub s)) (statuses s) (set_kernel (set_row key new (kernel s)) s))
      else None
  | SubJoin => match sub s with Subscribing ep => ret (set_sub (sub_busy s) (Live ep [] false false) (statuses s) s) | _ => None end
  | SubReady rdma =>
      match sub s with
      | Live ep socket lost false => ret (set_sub (sub_busy s) (Live ep socket lost true) (statuses s ++ [mkStatus ep true rdma]) s)
      | _ => None
      end
  | SubDeliver =>
      match sub s with
      | Live ep ((kind, o) :: socket) lost true =>
          let '(ok, q) := push ep kind o (inbox s) in
          ret (set_sub (sub_busy s) (Live ep socket (lost || negb ok) true) (statuses s) (set_inbox q s))
      | _ => None
      end
  | ExecFinish (AnswerQuery o consistent) =>
      match exec s with
      | Reading q seen =>
          if decide (rq_query q = true /\ seen !! Key (ob_Device o) = Some (ob_Device o))
          then ret (set_exec (serial s) (busy s) (Done (mkCompletion q (AnswerQuery o consistent))) s) else None
      | _ => None
      end
  | ExecFinish (AnswerDump true [o] ports consistent) =>
      match exec s with
      | Reading q seen =>
          if decide (rq_query q = false /\ seen = {[Key (ob_Device o) := ob_Device o]})
          then ret (set_exec (serial s) (busy s) (Done (mkCompletion q (AnswerDump true [o] ports consistent))) s) else None
      | _ => None
      end
  | OwnerBefore now => before now s
  | OwnerEvent now =>
      match events (inbox s) with
      | e :: l => event shrink now e (set_inbox (mkInbox l (in_epoch (inbox s)) (produced (inbox s)) (exhausted (inbox s))) s)
      | [] => None
      end
  | OwnerResult => match exec s with Done c => ret (result c s) | _ => None end
  | OwnerAdvance now h => advance shrink range interval now h s
  | _ => None
  end.
Lemma perform_step shrink range interval a s s' : perform shrink range interval a s = ret s' -> step shrink range interval a s (ret s').
Proof.
  destruct a as [key new kind o overflow| | |rdma| | | | |key|ans|now|now| |now]; cbn -[push before event advance]; try done.
  - destruct kind; try done. case_decide as H; [|done]. intros <-. destruct H as [? ->]. apply step_kernel; [done|]. by eexists.
  - destruct (sub s) eqn:E; try done. intros <-. by apply step_join.
  - destruct (sub s) as [| |ep sk lost []|] eqn:E; try done. intros <-. by apply step_ready.
  - destruct (sub s) as [| |ep [|[kind o] sk] lost []|] eqn:E; try done. intros <-. by apply step_deliver.
  - destruct ans as [| |[] [|o []] ports ok|o ok]; try done; destruct (exec s) as [|q seen|] eqn:E; try done; case_decide as H; try done;
      intros <-; (apply step_finish with seen; [done|]).
    + destruct H as [Hq ->]. split; [done|]. intros _. split.
      * apply Forall_singleton. apply lookup_singleton_eq.
      * intros k d [<- _]%lookup_singleton_Some. apply list_elem_of_here.
    + exact H.
  - intros <-. apply step_before.
  - destruct (events (inbox s)) as [|e l] eqn:E; [done|]. intros <-. by apply step_event.
  - destruct (exec s) eqn:E; try done. intros <-. by apply step_result.
  - intros <-. apply step_advance.
Qed.
Fixpoint replay (l : list action) (s : system) : res system :=
  match l with [] => ret s | a :: l => s <-- perform (fun _ => false) map_to_list 60 a s; replay l s end.
Lemma replay_reachable l : forall s s', reachable (fun _ => false) map_to_list 60 s -> replay l s = ret s' ->
  reachable (fun _ => false) map_to_list 60 s'.
Proof.
  induction l as [|a l IH]; intros s s' H; cbn [replay]; [by intros [= <-]|].
  destruct (perform _ _ _ a s) as [[s1|e]|] eqn:E; cbn [rbind]; [|done|done]. apply IH. eapply reach_step; [exact H|]. by apply perform_step.
Qed.

Definition example_link (up : bool) : Observation :=
  mkObservation (mkDevice (mkDeviceKey 7 DeviceEthernet 3 "" 0) zero_Token "eth0" (presentValue up) Eligible "a" false) (mkStamp 10 10).
Definition example_key : DeviceKey := mkDeviceKey 7 DeviceEthernet 3 "" 0.
Definition example_start : system := newReconciler 7 60 {[example_key := ob_Device (example_link false)]}.
Definition no_hooks : hooks := mkHooks None None.
Definition example_run : list action :=
  [OwnerAdvance (mkStamp 0 1) no_hooks; SubJoin; SubReady false; OwnerBefore 2; OwnerAdvance (mkStamp 0 2) no_hooks;
   KernelChange example_key (Some (ob_Device (example_link true))) EventChange (example_link true) false; SubDeliver; OwnerEvent 3;
   ExecFinish (AnswerDump true [example_link false] false true); OwnerResult; OwnerAdvance (mkStamp 0 4) no_hooks;
   ExecFinish (AnswerQuery (example_link true) true); OwnerResult; OwnerAdvance (mkStamp 0 5) no_hooks].
Definition example_state (n : nat) : system := match replay (take n example_run) example_start with Some (inl s) => s | _ => example_start end.
Lemma example_reachable n : reachable (fun _ => false) map_to_list 60 (example_state n).
Proof.
  unfold example_state. assert (H : reachable (fun _ => false) map_to_list 60 example_start).
  { apply reach_start. intros k d [<- <-]%lookup_singleton_Some. done. }
  destruct (replay _ _) as [[s|e]|] eqn:E; [by eapply replay_reachable|done|done].
Qed.

Lemma reconciled_witness :
  let s := example_state 14 in
  reachable (fun _ => false) map_to_list 60 s /\ (Up <$> kernel s !! example_key) = Some (presentValue true) /\
  agrees (inventory (red s) example_key) (kernel s !! example_key).
Proof.
  split; [apply example_reachable|]. split; [vm_compute; reflexivity|].
  apply (reconciled (fun _ => false) map_to_list 60).
  - intros c. reflexivity.
  - apply example_reachable.
  - vm_compute. reflexivity.
  - vm_compute. reflexivity.
  - vm_compute. reflexivity.
  - split; [split; [split; vm_compute; reflexivity|exists [], true; vm_compute; reflexivity]|].
    assert (E : undelivered (epoch (red (example_state 14))) (inbox (example_state 14)) (sub (example_state 14)) = [])
      by (vm_compute; reflexivity).
    rewrite E. constructor.
Defined.
Lemma owner_safe_witness :
  safe (reachable (fun _ => false) map_to_list 60) (advance (fun _ => false) map_to_list 60 (mkStamp 0 5) no_hooks (example_state 13)).
Proof.
  apply (owner_safe (fun _ => false) map_to_list 60 (OwnerAdvance (mkStamp 0 5) no_hooks) (example_state 13)).
  - intros c. reflexivity.
  - apply example_reachable.
  - apply step_advance.
Defined.
Lemma commit_outcomes_witness :
  exists s', commit (fun _ => false) map_to_list 60 (mkStamp 0 5) (mkHooks (Some 7) (Some 100)) {[example_key := example_link true]} (example_state 0) = ret s' /\
    agrees (inventory (red s') example_key) (Some (ob_Device (example_link true))).
Proof.
  destruct (commit_outcomes (fun _ => false) map_to_list 60 (mkStamp 0 5) (mkHooks (Some 7) (Some 100)) {[example_key := example_link true]} (example_state 0))
    as [[H _]|[(_ & H & _)|(_ & _ & r' & H & _ & _ & E)]].
  - intros c. reflexivity.
  - apply newReducer_rinv.
  - intros k o Hk. apply lookup_singleton_Some in Hk as [<- <-]. split; vm_compute; reflexivity.
  - exfalso. destruct H as [H|H]; [|discriminate]. apply H. split; vm_compute; discriminate.
  - exfalso. apply H. split; [vm_compute; discriminate|intros E; vm_compute in E; discriminate].
  - assert (Hok : match commit (fun _ => false) map_to_list 60 (mkStamp 0 5) (mkHooks (Some 7) (Some 100)) {[example_key := example_link true]} (example_state 0)
      with Some (inl _) => true | _ => false end = true) by (vm_compute; reflexivity).
    destruct E as [[_ E]|(_ & s' & E & <- & _)]; [rewrite E in Hok; discriminate|].
    exists s'. split; [exact E|]. specialize (H example_key). rewrite lookup_singleton_eq in H. exact H.
Defined.
(** The comment over [commit] promises that every failure is found before the
    change: here nothing is refused, the device has been stored, and the commit
    fails. *)
Lemma commit_fails_late :
  let h := mkHooks None (Some MaxUint64) in
  let c := {[example_key := example_link true]} in
  affordable (red (example_state 0)) c /\ timely (red (example_state 0)) (mkStamp 0 5) /\
  commit (fun _ => false) map_to_list 60 (mkStamp 0 5) h c (example_state 0) = err ErrSequence /\
  exists r', commit_observe (map_to_list c) (red (example_state 0)) = ret r' /\ inventory r' example_key <> None.
Proof.
  cbv zeta. split; [split; vm_compute; discriminate|]. split; [split; [vm_compute; discriminate|intros E; vm_compute in E; discriminate]|].
  split; [vm_compute; reflexivity|]. assert (Hok : match commit_observe (map_to_list {[example_key := example_link true]}) (red (example_state 0)) with
    | Some (inl r') => bool_decide (inventory r' example_key <> None) | _ => false end = true) by (vm_compute; reflexivity).
  destruct (commit_observe _ _) as [[r'|e]|]; [|discriminate..]. exists r'. split; [done|]. by apply bool_decide_eq_true in Hok.
Qed.
Lemma reconciliation_moves_witness : exists d, dirty (inv (example_state 11)) = Some d /\ d <> ∅ /\
  exists rq, request (inv (example_state 11)) = Some rq /\ rq_query rq = true.
Proof.
  assert (A : bool_decide (default ∅ (dirty (inv (example_state 11))) <> ∅) = true /\
    rq_query <$> request (inv (example_state 11)) = Some true) by (split; vm_compute; reflexivity).
  pose proof (example_reachable 11) as H. revert A H. generalize (example_state 11). intros s [Hd Hr] H.
  apply bool_decide_eq_true_1 in Hd. destruct (dirty (inv s)) as [d|] eqn:E; [|by destruct Hd]. exists d. split; [done|]. split; [done|].
  destruct (reconciliation_moves (fun _ => false) map_to_list 60 s d) as [(rq & Hrq & _)|[Hn _]].
  - intros c. reflexivity.
  - exact H.
  - exact E.
  - exists rq. split; [done|]. rewrite Hrq in Hr. by injection Hr.
  - by rewrite Hn in Hr.
Defined.
