(* ===== verification/Scheduler.v ===== *)
(** The link monitor's collector scheduler (pkg/linkmonitor/scheduler.go,
    scheduler_queue.go, scheduler_workers.go, scheduler_deadlines.go): jobs
    that wait in three queues and the four workers that carry out attempts.

    Of the reducer it uses a [view]: which collectors there are, their tokens,
    and the attempt each has out (reducer_collection.go). A run interleaves the
    owner with the workers, and with the changes the reconciler makes to the
    inventory, each followed by its refresh.

    Time is an argument: an attempt may be found overdue at any moment past its
    deadline, a poll or a retry may fall due at any moment ([Deadlines] is the
    queue that says when). Traffic batches (traffic_schedule.go) share the
    workers: of them the model has what they take - a worker, attempt numbers,
    turns - while what is due for one, and what becomes of its reply, is up to
    the environment. They collect for the carrier and netdev collectors, which
    are no scheduled jobs, so that the [view] leaves their attempts out. The
    contents of a result beyond what decides about retries, and stopping, are
    left out too. *)

From stdpp Require Import gmap.
From S2P Require Import Prelude LinkModel.
From S2P Require Deadlines Reconciler.

(** ** The ready queue

    Devices in turn, and the jobs of each; a job's [ready] element is its
    membership. *)

Inductive jobUrgency := urgencyEvent | urgencyReconcile | urgencyPeriodic.
#[export] Instance jobUrgency_eq : EqDecision jobUrgency. Proof. solve_decision. Defined.
Definition urgency_value (u : jobUrgency) : Z := match u with urgencyEvent => 0 | urgencyReconcile => 1 | urgencyPeriodic => 2 end.

Record readyQueue := mkReady { devices : list DeviceKey; waiting_jobs : gmap DeviceKey (list JobKey) }.
Definition no_ready : readyQueue := mkReady [] ∅.
Definition push (k : JobKey) (q : readyQueue) : readyQueue :=
  let d := jk_Device k in
  match waiting_jobs q !! d with
  | None => mkReady (devices q ++ [d]) (<[d := [k]]> (waiting_jobs q))
  | Some l => mkReady (devices q) (<[d := l ++ [k]]> (waiting_jobs q))
  end.
(** [remove], of a job that is ready. *)
Definition remove (k : JobKey) (q : readyQueue) : go readyQueue :=
  let d := jk_Device k in
  l ← waiting_jobs q !! d;
  let l := filter (fun x => x <> k) l in
  Some (if decide (l = []) then mkReady (filter (fun x => x <> d) (devices q)) (delete d (waiting_jobs q))
        else mkReady (devices q) (<[d := l]> (waiting_jobs q))).
Definition pop (q : readyQueue) : go (option JobKey * readyQueue) :=
  match devices q with
  | [] => Some (None, q)
  | d :: _ =>
      l ← waiting_jobs q !! d;
      k ← head l;
      q ← remove k q;
      Some (Some k, if decide (is_Some (waiting_jobs q !! d)) then mkReady (filter (fun x => x <> d) (devices q) ++ [d]) (waiting_jobs q) else q)
  end.

(** ** Attempts and the reducer's view of them *)

Record Job := mkJob { j_Key : JobKey; j_Token : Token; j_SchemaRevision : Z; j_Started : Stamp }.
#[export] Instance Job_eq : EqDecision Job. Proof. solve_decision. Defined.
(** [Malformed]: freezeSamples or the checks of schema and support refuse the samples;
    [Answer]: whatever else the result says. *)
Record Result := mkResult { r_Job : Job; r_Finished : Stamp; r_Err : bool; r_Malformed : bool; r_Answer : Z }.
Record collectorState := mkCollector { running : bool; c_job : Job; schemaRevision : Z }.
Definition zero_Job : Job := mkJob (mkJobKey 0 zero_DeviceKey CollectorUnknown) zero_Token 0 (mkStamp 0 0).
Definition no_attempt : collectorState := mkCollector false zero_Job 0.
Record view := mkView {
  v_namespace : Z; v_epoch : Z; v_attempt : Z; v_devices : gmap DeviceKey (Token * (CollectorKind -> collectorState)); v_host : collectorState }.
Definition MaxUint64 : Z := 2 ^ 64 - 1.

Definition with_epoch (ep : Z) (t : Token) : Token := mkToken (Generation t) (Revision t) ep (Attempt t).
Definition with_attempt (n : Z) (t : Token) : Token := mkToken (Generation t) (Revision t) (SourceEpoch t) n.
Definition collector (key : JobKey) (v : view) : option (collectorState * Token) :=
  if decide (jk_Namespace key <> v_namespace v \/ jk_Collector key = CollectorUnknown) then None else
  if decide (jk_Collector key = CollectorNetstat) then
    if decide (jk_Device key <> zero_DeviceKey) then None else Some (v_host v, mkToken 0 0 (v_epoch v) 0)
  else '(t, c) ← v_devices v !! jk_Device key; Some (c (jk_Collector key), with_epoch (v_epoch v) t).
Definition set_collector (key : JobKey) (st : collectorState) (v : view) : view :=
  if decide (jk_Collector key = CollectorNetstat) then mkView (v_namespace v) (v_epoch v) (v_attempt v) (v_devices v) st
  else mkView (v_namespace v) (v_epoch v) (v_attempt v)
         (alter (fun p => (p.1, fun k => if decide (k = jk_Collector key) then st else p.2 k)) (jk_Device key) (v_devices v)) (v_host v).
Inductive start_err := ErrNoCollector | ErrBusy | ErrExhausted.
Definition startCollection (key : JobKey) (now : Stamp) (v : view) : Job * view + start_err :=
  match collector key v with
  | None => inr ErrNoCollector
  | Some (st, t) =>
      if running st then inr ErrBusy else
      if decide (v_attempt v = MaxUint64) then inr ErrExhausted else
      let n := v_attempt v + 1 in
      let job := mkJob key (with_attempt n t) (schemaRevision st) now in
      inl (job, set_collector key (mkCollector true job (schemaRevision st)) (mkView (v_namespace v) (v_epoch v) n (v_devices v) (v_host v)))
  end.
(** Whether the result was accepted, and whether it was malformed. *)
Definition finishCollection (r : Result) (v : view) : (bool * bool) * view :=
  let job := r_Job r in
  match collector (j_Key job) v with
  | None => ((false, false), v)
  | Some (st, t) =>
      if negb (running st) || bool_decide (c_job st <> job) then ((false, false), v) else
      let v := set_collector (j_Key job) (mkCollector false (c_job st) (schemaRevision st)) v in
      if decide (with_attempt (Attempt (j_Token job)) t <> j_Token job \/ schemaRevision st <> j_SchemaRevision job) then ((false, false), v) else
      let late := bool_decide (Monotonic (j_Started job) < 0 \/ Monotonic (r_Finished r) < Monotonic (j_Started job)) in
      ((true, late || (negb (r_Err r) && r_Malformed r)), v)
  end.

(** ** The scheduler *)

Record schedulePolicy := mkPolicy { interval : Z; retrySettings : option (Result -> bool) }.
Record scheduledJob := mkScheduled {
  policy : schedulePolicy; s_token : Token; s_pending : bool; urgency : jobUrgency; ready : bool; retries : Z; retryActive : bool }.
Record runningCollection := mkRunning { a_job : Job; a_deadline : Z; timedOut : bool }.
(** [inbox], [hand] and [results] are the pool: a worker's channel of one
    assignment, what it is at, and the channel of completions; [traffic_at] is
    the worker a traffic batch is with, from its assignment to its completion. *)
Record scheduler := mkScheduler {
  vw : view; jobs : gmap JobKey scheduledJob; queue : jobUrgency -> readyQueue; active : list (option runningCollection); urgent : Z;
  inbox : list (option Job); hand : list (option Job); results : list (nat * Result); traffic_at : option nat }.
Definition collectorWorkers : nat := 4.

Definition set_vw (v : view) (s : scheduler) : scheduler :=
  mkScheduler v (jobs s) (queue s) (active s) (urgent s) (inbox s) (hand s) (results s) (traffic_at s).
Definition set_jobs (m : gmap JobKey scheduledJob) (s : scheduler) : scheduler :=
  mkScheduler (vw s) m (queue s) (active s) (urgent s) (inbox s) (hand s) (results s) (traffic_at s).
Definition set_job (k : JobKey) (j : scheduledJob) (s : scheduler) : scheduler := set_jobs (<[k := j]> (jobs s)) s.
Definition set_queue (u : jobUrgency) (q : readyQueue) (s : scheduler) : scheduler :=
  mkScheduler (vw s) (jobs s) (fun u' => if decide (u' = u) then q else queue s u') (active s) (urgent s) (inbox s) (hand s) (results s) (traffic_at s).
Definition set_active (a : list (option runningCollection)) (s : scheduler) : scheduler :=
  mkScheduler (vw s) (jobs s) (queue s) a (urgent s) (inbox s) (hand s) (results s) (traffic_at s).
Definition set_urgent (n : Z) (s : scheduler) : scheduler :=
  mkScheduler (vw s) (jobs s) (queue s) (active s) n (inbox s) (hand s) (results s) (traffic_at s).
Definition set_pool (i h : list (option Job)) (r : list (nat * Result)) (s : scheduler) : scheduler :=
  mkScheduler (vw s) (jobs s) (queue s) (active s) (urgent s) i h r (traffic_at s).

Definition set_traffic (o : option nat) (s : scheduler) : scheduler :=
  mkScheduler (vw s) (jobs s) (queue s) (active s) (urgent s) (inbox s) (hand s) (results s) o.

Definition cancelRetry (j : scheduledJob) : scheduledJob :=
  mkScheduled (policy j) (s_token j) (s_pending j) (urgency j) (ready j) 0 false.
Definition with_token (t : Token) (j : scheduledJob) : scheduledJob :=
  mkScheduled (policy j) t (s_pending j) (urgency j) (ready j) (retries j) (retryActive j).
Definition with_retries (n : Z) (b : bool) (j : scheduledJob) : scheduledJob :=
  mkScheduled (policy j) (s_token j) (s_pending j) (urgency j) (ready j) n b.
Definition with_place (p : bool) (u : jobUrgency) (r : bool) (j : scheduledJob) : scheduledJob :=
  mkScheduled (policy j) (s_token j) p u r (retries j) (retryActive j).

Definition is_for (key : JobKey) (a : option runningCollection) : bool :=
  match a with Some r => bool_decide (j_Key (a_job r) = key) | None => false end.
(** [running]: the attempt a worker is at, overdue or not. *)
Definition running_at (key : JobKey) (s : scheduler) : option runningCollection :=
  a ← head (filter (fun a => is_for key a = true) (active s)); a.
(** Out of its queue, if it is in one. *)
Definition dequeue (key : JobKey) (j : scheduledJob) (s : scheduler) : go scheduler :=
  if ready j then q ← remove key (queue s (urgency j)); Some (set_queue (urgency j) q s) else Some s.
Definition enqueue (key : JobKey) (j : scheduledJob) (s : scheduler) : scheduler :=
  set_job key (with_place (s_pending j) (urgency j) true j) (set_queue (urgency j) (push key (queue s (urgency j))) s).

Definition unregister (key : JobKey) (s : scheduler) : go scheduler :=
  match jobs s !! key with
  | None => Some s
  | Some j => s ← dequeue key j s; Some (set_jobs (delete key (jobs s)) s)
  end.
(** The running attempt will tell what is asked for. *)
Definition covers (a : option runningCollection) (t : Token) (st : collectorState) : bool :=
  match a with
  | None => false
  | Some r => negb (timedOut r) && Reconciler.sameRevision (j_Token (a_job r)) t && bool_decide (j_SchemaRevision (a_job r) = schemaRevision st)
  end.
Definition request (key : JobKey) (u : jobUrgency) (s : scheduler) : go scheduler :=
  match jobs s !! key with
  | None => Some s
  | Some j =>
      match collector key (vw s) with
      | None => unregister key s
      | Some (st, t) =>
          let j := if decide (t <> s_token j) then with_token t (cancelRetry j) else j in
          let s := set_job key j s in
          if bool_decide (u = urgencyPeriodic) && retryActive j then Some s else
          let a := running_at key s in
          if covers a t st then Some s else
          '(j, s) ← (if negb (s_pending j) || bool_decide (urgency_value u < urgency_value (urgency j))
                     then s ← dequeue key j s; Some (with_place (s_pending j) u false j, s) else Some (j, s));
          let j := with_place true (urgency j) (ready j) j in
          Some (if bool_decide (is_Some a) || ready j then set_job key j s else enqueue key j s)
      end
  end.
Inductive register_err := ErrInterval | ErrCollector | ErrRegistered.
Definition register (key : JobKey) (p : schedulePolicy) (s : scheduler) : go (scheduler + register_err) :=
  if decide (interval p < 0) then Some (inr ErrInterval) else
  match collector key (vw s) with
  | None => Some (inr ErrCollector)
  | Some (_, t) =>
      if decide (is_Some (jobs s !! key)) then Some (inr ErrRegistered) else
      s ← request key urgencyReconcile (set_job key (mkScheduled p t false urgencyEvent false 0 false) s); Some (inl s)
  end.
Definition device_jobs (ns : Z) (d : DeviceKey) : list JobKey := (fun kind => mkJobKey ns d kind) <$> device_collectors.
Fixpoint request_all (l : list JobKey) (s : scheduler) : go scheduler :=
  match l with [] => Some s | k :: l => s ← request k urgencyEvent s; request_all l s end.
Definition refreshDevice (d : DeviceKey) (s : scheduler) : go scheduler := request_all (device_jobs (v_namespace (vw s)) d) s.

(** [pop] of the queue of an urgency, whose job is no longer ready. *)
Definition pop_from (u : jobUrgency) (s : scheduler) : go (option JobKey * scheduler) :=
  '(o, q) ← pop (queue s u);
  match o with
  | None => Some (None, s)
  | Some k => j ← jobs s !! k; Some (Some k, set_job k (with_place (s_pending j) (urgency j) false j) (set_queue u q s))
  end.
Definition next (s : scheduler) : go (option JobKey * scheduler) :=
  '(o, s) ← (if decide (8 <= urgent s) then pop_from urgencyPeriodic s else Some (None, s));
  if decide (is_Some o) then Some (o, set_urgent 0 s) else
  '(o, s) ← pop_from urgencyEvent s;
  if decide (is_Some o) then Some (o, set_urgent (Z.min (urgent s + 1) 8) s) else
  '(o, s) ← pop_from urgencyReconcile s;
  if decide (is_Some o) then Some (o, set_urgent (Z.min (urgent s + 1) 8) s) else
  '(o, s) ← pop_from urgencyPeriodic s;
  if decide (is_Some o) then Some (o, set_urgent 0 s) else Some (None, s).
(** How [dispatch] ends: it may fail, or wait for ever on a full channel. *)
Inductive dispatch_end := Dispatched (s : scheduler) | DispatchErr (e : start_err) | DispatchBlocks.

(** *** Traffic batches *)

(** What the traffic schedule has when [dispatch] asks it: a batch not yet
    consumed, or an inventory under way, that holds it back; a sweep that is
    due; the devices asked for one by one, each with whether only missing
    carrier values are; and which devices are eligible. *)
Record trafficOffer := mkOffer {
  o_held : bool; o_bulk : bool; o_queue : list (DeviceKey * bool); o_eligible : DeviceKey -> bool }.
Definition no_offer : trafficOffer := mkOffer true false [] (fun _ => false).
Definition hasUrgent (s : scheduler) : bool :=
  bool_decide (devices (queue s urgencyEvent) <> []) || bool_decide (devices (queue s urgencyReconcile) <> []).
(** The devices of a sweep, and the attempts each takes. *)
Definition sweep_targets (o : trafficOffer) (v : view) : Z :=
  Z.of_nat (size (filter (fun p : DeviceKey * (Token * (CollectorKind -> collectorState)) => Kind p.1 = DeviceEthernet /\ o_eligible o p.1 = true) (v_devices v))).
Definition fetch_targets (o : trafficOffer) (d : DeviceKey) : Z :=
  if bool_decide (Kind d = DeviceEthernet) && o_eligible o d then 1 else 0.
Definition with_attempts (n : Z) (v : view) : view := mkView (v_namespace v) (v_epoch v) n (v_devices v) (v_host v).
Inductive traffic_end := Assigned (s : scheduler) | Passed (s : scheduler) | TrafficErr (e : start_err) | TrafficBlocks.
(** [capture] of so many attempts, and the assignment if it captured any. *)
Definition traffic_capture (w : nat) (attempts : Z) (s : scheduler) : go traffic_end :=
  let v := vw s in
  if decide (Reconciler.maxInventoryDevices < Z.of_nat (size (v_devices v)) \/
             MaxUint64 - 2 * Z.of_nat (size (v_devices v)) < v_attempt v) then Some (TrafficErr ErrExhausted) else
  if decide (attempts = 0) then Some (Passed s) else
  box ← inbox s !! w;
  Some (match box with
        | Some _ => TrafficBlocks
        | None => Assigned (set_traffic (Some w) (set_vw (with_attempts (v_attempt v + attempts) v) s))
        end).
Definition traffic_dispatch (o : trafficOffer) (w : nat) (s : scheduler) : go traffic_end :=
  if o_held o || bool_decide (is_Some (traffic_at s)) || (negb (o_bulk o) && bool_decide (o_queue o = [])) then Some (Passed s) else
  if bool_decide (urgent s < 8) && bool_decide (o_queue o = []) && hasUrgent s then Some (Passed s) else
  if o_bulk o then traffic_capture w (2 * sweep_targets o (vw s)) (set_urgent 0 s) else
  match head (o_queue o) with
  | None => None
  | Some (d, missing) =>
      if bool_decide (is_Some (v_devices (vw s) !! d)) 
      then traffic_capture w ((if missing then 1 else 2) * fetch_targets o d) (set_urgent (Z.min (urgent s + 1) 8) s) else Some (Passed s)
  end.

(** The loop over the workers. *)
Fixpoint dispatch_from (fuel w : nat) (now : Stamp) (offer : nat -> trafficOffer) (s : scheduler) : go dispatch_end :=
  match fuel with
  | O => Some (Dispatched s)
  | S fuel =>
      a ← active s !! w;
      if bool_decide (is_Some a) || bool_decide (traffic_at s = Some w) then dispatch_from fuel (S w) now offer s else
      t ← traffic_dispatch (offer w) w s;
      match t with
      | TrafficErr e => Some (DispatchErr e)
      | TrafficBlocks => Some DispatchBlocks
      | Assigned s => dispatch_from fuel (S w) now offer s
      | Passed s =>
          '(o, s) ← next s;
          match o with
          | None => Some (Dispatched s)
          | Some key =>
              j ← jobs s !! key;
              let s := set_job key (with_place false (urgency j) (ready j) j) s in
              match startCollection key now (vw s) with
              | inr e => Some (DispatchErr e)
              | inl (job, v) =>
                  let at_ := Deadlines.deadlineAfter (Monotonic now) Reconciler.collectionBudget in
                  let s := set_active (<[w := Some (mkRunning job at_ false)]> (active s)) (set_vw v s) in
                  box ← inbox s !! w;
                  match box with
                  | Some _ => Some DispatchBlocks
                  | None => dispatch_from fuel (S w) now offer (set_pool (<[w := Some job]> (inbox s)) (hand s) (results s) s)
                  end
              end
          end
      end
  end.
Definition dispatch (now : Stamp) (offer : nat -> trafficOffer) (s : scheduler) : go dispatch_end :=
  dispatch_from collectorWorkers 0 now offer s.

Definition MaxInt64 : Z := 2 ^ 63 - 1.
Definition recordResult (r : Result) (s : scheduler) : scheduler :=
  let '((accepted, malformed), v) := finishCollection r (vw s) in
  let s := set_vw v s in
  if negb accepted then s else
  let key := j_Key (r_Job r) in
  match jobs s !! key with
  | None => s
  | Some j =>
      if malformed then set_job key (cancelRetry j) s else
      if negb (Reconciler.sameRevision (s_token j) (j_Token (r_Job r))) || negb (retryActive j) then s else
      if negb (match retrySettings (policy j) with Some f => f r | None => false end) || bool_decide (retries j = 3)
      then set_job key (cancelRetry j) s else
      let at_ := Deadlines.deadlineAfter (Monotonic (r_Finished r)) (Z.shiftl Reconciler.second (retries j)) in
      if decide (at_ = MaxInt64 /\ Monotonic (r_Finished r) = at_) then set_job key (with_retries 0 false j) s
      else set_job key (with_retries (retries j + 1) (retryActive j) j) s
  end.
Definition timeout (w : nat) (a : runningCollection) (now : Stamp) (s : scheduler) : scheduler :=
  if timedOut a then s else
  recordResult (mkResult (a_job a) now true false 0) (set_active (<[w := Some (mkRunning (a_job a) (a_deadline a) true)]> (active s)) s).
Definition complete (w : nat) (r : Result) (s : scheduler) : go scheduler :=
  match active s !! w with
  | Some (Some a) =>
      if decide (a_job a <> r_Job r) then Some s else
      let overdue := bool_decide (a_deadline a <= Monotonic (r_Finished r)) in
      let s := if overdue then timeout w a (r_Finished r) s else s in
      let s := if negb (timedOut a || overdue) then recordResult r s else s in
      let s := set_active (<[w := None]> (active s)) s in
      let key := j_Key (a_job a) in
      Some match jobs s !! key with
           | Some j => if s_pending j && negb (ready j) then enqueue key j s else s
           | None => s
           end
  | _ => Some s
  end.
Definition settingsTransition (key : JobKey) (s : scheduler) : go scheduler :=
  match jobs s !! key with
  | None => Some s
  | Some j =>
      match retrySettings (policy j) with
      | None => Some s
      | Some _ =>
          s ← request key urgencyEvent s;
          Some match jobs s !! key with None => s | Some j => set_job key (with_retries 0 true j) s end
      end
  end.
(** [retryDue], for an entry of the job's retry deadline. *)
Definition retryDue (key : JobKey) (t : Token) (s : scheduler) : go scheduler :=
  match jobs s !! key with
  | None => Some s
  | Some j => if negb (retryActive j) || bool_decide (s_token j <> t) then Some s else request key urgencyEvent s
  end.

(** ** Interleavings *)

(** What the reducer does to a device: gone, or there under a token, with its
    collectors kept or new. *)
Definition set_entry (d : DeviceKey) (new : option (Token * bool)) (v : view) : view :=
  mkView (v_namespace v) (v_epoch v) (v_attempt v)
    (match new with
     | None => delete d (v_devices v)
     | Some (t, kept) => <[d := (t, match v_devices v !! d with Some p => if kept then p.2 else fun _ => no_attempt | None => fun _ => no_attempt end)]> (v_devices v)
     end) (v_host v).

Inductive action :=
  | Register (key : JobKey) (p : schedulePolicy) | Unregister (key : JobKey) | Request (key : JobKey) (u : jobUrgency)
  | ChangeDevice (d : DeviceKey) (new : option (Token * bool)) | LoseEvents | ChangeSchema (key : JobKey) (n : Z)
  | Overdue (w : nat) (now : Stamp) | RetryDue (key : JobKey) (t : Token) | SettingsUp (key : JobKey) | Dispatch (now : Stamp) (offer : nat -> trafficOffer) | Complete | TrafficDone
  | Take (w : nat) | Finish (w : nat) (finished : Stamp) (failed malformed : bool) (answer : Z).
(** How a step ends. *)
Inductive outcome := Runs (s : scheduler) | Refused (s : scheduler) | Stops (e : start_err) | Blocks.
Definition runs (o : go scheduler) : go outcome := s ← o; Some (Runs s).
(** A step that is not possible leaves the state as it is. *)
Definition step (a : action) (s : scheduler) : go outcome :=
  match a with
  | Register key p => r ← register key p s; Some (match r with inl s => Runs s | inr _ => Refused s end)
  | Unregister key => runs (unregister key s)
  | Request key u => runs (request key u s)
  | ChangeDevice d new => runs (refreshDevice d (set_vw (set_entry d new (vw s)) s))
  | LoseEvents =>
      let v := vw s in Some (Runs (set_vw (mkView (v_namespace v) (v_epoch v + 1) (v_attempt v) (v_devices v) (v_host v)) s))
  | ChangeSchema key n =>
      Some (Runs (match collector key (vw s) with
                  | None => s
                  | Some (st, _) => set_vw (set_collector key (mkCollector (running st) (c_job st) n) (vw s)) s
                  end))
  | Overdue w now =>
      Some (Runs (match active s !! w with
                  | Some (Some a) => if decide (a_deadline a <= Monotonic now) then timeout w a now s else s
                  | _ => s
                  end))
  | RetryDue key t => runs (retryDue key t s)
  | SettingsUp key => runs (settingsTransition key s)
  | Dispatch now offer =>
      e ← dispatch now offer s;
      Some (match e with Dispatched s => Runs s | DispatchErr e => Stops e | DispatchBlocks => Blocks end)
  | Complete =>
      match results s with
      | [] => Some (Runs s)
      | (w, r) :: l => runs (complete w r (set_pool (inbox s) (hand s) l s))
      end
  | TrafficDone => Some (Runs (set_traffic None s))
  | Take w =>
      Some (Runs (match hand s !! w, inbox s !! w with
                  | Some None, Some (Some job) => set_pool (<[w := None]> (inbox s)) (<[w := Some job]> (hand s)) (results s) s
                  | _, _ => s
                  end))
  | Finish w finished failed malformed answer =>
      Some (match hand s !! w with
            | Some (Some job) =>
                if decide (length (results s) < collectorWorkers)%nat
                then Runs (set_pool (inbox s) (<[w := None]> (hand s)) (results s ++ [(w, mkResult job finished failed malformed answer)]) s)
                else Blocks
            | _ => Runs s
            end)
  end.

(** [newScheduler] over a reducer that has seen nothing, and a new pool. *)
Definition newScheduler (ns : Z) : scheduler :=
  mkScheduler (mkView ns 1 0 ∅ no_attempt) ∅ (fun _ => no_ready) (replicate collectorWorkers None) 0
    (replicate collectorWorkers None) (replicate collectorWorkers None) [] None.
Inductive reachable (ns : Z) : scheduler -> Prop :=
  | reach_start : reachable ns (newScheduler ns)
  | reach_step a s s' : reachable ns s -> step a s = Some (Runs s') \/ step a s = Some (Refused s') -> reachable ns s'.
