(* ===== verification/SchedulerSpec.v ===== *)
(** Specifications of [Scheduler]: no request is lost, no collector has two
    workers, dispatch fails only for want of attempt numbers, and, without
    traffic batches, a job's turn comes. *)

From stdpp Require Import gmap.
From S2P Require Import Prelude LinkModel Scheduler.
From S2P Require Deadlines Reconciler.

(** ** The ready queue *)

Record qwf (q : readyQueue) : Prop := {
  q_nodup : NoDup (devices q);
  q_dom : forall d, d ∈ devices q <-> is_Some (waiting_jobs q !! d);
  q_jobs : forall d l, waiting_jobs q !! d = Some l -> l <> [] /\ NoDup l /\ Forall (fun k => jk_Device k = d) l }.
Definition queued (k : JobKey) (q : readyQueue) : Prop := exists l, waiting_jobs q !! jk_Device k = Some l /\ k ∈ l.

Lemma no_ready_wf : qwf no_ready.
Proof.
  split; cbn; [apply NoDup_nil_2| |by intros d l; rewrite lookup_empty].
  intros d. rewrite lookup_empty. split; [by intros ?%not_elem_of_nil|by intros [? ?]].
Qed.
Lemma push_wf k q : qwf q -> ~ queued k q -> qwf (push k q) /\ forall k', queued k' (push k q) <-> k' = k \/ queued k' q.
Proof.
  intros [N D J] Hk. unfold push, queued in *. destruct (waiting_jobs q !! jk_Device k) as [l|] eqn:El.
  - destruct (J _ _ El) as (Hl & Hnd & Hd). assert (Hout : k ∉ l) by (intros Hin; apply Hk; by exists l). split; [split; cbn|].
    + done.
    + intros d. rewrite D. destruct (decide (d = jk_Device k)) as [->|Hne]; [rewrite lookup_insert_eq, El; by split; eexists|by rewrite lookup_insert_ne].
    + intros d l' [[<- <-]|[_ Hl']]%lookup_insert_Some; [|by apply J]. split_and!; [by destruct l| |apply Forall_app; by split; [|apply Forall_singleton]].
      apply NoDup_app. split_and!; [done| |apply NoDup_singleton]. by intros x Hx ->%list_elem_of_singleton.
    + intros k'. cbn. split.
      * intros (l' & [[Hd' <-]|[_ Hl']]%lookup_insert_Some & Hin); [|right; by exists l'].
        apply elem_of_app in Hin as [Hin| ->%list_elem_of_singleton]; [right; exists l; by rewrite <- Hd'|by left].
      * destruct (decide (jk_Device k' = jk_Device k)) as [E|Hne].
        -- rewrite E, lookup_insert_eq. intros [->|(l' & Hl' & Hin)]; eexists; (split; [done|]); apply elem_of_app; [right; by apply list_elem_of_singleton|].
           left. rewrite El in Hl'. by injection Hl' as <-.
        -- intros [->|(l' & Hl' & Hin)]; [done|]. exists l'. by rewrite lookup_insert_ne.
  - assert (Hd : jk_Device k ∉ devices q) by (rewrite D, El; by intros [? ?]). split; [split; cbn|].
    + apply NoDup_app. split_and!; [done| |apply NoDup_singleton]. by intros x Hx ->%list_elem_of_singleton.
    + intros d. rewrite elem_of_app, list_elem_of_singleton, D. destruct (decide (d = jk_Device k)) as [->|Hne].
      * rewrite lookup_insert_eq. split; [by eexists|by right].
      * rewrite lookup_insert_ne by done. tauto.
    + intros d l' [[<- <-]|[_ Hl']]%lookup_insert_Some; [|by apply J]. split_and!; [done|apply NoDup_singleton|by apply Forall_singleton].
    + intros k'. cbn. split.
      * intros (l' & [[Hd' <-]|[_ Hl']]%lookup_insert_Some & Hin); [left; by apply list_elem_of_singleton in Hin|right; by exists l'].
      * intros [->|(l' & Hl' & Hin)]; [exists [k]; rewrite lookup_insert_eq; split; [done|apply list_elem_of_here]|].
        exists l'. rewrite lookup_insert_ne; [done|]. intros E. by rewrite <- E, El in Hl'.
Qed.
Lemma remove_wf k q : qwf q -> queued k q ->
  exists q', remove k q = Some q' /\ qwf q' /\ forall k', queued k' q' <-> k' <> k /\ queued k' q.
Proof.
  intros [N D J] (l & Hl & Hin). unfold remove. rewrite Hl. cbn [mbind option_bind]. destruct (J _ _ Hl) as (_ & Hnd & Hd).
  eexists. split; [done|]. unfold queued. case_decide as He.
  - assert (Hall : forall x, x ∈ l -> x = k).
    { intros x Hx. destruct (decide (x = k)) as [|Hne]; [done|]. exfalso.
      assert (x ∈ filter (fun x => x <> k) l) as Hf by (by apply list_elem_of_filter). rewrite He in Hf. by apply not_elem_of_nil in Hf. }
    split; [split; cbn|].
    + by apply NoDup_filter.
    + intros d. rewrite list_elem_of_filter, D. split; [intros [Hne Hs]; by rewrite lookup_delete_ne|].
      intros [x [Hne Hx]%lookup_delete_Some]. split; [done|by exists x].
    + intros d l' [_ Hl']%lookup_delete_Some. by apply J.
    + intros k'. cbn. split.
      * intros (l' & [Hne Hl']%lookup_delete_Some & Hin'). split; [by intros ->|by exists l'].
      * intros [Hne (l' & Hl' & Hin')]. exists l'. rewrite lookup_delete_ne; [done|]. intros E. rewrite <- E, Hl in Hl'. injection Hl' as <-.
        by apply Hne, Hall.
  - split; [split; cbn|].
    + done.
    + intros d. rewrite D. destruct (decide (d = jk_Device k)) as [->|Hne]; [rewrite lookup_insert_eq, Hl; by split; eexists|by rewrite lookup_insert_ne].
    + intros d l' [[<- <-]|[_ Hl']]%lookup_insert_Some; [|by apply J]. split_and!; [done|by apply NoDup_filter|].
      apply Forall_forall. intros x [_ Hx]%list_elem_of_filter. rewrite Forall_forall in Hd. by apply Hd.
    + intros k'. cbn. destruct (decide (jk_Device k' = jk_Device k)) as [E|Hne].
      * rewrite E, lookup_insert_eq, Hl. split.
        -- intros (l' & [= <-] & [Hne Hx]%list_elem_of_filter). split; [done|by exists l].
        -- intros [Hne (l' & [= <-] & Hx)]. eexists. split; [done|]. by apply list_elem_of_filter.
      * rewrite lookup_insert_ne by done. split; [|by intros [_ ?]]. intros H. split; [by intros ->|done].
Qed.

(** How many jobs go before a job, when the queue has at most [M] devices:
    one of each device per round. *)
Fixpoint pos {A} `{EqDecision A} (x : A) (l : list A) : nat :=
  match l with [] => O | y :: l => if decide (x = y) then O else S (pos x l) end.
Definition rank (M : nat) (k : JobKey) (q : readyQueue) : nat :=
  (pos k (default [] (waiting_jobs q !! jk_Device k)) * M + pos (jk_Device k) (devices q))%nat.

Section pos.
Context {A : Type} `{EqDecision A}.
Implicit Types (x y : A) (l : list A).
Lemma pos_app x l l' : x ∈ l -> pos x (l ++ l') = pos x l.
Proof.
  induction l as [|y l IH]; [by intros ?%not_elem_of_nil|]. cbn. intros Hin. case_decide as E; [done|]. f_equal. apply IH.
  by apply elem_of_cons in Hin as [|].
Qed.
Lemma pos_app_out x l l' : x ∉ l -> pos x (l ++ l') = (length l + pos x l')%nat.
Proof.
  induction l as [|y l IH]; [done|]. cbn. intros Hin. apply not_elem_of_cons in Hin as [Hne Hin]. rewrite decide_False by done. by rewrite IH.
Qed.
Lemma pos_filter x y l : x <> y -> (pos x (filter (fun z => z <> y) l) <= pos x l)%nat.
Proof.
  intros Hne. induction l as [|z l IH]; [done|]. destruct (decide (z = y)) as [->|Hz].
  - rewrite filter_cons_False by naive_solver. cbn. rewrite decide_False by done. lia.
  - rewrite filter_cons_True by done. cbn. case_decide; lia.
Qed.
Lemma filter_out y l : y ∉ l -> filter (fun z => z <> y) l = l.
Proof.
  induction l as [|z l IH]; [done|]. intros [Hne Hin]%not_elem_of_cons. rewrite filter_cons_True by done. by rewrite IH.
Qed.
Lemma filter_head y l : NoDup (y :: l) -> filter (fun z => z <> y) (y :: l) = l.
Proof. intros [Hout _]%NoDup_cons. rewrite filter_cons_False by naive_solver. by apply filter_out. Qed.
End pos.

Lemma push_rank M k k0 q : qwf q -> queued k q -> rank M k (push k0 q) = rank M k q.
Proof.
  intros [N D J] (l & Hl & Hin). unfold rank, push. destruct (waiting_jobs q !! jk_Device k0) as [l0|] eqn:E0; cbn.
  - destruct (decide (jk_Device k = jk_Device k0)) as [E|Hne].
    + rewrite E, lookup_insert_eq, E0. rewrite E, E0 in Hl. injection Hl as ->. cbn. by rewrite pos_app.
    + by rewrite lookup_insert_ne by done.
  - assert (Hne : jk_Device k0 <> jk_Device k) by congruence. rewrite lookup_insert_ne, pos_app by (done || apply D; by eexists). done.
Qed.
Lemma remove_rank M k k0 q q' : k <> k0 -> queued k q -> remove k0 q = Some q' -> (rank M k q' <= rank M k q)%nat.
Proof.
  intros Hne (l & Hl & Hin). unfold remove, rank. destruct (waiting_jobs q !! jk_Device k0) as [l0|] eqn:E0; [|done].
  cbn [mbind option_bind]. intros [= <-]. destruct (decide (jk_Device k = jk_Device k0)) as [E|Hd].
  - rewrite E in Hl |- *. rewrite E0 in Hl. injection Hl as ->. rewrite decide_False.
    + cbn. rewrite lookup_insert_eq, E0. cbn. pose proof (pos_filter k k0 l Hne). nia.
    + intros Hnil. assert (k ∈ filter (fun x => x <> k0) l) as Hf by (by apply list_elem_of_filter). rewrite Hnil in Hf. by apply not_elem_of_nil in Hf.
  - case_decide; cbn; [rewrite lookup_delete_ne by done|rewrite lookup_insert_ne by done]; [|done].
    pose proof (pos_filter _ _ (devices q) Hd). lia.
Qed.
Lemma pop_spec q : qwf q ->
  (pop q = Some (None, q) /\ forall k, ~ queued k q) \/
  exists k0 q', pop q = Some (Some k0, q') /\ queued k0 q /\ qwf q' /\ (forall k, queued k q' <-> k <> k0 /\ queued k q) /\
    (length (devices q') <= length (devices q))%nat /\
    forall M k, (length (devices q) <= M)%nat -> queued k q -> k <> k0 -> (rank M k q' < rank M k q)%nat.
Proof.
  intros H. pose proof H as [N D J]. unfold pop. destruct (devices q) as [|d rest] eqn:Ed.
  - left. split; [done|]. intros k (l & Hl & _). assert (Hin : jk_Device k ∈ []) by (apply D; by eexists). by apply not_elem_of_nil in Hin.
  - right. destruct (proj1 (D d)) as [l Hl]; [apply list_elem_of_here|]. rewrite Hl. cbn [mbind option_bind].
    destruct (J _ _ Hl) as (Hne & Hnd & Hdev). destruct l as [|k0 l]; [done|]. cbn [head mbind option_bind]. apply Forall_cons in Hdev as [Hk0 Hdev].
    assert (Hq0 : queued k0 q) by (exists (k0 :: l); rewrite Hk0; split; [done|apply list_elem_of_here]).
    destruct (remove_wf k0 q H Hq0) as (q1 & Er & H1 & Hq1). rewrite Er. cbn [mbind option_bind]. eexists k0, _. split; [reflexivity|].
    unfold remove in Er. rewrite Hk0, Hl in Er. cbn [mbind option_bind] in Er. injection Er as Er. rewrite filter_head in Er by done.
    pose proof N as N'. apply NoDup_cons in N' as [Hout Nr]. rewrite Ed, filter_head in Er by done.
    destruct (decide (l = [])) as [->|Hnil]; subst q1; cbn [waiting_jobs devices] in *.
    + rewrite decide_False by (rewrite lookup_delete_eq; by intros [? ?]). split_and!; [done|done|done|cbn; lia|].
      intros M k HM (l' & Hl' & Hin) Hk. assert (Hkd : jk_Device k <> d).
      { intros E. rewrite E, Hl in Hl'. injection Hl' as <-. apply Hk. by apply list_elem_of_singleton in Hin. }
      unfold rank. cbn. rewrite lookup_delete_ne, Ed by done. cbn. rewrite decide_False by done. lia.
    + rewrite decide_True by (rewrite lookup_insert_eq; by eexists).
      destruct H1 as [N1 D1 J1]. cbn in N1, D1, J1. rewrite filter_head by done. split_and!; [done|split; cbn|done|cbn; rewrite length_app; cbn; lia|].
      * apply NoDup_app. split_and!; [done| |apply NoDup_singleton]. by intros x Hx ->%list_elem_of_singleton.
      * intros d'. rewrite elem_of_app, list_elem_of_singleton, <- D1, elem_of_cons. tauto.
      * exact J1.
      * intros M k HM (l' & Hl' & Hin) Hk. unfold rank. cbn. destruct (decide (jk_Device k = d)) as [E|Hkd].
        -- rewrite E, lookup_insert_eq, Hl, Ed. cbn. rewrite decide_False, decide_True by done.
           rewrite pos_app_out by done. cbn. rewrite decide_True by done. cbn in HM. nia.
        -- rewrite lookup_insert_ne, Ed by done. cbn. rewrite (decide_False (P := jk_Device k = d)) by done.
           assert (Hr : jk_Device k ∈ rest).
           { assert (Hx : jk_Device k ∈ d :: rest) by (apply D; by eexists). by apply elem_of_cons in Hx as [|]. }
           rewrite pos_app by done. lia.
Qed.

(** ** Collectors of a view *)

Lemma collector_set key st st0 t0 k v : collector key v = Some (st0, t0) ->
  collector k (set_collector key st v) =
  if decide (k = key) then Some (st, t0) else collector k v.
Proof.
  unfold collector, set_collector. case_decide as H1; [done|]. destruct (decide (jk_Collector key = CollectorNetstat)) as [Hn|Hn].
  - case_decide as Hz; [done|]. intros [= <- <-]. cbn. destruct (decide (k = key)) as [->|Hne].
    + by rewrite decide_False, decide_True, decide_False by tauto.
    + case_decide as H2; [done|]. case_decide as H3; [|done]. case_decide as H4; [done|]. exfalso. apply Hne.
      destruct k as [n d c], key as [n' d' c']; cbn in *.
      assert (n = v_namespace v) by (destruct (decide (n = v_namespace v)); tauto).
      assert (n' = v_namespace v) by (destruct (decide (n' = v_namespace v)); tauto). congruence.
  - destruct (v_devices v !! jk_Device key) as [[t c]|] eqn:Ed; [|done]. cbn [mbind option_bind]. intros [= <- <-]. cbn.
    destruct (decide (k = key)) as [->|Hne].
    + rewrite decide_False by done. rewrite (decide_False (P := _ = CollectorNetstat)) by done. rewrite lookup_alter_eq, Ed. cbn. by rewrite decide_True.
    + case_decide as H2; [done|]. case_decide as H3; [done|]. destruct (decide (jk_Device k = jk_Device key)) as [E|Hd].
      * rewrite E, lookup_alter_eq, Ed. cbn. rewrite decide_False; [done|]. intros Ec. apply Hne. destruct k as [n d c'], key as [n' d' c'']; cbn in *.
        assert (n = v_namespace v) by (destruct (decide (n = v_namespace v)); tauto).
        assert (n' = v_namespace v) by (destruct (decide (n' = v_namespace v)); tauto). congruence.
      * by rewrite lookup_alter_ne by done.
Qed.
Definition same_collectors (v v' : view) : Prop := forall k, is_Some (collector k v') <-> is_Some (collector k v).
Lemma same_collectors_set key st st0 t0 v : collector key v = Some (st0, t0) -> same_collectors v (set_collector key st v).
Proof.
  intros H k. rewrite (collector_set key st st0 t0 k v H). case_decide as E; [|done]. subst. rewrite H. by split; eexists.
Qed.

(** A result is taken by the collector whose attempt it is, and by no other. *)
Lemma finish_view r v a v' : finishCollection r v = (a, v') ->
  same_collectors v v' /\ v_attempt v' = v_attempt v /\ v_namespace v' = v_namespace v /\
  forall k st' t', collector k v' = Some (st', t') -> running st' = true ->
    exists st, collector k v = Some (st, t') /\ running st = true /\ c_job st' = c_job st /\ ~ (k = j_Key (r_Job r) /\ c_job st = r_Job r).
Proof.
  unfold finishCollection. destruct (collector (j_Key (r_Job r)) v) as [[st t]|] eqn:Ec.
  2: { intros [= <- <-]. split_and!; try done. intros k st' t' Hk Hr. exists st'. split_and!; try done. intros [-> _]. congruence. }
  destruct (running st) eqn:Er; cbn [negb orb].
  2: { intros [= <- <-]. split_and!; try done. intros k st' t' Hk Hr. exists st'. split_and!; try done. intros [-> _]. congruence. }
  case_bool_decide as Hj.
  { intros [= <- <-]. split_and!; try done. intros k st' t' Hk Hr. exists st'. split_and!; try done. intros [-> ?]. congruence. }
  set (v1 := set_collector _ _ v). assert (A : forall b, (b, v1) = (a, v') -> same_collectors v v' /\ v_attempt v' = v_attempt v /\
    v_namespace v' = v_namespace v /\
    forall k st' t', collector k v' = Some (st', t') -> running st' = true ->
    exists st, collector k v = Some (st, t') /\ running st = true /\ c_job st' = c_job st /\ ~ (k = j_Key (r_Job r) /\ c_job st = r_Job r)).
  { intros b [= _ <-]. split; [by eapply same_collectors_set|]. split; [unfold v1, set_collector; by case_decide|].
    split; [unfold v1, set_collector; by case_decide|]. intros k st' t' Hk Hr.
    unfold v1 in Hk. rewrite (collector_set _ _ st t k v Ec) in Hk. case_decide as E.
    - injection Hk as <- <-. done.
    - exists st'. split_and!; try done. by intros [? _]. }
  case_decide; intros HE; by eapply A.
Qed.

(** ** Attempts and workers *)

Definition is_active (s : scheduler) (w : nat) (a : runningCollection) : Prop := active s !! w = Some (Some a).
Lemma running_at_Some key s a : running_at key s = Some a -> exists w, is_active s w a /\ j_Key (a_job a) = key.
Proof.
  unfold running_at, is_active. destruct (filter _ (active s)) as [|[x|] l] eqn:E; cbn; [done| |done]. intros [= ->].
  assert (Hin : Some a ∈ filter (fun a => is_for key a = true) (active s)) by (rewrite E; apply list_elem_of_here).
  apply list_elem_of_filter in Hin as [Hk Hin]. apply list_elem_of_lookup_1 in Hin as [w Hw]. exists w. split; [done|].
  cbn in Hk. by apply bool_decide_eq_true_1 in Hk.
Qed.
Lemma running_at_None key s w a : running_at key s = None -> is_active s w a -> j_Key (a_job a) <> key.
Proof.
  unfold running_at, is_active. intros H Hw <-.
  assert (Hin : Some a ∈ filter (fun x => is_for (j_Key (a_job a)) x = true) (active s)).
  { apply list_elem_of_filter. split; [cbn; by apply bool_decide_eq_true_2|by eapply list_elem_of_lookup_2]. }
  destruct (filter _ (active s)) as [|[x|] l] eqn:E; [by apply not_elem_of_nil in Hin|done|].
  assert (Hn : None ∈ filter (fun x => is_for (j_Key (a_job a)) x = true) (active s)) by (rewrite E; apply list_elem_of_here).
  by apply list_elem_of_filter in Hn as [? _].
Qed.
(** Whether a collector has a worker. *)
Definition served (s : scheduler) (key : JobKey) : Prop := exists w a, is_active s w a /\ j_Key (a_job a) = key.
Lemma served_running s key : served s key <-> is_Some (running_at key s).
Proof.
  split.
  - intros (w & a & Hw & Hk). destruct (running_at key s) eqn:E; [by eexists|]. by eapply running_at_None in E.
  - intros [a (w & Hw & Hk)%running_at_Some]. by exists w, a.
Qed.

(** What a worker holds: in its channel, at hand, or in the channel of results. *)
Definition opt_list {A} (o : option (option A)) : list A := match o with Some (Some a) => [a] | _ => [] end.
Definition held (s : scheduler) (w : nat) : list Job :=
  opt_list (inbox s !! w) ++ opt_list (hand s !! w) ++ ((fun p => r_Job p.2) <$> filter (fun p => p.1 = w) (results s)).
Definition owed (s : scheduler) (w : nat) : list Job := a_job <$> opt_list (active s !! w).

(** [W] are workers whose result has been taken from the channel. *)
Record wbut (W : list nat) (s : scheduler) : Prop := {
  wi_len : length (active s) = collectorWorkers /\ length (inbox s) = collectorWorkers /\ length (hand s) = collectorWorkers;
  wi_one : forall w w' a a', is_active s w a -> is_active s w' a' -> j_Key (a_job a) = j_Key (a_job a') -> w = w';
  wi_running : forall k st t, collector k (vw s) = Some (st, t) -> running st = true ->
    exists w a, is_active s w a /\ a_job a = c_job st /\ timedOut a = false /\ j_Key (a_job a) = k;
  wi_held : forall w, (w < collectorWorkers)%nat -> w ∉ W -> held s w = owed s w;
  wi_results : Forall (fun p => (p.1 < collectorWorkers)%nat) (results s);
  wi_urgent : 0 <= urgent s <= 8;
  wi_traffic : forall w a, traffic_at s = Some w -> ~ is_active s w a }.
Abbreviation winv := (wbut []).

(** ** Jobs and queues

    [X] are the jobs whose device may be gone. *)

Record jinv (X : list JobKey) (s : scheduler) : Prop := {
  ji_queue : forall u, qwf (queue s u);
  ji_ready : forall u k, queued k (queue s u) <-> exists j, jobs s !! k = Some j /\ ready j = true /\ urgency j = u;
  ji_job : forall k j, jobs s !! k = Some j -> k ∉ X -> is_Some (collector k (vw s));
  ji_waits : forall k j, jobs s !! k = Some j -> ready j = true -> s_pending j = true /\ ~ served s k;
  ji_pending : forall k j, jobs s !! k = Some j -> s_pending j = true -> ready j = true \/ served s k }.
(** The same but for one job, which is in no queue. *)
Record jbut (X : list JobKey) (key : JobKey) (s : scheduler) : Prop := {
  jb_queue : forall u, qwf (queue s u);
  jb_out : forall u, ~ queued key (queue s u);
  jb_ready : forall u k, k <> key -> queued k (queue s u) <-> exists j, jobs s !! k = Some j /\ ready j = true /\ urgency j = u;
  jb_job : forall k j, k <> key -> jobs s !! k = Some j -> k ∉ X -> is_Some (collector k (vw s));
  jb_waits : forall k j, k <> key -> jobs s !! k = Some j -> ready j = true -> s_pending j = true /\ ~ served s k;
  jb_pending : forall k j, k <> key -> jobs s !! k = Some j -> s_pending j = true -> ready j = true \/ served s k }.

(** Everything but jobs and queues is the same. *)
Definition frame (s s' : scheduler) : Prop :=
  vw s' = vw s /\ active s' = active s /\ urgent s' = urgent s /\ inbox s' = inbox s /\ hand s' = hand s /\ results s' = results s /\ traffic_at s' = traffic_at s.
Lemma frame_trans s1 s2 s3 : frame s1 s2 -> frame s2 s3 -> frame s1 s3.
Proof. intros (? & ? & ? & ? & ? & ? & ?) (? & ? & ? & ? & ? & ? & ?). unfold frame. split_and!; congruence. Qed.
Lemma frame_served s s' k : frame s s' -> served s' k <-> served s k.
Proof. intros (_ & E & _). unfold served, is_active. by rewrite E. Qed.
Lemma frame_running s s' k : frame s s' -> running_at k s' = running_at k s.
Proof. intros (_ & E & _). unfold running_at. by rewrite E. Qed.
Lemma frame_winv W s s' : frame s s' -> wbut W s -> wbut W s'.
Proof.
  intros (E1 & E2 & E3 & E4 & E5 & E6 & E7) [W1 W2 W3 W4 W5 W6 W7]. unfold is_active, held, owed in *.
  split; unfold is_active, held, owed; rewrite ?E1, ?E2, ?E3, ?E4, ?E5, ?E6, ?E7; done.
Qed.
(** Other jobs stay in the queues they are in, and no job falls behind. *)
Definition calm (keys : list JobKey) (s s' : scheduler) : Prop :=
  forall u k, (k ∉ keys -> (queued k (queue s' u) <-> queued k (queue s u))) /\
    (queued k (queue s u) -> queued k (queue s' u) -> forall M, (rank M k (queue s' u) <= rank M k (queue s u))%nat).
Lemma calm_refl keys s s' : queue s' = queue s -> calm keys s s'.
Proof. intros E u k. rewrite E. split; [done|]. intros. lia. Qed.
Lemma calm_trans ks1 ks2 s1 s2 s3 : calm ks1 s1 s2 -> calm ks2 s2 s3 -> ks1 ## ks2 -> calm (ks1 ++ ks2) s1 s3.
Proof.
  intros C1 C2 Hd u k. destruct (C1 u k) as [I1 R1], (C2 u k) as [I2 R2]. split.
  - intros [H1 H2]%not_elem_of_app. by rewrite I2, I1.
  - intros Hq Hq' M. assert (H2 : queued k (queue s2 u)).
    { destruct (decide (k ∈ ks1)) as [Hin|Hin]; [|by apply I1]. apply I2; [|done]. intros H2. by apply (Hd k). }
    specialize (R1 Hq H2 M). specialize (R2 H2 Hq' M). lia.
Qed.

Lemma jinv_weaken X Y s : jinv X s -> X ⊆ Y -> jinv Y s.
Proof. intros [J1 J2 J3 J4 J5] H. split; try done. intros k j Hj Hk. apply (J3 k j Hj). intros ?. by apply Hk, H. Qed.
Lemma jbut_cons X key s : jbut (key :: X) key s -> jbut X key s.
Proof.
  intros [J1 J2 J3 J4 J5 J6]. split; try done. intros k j Hne Hj Hk. apply (J4 k j Hne Hj). by apply not_elem_of_cons.
Qed.
Lemma jbut_set_job X key j s : jbut X key s -> jbut X key (set_job key j s).
Proof.
  intros [J1 J2 J3 J4 J5 J6]. split; cbn; try done.
  - intros u k Hne. rewrite lookup_insert_ne by done. by apply J3.
  - intros k j' Hne. rewrite lookup_insert_ne by done. by apply J4.
  - intros k j' Hne. rewrite lookup_insert_ne by done. by apply J5.
  - intros k j' Hne. rewrite lookup_insert_ne by done. by apply J6.
Qed.
Lemma dequeue_spec X key j s : jinv X s -> jobs s !! key = Some j ->
  exists s', dequeue key j s = Some s' /\ jbut X key s' /\ frame s s' /\ jobs s' = jobs s /\ calm [key] s s' /\
    forall u, u <> urgency j -> queue s' u = queue s u.
Proof.
  intros [J1 J2 J3 J4 J5] Hj. unfold dequeue. destruct (ready j) eqn:Er.
  - assert (Hq : queued key (queue s (urgency j))) by (apply J2; by exists j).
    destruct (remove_wf key _ (J1 (urgency j)) Hq) as (q & E & Hwf & Hk). rewrite E. cbn [mbind option_bind].
    eexists. split; [done|]. split; [|split_and!; [done|done| |]].
    + split; cbn; try done.
      * intros u. case_decide; [by subst|done].
      * intros u. case_decide as Eu; [rewrite Hk; naive_solver|]. intros (j' & Hj' & _ & Hu)%J2. rewrite Hj in Hj'. by injection Hj' as <-.
      * intros u k Hne. rewrite <- J2. case_decide as Eu; [subst; rewrite Hk; naive_solver|done].
      * intros k j' _ Hj'. by apply (J3 k j').
      * intros k j' _ Hj'. by apply (J4 k j').
      * intros k j' _ Hj'. by apply (J5 k j').
    + intros u k. cbn. case_decide as Eu; [subst u|split; [done|intros; lia]]. rewrite Hk, list_elem_of_singleton. split; [tauto|].
      intros Hq' [Hne _] M. by eapply remove_rank.
    + intros u Hu. cbn. by rewrite decide_False.
  - eexists. split; [done|]. split_and!; [|done|done|by apply calm_refl|done]. split; try done.
    + intros u (j' & Hj' & Hr & _)%J2. congruence.
    + intros k j' _ Hj'. by apply (J3 k j').
    + intros k j' _ Hj'. by apply (J4 k j').
    + intros k j' _ Hj'. by apply (J5 k j').
Qed.
(** The job is back, or gone. *)
Lemma jbut_settle X key s : jbut X key s ->
  (forall j, jobs s !! key = Some j -> ready j = false /\ (s_pending j = true -> served s key) /\ (key ∉ X -> is_Some (collector key (vw s)))) -> jinv X s.
Proof.
  intros [J1 J2 J3 J4 J5 J6] H. split; try done.
  - intros u k. destruct (decide (k = key)) as [->|Hne]; [|by apply J3]. split; [by intros ?%J2|].
    intros (j & Hj & Hr & _). destruct (H j Hj). congruence.
  - intros k j Hj. destruct (decide (k = key)) as [->|Hne]; [by apply (H j Hj)|by apply (J4 k j)].
  - intros k j Hj. destruct (decide (k = key)) as [->|Hne]; [|by apply (J5 k j)]. destruct (H j Hj). congruence.
  - intros k j Hj. destruct (decide (k = key)) as [->|Hne]; [|by apply (J6 k j)]. intros Hp. right. by apply (H j Hj).
Qed.
Lemma enqueue_ready X key j s : jbut X key s -> (key ∉ X -> is_Some (collector key (vw s))) -> s_pending j = true -> ~ served s key ->
  jinv X (enqueue key j s) /\ frame s (enqueue key j s) /\ calm [key] s (enqueue key j s) /\
  (forall u, u <> urgency j -> queue (enqueue key j s) u = queue s u).
Proof.
  intros [J1 J2 J3 J4 J5 J6] Hc Hp Hs. destruct (push_wf key _ (J1 (urgency j)) (J2 _)) as [Hwf Hk]. split; [|split_and!; [done| |]].
  - split; cbn; try done.
    + intros u. case_decide; [by subst|done].
    + intros u k. destruct (decide (k = key)) as [->|Hne].
      * rewrite lookup_insert_eq. case_decide as Eu; [subst; rewrite Hk; split; [|by left]; intros _; by eexists|].
        split; [by intros ?%J2|]. intros (j' & [= <-] & _ & Hu). by destruct Eu.
      * rewrite lookup_insert_ne by done. rewrite <- J3 by done. case_decide as Eu; [subst; rewrite Hk; naive_solver|done].
    + intros k j'. destruct (decide (k = key)) as [->|Hne]; [by intros _|]. rewrite lookup_insert_ne by done. by apply J4.
    + intros k j'. destruct (decide (k = key)) as [->|Hne]; [rewrite lookup_insert_eq; by intros [= <-] _|]. rewrite lookup_insert_ne by done. by apply J5.
    + intros k j'. destruct (decide (k = key)) as [->|Hne]; [rewrite lookup_insert_eq; intros [= <-] _; by left|].
      rewrite lookup_insert_ne by done. by apply J6.
  - intros u k. cbn. case_decide as Eu; [subst u|split; [done|intros; lia]]. rewrite Hk, list_elem_of_singleton. split; [tauto|].
    intros Hq _ M. by rewrite push_rank.
  - intros u Hu. cbn. by rewrite decide_False.
Qed.
Lemma set_job_same X key j j' s : jinv X s -> jobs s !! key = Some j ->
  s_pending j' = s_pending j -> urgency j' = urgency j -> ready j' = ready j -> jinv X (set_job key j' s).
Proof.
  intros [J1 J2 J3 J4 J5] Hj Hp Hu Hr. split; cbn; try done.
  - intros u k. rewrite J2. destruct (decide (k = key)) as [->|Hne]; [|by rewrite lookup_insert_ne]. rewrite lookup_insert_eq, Hj.
    split; intros (x & [= <-] & ? & ?); eexists; (split; [done|]); split; congruence.
  - intros k x. destruct (decide (k = key)) as [->|Hne]; [intros _; by apply (J3 key j)|]. rewrite lookup_insert_ne by done. by apply J3.
  - intros k x. destruct (decide (k = key)) as [->|Hne]; [|rewrite lookup_insert_ne by done; by apply J4].
    rewrite lookup_insert_eq. intros [= <-] Hx. rewrite Hp. apply (J4 key j Hj). congruence.
  - intros k x. destruct (decide (k = key)) as [->|Hne]; [|rewrite lookup_insert_ne by done; by apply J5].
    rewrite lookup_insert_eq. intros [= <-] Hx. rewrite Hr. apply (J5 key j Hj). congruence.
Qed.
Lemma jbut_delete X key s : jbut X key s -> jinv X (set_jobs (delete key (jobs s)) s).
Proof.
  intros [J1 J2 J3 J4 J5 J6]. apply (jbut_settle X key).
  - split; cbn; try done.
    + intros u k Hne. rewrite lookup_delete_ne by done. by apply J3.
    + intros k j' Hne. rewrite lookup_delete_ne by done. by apply J4.
    + intros k j' Hne. rewrite lookup_delete_ne by done. by apply J5.
    + intros k j' Hne. rewrite lookup_delete_ne by done. by apply J6.
  - cbn. intros j. by rewrite lookup_delete_eq.
Qed.
Lemma jinv_drop X key s : jinv (key :: X) s -> (is_Some (jobs s !! key) -> is_Some (collector key (vw s))) -> jinv X s.
Proof.
  intros [J1 J2 J3 J4 J5] H. split; try done. intros k j Hj Hk. destruct (decide (k = key)) as [->|Hne]; [apply H; by eexists|].
  apply (J3 k j Hj). by apply not_elem_of_cons.
Qed.
Lemma unregister_spec X key s : jinv (key :: X) s -> exists s', unregister key s = Some s' /\ jinv X s' /\ frame s s' /\ calm [key] s s' /\
  jobs s' !! key = None.
Proof.
  intros J. unfold unregister. destruct (jobs s !! key) as [j|] eqn:Hj.
  - destruct (dequeue_spec _ key j s J Hj) as (s1 & E & Jb & F & Ej & C & _). rewrite E. cbn [mbind option_bind].
    eexists. split; [done|]. split; [by apply jbut_delete, jbut_cons|]. split; [done|]. split; [done|]. cbn. apply lookup_delete_eq.
  - eexists. split; [done|]. split_and!; [|done|by apply calm_refl|done]. apply (jinv_drop X key); [done|]. rewrite Hj. by intros [? ?].
Qed.

(** What is pending stays so, and no less urgent, unless its collector has
    gone. *)
Definition no_less (j : scheduledJob) (o : option scheduledJob) : Prop :=
  exists j', o = Some j' /\ s_pending j' = true /\ urgency_value (urgency j') <= urgency_value (urgency j).
Definition kept (k : JobKey) (s s' : scheduler) : Prop := forall j, jobs s !! k = Some j -> s_pending j = true ->
  no_less j (jobs s' !! k) \/ (jobs s' !! k = None /\ collector k (vw s') = None).
Lemma no_less_here j : s_pending j = true -> no_less j (Some j).
Proof. intros H. by exists j. Qed.
Lemma kept_same k s s' : jobs s' = jobs s -> kept k s s'.
Proof. intros E j Hj Hp. left. rewrite E, Hj. by apply no_less_here. Qed.
Lemma dequeue_jobs key j s s' : dequeue key j s = Some s' -> jobs s' = jobs s /\ vw s' = vw s.
Proof. unfold dequeue. destruct (ready j); [|by intros [= <-]]. destruct (remove key _); cbn; [|done]. by intros [= <-]. Qed.
Lemma request_kept key u s s' k : request key u s = Some s' ->
  vw s' = vw s /\ kept k s s' /\ (jobs s !! k = None -> jobs s' !! k = None).
Proof.
  unfold request. destruct (jobs s !! key) as [j|] eqn:Hj; [|intros [= <-]; split_and!; [done|by apply kept_same|done]].
  destruct (collector key (vw s)) as [[st t]|] eqn:Hc.
  2: { unfold unregister. rewrite Hj. destruct (dequeue key j s) as [s1|] eqn:E; [|done]. apply dequeue_jobs in E as [Ej Ev].
       cbn [mbind option_bind]. intros [= <-]. cbn. rewrite Ej. split_and!; [done| |].
       - intros j' Hj' Hp. unfold no_less. cbn. destruct (decide (k = key)) as [->|Hne].
         + right. rewrite lookup_delete_eq, Ev. done.
         + left. rewrite lookup_delete_ne, Hj' by done. by apply no_less_here.
       - intros Hn. apply lookup_delete_None. by right. }
  assert (A : forall s0 j', vw s0 = vw s -> (forall k, k <> key -> jobs s0 !! k = jobs s !! k) -> jobs s0 !! key = Some j' ->
    (s_pending j = true -> no_less j (Some j')) -> vw s0 = vw s /\ kept k s s0 /\ (jobs s !! k = None -> jobs s0 !! k = None)).
  { intros s0 j' Ev Ek Ej Hl. split; [done|]. destruct (decide (k = key)) as [->|Hne].
    - split; [|congruence]. intros j0 Hj0 Hp. rewrite Hj in Hj0. injection Hj0 as <-. left. rewrite Ej. by apply Hl.
    - rewrite (Ek k Hne). split; [|done]. intros j0 Hj0 Hp. left. rewrite (Ek k Hne), Hj0. by apply no_less_here. }
  set (j1 := if decide _ then _ else j). assert (P1 : s_pending j1 = s_pending j /\ urgency j1 = urgency j) by (unfold j1; by case_decide).
  destruct P1 as (P1 & U1). assert (N1 : s_pending j = true -> no_less j (Some j1)).
  { intros Hp. exists j1. split_and!; [done|congruence|by rewrite U1]. }
  destruct (_ && retryActive j1); [intros [= <-]; eapply A; [done|by intros; apply lookup_insert_ne|apply lookup_insert_eq|done]|].
  destruct (covers _ _ _); [intros [= <-]; eapply A; [done|by intros; apply lookup_insert_ne|apply lookup_insert_eq|done]|].
  destruct (negb (s_pending j1) || _) eqn:Ep.
  - destruct (dequeue key j1 _) as [s2|] eqn:E; cbn [mbind option_bind]; [|done]. apply dequeue_jobs in E as [Ej Ev].
    intros [= <-]. apply (A _ (with_place true u (if bool_decide (is_Some (running_at key (set_job key j1 s))) || false then false else true) j1)).
    + cbn [ready with_place]. destruct (bool_decide (is_Some _) || _); exact Ev.
    + intros k' Hne. cbn [ready with_place]. destruct (bool_decide (is_Some _) || _); cbn; rewrite lookup_insert_ne, Ej by done; cbn; by rewrite lookup_insert_ne.
    + cbn [ready with_place]. destruct (bool_decide (is_Some _) || _); cbn; apply lookup_insert_eq.
    + intros Hp. eexists. split; [done|]. cbn. split; [done|]. rewrite P1, Hp in Ep. apply bool_decide_eq_true_1 in Ep. rewrite U1 in Ep. lia.
  - cbn [mbind option_bind]. intros [= <-]. apply (A _ (with_place true (urgency j1) (if bool_decide (is_Some (running_at key (set_job key j1 s))) || ready j1 then ready j1 else true) j1)).
    + cbn [ready with_place]. by destruct (bool_decide (is_Some _) || _).
    + intros k' Hne. cbn [ready with_place]. destruct (bool_decide (is_Some _) || _); cbn; rewrite lookup_insert_ne by done; by rewrite lookup_insert_ne.
    + cbn [ready with_place]. destruct (bool_decide (is_Some _) || _); cbn; apply lookup_insert_eq.
    + intros Hp. eexists. split; [done|]. cbn. split; [done|]. by rewrite U1.
Qed.

(** What a request comes to: the attempt under way covers it, or it is a
    periodic one and a retry is on its way, or the job is pending, and no less
    urgent than was asked. *)
Definition heard (key : JobKey) (u : jobUrgency) (st : collectorState) (t : Token) (s s' : scheduler) : Prop :=
  covers (running_at key s) t st = true \/
  exists j, jobs s' !! key = Some j /\
    ((u = urgencyPeriodic /\ retryActive j = true) \/ (s_pending j = true /\ urgency_value (urgency j) <= urgency_value u)).
Lemma request_spec X key u s : jinv (key :: X) s ->
  exists s', request key u s = Some s' /\ jinv X s' /\ frame s s' /\ calm [key] s s' /\
    forall st t, is_Some (jobs s !! key) -> collector key (vw s) = Some (st, t) -> heard key u st t s s'.
Proof.
  intros J. unfold request. destruct (jobs s !! key) as [j|] eqn:Hj.
  2: { eexists. split; [done|]. split_and!; [|done|by apply calm_refl|by intros ? ? [? ?]].
       apply (jinv_drop X key); [done|]. rewrite Hj. by intros [? ?]. }
  destruct (collector key (vw s)) as [[st t]|] eqn:Hc.
  2: { destruct (unregister_spec X key s J) as (s' & E & J' & F & C & _). exists s'. split_and!; [done|done|done|done|congruence]. }
  set (j1 := if decide _ then _ else j). assert (P1 : s_pending j1 = s_pending j /\ urgency j1 = urgency j /\ ready j1 = ready j).
  { unfold j1. by case_decide. }
  destruct P1 as (P1 & U1 & R1). assert (J1 : jinv X (set_job key j1 s)).
  { apply (jinv_drop X key); [by eapply set_job_same|]. cbn. rewrite Hc. by eexists. }
  assert (Hj1 : jobs (set_job key j1 s) !! key = Some j1) by apply lookup_insert_eq. set (s1 := set_job key j1 s) in *.
  assert (C1 : calm [key] s s1) by (by apply calm_refl). change (running_at key s1) with (running_at key s).
  destruct (bool_decide (u = urgencyPeriodic) && retryActive j1) eqn:Ep.
  { apply andb_true_iff in Ep as [Eu Er]. apply bool_decide_eq_true_1 in Eu. eexists. split; [done|]. split_and!; try done.
    intros st' t' _ _. right. exists j1. split; [done|]. by left. }
  destruct (covers (running_at key s) t st) eqn:Ecov.
  { eexists. split; [done|]. split_and!; try done. intros st' t' _ [= <- <-]. by left. }
  assert (Hs : forall s', frame s s' -> served s' key <-> is_Some (running_at key s)).
  { intros s' F. rewrite <- served_running. by apply frame_served. }
  destruct (negb (s_pending j1) || bool_decide (urgency_value u < urgency_value (urgency j1))) eqn:Epr.
  - destruct (dequeue_spec X key j1 s1 J1 Hj1) as (s2 & E & Jb & F & Ej & C & Qs). rewrite E. cbn [mbind option_bind ready with_place orb].
    rewrite orb_false_r. set (j3 := with_place _ _ _ _). assert (F2 : frame s s2) by (by eapply (frame_trans s s1)).
    destruct (bool_decide (is_Some (running_at key s))) eqn:Ha; [apply bool_decide_eq_true_1 in Ha|apply bool_decide_eq_false_1 in Ha].
    + eexists. split; [done|]. split_and!; [|exact F2|exact C|].
      * apply (jbut_settle X key); [by apply jbut_set_job|]. cbn. intros j'. rewrite lookup_insert_eq. intros [= <-]. split_and!; [done| |].
        -- intros _. rewrite (Hs (set_job key j3 s2)); [done|done].
        -- intros _. destruct F2 as [Ev _]. rewrite Ev, Hc. by eexists.
      * intros st' t' _ _. right. exists j3. split; [apply lookup_insert_eq|]. right. cbn. split; [done|lia].
    + assert (Hn : ~ served s2 key) by (rewrite (Hs s2); done).
      destruct (enqueue_ready X key j3 s2 Jb) as (J3 & F3 & C3 & Q3); [|done|exact Hn|].
      { intros _. destruct F2 as [Ev _]. rewrite Ev, Hc. by eexists. }
      eexists. split; [done|]. split_and!; [done|by eapply frame_trans| |].
      * intros u' k. destruct (C u' k) as [I2 H2], (C3 u' k) as [I3 H3]. split.
        -- intros Hk. rewrite I3 by done. by apply I2.
        -- intros Hq Hq' M. destruct (decide (k = key)) as [->|Hk].
           ++ exfalso. apply (ji_ready _ _ J1) in Hq as (j' & Hj' & Hr & Hu). rewrite Hj1 in Hj'. injection Hj' as <-.
              assert (Hu3 : u' <> urgency j3).
              { cbn. intros ->. destruct (ji_waits _ _ J1 key j1 Hj1 Hr) as [Hp _]. rewrite Hp in Epr. cbn in Epr.
                apply bool_decide_eq_true_1 in Epr. rewrite Hu in Epr. lia. }
              rewrite Q3 in Hq' by done. by apply (jb_out _ _ _ Jb) in Hq'.
           ++ assert (Hq2 : queued k (queue s2 u')) by (apply I2; [by rewrite list_elem_of_singleton|done]).
              specialize (H3 Hq2 Hq' M). specialize (H2 Hq Hq2 M). change (queue s u') with (queue s1 u'). lia.
      * intros st' t' _ _. right. eexists. split; [apply lookup_insert_eq|]. right. cbn. split; [done|lia].
  - apply orb_false_iff in Epr as [Ep1 Eu]. apply negb_false_iff in Ep1. apply bool_decide_eq_false_1 in Eu. cbn [mbind option_bind].
    set (j3 := with_place _ _ _ _). assert (J3 : jinv X (set_job key j3 s1)) by (by eapply set_job_same).
    assert (Hb : bool_decide (is_Some (running_at key s)) || ready j3 = true).
    { apply orb_true_iff. destruct (ji_pending _ _ J1 key j1 Hj1 Ep1) as [Hr|Hr]; [by right|left].
      apply bool_decide_eq_true_2. by rewrite <- (Hs s1). }
    rewrite Hb. eexists. split; [done|]. split_and!; [done|done|by apply calm_refl|]. intros st' t' _ _. right. exists j3.
    split; [apply lookup_insert_eq|]. right. cbn. split; [done|lia].
Qed.

Lemma request_all_spec l : forall s, NoDup l -> jinv l s ->
  exists s', request_all l s = Some s' /\ jinv [] s' /\ frame s s' /\ calm l s s'.
Proof.
  induction l as [|k l IH]; intros s Hnd J; cbn [request_all].
  - eexists. split; [done|]. split_and!; [done|done|by apply calm_refl].
  - apply NoDup_cons in Hnd as [Hout Hnd]. destruct (request_spec l k urgencyEvent s J) as (s1 & E & J1 & F1 & C1 & _).
    rewrite E. cbn [mbind option_bind]. destruct (IH s1 Hnd J1) as (s' & E' & J' & F' & C'). exists s'.
    split_and!; [done|done|by eapply frame_trans|]. change (k :: l) with ([k] ++ l). eapply calm_trans; [done|done|].
    by intros x ->%list_elem_of_singleton.
Qed.
Definition sinv (s : scheduler) : Prop := winv s /\ jinv [] s.
(** What a step of the owner that dispatches nothing preserves. *)
Definition steady (keys : list JobKey) (s s' : scheduler) : Prop :=
  sinv s' /\ calm keys s s' /\ urgent s' = urgent s /\ v_attempt (vw s') = v_attempt (vw s) /\ v_namespace (vw s') = v_namespace (vw s).
Lemma frame_steady keys s s' : sinv s -> jinv [] s' -> frame s s' -> calm keys s s' -> steady keys s s'.
Proof.
  intros [W _] J F C. split; [split; [by eapply frame_winv|done]|]. destruct F as (E1 & _ & E3 & _). rewrite E1, E3. done.
Qed.

Lemma request_steady key u s : sinv s -> exists s', request key u s = Some s' /\ steady [key] s s' /\
  forall st t, is_Some (jobs s !! key) -> collector key (vw s) = Some (st, t) -> heard key u st t s s'.
Proof.
  intros S. destruct (request_spec [] key u s) as (s' & E & J' & F & C & H); [eapply jinv_weaken; [apply S|set_solver]|].
  exists s'. split_and!; [done|by apply frame_steady|done].
Qed.
Lemma unregister_steady key s : sinv s -> exists s', unregister key s = Some s' /\ steady [key] s s'.
Proof.
  intros S. destruct (unregister_spec [] key s) as (s' & E & J' & F & C & H); [eapply jinv_weaken; [apply S|set_solver]|].
  exists s'. split; [done|by apply frame_steady].
Qed.
Lemma register_steady key p s : sinv s -> exists r, register key p s = Some r /\ forall s', r = inl s' -> steady [key] s s'.
Proof.
  intros S. unfold register. case_decide; [by eexists|]. destruct (collector key (vw s)) as [[st t]|] eqn:Hc; [|by eexists].
  case_decide as Hj; [by eexists|]. apply eq_None_not_Some in Hj. set (s1 := set_job key _ s). destruct S as [W J].
  assert (J1 : jinv [] s1).
  { apply (jbut_settle [] key).
    - apply jbut_set_job. destruct J as [J1 J2 J3 J4 J5]. split; try done; [|naive_solver..]. intros u (j & Hj' & _)%J2. congruence.
    - cbn. intros j. rewrite lookup_insert_eq. intros [= <-]. split_and!; [done|done|]. intros _. rewrite Hc. by eexists. }
  assert (S1 : sinv s1) by (split; [by eapply frame_winv; [|exact W]|done]).
  destruct (request_steady key urgencyReconcile s1 S1) as (s' & E & St & _). rewrite E. cbn [mbind option_bind]. eexists. split; [done|].
  intros s2 [= <-]. exact St.
Qed.

(** ** The view *)

Lemma vw_winv W s v' : wbut W s ->
  (forall k st' t', collector k v' = Some (st', t') -> running st' = true ->
     exists st t, collector k (vw s) = Some (st, t) /\ running st = true /\ c_job st' = c_job st) -> wbut W (set_vw v' s).
Proof.
  intros [W1 W2 W3 W4 W5 W6 W7] H. split; try done. cbn. intros k st' t' Hk Hr. destruct (H k st' t' Hk Hr) as (st & t & Hk' & Hr' & ->).
  by apply (W3 k st t).
Qed.
Lemma vw_jinv X s v' : jinv [] s -> (forall k, is_Some (collector k (vw s)) -> k ∉ X -> is_Some (collector k v')) -> jinv X (set_vw v' s).
Proof.
  intros [J1 J2 J3 J4 J5] H. split; try done. cbn. intros k j Hj Hk. apply H; [|done]. apply (J3 k j Hj). by apply not_elem_of_nil.
Qed.
Lemma device_collectors_all kind : kind <> CollectorUnknown -> kind <> CollectorNetstat -> kind ∈ device_collectors.
Proof.
  intros H1 H2. unfold device_collectors. apply list_elem_of_filter. split; [destruct kind; cbn; done || lia|].
  unfold all_collectors. destruct kind; repeat (apply list_elem_of_here || apply list_elem_of_further).
Qed.
Lemma device_jobs_nodup ns d : NoDup (device_jobs ns d).
Proof.
  apply NoDup_fmap_2; [by intros ? ? [=]|]. apply NoDup_filter. apply (bool_decide_unpack (NoDup all_collectors)). vm_compute. exact I.
Qed.
Lemma set_entry_collector d new k v st t : collector k (set_entry d new v) = Some (st, t) -> running st = true ->
  exists st' t', collector k v = Some (st', t') /\ running st' = true /\ c_job st = c_job st'.
Proof.
  unfold collector. cbn [v_namespace v_host v_epoch v_devices set_entry]. case_decide; [done|]. case_decide; [case_decide; [done|]|].
  - intros [= -> <-]. intros. by eexists _, _.
  - destruct new as [[t' kept]|]; [destruct (decide (jk_Device k = d)) as [->|Hne]|].
    + rewrite lookup_insert_eq. cbn. destruct (v_devices v !! d) as [[t0 c]|]; [|by intros [= <- _]]. cbn. destruct kept; [|by intros [= <- _]].
      intros [= <- _] Hr. by eexists _, _.
    + rewrite lookup_insert_ne by done. destruct (v_devices v !! jk_Device k) as [[t0 c]|]; [|done]. cbn. intros [= <- _] Hr. by eexists _, _.
    + destruct (delete d (v_devices v) !! jk_Device k) as [[t0 c]|] eqn:E; [|done]. apply lookup_delete_Some in E as [_ ->].
      cbn. intros [= <- _] Hr. by eexists _, _.
Qed.
Lemma set_entry_keeps d new k v : is_Some (collector k v) -> k ∉ device_jobs (v_namespace v) d -> is_Some (collector k (set_entry d new v)).
Proof.
  unfold collector. cbn [v_namespace v_host v_epoch v_devices set_entry]. case_decide as H1; [by intros [? ?]|].
  case_decide as H2; [by intros ? _|]. intros Hs Hk. assert (Hne : jk_Device k <> d).
  { intros E. destruct (decide (jk_Namespace k = v_namespace v)) as [En|]; [|tauto].
    apply Hk. unfold device_jobs. replace k with (mkJobKey (v_namespace v) d (jk_Collector k)) by (rewrite <- En, <- E; by destruct k).
    apply list_elem_of_fmap_2, device_collectors_all; tauto. }
  destruct new as [[t' kept]|]; [by rewrite lookup_insert_ne|by rewrite lookup_delete_ne].
Qed.
Lemma change_steady d new s : sinv s ->
  exists s', refreshDevice d (set_vw (set_entry d new (vw s)) s) = Some s' /\ steady (device_jobs (v_namespace (vw s)) d) s s'.
Proof.
  intros [W J]. unfold refreshDevice. cbn [vw set_vw set_entry v_namespace].
  set (s1 := set_vw _ s). destruct (request_all_spec (device_jobs (v_namespace (vw s)) d) s1 (device_jobs_nodup _ _)) as (s' & E & J' & F & C).
  { apply vw_jinv; [done|]. intros k. apply set_entry_keeps. }
  exists s'. split; [done|]. pose proof F as (E1 & _ & E3 & _). split; [|split_and!; [exact C|done|by rewrite E1..]].
  split; [|done]. eapply frame_winv; [exact F|]. apply vw_winv; [done|]. intros k st' t' Hk Hr. by eapply set_entry_collector.
Qed.
Lemma lose_steady s : sinv s ->
  steady [] s (set_vw (mkView (v_namespace (vw s)) (v_epoch (vw s) + 1) (v_attempt (vw s)) (v_devices (vw s)) (v_host (vw s))) s).
Proof.
  intros [W J]. split; [split|split_and!; try done; by apply calm_refl].
  - apply vw_winv; [done|]. intros k st' t'. unfold collector. cbn. repeat case_decide; try done.
    + intros [= <- _] Hr. by eexists _, _.
    + destruct (v_devices (vw s) !! jk_Device k) as [[t0 c]|]; [|done]. cbn. intros [= <- _] Hr. by eexists _, _.
  - apply vw_jinv; [done|]. intros k. unfold collector. cbn. repeat case_decide; try done.
    destruct (v_devices (vw s) !! jk_Device k) as [[t0 c]|]; [|done]. intros _ _. by eexists.
Qed.
Lemma schema_steady key n s : sinv s ->
  steady [] s (match collector key (vw s) with
               | None => s
               | Some (st, _) => set_vw (set_collector key (mkCollector (running st) (c_job st) n) (vw s)) s
               end).
Proof.
  intros [W J]. destruct (collector key (vw s)) as [[st t]|] eqn:Hc; [|by split; [|split_and!; try done; by apply calm_refl]].
  split; [split|].
  - apply vw_winv; [done|]. intros k st' t'. rewrite (collector_set key _ st t k _ Hc). case_decide as E.
    + intros [= <- <-] Hr. subst. by exists st, t.
    + intros Hk Hr. by exists st', t'.
  - apply vw_jinv; [done|]. intros k Hk _. by apply (same_collectors_set key _ st t _ Hc).
  - split_and!; [by apply calm_refl|done|unfold set_collector; cbn; by case_decide..].
Qed.

(** ** Results *)

Lemma record_cases r s : exists v', (finishCollection r (vw s)).2 = v' /\
  (recordResult r s = set_vw v' s \/
   exists j j', jobs s !! j_Key (r_Job r) = Some j /\ s_pending j' = s_pending j /\ urgency j' = urgency j /\ ready j' = ready j /\
     recordResult r s = set_job (j_Key (r_Job r)) j' (set_vw v' s)).
Proof.
  unfold recordResult. destruct (finishCollection r (vw s)) as [[acc mal] v']. exists v'. split; [done|].
  destruct acc; cbn [negb]; [|by left]. cbn [jobs set_vw]. destruct (jobs s !! j_Key (r_Job r)) as [j|]; [|by left].
  destruct mal; [right; by exists j, (cancelRetry j)|]. destruct (negb _ || negb _); [by left|].
  destruct (negb _ || _); [right; by exists j, (cancelRetry j)|]. case_decide; right; [by exists j, (with_retries 0 false j)|by exists j, (with_retries (retries j + 1) (retryActive j) j)].
Qed.
(** The attempt of [a] has its result: afterwards no collector waits for it. *)
Lemma record_spec X W r s : wbut W s -> jinv X s -> let s' := recordResult r s in
  wbut W s' /\ jinv X s' /\ active s' = active s /\ urgent s' = urgent s /\ queue s' = queue s /\
  inbox s' = inbox s /\ hand s' = hand s /\ results s' = results s /\
  v_attempt (vw s') = v_attempt (vw s) /\ v_namespace (vw s') = v_namespace (vw s) /\
  forall k st t, collector k (vw s') = Some (st, t) -> running st = true -> ~ (k = j_Key (r_Job r) /\ c_job st = r_Job r).
Proof.
  intros Hw J s'. destruct (record_cases r s) as (v' & Ev & Hc). destruct (finishCollection r (vw s)) as [acc v1] eqn:Ef. cbn in Ev. subst v1.
  destruct (finish_view r (vw s) acc v' Ef) as (Hsame & Hat & Hns & Hrun).
  assert (W1 : wbut W (set_vw v' s)).
  { apply vw_winv; [done|]. intros k st' t' Hk Hr. destruct (Hrun k st' t' Hk Hr) as (st & ? & ? & ? & _). by exists st, t'. }
  assert (J1 : jinv X (set_vw v' s)).
  { destruct J as [J1 J2 J3 J4 J5]. split; try done. cbn. intros k j Hj Hk. apply Hsame. by apply (J3 k j). }
  assert (R1 : forall k st t, collector k v' = Some (st, t) -> running st = true -> ~ (k = j_Key (r_Job r) /\ c_job st = r_Job r)).
  { intros k st t Hk Hr. destruct (Hrun k st t Hk Hr) as (st0 & _ & _ & -> & Hn). exact Hn. }
  unfold s'. destruct Hc as [->|(j & j' & Hj & P1 & P2 & P3 & ->)]; [by split_and!|].
  split_and!; try done.
  - by apply (frame_winv W (set_vw v' s)).
  - by eapply set_job_same.
Qed.

Lemma record_set_active r l s : recordResult r (set_active l s) = set_active l (recordResult r s).
Proof.
  unfold recordResult. cbn [vw set_active]. destruct (finishCollection r (vw s)) as [[acc mal] v']. destruct acc; cbn [negb]; [|done].
  cbn [jobs set_vw set_active]. destruct (jobs s !! _) as [j|]; [|done]. destruct mal; [done|]. destruct (negb _ || negb _); [done|].
  destruct (negb _ || _); [done|]. by case_decide.
Qed.
Definition unawaited (s : scheduler) (job : Job) : Prop :=
  forall k st t, collector k (vw s) = Some (st, t) -> running st = true -> ~ (k = j_Key job /\ c_job st = job).
Lemma set_active_wbut W s w a o : wbut W s -> is_active s w a -> unawaited s (a_job a) ->
  (forall a', o = Some a' -> a_job a' = a_job a) ->
  wbut (if decide (o = None) then w :: W else W) (set_active (<[w := o]> (active s)) s).
Proof.
  intros [W1 W2 W3 W4 W5 W6 W7] Ha Hu Ho. pose proof (lookup_lt_Some _ _ _ Ha) as Hlt.
  assert (Hact : forall w' a', is_active (set_active (<[w := o]> (active s)) s) w' a' -> exists a0, is_active s w' a0 /\ a_job a0 = a_job a').
  { intros w' a'. unfold is_active. cbn. intros [(<- & -> & _)|[_ H]]%list_lookup_insert_Some; [|by exists a'].
    exists a. split; [done|]. symmetry. by apply Ho. }
  split; cbn [active inbox hand results vw urgent set_active]; try done.
  - by rewrite length_insert.
  - intros w1 w2 a1 a2 (b1 & H1 & E1)%Hact (b2 & H2 & E2)%Hact E. apply (W2 w1 w2 b1 b2 H1 H2). by rewrite E1, E2.
  - intros k st t Hk Hr. destruct (W3 k st t Hk Hr) as (w' & a' & Ha' & Ej & Et & Ek). exists w', a'. split; [|done].
    unfold is_active. cbn. rewrite list_lookup_insert_ne; [done|]. intros <-. unfold is_active in *. rewrite Ha in Ha'. injection Ha' as <-.
    by apply (Hu k st t Hk Hr).
  - intros w' Hw' Hin. unfold held, owed. cbn. destruct (decide (w' = w)) as [->|Hne].
    + case_decide as Eo; [by destruct Hin; apply list_elem_of_here|]. destruct o as [a'|]; [|done]. rewrite list_lookup_insert_eq by done. cbn.
      rewrite (Ho a' eq_refl). fold (held s w). rewrite W4 by done. unfold owed. unfold is_active in Ha. by rewrite Ha.
    + rewrite list_lookup_insert_ne by done. apply W4; [done|]. case_decide; [|done]. by intros ?; apply Hin, list_elem_of_further.
  - intros w' a' Ht (a0 & H0 & _)%Hact. by apply (W7 w' a0).
Qed.
Lemma wbut_held W w s : wbut (w :: W) s -> held s w = owed s w -> wbut W s.
Proof.
  intros [W1 W2 W3 W4 W5 W6 W7] H. split; try done. intros w' Hw' Hin. destruct (decide (w' = w)) as [->|Hne]; [done|].
  apply W4; [done|]. by apply not_elem_of_cons.
Qed.
Lemma served_active s s' key : (forall w a, is_active s w a -> exists a', is_active s' w a' /\ a_job a' = a_job a) -> served s key -> served s' key.
Proof. intros H (w & a & Ha & Hk). destruct (H w a Ha) as (a' & Ha' & E). exists w, a'. by rewrite E. Qed.
Lemma jinv_served X s l : jinv X s -> (forall key, served (set_active l s) key <-> served s key) -> jinv X (set_active l s).
Proof.
  intros [J1 J2 J3 J4 J5] H. split; try done; intros k j Hj; cbn in Hj; rewrite H; [by apply (J4 k j)|by apply (J5 k j)].
Qed.
(** An attempt that runs past its deadline is recorded as failed; its worker
    stays. *)
Lemma timeout_spec X W w a now s : wbut W s -> jinv X s -> is_active s w a -> let s' := timeout w a now s in
  wbut W s' /\ jinv X s' /\ queue s' = queue s /\ urgent s' = urgent s /\ inbox s' = inbox s /\ hand s' = hand s /\ results s' = results s /\
  v_attempt (vw s') = v_attempt (vw s) /\ v_namespace (vw s') = v_namespace (vw s) /\
  (exists a', is_active s' w a' /\ a_job a' = a_job a) /\ unawaited s' (a_job a).
Proof.
  intros Hw J Ha s'. unfold s', timeout. destruct (timedOut a) eqn:Et.
  - split_and!; try done; [by exists a|]. intros k st t Hk Hr [-> Ej].
    destruct (wi_running _ _ Hw _ _ _ Hk Hr) as (w' & a' & Ha' & Ej' & Et' & Ek'). rewrite Ej in Ej'.
    pose proof (wi_one _ _ Hw w' w a' a Ha' Ha) as Eq. rewrite Ej' in Eq. specialize (Eq eq_refl). subst w'.
    unfold is_active in *. rewrite Ha in Ha'. injection Ha' as ->. congruence.
  - rewrite record_set_active. set (r := mkResult (a_job a) now true false 0).
    destruct (record_spec X W r s Hw J) as (W1 & J1 & E1 & E2 & E3 & E4 & E5 & E6 & E7 & E8 & Hu).
    rewrite <- E1. assert (Ha1 : is_active (recordResult r s) w a) by (unfold is_active; by rewrite E1).
    set (s1 := recordResult r s) in *. set (a' := mkRunning (a_job a) (a_deadline a) true).
    assert (Hup : forall key, served (set_active (<[w := Some a']> (active s1)) s1) key <-> served s1 key).
    { pose proof (lookup_lt_Some _ _ _ Ha1) as Hlt. intros key. unfold served, is_active in *. cbn. split.
      - intros (w' & b & [(<- & [= <-] & _)|[_ Hb]]%list_lookup_insert_Some & Hk); [by exists w, a|by exists w', b].
      - intros (w' & b & Hb & Hk). destruct (decide (w' = w)) as [->|Hne].
        + exists w, a'. split; [by rewrite list_lookup_insert_eq|]. rewrite Ha1 in Hb. injection Hb as <-. exact Hk.
        + exists w', b. by rewrite list_lookup_insert_ne. }
    split_and!; try done.
    + apply (set_active_wbut W s1 w a (Some a') W1 Ha1 Hu). by intros ? [= <-].
    + by apply jinv_served.
    + exists a'. split; [|done]. unfold is_active. cbn. by rewrite list_lookup_insert_eq by (by eapply lookup_lt_Some).
Qed.
Lemma overdue_steady w a now s : sinv s -> is_active s w a -> steady [] s (timeout w a now s).
Proof.
  intros [W J] Ha. destruct (timeout_spec [] [] w a now s W J Ha) as (W' & J' & Q & U & _ & _ & _ & A & N & _).
  split; [by split|]. split_and!; [by apply calm_refl|done|done|done].
Qed.

(** The worker of an attempt that is settled is free again. *)
Definition finish_tail (w : nat) (key : JobKey) (s : scheduler) : scheduler :=
  let s := set_active (<[w := None]> (active s)) s in
  match jobs s !! key with
  | Some j => if s_pending j && negb (ready j) then enqueue key j s else s
  | None => s
  end.
Lemma finish_tail_steady w a s : wbut [w] s -> jinv [] s -> is_active s w a -> unawaited s (a_job a) -> held s w = [] ->
  (w < collectorWorkers)%nat -> steady [j_Key (a_job a)] s (finish_tail w (j_Key (a_job a)) s).
Proof.
  intros W J Ha Hu Hh Hw. set (key := j_Key (a_job a)). unfold finish_tail. set (s1 := set_active _ s). cbv zeta.
  assert (W1 : winv s1).
  { assert (He : held s1 w = owed s1 w).
    { unfold s1, held, owed in *. cbn. rewrite Hh, list_lookup_insert_eq by (by eapply lookup_lt_Some). done. }
    apply (wbut_held [] w); [|done]. apply (wbut_held [w] w); [|done].
    apply (set_active_wbut [w] s w a None W Ha Hu). by intros ? [=]. }
  assert (Hns : ~ served s1 key).
  { intros (w' & a' & Ha' & Hk). unfold is_active, s1 in Ha'. cbn in Ha'. apply list_lookup_insert_Some in Ha' as [(_ & [=] & _)|[Hne Ha']].
    apply Hne. symmetry. exact (wi_one _ _ W w' w a' a Ha' Ha Hk). }
  assert (Hsv : forall k, k <> key -> served s1 k <-> served s k).
  { intros k Hk. unfold served, is_active, s1. cbn. split.
    - intros (w' & a' & [(_ & [=] & _)|[_ Ha']]%list_lookup_insert_Some & E). by exists w', a'.
    - intros (w' & a' & Ha' & E). exists w', a'. split; [|done]. rewrite list_lookup_insert_ne; [done|]. intros <-.
      unfold is_active in Ha. rewrite Ha in Ha'. injection Ha' as <-. by apply Hk. }
  assert (Hready : forall j, jobs s !! key = Some j -> ready j = false).
  { intros j Hj. destruct (ready j) eqn:Er; [|done]. destruct (ji_waits _ _ J key j Hj Er) as [_ []]. by exists w, a. }
  assert (Jb : jbut [] key s1).
  { destruct J as [J1 J2 J3 J4 J5]. split; try done.
    - intros u (j & Hj & Hr & _)%J2. rewrite (Hready j Hj) in Hr. done.
    - intros u k Hne. exact (J2 u k).
    - intros k j Hne Hj. exact (J3 k j Hj).
    - intros k j Hne Hj. rewrite (Hsv k Hne). by apply (J4 k j).
    - intros k j Hne Hj. rewrite (Hsv k Hne). by apply (J5 k j). }
  change (jobs s1) with (jobs s). destruct (jobs s !! key) as [j|] eqn:Hj.
  - pose proof (Hready j eq_refl) as Hr. rewrite Hr. destruct (s_pending j) eqn:Hp; cbn [negb andb].
    + destruct (enqueue_ready [] key j s1 Jb) as (J2 & F2 & C2 & _); [|done|done|].
      { intros _. apply (ji_job _ _ J key j Hj). by apply not_elem_of_nil. }
      split; [split; [by eapply frame_winv|done]|]. by split_and!.
    + split; [split; [done|]|split_and!; try done; by apply calm_refl]. apply (jbut_settle [] key s1 Jb). intros j' Hj'.
      change (jobs s1) with (jobs s) in Hj'. rewrite Hj in Hj'. injection Hj' as <-. split_and!; [done|by rewrite Hp|].
      intros Hx. exact (ji_job _ _ J key j Hj Hx).
  - split; [split; [done|]|split_and!; try done; by apply calm_refl]. apply (jbut_settle [] key s1 Jb). intros j' Hj'.
    change (jobs s1) with (jobs s) in Hj'. congruence.
Qed.
Lemma steady_from keys s s0 s' : steady keys s s' -> queue s = queue s0 -> urgent s = urgent s0 -> v_attempt (vw s) = v_attempt (vw s0) ->
  v_namespace (vw s) = v_namespace (vw s0) -> steady keys s0 s'.
Proof. intros (S & C & U & A & N) E1 E2 E3 E4. unfold steady, calm in *. rewrite E1 in C. split_and!; (done || congruence). Qed.
Lemma complete_steady w r l s : sinv s -> results s = (w, r) :: l ->
  exists s', complete w r (set_pool (inbox s) (hand s) l s) = Some s' /\ steady [j_Key (r_Job r)] s s'.
Proof.
  intros [W J] Hl. set (s0 := set_pool _ _ l s). pose proof (wi_results _ _ W) as Hres. rewrite Hl in Hres. apply Forall_cons in Hres as [Hw Hres].
  cbn in Hw. pose proof (wi_held _ _ W w Hw ltac:(by apply not_elem_of_nil)) as Hh. unfold held, owed in Hh. rewrite Hl in Hh.
  rewrite filter_cons_True in Hh by done. cbn [fmap list_fmap snd] in Hh.
  destruct (active s !! w) as [[a|]|] eqn:Ea; cbn in Hh; [|by destruct (opt_list (inbox s !! w)), (opt_list (hand s !! w))..].
  destruct (opt_list (inbox s !! w)) as [|? ?] eqn:Ei; [destruct (opt_list (hand s !! w)) as [|? ?] eqn:Eh|]; cbn in Hh;
    [|exfalso; apply (f_equal length) in Hh; cbn in Hh; rewrite ?length_app in Hh; cbn in Hh; lia..].
  injection Hh as Hj Hnil. assert (H0 : held s0 w = []) by (unfold held, s0; cbn; rewrite Ei, Eh; done).
  assert (W0 : wbut [w] s0).
  { destruct W as [W1 W2 W3 W4 W5 W6 W7]. split; try done. intros w' Hw' Hin. rewrite list_elem_of_singleton in Hin. unfold held, s0. cbn.
    change (owed _ w') with (owed s w'). rewrite <- (W4 w' Hw') by apply not_elem_of_nil. unfold held.
    rewrite Hl, filter_cons_False; [done|]. cbn. congruence. }
  assert (J0 : jinv [] s0) by (by destruct J as [J1 J2 J3 J4 J5]; split).
  assert (Ha0 : is_active s0 w a) by exact Ea.
  unfold complete. change (active s0) with (active s). rewrite Ea. rewrite decide_False by (intros E; by apply E).
  set (overdue := bool_decide _). set (s1 := if overdue then _ else s0). set (s2 := if negb _ then _ else s1).
  assert (A : wbut [w] s2 /\ jinv [] s2 /\ queue s2 = queue s0 /\ urgent s2 = urgent s0 /\ v_attempt (vw s2) = v_attempt (vw s0) /\
    v_namespace (vw s2) = v_namespace (vw s0) /\ held s2 w = [] /\ unawaited s2 (a_job a) /\ exists a', is_active s2 w a' /\ a_job a' = a_job a).
  { destruct (timeout_spec [] [w] w a (r_Finished r) s0 W0 J0 Ha0) as (T1 & T2 & T3 & T4 & T5 & T6 & T7 & T8 & T9 & T10 & T11).
    unfold s2, s1. destruct overdue; [rewrite orb_true_r; cbn [negb]|rewrite orb_false_r; destruct (timedOut a) eqn:Et; cbn [negb]].
    - split_and!; try done. unfold held. by rewrite T5, T6, T7.
    - unfold timeout in T11. rewrite Et in T11. split_and!; try done. by exists a.
    - destruct (record_spec [] [w] r s0 W0 J0) as (R1 & R2 & R3 & R4 & R5 & R6 & R7 & R8 & R9 & R10 & R11). rewrite Hj in R11.
      split_and!; try done; [unfold held; by rewrite R6, R7, R8|]. exists a. unfold is_active. by rewrite R3. }
  clearbody s2. destruct A as (W2 & J2 & Q2 & U2 & A2 & N2 & H2 & Hu2 & a' & Ha' & Ej').
  eexists. split; [reflexivity|]. rewrite Hj. fold (finish_tail w (j_Key (a_job a)) s2). rewrite <- Ej' in *.
  eapply steady_from; [by apply finish_tail_steady|done..].
Qed.
Lemma settings_steady key s : sinv s -> exists s', settingsTransition key s = Some s' /\ steady [key] s s'.
Proof.
  intros S. assert (Hid : steady [key] s s) by (split; [done|]; split_and!; try done; by apply calm_refl).
  unfold settingsTransition. destruct (jobs s !! key) as [j|]; [|by eexists]. destruct (retrySettings (policy j)); [|by eexists].
  destruct (request_steady key urgencyEvent s S) as (s' & E & St & _). rewrite E. cbn [mbind option_bind]. eexists. split; [done|].
  destruct (jobs s' !! key) as [j'|] eqn:Hj; [|done]. destruct St as ((W & J) & C & U & A & N). split; [split|split_and!; done].
  - by eapply frame_winv; [|exact W].
  - by eapply set_job_same.
Qed.
Lemma retry_steady key t s : sinv s -> exists s', retryDue key t s = Some s' /\ steady [key] s s'.
Proof.
  intros S. assert (Hid : steady [key] s s) by (split; [done|]; split_and!; try done; by apply calm_refl).
  unfold retryDue. destruct (jobs s !! key) as [j|]; [|by eexists]. destruct (negb _ || _); [by eexists|].
  destruct (request_steady key urgencyEvent s S) as (s' & E & St & _). by exists s'.
Qed.

(** ** Dispatch *)

(** How many attempts may start before a job that waits, when there are at most
    [M] devices in its queue: events have at least every second turn, and
    periodic polls at least every ninth. *)
Definition bypass (u : jobUrgency) (M : nat) (k : JobKey) (s : scheduler) : Z :=
  let r := Z.of_nat (rank M k (queue s u)) in
  match u with
  | urgencyEvent => 2 * r + (if decide (8 <= urgent s) then 1 else 0)
  | _ => 9 * r + 8 - urgent s
  end.
Definition unqueue (k : JobKey) (j : scheduledJob) (u : jobUrgency) (q : readyQueue) (s : scheduler) : scheduler :=
  set_job k (with_place (s_pending j) (urgency j) false j) (set_queue u q s).
Lemma pop_from_spec u s : sinv s ->
  (pop_from u s = Some (None, s) /\ forall k, ~ queued k (queue s u)) \/
  exists k j q, pop_from u s = Some (Some k, unqueue k j u q s) /\ jobs s !! k = Some j /\ ready j = true /\ urgency j = u /\
    qwf q /\ (forall k', queued k' q <-> k' <> k /\ queued k' (queue s u)) /\ (length (devices q) <= length (devices (queue s u)))%nat /\
    forall M k', (length (devices (queue s u)) <= M)%nat -> queued k' (queue s u) -> k' <> k -> (rank M k' q < rank M k' (queue s u))%nat.
Proof.
  intros [W J]. unfold pop_from. destruct (pop_spec _ (ji_queue _ _ J u)) as [[E Hn]|(k & q & E & Hk & Hwf & Hq & Hlen & Hr)]; rewrite E; cbn [mbind option_bind].
  - by left.
  - right. apply (ji_ready _ _ J) in Hk as (j & Hj & Hrd & Hu). change (jobs (set_queue u q s)) with (jobs s). rewrite Hj. cbn [mbind option_bind].
    exists k, j, q. by split_and!.
Qed.
(** A job is taken: it is in no queue, and was served by no worker. *)
Record taken (k : JobKey) (s s' : scheduler) : Prop := {
  tk_but : jbut [] k s';
  tk_winv : winv s';
  tk_same : vw s' = vw s /\ active s' = active s /\ inbox s' = inbox s /\ hand s' = hand s /\ results s' = results s;
  tk_traffic : traffic_at s' = traffic_at s;
  tk_job : exists j, jobs s' !! k = Some j /\ ready j = false;
  tk_kept : forall k' j, jobs s !! k' = Some j -> exists j', jobs s' !! k' = Some j' /\ s_pending j' = s_pending j /\ urgency j' = urgency j;
  tk_idle : ~ served s k;
  tk_collector : is_Some (collector k (vw s));
  tk_queued : forall u k', queued k' (queue s' u) <-> k' <> k /\ queued k' (queue s u);
  tk_devices : forall u, (length (devices (queue s' u)) <= length (devices (queue s u)))%nat;
  tk_bypass : forall u M k', u <> urgencyReconcile -> (length (devices (queue s u)) <= M)%nat -> queued k' (queue s u) -> k' <> k ->
    bypass u M k' s' + 1 <= bypass u M k' s }.
Lemma unqueue_taken k j u q s n : sinv s -> jobs s !! k = Some j -> ready j = true -> urgency j = u ->
  qwf q -> (forall k', queued k' q <-> k' <> k /\ queued k' (queue s u)) -> (length (devices q) <= length (devices (queue s u)))%nat ->
  0 <= n <= 8 ->
  (forall u' M k', u' <> urgencyReconcile -> (length (devices (queue s u')) <= M)%nat -> queued k' (queue s u') -> k' <> k ->
     bypass u' M k' (set_urgent n (unqueue k j u q s)) + 1 <= bypass u' M k' s) ->
  taken k s (set_urgent n (unqueue k j u q s)).
Proof.
  intros [[W1 W2 W3 W4 W5 W6 W7] [J1 J2 J3 J4 J5]] Hj Hr Hu Hwf Hq Hlen Hn Hb.
  assert (Hqs : forall u' k', queued k' (queue (set_urgent n (unqueue k j u q s)) u') <-> k' <> k /\ queued k' (queue s u')).
  { intros u' k'. cbn. case_decide as Eu; [by subst|]. split; [|tauto]. intros Hk'. split; [|done]. intros ->.
    apply J2 in Hk' as (j' & Hj' & _ & Hu'). rewrite Hj in Hj'. injection Hj' as <-. congruence. }
  split.
  - split; try done.
    + intros u'. cbn. case_decide; [by subst|done].
    + intros u'. rewrite Hqs. tauto.
    + intros u' k' Hne. rewrite Hqs, J2. cbn. rewrite lookup_insert_ne by done. tauto.
    + intros k' j' Hne. cbn. rewrite lookup_insert_ne by done. by apply J3.
    + intros k' j' Hne. cbn. rewrite lookup_insert_ne by done. by apply J4.
    + intros k' j' Hne. cbn. rewrite lookup_insert_ne by done. by apply J5.
  - by split.
  - done.
  - done.
  - eexists. split; [cbn; apply lookup_insert_eq|done].
  - intros k' j' Hj'. cbn. destruct (decide (k' = k)) as [->|Hne].
    + rewrite lookup_insert_eq. rewrite Hj in Hj'. injection Hj' as <-. by eexists.
    + rewrite lookup_insert_ne by done. by exists j'.
  - by apply (J4 k j).
  - apply (J3 k j Hj). by apply not_elem_of_nil.
  - done.
  - intros u'. cbn. case_decide; [by subst|done].
  - done.
Qed.
Lemma next_spec s : sinv s ->
  (next s = Some (None, s) /\ forall u k, ~ queued k (queue s u)) \/ exists k s', next s = Some (Some k, s') /\ taken k s s'.
Proof.
  intros S. pose proof (wi_urgent _ _ (proj1 S)) as Hu. unfold next.
  destruct (pop_from_spec urgencyEvent s S) as [[Ee He]|(ke & je & qe & Ee & E1 & E2 & E3 & E4 & E5 & E6 & E7)];
  destruct (pop_from_spec urgencyReconcile s S) as [[Er Hr]|(kr & jr & qr & Er & R1 & R2 & R3 & R4 & R5 & R6 & R7)];
  destruct (pop_from_spec urgencyPeriodic s S) as [[Ep Hp]|(kp & jp & qp & Ep & P1 & P2 & P3 & P4 & P5 & P6 & P7)];
  rewrite ?Ee, ?Er, ?Ep; (destruct (decide (8 <= urgent s)) as [H8|H8]; cbn [mbind option_bind];
    repeat (first [rewrite decide_True by (by eexists)|rewrite decide_False by (by intros [? ?])]; cbn [mbind option_bind]);
    rewrite ?Ee, ?Er, ?Ep; cbn [mbind option_bind];
    repeat (first [rewrite decide_True by (by eexists)|rewrite decide_False by (by intros [? ?])]; rewrite ?Ee, ?Er, ?Ep; cbn [mbind option_bind]);
    first [left; split; [reflexivity|by intros []]|right; eexists _, _; split; [reflexivity|]]).
  all: cbn [urgent unqueue set_job set_jobs set_queue]; apply unqueue_taken; try assumption; try lia.
  all: intros u' M k' Hne HM Hk' Hkne; unfold bypass; cbn [queue set_urgent unqueue set_job set_jobs set_queue urgent].
  all: destruct u'; [|done|]; first [by destruct (He k')|by destruct (Hp k')|idtac].
  all: try rewrite (decide_True (P := urgencyEvent = urgencyEvent)) by done.
  all: try rewrite (decide_True (P := urgencyPeriodic = urgencyPeriodic)) by done.
  all: repeat (rewrite (decide_False (P := urgencyEvent = _)) by done || rewrite (decide_False (P := urgencyPeriodic = _)) by done).
  all: try (pose proof (E7 M k' HM Hk' Hkne)); try (pose proof (P7 M k' HM Hk' Hkne)).
  all: repeat case_decide; try discriminate; lia.
Qed.

(** An attempt is started for a collector that has none. *)
Lemma start_spec key now v st t : collector key v = Some (st, t) -> running st = false ->
  (startCollection key now v = inr ErrExhausted /\ v_attempt v = MaxUint64) \/
  exists job v', startCollection key now v = inl (job, v') /\ j_Key job = key /\ Attempt (j_Token job) = v_attempt v + 1 /\ same_collectors v v' /\
    v_attempt v' = v_attempt v + 1 /\ v_namespace v' = v_namespace v /\ size (v_devices v') = size (v_devices v) /\
    forall k st' t', collector k v' = Some (st', t') -> running st' = true ->
      (k = key /\ c_job st' = job) \/ (k <> key /\ collector k v = Some (st', t')).
Proof.
  intros Hc Hr. unfold startCollection. rewrite Hc, Hr. case_decide as Hn; [by left|]. right.
  set (job := mkJob _ _ _ _). set (v1 := mkView _ _ _ _ _). set (st1 := mkCollector _ _ _).
  assert (Hc1 : collector key v1 = Some (st, t)) by exact Hc. eexists job, _. split; [done|]. split_and!; [done|done| | | | |].
  - intros k. rewrite (same_collectors_set key st1 st t v1 Hc1 k). done.
  - unfold set_collector. by case_decide.
  - unfold set_collector. by case_decide.
  - unfold set_collector. case_decide; [done|]. cbn [v_devices v1]. by rewrite <- !size_dom, dom_alter_L.
  - intros k st' t' Hk Hrun. rewrite (collector_set key st1 st t k v1 Hc1) in Hk. case_decide as E; [|by right]. left. injection Hk as <- <-. done.
Qed.
Lemma idle_collector W s key st t : wbut W s -> ~ served s key -> collector key (vw s) = Some (st, t) -> running st = false.
Proof.
  intros Hw Hn Hc. destruct (running st) eqn:E; [|done]. destruct (wi_running _ _ Hw _ _ _ Hc E) as (w & a & Ha & _ & _ & Hk). destruct Hn. by exists w, a.
Qed.
Lemma idle_inbox s w : winv s -> active s !! w = Some None -> inbox s !! w = Some None.
Proof.
  intros Hw Ha. destruct (wi_len _ _ Hw) as (L1 & L2 & _). assert (Hlt : (w < collectorWorkers)%nat) by (rewrite <- L1; by eapply lookup_lt_Some).
  pose proof (wi_held _ _ Hw w Hlt ltac:(by apply not_elem_of_nil)) as Hh. unfold held, owed in Hh. rewrite Ha in Hh. cbn in Hh.
  destruct (lookup_lt_is_Some_2 (inbox s) w) as [[x|] Hx]; [by rewrite L2| |done]. rewrite Hx in Hh. done.
Qed.

(** What dispatching leaves: queues only shrink, and, without traffic batches
    ([q]), a job that waits on has that many fewer to wait for. *)
Definition started (k : JobKey) (s s' : scheduler) : Prop :=
  exists w a, is_active s' w a /\ j_Key (a_job a) = k /\ v_attempt (vw s) < Attempt (j_Token (a_job a)).
Record ahead (q : bool) (s s' : scheduler) : Prop := {
  ah_attempts : v_attempt (vw s) <= v_attempt (vw s');
  ah_namespace : v_namespace (vw s') = v_namespace (vw s);
  ah_size : size (v_devices (vw s')) = size (v_devices (vw s));
  ah_queued : forall u k, queued k (queue s' u) -> queued k (queue s u);
  ah_devices : forall u, (length (devices (queue s' u)) <= length (devices (queue s u)))%nat;
  ah_bypass : q = true -> forall u M k, u <> urgencyReconcile -> (length (devices (queue s u)) <= M)%nat -> queued k (queue s' u) ->
    bypass u M k s' + (v_attempt (vw s') - v_attempt (vw s)) <= bypass u M k s;
  ah_active : forall w a, is_active s w a -> is_active s' w a;
  ah_kept : forall k j, jobs s !! k = Some j -> s_pending j = true -> no_less j (jobs s' !! k) \/ started k s s' }.
Lemma ahead_refl q s : ahead q s s.
Proof. split; intros; try done; [lia..|]. left. rewrite H. by apply no_less_here. Qed.
Lemma ahead_trans q s1 s2 s3 : ahead q s1 s2 -> ahead q s2 s3 -> ahead q s1 s3.
Proof.
  intros [A1 A2 AS A3 A4 A5 A6 A7] [B1 B2 BS B3 B4 B5 B6 B7]. split; [lia|congruence|congruence|by intros u k ?%B3%A3| | |by intros w a ?%A6%B6|].
  - intros u. etrans; [apply B4|apply A4].
  - intros Hq u M k Hu HM Hk. pose proof (A5 Hq u M k Hu HM (B3 _ _ Hk)). pose proof (A4 u).
    assert (HM2 : (length (devices (queue s2 u)) <= M)%nat) by lia. specialize (B5 Hq u M k Hu HM2 Hk). lia.
  - intros k j Hj Hp. destruct (A7 k j Hj Hp) as [(j2 & Hj2 & Hp2 & Hu2)|(w & a & Ha & Hk & Hn)].
    + destruct (B7 k j2 Hj2 Hp2) as [(j3 & Hj3 & Hp3 & Hu3)|(w & a & Ha & Hk & Hn)].
      * left. exists j3. split_and!; [done|done|lia].
      * right. exists w, a. split_and!; [done|done|lia].
    + right. exists w, a. split_and!; [by apply B6|done|done].
Qed.
(** What the owner does for a free worker, once a job is chosen. *)
Definition hand_out (w : nat) (k : JobKey) (j : scheduledJob) (job : Job) (at_ : Z) (v : view) (s : scheduler) : scheduler :=
  let s := set_job k (with_place false (urgency j) (ready j) j) s in
  let s := set_active (<[w := Some (mkRunning job at_ false)]> (active s)) (set_vw v s) in
  set_pool (<[w := Some job]> (inbox s)) (hand s) (results s) s.
Lemma hand_out_spec q w k j job at_ v s s1 : sinv s -> taken k s s1 -> active s !! w = Some None -> traffic_at s <> Some w -> jobs s1 !! k = Some j -> ready j = false ->
  j_Key job = k -> Attempt (j_Token job) = v_attempt (vw s) + 1 -> same_collectors (vw s) v -> v_attempt v = v_attempt (vw s) + 1 -> v_namespace v = v_namespace (vw s) ->
  size (v_devices v) = size (v_devices (vw s)) ->
  (forall k' st' t', collector k' v = Some (st', t') -> running st' = true ->
     (k' = k /\ c_job st' = job) \/ (k' <> k /\ collector k' (vw s) = Some (st', t'))) ->
  sinv (hand_out w k j job at_ v s1) /\ ahead q s (hand_out w k j job at_ v s1).
Proof.
  intros [W J] T Ha Hnt Hj Hr Hkey Hatt Hsame Hat Hns Hsz Hrun. pose proof (idle_inbox s w W Ha) as Hbox.
  destruct T as [Jb [W1 W2 W3 W4 W5 W6 W7] (Ev & Ea & Ei & Eh & Ere) Etr _ Hkept Hidle Hcol Hq Hd Hb].
  set (s' := hand_out w k j job at_ v s1). pose proof (lookup_lt_Some _ _ _ Ha) as Hlt.
  assert (Hact : forall w' a, is_active s' w' a <-> (w' = w /\ a = mkRunning job at_ false) \/ (w' <> w /\ is_active s w' a)).
  { intros w' a. unfold is_active, s', hand_out. cbn. rewrite Ea. destruct (decide (w' = w)) as [->|Hne].
    - rewrite list_lookup_insert_eq by done. naive_solver.
    - rewrite list_lookup_insert_ne by done. naive_solver. }
  assert (Hsv : forall k', k' <> k -> served s' k' <-> served s1 k').
  { intros k' Hne. split; intros (w' & a & H & E).
    - apply Hact in H as [[-> ->]|[_ H]]; [cbn in E; congruence|]. exists w', a. unfold is_active. by rewrite Ea.
    - exists w', a. split; [|done]. apply Hact. right. unfold is_active in H. rewrite Ea in H. split; [|done]. intros ->. unfold is_active in *. congruence. }
  split; [split|split].
  - split; cbn [active inbox hand results vw urgent].
    + unfold s', hand_out. cbn. by rewrite !length_insert.
    + intros w1 w2 a1 a2 [[-> ->]|[Hn1 H1]]%Hact [[-> ->]|[Hn2 H2]]%Hact; cbn; [done| | |].
      * rewrite Hkey. intros E. destruct Hidle. by exists w2, a2.
      * rewrite Hkey. intros E. destruct Hidle. by exists w1, a1.
      * by apply (wi_one _ _ W).
    + intros k' st t Hk Hrn. destruct (Hrun k' st t Hk Hrn) as [[-> Ej]|[Hne Hk']].
      * exists w, (mkRunning job at_ false). split; [apply Hact; by left|]. by rewrite Ej.
      * destruct (wi_running _ _ W k' st t Hk' Hrn) as (w' & a & Ha' & E). exists w', a. split; [|done]. apply Hact. right. split; [|done].
        intros ->. unfold is_active in Ha'. congruence.
    + intros w' Hw' _. pose proof (wi_held _ _ W w' Hw' ltac:(by apply not_elem_of_nil)) as Hh. unfold held, owed, s', hand_out in *. cbn.
      rewrite Ea, Ei, Eh, Ere. destruct (decide (w' = w)) as [->|Hne].
      * rewrite !list_lookup_insert_eq by (try done; apply (lookup_lt_Some _ _ _ Hbox)). cbn. rewrite Ha, Hbox in Hh. cbn in Hh. by rewrite Hh.
      * by rewrite !list_lookup_insert_ne by done.
    + done.
    + done.
    + intros w' a' Ht [[-> _]|[_ H]]%Hact; change (traffic_at s') with (traffic_at s1) in Ht; rewrite Etr in Ht; [done|].
      by apply (wi_traffic _ _ W w' a').
  - apply (jbut_settle [] k).
    + destruct Jb as [J1 J2 J3 J4 J5 J6]. split; try done; intros ?; unfold s', hand_out; cbn [jobs set_pool set_active set_vw set_job set_jobs vw queue].
      * intros k' Hne. rewrite lookup_insert_ne by done. by apply J3.
      * intros j' Hne. rewrite lookup_insert_ne by done. intros Hj' Hx. apply Hsame. rewrite <- Ev. by eapply J4.
      * intros j' Hne. rewrite lookup_insert_ne by done. intros Hj' Hx. fold (hand_out w k j job at_ v s1). fold s'. destruct (J5 _ _ Hne Hj' Hx) as [Hp Hs].
        split; [done|]. intros H. by apply Hs, Hsv.
      * intros j' Hne. rewrite lookup_insert_ne by done. intros Hj' Hx. destruct (J6 _ _ Hne Hj' Hx) as [H|H]; [by left|right]. by apply (Hsv k0).
    + unfold s', hand_out. cbn. intros j'. rewrite lookup_insert_eq. intros [= <-]. split_and!; [done|done|]. intros _. by apply Hsame.
  - cbn. lia.
  - done.
  - done.
  - intros u k' H%Hq. tauto.
  - exact Hd.
  - intros _ u M k' Hu HM [Hne Hk']%Hq. cbn [vw set_pool set_active set_vw hand_out s']. change (vw s') with v. rewrite Hat.
    pose proof (Hb u M k' Hu HM Hk' Hne). change (bypass u M k' s') with (bypass u M k' s1). lia.
  - intros w' a Ha'. apply Hact. right. split; [|done]. intros ->. unfold is_active in Ha'. congruence.
  - intros k' j' Hj' Hp. destruct (decide (k' = k)) as [->|Hne].
    + right. exists w, (mkRunning job at_ false). split_and!; [apply Hact; by left|done|cbn; lia].
    + left. destruct (Hkept k' j' Hj') as (j1 & Hj1 & Hp1 & Hu1). exists j1. split_and!; [|congruence|by rewrite Hu1].
      unfold s', hand_out. cbn. by rewrite lookup_insert_ne.
Qed.

(** *** Traffic *)

(** What a traffic batch changes of the scheduler. *)
Definition disturbed (n u : Z) (o : option nat) (s : scheduler) : scheduler :=
  set_traffic o (set_vw (with_attempts n (vw s)) (set_urgent u s)).
Lemma disturbed_sinv n u o s : sinv s -> 0 <= u <= 8 -> (forall w a, o = Some w -> ~ is_active s w a) -> sinv (disturbed n u o s).
Proof. intros [[W1 W2 W3 W4 W5 W6 W7] [J1 J2 J3 J4 J5]] Hu Ho. by split; split. Qed.
Lemma disturbed_ahead n u o s : v_attempt (vw s) <= n -> ahead false s (disturbed n u o s).
Proof. intros Hn. split; try done. intros k j Hj Hp. left. by exists j. Qed.
Definition captured (s : scheduler) : Z := 2 * Z.of_nat (size (v_devices (vw s))).

Lemma traffic_capture_spec w n u s : sinv s -> active s !! w = Some None -> 0 <= u <= 8 -> 0 <= n ->
  match traffic_capture w n (set_urgent u s) with
  | Some (Assigned s') => s' = disturbed (v_attempt (vw s) + n) u (Some w) s
  | Some (Passed s') => s' = disturbed (v_attempt (vw s)) u (traffic_at s) s
  | Some (TrafficErr e) => e = ErrExhausted /\ (Reconciler.maxInventoryDevices < Z.of_nat (size (v_devices (vw s))) \/ MaxUint64 < v_attempt (vw s) + captured s)
  | Some TrafficBlocks | None => False
  end.
Proof.
  intros I Ha Hu Hn. unfold traffic_capture. cbn [vw set_urgent]. case_decide as He; [unfold captured; split; [done|lia]|].
  case_decide; [by destruct s as [[] ? ? ? ? ? ? ? ?]|]. cbn [inbox set_urgent]. rewrite (idle_inbox s w (proj1 I) Ha). cbn [mbind option_bind].
  done.
Qed.
Lemma sweep_bound o v : 0 <= sweep_targets o v <= Z.of_nat (size (v_devices v)).
Proof. unfold sweep_targets. split; [lia|]. apply inj_le, map_subseteq_size, map_filter_subseteq. Qed.
Lemma fetch_bound o d : 0 <= fetch_targets o d <= 1.
Proof. unfold fetch_targets. destruct (_ && _); lia. Qed.
Lemma traffic_dispatch_spec (o : trafficOffer) w s : sinv s -> active s !! w = Some None ->
  match traffic_dispatch o w s with
  | Some (Assigned s') => o <> no_offer /\ traffic_at s = None /\
      exists m u, v_attempt (vw s) <= m <= v_attempt (vw s) + captured s /\ 0 <= u <= 8 /\ s' = disturbed m u (Some w) s
  | Some (Passed s') => s' = s \/ o <> no_offer /\ exists u, 0 <= u <= 8 /\ s' = disturbed (v_attempt (vw s)) u (traffic_at s) s
  | Some (TrafficErr e) => o <> no_offer /\ traffic_at s = None /\ e = ErrExhausted /\
      (Reconciler.maxInventoryDevices < Z.of_nat (size (v_devices (vw s))) \/ MaxUint64 < v_attempt (vw s) + captured s)
  | Some TrafficBlocks | None => False
  end.
Proof.
  intros I Ha. pose proof (wi_urgent _ _ (proj1 I)) as Hu. unfold traffic_dispatch.
  destruct (o_held o) eqn:Eh; cbn [orb]; [by left|]. assert (o <> no_offer) as Hno by (by intros ->).
  case_bool_decide as Ht; cbn [orb]; [by left|]. assert (traffic_at s = None) as Ht' by (destruct (traffic_at s); [destruct Ht; by eexists|done]).
  destruct (negb (o_bulk o) && _) eqn:Eb; [by left|]. destruct (_ && hasUrgent s); [by left|].
  assert (forall n u, 0 <= n <= captured s -> 0 <= u <= 8 -> match traffic_capture w n (set_urgent u s) with
    | Some (Assigned s') => o <> no_offer /\ traffic_at s = None /\
        exists m u, v_attempt (vw s) <= m <= v_attempt (vw s) + captured s /\ 0 <= u <= 8 /\ s' = disturbed m u (Some w) s
    | Some (Passed s') => s' = s \/ o <> no_offer /\ exists u, 0 <= u <= 8 /\ s' = disturbed (v_attempt (vw s)) u (traffic_at s) s
    | Some (TrafficErr e) => o <> no_offer /\ traffic_at s = None /\ e = ErrExhausted /\
        (Reconciler.maxInventoryDevices < Z.of_nat (size (v_devices (vw s))) \/ MaxUint64 < v_attempt (vw s) + captured s)
    | Some TrafficBlocks | None => False
    end) as Hc.
  { intros n u Hn Hu'. pose proof (traffic_capture_spec w n u s I Ha Hu' ltac:(lia)) as H. destruct (traffic_capture _ _ _) as [[]|]; [| | |done..].
    - subst. split_and!; [done|done|]. exists (v_attempt (vw s) + n), u. split_and!; [lia|lia|lia|lia|done].
    - subst. right. split; [done|]. by exists u.
    - destruct H. by split_and!. }
  destruct (o_bulk o) eqn:Ebk; [pose proof (sweep_bound o (vw s)); apply Hc; unfold captured; lia|].
  destruct (o_queue o) as [|[d missing] l]; [done|]. cbn [head].
  destruct (bool_decide (is_Some (v_devices (vw s) !! d))) eqn:Hd; [|by left]. apply bool_decide_eq_true in Hd. apply Hc; [|lia].
  pose proof (fetch_bound o d). assert (size (v_devices (vw s)) <> 0%nat) by (destruct Hd; by eapply map_size_ne_0_lookup_2).
  unfold captured. destruct missing; lia.
Qed.

(** No worker is free while a job waits. *)
Definition busy_at (s : scheduler) (w : nat) : Prop := (exists a, is_active s w a) \/ traffic_at s = Some w.
Definition at_work (s : scheduler) : Prop :=
  (forall w, (w < collectorWorkers)%nat -> busy_at s w) \/ (forall u k, ~ queued k (queue s u)).
(** What [dispatch] may fail for: there are not enough attempt numbers left for
    [n] workers and a traffic batch, unless one is under way, or the traffic
    schedule finds more devices than an inventory may have. *)
Definition runs_out (n : nat) (s : scheduler) : Prop :=
  MaxUint64 < v_attempt (vw s) + (if decide (traffic_at s = None) then captured s else 0) + Z.of_nat n \/
  Reconciler.maxInventoryDevices < Z.of_nat (size (v_devices (vw s))).

Section dispatch.
Context (q : bool) (now : Stamp) (offer : nat -> trafficOffer).

(** How a dispatch from the worker [w] on ends. *)
Definition dispatches (fuel w : nat) (s : scheduler) (o : go dispatch_end) : Prop :=
  (o = Some (DispatchErr ErrExhausted) /\ (q = true -> MaxUint64 < v_attempt (vw s) + Z.of_nat fuel) /\ runs_out fuel s) \/
  exists s', o = Some (Dispatched s') /\ sinv s' /\ ahead q s s' /\ at_work s'.

(** After a traffic batch was assigned, or an offer came to nothing. *)
Lemma dispatches_disturbed fuel fuel' w m u x s o : q = false -> (fuel' <= fuel)%nat ->
  v_attempt (vw s) <= m -> (m = v_attempt (vw s) /\ x = traffic_at s \/ m <= v_attempt (vw s) + captured s /\ traffic_at s = None /\ x = Some w) ->
  dispatches fuel' w (disturbed m u x s) o -> dispatches fuel w s o.
Proof.
  intros Hq Hf Hm Hx [(-> & _ & Hr)|(s' & -> & S' & A & H)]; [left|right].
  - split_and!; [done|congruence|]. destruct Hr as [Hr|Hr]; [left|by right]. cbn [disturbed vw set_traffic set_vw with_attempts v_attempt v_devices traffic_at set_urgent] in Hr.
    unfold captured in *. cbn [disturbed vw set_traffic set_vw with_attempts v_devices set_urgent] in Hr.
    destruct Hx as [[-> ->]|(Hle & Ht & ->)]; repeat case_decide; try congruence; lia.
  - exists s'. split_and!; [done|done| |done]. rewrite Hq in *. eapply ahead_trans; [|exact A]. by apply disturbed_ahead.
Qed.

(** A free worker gets the next job, if there is one. *)
Definition dispatch_job (fuel w : nat) (s : scheduler) : go dispatch_end :=
  '(o, s) ← next s;
  match o with
  | None => Some (Dispatched s)
  | Some key =>
      j ← jobs s !! key;
      let s := set_job key (with_place false (urgency j) (ready j) j) s in
      match startCollection key now (vw s) with
      | inr e => Some (DispatchErr e)
      | inl (job, v) =>
          let at_ := Deadlines.deadlineAfter (Monotonic now) Reconciler.collectionBudget in
          let s := set_active (<[w := Some (mkRunning job at_ false)]> (active s)) (set_vw v s) in
          box ← inbox s !! w;
          match box with
          | Some _ => Some DispatchBlocks
          | None => dispatch_from fuel (S w) now offer (set_pool (<[w := Some job]> (inbox s)) (hand s) (results s) s)
          end
      end
  end.
Definition onwards (fuel w : nat) : Prop := forall s, sinv s -> (forall i, (i < w)%nat -> busy_at s i) ->
  dispatches fuel w s (dispatch_from fuel w now offer s).
Lemma dispatch_job_spec fuel w s : onwards fuel (S w) -> sinv s -> active s !! w = Some None -> traffic_at s <> Some w ->
  (forall i, (i < w)%nat -> busy_at s i) -> dispatches (S fuel) w s (dispatch_job fuel w s).
Proof.
  intros IH I Ha Hnt Hbusy. unfold dispatch_job. destruct (next_spec s I) as [[E Hn]|(k & s1 & E & T)]; rewrite E; cbn [mbind option_bind].
  { right. exists s. split_and!; [done|done|apply ahead_refl|by right]. }
  destruct (tk_job _ _ _ T) as (j & Hj & Hr). rewrite Hj. cbn [mbind option_bind]. destruct (tk_same _ _ _ T) as (Ev & Ea & Ei & _).
  destruct (tk_collector _ _ _ T) as [[st t] Hc]. pose proof (idle_collector [] s k st t (proj1 I) (tk_idle _ _ _ T) Hc) as Hrun.
  change (vw (set_job k _ s1)) with (vw s1). rewrite Ev.
  destruct (start_spec k now (vw s) st t Hc Hrun) as [[-> HM]|(job & v & -> & Hk & Hatt & Hsame & Hat & Hns & Hsz & Hr')].
  { left. split_and!; [done|lia|]. left. unfold captured. case_decide; lia. }
  set (at_ := Deadlines.deadlineAfter _ _). destruct (hand_out_spec q w k j job at_ v s s1) as [S' A]; try done.
  assert (Hbox : inbox s1 !! w = Some None) by (rewrite Ei; apply (idle_inbox s w (proj1 I) Ha)).
  cbn [inbox set_active set_vw set_job set_jobs]. rewrite Hbox. cbn [mbind option_bind].
  pose proof (tk_traffic _ _ _ T) as Ht.
  destruct (IH (hand_out w k j job at_ v s1) S') as [(E' & HM & HR)|(s' & E' & S2 & A2 & Hwk)].
  - intros i Hi. unfold busy_at, is_active, hand_out. cbn. rewrite Ea, Ht. destruct (decide (i = w)) as [->|Hne].
    + left. rewrite list_lookup_insert_eq by (by eapply lookup_lt_Some). by eexists.
    + rewrite list_lookup_insert_ne by done. apply Hbusy. lia.
  - left. change (vw (hand_out w k j job at_ v s1)) with v in *. split_and!; [exact E'|intros Hq; specialize (HM Hq); lia|].
    unfold runs_out, captured in *. change (traffic_at (hand_out w k j job at_ v s1)) with (traffic_at s1) in HR.
    change (vw (hand_out w k j job at_ v s1)) with v in HR. rewrite Ht, Hsz, Hat in HR. destruct HR as [HR|HR]; [left|by right]. case_decide; lia.
  - right. exists s'. split_and!; [exact E'|done|by eapply ahead_trans|done].
Qed.
Lemma dispatch_from_spec fuel : (q = true -> forall w, offer w = no_offer) -> forall w, (w + fuel = collectorWorkers)%nat -> onwards fuel w.
Proof.
  intros Hoffer. induction fuel as [|fuel IH]; intros w Hw s I Hbusy; cbn [dispatch_from].
  { right. exists s. split_and!; [done|done|apply ahead_refl|]. left. intros i Hi. apply Hbusy. lia. }
  specialize (IH (S w) ltac:(lia)). destruct (wi_len _ _ (proj1 I)) as (L & _).
  destruct (lookup_lt_is_Some_2 (active s) w) as [a Ha]; [lia|]. rewrite Ha. cbn [mbind option_bind].
  destruct (bool_decide (is_Some a) || bool_decide (traffic_at s = Some w)) eqn:Eb.
  { destruct (IH s I) as [(E & HM & HR)|(s' & E & S2 & A2 & Hwk)].
    - intros i Hi. destruct (decide (i = w)) as [->|Hne]; [|apply Hbusy; lia]. apply orb_true_iff in Eb as [[x ->]%bool_decide_eq_true|E%bool_decide_eq_true].
      + left. by exists x.
      + by right.
    - left. split_and!; [done|intros Hq; specialize (HM Hq); lia|]. unfold runs_out in *. destruct HR as [HR|HR]; [left; lia|by right].
    - right. by exists s'. }
  apply orb_false_iff in Eb as [Hna%bool_decide_eq_false Hnt%bool_decide_eq_false]. destruct a as [a|]; [destruct Hna; by eexists|].
  pose proof (traffic_dispatch_spec (offer w) w s I Ha) as Ht. fold (dispatch_job fuel w).
  assert (offer w <> no_offer -> q = false) as Hqf by (intros Hne; destruct q; [by destruct Hne; apply Hoffer|done]).
  destruct (traffic_dispatch (offer w) w s) as [[s1|s1|e|]|]; cbn [mbind option_bind]; [| | |done|done].
  - destruct Ht as (Hne & Hn & m & u & Hm & Hu & ->). eapply (dispatches_disturbed _ fuel w m u (Some w)); [by apply Hqf|lia|lia|right; by split_and!; [lia|..]|].
    assert (dispatches fuel (S w) (disturbed m u (Some w) s) (dispatch_from fuel (S w) now offer (disturbed m u (Some w) s))) as H; [|exact H].
    apply IH; [apply disturbed_sinv; [done|done|]; intros w' a [= <-] H; unfold is_active in H; congruence|]. intros i Hi. destruct (decide (i = w)) as [->|Hne']; [by right|].
    destruct (Hbusy i ltac:(lia)) as [H|H]; [by left|congruence].
  - destruct Ht as [->|(Hne & u & Hu & ->)]; [by apply dispatch_job_spec|].
    eapply (dispatches_disturbed _ (S fuel) w (v_attempt (vw s)) u (traffic_at s)); [by apply Hqf|lia|lia|by left|].
    apply dispatch_job_spec; [done|apply disturbed_sinv; [done|done|apply I]|done|done|done].
  - destruct Ht as (Hne & Hn & -> & H). left. split_and!; [done|intros Hq; by rewrite (Hqf Hne) in Hq|]. unfold runs_out. rewrite decide_True by done.
    destruct H as [H|H]; [by right|left; lia].
Qed.
End dispatch.
Definition undisturbed (offer : nat -> trafficOffer) : Prop := forall w, offer w = no_offer.
Lemma dispatch_spec q now offer s : sinv s -> (q = true -> undisturbed offer) -> dispatches q collectorWorkers 0 s (dispatch now offer s).
Proof. intros I Hq. apply dispatch_from_spec; [done|done|done|]. intros i Hi. lia. Qed.

(** ** The workers *)

(** [v_attempt] counts the attempts started; a job that waits on has at least
    that many fewer to wait for. *)
Definition onward (s s' : scheduler) : Prop :=
  v_attempt (vw s) <= v_attempt (vw s') /\
  forall u M k, u <> urgencyReconcile -> (length (devices (queue s u)) <= M)%nat -> queued k (queue s u) -> queued k (queue s' u) ->
    bypass u M k s' + (v_attempt (vw s') - v_attempt (vw s)) <= bypass u M k s.
Lemma ahead_onward s s' : ahead true s s' -> onward s s'.
Proof. intros [A1 A2 _ A3 A4 A5 _ _]. split; [done|]. intros u M k Hu HM _ Hk. by apply A5. Qed.
Lemma steady_onward keys s s' : steady keys s s' -> onward s s'.
Proof.
  intros (_ & C & U & A & _). split; [lia|]. intros u M k _ _ Hq Hq'. pose proof (proj2 (C u k) Hq Hq' M). unfold bypass. rewrite U, A. destruct u; lia.
Qed.
Lemma pool_onward s i h r : onward s (set_pool i h r s).
Proof. split; [done|]. intros u M k _ _ _ _. cbn [vw set_pool]. change (bypass u M k (set_pool i h r s)) with (bypass u M k s). lia. Qed.
Lemma pool_sinv s i h r : sinv s -> length i = collectorWorkers -> length h = collectorWorkers ->
  Forall (fun p => (p.1 < collectorWorkers)%nat) r -> (forall w, (w < collectorWorkers)%nat -> held (set_pool i h r s) w = held s w) ->
  sinv (set_pool i h r s).
Proof.
  intros [[W1 W2 W3 W4 W5 W6 W7] [J1 J2 J3 J4 J5]] Hi Hh Hr He. split; split; try done.
  - destruct W1 as (L & _). done.
  - intros w Hw Hin. rewrite He by done. by apply W4.
Qed.
Lemma take_sinv w job s : sinv s -> hand s !! w = Some None -> inbox s !! w = Some (Some job) ->
  sinv (set_pool (<[w := None]> (inbox s)) (<[w := Some job]> (hand s)) (results s) s).
Proof.
  intros I Hh Hi. destruct (wi_len _ _ (proj1 I)) as (L1 & L2 & L3). apply pool_sinv; rewrite ?length_insert; try done; [apply I|].
  intros w' _. unfold held. cbn. destruct (decide (w' = w)) as [->|Hne].
  - rewrite !list_lookup_insert_eq by (by eapply lookup_lt_Some). by rewrite Hh, Hi.
  - by rewrite !list_lookup_insert_ne.
Qed.
(** A worker that is at a job has nothing else: there is room for its result. *)
Lemma at_hand w job s : winv s -> hand s !! w = Some (Some job) ->
  inbox s !! w = Some None /\ filter (fun p => p.1 = w) (results s) = [] /\ owed s w = [job] /\ (w < collectorWorkers)%nat.
Proof.
  intros W Hh. destruct (wi_len _ _ W) as (L1 & L2 & L3). assert (Hw : (w < collectorWorkers)%nat) by (rewrite <- L3; by eapply lookup_lt_Some).
  pose proof (wi_held _ _ W w Hw ltac:(by apply not_elem_of_nil)) as He. assert (Ho : (length (owed s w) <= 1)%nat).
  { unfold owed. destruct (active s !! w) as [[?|]|]; cbn; lia. }
  rewrite <- He in Ho |- *. unfold held in *. rewrite Hh in *. cbn [opt_list] in *. rewrite !length_app, length_fmap in Ho. cbn in Ho.
  destruct (lookup_lt_is_Some_2 (inbox s) w) as [[x|] Hx]; [lia|rewrite Hx in Ho; cbn in Ho; lia|]. rewrite Hx in *. cbn in Ho |- *.
  destruct (filter _ (results s)); [done|]. cbn in Ho. lia.
Qed.
Lemma fst_nodup {A} (l : list (nat * A)) : (forall w, length (filter (fun p => p.1 = w) l) <= 1)%nat -> NoDup l.*1.
Proof.
  induction l as [|[w x] l IH]; intros H; [apply NoDup_nil_2|]. cbn. apply NoDup_cons. split.
  - intros ([w' y] & -> & Hin)%list_elem_of_fmap. specialize (H w'). rewrite filter_cons_True in H by done. cbn in H.
    assert (Hf : (w', y) ∈ filter (fun p => p.1 = w') l) by (by apply list_elem_of_filter). destruct (filter _ l); [by apply not_elem_of_nil in Hf|]. cbn in H. lia.
  - apply IH. intros w'. specialize (H w'). rewrite filter_cons in H. case_decide; cbn in H; lia.
Qed.
Lemma results_room w job s : winv s -> hand s !! w = Some (Some job) -> (length (results s) < collectorWorkers)%nat.
Proof.
  intros W Hh. destruct (at_hand w job s W Hh) as (_ & Hf & _ & Hw).
  assert (Hnd : NoDup (w :: (results s).*1)).
  { apply NoDup_cons. split.
    - intros ([w' y] & -> & Hin)%list_elem_of_fmap. assert (Hin' : (w', y) ∈ filter (fun p => p.1 = w') (results s)) by (by apply list_elem_of_filter).
      cbn in Hf. rewrite Hf in Hin'. by apply not_elem_of_nil in Hin'.
    - apply fst_nodup. intros w'. destruct (decide (w' < collectorWorkers)%nat) as [Hw'|Hw'].
      + pose proof (wi_held _ _ W w' Hw' ltac:(by apply not_elem_of_nil)) as He. apply (f_equal length) in He. unfold held, owed in He.
        rewrite !length_app, !length_fmap in He. destruct (active s !! w') as [[?|]|]; cbn in He; lia.
      + assert (filter (fun p : nat * Result => p.1 = w') (results s) = []) as ->; [|cbn; lia].
        pose proof (wi_results _ _ W) as Hr. rewrite Forall_forall in Hr. apply elem_of_nil_inv.
        intros p [E Hin]%list_elem_of_filter. specialize (Hr p Hin). cbn in Hr, E. lia. }
  assert (Hsub : w :: (results s).*1 ⊆+ seq 0 collectorWorkers).
  { apply NoDup_submseteq; [done|]. intros x [->|([w' y] & -> & Hin)%list_elem_of_fmap]%elem_of_cons; apply elem_of_seq; [lia|].
    pose proof (wi_results _ _ W) as Hr. rewrite Forall_forall in Hr. specialize (Hr _ Hin). cbn in Hr |- *. lia. }
  apply submseteq_length in Hsub. rewrite length_seq in Hsub. cbn in Hsub. rewrite length_fmap in Hsub. lia.
Qed.
Lemma finish_sinv w job r s : sinv s -> hand s !! w = Some (Some job) -> r_Job r = job ->
  sinv (set_pool (inbox s) (<[w := None]> (hand s)) (results s ++ [(w, r)]) s).
Proof.
  intros I Hh Hj. destruct (wi_len _ _ (proj1 I)) as (L1 & L2 & L3). destruct (at_hand w job s (proj1 I) Hh) as (Hi & Hf & _ & Hw).
  apply pool_sinv; rewrite ?length_insert; try done.
  - apply Forall_app. split; [apply I|]. by apply Forall_singleton.
  - intros w' _. unfold held. cbn. rewrite filter_app. destruct (decide (w' = w)) as [->|Hne].
    + rewrite list_lookup_insert_eq by (by eapply lookup_lt_Some). rewrite Hi, Hh, Hf. cbn. by rewrite decide_True, <- Hj.
    + rewrite list_lookup_insert_ne by done. rewrite filter_cons_False by (cbn; congruence). by rewrite filter_nil, app_nil_r.
Qed.

(** ** Steps *)

Lemma request_all_kept l k : forall s s', request_all l s = Some s' ->
  vw s' = vw s /\ kept k s s' /\ (jobs s !! k = None -> jobs s' !! k = None).
Proof.
  induction l as [|key l IH]; intros s s'; cbn [request_all]; [intros [= <-]; split_and!; [done|by apply kept_same|done]|].
  destruct (request key urgencyEvent s) as [s1|] eqn:E; cbn [mbind option_bind]; [|done]. intros E'.
  destruct (request_kept key _ s s1 k E) as (V1 & K1 & N1), (IH s1 s' E') as (V2 & K2 & N2). split_and!; [congruence| |by intros ?%N1%N2].
  intros j Hj Hp. destruct (K1 j Hj Hp) as [(j1 & Hj1 & Hp1 & Hu1)|[Hn Hc]].
  - destruct (K2 j1 Hj1 Hp1) as [(j2 & Hj2 & Hp2 & Hu2)|H]; [left|by right]. exists j2. split_and!; [done|done|lia].
  - right. split; [by apply N2|congruence].
Qed.
Lemma unregister_kept key s s' k : unregister key s = Some s' -> k <> key -> kept k s s'.
Proof.
  unfold unregister. destruct (jobs s !! key) as [j|]; [|intros [= <-] _; by apply kept_same].
  destruct (dequeue key j s) as [s1|] eqn:E; [|done]. apply dequeue_jobs in E as [Ej _]. cbn. intros [= <-] Hne j' Hj' Hp. left. cbn.
  rewrite lookup_delete_ne, Ej, Hj' by done. by apply no_less_here.
Qed.
Lemma register_kept key p s s' k : register key p s = Some (inl s') -> kept k s s'.
Proof.
  unfold register. case_decide; [done|]. destruct (collector key (vw s)) as [[st t]|]; [|done]. case_decide as Hj; [done|].
  apply eq_None_not_Some in Hj. destruct (request _ _ _) as [s1|] eqn:E; [|done]. cbn. intros [= <-] j Hj' Hp.
  destruct (request_kept _ _ _ _ k E) as (_ & K & _). apply K; [|done]. cbn. by rewrite lookup_insert_ne by congruence.
Qed.
(** A pending job keeps its place when its retries change. *)
Lemma set_place_kept k key j j' s s' : jobs s' = <[key := j']> (jobs s) -> jobs s !! key = Some j -> s_pending j' = s_pending j ->
  urgency j' = urgency j -> kept k s s'.
Proof.
  intros E Hj Hp Hu j0 Hj0 Hp0. left. rewrite E. destruct (decide (k = key)) as [->|Hne].
  - rewrite lookup_insert_eq. rewrite Hj in Hj0. injection Hj0 as <-. exists j'. split_and!; [done|congruence|by rewrite Hu].
  - rewrite lookup_insert_ne, Hj0 by done. by apply no_less_here.
Qed.
Definition settled (s s' : scheduler) : Prop := forall k j, jobs s !! k = Some j -> s_pending j = true -> no_less j (jobs s' !! k).
Lemma settled_trans s1 s2 s3 : settled s1 s2 -> settled s2 s3 -> settled s1 s3.
Proof.
  intros H1 H2 k j Hj Hp. destruct (H1 k j Hj Hp) as (j2 & Hj2 & Hp2 & Hu2), (H2 k j2 Hj2 Hp2) as (j3 & Hj3 & Hp3 & Hu3).
  exists j3. split_and!; [done|done|lia].
Qed.
Lemma settled_same s s' : jobs s' = jobs s -> settled s s'.
Proof. intros E k j Hj Hp. rewrite E, Hj. by apply no_less_here. Qed.
Lemma settled_set key j j' s s' : jobs s' = <[key := j']> (jobs s) -> jobs s !! key = Some j -> s_pending j' = s_pending j ->
  urgency j' = urgency j -> settled s s'.
Proof.
  intros E Hj Hp Hu k j0 Hj0 Hp0. destruct (set_place_kept k key j j' s s' E Hj Hp Hu j0 Hj0 Hp0) as [H|[Hn _]]; [done|].
  rewrite E in Hn. apply lookup_insert_None in Hn as [Hn _]. congruence.
Qed.
Lemma settled_kept s s' k : settled s s' -> kept k s s'.
Proof. intros H j Hj Hp. left. by apply H. Qed.
Lemma record_settled r s : settled s (recordResult r s).
Proof.
  destruct (record_cases r s) as (v' & _ & [->|(j & j' & Hj & P1 & P2 & _ & ->)]); [by apply settled_same|]. by eapply settled_set.
Qed.
Lemma timeout_settled w a now s : settled s (timeout w a now s).
Proof. unfold timeout. destruct (timedOut a); [by apply settled_same|]. eapply settled_trans; [|apply record_settled]. by apply settled_same. Qed.
Lemma complete_settled w r s s' : complete w r s = Some s' -> settled s s'.
Proof.
  unfold complete. destruct (active s !! w) as [[a|]|]; [|by intros [= <-]; apply settled_same..].
  case_decide; [intros [= <-]; by apply settled_same|]. intros [= <-]. set (s1 := if bool_decide _ then _ else s). set (s2 := if negb _ then _ else s1).
  assert (Hs : settled s s2).
  { assert (H1 : settled s s1) by (unfold s1; case_match; [apply timeout_settled|by apply settled_same]).
    unfold s2. case_match; [|done]. eapply settled_trans; [exact H1|apply record_settled]. }
  clearbody s2. change (jobs (set_active _ s2)) with (jobs s2). destruct (jobs s2 !! j_Key (a_job a)) as [j|] eqn:Hj; [|done].
  case_match; [|done]. eapply settled_trans; [exact Hs|]. by eapply settled_set.
Qed.

(** A step that dispatches no traffic batch. *)
Definition no_traffic (a : action) : Prop := match a with Dispatch _ offer => undisturbed offer | _ => True end.
(** What a step leaves, when it comes to an end. *)
Definition proceeds (a : action) (s s' : scheduler) : Prop :=
  sinv s' /\ (no_traffic a -> onward s s') /\ (forall k, a <> Unregister k -> kept k s s' \/ started k s s') /\
  (forall now offer, a = Dispatch now offer -> at_work s').
Lemma steady_proceeds keys a s s' : steady keys s s' -> (forall k, a <> Unregister k -> kept k s s') -> (forall now offer, a <> Dispatch now offer) -> proceeds a s s'.
Proof. intros St K N. split_and!; [apply St|intros _; by eapply steady_onward|by left; apply K|]. intros now offer E. by destruct (N now offer). Qed.
Lemma steady_id s : sinv s -> steady [] s s.
Proof. intros I. split_and!; [done|by apply calm_refl|done..]. Qed.
Lemma runs_spec a s o : (exists s', o = Some s' /\ proceeds a s s') -> exists s', runs o = Some (Runs s') /\ proceeds a s s'.
Proof. intros (s' & -> & P). by exists s'. Qed.
Lemma traffic_sinv s : sinv s -> sinv (set_traffic None s).
Proof. intros [[W1 W2 W3 W4 W5 W6 W7] [J1 J2 J3 J4 J5]]. by split; split. Qed.
Definition owner_step (a : action) : Prop := match a with Register _ _ | Dispatch _ _ => False | _ => True end.
Lemma owner_steps a s : owner_step a -> sinv s -> exists s', step a s = Some (Runs s') /\ proceeds a s s'.
Proof.
  intros Ha I. pose proof (steady_id s I) as Hid. destruct a; try done; cbn [step].
  - apply runs_spec. destruct (unregister_steady key s I) as (s' & E & St). exists s'. split; [done|]. eapply steady_proceeds; [done| |done].
    intros k Hk. eapply unregister_kept; [done|congruence].
  - apply runs_spec. destruct (request_steady key u s I) as (s' & E & St & _). exists s'. split; [done|]. eapply steady_proceeds; [done| |done].
    intros k _. by eapply request_kept.
  - apply runs_spec. destruct (change_steady d new s I) as (s' & E & St). exists s'. split; [done|]. eapply steady_proceeds; [done| |done].
    intros k _. eapply (request_all_kept _ k) in E as (_ & K & _). exact K.
  - eexists. split; [done|]. eapply steady_proceeds; [by apply lose_steady| |done]. intros k _. by apply kept_same.
  - eexists. split; [done|]. eapply steady_proceeds; [by apply (schema_steady key n)| |done]. intros k _. apply kept_same.
    destruct (collector key (vw s)) as [[? ?]|]; done.
  - eexists. split; [done|]. assert (St : steady [] s (match active s !! w with Some (Some a) => if decide (a_deadline a <= Monotonic now) then timeout w a now s else s | _ => s end)).
    { destruct (active s !! w) as [[a|]|] eqn:Ew; [|done..]. case_decide; [by apply overdue_steady|done]. }
    eapply steady_proceeds; [exact St| |done]. intros k _. apply settled_kept. destruct (active s !! w) as [[a|]|]; [|by apply settled_same..].
    case_decide; [apply timeout_settled|by apply settled_same].
  - apply runs_spec. destruct (retry_steady key t s I) as (s' & E & St). exists s'. split; [done|]. eapply steady_proceeds; [done| |done].
    intros k _. unfold retryDue in E. destruct (jobs s !! key); [|injection E as <-; by apply kept_same].
    destruct (_ || _); [injection E as <-; by apply kept_same|]. by eapply request_kept.
  - apply runs_spec. destruct (settings_steady key s I) as (s' & E & St). exists s'. split; [done|]. eapply steady_proceeds; [done| |done].
    intros k _. unfold settingsTransition in E. destruct (jobs s !! key) as [j0|]; [|injection E as <-; by apply kept_same].
    destruct (retrySettings (policy j0)); [|injection E as <-; by apply kept_same].
    destruct (request key urgencyEvent s) as [s1|] eqn:E1; [|done]. cbn in E. injection E as <-. destruct (request_kept _ _ _ _ k E1) as (V & K & _).
    destruct (jobs s1 !! key) as [j1|] eqn:Hj; [|exact K]. intros j Hj0 Hp. destruct (K j Hj0 Hp) as [(j' & Hj' & Hp' & Hu')|[Hn Hc]].
    + left. assert (St1 : settled s1 (set_job key (with_retries 0 true j1) s1)) by (by eapply settled_set).
      destruct (St1 k j' Hj' Hp') as (j3 & ? & ? & ?). exists j3. split_and!; [done|done|lia].
    + right. split; [|done]. cbn. rewrite lookup_insert_ne; [done|]. intros ->. congruence.
  - destruct (results s) as [|[w r] l] eqn:Er.
    + eexists. split; [done|]. eapply steady_proceeds; [done| |done]. intros k _. by apply kept_same.
    + apply runs_spec. destruct (complete_steady w r l s I Er) as (s' & E & St). exists s'. split; [done|]. eapply steady_proceeds; [done| |done].
      intros k _. apply settled_kept. eapply settled_trans; [|by eapply complete_settled]. by apply settled_same.
  - eexists. split; [done|]. assert (St : steady [] s (set_traffic None s)) by (split_and!; [by apply traffic_sinv|by apply calm_refl|done..]).
    eapply steady_proceeds; [exact St|intros; by apply kept_same|done].
  - eexists. split; [done|]. destruct (hand s !! w) as [[?|]|] eqn:Eh; try (eapply steady_proceeds; [done|intros; by apply kept_same|done]).
    destruct (inbox s !! w) as [[job|]|] eqn:Ei; try (eapply steady_proceeds; [done|intros; by apply kept_same|done]).
    split_and!; [by apply take_sinv|intros _; apply pool_onward|left; by apply kept_same|done].
  - destruct (hand s !! w) as [[job|]|] eqn:Eh;
      try (eexists; split; [done|]; eapply steady_proceeds; [done|intros; by apply kept_same|done]).
    rewrite decide_True by (by eapply results_room; [apply I|]). eexists. split; [done|].
    split_and!; [by eapply finish_sinv|intros _; apply pool_onward|left; by apply kept_same|done].
Qed.
Lemma step_spec a s : sinv s ->
  (exists s', (step a s = Some (Runs s') \/ (step a s = Some (Refused s') /\ s' = s /\ exists key p, a = Register key p)) /\ proceeds a s s') \/
  (step a s = Some (Stops ErrExhausted) /\ runs_out collectorWorkers s /\ (no_traffic a -> MaxUint64 < v_attempt (vw s) + Z.of_nat collectorWorkers) /\
   exists now offer, a = Dispatch now offer).
Proof.
  intros I. destruct a; try (left; edestruct owner_steps as (s' & E & P); [|exact I|exists s'; split; [left; exact E|exact P]]; done); cbn [step].
  - left. destruct (register_steady key p s I) as (r & E & H). rewrite E. cbn [mbind option_bind]. destruct r as [s'|e].
    + exists s'. split; [by left|]. eapply steady_proceeds; [by apply H| |done]. intros k _. by eapply register_kept.
    + exists s. split; [right; split_and!; [done|done|by eexists _, _]|]. eapply steady_proceeds; [by apply steady_id| |done].
      intros k _. by apply kept_same.
  - pose proof (dispatch_spec false now offer s I ltac:(done)) as Hd. pose proof (fun H => dispatch_spec true now offer s I (fun _ => H)) as Hq.
    destruct Hd as [(E & _ & HR)|(s' & E & I' & A & Hw)]; rewrite E in *; cbn [mbind option_bind].
    + right. split_and!; [done|done| |by exists now, offer]. intros Hn. destruct (Hq Hn) as [(_ & HM & _)|(? & [=] & _)]. by apply HM.
    + left. exists s'. split; [by left|]. split_and!; [done| | |done].
      * intros Hn. destruct (Hq Hn) as [([=] & _)|(s2 & [= <-] & _ & A2 & _)]. by apply ahead_onward.
      * intros k _. destruct (jobs s !! k) as [j|] eqn:Hj; [|left; intros j' Hj'; congruence].
        destruct (s_pending j) eqn:Hp; [|left; intros j' Hj'; congruence].
        destruct (ah_kept _ _ _ A k j Hj Hp) as [H|H]; [left|by right]. intros j' Hj' _. rewrite Hj in Hj'. injection Hj' as <-. by left.
Qed.

Lemma nothing_held {A} n w : opt_list (replicate n (None : option A) !! w) = [].
Proof. destruct (replicate n None !! w) as [[a|]|] eqn:E; [|done..]. by apply lookup_replicate in E as [[=] _]. Qed.
Lemma start_sinv ns : sinv (newScheduler ns).
Proof.
  assert (Hn : forall w a, ~ is_active (newScheduler ns) w a).
  { intros w a H. unfold is_active in H. apply lookup_replicate in H as [[=] _]. }
  assert (Hc : forall k st t, collector k (vw (newScheduler ns)) = Some (st, t) -> running st = false).
  { intros k st t. unfold collector. cbn. case_decide; [done|]. case_decide; [case_decide; [done|by intros [= <- _]]|]. by rewrite lookup_empty. }
  split; split; try done.
  - intros w w' a a' H. by destruct (Hn w a).
  - intros k st t H Hr. rewrite (Hc k st t H) in Hr. done.
  - intros w _ _. unfold held, owed. cbn [inbox hand results active newScheduler]. by rewrite !nothing_held.
  - intros u. apply no_ready_wf.
  - intros u k. split; [intros (l & H & _); cbn in H; by rewrite lookup_empty in H|intros (j & H & _); cbn in H; by rewrite lookup_empty in H].
Qed.
Lemma step_sinv a s s' : sinv s -> step a s = Some (Runs s') \/ step a s = Some (Refused s') -> proceeds a s s'.
Proof.
  intros I H. destruct (step_spec a s I) as [(s1 & [E|(E & _)] & P)|(E & _)]; rewrite E in H; destruct H as [[=]|[=]]; by subst.
Qed.
Lemma reachable_sinv ns s : reachable ns s -> sinv s.
Proof. induction 1 as [|a s s' _ IH H]; [apply start_sinv|]. by apply (step_sinv a s s'). Qed.
(** A run, for examples. *)
Fixpoint after (l : list action) (s : scheduler) : scheduler :=
  match l with
  | [] => s
  | a :: l => match step a s with Some (Runs s') | Some (Refused s') => after l s' | _ => s end
  end.
Lemma after_is_reachable ns l : forall s, reachable ns s -> reachable ns (after l s).
Proof.
  induction l as [|a l IH]; intros s H; cbn [after]; [done|]. destruct (step a s) as [[s'|s'| |]|] eqn:E; try done; apply IH; eapply reach_step; eauto.
Qed.

(** C22: from any reachable state, no step of the owner or of a worker panics
    (a queue never lacks a job marked ready, a chosen job is always registered)
    or waits for ever on a channel (a free worker's inbox is empty, and there is
    room for every result). [register] may refuse and changes nothing then;
    [dispatch], whatever the traffic schedule offers it, fails only when attempt
    numbers run out near 2^64 (within the four a dispatch may start, and two a
    device for a traffic batch) or there are more devices than an inventory may
    have, and otherwise leaves no worker free while a job waits. *)
Theorem scheduler_safe ns s a : reachable ns s ->
  (exists s', step a s = Some (Runs s') /\ forall now offer, a = Dispatch now offer -> at_work s') \/
  (step a s = Some (Refused s) /\ exists key p, a = Register key p) \/
  (step a s = Some (Stops ErrExhausted) /\ runs_out collectorWorkers s /\ (no_traffic a -> MaxUint64 < v_attempt (vw s) + Z.of_nat collectorWorkers) /\
   exists now offer, a = Dispatch now offer).
Proof.
  intros R. destruct (step_spec a s (reachable_sinv ns s R)) as [(s' & [E|(E & -> & H)] & P)|H]; [left|right; by left|right; by right].
  exists s'. split; [done|]. apply P.
Qed.

(** C21: in any reachable state, at most one worker is at the attempts of a
    collector, even past their deadline; a collector that is running is being
    run by a worker, under the attempt it knows, before its deadline is noticed;
    and a job waits in a queue, that of its urgency, exactly when it is pending
    and has no worker, so a request is neither lost nor carried out twice at
    once. A worker a traffic batch is with has no job. *)
Theorem one_attempt_each ns s : reachable ns s ->
  (forall w w' a a', is_active s w a -> is_active s w' a' -> j_Key (a_job a) = j_Key (a_job a') -> w = w') /\
  (forall k st t, collector k (vw s) = Some (st, t) -> running st = true ->
     exists w a, is_active s w a /\ a_job a = c_job st /\ timedOut a = false) /\
  (forall u k, queued k (queue s u) <-> exists j, jobs s !! k = Some j /\ s_pending j = true /\ urgency j = u /\ ~ served s k) /\
  (forall w a, traffic_at s = Some w -> ~ is_active s w a).
Proof.
  intros R. destruct (reachable_sinv ns s R) as [W J]. split_and!; [apply W| | |apply W].
  - intros k st t Hk Hr. destruct (wi_running _ _ W k st t Hk Hr) as (w & a & Ha & Ej & Et & _). by exists w, a.
  - intros u k. rewrite (ji_ready _ _ J). split; intros (j & Hj & H).
    + destruct (ji_waits _ _ J k j Hj ltac:(tauto)). exists j. tauto.
    + destruct (ji_pending _ _ J k j Hj ltac:(tauto)) as [Hr|Hs]; [|tauto]. exists j. tauto.
Qed.

(** C20: a request for a registered collector is heard: a worker is already at
    an attempt that covers it, or it is a periodic one and a retry is on its
    way, or the job is pending, at least as urgent as was asked. And a pending
    job stays so, no less urgent, in whatever happens next, until an attempt
    that starts later is under way for it, or it is unregistered, or its
    collector has gone. *)
Theorem request_kept_pending ns s key u a s' k j : reachable ns s ->
  (exists s1, step (Request key u) s = Some (Runs s1) /\
     forall st t, is_Some (jobs s !! key) -> collector key (vw s) = Some (st, t) -> heard key u st t s s1) /\
  (step a s = Some (Runs s') -> a <> Unregister k -> jobs s !! k = Some j -> s_pending j = true ->
     no_less j (jobs s' !! k) \/ started k s s' \/ (jobs s' !! k = None /\ collector k (vw s') = None)).
Proof.
  intros R. pose proof (reachable_sinv ns s R) as I. split.
  - destruct (request_steady key u s I) as (s1 & E & _ & H). exists s1. cbn [step]. by rewrite E.
  - intros E Ha Hj Hp. destruct (step_sinv a s s' I (or_introl E)) as (_ & _ & K & _). destruct (K k Ha) as [H|H]; [|by right; left].
    destruct (H j Hj Hp) as [H1|H1]; [by left|by right; right].
Qed.

(** How long a job may wait: [collector_kinds] of each device go round. *)
Definition collector_kinds : nat := length (filter (fun c => c <> CollectorUnknown) all_collectors).
Lemma pos_lt {A} `{EqDecision A} (x : A) l : x ∈ l -> (pos x l < length l)%nat.
Proof.
  induction l as [|y l IH]; [by intros ?%not_elem_of_nil|]. cbn. intros Hin. case_decide; [lia|]. apply elem_of_cons in Hin as [|Hin]; [done|].
  specialize (IH Hin). lia.
Qed.
Lemma collector_named k v x : collector k v = Some x -> jk_Namespace k = v_namespace v /\ jk_Collector k <> CollectorUnknown.
Proof.
  unfold collector. case_decide as H; [done|]. intros _. destruct (decide (jk_Namespace k = v_namespace v)); tauto.
Qed.
Lemma rank_bound u M k s : sinv s -> queued k (queue s u) -> (length (devices (queue s u)) <= M)%nat ->
  (rank M k (queue s u) < collector_kinds * M)%nat.
Proof.
  intros [W J] (l & Hl & Hin) HM. destruct (ji_queue _ _ J u) as [N D Jq]. destruct (Jq _ _ Hl) as (_ & Hnd & Hdev). unfold rank. rewrite Hl. change (default [] (Some l)) with l.
  assert (Hd : (pos (jk_Device k) (devices (queue s u)) < length (devices (queue s u)))%nat) by (apply pos_lt, D; by eexists).
  assert (Hlen : (length l <= collector_kinds)%nat).
  { unfold collector_kinds. rewrite <- (length_fmap (fun c => mkJobKey (v_namespace (vw s)) (jk_Device k) c)).
    apply submseteq_length, NoDup_submseteq; [done|]. intros x Hx. rewrite Forall_forall in Hdev. pose proof (Hdev x Hx) as Ex.
    assert (Hq : queued x (queue s u)) by (exists l; by rewrite Ex). apply (ji_ready _ _ J) in Hq as (j & Hj & _ & _).
    destruct (ji_job _ _ J x j Hj ltac:(by apply not_elem_of_nil)) as [c Hc]. apply collector_named in Hc as [Hns Hk].
    apply list_elem_of_fmap. exists (jk_Collector x). split; [rewrite <- Hns, <- Ex; by destruct x|].
    apply list_elem_of_filter. split; [done|]. destruct (jk_Collector x); repeat (apply list_elem_of_here || apply list_elem_of_further). }
  pose proof (pos_lt k l Hin). nia.
Qed.
(** A run in which a job waits in the queue of [u], where there are at most [M]
    devices. *)
Definition waits (k : JobKey) (u : jobUrgency) (M : nat) (s : scheduler) : Prop := queued k (queue s u) /\ (length (devices (queue s u)) <= M)%nat.
Inductive waiting (k : JobKey) (u : jobUrgency) (M : nat) : scheduler -> scheduler -> Prop :=
  | waiting_here s : waits k u M s -> waiting k u M s s
  | waiting_step a s s1 s2 : waits k u M s -> no_traffic a -> step a s = Some (Runs s1) \/ step a s = Some (Refused s1) -> waiting k u M s1 s2 -> waiting k u M s s2.
Lemma waiting_bypass k u M s s' : u <> urgencyReconcile -> sinv s -> waiting k u M s s' ->
  bypass u M k s' + (v_attempt (vw s') - v_attempt (vw s)) <= bypass u M k s /\ sinv s' /\ waits k u M s'.
Proof.
  intros Hu I Hw. induction Hw as [s H|a s s1 s2 [Hq HM] Hnt E Hw IH]; [split_and!; [lia|done|done]|].
  destruct (step_sinv a s s1 I E) as (I1 & [_ O]%(fun f => f Hnt) & _). destruct (IH I1) as (B & I2 & W2). split_and!; [|done|done].
  assert (Hq1 : queued k (queue s1 u)) by (destruct Hw as [? []|? ? ? ? [] _ _ _]; done). specialize (O u M k Hu HM Hq Hq1). lia.
Qed.

(** As long as no traffic batch is dispatched, jobs asked for by an event or a
    poll are not passed over for ever. While such a job waits among at most [M] devices, an
    event's job sees fewer than [2 * 14 * M] attempts start before its own, and a
    periodic poll fewer than [9 * 14 * M], whatever is requested meanwhile and
    for whichever devices: queues serve devices in turn, one job each, and after
    eight attempts on urgent jobs a periodic one is next. A job just registered
    (urgency reconcile) has no such bound, events pass it, and a traffic
    schedule's sweeps reset the count of eight. *)
Lemma turn_comes ns k u M s s' : reachable ns s -> u <> urgencyReconcile -> waiting k u M s s' ->
  v_attempt (vw s') - v_attempt (vw s) < (match u with urgencyEvent => 2 | _ => 9 end) * (Z.of_nat collector_kinds * Z.of_nat M).
Proof.
  intros R Hu Hw. pose proof (reachable_sinv ns s R) as I. destruct (waiting_bypass k u M s s' Hu I Hw) as (B & I' & _).
  assert (Hk : waits k u M s) by (by destruct Hw). destruct Hk as [Hq HM]. pose proof (rank_bound u M k s I Hq HM) as Hr.
  pose proof (wi_urgent _ _ (proj1 I)) as U. pose proof (wi_urgent _ _ (proj1 I')) as U'.
  apply Nat2Z.inj_lt in Hr. rewrite Nat2Z.inj_mul in Hr. generalize dependent (Z.of_nat collector_kinds * Z.of_nat M). intros P Hr.
  unfold bypass in B. destruct u; [|done|]; repeat case_decide; lia.
Qed.

(** ** An example

    Six collectors of a device are registered, four of them get the workers,
    and two are asked for again as events; then a worker comes free. *)

Definition goes (a : action) (s : scheduler) : bool := match step a s with Some (Runs _) | Some (Refused _) => true | _ => false end.
Definition waitsb (k : JobKey) (u : jobUrgency) (M : nat) (s : scheduler) : bool :=
  bool_decide (k ∈ default [] (waiting_jobs (queue s u) !! jk_Device k)) && (length (devices (queue s u)) <=? M)%nat.
Lemma waitsb_waits k u M s : waitsb k u M s = true -> waits k u M s.
Proof.
  intros [Hk HM]%andb_true_iff. apply bool_decide_eq_true_1 in Hk. split; [|by apply Nat.leb_le].
  destruct (waiting_jobs _ !! _) as [l'|] eqn:E; [by exists l'|by apply not_elem_of_nil in Hk].
Qed.
Definition ex_device : DeviceKey := mkDeviceKey 0 DeviceEthernet 7 "" 0.
Definition ex_job (c : CollectorKind) : JobKey := mkJobKey 0 ex_device c.
Definition ex_policy : schedulePolicy := mkPolicy 60 None.
Definition ex_state : scheduler :=
  after ([ChangeDevice ex_device (Some (mkToken 1 1 1 0, false))] ++
         ((fun c => Register (ex_job c) ex_policy) <$>
            [CollectorChannels; CollectorRDMAState; CollectorSettings; CollectorDriver; CollectorPHY; CollectorRings]) ++
         [Dispatch (mkStamp 0 5) (fun _ => no_offer); Request (ex_job CollectorPHY) urgencyEvent; Request (ex_job CollectorRings) urgencyEvent]) (newScheduler 0).
(** A sweep of the traffic schedule is due. *)
Definition ex_offer : nat -> trafficOffer := fun _ => mkOffer false true [] (fun _ => true).
Definition ex_free : scheduler := after [Take 0; Finish 0 (mkStamp 0 6) false false 0; Complete] ex_state.
Lemma ex_reachable : reachable 0 ex_state.
Proof. apply after_is_reachable, reach_start. Qed.

Lemma ex_free_reachable : reachable 0 ex_free.
Proof. apply after_is_reachable, ex_reachable. Qed.
Lemma scheduler_safe_witness :
  goes (Dispatch (mkStamp 0 7) ex_offer) ex_free = true /\ exists s', step (Dispatch (mkStamp 0 7) ex_offer) ex_free = Some (Runs s') /\ at_work s'.
Proof.
  assert (G : goes (Dispatch (mkStamp 0 7) ex_offer) ex_free = true) by (vm_compute; reflexivity). split; [exact G|].
  pose proof ex_free_reachable as R. revert G R. generalize ex_free. intros s G R.
  destruct (scheduler_safe 0 s (Dispatch (mkStamp 0 7) ex_offer) R) as [(s' & E & H)|[(_ & k & p & E)|(E & _)]].
  - exists s'. split; [exact E|exact (H _ _ eq_refl)].
  - discriminate E.
  - unfold goes in G. rewrite E in G. discriminate G.
Defined.
Lemma one_attempt_each_witness : queued (ex_job CollectorRings) (queue ex_state urgencyEvent) /\ ~ served ex_state (ex_job CollectorRings).
Proof.
  assert (G : waitsb (ex_job CollectorRings) urgencyEvent 1 ex_state = true) by (vm_compute; reflexivity).
  pose proof ex_reachable as R. revert G R. generalize ex_state. intros s G R.
  assert (Q : queued (ex_job CollectorRings) (queue s urgencyEvent)).
  { by apply waitsb_waits in G as [Q _]. }
  split; [exact Q|]. destruct (one_attempt_each 0 s R) as (_ & _ & H & _). apply H in Q as (j & _ & _ & _ & Hn). exact Hn.
Defined.
Lemma request_kept_pending_witness : exists s1, step (Request (ex_job CollectorChannels) urgencyEvent) ex_state = Some (Runs s1) /\
  forall st t, collector (ex_job CollectorChannels) (vw ex_state) = Some (st, t) -> heard (ex_job CollectorChannels) urgencyEvent st t ex_state s1.
Proof.
  assert (G : bool_decide (is_Some (jobs ex_state !! ex_job CollectorChannels)) = true) by (vm_compute; reflexivity).
  pose proof ex_reachable as R. revert G R. generalize ex_state. intros s G R. apply bool_decide_eq_true_1 in G.
  destruct (request_kept_pending 0 s (ex_job CollectorChannels) urgencyEvent Complete s (ex_job CollectorChannels) (mkScheduled ex_policy zero_Token false urgencyEvent false 0 false) R)
    as [(s1 & E & H) _].
  exists s1. split; [exact E|]. intros st t. exact (H st t G).
Defined.
