(* ===== verification/IpAsn.v ===== *)
(** The ASN feed (pkg/ipasn/ipasn.go, pkg/xtcp/enrich_asn.go): the lookup table
    built from the collector's Parquet artifact, its reloads, and the compressed
    copy the daemon publishes and starts from.

    Parquet and zstd (github.com/parquet-go, github.com/klauspost/compress) are
    the class [Codec], the table (github.com/gaissmai/bart) is [AttrTable]. The
    program runs on a file system with hard links, each call of which may be
    refused, may leave a partial file, and may find that another process has
    changed something meanwhile. Metrics, logs and times are left out. *)

From stdpp Require Import countable strings.
From S2P Require Import Prelude NetText Enrich Localnet.

(** ** netip.Prefix as text *)

Definition addr_of (b : bytes) : Addr := if decide (glen b = 4) then Addr4 b else Addr16 b.
Fixpoint cut_last (c : Z) (s : bytes) : option (bytes * bytes) :=
  match s with
  | [] => None
  | x :: s => match cut_last c s with Some (a, b) => Some (x :: a, b) | None => if decide (x = c) then Some ([], s) else None end
  end.
Fixpoint atoi_loop (s : bytes) (n : Z) : option Z :=
  match s with [] => Some n | c :: s => if is_digit c then atoi_loop s (n * 10 + (c - 48)) else None end.
(** [strconv.Atoi] of a string without a sign; out of range is not told from
    large. *)
Definition Atoi (s : bytes) : option Z := if decide (s = []) then None else atoi_loop s 0.
Definition ParsePrefix (s : bytes) : option Prefix :=
  '(a, bits) ← cut_last 47 s;
  ip ← ParseAddr a;
  if decide ((1 < length bits)%nat /\ ~ 49 <= default 0 (head bits) <= 57) then None else
  n ← Atoi bits;
  if decide (n < 0 \/ BitLen (addr_of ip) < n) then None else Some (PrefixFrom (addr_of ip) n).
Definition Prefix_String (p : Prefix) : bytes := Addr_String (addr_bytes (pfx_Addr p)) ++ 47 :: decimal (Bits p).

(** ** Third parties *)

Record Attr := mkAttr { ASN : Z; NetworkOwner : bytes }.
Record row := mkRow { r_Prefix : bytes; r_ASN : Z; r_NetworkOwner : bytes }.
#[export] Instance Attr_eq : EqDecision Attr. Proof. solve_decision. Defined.
#[export] Instance row_eq : EqDecision row. Proof. solve_decision. Defined.
(** bart.Table[Attr] *)
Class AttrTable (T : Type) := {
  attr_empty : T;
  attr_Insert : T -> Prefix -> Attr -> T;
  attr_Get : T -> Prefix -> option Attr;
  attr_Lookup : T -> Addr -> option Attr }.
Class AttrTableLaws (T : Type) `{AttrTable T} : Prop := {
  attr_Get_empty p : attr_Get attr_empty p = None;
  attr_Get_Insert t p q e : canonical p -> canonical q ->
    attr_Get (attr_Insert t p e) q = if decide (p = q) then Some e else attr_Get t q;
  attr_Lookup_longest t a : wf_addr a -> attr_Lookup t a = longest_match (attr_Get t) a }.
(** How a Read of a batch of rows ends. *)
Inductive read_end := ReadMore | ReadEOF | ReadFailed.
(** What the reads of a Parquet file of a size bring; what a zstd stream decodes
    to, and whether it ends in an error; a compressed Parquet file of rows. *)
Class Codec := {
  parquet_OpenFile : bytes -> Z -> option (list (list row * read_end));
  zstd_Decode : bytes -> option (bytes * bool);
  lookup_Encode : list row -> option bytes }.
(** The rows of all batches, to the end of the file or to a read of nothing. *)
Fixpoint read_all (reads : list (list row * read_end)) : option (list row) :=
  match reads with
  | [] => Some []
  | (batch, ReadEOF) :: _ => Some batch
  | (_, ReadFailed) :: _ => None
  | (batch, ReadMore) :: reads => if decide (batch = []) then Some [] else app batch <$> read_all reads
  end.
(** What was written is read back. *)
Class CodecLaws `{Codec} : Prop := lookup_Decode : forall rows data, lookup_Encode rows = Some data ->
  exists d reads, zstd_Decode data = Some (d, false) /\ parquet_OpenFile d (glen d) = Some reads /\ read_all reads = Some rows.

(** ** The file system *)

Inductive error :=
  | ErrNotExist | ErrExist | ErrSys | ErrNoPrefixes | ErrParquet | ErrRead | ErrZstd | ErrTooBig | ErrEncode | ErrSanity
  | Join (a b : error).
#[export] Instance error_eq : EqDecision error. Proof. solve_decision. Defined.
Record File := mkFile { content : bytes; mtime : Z }.
#[export] Instance File_eq : EqDecision File. Proof. solve_decision. Defined.
(** Names lead to inodes; an open file is its inode. *)
Record FS := mkFS { names : gmap string nat; inodes : gmap nat File; next_inode : nat }.
Definition file_at (p : string) (fs : FS) : option File := i ← names fs !! p; inodes fs !! i.
(** How a call goes: what others did before it, whether it is refused, what it
    leaves in a file then, and when. *)
Record answer := mkAnswer { meanwhile : FS -> FS; refused : option error; partial : bytes; stamp : Z }.
Definition granted : answer := mkAnswer (fun fs => fs) None [] 0.
(** [trace] is the file system after each call. *)
Record sys := mkSys { fs : FS; trace : list FS; answers : list answer }.
Definition M (A : Type) : Type := sys -> (A + error) * sys.
Definition Mret {A} (a : A) : M A := fun s => (inl a, s).
Definition Mfail {A} (e : error) : M A := fun s => (inr e, s).
Definition Mbind {A B} (m : M A) (f : A -> M B) : M B := fun s => match m s with (inl a, s) => f a s | (inr e, s) => (inr e, s) end.
(** The result of a call, to be looked at. *)
Definition Mcatch {A} (m : M A) : M (A + error) := fun s => let '(r, s) := m s in (inl r, s).
Declare Scope asn_scope.
Open Scope asn_scope.
Notation "x ⇐ y ; z" := (Mbind y (fun x => z)) (at level 20, y at level 100, z at level 200, only parsing) : asn_scope.
Definition call {A} (f : answer -> FS -> (A + error) * FS) : M A := fun s =>
  let '(a, l) := match answers s with [] => (granted, []) | a :: l => (a, l) end in
  let '(r, fs) := f a (meanwhile a (fs s)) in
  (r, mkSys fs (trace s ++ [fs]) l).
Definition allow {A} (a : answer) (fs : FS) (r : (A + error) * FS) : (A + error) * FS :=
  match refused a with Some e => (inr e, fs) | None => r end.
Definition found {A} (o : option A) : A + error := match o with Some x => inl x | None => inr ErrNotExist end.

Definition set_name (p : string) (i : nat) (fs : FS) : FS := mkFS (<[p := i]> (names fs)) (inodes fs) (next_inode fs).
Definition set_inode (i : nat) (f : File) (fs : FS) : FS := mkFS (names fs) (<[i := f]> (inodes fs)) (next_inode fs).
Definition os_Stat (p : string) : M File := call (fun a fs => allow a fs (found (file_at p fs), fs)).
(** [os.Open], and what is read from the open file. *)
Definition os_Open (p : string) : M File := call (fun a fs => allow a fs (found (file_at p fs), fs)).
Definition os_MkdirAll : M unit := call (fun a fs => allow a fs (inl tt, fs)).
Definition syncDir : M unit := call (fun a fs => allow a fs (inl tt, fs)).
Definition f_Sync : M unit := call (fun a fs => allow a fs (inl tt, fs)).
Definition f_Close : M unit := call (fun a fs => allow a fs (inl tt, fs)).
Definition os_Create (p : string) : M nat := call (fun a fs => allow a fs
  match names fs !! p with
  | Some i => (inl i, set_inode i (mkFile [] (stamp a)) fs)
  | None =>
      let i := next_inode fs in
      (inl i, mkFS (<[p := i]> (names fs)) (<[i := mkFile [] (stamp a)]> (inodes fs)) (S i))
  end).
(** The writes of an encoder into a file just created. *)
Definition f_Write (i : nat) (data : bytes) : M unit := call (fun a fs =>
  match refused a with
  | Some e => (inr e, set_inode i (mkFile (partial a) (stamp a)) fs)
  | None => (inl tt, set_inode i (mkFile data (stamp a)) fs)
  end).
Definition os_Link (p q : string) : M unit := call (fun a fs => allow a fs
  match names fs !! p, names fs !! q with
  | None, _ => (inr ErrNotExist, fs)
  | _, Some _ => (inr ErrExist, fs)
  | Some i, None => (inl tt, set_name q i fs)
  end).
(** rename(2): nothing happens between two names of one file. *)
Definition os_Rename (p q : string) : M unit := call (fun a fs => allow a fs
  match names fs !! p with
  | None => (inr ErrNotExist, fs)
  | Some i =>
      if decide (names fs !! q = Some i) then (inl tt, fs)
      else (inl tt, mkFS (delete p (<[q := i]> (names fs))) (inodes fs) (next_inode fs))
  end).
Definition os_Remove (p : string) : M unit := call (fun a fs => allow a fs
  match names fs !! p with None => (inr ErrNotExist, fs) | Some _ => (inl tt, mkFS (delete p (names fs)) (inodes fs) (next_inode fs)) end).

(** ** Artifacts *)

Record Stats := mkStats {
  Prefixes : Z; ArtifactBytes : Z; ArtifactModTime : Z; SourcePath : string; SourceKind : string; CompressedBytes : Z; DecompressedBytes : Z }.
Definition zero_Stats : Stats := mkStats 0 0 0 "" "" 0 0.
Record Artifact (T : Type) := mkArtifact { table : T; rows : list row; stats : Stats }.
Arguments mkArtifact {T}. Arguments table {T}. Arguments rows {T}. Arguments stats {T}.
Definition maxDecompressedArtifactBytes : Z := 256 * 2 ^ 20.

Fixpoint HasSuffix (s suf : string) : bool :=
  bool_decide (s = suf) || match s with EmptyString => false | String _ s => HasSuffix s suf end.

(** ** float64

    A value is an integer over a power of two; [round53] is the integer nearest
    among those of 53 significant bits, the even one of two. Sizes and counts
    stay far from the exponent's limits. *)

Definition round_nat (m : Z) : Z :=
  let s := Z.log2 m - 52 in
  if decide (s <= 0) then m else
  let q := m / 2 ^ s in let r := m mod 2 ^ s in let half := 2 ^ (s - 1) in
  (if decide (half < r \/ (r = half /\ Z.odd q = true)) then q + 1 else q) * 2 ^ s.
Definition round53 (m : Z) : Z := Z.sgn m * round_nat (Z.abs m).
Record float64 := mkFloat { f_num : Z; f_scale : Z }.
Definition of_int64 (n : Z) : float64 := mkFloat (round53 n) 0.
Definition fadd (x y : float64) : float64 :=
  let k := Z.max (f_scale x) (f_scale y) in
  mkFloat (round53 (f_num x * 2 ^ (k - f_scale x) + f_num y * 2 ^ (k - f_scale y))) k.
Definition fsub (x y : float64) : float64 := fadd x (mkFloat (- f_num y) (f_scale y)).
Definition fmul (x y : float64) : float64 := mkFloat (round53 (f_num x * f_num y)) (f_scale x + f_scale y).
Definition flt (x y : float64) : bool := f_num x * 2 ^ f_scale y <? f_num y * 2 ^ f_scale x.
Definition f_zero : float64 := mkFloat 0 0.
Definition f_one : float64 := mkFloat 1 0.
(** The double nearest to 0.20. *)
Definition DefaultCacheSanityDelta : float64 := mkFloat 3602879701896397 54.

Definition validateWithin (got want : Z) (delta : float64) : bool :=
  if decide (want = 0) then bool_decide (got = 0) else
  let low := fmul (of_int64 want) (fsub f_one delta) in
  let high := fmul (of_int64 want) (fadd f_one delta) in
  negb (flt (of_int64 got) low || flt high (of_int64 got)).
Definition validateCacheCandidate (candidate source baseline : Stats) : bool :=
  validateWithin (Prefixes candidate) (Prefixes source) f_zero &&
  (bool_decide (Prefixes baseline <= 0) || validateWithin (Prefixes candidate) (Prefixes baseline) DefaultCacheSanityDelta) &&
  (negb (bool_decide (SourceKind baseline = "parquet.zst" /\ 0 < DecompressedBytes baseline)) ||
   validateWithin (DecompressedBytes candidate) (DecompressedBytes baseline) DefaultCacheSanityDelta).

Section ipasn.
Context {T : Type} `{AttrTable T} `{Codec}.

Definition insert_row (acc : T * list row) (r : row) : T * list row :=
  match ParsePrefix (r_Prefix r) with
  | None => acc
  | Some pfx =>
      (attr_Insert acc.1 (Masked pfx) (mkAttr (r_ASN r) (r_NetworkOwner r)),
       acc.2 ++ [mkRow (Prefix_String (Masked pfx)) (r_ASN r) (r_NetworkOwner r)])
  end.
(** The loop over the reads; past the last, a read brings nothing. *)
Fixpoint read_loop (reads : list (list row * read_end)) (acc : T * list row) : (T * list row) + error :=
  match reads with
  | [] => inl acc
  | (batch, e) :: reads =>
      let acc := foldl insert_row acc batch in
      match e with
      | ReadEOF => inl acc
      | ReadFailed => inr ErrRead
      | ReadMore => if decide (batch = []) then inl acc else read_loop reads acc
      end
  end.
Definition buildFromReaderAt (data : bytes) (size : Z) : (T * list row) + error :=
  match parquet_OpenFile data size with
  | None => inr ErrParquet
  | Some reads =>
      match read_loop reads (attr_empty, []) with
      | inr e => inr e
      | inl (t, l) => if decide (l = []) then inr ErrNoPrefixes else inl (t, l)
      end
  end.
Definition zstd_Read (data : bytes) (limit : Z) : bytes + error :=
  match zstd_Decode data with
  | None => inr ErrZstd
  | Some (d, bad) =>
      let b := take (Z.to_nat (Z.min (limit + 1) (glen d))) d in
      if decide (bad = true /\ glen b <= limit) then inr ErrZstd else
      if decide (limit < glen b) then inr ErrTooBig else inl b
  end.
(** The part of [LoadArtifact] after the calls: what a file of this status and
    this content is loaded as. *)
Definition load (path : string) (info f : File) : Artifact T + error :=
  match (if HasSuffix path ".zst" then
           match zstd_Read (content f) maxDecompressedArtifactBytes with
           | inr e => inr e
           | inl data => inl (data, glen data, glen (content info), "parquet.zst")
           end
         else inl (content f, glen (content info), 0, "parquet")) with
  | inr e => inr e
  | inl (data, size, compressedBytes, kind) =>
      match buildFromReaderAt data size with
      | inr e => inr e
      | inl (t, l) => inl (mkArtifact t l (mkStats (glen l) (glen (content info)) (mtime info) path kind compressedBytes size))
      end
  end.
Definition LoadArtifact (path : string) : M (Artifact T) :=
  info ⇐ os_Stat path; f ⇐ os_Open path; fun s => (load path info f, s).

(** ** The index *)

Record Index := mkIndex {
  tbl : option T; loadedMod : Z; loadedSize : Z; loadedCount : Z; sourcePath : string; sourceKind : string; compressed : Z; decompressed : Z }.
Definition no_index : Index := mkIndex None 0 0 0 "" "" 0 0.
Definition index_Stats (ix : Index) : Stats :=
  mkStats (loadedCount ix) (loadedSize ix) (loadedMod ix) (sourcePath ix) (sourceKind ix) (compressed ix) (decompressed ix).
(** [reloadLocked], which every form of reload is. *)
Definition reloadLocked (path : string) (force : bool) (ix : Index) : M (option (Artifact T) * Index) :=
  info ⇐ os_Stat path;
  if negb force && bool_decide (is_Some (tbl ix)) && bool_decide (glen (content info) = loadedSize ix) && bool_decide (mtime info = loadedMod ix)
  then Mret (None, ix)
  else
    artifact ⇐ LoadArtifact path;
    let st := stats artifact in
    Mret (Some artifact, mkIndex (Some (table artifact)) (mtime info) (glen (content info)) (Prefixes st) (SourcePath st) (SourceKind st)
                           (CompressedBytes st) (DecompressedBytes st)).
Definition Lookup (ix : Index) (addr : Addr) : option Attr := t ← tbl ix; attr_Lookup t (Unmap addr).

(** ** The published copy *)

(** [fmt.Sprintf] of a name with the process and the time, which are [u]. *)
Definition tmp_name (p u suffix : string) : string := p +:+ ".tmp." +:+ u +:+ suffix.
Definition writeRowsZstd (path : string) (l : list row) : M unit :=
  i ⇐ os_Create path;
  match lookup_Encode l with
  | None => call (fun a fs => (inr ErrEncode, set_inode i (mkFile (partial a) (stamp a)) fs))
  | Some data => _ ⇐ f_Write i data; _ ⇐ f_Sync; f_Close
  end.
Definition preservePrevious (currentPath previousPath u : string) : M unit :=
  r ⇐ Mcatch (os_Stat currentPath);
  match r with
  | inr e => if decide (e = ErrNotExist) then Mret tt else Mfail e
  | inl _ =>
      let tmp := tmp_name previousPath u "" in
      _ ⇐ os_Link currentPath tmp;
      r ⇐ Mcatch (os_Rename tmp previousPath);
      match r with
      | inl _ => Mret tt
      | inr e => r ⇐ Mcatch (os_Remove tmp); Mfail (match r with inl _ => e | inr e' => Join e e' end)
      end
  end.
(** Under the deferred removal of the temporary file: up to the rename that
    commits. *)
Definition publish_body (currentPath previousPath tmp u : string) (artifact : Artifact T) (baseline : Stats) : M Stats :=
  _ ⇐ writeRowsZstd tmp (rows artifact);
  candidate ⇐ LoadArtifact tmp;
  if validateCacheCandidate (stats candidate) (stats artifact) baseline then
    _ ⇐ (if decide (previousPath <> "") then preservePrevious currentPath previousPath u else Mret tt);
    _ ⇐ os_Rename tmp currentPath;
    Mret (stats candidate)
  else Mfail ErrSanity.
Definition PublishLookupCache (currentPath previousPath u : string) (artifact : Artifact T) (baseline : Stats) : M Stats :=
  if decide (rows artifact = []) then Mfail ErrNoPrefixes else
  _ ⇐ os_MkdirAll;
  let tmp := tmp_name currentPath u ".zst" in
  r ⇐ Mcatch (publish_body currentPath previousPath tmp u artifact baseline);
  match r with
  | inl st => _ ⇐ syncDir; Mret st
  | inr e => r ⇐ Mcatch (os_Remove tmp); Mfail (match r with inr e' => if decide (e' = ErrNotExist) then e else Join e e' | inl _ => e end)
  end.

(** ** The daemon *)

(** [loadAsn]: a reload, and after one a new copy is published; a copy that
    cannot be published changes nothing else. *)
Definition loadAsn (cachePath previousPath u path : string) (force : bool) (ix : Index) : M (bool * Index) := fun s =>
  let before := index_Stats ix in
  match reloadLocked path force ix s with
  | (inr e, s) => (inr e, s)
  | (inl (None, ix), s) => (inl (false, ix), s)
  | (inl (Some artifact, ix), s) =>
      let s := if decide (cachePath <> "") then snd (PublishLookupCache cachePath previousPath u artifact before s) else s in
      (inl (true, ix), s)
  end.
(** [loadInitialAsn]: the first of the copies that is there and loads. *)
Fixpoint load_first (paths : list string) (ix : Index) (s : sys) : option string * Index * sys :=
  match paths with
  | [] => (None, ix, s)
  | p :: paths =>
      if decide (p = "") then load_first paths ix s else
      match os_Stat p s with
      | (inr _, s) => load_first paths ix s
      | (inl _, s) => match reloadLocked p true ix s with (inr _, s) => load_first paths ix s | (inl (_, ix), s) => (Some p, ix, s) end
      end
  end.
(** [previous] is [previousLookupPath] of [cache]: a name in its directory, or
    empty when it is. *)
Record asn_config := mkAsnConfig { enabled : bool; AsnDbPath : string; interval : Z; cache : string; previous : string; bootstrap : string }.
(** [initAsnEnricher]: the index it installs, and whether it is refreshed. *)
Definition initAsnEnricher (c : asn_config) (u : string) (s : sys) : option (Index * bool) * sys :=
  if negb (enabled c) then (None, s) else
  let '(source, ix, s) := load_first [cache c; previous c; bootstrap c] no_index s in
  let '(loaded, ix, s) :=
    match source with
    | Some _ => (true, ix, s)
    | None =>
        if decide (AsnDbPath c = "") then (false, ix, s) else
        match loadAsn (cache c) (previous c) u (AsnDbPath c) true ix s with
        | (inl (_, ix), s) => (true, ix, s)
        | (inr _, s) => (false, ix, s)
        end
    end in
  if negb loaded && bool_decide (AsnDbPath c = "" \/ interval c <= 0) then (None, s) else
  (Some (ix, negb (bool_decide (interval c <= 0 \/ AsnDbPath c = ""))), s).
End ipasn.
