(* ===== verification/IpAsnSpec.v ===== *)
(** Specifications of [IpAsn]: a published copy loads as the table it was made
    from, at every moment of a publication there is a copy to start from, a
    refresh serves the artifact that is there, and the window of a sanity check
    is exact. *)

From stdpp Require Import countable strings.
From S2P Require Import Prelude NetText Enrich Localnet LocalnetSpec IpAsn.

(** ** Prefixes as text *)

Definition wf_prefix (p : Prefix) : Prop := wf_addr (pfx_Addr p) /\ wf_bytes (addr_bytes (pfx_Addr p)) /\ 0 <= Bits p <= BitLen (pfx_Addr p).
Lemma addr_of_bytes a : wf_addr a -> addr_of (addr_bytes a) = a.
Proof. unfold addr_of. destruct a as [b|b]; cbn; intros H; case_decide; (done || congruence). Qed.
Lemma addr_of_wf b : glen b = 4 \/ glen b = 16 -> wf_addr (addr_of b) /\ addr_bytes (addr_of b) = b.
Proof. unfold addr_of. intros H. case_decide; cbn; split; (done || lia). Qed.
Lemma cut_last_spec c a b : c ∉ b -> cut_last c (a ++ c :: b) = Some (a, b).
Proof.
  intros Hb. induction a as [|x a IH]; cbn [app cut_last]; [|by rewrite IH]. rewrite decide_True by done.
  enough (H : cut_last c b = None) by (by rewrite H). clear -Hb. induction b as [|x b IH]; [done|]. apply not_elem_of_cons in Hb as [Hx Hb].
  cbn. rewrite IH by done. by rewrite decide_False by congruence.
Qed.
Lemma atoi_digits l n : Forall (fun c => 48 <= c <= 57) l -> atoi_loop l n = Some (foldl (fun n c => n * 10 + (c - 48)) n l).
Proof.
  intros Hl. revert n. induction Hl as [|c l Hc _ IH]; intros n; [done|]. cbn [atoi_loop foldl]. unfold is_digit. rewrite bool_decide_eq_true_2 by lia. apply IH.
Qed.
Lemma decimal_value n : 0 <= n < 1000 -> Forall (fun c => 48 <= c <= 57) (decimal n) /\ Atoi (decimal n) = Some n /\
  ((1 < length (decimal n))%nat -> 49 <= default 0 (head (decimal n)) <= 57).
Proof.
  intros H. assert (Hd : Forall (fun c => 48 <= c <= 57) (decimal n)).
  { unfold decimal. repeat (apply Forall_app; split); repeat case_decide; try apply Forall_nil_2; apply Forall_singleton; Z.to_euclidean_division_equations; lia. }
  split; [done|]. unfold Atoi. rewrite decide_False by (intros E; by apply (f_equal length) in E; revert E; unfold decimal; rewrite !length_app; cbn; lia).
  rewrite atoi_digits by done. unfold decimal. repeat case_decide; cbn; split; try lia; try (f_equal; Z.to_euclidean_division_equations; lia);
    intros _; Z.to_euclidean_division_equations; lia.
Qed.
Lemma ParsePrefix_String p : wf_prefix p -> ParsePrefix (Prefix_String p) = Some p.
Proof.
  intros (Ha & Hb & Hn). unfold ParsePrefix, Prefix_String.
  assert (H1000 : 0 <= Bits p < 1000) by (destruct (pfx_Addr p); cbn in Hn; lia). destruct (decimal_value _ H1000) as (Hd & Hv & Hh).
  rewrite cut_last_spec by (intros H; rewrite Forall_forall in Hd; specialize (Hd _ H); lia). cbn [mbind option_bind].
  destruct (ParseAddr_String (addr_bytes (pfx_Addr p)) Hb) as [-> _]; [destruct (pfx_Addr p); cbn in *; tauto|]. cbn [mbind option_bind].
  rewrite decide_False by tauto. rewrite Hv. cbn [mbind option_bind]. rewrite addr_of_bytes by done. rewrite decide_False by lia. by destruct p.
Qed.
Lemma ParsePrefix_wf s p : ParsePrefix s = Some p -> wf_prefix p.
Proof.
  unfold ParsePrefix. destruct (cut_last 47 s) as [[a bits]|]; [|done]. cbn [mbind option_bind]. destruct (ParseAddr a) as [b|] eqn:E; [|done].
  cbn [mbind option_bind]. apply ParseAddr_wf in E as [Hw Hl]. apply addr_of_wf in Hl as [Ha Hb]. case_decide; [done|]. destruct (Atoi bits) as [n|]; [|done].
  cbn [mbind option_bind]. case_decide; [done|]. intros [= <-]. split_and!; cbn; [done|by rewrite Hb|lia|lia].
Qed.
Lemma land_byte b n : 0 <= b < 256 -> 0 < n < 8 -> 0 <= Z.land b (256 - 2 ^ (8 - n)) < 256.
Proof.
  intros Hb Hn. split; [apply Z.land_nonneg; lia|].
  assert (H : forallb (fun b => forallb (fun n => Z.land b (256 - 2 ^ (8 - n)) <? 256) (seqZ 1 7)) (seqZ 0 256) = true) by (vm_compute; reflexivity).
  apply Is_true_true, forallb_True in H. rewrite Forall_forall in H. specialize (H b ltac:(apply elem_of_seqZ; lia)). apply forallb_True in H.
  rewrite Forall_forall in H. specialize (H n ltac:(apply elem_of_seqZ; lia)). apply Is_true_true, Z.ltb_lt in H. exact H.
Qed.
Lemma mask_bytes_wf l : forall n, wf_bytes l -> wf_bytes (mask_bytes n l).
Proof.
  induction l as [|b l IH]; intros n Hl; [done|]. apply Forall_cons in Hl as [Hb Hl]. cbn. apply Forall_cons. split; [|by apply IH].
  unfold is_byte in *. repeat case_decide; [done|lia|]. apply land_byte; lia.
Qed.
Lemma Masked_wf p : wf_prefix p -> wf_prefix (Masked p) /\ canonical (Masked p) /\ Masked (Masked p) = Masked p.
Proof.
  intros (Ha & Hb & Hn). assert (Hc : canonical (Masked p)) by (by apply canonical_masked). split_and!; [|done|by apply Hc].
  destruct Hc as (Ha' & Hn' & _). split_and!; [done| |lia|lia]. unfold Masked, mask_addr. cbn. destruct (pfx_Addr p); cbn in *; by apply mask_bytes_wf.
Qed.

(** ** What an artifact says *)

(** Per row the prefix it is entered under. *)
Definition entry_of (r : row) : option (Prefix * Attr) := p ← ParsePrefix (r_Prefix r); Some (Masked p, mkAttr (r_ASN r) (r_NetworkOwner r)).
Definition row_of (e : Prefix * Attr) : row := mkRow (Prefix_String e.1) (ASN e.2) (NetworkOwner e.2).
Definition proper (e : Prefix * Attr) : Prop := wf_prefix e.1 /\ canonical e.1.
Lemma entry_proper r e : entry_of r = Some e -> proper e.
Proof.
  unfold entry_of. destruct (ParsePrefix (r_Prefix r)) as [p|] eqn:E; [|done]. cbn. intros [= <-]. apply ParsePrefix_wf, Masked_wf in E as (H1 & H2 & _). by split.
Qed.
Lemma entries_proper rs : Forall proper (omap entry_of rs).
Proof. apply Forall_forall. intros e (r & _ & Hr)%list_elem_of_omap. by eapply entry_proper. Qed.
Lemma entry_reread e : proper e -> entry_of (row_of e) = Some e.
Proof.
  intros [Hw (_ & _ & Hm)]. unfold entry_of, row_of. cbn [r_Prefix r_ASN r_NetworkOwner]. rewrite ParsePrefix_String by done. cbn. rewrite Hm. by destruct e as [? []].
Qed.
Lemma entries_reread es : Forall proper es -> omap entry_of (row_of <$> es) = es.
Proof. induction 1 as [|e es He _ IH]; [done|]. cbn [fmap list_fmap omap list_omap]. rewrite entry_reread by done. by rewrite IH. Qed.

Section table.
Context {T : Type} `{HT : AttrTable T} `{HC : Codec}.

Definition insert_all (es : list (Prefix * Attr)) (t : T) : T := foldl (fun t e => attr_Insert t e.1 e.2) t es.
Lemma insert_rows rs : forall t l, foldl insert_row (t, l) rs = (insert_all (omap entry_of rs) t, l ++ (row_of <$> omap entry_of rs)).
Proof.
  induction rs as [|r rs IH]; intros t l; cbn [foldl]; [by rewrite app_nil_r|]. unfold insert_row at 2, entry_of. cbn [fst snd omap list_omap].
  destruct (ParsePrefix (r_Prefix r)) as [p|]; cbn [mbind option_bind]; rewrite IH; [|done]. cbn. by rewrite <- app_assoc.
Qed.
Lemma read_loop_all reads : forall acc,
  read_loop reads acc = match read_all reads with Some rs => inl (foldl insert_row acc rs) | None => inr ErrRead end.
Proof.
  induction reads as [|[batch e] reads IH]; intros acc; cbn [read_loop read_all]; [done|]. destruct e; [|done|done]. case_decide as Hb; [by subst|].
  rewrite IH. destruct (read_all reads) as [rs|]; cbn; [|done]. by rewrite foldl_app.
Qed.
(** A table is its artifact's entries, the later in place of the earlier, and
    the rows kept say the same. *)
Lemma build_spec data size t l : buildFromReaderAt data size = inl (t, l) ->
  exists reads rs, parquet_OpenFile data size = Some reads /\ read_all reads = Some rs /\ omap entry_of rs <> [] /\
    t = insert_all (omap entry_of rs) attr_empty /\ l = row_of <$> omap entry_of rs.
Proof.
  unfold buildFromReaderAt. destruct (parquet_OpenFile data size) as [reads|]; [|done]. rewrite read_loop_all. destruct (read_all reads) as [rs|] eqn:Er; [|done].
  rewrite insert_rows. cbn [app]. case_decide as Hl; [done|]. intros [= <- <-]. exists reads, rs. split_and!; try done. intros E. apply Hl. by rewrite E.
Qed.
Lemma build_rows es data d reads : es <> [] -> Forall proper es -> lookup_Encode (row_of <$> es) = Some data ->
  parquet_OpenFile d (glen d) = Some reads -> read_all reads = Some (row_of <$> es) ->
  buildFromReaderAt d (glen d) = inl (insert_all es attr_empty, row_of <$> es).
Proof.
  intros Hne Hp _ E1 E2. unfold buildFromReaderAt. rewrite E1, read_loop_all, E2, insert_rows, entries_reread by done. cbn [app].
  rewrite decide_False; [done|]. by intros ?%fmap_nil_inv.
Qed.
Definition served (t : T) (a : Addr) : option Attr := attr_Lookup t (Unmap a).
(** The owner of a prefix is the last row's that names it. *)
Definition last_entry (es : list (Prefix * Attr)) (p : Prefix) : option Attr :=
  foldl (fun o e => if decide (e.1 = p) then Some e.2 else o) None es.
Lemma insert_all_get `{!AttrTableLaws T} es p : Forall proper es -> canonical p -> attr_Get (insert_all es attr_empty) p = last_entry es p.
Proof.
  intros Hes Hp. unfold insert_all, last_entry. rewrite <- (attr_Get_empty p) at 1. generalize (attr_empty (T := T)) as t.
  induction Hes as [|e es [_ He] _ IH]; intros t; [done|]. cbn [foldl]. rewrite IH. by rewrite attr_Get_Insert.
Qed.
End table.

(** ** Loading a copy *)

Section copy.
Context {T : Type} `{HT : AttrTable T} `{HC : Codec} {CL : CodecLaws}.

Definition artifact_wf (a : Artifact T) : Prop :=
  exists es, es <> [] /\ Forall proper es /\ table a = insert_all es attr_empty /\ rows a = row_of <$> es.
Lemma load_wf path info f a : load path info f = inl a -> artifact_wf a.
Proof.
  unfold load. destruct (if HasSuffix path ".zst" then _ else _) as [[[[data size] cb] kind]|e]; [|done].
  destruct (buildFromReaderAt data size) as [[t l]|e] eqn:E; [|done]. intros [= <-]. apply build_spec in E as (reads & rs & _ & _ & ? & ? & ?).
  exists (omap entry_of rs). split_and!; [done|apply entries_proper|done|done].
Qed.
Lemma zstd_Read_whole data d b limit : zstd_Decode data = Some (d, false) -> zstd_Read data limit = inl b -> b = d.
Proof.
  unfold zstd_Read. intros ->. rewrite decide_False by (by intros [? _]). case_decide as Hl; [done|]. intros [= <-]. apply take_ge.
  unfold glen in *. rewrite length_take in Hl. lia.
Qed.
Lemma load_copy a path info f c data : artifact_wf a -> HasSuffix path ".zst" = true -> lookup_Encode (rows a) = Some data -> content f = data ->
  load path info f = inl c -> table c = table a /\ rows c = rows a.
Proof using CL.
  intros (es & Hne & Hp & Et & Er) Hsuf Henc Hf. unfold load. rewrite Hsuf, Hf. destruct (lookup_Decode _ _ Henc) as (d & reads & Hd & Ho & Hr).
  destruct (zstd_Read data _) as [b|e] eqn:Ez; [|done]. apply (zstd_Read_whole _ d) in Ez as ->; [|done]. rewrite Er in *.
  erewrite build_rows by done. intros [= <-]. cbn. by rewrite Et.
Qed.
(** Whether a compressed copy loads, and what as, does not hang on its name or
    its status. *)
Lemma load_again p1 p2 i1 i2 f1 f2 c : HasSuffix p1 ".zst" = true -> HasSuffix p2 ".zst" = true -> content f1 = content f2 -> load p1 i1 f1 = inl c ->
  exists c', load p2 i2 f2 = inl c' /\ table c' = table c /\ rows c' = rows c.
Proof.
  intros H1 H2 Hc. unfold load. rewrite H1, H2, Hc. destruct (zstd_Read _ _) as [b|]; [|done]. destruct (buildFromReaderAt b (glen b)) as [[t l]|]; [|done].
  intros [= <-]. by eexists.
Qed.
End copy.

(** ** What a table answers *)

Section answers.
Context {T : Type} `{HT : AttrTable T} `{HC : Codec} {TL : AttrTableLaws T}.

(** The rows in a file of this name. *)
Definition rows_read (path : string) (info f : File) : option (list row) :=
  '(data, size) ← (if HasSuffix path ".zst" then match zstd_Decode (content f) with Some (d, false) => Some (d, glen d) | _ => None end
                   else Some (content f, glen (content info)));
  reads ← parquet_OpenFile data size; read_all reads.
Lemma zstd_Read_inl data limit b : zstd_Read data limit = inl b -> zstd_Decode data = Some (b, false).
Proof.
  unfold zstd_Read. destruct (zstd_Decode data) as [[d bad]|]; [|done]. case_decide as Hb; [done|]. case_decide as Hl; [done|]. intros [= <-].
  destruct bad; [exfalso; apply Hb; split; [done|lia]|]. do 2 f_equal. symmetry. apply take_ge. unfold glen in *. rewrite length_take in Hl. lia.
Qed.
Lemma load_rows path info f a : load path info f = inl a ->
  exists rs, rows_read path info f = Some rs /\ table a = insert_all (omap entry_of rs) attr_empty.
Proof.
  unfold load, rows_read. intros E.
  assert (B : exists data size, (if HasSuffix path ".zst" then match zstd_Decode (content f) with Some (d, false) => Some (d, glen d) | _ => None end
    else Some (content f, glen (content info))) = Some (data, size) /\ exists l, buildFromReaderAt data size = inl (table a, l)).
  { destruct (HasSuffix path ".zst").
    - destruct (zstd_Read _ _) as [b|] eqn:Ez; [|done]. apply zstd_Read_inl in Ez as ->. exists b, (glen b). split; [done|].
      destruct (buildFromReaderAt b (glen b)) as [[t l]|]; [|done]. injection E as <-. by exists l.
    - do 2 eexists. split; [done|]. destruct (buildFromReaderAt _ _) as [[t l]|]; [|done]. injection E as <-. by exists l. }
  destruct B as (data & size & -> & l & (reads & rs & Ho & Hr & _ & Ht & _)%build_spec). exists rs. cbn. by rewrite Ho.
Qed.
(** The last that names the prefix, and none after it does. *)
Lemma last_entry_spec rs p : match last_entry (omap entry_of rs) p with
  | Some e => exists before r after, rs = before ++ r :: after /\ entry_of r = Some (p, e) /\ Forall (fun r' => fst <$> entry_of r' <> Some p) after
  | None => Forall (fun r => fst <$> entry_of r <> Some p) rs
  end.
Proof.
  induction rs as [|r rs IH] using rev_ind; [constructor|]. rewrite omap_app. unfold last_entry in *. rewrite foldl_app. cbn [omap list_omap].
  assert (Hold : fst <$> entry_of r <> Some p -> match foldl (fun o e => if decide (e.1 = p) then Some e.2 else o) None (omap entry_of rs) with
    | Some e => exists before r0 after, rs ++ [r] = before ++ r0 :: after /\ entry_of r0 = Some (p, e) /\ Forall (fun r' => fst <$> entry_of r' <> Some p) after
    | None => Forall (fun r => fst <$> entry_of r <> Some p) (rs ++ [r]) end).
  { intros Hr. destruct (foldl _ _ _) as [e|].
    - destruct IH as (l1 & r0 & l2 & -> & He & Hl). exists l1, r0, (l2 ++ [r]). rewrite <- app_assoc. split_and!; [done|done|]. apply Forall_app. split; [done|]. by apply Forall_singleton.
    - apply Forall_app. split; [done|]. by apply Forall_singleton. }
  destruct (entry_of r) as [[q e]|] eqn:Er; cbn [foldl fst snd]; [|by apply Hold]. case_decide as Hq; [|apply Hold; cbn; congruence].
  subst q. exists rs, r, []. by split_and!.
Qed.

(** C24: what a table loaded from an artifact answers, in terms of the rows of the
    file: for an address, mapped into IPv6 or not, the owner in a row whose
    prefix, masked, contains the address; no row of a longer prefix does, and no
    later row names the same prefix. It misses only when no row contains the
    address. Rows that do not parse count for nothing. *)
Theorem lookup_answers path info f a ix addr :
  load path info f = inl a -> tbl ix = Some (table a) -> wf_addr addr ->
  exists rs, rows_read path info f = Some rs /\
  match Lookup ix addr with
  | Some e => exists before r after p, rs = before ++ r :: after /\ entry_of r = Some (p, e) /\ contains p (Unmap addr) /\
      Forall (fun r' => fst <$> entry_of r' <> Some p) after /\
      (forall r' q e', r' ∈ rs -> entry_of r' = Some (q, e') -> contains q (Unmap addr) -> Bits q <= Bits p)
  | None => forall r q e, r ∈ rs -> entry_of r = Some (q, e) -> ~ contains q (Unmap addr)
  end.
Proof using TL.
  intros (rs & Hrs & Ht)%load_rows Htb Ha. exists rs. split; [done|]. unfold Lookup. rewrite Htb. cbn [mbind option_bind]. apply wf_Unmap in Ha.
  rewrite attr_Lookup_longest, Ht by done. rewrite (longest_match_ext _ (last_entry (omap entry_of rs)) _ Ha) by (intros p Hp; apply insert_all_get; [apply entries_proper|done]).
  assert (Hnone : forall q r e, last_entry (omap entry_of rs) q = None -> r ∈ rs -> entry_of r = Some (q, e) -> False).
  { intros q r e Hq Hr He. pose proof (last_entry_spec rs q) as H. rewrite Hq, Forall_forall in H. apply (H r Hr). by rewrite He. }
  pose proof (longest_match_spec (last_entry (omap entry_of rs)) (Unmap addr)) as H. destruct (longest_match _ _) as [e|].
  - destruct H as (p & Hc & He & Hmax). pose proof (last_entry_spec rs p) as Hl. rewrite He in Hl. destruct Hl as (l1 & r & l2 & Hsplit & Hr & Hafter).
    exists l1, r, l2, p. split_and!; [done..|]. intros r' q e' Hin He' Hq. destruct (decide (Bits q <= Bits p)) as [|Hlt]; [done|].
    exfalso. eapply Hnone; [apply Hmax; [exact Hq|lia]|exact Hin|exact He'].
  - intros r q e Hin He Hq. eapply Hnone; [by apply H|exact Hin|exact He].
Qed.
End answers.

(** ** Reasoning about calls *)

Definition wf_fs (fs : FS) : Prop := forall p i, names fs !! p = Some i -> (i < next_inode fs)%nat /\ is_Some (inodes fs !! i).
(** Others make files of their own; they leave these names alone, and what is in
    the files there are. *)
Record considerate (P : list string) (a : answer) : Prop := {
  cs_wf : forall fs, wf_fs fs -> wf_fs (meanwhile a fs);
  cs_next : forall fs, (next_inode fs <= next_inode (meanwhile a fs))%nat;
  cs_names : forall fs p, p ∈ P -> names (meanwhile a fs) !! p = names fs !! p;
  cs_inodes : forall fs i, (i < next_inode fs)%nat -> inodes (meanwhile a fs) !! i = inodes fs !! i;
  cs_refused : refused a <> Some ErrNotExist }.
Lemma granted_considerate P : considerate P granted.
Proof. by split. Qed.

Section triples.
Context (P : list string) (ok : FS -> Prop).
(** From [Pre], every call leaves [ok], and the end is [Q] or [E]. *)
Definition triple {A} (Pre : FS -> Prop) (m : M A) (Q : A -> FS -> Prop) (E : error -> FS -> Prop) : Prop :=
  forall s, Pre (fs s) -> Forall (considerate P) (answers s) ->
    let '(r, s') := m s in Forall (considerate P) (answers s') /\
    (exists l, trace s' = trace s ++ l /\ Forall ok l) /\ match r with inl a => Q a (fs s') | inr e => E e (fs s') end.
Lemma triple_ret {A} (Pre : FS -> Prop) (a : A) Q E : (forall fs, Pre fs -> Q a fs) -> triple Pre (Mret a) Q E.
Proof. intros H s Hs Ha. split_and!; [done|exists []; by rewrite app_nil_r|by apply H]. Qed.
Lemma triple_fail {A} (Pre : FS -> Prop) e (Q : A -> FS -> Prop) E : (forall fs, Pre fs -> E e fs) -> triple Pre (Mfail e) Q E.
Proof. intros H s Hs Ha. split_and!; [done|exists []; by rewrite app_nil_r|by apply H]. Qed.
Lemma triple_bind {A B} Pre (m : M A) (f : A -> M B) R Q E : triple Pre m R E -> (forall a, triple (R a) (f a) Q E) -> triple Pre (Mbind m f) Q E.
Proof.
  intros Hm Hf s Hs Ha. specialize (Hm s Hs Ha). unfold Mbind. destruct (m s) as [[a|e] s1]; destruct Hm as (Ha1 & (l1 & E1 & L1) & H1).
  - specialize (Hf a s1 H1 Ha1). destruct (f a s1) as [r s2]. destruct Hf as (Ha2 & (l2 & E2 & L2) & H2). split_and!; [done| |done].
    exists (l1 ++ l2). rewrite E2, E1, app_assoc. split; [done|]. by apply Forall_app.
  - split_and!; [done|by exists l1|done].
Qed.
Lemma triple_catch {A} Pre (m : M A) R E : triple Pre m (fun a => R (inl a)) (fun e => R (inr e)) -> triple Pre (Mcatch m) R E.
Proof.
  intros Hm s Hs Ha. specialize (Hm s Hs Ha). unfold Mcatch. destruct (m s) as [[a|e] s1]; destruct Hm as (Ha1 & Hl & H1); by split_and!.
Qed.
Lemma triple_call {A} (Pre : FS -> Prop) (f : answer -> FS -> (A + error) * FS) Q E :
  (forall a fs, considerate P a -> Pre fs -> Pre (meanwhile a fs)) ->
  (forall a fs, considerate P a -> Pre fs -> let '(r, fs') := f a fs in ok fs' /\ match r with inl x => Q x fs' | inr e => E e fs' end) ->
  triple Pre (call f) Q E.
Proof.
  intros Hst Hf s Hs Ha. unfold call. destruct (answers s) as [|a l] eqn:El.
  - specialize (Hf granted (fs s) (granted_considerate P) Hs). cbn [meanwhile granted] in *. destruct (f granted (fs s)) as [r fs']. destruct Hf as [Ho Hr].
    cbn. split_and!; [done|exists [fs']; split; [done|by apply Forall_singleton]|done].
  - apply Forall_cons in Ha as [Ha Hl]. specialize (Hf a (meanwhile a (fs s)) Ha (Hst a _ Ha Hs)). destruct (f a (meanwhile a (fs s))) as [r fs']. destruct Hf as [Ho Hr].
    cbn. split_and!; [done|exists [fs']; split; [done|by apply Forall_singleton]|done].
Qed.
Lemma triple_weaken {A} (Pre Pre' : FS -> Prop) (m : M A) Q Q' E E' : triple Pre m Q E -> (forall fs, Pre' fs -> Pre fs) ->
  (forall a fs, Q a fs -> Q' a fs) -> (forall e fs, E e fs -> E' e fs) -> triple Pre' m Q' E'.
Proof.
  intros Hm H1 H2 H3 s Hs Ha. specialize (Hm s (H1 _ Hs) Ha). destruct (m s) as [[a|e] s1]; destruct Hm as (Ha1 & Hl & Hr); split_and!; auto.
Qed.
Lemma triple_pre {A} (Pre Pre' : FS -> Prop) (m : M A) Q E : (forall fs, Pre' fs -> Pre fs) -> triple Pre m Q E -> triple Pre' m Q E.
Proof. intros H Hm. by eapply triple_weaken. Qed.
Lemma triple_exists {A B} (Pre : B -> FS -> Prop) (m : M A) Q E : (forall x, triple (Pre x) m Q E) -> triple (fun fs => exists x, Pre x fs) m Q E.
Proof. intros Hm s [x Hs] Ha. by apply (Hm x). Qed.
Lemma triple_pure {A} (phi : Prop) (Pre : FS -> Prop) (m : M A) Q E : (phi -> triple Pre m Q E) -> triple (fun fs => Pre fs /\ phi) m Q E.
Proof. intros Hm s [Hs Hp] Ha. by apply Hm. Qed.
End triples.

(** ** Publishing *)

Section publish.
#[local] Set Default Proof Using "All".
Context {T : Type} `{HT : AttrTable T} `{HC : Codec}.
Context (fs0 : FS) (current previous u : string) (artifact : Artifact T).
Let tmp : string := tmp_name current u ".zst".
Let tmp' : string := tmp_name previous u "".
Definition publish_names : list string := [current; previous; tmp; tmp'].
Context (Hnames : NoDup publish_names) (Hwf : wf_fs fs0) (Hfree : names fs0 !! tmp = None /\ names fs0 !! tmp' = None).

(** What [previous] may be: as it was, or what [current] was. *)
Definition previous_ok (fs : FS) : Prop := names fs !! previous = names fs0 !! previous \/
  (is_Some (names fs0 !! current) /\ names fs !! previous = names fs0 !! current).
Record kept_files (fs : FS) : Prop := {
  kf_wf : wf_fs fs;
  kf_next : (next_inode fs0 <= next_inode fs)%nat;
  kf_old : forall i, (i < next_inode fs0)%nat -> inodes fs !! i = inodes fs0 !! i;
  kf_previous : previous_ok fs }.
(** Before the commit. *)
Record before (fs : FS) : Prop := {
  pr_kept : kept_files fs;
  pr_current : names fs !! current = names fs0 !! current;
  pr_tmp : forall i, names fs !! tmp = Some i -> (next_inode fs0 <= i)%nat;
  pr_link : forall i, names fs !! tmp' = Some i -> names fs0 !! current = Some i }.
Definition made (i : nat) (fs : FS) : Prop := before fs /\ names fs !! tmp = Some i.
Definition holds (i : nat) (fs : FS) : Prop := exists f, inodes fs !! i = Some f /\ lookup_Encode (rows artifact) = Some (content f).
Definition written (i : nat) (fs : FS) : Prop := made i fs /\ holds i fs.
Definition loadable : Prop := exists c info f, load (T := T) tmp info f = inl c /\ lookup_Encode (rows artifact) = Some (content f).
Definition rotated (fs : FS) : Prop := previous <> "" -> is_Some (names fs0 !! current) -> names fs !! previous = names fs0 !! current.
Definition after (fs : FS) : Prop :=
  kept_files fs /\ (exists i, names fs !! current = Some i /\ holds i fs) /\ loadable /\ names fs !! tmp = None /\ rotated fs.
Definition ok (fs : FS) : Prop := before fs \/ after fs.
Notation considers := (considerate publish_names).
Notation triple := (triple publish_names ok).

Lemma distinct : current <> previous /\ current <> tmp /\ current <> tmp' /\ previous <> tmp /\ previous <> tmp' /\ tmp <> tmp'.
Proof.
  clear Hwf Hfree. pose proof Hnames as H. unfold publish_names in H. revert H. rewrite !NoDup_cons, !not_elem_of_cons. tauto.
Qed.
Lemma before_start : before fs0.
Proof.
  destruct Hfree as [F1 F2]. split; [split; [done|done|done|by left]|done|congruence|congruence].
Qed.

Section stable.
Context (a : answer) (fs : FS) (Ha : considers a).
Lemma name_stable p : p ∈ publish_names -> names (meanwhile a fs) !! p = names fs !! p.
Proof. apply (cs_names _ _ Ha). Qed.
#[local] Ltac here := apply name_stable; unfold publish_names; repeat (apply list_elem_of_here || apply list_elem_of_further).
Lemma name_current : names (meanwhile a fs) !! current = names fs !! current. Proof. here. Qed.
Lemma name_previous : names (meanwhile a fs) !! previous = names fs !! previous. Proof. here. Qed.
Lemma name_tmp : names (meanwhile a fs) !! tmp = names fs !! tmp. Proof. here. Qed.
Lemma name_link : names (meanwhile a fs) !! tmp' = names fs !! tmp'. Proof. here. Qed.
Lemma kept_stable : kept_files fs -> kept_files (meanwhile a fs).
Proof.
  intros [K1 K2 K3 K4]. split.
  - by apply (cs_wf _ _ Ha).
  - pose proof (cs_next _ _ Ha fs). lia.
  - intros i Hi. rewrite (cs_inodes _ _ Ha) by lia. by apply K3.
  - unfold previous_ok. by rewrite name_previous.
Qed.
Lemma before_stable : before fs -> before (meanwhile a fs).
Proof.
  intros [K1 K2 K3 K4]. split; [by apply kept_stable|by rewrite name_current|intros i; rewrite name_tmp; apply K3|intros i; rewrite name_link; apply K4].
Qed.
Lemma holds_stable i : (i < next_inode fs)%nat -> holds i fs -> holds i (meanwhile a fs).
Proof. intros Hi (f & Hf & He). exists f. by rewrite (cs_inodes _ _ Ha). Qed.
Lemma made_stable i : made i fs -> made i (meanwhile a fs).
Proof. intros [H1 H2]. split; [by apply before_stable|by rewrite name_tmp]. Qed.
Lemma written_stable i : written i fs -> written i (meanwhile a fs).
Proof.
  intros [H1 H2]. split; [by apply made_stable|]. apply holds_stable; [|done]. destruct H1 as [H1 Hn]. by apply (kf_wf _ (pr_kept _ H1)) in Hn as [? _].
Qed.
Lemma rotated_stable : rotated fs -> rotated (meanwhile a fs).
Proof. unfold rotated. by rewrite name_previous. Qed.
Lemma after_stable : after fs -> after (meanwhile a fs).
Proof.
  intros (K & (i & Hi & Hh) & L & Ht & R). split_and!; [by apply kept_stable| |done|by rewrite name_tmp|by apply rotated_stable].
  exists i. rewrite name_current. split; [done|]. apply holds_stable; [|done]. by apply (kf_wf _ K) in Hi as [? _].
Qed.
End stable.

(** A call that may be refused and changes nothing. *)
Lemma triple_look {A} (Pre : FS -> Prop) (g : FS -> A + error) Q E :
  (forall a fs, considers a -> Pre fs -> Pre (meanwhile a fs)) -> (forall fs, Pre fs -> ok fs) ->
  (forall fs, Pre fs -> match g fs with inl x => Q x fs | inr e => E e fs end) -> (forall e fs, e <> ErrNotExist -> Pre fs -> E e fs) ->
  triple Pre (call (fun a fs => allow a fs (g fs, fs))) Q E.
Proof.
  intros H1 H2 H3 H4. apply triple_call; [done|]. intros a fs Ha Hp. unfold allow. destruct (refused a) as [e|] eqn:Er.
  - split; [by apply H2|]. apply H4; [|done]. intros ->. by apply (cs_refused _ _ Ha).
  - split; [by apply H2|]. by apply H3.
Qed.
Lemma before_new_inode fs i f : before fs -> (next_inode fs0 <= i)%nat -> is_Some (inodes fs !! i) -> before (set_inode i f fs).
Proof.
  intros [[K1 K2 K3 K4] P1 P2 P3] Hi Hs. split; [split|..]; try done.
  - intros p j Hp. destruct (K1 p j Hp) as [Hj Hx]. split; [done|]. cbn. rewrite lookup_insert_is_Some. destruct (decide (i = j)); tauto.
  - intros j Hj. cbn. rewrite lookup_insert_ne by lia. by apply K3.
Qed.
Lemma create_spec : triple before (os_Create tmp) made (fun _ => before).
Proof.
  pose proof distinct as (D1 & D2 & D3 & D4 & D5 & D6). apply triple_call; [intros a fs; apply before_stable|]. intros a fs Ha Hb. unfold allow.
  destruct (refused a); [split; [by left|done]|]. pose proof Hb as [[K1 K2 K3 K4] P1 P2 P3]. destruct (names fs !! tmp) as [i|] eqn:Ei.
  - assert (Hm : made i (set_inode i (mkFile [] (stamp a)) fs)).
    { split; [|done]. apply before_new_inode; [done|by apply P2|by apply (K1 tmp)]. }
    split; [by left; apply Hm|done].
  - set (i := next_inode fs). assert (Hm : made i (mkFS (<[tmp := i]> (names fs)) (<[i := mkFile [] (stamp a)]> (inodes fs)) (S i))).
    { split; [split; [split|..]; cbn|cbn; apply lookup_insert_eq].
      - intros p j. cbn. intros [[<- <-]|[Hne Hp]]%lookup_insert_Some; [split; [lia|by rewrite lookup_insert_eq]|].
        destruct (K1 p j Hp) as [Hj Hx]. split; [unfold i; lia|]. rewrite lookup_insert_ne; [done|]. unfold i. lia.
      - unfold i. lia.
      - intros j Hj. rewrite lookup_insert_ne by (unfold i; lia). by apply K3.
      - unfold previous_ok. cbn. by rewrite lookup_insert_ne.
      - by rewrite lookup_insert_ne.
      - intros j. rewrite lookup_insert_eq. intros [= <-]. done.
      - intros j. rewrite lookup_insert_ne by done. apply P3. }
    split; [by left; apply Hm|done].
Qed.
Lemma made_new i fs : made i fs -> (next_inode fs0 <= i)%nat /\ is_Some (inodes fs !! i).
Proof. intros [Hb Hi]. split; [by apply (pr_tmp _ Hb)|]. by apply (kf_wf _ (pr_kept _ Hb)) in Hi as [_ ?]. Qed.
Lemma made_set i f fs : made i fs -> made i (set_inode i f fs).
Proof. intros H. destruct (made_new i fs H). destruct H. split; [by apply before_new_inode|done]. Qed.
Lemma write_spec : triple before (writeRowsZstd tmp (rows artifact)) (fun _ fs => exists i, written i fs) (fun _ => before).
Proof.
  unfold writeRowsZstd. eapply triple_bind; [apply create_spec|]. intros i. destruct (lookup_Encode (rows artifact)) as [data|] eqn:Ed.
  2: { apply triple_call; [intros a fs Hc; by apply made_stable|]. intros a fs Ha Hm. apply made_set with (f := mkFile (partial a) (stamp a)) in Hm as [Hm _].
       split; [by left|done]. }
  eapply (triple_bind _ _ _ _ _ (fun _ => written i)).
  - apply triple_call; [intros a fs Hc; by apply made_stable|]. intros a fs Ha Hm. destruct (refused a) as [e|].
    + apply made_set with (f := mkFile (partial a) (stamp a)) in Hm as [Hm _]. split; [by left|done].
    + assert (W : written i (set_inode i (mkFile data (stamp a)) fs)).
      { split; [by apply made_set|]. exists (mkFile data (stamp a)). cbn. by rewrite lookup_insert_eq. }
      split; [left; apply W|done].
  - intros _. eapply (triple_bind _ _ _ _ _ (fun _ => written i)); [|intros _];
      (apply triple_look; [intros a fs Hc; by apply written_stable|intros fs H; left; apply H|intros fs H; (exact H || by exists i)|intros e fs _ H; apply H]).
Qed.
Lemma load_spec i : triple (written i) (LoadArtifact tmp) (fun _ fs => written i fs /\ loadable) (fun _ => before).
Proof.
  assert (Hst : forall a fs, considers a -> written i fs -> written i (meanwhile a fs)) by (intros a fs Hc; by apply written_stable).
  unfold LoadArtifact. eapply (triple_bind _ _ _ _ _ (fun _ => written i)).
  { apply triple_look; [done|intros fs H; left; apply H| |intros e fs _ H; apply H]. intros fs H. destruct (file_at tmp fs); [done|apply H]. }
  intros info. eapply (triple_bind _ _ _ _ _ (fun f fs => written i fs /\ lookup_Encode (rows artifact) = Some (content f))).
  { apply triple_look; [done|intros fs H; left; apply H| |intros e fs _ H; apply H]. intros fs H. unfold file_at.
    destruct H as [[Hb Hi] (f & Hf & He)]. rewrite Hi. cbn. rewrite Hf. cbn. split; [|done]. split; [done|]. by exists f. }
  intros f s [Hs He] Ha. destruct (load tmp info f) as [c|e] eqn:El; (split; [done|split; [exists []; by rewrite app_nil_r|]]).
  - split; [done|]. by exists c, info, f.
  - apply Hs.
Qed.

Definition linked (i j : nat) (fs : FS) : Prop := written i fs /\ names fs0 !! current = Some j /\ names fs !! tmp' = Some j.
Lemma written_names i fs fs' : written i fs -> wf_fs fs' -> next_inode fs' = next_inode fs -> inodes fs' = inodes fs ->
  names fs' !! current = names fs !! current -> names fs' !! tmp = names fs !! tmp -> previous_ok fs' ->
  (forall j, names fs' !! tmp' = Some j -> names fs0 !! current = Some j) -> written i fs'.
Proof.
  intros [[[[K1 K2 K3 K4] P1 P2 P3] Hi] (f & Hf & He)] W N I C Tm Pr L. split; [split; [split; [split|..]|]|].
  - done.
  - by rewrite N.
  - intros j Hj. rewrite I. by apply K3.
  - done.
  - by rewrite C.
  - intros j. rewrite Tm. apply P2.
  - done.
  - by rewrite Tm.
  - exists f. by rewrite I.
Qed.
Lemma delete_wf p fs : wf_fs fs -> wf_fs (mkFS (delete p (names fs)) (inodes fs) (next_inode fs)).
Proof. intros W q j H. cbn in H. apply lookup_delete_Some in H as [_ H]. by apply (W q). Qed.
Lemma insert_wf p q j fs : wf_fs fs -> names fs !! q = Some j -> wf_fs (set_name p j fs).
Proof. intros W Hq x k H. cbn in H. apply lookup_insert_Some in H as [[_ <-]|[_ H]]; [by apply (W q)|by apply (W x)]. Qed.
Lemma link_spec i : triple (fun fs => written i fs) (os_Link current tmp') (fun _ fs => exists j, linked i j fs) (fun _ => before).
Proof.
  pose proof distinct as (D1 & D2 & D3 & D4 & D5 & D6). apply triple_call; [intros a fs Hc; by apply written_stable|]. intros a fs Ha H. unfold allow.
  assert (Hb : before fs) by apply H. destruct (refused a); [split; [by left|done]|]. destruct (names fs !! current) as [j|] eqn:Ej; [|split; [by left|done]].
  destruct (names fs !! tmp') as [|] eqn:El; [split; [by left|done]|]. assert (Hj : names fs0 !! current = Some j) by (by rewrite <- (pr_current _ Hb)).
  assert (W : written i (set_name tmp' j fs)).
  { apply (written_names i fs); try done; cbn.
    - by apply (insert_wf tmp' current), Ej; apply (kf_wf _ (pr_kept _ Hb)).
    - by rewrite lookup_insert_ne.
    - by rewrite lookup_insert_ne.
    - unfold previous_ok. cbn. rewrite lookup_insert_ne by done. apply (kf_previous _ (pr_kept _ Hb)).
    - intros k. rewrite lookup_insert_eq. by intros [= <-]. }
  split; [left; apply W|]. exists j. split_and!; [done|done|apply lookup_insert_eq].
Qed.
Lemma rename_previous_spec i j : triple (linked i j) (os_Rename tmp' previous) (fun _ fs => written i fs /\ rotated fs) (fun _ => linked i j).
Proof.
  pose proof distinct as (D1 & D2 & D3 & D4 & D5 & D6). apply triple_call.
  { intros a fs Hc (H1 & H2 & H3). split_and!; [by apply written_stable|done|by rewrite name_link]. }
  intros a fs Ha H. pose proof H as (Hw & Hj & Hl). assert (Hb : before fs) by apply Hw. unfold allow.
  destruct (refused a); [split; [by left|done]|]. rewrite Hl. case_decide as Hs.
  - split; [by left|]. split; [done|]. intros _ _. congruence.
  - set (fs' := mkFS _ _ _). assert (Hp : names fs' !! previous = Some j) by (cbn; rewrite lookup_delete_ne by done; apply lookup_insert_eq).
    assert (W : written i fs').
    { apply (written_names i fs); try done; cbn.
      - apply (delete_wf tmp' (set_name previous j fs)). by apply (insert_wf previous tmp'); [apply (kf_wf _ (pr_kept _ Hb))|].
      - by rewrite lookup_delete_ne, lookup_insert_ne.
      - by rewrite lookup_delete_ne, lookup_insert_ne.
      - right. split; [by eexists|]. by rewrite Hp.
      - intros k. by rewrite lookup_delete_eq. }
    split; [left; apply W|]. split; [done|]. intros _ _. by rewrite Hp.
Qed.
Lemma remove_link_spec i j : triple (linked i j) (os_Remove tmp') (fun _ => before) (fun _ => before).
Proof.
  pose proof distinct as (D1 & D2 & D3 & D4 & D5 & D6). apply triple_call.
  { intros a fs Hc (H1 & H2 & H3). split_and!; [by apply written_stable|done|by rewrite name_link]. }
  intros a fs Ha H. pose proof H as (Hw & Hj & Hl). assert (Hb : before fs) by apply Hw. unfold allow.
  destruct (refused a); [split; [by left|done]|]. rewrite Hl. set (fs' := mkFS _ _ _).
  assert (W : written i fs').
  { apply (written_names i fs); try done; cbn.
    - apply delete_wf. apply (kf_wf _ (pr_kept _ Hb)).
    - by rewrite lookup_delete_ne.
    - by rewrite lookup_delete_ne.
    - unfold previous_ok. cbn. rewrite lookup_delete_ne by done. apply (kf_previous _ (pr_kept _ Hb)).
    - intros k. by rewrite lookup_delete_eq. }
  split; [left|]; apply W.
Qed.
Lemma preserve_spec i : triple (written i) (preservePrevious current previous u) (fun _ fs => written i fs /\ rotated fs) (fun _ => before).
Proof.
  unfold preservePrevious. fold tmp'.
  eapply (triple_bind _ _ _ _ _ (fun r fs => written i fs /\ (r = inr ErrNotExist -> names fs0 !! current = None))).
  { apply triple_catch. apply triple_look; [intros a fs Hc; by apply written_stable|intros fs H; left; apply H| |].
    - intros fs H. destruct (file_at current fs) as [f|] eqn:Ef; cbn; (split; [done|]); [done|]. intros _.
      rewrite <- (pr_current fs) by apply H. unfold file_at in Ef. destruct (names fs !! current) as [k|] eqn:Ek; [|done].
      apply (kf_wf fs) in Ek as [_ [x Hx]]; [|apply H]. cbn in Ef. congruence.
    - intros e fs He H. split; [done|]. congruence. }
  intros [f|e].
  - eapply (triple_pre _ _ (written i)); [by intros fs [H _]|]. eapply triple_bind; [apply link_spec|]. intros ?. cbv beta. apply triple_exists. intros j.
    eapply (triple_bind _ _ _ _ _ (fun r fs => match r with inl _ => written i fs /\ rotated fs | inr _ => linked i j fs end)).
    { apply triple_catch, rename_previous_spec. }
    intros [[]|e]; [by apply triple_ret|].
    eapply (triple_bind _ _ _ _ _ (fun _ => before)); [apply triple_catch, (remove_link_spec i j)|]. intros r. by apply triple_fail.
  - case_decide as He.
    + apply triple_ret. intros fs [H Hn]. split; [done|]. intros _ [k Hk]. rewrite Hn in Hk; congruence.
    + apply triple_fail. intros fs [H _]. apply H.
Qed.
Lemma commit_spec i : triple (fun fs => written i fs /\ loadable /\ rotated fs) (os_Rename tmp current) (fun _ => after) (fun _ => before).
Proof.
  pose proof distinct as (D1 & D2 & D3 & D4 & D5 & D6). apply triple_call.
  { intros a fs Hc (H1 & H2 & H3). split_and!; [by apply written_stable|done|by apply rotated_stable]. }
  intros a fs Ha (Hw & L & R). assert (Hb : before fs) by apply Hw. unfold allow. destruct (refused a); [split; [by left|done]|].
  pose proof Hw as [[_ Ht] Hh]. rewrite Ht. pose proof (pr_tmp _ Hb i Ht) as Hi. rewrite decide_False.
  2: { rewrite (pr_current _ Hb). intros E. apply Hwf in E as [? _]. lia. }
  pose proof (pr_kept _ Hb) as [K1 K2 K3 K4]. set (fs' := mkFS _ _ _). assert (A : after fs').
  { split_and!; [split| |done|cbn; apply lookup_delete_eq|].
    - apply (delete_wf tmp (set_name current i fs)). by apply (insert_wf current tmp).
    - done.
    - done.
    - unfold previous_ok. cbn. by rewrite lookup_delete_ne, lookup_insert_ne.
    - exists i. cbn. by rewrite lookup_delete_ne, lookup_insert_eq.
    - unfold rotated. cbn. by rewrite lookup_delete_ne, lookup_insert_ne. }
  split; [by right|done].
Qed.
Lemma body_spec baseline : triple before (publish_body current previous tmp u artifact baseline) (fun _ => after) (fun _ => before).
Proof.
  unfold publish_body. eapply triple_bind; [apply write_spec|]. intros ?. cbv beta. apply triple_exists. intros i.
  eapply triple_bind; [apply load_spec|]. intros c. destruct (validateCacheCandidate _ _ _); [|apply triple_fail; intros fs [H _]; apply H].
  apply triple_pure. intros L. eapply (triple_bind _ _ _ _ _ (fun _ fs => written i fs /\ loadable /\ rotated fs)).
  - case_decide as Hp.
    + eapply triple_weaken; [apply preserve_spec|done| |done]. intros _ fs [H1 H2]. by split_and!.
    + apply triple_ret. intros fs H. split_and!; [done|done|]. by intros Hp'.
  - intros ?. eapply triple_bind; [apply commit_spec|]. intros ?. by apply triple_ret.
Qed.
Lemma cleanup_spec : triple before (os_Remove tmp) (fun _ fs => before fs /\ names fs !! tmp = None)
  (fun e fs => before fs /\ (e = ErrNotExist -> names fs !! tmp = None)).
Proof.
  pose proof distinct as (D1 & D2 & D3 & D4 & D5 & D6). apply triple_call; [intros a fs; apply before_stable|]. intros a fs Ha Hb. unfold allow.
  destruct (refused a) as [e|] eqn:Er.
  { split; [by left|]. split; [done|]. intros ->. by destruct (cs_refused _ _ Ha). }
  destruct (names fs !! tmp) as [i|] eqn:Ei; [|split; [by left|done]]. pose proof Hb as [[K1 K2 K3 K4] P1 P2 P3]. set (fs' := mkFS _ _ _).
  assert (B : before fs').
  { split; [split|..]; cbn; try done.
    - by apply delete_wf.
    - unfold previous_ok. cbn. by rewrite lookup_delete_ne.
    - by rewrite lookup_delete_ne.
    - intros j. by rewrite lookup_delete_eq.
    - intros j. rewrite lookup_delete_ne by done. apply P3. }
  split; [by left|]. split; [done|]. apply lookup_delete_eq.
Qed.
Lemma publish_spec baseline : triple (fun fs => before fs /\ names fs !! tmp = None)
  (PublishLookupCache current previous u artifact baseline) (fun _ => after)
  (fun e fs => (before fs /\ (names fs !! tmp = None \/ exists e1 e2, e = Join e1 e2)) \/ after fs).
Proof.
  unfold PublishLookupCache. case_decide as Hr; [apply triple_fail; intros fs [H1 H2]; left; split; [done|by left]|].
  eapply (triple_bind _ _ _ _ _ (fun _ => before)).
  { apply triple_look.
    - intros a fs Hc [H1 H2]. split; [by apply before_stable|by rewrite name_tmp].
    - intros fs [H _]. by left.
    - by intros fs [H _].
    - intros e fs _ [H1 H2]. left. split; [done|by left]. }
  intros []. fold tmp. eapply (triple_bind _ _ _ _ _ (fun r fs => match r with inl _ => after fs | inr _ => before fs end)).
  { apply triple_catch, body_spec. }
  intros [st|e].
  - eapply (triple_bind _ _ _ _ _ (fun _ => after)); [|intros _; by apply triple_ret].
    apply triple_look; [intros a fs Hc; by apply after_stable|by right|done|by right].
  - eapply (triple_bind _ _ _ _ _ (fun r fs => before fs /\ (r = inl tt \/ r = inr ErrNotExist -> names fs !! tmp = None))).
    { apply triple_catch. eapply triple_weaken; [apply cleanup_spec|done|..].
      - intros [] fs [H1 H2]. by split.
      - intros e' fs [H1 H2]. split; [done|]. intros [?|[= ->]]; [done|by apply H2]. }
    intros r. apply triple_fail. intros fs [H1 H2]. left. split; [done|]. destruct r as [[]|e']; [left; apply H2; by left|].
    case_decide as He; [left; apply H2; right; by rewrite He|right; by eexists _, _].
Qed.
End publish.

(** ** What a publication leaves *)

Lemma HasSuffix_app p suf : HasSuffix (p +:+ suf) suf = true.
Proof.
  assert (Hs : forall s, HasSuffix s s = true) by (intros []; cbn; by rewrite bool_decide_eq_true_2).
  induction p as [|c p IH]; [apply Hs|]. change (String c p +:+ suf) with (String c (p +:+ suf)). cbn [HasSuffix]. by rewrite IH, orb_true_r.
Qed.
Lemma append_assoc (a b c : string) : (a +:+ b) +:+ c = a +:+ (b +:+ c).
Proof. induction a as [|x a IH]; [done|]. change (String x ((a +:+ b) +:+ c) = String x (a +:+ (b +:+ c))). by rewrite IH. Qed.
Section published.
Context {T : Type} `{HT : AttrTable T} `{HC : Codec} {CL : CodecLaws}.

(** The file of a name is there and loads as the artifact's table. *)
Definition serves (p : string) (a : Artifact T) (fs : FS) : Prop :=
  exists f c, file_at p fs = Some f /\ load p f f = inl c /\ table c = table a /\ rows c = rows a.
Lemma after_serves fs0 current previous u a fs : HasSuffix current ".zst" = true -> artifact_wf a -> after fs0 current previous u a fs -> serves current a fs.
Proof using CL.
  intros Hs Ha (_ & (i & Hi & f & Hf & He) & (c & info & g & Hl & Hg) & _). assert (Hc : content f = content g) by congruence.
  assert (Ht : HasSuffix (tmp_name current u ".zst") ".zst" = true) by (unfold tmp_name; rewrite <- !append_assoc; apply HasSuffix_app).
  destruct (load_again _ current info f g f c Ht Hs (eq_sym Hc) Hl) as (c' & Hl' & E1 & E2). destruct (load_copy a _ info g c _ Ha Ht Hg eq_refl Hl) as [E3 E4].
  exists f, c'. split_and!; [unfold file_at; rewrite Hi; exact Hf|done|congruence|congruence].
Qed.
Lemma kept_file fs0 current previous fs q q' : wf_fs fs0 -> kept_files fs0 current previous fs -> names fs !! q = names fs0 !! q' ->
  file_at q fs = file_at q' fs0.
Proof.
  intros W K E. unfold file_at. rewrite E. destruct (names fs0 !! q') as [i|] eqn:Hi; [|done]. cbn. apply (kf_old _ _ _ _ K). by apply W in Hi as [? _].
Qed.
Lemma previous_file fs0 current previous fs : wf_fs fs0 -> kept_files fs0 current previous fs ->
  file_at previous fs = file_at previous fs0 \/ (is_Some (file_at current fs0) /\ file_at previous fs = file_at current fs0).
Proof.
  intros W K. destruct (kf_previous _ _ _ _ K) as [E|[[i Hi] E]]; [left|right; split]; [by eapply kept_file| |by eapply kept_file].
  unfold file_at. rewrite Hi. by apply W in Hi as [_ ?].
Qed.

(** C23: publishing a copy of the table in service to a path that ends in .zst (as
    the default cache path does; the copy is compressed, and a reader goes by the
    suffix) is all or nothing, and what it leaves is worth starting from.
    Whatever call is refused, with whatever left
    half written, and wherever the process stops: after each call the current
    copy is the one there was or one that loads as the very table that was
    published, and the previous copy is the one there was or the current one
    there was. On success the new copy is current, the old one previous, and the
    temporary file gone; on failure too, unless its removal is refused as well,
    which the error says. *)
Theorem publish_atomic fs0 answers current previous u (a : Artifact T) baseline r s' :
  NoDup (publish_names current previous u) -> wf_fs fs0 ->
  names fs0 !! tmp_name current u ".zst" = None -> names fs0 !! tmp_name previous u "" = None ->
  Forall (considerate (publish_names current previous u)) answers -> artifact_wf a -> HasSuffix current ".zst" = true ->
  PublishLookupCache current previous u a baseline (mkSys fs0 [] answers) = (r, s') ->
  Forall (fun fs => (file_at current fs = file_at current fs0 \/ serves current a fs) /\
    (file_at previous fs = file_at previous fs0 \/ (is_Some (file_at current fs0) /\ file_at previous fs = file_at current fs0))) (trace s') /\
  match r with
  | inl _ => serves current a (fs s') /\ names (fs s') !! tmp_name current u ".zst" = None /\
      (previous <> "" -> is_Some (file_at current fs0) -> file_at previous (fs s') = file_at current fs0)
  | inr e => names (fs s') !! tmp_name current u ".zst" = None \/ exists e1 e2, e = Join e1 e2
  end.
Proof using CL.
  intros Hn W F1 F2 Ha Hart Hsuf E. pose proof (before_start fs0 current previous u a Hn W (conj F1 F2)) as Hb.
  assert (Hafter : forall fs, after fs0 current previous u a fs -> serves current a fs) by (intros fs; by apply after_serves).
  pose proof (publish_spec fs0 current previous u a Hn W (conj F1 F2) baseline (mkSys fs0 [] answers) (conj Hb F1) Ha) as H. rewrite E in H.
  destruct H as (_ & (l & El & Hl) & Hr). cbn in El. rewrite El. split.
  - eapply Forall_impl; [exact Hl|]. intros fs [H|H]; (split; [|by eapply previous_file; [|apply H]]); [left|right; by apply Hafter].
    eapply kept_file; [done|apply H|]. apply H.
  - destruct r as [st|e].
    + split_and!; [by apply Hafter|apply Hr|]. intros Hp [f Hf]. eapply kept_file; [done|apply Hr|]. apply Hr; [done|].
      unfold file_at in Hf. destruct (names fs0 !! current); [by eexists|done].
    + destruct Hr as [[_ H]|H]; [exact H|left; apply H].
Qed.
End published.

(** ** Starting from the copies *)

Section start.
Context {T : Type} `{HT : AttrTable T} `{HC : Codec} {CL : CodecLaws}.

Definition index_of (a : Artifact T) (info : File) : Index :=
  mkIndex (Some (table a)) (mtime info) (glen (content info)) (Prefixes (stats a)) (SourcePath (stats a)) (SourceKind (stats a))
    (CompressedBytes (stats a)) (DecompressedBytes (stats a)).
(** With nobody else about and no call refused. *)
Definition alone (fs : FS) : sys := mkSys fs [] [].
Lemma load_first_found p l fs tr f (c : Artifact T) ix : p <> "" -> file_at p fs = Some f -> load p f f = inl c ->
  exists s', load_first (p :: l) ix (mkSys fs tr []) = (Some p, index_of c f, s').
Proof.
  intros Hp Hf Hl. cbn [load_first]. rewrite decide_False by done. unfold reloadLocked, LoadArtifact, Mbind, os_Stat, os_Open, call, allow.
  repeat (cbn -[file_at load]; rewrite Hf). cbn -[load]. rewrite Hl. by eexists.
Qed.

(** C25: with a cache path that ends in .zst (the copy is compressed, and a reader
    goes by the suffix), a daemon that starts again after a publication was cut
    short, at whatever call and after whatever refusals, has a table: if the current copy
    loaded before, it now loads the same table from it, or the table whose
    publication was under way; it need not fall back. *)
Theorem restart_after_crash fs0 answers current previous boot u (a : Artifact T) baseline r s' fs f0 c0 :
  NoDup (publish_names current previous u) -> wf_fs fs0 ->
  names fs0 !! tmp_name current u ".zst" = None -> names fs0 !! tmp_name previous u "" = None ->
  Forall (considerate (publish_names current previous u)) answers -> artifact_wf a -> HasSuffix current ".zst" = true ->
  PublishLookupCache current previous u a baseline (mkSys fs0 [] answers) = (r, s') -> fs ∈ trace s' ->
  file_at current fs0 = Some f0 -> load current f0 f0 = inl c0 ->
  exists ix s2, load_first [current; previous; boot] no_index (alone fs) = (Some current, ix, s2) /\
    (tbl ix = Some (table c0) \/ tbl ix = Some (table a)).
Proof using CL.
  intros Hn W F1 F2 Ha Hart Hsuf E Hin Hf0 Hl0. pose proof (publish_spec fs0 current previous u a Hn W (conj F1 F2) baseline (mkSys fs0 [] answers)) as H.
  rewrite E in H. destruct (H (conj (before_start fs0 current previous u a Hn W (conj F1 F2)) F1) Ha) as (_ & (l & El & Hl) & _). cbn in El. rewrite El in Hin.
  rewrite Forall_forall in Hl. assert (Hc : current <> "") by (intros ->; done). destruct (Hl fs Hin) as [B|A].
  - assert (Hf : file_at current fs = Some f0) by (rewrite <- Hf0; eapply kept_file; [done|apply B|apply B]).
    destruct (load_first_found current [previous; boot] fs [] f0 c0 no_index Hc Hf Hl0) as [s2 Es]. exists (index_of c0 f0), s2. split; [exact Es|by left].
  - destruct (after_serves _ _ _ _ _ _ Hsuf Hart A) as (f & c & Hf & Hl1 & Et & _).
    destruct (load_first_found current [previous; boot] fs [] f c no_index Hc Hf Hl1) as [s2 Es]. exists (index_of c f), s2. split; [exact Es|right]. cbn. by rewrite Et.
Qed.
End start.

(** ** Refreshing *)

Section refresh.
Context {T : Type} `{HT : AttrTable T} `{HC : Codec}.
Context (path : string) (H : list FS).

Definition at_call (n : nat) : option File := fs ← H !! n; file_at path fs.
Definition stamp_of (f : File) : Z * Z := (glen (content f), mtime f).
(** [H] is the file system after each call of a run, in which no file under the
    name comes back with the size and time of one that was replaced. *)
Definition unrepeated : Prop := forall i j k f g, (i <= j <= k)%nat -> at_call i = Some f -> at_call k = Some g -> stamp_of f = stamp_of g -> at_call j = Some f.
Definition stamp_in (ix : Index (T := T)) : Z * Z := (loadedSize ix, loadedMod ix).
(** The index is empty or from another artifact than this name's. *)
Definition foreign (ix : Index) : Prop := tbl ix = None \/ forall i f, at_call i = Some f -> stamp_of f <> stamp_in ix.
Inductive serving : Index -> sys -> Prop :=
  | serving_start ix s : foreign ix -> serving ix s
  | serving_other ix s s' : serving ix s -> trace s `prefix_of` trace s' -> serving ix s'
  | serving_reload ix s force r ix' s' : serving ix s -> reloadLocked path force ix s = (inl (r, ix'), s') -> serving ix' s'.
Definition loaded (ix : Index) (n : nat) : Prop := exists i j k f1 f2 f3 a, (i <= j <= k)%nat /\ (k < n)%nat /\
  at_call i = Some f1 /\ at_call j = Some f2 /\ at_call k = Some f3 /\ load path f2 f3 = inl a /\ tbl ix = Some (table a) /\ stamp_of f1 = stamp_in ix.

Lemma look_spec p s (r : File + error) s' : os_Stat p s = (r, s') -> exists fs1, trace s' = trace s ++ [fs1] /\ forall f, r = inl f -> file_at p fs1 = Some f.
Proof.
  unfold os_Stat, call. destruct (answers s) as [|a l]; unfold allow; [cbn [granted refused meanwhile]|destruct (refused a)]; intros [= <- <-]; cbn; (eexists; split; [done|]);
    intros f; (done || (destruct (file_at p _); cbn; congruence)).
Qed.
Lemma reload_cases force ix s r ix' s' : reloadLocked path force ix s = (inl (r, ix'), s') ->
  (ix' = ix /\ force = false /\ exists fs1 f, trace s' = trace s ++ [fs1] /\ file_at path fs1 = Some f /\ is_Some (tbl ix) /\ stamp_of f = stamp_in ix) \/
  (exists fs1 fs2 fs3 f1 f2 f3 a, trace s' = trace s ++ [fs1; fs2; fs3] /\ file_at path fs1 = Some f1 /\ file_at path fs2 = Some f2 /\ file_at path fs3 = Some f3 /\
     load path f2 f3 = inl a /\ ix' = index_of a f1).
Proof.
  unfold reloadLocked, Mbind. destruct (os_Stat path s) as [[info|e] s1] eqn:E1; [|done]. apply look_spec in E1 as (fs1 & T1 & F1). specialize (F1 _ eq_refl).
  destruct (negb force && _ && _ && _) eqn:Eb.
  - intros [= <- <- <-]. left. split; [done|]. apply andb_true_iff in Eb as [Eb E4]. apply andb_true_iff in Eb as [Eb E3]. apply andb_true_iff in Eb as [E1 E2].
    split; [by apply negb_true_iff in E1|]. exists fs1, info.
    apply bool_decide_eq_true_1 in E2, E3, E4. split_and!; [done|done|done|]. unfold stamp_of, stamp_in. by rewrite E3, E4.
  - unfold LoadArtifact, Mbind. destruct (os_Stat path s1) as [[f2|e] s2] eqn:E2; [|done]. apply look_spec in E2 as (fs2 & T2 & F2). specialize (F2 _ eq_refl).
    change os_Open with os_Stat. destruct (os_Stat path s2) as [[f3|e] s3] eqn:E3; [|done]. apply look_spec in E3 as (fs3 & T3 & F3). specialize (F3 _ eq_refl).
    destruct (load path f2 f3) as [a|e] eqn:El; [|done]. intros [= <- <- <-]. right. exists fs1, fs2, fs3, info, f2, f3, a.
    rewrite T3, T2, T1, <- !app_assoc. by split_and!.
Qed.
Lemma prefix_at tr n fs : tr `prefix_of` H -> tr !! n = Some fs -> H !! n = Some fs.
Proof. intros Hp Hn. by eapply prefix_lookup_Some. Qed.
Lemma at_new tr l n fs f : (tr ++ l) `prefix_of` H -> l !! n = Some fs -> file_at path fs = Some f -> at_call (length tr + n) = Some f.
Proof.
  intros Hp Hl Hf. unfold at_call. erewrite prefix_at; [cbn; exact Hf|exact Hp|]. rewrite lookup_app_r by lia. by replace (length tr + n - length tr)%nat with n by lia.
Qed.
Lemma loaded_later ix n m : loaded ix n -> (n <= m)%nat -> loaded ix m.
Proof. intros (i & j & k & f1 & f2 & f3 & a & Hi & Hk & Hx) Hm. exists i, j, k, f1, f2, f3, a. split; [done|split; [lia|done]]. Qed.
Lemma serving_loaded ix s : serving ix s -> trace s `prefix_of` H -> foreign ix \/ loaded ix (length (trace s)).
Proof.
  induction 1 as [ix s Hf|ix s s' _ IH Hs|ix s force r ix' s' _ IH E]; intros Hp; [by left|..].
  - destruct IH as [IH|IH]; [by etrans|by left|right]. eapply loaded_later; [done|]. by apply prefix_length.
  - destruct (reload_cases _ _ _ _ _ _ E) as [(-> & _ & fs1 & f & Et & _)|(fs1 & fs2 & fs3 & f1 & f2 & f3 & a & Et & F1 & F2 & F3 & Hl & ->)]; rewrite Et in Hp |- *.
    + destruct IH as [IH|IH]; [by eapply prefix_app_l|by left|right]. eapply loaded_later; [done|]. rewrite length_app. lia.
    + right. exists (length (trace s) + 0)%nat, (length (trace s) + 1)%nat, (length (trace s) + 2)%nat, f1, f2, f3, a. rewrite length_app. cbn [length].
      split_and!; try lia; try done; by eapply at_new.
Qed.

(** C26: a refresh serves the artifact that is there. However often the artifact
    was replaced before, also in the middle of a reload, whether this reload is
    forced, finds the file changed or skips it as the one in service: if it
    reports no error and the file stays as it is meanwhile, the table then in
    service is that file's. A refresh that is not forced knows the file by its
    size and modification time; for it the claim assumes that no file comes back
    under the name with the size and time of one that was replaced. *)
Theorem refresh_serves_current ix s force r ix' s' f : (force = false -> unrepeated) -> serving ix s ->
  reloadLocked path force ix s = (inl (r, ix'), s') -> trace s' `prefix_of` H ->
  (forall n, (length (trace s) <= n < length (trace s'))%nat -> at_call n = Some f) ->
  exists a, load path f f = inl a /\ tbl ix' = Some (table a).
Proof.
  intros Hu Hs E Hp Hc. destruct (reload_cases _ _ _ _ _ _ E) as [(-> & Hnf & fs1 & g & Et & Fg & Ht & Hg)|(fs1 & fs2 & fs3 & f1 & f2 & f3 & a & Et & F1 & F2 & F3 & Hl & ->)];
    rewrite Et in Hp, Hc; rewrite length_app in Hc; cbn [length] in Hc.
  - specialize (Hu Hnf). pose proof (Hc (length (trace s)) ltac:(lia)) as Hn. assert (g = f) as ->.
    { pose proof (at_new (trace s) [fs1] 0 fs1 g Hp eq_refl Fg) as Hn'. rewrite Nat.add_0_r in Hn'. congruence. }
    destruct (serving_loaded ix s Hs) as [[Hf|Hf]|(i & j & k & f1 & f2 & f3 & a & Hi & Hk & A1 & A2 & A3 & Hl & Htb & Hst)]; [by eapply prefix_app_l|..].
    + rewrite Hf in Ht. by destruct Ht.
    + by destruct (Hf _ _ Hn).
    + rewrite <- Hg in Hst. assert (H2 : at_call j = Some f1) by (apply (Hu i j (length (trace s)) f1 f); (done || lia)).
      assert (H3 : at_call k = Some f1) by (apply (Hu i k (length (trace s)) f1 f); (done || lia)).
      assert (H4 : at_call (length (trace s)) = Some f1) by (apply (Hu i (length (trace s)) (length (trace s)) f1 f); (done || lia)).
      exists a. split; [|done]. congruence.
  - exists a. assert (f2 = f) as ->.
    { pose proof (at_new (trace s) _ 1 fs2 f2 Hp eq_refl F2) as H2. rewrite (Hc _) in H2 by lia. congruence. }
    assert (f3 = f) as ->.
    { pose proof (at_new (trace s) _ 2 fs3 f3 Hp eq_refl F3) as H3. rewrite (Hc _) in H3 by lia. congruence. }
    done.
Qed.
End refresh.

(** ** The sanity window *)

Lemma log2_bounds m : 0 < m -> 2 ^ Z.log2 m <= m < 2 * 2 ^ Z.log2 m.
Proof. intros H. pose proof (Z.log2_spec m H) as [H1 H2]. rewrite Z.pow_succ_r in H2 by apply Z.log2_nonneg. lia. Qed.
Lemma round_exact m : 0 <= m < 2 ^ 53 -> round_nat m = m.
Proof.
  intros H. unfold round_nat. rewrite decide_True; [done|]. destruct (decide (m = 0)) as [->|Hm]; [done|].
  pose proof (proj1 (Z.log2_lt_pow2 m 53 ltac:(lia)) ltac:(lia)). lia.
Qed.
Lemma pow_pred s : 0 < s -> 2 ^ s = 2 * 2 ^ (s - 1).
Proof. intros H. rewrite <- Z.pow_succ_r by lia. f_equal. lia. Qed.
Lemma round_err m : 0 <= m -> 2 ^ 53 * Z.abs (round_nat m - m) <= m.
Proof.
  intros Hm. unfold round_nat. cbv zeta. case_decide as Hs; [rewrite Z.sub_diag; lia|]. set (s := Z.log2 m - 52) in *.
  destruct (decide (m = 0)) as [->|H0]; [done|]. pose proof (log2_bounds m ltac:(lia)) as [Hl _].
  assert (E : 2 ^ Z.log2 m = 2 ^ 52 * 2 ^ s) by (rewrite <- Z.pow_add_r by lia; f_equal; unfold s; lia).
  pose proof (pow_pred s ltac:(lia)) as Ep. set (half := 2 ^ (s - 1)) in *. assert (Hh : 0 < half) by (apply Z.pow_pos_nonneg; lia).
  pose proof (Z.div_mod m (2 ^ s) ltac:(lia)) as Ed. pose proof (Z.mod_pos_bound m (2 ^ s) ltac:(lia)) as Hr.
  set (q := m / 2 ^ s) in *. set (r := m mod 2 ^ s) in *. enough (Hd : Z.abs ((if decide (half < r \/ (r = half /\ Z.odd q = true)) then q + 1 else q) * 2 ^ s - m) <= half) by lia.
  case_decide as Hc; nia.
Qed.
(** A value nearer than half a unit is rounded to. *)
Lemma round_near m x : 0 < m -> let s := Z.log2 m - 52 in 0 < s -> (2 ^ s | x) -> 2 * Z.abs (m - x) < 2 ^ s -> round_nat m = x.
Proof.
  intros Hm s Hs [k ->] Hd. unfold round_nat. cbv zeta. fold s. rewrite decide_False by lia. pose proof (pow_pred s ltac:(lia)) as Ep. set (half := 2 ^ (s - 1)) in *.
  destruct (decide (k * 2 ^ s <= m)) as [Hle|Hlt].
  - assert (Eq : m / 2 ^ s = k) by (symmetry; apply (Z.div_unique_pos _ _ _ (m - k * 2 ^ s)); lia).
    assert (Er : m mod 2 ^ s = m - k * 2 ^ s) by (symmetry; apply (Z.mod_unique_pos _ _ k); lia).
    rewrite Eq, Er. rewrite decide_False by lia. done.
  - assert (Eq : m / 2 ^ s = k - 1) by (symmetry; apply (Z.div_unique_pos _ _ _ (m - (k - 1) * 2 ^ s)); lia).
    assert (Er : m mod 2 ^ s = m - (k - 1) * 2 ^ s) by (symmetry; apply (Z.mod_unique_pos _ _ (k - 1)); lia).
    rewrite Eq, Er. rewrite decide_True by lia. f_equal. lia.
Qed.
Lemma round53_nonneg m : 0 <= m -> round53 m = round_nat m.
Proof. intros H. unfold round53. destruct (decide (m = 0)) as [->|]; [done|]. rewrite Z.sgn_pos, Z.abs_eq by lia. lia. Qed.
Definition low_factor : Z := 14411518807585588.
Definition high_factor : Z := 21617278211378380.
Lemma delta_factors : fsub f_one DefaultCacheSanityDelta = mkFloat low_factor 54 /\ fadd f_one DefaultCacheSanityDelta = mkFloat high_factor 54.
Proof. split; vm_compute; reflexivity. Qed.
Lemma product_near g d : 0 < g < 2 ^ 53 -> Z.abs d <= g -> (d < 0 -> 3 * Z.abs d <= 2 * g) -> round_nat (g * 2 ^ 54 + d) = g * 2 ^ 54.
Proof.
  intros Hg Hd Hn. pose proof (log2_bounds g ltac:(lia)) as [L1 L2]. set (L := Z.log2 g) in *. assert (HL : 0 <= L) by apply Z.log2_nonneg.
  assert (HL52 : L <= 52) by (pose proof (proj1 (Z.log2_lt_pow2 g 53 ltac:(lia)) ltac:(lia)); unfold L; lia). set (p := 2 ^ L) in *.
  assert (E54 : 2 ^ (L + 54) = p * 2 ^ 54) by (by rewrite Z.pow_add_r by lia). assert (E53 : 2 ^ (L + 53) = p * 2 ^ 53) by (by rewrite Z.pow_add_r by lia).
  assert (E55 : 2 ^ Z.succ (L + 54) = 2 * (p * 2 ^ 54)) by (rewrite Z.pow_succ_r by lia; by rewrite E54).
  assert (Hdiv : forall s, 0 <= s <= 54 -> (2 ^ s | g * 2 ^ 54)).
  { intros s Hs. exists (g * 2 ^ (54 - s)). rewrite <- Z.mul_assoc, <- Z.pow_add_r by lia. f_equal. f_equal. lia. }
  destruct (decide (p * 2 ^ 54 <= g * 2 ^ 54 + d)) as [Hge|Hlt].
  - assert (El : Z.log2 (g * 2 ^ 54 + d) = L + 54) by (apply Z.log2_unique; [lia|split; lia]). apply round_near; rewrite ?El; [lia|lia|apply Hdiv; lia|].
    replace (L + 54 - 52) with (Z.succ (Z.succ L)) by lia. rewrite !Z.pow_succ_r by lia. fold p. lia.
  - assert (El : Z.log2 (g * 2 ^ 54 + d) = L + 53).
    { apply Z.log2_unique; [lia|]. rewrite E53. replace (Z.succ (L + 53)) with (L + 54) by lia. rewrite E54. lia. }
    assert (Hgp : g = p) by lia. apply round_near; rewrite ?El; [lia|lia|apply Hdiv; lia|].
    replace (L + 53 - 52) with (Z.succ L) by lia. rewrite Z.pow_succ_r by lia. fold p. lia.
Qed.

(** C27: the sanity check of a new copy against the table before it is the window
    it says: with counts below 2^50 the float64 comparison accepts exactly what
    lies within twenty per cent either way, ends included. *)
Theorem validateWithin_exact got want : 0 < want <= 2 ^ 50 -> 0 <= got < 2 ^ 53 ->
  validateWithin got want DefaultCacheSanityDelta = true <-> 4 * want <= 5 * got <= 6 * want.
Proof.
  intros Hw Hg. unfold validateWithin. rewrite decide_False by lia. destruct delta_factors as [-> ->]. unfold of_int64, fmul, flt. cbn [f_num f_scale].
  rewrite !(round53_nonneg got), !(round53_nonneg want), !round_exact by lia. rewrite !round53_nonneg by (unfold low_factor, high_factor; lia).
  rewrite negb_true_iff, orb_false_iff, !Z.ltb_ge. change (0 + 54) with 54. change (2 ^ 0) with 1. rewrite !Z.mul_1_r.
  set (M := want * low_factor). set (N := want * high_factor). pose proof (round_err M ltac:(unfold M, low_factor; lia)) as EM.
  pose proof (round_err N ltac:(unfold N, high_factor; lia)) as EN.
  assert (HM : 5 * M = 4 * want * 2 ^ 54 + 4 * want) by (unfold M, low_factor; lia). assert (HN : 5 * N = 6 * want * 2 ^ 54 - 4 * want) by (unfold N, high_factor; lia).
  assert (Hlow : round_nat M <= got * 2 ^ 54 <-> 4 * want <= 5 * got).
  { destruct (decide (5 * got = 4 * want)) as [E|E]; [|lia]. assert (Hr : round_nat M = got * 2 ^ 54); [|lia].
    replace M with (got * 2 ^ 54 + got) by lia. apply product_near; lia. }
  assert (Hhigh : got * 2 ^ 54 <= round_nat N <-> 5 * got <= 6 * want).
  { destruct (decide (5 * got = 6 * want)) as [E|E]; [|lia]. assert (Hr : round_nat N = got * 2 ^ 54); [|lia].
    replace N with (got * 2 ^ 54 + - (4 * want / 5)) by (Z.to_euclidean_division_equations; lia). apply product_near; Z.to_euclidean_division_equations; lia. }
  lia.
Qed.

(** ** An example

    A table, a format in which lengths precede texts, and a daemon that has
    published once. *)

#[export] Instance gmap_attr_table : AttrTable (gmap Prefix Attr) := {
  attr_empty := ∅;
  attr_Insert t p e := <[p := e]> t;
  attr_Get t p := t !! p;
  attr_Lookup t a := longest_match (fun p => t !! p) a }.
#[export] Instance gmap_attr_table_laws : AttrTableLaws (gmap Prefix Attr).
Proof. split; cbn; [intros p; apply lookup_empty| |done]. intros t p q e _ _. apply lookup_insert. Qed.

Definition ex_encode_row (r : row) : bytes :=
  glen (r_Prefix r) :: r_Prefix r ++ r_ASN r :: glen (r_NetworkOwner r) :: r_NetworkOwner r.
Fixpoint ex_decode (fuel : nat) (b : bytes) : list row :=
  match fuel, b with
  | S fuel, n :: b =>
      match drop (Z.to_nat n) b with
      | asn :: k :: c => mkRow (take (Z.to_nat n) b) asn (take (Z.to_nat k) c) :: ex_decode fuel (drop (Z.to_nat k) c)
      | _ => []
      end
  | _, _ => []
  end.
Definition ex_encode (l : list row) : bytes := l ≫= ex_encode_row.
Lemma ex_decode_encode l : forall fuel, (length (ex_encode l) <= fuel)%nat -> ex_decode fuel (ex_encode l) = l.
Proof.
  induction l as [|[p asn o] l IH]; intros fuel Hf; [by destruct fuel|]. change (ex_encode (mkRow p asn o :: l)) with (ex_encode_row (mkRow p asn o) ++ ex_encode l) in *.
  rewrite length_app in Hf. unfold ex_encode_row in *. cbn [r_Prefix r_ASN r_NetworkOwner app length] in *. rewrite !length_app in Hf. cbn [length] in Hf.
  destruct fuel as [|fuel]; [lia|]. cbn [ex_decode]. rewrite <- !app_assoc. unfold glen. rewrite Nat2Z.id, drop_app_length, take_app_length. cbn [app].
  rewrite Nat2Z.id, drop_app_length, take_app_length. f_equal. apply IH. lia.
Qed.
#[export] Instance ex_codec : Codec := {
  parquet_OpenFile d size := if decide (size = glen d) then Some [(ex_decode (length d) d, ReadEOF)] else None;
  zstd_Decode d := Some (d, false);
  lookup_Encode l := Some (ex_encode l) }.
#[export] Instance ex_codec_laws : CodecLaws.
Proof.
  intros rows data [= <-]. eexists _, _. split; [reflexivity|]. split; [cbn; by rewrite decide_True|]. cbn. f_equal. by apply ex_decode_encode.
Qed.

Definition ex_row (last asn : Z) : row := mkRow ([49; 48; 46; 48; 46; 48; 46; last] ++ [47; 49; 54]) asn [65].
Definition ex_copy (asn : Z) : File := mkFile (ex_encode [ex_row 48 asn]) 7.
Definition ex_fs : FS := mkFS {["/c.zst" := 0%nat; "/p.zst" := 1%nat; "/live" := 2%nat]} {[0%nat := ex_copy 1; 1%nat := ex_copy 2; 2%nat := ex_copy 3]} 3.
Definition ex_artifact : Artifact (gmap Prefix Attr) :=
  match load "/live" (ex_copy 3) (ex_copy 3) with inl a => a | inr _ => mkArtifact ∅ [] zero_Stats end.
(** The rename of the new copy is refused, then its removal. *)
Definition ex_answers : list answer := replicate 10 granted ++ [mkAnswer (fun fs => fs) (Some ErrSys) [] 0; mkAnswer (fun fs => fs) (Some ErrSys) [] 0].
Definition ex_publish (l : list answer) : (Stats + error) * sys := PublishLookupCache "/c.zst" "/p.zst" "1" ex_artifact zero_Stats (mkSys ex_fs [] l).
Lemma ex_names : NoDup (publish_names "/c.zst" "/p.zst" "1").
Proof. apply (bool_decide_unpack (NoDup _)). vm_compute. exact I. Qed.
Lemma ex_wf : wf_fs ex_fs.
Proof.
  intros p i H. cbn in H. repeat (apply lookup_insert_Some in H as [[_ <-]|[_ H]]; [split; [cbn; lia|vm_compute; by eexists]|]).
  apply lookup_singleton_Some in H as [_ <-]. split; [cbn; lia|vm_compute; by eexists].
Qed.
Lemma ex_artifact_wf : artifact_wf ex_artifact.
Proof.
  assert (E : load "/live" (ex_copy 3) (ex_copy 3) = inl ex_artifact) by (vm_compute; reflexivity). by apply load_wf in E.
Qed.
Lemma ex_considerate : Forall (considerate (publish_names "/c.zst" "/p.zst" "1")) ex_answers.
Proof.
  unfold ex_answers. apply Forall_app. split; [apply Forall_replicate, granted_considerate|]. apply Forall_cons. split; [by split|]. apply Forall_singleton. by split.
Qed.
Definition succeeds (x : (Stats + error) * sys) : bool := match x.1 with inl _ => true | _ => false end.

Lemma publish_atomic_witness : serves "/c.zst" ex_artifact (fs (ex_publish []).2) /\ file_at "/p.zst" (fs (ex_publish []).2) = Some (ex_copy 1).
Proof.
  assert (G : succeeds (ex_publish []) = true) by (vm_compute; reflexivity). destruct (ex_publish []) as [r s'] eqn:E. cbn [snd].
  destruct (publish_atomic ex_fs [] "/c.zst" "/p.zst" "1" ex_artifact zero_Stats r s') as [_ Hr].
  - exact ex_names.
  - exact ex_wf.
  - vm_compute. reflexivity.
  - vm_compute. reflexivity.
  - constructor.
  - exact ex_artifact_wf.
  - reflexivity.
  - exact E.
  - destruct r as [st|e]; [|discriminate G]. destruct Hr as (H1 & _ & H2). split; [exact H1|]. rewrite H2.
    + vm_compute. reflexivity.
    + discriminate.
    + vm_compute. by eexists.
Defined.
(** The process stops after the rename was refused, its temporary file there. *)
Definition ex_crash : FS := default ex_fs (trace (ex_publish ex_answers).2 !! 10%nat).
Lemma ex_crash_in : ex_crash ∈ trace (ex_publish ex_answers).2.
Proof.
  assert (G : bool_decide (is_Some (trace (ex_publish ex_answers).2 !! 10%nat)) = true) by (vm_compute; reflexivity). apply bool_decide_eq_true_1 in G as [x Hx].
  unfold ex_crash. rewrite Hx. cbn. by eapply list_elem_of_lookup_2.
Qed.
Definition ex_loaded (asn : Z) : Artifact (gmap Prefix Attr) :=
  match load "/c.zst" (ex_copy asn) (ex_copy asn) with inl a => a | inr _ => mkArtifact ∅ [] zero_Stats end.
Lemma restart_after_crash_witness : is_Some (names ex_crash !! "/c.zst.tmp.1.zst") /\
  exists ix s2, load_first ["/c.zst"; "/p.zst"; "/b.zst"] no_index (alone ex_crash) = (Some "/c.zst", ix, s2) /\
    (tbl ix = Some (table (ex_loaded 1)) \/ tbl ix = Some (table ex_artifact)).
Proof.
  split; [vm_compute; by eexists|]. pose proof ex_crash_in as Hin. revert Hin. generalize ex_crash. intros fs Hin.
  destruct (ex_publish ex_answers) as [r s'] eqn:E.
  apply (restart_after_crash ex_fs ex_answers "/c.zst" "/p.zst" "/b.zst" "1" ex_artifact zero_Stats r s' fs (ex_copy 1) (ex_loaded 1)).
  - exact ex_names.
  - exact ex_wf.
  - vm_compute. reflexivity.
  - vm_compute. reflexivity.
  - exact ex_considerate.
  - exact ex_artifact_wf.
  - reflexivity.
  - exact E.
  - exact Hin.
  - vm_compute. reflexivity.
  - vm_compute. reflexivity.
Defined.
(** Loaded once, then found unchanged. *)
Definition ex_reload (s : sys) (ix : Index) : (option (Artifact (gmap Prefix Attr)) * Index + error) * sys := reloadLocked "/live" false ix s.
Definition ex_index : Index := index_of ex_artifact (ex_copy 3).
Lemma refresh_serves_current_witness : exists r s', ex_reload (mkSys ex_fs (replicate 3 ex_fs) []) ex_index = (inl (r, ex_index), s') /\ r = None /\
  exists a, load "/live" (ex_copy 3) (ex_copy 3) = inl a /\ tbl ex_index = Some (table a).
Proof.
  eexists _, _. split; [vm_compute; reflexivity|]. split; [reflexivity|]. set (H := replicate 4 ex_fs).
  assert (Hat : forall n, (n < 4)%nat -> at_call "/live" H n = Some (ex_copy 3)).
  { intros n Hn. unfold at_call, H. rewrite lookup_replicate_2 by exact Hn. vm_compute. reflexivity. }
  assert (Hlt : forall n f, at_call "/live" H n = Some f -> (n < 4)%nat /\ f = ex_copy 3).
  { intros n f Hn. destruct (decide (n < 4)%nat) as [Hl|Hl]; [rewrite (Hat n Hl) in Hn; by injection Hn as <-|].
    unfold at_call in Hn. rewrite lookup_ge_None_2 in Hn; [done|]. unfold H. rewrite length_replicate. lia. }
  apply (refresh_serves_current "/live" H ex_index (mkSys ex_fs (replicate 3 ex_fs) []) false None ex_index (mkSys ex_fs (replicate 4 ex_fs) []) (ex_copy 3)).
  - intros _ i j k f g Hijk Hi Hk _. apply Hlt in Hi as [_ ->]. apply Hlt in Hk as [Hk _]. apply Hat. lia.
  - eapply (serving_reload _ _ no_index (alone ex_fs) false (Some ex_artifact)); [apply serving_start; by left|vm_compute; reflexivity].
  - vm_compute. reflexivity.
  - done.
  - cbn [trace length replicate]. intros n Hn. apply Hat. lia.
Defined.
Lemma validateWithin_exact_witness : validateWithin 8 10 DefaultCacheSanityDelta = true /\ 4 * 10 <= 5 * 8 <= 6 * 10.
Proof. split; [|lia]. apply (validateWithin_exact 8 10); lia. Defined.

(** The file of a link that rename(2) leaves alone: if the last publication
    failed after the current copy was preserved, the two are one file, and the
    next publication leaves its link to it behind. *)
Lemma link_left_behind : let s1 := (ex_publish (replicate 10 granted ++ [mkAnswer (fun fs => fs) (Some ErrSys) [] 0])).2 in
  let x := PublishLookupCache "/c.zst" "/p.zst" "2" ex_artifact zero_Stats (alone (fs s1)) in
  names (fs s1) !! "/c.zst" = names (fs s1) !! "/p.zst" /\ succeeds x = true /\ names (fs x.2) !! "/p.zst.tmp.2" = names (fs s1) !! "/c.zst".
Proof. vm_compute. done. Qed.
(** A copy whose name does not end in ".zst" is validated under one that does,
    and is refused at the next start. *)
Lemma unsuffixed_copy_refused {T : Type} `{AttrTable T} `{Codec} current (a : Artifact T) data f : HasSuffix current ".zst" = false ->
  lookup_Encode (rows a) = Some data -> parquet_OpenFile data (glen data) = None -> content f = data -> load (T := T) current f f = inr ErrParquet.
Proof. intros Hs _ Hp Hf. unfold load, buildFromReaderAt. by rewrite Hs, Hf, Hp. Qed.
(** Two rows of one prefix, one of a longer. *)
Definition ex_rows : File := mkFile (ex_encode [ex_row 48 1; mkRow [49; 48; 46; 48; 46; 48; 46; 48; 47; 50; 52] 9 [66]; ex_row 57 2; mkRow [47] 5 []]) 7.
Definition ex_loads : (Artifact (gmap Prefix Attr)) + error := load "/live" ex_rows ex_rows.
Lemma lookup_answers_witness : exists a rs, ex_loads = inl a /\ rows_read "/live" ex_rows ex_rows = Some rs /\ length rs = 4%nat /\
  Lookup (index_of a ex_rows) (Addr16 [0; 0; 0; 0; 0; 0; 0; 0; 0; 0; 255; 255; 10; 0; 0; 7]) = Some (mkAttr 9 [66]) /\
  Lookup (index_of a ex_rows) (Addr4 [10; 0; 7; 1]) = Some (mkAttr 2 [65]) /\
  exists before r after p, rs = before ++ r :: after /\ entry_of r = Some (p, mkAttr 2 [65]).
Proof.
  assert (G : match ex_loads with
    | inl a => bool_decide (Lookup (index_of a ex_rows) (Addr16 [0; 0; 0; 0; 0; 0; 0; 0; 0; 0; 255; 255; 10; 0; 0; 7]) = Some (mkAttr 9 [66]) /\
        Lookup (index_of a ex_rows) (Addr4 [10; 0; 7; 1]) = Some (mkAttr 2 [65]))
    | inr _ => false end = true) by (vm_compute; reflexivity).
  assert (N : length <$> rows_read "/live" ex_rows ex_rows = Some 4%nat) by (vm_compute; reflexivity).
  destruct ex_loads as [a|] eqn:E; [|discriminate G]. apply bool_decide_eq_true_1 in G as [G1 G2].
  destruct (lookup_answers "/live" ex_rows ex_rows a (index_of a ex_rows) (Addr4 [10; 0; 7; 1]) E eq_refl eq_refl) as (rs & Hrs & H).
  rewrite Hrs in N. injection N as N. rewrite G2 in H. destruct H as (l1 & r & l2 & p & Hs & Hr & _).
  exists a, rs. split_and!; try done. by exists l1, r, l2, p.
Defined.
